(* ===== verification/_CoqProject ===== *)
-Q . S2P
Prelude.v
DwTables.v
DwUnwind.v
Hashmap.v
Ringbuf.v
Strset.v
Btf.v
BtfBuild.v
BtfBuildSpec.v
BtfIter.v
BtfCopy.v
BtfRaw.v
BtfDedup.v
DedupPrim.v
DedupEquiv.v
DedupStruct.v
DedupLinks.v
DedupFinish.v
DedupRef.v
DedupWhole.v
BtfReloc.v
BtfRelocSpec.v
BtfDistill.v
BtfDistillSpec.v
UsdtArgs.v
UsdtTargets.v
UsdtMan.v
UsdtManSpec.v
CoreCompat.v
CoreSpec.v
CoreRelo.v
ObjProg.v
ObjLink.v
ObjLinkSpec.v
ObjDataSpec.v
Zip.v
ProgLinfo.v
Nlattr.v
Netlink.v
NetlinkSpec.v
NetlinkApi.v
BpfStrings.v
