(* ===== verification/Prelude.v ===== *)
(** * A verification of ubpftrace

    ubpftrace is a tracing tool: a front end compiles tracing scripts to BPF programs, libbpf
    (src/libbpf) loads them into the kernel and relocates them against its type
    information, and BPF code of the tool itself (src/src/stdlib) runs inside the kernel, among
    it a stack unwinder that interprets DWARF call frame information.  The development models
    the C code whose correctness does not depend on the kernel, libelf or LLVM: the unwinder
    with the producer of its tables, the string functions of the tool's BPF library, and the
    data structures, the BTF library with its deduplication and relocation, the CO-RE relocation, the linking of
    programs, the attachment to USDT probes, the zip and line information readers and the netlink
    client of libbpf.

    ** Conventions

    A w-bit integer is a [Z] and every reduction C performs is written out with [wrap]
    ([u8] ... [u64]) or [swrap] ([s16] ... [s64]); bit operations are those of [Z].  Memory is
    a list of bytes or of 32-bit words, read with [zget] and written with [zset].  A function
    that can fail returns the C result (0, a positive answer, a negative errno), so error
    paths are values; [None] is reserved for runs the C code must not have: an access out of
    bounds, a NULL dereference, a division by zero or, for a loop with no bound of its own,
    exhausted fuel.  A theorem that a function returns [Some] therefore says that it is memory
    safe and terminates.  The outcome of an allocation is an argument of the operation that
    allocates; diagnostics are left out.

    ** Files

    - Prelude: machine integers, errno values, bounded arrays, little-endian encoding, the
      tactics and hint databases of the development and the lemmas the components share.
    - DwTables: the tables of the unwinder.  [find_mapping], [uw_read_key], [uw_read_rel_ptr],
      [uw_read_value] and [find_cft] of src/src/stdlib/stack/dwunwind.bpf.c on the reading
      side; the [enc_*] functions and [build_recurse] of src/src/dwarf/dwunwind_table.cpp on
      the writing side.  A chunk is an array of 2^18 bytes that holds a binary tree; [descent]
      is the state of the search.
    - DwUnwind: [eval_expr], [recover_uretprobe_addr], [unwind_step] and [__ustack_dwunwind] of
      dwunwind.bpf.c.  The scratch object of the unwinder is the record [dwunwind_state]; what
      the program obtains from the kernel (maps, user memory, the task, its registers) is the
      record [env].
    - Hashmap: src/libbpf/src/hashmap.c.  The bucket array is a list of chains; the hash and
      equality functions a client supplies are an instance of the class [HashKey].
    - Strset: src/libbpf/src/strset.c over Hashmap, with [libbpf_add_mem] of btf.c.  Keys are
      offsets in the string buffer, so the [HashKey] instance depends on its contents.
    - Ringbuf: src/libbpf/src/ringbuf.c, the consumer of kernel ring buffers against an
      arbitrary concurrent producer ([ring_env] gives the value of every load as a function of
      the number of loads before it) and the producer of user ring buffers.
    - Btf: src/libbpf/src/btf.c and btf.h: parsing of the header and of the string and type
      sections in both byte orders, lookup over split BTF (a list of layers), validation,
      sizes, modifiers and lookup by name.
    - BtfBuild: objects under construction and every function of btf.c that adds to one: strings,
      types of all kinds, members, enumerators, parameters and variables.  An object has the
      words of its types, their offsets, its string set and the capacities of its buffers; a
      [chain] is an object over its base objects; an [oracle] decides every allocation.
    - BtfBuildSpec: what the construction functions promise: abstract operations on a list of
      types, and the refinement.
    - BtfIter: [btf_field_iter_init] and [btf_field_iter_next] (btf_iter.c).
    - BtfCopy: [btf__add_type] and [btf__add_btf] with the rewriting of strings and ids.
    - BtfRaw: [btf_new_empty], [btf_new], [btf_get_raw_data] and the pointer size: the serialised
      form.
    - BtfDedup: [btf__dedup] (btf.c) with all its passes.  The record [btf_dedup] has the object
      over its base, the table of candidates, the map of canonical types and the hypothetical map
      of the equivalence check.  Its theorems are in DedupPrim (hashes, comparisons, integers and
      floats), DedupEquiv (equivalence of type graphs), DedupStruct and DedupLinks (structs and
      unions), DedupFinish (compaction and renumbering), DedupRef (forward declarations and
      reference types) and DedupWhole (the composition).
    - BtfReloc: src/libbpf/src/btf_relocate.c, the relocation of an object over a distilled base to
      the base of the running kernel; the record [btf_relocate_r] has the maps of ids and names.
      BtfRelocSpec has its theorem.
    - BtfDistill: [btf__distill_base] (btf.c), which makes the distilled base and the object over it;
      BtfDistillSpec has its theorem.
    - UsdtArgs: the notes and argument specifications of USDT probes (src/libbpf/src/usdt.c), with an
      interpreter of [sscanf] formats, and the functions of usdt.bpf.h that fetch arguments in a BPF
      program.  The formats and registers are those of x86-64.
    - UsdtTargets: [collect_usdt_targets] of usdt.c: from the notes of a binary to file offsets,
      addresses and semaphores.  The record [elf] has what libelf returns.
    - UsdtMan: the manager of usdt.c: [allocate_spec_id], [usdt_manager_attach_usdt] and
      [bpf_link_usdt_detach].  The BPF maps and the attachment of uprobes are the class
      [ProbeKernel], their documented effect is [ProbeKernelLaws].  UsdtManSpec has the transition
      system of attachments and detachments ([usdt_step]) and its theorems.
    - CoreCompat: essential names, [bpf_core_types_are_compat], [bpf_core_fields_are_compat],
      [bpf_core_types_match] and [bpf_core_add_cands] (relo_core.c, libbpf.c).
    - CoreSpec: access specs: [bpf_core_parse_spec], [bpf_core_match_member] and
      [bpf_core_spec_match] of relo_core.c, with the part of sscanf the parser uses.
    - CoreRelo: [bpf_core_calc_relo] for all relocation kinds, [bpf_core_calc_relo_insn] with
      its choice among candidates, [bpf_core_patch_insn], and the bitfield accessors of
      bpf_core_read.h.
    - ObjProg: the programs of an object file in libbpf.c: [bpf_object__add_programs] makes them of
      the function symbols of a section, [bpf_object__collect_prog_relos] turns ELF relocations
      into descriptors.  What libelf answers is the record [elf_state].
    - ObjLink: [bpf_object__relocate_calls] appends subprograms behind the programs that call them,
      with their descriptors and line records; [bpf_object__relocate_data] writes map, variable and
      function references into the instructions.  ObjLinkSpec and ObjDataSpec have their theorems.
    - Zip: src/libbpf/src/zip.c, the reader of archives, on the bytes of the mapped file.
    - ProgLinfo: src/libbpf/src/bpf_prog_linfo.c, the line information of a loaded program.
    - Nlattr: src/libbpf/src/nlattr.c and nlattr.h: the attributes of netlink messages, read from
      any bytes and written into a request.
    - Netlink: src/libbpf/src/netlink.c: the receive loop, and the functions that attach, detach
      and query XDP and TC programs.  The record [nl_env] holds the answers of the system calls
      of one conversation; a conversation may block, return or make a bad access.
    - NetlinkSpec: attributes, messages and conversations as data, and the refinement of the
      receive loop.
    - NetlinkApi: what the XDP and TC functions send and report.
    - BpfStrings: src/src/stdlib/strings and [__memcmp] of base.bpf.c; the helpers of the kernel
      are the record [kernel] with the laws of the class [KernelLaws].

    The dependencies follow the calls: Strset uses Hashmap; Btf and the construction files use
    Strset for strings; BtfCopy uses BtfBuild and BtfIter, BtfRaw uses BtfBuild and the parser of
    Btf, BtfDedup uses BtfIter, BtfCopy and Hashmap, BtfReloc uses BtfIter, BtfDistill uses BtfBuild,
    BtfCopy and BtfRaw; UsdtMan uses UsdtTargets, UsdtArgs and Hashmap; ObjLink uses ObjProg;
    the three CO-RE files use Btf and each other in the order above; DwUnwind uses DwTables;
    Netlink uses Nlattr.

    ** What the theorems show

    - Unwinder.  On the bytes the builder emits, [find_cft] returns the row with the greatest
      key not above the searched one, and on arbitrary bytes it stays inside the chunk;
      [find_mapping] is a predecessor search.  [eval_expr] refines a stack machine over the
      DWARF operators; [unwind_step] computes every register of the caller by the rule of its
      row; the walk is memory safe for any contents of maps and user memory and fills at most
      the requested frames.
    - Containers.  Hash map operations keep the invariant and refine finite maps (multimaps
      with [HASHMAP_APPEND]) for any allocation outcome; a string set stores a string once, at
      an offset where it can be read back, and never moves stored strings.
    - Ring buffers.  The consumer delivers exactly the committed, not discarded records, in
      order, and advances over what it read; the user side never overwrites unread data and
      its records read back.
    - BTF.  Parsing computes the same table of offsets as a reference parser; data that passes
      [btf_sanity_check] makes later lookups, size resolution and modifier chains safe and
      terminating; results of [btf__resolve_size] are the sizes C gives.
    - BTF construction.  Every construction function keeps a well-formed object well formed and
      does to its list of types what the abstract operation says, for any allocation outcome;
      the field iterator visits exactly the string and type fields of every kind; copying a
      type or a whole object appends the same types with equal names and shifted ids; an object
      survives serialisation in both byte orders; parsing accepts only well-formed objects.
    - Deduplication.  On a sound graph of types [btf__dedup] returns, and when it succeeds the
      types of the object are the quotient of the old ones by a map of canonical types: names and
      kinds of structs are kept, integers and floats are represented by equal ones and no two
      representatives are equal, reference types by types with the same words up to references
      with the same representative ([btf_dedup_quotient], for objects whose strings are already
      unique).  An accepted equivalence check is a simulation between the two type graphs
      ([is_equiv_simulation]), and the map has no cycles ([struct_types_sound]).  That members of
      merged structs are equal is not stated, because it does not hold: [identical_arrays_bug],
      [unverified_merge].
    - Relocation of split BTF.  [btf_relocate] returns; when it succeeds every type of the distilled
      base has one match in the new base, references lead to the matches and names read as before;
      a refusal has a reason in the two bases ([relocate_correct]).
    - Distillation.  [btf__distill_base] copies exactly the base types the object reaches, to the new
      base those that can be found by name, and every id becomes that of the copy of its type
      ([distill_correct]); this needs that a type goes to the new base ([empty_base_dangles]).
    - USDT.  The text of any list of arguments is parsed into a spec with which a BPF program fetches
      exactly the described values ([usdt_args_fetched]); the targets of a binary are those of its
      notes ([collect_targets_exact]).  In every state that attachments, failed attachments and
      detachments lead to, whatever the allocator and the kernel answer, no slot of the specs map is
      used twice ([usdt_ids_exclusive]), and a program fired by a probe of a live link finds the spec
      of that probe ([usdt_probes_served]).
    - Programs.  A section is cut into exactly the programs of its symbols; every collected
      descriptor is one that its instruction and its symbol allow; linking gives every entry-point program exactly the
      subprograms it reaches, each once, with all calls directed at them, and data relocation
      changes exactly the described instructions.
    - Readers.  The zip reader stays inside any file and finds the entries of a written archive;
      the line records of a program are partitioned by function, when the information about them
      is complete, and a search finds the last record at or below an address.
    - Netlink.  Parsing finds the attributes of any bytes without leaving them; what the
      construction functions write is read back; the receive loop refines a conversation on
      messages; an XDP attachment sends one exact message and reports the acknowledgement, a
      query reports the program of the mode from a dump split in any way, a TC request always
      fits its buffer, and every conversation that returns has closed its socket.
    - Strings.  Length, search and concatenation agree with their definitions on C strings and
      stay inside the buffers; the tables of names answer every number.
    - CO-RE.  On valid BTF without cyclic aliases every comparison returns; names match up to flavors; candidate
      lists are exactly the named types of the right kind.  A parsed spec has the bit offset
      of the path it describes, a match in the target describes a field of the same names
      with its bit offset there, and a relocation is accepted only if all matching candidates
      agree on the offset and the value.  The four values of a relocation of a
      bitfield, of a type of 1 to 8 bytes, make the accessors read and write exactly the bits of
      the field.  Patching accepts exactly the supported instructions and changes only the
      operand (and the size of an access) of the addressed one, or poisons it.
    - Deviations of the code from its comments or intentions are theorems too:
      [find_cft_small_table], [zero_return_address_missed], [consume_n_zero],
      [append_find_after_growth], [sanity_check_misses_result_type],
      [first_string_offset_zero], [typedef_cycle_endless], [match_member_not_undone],
      [parse_spec_negative_index], [bitfield_size_zero], [bitfield_wide_type], [add_field_offset_lost],
      [vlen_overflow], [add_btf_failure_crashes], [split_twice_unreadable], [gap_unreadable],
      [errormsg_null], [short_error_reads_stale], [family_id_uninitialised], [qdisc_name_null],
      [strnstr_reads_past_end], [strnstr_larger_buffer], [last_load_overflows],
      [last_function_unordered], [identical_arrays_bug], [unverified_merge],
      [fwd_union_confused], [empty_base_dangles], [failed_attach_keeps_ip],
      [open_paren_unset_length], [unterminated_args_accepted].

    ** Bounds and fuel

    Loops with a constant bound in the source (frames, expression instructions, tree depth,
    recursion depth, 64 accessors) have that bound in the model.  Loops without one get fuel
    that is shown to be enough: the number of types for chains of modifiers and nested arrays
    (well-formed chains do not repeat a type), the number of words left for the type section,
    the length of the string for scanners, the number of published bytes for ring buffers, the
    number of rows for [build_recurse], 65 levels for nested anonymous members (a level uses
    one of 64 accessors), 4 rounds for widening a bitfield load, a quarter of the bytes for
    attributes and a sixteenth for messages (their least sizes), the number of answers for
    the rounds of a conversation, the number of programs for the recursion of linking, 2^16
    rounds for the search of the end record of an archive (its comment has at most 2^16 - 1 bytes),
    and for deduplication the number of types for chains of canonical types, for the levels of an
    equivalence check (each adds an entry to the hypothetical map) and for reference types (each
    level marks an id), and 16 levels of such chains for the structural comparison; for relocation
    the number of entries for the binary search and the number of types for the way from a member
    to the struct it embeds; for distillation the number of types (each level marks an id).

    ** Not modelled

    ELF and system calls (libbpf.c beyond the functions above, bpf.c, elf.c): most of this code
    passes arguments to the kernel or to libelf.  Memory mapping and epoll of ring buffers.  The
    .BTF.ext section of an object in deduplication, btf_dump.c (it prints through a callback),
    linker.c and gen_loader.c; the parsers of USDT arguments of machines other than x86-64; the wrappers of kernel helpers in
    src/src/stdlib; the C++ front end of the tool and the C++ runtime of bpftime.  The theorem on
    the whole of deduplication assumes unique strings; the pass over strings is modelled without
    a theorem of its own.  Big-endian hosts in CO-RE bitfield relocations and netlink messages. *)
From Stdlib Require Import ZArith Lia.
From stdpp Require Import base numbers list gmap sorting.

#[global] Open Scope Z_scope.

(** ** Machine integers

    A w-bit unsigned object holds a [Z] in [0, 2^w); [wrap] is the reduction C
    performs when a value is stored in it.  [swrap] is the two's complement
    reduction of a signed w-bit object. *)
Definition wrap (w z : Z) : Z := z mod 2 ^ w.
Definition swrap (w z : Z) : Z := (z + 2 ^ (w - 1)) mod 2 ^ w - 2 ^ (w - 1).

Declare Scope word_scope.
Delimit Scope word_scope with word.
Abbreviation u8 := (wrap 8).
Abbreviation u16 := (wrap 16).
Abbreviation u32 := (wrap 32).
Abbreviation u64 := (wrap 64).
Abbreviation s8 := (swrap 8).
Abbreviation s16 := (swrap 16).
Abbreviation s32 := (swrap 32).
Abbreviation s64 := (swrap 64).

Notation "x |' y" := (Z.lor x y) (at level 50, left associativity) : word_scope.
Notation "x &' y" := (Z.land x y) (at level 40, left associativity) : word_scope.
Notation "x <<' n" := (Z.shiftl x n) (at level 33, left associativity) : word_scope.
Notation "x >>' n" := (Z.shiftr x n) (at level 33, left associativity) : word_scope.
#[global] Open Scope word_scope.

(** ** Errno values used by the C sources (asm-generic/errno). *)
Definition EPERM := 1.
Definition ENOENT := 2.
Definition ESRCH := 3.
Definition EINTR := 4.
Definition E2BIG := 7.
Definition EAGAIN := 11.
Definition ENOMEM := 12.
Definition EEXIST := 17.
Definition EINVAL := 22.
Definition ENOSPC := 28.
Definition ERANGE := 34.
Definition ENAMETOOLONG := 36.
Definition EMSGSIZE := 90.
Definition EOPNOTSUPP := 95.
Definition EUCLEAN := 117.

(** A [bool] stored in an [int]. *)
Definition bool_int (b : bool) : Z := if b then 1 else 0.

(** ** Arrays indexed by machine integers

    [zget l i] is [l\[i\]], [None] when the access is out of bounds: in the models
    [None] always stands for an access the C program must not make. *)
Definition zget {A} (l : list A) (i : Z) : option A :=
  if decide (0 <= i) then l !! Z.to_nat i else None.

Definition zset {A} (l : list A) (i : Z) (x : A) : option (list A) :=
  if decide (0 <= i < Z.of_nat (length l)) then Some (<[Z.to_nat i := x]> l) else None.

(** Allocation outcomes: every allocation a call can make is addressed by a path of numbers,
    so an oracle gives all combinations of outcomes. *)
Definition oracle := list Z -> bool.
Definition sub (k : Z) (al : oracle) : oracle := fun p => al (k :: p).
Definition alloc_fails (al : oracle) : Prop := exists p, al p = false.

(** Little-endian value of a byte sequence, and the bytes of a value. *)
Fixpoint le_bytes (n : nat) (z : Z) : list Z :=
  match n with
  | O => []
  | S n => z mod 256 :: le_bytes n (z / 256)
  end.

Fixpoint le_value (l : list Z) : Z :=
  match l with
  | [] => 0
  | b :: l => b + 256 * le_value l
  end.

(** Byte buffers. *)
Definition bytes_ok (l : list Z) : Prop := Forall (fun b => 0 <= b < 256) l.

(** [n] bytes at [off], and their value as a little-endian integer. *)
Definition bytes_at (data : list Z) (off : Z) (n : nat) : option (list Z) :=
  if decide (0 <= off /\ off + Z.of_nat n <= Z.of_nat (length data)) then Some (take n (drop (Z.to_nat off) data)) else None.
Definition get_le (n : nat) (data : list Z) (off : Z) : option Z := l ← bytes_at data off n; Some (le_value l).

(** ** Tactics of the development *)
Create HintDb ubpf.
Create Rewrite HintDb ubpf_words.

(** Break the [if]s on boolean integer tests in the goal or in a hypothesis,
    turning each test into the proposition it decides. *)
Ltac bdestruct_step b :=
  lazymatch b with
  | (?x <=? ?y) => destruct (Z.leb_spec x y)
  | (?x <? ?y) => destruct (Z.ltb_spec x y)
  | (?x =? ?y) => destruct (Z.eqb_spec x y)
  | (?x >=? ?y) => rewrite (Z.geb_leb x y); destruct (Z.leb_spec y x)
  | (?x >? ?y) => rewrite (Z.gtb_ltb x y); destruct (Z.ltb_spec y x)
  | _ => destruct b eqn:?
  end.

Ltac bcase :=
  match goal with
  | |- context [if ?b then _ else _] =>
      lazymatch type of b with bool => bdestruct_step b end
  end.

Ltac bcase_in H :=
  match type of H with
  | context [if ?b then _ else _] =>
      lazymatch b with
      | (?x <=? ?y) => destruct (Z.leb_spec x y)
      | (?x <? ?y) => destruct (Z.ltb_spec x y)
      | (?x =? ?y) => destruct (Z.eqb_spec x y)
      | (?x >=? ?y) => rewrite (Z.geb_leb x y) in H; destruct (Z.leb_spec y x)
      | (?x >? ?y) => rewrite (Z.gtb_ltb x y) in H; destruct (Z.ltb_spec y x)
      | _ => destruct b eqn:?
      end
  end.

(** Invert the binds of the option monad in a hypothesis. *)
Ltac obind_inv H :=
  repeat (apply bind_Some in H;
          let x := fresh "x" in let E := fresh "E" in
          destruct H as (x & E & H); simpl in H).

(** [lia] after unfolding the word reductions into quotient and remainder. *)
Ltac word_lia := unfold wrap, swrap in *; cbn [Z.sub Z.pow Z.pow_pos Pos.iter Z.mul Pos.mul Z.add Z.opp Z.pos_sub] in *;
  Z.div_mod_to_equations; lia.

(** ** Words *)
Lemma wrap_range w z : 0 <= w -> 0 <= wrap w z < 2 ^ w.
Proof. intros. apply Z.mod_pos_bound, Z.pow_pos_nonneg; lia. Qed.

Lemma wrap_small w z : 0 <= z < 2 ^ w -> wrap w z = z.
Proof. apply Z.mod_small. Qed.

Lemma wrap_wrap w z : wrap w (wrap w z) = wrap w z.
Proof. apply Zmod_mod. Qed.

Lemma wrap_add_l w a b : wrap w (wrap w a + b) = wrap w (a + b).
Proof. apply Zplus_mod_idemp_l. Qed.

Lemma wrap_add_r w a b : wrap w (a + wrap w b) = wrap w (a + b).
Proof. apply Zplus_mod_idemp_r. Qed.

Lemma wrap_sub_l w a b : wrap w (wrap w a - b) = wrap w (a - b).
Proof. apply Zminus_mod_idemp_l. Qed.

Lemma wrap_sub_r w a b : wrap w (a - wrap w b) = wrap w (a - b).
Proof. apply Zminus_mod_idemp_r. Qed.

Lemma swrap_small w z : 0 < w -> - 2 ^ (w - 1) <= z < 2 ^ (w - 1) -> swrap w z = z.
Proof.
  intros Hw H. unfold swrap.
  assert (2 ^ w = 2 * 2 ^ (w - 1)) by (rewrite <- Z.pow_succ_r by lia; f_equal; lia).
  rewrite Z.mod_small; lia.
Qed.

Lemma swrap_range w z : 0 < w -> - 2 ^ (w - 1) <= swrap w z < 2 ^ (w - 1).
Proof.
  intros Hw. unfold swrap.
  assert (2 ^ w = 2 * 2 ^ (w - 1)) by (rewrite <- Z.pow_succ_r by lia; f_equal; lia).
  pose proof (Z.mod_pos_bound (z + 2 ^ (w - 1)) (2 ^ w)). 
  assert (0 < 2 ^ (w - 1)) by (apply Z.pow_pos_nonneg; lia). lia.
Qed.

#[export] Hint Resolve wrap_range : ubpf.
#[export] Hint Rewrite wrap_wrap wrap_add_l wrap_add_r wrap_sub_l wrap_sub_r : ubpf_words.

(** The bits of a value below [2 ^ n] stop at [n]. *)
Lemma testbit_small l n i : 0 <= l < 2 ^ n -> n <= i -> Z.testbit l i = false.
Proof.
  intros Hl Hi. destruct (decide (l = 0)) as [->|]; [apply Z.bits_0|].
  apply Z.bits_above_log2; [lia|]. apply Z.log2_lt_pow2; [lia|].
  apply Z.lt_le_trans with (2 ^ n); [lia|]. apply Z.pow_le_mono_r; lia.
Qed.

(** A disjoint [lor] of a shifted high part and a low part is their sum. *)
Lemma lor_shiftl_add h l n : 0 <= n -> 0 <= l < 2 ^ n -> Z.lor (Z.shiftl h n) l = h * 2 ^ n + l.
Proof.
  intros Hn Hl.
  assert (Z.land (Z.shiftl h n) l = 0) as Hd.
  { apply Z.bits_inj'. intros i Hi. rewrite Z.land_spec, Z.bits_0.
    destruct (decide (i < n)); [by rewrite Z.shiftl_spec_low|].
    by rewrite (testbit_small l n i), andb_false_r by lia. }
  rewrite <- Z.lxor_lor, <- Z.add_nocarry_lxor by done.
  by rewrite Z.shiftl_mul_pow2.
Qed.

(** ** Bytes and little-endian values *)
Lemma le_bytes_length n z : length (le_bytes n z) = n.
Proof. revert z; induction n; simpl; auto. Qed.

Lemma le_value_bytes n z : le_value (le_bytes n z) = z mod 256 ^ Z.of_nat n.
Proof.
  revert z; induction n as [|n IH]; intros z.
  - simpl. by rewrite Z.mod_1_r.
  - cbn [le_bytes le_value]. rewrite IH, Nat2Z.inj_succ, Z.pow_succ_r by lia.
    rewrite Z.rem_mul_r by (try apply Z.pow_nonzero; lia). lia.
Qed.

Lemma le_bytes_range n z : Forall (fun b => 0 <= b < 256) (le_bytes n z).
Proof.
  revert z; induction n as [|n IH]; intros z; constructor; [|apply IH].
  apply Z.mod_pos_bound; lia.
Qed.

Lemma le_value_range l : Forall (fun b => 0 <= b < 256) l -> 0 <= le_value l < 256 ^ Z.of_nat (length l).
Proof.
  induction 1 as [|b l Hb Hl IH]; [done|].
  cbn [le_value length]. rewrite Nat2Z.inj_succ, Z.pow_succ_r by lia. lia.
Qed.

Lemma le_bytes_value l : Forall (fun b => 0 <= b < 256) l -> le_bytes (length l) (le_value l) = l.
Proof.
  induction 1 as [|b l Hb Hl IH]; [done|]. cbn [le_value length le_bytes].
  rewrite (Z.mul_comm 256), Z_mod_plus_full, Z.mod_small by lia.
  rewrite Z.div_add, (Z.div_small b), Z.add_0_l by lia. by rewrite IH.
Qed.

(** Reads inside a buffer. *)
Lemma get_le_ok n data off : bytes_ok data -> 0 <= off -> off + Z.of_nat n <= Z.of_nat (length data) ->
  exists v, get_le n data off = Some v /\ 0 <= v < 256 ^ Z.of_nat n.
Proof.
  intros Hb Ho He. unfold get_le, bytes_at. rewrite decide_True by lia. cbn [mbind option_bind]. eexists. split; [done|].
  pose proof (le_value_range (take n (drop (Z.to_nat off) data))) as Hr. rewrite length_take, length_drop in Hr.
  replace (n `min` (length data - Z.to_nat off))%nat with n in Hr by lia. apply Hr. by apply Forall_take, Forall_drop.
Qed.

Lemma bytes_at_ok data off n : 0 <= off -> off + Z.of_nat n <= Z.of_nat (length data) ->
  bytes_at data off n = Some (take n (drop (Z.to_nat off) data)).
Proof. intros. unfold bytes_at. by rewrite decide_True by lia. Qed.

(** ** Arrays *)
Lemma zget_Some {A} (l : list A) i x : zget l i = Some x <-> 0 <= i /\ l !! Z.to_nat i = Some x.
Proof. unfold zget. case_decide; naive_solver. Qed.

Lemma zget_lt {A} (l : list A) i x : zget l i = Some x -> 0 <= i < Z.of_nat (length l).
Proof. intros [? H]%zget_Some. apply lookup_lt_Some in H. lia. Qed.

Lemma zget_nat {A} (l : list A) i : zget l (Z.of_nat i) = l !! i.
Proof. unfold zget. rewrite decide_True by lia. by rewrite Nat2Z.id. Qed.

Lemma zget_is_Some {A} (l : list A) i : 0 <= i < Z.of_nat (length l) -> exists x, zget l i = Some x.
Proof.
  intros H. destruct (lookup_lt_is_Some_2 l (Z.to_nat i)) as [x Hx]; [lia|].
  exists x. apply zget_Some. split; [lia|done].
Qed.

Lemma zset_Some {A} (l l' : list A) i x :
  zset l i x = Some l' <-> 0 <= i < Z.of_nat (length l) /\ l' = <[Z.to_nat i := x]> l.
Proof. unfold zset. case_decide; naive_solver. Qed.

Lemma zset_length {A} (l l' : list A) i x : zset l i x = Some l' -> length l' = length l.
Proof. intros [_ ->]%zset_Some. apply length_insert. Qed.

Lemma zget_zset_eq {A} (l l' : list A) i x : zset l i x = Some l' -> zget l' i = Some x.
Proof. intros [? ->]%zset_Some. apply zget_Some. split; [lia|]. apply list_lookup_insert_eq. lia. Qed.

Lemma zget_zset_ne {A} (l l' : list A) i j x : zset l i x = Some l' -> i <> j -> zget l' j = zget l j.
Proof.
  intros [? ->]%zset_Some ?. unfold zget. case_decide; [|done].
  apply list_lookup_insert_ne. lia.
Qed.

Lemma zset_is_Some {A} (l : list A) i x : 0 <= i < Z.of_nat (length l) -> exists l', zset l i x = Some l'.
Proof. intros. unfold zset. rewrite decide_True by lia. eauto. Qed.

Lemma zget_app_l {A} (l l' : list A) i : i < Z.of_nat (length l) -> zget (l ++ l') i = zget l i.
Proof. intros H. unfold zget. case_decide; [|done]. apply lookup_app_l. lia. Qed.

Lemma zget_app_r {A} (l l' : list A) i : 0 <= i -> zget (l ++ l') (Z.of_nat (length l) + i) = zget l' i.
Proof.
  intros H. unfold zget. rewrite !decide_True by lia. rewrite lookup_app_r by lia. f_equal. lia.
Qed.

Lemma zget_map {A B} (f : A -> B) (l : list A) i : zget (map f l) i = f <$> zget l i.
Proof. unfold zget. case_decide; [|done]. apply list_lookup_fmap. Qed.

Lemma elem_of_zget {A} (l : list A) x : x ∈ l <-> exists i, zget l i = Some x.
Proof.
  split.
  - intros [i Hi]%list_elem_of_lookup. exists (Z.of_nat i). apply zget_Some. rewrite Nat2Z.id. split; [lia|done].
  - intros [i [_ Hi]%zget_Some]. by eapply list_elem_of_lookup_2.
Qed.

Lemma zget_elem {A} (l : list A) i x : zget l i = Some x -> x ∈ l.
Proof. intros H. apply elem_of_zget. by exists i. Qed.

(** ** [bsearch] of the C library

    [cmp] compares the key with an element; the search looks between the indices [l] and [u]. *)
Fixpoint bsearch_loop {A} (fuel : nat) (cmp : A -> Z) (base : list A) (l u : Z) : option (option A) :=
  match fuel with
  | O => None
  | S fuel =>
    if l <? u then
      let idx := (l + u) / 2 in
      p ← zget base idx;
      let c := cmp p in
      if c <? 0 then bsearch_loop fuel cmp base l idx
      else if c >? 0 then bsearch_loop fuel cmp base (idx + 1) u
      else Some (Some p)
    else Some None
  end.
Definition bsearch {A} (cmp : A -> Z) (base : list A) : option (option A) :=
  bsearch_loop (S (length base)) cmp base 0 (Z.of_nat (length base)).

(** The array is ordered for the key: elements above it come last, elements below it first. *)
Definition bsearch_sorted {A} (cmp : A -> Z) (base : list A) : Prop :=
  forall i j x y, i < j -> zget base i = Some x -> zget base j = Some y -> (cmp x < 0 -> cmp y < 0) /\ (cmp y > 0 -> cmp x > 0).

Lemma bsearch_loop_spec {A} (cmp : A -> Z) base fuel l u : bsearch_sorted cmp base ->
  0 <= l -> u <= Z.of_nat (length base) -> Z.max 0 (u - l) < Z.of_nat fuel ->
  (forall i x, zget base i = Some x -> i < l -> cmp x > 0) -> (forall i x, zget base i = Some x -> u <= i -> cmp x < 0) ->
  exists r, bsearch_loop fuel cmp base l u = Some r /\
    match r with Some p => p ∈ base /\ cmp p = 0 | None => forall p, p ∈ base -> cmp p <> 0 end.
Proof.
  intros Hs. revert l u. induction fuel as [|fuel IH]; intros l u Hl Hu Hf Hlo Hhi; [lia|]. cbn [bsearch_loop].
  destruct (Z.ltb_spec l u) as [Hlu|Hlu].
  2: { exists None. split; [done|]. intros p [i Hi]%elem_of_zget. destruct (decide (i < l)); [pose proof (Hlo i p Hi ltac:(lia))|pose proof (Hhi i p Hi ltac:(lia))]; lia. }
  assert (l <= (l + u) / 2 < u) as Hm by (Z.div_mod_to_equations; lia).
  destruct (zget_is_Some base ((l + u) / 2)) as [p Hp]; [lia|]. rewrite Hp. cbn [mbind option_bind].
  destruct (Z.ltb_spec (cmp p) 0); [|rewrite Z.gtb_ltb; destruct (Z.ltb_spec 0 (cmp p))].
  - apply IH; try lia; [done|]. intros i x Hi Hge. destruct (decide (i = (l + u) / 2)) as [->|]; [by simplify_eq|].
    apply (Hs ((l + u) / 2) i p x); [lia|done..].
  - apply IH; try lia; [|done]. intros i x Hi Hge. destruct (decide (i = (l + u) / 2)) as [->|]; [simplify_eq; lia|].
    apply (Hs i ((l + u) / 2) x p); [lia|done|done|lia].
  - exists (Some p). split; [done|]. split; [|lia]. apply elem_of_zget. eauto.
Qed.

Lemma bsearch_spec {A} (cmp : A -> Z) base : bsearch_sorted cmp base ->
  exists r, bsearch cmp base = Some r /\
    match r with Some p => p ∈ base /\ cmp p = 0 | None => forall p, p ∈ base -> cmp p <> 0 end.
Proof. intros Hs. apply bsearch_loop_spec; try done; try lia; intros i x Hi%zget_lt ?; lia. Qed.

(** ** Bit operations as arithmetic *)
Lemma land_mask x n : 0 <= n -> Z.land x (2 ^ n - 1) = x mod 2 ^ n.
Proof. intros. rewrite <- Z.land_ones by done. f_equal. rewrite Z.ones_equiv. lia. Qed.

Lemma land_bit_eqb x n : 0 <= n -> (Z.land x (2 ^ n) =? 0) = negb (Z.testbit x n).
Proof.
  intros Hn. destruct (Z.testbit x n) eqn:E; simpl.
  - apply Z.eqb_neq. intros H. apply (f_equal (fun z => Z.testbit z n)) in H.
    rewrite Z.land_spec, Z.pow2_bits_true, E, Z.bits_0 in H by done. done.
  - apply Z.eqb_eq, Z.bits_inj'. intros i Hi.
    rewrite Z.land_spec, Z.pow2_bits_eqb, Z.bits_0 by done.
    destruct (Z.eqb_spec n i) as [->|]; [by rewrite E|apply andb_false_r].
Qed.

Lemma testbit_top x n : 0 <= n -> 0 <= x < 2 ^ (n + 1) -> Z.testbit x n = (2 ^ n <=? x).
Proof.
  intros Hn Hx. rewrite Z.testbit_odd, Z.shiftr_div_pow2 by done.
  rewrite Z.pow_add_r in Hx by lia. change (2 ^ 1) with 2 in Hx.
  destruct (Z.leb_spec (2 ^ n) x).
  - by replace (x / 2 ^ n) with 1 by (apply (Z.div_unique _ _ 1 (x - 2 ^ n)); lia).
  - by rewrite Z.div_small by lia.
Qed.

Lemma shr_div x n : 0 <= n -> x >>' n = x / 2 ^ n.
Proof. apply Z.shiftr_div_pow2. Qed.

Lemma lor_tag h l n : 0 <= n -> 0 <= l < 2 ^ n -> (h * 2 ^ n) |' l = h * 2 ^ n + l.
Proof. intros. rewrite <- (lor_shiftl_add h l n), Z.shiftl_mul_pow2 by lia. done. Qed.

Lemma wrap_swrap w z : 0 < w -> wrap w (swrap w z) = wrap w z.
Proof.
  intros Hw. unfold wrap, swrap. rewrite Zminus_mod_idemp_l. f_equal. lia.
Qed.


(** A bounded integer, for proofs by enumeration. *)
Lemma small_nat z n : 0 <= z <= Z.of_nat n -> exists i, (i <= n)%nat /\ z = Z.of_nat i.
Proof. intros H. exists (Z.to_nat z). lia. Qed.

Lemma fails_sub k al : alloc_fails (sub k al) -> alloc_fails al.
Proof. intros [p Hp]. by exists (k :: p). Qed.

(** ** Lists *)
Lemma StronglySorted_lookup_le {A} (R : A -> A -> Prop) `{!Reflexive R} l i j x y :
  StronglySorted R l -> (i <= j)%nat -> l !! i = Some x -> l !! j = Some y -> R x y.
Proof.
  intros H. revert i j. induction H as [|a l Hs IH Hf]; intros i j Hij Hi Hj; [done|].
  destruct i as [|i], j as [|j]; simplify_eq/=; try done; try lia.
  - rewrite Forall_lookup in Hf. by eapply Hf.
  - apply (IH i j); auto; lia.
Qed.

(** Splitting a list at a monotone boundary: the filter is the prefix. *)
Lemma filter_prefix {A} (P : A -> Prop) {Pdec : forall x, Decision (P x)} l k :
  (forall i x, l !! i = Some x -> (P x <-> (i < k)%nat)) -> filter P l = take k l.
Proof.
  revert k; induction l as [|a l IH]; intros k H; [by rewrite take_nil|].
  destruct k as [|k].
  - simpl. rewrite filter_cons_False by (rewrite (H 0%nat a) by done; lia).
    rewrite (IH 0%nat), take_0; [done|]. intros i x Hi. rewrite (H (S i) x Hi). lia.
  - simpl. rewrite filter_cons_True by (rewrite (H 0%nat a) by done; lia).
    f_equal. apply IH. intros i x Hi. rewrite (H (S i) x Hi). lia.
Qed.

Lemma last_take_S {A} (l : list A) k x : l !! k = Some x -> last (take (S k) l) = Some x.
Proof. intros H. by rewrite (take_S_r _ _ _ H), last_snoc. Qed.

Lemma filter_none {A} (P : A -> Prop) {Pdec : forall x, Decision (P x)} l :
  Forall (fun x => ~ P x) l -> filter P l = [].
Proof. induction 1; [done|]. by rewrite filter_cons_False. Qed.

