(* ===== verification/DwTables.v ===== *)
(** * The tables of the DWARF unwinder

    Lookup side: src/src/stdlib/stack/dwunwind.bpf.c ([find_mapping],
    [uw_read_key], [uw_read_rel_ptr], [uw_read_value], [find_cft]).
    Producer side: src/src/dwarf/dwunwind_table.cpp ([enc_*], [build_recurse]).

    A chunk of unwind table is a compact binary tree in a 256 KiB byte array.
    The development proves that lookups never leave the array whatever its
    contents, and that on the bytes the builder emits they return the entry with
    the greatest key not above the searched one. *)
From stdpp Require Import base numbers list gmap sorting.
From S2P Require Import Prelude.

Definition MAX_MAPPINGS := 1000.
Definition MAX_MAPPINGS_BISECT_STEPS := 10%nat.
Definition OFFSETMAP_SIZE := 262144.
Definition MAX_OFFSETS_BISECT_STEPS := 17%nat.

(** The verifier hack of the source: two exclusive-ors with the same seed. *)
Definition opaquify_ul (val seed : Z) : Z := Z.lxor (Z.lxor val seed) seed.

(** ** Memory map of a process *)
Module Mapping.

Record map_entry := MapEntry {
  vma_start : Z;
  me_offset : Z;
  offsetmap_id : Z;
  start_in_map : Z
}.

(** [entries] lists the first elements of the C array of [MAX_MAPPINGS]; the
    elements after the listed ones are zero, as in a fresh map value. *)
Record mapping := Mapping {
  nentries : Z;
  entries : list map_entry
}.

Definition entry_at (m : mapping) (i : Z) : option map_entry :=
  if (0 <=? i) && (i <? MAX_MAPPINGS)
  then Some (default (MapEntry 0 0 0 0) (entries m !! Z.to_nat i))
  else None.

(** The [for] loop: [steps] iterations are left; the result is [left]. *)
Fixpoint find_mapping_loop (steps : nat) (m : mapping) (ip left right : Z) : option Z :=
  match steps with
  | O => Some left
  | S steps =>
    if left <? right then
      let mid := (left + right) / 2 in
      let mid := opaquify_ul mid ip in
      if mid >=? MAX_MAPPINGS then Some left
      else
        me ← entry_at m mid;
        if vma_start me <=? ip
        then find_mapping_loop steps m ip (mid + 1) right
        else find_mapping_loop steps m ip left mid
    else Some left
  end.

(** [Some None] is the C function returning [NULL]. *)
Definition find_mapping (m : mapping) (ip : Z) : option (option map_entry) :=
  let n := u32 (nentries m) in
  let n := if n >? MAX_MAPPINGS then MAX_MAPPINGS else n in
  left ← find_mapping_loop MAX_MAPPINGS_BISECT_STEPS m ip 0 n;
  if left =? 0 then Some None
  else
    let left := left - 1 in
    let left := opaquify_ul left ip in
    if left >=? MAX_MAPPINGS then Some None
    else me ← entry_at m left; Some (Some me).

End Mapping.

(** ** Reading the compact tree *)
Module Reader.

(** [ptr] lists the first bytes of the [OFFSETMAP_SIZE] bytes of an offsetmap, the
    rest being zero. *)
Definition om_byte (ptr : list Z) (i : Z) : option Z :=
  if (0 <=? i) && (i <? OFFSETMAP_SIZE)
  then Some (default 0 (ptr !! Z.to_nat i))
  else None.

(** A load of an [n]-byte integer at [&ptr\[pos\]] on a little-endian machine. *)
Fixpoint om_le (n : nat) (ptr : list Z) (pos : Z) : option Z :=
  match n with
  | O => Some 0
  | S n => b ← om_byte ptr pos; v ← om_le n ptr (pos + 1); Some (b + 256 * v)
  end.

(** The readers return the value read and the advanced [*pos]. *)
Definition uw_read_key (ptr : list Z) (pos : Z) : option (Z * Z) :=
  b ← om_byte ptr pos;
  let pos := pos + 1 in
  if b <=? 0xde then Some (u64 (b - 111), pos)
  else if b =? 0xdf then
    key ← om_le 8 ptr pos;
    Some (key, pos + 8)
  else
    b1 ← om_byte ptr pos;
    let key := ((b &' 0x1f) <<' 8) |' b1 in
    let key := if key &' 0x1000 =? 0 then key else key |' u64 (Z.lnot 0x1fff) in
    Some (key, pos + 1).

Definition uw_read_rel_ptr (ptr : list Z) (pos : Z) : option (Z * Z * bool) :=
  b ← om_byte ptr pos;
  let pos := pos + 1 in
  if b <=? 0xcf then Some (b, pos, false)
  else if b <=? 0xd7 then
    w ← om_le 2 ptr pos;
    Some (((b &' 0x07) <<' 16) |' w, pos + 2, false)
  else if b <=? 0xdf then
    w ← om_le 2 ptr pos;
    Some (((b &' 0x07) <<' 16) |' w, pos + 2, true)
  else Some (b &' 0x1f, pos, true).

Definition uw_read_value (ptr : list Z) (pos : Z) : option (Z * Z) :=
  b ← om_byte ptr pos;
  let pos := pos + 1 in
  if b <=? 0xf6 then Some (b, pos)
  else if b =? 0xf7 then
    b0 ← om_byte ptr pos;
    b1 ← om_byte ptr (pos + 1);
    b2 ← om_byte ptr (pos + 2);
    Some ((b0 <<' 16) |' (b1 <<' 8) |' b2, pos + 3)
  else
    b1 ← om_byte ptr pos;
    Some (((b &' 0x07) <<' 8) |' b1, pos + 1).

(** How the descent loop of [find_cft] ends: by a [return], or at the leaf code
    with the position, parent key and best value reached. *)
Inductive descent := Return (r : Z) | AtLeaf (pos parent_key best : Z).

Fixpoint find_cft_loop (steps : nat) (ptr : list Z) (search_key : Z)
    (is_leaf : bool) (parent_key pos best : Z) : option descent :=
  match steps with
  | O => Some (AtLeaf pos parent_key best)
  | S steps =>
    let pos := opaquify_ul pos search_key in
    let best := opaquify_ul best search_key in
    if pos >=? OFFSETMAP_SIZE - 15 then Some (Return (-1))
    else
      '(current_key, pos) ← uw_read_key ptr pos;
      if current_key =? 0 then Some (Return (s32 best))
      else
        let current_key := u64 (current_key + parent_key) in
        let current_key := opaquify_ul current_key search_key in
        let parent_key := current_key in
        if is_leaf then Some (AtLeaf pos parent_key best)
        else
          b ← om_byte ptr pos;
          if b =? 0 then Some (AtLeaf (pos + 1) parent_key best)
          else
            '(rel_ptr, pos, is_leaf) ← uw_read_rel_ptr ptr pos;
            if search_key <? current_key then
              find_cft_loop steps ptr search_key is_leaf parent_key (pos + rel_ptr) best
            else
              '(best, pos) ← uw_read_value ptr pos;
              find_cft_loop steps ptr search_key is_leaf parent_key pos best
  end.

(** The leaf node case. *)
Definition find_cft_leaf (ptr : list Z) (search_key pos parent_key best : Z) : option Z :=
  if pos >=? OFFSETMAP_SIZE - 15 then Some (-1)
  else
    '(left_key, pos) ← uw_read_key ptr pos;
    '(left_value, pos) ← uw_read_value ptr pos;
    if pos >=? OFFSETMAP_SIZE - 15 then Some (-1)
    else
      '(own_value, pos) ← uw_read_value ptr pos;
      if search_key <? parent_key then
        if negb (left_key =? 0) && (search_key >=? u64 (left_key + parent_key))
        then Some (s32 left_value)
        else Some (s32 best)
      else if pos >=? OFFSETMAP_SIZE - 15 then Some (-1)
      else
        '(right_key, pos) ← uw_read_key ptr pos;
        '(right_value, pos) ← uw_read_value ptr pos;
        if negb (right_key =? 0) && (search_key >=? u64 (right_key + parent_key))
        then Some (s32 right_value)
        else Some (s32 own_value).

(** The search in one chunk: the descent, then the leaf it ends in. *)
Definition find_cft_from (steps : nat) (ptr : list Z) (search_key : Z) (is_leaf : bool)
    (parent_key pos best : Z) : option Z :=
  d ← find_cft_loop steps ptr search_key is_leaf parent_key pos best;
  match d with
  | Return r => Some r
  | AtLeaf pos parent_key best => find_cft_leaf ptr search_key pos parent_key best
  end.

(** [offsetmaps] is [bpf_map_lookup_elem] on the map [dwunwind_offsetmaps];
    [best] starts as the unsigned long [-1]. *)
Definition find_cft (offsetmaps : Z -> option (list Z))
    (offsetmap_id start_in_map search_key : Z) : option Z :=
  match offsetmaps offsetmap_id with
  | None => Some (-1)
  | Some ptr =>
    find_cft_from MAX_OFFSETS_BISECT_STEPS ptr search_key false 0 start_in_map (u64 (-1))
  end.

End Reader.

(** ** Building the compact tree (user space) *)
Module Builder.

Definition byte_of (z : Z) : Z := u8 z.

Definition enc_rel_key (rel_key : Z) : list Z :=
  let ukey := u64 rel_key in
  if (-111 <=? rel_key) && (rel_key <=? 111) then [byte_of (rel_key + 111)]
  else if (-0x1000 <=? rel_key) && (rel_key <? 0x1000) then
    [byte_of (0xe0 |' ((ukey >>' 8) &' 0x1f)); byte_of (ukey &' 0xff)]
  else
    [0xdf; byte_of (ukey &' 0xff); byte_of ((ukey >>' 8) &' 0xff);
     byte_of ((ukey >>' 16) &' 0xff); byte_of ((ukey >>' 24) &' 0xff);
     byte_of ((ukey >>' 32) &' 0xff); byte_of ((ukey >>' 40) &' 0xff);
     byte_of ((ukey >>' 48) &' 0xff); byte_of ((ukey >>' 56) &' 0xff)].

Definition enc_rel_ptr (rel_ptr : Z) : list Z :=
  if rel_ptr <=? 0xcf then [byte_of rel_ptr]
  else if rel_ptr <=? 0x3ffff then
    [byte_of (0xd0 |' ((rel_ptr >>' 16) &' 0x07)); byte_of (rel_ptr &' 0xff);
     byte_of (rel_ptr >>' 8)]
  else [].

Definition enc_rel_leaf_ptr (rel_ptr : Z) : list Z :=
  if rel_ptr <=? 0x1f then [byte_of (0xe0 |' rel_ptr)]
  else if rel_ptr <=? 0x3ffff then
    [byte_of (0xd8 |' ((rel_ptr >>' 16) &' 0x07)); byte_of (rel_ptr &' 0xff);
     byte_of (rel_ptr >>' 8)]
  else [].

Definition enc_leaf_marker : list Z := [0].

(** The [LOG(BUG)] branch aborts; it is modelled by the empty encoding. *)
Definition enc_value (val : Z) : list Z :=
  if val <=? 0xf6 then [byte_of val]
  else if val <=? 0x3ff then [byte_of (0xf8 |' ((val >>' 8) &' 0x07)); byte_of (val &' 0xff)]
  else if val <=? 0xffffff then
    [0xf7; byte_of ((val >>' 16) &' 0xff); byte_of ((val >>' 8) &' 0xff); byte_of (val &' 0xff)]
  else [].

(** [push] appends the data in reverse order. *)
Definition push (buf data : list Z) : list Z := buf ++ rev data.

(** A difference of unsigned keys converted to [int64_t]. *)
Definition rel (a b : Z) : Z := s64 (a - b).

(** The leaf of at most three entries. *)
Definition build_leaf (buf : list Z) (es : list (Z * Z)) (parent_key : Z) (unmarked_leaf : bool)
  : list Z :=
  let own_key := match es with [] => parent_key | [e] => e.1 | _ :: e :: _ => e.1 end in
  let buf := match es with
             | [_; _; e2] => push (push buf (enc_value e2.2)) (enc_rel_key (rel e2.1 own_key))
             | _ => push (push buf (enc_value 0)) (enc_rel_key 0)
             end in
  let buf := match es with
             | [] => push buf (enc_value 0)
             | [e] => push buf (enc_value e.2)
             | _ :: e :: _ => push buf (enc_value e.2)
             end in
  let buf := match es with
             | e0 :: _ :: _ => push (push buf (enc_value e0.2)) (enc_rel_key (rel e0.1 own_key))
             | _ => push (push buf (enc_value 0)) (enc_rel_key 0)
             end in
  let buf := if unmarked_leaf then push buf enc_leaf_marker else buf in
  match es with
  | [] => push buf (enc_rel_key 0)
  | _ => push buf (enc_rel_key (rel own_key parent_key))
  end.

(** The split point: [while ((2 * split) + 1 + 1 <= len) split = (2 * split) + 1;]. *)
Fixpoint split_loop (fuel : nat) (split len : nat) : nat :=
  match fuel with
  | O => split
  | S fuel => if Nat.leb (2 * split + 2) len then split_loop fuel (2 * split + 1) len else split
  end.

(** The result of the recursive builder: the buffer on success, [Nullopt] when a
    pointer does not fit, [Fuel] when the recursion bound of the model is hit. *)
Inductive built := Built (buf : list Z) | Nullopt | Fuel.

(** [es] is the range [entries\[start, end)]; [left_ptr] is the size of the buffer
    after the left subtree, as returned by the recursive call. *)
Fixpoint build_recurse (fuel : nat) (buf : list Z) (es : list (Z * Z)) (parent_key : Z)
    (unmarked_leaf : bool) : built :=
  match fuel with
  | O => Fuel
  | S fuel =>
    let len := length es in
    if Nat.leb len 3 then Built (build_leaf buf es parent_key unmarked_leaf)
    else
      let split := split_loop len 3 len in
      match es !! split with
      | None => Fuel
      | Some (own_key, own_value) =>
        let left := take split es in
        let right := drop (S split) es in
        let left_is_leaf := Nat.eqb (length left) 3 in
        let right_is_leaf := Nat.leb (length right) 3 in
        let right_unmarked_leaf := right_is_leaf && negb left_is_leaf in
        match build_recurse fuel buf left own_key false with
        | Built buf =>
          let left_ptr := Z.of_nat (length buf) in
          match build_recurse fuel buf right own_key right_unmarked_leaf with
          | Built buf =>
            let buf := push buf (enc_value own_value) in
            let dist := Z.of_nat (length buf) - left_ptr in
            let enc_ptr := if left_is_leaf then enc_rel_leaf_ptr dist else enc_rel_ptr dist in
            match enc_ptr with
            | [] => Nullopt
            | _ => Built (push (push buf enc_ptr) (enc_rel_key (rel own_key parent_key)))
            end
          | r => r
          end
        | r => r
        end
      end
  end.

(** The table of a range of entries as [dwunwind_build_table] emits it: the buffer
    of the recursion started at parent key 0, reversed. *)
Definition build_table (es : list (Z * Z)) : option (list Z) :=
  match build_recurse (S (length es)) [] es 0 false with
  | Built buf => Some (rev buf)
  | _ => None
  end.

End Builder.

(** ** Properties of the mapping lookup *)
Import Mapping.

Lemma opaquify_id val seed : opaquify_ul val seed = val.
Proof. unfold opaquify_ul. by rewrite Z.lxor_assoc, Z.lxor_nilpotent, Z.lxor_0_r. Qed.
#[export] Hint Rewrite opaquify_id : ubpf_words.

Definition vma_le (a b : map_entry) : Prop := vma_start a <= vma_start b.

#[export] Instance vma_le_refl : Reflexive vma_le.
Proof. intros a. unfold vma_le. lia. Qed.

Definition mapping_wf (m : mapping) : Prop :=
  0 <= nentries m <= MAX_MAPPINGS /\ nentries m <= Z.of_nat (length (entries m)) /\
  StronglySorted vma_le (take (Z.to_nat (nentries m)) (entries m)).

Definition mapping_lookup (m : mapping) (ip : Z) : option map_entry :=
  last (filter (fun e => vma_start e <= ip) (take (Z.to_nat (nentries m)) (entries m))).

Definition live (m : mapping) : list map_entry := take (Z.to_nat (nentries m)) (entries m).




Section Bisect.
Variables (m : mapping) (ip : Z).
Hypothesis Hwf : mapping_wf m.

Lemma entry_at_live i : 0 <= i < nentries m ->
  exists e, entry_at m i = Some e /\ live m !! Z.to_nat i = Some e.
Proof.
  destruct Hwf as (Hn & Hl & _). intros Hi.
  destruct (lookup_lt_is_Some_2 (entries m) (Z.to_nat i)) as [e He]; [lia|].
  exists e. unfold entry_at, live, MAX_MAPPINGS in *.
  rewrite lookup_take by lia. rewrite decide_True by lia. rewrite He.
  destruct (Z.leb_spec 0 i), (Z.ltb_spec i 1000); simpl; auto; lia.
Qed.

(** What the bisection keeps: everything before [left] starts at or below [ip],
    everything from [right] on starts above it. *)
Definition bisect_inv (left right : Z) : Prop :=
  0 <= left <= right /\ right <= nentries m /\
  (forall i e, live m !! i = Some e -> Z.of_nat i < left -> vma_start e <= ip) /\
  (forall i e, live m !! i = Some e -> right <= Z.of_nat i -> ip < vma_start e).

Lemma bisect_correct steps left right :
  bisect_inv left right -> right - left < 2 ^ Z.of_nat steps ->
  exists l, find_mapping_loop steps m ip left right = Some l /\ bisect_inv l l.
Proof.
  revert left right; induction steps as [|steps IH]; intros left right HI Hlt.
  - exists left. split; [done|]. cbn in Hlt. destruct HI as (?&?&?&?).
    by replace right with left in * by lia.
  - rewrite Nat2Z.inj_succ, Z.pow_succ_r in Hlt by lia.
    cbn [find_mapping_loop]. destruct HI as (Hr & Hn & Hlo & Hhi).
    bcase; [|exists left; replace right with left in * by lia; done].
    rewrite opaquify_id. set (mid := (left + right) / 2).
    assert (left <= mid < right) by (unfold mid; Z.div_mod_to_equations; lia).
    destruct Hwf as (Hn' & Hl & Hs). bcase; [lia|].
    destruct (entry_at_live mid) as (e & -> & He); [lia|]. simpl.
    bcase; apply IH; try (unfold mid; Z.div_mod_to_equations; lia).
    + repeat split; try lia; auto. intros i e' Hi Hlt'.
      pose proof (StronglySorted_lookup_le _ _ i (Z.to_nat mid) e' e Hs ltac:(lia) Hi He). unfold vma_le in *. lia.
    + repeat split; try lia; auto. intros i e' Hi Hle.
      pose proof (StronglySorted_lookup_le _ _ (Z.to_nat mid) i e e' Hs ltac:(lia) He Hi). unfold vma_le in *. lia.
Qed.
End Bisect.

(** [find_mapping] is a bounded bisection: on a mapping table sorted by start
    address it returns, within its ten steps, the last entry that starts at or below
    the instruction pointer, and [NULL] when there is none. *)
Theorem find_mapping_correct m ip :
  mapping_wf m -> find_mapping m ip = Some (mapping_lookup m ip).
Proof.
  intros Hwf. pose proof Hwf as (Hn & Hl & _). unfold find_mapping, MAX_MAPPINGS in *.
  rewrite (wrap_small 32) by lia. rewrite Z.gtb_ltb.
  replace (if 1000 <? nentries m then 1000 else nentries m) with (nentries m) by (bcase; lia).
  destruct (bisect_correct m ip Hwf MAX_MAPPINGS_BISECT_STEPS 0 (nentries m)) as (l & -> & HI).
  { repeat split; try lia. intros i e Hi%lookup_lt_Some. unfold live in Hi. rewrite length_take in Hi. lia. }
  { change (2 ^ Z.of_nat MAX_MAPPINGS_BISECT_STEPS) with 1024. lia. }
  cbn [mbind option_bind]. destruct HI as (Hr & Hb & Hlo & Hhi).
  unfold mapping_lookup. fold (live m).
  rewrite (filter_prefix _ (live m) (Z.to_nat l)).
  2:{ intros i e Hi. split; [|intros; apply (Hlo i e Hi); lia].
      intros. destruct (decide (i < Z.to_nat l)%nat); [done|].
      pose proof (Hhi i e Hi ltac:(lia)). lia. }
  bcase; [subst; done|]. rewrite opaquify_id. bcase; [lia|].
  destruct (entry_at_live m Hwf (l - 1)) as (e & -> & He); [lia|].
  cbn [mbind option_bind]. f_equal.
  replace (Z.to_nat l) with (S (Z.to_nat (l - 1))) by lia. by rewrite (last_take_S _ _ _ He).
Qed.

(** ** Memory safety of the tree search *)
Import Reader Builder.

Lemma om_byte_in ptr i : 0 <= i < OFFSETMAP_SIZE -> exists b, om_byte ptr i = Some b.
Proof.
  intros H. unfold om_byte.
  destruct (Z.leb_spec 0 i), (Z.ltb_spec i OFFSETMAP_SIZE); simpl; eauto; lia.
Qed.

Lemma om_le_in n ptr i : 0 <= i -> i + Z.of_nat n <= OFFSETMAP_SIZE -> exists v, om_le n ptr i = Some v.
Proof.
  revert i; induction n as [|n IH]; intros i Hi Hn; cbn [om_le]; [eauto|].
  destruct (om_byte_in ptr i) as [b ->]; [lia|].
  destruct (IH (i + 1)) as [v Hv]; [lia..|]. simpl. rewrite Hv. simpl. eauto.
Qed.

(** Discharge the byte reads of a reader from the bound on its position. *)
Ltac in_bounds :=
  repeat match goal with
  | |- context [om_byte ?p ?i] =>
      let b := fresh "b" in destruct (om_byte_in p i) as [b ->]; [lia|]; cbn [mbind option_bind]
  | |- context [om_le ?n ?p ?i] =>
      let v := fresh "v" in destruct (om_le_in n p i) as [v ->]; [lia|lia|]; cbn [mbind option_bind]
  | |- context [if ?b then _ else _] => destruct b
  end.

Lemma uw_read_key_safe ptr pos : 0 <= pos -> pos + 9 <= OFFSETMAP_SIZE ->
  exists k pos', uw_read_key ptr pos = Some (k, pos') /\ pos < pos' <= pos + 9.
Proof. intros. unfold uw_read_key. in_bounds; do 2 eexists; (split; [reflexivity|lia]). Qed.

Lemma uw_read_rel_ptr_safe ptr pos : 0 <= pos -> pos + 3 <= OFFSETMAP_SIZE ->
  (forall i b, om_byte ptr i = Some b -> 0 <= b < 256) ->
  exists r pos' l, uw_read_rel_ptr ptr pos = Some (r, pos', l) /\ pos < pos' <= pos + 3 /\ 0 <= r.
Proof.
  intros Hp Hs Hb. unfold uw_read_rel_ptr.
  destruct (om_byte_in ptr pos) as [b Eb]; [lia|]. pose proof (Hb _ _ Eb). rewrite Eb. cbn [mbind option_bind].
  assert (forall v, om_le 2 ptr (pos + 1) = Some v -> 0 <= v) as Hv.
  { simpl. intros v Hv. destruct (om_byte ptr (pos + 1)) eqn:E1; [|done].
    destruct (om_byte ptr (pos + 1 + 1)) eqn:E2; [|done]. simpl in Hv. simplify_eq.
    apply Hb in E1, E2. lia. }
  destruct (om_le_in 2 ptr (pos + 1)) as [v Ev]; [lia..|]. pose proof (Hv _ Ev).
  rewrite Ev. cbn [mbind option_bind].
  repeat bcase; do 3 eexists; (split; [reflexivity|]); (split; [lia|]); try lia;
    try (apply Z.lor_nonneg; split; [|lia]; apply Z.shiftl_nonneg); apply Z.land_nonneg; lia.
Qed.

Lemma uw_read_value_safe ptr pos : 0 <= pos -> pos + 4 <= OFFSETMAP_SIZE ->
  exists v pos', uw_read_value ptr pos = Some (v, pos') /\ pos < pos' <= pos + 4.
Proof. intros. unfold uw_read_value. in_bounds; do 2 eexists; (split; [reflexivity|lia]). Qed.

(** Byte contents are bytes. *)
Lemma om_byte_range ptr i b : bytes_ok ptr -> om_byte ptr i = Some b -> 0 <= b < 256.
Proof.
  unfold bytes_ok, om_byte. intros H. destruct (_ && _); intros E; simplify_eq.
  destruct (ptr !! Z.to_nat i) as [b|] eqn:E; simpl; [|lia].
  rewrite Forall_lookup in H. eauto.
Qed.

(** An exit of the descent loop satisfies its postcondition. *)
Ltac loop_exit := eexists; split; [reflexivity|simpl; first [done|lia]].

Lemma find_cft_loop_safe steps ptr key is_leaf parent pos best :
  bytes_ok ptr -> 0 <= pos ->
  exists d, find_cft_loop steps ptr key is_leaf parent pos best = Some d /\
    match d with AtLeaf pos' _ _ => 0 <= pos' | Return _ => True end.
Proof.
  intros Hb. revert is_leaf parent pos best.
  induction steps as [|steps IH]; intros is_leaf parent pos best Hpos; cbn [find_cft_loop]; [loop_exit|].
  rewrite !opaquify_id. bcase; [loop_exit|]. unfold OFFSETMAP_SIZE in *.
  destruct (uw_read_key_safe ptr pos) as (k & p1 & -> & Hp1); [unfold OFFSETMAP_SIZE; lia..|].
  cbn [mbind option_bind]. bcase; [loop_exit|]. rewrite opaquify_id.
  destruct is_leaf; [loop_exit|].
  destruct (om_byte_in ptr p1) as [b ->]; [unfold OFFSETMAP_SIZE; lia|]. cbn [mbind option_bind].
  bcase; [loop_exit|].
  destruct (uw_read_rel_ptr_safe ptr p1) as (r & p2 & l & -> & Hp2 & Hr);
    [lia|unfold OFFSETMAP_SIZE; lia|eauto using om_byte_range|].
  cbn [mbind option_bind]. bcase; [apply IH; lia|].
  destruct (uw_read_value_safe ptr p2) as (v & p3 & -> & Hp3); [unfold OFFSETMAP_SIZE; lia..|].
  cbn [mbind option_bind]. apply IH; lia.
Qed.

Lemma find_cft_leaf_safe ptr key pos parent best :
  0 <= pos -> is_Some (find_cft_leaf ptr key pos parent best).
Proof.
  intros Hp. unfold find_cft_leaf, OFFSETMAP_SIZE. bcase; [eauto|].
  destruct (uw_read_key_safe ptr pos) as (k & p1 & -> & Hp1); [unfold OFFSETMAP_SIZE; lia..|].
  cbn [mbind option_bind].
  destruct (uw_read_value_safe ptr p1) as (v & p2 & -> & Hp2); [unfold OFFSETMAP_SIZE; lia..|].
  cbn [mbind option_bind]. bcase; [eauto|].
  destruct (uw_read_value_safe ptr p2) as (v2 & p3 & -> & Hp3); [unfold OFFSETMAP_SIZE; lia..|].
  cbn [mbind option_bind]. bcase; [destruct (_ && _); eauto|]. bcase; [eauto|].
  destruct (uw_read_key_safe ptr p3) as (k4 & p4 & -> & Hp4); [unfold OFFSETMAP_SIZE; lia..|].
  cbn [mbind option_bind].
  destruct (uw_read_value_safe ptr p4) as (v5 & p5 & -> & Hp5); [unfold OFFSETMAP_SIZE; lia..|].
  cbn [mbind option_bind]. destruct (_ && _); eauto.
Qed.

Lemma find_cft_total offsetmaps id start key :
  (forall i ptr, offsetmaps i = Some ptr -> bytes_ok ptr) -> 0 <= start ->
  is_Some (find_cft offsetmaps id start key).
Proof.
  intros Hb Hs. unfold find_cft, find_cft_from. destruct (offsetmaps id) as [ptr|] eqn:E; [|eauto].
  destruct (find_cft_loop_safe MAX_OFFSETS_BISECT_STEPS ptr key false 0 start (u64 (-1)))
    as (d & -> & Hd); [eauto|lia|].
  cbn [mbind option_bind]. destruct d; [eauto|]. by apply find_cft_leaf_safe.
Qed.

(** ** Round trips of the field encodings *)



(** [bytes_at ptr pos l]: the bytes [l] are stored from position [pos]. *)
Definition bytes_at (ptr : list Z) (pos : Z) (l : list Z) : Prop :=
  forall i x, l !! i = Some x -> om_byte ptr (pos + Z.of_nat i) = Some x.

Lemma bytes_at_cons ptr pos x l :
  bytes_at ptr pos (x :: l) <-> om_byte ptr pos = Some x /\ bytes_at ptr (pos + 1) l.
Proof.
  split.
  - intros H. split.
    + specialize (H 0%nat x eq_refl). by rewrite Z.add_0_r in H.
    + intros i y Hi. specialize (H (S i) y Hi). by replace (pos + 1 + Z.of_nat i) with (pos + Z.of_nat (S i)) by lia.
  - intros [H0 H] [|i] y Hi; simpl in *; simplify_eq.
    + by rewrite Z.add_0_r.
    + specialize (H i y Hi). by replace (pos + Z.of_nat (S i)) with (pos + 1 + Z.of_nat i) by lia.
Qed.

Lemma bytes_at_app ptr pos l1 l2 :
  bytes_at ptr pos (l1 ++ l2) <-> bytes_at ptr pos l1 /\ bytes_at ptr (pos + Z.of_nat (length l1)) l2.
Proof.
  revert pos; induction l1 as [|x l1 IH]; intros pos; simpl.
  - rewrite Z.add_0_r. split; [|tauto]. intros; split; [|done]. intros i x Hi. by rewrite lookup_nil in Hi.
  - rewrite !bytes_at_cons, IH. replace (pos + 1 + Z.of_nat (length l1)) with (pos + Z.of_nat (S (length l1))) by lia. tauto.
Qed.

Lemma om_le_at ptr pos l : bytes_at ptr pos l -> om_le (length l) ptr pos = Some (le_value l).
Proof.
  revert pos; induction l as [|x l IH]; intros pos H; [done|].
  apply bytes_at_cons in H as [H0 H]. cbn [length om_le le_value]. rewrite H0. cbn [mbind option_bind].
  rewrite (IH _ H). done.
Qed.

(** Bytes of the encoders, as quotients and remainders. *)
Lemma byte_of_land x : byte_of (x &' 0xff) = x mod 256.
Proof. unfold byte_of. change 0xff with (2 ^ 8 - 1). rewrite land_mask by lia. apply wrap_wrap. Qed.



Lemma enc_key64_bytes x :
  [byte_of (x &' 0xff); byte_of ((x >>' 8) &' 0xff); byte_of ((x >>' 16) &' 0xff);
   byte_of ((x >>' 24) &' 0xff); byte_of ((x >>' 32) &' 0xff); byte_of ((x >>' 40) &' 0xff);
   byte_of ((x >>' 48) &' 0xff); byte_of ((x >>' 56) &' 0xff)] = le_bytes 8 x.
Proof. rewrite !byte_of_land, !shr_div by lia. cbn [le_bytes]. rewrite !Z.div_div by lia. reflexivity. Qed.

Lemma read_enc_rel_key ptr pos k :
  - 2 ^ 63 <= k < 2 ^ 63 -> bytes_at ptr pos (enc_rel_key k) ->
  uw_read_key ptr pos = Some (u64 k, pos + Z.of_nat (length (enc_rel_key k))).
Proof.
  intros Hk. unfold enc_rel_key, uw_read_key.
  destruct ((-111 <=? k) && (k <=? 111)) eqn:E1; [|destruct ((-4096 <=? k) && (k <? 4096)) eqn:E2].
  - intros [H0 _]%bytes_at_cons. rewrite H0. cbn [mbind option_bind].
    assert (-111 <= k <= 111) by lia. unfold byte_of. rewrite (wrap_small 8) by lia.
    bcase; [|lia]. do 3 f_equal. lia.
  - intros [H0 [H1 _]%bytes_at_cons]%bytes_at_cons. rewrite H0. cbn [mbind option_bind].
    rewrite byte_of_land in H1. rewrite H1. cbn [mbind option_bind].
    change 0x1f with (2 ^ 5 - 1) in *. rewrite land_mask, shr_div in * by lia.
    set (h := (u64 k / 2 ^ 8) mod 2 ^ 5) in *.
    assert (0 <= h < 32) by (apply Z.mod_pos_bound; lia).
    assert (h * 256 + u64 k mod 256 = k mod 8192) as Hv.
    { unfold h, wrap. change (2 ^ 8) with 256. change (2 ^ 5) with 32. change (2 ^ 64) with (8192 * 2251799813685248).
      Z.div_mod_to_equations. lia. }
    change 0xe0 with (7 * 2 ^ 5). rewrite (lor_tag 7 h 5) by lia.
    unfold byte_of. rewrite (wrap_small 8) by lia.
    bcase; [lia|]. bcase; [lia|].
    rewrite land_mask by lia. replace ((7 * 2 ^ 5 + h) mod 2 ^ 5) with h
      by (rewrite Z.add_comm, Z_mod_plus_full, Z.mod_small; lia).
    assert (0 <= u64 k mod 256 < 256) by (apply Z.mod_pos_bound; lia).
    rewrite lor_shiftl_add by lia. change (2 ^ 8) with 256. rewrite Hv.
    change 0x1000 with (2 ^ 12). rewrite land_bit_eqb by lia.
    rewrite testbit_top by (try lia; apply Z.mod_pos_bound; lia).
    simpl length. f_equal. f_equal; [|lia].
    assert (0 <= k mod 8192 < 8192) by (apply Z.mod_pos_bound; lia).
    destruct (Z.leb_spec (2 ^ 12) (k mod 8192)); simpl negb; cbv iota.
    + change (u64 (Z.lnot 0x1fff)) with ((2 ^ 51 - 1) * 2 ^ 13).
      rewrite Z.lor_comm, lor_tag by lia. unfold wrap. change (2 ^ 12) with 4096 in *.
      Z.div_mod_to_equations. lia.
    + unfold wrap. change (2 ^ 12) with 4096 in *. Z.div_mod_to_equations. lia.
  - rewrite enc_key64_bytes. intros [H0 H]%bytes_at_cons. rewrite H0. cbn [mbind option_bind].
    bcase; [lia|]. bcase; [|lia].
    apply om_le_at in H. rewrite le_bytes_length in H. rewrite H. cbn [mbind option_bind].
    rewrite le_value_bytes. change (256 ^ Z.of_nat 8) with (2 ^ 64). cbn [length].
    rewrite le_bytes_length. unfold wrap. rewrite Zmod_mod. do 2 f_equal. lia.
Qed.

Lemma byte_of_hi x : 0 <= x < 2 ^ 18 -> byte_of (x >>' 8) = (x / 256) mod 256.
Proof. intros. unfold byte_of. by rewrite shr_div by lia. Qed.

(** The three-byte pointer forms carry 19 bits: 3 in the tag byte, 16 after it. *)
Lemma read_ptr3 ptr pos x :
  0 <= x < 2 ^ 18 -> bytes_at ptr pos [x mod 256; (x / 256) mod 256] ->
  exists w, om_le 2 ptr pos = Some w /\
    forall tag, ((tag * 8 + ((x / 2 ^ 16) mod 8)) &' 0x07) <<' 16 |' w = x.
Proof.
  intros Hx H. apply om_le_at in H. exists (le_value [x mod 256; (x / 256) mod 256]).
  split; [exact H|]. intros tag.
  assert (0 <= (x / 2 ^ 16) mod 8 < 8) by (apply Z.mod_pos_bound; lia).
  change 0x07 with (2 ^ 3 - 1). rewrite land_mask by lia. change (2 ^ 3) with 8.
  replace ((tag * 8 + (x / 2 ^ 16) mod 8) mod 8) with ((x / 2 ^ 16) mod 8)
    by (rewrite Z.add_comm, Z_mod_plus_full, Zmod_mod; done).
  cbn [le_value].
  assert (0 <= x mod 256 < 256) by (apply Z.mod_pos_bound; lia).
  assert (0 <= (x / 256) mod 256 < 256) by (apply Z.mod_pos_bound; lia).
  rewrite lor_shiftl_add by lia. change (2 ^ 16) with 65536. Z.div_mod_to_equations. lia.
Qed.

Lemma tag_ptr_byte tag x : 0 <= tag < 32 -> 
  byte_of ((tag * 2 ^ 3) |' ((x >>' 16) &' 0x07)) = tag * 8 + (x / 2 ^ 16) mod 8.
Proof.
  intros. change 0x07 with (2 ^ 3 - 1). rewrite land_mask, shr_div by lia.
  assert (0 <= (x / 2 ^ 16) mod 2 ^ 3 < 2 ^ 3) by (apply Z.mod_pos_bound; lia).
  rewrite lor_tag by lia. unfold byte_of. rewrite wrap_small by lia. reflexivity.
Qed.

Lemma read_enc_rel_ptr ptr pos x :
  0 <= x -> enc_rel_ptr x <> [] -> bytes_at ptr pos (enc_rel_ptr x) ->
  uw_read_rel_ptr ptr pos = Some (x, pos + Z.of_nat (length (enc_rel_ptr x)), false).
Proof.
  intros Hx. unfold enc_rel_ptr, uw_read_rel_ptr. bcase; [|bcase; [|done]]; intros _ Hb.
  - apply bytes_at_cons in Hb as [B0 _]. rewrite B0. cbn [mbind option_bind].
    unfold byte_of. rewrite wrap_small by lia. bcase; [|lia]. done.
  - rewrite byte_of_land, byte_of_hi in Hb by lia.
    change 0xd0 with (26 * 2 ^ 3) in Hb. rewrite tag_ptr_byte in Hb by lia.
    apply bytes_at_cons in Hb as [B0 Hb]. rewrite B0. cbn [mbind option_bind].
    assert (0 <= (x / 2 ^ 16) mod 8 < 8) by (apply Z.mod_pos_bound; lia).
    bcase; [lia|]. bcase; [|lia].
    destruct (read_ptr3 ptr (pos + 1) x) as (w & -> & Hw); [lia|done|]. cbn [mbind option_bind].
    rewrite (Hw 26). simpl length. do 3 f_equal. lia.
Qed.

Lemma read_enc_rel_leaf_ptr ptr pos x :
  0 <= x -> enc_rel_leaf_ptr x <> [] -> bytes_at ptr pos (enc_rel_leaf_ptr x) ->
  uw_read_rel_ptr ptr pos = Some (x, pos + Z.of_nat (length (enc_rel_leaf_ptr x)), true).
Proof.
  intros Hx. unfold enc_rel_leaf_ptr, uw_read_rel_ptr. bcase; [|bcase; [|done]]; intros _ Hb.
  - apply bytes_at_cons in Hb as [B0 _]. rewrite B0. cbn [mbind option_bind].
    change 0xe0 with (7 * 2 ^ 5). rewrite lor_tag by lia.
    unfold byte_of. rewrite wrap_small by lia. do 3 (bcase; [lia|]).
    change 0x1f with (2 ^ 5 - 1). rewrite land_mask by lia.
    rewrite Z.add_comm, Z_mod_plus_full, Z.mod_small by lia. done.
  - rewrite byte_of_land, byte_of_hi in Hb by lia.
    change 0xd8 with (27 * 2 ^ 3) in Hb. rewrite tag_ptr_byte in Hb by lia.
    apply bytes_at_cons in Hb as [B0 Hb]. rewrite B0. cbn [mbind option_bind].
    assert (0 <= (x / 2 ^ 16) mod 8 < 8) by (apply Z.mod_pos_bound; lia).
    do 2 (bcase; [lia|]). bcase; [|lia].
    destruct (read_ptr3 ptr (pos + 1) x) as (w & -> & Hw); [lia|done|]. cbn [mbind option_bind].
    rewrite (Hw 27). simpl length. do 3 f_equal. lia.
Qed.

Lemma read_enc_value ptr pos v :
  0 <= v <= 0xffffff -> bytes_at ptr pos (enc_value v) ->
  uw_read_value ptr pos = Some (v, pos + Z.of_nat (length (enc_value v))).
Proof.
  intros Hv. unfold enc_value, uw_read_value. bcase; [|bcase; [|bcase; [|lia]]]; intros Hb.
  - apply bytes_at_cons in Hb as [B0 _]. rewrite B0. cbn [mbind option_bind].
    unfold byte_of. rewrite wrap_small by lia. bcase; [|lia]. done.
  - rewrite byte_of_land in Hb. apply bytes_at_cons in Hb as [B0 [B1 _]%bytes_at_cons].
    rewrite B0. cbn [mbind option_bind]. rewrite B1. cbn [mbind option_bind].
    change 0x07 with (2 ^ 3 - 1). rewrite land_mask, shr_div by lia.
    assert (0 <= (v / 2 ^ 8) mod 2 ^ 3 < 2 ^ 3) by (apply Z.mod_pos_bound; lia).
    change 0xf8 with (31 * 2 ^ 3). rewrite lor_tag by lia. unfold byte_of.
    rewrite wrap_small by lia. do 2 (bcase; [lia|]).
    rewrite land_mask by lia. rewrite (Z.add_comm (31 * _)), Z_mod_plus_full, Zmod_mod.
    assert (0 <= v mod 256 < 256) by (apply Z.mod_pos_bound; lia).
    rewrite lor_shiftl_add by lia. simpl length. do 2 f_equal; [|lia].
    change (2 ^ 8) with 256. change (2 ^ 3) with 8. Z.div_mod_to_equations. lia.
  - rewrite !byte_of_land in Hb.
    apply bytes_at_cons in Hb as [B0 [B1 [B2 [B3 _]%bytes_at_cons]%bytes_at_cons]%bytes_at_cons].
    replace (pos + 1 + 1 + 1) with (pos + 1 + 2) in B3 by lia.
    rewrite B0. cbn [mbind option_bind]. bcase; [lia|]. bcase; [|lia].
    rewrite B1. cbn [mbind option_bind]. rewrite B2. cbn [mbind option_bind].
    rewrite B3. cbn [mbind option_bind]. rewrite !shr_div by lia.
    assert (forall y, 0 <= y mod 256 < 256) as Hm by (intros; apply Z.mod_pos_bound; lia).
    pose proof (Hm v). pose proof (Hm (v / 2 ^ 8)). pose proof (Hm (v / 2 ^ 16)).
    rewrite <- Z.lor_assoc. rewrite (lor_shiftl_add _ (v mod 256)) by lia.
    rewrite lor_shiftl_add by (change (2 ^ 16) with 65536; lia).
    simpl length. do 2 f_equal; [|lia].
    change (2 ^ 8) with 256. change (2 ^ 16) with 65536. Z.div_mod_to_equations. lia.
Qed.

(** ** Reference lookup *)
Definition key_lt (a b : Z * Z) : Prop := a.1 < b.1.

(** The value of the last entry whose key is not above [key], [best] if none. *)
Definition lookup_le (es : list (Z * Z)) (key best : Z) : Z :=
  match last (filter (fun e => e.1 <= key) es) with Some e => e.2 | None => best end.

Definition entries_ok (es : list (Z * Z)) : Prop :=
  StronglySorted key_lt es /\
  Forall (fun e => 0 <= e.1 < 2 ^ 64 /\ 0 <= e.2 <= 0xffffff) es.


Lemma lookup_le_node l k v r key best :
  Forall (fun e => e.1 < k) l -> Forall (fun e => k < e.1) r ->
  lookup_le (l ++ (k, v) :: r) key best =
    if key <? k then lookup_le l key best else lookup_le r key v.
Proof.
  intros Hl Hr. unfold lookup_le. rewrite filter_app.
  destruct (Z.ltb_spec key k).
  - rewrite (filter_none _ ((k, v) :: r)), app_nil_r; [done|].
    constructor; [simpl; lia|]. eapply Forall_impl; [exact Hr|]. simpl. lia.
  - rewrite filter_cons_True by (simpl; lia). rewrite last_app_cons, last_cons.
    by destruct (last (filter _ r)).
Qed.

Lemma lookup_le_nil key best : lookup_le [] key best = best.
Proof. done. Qed.

Lemma lookup_le_one k v key best : lookup_le [(k, v)] key best = if key <? k then best else v.
Proof. exact (lookup_le_node [] k v [] key best ltac:(constructor) ltac:(constructor)). Qed.

(** ** Layout of a leaf *)
Lemma push_rev buf e d : push (buf ++ rev e) d = buf ++ rev (d ++ e).
Proof. unfold push. by rewrite rev_app_distr, app_assoc. Qed.

Lemma push_nil buf d : push buf d = buf ++ rev (d ++ []).
Proof. unfold push. by rewrite app_nil_r. Qed.

Definition enc_leaf_body (lk lv ov rk rv : Z) : list Z :=
  enc_rel_key lk ++ enc_value lv ++ enc_value ov ++ enc_rel_key rk ++ enc_value rv ++ [].

Lemma enc_rel_key_pos k : (1 <= length (enc_rel_key k))%nat.
Proof. unfold enc_rel_key. repeat bcase; simpl; lia. Qed.

Lemma enc_value_pos v : 0 <= v <= 0xffffff -> (1 <= length (enc_value v))%nat.
Proof. intros. unfold enc_value. repeat bcase; simpl; lia. Qed.

Definition i64 (k : Z) : Prop := - 2 ^ 63 <= k < 2 ^ 63.
Definition val_ok (v : Z) : Prop := 0 <= v <= 0xffffff.

(** Positions in the leaf stay below the limit the code checks. *)
Ltac pos_bound :=
  repeat match goal with
  | H : val_ok ?v |- _ =>
      lazymatch goal with _ : (1 <= length (enc_value v))%nat |- _ => fail
      | _ => pose proof (enc_value_pos v H) end
  end; rewrite ?length_app in *; lia.

Lemma leaf_body_read ptr key pos parent best lk lv ov rk rv :
  i64 lk -> i64 rk -> val_ok lv -> val_ok ov -> val_ok rv -> 0 <= pos ->
  bytes_at ptr pos (enc_leaf_body lk lv ov rk rv) ->
  pos + Z.of_nat (length (enc_leaf_body lk lv ov rk rv)) <= OFFSETMAP_SIZE - 15 ->
  find_cft_leaf ptr key pos parent best = Some (s32 (
    if key <? parent then
      if negb (u64 lk =? 0) && (key >=? u64 (lk + parent)) then lv else best
    else if negb (u64 rk =? 0) && (key >=? u64 (rk + parent)) then rv else ov)).
Proof.
  intros Hlk Hrk Hlv Hov Hrv Hpos Hb Hlen. unfold find_cft_leaf, enc_leaf_body in *.
  apply bytes_at_app in Hb as [B1 Hb]. apply bytes_at_app in Hb as [B2 Hb].
  apply bytes_at_app in Hb as [B3 Hb]. apply bytes_at_app in Hb as [B4 B5].
  apply bytes_at_app in B5 as [B5 _].
  pose proof (enc_rel_key_pos lk). pose proof (enc_rel_key_pos rk).
  rewrite !length_app in Hlen. cbn [length] in Hlen.
  bcase; [pos_bound|]. rewrite (read_enc_rel_key _ _ _ Hlk B1). cbn [mbind option_bind].
  rewrite (read_enc_value _ _ _ Hlv B2). cbn [mbind option_bind].
  bcase; [pos_bound|]. rewrite (read_enc_value _ _ _ Hov B3). cbn [mbind option_bind].
  rewrite !wrap_add_l. bcase; [destruct (_ && _); done|].
  bcase; [pos_bound|]. rewrite (read_enc_rel_key _ _ _ Hrk B4). cbn [mbind option_bind].
  rewrite (read_enc_value _ _ _ Hrv B5). cbn [mbind option_bind].
  rewrite !wrap_add_l. destruct (_ && _); done.
Qed.

Lemma rel_i64 a b : i64 (rel a b).
Proof. unfold i64, rel. pose proof (swrap_range 64 (a - b)). simpl in *. lia. Qed.


Lemma u64_rel_add a b : 0 <= a < 2 ^ 64 -> u64 (rel a b + b) = a.
Proof.
  intros Ha. unfold rel. rewrite <- wrap_add_l, wrap_swrap, wrap_add_l by lia.
  rewrite Z.sub_add. by apply wrap_small.
Qed.

Lemma u64_rel_eq0 a b : 0 <= a < 2 ^ 64 -> 0 <= b < 2 ^ 64 -> (u64 (rel a b) =? 0) = (a =? b).
Proof.
  intros Ha Hb. unfold rel. rewrite wrap_swrap by lia. unfold wrap. change (2 ^ 64) with 18446744073709551616 in *.
  destruct (Z.eqb_spec a b) as [->|]; [by rewrite Z.sub_diag|]. apply Z.eqb_neq.
  Z.div_mod_to_equations. lia.
Qed.

(** A leaf behind a leaf pointer ([is_leaf]) or with the marker byte. *)
Definition enc_leaf (own : Z) (unmarked : bool) (body : list Z) : list Z :=
  enc_rel_key own ++ (if unmarked then enc_leaf_marker else []) ++ body.

Lemma leaf_node_read steps ptr key parent pos best own unmarked lk lv ov rk rv :
  (1 <= steps)%nat -> 0 <= parent < 2 ^ 64 -> 0 <= own < 2 ^ 64 -> own <> parent ->
  i64 lk -> i64 rk -> val_ok lv -> val_ok ov -> val_ok rv -> 0 <= pos ->
  let enc := enc_leaf (rel own parent) unmarked (enc_leaf_body lk lv ov rk rv) in
  bytes_at ptr pos enc -> pos + Z.of_nat (length enc) <= OFFSETMAP_SIZE - 15 ->
  find_cft_from steps ptr key (negb unmarked) parent pos best = Some (s32 (
    if key <? own then
      if negb (u64 lk =? 0) && (key >=? u64 (lk + own)) then lv else best
    else if negb (u64 rk =? 0) && (key >=? u64 (rk + own)) then rv else ov)).
Proof.
  intros Hs Hpar Hown Hne Hlk Hrk Hlv Hov Hrv Hpos enc Hb Hlen.
  destruct steps as [|steps]; [lia|]. unfold find_cft_from. cbn [find_cft_loop].
  rewrite !opaquify_id. unfold enc, enc_leaf in *.
  apply bytes_at_app in Hb as [B1 Hb]. apply bytes_at_app in Hb as [B2 B3].
  pose proof (enc_rel_key_pos (rel own parent)). rewrite !length_app in Hlen.
  bcase; [lia|]. rewrite (read_enc_rel_key _ _ _ (rel_i64 _ _) B1). cbn [mbind option_bind].
  rewrite (u64_rel_eq0 own parent) by lia. rewrite opaquify_id, wrap_add_l, u64_rel_add by lia.
  destruct (Z.eqb_spec own parent); [done|].
  destruct unmarked; cbn [negb mbind option_bind].
  - cbn [enc_leaf_marker] in *. apply bytes_at_cons in B2 as [-> _]. cbn [mbind option_bind].
    rewrite Z.eqb_refl. apply leaf_body_read; auto; simpl in *; lia.
  - cbn [length] in *. rewrite Z.add_0_r in B3. apply leaf_body_read; auto; lia.
Qed.

Lemma entries_ok_app l k v r :
  entries_ok (l ++ (k, v) :: r) ->
  entries_ok l /\ entries_ok r /\ 0 <= k < 2 ^ 64 /\ val_ok v /\
  Forall (fun e => e.1 < k) l /\ Forall (fun e => k < e.1) r.
Proof.
  unfold entries_ok, val_ok. intros [Hs Hf].
  apply StronglySorted_app in Hs as (Hlr & Hl & Hkr).
  apply StronglySorted_inv in Hkr as [Hr Hk].
  apply Forall_app in Hf as [Hfl Hfr]. apply Forall_cons in Hfr as [[? ?] Hfr]. simpl in *.
  repeat split; auto; try lia.
  - apply Forall_forall. intros e He. apply (Hlr e (k, v)); [done|set_solver].
Qed.

(** The position of [parent] relative to the keys of a subtree. *)
Definition parent_ok (es : list (Z * Z)) (parent : Z) : Prop :=
  0 <= parent < 2 ^ 64 /\
  forall i e, es !! i = Some e -> e.1 = parent -> i = 0%nat /\ (4 <= length es)%nat.

Definition flag_ok (es : list (Z * Z)) (is_leaf unmarked : bool) : Prop :=
  if Nat.leb (length es) 3 then is_leaf = negb unmarked else is_leaf = false.

Definition finds (enc : list Z) (es : list (Z * Z)) (parent : Z) (unmarked : bool) : Prop :=
  forall ptr pos key best steps is_leaf,
    bytes_at ptr pos enc -> 0 <= pos ->
    pos + Z.of_nat (length enc) <= OFFSETMAP_SIZE - 15 ->
    flag_ok es is_leaf unmarked -> (1 <= steps)%nat ->
    Z.of_nat (length es) < 2 ^ (Z.of_nat steps + 1) ->
    find_cft_from steps ptr key is_leaf parent pos best = Some (s32 (lookup_le es key best)).

Lemma val_ok_0 : val_ok 0. Proof. unfold val_ok. lia. Qed.
Lemma i64_0 : i64 0. Proof. unfold i64. lia. Qed.

(** A leaf whose fields describe [es] answers the lookups of [es]. *)
Lemma leaf_finds es own parent unmarked lk lv ov rk rv :
  (length es <= 3)%nat -> 0 <= parent < 2 ^ 64 -> 0 <= own < 2 ^ 64 -> own <> parent ->
  i64 lk -> i64 rk -> val_ok lv -> val_ok ov -> val_ok rv ->
  (forall key best, lookup_le es key best =
    if key <? own then
      if negb (u64 lk =? 0) && (key >=? u64 (lk + own)) then lv else best
    else if negb (u64 rk =? 0) && (key >=? u64 (rk + own)) then rv else ov) ->
  finds (enc_leaf (rel own parent) unmarked (enc_leaf_body lk lv ov rk rv)) es parent unmarked.
Proof.
  intros Hlen Hp Ho Hne Hlk Hrk Hlv Hov Hrv Heq ptr pos key best steps is_leaf Hb Hpos Hlim Hflag Hs _.
  unfold flag_ok in Hflag. rewrite (proj2 (Nat.leb_le _ _) Hlen) in Hflag. subst is_leaf.
  rewrite Heq. by apply leaf_node_read.
Qed.

(** The empty leaf: its key reads as 0 and ends the search. *)
Lemma empty_leaf_finds parent unmarked body :
  finds (enc_leaf 0 unmarked body) [] parent unmarked.
Proof.
  intros ptr pos key best steps is_leaf Hb Hpos Hlim Hflag Hs _.
  destruct steps as [|steps]; [lia|]. unfold find_cft_from, enc_leaf in *. cbn [find_cft_loop].
  rewrite !opaquify_id. apply bytes_at_app in Hb as [B1 _].
  rewrite length_app in Hlim. pose proof (enc_rel_key_pos 0). bcase; [lia|].
  rewrite (read_enc_rel_key _ _ _ i64_0 B1). reflexivity.
Qed.

Lemma enc_leaf_length own unmarked body : (1 <= length (enc_leaf own unmarked body))%nat.
Proof. unfold enc_leaf. rewrite length_app. pose proof (enc_rel_key_pos own). lia. Qed.

(** The builder's leaf is the encoding of its fields, in push order. *)
Ltac leaf_layout :=
  match goal with u : bool |- _ => destruct u end;
  unfold build_leaf, push, enc_leaf, enc_leaf_body;
  rewrite ?app_nil_l, ?app_nil_r, ?rev_app_distr, <- ?app_assoc; reflexivity.

Ltac leaf_lookup :=
  rewrite ?lookup_le_one, ?lookup_le_nil, ?u64_rel_eq0, ?u64_rel_add by lia;
  rewrite ?Z.geb_leb; simpl; repeat (bcase; simpl; try lia); done.

Lemma build_leaf_finds buf es parent unmarked :
  entries_ok es -> parent_ok es parent -> (length es <= 3)%nat ->
  exists enc, build_leaf buf es parent unmarked = buf ++ rev enc /\ (1 <= length enc)%nat /\
    finds enc es parent unmarked.
Proof.
  intros Hok [Hpar Hkey] Hlen.
  assert (forall i e, es !! i = Some e -> e.1 <> parent /\ 0 <= e.1 < 2 ^ 64 /\ val_ok e.2) as Hr.
  { intros i e Hi. split; [intros He; apply Hkey in Hi as []; [lia|done]|].
    destruct Hok as [_ Hf]. rewrite Forall_lookup in Hf. exact (Hf i e Hi). }
  destruct es as [|[k0 v0] [|[k1 v1] [|[k2 v2] [|? ?]]]]; [..|simpl in Hlen; lia];
    try (destruct (Hr 0%nat (k0, v0) eq_refl) as (? & ? & ?)); 
    try (destruct (Hr 1%nat (k1, v1) eq_refl) as (? & ? & ?));
    try (destruct (Hr 2%nat (k2, v2) eq_refl) as (? & ? & ?)); simpl in *; clear Hr Hkey.
  - exists (enc_leaf 0 unmarked (enc_leaf_body 0 0 0 0 0)).
    split; [leaf_layout|]. split; [apply enc_leaf_length|apply empty_leaf_finds].
  - exists (enc_leaf (rel k0 parent) unmarked (enc_leaf_body 0 0 v0 0 0)).
    split; [leaf_layout|]. split; [apply enc_leaf_length|].
    apply leaf_finds; auto using val_ok_0, i64_0. intros. leaf_lookup.
  - destruct (entries_ok_app [(k0, v0)] k1 v1 [] Hok) as (_ & _ & _ & _ & Hl & Hg).
    pose proof Hl as [? _]%Forall_cons. simpl in *.
    exists (enc_leaf (rel k1 parent) unmarked (enc_leaf_body (rel k0 k1) v0 v1 0 0)).
    split; [leaf_layout|]. split; [apply enc_leaf_length|].
    apply leaf_finds; auto using val_ok_0, i64_0, rel_i64.
    intros. rewrite (lookup_le_node [(k0, v0)] k1 v1 []) by done. leaf_lookup.
  - destruct (entries_ok_app [(k0, v0)] k1 v1 [(k2, v2)] Hok) as (_ & _ & _ & _ & Hl & Hg).
    pose proof Hl as [? _]%Forall_cons. pose proof Hg as [? _]%Forall_cons. simpl in *.
    exists (enc_leaf (rel k1 parent) unmarked (enc_leaf_body (rel k0 k1) v0 v1 (rel k2 k1) v2)).
    split; [leaf_layout|]. split; [apply enc_leaf_length|].
    apply leaf_finds; auto using rel_i64.
    intros. rewrite (lookup_le_node [(k0, v0)] k1 v1 [(k2, v2)]) by done. leaf_lookup.
Qed.

(** ** Inner nodes *)
Lemma split_loop_spec fuel split len k :
  split = (2 ^ k - 1)%nat -> (split + 1 <= len)%nat -> (len <= fuel + split)%nat -> (2 <= k)%nat ->
  exists k', split_loop fuel split len = (2 ^ k' - 1)%nat /\ (k <= k')%nat /\
    (split_loop fuel split len + 1 <= len <= 2 * split_loop fuel split len + 1)%nat.
Proof.
  revert split k; induction fuel as [|fuel IH]; intros split k Hs Hle Hf Hk; cbn [split_loop].
  { exists k. lia. }
  assert (1 <= 2 ^ k)%nat by (pose proof (Nat.pow_nonzero 2 k); lia).
  destruct (Nat.leb_spec (2 * split + 2) len).
  - destruct (IH (2 * split + 1)%nat (S k)) as (k' & ? & ? & ?); [|lia|lia|lia|].
    { rewrite Nat.pow_succ_r'. lia. }
    exists k'. split; [done|]. lia.
  - exists k. lia.
Qed.

Lemma enc_ptr_head (b : bool) dist x l : 0 < dist ->
  (if b then enc_rel_leaf_ptr dist else enc_rel_ptr dist) = x :: l -> x <> 0.
Proof.
  intros Hd. destruct b; unfold enc_rel_leaf_ptr, enc_rel_ptr; repeat bcase; intros [= <- _].
  - change 0xe0 with (7 * 2 ^ 5). rewrite lor_tag by lia. unfold byte_of. rewrite wrap_small by lia. lia.
  - change 0xd8 with (27 * 2 ^ 3). rewrite tag_ptr_byte by lia.
    pose proof (Z.mod_pos_bound (dist / 2 ^ 16) 8). lia.
  - unfold byte_of. rewrite wrap_small by lia. lia.
  - change 0xd0 with (26 * 2 ^ 3). rewrite tag_ptr_byte by lia.
    pose proof (Z.mod_pos_bound (dist / 2 ^ 16) 8). lia.
Qed.

Lemma read_enc_ptr ptr pos (b : bool) dist enc :
  0 < dist -> enc = (if b then enc_rel_leaf_ptr dist else enc_rel_ptr dist) -> enc <> [] ->
  bytes_at ptr pos enc ->
  (exists x, om_byte ptr pos = Some x /\ x <> 0) /\
  uw_read_rel_ptr ptr pos = Some (dist, pos + Z.of_nat (length enc), b).
Proof.
  intros Hd He Hne Hb. split.
  - destruct enc as [|x l]; [done|]. exists x. apply bytes_at_cons in Hb as [? _].
    split; [done|]. by eapply enc_ptr_head.
  - subst enc. destruct b; [apply read_enc_rel_leaf_ptr|apply read_enc_rel_ptr]; auto; lia.
Qed.

(** Reading one inner node and continuing in the child the key selects. *)
Lemma inner_node_read steps ptr key parent pos best own v left_enc right_enc (ll : bool) enc_ptr :
  0 <= parent < 2 ^ 64 -> 0 <= own < 2 ^ 64 -> own <> parent -> val_ok v -> 0 <= pos ->
  let dist := Z.of_nat (length (right_enc ++ enc_value v)) in
  enc_ptr = (if ll then enc_rel_leaf_ptr dist else enc_rel_ptr dist) -> enc_ptr <> [] ->
  let enc := enc_rel_key (rel own parent) ++ enc_ptr ++ enc_value v ++ right_enc ++ left_enc in
  bytes_at ptr pos enc -> pos + Z.of_nat (length enc) <= OFFSETMAP_SIZE - 15 ->
  exists pr pl,
    bytes_at ptr pr right_enc /\ bytes_at ptr pl left_enc /\ 0 <= pr /\ 0 <= pl /\
    pr + Z.of_nat (length right_enc) <= OFFSETMAP_SIZE - 15 /\
    pl + Z.of_nat (length left_enc) <= OFFSETMAP_SIZE - 15 /\
    find_cft_from (S steps) ptr key false parent pos best =
      if key <? own then find_cft_from steps ptr key ll own pl best
      else find_cft_from steps ptr key ll own pr v.
Proof.
  intros Hp Ho Hne Hv Hpos dist He Hnil enc Hb Hlim. unfold enc in *.
  apply bytes_at_app in Hb as [B1 Hb]. apply bytes_at_app in Hb as [B2 Hb].
  apply bytes_at_app in Hb as [B3 Hb]. apply bytes_at_app in Hb as [B4 B5].
  pose proof (enc_rel_key_pos (rel own parent)). pose proof (enc_value_pos v Hv).
  rewrite !length_app in Hlim.
  assert (dist = Z.of_nat (length right_enc) + Z.of_nat (length (enc_value v))) as Hdist
    by (unfold dist; rewrite length_app; lia).
  destruct (read_enc_ptr ptr _ ll dist enc_ptr ltac:(lia) He Hnil B2) as ((x & Hx & Hx0) & Hptr).
  do 2 eexists. split; [exact B4|]. split; [exact B5|].
  do 4 (split; [lia|]).
  unfold find_cft_from at 1. cbn [find_cft_loop]. rewrite !opaquify_id.
  bcase; [lia|]. rewrite (read_enc_rel_key _ _ _ (rel_i64 _ _) B1). cbn [mbind option_bind].
  rewrite (u64_rel_eq0 own parent) by lia. rewrite opaquify_id, wrap_add_l, u64_rel_add by lia.
  destruct (Z.eqb_spec own parent); [done|]. rewrite Hx. cbn [mbind option_bind].
  destruct (Z.eqb_spec x 0); [done|]. rewrite Hptr. cbn [mbind option_bind].
  bcase.
  - match goal with |- context [find_cft_loop steps ptr key ll own ?p best] =>
      match goal with |- _ = find_cft_from _ _ _ _ _ ?q _ => replace p with q by lia end end. done.
  - rewrite (read_enc_value _ _ _ Hv B3). cbn [mbind option_bind]. done.
Qed.

(** A complete left subtree of [2 ^ k - 1] entries is one level shallower. *)
Lemma split_depth s k len steps :
  s = (2 ^ k - 1)%nat -> (2 <= k)%nat -> (s + 1 <= len)%nat ->
  Z.of_nat len < 2 ^ (Z.of_nat (S steps) + 1) ->
  (3 <= s)%nat /\ (1 <= steps)%nat /\ Z.of_nat s < 2 ^ (Z.of_nat steps + 1).
Proof.
  intros Hs Hk Hle Hlt.
  assert (4 <= 2 ^ k)%nat by (change 4%nat with (2 ^ 2)%nat; apply Nat.pow_le_mono_r; lia).
  assert (Z.of_nat (2 ^ k) = 2 ^ Z.of_nat k) as Hpow by apply Nat2Z.inj_pow.
  assert (2 ^ Z.of_nat k < 2 ^ (Z.of_nat (S steps) + 1)) as Hlt' by lia.
  apply Z.pow_lt_mono_r_iff in Hlt'; [|lia|lia].
  assert (2 ^ Z.of_nat k <= 2 ^ (Z.of_nat steps + 1)) by (apply Z.pow_le_mono_r; lia).
  lia.
Qed.

Lemma build_recurse_finds fuel buf es parent unmarked buf' :
  build_recurse fuel buf es parent unmarked = Built buf' ->
  entries_ok es -> parent_ok es parent ->
  exists enc, buf' = buf ++ rev enc /\ (1 <= length enc)%nat /\ finds enc es parent unmarked.
Proof.
  revert buf es parent unmarked buf'.
  induction fuel as [|fuel IH]; intros buf es parent unmarked buf' Hb Hok Hpar; [done|].
  cbn [build_recurse] in Hb. destruct (Nat.leb_spec (length es) 3) as [Hlen|Hlen].
  { simplify_eq. by apply build_leaf_finds. }
  destruct (split_loop_spec (length es) 3 (length es) 2) as (k & Hs & Hk & Hsplit); [done|lia|lia|lia|].
  set (s := split_loop (length es) 3 (length es)) in *.
  destruct (es !! s) as [[own v]|] eqn:Es; [|done].
  assert (es = take s es ++ (own, v) :: drop (S s) es) as Hes by (symmetry; by apply take_drop_middle).
  assert (length (take s es) = s) as HL by (rewrite length_take; lia).
  assert (length (drop (S s) es) = length es - S s)%nat as HR by apply length_drop.
  set (L := take s es) in *. set (R := drop (S s) es) in *.
  pose proof Hok as Hok'. rewrite Hes in Hok'.
  apply entries_ok_app in Hok' as (HokL & HokR & Hown & Hv & HltL & HltR).
  assert (own <> parent) as Hne.
  { intros Heq. destruct Hpar as [_ Hpar]. destruct (Hpar s (own, v) Es Heq). lia. }
  assert (parent_ok L own /\ parent_ok R own) as [HpL HpR].
  { split; (split; [lia|]); intros i e Hi He.
    - rewrite Forall_lookup in HltL. apply HltL in Hi. lia.
    - rewrite Forall_lookup in HltR. apply HltR in Hi. lia. }
  destruct (build_recurse fuel buf L own false) as [bufL| |] eqn:EL; try done.
  destruct (build_recurse fuel bufL R own _) as [bufR| |] eqn:ER; try done.
  apply IH in EL as (encL & -> & HLpos & HfL); [|done..].
  apply IH in ER as (encR & -> & HRpos & HfR); [|done..].
  rewrite <- app_assoc, <- rev_app_distr, push_rev, !length_app, !length_rev, !length_app in Hb.
  set (dist := Z.of_nat (length (encR ++ enc_value v))) in *.
  replace (Z.of_nat (length buf + (length (enc_value v) + (length encR + length encL))) -
    Z.of_nat (length buf + length encL)) with dist in Hb by (unfold dist; rewrite length_app; lia).
  match type of Hb with (match ?p with _ => _ end = _) => set (enc_ptr := p) in * end.
  assert (enc_ptr <> [] /\ buf' = push (push (buf ++ rev (enc_value v ++ encR ++ encL)) enc_ptr)
    (enc_rel_key (rel own parent))) as [Hnil ->] by (destruct enc_ptr; naive_solver).
  rewrite !push_rev. eexists. split; [reflexivity|].
  split; [rewrite length_app; pose proof (enc_rel_key_pos (rel own parent)); lia|].
  intros ptr pos key best steps is_leaf Hat Hpos Hlim Hflag Hst Hdepth.
  unfold flag_ok in Hflag. rewrite (proj2 (Nat.leb_gt _ _) Hlen) in Hflag. subst is_leaf.
  destruct steps as [|steps]; [lia|].
  destruct (inner_node_read steps ptr key parent pos best own v encL encR (Nat.eqb (length L) 3) enc_ptr)
    as (pr & pl & Br & Bl & ? & ? & ? & ? & ->); auto; [apply Hpar|].
  destruct (split_depth s k (length es) steps) as (Hs3 & Hst' & Hsd); [done|lia..|].
  rewrite Hes, lookup_le_node by done. bcase.
  - apply (HfL ptr pl key best steps); auto; try lia.
    + unfold flag_ok. rewrite HL. destruct (Nat.leb_spec s 3), (Nat.eqb_spec s 3); auto; lia.
  - apply (HfR ptr pr key v steps); auto; try lia.
    + unfold flag_ok. rewrite HL, HR. 
      destruct (Nat.leb_spec (length es - S s) 3), (Nat.eqb_spec s 3); auto; lia.
Qed.

(** C1. The table search refines predecessor lookup: on the bytes the user-space
    builder emits for a sorted table of at least four rows, stored anywhere in a chunk,
    [find_cft] returns the row with the greatest key not above the searched offset, and
    [-1] when all keys are above it. *)
Theorem find_cft_build_table es tbl offsetmaps id start key ptr :
  entries_ok es -> (4 <= length es)%nat -> Z.of_nat (length es) < 2 ^ 18 ->
  build_table es = Some tbl ->
  offsetmaps id = Some ptr -> bytes_at ptr start tbl ->
  0 <= start -> start + Z.of_nat (length tbl) <= OFFSETMAP_SIZE - 15 ->
  find_cft offsetmaps id start key = Some (lookup_le es key (-1)).
Proof.
  intros Hok H4 Hlen Hb Hm Hat Hst Hlim. unfold build_table in Hb.
  destruct (build_recurse _ _ _ _ _) as [buf| |] eqn:E; simplify_eq.
  apply build_recurse_finds in E as (enc & -> & _ & Hf); [|done|].
  2:{ split; [lia|]. intros i [k v] Hi Hk. simpl in Hk. subst k. split; [|lia].
      destruct i as [|i]; [done|]. destruct Hok as [Hs Hr].
      destruct es as [|[k0 v0] es]; [done|].
      apply StronglySorted_inv in Hs as [_ Hs]. apply Forall_cons in Hr as [[? _] _].
      rewrite Forall_lookup in Hs. apply Hs in Hi. unfold key_lt in Hi. simpl in *. lia. }
  simpl in *. rewrite rev_involutive in *. unfold find_cft. rewrite Hm.
  rewrite Hf; auto.
  - f_equal. unfold lookup_le. destruct (last _) as [e|] eqn:El; [|done].
    apply last_Some_elem_of, list_elem_of_filter in El as [_ He].
    destruct Hok as [_ Hr]. rewrite Forall_forall in Hr. apply Hr in He as [_ He].
    apply swrap_small; simpl; lia.
  - unfold flag_ok. destruct (Nat.leb_spec (length es) 3); [lia|done].
  - unfold MAX_OFFSETS_BISECT_STEPS. lia.
Qed.

(** ** The builder is total on tables of moderate size *)
Lemma enc_rel_key_le k : (length (enc_rel_key k) <= 9)%nat.
Proof. unfold enc_rel_key. repeat bcase; simpl; lia. Qed.

Lemma enc_value_le v : (length (enc_value v) <= 4)%nat.
Proof. unfold enc_value. repeat bcase; simpl; lia. Qed.

Lemma enc_ptr_ok (b : bool) dist : 0 <= dist <= 0x3ffff ->
  (1 <= length (if b then enc_rel_leaf_ptr dist else enc_rel_ptr dist) <= 3)%nat.
Proof. intros. destruct b; unfold enc_rel_leaf_ptr, enc_rel_ptr; repeat bcase; simpl; lia. Qed.

Lemma push_length buf d : length (push buf d) = (length buf + length d)%nat.
Proof. unfold push. by rewrite length_app, length_rev. Qed.

Lemma build_leaf_length buf es parent unmarked :
  (length buf <= length (build_leaf buf es parent unmarked) <= length buf + 40)%nat.
Proof.
  pose proof enc_value_le as HV. pose proof enc_rel_key_le as HK. unfold build_leaf, push, enc_leaf_marker.
  destruct es as [|e0 [|e1 [|e2 [|e3 es]]]], unmarked; rewrite !length_app, !length_rev;
    cbn [length]; rewrite ?length_app, ?length_rev;
    repeat match goal with
    | |- context [length (enc_value ?v)] =>
        let n := fresh "n" in pose proof (HV v); set (n := length (enc_value v)) in *; clearbody n
    | |- context [length (enc_rel_key ?k)] =>
        let n := fresh "n" in pose proof (HK k); set (n := length (enc_rel_key k)) in *; clearbody n
    end; lia.
Qed.

Lemma build_recurse_total fuel buf es parent unmarked :
  (length es < fuel)%nat -> (length es <= 4368)%nat ->
  exists buf', build_recurse fuel buf es parent unmarked = Built buf' /\
    (length buf <= length buf' <= length buf + 60 * length es + 40)%nat.
Proof.
  revert buf es parent unmarked. induction fuel as [|fuel IH]; intros buf es parent unmarked Hf Hle; [lia|].
  cbn [build_recurse]. destruct (Nat.leb_spec (length es) 3) as [Hlen|Hlen].
  { eexists. split; [reflexivity|]. pose proof (build_leaf_length buf es parent unmarked). lia. }
  destruct (split_loop_spec (length es) 3 (length es) 2) as (k & Hs & Hk & Hsplit); [done|lia|lia|lia|].
  set (s := split_loop (length es) 3 (length es)) in *.
  destruct (lookup_lt_is_Some_2 es s) as [[own v] ->]; [lia|].
  destruct (IH buf (take s es) own false) as (bufL & -> & HL); [rewrite length_take; lia..|].
  destruct (IH bufL (drop (S s) es) own (Nat.leb (length (drop (S s) es)) 3 && negb (Nat.eqb (length (take s es)) 3)))
    as (bufR & -> & HR); [rewrite length_drop; lia..|].
  rewrite length_take in HL. rewrite length_drop in HR.
  rewrite !push_length. pose proof (enc_value_le v).
  set (dist := Z.of_nat (length bufR + length (enc_value v)) - Z.of_nat (length bufL)).
  pose proof (enc_ptr_ok (Nat.eqb (length (take s es)) 3) dist ltac:(unfold dist; lia)) as Hp.
  set (p := if Nat.eqb (length (take s es)) 3 then enc_rel_leaf_ptr dist else enc_rel_ptr dist) in *.
  pose proof (enc_rel_key_le (rel own parent)).
  destruct p as [|x p]; [simpl in Hp; lia|].
  eexists. split; [reflexivity|]. rewrite !push_length. lia.
Qed.

(** The builder always produces a table (the recursion terminates and every left
    pointer fits its field) for up to 4368 rows. *)
Theorem build_table_total es : (length es <= 4368)%nat -> is_Some (build_table es).
Proof.
  intros H. unfold build_table.
  destruct (build_recurse_total (S (length es)) [] es 0 false) as (buf & -> & _); [lia..|]. eauto.
Qed.

Lemma bytes_at_self l : Z.of_nat (length l) <= OFFSETMAP_SIZE -> bytes_at l 0 l.
Proof.
  intros Hl i x Hi. unfold om_byte. pose proof (lookup_lt_Some _ _ _ Hi).
  destruct (Z.leb_spec 0 (0 + Z.of_nat i)), (Z.ltb_spec (0 + Z.of_nat i) OFFSETMAP_SIZE); try lia.
  cbn [andb]. replace (Z.to_nat (0 + Z.of_nat i)) with i by lia. by rewrite Hi.
Qed.

Definition demo_entries : list (Z * Z) :=
  [(10, 1); (20, 2); (300, 3); (5000, 4); (70000, 5); (70001, 6); (70002, 7); (70003, 8); (70004, 900)].
Definition demo_table : list Z := default [] (build_table demo_entries).

Lemma demo_entries_ok : entries_ok demo_entries.
Proof.
  split; [|repeat constructor; simpl; lia].
  unfold demo_entries. repeat (constructor; [|repeat constructor; unfold key_lt; simpl; lia]). constructor.
Qed.

Lemma find_cft_build_table_witness :
  find_cft (fun _ => Some demo_table) 0 0 70003 = Some 8 /\
  find_cft (fun _ => Some demo_table) 0 0 4999 = Some (lookup_le demo_entries 4999 (-1)).
Proof.
  split; [vm_compute; reflexivity|].
  apply (find_cft_build_table demo_entries demo_table (fun _ => Some demo_table) 0 0 4999 demo_table).
  - exact demo_entries_ok.
  - simpl; lia.
  - vm_compute; reflexivity.
  - vm_compute; reflexivity.
  - reflexivity.
  - apply bytes_at_self. vm_compute. discriminate.
  - lia.
  - vm_compute. discriminate.
Defined.

(** Whatever bytes a chunk holds and wherever the search starts, [find_cft] never
    reads outside the 256 KiB array: every access it makes is defined. *)
Theorem find_cft_in_bounds offsetmaps id start key :
  (forall i ptr, offsetmaps i = Some ptr -> bytes_ok ptr) -> 0 <= start ->
  is_Some (find_cft offsetmaps id start key).
Proof. apply find_cft_total. Qed.

Lemma find_cft_in_bounds_witness : is_Some (find_cft (fun _ => Some [0xdf; 0xff; 0xf7]) 0 262128 5).
Proof.
  apply (find_cft_in_bounds (fun _ => Some [0xdf; 0xff; 0xf7]) 0 262128 5).
  - intros i ptr [= <-]. unfold bytes_ok. repeat constructor; lia.
  - lia.
Defined.

Lemma build_table_total_witness : is_Some (build_table demo_entries).
Proof. apply (build_table_total demo_entries). simpl; lia. Defined.

Definition demo_mapping : mapping :=
  Mapping 3 [MapEntry 0x1000 0 7 0; MapEntry 0x5000 64 7 128; MapEntry 0x9000 128 8 0].

Lemma find_mapping_correct_witness :
  find_mapping demo_mapping 0x6000 = Some (Some (MapEntry 0x5000 64 7 128)).
Proof.
  rewrite (find_mapping_correct demo_mapping 0x6000); [vm_compute; reflexivity|].
  repeat split; try (vm_compute; discriminate).
  vm_compute. repeat (constructor; [|repeat constructor; vm_compute; discriminate]). constructor.
Defined.

(** Each field encoding of the builder is read back by the kernel-side reader:
    relative keys, inner and leaf pointers (with their leaf flag) and values decode to
    what was encoded and the reader advances by exactly the encoded length. *)
Theorem fields_roundtrip ptr pos :
  (forall k, - 2 ^ 63 <= k < 2 ^ 63 -> bytes_at ptr pos (enc_rel_key k) ->
     uw_read_key ptr pos = Some (u64 k, pos + Z.of_nat (length (enc_rel_key k)))) /\
  (forall x, 0 <= x -> enc_rel_ptr x <> [] -> bytes_at ptr pos (enc_rel_ptr x) ->
     uw_read_rel_ptr ptr pos = Some (x, pos + Z.of_nat (length (enc_rel_ptr x)), false)) /\
  (forall x, 0 <= x -> enc_rel_leaf_ptr x <> [] -> bytes_at ptr pos (enc_rel_leaf_ptr x) ->
     uw_read_rel_ptr ptr pos = Some (x, pos + Z.of_nat (length (enc_rel_leaf_ptr x)), true)) /\
  (forall v, 0 <= v <= 0xffffff -> bytes_at ptr pos (enc_value v) ->
     uw_read_value ptr pos = Some (v, pos + Z.of_nat (length (enc_value v)))).
Proof.
  split_and!; auto using read_enc_rel_key, read_enc_rel_ptr, read_enc_rel_leaf_ptr, read_enc_value.
Qed.

(** A chunk of at most three rows is emitted as a leaf without the leaf marker, which
    [find_cft] does not recognise at the root: for the one-row table (10 -> 1) the search
    for 15 answers 0 instead of 1. *)
Theorem find_cft_small_table :
  build_table [(10, 1)] = Some [121; 111; 0; 1; 111; 0] /\
  find_cft (fun _ => build_table [(10, 1)]) 0 0 15 = Some 0 /\
  lookup_le [(10, 1)] 15 (-1) = 1.
Proof. vm_compute. auto. Qed.
