(* ===== verification/DwUnwind.v ===== *)
(** * The DWARF stack walker

    src/src/stdlib/stack/dwunwind.bpf.c: the DWARF expression machine ([eval_expr]),
    the recovery of return addresses hidden by return probes, one unwind step and the
    stack walk [__ustack_dwunwind].  The kernel side of the program (map lookups, the
    user-memory read helper, the current task) is the record [env]; the per-cpu scratch
    object shared by all functions is passed explicitly as a state. *)
From stdpp Require Import base numbers list gmap.
From S2P Require Import Prelude DwTables.
Import Mapping Reader.

Definition NUM_REGISTERS := 17.
Definition RSP := 7.
Definition RIP := 16.
Definition MAX_EXPRESSION_LEN := 255.
Definition EXPR_STACK_SIZE := 16.
Definition MAX_EXPR_INSTRUCTIONS := 32.
Definition MAX_STACK_FRAMES := 512.
Definition MAX_UPROBES := MAX_STACK_FRAMES.
Definition XOL_PAGE_SIZE := 4096.

Definition EXPR_OP_DEREF := 0x01.
Definition EXPR_OP_AND := 0x02.
Definition EXPR_OP_GE := 0x03.
Definition EXPR_OP_SHL := 0x04.
Definition EXPR_OP_PLUS := 0x05.
Definition EXPR_OP_MUL := 0x06.
Definition EXPR_OP_CONST := 0x81.
Definition EXPR_OP_PLUS_CONST := 0x82.
Definition EXPR_OP_BREG := 0xc1.

Definition REGISTER_RULE_UNINITIALIZED := 0.
Definition REGISTER_RULE_UNDEFINED := 1.
Definition REGISTER_RULE_SAME_VALUE := 2.
Definition REGISTER_RULE_OFFSET := 3.
Definition REGISTER_RULE_VAL_OFFSET := 4.
Definition REGISTER_RULE_REGISTER := 5.
Definition REGISTER_RULE_EXPRESSION := 6.
Definition REGISTER_RULE_VAL_EXPRESSION := 7.
Definition REGISTER_RULE_CONSTANT := 8.

Definition CFA_RULE_UNINITIALIZED := 0.
Definition CFA_RULE_REG_OFFSET := 1.
Definition CFA_RULE_EXPRESSION := 2.

(** [rule_data] is the 64-bit union: [reg] and [offset] are the whole of it,
    [expression_id] its low 32 bits. *)
Record register_rule := RegRule { rtype : Z; rule_data : Z }.

(** [cfa_word] is the 32-bit member at the start of the union ([reg] or
    [expression_id]), [cfa_offset] the offset behind it. *)
Record cfa_rule := CfaRule { cfa_rtype : Z; cfa_word : Z; cfa_offset : Z }.

Record cft := Cft { arg_size : Z; cft_cfa : cfa_rule; rules : list register_rule }.

(** The first bytes of the instruction array, the rest being zero. *)
Record expression := Expression { ninstructions : Z; instructions : list Z }.

Record dwunwind_state := State {
  tgid : Z;
  xol_base : Z;
  current_reg_set : Z;
  regs_map : list Z;
  regs_valid : list Z;
  cfa : Z;
  stack : list Z;
  steps : Z;
  eval_error : Z
}.

Definition set_stack (f : list Z) (s : dwunwind_state) : dwunwind_state :=
  State (tgid s) (xol_base s) (current_reg_set s) (regs_map s) (regs_valid s) (cfa s) f (steps s) (eval_error s).
Definition set_eval_error (f : Z) (s : dwunwind_state) : dwunwind_state :=
  State (tgid s) (xol_base s) (current_reg_set s) (regs_map s) (regs_valid s) (cfa s) (stack s) (steps s) f.
Definition set_regs_map (f : list Z) (s : dwunwind_state) : dwunwind_state :=
  State (tgid s) (xol_base s) (current_reg_set s) f (regs_valid s) (cfa s) (stack s) (steps s) (eval_error s).
Definition set_cfa (f : Z) (s : dwunwind_state) : dwunwind_state :=
  State (tgid s) (xol_base s) (current_reg_set s) (regs_map s) (regs_valid s) f (stack s) (steps s) (eval_error s).

(** The saved user registers of a task, the fields the walker reads. *)
Record pt_regs := PtRegs {
  ax : Z; dx : Z; cx : Z; bx : Z; si : Z; di : Z; bp : Z; sp : Z;
  r8 : Z; r9 : Z; r10 : Z; r11 : Z; r12 : Z; r13 : Z; r14 : Z; r15 : Z; ip : Z
}.

(** Their DWARF numbering. *)
Definition dwarf_regs (r : pt_regs) : list Z :=
  [ax r; dx r; cx r; bx r; si r; di r; bp r; sp r; r8 r; r9 r; r10 r; r11 r; r12 r; r13 r;
   r14 r; r15 r; ip r].

(** What the program reads from the kernel: the BPF maps, the 8-byte user memory
    read ([None] when the helper returns an error), the return instances of the
    current task in list order, as (stack, orig_ret_vaddr), and the fields of the
    current task the walk starts from. *)
Record env := Env {
  dwunwind_mappings : Z -> option mapping;
  dwunwind_offsetmaps : Z -> option (list Z);
  dwunwind_cfts : Z -> option cft;
  dwunwind_expressions : Z -> option expression;
  bpf_probe_read_user : Z -> option Z;
  return_instances : list (Z * Z);
  current_task : option (option (Z * Z));
  task_pt_regs : option pt_regs
}.

(** ** The expression machine *)
Definition instr_at (e : expression) (i : Z) : option Z :=
  if (0 <=? i) && (i <? MAX_EXPRESSION_LEN)
  then Some (default 0 (instructions e !! Z.to_nat i))
  else None.

Fixpoint instr_le (n : nat) (e : expression) (i : Z) : option Z :=
  match n with
  | O => Some 0
  | S n => b ← instr_at e i; v ← instr_le n e (i + 1); Some (b + 256 * v)
  end.

(** The opcode and its arguments, by the two top bits of the opcode. *)
Definition fetch (e : expression) (i : Z) : option (Z * Z * Z * Z) :=
  instr ← instr_at e i;
  let i := i + 1 in
  if instr &' 0xc0 =? 0x40 then
    a1 ← instr_at e i; Some (instr, a1, 0, i + 1)
  else if instr &' 0xc0 =? 0x80 then
    a1 ← instr_le 8 e i; Some (instr, a1, 0, i + 8)
  else if instr &' 0xc0 =? 0xc0 then
    a1 ← instr_at e i; a2 ← instr_le 8 e (i + 1); Some (instr, a1, a2, i + 1 + 8)
  else Some (instr, 0, 0, i).

(** [1 << r] as a 32-bit int (the shift count is taken modulo 32), converted to u64. *)
Definition int_bit (r : Z) : Z := u64 (s32 (1 <<' (r &' 31))).

(** The underflow test of the first [switch]. *)
Definition underflow (instr sp : Z) : bool :=
  if (instr =? EXPR_OP_AND) || (instr =? EXPR_OP_SHL) || (instr =? EXPR_OP_GE) ||
     (instr =? EXPR_OP_PLUS) || (instr =? EXPR_OP_MUL)
  then sp <? 2
  else if (instr =? EXPR_OP_DEREF) || (instr =? EXPR_OP_PLUS_CONST)
  then sp <? 1
  else false.

(** A binary operation on the two topmost cells: [stack\[sp-2\] = f ...; --sp]. *)
Definition binop (f : Z -> Z -> Z) (st : list Z) (sp : Z) : option (option (list Z * Z)) :=
  a ← zget st (sp - 2);
  b ← zget st (sp - 1);
  st ← zset st (sp - 2) (f a b);
  Some (Some (st, sp - 1)).

(** The second [switch].  [Some None] is [goto err]; [regs] and [valid] are the old
    register set and its validity mask.  Shift counts are taken modulo 64. *)
Definition exec (e : env) (regs : list Z) (valid : Z) (instr a1 a2 : Z) (st : list Z) (sp : Z)
  : option (option (list Z * Z)) :=
  if instr =? EXPR_OP_CONST then
    st ← zset st sp a1; Some (Some (st, sp + 1))
  else if instr =? EXPR_OP_BREG then
    if a1 >=? NUM_REGISTERS then Some None
    else if valid &' int_bit a1 =? 0 then Some None
    else
      r ← zget regs a1;
      st ← zset st sp (u64 (r + a2)); Some (Some (st, sp + 1))
  else if instr =? EXPR_OP_AND then binop Z.land st sp
  else if instr =? EXPR_OP_SHL then binop (fun a b => u64 (a <<' (b &' 63))) st sp
  else if instr =? EXPR_OP_GE then binop (fun a b => if a >=? b then 1 else 0) st sp
  else if instr =? EXPR_OP_PLUS then binop (fun a b => u64 (a + b)) st sp
  else if instr =? EXPR_OP_MUL then binop (fun a b => u64 (a * b)) st sp
  else if instr =? EXPR_OP_PLUS_CONST then
    a ← zget st (sp - 1);
    st ← zset st (sp - 1) (u64 (a + a1)); Some (Some (st, sp))
  else if instr =? EXPR_OP_DEREF then
    let sp := sp - 1 in
    addr ← zget st sp;
    match bpf_probe_read_user e addr with
    | None => Some None
    | Some val => st ← zset st sp val; Some (Some (st, sp + 1))
    end
  else Some None.

(** The instruction loop; [n] instructions are left.  The result is the stack and, on
    success, the stack pointer. *)
Fixpoint eval_loop (n : nat) (e : env) (regs : list Z) (valid : Z) (expr : expression)
    (i : Z) (st : list Z) (sp : Z) : option (list Z * option Z) :=
  match n with
  | O => Some (st, Some sp)
  | S n =>
    if i >=? MAX_EXPRESSION_LEN - 10 then Some (st, None)
    else
      '(instr, a1, a2, i) ← fetch expr i;
      if sp >=? EXPR_STACK_SIZE then Some (st, None)
      else if underflow instr sp then Some (st, None)
      else
        r ← exec e regs valid instr a1 a2 st sp;
        match r with
        | None => Some (st, None)
        | Some (st, sp) => eval_loop n e regs valid expr i st sp
        end
  end.

(** The registers of a set: the half of [regs_map] it names. *)
Definition reg_base (set : Z) : Z := if set =? 0 then 0 else NUM_REGISTERS.
Definition old_regs (s : dwunwind_state) : list Z :=
  take (Z.to_nat NUM_REGISTERS) (drop (Z.to_nat (reg_base (current_reg_set s))) (regs_map s)).
Definition old_valid (s : dwunwind_state) : option Z :=
  zget (regs_valid s) (if current_reg_set s =? 0 then 0 else 1).

(** [eval_expr] with the scratch state found; the result is the new state and the
    returned value, errors being flagged in [eval_error]. *)
Definition eval_expr (e : env) (expression_id : Z) (s : dwunwind_state)
  : option (dwunwind_state * Z) :=
  let s := set_eval_error 0 s in
  let err s := Some (set_eval_error 1 s, 0) in
  valid ← old_valid s;
  match dwunwind_expressions e (u32 expression_id) with
  | None => err s
  | Some expr =>
    let ninstr := ninstructions expr in
    if ninstr >? MAX_EXPR_INSTRUCTIONS then err s
    else
      '(st, r) ← eval_loop (Z.to_nat ninstr) e (old_regs s) valid expr 0 (stack s) 0;
      let s := set_stack st s in
      match r with
      | None => err s
      | Some sp =>
        if sp =? 0 then err s
        else if sp >? 16 then err s
        else v ← zget st (sp - 1); Some (s, v)
      end
  end.

(** ** Return probes *)
Fixpoint recover_loop (n : nat) (ris : list (Z * Z)) (rsp : Z) : Z :=
  match n with
  | O => 0
  | S n =>
    match ris with
    | [] => 0
    | (stk, retaddr) :: ris =>
      if u64 (stk + 8) =? rsp then retaddr else recover_loop n ris rsp
    end
  end.

Definition recover_uretprobe_addr (e : env) (rsp : Z) : Z :=
  recover_loop (Z.to_nat MAX_UPROBES) (return_instances e) rsp.

(** ** One unwind step *)

(** Parts of a step either stop it, with its return value, or go on with a value. *)
Inductive flow := Stop (ret : Z) (s : dwunwind_state) | Go (v : Z) (s : dwunwind_state).

(** Assignments to the old and to the new register set. *)
Definition set_reg (set reg v : Z) (s : dwunwind_state) : option dwunwind_state :=
  m ← zset (regs_map s) (reg_base set + reg) v; Some (set_regs_map m s).
Definition get_reg (set reg : Z) (s : dwunwind_state) : option Z :=
  zget (regs_map s) (reg_base set + reg).
Definition new_set (set : Z) : Z := if set =? 0 then 1 else 0.

Definition compute_cfa (e : env) (c : cfa_rule) (o regs_v_o : Z) (s : dwunwind_state) : option flow :=
  if cfa_rtype c =? CFA_RULE_UNINITIALIZED then Some (Stop 1 s)
  else if cfa_rtype c =? CFA_RULE_EXPRESSION then
    '(s, v) ← eval_expr e (cfa_word c) s;
    if negb (eval_error s =? 0) then Some (Stop (-1) s) else Some (Go v s)
  else if cfa_rtype c =? CFA_RULE_REG_OFFSET then
    let r := cfa_word c in
    if regs_v_o &' int_bit r =? 0 then Some (Stop (-1) s)
    else if r >=? NUM_REGISTERS then Some (Stop (-1) s)
    else v ← get_reg o r s; Some (Go (u64 (v + s64 (cfa_offset c))) s)
  else Some (Stop (-1) s).

(** The body of the register loop; the value passed on is [regs_v_n]. *)
Definition apply_rule (e : env) (rule : register_rule) (reg o cfa regs_v_o regs_v_n : Z)
    (s : dwunwind_state) : option flow :=
  let n := new_set o in
  let valid := regs_v_n |' int_bit reg in
  if (rtype rule =? REGISTER_RULE_UNINITIALIZED) || (rtype rule =? REGISTER_RULE_SAME_VALUE) then
    v ← get_reg o reg s; s ← set_reg n reg v s; Some (Go regs_v_n s)
  else if rtype rule =? REGISTER_RULE_UNDEFINED then
    Some (Go (regs_v_n &' u64 (Z.lnot (s32 (1 <<' reg)))) s)
  else if rtype rule =? REGISTER_RULE_OFFSET then
    let off := s64 (rule_data rule) in
    match bpf_probe_read_user e (u64 (cfa + off)) with
    | None => Some (Stop (-1) s)
    | Some val => s ← set_reg n reg val s; Some (Go valid s)
    end
  else if rtype rule =? REGISTER_RULE_VAL_OFFSET then
    let off := s64 (rule_data rule) in
    s ← set_reg n reg (u64 (cfa + off)) s; Some (Go valid s)
  else if rtype rule =? REGISTER_RULE_REGISTER then
    let src_reg := rule_data rule in
    if src_reg >=? NUM_REGISTERS then Some (Stop (-1) s)
    else if regs_v_o &' int_bit src_reg =? 0 then Some (Stop (-1) s)
    else v ← get_reg o src_reg s; s ← set_reg n reg v s; Some (Go valid s)
  else if rtype rule =? REGISTER_RULE_EXPRESSION then
    '(s, addr) ← eval_expr e (u32 (rule_data rule)) s;
    if negb (eval_error s =? 0) then Some (Stop (-1) s)
    else
      match bpf_probe_read_user e addr with
      | None => Some (Stop (-1) s)
      | Some val => s ← set_reg n reg val s; Some (Go valid s)
      end
  else if rtype rule =? REGISTER_RULE_VAL_EXPRESSION then
    '(s, val) ← eval_expr e (u32 (rule_data rule)) s;
    if negb (eval_error s =? 0) then Some (Stop (-1) s)
    else s ← set_reg n reg val s; Some (Go valid s)
  else if rtype rule =? REGISTER_RULE_CONSTANT then
    s ← set_reg n reg (rule_data rule) s; Some (Go valid s)
  else Some (Stop (-1) s).

(** The register loop from register [reg] on.  (The [opaquify_ul] calls of the
    source, no-ops by [opaquify_id], are left out of this file.) *)
Fixpoint apply_rules (e : env) (rs : list register_rule) (reg o cfa regs_v_o regs_v_n : Z)
    (s : dwunwind_state) : option flow :=
  match rs with
  | [] => Some (Go regs_v_n s)
  | rule :: rs =>
    f ← apply_rule e rule reg o cfa regs_v_o regs_v_n s;
    match f with
    | Stop ret s => Some (Stop ret s)
    | Go regs_v_n s => apply_rules e rs (reg + 1) o cfa regs_v_o regs_v_n s
    end
  end.

(** After the register loop: return probes, the adjustment of the return address and
    the switch of register sets. *)
Definition finish_step (e : env) (o regs_v_n : Z) (s : dwunwind_state) : option (Z * dwunwind_state) :=
  let n := new_set o in
  rip ← get_reg n RIP s;
  rsp ← get_reg n RSP s;
  s ← (if (rip >=? xol_base s) && (rip <? u64 (xol_base s + XOL_PAGE_SIZE)) then
         let rec := recover_uretprobe_addr e rsp in
         if negb (rec =? 0) then set_reg n RIP rec s else Some s
       else Some s);
  rip ← get_reg n RIP s;
  let rip := u64 (rip - 1) in
  s ← set_reg n RIP rip s;
  valid ← zset (regs_valid s) (if n =? 0 then 0 else 1) regs_v_n;
  let s := State (tgid s) (xol_base s) n (regs_map s) valid (cfa s) (stack s)
             (s32 (steps s + 1)) (eval_error s) in
  if (regs_v_n &' int_bit RIP =? 0) || (rip =? 0) then Some (1, s) else Some (0, s).

(** The first part of a step: the unwind row of the instruction pointer, if there is one. *)
Definition find_row (e : env) (s : dwunwind_state) : option (option cft) :=
  match dwunwind_mappings e (tgid s) with
  | None => Some None
  | Some m =>
    rip ← get_reg (current_reg_set s) RIP s;
    ome ← find_mapping m rip;
    match ome with
    | None => Some None
    | Some me =>
      let offset := u64 (rip - vma_start me + me_offset me) in
      cft_id ← find_cft (dwunwind_offsetmaps e) (offsetmap_id me) (start_in_map me) offset;
      if cft_id <? 0 then Some None
      else if cft_id =? 0 then Some None
      else Some (dwunwind_cfts e cft_id)
    end
  end.

Definition unwind_step (e : env) (s : dwunwind_state) : option (Z * dwunwind_state) :=
  row ← find_row e s;
  match row with
  | None => Some (-1, s)
  | Some cf =>
    let o := current_reg_set s in
    regs_v_o ← old_valid s;
    f ← compute_cfa e (cft_cfa cf) o regs_v_o s;
    match f with
    | Stop ret s => Some (ret, s)
    | Go cfa s =>
      s ← set_reg o RSP cfa s;
      s ← set_reg (new_set o) RSP cfa s;
      let s := set_cfa cfa s in
      f ← apply_rules e (rules cf) 0 o cfa regs_v_o regs_v_o s;
      match f with
      | Stop ret s => Some (ret, s)
      | Go regs_v_n s => finish_step e o regs_v_n s
      end
    end
  end.

(** ** The stack walk

    The words stored through [*buf++] are collected in order. *)
Fixpoint walk_loop (n : nat) (e : env) (i nframes stack_top : Z) (out : list Z) (s : dwunwind_state)
  : option (list Z * dwunwind_state) :=
  match n with
  | O => Some (out, s)
  | S n =>
    if i <? nframes then
      '(ret, s) ← unwind_step e s;
      if ret >? 0 then Some (out, s)
      else if ret <? 0 then Some (out ++ [u64 (-1)], s)
      else
        rsp ← get_reg (current_reg_set s) RSP s;
        if rsp >=? u64 (stack_top - 8) then Some (out, s)
        else
          rip ← get_reg (current_reg_set s) RIP s;
          walk_loop n e (i + 1) nframes stack_top (out ++ [rip]) s
    else Some (out, s)
  end.

(** [s] is the scratch slot, [None] when its lookup fails; [current_task e] is the task
    with, when it has a user address space, its [start_stack] and xol area address.  The
    result is the return value, the words written to [buf] and the new slot. *)
Definition ustack_dwunwind (e : env) (buf_size tg : Z) (s : option dwunwind_state)
  : option (Z * list Z * option dwunwind_state) :=
  match dwunwind_mappings e tg with
  | None => Some (-2, [], s)
  | Some _ =>
    match current_task e with
    | None => Some (0, [], s)
    | Some None => Some (0, [], s)
    | Some (Some (stack_top, xol)) =>
      match task_pt_regs e with
      | None => Some (0, [], s)
      | Some pregs =>
        match s with
        | None => Some (1, [], None)
        | Some s =>
          let regs := dwarf_regs pregs ++ drop (Z.to_nat NUM_REGISTERS) (regs_map s) in
          valid ← zset (regs_valid s) 0 0x1ffff;
          let s := State tg xol 0 regs valid (cfa s) (stack s) 0 (eval_error s) in
          if buf_size <? 8 then Some (0, [], Some s)
          else
            rip ← get_reg 0 RIP s;
            let nframes := buf_size / 8 in
            '(out, s) ← walk_loop (Z.to_nat (MAX_STACK_FRAMES - 1)) e 1 nframes stack_top [rip] s;
            Some (8 * Z.of_nat (length out), out, Some s)
        end
      end
    end
  end.

(** ** Well-formed states and environments *)
Definition state_wf (s : dwunwind_state) : Prop :=
  length (regs_map s) = 34%nat /\ length (regs_valid s) = 2%nat /\ length (stack s) = 16%nat /\
  (current_reg_set s = 0 \/ current_reg_set s = 1).

Record env_wf (e : env) : Prop := {
  wf_offsetmaps id ptr : dwunwind_offsetmaps e id = Some ptr -> bytes_ok ptr;
  wf_mappings id m : dwunwind_mappings e id = Some m -> Forall (fun me => 0 <= start_in_map me) (entries m);
  wf_cfts id cf : dwunwind_cfts e id = Some cf ->
    length (rules cf) = 17%nat /\ 0 <= cfa_word (cft_cfa cf) /\ Forall (fun r => 0 <= rule_data r) (rules cf);
  wf_exprs id x : dwunwind_expressions e id = Some x -> bytes_ok (instructions x)
}.

(** ** The expression machine on an explicit stack

    The reference machine keeps the live cells as a list, top first. *)
Definition ref_binop (f : Z -> Z -> Z) (stk : list Z) : option (list Z) :=
  match stk with b :: a :: stk => Some (f a b :: stk) | _ => None end.

Definition ref_exec (e : env) (regs : list Z) (valid : Z) (instr a1 a2 : Z) (stk : list Z)
  : option (list Z) :=
  if instr =? EXPR_OP_CONST then Some (a1 :: stk)
  else if instr =? EXPR_OP_BREG then
    if (a1 <? NUM_REGISTERS) && negb (valid &' int_bit a1 =? 0)
    then r ← zget regs a1; Some (u64 (r + a2) :: stk)
    else None
  else if instr =? EXPR_OP_AND then ref_binop Z.land stk
  else if instr =? EXPR_OP_SHL then ref_binop (fun a b => u64 (a <<' (b &' 63))) stk
  else if instr =? EXPR_OP_GE then ref_binop (fun a b => if a >=? b then 1 else 0) stk
  else if instr =? EXPR_OP_PLUS then ref_binop (fun a b => u64 (a + b)) stk
  else if instr =? EXPR_OP_MUL then ref_binop (fun a b => u64 (a * b)) stk
  else if instr =? EXPR_OP_PLUS_CONST then
    match stk with a :: stk => Some (u64 (a + a1) :: stk) | [] => None end
  else if instr =? EXPR_OP_DEREF then
    match stk with
    | a :: stk => v ← bpf_probe_read_user e a; Some (v :: stk)
    | [] => None
    end
  else None.

Fixpoint ref_loop (n : nat) (e : env) (regs : list Z) (valid : Z) (expr : expression) (i : Z)
    (stk : list Z) : option (list Z) :=
  match n with
  | O => Some stk
  | S n =>
    if (i <? MAX_EXPRESSION_LEN - 10) && (Z.of_nat (length stk) <? EXPR_STACK_SIZE) then
      '(instr, a1, a2, i) ← fetch expr i;
      stk ← ref_exec e regs valid instr a1 a2 stk;
      ref_loop n e regs valid expr i stk
    else None
  end.

(** The value of an expression, [None] when it cannot be evaluated. *)
Definition ref_eval (e : env) (regs : list Z) (valid : Z) (id : Z) : option Z :=
  expr ← dwunwind_expressions e (u32 id);
  if ninstructions expr <=? MAX_EXPR_INSTRUCTIONS then
    stk ← ref_loop (Z.to_nat (ninstructions expr)) e regs valid expr 0 [];
    head stk
  else None.

(** [rep st sp stk]: the cells below [sp] hold [stk]. *)
Definition rep (st : list Z) (sp : Z) (stk : list Z) : Prop :=
  length st = 16%nat /\ 0 <= sp <= 16 /\ stk = rev (take (Z.to_nat sp) st).

Lemma rep_length st sp stk : rep st sp stk -> Z.of_nat (length stk) = sp.
Proof. intros (Hl & Hs & ->). rewrite length_rev, length_take. lia. Qed.

Lemma rep_push st sp stk v : rep st sp stk -> sp < 16 ->
  exists st', zset st sp v = Some st' /\ rep st' (sp + 1) (v :: stk).
Proof.
  intros (Hl & Hs & ->) Hlt. destruct (zset_is_Some st sp v) as [st' Hst]; [lia|].
  exists st'. split; [done|]. pose proof (zset_length _ _ _ _ Hst).
  apply zset_Some in Hst as [_ ->]. split; [by rewrite length_insert|]. split; [lia|].
  replace (Z.to_nat (sp + 1)) with (S (Z.to_nat sp)) by lia.
  rewrite (take_S_r _ _ v) by (apply list_lookup_insert_eq; lia).
  rewrite rev_app_distr. simpl. by rewrite take_insert_ge by lia.
Qed.

Lemma rep_pop st sp v stk : rep st sp (v :: stk) ->
  1 <= sp /\ zget st (sp - 1) = Some v /\ rep st (sp - 1) stk.
Proof.
  intros H. pose proof (rep_length _ _ _ H) as Hlen. cbn [length] in Hlen.
  destruct H as (Hl & Hs & Heq).
  destruct (lookup_lt_is_Some_2 st (Z.to_nat (sp - 1))) as [x Hx]; [lia|].
  replace (Z.to_nat sp) with (S (Z.to_nat (sp - 1))) in Heq by lia.
  rewrite (take_S_r _ _ _ Hx), rev_app_distr in Heq. simpl in Heq. simplify_eq.
  split; [lia|]. split; [apply zget_Some; split; [lia|done]|]. split; [done|]. split; [lia|done].
Qed.

Lemma rep_binop f st sp a b stk : rep st sp (b :: a :: stk) -> 
  exists st', binop f st sp = Some (Some (st', sp - 1)) /\ rep st' (sp - 1) (f a b :: stk).
Proof.
  intros H. pose proof (proj1 (proj2 H)). apply rep_pop in H as (H1 & Hb & H).
  apply rep_pop in H as (H2 & Ha & H). replace (sp - 1 - 1) with (sp - 2) in * by lia.
  unfold binop. rewrite Ha, Hb. cbn [mbind option_bind].
  destruct (rep_push _ _ _ (f a b) H) as (st' & -> & Hr); [lia|]. cbn [mbind option_bind].
  exists st'. split; [done|]. by replace (sp - 1) with (sp - 2 + 1) by lia.
Qed.

Lemma underflow_ref e regs valid instr a1 a2 st sp stk :
  rep st sp stk -> underflow instr sp = true -> ref_exec e regs valid instr a1 a2 stk = None.
Proof.
  intros H. apply rep_length in H. unfold underflow, ref_exec, ref_binop.
  destruct (Z.eqb_spec instr EXPR_OP_CONST) as [->|]; [done|].
  destruct (Z.eqb_spec instr EXPR_OP_BREG) as [->|]; [done|].
  destruct stk as [|a [|b stk]]; simpl in H; subst sp;
    repeat match goal with |- context [instr =? ?c] => destruct (instr =? c); cbn [orb]; try done end;
    try (intros ?%Z.ltb_lt; lia).
Qed.

(** A binary operation with at least two live cells. *)
Lemma exec_binop f st sp stk : rep st sp stk -> (sp <? 2) = false ->
  match ref_binop f stk with
  | Some stk' => exists st' sp', binop f st sp = Some (Some (st', sp')) /\ rep st' sp' stk'
  | None => binop f st sp = Some None
  end.
Proof.
  intros H Hsp%Z.ltb_ge. pose proof (rep_length _ _ _ H) as Hlen.
  destruct stk as [|b [|a r]]; simpl in *; try lia.
  destruct (rep_binop f _ _ _ _ _ H) as (st' & ? & ?). eauto.
Qed.

Lemma exec_ref e regs valid instr a1 a2 st sp stk :
  rep st sp stk -> sp < 16 -> 0 <= a1 -> (17 <= length regs)%nat -> underflow instr sp = false ->
  match ref_exec e regs valid instr a1 a2 stk with
  | Some stk' => exists st' sp', exec e regs valid instr a1 a2 st sp = Some (Some (st', sp')) /\ rep st' sp' stk'
  | None => exec e regs valid instr a1 a2 st sp = Some None
  end.
Proof.
  intros H Hsp Ha1 Hregs. pose proof (rep_length _ _ _ H) as Hlen. unfold underflow, ref_exec, exec.
  destruct (Z.eqb_spec instr EXPR_OP_CONST) as [->|_].
  { intros _. destruct (rep_push _ _ _ a1 H Hsp) as (st' & -> & ?). simpl. eauto. }
  destruct (Z.eqb_spec instr EXPR_OP_BREG) as [->|_].
  { intros _. rewrite Z.geb_leb. destruct (Z.ltb_spec a1 NUM_REGISTERS), (Z.leb_spec NUM_REGISTERS a1); try lia; simpl; [|done].
    destruct (_ =? 0); simpl; [done|]. unfold NUM_REGISTERS in *.
    destruct (zget_is_Some regs a1) as [r ->]; [lia|]. simpl.
    destruct (rep_push _ _ _ (u64 (r + a2)) H Hsp) as (st' & -> & ?). simpl. eauto. }
  do 5 (match goal with |- context [if instr =? ?c then ref_binop _ _ else _] =>
          destruct (Z.eqb_spec instr c) as [->|_]; [by apply exec_binop|] end).
  destruct (Z.eqb_spec instr EXPR_OP_PLUS_CONST) as [->|_].
  { intros Hu. simpl in Hu. apply Z.ltb_ge in Hu. destruct stk as [|a r]; [simpl in Hlen; lia|].
    apply rep_pop in H as (? & -> & H). simpl.
    destruct (rep_push _ _ _ (u64 (a + a1)) H) as (st' & -> & ?); [lia|]. simpl.
    rewrite Z.sub_add in *. eauto. }
  destruct (Z.eqb_spec instr EXPR_OP_DEREF) as [->|_]; [|done].
  intros Hu. simpl in Hu. apply Z.ltb_ge in Hu. destruct stk as [|a r]; [simpl in Hlen; lia|].
  apply rep_pop in H as (? & -> & H). simpl.
  destruct (bpf_probe_read_user e a) as [v|]; simpl; [|done].
  destruct (rep_push _ _ _ v H) as (st' & -> & ?); [lia|]. simpl. eauto.
Qed.

Lemma instr_at_in x i : 0 <= i < MAX_EXPRESSION_LEN -> bytes_ok (instructions x) ->
  exists b, instr_at x i = Some b /\ 0 <= b < 256.
Proof.
  intros Hi Hb. unfold instr_at. destruct (Z.leb_spec 0 i), (Z.ltb_spec i MAX_EXPRESSION_LEN); try lia.
  simpl. eexists. split; [done|]. destruct (instructions x !! Z.to_nat i) eqn:E; simpl; [|lia].
  unfold bytes_ok in Hb. rewrite Forall_lookup in Hb. eauto.
Qed.

Lemma instr_le_in n x i : 0 <= i -> i + Z.of_nat n <= MAX_EXPRESSION_LEN -> bytes_ok (instructions x) ->
  exists v, instr_le n x i = Some v /\ 0 <= v.
Proof.
  revert i. induction n as [|n IH]; intros i H0 H1 Hb; [simpl; eauto with lia|]. cbn [instr_le].
  destruct (instr_at_in x i) as (b & -> & ?); [lia|done|]. cbn [mbind option_bind].
  destruct (IH (i + 1)) as (v & -> & ?); [lia|lia|done|]. cbn [mbind option_bind]. eexists. split; [done|]. lia.
Qed.

(** Instruction fetch stays inside the expression. *)
Lemma fetch_in x i : 0 <= i < MAX_EXPRESSION_LEN - 10 -> bytes_ok (instructions x) ->
  exists instr a1 a2 i', fetch x i = Some (instr, a1, a2, i') /\ 0 <= a1 /\ 0 <= i'.
Proof.
  unfold MAX_EXPRESSION_LEN. intros Hi Hb. unfold fetch.
  destruct (instr_at_in x i) as (b & -> & ?); [unfold MAX_EXPRESSION_LEN; lia|done|]. cbn [mbind option_bind].
  destruct (instr_at_in x (i + 1)) as (a & -> & ?); [unfold MAX_EXPRESSION_LEN; lia|done|]. cbn [mbind option_bind].
  destruct (instr_le_in 8 x (i + 1)) as (w & -> & ?); [lia|unfold MAX_EXPRESSION_LEN; lia|done|]. cbn [mbind option_bind].
  destruct (instr_le_in 8 x (i + 1 + 1)) as (w' & -> & ?); [lia|unfold MAX_EXPRESSION_LEN; lia|done|]. cbn [mbind option_bind].
  repeat bcase; do 4 eexists; (split; [reflexivity|lia]).
Qed.

Lemma eval_loop_ref n e regs valid x i st sp stk :
  rep st sp stk -> 0 <= i -> (17 <= length regs)%nat -> bytes_ok (instructions x) ->
  exists st' r, eval_loop n e regs valid x i st sp = Some (st', r) /\ length st' = 16%nat /\
    match ref_loop n e regs valid x i stk with
    | Some stk' => exists sp', r = Some sp' /\ rep st' sp' stk'
    | None => r = None
    end.
Proof.
  revert i st sp stk. induction n as [|n IH]; intros i st sp stk H Hi Hr Hb; cbn [eval_loop ref_loop].
  { exists st, (Some sp). pose proof (proj1 H). eauto 6. }
  pose proof (rep_length _ _ _ H) as Hlen. pose proof (proj1 H) as Hst. rewrite !Z.geb_leb.
  destruct (Z.leb_spec (MAX_EXPRESSION_LEN - 10) i), (Z.ltb_spec i (MAX_EXPRESSION_LEN - 10)); try lia;
    cbn [andb]; [by eauto 6|].
  destruct (fetch_in x i) as (instr & a1 & a2 & i' & -> & Ha1 & Hi'); [lia|done|]. cbn [mbind option_bind].
  destruct (Z.leb_spec EXPR_STACK_SIZE sp), (Z.ltb_spec (Z.of_nat (length stk)) EXPR_STACK_SIZE); try lia;
    [by eauto 6|].
  destruct (underflow instr sp) eqn:Hu.
  { rewrite (underflow_ref _ _ _ _ _ _ _ _ _ H Hu). cbn [mbind option_bind]. eauto 6. }
  unfold EXPR_STACK_SIZE in *.
  pose proof (exec_ref e regs valid instr a1 a2 st sp stk H ltac:(lia) Ha1 Hr Hu) as Hx.
  destruct (ref_exec e regs valid instr a1 a2 stk) as [stk'|]; cbn [mbind option_bind].
  - destruct Hx as (st' & sp' & -> & Hrep). cbn [mbind option_bind]. by apply IH.
  - rewrite Hx. cbn [mbind option_bind]. eauto 6.
Qed.

Lemma old_valid_in s : state_wf s -> exists v, old_valid s = Some v.
Proof. intros (? & Hv & ?). apply zget_is_Some. destruct (_ =? 0); lia. Qed.

Lemma old_regs_length s : state_wf s -> length (old_regs s) = 17%nat.
Proof.
  intros (Hm & _). unfold old_regs, reg_base, NUM_REGISTERS. rewrite length_take, length_drop, Hm.
  destruct (_ =? 0); simpl; lia.
Qed.

(** [eval_expr] only touches the scratch stack and the error flag. *)
Lemma eval_expr_ref e id s v : state_wf s -> env_wf e -> old_valid s = Some v ->
  exists st, length st = 16%nat /\
    eval_expr e id s = match ref_eval e (old_regs s) v id with
                       | Some r => Some (set_eval_error 0 (set_stack st s), r)
                       | None => Some (set_eval_error 1 (set_stack st s), 0)
                       end.
Proof.
  intros Hs He Hv. unfold eval_expr, ref_eval. change (old_valid (set_eval_error 0 s)) with (old_valid s).
  change (old_regs (set_eval_error 0 s)) with (old_regs s).
  change (stack (set_eval_error 0 s)) with (stack s). rewrite Hv. cbn [mbind option_bind]. pose proof (proj1 (proj2 (proj2 Hs))) as Hst.
  assert (set_stack (stack s) s = s) as Hss by (by destruct s).
  destruct (dwunwind_expressions e (u32 id)) as [x|] eqn:Ex; cbn [mbind option_bind].
  2: { exists (stack s). split; [done|]. by rewrite Hss. }
  rewrite Z.gtb_ltb. destruct (Z.ltb_spec MAX_EXPR_INSTRUCTIONS (ninstructions x)),
    (Z.leb_spec (ninstructions x) MAX_EXPR_INSTRUCTIONS); try lia.
  { exists (stack s). split; [done|]. by rewrite Hss. }
  destruct (eval_loop_ref (Z.to_nat (ninstructions x)) e (old_regs s) v x 0 (stack s) 0 [])
    as (st & r & -> & Hlen & Hr); [|lia|by rewrite old_regs_length|by eapply wf_exprs|].
  { split; [done|]. split; [lia|done]. }
  cbn [mbind option_bind]. exists st. split; [done|].
  destruct (ref_loop _ _ _ _ _ _ _) as [stk|]; cbn [mbind option_bind]; [|by rewrite Hr].
  destruct Hr as (sp & -> & Hrep). pose proof (rep_length _ _ _ Hrep) as Hsp.
  destruct stk as [|a stk]; cbn [length head] in *.
  - by destruct (Z.eqb_spec sp 0); [|lia].
  - destruct (Z.eqb_spec sp 0); [lia|]. rewrite Z.gtb_ltb. destruct (Z.ltb_spec 16 sp); [destruct Hrep; lia|].
    apply rep_pop in Hrep as (? & -> & _). done.
Qed.

(** ** Register sets *)
Definition reg_ok (r : Z) : Prop := 0 <= r < 17.
Definition set_ok (o : Z) : Prop := o = 0 \/ o = 1.

Lemma get_reg_in o r s : state_wf s -> set_ok o -> reg_ok r -> exists v, get_reg o r s = Some v.
Proof.
  intros (Hm & _) Ho Hr. apply zget_is_Some. rewrite Hm. unfold reg_base, NUM_REGISTERS, reg_ok in *.
  destruct Ho as [->| ->]; simpl; lia.
Qed.

Lemma get_reg_old s r : state_wf s -> reg_ok r ->
  get_reg (current_reg_set s) r s = zget (old_regs s) r.
Proof.
  intros _ Hr. unfold get_reg, old_regs, zget, reg_base, NUM_REGISTERS, reg_ok in *.
  destruct (_ =? 0); rewrite !decide_True by lia; rewrite lookup_take_lt by lia;
    rewrite lookup_drop; f_equal; lia.
Qed.

(** Everything but the new half of [regs_map], the scratch stack and the error flag. *)
Definition same_frame (o : Z) (s s' : dwunwind_state) : Prop :=
  tgid s' = tgid s /\ xol_base s' = xol_base s /\ current_reg_set s' = current_reg_set s /\
  regs_valid s' = regs_valid s /\ DwUnwind.cfa s' = DwUnwind.cfa s /\ steps s' = steps s /\
  forall r, reg_ok r -> get_reg o r s' = get_reg o r s.

Lemma same_frame_refl o s : same_frame o s s.
Proof. repeat split. Qed.

Lemma same_frame_trans o s1 s2 s3 : same_frame o s1 s2 -> same_frame o s2 s3 -> same_frame o s1 s3.
Proof.
  intros (?&?&?&?&?&?&Ha) (?&?&?&?&?&?&Hb). repeat split; try congruence.
  intros r Hr. rewrite Hb, Ha; auto.
Qed.

Lemma same_frame_regs s s' : state_wf s -> state_wf s' -> same_frame (current_reg_set s) s s' ->
  old_regs s' = old_regs s.
Proof.
  intros Hs Hs' (_ & _ & Hc & _ & _ & _ & Hf). apply list_eq_same_length with 17%nat;
    [by rewrite old_regs_length..|]. intros i x y Hi Hx Hy.
  specialize (Hf (Z.of_nat i)). unfold reg_ok in Hf. rewrite <- Hc in Hf at 1.
  rewrite !get_reg_old in Hf by (try done; unfold reg_ok; lia). unfold zget in Hf.
  rewrite !decide_True, Nat2Z.id in Hf by lia. rewrite Hx, Hy in Hf. specialize (Hf ltac:(lia)). congruence.
Qed.

Lemma set_reg_spec o r v s : state_wf s -> set_ok o -> reg_ok r ->
  exists s', set_reg o r v s = Some s' /\ state_wf s' /\ same_frame (new_set o) s s' /\
    get_reg o r s' = Some v /\ (forall r', r' <> r -> get_reg o r' s' = get_reg o r' s).
Proof.
  intros Hs Ho Hr. unfold set_reg, get_reg. pose proof Hs as (Hm & Hv & Hst & Hc).
  destruct (zset_is_Some (regs_map s) (reg_base o + r) v) as [m Hm'].
  { rewrite Hm. unfold reg_base, NUM_REGISTERS, reg_ok in *. destruct Ho as [->| ->]; simpl; lia. }
  rewrite Hm'. cbn [mbind option_bind]. eexists. split; [done|].
  pose proof (zset_length _ _ _ _ Hm'). split; [repeat split; simpl; try congruence; lia|].
  split; [repeat split|].
  { intros r' Hr'. unfold get_reg. cbn [regs_map set_regs_map]. eapply zget_zset_ne; [done|].
    unfold reg_base, NUM_REGISTERS, reg_ok, new_set in *. destruct Ho as [->| ->]; simpl; lia. }
  split; [by eapply zget_zset_eq|]. intros r' Hne. eapply zget_zset_ne; [done|]. lia.
Qed.

Lemma new_set_ok o : set_ok o -> set_ok (new_set o).
Proof. intros [->| ->]; [by right|by left]. Qed.
Lemma new_set_invol o : set_ok o -> new_set (new_set o) = o.
Proof. by intros [->| ->]. Qed.

Lemma int_bit_small r : 0 <= r < 31 -> int_bit r = 2 ^ r.
Proof.
  intros Hr. unfold int_bit. change 31 with (2 ^ 5 - 1). rewrite land_mask, Z.mod_small by lia.
  rewrite Z.shiftl_mul_pow2, Z.mul_1_l by lia.
  assert (2 ^ r <= 2 ^ 30) by (apply Z.pow_le_mono_r; lia).
  assert (0 < 2 ^ r) by (apply Z.pow_pos_nonneg; lia).
  rewrite swrap_small, wrap_small by lia. done.
Qed.

Lemma testbit_set v r k : reg_ok r -> 0 <= k -> Z.testbit (v |' int_bit r) k = (k =? r) || Z.testbit v k.
Proof.
  intros Hr Hk. unfold reg_ok in Hr. rewrite int_bit_small, Z.lor_spec, Z.pow2_bits_eqb by lia.
  rewrite Z.eqb_sym. apply orb_comm.
Qed.

Lemma testbit_clear v r k : reg_ok r -> 0 <= k < 64 ->
  Z.testbit (v &' u64 (Z.lnot (s32 (1 <<' r)))) k = negb (k =? r) && Z.testbit v k.
Proof.
  intros Hr Hk. unfold reg_ok in Hr.
  rewrite Z.shiftl_mul_pow2, Z.mul_1_l by lia.
  assert (2 ^ r <= 2 ^ 30) by (apply Z.pow_le_mono_r; lia).
  assert (0 < 2 ^ r) by (apply Z.pow_pos_nonneg; lia).
  rewrite swrap_small by lia. unfold wrap. rewrite Z.land_spec, Z.mod_pow2_bits_low by lia.
  rewrite Z.lnot_spec, Z.pow2_bits_eqb by lia. rewrite Z.eqb_sym. apply andb_comm.
Qed.

Lemma valid_test v r : reg_ok r -> (v &' int_bit r =? 0) = negb (Z.testbit v r).
Proof. intros Hr. unfold reg_ok in Hr. rewrite int_bit_small by lia. apply land_bit_eqb. lia. Qed.

(** ** The register rules as a function of the old registers

    The word a rule assigns, if any, and the validity of the register after it; [None]
    when the rule cannot be applied. *)
Definition ref_rule (e : env) (regs : list Z) (vo cfa reg : Z) (rule : register_rule)
  : option (option Z * bool) :=
  let t := rtype rule in
  let data := rule_data rule in
  if (t =? REGISTER_RULE_UNINITIALIZED) || (t =? REGISTER_RULE_SAME_VALUE)
  then v ← zget regs reg; Some (Some v, Z.testbit vo reg)
  else if t =? REGISTER_RULE_UNDEFINED then Some (None, false)
  else
    v ← (if t =? REGISTER_RULE_OFFSET then bpf_probe_read_user e (u64 (cfa + s64 data))
         else if t =? REGISTER_RULE_VAL_OFFSET then Some (u64 (cfa + s64 data))
         else if t =? REGISTER_RULE_REGISTER then
           if (data <? NUM_REGISTERS) && Z.testbit vo data then zget regs data else None
         else if t =? REGISTER_RULE_EXPRESSION then
           a ← ref_eval e regs vo (u32 data); bpf_probe_read_user e a
         else if t =? REGISTER_RULE_VAL_EXPRESSION then ref_eval e regs vo (u32 data)
         else if t =? REGISTER_RULE_CONSTANT then Some data
         else None);
    Some (Some v, true).

Fixpoint ref_rules (e : env) (regs : list Z) (vo cfa reg : Z) (rs : list register_rule)
  : option (list (option Z * bool)) :=
  match rs with
  | [] => Some []
  | rule :: rs =>
    out ← ref_rule e regs vo cfa reg rule;
    outs ← ref_rules e regs vo cfa (reg + 1) rs;
    Some (out :: outs)
  end.

(** What one rule, [out], does to register [reg] between two states. *)
Definition rule_applied (reg : Z) (out : option Z * bool) (vn vn' : Z) (s s' : dwunwind_state) : Prop :=
  let n := new_set (current_reg_set s) in
  get_reg n reg s' = match out.1 with Some v => Some v | None => get_reg n reg s end /\
  Z.testbit vn' reg = out.2.

Definition others_kept (reg : Z) (len : nat) (vn vn' : Z) (s s' : dwunwind_state) : Prop :=
  let n := new_set (current_reg_set s) in
  forall r, reg_ok r -> ~ (reg <= r < reg + Z.of_nat len) ->
    get_reg n r s' = get_reg n r s /\ Z.testbit vn' r = Z.testbit vn r.

Section Rules.
Context (e : env) (vo cfa : Z).
Hypothesis He : env_wf e.

(** The invariant of the register loop. *)
Definition step_ok (s s' : dwunwind_state) : Prop :=
  state_wf s' /\ same_frame (current_reg_set s) s s'.

Lemma step_ok_refl s : state_wf s -> step_ok s s.
Proof. split; [done|apply same_frame_refl]. Qed.

Lemma step_ok_trans s1 s2 s3 : step_ok s1 s2 -> step_ok s2 s3 -> step_ok s1 s3.
Proof.
  intros [? H12] [? H23]. split; [done|]. eapply same_frame_trans; [done|].
  by rewrite <- (proj1 (proj2 (proj2 H12))).
Qed.

Lemma eval_step_ok s st n : state_wf s -> length st = 16%nat ->
  step_ok s (set_eval_error n (set_stack st s)).
Proof. intros (?&?&?&?) ?. split; [repeat split; simpl; auto|repeat split]. Qed.

(** Assigning [v] to the new register and setting its bit. *)
Lemma assign_ok s0 s reg v vn vn' b : state_wf s -> step_ok s0 s -> reg_ok reg ->
  regs_map s0 = regs_map s ->
  Z.testbit vn' reg = b -> (forall r, reg_ok r -> r <> reg -> Z.testbit vn' r = Z.testbit vn r) ->
  exists s', set_reg (new_set (current_reg_set s0)) reg v s = Some s' /\ step_ok s0 s' /\
    rule_applied reg (Some v, b) vn vn' s0 s' /\ others_kept reg 1 vn vn' s0 s'.
Proof.
  intros Hs H0 Hr Hm Hb Hbo. pose proof (proj2 (proj2 (proj2 Hs))) as Hset.
  pose proof (proj1 (proj2 (proj2 (proj2 H0)))) as Hc. rewrite Hc in Hset.
  destruct (set_reg_spec (new_set (current_reg_set s0)) reg v s) as (s' & Hset' & Hwf & Hf & Hg & Ho);
    [done|by apply new_set_ok|done|].
  exists s'. rewrite new_set_invol in Hf by done. split; [done|]. split.
  { eapply step_ok_trans; [done|]. split; [done|]. by rewrite Hc. }
  split; [done|]. intros r Hr' Hne. split; [|apply Hbo; [done|lia]].
  rewrite Ho by lia. unfold get_reg. by rewrite Hm.
Qed.

(** The two rules that do not set the bit of the register. *)
Lemma same_value_ok s reg vn : state_wf s -> reg_ok reg -> Z.testbit vn reg = Z.testbit vo reg ->
  exists v s', zget (old_regs s) reg = Some v /\
    set_reg (new_set (current_reg_set s)) reg v s = Some s' /\ step_ok s s' /\
    rule_applied reg (Some v, Z.testbit vo reg) vn vn s s' /\ others_kept reg 1 vn vn s s'.
Proof.
  intros Hs Hr Hbit.
  destruct (zget_is_Some (old_regs s) reg) as [v Hv]; [rewrite old_regs_length by done; apply Hr|].
  destruct (assign_ok s s reg v vn vn (Z.testbit vo reg)) as (s' & ?); eauto using step_ok_refl.
Qed.

Lemma undefined_ok s reg vn : state_wf s -> reg_ok reg ->
  let vn' := vn &' u64 (Z.lnot (s32 (1 <<' reg))) in
  step_ok s s /\ rule_applied reg (None, false) vn vn' s s /\ others_kept reg 1 vn vn' s s.
Proof.
  intros Hs Hr vn'. unfold reg_ok in Hr. split; [by apply step_ok_refl|]. split.
  - split; [done|]. unfold vn'. rewrite testbit_clear by (unfold reg_ok; lia). by rewrite Z.eqb_refl.
  - intros r Hr' Hne. split; [done|]. unfold reg_ok in Hr'. unfold vn'.
    rewrite testbit_clear by (unfold reg_ok; lia). by destruct (Z.eqb_spec r reg); [lia|].
Qed.

(** The rules that set it. *)
Lemma set_value_ok s0 s reg v vn : state_wf s -> step_ok s0 s -> reg_ok reg -> regs_map s0 = regs_map s ->
  let vn' := vn |' int_bit reg in
  exists s', set_reg (new_set (current_reg_set s0)) reg v s = Some s' /\ step_ok s0 s' /\
    rule_applied reg (Some v, true) vn vn' s0 s' /\ others_kept reg 1 vn vn' s0 s'.
Proof.
  intros Hs H0 Hr Hm vn'. unfold reg_ok in Hr. apply assign_ok; auto.
  - unfold vn'. rewrite testbit_set by (unfold reg_ok; lia). by rewrite Z.eqb_refl.
  - intros r Hr' Hne. unfold reg_ok in Hr'. unfold vn'. rewrite testbit_set by (unfold reg_ok; lia).
    by destruct (Z.eqb_spec r reg).
Qed.

Ltac finish_rule H v := destruct (H v) as (? & -> & ?); cbn [mbind option_bind]; eauto 6.

Lemma apply_rule_ref rule reg vn s :
  state_wf s -> reg_ok reg -> 0 <= rule_data rule -> old_valid s = Some vo ->
  Z.testbit vn reg = Z.testbit vo reg ->
  match ref_rule e (old_regs s) vo cfa reg rule with
  | Some out => exists vn' s', 
      apply_rule e rule reg (current_reg_set s) cfa vo vn s = Some (Go vn' s') /\ step_ok s s' /\
      rule_applied reg out vn vn' s s' /\ others_kept reg 1 vn vn' s s'
  | None => exists s', 
      apply_rule e rule reg (current_reg_set s) cfa vo vn s = Some (Stop (-1) s') /\ step_ok s s'
  end.
Proof.
  intros Hs Hr Hd Hv Hbit. unfold ref_rule, apply_rule.
  pose proof (step_ok_refl s Hs) as Hrefl.
  pose proof (fun v => set_value_ok s s reg v vn Hs Hrefl Hr eq_refl) as Hassign.
  destruct (_ || _).
  { destruct (same_value_ok s reg vn Hs Hr Hbit) as (v & s' & Hold & Hset & ?).
    rewrite get_reg_old, Hold by done. cbn [mbind option_bind]. rewrite Hset. cbn [mbind option_bind]. eauto. }
  destruct (_ =? REGISTER_RULE_UNDEFINED); [do 2 eexists; split; [done|by apply undefined_ok]|].
  destruct (_ =? REGISTER_RULE_OFFSET).
  { destruct (bpf_probe_read_user _ _) as [v|]; cbn [mbind option_bind]; [finish_rule Hassign v|eauto]. }
  destruct (_ =? REGISTER_RULE_VAL_OFFSET).
  { cbn [mbind option_bind]. finish_rule Hassign (u64 (cfa + s64 (rule_data rule))). }
  destruct (_ =? REGISTER_RULE_REGISTER).
  { rewrite Z.geb_leb. destruct (Z.leb_spec NUM_REGISTERS (rule_data rule)), (Z.ltb_spec (rule_data rule) NUM_REGISTERS);
      try lia; cbn [andb mbind option_bind]; [by eauto|].
    assert (reg_ok (rule_data rule)) by (unfold reg_ok, NUM_REGISTERS in *; lia).
    rewrite valid_test by done. destruct (Z.testbit vo (rule_data rule)); cbn [negb mbind option_bind]; [|by eauto].
    rewrite get_reg_old by done. unfold NUM_REGISTERS in *.
    destruct (zget_is_Some (old_regs s) (rule_data rule)) as [v ->]; [rewrite old_regs_length by done; lia|].
    cbn [mbind option_bind]. finish_rule Hassign v. }
  destruct (eval_expr_ref e (u32 (rule_data rule)) s vo Hs He Hv) as (st & Hst & Hev).
  assert (forall n, step_ok s (set_eval_error n (set_stack st s))) as Hok by (intros; by apply eval_step_ok).
  pose proof (fun v => set_value_ok s (set_eval_error 0 (set_stack st s)) reg v vn
                (proj1 (Hok 0)) (Hok 0) Hr eq_refl) as Hassign'.
  destruct (_ =? REGISTER_RULE_EXPRESSION).
  { rewrite Hev. destruct (ref_eval _ _ _ _) as [a|]; cbn [mbind option_bind eval_error set_eval_error Z.eqb negb]; [|eauto].
    destruct (bpf_probe_read_user e a) as [v|]; cbn [mbind option_bind]; [finish_rule Hassign' v|eauto]. }
  destruct (_ =? REGISTER_RULE_VAL_EXPRESSION).
  { rewrite Hev. destruct (ref_eval _ _ _ _) as [v|]; cbn [mbind option_bind eval_error set_eval_error Z.eqb negb];
      [finish_rule Hassign' v|eauto]. }
  destruct (_ =? REGISTER_RULE_CONSTANT); cbn [mbind option_bind]; [|by eauto].
  finish_rule Hassign (rule_data rule).
Qed.

Lemma step_ok_old s s' : state_wf s -> step_ok s s' ->
  old_regs s' = old_regs s /\ old_valid s' = old_valid s /\ current_reg_set s' = current_reg_set s.
Proof.
  intros Hs [Hs' Hf]. split; [by apply same_frame_regs|]. destruct Hf as (_ & _ & Hc & Hv & _).
  unfold old_valid. by rewrite Hc, Hv.
Qed.

Lemma ref_rules_length regs reg rs outs : ref_rules e regs vo cfa reg rs = Some outs -> length outs = length rs.
Proof.
  revert reg outs. induction rs as [|r rs IH]; intros reg outs H; [by simplify_eq/=|].
  cbn [ref_rules] in H. obind_inv H. simplify_eq/=. f_equal. eauto.
Qed.

(** The whole register loop: rules are applied to the old registers, in any order. *)
Lemma apply_rules_ref rs reg vn s :
  state_wf s -> 0 <= reg -> reg + Z.of_nat (length rs) <= 17 -> Forall (fun r => 0 <= rule_data r) rs ->
  old_valid s = Some vo -> (forall r, reg_ok r -> reg <= r -> Z.testbit vn r = Z.testbit vo r) ->
  match ref_rules e (old_regs s) vo cfa reg rs with
  | Some outs => exists vn' s', 
      apply_rules e rs reg (current_reg_set s) cfa vo vn s = Some (Go vn' s') /\ step_ok s s' /\
      (forall i out, outs !! i = Some out -> rule_applied (reg + Z.of_nat i) out vn vn' s s') /\
      others_kept reg (length rs) vn vn' s s'
  | None => exists s', 
      apply_rules e rs reg (current_reg_set s) cfa vo vn s = Some (Stop (-1) s') /\ step_ok s s'
  end.
Proof.
  revert reg vn s. induction rs as [|rule rs IH]; intros reg vn s Hs Hr Hlen Hd Hv Hbit.
  { simpl. do 2 eexists. split; [done|]. split; [by apply step_ok_refl|]. split; [done|]. by intros. }
  cbn [length] in Hlen. apply Forall_cons in Hd as [Hd0 Hd]. cbn [ref_rules apply_rules].
  assert (reg_ok reg) as Hrok by (unfold reg_ok; lia).
  pose proof (apply_rule_ref rule reg vn s Hs Hrok Hd0 Hv (Hbit _ Hrok ltac:(lia))) as H1.
  destruct (ref_rule _ _ _ _ _ _) as [out|]; cbn [mbind option_bind].
  2: { destruct H1 as (s' & -> & ?). cbn [mbind option_bind]. eauto. }
  destruct H1 as (vn1 & s1 & -> & Hok1 & Happ & Hkept). cbn [mbind option_bind].
  destruct (step_ok_old _ _ Hs Hok1) as (Hregs & Hval & Hcur).
  specialize (IH (reg + 1) vn1 s1 (proj1 Hok1) ltac:(lia) ltac:(lia) Hd). rewrite Hval, Hregs, Hcur in IH.
  specialize (IH Hv). destruct (ref_rules _ _ _ _ _ _) as [outs|] eqn:Houts; cbn [mbind option_bind].
  2: { destruct IH as (s' & -> & ?); [|eauto using step_ok_trans].
       intros r Hr' Hle. rewrite <- Hbit by (try done; lia). apply Hkept; [done|lia]. }
  destruct IH as (vn' & s' & -> & Hok2 & Happ2 & Hkept2).
  { intros r Hr' Hle. rewrite <- Hbit by (try done; lia). apply Hkept; [done|lia]. }
  exists vn', s'. split; [done|]. split; [by eapply step_ok_trans|].
  unfold rule_applied, others_kept in *. rewrite Hcur in Happ2, Hkept2. split.
  - intros [|i] out' Hi; simplify_eq/=.
    + rewrite Z.add_0_r. destruct (Hkept2 reg Hrok ltac:(lia)) as [-> ->]. done.
    + specialize (Happ2 i out' Hi). replace (reg + Z.of_nat (S i)) with (reg + 1 + Z.of_nat i) by lia.
      apply lookup_lt_Some in Hi as Hlt.
      destruct Happ2 as [Hg Hb]. split; [|done]. rewrite Hg. destruct out'.1; [done|].
      pose proof (ref_rules_length _ _ _ _ Houts) as Hle.
      apply Hkept; [unfold reg_ok; lia|lia].
  - cbn [length]. intros r Hr' Hne. destruct (Hkept2 r Hr') as [-> ->]; [lia|]. apply Hkept; [done|lia].
Qed.
End Rules.

(** ** A whole step *)
Definition ref_cfa (e : env) (regs : list Z) (vo : Z) (c : cfa_rule) : option Z :=
  if cfa_rtype c =? CFA_RULE_EXPRESSION then ref_eval e regs vo (cfa_word c)
  else if cfa_rtype c =? CFA_RULE_REG_OFFSET then
    if (cfa_word c <? NUM_REGISTERS) && Z.testbit vo (cfa_word c)
    then v ← zget regs (cfa_word c); Some (u64 (v + s64 (cfa_offset c))) else None
  else None.

(** The return address once return probes are seen through. *)
Definition next_rip (e : env) (xol rip rsp : Z) : Z :=
  if (xol <=? rip) && (rip <? u64 (xol + XOL_PAGE_SIZE)) then
    let rec := recover_uretprobe_addr e rsp in if rec =? 0 then rip else rec
  else rip.

Lemma find_mapping_loop_total steps m ip left right :
  0 <= left -> left <= right <= MAX_MAPPINGS ->
  exists l, find_mapping_loop steps m ip left right = Some l /\ 0 <= l <= MAX_MAPPINGS.
Proof.
  unfold MAX_MAPPINGS.
  revert left right. induction steps as [|k IH]; intros left right Hl Hr; cbn [find_mapping_loop].
  { eauto with lia. }
  rewrite !opaquify_id. destruct (Z.ltb_spec left right); [|eauto with lia].
  pose proof (Z.div_mod (left + right) 2 ltac:(lia)). pose proof (Z.mod_pos_bound (left + right) 2 ltac:(lia)).
  unfold MAX_MAPPINGS. rewrite Z.geb_leb. bcase; [eauto with lia|].
  unfold entry_at. destruct (Z.leb_spec 0 ((left + right) / 2)); [|lia].
  unfold MAX_MAPPINGS. destruct (Z.ltb_spec ((left + right) / 2) 1000); [|lia].
  cbn [andb mbind option_bind]. bcase; apply IH; lia.
Qed.

Lemma entry_at_wf m i me : Forall (fun me => 0 <= start_in_map me) (entries m) ->
  entry_at m i = Some me -> 0 <= start_in_map me.
Proof.
  intros Hw. unfold entry_at. destruct (_ && _); [|done]. intros [= <-].
  destruct (entries m !! Z.to_nat i) eqn:E; simpl; [|lia]. rewrite Forall_lookup in Hw. eauto.
Qed.

Lemma find_mapping_total m ip : Forall (fun me => 0 <= start_in_map me) (entries m) ->
  exists r, find_mapping m ip = Some r /\ forall me, r = Some me -> 0 <= start_in_map me.
Proof.
  intros Hw. unfold find_mapping. cbv zeta.
  assert (0 <= (if u32 (nentries m) >? MAX_MAPPINGS then MAX_MAPPINGS else u32 (nentries m)) <= MAX_MAPPINGS) as Hn.
  { pose proof (wrap_range 32 (nentries m) ltac:(lia)). unfold MAX_MAPPINGS in *. rewrite Z.gtb_ltb. bcase; lia. }
  revert Hn. generalize (if u32 (nentries m) >? MAX_MAPPINGS then MAX_MAPPINGS else u32 (nentries m)). intros n Hn.
  destruct (find_mapping_loop_total MAX_MAPPINGS_BISECT_STEPS m ip 0 n ltac:(lia) ltac:(lia)) as (l & -> & Hl).
  cbn [mbind option_bind]. destruct (Z.eqb_spec l 0); [by eexists; split; [|intros ? [=]]|].
  rewrite opaquify_id, Z.geb_leb. bcase; [by eexists; split; [|intros ? [=]]|].
  destruct (entry_at m (l - 1)) as [me|] eqn:E.
  - cbn [mbind option_bind]. eexists. split; [done|]. intros me' [= <-]. by eapply entry_at_wf.
  - unfold entry_at in E. destruct (Z.leb_spec 0 (l - 1)), (Z.ltb_spec (l - 1) MAX_MAPPINGS); try lia. done.
Qed.

Lemma find_row_total e s : state_wf s -> env_wf e ->
  exists row, find_row e s = Some row /\ forall cf, row = Some cf -> exists id, dwunwind_cfts e id = Some cf.
Proof.
  intros Hs He. unfold find_row. destruct (dwunwind_mappings e (tgid s)) as [m|] eqn:Em; [|by eexists; split; [|intros ? [=]]].
  destruct (get_reg_in (current_reg_set s) RIP s) as [rip ->]; [done|apply Hs|unfold reg_ok, RIP; lia|].
  cbn [mbind option_bind]. destruct (find_mapping_total m rip) as (r & -> & Hr); [by eapply wf_mappings|].
  cbn [mbind option_bind]. destruct r as [me|]; [|by eexists; split; [|intros ? [=]]].
  destruct (find_cft_total (dwunwind_offsetmaps e) (offsetmap_id me) (start_in_map me)
              (u64 (rip - vma_start me + me_offset me))) as [id ->]; [apply He|by apply Hr|].
  cbn [mbind option_bind]. bcase; [by eexists; split; [|intros ? [=]]|]. bcase; [by eexists; split; [|intros ? [=]]|]. eauto.
Qed.

Section Step.
Context (e : env).
Hypothesis He : env_wf e.

Lemma compute_cfa_ref c vo s : state_wf s -> 0 <= cfa_word c -> old_valid s = Some vo ->
  match ref_cfa e (old_regs s) vo c with
  | Some v => exists s', compute_cfa e c (current_reg_set s) vo s = Some (Go v s') /\
                step_ok s s' /\ regs_map s' = regs_map s
  | None => exists ret s', compute_cfa e c (current_reg_set s) vo s = Some (Stop ret s') /\
                ret = (if cfa_rtype c =? CFA_RULE_UNINITIALIZED then 1 else -1) /\ step_ok s s'
  end.
Proof.
  intros Hs Hw Hv. unfold ref_cfa, compute_cfa. pose proof (step_ok_refl s Hs) as Hrefl.
  destruct (Z.eqb_spec (cfa_rtype c) CFA_RULE_UNINITIALIZED) as [->|_]; [do 2 eexists; by eauto 10|].
  destruct (_ =? CFA_RULE_EXPRESSION).
  { destruct (eval_expr_ref e (cfa_word c) s vo Hs He Hv) as (st & Hst & ->).
    pose proof (fun n => eval_step_ok s st n Hs Hst).
    destruct (ref_eval _ _ _ _); cbn [mbind option_bind eval_error set_eval_error Z.eqb negb]; [by eauto|].
    do 2 eexists; eauto 10. }
  destruct (_ =? CFA_RULE_REG_OFFSET).
  2: do 2 eexists; eauto 10.
  rewrite Z.geb_leb. destruct (Z.leb_spec NUM_REGISTERS (cfa_word c)), (Z.ltb_spec (cfa_word c) NUM_REGISTERS);
    try lia; cbn [andb].
  { destruct (_ =? 0); do 2 eexists; eauto 10. }
  assert (reg_ok (cfa_word c)) by (unfold reg_ok, NUM_REGISTERS in *; lia).
  rewrite valid_test by done. destruct (Z.testbit vo (cfa_word c)); cbn [negb]; [|do 2 eexists; eauto 10].
  rewrite get_reg_old by done. unfold NUM_REGISTERS in *.
  destruct (zget_is_Some (old_regs s) (cfa_word c)) as [v ->]; [rewrite old_regs_length by done; lia|].
  cbn [mbind option_bind]. by eauto.
Qed.

(** Storing the CFA in both stack pointers. *)
Lemma set_sp_ok s cfa : state_wf s ->
  exists s1 s2, set_reg (current_reg_set s) RSP cfa s = Some s1 /\
    set_reg (new_set (current_reg_set s)) RSP cfa s1 = Some s2 /\ state_wf s2 /\
    tgid s2 = tgid s /\ xol_base s2 = xol_base s /\ current_reg_set s2 = current_reg_set s /\
    regs_valid s2 = regs_valid s /\ steps s2 = steps s /\
    forall o r, set_ok o -> reg_ok r -> get_reg o r s2 = if r =? RSP then Some cfa else get_reg o r s.
Proof.
  intros Hs. assert (set_ok (current_reg_set s)) as Hset by apply Hs.
  assert (reg_ok RSP) as Hsp by (unfold reg_ok, RSP; lia).
  destruct (set_reg_spec (current_reg_set s) RSP cfa s) as (s1 & E1 & Hw1 & F1 & G1 & O1); try done.
  destruct (set_reg_spec (new_set (current_reg_set s)) RSP cfa s1) as (s2 & E2 & Hw2 & F2 & G2 & O2);
    try done; [by apply new_set_ok|]. rewrite new_set_invol in F2 by done.
  exists s1, s2. do 3 (split; [done|]).
  destruct F1 as (?&?&?&?&?&?&F1), F2 as (?&?&?&?&?&?&F2).
  do 5 (split; [congruence|]). intros o r Ho Hr.
  assert (o = current_reg_set s \/ o = new_set (current_reg_set s)) as [-> | ->]
    by (destruct Ho, Hset as [E|E]; rewrite E; auto).
  - rewrite F2 by done. destruct (Z.eqb_spec r RSP) as [->|]; auto.
  - destruct (Z.eqb_spec r RSP) as [->|]; [done|]. rewrite O2 by done. auto.
Qed.

Lemma old_regs_set_sp s s2 cfa : state_wf s -> state_wf s2 -> current_reg_set s2 = current_reg_set s ->
  (forall o r, set_ok o -> reg_ok r -> get_reg o r s2 = if r =? RSP then Some cfa else get_reg o r s) ->
  old_regs s2 = <[7%nat := cfa]> (old_regs s).
Proof.
  intros Hs Hs2 Hc Hg. apply list_eq_same_length with 17%nat;
    [by rewrite ?length_insert, old_regs_length..|]. intros i x y Hi Hx Hy.
  assert (reg_ok (Z.of_nat i)) as Hr by (unfold reg_ok; lia).
  specialize (Hg (current_reg_set s) (Z.of_nat i) (proj2 (proj2 (proj2 Hs))) Hr).
  rewrite <- Hc in Hg at 1. rewrite !get_reg_old in Hg by done. unfold zget in Hg.
  rewrite !decide_True, Nat2Z.id, Hx in Hg by lia. unfold RSP in Hg.
  destruct (Z.eqb_spec (Z.of_nat i) 7).
  - assert (i = 7%nat) as -> by lia.
    rewrite list_lookup_insert_eq in Hy by (rewrite old_regs_length by done; lia). congruence.
  - rewrite list_lookup_insert_ne in Hy by lia. congruence.
Qed.

Lemma finish_step_spec s vn : state_wf s ->
  let n := new_set (current_reg_set s) in
  exists rip rsp s', get_reg n RIP s = Some rip /\ get_reg n RSP s = Some rsp /\
    let rip' := u64 (next_rip e (xol_base s) rip rsp - 1) in
    finish_step e (current_reg_set s) vn s = Some (if Z.testbit vn RIP && negb (rip' =? 0) then 0 else 1, s') /\
    state_wf s' /\ current_reg_set s' = n /\ old_valid s' = Some vn /\ steps s' = s32 (steps s + 1) /\
    get_reg n RIP s' = Some rip' /\ forall r, r <> RIP -> get_reg n r s' = get_reg n r s.
Proof.
  intros Hs n. assert (set_ok n) as Hn by (apply new_set_ok, Hs).
  assert (reg_ok RIP) as Hip by (unfold reg_ok, RIP; lia).
  destruct (get_reg_in n RIP s) as [rip Erip]; [done..|].
  destruct (get_reg_in n RSP s) as [rsp Ersp]; [done|done|unfold reg_ok, RSP; lia|].
  exists rip, rsp. unfold finish_step. fold n. rewrite Erip, Ersp. cbn [mbind option_bind].
  assert (exists s1, (if (rip >=? xol_base s) && (rip <? u64 (xol_base s + XOL_PAGE_SIZE))
     then (if negb (recover_uretprobe_addr e rsp =? 0) then set_reg n RIP (recover_uretprobe_addr e rsp) s else Some s) else Some s) = Some s1 /\
     state_wf s1 /\ regs_valid s1 = regs_valid s /\ steps s1 = steps s /\ get_reg n RIP s1 = Some (next_rip e (xol_base s) rip rsp) /\
     forall r, r <> RIP -> get_reg n r s1 = get_reg n r s) as (s1 & -> & Hw1 & Hv1 & Hst1 & Hg1 & Ho1).
  { unfold next_rip. rewrite Z.geb_leb. destruct (_ && _); [|by eauto 8].
    cbv zeta. destruct (_ =? 0); cbn [negb]; [by eauto 8|].
    destruct (set_reg_spec n RIP (recover_uretprobe_addr e rsp) s) as (s1 & -> & ? & F & ? & ?); [done..|].
    destruct F as (?&?&?&?&?&?&?). eauto 8. }
  cbn [mbind option_bind]. rewrite Hg1. cbn [mbind option_bind].
  destruct (set_reg_spec n RIP (u64 (next_rip e (xol_base s) rip rsp - 1)) s1)
    as (s2 & -> & Hw2 & (?&?&?&Hv2&?&?&_) & Hg2 & Ho2); [done..|]. cbn [mbind option_bind].
  destruct (zset_is_Some (regs_valid s2) (if n =? 0 then 0 else 1) vn) as [val Hval].
  { pose proof (proj1 (proj2 Hw2)). destruct (_ =? 0); lia. }
  rewrite Hval. cbn [mbind option_bind]. rewrite valid_test by done.
  pose proof (zset_length _ _ _ _ Hval). pose proof Hw2 as (?&?&?&?).
  eexists. do 2 (split; [done|]). cbv zeta. split.
  { by destruct (Z.testbit vn RIP), (u64 (next_rip e (xol_base s) rip rsp - 1) =? 0). }
  split; [repeat split; simpl; try congruence; done|]. split; [done|].
  split; [by eapply zget_zset_eq|]. split; [simpl; congruence|]. split; [done|].
  intros r Hne. unfold get_reg in *. cbn [regs_map]. rewrite Ho2, Ho1 by done. done.
Qed.
End Step.

Section WholeStep.
Context (e : env).
Hypothesis He : env_wf e.

(** The step up to the register loop, once the row and the CFA are known. *)
Lemma rules_step s cf c vo cfa s0 :
  state_wf s -> state_wf s0 -> step_ok s s0 -> regs_map s0 = regs_map s -> old_valid s = Some vo ->
  dwunwind_cfts e c = Some cf ->
  exists s1 s2, set_reg (current_reg_set s) RSP cfa s0 = Some s1 /\
    set_reg (new_set (current_reg_set s)) RSP cfa s1 = Some s2 /\ xol_base s2 = xol_base s /\
    let s2 := set_cfa cfa s2 in
    let n := new_set (current_reg_set s) in
    state_wf s2 /\ current_reg_set s2 = current_reg_set s /\ steps s2 = steps s /\
    (forall r, reg_ok r -> get_reg n r s2 = if r =? RSP then Some cfa else get_reg n r s) /\
    match ref_rules e (<[7%nat := cfa]> (old_regs s)) vo cfa 0 (rules cf) with
    | Some outs => exists vn s3,
        apply_rules e (rules cf) 0 (current_reg_set s) cfa vo vo s2 = Some (Go vn s3) /\ step_ok s2 s3 /\
        forall i out, outs !! i = Some out -> rule_applied (Z.of_nat i) out vo vn s2 s3
    | None => exists s3,
        apply_rules e (rules cf) 0 (current_reg_set s) cfa vo vo s2 = Some (Stop (-1) s3) /\ step_ok s2 s3
    end.
Proof.
  intros Hs Hs0 H0 Hm Hv Hcf. destruct (step_ok_old s s0 Hs H0) as (Hregs & Hval & Hcur).
  destruct (set_sp_ok s0 cfa Hs0) as (s1 & s2 & E1 & E2 & Hw2 & Ht & Hx & Hc & Hv2 & Hst & Hg).
  destruct H0 as [_ (?&Hx0&_&Hv0&?&?&_)]. rewrite Hcur in *.
  exists s1, s2. do 2 (split; [done|]). split; [congruence|]. cbv zeta.
  assert (state_wf (set_cfa cfa s2)) as Hw3 by exact Hw2.
  split; [done|]. split; [simpl; congruence|]. split; [simpl; congruence|]. split.
  { intros r Hr. assert (set_ok (new_set (current_reg_set s))) as Hn by (apply new_set_ok, Hs).
    specialize (Hg _ r Hn Hr). unfold get_reg in *. cbn [regs_map set_cfa]. by rewrite Hg, Hm. }
  destruct (wf_cfts e He c cf Hcf) as (Hlen & _ & Hd).
  pose proof (apply_rules_ref e vo cfa He (rules cf) 0 vo (set_cfa cfa s2) Hw3 ltac:(lia) ltac:(lia) Hd) as Hap.
  assert (current_reg_set (set_cfa cfa s2) = current_reg_set s) as Hc3 by (simpl; congruence).
  assert (old_valid (set_cfa cfa s2) = Some vo) as Hv3.
  { rewrite <- Hv. unfold old_valid. rewrite Hc3. cbn [regs_valid set_cfa]. by rewrite Hv2, Hv0. }
  assert (old_regs (set_cfa cfa s2) = <[7%nat := cfa]> (old_regs s)) as Hr3.
  { rewrite <- Hregs. apply old_regs_set_sp; auto; simpl; congruence. }
  specialize (Hap Hv3 ltac:(done)). rewrite Hr3, Hc3 in Hap.
  destruct (ref_rules _ _ _ _ _ _); [|done].
  destruct Hap as (vn & s3 & ? & ? & Happ & _). exists vn, s3. eauto.
Qed.

(** What a step must do, given the row of the current address ([None] if there is none): every way to fail, with its
    code and the old register set still current, and the registers a completed step leaves. *)
Definition step_result (s : dwunwind_state) (vo : Z) (row : option cft) (ret : Z) (s' : dwunwind_state) : Prop :=
  let n := new_set (current_reg_set s) in
  let stopped r := ret = r /\ current_reg_set s' = current_reg_set s /\ steps s' = steps s in
  match row with
  | None => ret = -1 /\ s' = s
  | Some cf =>
    match ref_cfa e (old_regs s) vo (cft_cfa cf) with
    | None => stopped (if cfa_rtype (cft_cfa cf) =? CFA_RULE_UNINITIALIZED then 1 else -1)
    | Some cfa =>
      match ref_rules e (<[7%nat := cfa]> (old_regs s)) vo cfa 0 (rules cf) with
      | None => stopped (-1)
      | Some outs =>
        let kept r := if r =? RSP then Some cfa else get_reg n r s in
        exists vn rip rsp, current_reg_set s' = n /\ old_valid s' = Some vn /\
          (forall r w b, outs !! r = Some (w, b) -> Z.testbit vn (Z.of_nat r) = b /\
             (Z.of_nat r <> RIP -> get_reg n (Z.of_nat r) s' = match w with Some v => Some v | None => kept (Z.of_nat r) end)) /\
          (forall w b, outs !! 16%nat = Some (w, b) -> Some rip = match w with Some v => Some v | None => kept RIP end) /\
          get_reg n RSP s' = Some rsp /\
          let rip' := u64 (next_rip e (xol_base s) rip rsp - 1) in
          get_reg n RIP s' = Some rip' /\ ret = if Z.testbit vn RIP && negb (rip' =? 0) then 0 else 1
      end
    end
  end.

Lemma unwind_step_ref s vo row : state_wf s -> old_valid s = Some vo -> find_row e s = Some row ->
  exists ret s', unwind_step e s = Some (ret, s') /\ state_wf s' /\ step_result s vo row ret s'.
Proof.
  intros Hs Hvo Hrow. unfold unwind_step, step_result. rewrite Hrow. cbn [mbind option_bind]. cbv zeta.
  destruct (find_row_total e s Hs He) as (row' & Hrow' & Hid). rewrite Hrow in Hrow'. simplify_eq.
  destruct row' as [cf|]; [|by do 2 eexists]. destruct (Hid cf eq_refl) as [id Hcf]. rewrite Hvo. cbn [mbind option_bind].
  pose proof (compute_cfa_ref e He (cft_cfa cf) vo s Hs (proj1 (proj2 (wf_cfts e He _ _ Hcf))) Hvo) as Hcfa.
  destruct (ref_cfa _ _ _ _) as [cfa|].
  2: { destruct Hcfa as (ret & s' & -> & -> & Hok). cbn [mbind option_bind]. do 2 eexists. split; [done|]. split; [apply Hok|].
       split; [done|]. split; apply Hok. }
  destruct Hcfa as (s0 & -> & Hok0 & Hm). cbn [mbind option_bind].
  destruct (rules_step s cf id vo cfa s0) as (s1 & s2 & -> & E2 & Hx & Hw2 & Hc & Hst & Hk & Hrules);
    [done|apply Hok0|done..|].
  cbn [mbind option_bind]. rewrite E2. cbn [mbind option_bind].
  destruct (ref_rules _ _ _ _ _ _) as [outs|] eqn:Hrefrules.
  2: { destruct Hrules as (s3 & -> & Hok3). cbn [mbind option_bind]. destruct (step_ok_old _ _ Hw2 Hok3) as (_ & _ & Hc3).
       do 2 eexists. split; [done|]. split; [apply Hok3|]. split; [done|]. split; [congruence|]. rewrite <- Hst. apply Hok3. }
  destruct Hrules as (vn & s3 & -> & Hok3 & Happ). cbn [mbind option_bind].
  destruct (step_ok_old _ _ Hw2 Hok3) as (_ & _ & Hc3). rewrite <- Hc, <- Hc3.
  destruct (finish_step_spec e s3 vn) as (rip & rsp & s' & Hrip & Hrsp & Hfin & ? & Hcur & Hval & _ & Hip & Hother); [apply Hok3|].
  assert (xol_base s3 = xol_base s) as Hxol by (rewrite <- Hx; apply Hok3).
  unfold rule_applied in Happ. rewrite Hc3, Hc in *. set (n := new_set (current_reg_set s)) in *.
  rewrite Hxol in *. pose proof (ref_rules_length _ _ _ _ _ _ _ Hrefrules) as Hlen.
  rewrite (proj1 (wf_cfts e He _ _ Hcf)) in Hlen.
  assert (forall r w, outs !! r = Some w -> match w.1 with Some v => Some v | None => get_reg n (Z.of_nat r) (set_cfa cfa s2) end
    = match w.1 with Some v => Some v | None => if Z.of_nat r =? RSP then Some cfa else get_reg n (Z.of_nat r) s end) as Hkept.
  { intros r w Hr%lookup_lt_Some. destruct w.1; [done|]. rewrite Hk; [done|unfold reg_ok; lia]. }
  do 2 eexists. split; [done|]. split; [done|]. exists vn, rip, rsp. do 2 (split; [done|]). split; [|split].
  - intros r w b Hr. destruct (Happ r (w, b) Hr) as [Hg Hb]. split; [done|]. intros Hne.
    rewrite Hother, Hg by done. exact (Hkept r (w, b) Hr).
  - intros w b Hr. rewrite <- Hrip. destruct (Happ 16%nat (w, b) Hr) as [Hg _].
    change RIP with (Z.of_nat 16). rewrite Hg. exact (Hkept 16%nat (w, b) Hr).
  - split; [|split; [done|reflexivity]]. rewrite Hother; [done|unfold RSP, RIP; lia].
Qed.

Lemma unwind_step_total s : state_wf s ->
  exists ret s', unwind_step e s = Some (ret, s') /\ state_wf s' /\ -1 <= ret <= 1.
Proof.
  intros Hs. destruct (find_row_total e s Hs He) as (row & Hrow & _). destruct (old_valid_in s Hs) as [vo Hvo].
  destruct (unwind_step_ref s vo row Hs Hvo Hrow) as (ret & s' & Hstep & Hs' & Hr). exists ret, s'. split; [done|]. split; [done|].
  unfold step_result in Hr. cbv zeta in Hr. destruct row as [cf|]; [|lia]. destruct (ref_cfa _ _ _ _); [|destruct (_ =? _); lia].
  destruct (ref_rules _ _ _ _ _ _); [|lia]. destruct Hr as (vn & rip & rsp & _ & _ & _ & _ & _ & _ & ->). destruct (_ && _); lia.
Qed.

Lemma walk_loop_total k i nframes top out s : state_wf s ->
  exists ws s', walk_loop k e i nframes top out s = Some (out ++ ws, s') /\ state_wf s' /\
    (length ws <= k)%nat /\ Z.of_nat (length ws) <= Z.max 0 (nframes - i).
Proof.
  revert i out s. induction k as [|k IH]; intros i out s Hs; cbn [walk_loop].
  { exists [], s. rewrite app_nil_r. split; [done|]. split; [done|]. simpl; lia. }
  destruct (Z.ltb_spec i nframes).
  2: { exists [], s. rewrite app_nil_r. split; [done|]. split; [done|]. simpl; lia. }
  destruct (unwind_step_total s Hs) as (ret & s1 & -> & Hs1 & _). cbn [mbind option_bind].

  bcase; [exists [], s1; rewrite app_nil_r; split; [done|]; split; [done|]; simpl; lia|].
  bcase; [exists [u64 (-1)], s1; split; [done|]; split; [done|]; simpl; lia|].
  destruct (get_reg_in (current_reg_set s1) RSP s1) as [rsp ->]; [done|apply Hs1|unfold reg_ok, RSP; lia|].
  cbn [mbind option_bind]. bcase; [exists [], s1; rewrite app_nil_r; split; [done|]; split; [done|]; simpl; lia|].
  destruct (get_reg_in (current_reg_set s1) RIP s1) as [rip ->]; [done|apply Hs1|unfold reg_ok, RIP; lia|].
  cbn [mbind option_bind]. destruct (IH (i + 1) (out ++ [rip]) s1 Hs1) as (ws & s' & -> & ? & ? & ?).
  exists (rip :: ws), s'. rewrite <- app_assoc. split; [done|]. split; [done|]. simpl length. lia.
Qed.
End WholeStep.

(** ** Properties *)

(** C21. The expression evaluator refines a list-stack machine: with a well-formed scratch
    state it never leaves the instruction or stack arrays, returns with the error flag
    clear exactly when the reference evaluation has a value, then with that value, and
    modifies nothing but the scratch stack and the flag. *)
Theorem eval_expr_refines e id s v : state_wf s -> env_wf e -> old_valid s = Some v ->
  exists st, length st = 16%nat /\
    eval_expr e id s = match ref_eval e (old_regs s) v id with
                       | Some r => Some (set_eval_error 0 (set_stack st s), r)
                       | None => Some (set_eval_error 1 (set_stack st s), 0)
                       end.
Proof. apply eval_expr_ref. Qed.

(** C2. A step returns for every well-formed state, and its result is that of the row of the current address
    ([step_result]).  Without a row it returns -1 and changes nothing.  It stops with 1 if the row has no CFA rule, and
    with -1 if the CFA rule or one of the register rules cannot be applied: the source register of a rule is out of
    range or not valid, user memory cannot be read, an expression fails, the kind is unknown; the old registers then stay
    current.  Otherwise it computes the caller's registers from the callee's: the CFA from the CFA rule, each
    register from its rule applied to the old registers with RSP set to the CFA (so no rule sees another rule's
    result), the validity bits likewise, and the return address with return probes undone, less one; it returns 0
    exactly when that address is valid and not zero, and 1 if not. *)
Theorem unwind_step_registers e s vo row : env_wf e -> state_wf s -> old_valid s = Some vo -> find_row e s = Some row ->
  exists ret s', unwind_step e s = Some (ret, s') /\ state_wf s' /\ step_result e s vo row ret s'.
Proof. intros He. by apply unwind_step_ref. Qed.

(** C22. A stack walk is memory safe and bounded for every scratch state, map content and
    user memory: it always returns, the words it stores fit in the buffer, there are at
    most 512 of them, the result is their size in bytes as soon as one is stored, and the
    scratch state stays well formed. *)
Theorem ustack_dwunwind_safe e bs tg s : env_wf e -> state_wf s -> 0 <= bs < 2 ^ 32 ->
  exists ret out s', ustack_dwunwind e bs tg (Some s) = Some (ret, out, Some s') /\ state_wf s' /\
    8 * Z.of_nat (length out) <= bs /\ (length out <= 512)%nat /\
    (out <> [] -> ret = 8 * Z.of_nat (length out)) /\
    (dwunwind_mappings e tg = None -> ret = -2 /\ out = []) /\
    (forall m top xol r, dwunwind_mappings e tg = Some m -> current_task e = Some (Some (top, xol)) ->
       task_pt_regs e = Some r -> 8 <= bs -> head out = Some (ip r)).
Proof.
  intros He Hs Hbs. unfold ustack_dwunwind.
  destruct (dwunwind_mappings e tg) as [m|]; [|exists (-2), [], s; split_and!; simpl; auto; try done; lia].
  destruct (current_task e) as [[[top xol]|]|];
    [|exists 0, [], s; split_and!; simpl; auto; try done; lia..].
  destruct (task_pt_regs e) as [pr|]; [|exists 0, [], s; split_and!; simpl; auto; try done; lia].
  destruct (zset_is_Some (regs_valid s) 0 0x1ffff) as [val Hval]; [rewrite (proj1 (proj2 Hs)); lia|].
  rewrite Hval. cbn [mbind option_bind].
  set (s1 := State _ _ _ _ _ _ _ _ _). assert (state_wf s1) as Hs1.
  { pose proof (zset_length _ _ _ _ Hval). destruct Hs as (Hm & ? & ? & ?). repeat split; simpl; try congruence; auto.
    unfold NUM_REGISTERS. rewrite length_drop, Hm. done. }
  destruct (Z.ltb_spec bs 8).
  { exists 0, [], s1. split_and!; simpl; auto; try done; lia. }
  assert (get_reg 0 RIP s1 = Some (ip pr)) as -> by reflexivity. cbn [mbind option_bind].
  destruct (walk_loop_total e He (Z.to_nat (MAX_STACK_FRAMES - 1)) 1 (bs / 8) top [ip pr] s1 Hs1)
    as (ws & s' & -> & Hs' & Hk & Hn). unfold MAX_STACK_FRAMES in Hk. 
  cbn [mbind option_bind app]. pose proof (Z.mul_div_le bs 8 ltac:(lia)).
  assert (1 <= bs / 8) by (apply Z.div_le_lower_bound; lia).
  do 3 eexists. split; [done|]. split_and!; auto; try done; cbn [length]; try lia.
  by intros ? ? ? r _ _ [= ->] _.
Qed.

(** A zero return address does not end the walk: it is decremented before the test for
    zero, so the step reports success with the instruction pointer at 2^64 - 1. *)
Theorem zero_return_address_missed e s : state_wf s ->
  get_reg (new_set (current_reg_set s)) RIP s = Some 0 -> 0 < xol_base s ->
  exists s', finish_step e (current_reg_set s) 0x1ffff s = Some (0, s') /\
    get_reg (current_reg_set s') RIP s' = Some (2 ^ 64 - 1).
Proof.
  intros Hs H0 Hx. destruct (finish_step_spec e s 0x1ffff Hs)
    as (rip & rsp & s' & Hrip & _ & Hf & _ & Hc & _ & _ & Hg & _).
  rewrite H0 in Hrip. injection Hrip as <-. unfold next_rip in *.
  destruct (Z.leb_spec (xol_base s) 0); [lia|]. exists s'. rewrite Hc. by split.
Qed.

(** ** Witnesses *)
Definition demo_cft : cft :=
  Cft 0 (CfaRule CFA_RULE_REG_OFFSET 7 16)
    (replicate 6 (RegRule REGISTER_RULE_UNINITIALIZED 0) ++
     [RegRule REGISTER_RULE_OFFSET (2 ^ 64 - 16)] ++
     replicate 9 (RegRule REGISTER_RULE_SAME_VALUE 0) ++ [RegRule REGISTER_RULE_OFFSET (2 ^ 64 - 8)]).

Definition demo_env : env :=
  Env (fun _ => Some (Mapping 1 [MapEntry 0x1000 0 0 0]))
      (fun _ => Some demo_table)
      (fun id => if id =? 3 then Some demo_cft else None)
      (fun _ => Some (Expression 2 [EXPR_OP_BREG; 7; 8; 0; 0; 0; 0; 0; 0; 0; EXPR_OP_DEREF]))
      (fun a => if a <? 0x8000 then Some (if a mod 16 =? 8 then 0x1201 else a + 16) else None)
      [] (Some (Some (0x9000, 0x7000))) (Some (PtRegs 0 0 0 0 0 0 0x7f10 0x7f00 0 0 0 0 0 0 0 0 0x1200)).

Definition demo_state : dwunwind_state :=
  State 1 0x7000 0 (replicate 7 5 ++ [0x7f00] ++ replicate 8 5 ++ [0x1200] ++ replicate 17 0) [0x1ffff; 0] 0
    (replicate 16 0) 0 0.

Lemma demo_state_wf : state_wf demo_state.
Proof. repeat split. by left. Qed.

Lemma demo_env_wf : env_wf demo_env.
Proof.
  split.
  - intros id ptr H. apply (inj Some) in H. subst ptr. unfold bytes_ok, demo_table. vm_compute.
    repeat (constructor; [split; [discriminate|reflexivity]|]). constructor.
  - intros id m [= <-]. repeat constructor. simpl. lia.
  - intros id cf H. simpl in H. destruct (id =? 3); [|done]. simplify_eq. split; [done|]. split; [simpl; lia|].
    repeat constructor; simpl; lia.
  - intros id x [= <-]. unfold bytes_ok. simpl. unfold EXPR_OP_BREG, EXPR_OP_DEREF. repeat constructor; lia.
Qed.

Lemma eval_expr_refines_witness :
  exists st, eval_expr demo_env 5 demo_state = Some (set_eval_error 0 (set_stack st demo_state), 0x1201).
Proof.
  destruct (eval_expr_refines demo_env 5 demo_state 0x1ffff) as (st & _ & H);
    [exact demo_state_wf|exact demo_env_wf|reflexivity|].
  exists st. rewrite H. vm_compute. reflexivity.
Defined.

Lemma unwind_step_registers_witness :
  exists s', unwind_step demo_env demo_state = Some (0, s') /\ get_reg 1 RIP s' = Some 0x1200 /\
    get_reg 1 RSP s' = Some 0x7f10.
Proof.
  destruct (unwind_step_registers demo_env demo_state 0x1ffff (Some demo_cft)) as (ret & s' & Hstep & _ & Hr);
    [exact demo_env_wf|exact demo_state_wf|reflexivity|vm_compute; reflexivity|].
  exists s'. rewrite Hstep. vm_compute in Hstep. injection Hstep as <- <-. vm_compute. done.
Defined.

Lemma ustack_dwunwind_safe_witness :
  exists ret out s', ustack_dwunwind demo_env 64 1 (Some demo_state) = Some (ret, out, Some s') /\
    head out = Some 0x1200.
Proof.
  destruct (ustack_dwunwind_safe demo_env 64 1 demo_state) as (ret & out & s' & H & _ & _ & _ & _ & _ & Hh);
    [exact demo_env_wf|exact demo_state_wf|lia|].
  exists ret, out, s'. split; [done|].
  apply (Hh _ _ _ _ eq_refl eq_refl eq_refl). lia.
Defined.

Lemma zero_return_address_missed_witness :
  exists s', finish_step demo_env 0 0x1ffff demo_state = Some (0, s') /\
    get_reg (current_reg_set s') RIP s' = Some (2 ^ 64 - 1).
Proof.
  apply (zero_return_address_missed demo_env demo_state);
    [exact demo_state_wf|reflexivity|simpl; lia].
Defined.
