(* ===== verification/Hashmap.v ===== *)
(** * The hash map of libbpf

    src/libbpf/src/hashmap.c and hashmap.h: a chained hash map from [long] to [long] with
    caller-supplied hash and equality functions.  The bucket array is a list of chains,
    [None] for the [NULL] of an empty map; allocation outcomes are arguments of the
    operations that allocate.  An operation is [None] only if the code would access the
    bucket array out of bounds. *)
From stdpp Require Import base numbers list gmap sorting.
From S2P Require Import Prelude.

Definition HASHMAP_MIN_CAP_BITS := 2.

Definition hash_bits (h bits : Z) : Z :=
  if bits =? 0 then 0 else u64 (h * 11400714819323198485) >>' (8 * 8 - bits).

(** [str_hash] over the bytes before the terminator; a byte is a signed [char]. *)
Definition str_hash (s : list Z) : Z := fold_left (fun h c => u64 (u64 (h * 31) + s8 c)) s 0.

Record hashmap_entry := Entry { key : Z; value : Z }.

Record hashmap := Hashmap {
  buckets : option (list (list hashmap_entry));
  cap : Z;
  cap_bits : Z;
  sz : Z
}.

Inductive hashmap_insert_strategy := HASHMAP_ADD | HASHMAP_SET | HASHMAP_UPDATE | HASHMAP_APPEND.

#[export] Instance hashmap_entry_eq_dec : EqDecision hashmap_entry.
Proof. solve_decision. Defined.
#[export] Instance hashmap_insert_strategy_eq_dec : EqDecision hashmap_insert_strategy.
Proof. solve_decision. Defined.

(** [calloc(n, size)]: it may fail at any time and fails when [n * size] overflows. *)
Definition calloc_ok (alloc : bool) (n size : Z) : bool := alloc && (n * size <? 2 ^ 64).

Definition hashmap__init : hashmap := Hashmap None 0 0 0.
Definition hashmap__clear (map : hashmap) : hashmap := Hashmap None 0 0 0.
Definition hashmap__size (map : hashmap) : Z := sz map.
Definition hashmap__capacity (map : hashmap) : Z := cap map.

Definition hashmap_add_entry (bs : list (list hashmap_entry)) (h : Z) (entry : hashmap_entry)
  : option (list (list hashmap_entry)) :=
  chain ← zget bs h; zset bs h (entry :: chain).

Definition hashmap_needs_to_grow (map : hashmap) : bool :=
  (cap map =? 0) || (u64 (u64 (sz map + 1) * 4) / 3 >? cap map).

(** The entries in the order of [hashmap__for_each_entry]: by bucket, along the chains. *)
Definition all_entries (map : hashmap) : list hashmap_entry := concat (default [] (buckets map)).

Section Hashmap.
Context (hash_fn : Z -> Z) (equal_fn : Z -> Z -> bool).

(** Re-hashing of the entries, each put in front of its new chain. *)
Fixpoint rehash (new_cap_bits : Z) (es : list hashmap_entry) (new_buckets : list (list hashmap_entry))
  : option (list (list hashmap_entry)) :=
  match es with
  | [] => Some new_buckets
  | cur :: es =>
    let h := hash_bits (hash_fn (key cur)) new_cap_bits in
    new_buckets ← hashmap_add_entry new_buckets h cur;
    rehash new_cap_bits es new_buckets
  end.

Definition hashmap_grow (alloc : bool) (map : hashmap) : option (Z * hashmap) :=
  let new_cap_bits := cap_bits map + 1 in
  let new_cap_bits := if new_cap_bits <? HASHMAP_MIN_CAP_BITS then HASHMAP_MIN_CAP_BITS else new_cap_bits in
  let new_cap := u64 (1 <<' new_cap_bits) in
  if negb (calloc_ok alloc new_cap 8) then Some (- ENOMEM, map)
  else
    new_buckets ← rehash new_cap_bits (all_entries map) (replicate (Z.to_nat new_cap) []);
    Some (0, Hashmap (Some new_buckets) new_cap new_cap_bits (sz map)).

(** The position in the chain (standing for [*pprev]) and the entry. *)
Fixpoint find_chain (pos : nat) (chain : list hashmap_entry) (k : Z) : option (nat * hashmap_entry) :=
  match chain with
  | [] => None
  | cur :: chain => if equal_fn (key cur) k then Some (pos, cur) else find_chain (S pos) chain k
  end.

Definition hashmap_find_entry (map : hashmap) (k hash : Z) : option (option (nat * hashmap_entry)) :=
  match buckets map with
  | None => Some None
  | Some bs => chain ← zget bs hash; Some (find_chain 0 chain k)
  end.

(** Replace the chain of bucket [h]. *)
Definition with_chain (map : hashmap) (h : Z) (f : list hashmap_entry -> list hashmap_entry) (sz : Z)
  : option hashmap :=
  bs ← buckets map;
  chain ← zget bs h;
  bs ← zset bs h (f chain);
  Some (Hashmap (Some bs) (cap map) (cap_bits map) sz).

(** The part of [hashmap_insert] that adds an entry. *)
Definition insert_new (calloc malloc : bool) (map : hashmap) (k v h : Z) : option (Z * hashmap) :=
  '(err, map, h) ←
    (if hashmap_needs_to_grow map then
       '(err, map) ← hashmap_grow calloc map;
       Some (err, map, hash_bits (hash_fn k) (cap_bits map))
     else Some (0, map, h));
  if negb (err =? 0) then Some (err, map)
  else if negb malloc then Some (- ENOMEM, map)
  else map ← with_chain map h (fun chain => Entry k v :: chain) (u64 (sz map + 1)); Some (0, map).

(** The result is the error, the map, and the old key and value. *)
Definition hashmap_insert (calloc malloc : bool) (map : hashmap) (k v : Z) (strategy : hashmap_insert_strategy)
  : option (Z * hashmap * Z * Z) :=
  let h := hash_bits (hash_fn k) (cap_bits map) in
  found ← (if decide (strategy = HASHMAP_APPEND) then Some None else hashmap_find_entry map k h);
  match found, strategy with
  | Some (pos, entry), HASHMAP_ADD => Some (- EEXIST, map, key entry, value entry)
  | Some (pos, entry), HASHMAP_SET | Some (pos, entry), HASHMAP_UPDATE =>
    map ← with_chain map h (fun chain => <[pos := Entry k v]> chain) (sz map);
    Some (0, map, key entry, value entry)
  | None, HASHMAP_UPDATE => Some (- ENOENT, map, 0, 0)
  | _, _ => '(err, map) ← insert_new calloc malloc map k v h; Some (err, map, 0, 0)
  end.

Definition hashmap_find (map : hashmap) (k : Z) : option (option Z) :=
  let h := hash_bits (hash_fn k) (cap_bits map) in
  found ← hashmap_find_entry map k h;
  Some (match found with None => None | Some (_, entry) => Some (value entry) end).

Definition hashmap_delete (map : hashmap) (k : Z) : option (option (Z * Z) * hashmap) :=
  let h := hash_bits (hash_fn k) (cap_bits map) in
  found ← hashmap_find_entry map k h;
  match found with
  | None => Some (None, map)
  | Some (pos, entry) =>
    map ← with_chain map h (fun chain => delete pos chain) (u64 (sz map - 1));
    Some (Some (key entry, value entry), map)
  end.

(** [hashmap__for_each_key_entry]. *)
Definition key_entries (map : hashmap) (k : Z) : option (list hashmap_entry) :=
  match buckets map with
  | None => Some []
  | Some bs =>
    chain ← zget bs (hash_bits (hash_fn k) (cap_bits map));
    Some (filter (fun cur => equal_fn (key cur) k = true) chain)
  end.

End Hashmap.

(** ** What the callers supply: an equality compatible with the hash *)
Class HashKey (hash_fn : Z -> Z) (equal_fn : Z -> Z -> bool) : Prop := {
  equal_refl k : equal_fn k k = true;
  equal_sym k1 k2 : equal_fn k1 k2 = equal_fn k2 k1;
  equal_trans k1 k2 k3 : equal_fn k1 k2 = true -> equal_fn k2 k3 = true -> equal_fn k1 k3 = true;
  equal_hash k1 k2 : equal_fn k1 k2 = true -> hash_fn k1 = hash_fn k2
}.

(** ** Association lists: the abstract state of a map *)
Section Assoc.
Context {hash_fn : Z -> Z} {equal_fn : Z -> Z -> bool} `{HK : !HashKey hash_fn equal_fn}.

Fixpoint assoc (es : list hashmap_entry) (k : Z) : option hashmap_entry :=
  match es with
  | [] => None
  | e :: es => if equal_fn (key e) k then Some e else assoc es k
  end.

(** No two entries have equal keys. *)
Fixpoint unique_keys (es : list hashmap_entry) : Prop :=
  match es with
  | [] => True
  | e :: es => Forall (fun e' => equal_fn (key e) (key e') = false) es /\ unique_keys es
  end.

Lemma assoc_app es1 es2 k :
  assoc (es1 ++ es2) k = match assoc es1 k with Some e => Some e | None => assoc es2 k end.
Proof. induction es1 as [|e es1 IH]; simpl; [done|]. by destruct (equal_fn (key e) k). Qed.

Lemma assoc_None es k : assoc es k = None <-> Forall (fun e => equal_fn (key e) k = false) es.
Proof.
  induction es as [|e es IH]; simpl; [done|]. rewrite Forall_cons, <- IH. by destruct (equal_fn (key e) k); split; [|intros [? ?]| |intros [? ?]].
Qed.

Lemma assoc_Some es k e : assoc es k = Some e -> e ∈ es /\ equal_fn (key e) k = true.
Proof.
  induction es as [|e' es IH]; simpl; [done|]. destruct (equal_fn (key e') k) eqn:E; intros H.
  - simplify_eq. by split; [left|].
  - destruct (IH H). by split; [right|].
Qed.

Lemma equal_congr k1 k2 k3 : equal_fn k1 k2 = true -> equal_fn k1 k3 = equal_fn k2 k3.
Proof.
  intros H. apply eq_true_iff_eq. split; intros H'.
  - apply (equal_trans (HashKey := HK) _ k1); [by rewrite equal_sym|done].
  - by apply (equal_trans (HashKey := HK) _ k2).
Qed.

Lemma unique_keys_perm es1 es2 : es1 ≡ₚ es2 -> unique_keys es1 -> unique_keys es2.
Proof.
  induction 1 as [|e l1 l2 Hp IH|e1 e2 l|l1 l2 l3 _ IH1 _ IH2]; simpl; auto.
  - intros [Hf Hu]. split; [by rewrite <- Hp|auto].
  - rewrite !Forall_cons. intros ((H & ?) & ? & ?). rewrite equal_sym in H. auto.
Qed.

Lemma assoc_perm es1 es2 k : es1 ≡ₚ es2 -> unique_keys es1 -> assoc es1 k = assoc es2 k.
Proof.
  induction 1 as [|e l1 l2 Hp IH|e1 e2 l|l1 l2 l3 H12 IH1 _ IH2]; simpl; auto.
  - intros [_ Hu]. by rewrite IH.
  - rewrite Forall_cons. intros ((H & _) & _). destruct (equal_fn (key e2) k) eqn:E2; [|done].
    rewrite (equal_congr _ _ (key e1) E2), equal_sym in H. by rewrite H.
  - intros Hu. rewrite IH1 by done. apply IH2. by eapply unique_keys_perm.
Qed.

Lemma unique_keys_cons es e : assoc es (key e) = None -> unique_keys es -> unique_keys (e :: es).
Proof.
  intros Hn Hu. split; [|done]. apply assoc_None in Hn. eapply Forall_impl; [done|]. intros e' H.
  by rewrite equal_sym.
Qed.

Lemma assoc_filter es k : assoc es k = head (filter (fun e => equal_fn (key e) k = true) es).
Proof.
  induction es as [|e es IH]; [done|]. cbn [assoc]. rewrite filter_cons.
  destruct (equal_fn (key e) k) eqn:E; [by rewrite decide_True|by rewrite decide_False].
Qed.

(** Position of a key in a chain. *)
Lemma find_chain_spec p chain k :
  match find_chain equal_fn p chain k with
  | Some (q, e) => exists l1 l2, chain = l1 ++ e :: l2 /\ q = (p + length l1)%nat /\ assoc chain k = Some e /\
                     equal_fn (key e) k = true
  | None => assoc chain k = None
  end.
Proof.
  revert p. induction chain as [|c chain IH]; intros p; simpl; [done|].
  destruct (equal_fn (key c) k) eqn:E.
  - exists [], chain. simpl. rewrite Nat.add_0_r. auto.
  - specialize (IH (S p)). destruct (find_chain equal_fn (S p) chain k) as [[q e]|]; [|done].
    destruct IH as (l1 & l2 & -> & -> & ? & ?). exists (c :: l1), l2. simpl. split_and!; auto; lia.
Qed.
End Assoc.

Arguments assoc : clear implicits.
Arguments unique_keys : clear implicits.

(** ** Buckets *)
Lemma concat_delete {A} (bs : list (list A)) i chain :
  bs !! i = Some chain -> concat bs ≡ₚ chain ++ concat (delete i bs).
Proof.
  revert i. induction bs as [|b bs IH]; intros [|i] H; simplify_eq/=; [done|].
  rewrite (IH i H). rewrite !(assoc_L (++)). by rewrite (Permutation_app_comm b chain).
Qed.

Lemma list_delete_insert_eq {A} (l : list A) i x : delete i (<[i := x]> l) = delete i l.
Proof. revert i; induction l as [|a l IH]; intros [|i]; simpl; auto. f_equal. apply IH. Qed.

(** Replacing a chain replaces its entries. *)
Lemma concat_insert {A} (bs : list (list A)) i chain chain' :
  bs !! i = Some chain -> exists rest, concat bs ≡ₚ chain ++ rest /\ concat (<[i := chain']> bs) ≡ₚ chain' ++ rest.
Proof.
  intros H. exists (concat (delete i bs)). split; [by apply concat_delete|].
  rewrite <- (list_delete_insert_eq bs i chain'). apply concat_delete, list_lookup_insert_eq.
  by eapply lookup_lt_Some.
Qed.

Lemma hash_bits_range h bits : 0 <= bits <= 64 -> 0 <= hash_bits h bits < 2 ^ bits.
Proof.
  intros Hb. unfold hash_bits. destruct (Z.eqb_spec bits 0) as [->|]; [done|].
  rewrite Z.shiftr_div_pow2 by lia. pose proof (wrap_range 64 (h * 11400714819323198485) ltac:(lia)).
  replace (2 ^ 64) with (2 ^ bits * 2 ^ (8 * 8 - bits)) in * by (rewrite <- Z.pow_add_r by lia; f_equal; lia).
  assert (0 < 2 ^ (8 * 8 - bits)) by (apply Z.pow_pos_nonneg; lia).
  split; [apply Z.div_pos; lia|apply Z.div_lt_upper_bound; lia].
Qed.

(** ** The invariant *)
Section Invariant.
Context (hash_fn : Z -> Z) (equal_fn : Z -> Z -> bool) `{HK : !HashKey hash_fn equal_fn}.

(** The entry is in the bucket of its hash. *)
Definition hashed (bits : Z) (bs : list (list hashmap_entry)) : Prop :=
  forall i chain e, bs !! i = Some chain -> e ∈ chain -> hash_bits (hash_fn (key e)) bits = Z.of_nat i.

Record hashmap_wf (m : hashmap) : Prop := {
  wf_shape : match buckets m with
             | None => cap m = 0 /\ cap_bits m = 0
             | Some bs => 2 <= cap_bits m <= 60 /\ cap m = 2 ^ cap_bits m /\ Z.of_nat (length bs) = cap m /\
                          hashed (cap_bits m) bs
             end;
  wf_sz : sz m = Z.of_nat (length (all_entries m));
  wf_load : sz m * 4 / 3 <= cap m
}.

Lemma init_wf : hashmap_wf hashmap__init.
Proof. split; done. Qed.

Lemma bucket_in m bs h : hashmap_wf m -> buckets m = Some bs ->
  exists chain, zget bs (hash_bits h (cap_bits m)) = Some chain.
Proof.
  intros Hw Hb. pose proof (wf_shape _ Hw) as Hs. rewrite Hb in Hs. destruct Hs as (Hbits & Hc & Hl & _).
  apply zget_is_Some. rewrite Hl, Hc. apply hash_bits_range. lia.
Qed.

(** Only the bucket of its hash can hold a key. *)
Lemma filter_bucket m bs k chain : hashmap_wf m -> buckets m = Some bs ->
  zget bs (hash_bits (hash_fn k) (cap_bits m)) = Some chain ->
  filter (fun e => equal_fn (key e) k = true) (all_entries m) = filter (fun e => equal_fn (key e) k = true) chain.
Proof.
  intros Hw Hb Hg. pose proof (wf_shape _ Hw) as Hs. rewrite Hb in Hs. destruct Hs as (_ & _ & _ & Hh).
  unfold all_entries. rewrite Hb. simpl. apply zget_Some in Hg as [H0 Hg].
  remember (Z.to_nat (hash_bits (hash_fn k) (cap_bits m))) as i eqn:Hi.
  assert (forall j chain e, bs !! j = Some chain -> e ∈ chain -> j <> i -> ~ equal_fn (key e) k = true) as Hne.
  { intros j ch e Hj He Hji E.
    apply (equal_hash (HashKey := HK)) in E. specialize (Hh j ch e Hj He). rewrite E in Hh. lia. }
  clear - Hg Hne. revert i Hg Hne. induction bs as [|b bs IH]; intros [|i] Hg Hne; simplify_eq/=; rewrite filter_app.
  - rewrite (filter_none _ (concat bs)); [apply app_nil_r|].
    apply Forall_concat, Forall_forall. intros l Hl. apply Forall_forall. intros e He.
    apply list_elem_of_lookup in Hl as [j Hj]. apply (Hne (S j) l e); auto.
  - rewrite (filter_none _ b).
    + apply IH with i; auto. intros j ch e Hj He Hji. apply (Hne (S j) ch e); auto.
    + apply Forall_forall. intros e He. by apply (Hne 0%nat b e).
Qed.

Lemma assoc_bucket m bs k chain : hashmap_wf m -> buckets m = Some bs ->
  zget bs (hash_bits (hash_fn k) (cap_bits m)) = Some chain ->
  assoc equal_fn (all_entries m) k = assoc equal_fn chain k.
Proof. intros Hw Hb Hg. by rewrite !assoc_filter, (filter_bucket m bs k chain). Qed.

Lemma find_entry_spec m k : hashmap_wf m ->
  exists r, hashmap_find_entry equal_fn m k (hash_bits (hash_fn k) (cap_bits m)) = Some r /\
    match r with
    | None => assoc equal_fn (all_entries m) k = None
    | Some (pos, e) => exists bs l1 l2, buckets m = Some bs /\
        zget bs (hash_bits (hash_fn k) (cap_bits m)) = Some (l1 ++ e :: l2) /\ pos = length l1 /\
        assoc equal_fn (all_entries m) k = Some e /\ equal_fn (key e) k = true
    end.
Proof.
  intros Hw. unfold hashmap_find_entry. destruct (buckets m) as [bs|] eqn:Hb.
  - destruct (bucket_in m bs (hash_fn k) Hw Hb) as [chain Hc]. rewrite Hc. cbn [mbind option_bind].
    eexists. split; [done|]. rewrite (assoc_bucket m bs k chain) by done.
    pose proof (find_chain_spec (equal_fn := equal_fn) 0 chain k) as Hf. destruct (find_chain _ _ _ _) as [[pos e]|]; [|done].
    destruct Hf as (l1 & l2 & -> & -> & ? & ?). exists bs, l1, l2. auto.
  - exists None. split; [done|]. unfold all_entries. by rewrite Hb.
Qed.

Lemma hashed_insert bits bs i chain chain' : hashed bits bs -> bs !! i = Some chain ->
  (forall e, e ∈ chain' -> e ∈ chain \/ hash_bits (hash_fn (key e)) bits = Z.of_nat i) ->
  hashed bits (<[i := chain']> bs).
Proof.
  intros Hh Hi Hc j ch e Hj He. destruct (decide (j = i)) as [->|].
  - rewrite list_lookup_insert_eq in Hj by (by eapply lookup_lt_Some). simplify_eq.
    destruct (Hc e He); [by eapply Hh|done].
  - rewrite list_lookup_insert_ne in Hj by done. by eapply Hh.
Qed.

(** Replacing a chain by one whose new entries hash to the same bucket. *)
Lemma with_chain_spec m bs k chain chain' f n : hashmap_wf m -> buckets m = Some bs ->
  zget bs (hash_bits (hash_fn k) (cap_bits m)) = Some chain -> f chain = chain' ->
  (forall e, e ∈ chain' -> e ∈ chain \/ equal_fn (key e) k = true) ->
  n = Z.of_nat (length (all_entries m) + length chain' - length chain) -> n * 4 / 3 <= cap m ->
  exists m' rest, with_chain m (hash_bits (hash_fn k) (cap_bits m)) f n = Some m' /\ hashmap_wf m' /\
    cap m' = cap m /\ sz m' = n /\ all_entries m ≡ₚ chain ++ rest /\ all_entries m' ≡ₚ chain' ++ rest.
Proof.
  intros Hw Hb Hg Hf He Hn Hload. unfold with_chain. rewrite Hb. cbn [mbind option_bind].
  rewrite Hg. cbn [mbind option_bind]. rewrite Hf. pose proof (zget_lt _ _ _ Hg) as Hlt.
  destruct (zset_is_Some bs _ chain' Hlt) as [bs' Hset]. rewrite Hset. cbn [mbind option_bind].
  apply zset_Some in Hset as [_ ->]. apply zget_Some in Hg as [H0 Hg].
  destruct (concat_insert bs _ chain chain' Hg) as (rest & Hp & Hp').
  eexists _, rest. split; [done|]. unfold all_entries in *. cbn [buckets cap sz]. rewrite Hb in *. cbn [default] in *.
  split; [|auto]. pose proof (wf_shape _ Hw) as Hs. rewrite Hb in Hs. destruct Hs as (? & ? & ? & Hh).
  split; cbn [buckets cap sz cap_bits]; [|unfold all_entries; cbn [buckets default]|done].
  - rewrite length_insert. split_and!; auto; try lia. eapply hashed_insert; [done..|].
    intros e Hin. destruct (He e Hin) as [|Heq]; [by left|right].
    rewrite (equal_hash (HashKey := HK) _ _ Heq). lia.
  - simpl in Hn. rewrite Hp in Hn. rewrite Hp'. rewrite !length_app in *. lia.
Qed.
End Invariant.

Section Operations.
Context (hash_fn : Z -> Z) (equal_fn : Z -> Z -> bool) `{HK : !HashKey hash_fn equal_fn}.

Lemma add_entry_spec bits bs e : 0 <= bits <= 64 -> Z.of_nat (length bs) = 2 ^ bits -> hashed hash_fn bits bs ->
  exists bs', hashmap_add_entry bs (hash_bits (hash_fn (key e)) bits) e = Some bs' /\
    length bs' = length bs /\ hashed hash_fn bits bs' /\ concat bs' ≡ₚ e :: concat bs.
Proof.
  intros Hb Hl Hh. unfold hashmap_add_entry. pose proof (hash_bits_range (hash_fn (key e)) bits Hb) as Hr.
  destruct (zget_is_Some bs (hash_bits (hash_fn (key e)) bits)) as [chain Hc]; [lia|]. rewrite Hc. cbn [mbind option_bind].
  destruct (zset_is_Some bs (hash_bits (hash_fn (key e)) bits) (e :: chain)) as [bs' Hs]; [lia|].
  exists bs'. split; [done|]. split; [by eapply zset_length|].
  apply zset_Some in Hs as [_ ->]. apply zget_Some in Hc as [H0 Hc]. split.
  - eapply hashed_insert; [done..|]. intros e' [->|]%elem_of_cons; [right; lia|by left].
  - destruct (concat_insert bs _ _ (e :: chain) Hc) as (rest & -> & ->). done.
Qed.

Lemma rehash_spec bits es bs : 0 <= bits <= 64 -> Z.of_nat (length bs) = 2 ^ bits -> hashed hash_fn bits bs ->
  exists bs', rehash hash_fn bits es bs = Some bs' /\ length bs' = length bs /\ hashed hash_fn bits bs' /\
    concat bs' ≡ₚ es ++ concat bs.
Proof.
  intros Hb. revert bs. induction es as [|e es IH]; intros bs Hl Hh; cbn [rehash].
  { exists bs. done. }
  destruct (add_entry_spec bits bs e Hb Hl Hh) as (bs1 & -> & Hl1 & Hh1 & Hp1). cbn [mbind option_bind].
  destruct (IH bs1) as (bs2 & -> & Hl2 & Hh2 & Hp2); [lia|done|].
  exists bs2. split; [done|]. split; [lia|]. split; [done|]. rewrite Hp2, Hp1. simpl.
  by rewrite <- Permutation_middle.
Qed.

Lemma concat_replicate_nil {A} n : concat (replicate n (@nil A)) = [].
Proof. by induction n. Qed.

(** Growing keeps the entries, and leaves room for one more. *)
(** Why an insertion reports -ENOMEM: an allocation failed, or the bucket array is so large
    that doubling it overflows the size passed to [calloc]. *)
Definition no_memory (c a : bool) (m : hashmap) : Prop := c = false \/ a = false \/ cap m = 2 ^ 60.

(** A map that was only added to has few buckets per entry. *)
Definition cap_tight (m : hashmap) : Prop := cap m <= Z.max 4 (4 * sz m).

Lemma grow_spec a m : hashmap_wf hash_fn m -> hashmap_needs_to_grow m = true ->
  exists err m', hashmap_grow hash_fn a m = Some (err, m') /\ hashmap_wf hash_fn m' /\
    all_entries m' ≡ₚ all_entries m /\ sz m' = sz m /\
    ((err = - ENOMEM /\ m' = m /\ (a = false \/ cap m = 2 ^ 60)) \/
     (err = 0 /\ cap m' = Z.max 4 (2 * cap m) /\ buckets m' <> None /\ (sz m + 1) * 4 / 3 <= cap m')).
Proof.
  intros Hw Hgrow. unfold hashmap_grow. cbv zeta.
  assert (cap m = 0 /\ cap_bits m = 0 \/ 2 <= cap_bits m <= 60 /\ cap m = 2 ^ cap_bits m) as Hcap.
  { pose proof (wf_shape _ _ Hw) as Hs. destruct (buckets m); [|by left]. right. split; apply Hs. }
  set (nb := if cap_bits m + 1 <? HASHMAP_MIN_CAP_BITS then HASHMAP_MIN_CAP_BITS else cap_bits m + 1).
  assert (2 <= nb <= 61 /\ 2 ^ nb = Z.max 4 (2 * cap m)) as [Hnb Hpow].
  { unfold nb, HASHMAP_MIN_CAP_BITS. destruct Hcap as [[-> ->]|[? ->]]; [done|].
    bcase; [lia|]. split; [lia|]. rewrite Z.pow_add_r by lia.
    assert (2 ^ 2 <= 2 ^ cap_bits m) by (apply Z.pow_le_mono_r; lia). lia. }
  assert (2 ^ nb <= 2 ^ 61) by (apply Z.pow_le_mono_r; lia).
  assert (u64 (1 <<' nb) = 2 ^ nb) as Hnc.
  { rewrite Z.shiftl_mul_pow2, Z.mul_1_l by lia. apply wrap_small. lia. }
  rewrite Hnc. unfold calloc_ok. destruct (a && (2 ^ nb * 8 <? 2 ^ 64)) eqn:Ha; cbn [negb].
  2: { exists (- ENOMEM), m. split_and!; auto. left. split_and!; auto. apply andb_false_iff in Ha as [->|Ha%Z.ltb_ge]; [by left|right].
       destruct (decide (nb <= 60)); [assert (2 ^ nb <= 2 ^ 60) by (apply Z.pow_le_mono_r; lia); lia|].
       unfold nb, HASHMAP_MIN_CAP_BITS in *. destruct Hcap as [[_ Hc0]|[Hcb ->]]; [rewrite Hc0 in *; simpl in *; lia|].
       f_equal. destruct (cap_bits m + 1 <? 2); lia. }
  apply andb_true_iff in Ha as [_ Ha%Z.ltb_lt].
  assert (nb <= 60) by (destruct (decide (nb = 61)) as [->|]; [done|lia]).
  destruct (rehash_spec nb (all_entries m) (replicate (Z.to_nat (2 ^ nb)) [])) as (bs & -> & Hl & Hh & Hp); [lia| | |].
  { rewrite length_replicate. lia. }
  { intros i ch e [-> _]%lookup_replicate_1. by intros ?%elem_of_nil. }
  cbn [mbind option_bind]. rewrite concat_replicate_nil, app_nil_r in Hp. rewrite length_replicate in Hl.
  assert ((sz m + 1) * 4 / 3 <= 2 ^ nb) as Hroom.
  { pose proof (wf_load _ _ Hw). rewrite Hpow. 
    assert (cap m = 0 -> sz m = 0) as Hz.
    { intros Hc. rewrite Hc in *. rewrite (wf_sz _ _ Hw) in *. Z.div_mod_to_equations. lia. }
    destruct Hcap as [[Hc _]|[? Hc]]; [by rewrite Hc, Hz|].
    assert (2 ^ 2 <= 2 ^ cap_bits m) by (apply Z.pow_le_mono_r; lia). Z.div_mod_to_equations; lia. }
  do 2 eexists. split; [done|]. split; [|split; [done|split; [done|right; cbn [cap buckets]; auto]]].
  split; cbn [buckets cap cap_bits sz].
  - split_and!; auto; try lia.
  - rewrite (wf_sz _ _ Hw). unfold all_entries at 2. cbn [buckets default]. simpl. by rewrite Hp.
  - Z.div_mod_to_equations; lia.
Qed.

(** The load bound keeps the sizes far from overflow. *)
Lemma sz_bound m : hashmap_wf hash_fn m -> 0 <= sz m < 2 ^ 61 /\ 0 <= cap m <= 2 ^ 60.
Proof.
  intros Hw. pose proof (wf_load _ _ Hw). pose proof (wf_sz _ _ Hw). pose proof (wf_shape _ _ Hw) as Hs.
  assert (0 <= cap m <= 2 ^ 60).
  { destruct (buckets m); [|lia]. destruct Hs as (? & -> & _). 
    assert (0 < 2 ^ cap_bits m <= 2 ^ 60) by (split; [apply Z.pow_pos_nonneg; lia|apply Z.pow_le_mono_r; lia]). lia. }
  split; [|done]. split; [lia|]. Z.div_mod_to_equations; lia.
Qed.

Lemma no_grow_room m : hashmap_wf hash_fn m -> hashmap_needs_to_grow m = false ->
  (sz m + 1) * 4 / 3 <= cap m /\ buckets m <> None.
Proof.
  intros Hw Hg. apply orb_false_iff in Hg as [Hc%Z.eqb_neq Hg].
  pose proof (sz_bound m Hw). rewrite (wrap_small 64 (sz m + 1)), wrap_small in Hg by lia.
  rewrite Z.gtb_ltb in Hg. apply Z.ltb_ge in Hg. split; [done|].
  intros Hb. pose proof (wf_shape _ _ Hw) as Hs. rewrite Hb in Hs. tauto.
Qed.

Lemma grow_tight m m1 : hashmap_wf hash_fn m -> hashmap_needs_to_grow m = true -> sz m1 = sz m ->
  cap m1 = Z.max 4 (2 * cap m) -> cap_tight m1.
Proof.
  intros Hw Hg Hsz Hcap. unfold cap_tight. rewrite Hsz, Hcap. pose proof (sz_bound m Hw).
  apply orb_true_iff in Hg as [Hc%Z.eqb_eq|Hg]; [rewrite Hc; lia|].
  rewrite (wrap_small 64 (sz m + 1)), wrap_small in Hg by lia. rewrite Z.gtb_ltb in Hg. apply Z.ltb_lt in Hg.
  assert (cap m = 0 \/ 4 <= cap m) as [Hc|Hc].
  { pose proof (wf_shape _ _ Hw) as Hs. destruct (buckets m); [|tauto]. right. destruct Hs as (? & -> & _).
    change 4 with (2 ^ 2). apply Z.pow_le_mono_r; lia. }
  - rewrite Hc. lia.
  - Z.div_mod_to_equations. lia.
Qed.

Lemma insert_new_spec c a m k v : hashmap_wf hash_fn m ->
  exists err m', insert_new hash_fn c a m k v (hash_bits (hash_fn k) (cap_bits m)) = Some (err, m') /\
    hashmap_wf hash_fn m' /\ (cap_tight m -> cap_tight m') /\
    ((err = - ENOMEM /\ all_entries m' ≡ₚ all_entries m /\ no_memory c a m) \/
     (err = 0 /\ all_entries m' ≡ₚ Entry k v :: all_entries m)).
Proof.
  intros Hw. unfold insert_new.
  assert (exists err m1, (if hashmap_needs_to_grow m
     then '(err, map) ← hashmap_grow hash_fn c m; Some (err, map, hash_bits (hash_fn k) (cap_bits map))
     else Some (0, m, hash_bits (hash_fn k) (cap_bits m))) =
     Some (err, m1, hash_bits (hash_fn k) (cap_bits m1)) /\ hashmap_wf hash_fn m1 /\ all_entries m1 ≡ₚ all_entries m /\
     (cap_tight m -> cap_tight m1) /\
     (err = - ENOMEM /\ (c = false \/ cap m = 2 ^ 60) \/ err = 0 /\ (sz m1 + 1) * 4 / 3 <= cap m1 /\ buckets m1 <> None))
    as (err & m1 & -> & Hw1 & Hp1 & Ht1 & Herr).
  { destruct (hashmap_needs_to_grow m) eqn:Hg.
    - destruct (grow_spec c m Hw Hg) as (err & m1 & -> & Hw1 & Hp & Hsz & Hor). cbn [mbind option_bind].
      exists err, m1. split_and!; auto.
      + destruct Hor as [(_ & -> & _)|(_ & Hcap & _ & _)]; [done|]. intros _. by apply (grow_tight m).
      + destruct Hor as [(? & _ & ?)|(? & ? & ? & ?)]; [by left|right]. by rewrite Hsz.
    - exists 0, m. destruct (no_grow_room m Hw Hg). split_and!; auto. }
  cbn [mbind option_bind]. destruct Herr as [[-> Hwhy]|(-> & Hroom & Hb)].
  { exists (- ENOMEM), m1. simpl. split_and!; auto. left. split_and!; auto. unfold no_memory. tauto. }
  cbn [Z.eqb negb]. destruct a; cbn [negb]; [|exists (- ENOMEM), m1; split_and!; auto; left; split_and!; auto; by right; left].
  destruct (buckets m1) as [bs|] eqn:Hbs; [|done].
  destruct (bucket_in hash_fn m1 bs (hash_fn k) Hw1 Hbs) as [chain Hch].
  pose proof (sz_bound m1 Hw1). rewrite (wrap_small 64) by lia.
  destruct (with_chain_spec hash_fn equal_fn m1 bs k chain (Entry k v :: chain) (fun chain => Entry k v :: chain) (sz m1 + 1))
    as (m2 & rest & -> & Hw2 & Hcap2 & Hsz2 & Hpa & Hpb); auto.
  - intros e [->|]%elem_of_cons; [right; apply equal_refl|by left].
  - rewrite (wf_sz _ _ Hw1). simpl. lia.
  - cbn [mbind option_bind]. exists 0, m2. split; [done|]. split; [done|]. split; [|right; split; [done|by rewrite Hpb, <- Hp1, Hpa]].
    intros Htt%Ht1. unfold cap_tight in *. lia.
Qed.
End Operations.

Section Refinement.
Context (hash_fn : Z -> Z) (equal_fn : Z -> Z -> bool) `{HK : !HashKey hash_fn equal_fn}.

(** The abstract map of a hash map. *)
Definition contents (m : hashmap) (k : Z) : option hashmap_entry := assoc equal_fn (all_entries m) k.

(** What the client may rely on: the structural invariant and one entry per key. *)
Definition map_wf (m : hashmap) : Prop := hashmap_wf hash_fn m /\ unique_keys equal_fn (all_entries m).

Definition updated (m m' : hashmap) (k v : Z) : Prop :=
  forall k', contents m' k' = if equal_fn k k' then Some (Entry k v) else contents m k'.

Lemma cons_updated m m' k v : map_wf m -> contents m k = None ->
  all_entries m' ≡ₚ Entry k v :: all_entries m ->
  unique_keys equal_fn (all_entries m') /\ updated m m' k v.
Proof.
  intros [_ Hu] Hn Hp. assert (unique_keys equal_fn (Entry k v :: all_entries m)) as Hu'.
  { apply (unique_keys_cons (hash_fn := hash_fn)); done. }
  split; [exact (unique_keys_perm (hash_fn := hash_fn) _ _ (symmetry Hp) Hu')|].
  intros k'. unfold contents. rewrite <- (assoc_perm (hash_fn := hash_fn) (Entry k v :: all_entries m)) by done.
  done.
Qed.

(** Overwriting the entry of a key in the middle of the entries. *)
Lemma overwrite_updated m m' k v e l1 l2 rest : map_wf m -> contents m k = Some e -> equal_fn (key e) k = true ->
  all_entries m ≡ₚ (l1 ++ e :: l2) ++ rest -> all_entries m' ≡ₚ (l1 ++ Entry k v :: l2) ++ rest ->
  unique_keys equal_fn (all_entries m') /\ updated m m' k v.
Proof.
  intros [_ Hu] Hc He Hp Hp'.
  assert (all_entries m ≡ₚ e :: l1 ++ l2 ++ rest) as Hq by (rewrite Hp; solve_Permutation).
  assert (all_entries m' ≡ₚ Entry k v :: l1 ++ l2 ++ rest) as Hq' by (rewrite Hp'; solve_Permutation).
  pose proof (unique_keys_perm (hash_fn := hash_fn) _ _ Hq Hu) as [Hf Hur].
  assert (unique_keys equal_fn (Entry k v :: l1 ++ l2 ++ rest)) as Hu'.
  { split; [|done]. eapply Forall_impl; [done|]. intros e' H. simpl in H.
    by rewrite <- (equal_congr (hash_fn := hash_fn) _ _ _ He). }
  split; [exact (unique_keys_perm (hash_fn := hash_fn) _ _ (symmetry Hq') Hu')|]. intros k'.
  unfold contents. rewrite <- (assoc_perm (hash_fn := hash_fn) _ _ k' (symmetry Hq') Hu').
  rewrite (assoc_perm (hash_fn := hash_fn) _ _ k' Hq Hu). simpl.
  destruct (equal_fn k k') eqn:E; [done|]. by rewrite (equal_congr (hash_fn := hash_fn) _ _ _ He), E.
Qed.

Lemma hashmap_find_spec m k : map_wf m -> hashmap_find hash_fn equal_fn m k = Some (value <$> contents m k).
Proof.
  intros [Hw _]. unfold hashmap_find. destruct (find_entry_spec hash_fn equal_fn m k Hw) as (r & -> & Hr).
  cbn [mbind option_bind]. unfold contents. destruct r as [[pos e]|]; [|by rewrite Hr].
  destruct Hr as (bs & l1 & l2 & _ & _ & _ & -> & _). done.
Qed.

(** A found entry is overwritten in place. *)
Lemma set_found_spec m k v bs l1 e l2 : map_wf m -> buckets m = Some bs ->
  zget bs (hash_bits (hash_fn k) (cap_bits m)) = Some (l1 ++ e :: l2) ->
  contents m k = Some e -> equal_fn (key e) k = true ->
  exists m', with_chain m (hash_bits (hash_fn k) (cap_bits m))
      (fun chain => <[length l1 := Entry k v]> chain) (sz m) = Some m' /\
    map_wf m' /\ updated m m' k v /\ sz m' = sz m /\ cap m' = cap m.
Proof.
  intros [Hw Hu] Hb Hg Hc He.
  destruct (with_chain_spec hash_fn equal_fn m bs k (l1 ++ e :: l2) (l1 ++ Entry k v :: l2)
    (fun chain => <[length l1 := Entry k v]> chain) (sz m)) as (m' & rest & -> & Hw' & Hcap & Hsz & Hp & Hp'); auto.
  - rewrite insert_app_r_alt, Nat.sub_diag by lia. done.
  - intros e' [?|[->|?]%elem_of_cons]%elem_of_app; [left; set_solver|right; apply equal_refl|left; set_solver].
  - rewrite (wf_sz _ _ Hw), !length_app. simpl. lia.
  - apply (wf_load _ _ Hw).
  - exists m'. split; [done|]. destruct (overwrite_updated m m' k v e l1 l2 rest) as [? ?]; try done.
Qed.

Lemma hashmap_insert_ref c a m k v strategy : map_wf m -> strategy <> HASHMAP_APPEND ->
  exists err m' ok ov, hashmap_insert hash_fn equal_fn c a m k v strategy = Some (err, m', ok, ov) /\ map_wf m' /\
    match contents m k, strategy with
    | Some e, HASHMAP_ADD => err = - EEXIST /\ m' = m /\ ok = key e /\ ov = value e
    | Some e, _ => err = 0 /\ updated m m' k v /\ sz m' = sz m /\ cap m' = cap m /\ ok = key e /\ ov = value e
    | None, HASHMAP_UPDATE => err = - ENOENT /\ m' = m /\ ok = 0 /\ ov = 0
    | None, _ => ok = 0 /\ ov = 0 /\ (cap_tight m -> cap_tight m') /\
        ((err = - ENOMEM /\ no_memory c a m /\ forall k', contents m' k' = contents m k') \/
         (err = 0 /\ updated m m' k v /\ sz m' = sz m + 1))
    end.
Proof.
  intros Hm Hs. pose proof Hm as [Hw Hu]. unfold hashmap_insert. rewrite decide_False by done.
  destruct (find_entry_spec hash_fn equal_fn m k Hw) as (r & -> & Hr). cbn [mbind option_bind].
  destruct r as [[pos e]|].
  - destruct Hr as (bs & l1 & l2 & Hb & Hg & -> & Hc & He). fold (contents m k) in Hc. rewrite Hc.
    destruct (set_found_spec m k v bs l1 e l2) as (m' & Hset & ? & ? & ? & ?); [done..|].
    destruct strategy; try done; [by eauto 14| |]; rewrite Hset; cbn [mbind option_bind]; eauto 14.
  - unfold contents. rewrite Hr. 
    destruct (insert_new_spec hash_fn equal_fn c a m k v Hw) as (err & m' & Hins & Hw' & Ht & Hor).
    assert (exists e m' ok ov, ('(err, map) ← insert_new hash_fn c a m k v (hash_bits (hash_fn k) (cap_bits m));
        Some (err, map, 0, 0)) = Some (e, m', ok, ov) /\ map_wf m' /\ ok = 0 /\ ov = 0 /\ (cap_tight m -> cap_tight m') /\
        ((e = - ENOMEM /\ no_memory c a m /\ forall k', contents m' k' = contents m k') \/
         (e = 0 /\ updated m m' k v /\ sz m' = sz m + 1))) as Hnew.
    { rewrite Hins. cbn [mbind option_bind]. exists err, m', 0, 0. split; [done|].
      destruct Hor as [(-> & Hp & Hwhy)|[-> Hp]].
      - split; [split; [done|exact (unique_keys_perm (hash_fn := hash_fn) _ _ (symmetry Hp) Hu)]|].
        do 3 (split; [done|]). left. split; [done|]. split; [done|]. intros k'.
        symmetry. by apply (assoc_perm (hash_fn := hash_fn)).
      - destruct (cons_updated m m' k v) as [? ?]; [done..|]. split; [by split|]. do 3 (split; [done|]).
        right. do 2 (split; [done|]). rewrite (wf_sz _ _ Hw), (wf_sz _ _ Hw'), Hp. simpl. lia. }
    destruct strategy; [exact Hnew|exact Hnew|by eauto 14|done].
Qed.

Lemma hashmap_delete_ref m k : map_wf m ->
  exists m', hashmap_delete hash_fn equal_fn m k =
      Some ((fun e => (key e, value e)) <$> contents m k, m') /\ map_wf m' /\
    (forall k', contents m' k' = if equal_fn k k' then None else contents m k') /\
    sz m' = sz m - (if contents m k is Some _ then 1 else 0).
Proof.
  intros [Hw Hu]. unfold hashmap_delete. destruct (find_entry_spec hash_fn equal_fn m k Hw) as (r & -> & Hr).
  cbn [mbind option_bind]. destruct r as [[pos e]|].
  - destruct Hr as (bs & l1 & l2 & Hb & Hg & -> & Hc & He). unfold contents. rewrite Hc.
    pose proof (sz_bound hash_fn m Hw) as [Hsz _].
    assert (1 <= sz m).
    { rewrite (wf_sz _ _ Hw). destruct (all_entries m); [done|simpl; lia]. }
    rewrite (wrap_small 64) by lia.
    destruct (with_chain_spec hash_fn equal_fn m bs k (l1 ++ e :: l2) (l1 ++ l2)
      (fun chain => delete (length l1) chain) (sz m - 1)) as (m' & rest & -> & Hw' & _ & Hsz' & Hp & Hp'); auto.
    + by rewrite delete_middle.
    + intros e' [?|?]%elem_of_app; left; apply elem_of_app; [by left|right; by apply elem_of_cons; right].
    + pose proof (wf_sz _ _ Hw). rewrite !length_app. simpl. lia.
    + pose proof (wf_load _ _ Hw). Z.div_mod_to_equations; lia.
    + cbn [mbind option_bind fmap option_fmap]. exists m'. split; [done|].
      assert (all_entries m ≡ₚ e :: all_entries m') as Hq by (rewrite Hp, Hp'; solve_Permutation).
      pose proof (unique_keys_perm (hash_fn := hash_fn) _ _ Hq Hu) as [Hf Hu'].
      split; [by split|]. split; [|lia]. intros k'.
      rewrite (assoc_perm (hash_fn := hash_fn) _ _ k' Hq Hu). simpl.
      rewrite (equal_congr (hash_fn := hash_fn) _ _ _ He).
      destruct (equal_fn k k') eqn:E; [|done].
      apply assoc_None. eapply Forall_impl; [exact Hf|]. intros e' Hne. simpl in Hne.
      rewrite (equal_congr (hash_fn := hash_fn) _ _ _ He), (equal_congr (hash_fn := hash_fn) _ _ _ E) in Hne.
      by rewrite (equal_sym (HashKey := HK)).
  - exists m. unfold contents. rewrite Hr. split; [done|]. split; [by split|]. split; [|lia]. intros k'.
    destruct (equal_fn k k') eqn:E; [|done]. apply assoc_None. apply assoc_None in Hr.
    eapply Forall_impl; [exact Hr|]. intros e' Hne. simpl in Hne.
    rewrite (equal_sym (HashKey := HK)), <- (equal_congr (hash_fn := hash_fn) _ _ _ E).
    by rewrite (equal_sym (HashKey := HK)).
Qed.
End Refinement.

(** ** Entries and contents *)
Section Contents.
Context (hash_fn : Z -> Z) (equal_fn : Z -> Z -> bool) `{HK : !HashKey hash_fn equal_fn}.

Lemma contents_elem m e : map_wf hash_fn equal_fn m -> e ∈ all_entries m -> contents equal_fn m (key e) = Some e.
Proof.
  intros [_ Hu]. unfold contents. revert Hu. induction (all_entries m) as [|e' es IH]; simpl; [by intros _ ?%elem_of_nil|].
  intros [Hf Hu] [->|He]%elem_of_cons; [by rewrite equal_refl|].
  rewrite Forall_forall in Hf. rewrite (Hf e He). auto.
Qed.

Lemma contents_in m k e : contents equal_fn m k = Some e -> e ∈ all_entries m /\ equal_fn (key e) k = true.
Proof. apply assoc_Some. Qed.

Lemma updated_elem m m' k v e : map_wf hash_fn equal_fn m' -> updated equal_fn m m' k v ->
  e ∈ all_entries m' -> e = Entry k v \/ e ∈ all_entries m.
Proof.
  intros Hw' Hu He%contents_elem; [|done]. rewrite Hu in He.
  destruct (equal_fn k (key e)); [left; congruence|right]. by apply contents_in in He as [? _].
Qed.
End Contents.

(** The invariant only depends on the functions at the keys of the map. *)
Lemma map_wf_ext h1 e1 h2 e2 m :
  (forall e, e ∈ all_entries m -> h1 (key e) = h2 (key e)) ->
  (forall e e', e ∈ all_entries m -> e' ∈ all_entries m -> e1 (key e) (key e') = e2 (key e) (key e')) ->
  map_wf h1 e1 m -> map_wf h2 e2 m.
Proof.
  intros Hh He [Hw Hu]. split.
  - destruct Hw as [Hs Hsz Hl]. split; [|done..]. destruct (buckets m) as [bs|] eqn:Hb; [|done].
    destruct Hs as (? & ? & ? & Hhash). split_and!; auto; try lia. intros i chain e Hi Hin.
    rewrite <- Hh; [by eapply Hhash|]. unfold all_entries. rewrite Hb. cbn [default].
    rewrite (concat_delete bs i chain Hi). apply elem_of_app. by left.
  - clear Hh Hw. revert He Hu. induction (all_entries m) as [|e es IH]; simpl; [done|]. intros He [Hf Hu]. split.
    + apply Forall_forall. intros e' Hin. rewrite Forall_forall in Hf. rewrite <- He; [auto|left|by right].
    + apply IH; [|done]. intros. apply He; by right.
Qed.

(** ** Properties *)
Section Properties.
Context (hash_fn : Z -> Z) (equal_fn : Z -> Z -> bool).

(** C4. [hashmap_insert] without duplicates implements the update of a finite map: it never
    accesses the bucket array out of bounds, keeps the invariant (capacity a power of two,
    entries in the bucket of their hash, exact size, load factor) and, by strategy, fails
    with -EEXIST or -ENOENT leaving the map alone, replaces the entry in place, or adds
    one, the only other failure being -ENOMEM with the same contents, reported only when an
    allocation fails or the bucket array has reached its largest size. *)
Theorem hashmap_insert_refines c a m k v strategy :
  HashKey hash_fn equal_fn -> map_wf hash_fn equal_fn m -> strategy <> HASHMAP_APPEND ->
  exists err m' ok ov, hashmap_insert hash_fn equal_fn c a m k v strategy = Some (err, m', ok, ov) /\
    map_wf hash_fn equal_fn m' /\
    match contents equal_fn m k, strategy with
    | Some e, HASHMAP_ADD => err = - EEXIST /\ m' = m /\ ok = key e /\ ov = value e
    | Some e, _ => err = 0 /\ updated equal_fn m m' k v /\ sz m' = sz m /\ ok = key e /\ ov = value e
    | None, HASHMAP_UPDATE => err = - ENOENT /\ m' = m /\ ok = 0 /\ ov = 0
    | None, _ => ok = 0 /\ ov = 0 /\
        ((err = - ENOMEM /\ no_memory c a m /\ forall k', contents equal_fn m' k' = contents equal_fn m k') \/
         (err = 0 /\ updated equal_fn m m' k v /\ sz m' = sz m + 1))
    end.
Proof.
  intros HK Hm Hs. destruct (hashmap_insert_ref hash_fn equal_fn c a m k v strategy Hm Hs) as (err & m' & ok & ov & H & Hw & Hor).
  exists err, m', ok, ov. split_and!; auto. destruct (contents equal_fn m k), strategy; tauto.
Qed.

(** [hashmap_find] and [hashmap_delete] are lookup and deletion of that finite map:
    deletion returns the old pair, removes exactly the entries of keys equal to the given
    one and keeps the invariant. *)
Theorem hashmap_delete_refines m k : HashKey hash_fn equal_fn -> map_wf hash_fn equal_fn m ->
  hashmap_find hash_fn equal_fn m k = Some (value <$> contents equal_fn m k) /\
  exists m', hashmap_delete hash_fn equal_fn m k =
      Some ((fun e => (key e, value e)) <$> contents equal_fn m k, m') /\ map_wf hash_fn equal_fn m' /\
    (forall k', contents equal_fn m' k' = if equal_fn k k' then None else contents equal_fn m k') /\
    sz m' = sz m - (if contents equal_fn m k is Some _ then 1 else 0).
Proof. intros HK Hm. split; [by apply hashmap_find_spec|by apply hashmap_delete_ref]. Qed.

(** Iterating over a key visits the entries with an equal key. *)
Lemma key_entries_spec m k : HashKey hash_fn equal_fn -> hashmap_wf hash_fn m ->
  key_entries hash_fn equal_fn m k = Some (filter (fun e => equal_fn (key e) k = true) (all_entries m)).
Proof.
  intros HK Hw. unfold key_entries. destruct (buckets m) as [bs|] eqn:Hb.
  - destruct (bucket_in hash_fn m bs (hash_fn k) Hw Hb) as [chain Hc]. rewrite Hc. cbn [mbind option_bind].
    f_equal. symmetry. by apply (filter_bucket hash_fn equal_fn m bs k chain).
  - unfold all_entries. by rewrite Hb.
Qed.

(** Appending turns the map into a multimap: whatever the allocation outcomes, an append
    either fails with -ENOMEM (only when memory runs out) keeping the multiset of entries or adds exactly one entry, and
    iterating over a key visits exactly the entries with an equal key. *)
Theorem hashmap_append_multimap c a m k v :
  HashKey hash_fn equal_fn -> hashmap_wf hash_fn m ->
  exists err m', hashmap_insert hash_fn equal_fn c a m k v HASHMAP_APPEND = Some (err, m', 0, 0) /\
    hashmap_wf hash_fn m' /\
    ((err = - ENOMEM /\ all_entries m' ≡ₚ all_entries m /\ no_memory c a m) \/
     (err = 0 /\ all_entries m' ≡ₚ Entry k v :: all_entries m)) /\
    forall k', key_entries hash_fn equal_fn m' k' =
      Some (filter (fun e => equal_fn (key e) k' = true) (all_entries m')).
Proof.
  intros HK Hw. unfold hashmap_insert. cbn [decide].
  destruct (insert_new_spec hash_fn equal_fn c a m k v Hw) as (err & m' & Hins & Hw' & _ & Hor).
  exists err, m'. rewrite decide_True by done. cbn [mbind option_bind]. rewrite Hins. cbn [mbind option_bind].
  split; [done|]. split; [done|]. split; [done|]. intros k'. by apply key_entries_spec.
Qed.
End Properties.

(** Appends of a list of pairs, with allocations that succeed. *)
Fixpoint appends (m : hashmap) (l : list (Z * Z)) : option hashmap :=
  match l with
  | [] => Some m
  | (k, v) :: l =>
    '(err, m, _, _) ← hashmap_insert (fun k => k) Z.eqb true true m k v HASHMAP_APPEND; appends m l
  end.

(** hashmap.h documents that for a key appended twice [hashmap__find] returns the last
    inserted entry; growing reverses the chains, so after growth it returns the first. *)
Theorem append_find_after_growth :
  (m ← appends hashmap__init [(7, 1); (7, 2); (8, 3)]; hashmap_find (fun k => k) Z.eqb m 7) = Some (Some 2) /\
  (m ← appends hashmap__init [(7, 1); (7, 2); (8, 3); (9, 4)]; hashmap_find (fun k => k) Z.eqb m 7) = Some (Some 1).
Proof. split; vm_compute; reflexivity. Qed.

(** ** Witnesses *)
#[export] Instance HashKey_id : HashKey (fun k => k) Z.eqb.
Proof.
  split; intros.
  - apply Z.eqb_refl.
  - apply Z.eqb_sym.
  - rewrite Z.eqb_eq in *. congruence.
  - by apply Z.eqb_eq.
Qed.

Lemma init_map_wf : map_wf (fun k => k) Z.eqb hashmap__init.
Proof. split; [apply init_wf|done]. Qed.

Lemma hashmap_insert_refines_witness :
  exists err m' ok ov, hashmap_insert (fun k => k) Z.eqb true true hashmap__init 5 6 HASHMAP_SET = Some (err, m', ok, ov) /\
    contents Z.eqb m' 5 = Some (Entry 5 6).
Proof.
  destruct (hashmap_insert_refines (fun k => k) Z.eqb true true hashmap__init 5 6 HASHMAP_SET)
    as (err & m' & ok & ov & H & _ & _ & _ & Hor); [exact HashKey_id|exact init_map_wf|discriminate|].
  exists err, m', ok, ov. split; [done|]. destruct Hor as [(_ & [H0|[H0|H0]] & _)|(_ & Hu & _)]; [discriminate H0..|]. by rewrite Hu.
Defined.

Lemma hashmap_delete_refines_witness : exists m', hashmap_delete (fun k => k) Z.eqb hashmap__init 5 = Some (None, m').
Proof.
  destruct (hashmap_delete_refines (fun k => k) Z.eqb hashmap__init 5) as (_ & m' & H & _);
    [exact HashKey_id|exact init_map_wf|]. exists m'. exact H.
Defined.

Lemma hashmap_append_multimap_witness :
  exists err m', hashmap_insert (fun k => k) Z.eqb true true hashmap__init 5 6 HASHMAP_APPEND = Some (err, m', 0, 0).
Proof.
  destruct (hashmap_append_multimap (fun k => k) Z.eqb true true hashmap__init 5 6) as (err & m' & H & _);
    [exact HashKey_id|apply init_wf|]. eauto.
Defined.
