(* ===== verification/Ringbuf.v ===== *)
(** * Ring buffers of libbpf

    src/libbpf/src/ringbuf.c: the consumer of kernel ring buffers
    ([ringbuf_process_ring] and the functions that drive it) and the producer of user
    ring buffers ([user_ring_buffer__reserve], [user_ringbuf_commit]).

    The memory shared with the kernel changes while the consumer runs: a load is a
    function of the number of loads done before it (its time) and, for sample headers, of
    the consumer position published so far, on which the kernel bases what it overwrites. *)
From stdpp Require Import base numbers list gmap.
From S2P Require Import Prelude.

Definition BPF_RINGBUF_BUSY_BIT := 2 ^ 31.
Definition BPF_RINGBUF_DISCARD_BIT := 2 ^ 30.
Definition BPF_RINGBUF_HDR_SZ := 8.
Definition INT_MAX := 2 ^ 31 - 1.

(** An [int] built from unsigned 32-bit arithmetic. *)
Definition roundup_len (len : Z) : Z :=
  let len := u32 (len <<' 2) in
  let len := len >>' 2 in
  let len := u32 (len + BPF_RINGBUF_HDR_SZ) in
  s32 (u32 (u32 (len + 7) / 8 * 8)).

(** ** Kernel ring buffers *)
Record ring := Ring { consumer_pos : Z; mask : Z }.

Record ring_env := RingEnv {
  load_producer_pos : nat -> Z;
  load_len : nat -> Z -> Z -> Z;  (* time, published consumer position, data offset *)
  (* the callback's result, given the samples delivered so far and the new one, each as
     (data offset, length) *)
  sample_cb : list (Z * Z) -> Z * Z -> Z
}.

(** The two nested loops of [ringbuf_process_ring] as one: [prod_pos] is the bound of the
    inner loop, [t] the number of loads done.  The result is the returned value, the
    consumer position and the samples delivered, latest last. *)
Fixpoint process_loop (fuel : nat) (e : ring_env) (mask n : Z) (t : nat)
    (published cons_pos prod_pos : Z) (got_new_data : bool) (cnt : Z) (samples : list (Z * Z))
  : option (Z * Z * list (Z * Z)) :=
  match fuel with
  | O => None
  | S fuel =>
    if cons_pos <? prod_pos then
      let off := cons_pos &' mask in
      let len := s32 (load_len e t published off) in
      if negb (len &' BPF_RINGBUF_BUSY_BIT =? 0) then Some (cnt, published, samples)
      else
        let cons_pos := u64 (cons_pos + roundup_len (u32 len)) in
        if len &' BPF_RINGBUF_DISCARD_BIT =? 0 then
          let sample := (off + BPF_RINGBUF_HDR_SZ, len) in
          let err := sample_cb e samples sample in
          if err <? 0 then Some (err, cons_pos, samples ++ [sample])
          else
            let cnt := s64 (cnt + 1) in
            if u64 cnt >=? n then Some (cnt, cons_pos, samples ++ [sample])
            else process_loop fuel e mask n (S t) cons_pos cons_pos prod_pos true cnt (samples ++ [sample])
        else if u64 cnt >=? n then Some (cnt, cons_pos, samples)
        else process_loop fuel e mask n (S t) cons_pos cons_pos prod_pos true cnt samples
    else if got_new_data then
      process_loop fuel e mask n (S t) published cons_pos (load_producer_pos e t) false cnt samples
    else Some (cnt, published, samples)
  end.

Definition ringbuf_process_ring (fuel : nat) (e : ring_env) (r : ring) (n : Z)
  : option (Z * ring * list (Z * Z)) :=
  let cons_pos := consumer_pos r in
  '(res, pos, samples) ← process_loop fuel e (mask r) n 1 cons_pos cons_pos (load_producer_pos e 0) false 0 [];
  Some (res, Ring pos (mask r), samples).

(** The rings of a [ring_buffer], each with its environment.  [INT_MAX] caps the sum. *)
Fixpoint consume_n_loop (fuel : nat) (rb : list (ring_env * ring)) (n res : Z)
  : option (Z * list ring * list (list (Z * Z))) :=
  match rb with
  | [] => Some (if res >? INT_MAX then INT_MAX else res, [], [])
  | (e, r) :: rb =>
    '(err, r, samples) ← ringbuf_process_ring fuel e r n;
    if err <? 0 then Some (err, r :: (snd <$> rb), [samples])
    else
      let res := s64 (res + err) in
      let n := u64 (n - err) in
      if n =? 0 then Some (if res >? INT_MAX then INT_MAX else res, r :: (snd <$> rb), [samples])
      else
        '(ret, rs, ss) ← consume_n_loop fuel rb n res;
        Some (ret, r :: rs, samples :: ss)
  end.
Definition ring_buffer__consume_n (fuel : nat) (rb : list (ring_env * ring)) (n : Z) :=
  consume_n_loop fuel rb n 0.

Fixpoint consume_loop (fuel : nat) (rb : list (ring_env * ring)) (res : Z)
  : option (Z * list ring * list (list (Z * Z))) :=
  match rb with
  | [] => Some (res, [], [])
  | (e, r) :: rb =>
    '(err, r, samples) ← ringbuf_process_ring fuel e r INT_MAX;
    if err <? 0 then Some (err, r :: (snd <$> rb), [samples])
    else
      let res := s64 (res + err) in
      if res >? INT_MAX then Some (INT_MAX, r :: (snd <$> rb), [samples])
      else
        '(ret, rs, ss) ← consume_loop fuel rb res;
        Some (ret, r :: rs, samples :: ss)
  end.
Definition ring_buffer__consume (fuel : nat) (rb : list (ring_env * ring)) := consume_loop fuel rb 0.

Definition ring__avail_data_size (r : ring) (prod_pos : Z) : Z := u64 (prod_pos - consumer_pos r).
Definition ring__size (r : ring) : Z := u64 (mask r + 1).
Definition ring__consume_n (fuel : nat) (e : ring_env) (r : ring) (n : Z) :=
  '(res, r, samples) ← ringbuf_process_ring fuel e r n;
  Some (if res >? INT_MAX then INT_MAX else res, r, samples).
Definition ring__consume (fuel : nat) (e : ring_env) (r : ring) := ring__consume_n fuel e r INT_MAX.

(** ** User ring buffers

    [words off] is the 32-bit word at byte [off] of the data area. *)
Record user_ring_buffer := UserRing {
  ucons_pos : Z;
  uprod_pos : Z;
  umask : Z;
  words : Z -> Z
}.

Definition set_word (off v : Z) (w : Z -> Z) : Z -> Z := fun o => if o =? off then v else w o.

(** [inl errno] is [NULL] with [errno] set; [inr sample] the offset of the sample. *)
Definition user_ring_buffer__reserve (rb : user_ring_buffer) (size : Z) : (Z + Z) * user_ring_buffer :=
  if negb (size &' (BPF_RINGBUF_BUSY_BIT |' BPF_RINGBUF_DISCARD_BIT) =? 0) then (inl E2BIG, rb)
  else
    let cons_pos := ucons_pos rb in
    let prod_pos := uprod_pos rb in
    let max_size := u32 (umask rb + 1) in
    let avail_size := u32 (max_size - u64 (prod_pos - cons_pos)) in
    let total_size := u32 (u32 (u32 (size + BPF_RINGBUF_HDR_SZ) + 7) / 8 * 8) in
    if total_size >? max_size then (inl E2BIG, rb)
    else if avail_size <? total_size then (inl ENOSPC, rb)
    else
      let hdr := prod_pos &' umask rb in
      let w := set_word hdr (size |' BPF_RINGBUF_BUSY_BIT) (words rb) in
      let w := set_word (hdr + 4) 0 w in
      (inr (u64 (prod_pos + BPF_RINGBUF_HDR_SZ) &' umask rb),
       UserRing cons_pos (u64 (prod_pos + total_size)) (umask rb) w).

Definition user_ringbuf_commit (rb : user_ring_buffer) (sample : Z) (discard : bool) : user_ring_buffer :=
  let hdr_offset := u64 (umask rb + 1 + sample - BPF_RINGBUF_HDR_SZ) in
  let hdr := hdr_offset &' umask rb in
  let new_len := words rb hdr &' u32 (Z.lnot BPF_RINGBUF_BUSY_BIT) in
  let new_len := if discard then new_len |' BPF_RINGBUF_DISCARD_BIT else new_len in
  UserRing (ucons_pos rb) (uprod_pos rb) (umask rb) (set_word hdr new_len (words rb)).

Definition user_ring_buffer__discard rb sample := user_ringbuf_commit rb sample true.
Definition user_ring_buffer__submit rb sample := user_ringbuf_commit rb sample false.

(** ** Lengths *)
Lemma roundup_len_mod w : roundup_len w = (w mod 2 ^ 30 + 15) / 8 * 8.
Proof.
  unfold roundup_len, BPF_RINGBUF_HDR_SZ. rewrite Z.shiftl_mul_pow2, Z.shiftr_div_pow2 by lia.
  assert (u32 (w * 2 ^ 2) / 2 ^ 2 = w mod 2 ^ 30) as ->.
  { unfold wrap. change (2 ^ 32) with (2 ^ 30 * 2 ^ 2). rewrite Zmult_mod_distr_r. by rewrite Z.div_mul. }
  pose proof (Z.mod_pos_bound w (2 ^ 30) ltac:(lia)). generalize dependent (w mod 2 ^ 30). intros z Hz.
  rewrite (wrap_small 32 (z + 8)) by lia. rewrite (wrap_small 32 (z + 8 + 7)) by lia.
  replace (z + 8 + 7) with (z + 15) by lia.
  assert (0 <= (z + 15) / 8 * 8 <= z + 15) by (Z.div_mod_to_equations; lia).
  rewrite wrap_small, swrap_small by lia. done.
Qed.

Lemma roundup_len_range w : 8 <= roundup_len w < 2 ^ 31.
Proof.
  rewrite roundup_len_mod. pose proof (Z.mod_pos_bound w (2 ^ 30) ltac:(lia)). Z.div_mod_to_equations. lia.
Qed.

Lemma testbit_swrap w z i : 0 < w -> 0 <= i < w -> Z.testbit (swrap w z) i = Z.testbit z i.
Proof.
  intros Hw Hi. rewrite <- (Z.mod_pow2_bits_low (swrap w z) w) by lia.
  rewrite <- (Z.mod_pow2_bits_low z w) by lia. f_equal. by apply (wrap_swrap w).
Qed.

(** ** The log of a ring

    The kernel appends records; [pos k] is the position of record [k].  A header carries
    the busy bit until its record is committed. *)
Record sample_rec := Rec { rlen : Z; rdiscard : bool }.

Definition rec_ok (r : sample_rec) : Prop := 0 <= rlen r < 2 ^ 30.
Definition hdr_word (r : sample_rec) (committed : bool) : Z :=
  rlen r + (if rdiscard r then BPF_RINGBUF_DISCARD_BIT else 0) + (if committed then 0 else BPF_RINGBUF_BUSY_BIT).

Fixpoint log_pos (start : Z) (recs : list sample_rec) (k : nat) : Z :=
  match k, recs with
  | O, _ | _, [] => start
  | S k, r :: recs => log_pos (start + (rlen r + 15) / 8 * 8) recs k
  end.

(** The samples of the first [k] records that are not discarded. *)
Fixpoint live_samples (mask start : Z) (recs : list sample_rec) (k : nat) : list (Z * Z) :=
  match k, recs with
  | O, _ | _, [] => []
  | S k, r :: recs =>
    (if rdiscard r then [] else [((start &' mask) + BPF_RINGBUF_HDR_SZ, rlen r)]) ++
    live_samples mask (start + (rlen r + 15) / 8 * 8) recs k
  end.

Lemma log_pos_S start recs k r : recs !! k = Some r ->
  log_pos start recs (S k) = log_pos start recs k + (rlen r + 15) / 8 * 8.
Proof.
  revert start k. induction recs as [|r0 recs IH]; intros start [|k] H; simplify_eq/=.
  - by destruct recs.
  - rewrite <- IH by done. done.
Qed.

Lemma live_samples_S mask start recs k r : recs !! k = Some r ->
  live_samples mask start recs (S k) = live_samples mask start recs k ++
    (if rdiscard r then [] else [((log_pos start recs k &' mask) + BPF_RINGBUF_HDR_SZ, rlen r)]).
Proof.
  revert start k. induction recs as [|r0 recs IH]; intros start [|k] H; simplify_eq/=.
  - destruct recs; by rewrite app_nil_r.
  - rewrite <- app_assoc, <- IH by done. done.
Qed.

Lemma log_pos_mono start recs j k : Forall rec_ok recs -> (j <= k <= length recs)%nat ->
  log_pos start recs j + 8 * Z.of_nat (k - j) <= log_pos start recs k.
Proof.
  intros Hok. induction k as [|k IH]; intros Hk; [replace j with 0%nat by lia; simpl; lia|].
  destruct (decide (j = S k)) as [->|]; [lia|].
  destruct (lookup_lt_is_Some_2 recs k) as [r Hr]; [lia|]. rewrite (log_pos_S _ _ _ r) by done.
  rewrite Forall_lookup in Hok. specialize (Hok k r Hr). unfold rec_ok in Hok. specialize (IH ltac:(lia)).
  assert (8 <= (rlen r + 15) / 8 * 8) by (Z.div_mod_to_equations; lia). lia.
Qed.

Lemma live_samples_length mask start recs k : (length (live_samples mask start recs k) <= k)%nat.
Proof.
  revert start k. induction recs as [|r recs IH]; intros start [|k]; simpl; try lia.
  rewrite length_app. specialize (IH (start + (rlen r + 15) / 8 * 8) k). destruct (rdiscard r); simpl; lia.
Qed.

(** Reading a header back. *)
Lemma hdr_word_busy r c : rec_ok r -> (s32 (hdr_word r c) &' BPF_RINGBUF_BUSY_BIT =? 0) = c.
Proof.
  intros Hr. unfold rec_ok, hdr_word, BPF_RINGBUF_BUSY_BIT, BPF_RINGBUF_DISCARD_BIT in *.
  rewrite land_bit_eqb, testbit_swrap, testbit_top by (try lia; destruct (rdiscard r), c; lia).
  destruct (Z.leb_spec (2 ^ 31) (rlen r + (if rdiscard r then 2 ^ 30 else 0) + (if c then 0 else 2 ^ 31)));
    destruct (rdiscard r), c; simpl; lia.
Qed.

Lemma hdr_word_committed r : rec_ok r ->
  s32 (hdr_word r true) = hdr_word r true /\ (hdr_word r true &' BPF_RINGBUF_DISCARD_BIT =? 0) = negb (rdiscard r) /\
  roundup_len (u32 (hdr_word r true)) = (rlen r + 15) / 8 * 8 /\
  (rdiscard r = false -> hdr_word r true = rlen r).
Proof.
  intros Hr. unfold rec_ok in Hr. 
  assert (hdr_word r true = rlen r + if rdiscard r then 2 ^ 30 else 0) as Hh.
  { unfold hdr_word, BPF_RINGBUF_DISCARD_BIT. destruct (rdiscard r); lia. }
  rewrite Hh. unfold BPF_RINGBUF_DISCARD_BIT.
  rewrite swrap_small, wrap_small by (destruct (rdiscard r); lia). split; [done|]. split; [|split].
  - rewrite land_bit_eqb, testbit_top by (destruct (rdiscard r); lia). f_equal.
    destruct (Z.leb_spec (2 ^ 30) (rlen r + (if rdiscard r then 2 ^ 30 else 0))); destruct (rdiscard r); simpl; lia.
  - rewrite roundup_len_mod. do 3 f_equal. destruct (rdiscard r); [|rewrite Z.add_0_r; apply Z.mod_small; lia].
    replace (2 ^ 30) with (1 * 2 ^ 30) at 1 by lia. rewrite Z_mod_plus_full. apply Z.mod_small; lia.
  - intros ->. lia.
Qed.

(** ** Consuming *)
Section Consume.
Context (e : ring_env) (mask n start : Z) (recs : list sample_rec).
Context (produced : nat -> nat) (committed : nat -> nat -> bool).

(** The kernel side: positions are record boundaries, and the header at the published
    consumer position is that of the next record, busy until it is committed. *)
Record log_env : Prop := {
  log_records : Forall rec_ok recs;
  log_start : 0 <= start;
  log_end : log_pos start recs (length recs) < 2 ^ 64;
  log_produced t : (produced t <= length recs)%nat /\ load_producer_pos e t = log_pos start recs (produced t);
  log_header t t0 k r : (t0 < t)%nat -> (k < produced t0)%nat -> recs !! k = Some r ->
    load_len e t (log_pos start recs k) (log_pos start recs k &' mask) = hdr_word r (committed t k)
}.

(** Why the consumer stops after [j] records with result [res]. *)
Definition stop_reason (j : nat) (res : Z) : Prop :=
  let samples := live_samples mask start recs j in
  (res = Z.of_nat (length samples) /\
   (n <= Z.of_nat (length samples) \/ (exists t, committed t j = false) \/ (exists t, (produced t <= j)%nat))) \/
  (res < 0 /\ exists l s, samples = l ++ [s] /\ sample_cb e l s = res).

(** A run that starts at record [j]: it consumes committed records only, in order, and
    delivers those that are not discarded. *)
Definition outcome (j : nat) (r : option (Z * Z * list (Z * Z))) : Prop :=
  exists res j', r = Some (res, log_pos start recs j', live_samples mask start recs j') /\
    (j <= j' <= length recs)%nat /\ stop_reason j' res /\
    (forall m, (j <= m < j')%nat -> exists t, committed t m = true) /\
    (1 <= n -> Z.of_nat (length (live_samples mask start recs j')) <= n).

Lemma outcome_stop j res : (j <= length recs)%nat -> stop_reason j res ->
  (1 <= n -> Z.of_nat (length (live_samples mask start recs j)) <= n) ->
  outcome j (Some (res, log_pos start recs j, live_samples mask start recs j)).
Proof. intros Hj Hr Hn. exists res, j. split; [done|]. split; [lia|]. split; [done|]. split; [lia|done]. Qed.

Lemma outcome_step j r t : committed t j = true -> outcome (S j) r -> outcome j r.
Proof.
  intros Hc (res & j' & -> & Hj & Hr & Hm & Hn). exists res, j'. split; [done|]. split; [lia|]. split; [done|].
  split; [|done]. intros m Hm'. destruct (decide (m = j)) as [->|]; [by eauto|apply Hm; lia].
Qed.

(** The count has not reached the limit yet. *)
Definition below (j : nat) : Prop :=
  live_samples mask start recs j = [] \/ Z.of_nat (length (live_samples mask start recs j)) < n.

Lemma below_bound j : below j -> 1 <= n -> Z.of_nat (length (live_samples mask start recs j)) <= n.
Proof. intros [->|] ?; simpl; lia. Qed.

Section Step.
Context (H : log_env) (fuel t : nat) (j p : nat) (r : sample_rec).
Context (Hr : recs !! j = Some r) (Hc : committed t j = true).
(** The loop goes on from the next record. *)
Hypothesis IH : below (S j) -> outcome (S j)
  (process_loop fuel e mask n (S t) (log_pos start recs (S j)) (log_pos start recs (S j)) (log_pos start recs p) true
    (Z.of_nat (length (live_samples mask start recs (S j)))) (live_samples mask start recs (S j))).

Lemma discard_step : rdiscard r = true -> below j ->
  let c := log_pos start recs (S j) in let samples := live_samples mask start recs j in
  outcome j (if Z.of_nat (length samples) >=? n then Some (Z.of_nat (length samples), c, samples)
     else process_loop fuel e mask n (S t) c c (log_pos start recs p) true (Z.of_nat (length samples)) samples).
Proof.
  intros Hd Hb c samples. apply (outcome_step _ _ t Hc).
  pose proof (live_samples_S mask start recs j r Hr) as HL. rewrite Hd, app_nil_r in HL.
  unfold samples, c. unfold below in IH. rewrite <- HL. rewrite Z.geb_leb. bcase.
  - apply outcome_stop; [by apply lookup_lt_Some in Hr|left; split; [done|by left]|].
    apply below_bound. unfold below. by rewrite HL.
  - apply IH. by right.
Qed.

Lemma deliver_step : rdiscard r = false -> below j -> Z.of_nat (length recs) < 2 ^ 61 ->
  let c := log_pos start recs (S j) in let samples := live_samples mask start recs j in
  let sample := ((log_pos start recs j &' mask) + BPF_RINGBUF_HDR_SZ, rlen r) in
  let err := sample_cb e samples sample in
  outcome j (if err <? 0 then Some (err, c, samples ++ [sample])
    else let cnt := s64 (Z.of_nat (length samples) + 1) in
         if u64 cnt >=? n then Some (cnt, c, samples ++ [sample])
         else process_loop fuel e mask n (S t) c c (log_pos start recs p) true cnt (samples ++ [sample])).
Proof.
  intros Hd Hb Hlen c samples sample err. apply (outcome_step _ _ t Hc).
  pose proof (live_samples_S mask start recs j r Hr) as HL. rewrite Hd in HL. fold samples sample in HL.
  pose proof (live_samples_length mask start recs j) as Hl. fold samples in Hl.
  assert (S j <= length recs)%nat as Hj by (by apply lookup_lt_Some in Hr).
  assert (length (live_samples mask start recs (S j)) = S (length samples)) as HlS by (rewrite HL, length_app; simpl; lia).
  assert (1 <= n -> Z.of_nat (length (live_samples mask start recs (S j))) <= n) as Hbound.
  { intros Hn. rewrite HlS. destruct Hb as [Hnil|Hlt]; [|fold samples in Hlt; lia].
    unfold samples. rewrite Hnil. simpl. lia. }
  cbv zeta. rewrite swrap_small, wrap_small by lia. rewrite <- HL.
  replace (Z.of_nat (length samples) + 1) with (Z.of_nat (length (live_samples mask start recs (S j)))) by lia.
  bcase.
  - apply outcome_stop; [done| |done]. right. split; [done|]. exists samples, sample. by rewrite HL.
  - rewrite Z.geb_leb. bcase.
    + apply outcome_stop; [done| |done]. left. split; [done|by left].
    + apply IH. by right.
Qed.
End Step.

Lemma process_loop_spec (H : log_env) fuel t j p t0 (got : bool) :
  (j <= length recs)%nat -> (t0 < t)%nat -> p = produced t0 ->
  (2 * (length recs - j) + (if got then 1 else 0) < fuel)%nat -> below j ->
  outcome j (process_loop fuel e mask n t (log_pos start recs j) (log_pos start recs j) (log_pos start recs p) got
    (Z.of_nat (length (live_samples mask start recs j))) (live_samples mask start recs j)).
Proof.
  revert t j p t0 got. induction fuel as [|fuel IH]; intros t j p t0 got Hj Ht0 Hp Hf Hb; [lia|].
  cbn [process_loop]. pose proof (proj1 (log_produced H t0)) as Hpn. rewrite <- Hp in Hpn.
  assert (log_pos start recs 0 = start) as H0 by (by destruct recs).
  pose proof (log_pos_mono start recs 0 (length recs) (log_records H) ltac:(lia)) as Hm. rewrite H0 in Hm.
  pose proof (log_end H). pose proof (log_start H). pose proof (live_samples_length mask start recs j).
  destruct (Z.ltb_spec (log_pos start recs j) (log_pos start recs p)) as [Hlt|Hge].
  2: { destruct got; [rewrite (proj2 (log_produced H t)); apply (IH _ _ _ t); auto; lia|].
       apply outcome_stop; [lia| |by apply below_bound]. left. split; [done|]. right. right. exists t0.
       destruct (decide (p <= j)%nat); [lia|].
       pose proof (log_pos_mono start recs j p (log_records H) ltac:(lia)). lia. }
  assert (j < p)%nat as Hjp.
  { destruct (decide (j < p)%nat); [done|].
    pose proof (log_pos_mono start recs p j (log_records H) ltac:(lia)). lia. }
  destruct (lookup_lt_is_Some_2 recs j) as [r Hr]; [lia|].
  assert (rec_ok r) as Hok by (by eapply Forall_lookup_1; [apply log_records|]).
  rewrite (log_header H t t0 j r) by (done || lia || by rewrite <- Hp).
  rewrite hdr_word_busy by done. destruct (committed t j) eqn:Hcom; cbn [negb].
  2: { apply outcome_stop; [lia| |by apply below_bound]. left. split; [done|]. right. left. eauto. }
  destruct (hdr_word_committed r Hok) as (-> & -> & -> & Hrl). rewrite <- (log_pos_S start recs j r Hr).
  pose proof (log_pos_mono start recs 0 (S j) (log_records H) ltac:(lia)).
  pose proof (log_pos_mono start recs (S j) (length recs) (log_records H) ltac:(lia)).
  rewrite (wrap_small 64 (log_pos start recs (S j))) by lia.
  assert (below (S j) -> outcome (S j) (process_loop fuel e mask n (S t) (log_pos start recs (S j))
     (log_pos start recs (S j)) (log_pos start recs p) true
     (Z.of_nat (length (live_samples mask start recs (S j)))) (live_samples mask start recs (S j)))) as HIH.
  { intros Hb'. apply (IH _ _ _ t0); auto; lia. }
  destruct (rdiscard r) eqn:Hd; cbn [negb].
  - rewrite (wrap_small 64 (Z.of_nat _)) by lia. by apply (discard_step fuel t j p r).
  - rewrite Hrl by done. apply (deliver_step fuel t j p r); auto. lia.
Qed.
End Consume.

Lemma live_samples_0 mask start recs : live_samples mask start recs 0 = [].
Proof. by destruct recs. Qed.
Lemma log_pos_0 start recs : log_pos start recs 0 = start.
Proof. by destruct recs. Qed.

Lemma process_ring_spec e r n recs produced committed fuel :
  log_env e (mask r) (consumer_pos r) recs produced committed -> (2 * length recs < fuel)%nat ->
  exists res j, ringbuf_process_ring fuel e r n =
      Some (res, Ring (log_pos (consumer_pos r) recs j) (mask r), live_samples (mask r) (consumer_pos r) recs j) /\
    (j <= length recs)%nat /\ stop_reason e (mask r) n (consumer_pos r) recs produced committed j res /\
    (forall m, (m < j)%nat -> exists t, committed t m = true) /\
    (1 <= n -> Z.of_nat (length (live_samples (mask r) (consumer_pos r) recs j)) <= n).
Proof.
  intros H Hf. unfold ringbuf_process_ring. rewrite (proj2 (log_produced _ _ _ _ _ _ H 0)).
  pose proof (process_loop_spec e (mask r) n (consumer_pos r) recs produced committed H fuel 1 0 (produced 0%nat) 0%nat false
    ltac:(lia) ltac:(lia) eq_refl ltac:(cbn [Nat.add]; lia) ltac:(left; apply live_samples_0)) as (res & j & Heq & Hj & Hs & Hm & Hn).
  rewrite live_samples_0, log_pos_0 in Heq. simpl length in Heq. change (Z.of_nat 0) with 0 in Heq.
  rewrite Heq. cbn [mbind option_bind]. exists res, j. split; [done|]. split; [lia|]. split; [done|].
  split; [|done]. intros m Hm'. apply Hm. lia.
Qed.

(** A ring with its kernel side. *)
Definition ring_ok (fuel : nat) (er : ring_env * ring) : Prop :=
  exists recs produced committed,
    log_env er.1 (mask er.2) (consumer_pos er.2) recs produced committed /\ (2 * length recs < fuel)%nat /\
    Z.of_nat (length recs) < 2 ^ 61.

Definition delivered (ss : list (list (Z * Z))) : Z := Z.of_nat (length (concat ss)).

Lemma consume_n_loop_spec fuel rb n res : Forall (ring_ok fuel) rb -> 1 <= n -> 0 <= res -> res + n <= INT_MAX ->
  exists ret rs ss, consume_n_loop fuel rb n res = Some (ret, rs, ss) /\ length rs = length rb /\
    delivered ss <= n /\ (ret < 0 \/ ret = res + delivered ss).
Proof.
  unfold INT_MAX. intros Hok. revert n res. induction Hok as [|[e r] rb (recs & pr & co & Hlog & Hf & Hl) _ IH]; intros n res Hn Hres Hmax; cbn [consume_n_loop].
  { do 3 eexists. split; [done|]. unfold INT_MAX. rewrite Z.gtb_ltb. bcase; [lia|]. unfold delivered. simpl. lia. }
  destruct (process_ring_spec e r n recs pr co fuel Hlog Hf) as (err & j & -> & Hj & Hstop & _ & Hbound).
  cbn [mbind option_bind]. specialize (Hbound Hn).
  set (samples := live_samples (mask r) (consumer_pos r) recs j) in *.
  destruct (Z.ltb_spec err 0).
  { do 3 eexists. split; [done|]. unfold delivered. cbn [length concat]. rewrite app_nil_r, length_fmap. lia. }
  destruct Hstop as [[-> _]|[? _]]; [|lia]. fold samples. fold samples in H. rewrite swrap_small by lia. rewrite wrap_small by lia.
  destruct (Z.eqb_spec (n - Z.of_nat (length samples)) 0).
  { do 3 eexists. split; [done|]. unfold INT_MAX. rewrite Z.gtb_ltb. bcase; [lia|].
    unfold delivered. cbn [length concat]. rewrite app_nil_r, length_fmap. lia. }
  destruct (IH (n - Z.of_nat (length samples)) (res + Z.of_nat (length samples))) as (ret & rs & ss & -> & Hlen & Hd & Hr); try lia.
  cbn [mbind option_bind]. do 3 eexists. split; [done|]. unfold delivered in *. cbn [length concat].
  rewrite length_app. lia.
Qed.

(** ** The user ring *)
Record user_ring_wf (rb : user_ring_buffer) : Prop := {
  user_mask : exists k, 3 <= k <= 31 /\ umask rb = 2 ^ k - 1;
  user_pos : 0 <= ucons_pos rb <= uprod_pos rb /\ uprod_pos rb + 2 ^ 32 <= 2 ^ 64;
  user_align : uprod_pos rb mod 8 = 0 /\ ucons_pos rb mod 8 = 0;
  user_window : uprod_pos rb - ucons_pos rb <= umask rb + 1
}.

Lemma flag_bits size : 0 <= size < 2 ^ 32 ->
  (size &' (BPF_RINGBUF_BUSY_BIT |' BPF_RINGBUF_DISCARD_BIT) =? 0) = (size <? 2 ^ 30).
Proof.
  intros Hs. unfold BPF_RINGBUF_BUSY_BIT, BPF_RINGBUF_DISCARD_BIT.
  rewrite Z.land_lor_distr_r. 
  assert (forall a b, (a |' b =? 0) = (a =? 0) && (b =? 0)) as Hor.
  { intros a b. apply eq_true_iff_eq. rewrite andb_true_iff, !Z.eqb_eq. apply Z.lor_eq_0_iff. }
  rewrite Hor, !land_bit_eqb by lia. rewrite (testbit_top size 31) by lia.
  rewrite <- (Z.mod_pow2_bits_low size 31 30) by lia.
  rewrite (testbit_top _ 30) by (try lia; apply Z.mod_pos_bound; lia).
  destruct (Z.ltb_spec size (2 ^ 30)), (Z.leb_spec (2 ^ 31) size), (Z.leb_spec (2 ^ 30) (size mod 2 ^ 31));
    simpl; try done; try lia; rewrite Z.mod_small in *; lia.
Qed.

Definition room (rb : user_ring_buffer) : Z := umask rb + 1 - (uprod_pos rb - ucons_pos rb).

Lemma reserve_spec rb size : user_ring_wf rb -> 0 <= size < 2 ^ 32 ->
  let total := (size + 15) / 8 * 8 in
  user_ring_buffer__reserve rb size =
    if size <? 2 ^ 30 then
      if umask rb + 1 <? total then (inl E2BIG, rb)
      else if room rb <? total then (inl ENOSPC, rb)
      else (inr ((uprod_pos rb + 8) mod (umask rb + 1)),
            UserRing (ucons_pos rb) (uprod_pos rb + total) (umask rb)
              (set_word (uprod_pos rb mod (umask rb + 1) + 4) 0
                (set_word (uprod_pos rb mod (umask rb + 1)) (size |' BPF_RINGBUF_BUSY_BIT) (words rb))))
    else (inl E2BIG, rb).
Proof.
  intros [(k & Hk & Hmask) [Hpos Hend] [Hal _] Hwin] Hs total. unfold user_ring_buffer__reserve.
  rewrite flag_bits by done. destruct (Z.ltb_spec size (2 ^ 30)); cbn [negb]; [|done].
  assert (2 ^ 3 <= 2 ^ k <= 2 ^ 31) as Hpow by (split; apply Z.pow_le_mono_r; lia).
  unfold BPF_RINGBUF_HDR_SZ, room in *. rewrite Hmask in *. rewrite Z.sub_add in *.
  rewrite (wrap_small 32 (2 ^ k)) by lia. rewrite (wrap_small 64 (uprod_pos rb - ucons_pos rb)) by lia.
  rewrite (wrap_small 32 (2 ^ k - _)) by lia. rewrite (wrap_small 32 (size + 8)) by lia.
  rewrite (wrap_small 32 (size + 8 + 7)) by lia. replace (size + 8 + 7) with (size + 15) by lia.
  assert (0 <= total <= size + 15) by (unfold total; Z.div_mod_to_equations; lia). fold total.
  rewrite (wrap_small 32 total) by lia. rewrite Z.gtb_ltb. bcase; [done|]. bcase; [done|].
  rewrite !land_mask by lia. rewrite !(wrap_small 64) by lia. done.
Qed.

(** The header a commit finds from the sample is the one its reservation wrote. *)
Lemma commit_header p k : 0 <= p -> 3 <= k <= 31 ->
  u64 (2 ^ k + (p + 8) mod 2 ^ k - BPF_RINGBUF_HDR_SZ) &' (2 ^ k - 1) = p mod 2 ^ k.
Proof.
  intros Hp Hk. unfold BPF_RINGBUF_HDR_SZ. rewrite land_mask by lia.
  assert (2 ^ 3 <= 2 ^ k <= 2 ^ 31) as Hpow by (split; apply Z.pow_le_mono_r; lia).
  pose proof (Z.mod_pos_bound (p + 8) (2 ^ k) ltac:(lia)).
  rewrite wrap_small by lia. 
  replace (2 ^ k + (p + 8) mod 2 ^ k - 8) with ((p + 8) mod 2 ^ k - 8 + 1 * 2 ^ k) by lia.
  rewrite Z_mod_plus_full, Zminus_mod_idemp_l. f_equal. lia.
Qed.

Lemma clear_busy size : 0 <= size < 2 ^ 30 ->
  (size |' BPF_RINGBUF_BUSY_BIT) &' u32 (Z.lnot BPF_RINGBUF_BUSY_BIT) = size /\
  size |' BPF_RINGBUF_BUSY_BIT = hdr_word (Rec size false) false /\
  size |' BPF_RINGBUF_DISCARD_BIT = hdr_word (Rec size true) true.
Proof.
  intros Hs. unfold hdr_word, BPF_RINGBUF_BUSY_BIT, BPF_RINGBUF_DISCARD_BIT. cbn [rlen rdiscard].
  assert (forall n, 30 <= n -> size |' 2 ^ n = size + 2 ^ n) as Hlor.
  { intros n Hn. rewrite Z.lor_comm. replace (2 ^ n) with (1 * 2 ^ n) by lia. rewrite lor_tag; [lia|lia|].
    assert (2 ^ 30 <= 2 ^ n) by (apply Z.pow_le_mono_r; lia). lia. }
  rewrite !Hlor by lia. split; [|lia].
  change (u32 (Z.lnot (2 ^ 31))) with (2 ^ 31 - 1). rewrite land_mask by lia.
  replace (size + 2 ^ 31) with (size + 1 * 2 ^ 31) by lia. rewrite Z_mod_plus_full. apply Z.mod_small. lia.
Qed.

(** ** Properties *)

(** C3. Consuming a kernel ring buffer, against any interleaving with a producer that appends
    records, commits them later and never overwrites unconsumed ones: the loops terminate;
    the callback gets, in order and exactly once each, the samples of the records consumed
    that are not discarded; only committed records are consumed; the consumer position ends
    on the boundary after the last of them; and the consumer stops only when the limit is
    reached, the next record is not committed, it has caught up with the producer, or the
    callback failed, whose error is then the result. *)
Theorem process_ring_delivers e r n recs produced committed fuel :
  log_env e (mask r) (consumer_pos r) recs produced committed -> (2 * length recs < fuel)%nat ->
  exists res j, ringbuf_process_ring fuel e r n =
      Some (res, Ring (log_pos (consumer_pos r) recs j) (mask r), live_samples (mask r) (consumer_pos r) recs j) /\
    (j <= length recs)%nat /\ stop_reason e (mask r) n (consumer_pos r) recs produced committed j res /\
    (forall m, (m < j)%nat -> exists t, committed t m = true) /\
    (1 <= n -> Z.of_nat (length (live_samples (mask r) (consumer_pos r) recs j)) <= n).
Proof. apply process_ring_spec. Qed.

(** [ring_buffer__consume_n] with a positive limit delivers at most that many samples over
    all rings, and returns their number or a callback error. *)
Theorem consume_n_bounded fuel rb n : Forall (ring_ok fuel) rb -> 1 <= n <= INT_MAX ->
  exists ret rs ss, ring_buffer__consume_n fuel rb n = Some (ret, rs, ss) /\ length rs = length rb /\
    delivered ss <= n /\ (ret < 0 \/ ret = delivered ss).
Proof.
  intros Hok Hn. destruct (consume_n_loop_spec fuel rb n 0 Hok) as (ret & rs & ss & ? & ? & ? & ?); try lia.
  exists ret, rs, ss. done.
Qed.

(** Reserving in a user ring buffer and committing the sample it returned: the reservation
    succeeds exactly when the rounded size fits in the ring and in the free space, never
    takes more than the free space, advances the producer by what the consumer will advance
    for the header it writes, and the commit finds that same header from the sample pointer,
    clears the busy bit and sets the discard bit when asked, leaving other words alone. *)
Theorem reserve_commit_roundtrip rb size discard : user_ring_wf rb -> 0 <= size < 2 ^ 32 ->
  let total := (size + 15) / 8 * 8 in
  match user_ring_buffer__reserve rb size with
  | (inl err, rb') => rb' = rb /\
      (err = E2BIG /\ (2 ^ 30 <= size \/ umask rb + 1 < total) \/ err = ENOSPC /\ room rb < total)
  | (inr sample, rb') =>
      size < 2 ^ 30 /\ total <= room rb /\
      let hdr := uprod_pos rb mod (umask rb + 1) in
      let rb'' := user_ringbuf_commit rb' sample discard in
      uprod_pos rb'' = uprod_pos rb + roundup_len (words rb'' hdr) /\
      uprod_pos rb'' - ucons_pos rb'' <= umask rb + 1 /\ uprod_pos rb'' mod 8 = 0 /\
      words rb' hdr = hdr_word (Rec size false) false /\ words rb'' hdr = hdr_word (Rec size discard) true /\
      words rb'' (hdr + 4) = 0 /\
      forall o, o <> hdr -> o <> hdr + 4 -> words rb'' o = words rb o
  end.
Proof.
  intros Hw Hs total. rewrite reserve_spec by done. fold total.
  destruct (Z.ltb_spec size (2 ^ 30)); [|by auto].
  destruct (Z.ltb_spec (umask rb + 1) total); [by auto|]. destruct (Z.ltb_spec (room rb) total); [by auto|].
  destruct Hw as [(k & Hk & Hmask) [Hpos Hend] [Hal Hal'] Hwin]. split; [done|]. split; [lia|].
  assert (2 ^ 3 <= 2 ^ k <= 2 ^ 31) as Hpow by (split; apply Z.pow_le_mono_r; lia).
  cbv zeta. unfold user_ringbuf_commit. cbn [ucons_pos uprod_pos umask words].
  replace (umask rb + 1) with (2 ^ k) in * by lia. rewrite Hmask, commit_header by lia.
  destruct (clear_busy size ltac:(lia)) as (Hclr & Hbusy & Hdisc).
  set (hdr := uprod_pos rb mod 2 ^ k) in *. unfold set_word. rewrite !Z.eqb_refl.
  destruct (Z.eqb_spec hdr (hdr + 4)); [lia|]. destruct (Z.eqb_spec (hdr + 4) hdr); [lia|]. rewrite Hclr.
  assert ((if discard then size |' BPF_RINGBUF_DISCARD_BIT else size) = hdr_word (Rec size discard) true) as ->.
  { destruct discard; [done|]. unfold hdr_word. simpl. lia. }
  assert (rec_ok (Rec size discard)) as Hok by (unfold rec_ok; simpl; lia).
  assert (roundup_len (hdr_word (Rec size discard) true) = total) as ->.
  { destruct (hdr_word_committed _ Hok) as (_ & _ & Hru & _). unfold total. cbn [rlen] in Hru. rewrite <- Hru.
    rewrite !roundup_len_mod. unfold wrap. do 3 f_equal. rewrite Z.mod_mod_divide; [done|by exists 4]. }
  unfold room in *. split_and!; try done; try lia.
  { unfold total. by rewrite Z_mod_plus_full. }
  intros o Ho1 Ho2. destruct (Z.eqb_spec o hdr); [done|]. by destruct (Z.eqb_spec o (hdr + 4)).
Qed.

(** ** Rings for the witnesses *)
Definition two_records : list sample_rec := [Rec 4 false; Rec 12 false].
Definition demo_ring_env : ring_env :=
  RingEnv (fun _ => 40) (fun _ c _ => if c =? 0 then 4 else 12) (fun _ _ => 0).
Definition demo_ring : ring := Ring 0 4095.

Lemma demo_log : log_env demo_ring_env 4095 0 two_records (fun _ => 2%nat) (fun _ _ => true).
Proof.
  split.
  - unfold two_records, rec_ok. repeat constructor; simpl; lia.
  - lia.
  - reflexivity.
  - intros t. split; [simpl; lia|reflexivity].
  - intros t t0 [|[|k]] r _ Hk Hr; simplify_eq/=; reflexivity.
Qed.

Lemma process_ring_delivers_witness :
  exists res j, ringbuf_process_ring 5 demo_ring_env demo_ring 100 =
    Some (res, Ring (log_pos 0 two_records j) 4095, live_samples 4095 0 two_records j).
Proof.
  destruct (process_ring_delivers demo_ring_env demo_ring 100 two_records (fun _ => 2%nat) (fun _ _ => true) 5)
    as (res & j & H & _); [exact demo_log|simpl; lia|]. exists res, j. exact H.
Defined.

Lemma demo_ring_ok : ring_ok 5 (demo_ring_env, demo_ring).
Proof. exists two_records, (fun _ => 2%nat), (fun _ _ => true). split; [exact demo_log|]. simpl. lia. Qed.

Lemma consume_n_bounded_witness :
  exists ret rs ss, ring_buffer__consume_n 5 [(demo_ring_env, demo_ring); (demo_ring_env, demo_ring)] 3 = Some (ret, rs, ss) /\
    delivered ss <= 3.
Proof.
  destruct (consume_n_bounded 5 [(demo_ring_env, demo_ring); (demo_ring_env, demo_ring)] 3) as (ret & rs & ss & H & _ & Hd & _).
  - repeat constructor; exact demo_ring_ok.
  - unfold INT_MAX. lia.
  - exists ret, rs, ss. split; [exact H|exact Hd].
Defined.

Definition demo_user_ring : user_ring_buffer := UserRing 4096 8184 4095 (fun _ => 0).

Lemma reserve_commit_roundtrip_witness :
  exists sample rb', user_ring_buffer__reserve demo_user_ring 0 = (inr sample, rb') /\ 
    words (user_ringbuf_commit rb' sample false) 4088 = 0.
Proof.
  assert (user_ring_wf demo_user_ring) as Hw.
  { split; simpl; [exists 12; lia|lia|done|lia]. }
  pose proof (reserve_commit_roundtrip demo_user_ring 0 false Hw ltac:(lia)) as H.
  destruct (user_ring_buffer__reserve demo_user_ring 0) as [[err|sample] rb'] eqn:E; [vm_compute in E; discriminate|].
  exists sample, rb'. split; [reflexivity|]. destruct H as (_ & _ & _ & _ & _ & _ & Hd & _). exact Hd.
Defined.

(** The documented limit of [ring_buffer__consume_n] does not hold for a limit of 0: the
    count is only compared after a record is consumed, and the remaining limit then wraps
    around, so two rings with two samples each deliver one and two samples. *)
Theorem consume_n_zero :
  exists rs, ring_buffer__consume_n 9 [(demo_ring_env, demo_ring); (demo_ring_env, demo_ring)] 0 =
    Some (3, rs, [[(8, 4)]; [(8, 4); (24, 12)]]).
Proof. eexists. vm_compute. reflexivity. Qed.
