(* ===== verification/Strset.v ===== *)
(** * The string set of libbpf

    src/libbpf/src/strset.c with [libbpf_add_mem] of btf.c: a growing buffer of
    NUL-terminated strings, deduplicated by a hash map whose keys are offsets in the
    buffer.  The hash and equality functions the map calls read the buffer, so they are
    functions of its contents.  Allocation outcomes are arguments. *)
From stdpp Require Import base numbers list gmap.
From S2P Require Import Prelude Hashmap.

(** ** C strings in a byte buffer *)
Fixpoint c_str (l : list Z) : list Z :=
  match l with
  | [] => []
  | c :: l => if c =? 0 then [] else c :: c_str l
  end.

(** The string at [data + off]. *)
Definition str_at (data : list Z) (off : Z) : list Z := c_str (drop (Z.to_nat off) data).

(** [memcpy(data + off, bytes, len)]. *)
Definition memcpy_at (data : list Z) (off : Z) (bytes : list Z) : option (list Z) :=
  if (0 <=? off) && (off + Z.of_nat (length bytes) <=? Z.of_nat (length data))
  then Some (take (Z.to_nat off) data ++ bytes ++ drop (Z.to_nat off + length bytes) data)
  else None.

(** ** [libbpf_add_mem], [libbpf_ensure_mem]

    [None] is [NULL]; otherwise the buffer and its new capacity (the returned pointer is
    [data + cur_cnt * elem_sz]).  [realloc] may fail and fails on overflow. *)
Definition add_mem_cnt (cap_cnt cur_cnt max_cnt add_cnt : Z) : Z :=
  let new_cnt := u64 (cap_cnt + cap_cnt / 4) in
  let new_cnt := if new_cnt <? 16 then 16 else new_cnt in
  let new_cnt := if new_cnt >? max_cnt then max_cnt else new_cnt in
  if new_cnt <? u64 (cur_cnt + add_cnt) then u64 (cur_cnt + add_cnt) else new_cnt.

Definition libbpf_add_mem (realloc : bool) (data : list Z) (cap_cnt elem_sz cur_cnt max_cnt add_cnt : Z)
  : option (list Z * Z) :=
  if u64 (cur_cnt + add_cnt) <=? cap_cnt then Some (data, cap_cnt)
  else if u64 (cur_cnt + add_cnt) >? max_cnt then None
  else
    let new_cnt := add_mem_cnt cap_cnt cur_cnt max_cnt add_cnt in
    if negb (realloc && (new_cnt * elem_sz <? 2 ^ 64)) then None
    else Some (data ++ replicate (Z.to_nat ((new_cnt - cap_cnt) * elem_sz)) 0, new_cnt).

Definition libbpf_ensure_mem (realloc : bool) (data : list Z) (cap_cnt elem_sz need_cnt : Z)
  : Z * list Z * Z :=
  if need_cnt <=? cap_cnt then (0, data, cap_cnt)
  else
    match libbpf_add_mem realloc data cap_cnt elem_sz cap_cnt (2 ^ 64 - 1) (need_cnt - cap_cnt) with
    | None => (- ENOMEM, data, cap_cnt)
    | Some (data, cap_cnt) => (0, data, cap_cnt)
    end.

(** ** The set *)
Record strset := Strset {
  strs_data : list Z;
  strs_data_len : Z;
  strs_data_cap : Z;
  strs_data_max_len : Z;
  strs_hash : hashmap
}.

Definition strset_hash_fn (data : list Z) (key : Z) : Z := str_hash (str_at data key).
Definition strset_equal_fn (data : list Z) (key1 key2 : Z) : bool :=
  bool_decide (str_at data key1 = str_at data key2).

(** The loop of [strset__new] over the initial data; [alloc off] are the outcomes of the
    allocations of the insertion at [off]. *)
Fixpoint new_loop (fuel : nat) (alloc : Z -> bool * bool) (data : list Z) (len : Z) (hash : hashmap) (off : Z)
  : option (Z * hashmap) :=
  match fuel with
  | O => None
  | S fuel =>
    if off <? len then
      '(err, hash, _, _) ← hashmap_insert (strset_hash_fn data) (strset_equal_fn data)
        (alloc off).1 (alloc off).2 hash off off HASHMAP_ADD;
      let next := off + Z.of_nat (length (str_at data off)) + 1 in
      if err =? - EEXIST then new_loop fuel alloc data len hash next
      else if negb (err =? 0) then Some (err, hash)
      else new_loop fuel alloc data len hash next
    else Some (0, hash)
  end.

(** [mem] tells whether the three allocations before the loop succeed.  The result is the
    set or an error. *)
Definition strset__new (mem : bool * bool * bool) (alloc : Z -> bool * bool) (max_data_sz : Z)
    (init_data : option (list Z)) : option (Z + strset) :=
  let '(set_ok, hash_ok, data_ok) := mem in
  if negb set_ok then Some (inl (- ENOMEM))
  else if negb hash_ok then Some (inl (- ENOMEM))
  else
    match init_data with
    | None => Some (inr (Strset [] 0 0 max_data_sz hashmap__init))
    | Some data =>
      let sz := Z.of_nat (length data) in
      if negb data_ok then Some (inl (- ENOMEM))
      else
        '(err, hash) ← new_loop (S (length data)) alloc data sz hashmap__init 0;
        if negb (err =? 0) then Some (inl err)
        else Some (inr (Strset data sz sz max_data_sz hash))
    end.

Definition strset__data_size (set : strset) : Z := strs_data_len set.

Definition strset_add_str_mem (realloc : bool) (set : strset) (add_sz : Z) : option (list Z * Z) :=
  libbpf_add_mem realloc (strs_data set) (strs_data_cap set) 1 (strs_data_len set) (strs_data_max_len set) add_sz.

(** The returned [int] and the set (the lookup leaves the string after the data). *)
Definition strset__find_str (realloc : bool) (set : strset) (s : list Z) : option (Z * strset) :=
  let len := Z.of_nat (length s) + 1 in
  match strset_add_str_mem realloc set len with
  | None => Some (- ENOMEM, set)
  | Some (data, cap) =>
    let new_off := strs_data_len set in
    data ← memcpy_at data new_off (s ++ [0]);
    let set := Strset data (strs_data_len set) cap (strs_data_max_len set) (strs_hash set) in
    found ← hashmap_find (strset_hash_fn data) (strset_equal_fn data) (strs_hash set) new_off;
    match found with
    | Some old_off => Some (s32 old_off, set)
    | None => Some (- ENOENT, set)
    end
  end.

Definition strset__add_str (realloc calloc malloc : bool) (set : strset) (s : list Z) : option (Z * strset) :=
  let len := Z.of_nat (length s) + 1 in
  match strset_add_str_mem realloc set len with
  | None => Some (- ENOMEM, set)
  | Some (data, cap) =>
    let new_off := strs_data_len set in
    data ← memcpy_at data new_off (s ++ [0]);
    '(err, hash, old_off, _) ← hashmap_insert (strset_hash_fn data) (strset_equal_fn data) calloc malloc
       (strs_hash set) new_off new_off HASHMAP_ADD;
    let set := Strset data (strs_data_len set) cap (strs_data_max_len set) hash in
    if err =? - EEXIST then Some (s32 old_off, set)
    else if negb (err =? 0) then Some (err, set)
    else Some (s32 new_off, Strset data (strs_data_len set + len) cap (strs_data_max_len set) hash)
  end.

(** ** Strings *)
Lemma c_str_app l1 l2 : 0 ∈ l1 -> c_str (l1 ++ l2) = c_str l1.
Proof.
  induction l1 as [|c l1 IH]; simpl; [by intros ?%elem_of_nil|]. intros H.
  destruct (Z.eqb_spec c 0); [done|]. f_equal. apply IH. by apply elem_of_cons in H as [|].
Qed.

Lemma c_str_string s rest : Forall (fun c => c <> 0) s -> c_str (s ++ 0 :: rest) = s.
Proof. induction 1 as [|c s Hc Hs IH]; simpl; [done|]. destruct (Z.eqb_spec c 0); [done|]. by rewrite IH. Qed.

(** The bytes up to [len] are whole strings. *)
Definition terminated (data : list Z) (len : Z) : Prop :=
  0 <= len <= Z.of_nat (length data) /\ (0 < len -> data !! Z.to_nat (len - 1) = Some 0).

(** Strings below [len] only depend on the bytes below [len]. *)
Lemma str_at_prefix data data' len off : terminated data len ->
  take (Z.to_nat len) data' = take (Z.to_nat len) data -> 0 <= off < len -> str_at data' off = str_at data off.
Proof.
  intros [Hl Hz] Heq Ho. unfold str_at. assert (forall d, take (Z.to_nat len) d = take (Z.to_nat len) data ->
    c_str (drop (Z.to_nat off) d) = c_str (drop (Z.to_nat off) (take (Z.to_nat len) data))) as H.
  2: { by rewrite (H data'), (H data). }
  intros d Hd. rewrite <- (take_drop (Z.to_nat len) d) at 1. rewrite Hd.
  rewrite drop_app_le by (rewrite length_take; lia). apply c_str_app.
  apply list_elem_of_lookup. exists (Z.to_nat (len - 1) - Z.to_nat off)%nat. rewrite lookup_drop.
  rewrite lookup_take_lt by lia. rewrite <- Hz by lia. f_equal. lia.
Qed.

Lemma str_at_length data len off : terminated data len -> 0 <= off < len ->
  off + Z.of_nat (length (str_at data off)) < len.
Proof.
  intros [Hl Hz] Ho. unfold str_at.
  assert (forall l j, l !! j = Some 0 -> (length (c_str l) <= j)%nat) as H.
  { induction l as [|c l IH]; intros [|j] Hj; simplify_eq/=; try lia.
    destruct (c =? 0); simpl; [lia|]. specialize (IH j Hj). lia. }
  specialize (H (drop (Z.to_nat off) data) (Z.to_nat (len - 1) - Z.to_nat off)%nat).
  rewrite lookup_drop in H. replace (Z.to_nat off + (Z.to_nat (len - 1) - Z.to_nat off))%nat with (Z.to_nat (len - 1)) in H by lia.
  specialize (H (Hz ltac:(lia))). lia.
Qed.

(** ** Memory *)
Lemma memcpy_at_spec data off bytes : 0 <= off -> off + Z.of_nat (length bytes) <= Z.of_nat (length data) ->
  exists data', memcpy_at data off bytes = Some data' /\ length data' = length data /\
    take (Z.to_nat off) data' = take (Z.to_nat off) data /\
    exists rest, drop (Z.to_nat off) data' = bytes ++ rest.
Proof.
  intros H0 H1. unfold memcpy_at. destruct (Z.leb_spec 0 off); [|lia].
  destruct (Z.leb_spec (off + Z.of_nat (length bytes)) (Z.of_nat (length data))); [|lia]. cbn [andb].
  eexists. split; [done|]. split.
  { rewrite !length_app, length_take, length_drop. lia. }
  split; [by rewrite take_app_le, take_take, Nat.min_id by (rewrite length_take; lia)|].
  eexists. rewrite drop_app_ge by (rewrite length_take; lia). rewrite length_take, Nat.min_l, Nat.sub_diag by lia.
  done.
Qed.

Lemma add_mem_spec a data cap esz cur max add data' cap' : 
  0 <= cur <= cap -> 0 <= add -> 0 <= cap -> cap + add < 2 ^ 64 -> 0 < esz ->
  Z.of_nat (length data) = cap * esz ->
  libbpf_add_mem a data cap esz cur max add = Some (data', cap') ->
  (exists z, data' = data ++ replicate z 0) /\ Z.of_nat (length data') = cap' * esz /\
  cur + add <= cap' /\ cap <= cap' /\ (cap' <= Z.max cap max).
Proof.
  intros Hc Ha Hc0 Hsum He Hl. unfold libbpf_add_mem. rewrite (wrap_small 64 (cur + add)) by lia.
  bcase; intros Heq; simplify_eq.
  { split; [exists 0%nat; by rewrite app_nil_r|]. lia. }
  rewrite Z.gtb_ltb in Heq. bcase_in Heq; [done|]. 
  destruct (negb _); [done|]. simplify_eq.
  assert (cur + add <= add_mem_cnt cap cur max add /\ add_mem_cnt cap cur max add <= Z.max cap max) as [H2 H3].
  { unfold add_mem_cnt. rewrite (wrap_small 64 (cur + add)) by lia. rewrite Z.gtb_ltb. repeat bcase; lia. }
  split; [by eexists|]. rewrite length_app, length_replicate, Nat2Z.inj_add, Hl.
  rewrite Z2Nat.id by (apply Z.mul_nonneg_nonneg; lia). lia.
Qed.

(** Why there is no memory. *)
Lemma add_mem_fail a data cap esz cur max add : 0 <= cur <= cap -> 0 <= add -> cap + add < 2 ^ 62 -> cap < 2 ^ 61 -> max < 2 ^ 62 ->
  0 < esz <= 4 -> libbpf_add_mem a data cap esz cur max add = None -> a = false \/ max < cur + add.
Proof.
  intros Hc Ha Hsum Hcap Hmax He. unfold libbpf_add_mem. rewrite (wrap_small 64 (cur + add)) by lia. bcase; [done|].
  rewrite Z.gtb_ltb. bcase; [by right|]. destruct a; [|by left]. cbn [andb].
  assert (0 <= add_mem_cnt cap cur max add < 2 ^ 62) as Hr.
  { unfold add_mem_cnt. rewrite (wrap_small 64 (cur + add)) by lia. rewrite Z.gtb_ltb. repeat bcase; lia. }
  destruct (Z.ltb_spec (add_mem_cnt cap cur max add * esz) (2 ^ 64)); [done|nia].
Qed.

(** ** The set as a client of the hash map *)
#[export] Instance strset_HashKey data : HashKey (strset_hash_fn data) (strset_equal_fn data).
Proof.
  unfold strset_equal_fn, strset_hash_fn. split; intros.
  - by apply bool_decide_true.
  - by apply bool_decide_ext.
  - rewrite bool_decide_eq_true in *. congruence.
  - rewrite bool_decide_eq_true in *. congruence.
Qed.

Record strset_wf (set : strset) : Prop := {
  set_terminated : terminated (strs_data set) (strs_data_len set);
  set_cap : Z.of_nat (length (strs_data set)) = strs_data_cap set;
  set_max : strs_data_cap set < 2 ^ 31 /\ strs_data_max_len set < 2 ^ 31;
  set_map : map_wf (strset_hash_fn (strs_data set)) (strset_equal_fn (strs_data set)) (strs_hash set);
  set_keys : forall e, e ∈ all_entries (strs_hash set) -> value e = key e /\ 0 <= key e < strs_data_len set;
  set_tight : cap_tight (strs_hash set)
}.

(** Distinct keys below [n] are at most [n]. *)
Lemma keys_bound data es n : unique_keys (strset_equal_fn data) es -> (forall e, e ∈ es -> 0 <= key e < n) ->
  Z.of_nat (length es) <= Z.max 0 n.
Proof.
  intros Hu Hr. assert (NoDup (key <$> es)) as Hnd.
  { clear Hr. induction es as [|e es IH]; simpl; [constructor|]. destruct Hu as [Hf Hu]. constructor; [|auto].
    intros (e' & He & Hin)%list_elem_of_fmap. rewrite Forall_forall in Hf. specialize (Hf e' Hin).
    unfold strset_equal_fn in Hf. apply bool_decide_eq_false in Hf. by rewrite He in Hf. }
  assert ((key <$> es) ⊆+ seqZ 0 n) as Hsub.
  { apply NoDup_submseteq; [done|]. intros k (e & -> & Hin)%list_elem_of_fmap. apply elem_of_seqZ. specialize (Hr e Hin). lia. }
  apply submseteq_length in Hsub. rewrite length_fmap, length_seqZ in Hsub. lia.
Qed.

Lemma set_buckets set : strset_wf set -> cap (strs_hash set) < 2 ^ 60.
Proof.
  intros Hw. pose proof (set_tight _ Hw) as Ht. unfold cap_tight in Ht. destruct (set_map _ Hw) as [Hm Hu].
  rewrite (wf_sz _ _ Hm) in Ht.
  pose proof (keys_bound _ _ _ Hu (fun e He => proj2 (set_keys _ Hw e He))). pose proof (set_terminated _ Hw) as [? _].
  pose proof (set_max _ Hw). pose proof (set_cap _ Hw). lia.
Qed.

(** [off] is the offset the set has for [s]. *)
Definition has_str (set : strset) (s : list Z) (off : Z) : Prop :=
  Entry off off ∈ all_entries (strs_hash set) /\ str_at (strs_data set) off = s.

Definition c_string (s : list Z) : Prop := Forall (fun c => c <> 0) s.

(** Offsets handed out stay valid. *)
Definition strings_kept (set set' : strset) : Prop :=
  strs_data_len set <= strs_data_len set' /\
  (forall off, 0 <= off < strs_data_len set -> str_at (strs_data set') off = str_at (strs_data set) off) /\
  (forall s off, has_str set s off -> has_str set' s off).

(** The buffer with the string [s] placed after the data. *)
Lemma stage_spec a set s data cap : strset_wf set -> c_string s -> Z.of_nat (length s) < 2 ^ 31 ->
  strset_add_str_mem a set (Z.of_nat (length s) + 1) = Some (data, cap) ->
  exists data', memcpy_at data (strs_data_len set) (s ++ [0]) = Some data' /\
    Z.of_nat (length data') = cap /\ strs_data_len set + Z.of_nat (length s) + 1 <= cap /\ cap < 2 ^ 31 /\
    terminated data' (strs_data_len set) /\ terminated data' (strs_data_len set + Z.of_nat (length s) + 1) /\
    str_at data' (strs_data_len set) = s /\
    (forall off, 0 <= off < strs_data_len set -> str_at data' off = str_at (strs_data set) off) /\
    map_wf (strset_hash_fn data') (strset_equal_fn data') (strs_hash set).
Proof.
  intros Hw Hs Hlen Hadd. pose proof (set_terminated _ Hw) as Hterm. pose proof (set_cap _ Hw) as Hcap.
  pose proof (set_max _ Hw) as [Hm1 Hm2]. destruct Hterm as [Hl Hz]. 
  apply add_mem_spec in Hadd as ((z & ->) & Hlen' & Hroom & Hcap' & Hmax); try lia.
  destruct (memcpy_at_spec (strs_data set ++ replicate z 0) (strs_data_len set) (s ++ [0]))
    as (data' & -> & Hld & Htake & rest & Hdrop); [lia|rewrite length_app; simpl; lia|].
  rewrite take_app_le in Htake by lia.
  assert (forall off, 0 <= off < strs_data_len set -> str_at data' off = str_at (strs_data set) off) as Hkept.
  { intros off Ho. by apply (str_at_prefix _ _ (strs_data_len set)). }
  assert (forall i, data' !! (Z.to_nat (strs_data_len set) + i)%nat = ((s ++ [0]) ++ rest) !! i) as Hlook.
  { intros i. by rewrite <- Hdrop, lookup_drop. }
  exists data'. split; [done|]. split; [lia|]. split; [lia|]. split; [lia|]. split; [|split; [|split; [|split; [done|]]]].
  - split; [lia|]. intros H0. rewrite <- (lookup_take_lt data' (Z.to_nat (strs_data_len set))) by lia.
    rewrite Htake, lookup_take_lt by lia. auto.
  - split; [lia|]. intros _.
    replace (Z.to_nat (strs_data_len set + Z.of_nat (length s) + 1 - 1)) with (Z.to_nat (strs_data_len set) + length s)%nat by lia.
    rewrite Hlook. rewrite <- app_assoc. by apply list_lookup_middle.
  - unfold str_at. rewrite Hdrop, <- app_assoc. by apply c_str_string.
  - eapply map_wf_ext; [| |exact (set_map _ Hw)]; unfold strset_hash_fn, strset_equal_fn.
    + intros e [_ He]%(set_keys _ Hw). by rewrite Hkept.
    + intros e e' [_ He]%(set_keys _ Hw) [_ He']%(set_keys _ Hw). by rewrite !Hkept.
Qed.

(** The offset of [s] among the keys, seen through the staged copy of [s] at [new_off]. *)
Lemma staged_contents set data s : strset_wf set -> str_at data (strs_data_len set) = s ->
  (forall off, 0 <= off < strs_data_len set -> str_at data off = str_at (strs_data set) off) ->
  map_wf (strset_hash_fn data) (strset_equal_fn data) (strs_hash set) ->
  match contents (strset_equal_fn data) (strs_hash set) (strs_data_len set) with
  | Some e => e = Entry (key e) (key e) /\ has_str set s (key e) /\ 0 <= key e < strs_data_len set
  | None => forall off, ~ has_str set s off
  end.
Proof.
  intros Hw Hs Hk Hm. destruct (contents _ _ _) as [e|] eqn:E.
  - apply contents_in in E as [Hin Heq]. apply bool_decide_eq_true in Heq.
    destruct (set_keys _ Hw e Hin) as [Hv Hr]. destruct e as [k v]; simpl in *. subst v.
    split; [done|]. split; [|done]. split; [done|]. rewrite <- Hk by done. congruence.
  - intros off [Hin Hstr]. destruct (set_keys _ Hw _ Hin) as [_ Hr]. simpl in Hr.
    unfold contents in E. apply assoc_None in E. rewrite Forall_forall in E. specialize (E _ Hin).
    apply bool_decide_eq_false in E. apply E. simpl. rewrite Hk by done. congruence.
Qed.

Lemma stage_fail a set (s : list Z) : strset_wf set -> Z.of_nat (length s) < 2 ^ 31 ->
  strset_add_str_mem a set (Z.of_nat (length s) + 1) = None ->
  a = false \/ strs_data_max_len set < strs_data_len set + Z.of_nat (length s) + 1.
Proof.
  intros Hw Hs H. pose proof (set_max _ Hw). pose proof (set_terminated _ Hw) as [? _]. pose proof (set_cap _ Hw).
  apply add_mem_fail in H; try lia. rewrite Z.add_assoc in H. done.
Qed.

Lemma find_str_spec a set s : strset_wf set -> c_string s -> Z.of_nat (length s) < 2 ^ 31 ->
  exists r set', strset__find_str a set s = Some (r, set') /\ strset_wf set' /\ strings_kept set set' /\
    strs_data_len set' = strs_data_len set /\ strs_data_max_len set' = strs_data_max_len set /\
    (r = - ENOMEM /\ (a = false \/ strs_data_max_len set < strs_data_len set + Z.of_nat (length s) + 1) \/ (r = - ENOENT /\ (forall off, ~ has_str set s off)) \/ has_str set s r).
Proof.
  intros Hw Hs Hlen. unfold strset__find_str.
  assert (strings_kept set set) as Hrefl by (split; [lia|done]).
  destruct (strset_add_str_mem _ _ _) as [[data cap]|] eqn:Hadd.
  2: { exists (- ENOMEM), set. split_and!; auto. left. split; [done|]. by apply stage_fail. }
  destruct (stage_spec a set s data cap Hw Hs Hlen Hadd)
    as (data' & -> & Hcap & Hroom & Hc31 & Ht & _ & Hstr & Hkept & Hmap).
  cbn [mbind option_bind strs_hash strs_data_len]. rewrite (hashmap_find_spec _ _ _ _ Hmap). cbn [mbind option_bind].
  assert (strset_wf (Strset data' (strs_data_len set) cap (strs_data_max_len set) (strs_hash set))) as Hw'.
  { split; cbn [strs_data strs_data_len strs_data_cap strs_data_max_len strs_hash]; auto.
    - split; [lia|apply (set_max _ Hw)].
    - apply (set_keys _ Hw).
    - apply (set_tight _ Hw). }
  assert (strings_kept set (Strset data' (strs_data_len set) cap (strs_data_max_len set) (strs_hash set))) as Hk'.
  { split; [done|]. split; [done|]. intros s' off [Hin Hso]. split; [done|]. simpl. rewrite Hkept; [done|].
    destruct (set_keys _ Hw _ Hin) as [_ ?]. done. }
  pose proof (staged_contents set data' s Hw Hstr Hkept Hmap) as Hc.
  destruct (contents _ _ _) as [e|]; cbn [fmap option_fmap option_map].
  - destruct Hc as (He & Hhas & Hr). do 2 eexists. split; [done|]. do 4 (split; [done|]). right. right.
    rewrite He. cbn [value]. rewrite swrap_small; [done|lia|]. pose proof (set_max _ Hw). pose proof (set_terminated _ Hw) as [? _].
    pose proof (set_cap _ Hw). lia.
  - do 2 eexists. split; [done|]. do 4 (split; [done|]). right. by left.
Qed.

Lemma add_str_spec a c m set s : strset_wf set -> c_string s -> Z.of_nat (length s) < 2 ^ 31 ->
  exists r set', strset__add_str a c m set s = Some (r, set') /\ strset_wf set' /\ strings_kept set set' /\
    strs_data_max_len set' = strs_data_max_len set /\
    (r = - ENOMEM /\ strs_data_len set' = strs_data_len set /\
       (a = false \/ c = false \/ m = false \/ strs_data_max_len set < strs_data_len set + Z.of_nat (length s) + 1) \/
     has_str set s r /\ strs_data_len set' = strs_data_len set \/
     (forall off, ~ has_str set s off) /\ has_str set' s r /\ r = strs_data_len set /\
       strs_data_len set' = strs_data_len set + Z.of_nat (length s) + 1).
Proof.
  intros Hw Hs Hlen. unfold strset__add_str.
  assert (strings_kept set set) as Hrefl by (split; [lia|done]).
  destruct (strset_add_str_mem _ _ _) as [[data cap]|] eqn:Hadd.
  2: { exists (- ENOMEM), set. split_and!; auto. left. split_and!; auto. apply stage_fail in Hadd; tauto. }
  destruct (stage_spec a set s data cap Hw Hs Hlen Hadd)
    as (data' & -> & Hcap & Hroom & Hc31 & Ht & Ht' & Hstr & Hkept & Hmap).
  cbn [mbind option_bind]. pose proof (set_terminated _ Hw) as [Hl0 _]. pose proof (set_max _ Hw) as [_ Hmax].
  pose proof (staged_contents set data' s Hw Hstr Hkept Hmap) as Hc.
  destruct (hashmap_insert_ref _ _ c m (strs_hash set) (strs_data_len set) (strs_data_len set) HASHMAP_ADD Hmap)
    as (err & hash & ok & ov & -> & Hmap' & Hres); [done|]. cbn [mbind option_bind].
  assert (forall len, strs_data_len set <= len -> terminated data' len ->
    (forall e, e ∈ all_entries hash -> value e = key e /\ 0 <= key e < len) ->
    (forall e, e ∈ all_entries (strs_hash set) -> e ∈ all_entries hash) -> cap_tight hash ->
    strset_wf (Strset data' len cap (strs_data_max_len set) hash) /\
    strings_kept set (Strset data' len cap (strs_data_max_len set) hash)) as Hgood.
  { intros len Hle Htl Hkeys Hsub Htight. split; [split; auto|]. split; [done|]. split; [done|].
    intros s' off [Hin Hso]. split; [auto|]. simpl. rewrite Hkept; [done|]. by destruct (set_keys _ Hw _ Hin). }
  assert (forall r, 0 <= r < strs_data_len set \/ r = strs_data_len set -> s32 r = r) as Hs32.
  { intros r Hr. apply swrap_small; lia. }
  destruct (contents _ _ _) as [e|] eqn:He.
  - destruct Hres as (-> & -> & -> & _). destruct Hc as (_ & Hhas & Hr). cbn [Z.eqb]. rewrite Z.eqb_refl, Hs32 by auto.
    destruct (Hgood (strs_data_len set)) as [? ?]; [lia|done|apply (set_keys _ Hw)|done|apply (set_tight _ Hw)|].
    do 2 eexists. split; [done|]. do 3 (split; [done|]). right. by left.
  - destruct Hres as (_ & _ & Htight%(fun H => H (set_tight _ Hw)) & [(-> & Hwhy & Hsame)|(-> & Hupd & _)]); cbn [strs_data_len strs_data_max_len].
    + destruct (Hgood (strs_data_len set)) as [? ?]; [lia|done| | |done|].
      * intros e' Hin%(contents_elem _ _ _ _ Hmap'). rewrite Hsame in Hin. apply contents_in in Hin as [Hin _].
        by apply (set_keys _ Hw).
      * intros e' Hin%(contents_elem _ _ _ _ Hmap). rewrite <- Hsame in Hin. by apply contents_in in Hin as [Hin _].
      * do 2 eexists. split; [reflexivity|]. do 3 (split; [done|]). left. do 2 (split; [done|]).
        pose proof (set_buckets _ Hw). destruct Hwhy as [->|[->|?]]; [tauto|tauto|lia].
    + change (0 =? - EEXIST) with false. change (0 =? 0) with true. cbn [negb]. rewrite Hs32, Z.add_assoc by auto.
      assert (Entry (strs_data_len set) (strs_data_len set) ∈ all_entries hash) as Hnew.
      { specialize (Hupd (strs_data_len set)). rewrite equal_refl in Hupd. by apply contents_in in Hupd as [? _]. }
      destruct (Hgood (strs_data_len set + Z.of_nat (length s) + 1)) as [? ?]; [lia|done| | |done|].
      * intros e' Hin. destruct (updated_elem _ _ _ _ _ _ _ Hmap' Hupd Hin) as [->|Hin']; [simpl; lia|].
        destruct (set_keys _ Hw _ Hin'). lia.
      * intros e' Hin%(contents_elem _ _ _ _ Hmap). specialize (Hupd (key e')). rewrite Hin in Hupd.
        destruct (strset_equal_fn data' _ _) eqn:E; [|by apply contents_in in Hupd as [? _]].
        unfold contents in He, Hin. apply assoc_None in He. apply assoc_Some in Hin as [Hin _].
        rewrite Forall_forall in He. specialize (He _ Hin). rewrite equal_sym in He. congruence.
      * do 2 eexists. split; [done|]. do 3 (split; [done|]). right. right. split; [done|]. split; [|done].
        split; done.
Qed.

(** ** Initial data *)
Lemma new_loop_spec fuel alloc data hash off :
  terminated data (Z.of_nat (length data)) -> Z.of_nat (length data) < 2 ^ 31 ->
  0 <= off <= Z.of_nat (length data) -> Z.of_nat (length data) - off < Z.of_nat fuel ->
  map_wf (strset_hash_fn data) (strset_equal_fn data) hash ->
  (forall e, e ∈ all_entries hash -> value e = key e /\ 0 <= key e < Z.of_nat (length data)) -> cap_tight hash ->
  exists err hash', new_loop fuel alloc data (Z.of_nat (length data)) hash off = Some (err, hash') /\
    (err = - ENOMEM /\ (exists off, (alloc off).1 = false \/ (alloc off).2 = false) \/ err = 0 /\ cap_tight hash' /\
     map_wf (strset_hash_fn data) (strset_equal_fn data) hash' /\
     (forall e, e ∈ all_entries hash' -> value e = key e /\ 0 <= key e < Z.of_nat (length data))).
Proof.
  intros Ht Hmax. revert off hash. induction fuel as [|fuel IH]; intros off hash Hoff Hf Hm Hk Htt; [lia|].
  cbn [new_loop]. destruct (Z.ltb_spec off (Z.of_nat (length data))); [|by eauto 10].
  pose proof (str_at_length data _ off Ht ltac:(lia)) as Hsl.
  destruct (hashmap_insert_ref _ _ (alloc off).1 (alloc off).2 hash off off HASHMAP_ADD Hm)
    as (err & hash1 & ok & ov & -> & Hm1 & Hres); [done|]. cbn [mbind option_bind].
  destruct (contents _ _ _) as [e|] eqn:He.
  - destruct Hres as (-> & -> & _). rewrite Z.eqb_refl. apply IH; auto; lia.
  - destruct Hres as (_ & _ & Htight%(fun H => H Htt) & [(-> & Hwhy & _)|(-> & Hupd & _)]).
    { exists (- ENOMEM), hash1. split; [done|]. left. split; [done|]. exists off.
      assert (cap hash < 2 ^ 60) as Hcap.
      { unfold cap_tight in Htt. destruct Hm as [Hm Hu]. rewrite (wf_sz _ _ Hm) in Htt.
        pose proof (keys_bound _ _ _ Hu (fun e He => proj2 (Hk e He))). lia. }
      destruct Hwhy as [?|[?|?]]; [tauto|tauto|lia]. }
    apply IH; auto; try lia. intros e Hin. destruct (updated_elem _ _ _ _ _ _ _ Hm1 Hupd Hin) as [->|Hin']; [simpl; lia|auto].
Qed.

Lemma new_spec mem alloc max init : max < 2 ^ 31 ->
  (forall data, init = Some data ->
     terminated data (Z.of_nat (length data)) /\ Z.of_nat (length data) < 2 ^ 31) ->
  exists r, strset__new mem alloc max init = Some r /\
    match r with
    | inl err => err = - ENOMEM /\ (mem.1.1 = false \/ mem.1.2 = false \/ mem.2 = false \/ exists off, (alloc off).1 = false \/ (alloc off).2 = false)
    | inr set => strset_wf set /\ strs_data set = default [] init /\
                 strs_data_len set = Z.of_nat (length (default [] init)) /\ strs_data_max_len set = max
    end.
Proof.
  intros Hmax Hinit. unfold strset__new. destruct mem as [[b1 b2] b3].
  destruct b1, b2; cbn [negb]; try (exists (inl (- ENOMEM)); simpl; tauto). destruct init as [data|].
  - destruct (Hinit data eq_refl) as [Ht Hl]. destruct b3; cbn [negb]; [|exists (inl (- ENOMEM)); simpl; tauto].
    assert (map_wf (strset_hash_fn data) (strset_equal_fn data) hashmap__init) as Hm0 by (split; [apply init_wf|done]).
    destruct (new_loop_spec (S (length data)) alloc data hashmap__init 0 Ht Hl ltac:(lia) ltac:(lia) Hm0)
      as (err & hash & -> & Hr); [by intros e ?%elem_of_nil|done|]. cbn [mbind option_bind].
    destruct Hr as [[-> Hwhy]|(-> & Htt & Hm & Hk)]; [exists (inl (- ENOMEM)); simpl; tauto|]. change (0 =? 0) with true. cbn [negb].
    eexists. split; [done|]. split; [|done]. split; auto.
  - eexists. split; [done|]. split; [|done]. split; cbn [strs_data strs_data_len strs_hash strs_data_cap strs_data_max_len].
    + split; [done|lia].
    + done.
    + lia.
    + split; [apply init_wf|done].
    + by intros e ?%elem_of_nil.
    + done.
Qed.

(** ** Properties *)

(** C32. Adding a string of less than 2^31 bytes to a well-formed set: the call never leaves the buffer; unless it fails with -ENOMEM it
    returns the offset of a copy of the string, the existing one when the string is already
    in the set (nothing is then added) and otherwise the end of the data, which grows by
    the string and its terminator; every offset handed out before still denotes the same
    string.  The offset of the first string of an empty set is 0, and so is the one of that
    string when it is added again, although the comment of the function promises an offset above
    0 ([first_string_offset_zero]).  It fails only when an allocation fails or the data would exceed its maximum. *)
Theorem strset_add_str_correct a c m set s : strset_wf set -> c_string s -> Z.of_nat (length s) < 2 ^ 31 ->
  exists r set', strset__add_str a c m set s = Some (r, set') /\ strset_wf set' /\ strings_kept set set' /\
    strs_data_max_len set' = strs_data_max_len set /\
    (r = - ENOMEM /\ strs_data_len set' = strs_data_len set /\
       (a = false \/ c = false \/ m = false \/ strs_data_max_len set < strs_data_len set + Z.of_nat (length s) + 1) \/
     has_str set s r /\ strs_data_len set' = strs_data_len set \/
     (forall off, ~ has_str set s off) /\ has_str set' s r /\ r = strs_data_len set /\
       strs_data_len set' = strs_data_len set + Z.of_nat (length s) + 1).
Proof. apply add_str_spec. Qed.

Lemma has_str_fun set s off off' : strset_wf set -> has_str set s off -> has_str set s off' -> off' = off.
Proof.
  intros Hw [H1 E1] [H2 E2]. apply (contents_elem _ _ _ _ (set_map _ Hw)) in H1, H2. simpl in *.
  unfold contents in *. revert H1 H2. generalize (all_entries (strs_hash set)). intros es.
  induction es as [|e es IH]; simpl; [done|]. unfold strset_equal_fn. rewrite E1, E2.
  destruct (bool_decide (str_at (strs_data set) (key e) = s)); [congruence|]. intros. by apply IH.
Qed.

(** Round trip: once a string has been added, adding or looking it up again returns the
    same offset, or -ENOMEM when the buffer cannot be extended to stage it. *)
Theorem strset_add_find_roundtrip a c m a' a'' c' m' set s r set' :
  strset_wf set -> c_string s -> Z.of_nat (length s) < 2 ^ 31 ->
  strset__add_str a c m set s = Some (r, set') -> 0 <= r ->
  exists r1 set1 r2 set2, strset__find_str a' set' s = Some (r1, set1) /\ (r1 = r \/ r1 = - ENOMEM) /\
    strset__add_str a'' c' m' set' s = Some (r2, set2) /\ (r2 = r \/ r2 = - ENOMEM) /\
    strs_data_len set2 = strs_data_len set' /\ str_at (strs_data set1) r = s /\ str_at (strs_data set2) r = s.
Proof.
  intros Hw Hs Hl Hadd Hr. destruct (add_str_spec a c m set s Hw Hs Hl) as (r0 & set0 & Hadd' & Hw' & Hk & Hor).
  rewrite Hadd in Hadd'. simplify_eq.
  assert (has_str set0 s r0) as Hhas.
  { destruct Hor as (_ & [[-> _]|[[Hh _]|(_ & Hh & _)]]); [by compute in Hr|by apply Hk|done]. }
  destruct (find_str_spec a' set0 s Hw' Hs Hl) as (r1 & set1 & Hf & Hw1 & Hk1 & _ & _ & Hor1).
  destruct (add_str_spec a'' c' m' set0 s Hw' Hs Hl) as (r2 & set2 & Ha2 & Hw2 & Hk2 & _ & Hor2).
  exists r1, set1, r2, set2. split; [done|]. split.
  { destruct Hor1 as [[-> _]|[[_ Hno]|Hh]]; [by right|by destruct (Hno r0)|left].
    by apply (has_str_fun set0 s). }
  split; [done|]. assert ((r2 = r0 \/ r2 = - ENOMEM) /\ strs_data_len set2 = strs_data_len set0) as [? ?].
  { destruct Hor2 as [(-> & ? & _)|[[Hh ?]|(Hno & _)]]; [by split; [right|]| |by destruct (Hno r0)].
    split; [left; by apply (has_str_fun set0 s)|done]. }
  split; [done|]. split; [done|]. split; [by apply Hk1 in Hhas as [_ ?]|by apply Hk2 in Hhas as [_ ?]].
Qed.

(** Building a set from existing string data: for data that ends with a terminator the
    scan stays inside it and terminates, and the result is a well-formed set over exactly
    that data; the only error is -ENOMEM, after a failed allocation. *)
Theorem strset_new_correct mem alloc max init : max < 2 ^ 31 ->
  (forall data, init = Some data ->
     terminated data (Z.of_nat (length data)) /\ Z.of_nat (length data) < 2 ^ 31) ->
  exists r, strset__new mem alloc max init = Some r /\
    match r with
    | inl err => err = - ENOMEM /\ (mem.1.1 = false \/ mem.1.2 = false \/ mem.2 = false \/ exists off, (alloc off).1 = false \/ (alloc off).2 = false)
    | inr set => strset_wf set /\ strs_data set = default [] init /\
                 strs_data_len set = Z.of_nat (length (default [] init)) /\ strs_data_max_len set = max
    end.
Proof. apply new_spec. Qed.

(** ** Witnesses *)
Definition demo_set : strset := Strset [] 0 0 (2 ^ 20) hashmap__init.

Lemma demo_set_wf : strset_wf demo_set.
Proof.
  split; simpl; try lia.
  - split; simpl; lia.
  - split; [apply init_wf|done].
  - by intros e ?%elem_of_nil.
  - unfold cap_tight. simpl. lia.
Qed.

Lemma demo_string : c_string [105; 110; 116].
Proof. repeat constructor; lia. Qed.

Lemma strset_add_str_correct_witness :
  exists r set', strset__add_str true true true demo_set [105; 110; 116] = Some (r, set') /\ strset_wf set'.
Proof.
  destruct (strset_add_str_correct true true true demo_set [105; 110; 116]) as (r & set' & H & Hw & _);
    [exact demo_set_wf|exact demo_string|simpl; lia|]. eauto.
Defined.

Lemma strset_add_find_roundtrip_witness :
  exists r1 set1 set', strset__add_str true true true demo_set [105; 110; 116] = Some (0, set') /\
    strset__find_str true set' [105; 110; 116] = Some (r1, set1) /\ (r1 = 0 \/ r1 = - ENOMEM).
Proof.
  destruct (strset_add_find_roundtrip true true true true true true true demo_set [105; 110; 116] 0
    (match strset__add_str true true true demo_set [105; 110; 116] with Some (_, s) => s | None => demo_set end))
    as (r1 & set1 & r2 & set2 & H & Hr & _).
  - exact demo_set_wf.
  - exact demo_string.
  - simpl; lia.
  - vm_compute. reflexivity.
  - lia.
  - exists r1, set1. eexists. split; [|exact (conj H Hr)]. vm_compute. reflexivity.
Defined.

Lemma strset_new_correct_witness :
  exists r, strset__new (true, true, true) (fun _ => (true, true)) (2 ^ 20) (Some [0; 97; 0]) = Some r.
Proof.
  destruct (strset_new_correct (true, true, true) (fun _ => (true, true)) (2 ^ 20) (Some [0; 97; 0])) as (r & H & _).
  - lia.
  - intros data [= <-]. split; [|simpl; lia]. split; [simpl; lia|done].
  - eauto.
Defined.

(** The comments of [strset__add_str] and [strset__find_str] promise an offset above 0 on success.
    The first string of an empty set gets offset 0, and is found there; so does the empty string
    in a set that was made from data starting with a terminator. *)
Theorem first_string_offset_zero :
  (exists set, strset__add_str true true true demo_set [105; 110; 116] = Some (0, set) /\
     exists set', strset__add_str true true true set [105; 110; 116] = Some (0, set')) /\
  (exists set set', strset__new (true, true, true) (fun _ => (true, true)) (2 ^ 20) (Some [0; 97; 0]) = Some (inr set) /\
     strset__add_str true true true set [] = Some (0, set')).
Proof.
  split.
  - eexists. split; [vm_compute; reflexivity|]. eexists. vm_compute. reflexivity.
  - eexists _, _. split; [vm_compute; reflexivity|]. vm_compute. reflexivity.
Qed.
