(* ===== verification/Btf.v ===== *)
(** * BTF: the type information libbpf works on

    src/libbpf/src/btf.c and btf.h (with [skip_mods_and_typedefs] of libbpf.c).  All type
    data is made of 32-bit words: a [struct btf_type *] is the list of words from the
    type's first one on, so an access past the data is a failed lookup.  A BTF object with
    its base objects is the list of their layers, the object itself first.

    [None] is a run the code must not have: an out-of-bounds access, a NULL dereference
    or, where a loop has no bound of its own, fuel exhausted. *)
From stdpp Require Import base numbers list gmap.
From S2P Require Import Prelude Hashmap Strset.

Definition BTF_KIND_UNKN := 0.
Definition BTF_KIND_INT := 1.
Definition BTF_KIND_PTR := 2.
Definition BTF_KIND_ARRAY := 3.
Definition BTF_KIND_STRUCT := 4.
Definition BTF_KIND_UNION := 5.
Definition BTF_KIND_ENUM := 6.
Definition BTF_KIND_FWD := 7.
Definition BTF_KIND_TYPEDEF := 8.
Definition BTF_KIND_VOLATILE := 9.
Definition BTF_KIND_CONST := 10.
Definition BTF_KIND_RESTRICT := 11.
Definition BTF_KIND_FUNC := 12.
Definition BTF_KIND_FUNC_PROTO := 13.
Definition BTF_KIND_VAR := 14.
Definition BTF_KIND_DATASEC := 15.
Definition BTF_KIND_FLOAT := 16.
Definition BTF_KIND_DECL_TAG := 17.
Definition BTF_KIND_TYPE_TAG := 18.
Definition BTF_KIND_ENUM64 := 19.
Definition BTF_INT_SIGNED := 1.
Definition BTF_MAGIC := 0xeb9f.
Definition BTF_MAX_STR_OFFSET := 0x7fffffff.
Definition BTF_MAX_NR_TYPES := 0x7fffffff.
Definition UINT32_MAX := 2 ^ 32 - 1.
Definition ENOTSUP := 95.

(** ** Types *)
Definition btf_type := list Z.
Definition btf_void : btf_type := [0; 0; 0].

Definition word (t : btf_type) (i : Z) : option Z := zget t i.
Definition name_off (t : btf_type) : option Z := word t 0.
Definition info (t : btf_type) : option Z := word t 1.
(** The union of [size] and [type]. *)
Definition size (t : btf_type) : option Z := word t 2.
Definition type (t : btf_type) : option Z := word t 2.

Definition btf_kind (t : btf_type) : option Z := i ← info t; Some ((i >>' 24) &' 0x1f).
Definition btf_vlen (t : btf_type) : option Z := i ← info t; Some (i &' 0xffff).
Definition btf_kflag (t : btf_type) : option bool := i ← info t; Some (negb (i >>' 31 =? 0)).

(** The predicates on kinds, given the kind. *)
Definition kind_is_mod (k : Z) : bool :=
  (k =? BTF_KIND_VOLATILE) || (k =? BTF_KIND_CONST) || (k =? BTF_KIND_RESTRICT) || (k =? BTF_KIND_TYPE_TAG).
Definition kind_is_any_enum (k : Z) : bool := (k =? BTF_KIND_ENUM) || (k =? BTF_KIND_ENUM64).
Definition kind_is_composite (k : Z) : bool := (k =? BTF_KIND_STRUCT) || (k =? BTF_KIND_UNION).
Definition kind_core_compat (k1 k2 : Z) : bool :=
  (k1 =? k2) || (kind_is_any_enum k1 && kind_is_any_enum k2).
Definition btf_kind_core_compat (t1 t2 : btf_type) : option bool :=
  k1 ← btf_kind t1; k2 ← btf_kind t2; Some (kind_core_compat k1 k2).

Definition btf_int_encoding (t : btf_type) : option Z := w ← word t 3; Some ((w &' 0x0f000000) >>' 24).
Definition btf_int_offset (t : btf_type) : option Z := w ← word t 3; Some ((w &' 0x00ff0000) >>' 16).
Definition btf_int_bits (t : btf_type) : option Z := w ← word t 3; Some (w &' 0xff).

Record btf_array := BtfArray { arr_type : Z; arr_index_type : Z; arr_nelems : Z }.
Definition array_of (t : btf_type) : option btf_array :=
  a ← word t 3; i ← word t 4; n ← word t 5; Some (BtfArray a i n).

(** The [i]-th element behind the type: a member, an enumerator, a parameter.  Indices are
    those of the C pointer arithmetic, so they may be negative. *)
Record btf_member := BtfMember { m_name_off : Z; m_type : Z; m_offset : Z }.
Definition btf_member_at (t : btf_type) (i : Z) : option btf_member :=
  n ← word t (3 + 3 * i); ty ← word t (3 + 3 * i + 1); o ← word t (3 + 3 * i + 2); Some (BtfMember n ty o).
Definition btf_member_bit_offset (t : btf_type) (i : Z) : option Z :=
  m ← btf_member_at t i; f ← btf_kflag t;
  Some (if f : bool then m_offset m &' 0xffffff else m_offset m).
Definition btf_member_bitfield_size (t : btf_type) (i : Z) : option Z :=
  m ← btf_member_at t i; f ← btf_kflag t;
  Some (if f : bool then m_offset m >>' 24 else 0).

(** [btf_enum] values are signed 32-bit; both enumerator forms start with their name. *)
Definition btf_enum_at (t : btf_type) (i : Z) : option (Z * Z) :=
  n ← word t (3 + 2 * i); v ← word t (3 + 2 * i + 1); Some (n, s32 v).
Definition btf_enum64_at (t : btf_type) (i : Z) : option (Z * Z) :=
  n ← word t (3 + 3 * i); lo ← word t (3 + 3 * i + 1); hi ← word t (3 + 3 * i + 2);
  Some (n, (hi <<' 32) |' lo).
Definition btf_param_at (t : btf_type) (i : Z) : option (Z * Z) :=
  n ← word t (3 + 2 * i); ty ← word t (3 + 2 * i + 1); Some (n, ty).
Definition btf_var_secinfo_at (t : btf_type) (i : Z) : option Z := word t (3 + 3 * i).

(** Size in bytes of a type with its elements, a negative error for an unknown kind. *)
Definition type_size_of (k vlen : Z) : Z :=
  let base_size := 12 in
  if (k =? BTF_KIND_FWD) || (k =? BTF_KIND_CONST) || (k =? BTF_KIND_VOLATILE) ||
     (k =? BTF_KIND_RESTRICT) || (k =? BTF_KIND_PTR) || (k =? BTF_KIND_TYPEDEF) ||
     (k =? BTF_KIND_FUNC) || (k =? BTF_KIND_FLOAT) || (k =? BTF_KIND_TYPE_TAG) then base_size
  else if k =? BTF_KIND_INT then base_size + 4
  else if k =? BTF_KIND_ENUM then base_size + vlen * 8
  else if k =? BTF_KIND_ENUM64 then base_size + vlen * 12
  else if k =? BTF_KIND_ARRAY then base_size + 12
  else if (k =? BTF_KIND_STRUCT) || (k =? BTF_KIND_UNION) then base_size + vlen * 12
  else if k =? BTF_KIND_FUNC_PROTO then base_size + vlen * 8
  else if k =? BTF_KIND_VAR then base_size + 4
  else if k =? BTF_KIND_DATASEC then base_size + vlen * 12
  else if k =? BTF_KIND_DECL_TAG then base_size + 4
  else - EINVAL.

Definition btf_type_size (t : btf_type) : option Z :=
  k ← btf_kind t; vlen ← btf_vlen t; Some (type_size_of k vlen).

(** ** Byte swapping *)
Definition bswap_32 (x : Z) : Z :=
  ((x &' 0xff) <<' 24) |' ((x &' 0xff00) <<' 8) |' ((x >>' 8) &' 0xff00) |' (x >>' 24).

(** Swapping [n] words in place; [None] when one of them is behind the data. *)
Definition swap_words (n : Z) (l : list Z) : option (list Z) :=
  if n <=? Z.of_nat (length l) then Some (map bswap_32 (take (Z.to_nat n) l) ++ drop (Z.to_nat n) l) else None.
Definition btf_bswap_type_base (t : btf_type) : option btf_type := swap_words 3 t.

(** The number of words behind the (already native) base that are swapped; [None] for an
    unknown kind. *)
Definition rest_words (k vlen : Z) : option Z :=
  if (k =? BTF_KIND_FWD) || (k =? BTF_KIND_CONST) || (k =? BTF_KIND_VOLATILE) ||
     (k =? BTF_KIND_RESTRICT) || (k =? BTF_KIND_PTR) || (k =? BTF_KIND_TYPEDEF) ||
     (k =? BTF_KIND_FUNC) || (k =? BTF_KIND_FLOAT) || (k =? BTF_KIND_TYPE_TAG) then Some 0
  else if k =? BTF_KIND_INT then Some 1
  else if k =? BTF_KIND_ENUM then Some (2 * vlen)
  else if k =? BTF_KIND_ENUM64 then Some (3 * vlen)
  else if k =? BTF_KIND_ARRAY then Some 3
  else if (k =? BTF_KIND_STRUCT) || (k =? BTF_KIND_UNION) then Some (3 * vlen)
  else if k =? BTF_KIND_FUNC_PROTO then Some (2 * vlen)
  else if k =? BTF_KIND_VAR then Some 1
  else if k =? BTF_KIND_DATASEC then Some (3 * vlen)
  else if k =? BTF_KIND_DECL_TAG then Some 1
  else None.

Definition btf_bswap_type_rest (t : btf_type) : option (Z * btf_type) :=
  k ← btf_kind t; vlen ← btf_vlen t;
  match rest_words k vlen with
  | Some n => rest ← swap_words n (drop 3 t); Some (0, take 3 t ++ rest)
  | None => Some (- EINVAL, t)
  end.

(** ** The header *)
Record btf_header := BtfHeader {
  magic : Z; hdr_len : Z; type_off : Z; type_len : Z; str_off : Z; str_len : Z
}.
Definition bswap_16 (x : Z) : Z := ((x &' 0xff) <<' 8) |' (x >>' 8).
Definition btf_bswap_hdr (h : btf_header) : btf_header :=
  BtfHeader (bswap_16 (magic h)) (bswap_32 (hdr_len h)) (bswap_32 (type_off h)) (bswap_32 (type_len h))
    (bswap_32 (str_off h)) (bswap_32 (str_len h)).

(** The error, whether the data is byte-swapped, and the native header. *)
Definition btf_parse_hdr (raw_size : Z) (h : btf_header) : Z * bool * btf_header :=
  let check swapped h :=
    if raw_size <? hdr_len h then (- EINVAL, swapped, h)
    else
      let meta_left := raw_size - hdr_len h in
      if meta_left <? str_off h + str_len h then (- EINVAL, swapped, h)
      else if type_off h + type_len h >? str_off h then (- EINVAL, swapped, h)
      else if negb (type_off h mod 4 =? 0) then (- EINVAL, swapped, h)
      else (0, swapped, h) in
  if raw_size <? 24 then (- EINVAL, false, h)
  else if magic h =? bswap_16 BTF_MAGIC then
    if negb (bswap_32 (hdr_len h) =? 24) then (- ENOTSUP, true, h)
    else check true (btf_bswap_hdr h)
  else if negb (magic h =? BTF_MAGIC) then (- EINVAL, false, h)
  else check false h.

(** [base]: whether there is a base BTF; [strs] the string section and what follows it. *)
Definition btf_parse_str_sec (base : bool) (h : btf_header) (strs : list Z) : option Z :=
  if base && (str_len h =? 0) then Some 0
  else if str_len h =? 0 then Some (- EINVAL)
  else if str_len h - 1 >? BTF_MAX_STR_OFFSET then Some (- EINVAL)
  else
    last ← zget strs (str_len h - 1);
    if negb (last =? 0) then Some (- EINVAL)
    else
      first ← zget strs 0;
      if negb base && negb (first =? 0) then Some (- EINVAL) else Some 0.

(** ** The type section

    Offsets are in bytes, the data in words.  [alloc] tells whether the [i]-th index entry
    can be allocated.  The result is the error, the data (swapped in place when needed)
    and the index. *)
Fixpoint parse_type_loop (fuel : nat) (alloc : nat -> bool) (swapped : bool) (data : list Z) (end_type next : Z)
    (offs : list Z) : option (Z * list Z * list Z) :=
  match fuel with
  | O => None
  | S fuel =>
    if next + 12 <=? end_type then
      let pre := take (Z.to_nat (next / 4)) data in
      let t := drop (Z.to_nat (next / 4)) data in
      t ← (if swapped then btf_bswap_type_base t else Some t);
      type_size ← btf_type_size t;
      if type_size <? 0 then Some (type_size, pre ++ t, offs)
      else if next + type_size >? end_type then Some (- EINVAL, pre ++ t, offs)
      else
        '(err, t) ← (if swapped then btf_bswap_type_rest t else Some (0, t));
        if negb (err =? 0) then Some (- EINVAL, pre ++ t, offs)
        else if negb (alloc (length offs)) then Some (- ENOMEM, pre ++ t, offs)
        else parse_type_loop fuel alloc swapped (pre ++ t) end_type (next + type_size) (offs ++ [next])
    else if negb (next =? end_type) then Some (- EINVAL, data, offs)
    else Some (0, data, offs)
  end.

Definition btf_parse_type_sec (alloc : nat -> bool) (swapped : bool) (data : list Z) (type_len : Z)
  : option (Z * list Z * list Z) :=
  parse_type_loop (S (Z.to_nat (type_len / 12))) alloc swapped data type_len 0 [].

(** ** BTF objects *)
Record btf_layer := BtfLayer {
  types_data : list Z;
  type_offs : list Z;
  nr_types : Z;
  start_id : Z;
  start_str_off : Z;
  strs : list Z;
  strs_len : Z;
  ptr_sz : Z
}.
Definition btf := list btf_layer.

Definition btf__type_cnt (b : btf) : option Z := l ← head b; Some (u32 (start_id l + nr_types l)).

Fixpoint btf_type_by_id (b : btf) (type_id : Z) : option btf_type :=
  match b with
  | [] => None
  | l :: base =>
    if type_id =? 0 then Some btf_void
    else if type_id <? start_id l then btf_type_by_id base type_id
    else
      off ← zget (type_offs l) (type_id - start_id l);
      Some (drop (Z.to_nat (off / 4)) (types_data l))
  end.

(** [Some None] is NULL. *)
Definition btf__type_by_id (b : btf) (type_id : Z) : option (option btf_type) :=
  n ← btf__type_cnt b;
  if type_id >=? n then Some None else t ← btf_type_by_id b type_id; Some (Some t).

(** [NULL] or the string, its bytes before the terminator. *)
Fixpoint btf__str_by_offset (b : btf) (offset : Z) : option (option (list Z)) :=
  match b with
  | [] => None
  | l :: base =>
    if offset <? start_str_off l then btf__str_by_offset base offset
    else if offset - start_str_off l <? strs_len l then Some (Some (str_at (strs l) (offset - start_str_off l)))
    else Some None
  end.
Definition btf__name_by_offset := btf__str_by_offset.

(** ** Validation *)
Definition btf_validate_str (b : btf) (str_off : Z) : option Z :=
  s ← btf__str_by_offset b str_off;
  Some (match s with None => - EINVAL | Some _ => 0 end).
Definition btf_validate_id (b : btf) (id : Z) : option Z :=
  t ← btf__type_by_id b id;
  Some (match t with None => - EINVAL | Some _ => 0 end).

(** The C loops [for (i = 0; i < n; i++) { err = check i; if (err) return err; }]. *)
Fixpoint check_each (n : nat) (i : Z) (check : Z -> option Z) : option Z :=
  match n with
  | O => Some 0
  | S n => err ← check i; if negb (err =? 0) then Some err else check_each n (i + 1) check
  end.

(** [err = a; err = err ?: b]. *)
Definition err_or (a : option Z) (b : option Z) : option Z :=
  err ← a; if negb (err =? 0) then Some err else b.

Definition btf_validate_type (b : btf) (t : btf_type) : option Z :=
  kind ← btf_kind t;
  no ← name_off t;
  err ← btf_validate_str b no;
  if negb (err =? 0) then Some err
  else if (kind =? BTF_KIND_UNKN) || (kind =? BTF_KIND_INT) || (kind =? BTF_KIND_FWD) || (kind =? BTF_KIND_FLOAT)
  then Some 0
  else if (kind =? BTF_KIND_PTR) || (kind =? BTF_KIND_TYPEDEF) || (kind =? BTF_KIND_VOLATILE) ||
          (kind =? BTF_KIND_CONST) || (kind =? BTF_KIND_RESTRICT) || (kind =? BTF_KIND_VAR) ||
          (kind =? BTF_KIND_DECL_TAG) || (kind =? BTF_KIND_TYPE_TAG)
  then ty ← type t; btf_validate_id b ty
  else if kind =? BTF_KIND_ARRAY then
    a ← array_of t;
    err_or (btf_validate_id b (arr_type a)) (btf_validate_id b (arr_index_type a))
  else if kind_is_composite kind then
    n ← btf_vlen t;
    check_each (Z.to_nat n) 0 (fun i =>
      m ← btf_member_at t i; err_or (btf_validate_str b (m_name_off m)) (btf_validate_id b (m_type m)))
  else if kind =? BTF_KIND_ENUM then
    n ← btf_vlen t; check_each (Z.to_nat n) 0 (fun i => m ← btf_enum_at t i; btf_validate_str b m.1)
  else if kind =? BTF_KIND_ENUM64 then
    n ← btf_vlen t; check_each (Z.to_nat n) 0 (fun i => m ← btf_enum64_at t i; btf_validate_str b m.1)
  else if kind =? BTF_KIND_FUNC then
    ty ← type t;
    err ← btf_validate_id b ty;
    if negb (err =? 0) then Some err
    else
      ft ← btf__type_by_id b ty;
      ft ← ft;
      k ← btf_kind ft;
      if negb (k =? BTF_KIND_FUNC_PROTO) then Some (- EINVAL) else Some 0
  else if kind =? BTF_KIND_FUNC_PROTO then
    n ← btf_vlen t;
    check_each (Z.to_nat n) 0 (fun i =>
      m ← btf_param_at t i; err_or (btf_validate_str b m.1) (btf_validate_id b m.2))
  else if kind =? BTF_KIND_DATASEC then
    n ← btf_vlen t; check_each (Z.to_nat n) 0 (fun i => m ← btf_var_secinfo_at t i; btf_validate_id b m)
  else Some (- EINVAL).

Definition btf_sanity_check (b : btf) : option Z :=
  n ← btf__type_cnt b;
  l ← head b;
  check_each (Z.to_nat (n - start_id l)) (start_id l) (fun i => t ← btf_type_by_id b i; btf_validate_type b t).

(** ** Resolution *)
Definition MAX_RESOLVE_DEPTH := 32.

(** [btf_ptr_sz] with the size already determined ([ptr_sz] is -1 when unknown). *)
Definition btf_ptr_sz (b : btf) : option Z :=
  l ← head b; Some (if ptr_sz l <? 0 then 8 else ptr_sz l).

Definition btf_type_is_void (t : btf_type) : option bool :=
  k ← btf_kind t; Some (bool_decide (t = btf_void) || (k =? BTF_KIND_FWD)).

(** The end of [btf__resolve_size], from the label [done]. *)
Definition resolve_done (nelems size : Z) : Z :=
  if size <? 0 then - EINVAL
  else if negb (nelems =? 0) && (size >? UINT32_MAX / nelems) then - E2BIG
  else nelems * size.

Fixpoint resolve_size_loop (n : nat) (b : btf) (ot : option btf_type) (nelems : Z) : option Z :=
  match n with
  | O => Some (resolve_done nelems (-1))
  | S n =>
    match ot with
    | None => Some (resolve_done nelems (-1))
    | Some t =>
      v ← btf_type_is_void t;
      if v : bool then Some (resolve_done nelems (-1))
      else
        k ← btf_kind t;
        if (k =? BTF_KIND_INT) || (k =? BTF_KIND_STRUCT) || (k =? BTF_KIND_UNION) || (k =? BTF_KIND_ENUM) ||
           (k =? BTF_KIND_ENUM64) || (k =? BTF_KIND_DATASEC) || (k =? BTF_KIND_FLOAT)
        then sz ← size t; Some (resolve_done nelems sz)
        else if k =? BTF_KIND_PTR then sz ← btf_ptr_sz b; Some (resolve_done nelems sz)
        else if (k =? BTF_KIND_TYPEDEF) || kind_is_mod k || (k =? BTF_KIND_VAR) || (k =? BTF_KIND_DECL_TAG)
        then ty ← type t; t ← btf__type_by_id b ty; resolve_size_loop n b t nelems
        else if k =? BTF_KIND_ARRAY then
          a ← array_of t;
          if negb (nelems =? 0) && (arr_nelems a >? UINT32_MAX / nelems) then Some (- E2BIG)
          else t ← btf__type_by_id b (arr_type a); resolve_size_loop n b t (u32 (nelems * arr_nelems a))
        else Some (- EINVAL)
    end
  end.

Definition btf__resolve_size (b : btf) (type_id : Z) : option Z :=
  t ← btf__type_by_id b type_id;
  resolve_size_loop (Z.to_nat MAX_RESOLVE_DEPTH) b t 1.

Fixpoint resolve_type_loop (n : nat) (b : btf) (type_id : Z) (ot : option btf_type) : option Z :=
  match ot with
  | None => Some (- EINVAL)
  | Some t =>
    v ← btf_type_is_void t;
    k ← btf_kind t;
    match n with
    | O => Some (- EINVAL)
    | S n =>
      if v : bool then Some (- EINVAL)
      else if kind_is_mod k || (k =? BTF_KIND_TYPEDEF) || (k =? BTF_KIND_VAR)
      then ty ← type t; t ← btf__type_by_id b ty; resolve_type_loop n b ty t
      else Some type_id
    end
  end.

Definition btf__resolve_type (b : btf) (type_id : Z) : option Z :=
  t ← btf__type_by_id b type_id;
  resolve_type_loop (Z.to_nat MAX_RESOLVE_DEPTH) b type_id t.

(** The type behind modifiers and typedefs with its id.  The C loop has no bound; the fuel
    is the number of types. *)
Fixpoint skip_loop (n : nat) (b : btf) (id : Z) : option (btf_type * Z) :=
  match n with
  | O => None
  | S n =>
    t ← btf__type_by_id b id;
    t ← t;
    k ← btf_kind t;
    if kind_is_mod k || (k =? BTF_KIND_TYPEDEF) then ty ← type t; skip_loop n b ty
    else Some (t, id)
  end.
Definition skip_mods_and_typedefs (b : btf) (id : Z) : option (btf_type * Z) :=
  n ← btf__type_cnt b; skip_loop (S (Z.to_nat n)) b id.

(** ** Lookup by name *)
Definition str_void : list Z := [118; 111; 105; 100].

Fixpoint find_name_loop (n : nat) (b : btf) (kind : option Z) (type_name : list Z) (i : Z) : option Z :=
  match n with
  | O => Some (- ENOENT)
  | S n =>
    t ← btf__type_by_id b i;
    t ← t;
    k ← btf_kind t;
    if bool_decide (kind = None \/ kind = Some k) then
      no ← name_off t;
      name ← btf__name_by_offset b no;
      if bool_decide (name = Some type_name) then Some i
      else find_name_loop n b kind type_name (i + 1)
    else find_name_loop n b kind type_name (i + 1)
  end.

Definition btf__find_by_name (b : btf) (type_name : list Z) : option Z :=
  n ← btf__type_cnt b;
  if bool_decide (type_name = str_void) then Some 0
  else find_name_loop (Z.to_nat (n - 1)) b None type_name 1.

Definition btf_find_by_name_kind (b : btf) (start_id : Z) (type_name : list Z) (kind : Z) : option Z :=
  n ← btf__type_cnt b;
  if (kind =? BTF_KIND_UNKN) || bool_decide (type_name = str_void) then Some 0
  else find_name_loop (Z.to_nat (n - start_id)) b (Some kind) type_name start_id.

(** ** Byte swapping is an involution *)
Definition word_ok (x : Z) : Prop := 0 <= x < 2 ^ 32.

Lemma land_shifted x m n : 0 <= n -> x &' (m <<' n) = ((x >>' n) &' m) <<' n.
Proof.
  intros Hn. apply Z.bits_inj'. intros i Hi. rewrite Z.land_spec.
  destruct (decide (i < n)); [by rewrite !Z.shiftl_spec_low, andb_false_r by lia|].
  rewrite !Z.shiftl_spec, Z.land_spec, Z.shiftr_spec by lia. by rewrite Z.sub_add.
Qed.

Lemma bswap_32_bytes b0 b1 b2 b3 : 0 <= b0 < 256 -> 0 <= b1 < 256 -> 0 <= b2 < 256 -> 0 <= b3 < 256 ->
  bswap_32 (b0 + 256 * b1 + 65536 * b2 + 16777216 * b3) = b3 + 256 * b2 + 65536 * b1 + 16777216 * b0.
Proof.
  intros H0 H1 H2 H3. unfold bswap_32. set (x := b0 + 256 * b1 + 65536 * b2 + 16777216 * b3).
  assert (forall n r, 0 <= n -> x / 2 ^ n mod 256 = r -> (x >>' n) &' 0xff = r) as Hbyte.
  { intros n r Hn <-. change 0xff with (2 ^ 8 - 1). by rewrite land_mask, Z.shiftr_div_pow2 by lia. }
  assert (x &' 0xff = b0) as ->.
  { rewrite <- (Z.shiftr_0_r x). apply Hbyte; [lia|]. unfold x. change (2 ^ 0) with 1. Z.div_mod_to_equations; lia. }
  change 0xff00 with (0xff <<' 8). rewrite !land_shifted by lia. rewrite Z.shiftr_shiftr by lia.
  rewrite (Hbyte 8 b1), (Hbyte (8 + 8) b2) by (try lia; unfold x; change (2 ^ 8) with 256; change (2 ^ (8 + 8)) with 65536; Z.div_mod_to_equations; lia).
  rewrite Z.shiftl_shiftl by lia. change (8 + 8) with 16.
  assert (x >>' 24 = b3) as ->.
  { rewrite Z.shiftr_div_pow2 by lia. unfold x. change (2 ^ 24) with 16777216. Z.div_mod_to_equations; lia. }
  rewrite <- !Z.lor_assoc. rewrite (lor_shiftl_add b2 b3 8) by lia.
  rewrite (lor_shiftl_add b1 _ 16) by lia. rewrite (lor_shiftl_add b0 _ 24) by lia. lia.
Qed.

Lemma word_bytes x : word_ok x -> exists b0 b1 b2 b3, 0 <= b0 < 256 /\ 0 <= b1 < 256 /\ 0 <= b2 < 256 /\ 0 <= b3 < 256 /\
  x = b0 + 256 * b1 + 65536 * b2 + 16777216 * b3.
Proof.
  unfold word_ok. intros H. exists (x mod 256), (x / 256 mod 256), (x / 65536 mod 256), (x / 16777216).
  split_and!; try (apply Z.mod_pos_bound; lia); Z.div_mod_to_equations; lia.
Qed.

Lemma bswap_32_invol x : word_ok x -> bswap_32 (bswap_32 x) = x.
Proof.
  intros (b0 & b1 & b2 & b3 & ? & ? & ? & ? & ->)%word_bytes. rewrite bswap_32_bytes by done.
  rewrite bswap_32_bytes by done. lia.
Qed.

Lemma map_bswap_invol l : Forall word_ok l -> map bswap_32 (map bswap_32 l) = l.
Proof. induction 1; [done|]. simpl. by rewrite bswap_32_invol, IHForall. Qed.

(** ** Types in the type section *)
Lemma kind_range t k : btf_kind t = Some k -> 0 <= k < 32.
Proof.
  unfold btf_kind. intros H. obind_inv H. simplify_eq. change 0x1f with (2 ^ 5 - 1). rewrite land_mask by lia.
  apply Z.mod_pos_bound. lia.
Qed.

Lemma vlen_range t v : btf_vlen t = Some v -> 0 <= v < 65536.
Proof.
  unfold btf_vlen. intros H. obind_inv H. simplify_eq. change 0xffff with (2 ^ 16 - 1). rewrite land_mask by lia.
  apply Z.mod_pos_bound. lia.
Qed.

(** The size covers the swapped words. *)
Lemma type_size_rest k v : 0 <= k < 32 -> 0 <= v ->
  match rest_words k v with
  | Some n => type_size_of k v = 12 + 4 * n /\ 0 <= n
  | None => type_size_of k v < 0
  end.
Proof.
  intros Hk Hv. assert (exists n, (n < 32)%nat /\ k = Z.of_nat n) as (n & Hn & ->) by (exists (Z.to_nat k); lia).
  clear Hk. do 32 (destruct n as [|n]; [lazy -[Z.mul Z.add Z.le Z.lt Z.opp]; lia|]). lia.
Qed.

(** The words of the section when the first [k] are native and the rest as stored. *)
Definition stored (swapped : bool) (native : list Z) (k : nat) : list Z :=
  take k native ++ (if swapped then map bswap_32 (drop k native) else drop k native).

(** [offs] lists the types from byte [next] to [end_type], one after the other. *)
Fixpoint laid_out (data : list Z) (next : Z) (offs : list Z) (end_type : Z) : Prop :=
  match offs with
  | [] => next = end_type
  | o :: offs =>
    o = next /\ exists sz, btf_type_size (drop (Z.to_nat (o / 4)) data) = Some sz /\ 12 <= sz /\ sz mod 4 = 0 /\
      o + sz <= end_type /\ laid_out data (next + sz) offs end_type
  end.

Lemma swap_words_stored n l : Forall word_ok l -> (n <= length l)%nat ->
  swap_words (Z.of_nat n) (map bswap_32 l) = Some (take n l ++ map bswap_32 (drop n l)).
Proof.
  intros Hl Hn. unfold swap_words. rewrite length_map. destruct (Z.leb_spec (Z.of_nat n) (Z.of_nat (length l))); [|lia].
  rewrite Nat2Z.id, firstn_map, skipn_map, map_bswap_invol; [done|]. by apply Forall_take.
Qed.

(** Swapping the base of the next type makes its first three words native. *)
Lemma stored_base native k : Forall word_ok native -> (k + 3 <= length native)%nat ->
  btf_bswap_type_base (map bswap_32 (drop k native)) = Some (drop k (stored true native (k + 3))).
Proof.
  intros Hn Hk. unfold btf_bswap_type_base. change 3 with (Z.of_nat 3).
  rewrite swap_words_stored by (first [by apply Forall_drop|rewrite length_drop; lia]). f_equal.
  rewrite drop_drop. unfold stored. rewrite drop_app_le by (rewrite length_take; lia).
  by rewrite skipn_firstn_comm, Nat.add_comm, Nat.add_sub.
Qed.

Lemma drop_stored b native k : (k <= length native)%nat -> drop k (stored b native k) =
  (if b then map bswap_32 (drop k native) else drop k native).
Proof. intros Hk. unfold stored. rewrite drop_app_length' by (rewrite length_take; lia). done. Qed.

Lemma take_stored b native k : (k <= length native)%nat -> take k (stored b native k) = take k native.
Proof. intros Hk. unfold stored. by rewrite take_app_length' by (rewrite length_take; lia). Qed.

Lemma word_stored_info b native k : (k + 2 <= length native)%nat ->
  info (drop k (stored b native (k + 3))) = info (drop k native).
Proof.
  intros Hk. unfold info, word, zget. rewrite !decide_True by lia. change (Z.to_nat 1) with 1%nat.
  rewrite !lookup_drop. unfold stored. rewrite lookup_app_l by (rewrite length_take; lia).
  apply lookup_take_lt. lia.
Qed.

Lemma stored_split b native k m : (k + m <= length native)%nat ->
  drop k (stored b native (k + m)) =
  take m (drop k native) ++ (if b then map bswap_32 (drop (k + m) native) else drop (k + m) native).
Proof.
  intros H. unfold stored. rewrite drop_app_le by (rewrite length_take; lia).
  rewrite skipn_firstn_comm. by replace (k + m - k)%nat with m by lia.
Qed.

Lemma stored_join b native k m : (k + m <= length native)%nat ->
  take k native ++ drop k (stored b native (k + m)) = stored b native (k + m).
Proof.
  intros H. rewrite <- (take_drop k (stored b native (k + m))) at 2. f_equal.
  unfold stored. rewrite take_app_le by (rewrite length_take; lia). rewrite take_take. f_equal. lia.
Qed.

(** One type of the section, byte-swapped or not. *)
Lemma swap_type b native k sz v kd : Forall word_ok native -> (k + 3 <= length native)%nat ->
  btf_kind (drop k native) = Some kd -> btf_vlen (drop k native) = Some v -> sz = type_size_of kd v ->
  let t := drop k (stored b native k) in
  exists t1, (if b then btf_bswap_type_base t else Some t) = Some t1 /\
  btf_type_size t1 = Some sz /\ take k native ++ t1 = stored b native (k + 3) /\
  (0 <= sz -> exists n, sz = 12 + 4 * Z.of_nat n /\
    ((k + 3 + n <= length native)%nat ->
     exists t2, (if b then btf_bswap_type_rest t1 else Some (0, t1)) = Some (0, t2) /\
       take k native ++ t2 = stored b native (k + 3 + n))).
Proof.
  intros Hn Hk Hkd Hv -> t. set (t1 := drop k (stored b native (k + 3))).
  assert (t1 = drop k (stored b native (k + 3))) as Ht1 by done. clearbody t1. exists t1.
  split.
  { subst t1. unfold t. rewrite drop_stored by lia. destruct b; [by apply stored_base|].
    unfold stored. rewrite !take_drop. done. }
  assert (info t1 = info (drop k native)) as Hinfo by (rewrite Ht1; apply word_stored_info; lia).
  assert (btf_kind t1 = Some kd /\ btf_vlen t1 = Some v) as [Hkd1 Hv1] by (unfold btf_kind, btf_vlen in *; by rewrite Hinfo).
  split; [unfold btf_type_size; rewrite Hkd1; cbn [mbind option_bind]; by rewrite Hv1|].
  split; [rewrite Ht1; by apply stored_join|]. intros Hsz.
  pose proof (type_size_rest kd v (kind_range _ _ Hkd) (proj1 (vlen_range _ _ Hv))) as Hr.
  destruct (rest_words kd v) as [n|] eqn:Er; [|lia]. destruct Hr as [Hr Hn0].
  exists (Z.to_nat n). split; [lia|]. intros Hlen.
  assert (take k native ++ drop k (stored b native (k + 3 + Z.to_nat n)) = stored b native (k + 3 + Z.to_nat n)) as Hj.
  { rewrite <- Nat.add_assoc in *. by apply stored_join. }
  destruct b.
  - eexists. split; [|exact Hj]. unfold btf_bswap_type_rest. rewrite Hkd1. cbn [mbind option_bind].
    rewrite Hv1. cbn [mbind option_bind]. rewrite Er, Ht1.
    rewrite (stored_split true native k 3) by lia.
    rewrite take_app_length', drop_app_length' by (rewrite length_take, length_drop; lia).
    replace n with (Z.of_nat (Z.to_nat n)) at 1 by lia.
    rewrite swap_words_stored by (first [by apply Forall_drop|rewrite length_drop; lia]).
    cbn [mbind option_bind]. do 2 f_equal.
    rewrite <- Nat.add_assoc in *. rewrite (stored_split true native k (3 + Z.to_nat n)) by lia.
    rewrite drop_drop, !app_assoc, !Nat.add_assoc. f_equal.
    rewrite <- (take_take_drop (drop k native) 3 (Z.to_nat n)). by rewrite drop_drop.
  - eexists. split; [done|]. rewrite Ht1. rewrite <- Hj. unfold stored. by rewrite !take_drop.
Qed.

(** The size the next type announces. *)
Definition next_size (native : list Z) (k : nat) : Z :=
  let i := default 0 (info (drop k native)) in type_size_of ((i >>' 24) &' 0x1f) (i &' 0xffff).

Lemma next_info native k : (k + 3 <= length native)%nat ->
  btf_kind (drop k native) = Some ((default 0 (info (drop k native)) >>' 24) &' 0x1f) /\
  btf_vlen (drop k native) = Some (default 0 (info (drop k native)) &' 0xffff).
Proof.
  intros Hk. unfold btf_kind, btf_vlen.
  destruct (zget_is_Some (drop k native) 1) as [i Hi]; [rewrite length_drop; lia|].
  unfold info, word. by rewrite Hi.
Qed.

Lemma next_size_type native k : (k + 3 <= length native)%nat ->
  btf_type_size (drop k native) = Some (next_size native k).
Proof.
  intros Hk. destruct (next_info native k Hk) as [H1 H2]. unfold btf_type_size. rewrite H1. cbn [mbind option_bind].
  by rewrite H2.
Qed.

(** One iteration of the loop. *)
Lemma parse_step b fuel alloc native end_type k offs :
  Forall word_ok native -> Z.of_nat (length native) = end_type / 4 -> 4 * Z.of_nat k + 12 <= end_type ->
  let sz := next_size native k in
  parse_type_loop (S fuel) alloc b (stored b native k) end_type (4 * Z.of_nat k) offs =
    (if sz <? 0 then Some (sz, stored b native (k + 3), offs)
     else if 4 * Z.of_nat k + sz >? end_type then Some (- EINVAL, stored b native (k + 3), offs)
     else if negb (alloc (length offs)) then Some (- ENOMEM, stored b native (k + Z.to_nat (sz / 4)), offs)
     else parse_type_loop fuel alloc b (stored b native (k + Z.to_nat (sz / 4))) end_type (4 * Z.of_nat k + sz)
            (offs ++ [4 * Z.of_nat k])) /\
  (0 <= sz -> 12 <= sz /\ sz mod 4 = 0).
Proof.
  intros Hok Hlen Hroom sz. cbn [parse_type_loop].
  assert (k + 3 <= length native)%nat as Hk3.
  { apply Nat2Z.inj_le. rewrite Hlen. rewrite Nat2Z.inj_add. apply Z.div_le_lower_bound; lia. }
  destruct (Z.leb_spec (4 * Z.of_nat k + 12) end_type); [|lia].
  rewrite (Z.mul_comm 4), Z.div_mul, Nat2Z.id by lia. rewrite (Z.mul_comm (Z.of_nat k) 4).
  destruct (next_info native k Hk3) as [Hkd Hv].
  destruct (swap_type b native k sz _ _ Hok Hk3 Hkd Hv eq_refl) as (t1 & Ht1 & Hsize & Hbase & Hrest).
  rewrite take_stored by lia. unfold btf_type in *. rewrite Ht1. cbn [mbind option_bind]. rewrite Hsize. cbn [mbind option_bind]. rewrite Hbase.
  destruct (Z.ltb_spec sz 0); [split; [done|lia]|]. destruct (Hrest ltac:(lia)) as (n & Hn & Ht2).
  split; [|intros _; split; [lia|rewrite Hn; Z.div_mod_to_equations; lia]].
  rewrite Z.gtb_ltb. destruct (Z.ltb_spec end_type (4 * Z.of_nat k + sz)); [done|].
  destruct Ht2 as (t2 & Ht2 & Hj).
  { apply Nat2Z.inj_le. rewrite Hlen. apply Z.div_le_lower_bound; lia. }
  unfold btf_type in *. rewrite Ht2. cbn [mbind option_bind Z.eqb negb]. rewrite Hj.
  replace (k + 3 + n)%nat with (k + Z.to_nat (sz / 4))%nat; [done|].
  rewrite Hn. replace (12 + 4 * Z.of_nat n) with ((3 + Z.of_nat n) * 4) by lia. rewrite Z.div_mul; lia.
Qed.

Lemma parse_loop_spec fuel alloc native end_type k offs :
  Forall word_ok native -> Z.of_nat (length native) = end_type / 4 -> 0 <= end_type ->
  4 * Z.of_nat k <= end_type -> end_type - 4 * Z.of_nat k < 12 * Z.of_nat fuel ->
  exists err new, forall b, exists data,
    parse_type_loop fuel alloc b (stored b native k) end_type (4 * Z.of_nat k) offs = Some (err, data, offs ++ new) /\
    (err = 0 -> data = native /\ laid_out native (4 * Z.of_nat k) new end_type).
Proof.
  intros Hok Hlen H0. revert k offs. induction fuel as [|fuel IH]; intros k offs Hk Hf; [lia|].
  destruct (decide (4 * Z.of_nat k + 12 <= end_type)) as [Hroom|Hroom].
  2: { cbn [parse_type_loop]. destruct (Z.leb_spec (4 * Z.of_nat k + 12) end_type); [lia|].
       destruct (Z.eqb_spec (4 * Z.of_nat k) end_type) as [He|He]; cbn [negb].
       - exists 0, []. intros b. eexists. rewrite app_nil_r. split; [done|]. intros _. split; [|done].
         unfold stored. rewrite take_ge, drop_ge by (apply Nat2Z.inj_le; rewrite Hlen; Z.div_mod_to_equations; lia).
         destruct b; by rewrite app_nil_r.
       - exists (- EINVAL), []. intros b. eexists. rewrite app_nil_r. split; [done|intros [=]]. }
  pose proof (fun b => parse_step b fuel alloc native end_type k offs Hok Hlen Hroom) as Hstep. cbv zeta in Hstep.
  assert (k + 3 <= length native)%nat as Hk3.
  { apply Nat2Z.inj_le. rewrite Hlen. rewrite Nat2Z.inj_add. apply Z.div_le_lower_bound; lia. }
  pose proof (next_size_type native k Hk3) as Hty. set (sz := next_size native k) in *.
  destruct (Hstep true) as [_ Hsz]. rewrite Z.gtb_ltb in Hstep.
  destruct (Z.ltb_spec sz 0).
  { exists sz, []. intros b. rewrite (proj1 (Hstep b)), app_nil_r. eexists. split; [done|lia]. }
  destruct (Hsz ltac:(lia)) as [Hsz12 Hmod].
  destruct (Z.ltb_spec end_type (4 * Z.of_nat k + sz)).
  { exists (- EINVAL), []. intros b. rewrite (proj1 (Hstep b)), app_nil_r. eexists. split; [done|intros [=]]. }
  destruct (alloc (length offs)); cbn [negb] in Hstep.
  2: { exists (- ENOMEM), []. intros b. rewrite (proj1 (Hstep b)), app_nil_r. eexists. split; [done|intros [=]]. }
  assert (4 * Z.of_nat k + sz = 4 * Z.of_nat (k + Z.to_nat (sz / 4))) as Hnext by (Z.div_mod_to_equations; lia).
  destruct (IH (k + Z.to_nat (sz / 4))%nat (offs ++ [4 * Z.of_nat k])) as (err & new & HIH); [lia|lia|].
  exists err, (4 * Z.of_nat k :: new). intros b. rewrite (proj1 (Hstep b)). destruct (HIH b) as (data & Hp & Hdata).
  exists data. rewrite Hnext, Hp, <- app_assoc. split; [done|]. intros He. destruct (Hdata He) as [-> Hl].
  split; [done|]. split; [done|]. exists sz. rewrite (Z.mul_comm 4), Z.div_mul, Nat2Z.id by lia.
  rewrite (Z.mul_comm (Z.of_nat k) 4), Hnext. split_and!; auto; lia.
Qed.

(** A type whose elements are all inside the data. *)
Definition type_complete (t : btf_type) : Prop :=
  exists sz, btf_type_size t = Some sz /\ 0 <= sz <= 4 * Z.of_nat (length t).

Lemma laid_out_lookup data next offs end_type i o : 0 <= next -> next mod 4 = 0 ->
  Z.of_nat (length data) = end_type / 4 -> laid_out data next offs end_type -> offs !! i = Some o ->
  0 <= o /\ type_complete (drop (Z.to_nat (o / 4)) data).
Proof.
  intros Hn Hal Hlen. revert next i Hn Hal. induction offs as [|o' offs IH]; intros next i Hn Hal Hl Hi; [done|].
  destruct Hl as (-> & sz & Hsz & H12 & Hmod & Hend & Hl). destruct i as [|i]; simplify_eq/=.
  - split; [done|]. exists sz. split; [done|]. rewrite length_drop. split; [lia|].
    assert (o / 4 + sz / 4 <= end_type / 4).
    { replace (o / 4 + sz / 4) with ((o + sz) / 4) by (Z.div_mod_to_equations; lia). apply Z.div_le_mono; lia. }
    Z.div_mod_to_equations. lia.
  - apply (IH (next + sz) i); auto; [lia|]. rewrite Z.add_mod, Hal, Hmod by lia. done.
Qed.

(** The words of a complete type can be read. *)
Lemma complete_word t k v i : type_complete t -> btf_kind t = Some k -> btf_vlen t = Some v ->
  0 <= i -> 4 * i < type_size_of k v -> exists w, word t i = Some w.
Proof.
  intros (sz & Hsz & Hlen) Hk Hv Hi Hlt. unfold btf_type_size in Hsz. rewrite Hk in Hsz. cbn [mbind option_bind] in Hsz.
  rewrite Hv in Hsz. cbn [mbind option_bind] in Hsz. simplify_eq. apply zget_is_Some. lia.
Qed.

(** ** What validation establishes *)
Definition valid_id (b : btf) (id : Z) : Prop := exists t, btf__type_by_id b id = Some (Some t).
Definition valid_str (b : btf) (off : Z) : Prop := exists s, btf__str_by_offset b off = Some (Some s).

Lemma validate_id_ok b id : btf_validate_id b id = Some 0 -> valid_id b id.
Proof. unfold btf_validate_id. intros H. obind_inv H. destruct x as [t|]; [by exists t|done]. Qed.
Lemma validate_str_ok b off : btf_validate_str b off = Some 0 -> valid_str b off.
Proof. unfold btf_validate_str. intros H. obind_inv H. destruct x as [t|]; [by exists t|done]. Qed.

Lemma check_each_ok n i f : check_each n i f = Some 0 -> forall j, i <= j < i + Z.of_nat n -> f j = Some 0.
Proof.
  revert i. induction n as [|n IH]; intros i H j Hj; [lia|]. cbn [check_each] in H.
  apply bind_Some in H as (err & He & H). destruct (Z.eqb_spec err 0) as [->|]; [|by simplify_eq/=].
  cbn [negb] in H. destruct (decide (j = i)) as [->|]; [done|]. apply (IH (i + 1)); [done|lia].
Qed.

Lemma err_or_ok a b : err_or a b = Some 0 -> a = Some 0 /\ b = Some 0.
Proof.
  unfold err_or. intros H. apply bind_Some in H as (err & -> & H). cbn [mbind option_bind] in H.
  destruct (Z.eqb_spec err 0); [by subst|by simplify_eq/=].
Qed.

(** The types and names a valid type refers to.  (The result type of a function prototype
    is not among what [btf_validate_type] checks.) *)
Definition refs_valid (b : btf) (t : btf_type) : Prop :=
  (exists no, name_off t = Some no /\ valid_str b no) /\
  exists k, btf_kind t = Some k /\
  (forall ty, type t = Some ty ->
     k ∈ [BTF_KIND_PTR; BTF_KIND_TYPEDEF; BTF_KIND_VOLATILE; BTF_KIND_CONST; BTF_KIND_RESTRICT; BTF_KIND_VAR;
          BTF_KIND_DECL_TAG; BTF_KIND_TYPE_TAG; BTF_KIND_FUNC] -> valid_id b ty) /\
  (forall a, array_of t = Some a -> k = BTF_KIND_ARRAY -> valid_id b (arr_type a) /\ valid_id b (arr_index_type a)) /\
  (forall n i m, btf_vlen t = Some n -> 0 <= i < n -> kind_is_composite k = true -> btf_member_at t i = Some m ->
     valid_str b (m_name_off m) /\ valid_id b (m_type m)) /\
  (forall n i m, btf_vlen t = Some n -> 0 <= i < n -> k = BTF_KIND_ENUM -> btf_enum_at t i = Some m ->
     valid_str b m.1) /\
  (forall n i m, btf_vlen t = Some n -> 0 <= i < n -> k = BTF_KIND_ENUM64 -> btf_enum64_at t i = Some m ->
     valid_str b m.1) /\
  (forall n i m, btf_vlen t = Some n -> 0 <= i < n -> k = BTF_KIND_FUNC_PROTO -> btf_param_at t i = Some m ->
     valid_str b m.1 /\ valid_id b m.2).

(** A loop of the validation, at one element. *)
Lemma check_elem {A} t n i (get : Z -> option A) (f : A -> option Z) m :
  (n ← btf_vlen t; check_each (Z.to_nat n) 0 (fun i => m ← get i; f m)) = Some 0 ->
  btf_vlen t = Some n -> 0 <= i < n -> get i = Some m -> f m = Some 0.
Proof.
  intros H Hn Hi Hm. rewrite Hn in H. cbn [mbind option_bind] in H.
  pose proof (check_each_ok _ _ _ H i ltac:(lia)) as Hc. cbv beta in Hc. by rewrite Hm in Hc.
Qed.

(** Decide the tests on a known kind. *)
Ltac kind_eval H :=
  unfold kind_is_composite, kind_is_any_enum, kind_is_mod in H;
  repeat match type of H with
  | context [?a =? ?b] =>
      let v := eval vm_compute in (a =? b) in
      lazymatch v with true => change (a =? b) with true in H | false => change (a =? b) with false in H end
  end;
  cbn [orb andb negb] in H.

Lemma validate_type_ok b t : btf_validate_type b t = Some 0 -> refs_valid b t.
Proof.
  unfold btf_validate_type. intros H. apply bind_Some in H as (k & Hk & H). apply bind_Some in H as (no & Hno & H).
  apply bind_Some in H as (err & Herr & H). destruct (Z.eqb_spec err 0) as [->|]; [|by simplify_eq/=]. cbn [negb] in H.
  split; [exists no; split; [done|by apply validate_str_ok]|]. exists k. split; [done|].
  split_and!.
  - intros ty Hty Hin. repeat (apply elem_of_cons in Hin as [->|Hin]; [kind_eval H; rewrite Hty in H; cbn [mbind option_bind] in H;
      first [by apply validate_id_ok | idtac]|]); [|by apply elem_of_nil in Hin].
    apply bind_Some in H as (err & He & H). destruct (Z.eqb_spec err 0) as [->|]; [by apply validate_id_ok|by simplify_eq/=].
  - intros a Ha ->. kind_eval H. rewrite Ha in H. cbn [mbind option_bind] in H.
    apply err_or_ok in H as [? ?]. by split; apply validate_id_ok.
  - intros n i m Hn Hi Hc Hm. 
    assert (k = BTF_KIND_STRUCT \/ k = BTF_KIND_UNION) as Hk2.
    { unfold kind_is_composite in Hc. apply orb_true_iff in Hc as [?%Z.eqb_eq|?%Z.eqb_eq]; auto. }
    destruct Hk2 as [-> | ->]; kind_eval H;
      (apply (check_elem t n i _ _ m) in H; [|done..]; apply err_or_ok in H as [? ?];
       split; [by apply validate_str_ok|by apply validate_id_ok]).
  - intros n i m Hn Hi -> Hm. kind_eval H. apply (check_elem t n i _ _ m) in H; [|done..]. by apply validate_str_ok.
  - intros n i m Hn Hi -> Hm. kind_eval H. apply (check_elem t n i _ _ m) in H; [|done..]. by apply validate_str_ok.
  - intros n i m Hn Hi -> Hm. kind_eval H. apply (check_elem t n i _ _ m) in H; [|done..].
    apply err_or_ok in H as [? ?]. split; [by apply validate_str_ok|by apply validate_id_ok].
Qed.

Lemma sanity_check_ok b l : head b = Some l -> btf_sanity_check b = Some 0 ->
  forall n id t, btf__type_cnt b = Some n -> start_id l <= id < n -> btf_type_by_id b id = Some t -> refs_valid b t.
Proof.
  intros Hl H n id t Hn Hid Ht. unfold btf_sanity_check in H. rewrite Hn in H. cbn [mbind option_bind] in H.
  rewrite Hl in H. cbn [mbind option_bind] in H.
  pose proof (check_each_ok _ _ _ H id ltac:(lia)) as Hc. cbv beta in Hc. rewrite Ht in Hc.
  by apply validate_type_ok.
Qed.

(** ** The size of a type, as C defines it *)
Definition sized_kind (k : Z) : bool :=
  (k =? BTF_KIND_INT) || (k =? BTF_KIND_STRUCT) || (k =? BTF_KIND_UNION) || (k =? BTF_KIND_ENUM) ||
  (k =? BTF_KIND_ENUM64) || (k =? BTF_KIND_DATASEC) || (k =? BTF_KIND_FLOAT).
Definition alias_kind (k : Z) : bool :=
  (k =? BTF_KIND_TYPEDEF) || kind_is_mod k || (k =? BTF_KIND_VAR) || (k =? BTF_KIND_DECL_TAG).

Inductive sizeof (b : btf) : Z -> Z -> Prop :=
| sizeof_sized id t k n : btf__type_by_id b id = Some (Some t) -> btf_kind t = Some k -> sized_kind k = true ->
    size t = Some n -> sizeof b id n
| sizeof_ptr id t n : btf__type_by_id b id = Some (Some t) -> btf_kind t = Some BTF_KIND_PTR ->
    btf_ptr_sz b = Some n -> sizeof b id n
| sizeof_alias id t k ty n : btf__type_by_id b id = Some (Some t) -> btf_kind t = Some k -> alias_kind k = true ->
    type t = Some ty -> sizeof b ty n -> sizeof b id n
| sizeof_array id t a n : btf__type_by_id b id = Some (Some t) -> btf_kind t = Some BTF_KIND_ARRAY ->
    array_of t = Some a -> sizeof b (arr_type a) n -> sizeof b id (arr_nelems a * n).

Definition words_ok (b : btf) : Prop := Forall (fun l => Forall word_ok (types_data l)) b.

Lemma type_words_ok b id t : words_ok b -> btf_type_by_id b id = Some t -> Forall word_ok t.
Proof.
  induction 1 as [|l b Hl Hb IH]; cbn [btf_type_by_id]; [done|]. intros H.
  bcase_in H; [simplify_eq; repeat constructor; unfold word_ok; lia|]. bcase_in H; [auto|].
  obind_inv H. simplify_eq. by apply Forall_drop.
Qed.

Lemma type_by_id_some b id t : btf__type_by_id b id = Some (Some t) -> btf_type_by_id b id = Some t.
Proof. unfold btf__type_by_id. intros H. apply bind_Some in H as (n & _ & H). bcase_in H; [done|]. by obind_inv H; simplify_eq. Qed.

Lemma word_value t i x : Forall word_ok t -> word t i = Some x -> word_ok x.
Proof. intros H [_ Hi]%zget_Some. rewrite Forall_lookup in H. eauto. Qed.

Lemma resolve_done_spec nelems sz : 0 <= nelems <= UINT32_MAX ->
  (resolve_done nelems sz = - EINVAL /\ sz < 0) \/ resolve_done nelems sz = - E2BIG \/
  (resolve_done nelems sz = nelems * sz /\ 0 <= nelems * sz <= UINT32_MAX).
Proof.
  unfold UINT32_MAX. intros Hn. unfold resolve_done, UINT32_MAX. bcase; [by left|right].
  destruct (Z.eqb_spec nelems 0) as [->|]; cbn [negb andb]; [right; lia|]. rewrite Z.gtb_ltb.
  destruct (Z.ltb_spec ((2 ^ 32 - 1) / nelems) sz); [by left|right]. split; [done|]. split; [lia|].
  apply Z.le_trans with (nelems * ((2 ^ 32 - 1) / nelems)); [nia|]. apply Z.mul_div_le. lia.
Qed.

Section ResolveSize.
Context (b : btf) (Hw : words_ok b) (Hptr : forall n, btf_ptr_sz b = Some n -> 0 <= n).

Definition size_result (id nelems r : Z) : Prop :=
  r = - EINVAL \/ r = - E2BIG \/ exists m, sizeof b id m /\ r = nelems * m /\ 0 <= r <= UINT32_MAX.

Lemma done_result id nelems m : 0 <= nelems <= UINT32_MAX -> sizeof b id m ->
  size_result id nelems (resolve_done nelems m).
Proof.
  intros Hn Hs. destruct (resolve_done_spec nelems m Hn) as [[-> _]|[->|[-> Hb]]]; [by left|by right; left|].
  right. right. eauto.
Qed.

Lemma resolve_size_loop_ok n id ot nelems r : 0 <= nelems <= UINT32_MAX ->
  btf__type_by_id b id = Some ot -> resolve_size_loop n b ot nelems = Some r -> size_result id nelems r.
Proof.
  revert id ot nelems r. induction n as [|n IH]; intros id ot nelems r Hn Hid H; cbn [resolve_size_loop] in H.
  { left. by simplify_eq. }
  destruct ot as [t|]; [|left; by simplify_eq]. apply bind_Some in H as (v & _ & H).
  destruct v; [left; by simplify_eq|]. apply bind_Some in H as (k & Hk & H).
  pose proof (type_words_ok b id t Hw (type_by_id_some _ _ _ Hid)) as Ht. fold (sized_kind k) (alias_kind k) in H.
  destruct (sized_kind k) eqn:Hsk.
  { apply bind_Some in H as (sz & Hsz & H). injection H as <-. apply done_result; [done|]. by eapply sizeof_sized. }
  destruct (Z.eqb_spec k BTF_KIND_PTR) as [->|].
  { apply bind_Some in H as (sz & Hsz & H). injection H as <-. apply done_result; [done|]. by eapply sizeof_ptr. }
  destruct (alias_kind k) eqn:Hak.
  { apply bind_Some in H as (ty & Hty & H). apply bind_Some in H as (t' & Ht' & H).
    destruct (IH ty t' nelems r Hn Ht' H) as [->|[->|(m & Hs & -> & Hb)]]; [by left|by right; left|].
    right. right. exists m. split; [by eapply sizeof_alias|done]. }
  destruct (Z.eqb_spec k BTF_KIND_ARRAY) as [->|]; [|left; by simplify_eq].
  apply bind_Some in H as (a & Ha & H).
  assert (0 <= arr_nelems a) as Ha0.
  { unfold array_of in Ha. obind_inv Ha. simplify_eq. simpl. by apply (word_value t 5). }
  rewrite Z.gtb_ltb in H. destruct (negb (nelems =? 0) && (UINT32_MAX / nelems <? arr_nelems a)) eqn:Hov;
    [right; left; by simplify_eq|].
  apply bind_Some in H as (t' & Ht' & H).
  assert (0 <= nelems * arr_nelems a <= UINT32_MAX) as Hprod.
  { split; [nia|]. destruct (Z.eqb_spec nelems 0) as [->|]; [unfold UINT32_MAX; lia|]. cbn [negb andb] in Hov.
    apply Z.ltb_ge in Hov. apply Z.le_trans with (nelems * (UINT32_MAX / nelems)); [nia|]. apply Z.mul_div_le. lia. }
  rewrite wrap_small in H by (unfold UINT32_MAX in Hprod; lia).
  destruct (IH (arr_type a) t' (nelems * arr_nelems a) r Hprod Ht' H) as [->|[->|(m & Hs & -> & Hb)]]; [by left|by right; left|].
  right. right. exists (arr_nelems a * m). split; [by eapply sizeof_array|]. split; [lia|done].
Qed.

Lemma resolve_size_ok id r : btf__resolve_size b id = Some r -> size_result id 1 r.
Proof.
  unfold btf__resolve_size. intros H. apply bind_Some in H as (t & Ht & H).
  eapply resolve_size_loop_ok; [|done..]. unfold UINT32_MAX. lia.
Qed.
End ResolveSize.

Lemma sized_not_alias k : sized_kind k = true ->
  alias_kind k = false /\ k <> BTF_KIND_PTR /\ k <> BTF_KIND_ARRAY.
Proof.
  unfold sized_kind. intros H. repeat (apply orb_true_iff in H as [H|H]); apply Z.eqb_eq in H; by subst.
Qed.

(** A type has at most one size. *)
Lemma sizeof_fun b id n m : sizeof b id n -> sizeof b id m -> n = m.
Proof.
  intros H. revert m. induction H as [id t k n Ht Hk Hs Hn|id t n Ht Hk Hp|id t k ty n Ht Hk Ha Hty H IH|id t a n Ht Hk Ha H IH];
    intros m Hm; inversion Hm as [? t' k' ? Ht' Hk' Hs' Hn'|? t' ? Ht' Hk' Hp'|? t' k' ty' ? Ht' Hk' Ha' Hty' Hm'|? t' a' ? Ht' Hk' Ha' Hm'];
    subst; rewrite Ht in Ht'; injection Ht' as <-; rewrite Hk in Hk'; simplify_eq; try congruence; try discriminate.
  all: try (f_equal; by apply IH).
  all: try (by apply IH).
  all: match goal with H : sized_kind ?k = true |- _ => destruct (sized_not_alias k H) as (? & ? & ?); congruence end.
Qed.

(** ** Modifiers and typedefs *)
Definition skipped_kind (k : Z) : bool := kind_is_mod k || (k =? BTF_KIND_TYPEDEF).

(** A BTF whose lookups succeed: every id below the count denotes a complete type, the ids
    it is an alias of are below the count and aliases do not form cycles. *)
Record btf_ok (b : btf) (n : Z) : Prop := {
  ok_cnt : btf__type_cnt b = Some n;
  ok_type id : 0 <= id < n -> exists t, btf_type_by_id b id = Some t /\ (id = 0 \/ type_complete t);
  ok_alias id t k ty : 0 <= id < n -> btf_type_by_id b id = Some t -> btf_kind t = Some k ->
    skipped_kind k = true -> type t = Some ty -> 0 <= ty < n;
  ok_acyclic : exists rank : Z -> nat, forall id, 0 <= id < n -> (rank id <= Z.to_nat n)%nat /\
    forall t k ty, btf_type_by_id b id = Some t -> btf_kind t = Some k -> skipped_kind k = true ->
      type t = Some ty -> (rank ty < rank id)%nat
}.

Lemma ok_by_id b n id : btf_ok b n -> 0 <= id < n ->
  exists t k, btf__type_by_id b id = Some (Some t) /\ btf_type_by_id b id = Some t /\ btf_kind t = Some k.
Proof.
  intros H Hid. destruct (ok_type b n H id Hid) as (t & Ht & Hc).
  assert (exists k, btf_kind t = Some k) as [k Hk].
  { destruct Hc as [->|(sz & Hsz & _)].
    - destruct b as [|l b]; [done|]. simpl in Ht. simplify_eq. by eexists.
    - unfold btf_type_size in Hsz. apply bind_Some in Hsz as (k & Hk & _). eauto. }
  exists t, k. unfold btf__type_by_id. rewrite (ok_cnt b n H). cbn [mbind option_bind]. rewrite Z.geb_leb.
  destruct (Z.leb_spec n id); [lia|]. rewrite Ht. done.
Qed.

Lemma by_id_total b n id : btf_ok b n -> 0 <= id -> exists ot, btf__type_by_id b id = Some ot /\
  match ot with None => True | Some t => id < n /\ btf_type_by_id b id = Some t end.
Proof.
  intros H Hid. destruct (decide (id < n)) as [Hlt|Hge].
  - destruct (ok_by_id b n id H) as (t & k & Hby & Ht & _); [lia|]. by exists (Some t).
  - exists None. split; [|done]. unfold btf__type_by_id. rewrite (ok_cnt b n H). cbn [mbind option_bind].
    rewrite Z.geb_leb. destruct (Z.leb_spec n id); [done|lia].
Qed.

Lemma resolve_size_loop_total b n fuel id ot nelems : btf_ok b n -> words_ok b -> 0 <= id ->
  btf__type_by_id b id = Some ot -> exists r, resolve_size_loop fuel b ot nelems = Some r.
Proof.
  intros Hok Hw. revert id ot nelems. induction fuel as [|fuel IH]; intros id ot nelems Hid Hby; cbn [resolve_size_loop]; [eauto|].
  destruct ot as [t|]; [|eauto]. destruct (by_id_total b n id Hok Hid) as (ot & Hot & Ht). rewrite Hby in Hot. injection Hot as <-.
  destruct Ht as [Hlt Ht]. destruct (ok_type b n Hok id ltac:(lia)) as (t' & Ht' & Hc). rewrite Ht in Ht'. injection Ht' as <-.
  assert (forall i w, word t i = Some w -> 0 <= w) as Hpos by (intros i w Hi; by eapply (word_value t i w (type_words_ok b id t Hw Ht))).
  destruct Hc as [->|Hc].
  { destruct b as [|l b']; [done|]. simpl in Ht. simplify_eq. vm_compute. eauto. }
  pose proof Hc as (sz & Hsz & Hlen). unfold btf_type_size in Hsz.
  apply bind_Some in Hsz as (k & Hk & Hsz). apply bind_Some in Hsz as (v & Hv & Hsz).
  unfold btf_type_is_void. rewrite Hk. cbn [mbind option_bind]. destruct (bool_decide (t = btf_void) || (k =? BTF_KIND_FWD)); [eauto|].
  pose proof (fun i => complete_word t k v i Hc Hk Hv) as Hword.
  assert (12 <= type_size_of k v) as H12.
  { injection Hsz as <-. pose proof (type_size_rest k v (kind_range _ _ Hk) (proj1 (vlen_range _ _ Hv))) as Hr.
    destruct (rest_words k v); lia. }
  destruct (Hword 2) as [w2 Hw2]; [lia..|]. unfold size, type. rewrite Hw2. cbn [mbind option_bind].
  destruct (_ || _); [eauto|]. destruct (k =? BTF_KIND_PTR).
  { unfold btf_ptr_sz. destruct b as [|l b']; [by destruct (ok_cnt _ _ Hok)|]. cbn. eauto. }
  destruct (_ || _).
  { destruct (by_id_total b n w2 Hok (Hpos _ _ Hw2)) as (ot' & Hot' & _). rewrite Hot'. cbn [mbind option_bind].
    by apply (IH w2); [apply (Hpos _ _ Hw2)|]. }
  destruct (Z.eqb_spec k BTF_KIND_ARRAY) as [->|]; [|eauto].
  destruct (Hword 3) as [w3 Hw3]; [lia|unfold type_size_of; simpl; lia|].
  destruct (Hword 4) as [w4 Hw4]; [lia|unfold type_size_of; simpl; lia|].
  destruct (Hword 5) as [w5 Hw5]; [lia|unfold type_size_of; simpl; lia|].
  unfold array_of. rewrite Hw3. cbn [mbind option_bind]. rewrite Hw4. cbn [mbind option_bind]. rewrite Hw5. cbn [mbind option_bind arr_type arr_nelems].
  destruct (_ && _); [eauto|]. destruct (by_id_total b n w3 Hok (Hpos _ _ Hw3)) as (ot' & Hot' & _). rewrite Hot'. cbn [mbind option_bind].
  by apply (IH w3); [apply (Hpos _ _ Hw3)|].
Qed.

Lemma resolve_size_total b n id : btf_ok b n -> words_ok b -> 0 <= id -> exists r, btf__resolve_size b id = Some r.
Proof.
  intros Hok Hw Hid. unfold btf__resolve_size. destruct (by_id_total b n id Hok Hid) as (ot & Hot & _). rewrite Hot.
  cbn [mbind option_bind]. by eapply resolve_size_loop_total.
Qed.

(** [resolved b id t rid]: following aliases from [id] ends at [rid], whose type is [t]. *)
Inductive resolved (b : btf) : Z -> btf_type -> Z -> Prop :=
| resolved_here id t k : btf__type_by_id b id = Some (Some t) -> btf_kind t = Some k ->
    skipped_kind k = false -> resolved b id t id
| resolved_alias id t k ty t' rid : btf__type_by_id b id = Some (Some t) -> btf_kind t = Some k ->
    skipped_kind k = true -> type t = Some ty -> resolved b ty t' rid -> resolved b id t' rid.

Lemma alias_type b n id t k : btf_ok b n -> 0 <= id < n -> btf_type_by_id b id = Some t -> btf_kind t = Some k ->
  skipped_kind k = true -> exists ty, type t = Some ty.
Proof.
  intros H Hid Ht Hk Hs. destruct (ok_type b n H id Hid) as (t' & Ht' & Hc). rewrite Ht in Ht'. injection Ht' as <-.
  destruct Hc as [->|Hc].
  - destruct b as [|l b]; [done|]. simpl in Ht. simplify_eq. by eexists.
  - pose proof Hc as (sz & Hsz & Hl). unfold btf_type_size in Hsz. rewrite Hk in Hsz. cbn [mbind option_bind] in Hsz.
    apply bind_Some in Hsz as (v & Hv & Hsz). apply (complete_word t k v 2); auto; [lia|].
    unfold skipped_kind, kind_is_mod in Hs. repeat (apply orb_true_iff in Hs as [Hs|Hs]); apply Z.eqb_eq in Hs; by subst.
Qed.

Lemma skip_loop_total b n rank fuel id : btf_ok b n ->
  (forall id, 0 <= id < n -> (rank id <= Z.to_nat n)%nat /\
    forall t k ty, btf_type_by_id b id = Some t -> btf_kind t = Some k -> skipped_kind k = true ->
      type t = Some ty -> (rank ty < rank id)%nat) ->
  0 <= id < n -> (rank id < fuel)%nat ->
  exists t rid, skip_loop fuel b id = Some (t, rid) /\ 0 <= rid < n /\ resolved b id t rid.
Proof.
  intros H Hrank. revert id. induction fuel as [|fuel IH]; intros id Hid Hf; [lia|]. cbn [skip_loop].
  destruct (ok_by_id b n id H Hid) as (t & k & Hby & Ht & Hk). rewrite Hby. cbn [mbind option_bind].
  rewrite Hk. cbn [mbind option_bind]. fold (skipped_kind k). destruct (skipped_kind k) eqn:Hs.
  - destruct (alias_type b n id t k H Hid Ht Hk Hs) as [ty Hty]. rewrite Hty. cbn [mbind option_bind].
    pose proof (ok_alias b n H id t k ty Hid Ht Hk Hs Hty) as Hty0.
    pose proof (proj2 (Hrank id Hid) t k ty Ht Hk Hs Hty).
    destruct (IH ty Hty0) as (t' & rid & -> & Hr & Hres); [lia|]. exists t', rid. split; [done|]. split; [done|].
    by eapply resolved_alias.
  - exists t, id. split; [done|]. split; [done|]. by eapply resolved_here.
Qed.

Lemma skip_total b n id : btf_ok b n -> 0 <= id < n ->
  exists t rid, skip_mods_and_typedefs b id = Some (t, rid) /\ 0 <= rid < n /\ resolved b id t rid.
Proof.
  intros H Hid. unfold skip_mods_and_typedefs. rewrite (ok_cnt b n H). cbn [mbind option_bind].
  destruct (ok_acyclic b n H) as [rank Hrank]. apply (skip_loop_total b n rank); auto.
  pose proof (proj1 (Hrank id Hid)). lia.
Qed.

Lemma resolved_kind b id t rid : resolved b id t rid ->
  exists k, btf_kind t = Some k /\ skipped_kind k = false /\ btf__type_by_id b rid = Some (Some t).
Proof. induction 1; eauto. Qed.

(** ** Properties *)

(** An accepted header describes sections inside the data: the type section, 4-byte
    aligned, ends before the string section starts and the string section ends before the
    data does. *)
Theorem parse_hdr_sections raw_size h swapped h' : 0 <= raw_size -> btf_parse_hdr raw_size h = (0, swapped, h') ->
  24 <= raw_size /\ type_off h' mod 4 = 0 /\ type_off h' + type_len h' <= str_off h' /\
  hdr_len h' + str_off h' + str_len h' <= raw_size /\
  h' = (if swapped then btf_bswap_hdr h else h) /\ (swapped = true -> hdr_len h' = 24).
Proof.
  intros H0. unfold btf_parse_hdr. rewrite !Z.gtb_ltb. bcase; [done|].
  assert (forall sw h1, (if raw_size <? hdr_len h1 then (- EINVAL, sw, h1)
     else if raw_size - hdr_len h1 <? str_off h1 + str_len h1 then (- EINVAL, sw, h1)
     else if str_off h1 <? type_off h1 + type_len h1 then (- EINVAL, sw, h1)
     else if negb (type_off h1 mod 4 =? 0) then (- EINVAL, sw, h1) else (0, sw, h1)) = (0, swapped, h') ->
     sw = swapped /\ h1 = h' /\ type_off h' mod 4 = 0 /\ type_off h' + type_len h' <= str_off h' /\
     hdr_len h' + str_off h' + str_len h' <= raw_size) as Hchk.
  { intros sw h1. repeat bcase; intros Heq; simplify_eq. split_and!; try done; try lia. }
  bcase.
  - destruct (Z.eqb_spec (bswap_32 (hdr_len h)) 24) as [He|]; cbn [negb]; [|by intros [=]].
    intros Hc. apply Hchk in Hc as (<- & <- & ? & ? & ?). split; [done|]. by split_and!.
  - bcase; [by intros [=]|]. intros Hc. apply Hchk in Hc as (<- & <- & ? & ? & ?).
    split; [done|]. by split_and!.
Qed.

(** C20. Indexing the type section terminates, reads and writes only words of the section
    (the model has no result for an access behind it, swapping included) and does not
    depend on its byte order: for any native words, parsing them and parsing their
    byte-swapped form give the same error and the same index; on success the data ends
    up native in both cases and the index lists consecutive types, each with all its
    elements, that cover the section exactly. *)
Theorem parse_type_sec_correct alloc native len :
  Forall word_ok native -> 0 <= len -> Z.of_nat (length native) = len / 4 ->
  exists err offs d1 d2,
    btf_parse_type_sec alloc false native len = Some (err, d1, offs) /\
    btf_parse_type_sec alloc true (map bswap_32 native) len = Some (err, d2, offs) /\
    (err = 0 -> d1 = native /\ d2 = native /\ laid_out native 0 offs len /\
       forall i o, offs !! i = Some o -> type_complete (drop (Z.to_nat (o / 4)) native)).
Proof.
  intros Hok H0 Hlen. unfold btf_parse_type_sec.
  destruct (parse_loop_spec (S (Z.to_nat (len / 12))) alloc native len 0 [] Hok Hlen H0) as (err & offs & H).
  { simpl; lia. }
  { Z.div_mod_to_equations. lia. }
  destruct (H false) as (d1 & E1 & F1), (H true) as (d2 & E2 & F2). exists err, offs, d1, d2.
  unfold stored in *. rewrite take_0, drop_0 in *. split; [exact E1|]. split; [exact E2|]. intros He.
  destruct (F1 He) as [-> Hl], (F2 He) as [-> _]. split_and!; auto. intros i o Hi.
  by destruct (laid_out_lookup native 0 offs len i o ltac:(lia) eq_refl Hlen Hl Hi).
Qed.

(** C33. A BTF that passes the sanity check has valid references: every type of the object has
    a valid name, and the types its aliases, pointers, arrays, functions, members and
    parameters refer to exist. *)
Theorem sanity_check_sound b l n id t : head b = Some l -> btf_sanity_check b = Some 0 ->
  btf__type_cnt b = Some n -> start_id l <= id < n -> btf_type_by_id b id = Some t -> refs_valid b t.
Proof. intros Hl H. by apply (sanity_check_ok b l). Qed.

(** [btf__resolve_size] always answers, is sound and does not overflow: a non-negative
    result is the size of the type (the product of array dimensions and element size) and
    fits 32 bits; the only errors are -EINVAL and -E2BIG. *)
Theorem resolve_size_sound b n id : btf_ok b n -> words_ok b -> 0 <= id ->
  exists r, btf__resolve_size b id = Some r /\
    (r = - EINVAL \/ r = - E2BIG \/ (sizeof b id r /\ 0 <= r <= UINT32_MAX /\ forall m, sizeof b id m -> m = r)).
Proof.
  intros Hok Hw Hid. destruct (resolve_size_total b n id Hok Hw Hid) as [r H]. exists r. split; [done|].
  destruct (resolve_size_ok b Hw id r H) as [->|[->|(m & Hs & -> & Hb)]]; [by left|by right; left|].
  rewrite Z.mul_1_l in *. right. right. split_and!; [done|lia|lia|]. intros m' Hm'. by eapply sizeof_fun.
Qed.

(** C39. On a BTF whose aliases are valid and acyclic, skipping modifiers and typedefs
    terminates within one step per type and ends at the type the chain resolves to, which
    is neither a modifier nor a typedef. *)
Theorem skip_mods_resolves b n id : btf_ok b n -> 0 <= id < n ->
  exists t rid k, skip_mods_and_typedefs b id = Some (t, rid) /\ 0 <= rid < n /\ resolved b id t rid /\
    btf_kind t = Some k /\ skipped_kind k = false.
Proof.
  intros H Hid. destruct (skip_total b n id H Hid) as (t & rid & Hs & Hr & Hres).
  destruct (resolved_kind _ _ _ _ Hres) as (k & Hk & Hn & _). exists t, rid, k. done.
Qed.

(** ** Objects for the witnesses *)

(** int, const int, int[3]; and a prototype returning the unknown type 99. *)
Definition demo_words : list Z :=
  [0; 0x01000000; 4; 32;
   0; 0x0a000000; 1;
   0; 0x03000000; 0; 2; 1; 3].
Definition demo_layer : btf_layer := BtfLayer demo_words [0; 16; 28] 3 1 0 [0] 1 8.
Definition demo_btf : btf := [demo_layer].
Definition proto_btf : btf := [BtfLayer [0; 0x0d000000; 99] [0] 1 1 0 [0] 1 8].

(** The sanity check does not look at the result type of function prototypes: it accepts
    a BTF whose prototype returns a type that does not exist, and following that type
    dereferences the NULL its lookup gives. *)
Theorem sanity_check_misses_result_type :
  btf_sanity_check proto_btf = Some 0 /\ btf_type_by_id proto_btf 1 = Some [0; 0x0d000000; 99] /\
  btf__type_by_id proto_btf 99 = Some None /\ skip_mods_and_typedefs proto_btf 99 = None.
Proof. split_and!; vm_compute; reflexivity. Qed.

Lemma parse_hdr_sections_witness : 12 + 16 <= 28.
Proof.
  pose proof (parse_hdr_sections 60 (BtfHeader BTF_MAGIC 24 12 16 28 8) false (BtfHeader BTF_MAGIC 24 12 16 28 8)
    ltac:(lia) eq_refl) as (_ & _ & H & _). exact H.
Defined.

Lemma demo_words_ok : Forall word_ok demo_words.
Proof. repeat constructor; unfold word_ok; lia. Qed.

Lemma parse_type_sec_correct_witness :
  exists err offs d1 d2, btf_parse_type_sec (fun _ => true) false demo_words 52 = Some (err, d1, offs) /\
    btf_parse_type_sec (fun _ => true) true (map bswap_32 demo_words) 52 = Some (err, d2, offs).
Proof.
  destruct (parse_type_sec_correct (fun _ => true) demo_words 52) as (err & offs & d1 & d2 & H1 & H2 & _);
    [exact demo_words_ok|lia|reflexivity|]. exists err, offs, d1, d2. split; [exact H1|exact H2].
Defined.

Lemma sanity_check_sound_witness : refs_valid demo_btf [0; 0x0a000000; 1; 0; 0x03000000; 0; 2; 1; 3].
Proof.
  apply (sanity_check_sound demo_btf demo_layer 4 2); [reflexivity|vm_compute; reflexivity|reflexivity|simpl; lia|reflexivity].
Defined.

Lemma demo_btf_ok : btf_ok demo_btf 4.
Proof.
  assert (forall id, 0 <= id < 4 -> id = 0 \/ id = 1 \/ id = 2 \/ id = 3) as Hids by lia.
  split.
  - reflexivity.
  - intros id [->|[->|[->| ->]]]%Hids; eexists; (split; [vm_compute; reflexivity|]); [by left|right..];
      (eexists; split; [vm_compute; reflexivity|simpl; lia]).
  - intros id t k ty [->|[->|[->| ->]]]%Hids Ht Hk Hs Hty; vm_compute in Ht; simplify_eq;
      vm_compute in Hk; simplify_eq; try discriminate; vm_compute in Hty; simplify_eq; lia.
  - exists (fun id => if id =? 2 then 1%nat else 0%nat). intros id Hid. split; [destruct (id =? 2); simpl; lia|].
    intros t k ty Ht Hk Hs Hty. apply Hids in Hid as [->|[->|[->| ->]]]; vm_compute in Ht; simplify_eq;
      vm_compute in Hk; simplify_eq; try discriminate; vm_compute in Hty; simplify_eq; simpl; lia.
Qed.

Lemma resolve_size_sound_witness : exists r, btf__resolve_size demo_btf 3 = Some r.
Proof.
  destruct (resolve_size_sound demo_btf 4 3) as (r & H & _); [exact demo_btf_ok|repeat constructor; unfold word_ok; lia|lia|].
  exists r. exact H.
Defined.

Lemma skip_mods_resolves_witness : exists t rid, skip_mods_and_typedefs demo_btf 2 = Some (t, rid) /\ resolved demo_btf 2 t rid.
Proof.
  destruct (skip_mods_resolves demo_btf 4 2) as (t & rid & k & H & _ & Hr & _); [exact demo_btf_ok|lia|].
  exists t, rid. split; [exact H|exact Hr].
Defined.
