(* ===== verification/BtfBuild.v ===== *)
(** * Building BTF

    The modifiable form of a BTF object and the functions that extend it (src/libbpf/src/btf.c):
    strings ([btf__find_str], [btf__add_str]) and the functions that append a type or an element
    of the last type ([btf__add_int] ... [btf__add_decl_attr]).  The lemmas describe objects by
    the types they hold, with names resolved, and give the effect of each step on that view.

    An object starts out over a contiguous block and is split into header, type data and
    string set when it is first modified.  Type data is kept as 32-bit words: its capacity is
    in bytes as in the code, and the words are those that fit.  A chain is an object followed
    by its base objects.  Allocation outcomes come from an oracle: each allocation a call can
    make is addressed by a path of numbers, so all combinations of outcomes are covered. *)
From stdpp Require Import base numbers list gmap.
From S2P Require Import Prelude Hashmap Strset Btf.

Definition UINT_MAX := 2 ^ 32 - 1.
Definition INT_MIN := - 2 ^ 31.

(** ** Objects *)

(** Strings are bytes of the block, or a string set once the object is modifiable. *)
Inductive strs_rep := StrsRaw (data : list Z) | StrsSet (set : strset).

Record btf_obj := BtfObj {
  hdr : btf_header;
  o_types : list Z;
  types_cap : Z;
  o_offs : list Z;
  offs_cap : Z;
  o_nr_types : Z;
  o_start_id : Z;
  o_start_str_off : Z;
  o_strs : strs_rep;
  o_ptr_sz : Z
}.
Definition chain := list btf_obj.

Definition set_hdr (h : btf_header) (o : btf_obj) : btf_obj :=
  BtfObj h (o_types o) (types_cap o) (o_offs o) (offs_cap o) (o_nr_types o) (o_start_id o) (o_start_str_off o) (o_strs o) (o_ptr_sz o).
Definition set_types (ws : list Z) (cap : Z) (o : btf_obj) : btf_obj :=
  BtfObj (hdr o) ws cap (o_offs o) (offs_cap o) (o_nr_types o) (o_start_id o) (o_start_str_off o) (o_strs o) (o_ptr_sz o).
Definition set_offs (offs : list Z) (cap : Z) (o : btf_obj) : btf_obj :=
  BtfObj (hdr o) (o_types o) (types_cap o) offs cap (o_nr_types o) (o_start_id o) (o_start_str_off o) (o_strs o) (o_ptr_sz o).
Definition set_nr (n : Z) (o : btf_obj) : btf_obj :=
  BtfObj (hdr o) (o_types o) (types_cap o) (o_offs o) (offs_cap o) n (o_start_id o) (o_start_str_off o) (o_strs o) (o_ptr_sz o).
Definition set_strs (s : strs_rep) (o : btf_obj) : btf_obj :=
  BtfObj (hdr o) (o_types o) (types_cap o) (o_offs o) (offs_cap o) (o_nr_types o) (o_start_id o) (o_start_str_off o) s (o_ptr_sz o).

Definition h_type_len (o : btf_obj) : Z := type_len (hdr o).
Definition h_str_len (o : btf_obj) : Z := str_len (hdr o).
Definition set_str_len (n : Z) (o : btf_obj) : btf_obj :=
  let h := hdr o in set_hdr (BtfHeader (magic h) (hdr_len h) (type_off h) (type_len h) (str_off h) n) o.
(** [hdr->type_len += sz; hdr->str_off += sz]. *)
Definition grow_types (sz : Z) (o : btf_obj) : btf_obj :=
  let h := hdr o in
  set_hdr (BtfHeader (magic h) (hdr_len h) (type_off h) (u32 (type_len h + sz)) (u32 (str_off h + sz)) (str_len h)) o.

(** [btf_strs_data]. *)
Definition btf_strs_data (o : btf_obj) : list Z :=
  match o_strs o with StrsRaw data => data | StrsSet set => strs_data set end.

(** What the query functions see. *)
Definition layer_of (o : btf_obj) : btf_layer :=
  BtfLayer (o_types o) (o_offs o) (o_nr_types o) (o_start_id o) (o_start_str_off o) (btf_strs_data o) (h_str_len o) (o_ptr_sz o).
Definition view (c : chain) : btf := map layer_of c.

(** ** Making an object modifiable *)
Definition btf_is_modifiable (o : btf_obj) : bool :=
  match o_strs o with StrsRaw _ => false | StrsSet _ => true end.

Definition btf_ensure_modifiable (al : oracle) (o : btf_obj) : option (Z * btf_obj) :=
  match o_strs o with
  | StrsSet _ => Some (0, o)
  | StrsRaw data =>
    if negb (al [0] && al [1]) then Some (- ENOMEM, o)
    else
      r ← strset__new (al [2], al [3], al [4]) (fun off => (al [5; off], al [6; off])) BTF_MAX_STR_OFFSET
            (Some (take (Z.to_nat (h_str_len o)) data));
      match r with
      | inl err => Some (err, o)
      | inr set =>
        Some (0, set_strs (StrsSet set) (set_types (take (Z.to_nat (h_type_len o / 4)) (o_types o)) (h_type_len o) o))
      end
  end.

(** ** Strings *)
Fixpoint btf__find_str (al : oracle) (c : chain) (s : list Z) : option (Z * chain) :=
  match c with
  | [] => None
  | o :: base =>
    '(off, base) ← (match base with [] => Some (- ENOENT, []) | _ => btf__find_str (sub 0 al) base s end);
    if negb (off =? - ENOENT) then Some (off, o :: base)
    else
      '(err, o) ← btf_ensure_modifiable (sub 1 al) o;
      if negb (err =? 0) then Some (- ENOMEM, o :: base)
      else
        match o_strs o with
        | StrsRaw _ => None
        | StrsSet set =>
          '(off, set) ← strset__find_str (al [2]) set s;
          let c := set_strs (StrsSet set) o :: base in
          if off <? 0 then Some (off, c) else Some (s32 (o_start_str_off o + off), c)
        end
  end.

Definition btf__add_str (al : oracle) (c : chain) (s : list Z) : option (Z * chain) :=
  match c with
  | [] => None
  | o :: base =>
    '(off, base) ← (match base with [] => Some (- ENOENT, []) | _ => btf__find_str (sub 0 al) base s end);
    if negb (off =? - ENOENT) then Some (off, o :: base)
    else
      '(err, o) ← btf_ensure_modifiable (sub 1 al) o;
      if negb (err =? 0) then Some (- ENOMEM, o :: base)
      else
        match o_strs o with
        | StrsRaw _ => None
        | StrsSet set =>
          '(off, set) ← strset__add_str (al [2]) (al [3]) (al [4]) set s;
          let o := set_strs (StrsSet set) o in
          if off <? 0 then Some (off, o :: base)
          else Some (s32 (o_start_str_off o + off), set_str_len (strset__data_size set) o :: base)
        end
  end.

(** ** Memory for types

    [None] is the NULL of a failed allocation. *)
Definition btf_add_type_mem (al : bool) (o : btf_obj) (add_sz : Z) : option btf_obj :=
  '(_, cap) ← libbpf_add_mem al [] (types_cap o) 1 (h_type_len o) UINT_MAX add_sz;
  Some (set_types (o_types o ++ replicate (Z.to_nat (cap / 4) - length (o_types o)) 0) cap o).

Definition btf_add_type_offs_mem (al : bool) (o : btf_obj) (add_cnt : Z) : option btf_obj :=
  '(_, cap) ← libbpf_add_mem al [] (offs_cap o) 4 (o_nr_types o) BTF_MAX_NR_TYPES add_cnt;
  Some (set_offs (o_offs o ++ replicate (Z.to_nat cap - length (o_offs o)) 0) cap o).

Definition btf_add_type_idx_entry (al : bool) (o : btf_obj) (type_off : Z) : option (Z * btf_obj) :=
  match btf_add_type_offs_mem al o 1 with
  | None => Some (- ENOMEM, o)
  | Some o => offs ← zset (o_offs o) (o_nr_types o) type_off; Some (0, set_offs offs (offs_cap o) o)
  end.

Definition btf_type_info (kind vlen : Z) (kflag : bool) : Z := u32 ((bool_int kflag <<' 31) |' (kind <<' 24) |' vlen).

(** The word [t->info] of the type with the id [id] of the object. *)
Definition set_info (o : btf_obj) (id i : Z) : option btf_obj :=
  off ← zget (o_offs o) (id - o_start_id o);
  ws ← zset (o_types o) (off / 4 + 1) i;
  Some (set_types ws (types_cap o) o).

(** [last_info f]: [t = btf_last_type(btf); t->info = f(btf_kind(t), btf_vlen(t), btf_kflag(t))]. *)
Definition last_info (f : Z -> Z -> bool -> Z) (c : chain) : option chain :=
  o ← head c;
  n ← btf__type_cnt (view c);
  t ← btf_type_by_id (view c) (n - 1);
  k ← btf_kind t; v ← btf_vlen t; fl ← btf_kflag t;
  o ← set_info o (n - 1) (f k v fl);
  Some (o :: tail c).
Definition btf_type_inc_vlen : chain -> option chain := last_info (fun k v fl => btf_type_info k (v + 1) fl).

(** The words at the end of the type data. *)
Definition put_words (ws : list Z) (o : btf_obj) : option btf_obj :=
  data ← memcpy_at (o_types o) (h_type_len o / 4) ws;
  Some (set_types data (types_cap o) o).

Definition btf_commit_type (al : bool) (c : chain) (data_sz : Z) : option (Z * chain) :=
  o ← head c;
  '(err, o) ← btf_add_type_idx_entry al o (h_type_len o);
  if negb (err =? 0) then Some (err, o :: tail c)
  else
    let o := set_nr (u32 (o_nr_types o + 1)) (grow_types data_sz o) in
    Some (s32 (o_start_id o + o_nr_types o - 1), o :: tail c).

(** ** Appending types and elements *)

(** [!name || !name\[0\]]; [None] is NULL. *)
Definition no_name (name : option (list Z)) : bool := match name with None | Some [] => true | _ => false end.

(** [name_off] of a type or element: 0 without a name. *)
Definition add_name (al : oracle) (c : chain) (name : option (list Z)) : option (Z * chain) :=
  match name with
  | None | Some [] => Some (0, c)
  | Some s => btf__add_str al c s
  end.

(** What the functions share once their arguments are checked: make the object modifiable,
    allocate [sz] bytes, add the name, then write [words name_off] and do [fin]. *)
Definition append (al : oracle) (c : chain) (sz : Z) (name : option (list Z)) (words : Z -> list Z)
    (fin : chain -> option (Z * chain)) : option (Z * chain) :=
  o ← head c;
  '(err, o) ← btf_ensure_modifiable (sub 0 al) o;
  if negb (err =? 0) then Some (- ENOMEM, o :: tail c)
  else
    match btf_add_type_mem (al [1]) o sz with
    | None => Some (- ENOMEM, o :: tail c)
    | Some o =>
      '(name_off, c) ← add_name (sub 2 al) (o :: tail c) name;
      if name_off <? 0 then Some (name_off, c)
      else
        o ← head c;
        o ← put_words (words name_off) o;
        fin (o :: tail c)
    end.

(** Types end with [btf_commit_type]. *)
Definition append_type (al : oracle) (c : chain) (sz : Z) (name : option (list Z)) (words : Z -> list Z) : option (Z * chain) :=
  append al c sz name words (fun c => btf_commit_type (al [3]) c sz).

(** Elements end with an update of the last type's [info] and of the lengths. *)
Definition append_elem (al : oracle) (c : chain) (sz : Z) (name : option (list Z)) (words : Z -> list Z)
    (upd : chain -> option chain) : option (Z * chain) :=
  append al c sz name words (fun c => c ← upd c; o ← head c; Some (0, grow_types sz o :: tail c)).

Definition BTF_INT_CHAR := 2.
Definition BTF_INT_BOOL := 4.

Definition btf__add_int (al : oracle) (c : chain) (name : option (list Z)) (byte_sz encoding : Z) : option (Z * chain) :=
  if no_name name then Some (- EINVAL, c)
  else if (byte_sz =? 0) || negb (byte_sz &' u64 (byte_sz - 1) =? 0) || (byte_sz >? 16) then Some (- EINVAL, c)
  else if negb (encoding &' Z.lnot (BTF_INT_SIGNED |' BTF_INT_CHAR |' BTF_INT_BOOL) =? 0) then Some (- EINVAL, c)
  else append_type al c 16 name (fun name_off =>
    [name_off; btf_type_info BTF_KIND_INT 0 false; byte_sz; u32 ((encoding <<' 24) |' (byte_sz * 8))]).

Definition btf__add_float (al : oracle) (c : chain) (name : option (list Z)) (byte_sz : Z) : option (Z * chain) :=
  if no_name name then Some (- EINVAL, c)
  else if negb (byte_sz =? 2) && negb (byte_sz =? 4) && negb (byte_sz =? 8) && negb (byte_sz =? 12) && negb (byte_sz =? 16)
  then Some (- EINVAL, c)
  else append_type al c 12 name (fun name_off => [name_off; btf_type_info BTF_KIND_FLOAT 0 false; byte_sz]).

(** Whether [validate_type_id] returns an error; the id is an [int]. *)
Definition bad_type_id (id : Z) : bool := (id <? 0) || (id >? BTF_MAX_NR_TYPES).

Definition btf_add_ref_kind (al : oracle) (c : chain) (kind : Z) (name : option (list Z)) (ref_type_id : Z) (kflag : bool)
  : option (Z * chain) :=
  if bad_type_id ref_type_id then Some (- EINVAL, c)
  else append_type al c 12 name (fun name_off => [name_off; btf_type_info kind 0 kflag; ref_type_id]).

Definition btf__add_ptr (al : oracle) (c : chain) (ref_type_id : Z) : option (Z * chain) :=
  btf_add_ref_kind al c BTF_KIND_PTR None ref_type_id false.

Definition btf__add_array (al : oracle) (c : chain) (index_type_id elem_type_id nr_elems : Z) : option (Z * chain) :=
  if bad_type_id index_type_id || bad_type_id elem_type_id then Some (- EINVAL, c)
  else append_type al c 24 None (fun _ =>
    [0; btf_type_info BTF_KIND_ARRAY 0 false; 0; elem_type_id; index_type_id; nr_elems]).

Definition btf_add_composite (al : oracle) (c : chain) (kind : Z) (name : option (list Z)) (bytes_sz : Z) : option (Z * chain) :=
  append_type al c 12 name (fun name_off => [name_off; btf_type_info kind 0 false; bytes_sz]).
Definition btf__add_struct (al : oracle) (c : chain) (name : option (list Z)) (byte_sz : Z) : option (Z * chain) :=
  btf_add_composite al c BTF_KIND_STRUCT name byte_sz.
Definition btf__add_union (al : oracle) (c : chain) (name : option (list Z)) (byte_sz : Z) : option (Z * chain) :=
  btf_add_composite al c BTF_KIND_UNION name byte_sz.

(** The guard of the functions that extend the last type: its kind, or [None] for an object
    without types. *)
Definition last_kind (c : chain) : option (option Z) :=
  o ← head c;
  if o_nr_types o =? 0 then Some None
  else
    n ← btf__type_cnt (view c);
    t ← btf_type_by_id (view c) (n - 1);
    k ← btf_kind t;
    Some (Some k).

Definition btf__add_field (al : oracle) (c : chain) (name : option (list Z)) (type_id bit_offset bit_size : Z) : option (Z * chain) :=
  ok ← last_kind c;
  match ok with
  | None => Some (- EINVAL, c)
  | Some k =>
    if negb (kind_is_composite k) then Some (- EINVAL, c)
    else if bad_type_id type_id then Some (- EINVAL, c)
    else
      let is_bitfield := negb (bit_size =? 0) || negb (bit_offset mod 8 =? 0) in
      if is_bitfield && ((bit_size =? 0) || (bit_size >? 255) || (bit_offset >? 0xffffff)) then Some (- EINVAL, c)
      else if (k =? BTF_KIND_UNION) && negb (bit_offset =? 0) then Some (- EINVAL, c)
      else append_elem al c 12 name (fun name_off => [name_off; type_id; bit_offset |' u32 (bit_size <<' 24)])
             (last_info (fun k v fl => btf_type_info k (v + 1) (is_bitfield || fl)))
  end.

Definition btf_add_enum_common (al : oracle) (c : chain) (name : option (list Z)) (byte_sz : Z) (is_signed : bool) (kind : Z)
  : option (Z * chain) :=
  if (byte_sz =? 0) || negb (byte_sz &' u32 (byte_sz - 1) =? 0) || (byte_sz >? 8) then Some (- EINVAL, c)
  else append_type al c 12 name (fun name_off => [name_off; btf_type_info kind 0 is_signed; byte_sz]).

Definition btf__add_enum (al : oracle) (c : chain) (name : option (list Z)) (byte_sz : Z) : option (Z * chain) :=
  btf_add_enum_common al c name byte_sz false BTF_KIND_ENUM.

Definition btf__add_enum_value (al : oracle) (c : chain) (name : option (list Z)) (value : Z) : option (Z * chain) :=
  ok ← last_kind c;
  match ok with
  | None => Some (- EINVAL, c)
  | Some k =>
    if negb (k =? BTF_KIND_ENUM) then Some (- EINVAL, c)
    else if no_name name then Some (- EINVAL, c)
    else if (value <? INT_MIN) || (value >? UINT_MAX) then Some (- E2BIG, c)
    else append_elem al c 8 name (fun name_off => [name_off; u32 value])
           (fun c =>
              c ← btf_type_inc_vlen c;
              if value <? 0 then last_info (fun k v _ => btf_type_info k v true) c else Some c)
  end.

Definition btf__add_enum64 (al : oracle) (c : chain) (name : option (list Z)) (byte_sz : Z) (is_signed : bool) : option (Z * chain) :=
  btf_add_enum_common al c name byte_sz is_signed BTF_KIND_ENUM64.

Definition btf__add_enum64_value (al : oracle) (c : chain) (name : option (list Z)) (value : Z) : option (Z * chain) :=
  ok ← last_kind c;
  match ok with
  | None => Some (- EINVAL, c)
  | Some k =>
    if negb (k =? BTF_KIND_ENUM64) then Some (- EINVAL, c)
    else if no_name name then Some (- EINVAL, c)
    else append_elem al c 12 name (fun name_off => [name_off; u32 value; u32 (value >>' 32)]) btf_type_inc_vlen
  end.

Definition BTF_FWD_STRUCT := 0.
Definition BTF_FWD_UNION := 1.
Definition BTF_FWD_ENUM := 2.

(** [t = btf_type_by_id(btf, id); t->info = i] for a type just added. *)
Definition info_of_new (r : Z * chain) (i : Z) : option (Z * chain) :=
  if r.1 <=? 0 then Some r
  else o ← head r.2; o ← set_info o r.1 i; Some (r.1, o :: tail r.2).

Definition btf__add_fwd (al : oracle) (c : chain) (name : option (list Z)) (fwd_kind : Z) : option (Z * chain) :=
  if no_name name then Some (- EINVAL, c)
  else if (fwd_kind =? BTF_FWD_STRUCT) || (fwd_kind =? BTF_FWD_UNION) then
    r ← btf_add_ref_kind al c BTF_KIND_FWD name 0 false;
    info_of_new r (btf_type_info BTF_KIND_FWD 0 (fwd_kind =? BTF_FWD_UNION))
  else if fwd_kind =? BTF_FWD_ENUM then btf__add_enum al c name 4
  else Some (- EINVAL, c).

Definition btf__add_typedef (al : oracle) (c : chain) (name : option (list Z)) (ref_type_id : Z) : option (Z * chain) :=
  if no_name name then Some (- EINVAL, c) else btf_add_ref_kind al c BTF_KIND_TYPEDEF name ref_type_id false.
Definition btf__add_volatile (al : oracle) (c : chain) (ref_type_id : Z) : option (Z * chain) :=
  btf_add_ref_kind al c BTF_KIND_VOLATILE None ref_type_id false.
Definition btf__add_const (al : oracle) (c : chain) (ref_type_id : Z) : option (Z * chain) :=
  btf_add_ref_kind al c BTF_KIND_CONST None ref_type_id false.
Definition btf__add_restrict (al : oracle) (c : chain) (ref_type_id : Z) : option (Z * chain) :=
  btf_add_ref_kind al c BTF_KIND_RESTRICT None ref_type_id false.
Definition btf__add_type_tag (al : oracle) (c : chain) (value : option (list Z)) (ref_type_id : Z) : option (Z * chain) :=
  if no_name value then Some (- EINVAL, c) else btf_add_ref_kind al c BTF_KIND_TYPE_TAG value ref_type_id false.
Definition btf__add_type_attr (al : oracle) (c : chain) (value : option (list Z)) (ref_type_id : Z) : option (Z * chain) :=
  if no_name value then Some (- EINVAL, c) else btf_add_ref_kind al c BTF_KIND_TYPE_TAG value ref_type_id true.

Definition btf__add_func (al : oracle) (c : chain) (name : option (list Z)) (linkage proto_type_id : Z) : option (Z * chain) :=
  if no_name name then Some (- EINVAL, c)
  else if negb (linkage =? 0) && negb (linkage =? 1) && negb (linkage =? 2) then Some (- EINVAL, c)
  else
    r ← btf_add_ref_kind al c BTF_KIND_FUNC name proto_type_id false;
    info_of_new r (btf_type_info BTF_KIND_FUNC linkage false).

Definition btf__add_func_proto (al : oracle) (c : chain) (ret_type_id : Z) : option (Z * chain) :=
  if bad_type_id ret_type_id then Some (- EINVAL, c)
  else append_type al c 12 None (fun _ => [0; btf_type_info BTF_KIND_FUNC_PROTO 0 false; ret_type_id]).

Definition btf__add_func_param (al : oracle) (c : chain) (name : option (list Z)) (type_id : Z) : option (Z * chain) :=
  if bad_type_id type_id then Some (- EINVAL, c)
  else
    ok ← last_kind c;
    match ok with
    | None => Some (- EINVAL, c)
    | Some k =>
      if negb (k =? BTF_KIND_FUNC_PROTO) then Some (- EINVAL, c)
      else append_elem al c 8 name (fun name_off => [name_off; type_id]) btf_type_inc_vlen
    end.

Definition btf__add_var (al : oracle) (c : chain) (name : option (list Z)) (linkage type_id : Z) : option (Z * chain) :=
  if no_name name then Some (- EINVAL, c)
  else if negb (linkage =? 0) && negb (linkage =? 1) && negb (linkage =? 2) then Some (- EINVAL, c)
  else if bad_type_id type_id then Some (- EINVAL, c)
  else append_type al c 16 name (fun name_off => [name_off; btf_type_info BTF_KIND_VAR 0 false; type_id; linkage]).

Definition btf__add_datasec (al : oracle) (c : chain) (name : option (list Z)) (byte_sz : Z) : option (Z * chain) :=
  if no_name name then Some (- EINVAL, c)
  else append_type al c 12 name (fun name_off => [name_off; btf_type_info BTF_KIND_DATASEC 0 false; byte_sz]).

Definition btf__add_datasec_var_info (al : oracle) (c : chain) (var_type_id offset byte_sz : Z) : option (Z * chain) :=
  ok ← last_kind c;
  match ok with
  | None => Some (- EINVAL, c)
  | Some k =>
    if negb (k =? BTF_KIND_DATASEC) then Some (- EINVAL, c)
    else if bad_type_id var_type_id then Some (- EINVAL, c)
    else append_elem al c 12 None (fun _ => [var_type_id; offset; byte_sz]) btf_type_inc_vlen
  end.

Definition btf_add_decl_tag (al : oracle) (c : chain) (value : option (list Z)) (ref_type_id component_idx : Z) (kflag : bool)
  : option (Z * chain) :=
  if no_name value || (component_idx <? -1) then Some (- EINVAL, c)
  else if bad_type_id ref_type_id then Some (- EINVAL, c)
  else append_type al c 16 value (fun value_off =>
    [value_off; btf_type_info BTF_KIND_DECL_TAG 0 kflag; ref_type_id; u32 component_idx]).
Definition btf__add_decl_tag (al : oracle) (c : chain) (value : option (list Z)) (ref_type_id component_idx : Z) : option (Z * chain) :=
  btf_add_decl_tag al c value ref_type_id component_idx false.
Definition btf__add_decl_attr (al : oracle) (c : chain) (value : option (list Z)) (ref_type_id component_idx : Z) : option (Z * chain) :=
  btf_add_decl_tag al c value ref_type_id component_idx true.

(** ** What a BTF object describes

    The abstract view of a type: its kind, [vlen] and [kflag], its name, the word shared by
    [size] and [type], and what follows, in which names of elements are resolved. *)
Definition slot : Type := Z + list Z.
Record atype := AType { a_kind : Z; a_vlen : Z; a_kflag : bool; a_name : list Z; a_val : Z; a_rest : list slot }.

(** The number of words of the elements of a kind that start with a name. *)
Definition name_stride (k : Z) : option Z :=
  if (k =? BTF_KIND_ENUM) || (k =? BTF_KIND_FUNC_PROTO) then Some 2
  else if (k =? BTF_KIND_ENUM64) || (k =? BTF_KIND_STRUCT) || (k =? BTF_KIND_UNION) then Some 3
  else None.
(** Whether the [i]-th word behind the base is a name. *)
Definition name_slot (k i : Z) : bool := match name_stride k with Some n => i mod n =? 0 | None => false end.

Fixpoint slots (b : btf) (k i : Z) (ws : list Z) : option (list slot) :=
  match ws with
  | [] => Some []
  | w :: ws =>
    x ← (if name_slot k i then s ← btf__str_by_offset b w; s ← s; Some (inr s) else Some (inl w));
    l ← slots b k (i + 1) ws;
    Some (x :: l)
  end.

Definition type_view (b : btf) (t : btf_type) : option atype :=
  k ← btf_kind t; v ← btf_vlen t; f ← btf_kflag t; n ← rest_words k v;
  no ← name_off t; s ← btf__str_by_offset b no; s ← s; val ← size t;
  guard (3 + n <= Z.of_nat (length t));;
  rest ← slots b k 0 (take (Z.to_nat n) (drop 3 t));
  Some (AType k v f s val rest).

(** The types the object at the head of a chain adds to its base, by their ids. *)
Definition obj_types (c : chain) : option (list atype) :=
  o ← head c;
  mapM (fun id => t ← btf_type_by_id (view c) id; type_view (view c) t) (seqZ (o_start_id o) (o_nr_types o)).

Definition strs_ext (b b' : btf) : Prop :=
  forall off s, btf__str_by_offset b off = Some (Some s) -> btf__str_by_offset b' off = Some (Some s).

Lemma slots_app b k i ws1 ws2 : slots b k i (ws1 ++ ws2) =
  (l1 ← slots b k i ws1; l2 ← slots b k (i + Z.of_nat (length ws1)) ws2; Some (l1 ++ l2)).
Proof.
  revert i. induction ws1 as [|w ws1 IH]; intros i; simpl.
  - rewrite Z.add_0_r. destruct (slots b k i ws2); done.
  - destruct (if name_slot k i then _ else _) as [x|]; [|done]. cbn [mbind option_bind]. rewrite IH.
    replace (i + 1 + Z.of_nat (length ws1)) with (i + Z.of_nat (S (length ws1))) by lia.
    destruct (slots b k (i + 1) ws1); [|done]. cbn [mbind option_bind]. by destruct (slots _ _ _ ws2).
Qed.

Lemma slots_ext b b' k i ws l : strs_ext b b' -> slots b k i ws = Some l -> slots b' k i ws = Some l.
Proof.
  intros Hext. revert i l. induction ws as [|w ws IH]; intros i l; cbn [slots]; [done|]. intros H.
  apply bind_Some in H as (x & Hx & H). apply bind_Some in H as (l' & Hl & H). simplify_eq.
  assert ((if name_slot k i then s ← btf__str_by_offset b' w; s ← s; Some (inr s) else Some (inl w)) = Some x) as ->.
  { destruct (name_slot k i); [|done]. apply bind_Some in Hx as ([s|] & Hs & Hx); [|done].
    apply Hext in Hs. rewrite Hs. done. }
  cbn [mbind option_bind]. rewrite (IH _ _ Hl). done.
Qed.

Lemma slots_length b k i ws l : slots b k i ws = Some l -> length l = length ws.
Proof.
  revert i l. induction ws as [|w ws IH]; intros i l; cbn [slots]; intros H; [by simplify_eq|].
  apply bind_Some in H as (x & Hx & H). apply bind_Some in H as (l' & Hl & H). simplify_eq/=. f_equal. eauto.
Qed.

(** The view only depends on the words of the type and on the strings. *)
Lemma type_view_inv b t a : type_view b t = Some a -> exists n rest,
  rest_words (a_kind a) (a_vlen a) = Some n /\ 0 <= n /\ 3 + n <= Z.of_nat (length t) /\
  btf_kind t = Some (a_kind a) /\ btf_vlen t = Some (a_vlen a) /\ btf_kflag t = Some (a_kflag a) /\
  (exists no, name_off t = Some no /\ btf__str_by_offset b no = Some (Some (a_name a))) /\ size t = Some (a_val a) /\
  slots b (a_kind a) 0 (take (Z.to_nat n) (drop 3 t)) = Some rest /\ a_rest a = rest.
Proof.
  unfold type_view. intros H. apply bind_Some in H as (k & Hk & H). apply bind_Some in H as (v & Hv & H).
  apply bind_Some in H as (f & Hf & H). apply bind_Some in H as (n & Hn & H). apply bind_Some in H as (no & Hno & H).
  apply bind_Some in H as (os & Hos & H). apply bind_Some in H as (s & Hs & H). apply bind_Some in H as (val & Hval & H).
  case_guard; [|done]. apply bind_Some in H as (u & _ & H). apply bind_Some in H as (rest & Hrest & H). simplify_eq/=.
  exists n, rest. split; [done|]. split; [|split_and!; eauto].
  pose proof (type_size_rest k v (kind_range _ _ Hk) (proj1 (vlen_range _ _ Hv))) as Hr. rewrite Hn in Hr. lia.
Qed.

Lemma type_view_size b t a : type_view b t = Some a -> exists n, rest_words (a_kind a) (a_vlen a) = Some n /\ 0 <= n /\
  btf_type_size t = Some (12 + 4 * n) /\ 3 + n <= Z.of_nat (length t).
Proof.
  intros (n & rest & Hn & H0 & Hlen & Hk & Hv & _)%type_view_inv. exists n. split; [done|]. split; [done|]. split; [|done].
  unfold btf_type_size. rewrite Hk. cbn [mbind option_bind]. rewrite Hv. cbn [mbind option_bind]. f_equal.
  pose proof (type_size_rest _ _ (kind_range _ _ Hk) (proj1 (vlen_range _ _ Hv))) as Hr. rewrite Hn in Hr. apply Hr.
Qed.

Lemma type_view_ext b b' t t' a n : type_view b t = Some a -> strs_ext b b' ->
  rest_words (a_kind a) (a_vlen a) = Some n -> take (3 + Z.to_nat n) t' = take (3 + Z.to_nat n) t -> type_view b' t' = Some a.
Proof.
  intros (n' & rest & Hn & H0 & Hlen & Hk & Hv & Hf & (no & Hno & Hs) & Hval & Hrest & Ha)%type_view_inv Hext Hn' Htake.
  rewrite Hn in Hn'. injection Hn' as ->.
  assert (forall i, 0 <= i < 3 -> word t' i = word t i) as Hw.
  { intros i Hi. unfold word, zget. rewrite !decide_True by lia.
    rewrite <- (lookup_take_lt t' (3 + Z.to_nat n)), <- (lookup_take_lt t (3 + Z.to_nat n)) by lia. by rewrite Htake. }
  assert (info t' = info t) as Hinfo by (apply Hw; lia).
  unfold type_view, btf_kind, btf_vlen, btf_kflag, name_off, size in *. rewrite Hinfo, !Hw by lia.
  rewrite Hk. cbn [mbind option_bind]. rewrite Hv. cbn [mbind option_bind]. rewrite Hf. cbn [mbind option_bind].
  rewrite Hn. cbn [mbind option_bind]. rewrite Hno. cbn [mbind option_bind]. rewrite (Hext _ _ Hs). cbn [mbind option_bind].
  rewrite Hval. cbn [mbind option_bind].
  assert (length (take (3 + Z.to_nat n) t') = 3 + Z.to_nat n)%nat as Hl by (rewrite Htake, length_take; lia).
  rewrite length_take in Hl. rewrite option_guard_True by lia. cbn [mbind option_bind].
  assert (take (Z.to_nat n) (drop 3 t') = take (Z.to_nat n) (drop 3 t)) as ->.
  { apply list_eq. intros i. destruct (decide (i < Z.to_nat n)%nat).
    - rewrite !lookup_take_lt, !lookup_drop by done.
      rewrite <- (lookup_take_lt t' (3 + Z.to_nat n)), <- (lookup_take_lt t (3 + Z.to_nat n)) by lia. by rewrite Htake.
    - rewrite !lookup_take_ge by lia. done. }
  rewrite (slots_ext b b' _ _ _ _ Hext Hrest). cbn [mbind option_bind]. rewrite <- Ha. by destruct a.
Qed.

(** ** The invariant *)
Definition own_offs (o : btf_obj) : list Z := take (Z.to_nat (o_nr_types o)) (o_offs o).

Record obj_wf (o : btf_obj) : Prop := {
  ow_words : Forall word_ok (o_types o);
  ow_nr : 0 <= o_nr_types o <= offs_cap o;
  ow_offs : Z.of_nat (length (o_offs o)) = offs_cap o /\ offs_cap o < 2 ^ 31;
  ow_laid : laid_out (o_types o) 0 (own_offs o) (h_type_len o);
  ow_start : 1 <= o_start_id o <= 2 ^ 30 /\ 0 <= o_start_str_off o < 2 ^ 31;
  ow_len : 0 <= h_type_len o < 2 ^ 32;
  ow_strs : match o_strs o with
            | StrsRaw data =>
              Z.of_nat (length (o_types o)) = h_type_len o / 4 /\
              Z.of_nat (length data) = h_str_len o /\ terminated data (h_str_len o) /\ h_str_len o < 2 ^ 31
            | StrsSet set =>
              h_type_len o <= types_cap o < 2 ^ 32 /\ Z.of_nat (length (o_types o)) = types_cap o / 4 /\
              strset_wf set /\ strs_data_len set = h_str_len o /\ strs_data_max_len set = BTF_MAX_STR_OFFSET
            end
}.

(** The strings of an object come after those of its base, and offset 0 is the empty string. *)
Fixpoint linked (c : chain) : Prop :=
  match c with
  | o :: c' => match c' with b :: _ => o_start_str_off b + h_str_len b <= o_start_str_off o | [] => True end /\ linked c'
  | [] => True
  end.
Definition chain_wf (c : chain) : Prop :=
  c <> [] /\ Forall obj_wf c /\ linked c /\ btf__str_by_offset (view c) 0 = Some (Some []).

(** What an operation that does not add a type keeps. *)
Record obj_kept (o o' : btf_obj) : Prop := {
  k_start : o_start_id o' = o_start_id o /\ o_start_str_off o' = o_start_str_off o;
  k_nr : o_nr_types o' = o_nr_types o;
  k_offs : own_offs o' = own_offs o;
  k_len : h_type_len o' = h_type_len o;
  k_types : take (Z.to_nat (h_type_len o / 4)) (o_types o') = take (Z.to_nat (h_type_len o / 4)) (o_types o);
  k_str_len : h_str_len o <= h_str_len o';
  k_strs : forall off, 0 <= off < h_str_len o -> str_at (btf_strs_data o') off = str_at (btf_strs_data o) off
}.
Definition chain_kept (c c' : chain) : Prop := Forall2 obj_kept c c'.

Lemma obj_kept_refl o : obj_kept o o.
Proof. by split. Qed.
Lemma obj_kept_trans o1 o2 o3 : obj_kept o1 o2 -> obj_kept o2 o3 -> obj_kept o1 o3.
Proof.
  intros [[? ?] ? ? Hl Ht ? Hs] [[? ?] ? ? Hl' Ht' ? Hs']. split; [split; congruence|congruence|congruence|congruence| |lia|].
  - rewrite Hl in Ht'. etransitivity; [exact Ht'|exact Ht].
  - intros off Ho. rewrite Hs' by lia. by apply Hs.
Qed.
Lemma chain_kept_refl c : chain_kept c c.
Proof. induction c; constructor; auto using obj_kept_refl. Qed.
Lemma chain_kept_trans c1 c2 c3 : chain_kept c1 c2 -> chain_kept c2 c3 -> chain_kept c1 c3.
Proof.
  intros H. revert c3. induction H as [|o1 o2 c1 c2 H12 _ IH]; intros c3 H3; inversion H3; subst; constructor; [by eapply obj_kept_trans|by apply IH].
Qed.

Lemma kept_strs c c' : chain_kept c c' -> strs_ext (view c) (view c').
Proof.
  intros H. induction H as [|o o' c c' Ho _ IH]; intros off s; simpl; [done|].
  destruct Ho as [[_ Hst] _ _ _ _ Hlen Hs]. rewrite Hst. destruct (Z.ltb_spec off (o_start_str_off o)); [apply IH|].
  destruct (Z.ltb_spec (off - o_start_str_off o) (h_str_len o)); [|done].
  destruct (Z.ltb_spec (off - o_start_str_off o) (h_str_len o')); [|lia]. by rewrite Hs by lia.
Qed.


(** ** Types of an object *)
Lemma laid_le data next offs e : laid_out data next offs e -> next <= e.
Proof.
  revert next. induction offs as [|o offs IH]; intros next; simpl; [lia|]. intros (-> & sz & _ & ? & _ & ? & H). lia.
Qed.

Lemma laid_app data next offs1 offs2 e : laid_out data next (offs1 ++ offs2) e <->
  exists m, laid_out data next offs1 m /\ laid_out data m offs2 e.
Proof.
  revert next. induction offs1 as [|o offs1 IH]; intros next; simpl.
  - split; [eauto|]. by intros (m & -> & H).
  - split.
    + intros (-> & sz & Hsz & ? & ? & ? & H). apply IH in H as (m & Ha & Hb). exists m. split; [|done].
      split; [done|]. exists sz. pose proof (laid_le _ _ _ _ Ha). by split_and!.
    + intros (m & (-> & sz & Hsz & ? & ? & ? & Ha) & Hb). split; [done|]. exists sz.
      pose proof (laid_le _ _ _ _ Ha). pose proof (laid_le _ _ _ _ Hb). split_and!; auto; [lia|]. apply IH. eauto.
Qed.

Lemma laid_mod data next offs e : laid_out data next offs e -> next mod 4 = 0 -> e mod 4 = 0.
Proof.
  revert next. induction offs as [|o offs IH]; intros next; simpl; [congruence|]. intros (-> & sz & _ & ? & Hm & ? & H) Hn.
  apply (IH _ H). by rewrite Z.add_mod, Hn, Hm by lia.
Qed.

Lemma laid_count data next offs e : laid_out data next offs e -> next + 12 * Z.of_nat (length offs) <= e.
Proof.
  revert next. induction offs as [|o offs IH]; intros next; simpl; [lia|]. intros (-> & sz & _ & ? & _ & ? & H).
  specialize (IH _ H). lia.
Qed.

(** The types of a section are inside it, at aligned offsets. *)
Lemma laid_in data next offs e off : laid_out data next offs e -> 0 <= next -> next mod 4 = 0 -> off ∈ offs ->
  0 <= off /\ off mod 4 = 0 /\ exists sz, btf_type_size (drop (Z.to_nat (off / 4)) data) = Some sz /\ 12 <= sz /\ sz mod 4 = 0 /\
    off + sz <= e.
Proof.
  revert next. induction offs as [|o offs IH]; intros next; simpl; [by intros _ _ _ ?%elem_of_nil|].
  intros (-> & sz & Hsz & ? & Hm & ? & Hl) Hp Hn [->|Hin]%elem_of_cons; [eauto 10|].
  apply (IH (next + sz)); auto; [lia|]. by rewrite Z.add_mod, Hn, Hm by lia.
Qed.

Lemma info_ext (data data' : list Z) i n : take n data' = take n data -> (i + 1 < n)%nat -> info (drop i data') = info (drop i data).
Proof.
  intros Ht Hi. unfold info, word, zget. rewrite !decide_True, !lookup_drop by lia.
  rewrite <- (lookup_take_lt data' n), <- (lookup_take_lt data n) by lia. by rewrite Ht.
Qed.

Lemma size_ext (data data' : list Z) i n : take n data' = take n data -> (i + 1 < n)%nat ->
  btf_type_size (drop i data') = btf_type_size (drop i data).
Proof. intros Ht Hi. unfold btf_type_size, btf_kind, btf_vlen. by rewrite (info_ext data data' i n). Qed.

Lemma laid_ext data data' next offs e e' : laid_out data next offs e -> 0 <= next -> next mod 4 = 0 -> e <= e' ->
  take (Z.to_nat (e' / 4)) data' = take (Z.to_nat (e' / 4)) data -> laid_out data' next offs e.
Proof.
  intros Hl Hp Hn He Ht. revert next Hl Hp Hn. induction offs as [|o offs IH]; intros next; simpl; [done|].
  intros (-> & sz & Hsz & ? & Hm & ? & Hl) Hp Hn. split; [done|]. exists sz. split_and!; auto.
  - rewrite <- Hsz. apply (size_ext _ _ _ _ Ht). Z.to_euclidean_division_equations; lia.
  - apply IH; auto; [lia|]. by rewrite Z.add_mod, Hn, Hm by lia.
Qed.

Lemma mapM_seqZ {A} (f g : Z -> option A) l start : (forall i x, l !! i = Some x -> f (start + Z.of_nat i) = g x) ->
  mapM f (seqZ start (Z.of_nat (length l))) = mapM g l.
Proof.
  revert start. induction l as [|x l IH]; intros start H; [done|]. cbn [length]. rewrite seqZ_cons by lia. simpl.
  specialize (H 0%nat x eq_refl) as H0. rewrite Z.add_0_r in H0. rewrite H0. destruct (g x); [|done]. cbn [mbind option_bind].
  replace (Z.pred (Z.of_nat (S (length l)))) with (Z.of_nat (length l)) by lia. rewrite (IH (Z.succ start)); [done|].
  intros i y Hy. rewrite <- (H (S i) y Hy). f_equal. lia.
Qed.

Lemma take_drop_ext {A} (l l' : list A) n i m : take n l' = take n l -> (i + m <= n)%nat -> take m (drop i l') = take m (drop i l).
Proof.
  intros H Hle. apply list_eq. intros j. destruct (decide (j < m)%nat); [|by rewrite !lookup_take_ge by lia].
  rewrite !lookup_take_lt, !lookup_drop by lia. rewrite <- (lookup_take_lt l' n), <- (lookup_take_lt l n) by lia. by rewrite H.
Qed.

(** The types by their offsets. *)
Definition types_at (b : btf) (data : list Z) (offs : list Z) : option (list atype) :=
  mapM (fun off => type_view b (drop (Z.to_nat (off / 4)) data)) offs.

Lemma own_length o : obj_wf o -> Z.of_nat (length (own_offs o)) = o_nr_types o.
Proof. intros H. unfold own_offs. rewrite length_take. pose proof (ow_nr _ H). pose proof (ow_offs _ H). lia. Qed.

Lemma obj_types_at o base : obj_wf o -> obj_types (o :: base) = types_at (view (o :: base)) (o_types o) (own_offs o).
Proof.
  intros Hw. unfold obj_types, types_at. cbn [head mbind option_bind]. rewrite <- (own_length o Hw). apply mapM_seqZ.
  intros i off Hi. cbn [view map btf_type_by_id layer_of start_id type_offs types_data].
  pose proof (ow_start _ Hw) as [? _]. destruct (Z.eqb_spec (o_start_id o + Z.of_nat i) 0); [lia|].
  destruct (Z.ltb_spec (o_start_id o + Z.of_nat i) (o_start_id o)); [lia|].
  replace (o_start_id o + Z.of_nat i - o_start_id o) with (Z.of_nat i) by lia. unfold zget. rewrite decide_True, Nat2Z.id by lia.
  unfold own_offs in Hi. rewrite lookup_take_lt in Hi by (apply lookup_lt_Some in Hi; rewrite length_take in Hi; lia).
  by rewrite Hi.
Qed.

(** Types stay what they are when their words and the strings do. *)
Lemma types_at_ext b b' data data' offs a e : types_at b data offs = Some a -> strs_ext b b' ->
  laid_out data 0 offs e -> take (Z.to_nat (e / 4)) data' = take (Z.to_nat (e / 4)) data -> types_at b' data' offs = Some a.
Proof.
  intros Ha Hs Hl Ht. unfold types_at in *. apply mapM_Some in Ha. apply mapM_Some.
  assert (forall off, off ∈ offs -> exists sz, 0 <= off /\ off mod 4 = 0 /\ btf_type_size (drop (Z.to_nat (off / 4)) data) = Some sz /\ sz mod 4 = 0 /\ off + sz <= e) as Hin.
  { intros off Ho. destruct (laid_in _ _ _ _ off Hl ltac:(lia) eq_refl Ho) as (? & ? & sz & ? & ? & ? & ?). eauto 10. }
  clear Hl. induction Ha as [|off x offs a Hx _ IH]; constructor; [|apply IH; intros; apply Hin; by right].
  destruct (Hin off ltac:(left)) as (sz & H0 & Hm & Hsz & Hmz & Hle).
  destruct (type_view_size _ _ _ Hx) as (n & Hn & Hn0 & Hsz' & _). unfold btf_type in *. rewrite Hsz in Hsz'. simplify_eq.
  apply (type_view_ext b b' _ _ x n Hx Hs Hn).
  assert (Z.to_nat (off / 4) + (3 + Z.to_nat n) <= Z.to_nat (e / 4))%nat as Hbound by (Z.to_euclidean_division_equations; lia).
  by apply take_drop_ext with (n := Z.to_nat (e / 4)).
Qed.

(** ** Making an object modifiable *)
Definition modifiable (o : btf_obj) : Prop := btf_is_modifiable o = true.

Lemma ensure_spec al o : obj_wf o -> exists err o', btf_ensure_modifiable al o = Some (err, o') /\ obj_wf o' /\ obj_kept o o' /\
  h_str_len o' = h_str_len o /\ (err = 0 /\ modifiable o' \/ err = - ENOMEM /\ alloc_fails al).
Proof.
  intros Hw. unfold btf_ensure_modifiable, modifiable, btf_is_modifiable. destruct (o_strs o) as [data|set] eqn:Hs.
  2: { exists 0, o. split_and!; auto using obj_kept_refl. left. by rewrite Hs. }
  pose proof (ow_strs _ Hw) as Hst. rewrite Hs in Hst. destruct Hst as (Hlw & Hld & Ht & Hmax).
  destruct (al [0] && al [1]) eqn:Ha; cbn [negb].
  2: { exists (- ENOMEM), o. split_and!; auto using obj_kept_refl. right. split; [done|].
       apply andb_false_iff in Ha as [?|?]; by eexists. }
  assert (take (Z.to_nat (h_str_len o)) data = data) as Htake by (apply take_ge; lia). rewrite Htake.
  destruct (new_spec (al [2], al [3], al [4]) (fun off => (al [5; off], al [6; off])) BTF_MAX_STR_OFFSET (Some data))
    as (r & -> & Hr); [done|intros ? [= <-]; rewrite Hld; auto|]. cbn [mbind option_bind]. destruct r as [err|set].
  - destruct Hr as [-> Hwhy]. exists (- ENOMEM), o. split_and!; auto using obj_kept_refl. right. split; [done|].
    unfold alloc_fails. simpl in Hwhy. destruct Hwhy as [?|[?|[?|(off & [?|?])]]]; eauto.
  - destruct Hr as (Hset & Hd & Hl & Hm). simpl in Hd, Hl. pose proof (laid_mod _ _ _ _ (ow_laid _ Hw) eq_refl) as Hmod.
    assert (take (Z.to_nat (h_type_len o / 4)) (o_types o) = o_types o) as Htt by (apply take_ge; lia). rewrite Htt.
    eexists 0, _. split; [done|]. destruct Hw. split; [|split; [|by split; [|left]]].
    + split; cbn; auto. unfold h_type_len, h_str_len in *. cbn. rewrite Hm. split_and!; auto; try lia; congruence.
    + split; cbn; auto; [done|]. intros off Ho. unfold btf_strs_data. by rewrite Hd, Hs.
Qed.

(** ** Strings *)
Definition chain_inv (c : chain) : Prop := Forall obj_wf c /\ linked c.
Definition same_str_len (c c' : chain) : Prop := Forall2 (fun o o' => h_str_len o' = h_str_len o) c c'.

(** The string section of an object of the chain has no room for [s]. *)
Definition str_full (c : chain) (s : list Z) : Prop :=
  exists o, o ∈ c /\ BTF_MAX_STR_OFFSET < o_start_str_off o + h_str_len o + Z.of_nat (length s) + 1.

Definition name_ok (s : list Z) : Prop := c_string s /\ Z.of_nat (length s) < 2 ^ 31.

Lemma linked_kept c c' : linked c -> chain_kept c c' -> same_str_len c c' -> linked c'.
Proof.
  intros Hl Hk. revert Hl. induction Hk as [|o o' c c' Ho Hc IH]; intros Hl Hs; [done|].
  inversion Hs as [|? ? ? ? Hs1 Hs2]; subst. simpl in Hl. destruct Hl as [H1 H2]. simpl. split; [|by apply IH].
  inversion Hc as [|b b' ? ? Hb ?]; subst; [done|]. inversion Hs2; subst.
  destruct (k_start _ _ Ho) as [_ ->], (k_start _ _ Hb) as [_ ->]. congruence.
Qed.

Lemma same_str_len_refl c : same_str_len c c.
Proof. induction c; by constructor. Qed.

(** Replacing the head, or the tail, of a chain. *)
Lemma inv_head o o' base : chain_inv (o :: base) -> obj_wf o' -> obj_kept o o' -> chain_inv (o' :: base).
Proof.
  intros [Hw Hl] Hw' Hk. apply Forall_cons in Hw as [_ Hw]. split; [by constructor|]. simpl in *.
  destruct (k_start _ _ Hk) as [_ ->]. done.
Qed.
Lemma inv_tail o base base' : chain_inv (o :: base) -> chain_inv base' -> chain_kept base base' -> same_str_len base base' ->
  chain_inv (o :: base').
Proof.
  intros [Hw Hl] [Hw' Hl'] Hk Hs. apply Forall_cons in Hw as [Ho Hw]. split; [by constructor|]. simpl in *. split; [|done].
  destruct Hl as [Hl _]. destruct Hk as [|b b' ? ? Hb ?]; [done|]. inversion Hs; subst.
  destruct (k_start _ _ Hb) as [_ ->]. congruence.
Qed.

Lemma set_strs_wf o set set' n : obj_wf o -> o_strs o = StrsSet set -> strset_wf set' -> strs_data_len set' = n ->
  strs_data_max_len set' = strs_data_max_len set -> obj_wf (set_str_len n (set_strs (StrsSet set') o)).
Proof.
  intros Hw Hs Hset Hn Hm. destruct Hw as [? ? ? ? ? ? Hst]. rewrite Hs in Hst. split; cbn; auto.
  destruct Hst as (? & ? & ? & ? & ?). unfold h_type_len, h_str_len in *. cbn. split_and!; auto; try lia; congruence.
Qed.

Lemma set_strs_kept o set set' n : o_strs o = StrsSet set -> strs_data_len set = h_str_len o -> strings_kept set set' ->
  strs_data_len set' = n -> obj_kept o (set_str_len n (set_strs (StrsSet set') o)).
Proof.
  intros Hs Hl (Hle & Hk & _) Hn. split; cbn; auto; [unfold h_str_len in *; cbn; lia|]. intros off Ho. unfold btf_strs_data. rewrite Hs. apply Hk. lia.
Qed.

Lemma set_str_len_id o : set_str_len (h_str_len o) o = o.
Proof. by destruct o as [[]]. Qed.

(** A string found at an offset of the head, or of the base. *)
Lemma str_in_head o base off s : 0 <= off < h_str_len o -> str_at (btf_strs_data o) off = s ->
  btf__str_by_offset (view (o :: base)) (o_start_str_off o + off) = Some (Some s).
Proof.
  intros Ho Hs. simpl. destruct (Z.ltb_spec (o_start_str_off o + off) (o_start_str_off o)); [lia|].
  replace (o_start_str_off o + off - o_start_str_off o) with off by lia. destruct (Z.ltb_spec off (h_str_len o)); [|lia]. by rewrite Hs.
Qed.
Lemma str_in_base o base off : off < o_start_str_off o -> btf__str_by_offset (view (o :: base)) off = btf__str_by_offset (view base) off.
Proof. intros Ho. simpl. destruct (Z.ltb_spec off (o_start_str_off o)); [done|lia]. Qed.

(** What a lookup or an addition returns: an offset of the string, or a failure. *)
Definition str_result (al : oracle) (c c' : chain) (s : list Z) (r : Z) : Prop :=
  if 0 <=? r then btf__str_by_offset (view c') r = Some (Some s) /\
                  (forall o, head c' = Some o -> r < o_start_str_off o + h_str_len o) /\ r < 2 ^ 31
  else alloc_fails al \/ str_full c s.

Lemma full_tail o base base' s : chain_kept base base' -> same_str_len base base' -> str_full base' s -> str_full (o :: base) s.
Proof.
  intros Hk Hs (x & Hx & Hlt). induction Hk as [|b b' l l' Hb Hl IH]; [by apply elem_of_nil in Hx|].
  inversion Hs; subst. apply elem_of_cons in Hx as [->|Hx].
  - exists b. split; [right; left|]. destruct (k_start _ _ Hb) as [_ ?]. congruence.
  - destruct (IH ltac:(done) Hx) as (y & Hy & ?). exists y. split; [|done]. apply elem_of_cons in Hy as [->|?]; [left|right; by right].
Qed.

(** The offset an object gives for a string of its set. *)
Lemma own_offset o set s off : obj_wf o -> o_strs o = StrsSet set -> has_str set s off -> strs_data_len set = h_str_len o ->
  0 <= off < h_str_len o /\ str_at (btf_strs_data o) off = s.
Proof.
  intros Hw Hs [Hin Hstr] Hl. pose proof (ow_strs _ Hw) as Hst. rewrite Hs in Hst. destruct Hst as (_ & _ & Hset & _).
  destruct (set_keys _ Hset _ Hin) as [_ ?]. simpl in *. split; [lia|]. unfold btf_strs_data. by rewrite Hs.
Qed.

(** The lookup in the base that starts both functions. *)
Definition base_str (al : oracle) (base : chain) (s : list Z) : option (Z * chain) :=
  match base with [] => Some (- ENOENT, []) | _ => btf__find_str (sub 0 al) base s end.

Lemma find_str_cons al o base s : btf__find_str al (o :: base) s =
  ('(off, base) ← base_str al base s;
   if negb (off =? - ENOENT) then Some (off, o :: base)
   else
     '(err, o) ← btf_ensure_modifiable (sub 1 al) o;
     if negb (err =? 0) then Some (- ENOMEM, o :: base)
     else
       match o_strs o with
       | StrsRaw _ => None
       | StrsSet set =>
         '(off, set) ← strset__find_str (al [2]) set s;
         let c := set_strs (StrsSet set) o :: base in
         if off <? 0 then Some (off, c) else Some (s32 (o_start_str_off o + off), c)
       end).
Proof. by destruct base. Qed.

Definition find_result (al : oracle) (c : chain) (s : list Z) (r : option (Z * chain)) : Prop :=
  exists off c', r = Some (off, c') /\ chain_inv c' /\ chain_kept c c' /\ same_str_len c c' /\
    (off = - ENOENT \/ str_result al c c' s off).

Lemma base_str_spec al o base s : chain_inv (o :: base) -> (base <> [] -> find_result (sub 0 al) base s (btf__find_str (sub 0 al) base s)) ->
  exists off base', base_str al base s = Some (off, base') /\ chain_inv (o :: base') /\ chain_kept base base' /\
    same_str_len base base' /\ (off = - ENOENT \/ str_result al (o :: base) (o :: base') s off).
Proof.
  intros Hi Hfind. unfold base_str. destruct base as [|b base].
  { exists (- ENOENT), []. split_and!; auto using chain_kept_refl, same_str_len_refl. }
  destruct (Hfind ltac:(done)) as (off & base' & -> & Hi' & Hk & Hs & Hor). exists off, base'. split; [done|].
  assert (chain_inv (o :: base')) as Hi2 by (by eapply inv_tail). split_and!; auto. destruct Hor as [->|Hr]; [by left|right].
  unfold str_result in *. destruct (Z.leb_spec 0 off).
  - destruct Hr as (Hstr & Hlt & H31). inversion Hk as [|? b' ? base'' Hb Hbs]; subst. specialize (Hlt b' eq_refl).
    destruct Hi2 as [_ [Hl _]]. simpl in Hl. rewrite str_in_base by lia. split_and!; auto. intros x [= <-].
    destruct Hi as [Hw _]. destruct Hi' as [Hw' _]. apply Forall_cons in Hw as [Hw _]. apply Forall_cons in Hw' as [Hw' _].
    pose proof (ow_strs _ Hw) as Hst. destruct (o_strs o); [|]; destruct Hst as (? & ? & Hst).
    + destruct Hst as [[? _] _]. lia.
    + destruct Hst as (Hset & ? & _). pose proof (set_terminated _ Hset) as [? _]. lia.
  - destruct Hr as [Hf|Hf]; [left; by eapply fails_sub|right]. by eapply full_tail; [apply chain_kept_refl|apply same_str_len_refl|].
Qed.

Lemma str_len_nonneg o : obj_wf o -> 0 <= h_str_len o.
Proof.
  intros Hw. pose proof (ow_strs _ Hw) as Hst. destruct (o_strs o); destruct Hst as (? & ? & Hst); [lia|].
  destruct Hst as (Hset & <- & _). pose proof (set_terminated _ Hset) as [? _]. lia.
Qed.

(** The result of an offset in the string set of the head. *)
Lemma own_result al o o' base base' s off : obj_wf o -> obj_wf o' -> obj_kept o o' -> (exists set, o_strs o' = StrsSet set /\ has_str set s off) ->
  h_str_len o' <= h_str_len o + Z.of_nat (length s) + 1 ->
  str_result al (o :: base) (o' :: base') s (s32 (o_start_str_off o' + off)).
Proof.
  intros Hw Hw' Hk (set & Hs & Hhas) Hle. pose proof (ow_strs _ Hw') as Hst. rewrite Hs in Hst. destruct Hst as (_ & _ & Hset & Hlen & Hmax).
  destruct (own_offset o' set s off Hw' Hs Hhas Hlen) as [Hoff Hstr]. pose proof (proj2 (ow_start _ Hw')) as Hst.
  destruct (k_start _ _ Hk) as [_ Heq]. unfold str_result.
  destruct (decide (o_start_str_off o' + off < 2 ^ 31)) as [Hsmall|Hbig].
  - rewrite swrap_small by lia. destruct (Z.leb_spec 0 (o_start_str_off o' + off)); [|lia]. split_and!; [by apply str_in_head| |lia].
    intros x [= <-]. lia.
  - assert (s32 (o_start_str_off o' + off) < 0) as Hneg.
    { unfold swrap. change (32 - 1) with 31. pose proof (set_max _ Hset). pose proof (set_terminated _ Hset) as [? _]. pose proof (set_cap _ Hset).
      replace (o_start_str_off o' + off + 2 ^ 31) with (o_start_str_off o' + off - 2 ^ 31 + 1 * 2 ^ 32) by lia.
      rewrite Z.mod_add, Z.mod_small by lia. lia. }
    destruct (Z.leb_spec 0 (s32 (o_start_str_off o' + off))); [lia|]. right. exists o. split; [left|]. rewrite <- Heq.
    unfold BTF_MAX_STR_OFFSET. lia.
Qed.

Lemma own_full al o base s set : obj_wf o -> o_strs o = StrsSet set -> strs_data_max_len set < strs_data_len set + Z.of_nat (length s) + 1 ->
  alloc_fails al \/ str_full (o :: base) s.
Proof.
  intros Hw Hs Hlt. right. exists o. split; [left|]. pose proof (ow_strs _ Hw) as Hst. rewrite Hs in Hst.
  destruct Hst as (_ & _ & _ & Hl & Hm). pose proof (proj2 (ow_start _ Hw)). lia.
Qed.

Lemma full_kept o o' base base' s : obj_kept o o' -> h_str_len o' = h_str_len o -> chain_kept base base' -> same_str_len base base' ->
  str_full (o' :: base') s -> str_full (o :: base) s.
Proof.
  intros Hk Hl Hc Hs (x & Hx & Hlt). apply elem_of_cons in Hx as [->|Hx].
  - exists o. split; [left|]. destruct (k_start _ _ Hk) as [_ ?]. congruence.
  - eapply full_tail; [exact Hc|exact Hs|]. by exists x.
Qed.

Lemma find_str_chain s c : name_ok s -> forall al, chain_inv c -> c <> [] -> find_result al c s (btf__find_str al c s).
Proof.
  intros [Hs Hlen]. induction c as [|o base IH]; intros al Hi Hne; [done|]. rewrite find_str_cons.
  destruct (base_str_spec al o base s Hi) as (off & base' & Hb & Hi' & Hkb & Hsb & Hor).
  { intros Hn. apply IH; [|done]. destruct Hi as [Hw Hl]. apply Forall_cons in Hw as [_ Hw]. split; [done|exact (proj2 Hl)]. }
  rewrite Hb. cbn [mbind option_bind]. clear Hb IH.
  assert (chain_kept (o :: base) (o :: base')) as Hk0 by (constructor; [apply obj_kept_refl|done]).
  assert (same_str_len (o :: base) (o :: base')) as Hs0 by (by constructor).
  destruct (Z.eqb_spec off (- ENOENT)) as [->|Hoff]; cbn [negb].
  2: { exists off, (o :: base'). split_and!; auto. }
  assert (obj_wf o) as Hw by (destruct Hi as [Hw _]; by apply Forall_cons in Hw as [? _]).
  destruct (ensure_spec (sub 1 al) o Hw) as (err & o1 & -> & Hw1 & Hk1 & Hl1 & Herr). cbn [mbind option_bind].
  assert (chain_inv (o1 :: base')) as Hi1 by (by eapply inv_head).
  assert (chain_kept (o :: base) (o1 :: base')) as Hk01 by (by constructor).
  assert (same_str_len (o :: base) (o1 :: base')) as Hs01 by (by constructor).
  destruct Herr as [[-> Hm]|[-> Hf]]; cbn [Z.eqb negb].
  2: { exists (- ENOMEM), (o1 :: base'). split_and!; auto. right. left. by eapply fails_sub. }
  unfold modifiable, btf_is_modifiable in Hm. destruct (o_strs o1) as [|set] eqn:Hst; [done|].
  pose proof (ow_strs _ Hw1) as Hws. rewrite Hst in Hws. destruct Hws as (_ & _ & Hset & Hsl & _).
  destruct (find_str_spec (al [2]) set s Hset Hs Hlen) as (r & set' & -> & Hset' & Hks & Hl' & Hmx & Hr). cbn [mbind option_bind].
  set (o2 := set_strs (StrsSet set') o1).
  assert (o2 = set_str_len (h_str_len o1) (set_strs (StrsSet set') o1)) as Ho2 by (symmetry; apply (set_str_len_id o2)).
  assert (obj_wf o2) as Hw2 by (rewrite Ho2; eapply set_strs_wf; eauto; lia).
  assert (obj_kept o1 o2) as Hk2 by (rewrite Ho2; eapply set_strs_kept; eauto; lia).
  assert (obj_kept o o2) as Hk02 by (by eapply obj_kept_trans).
  assert (forall r, (r = - ENOENT \/ str_result al (o :: base) (o2 :: base') s r) -> find_result al (o :: base) s (Some (r, o2 :: base'))) as Hfin.
  { intros r' Hr'. exists r', (o2 :: base'). split_and!; auto; [by eapply inv_head|by constructor|by constructor]. }
  assert (r < 0 -> r = - ENOENT \/ str_result al (o :: base) (o2 :: base') s r) as Hneg.
  { intros Hn. destruct Hr as [[-> Hwhy]|[[-> _]|Hhas]]; [right|by left|].
    - unfold str_result. destruct (Z.leb_spec 0 (- ENOMEM)); [done|]. destruct Hwhy as [Ha|Hfull]; [left; by exists [2]|].
      destruct (own_full al o1 base' s set Hw1 Hst Hfull) as [|Hff]; [by left|right]. by apply (full_kept o o1 base base').
    - destruct Hhas as [Hin _]. destruct (set_keys _ Hset _ Hin) as [_ ?]. simpl in *. lia. }
  destruct (Z.ltb_spec r 0) as [Hn|Hn]; [by apply Hfin, Hneg|]. apply Hfin. right.
  change (o_start_str_off o1) with (o_start_str_off o2). destruct Hr as [[-> _]|[[-> _]|Hhas]]; [by compute in Hn..|].
  apply own_result; auto; [|]. { exists set'. split; [done|]. by apply Hks. } change (h_str_len o2) with (h_str_len o1). lia.
Qed.

Lemma add_str_cons al o base s : btf__add_str al (o :: base) s =
  ('(off, base) ← base_str al base s;
   if negb (off =? - ENOENT) then Some (off, o :: base)
   else
     '(err, o) ← btf_ensure_modifiable (sub 1 al) o;
     if negb (err =? 0) then Some (- ENOMEM, o :: base)
     else
       match o_strs o with
       | StrsRaw _ => None
       | StrsSet set =>
         '(off, set) ← strset__add_str (al [2]) (al [3]) (al [4]) set s;
         let o := set_strs (StrsSet set) o in
         if off <? 0 then Some (off, o :: base)
         else Some (s32 (o_start_str_off o + off), set_str_len (strset__data_size set) o :: base)
       end).
Proof. done. Qed.

(** The type section of a modifiable object is left alone when a string is added. *)
Definition types_kept (o o' : btf_obj) : Prop :=
  modifiable o' /\ o_types o' = o_types o /\ types_cap o' = types_cap o /\ o_offs o' = o_offs o /\ offs_cap o' = offs_cap o.

Definition add_result (al : oracle) (c : chain) (s : list Z) (res : option (Z * chain)) : Prop :=
  exists r c', res = Some (r, c') /\ chain_inv c' /\ chain_kept c c' /\ str_result al c c' s r /\
    (forall o, head c = Some o -> modifiable o -> exists o', head c' = Some o' /\ types_kept o o').

Lemma add_result_head al o o' base base' s r :
  chain_inv (o' :: base') -> chain_kept (o :: base) (o' :: base') -> str_result al (o :: base) (o' :: base') s r ->
  (modifiable o -> types_kept o o') -> add_result al (o :: base) s (Some (r, o' :: base')).
Proof. intros Hi Hk Hr Ht. exists r, (o' :: base'). split_and!; auto. intros x [= <-] Hx. exists o'. auto. Qed.

Lemma ensure_same al o err o' : modifiable o -> btf_ensure_modifiable al o = Some (err, o') -> o' = o.
Proof. unfold modifiable, btf_is_modifiable, btf_ensure_modifiable. destruct (o_strs o); [done|]. by intros _ [= _ <-]. Qed.

Lemma types_kept_refl o : modifiable o -> types_kept o o.
Proof. done. Qed.

(** The string goes into the string set of the topmost object. *)
Lemma add_str_own al o o1 base base' s set : name_ok s -> obj_wf o -> chain_inv (o1 :: base') -> obj_wf o1 -> o_strs o1 = StrsSet set ->
  obj_kept o o1 -> h_str_len o1 = h_str_len o -> chain_kept base base' -> same_str_len base base' -> (modifiable o -> o1 = o) ->
  add_result al (o :: base) s
    ('(off, set) ← strset__add_str (al [2]) (al [3]) (al [4]) set s;
     let o := set_strs (StrsSet set) o1 in
     if off <? 0 then Some (off, o :: base')
     else Some (s32 (o_start_str_off o + off), set_str_len (strset__data_size set) o :: base')).
Proof.
  intros [Hs Hlen] Hw Hi1 Hw1 Hst Hk1 Hl1 Hkb Hsb Hsame.
  pose proof (ow_strs _ Hw1) as Hws. rewrite Hst in Hws. destruct Hws as (_ & _ & Hset & Hsl & _).
  destruct (add_str_spec (al [2]) (al [3]) (al [4]) set s Hset Hs Hlen) as (r & set' & -> & Hset' & Hks & Hmx & Hr). cbn [mbind option_bind].
  set (o2 := set_strs (StrsSet set') o1).
  assert (obj_wf (set_str_len (strs_data_len set') o2)) as Hw2 by (eapply set_strs_wf; eauto).
  assert (obj_kept o1 (set_str_len (strs_data_len set') o2)) as Hk12 by (eapply set_strs_kept; eauto; lia).
  assert (obj_kept o (set_str_len (strs_data_len set') o2)) as Hk2 by (by eapply obj_kept_trans).
  assert (forall r, str_result al (o :: base) (set_str_len (strs_data_len set') o2 :: base') s r ->
    add_result al (o :: base) s (Some (r, set_str_len (strs_data_len set') o2 :: base'))) as Hfin.
  { intros r' Hr'. apply add_result_head; [by eapply inv_head|by constructor|done|]. intros Hx. by rewrite <- (Hsame Hx). }
  destruct Hr as [(-> & Hl' & Hwhy)|Hr].
  { destruct (Z.ltb_spec (- ENOMEM) 0); [|done].
    assert (set_str_len (strs_data_len set') o2 = o2) as Hid.
    { rewrite <- (set_str_len_id o2) at 2. f_equal. change (h_str_len o2) with (h_str_len o1). lia. }
    rewrite Hid in Hfin. apply Hfin.
    unfold str_result. destruct (Z.leb_spec 0 (- ENOMEM)); [done|].
    destruct Hwhy as [?|[?|[?|Hfull]]]; [left; by eexists..|].
    destruct (own_full al o1 base' s set Hw1 Hst Hfull) as [|Hff]; [by left|right]. by apply (full_kept o o1 base base'). }
  assert (has_str set' s r /\ strs_data_len set' <= strs_data_len set + Z.of_nat (length s) + 1) as [Hhas Hle].
  { destruct Hr as [[Hh ?]|(_ & Hh & _ & ?)]; (split; [|lia]); [by apply Hks|done]. }
  destruct (Z.ltb_spec r 0). { destruct Hhas as [Hin _]. destruct (set_keys _ Hset' _ Hin) as [_ ?]. simpl in *. lia. }
  apply Hfin. change (o_start_str_off o2) with (o_start_str_off (set_str_len (strs_data_len set') o2)).
  apply own_result; auto; [by exists set'|]. unfold h_str_len at 1. cbn. lia.
Qed.

Lemma add_str_chain al c s : name_ok s -> chain_inv c -> c <> [] -> add_result al c s (btf__add_str al c s).
Proof.
  intros Hn Hi Hne. destruct c as [|o base]; [done|]. rewrite add_str_cons.
  destruct (base_str_spec al o base s Hi) as (off & base' & Hb & Hi' & Hkb & Hsb & Hor).
  { intros Hnb. apply find_str_chain; [done| |done]. destruct Hi as [Hw Hl]. apply Forall_cons in Hw as [_ Hw]. split; [done|exact (proj2 Hl)]. }
  rewrite Hb. cbn [mbind option_bind]. clear Hb.
  destruct (Z.eqb_spec off (- ENOENT)) as [->|Hoff]; cbn [negb].
  2: { destruct Hor as [|Hor]; [done|]. apply add_result_head; auto using types_kept_refl. constructor; [apply obj_kept_refl|done]. }
  assert (obj_wf o) as Hw by (destruct Hi as [Hw _]; by apply Forall_cons in Hw as [? _]).
  destruct (ensure_spec (sub 1 al) o Hw) as (err & o1 & He & Hw1 & Hk1 & Hl1 & Herr).
  assert (modifiable o -> o1 = o) as Hsame by eauto using ensure_same.
  rewrite He. cbn [mbind option_bind].
  assert (chain_inv (o1 :: base')) as Hi1 by (by eapply inv_head).
  destruct Herr as [[-> Hm]|[-> Hf]]; cbn [Z.eqb negb].
  2: { apply add_result_head; [done|by constructor|left; by eapply fails_sub|]. intros Hx. by rewrite (Hsame Hx). }
  unfold modifiable, btf_is_modifiable in Hm. destruct (o_strs o1) as [|set] eqn:Hst; [done|]. by apply add_str_own.
Qed.

(** ** Memory for types *)
Lemma add_mem_cap a cap esz cur max add d cap' : 0 <= cur <= cap -> 0 <= add -> cap + add < 2 ^ 64 -> 0 < esz ->
  libbpf_add_mem a [] cap esz cur max add = Some (d, cap') -> cur + add <= cap' /\ cap <= cap' /\ cap' <= Z.max cap max.
Proof.
  intros Hc Ha Hs He H.
  assert (exists d', libbpf_add_mem a (replicate (Z.to_nat (cap * esz)) 0) cap esz cur max add = Some (d', cap')) as [d' H'].
  { revert H. unfold libbpf_add_mem. destruct (_ <=? _); [intros; simplify_eq; eauto|]. destruct (_ >? _); [done|].
    destruct (negb _); [done|]. intros. simplify_eq. eauto. }
  apply add_mem_spec in H'; try lia. rewrite length_replicate. rewrite Z2Nat.id by nia. done.
Qed.

Lemma wf_modifiable o : obj_wf o -> modifiable o -> exists set, o_strs o = StrsSet set /\
  h_type_len o <= types_cap o < 2 ^ 32 /\ Z.of_nat (length (o_types o)) = types_cap o / 4.
Proof.
  intros Hw Hm. unfold modifiable, btf_is_modifiable in Hm. pose proof (ow_strs _ Hw) as Hst.
  destruct (o_strs o) as [|set]; [done|]. exists set. split; [done|]. tauto.
Qed.

Lemma type_len_aligned o : obj_wf o -> h_type_len o mod 4 = 0.
Proof. intros Hw. by eapply laid_mod; [apply (ow_laid _ Hw)|]. Qed.

Lemma set_types_wf o ws cap : obj_wf o -> modifiable o -> Forall word_ok ws -> h_type_len o <= cap < 2 ^ 32 ->
  Z.of_nat (length ws) = cap / 4 ->
  take (Z.to_nat (h_type_len o / 4)) ws = take (Z.to_nat (h_type_len o / 4)) (o_types o) ->
  obj_wf (set_types ws cap o) /\ obj_kept o (set_types ws cap o).
Proof.
  intros Hw Hm Hws Hcap Hlen Ht. split.
  - pose proof Hw as [? ? ? Hl ? ? Hst]. split; cbn; auto.
    + by eapply laid_ext; [exact Hl|lia|done|done|].
    + unfold modifiable, btf_is_modifiable in Hm. destruct (o_strs o); [done|]. unfold h_type_len, h_str_len in *. cbn. tauto.
  - by split.
Qed.

Lemma add_type_mem_spec a o sz : obj_wf o -> modifiable o -> 0 <= sz < 2 ^ 32 ->
  match btf_add_type_mem a o sz with
  | None => a = false \/ UINT_MAX < h_type_len o + sz
  | Some o' => obj_wf o' /\ obj_kept o o' /\ modifiable o' /\ h_type_len o + sz <= types_cap o' /\
      hdr o' = hdr o /\ o_offs o' = o_offs o /\ h_str_len o' = h_str_len o
  end.
Proof.
  intros Hw Hm Hsz. destruct (wf_modifiable o Hw Hm) as (set & Hst & Hcap & Hlen). pose proof (ow_len _ Hw) as Hl.
  unfold btf_add_type_mem. destruct (libbpf_add_mem _ _ _ _ _ _ _) as [[d cap']|] eqn:Ha.
  2: { apply add_mem_fail in Ha; try lia; [done|unfold UINT_MAX; lia]. }
  cbn [mbind option_bind]. apply add_mem_cap in Ha as (H1 & H2 & H3); try lia.
  assert (cap' < 2 ^ 32) by (unfold UINT_MAX in *; lia).
  set (ws := o_types o ++ _).
  assert (Z.of_nat (length ws) = cap' / 4) as Hlw.
  { unfold ws. rewrite length_app, length_replicate. Z.to_euclidean_division_equations; lia. }
  destruct (set_types_wf o ws cap' Hw Hm) as [Hw' Hk'].
  - apply Forall_app. split; [apply (ow_words _ Hw)|]. apply Forall_replicate. unfold word_ok. lia.
  - lia.
  - done.
  - unfold ws. rewrite take_app_le; [done|]. Z.to_euclidean_division_equations; lia.
  - split_and!; auto.
Qed.

Lemma put_words_spec o ws : obj_wf o -> modifiable o -> Forall word_ok ws -> h_type_len o + 4 * Z.of_nat (length ws) <= types_cap o ->
  exists o' rest, put_words ws o = Some o' /\ obj_wf o' /\ obj_kept o o' /\ modifiable o' /\ hdr o' = hdr o /\ types_cap o' = types_cap o /\
    o_offs o' = o_offs o /\ drop (Z.to_nat (h_type_len o / 4)) (o_types o') = ws ++ rest.
Proof.
  intros Hw Hm Hws Hroom. destruct (wf_modifiable o Hw Hm) as (set & Hst & Hcap & Hlen). pose proof (type_len_aligned o Hw) as Hal.
  pose proof (ow_len _ Hw) as Hl0. unfold put_words.
  destruct (memcpy_at_spec (o_types o) (h_type_len o / 4) ws) as (data' & Hd & Hld & Htake & rest & Hdrop);
    [Z.to_euclidean_division_equations; lia..|].
  rewrite Hd. cbn [mbind option_bind]. exists (set_types data' (types_cap o) o), rest. split; [done|].
  destruct (set_types_wf o data' (types_cap o) Hw Hm) as [Hw' Hk']; auto; [|lia|].
  - unfold memcpy_at in Hd. destruct (_ && _); [|done]. injection Hd as <-. pose proof (ow_words _ Hw) as Hwo.
    repeat apply Forall_app_2; auto using Forall_take, Forall_drop.
  - split_and!; auto.
Qed.

(** ** Committing a type *)
Lemma own_nr_bound o : obj_wf o -> 12 * o_nr_types o <= h_type_len o.
Proof. intros Hw. pose proof (laid_count _ _ _ _ (ow_laid _ Hw)). rewrite (own_length o Hw) in *. lia. Qed.

Lemma idx_entry_spec a o off : obj_wf o -> exists err o', btf_add_type_idx_entry a o off = Some (err, o') /\ obj_wf o' /\ obj_kept o o' /\
  hdr o' = hdr o /\ o_types o' = o_types o /\ types_cap o' = types_cap o /\ o_strs o' = o_strs o /\
  (err = - ENOMEM /\ (a = false \/ BTF_MAX_NR_TYPES <= o_nr_types o) \/
   err = 0 /\ o_nr_types o < offs_cap o' /\ take (Z.to_nat (o_nr_types o) + 1) (o_offs o') = own_offs o ++ [off]).
Proof.
  intros Hw. unfold btf_add_type_idx_entry, btf_add_type_offs_mem. pose proof (ow_nr _ Hw) as Hnr. pose proof (ow_offs _ Hw) as [Hlo Hco].
  destruct (libbpf_add_mem _ _ _ _ _ _ _) as [[d cap']|] eqn:Ha.
  2: { cbn [mbind option_bind]. exists (- ENOMEM), o. split_and!; auto using obj_kept_refl. left. split; [done|].
       apply add_mem_fail in Ha; unfold BTF_MAX_NR_TYPES in *; try lia. destruct Ha; [by left|right; lia]. }
  apply add_mem_cap in Ha as (H1 & H2 & H3); try lia. cbn [mbind option_bind].
  set (offs := o_offs o ++ _). cbn [o_offs set_offs o_nr_types offs_cap].
  assert (Z.of_nat (length offs) = cap') as Hl by (unfold offs; rewrite length_app, length_replicate; lia).
  destruct (zset_is_Some offs (o_nr_types o) off) as [offs' Hset]; [lia|]. rewrite Hset. cbn [mbind option_bind].
  apply zset_Some in Hset as [Hr ->].
  assert (take (Z.to_nat (o_nr_types o)) (<[Z.to_nat (o_nr_types o):=off]> offs) = own_offs o) as Htake.
  { rewrite take_insert_ge by lia. unfold offs, own_offs. by rewrite take_app_le by lia. }
  eexists 0, _. split; [done|]. split; [|split; [|split_and!; auto; right; split_and!; auto; [cbn; lia|]]].
  - destruct Hw. split; cbn; auto; [lia|rewrite length_insert; unfold BTF_MAX_NR_TYPES in *; lia|].
    unfold own_offs. cbn. rewrite Htake. done.
  - split; cbn; auto; done.
  - cbn. rewrite Nat.add_1_r. rewrite (take_S_r _ _ off) by (apply list_lookup_insert_eq; lia). by rewrite Htake.
Qed.

Lemma commit_spec a o base n : chain_inv (o :: base) -> modifiable o -> 0 <= n ->
  btf_type_size (drop (Z.to_nat (h_type_len o / 4)) (o_types o)) = Some (12 + 4 * n) -> h_type_len o + (12 + 4 * n) <= types_cap o ->
  exists r o', btf_commit_type a (o :: base) (12 + 4 * n) = Some (r, o' :: base) /\ chain_inv (o' :: base) /\
   (r = - ENOMEM /\ (a = false \/ BTF_MAX_NR_TYPES <= o_nr_types o) /\ obj_kept o o' \/
    r = o_start_id o + o_nr_types o /\ own_offs o' = own_offs o ++ [h_type_len o] /\ o_types o' = o_types o /\
      o_strs o' = o_strs o /\ o_start_str_off o' = o_start_str_off o /\ o_start_id o' = o_start_id o /\
      o_nr_types o' = o_nr_types o + 1 /\ h_str_len o' = h_str_len o /\
      h_type_len o' = h_type_len o + (12 + 4 * n) /\ str_off (hdr o') = u32 (str_off (hdr o) + (12 + 4 * n))).
Proof.
  intros Hi Hm Hn Hsz Hroom. pose proof Hi as [Hws Hl]. apply Forall_cons in Hws as [Hw Hwb].
  destruct (wf_modifiable o Hw Hm) as (set & Hst & Hcap & Hlen). pose proof (type_len_aligned o Hw) as Hal.
  pose proof (own_nr_bound o Hw) as Hnr. pose proof (ow_len _ Hw) as Hl0. pose proof (ow_start _ Hw) as [Hs1 Hs2]. pose proof (ow_nr _ Hw) as Hnr0.
  unfold btf_commit_type. cbn [head mbind option_bind tail].
  destruct (idx_entry_spec a o (h_type_len o) Hw) as (err & o1 & -> & Hw1 & Hk1 & Hh & Ht & Hc & Hs & Hor). cbn [mbind option_bind].
  destruct Hor as [[-> Hwhy]|(-> & Hlt & Htake)].
  { destruct (Z.eqb_spec (- ENOMEM) 0); [done|]. cbn [negb]. exists (- ENOMEM), o1. split; [done|]. split; [by eapply inv_head|]. by left. }
  cbn [Z.eqb negb]. set (o' := set_nr _ _). destruct (k_start _ _ Hk1) as [Hi1 Hi2]. pose proof (k_nr _ _ Hk1) as Hn1.
  assert (o_nr_types o' = o_nr_types o + 1) as Hnr' by (unfold o'; cbn; rewrite Hn1; apply wrap_small; lia).
  assert (h_type_len o' = h_type_len o + (12 + 4 * n)) as Hlen' by (unfold o', h_type_len; cbn; rewrite Hh; apply wrap_small; fold (h_type_len o); lia).
  assert (own_offs o' = own_offs o ++ [h_type_len o]) as Hoffs.
  { unfold own_offs at 1. rewrite Hnr'. replace (Z.to_nat (o_nr_types o + 1)) with (Z.to_nat (o_nr_types o) + 1)%nat by lia. exact Htake. }
  exists (o_start_id o + o_nr_types o), o'. split.
  { do 2 f_equal. change (o_start_id (grow_types (12 + 4 * n) o1)) with (o_start_id o1). rewrite Hnr'. unfold o'. cbn [o_start_id set_nr grow_types set_hdr].
    rewrite Hi1. replace (o_start_id o + (o_nr_types o + 1) - 1) with (o_start_id o + o_nr_types o) by lia. apply swrap_small; lia. }
  split; [|right; split_and!; auto; [unfold o', h_str_len; cbn; by rewrite Hh|unfold o'; cbn; by rewrite Hh]].
  split; [|by simpl; unfold o'; cbn; rewrite Hi2]. constructor; [|done]. destruct Hw1 as [? ? ? Hlaid ? ? Hstr]. split.
  - done.
  - rewrite Hnr'. unfold o'; cbn. lia.
  - done.
  - rewrite Hoffs. rewrite (k_offs _ _ Hk1) in Hlaid. rewrite (k_len _ _ Hk1) in Hlaid. change (o_types o') with (o_types o1). rewrite Ht in *.
    apply laid_app. exists (h_type_len o). split; [done|]. simpl. split; [done|]. exists (12 + 4 * n). rewrite Hlen'.
    split_and!; auto; try lia. rewrite Z.add_comm, Z.mul_comm. change 12 with (3 * 4). rewrite <- Z.mul_add_distr_r. by apply Z.mod_mul.
  - unfold o'. cbn. lia.
  - lia.
  - change (o_strs o') with (o_strs o1). rewrite Hs, Hst in *. destruct Hstr as (? & ? & ? & Hsl & ?). 
    change (types_cap o') with (types_cap o1). change (o_types o') with (o_types o1). change (h_str_len o') with (h_str_len o1).
    split_and!; auto; lia.
Qed.

(** ** Appending *)
Definition opt_name_ok (name : option (list Z)) : Prop := match name with Some s => name_ok s | None => True end.
Definition named (name : option (list Z)) : list Z := default [] name.

Lemma wf_inv c : chain_wf c -> chain_inv c.
Proof. intros (_ & ? & ? & _). by split. Qed.
Lemma wf_kept c c' : chain_wf c -> chain_inv c' -> chain_kept c c' -> chain_wf c'.
Proof.
  intros (Hne & _ & _ & H0) [Hw Hl] Hk. split_and!; auto; [by destruct Hk|]. by apply (kept_strs _ _ Hk).
Qed.

Lemma add_name_spec al c name : chain_wf c -> opt_name_ok name ->
  exists no c', add_name al c name = Some (no, c') /\ chain_inv c' /\ chain_kept c c' /\
    (0 <= no -> btf__str_by_offset (view c') no = Some (Some (named name)) /\ no < 2 ^ 31) /\
    (no < 0 -> alloc_fails al \/ str_full c (named name)) /\
    (forall o, head c = Some o -> modifiable o -> exists o', head c' = Some o' /\ modifiable o' /\ o_types o' = o_types o /\ types_cap o' = types_cap o /\
       o_offs o' = o_offs o /\ offs_cap o' = offs_cap o).
Proof.
  intros Hw Hn. assert (btf__str_by_offset (view c) 0 = Some (Some [])) as H0 by apply Hw. unfold add_name.
  assert (named name = [] -> exists no c', Some (0, c) = Some (no, c') /\ chain_inv c' /\ chain_kept c c' /\
    (0 <= no -> btf__str_by_offset (view c') no = Some (Some (named name)) /\ no < 2 ^ 31) /\
    (no < 0 -> alloc_fails al \/ str_full c (named name)) /\
    (forall o, head c = Some o -> modifiable o -> exists o', head c' = Some o' /\ modifiable o' /\ o_types o' = o_types o /\ types_cap o' = types_cap o /\
       o_offs o' = o_offs o /\ offs_cap o' = offs_cap o)) as Hnone.
  { intros ->. exists 0, c. split; [done|]. split; [by apply wf_inv|]. split; [apply chain_kept_refl|]. split; [done|]. split; [lia|].
    intros o Ho Hm. by exists o. }
  destruct name as [[|x s]|]; [by apply Hnone| |by apply Hnone]. clear Hnone. cbn [named default].
  destruct (add_str_chain al c (x :: s) Hn (wf_inv c Hw)) as (r & c' & -> & Hi & Hk & Hr & Hh); [apply Hw|].
  exists r, c'. split_and!; auto; unfold str_result in Hr; destruct (Z.leb_spec 0 r); try lia; tauto.
Qed.

Definition no_room (al : oracle) (c : chain) (sz : Z) (name : option (list Z)) : Prop :=
  alloc_fails al \/ str_full c (named name) \/
  exists o, head c = Some o /\ (UINT_MAX < h_type_len o + sz \/ BTF_MAX_NR_TYPES <= o_nr_types o).

Lemma full_head o o' base base' s : obj_kept o o' -> h_str_len o' = h_str_len o -> base' = base -> str_full (o' :: base') s -> str_full (o :: base) s.
Proof. intros Hk Hl -> H. apply (full_kept o o' base base); auto using chain_kept_refl, same_str_len_refl. Qed.

(** What every function that appends starts with. *)
Lemma ensure_mem al a1 o base sz : chain_wf (o :: base) -> 0 <= sz < 2 ^ 32 ->
  exists err o1, btf_ensure_modifiable al o = Some (err, o1) /\ chain_wf (o1 :: base) /\ chain_kept (o :: base) (o1 :: base) /\
    h_str_len o1 = h_str_len o /\ (err = - ENOMEM /\ alloc_fails al \/ err = 0 /\
     match btf_add_type_mem a1 o1 sz with
     | None => a1 = false \/ UINT_MAX < h_type_len o + sz
     | Some o2 => chain_wf (o2 :: base) /\ obj_kept o o2 /\ modifiable o2 /\ h_type_len o + sz <= types_cap o2 /\ h_str_len o2 = h_str_len o
     end).
Proof.
  intros Hwf Hsz. pose proof (wf_inv _ Hwf) as Hi. pose proof Hi as [Hw _]. apply Forall_cons in Hw as [Hw _].
  destruct (ensure_spec al o Hw) as (err & o1 & -> & Hw1 & Hk1 & Hl1 & Herr). exists err, o1. split; [done|].
  assert (forall o2, obj_wf o2 -> obj_kept o o2 -> chain_wf (o2 :: base) /\ chain_kept (o :: base) (o2 :: base)) as Hlift.
  { intros o2 Hw2 Hk2. assert (chain_kept (o :: base) (o2 :: base)) by (constructor; [done|apply chain_kept_refl]).
    split; [|done]. eapply wf_kept; [exact Hwf|by eapply inv_head|done]. }
  destruct (Hlift o1 Hw1 Hk1) as [Hwf1 Hc1]. split; [done|]. split; [done|]. split; [done|]. destruct Herr as [[-> Hm1]|[-> Hf]]; [right|by left]. split; [done|].
  pose proof (add_type_mem_spec a1 o1 sz Hw1 Hm1 ltac:(lia)) as Hmem. destruct (btf_add_type_mem a1 o1 sz) as [o2|].
  - destruct Hmem as (Hw2 & Hk2 & Hm2 & Hroom & Hh2 & Ho2 & Hl2). pose proof (obj_kept_trans _ _ _ Hk1 Hk2) as Hk.
    destruct (Hlift o2 Hw2 Hk) as [? ?]. rewrite (k_len _ _ Hk1) in Hroom. split_and!; auto. congruence.
  - by rewrite <- (k_len _ _ Hk1).
Qed.

Lemma append_spec al c n name words fin (P : option (Z * chain) -> Prop) : chain_wf c -> opt_name_ok name -> 0 <= n < 2 ^ 30 ->
  (forall no, 0 <= no < 2 ^ 31 -> Forall word_ok (words no) /\ Z.of_nat (length (words no)) = n) ->
  (forall o base no rest, chain_wf (o :: base) -> chain_kept c (o :: base) -> modifiable o -> 0 <= no < 2 ^ 31 ->
     btf__str_by_offset (view (o :: base)) no = Some (Some (named name)) -> h_type_len o + 4 * n <= types_cap o ->
     drop (Z.to_nat (h_type_len o / 4)) (o_types o) = words no ++ rest -> P (fin (o :: base))) ->
  (forall r c', r < 0 -> chain_wf c' -> chain_kept c c' -> no_room al c (4 * n) name -> P (Some (r, c'))) ->
  P (append al c (4 * n) name words fin).
Proof.
  intros Hwf Hname Hn Hwords Hfin Hfail. destruct c as [|o base]; [by destruct Hwf|]. unfold append. cbn [head mbind option_bind tail].
  pose proof (wf_inv _ Hwf) as Hi. pose proof Hi as [Hw _]. apply Forall_cons in Hw as [Hw _].
  assert (forall r c', r < 0 -> chain_inv c' -> chain_kept (o :: base) c' -> no_room al (o :: base) (4 * n) name -> P (Some (r, c'))) as Hfail'.
  { intros r c' Hr Hi' Hk' Hno. apply Hfail; auto. by eapply wf_kept. }
  destruct (ensure_mem (sub 0 al) (al [1]) o base (4 * n) Hwf ltac:(lia)) as (err & o1 & -> & Hwf1 & Hc1 & Hl1 & Herr). cbn [mbind option_bind].
  destruct Herr as [[-> Hf]|[-> Hmem]]; cbn [Z.eqb negb].
  { apply Hfail; auto; [done|]. left. by eapply fails_sub. }
  destruct (btf_add_type_mem _ _ _) as [o2|].
  2: { apply Hfail; auto; [done|]. destruct Hmem as [Ha|Hbig]; [left; by exists [1]|right; right]. exists o. auto. }
  destruct Hmem as (Hwf2 & Hk2 & Hm2 & Hroom & Hl2).
  assert (chain_kept (o :: base) (o2 :: base)) as Hc2 by (constructor; [done|apply chain_kept_refl]).
  destruct (add_name_spec (sub 2 al) (o2 :: base) name Hwf2 Hname) as (no & c3 & -> & Hi3 & Hc3 & Hpos & Hneg & Hhead). cbn [mbind option_bind].
  destruct (Z.ltb_spec no 0).
  { apply Hfail'; auto; [by eapply chain_kept_trans|]. destruct Hneg as [Hf|Hf]; [done|left; by eapply fails_sub|right; left].
    eapply full_head; [exact Hk2|exact Hl2|done|exact Hf]. }
  destruct Hpos as [Hstr Hno]; [done|]. destruct (Hhead o2 eq_refl Hm2) as (o3 & Ho3 & Hm3 & Ht3 & Hcap3 & _).
  destruct c3 as [|o3' base3]; [done|]. simplify_eq/=. destruct (Hwords no ltac:(lia)) as [Hok Hlen].
  inversion Hc3 as [|? ? ? ? Hk3 Hb3]; subst. assert (chain_wf (o3 :: base3)) as Hwf3 by (by eapply wf_kept).
  assert (obj_wf o3) as Hw3 by (destruct Hi3 as [H' _]; by apply Forall_cons in H' as [? _]).
  assert (h_type_len o3 = h_type_len o) as Hlen3 by (rewrite (k_len _ _ Hk3), (k_len _ _ Hk2); done).
  destruct (put_words_spec o3 (words no) Hw3 Hm3 Hok) as (o4 & rest & -> & Hw4 & Hk4 & Hm4 & Hh4 & Hcap4 & _ & Hdrop); [lia|].
  cbn [mbind option_bind].
  assert (chain_kept (o3 :: base3) (o4 :: base3)) as Hc4 by (constructor; [done|apply chain_kept_refl]).
  apply (Hfin o4 base3 no rest); auto.
  - eapply wf_kept; [exact Hwf3|by eapply inv_head|done].
  - eapply chain_kept_trans; [exact Hc2|]. by eapply chain_kept_trans.
  - by apply (kept_strs _ _ Hc4).
  - rewrite (k_len _ _ Hk4). lia.
  - by rewrite (k_len _ _ Hk4).
Qed.

(** The types of a chain whose objects are kept are kept. *)
Lemma kept_types c c' a : chain_wf c -> chain_inv c' -> chain_kept c c' -> obj_types c = Some a -> obj_types c' = Some a.
Proof.
  intros Hwf Hi Hk Ha. destruct Hk as [|o o' base base' Ho Hb]; [by destruct Hwf|].
  pose proof (wf_inv _ Hwf) as [Hw _]. apply Forall_cons in Hw as [Hw _]. destruct Hi as [Hw' _]. apply Forall_cons in Hw' as [Hw' _].
  rewrite obj_types_at in * by done. rewrite (k_offs _ _ Ho). eapply types_at_ext; [exact Ha| |apply (ow_laid _ Hw)|apply (k_types _ _ Ho)].
  apply kept_strs. by constructor.
Qed.

(** What every function keeps that adds to the object at the head: strings and the base. *)
Definition extends (c c' : chain) : Prop := strs_ext (view c) (view c') /\ chain_kept (tail c) (tail c') /\
  (o_start_id <$> head c', o_start_str_off <$> head c') = (o_start_id <$> head c, o_start_str_off <$> head c).
Lemma kept_extends c c' : chain_kept c c' -> extends c c'.
Proof.
  intros Hk. split_and!; [by apply kept_strs|destruct Hk; [apply chain_kept_refl|done]|]. destruct Hk as [|o o' ? ? Ho _]; [done|]. cbn. by destruct (k_start _ _ Ho) as [-> ->].
Qed.
Lemma extends_trans c1 c2 c3 : extends c1 c2 -> extends c2 c3 -> extends c1 c3.
Proof. intros (H1 & H2 & H3) (G1 & G2 & G3). split_and!; [intros off s Hs; by apply G1, H1|by eapply chain_kept_trans|congruence]. Qed.

(** Committing a type that was written behind the type data. *)
Lemma commit_types a3 o base a t m : chain_wf (o :: base) -> modifiable o -> obj_types (o :: base) = Some a ->
  type_view (view (o :: base)) (drop (Z.to_nat (h_type_len o / 4)) (o_types o)) = Some t ->
  rest_words (a_kind t) (a_vlen t) = Some m -> h_type_len o + (12 + 4 * m) <= types_cap o ->
  exists r c', btf_commit_type a3 (o :: base) (12 + 4 * m) = Some (r, c') /\ chain_wf c' /\ extends (o :: base) c' /\
    (obj_types c' = Some (a ++ [t]) /\ r = o_start_id o + Z.of_nat (length a) /\
       (exists o', head c' = Some o' /\ modifiable o' /\ o_start_id o' = o_start_id o) \/
     r < 0 /\ obj_types c' = Some a /\ chain_kept (o :: base) c' /\ (a3 = false \/ BTF_MAX_NR_TYPES <= o_nr_types o)).
Proof.
  intros Hwf1 Hm Ha1 Htv Hrest Hroom. destruct (type_view_size _ _ _ Htv) as (m' & Hmr & Hm0 & Hsz & _). rewrite Hrest in Hmr. injection Hmr as <-.
  pose proof (wf_inv _ Hwf1) as Hi1. pose proof Hi1 as [Hw1 _]. apply Forall_cons in Hw1 as [Hw1 _].
  destruct (commit_spec a3 o base m Hi1 Hm Hm0 Hsz Hroom) as (r & o' & Hc & Hi' & Hor).
  exists r, (o' :: base). split; [done|]. destruct Hor as [(-> & Hwhy & Hk')|(-> & Hoffs & Ht & Hs & Hst & Hid & Hnr & Hsl & Hl & _)].
  - assert (chain_kept (o :: base) (o' :: base)) as Hkk by (constructor; [done|apply chain_kept_refl]).
    split; [by eapply wf_kept|]. split; [by apply kept_extends|]. right. split_and!; [done|by apply (kept_types (o :: base) (o' :: base) a Hwf1 Hi' Hkk)|done|done].
  - assert (strs_ext (view (o :: base)) (view (o' :: base))) as Hext.
    { intros off s. simpl. rewrite Hst, Hsl. unfold btf_strs_data. by rewrite Hs. }
    assert (obj_wf o') as Hw' by (destruct Hi' as [H' _]; by apply Forall_cons in H' as [? _]).
    split; [split_and!; [done|apply Hi'|apply Hi'|apply Hext, Hwf1]|]. split; [split_and!; [done|apply chain_kept_refl|cbn; by rewrite Hid, Hst]|]. left. split; [|split].
    + rewrite obj_types_at in * by done. rewrite Hoffs, Ht. unfold types_at in *. apply mapM_Some. apply Forall2_app.
      * apply mapM_Some. eapply types_at_ext; [exact Ha1|exact Hext|apply (ow_laid _ Hw1)|done].
      * constructor; [|constructor]. by apply (type_view_ext _ _ _ _ t m Htv Hext Hrest).
    + f_equal. rewrite obj_types_at in Ha1 by done. apply length_mapM in Ha1. rewrite <- Ha1. by rewrite own_length.
    + exists o'. split; [done|]. split; [|done]. unfold modifiable, btf_is_modifiable. by rewrite Hs.
Qed.

Definition type_result (al : oracle) (c : chain) (a : list atype) (n : Z) (name : option (list Z)) (t : atype) (r : option (Z * chain)) : Prop :=
  exists id c', r = Some (id, c') /\ chain_wf c' /\ extends c c' /\
    (obj_types c' = Some (a ++ [t]) /\ (forall o, head c = Some o -> id = o_start_id o + Z.of_nat (length a) /\
       exists o', head c' = Some o' /\ modifiable o' /\ o_start_id o' = o_start_id o) \/
     id < 0 /\ obj_types c' = Some a /\ chain_kept c c' /\ no_room al c (4 * n) name).

Lemma append_type_spec al c a n name words t : chain_wf c -> obj_types c = Some a -> opt_name_ok name -> 3 <= n < 2 ^ 30 ->
  rest_words (a_kind t) (a_vlen t) = Some (n - 3) ->
  (forall no, 0 <= no < 2 ^ 31 -> Forall word_ok (words no) /\ Z.of_nat (length (words no)) = n) ->
  (forall b no rest, 0 <= no < 2 ^ 31 -> btf__str_by_offset b no = Some (Some (named name)) -> type_view b (words no ++ rest) = Some t) ->
  type_result al c a n name t (append_type al c (4 * n) name words).
Proof.
  intros Hwf Ha Hname Hn Hrest Hwords Hview. unfold append_type. apply append_spec; auto; [lia| |].
  2: { intros r c' Hr Hwf' Hk Hno. exists r, c'. split_and!; auto using kept_extends. right. split; [done|]. split; [|done]. by apply (kept_types c c' a Hwf (wf_inv _ Hwf') Hk). }
  intros o base no rest Hwf1 Hk Hm Hno Hstr Hroom Hdrop. pose proof (Hview (view (o :: base)) no rest Hno Hstr) as Htv.
  rewrite <- Hdrop in Htv. pose proof (kept_types c (o :: base) a Hwf (wf_inv _ Hwf1) Hk Ha) as Ha1.
  replace (4 * n) with (12 + 4 * (n - 3)) in * by lia. inversion Hk as [|o0 ? ? ? Hk0 _]; subst.
  destruct (commit_types (al [3]) o base a t (n - 3) Hwf1 Hm Ha1 Htv Hrest Hroom) as (r & c' & Hc & Hwf' & Hext & [(Hty & -> & Hhd)|(Hr & Hty & Hkc & Hwhy)]);
    exists r, c' || eexists _, c'; (split; [done|]); (split; [done|]); (split; [eapply extends_trans; [by apply kept_extends|done]|]).
  - left. split; [done|]. intros o1 Ho1. injection Ho1 as <-. destruct (k_start _ _ Hk0) as [<- _]. auto.
  - right. split_and!; auto; [by eapply chain_kept_trans|]. unfold no_room. destruct Hwhy as [?|Hmax]; [left; by exists [3]|right; right].
    exists o0. split; [done|]. right. by rewrite <- (k_nr _ _ Hk0).
Qed.

(** ** The [info] word *)
Lemma type_info_sum k v f : 0 <= k < 32 -> 0 <= v < 65536 ->
  btf_type_info k v f = bool_int f * 2 ^ 31 + k * 2 ^ 24 + v.
Proof.
  intros Hk Hv. unfold btf_type_info. rewrite <- Z.lor_assoc. rewrite (lor_shiftl_add k v 24) by lia.
  rewrite (lor_shiftl_add (bool_int f) _ 31) by lia. rewrite wrap_small; [lia|]. destruct f; simpl; lia.
Qed.

Lemma type_info_decode t k v f : 0 <= k < 32 -> 0 <= v < 65536 -> info t = Some (btf_type_info k v f) ->
  btf_kind t = Some k /\ btf_vlen t = Some v /\ btf_kflag t = Some f.
Proof.
  intros Hk Hv Hi. unfold btf_kind, btf_vlen, btf_kflag. rewrite Hi. cbn [mbind option_bind]. rewrite type_info_sum by done.
  change 0x1f with (2 ^ 5 - 1). change 0xffff with (2 ^ 16 - 1). rewrite !land_mask by lia. rewrite !Z.shiftr_div_pow2 by lia.
  change (2 ^ 5 - 1) with 31.
  assert (0 <= bool_int f <= 1) as Hb by (destruct f; simpl; lia).
  split_and!.
  - f_equal. Z.to_euclidean_division_equations. lia.
  - f_equal. Z.to_euclidean_division_equations. lia.
  - f_equal. destruct f; cbn [bool_int] in *.
    + replace ((1 * 2 ^ 31 + k * 2 ^ 24 + v) / 2 ^ 31) with 1 by (Z.to_euclidean_division_equations; lia). done.
    + rewrite Z.div_small by lia. done.
Qed.

Lemma type_info_ok k v f : 0 <= k < 32 -> 0 <= v < 65536 -> word_ok (btf_type_info k v f).
Proof. intros. unfold btf_type_info, word_ok. apply wrap_range. lia. Qed.

(** ** The last type *)
Record last_type (o : btf_obj) (base : chain) (a0 : list atype) (t0 : atype) (offs0 : list Z) (off n0 : Z) : Prop := {
  lt_offs : own_offs o = offs0 ++ [off];
  lt_rest : rest_words (a_kind t0) (a_vlen t0) = Some n0 /\ 0 <= n0;
  lt_end : off + 12 + 4 * n0 = h_type_len o /\ 0 <= off /\ off mod 4 = 0;
  lt_view : type_view (view (o :: base)) (drop (Z.to_nat (off / 4)) (o_types o)) = Some t0;
  lt_init : types_at (view (o :: base)) (o_types o) offs0 = Some a0 /\ laid_out (o_types o) 0 offs0 off;
  lt_cnt : btf__type_cnt (view (o :: base)) = Some (o_start_id o + o_nr_types o);
  lt_nr : 0 < o_nr_types o;
  lt_off : zget (o_offs o) (o_nr_types o - 1) = Some off
}.

Lemma last_type_of o base a0 t0 : chain_wf (o :: base) -> obj_types (o :: base) = Some (a0 ++ [t0]) ->
  exists offs0 off n0, last_type o base a0 t0 offs0 off n0.
Proof.
  intros Hwf Ha. pose proof (wf_inv _ Hwf) as [Hw _]. apply Forall_cons in Hw as [Hw _]. rewrite obj_types_at in Ha by done.
  pose proof (length_mapM _ _ _ Ha) as Hlen. rewrite length_app in Hlen. simpl in Hlen.
  destruct (own_offs o) as [|x l _] eqn:Ho using rev_ind; [simpl in Hlen; lia|]. clear Hlen.
  unfold types_at in Ha. apply mapM_Some in Ha. apply Forall2_app_inv_l in Ha as (a1 & a2 & Ha1 & Ha2 & Heq).
  inversion Ha2 as [|? t ? ? Ht Hnil]; subst. inversion Hnil; subst. apply app_inj_tail in Heq as [<- <-].
  pose proof (ow_laid _ Hw) as Hl. rewrite Ho in Hl. apply laid_app in Hl as (m & Hl0 & Hl1). simpl in Hl1.
  destruct Hl1 as (<- & sz & Hsz & _ & _ & _ & Hend). pose proof (laid_le _ _ _ _ Hl0). pose proof (laid_mod _ _ _ _ Hl0 eq_refl) as Hmod.
  destruct (type_view_size _ _ _ Ht) as (n0 & Hn0 & Hn0p & Hsz' & _). unfold btf_type in *. rewrite Hsz in Hsz'. injection Hsz' as ->.
  pose proof (own_length o Hw) as Hol. rewrite Ho, length_app in Hol. simpl in Hol. pose proof (ow_start _ Hw) as [? _].
  pose proof (own_nr_bound o Hw). pose proof (ow_len _ Hw).
  exists l, x, n0. split; auto.
  - split_and!; auto; lia.
  - split; [|done]. by apply mapM_Some.
  - cbn. f_equal. apply wrap_small. lia.
  - lia.
  - unfold zget. rewrite decide_True by lia. replace (Z.to_nat (o_nr_types o - 1)) with (length l) by lia.
    assert (own_offs o !! length l = Some x) as Hlk by (rewrite Ho; by apply list_lookup_middle).
    unfold own_offs in Hlk. rewrite lookup_take_lt in Hlk; [done|lia].
Qed.

Lemma last_by_id o base a0 t0 offs0 off n0 : obj_wf o -> last_type o base a0 t0 offs0 off n0 ->
  btf_type_by_id (view (o :: base)) (o_start_id o + o_nr_types o - 1) = Some (drop (Z.to_nat (off / 4)) (o_types o)).
Proof.
  intros Hw Hl. pose proof (lt_nr _ _ _ _ _ _ _ Hl). pose proof (ow_start _ Hw) as [? _].
  cbn [view map btf_type_by_id layer_of start_id type_offs types_data].
  destruct (Z.eqb_spec (o_start_id o + o_nr_types o - 1) 0); [lia|].
  destruct (Z.ltb_spec (o_start_id o + o_nr_types o - 1) (o_start_id o)); [lia|].
  replace (o_start_id o + o_nr_types o - 1 - o_start_id o) with (o_nr_types o - 1) by lia. by rewrite (lt_off _ _ _ _ _ _ _ Hl).
Qed.

Lemma last_kind_spec c a : chain_wf c -> obj_types c = Some a -> last_kind c = Some (a_kind <$> last a).
Proof.
  intros Hwf Ha. destruct c as [|o base]; [by destruct Hwf|]. unfold last_kind. cbn [head mbind option_bind].
  destruct a as [|t a _] using rev_ind.
  - pose proof (wf_inv _ Hwf) as [Hw _]. apply Forall_cons in Hw as [Hw _]. rewrite obj_types_at in Ha by done.
    apply length_mapM in Ha. pose proof (own_length o Hw). rewrite Ha in *. simpl in *. destruct (Z.eqb_spec (o_nr_types o) 0); [done|lia].
  - destruct (last_type_of o base a t Hwf Ha) as (offs0 & off & n0 & Hl). pose proof (lt_nr _ _ _ _ _ _ _ Hl).
    destruct (Z.eqb_spec (o_nr_types o) 0); [lia|]. rewrite (lt_cnt _ _ _ _ _ _ _ Hl). cbn [mbind option_bind].
    pose proof (wf_inv _ Hwf) as [Hw _]. apply Forall_cons in Hw as [Hw _]. rewrite (last_by_id _ _ _ _ _ _ _ Hw Hl). cbn [mbind option_bind].
    destruct (type_view_inv _ _ _ (lt_view _ _ _ _ _ _ _ Hl)) as (? & ? & _ & _ & _ & Hk & _). unfold btf_type in *. rewrite Hk. cbn [mbind option_bind].
    by rewrite last_snoc.
Qed.

(** Updating the [info] of the last type. *)
Definition with_info (o : btf_obj) (off i : Z) : btf_obj := set_types (<[Z.to_nat (off / 4 + 1) := i]> (o_types o)) (types_cap o) o.

Lemma last_info_eq f o base off k v fl : btf__type_cnt (view (o :: base)) = Some (o_start_id o + o_nr_types o) ->
  0 < o_nr_types o -> 1 <= o_start_id o -> 0 <= off -> zget (o_offs o) (o_nr_types o - 1) = Some off ->
  btf_kind (drop (Z.to_nat (off / 4)) (o_types o)) = Some k -> btf_vlen (drop (Z.to_nat (off / 4)) (o_types o)) = Some v ->
  btf_kflag (drop (Z.to_nat (off / 4)) (o_types o)) = Some fl -> last_info f (o :: base) = Some (with_info o off (f k v fl) :: base).
Proof.
  intros Hcnt Hnr Hid Hoff Hget Hk Hv Hf. unfold last_info. cbn [head mbind option_bind tail]. rewrite Hcnt. cbn [mbind option_bind].
  assert (btf_type_by_id (view (o :: base)) (o_start_id o + o_nr_types o - 1) = Some (drop (Z.to_nat (off / 4)) (o_types o))) as ->.
  { cbn [view map btf_type_by_id layer_of start_id type_offs types_data]. destruct (Z.eqb_spec (o_start_id o + o_nr_types o - 1) 0); [lia|].
    destruct (Z.ltb_spec (o_start_id o + o_nr_types o - 1) (o_start_id o)); [lia|].
    replace (o_start_id o + o_nr_types o - 1 - o_start_id o) with (o_nr_types o - 1) by lia. by rewrite Hget. }
  cbn [mbind option_bind]. unfold btf_type in *. rewrite Hk. cbn [mbind option_bind]. rewrite Hv. cbn [mbind option_bind]. rewrite Hf. cbn [mbind option_bind].
  unfold set_info. replace (o_start_id o + o_nr_types o - 1 - o_start_id o) with (o_nr_types o - 1) by lia. rewrite Hget. cbn [mbind option_bind].
  assert (exists i, info (drop (Z.to_nat (off / 4)) (o_types o)) = Some i) as [i Hi] by (unfold btf_kind in Hk; apply bind_Some in Hk as (i & ? & _); by exists i).
  unfold info, word, zget in Hi. rewrite decide_True, lookup_drop in Hi by lia. apply lookup_lt_Some in Hi.
  assert (0 <= off / 4) by (apply Z.div_pos; lia). unfold zset. rewrite decide_True by lia. done.
Qed.

(** ** Elements of the last type *)
Definition extend (t : atype) (v : Z) (f : bool) (es : list slot) : atype :=
  AType (a_kind t) v f (a_name t) (a_val t) (a_rest t ++ es).

(** The view of a type whose [info] is replaced and which is followed by one more element. *)
Lemma type_view_extend b (t : list Z) t0 n0 ws rest v f es : type_view b t = Some t0 -> rest_words (a_kind t0) (a_vlen t0) = Some n0 -> 0 <= n0 ->
  0 <= v < 65536 -> drop (3 + Z.to_nat n0) t = ws ++ rest -> slots b (a_kind t0) n0 ws = Some es ->
  rest_words (a_kind t0) v = Some (n0 + Z.of_nat (length ws)) ->
  type_view b (<[1%nat := btf_type_info (a_kind t0) v f]> t) = Some (extend t0 v f es).
Proof.
  intros Hv Hn0 H0 Hvl Hdrop Hes Hn1. destruct (type_view_inv _ _ _ Hv) as (n & r0 & Hn & _ & Hlen & Hk & Hvv & _ & (no & Hno & Hs) & Hval & Hr & Har).
  rewrite Hn0 in Hn. injection Hn as <-. set (t' := <[1%nat := _]> t).
  pose proof (kind_range _ _ Hk) as Hkr. pose proof (vlen_range _ _ Hvv) as Hvr.
  assert (length t' = length t) as Hlt by apply length_insert.
  assert (info t' = Some (btf_type_info (a_kind t0) v f)) as Hi.
  { unfold info, word, zget, t'. rewrite decide_True by lia. change (Z.to_nat 1) with 1%nat. apply list_lookup_insert_eq. lia. }
  destruct (type_info_decode t' (a_kind t0) v f Hkr ltac:(lia) Hi) as (Hk' & Hv' & Hf').
  assert (name_off t' = Some no) as Hno'.
  { rewrite <- Hno. unfold name_off, word, zget, t'. rewrite !decide_True by lia. by rewrite list_lookup_insert_ne. }
  assert (size t' = Some (a_val t0)) as Hval'.
  { rewrite <- Hval. unfold size, word, zget, t'. rewrite !decide_True by lia. change (Z.to_nat 2) with 2%nat. by rewrite list_lookup_insert_ne. }
  assert (length t = 3 + Z.to_nat n0 + (length ws + length rest))%nat as Hll.
  { rewrite <- length_app, <- Hdrop, length_drop. lia. }
  unfold type_view. rewrite Hk'. cbn [mbind option_bind]. rewrite Hv'. cbn [mbind option_bind]. rewrite Hf'. cbn [mbind option_bind].
  rewrite Hn1. cbn [mbind option_bind]. rewrite Hno'. cbn [mbind option_bind]. rewrite Hs. cbn [mbind option_bind].
  rewrite Hval'. cbn [mbind option_bind]. rewrite option_guard_True by lia. cbn [mbind option_bind].
  assert (take (Z.to_nat (n0 + Z.of_nat (length ws))) (drop 3 t') = take (Z.to_nat n0) (drop 3 t) ++ ws) as ->.
  { unfold t'. rewrite drop_insert_lt by lia. replace (Z.to_nat (n0 + Z.of_nat (length ws))) with (Z.to_nat n0 + length ws)%nat by lia.
    rewrite <- take_take_drop. f_equal. rewrite drop_drop, Hdrop. by rewrite take_app_length. }
  rewrite slots_app, Hr. cbn [mbind option_bind]. rewrite length_take, length_drop. rewrite Nat.min_l by lia. rewrite Z2Nat.id by lia.
  change (0 + n0) with n0. rewrite Hes. cbn [mbind option_bind]. unfold extend. by rewrite Har.
Qed.

Lemma elem_finish o base a0 t0 offs0 off n0 ws rest v f es h : chain_wf (o :: base) -> modifiable o -> last_type o base a0 t0 offs0 off n0 ->
  0 <= v < 65536 -> drop (Z.to_nat (h_type_len o / 4)) (o_types o) = ws ++ rest -> Forall word_ok ws ->
  h_type_len o + 4 * Z.of_nat (length ws) <= types_cap o -> slots (view (o :: base)) (a_kind t0) n0 ws = Some es ->
  rest_words (a_kind t0) v = Some (n0 + Z.of_nat (length ws)) ->
  type_len h = h_type_len o + 4 * Z.of_nat (length ws) -> str_len h = h_str_len o ->
  let o' := set_hdr h (with_info o off (btf_type_info (a_kind t0) v f)) in
  chain_wf (o' :: base) /\ obj_types (o' :: base) = Some (a0 ++ [extend t0 v f es]).
Proof.
  intros Hwf Hm Hl Hvl Hdrop Hws Hroom Hes Hn1 Hht Hhs o'. destruct Hl as [Hoffs [Hn0 Hn0p] (Hend & Hoff & Hal) Hview [Hinit Hlaid] _ _ _].
  pose proof (wf_inv _ Hwf) as [Hw Hlk]. apply Forall_cons in Hw as [Hw Hwb]. destruct (wf_modifiable o Hw Hm) as (set & Hst & Hcap & Hlen).
  destruct (type_view_inv _ _ _ Hview) as (? & ? & _ & _ & _ & Hk & Hvv & _). pose proof (kind_range _ _ Hk) as Hkr. pose proof (vlen_range _ _ Hvv) as Hvr.
  set (i := btf_type_info _ _ _) in *. set (j := Z.to_nat (off / 4)) in *.
  assert (Z.to_nat (h_type_len o / 4) = j + (3 + Z.to_nat n0))%nat as Hj by (unfold j; Z.to_euclidean_division_equations; lia).
  assert (Z.to_nat (off / 4 + 1) = j + 1)%nat as Hj1 by (unfold j; Z.to_euclidean_division_equations; lia).
  set (W := <[(j + 1)%nat := i]> (o_types o)).
  assert (o_types o' = W) as HW by (unfold o', with_info, W; cbn; by rewrite Hj1).
  assert (drop j W = <[1%nat := i]> (drop j (o_types o))) as HdW.
  { unfold W. rewrite drop_insert_ge by lia. by replace (j + 1 - j)%nat with 1%nat by lia. }
  assert (strs_ext (view (o :: base)) (view (o' :: base))) as Hext.
  { intros off' s. simpl. change (h_str_len o') with (str_len h). by rewrite Hhs. }
  assert (type_view (view (o' :: base)) (drop j W) = Some (extend t0 v f es)) as Htv.
  { rewrite HdW. apply (type_view_extend (view (o' :: base)) _ t0 n0 ws rest); [by apply (type_view_ext _ _ _ _ _ n0 Hview Hext)|done|done|done| |by apply (slots_ext _ _ _ _ _ _ Hext)|done].
    by rewrite drop_drop, <- Hj. }
  assert (take j W = take j (o_types o)) as Hpre by (unfold W; by rewrite take_insert_ge by lia).
  assert (h_type_len o' = h_type_len o + 4 * Z.of_nat (length ws)) as Hlen' by exact Hht.
  destruct (type_view_size _ _ _ Htv) as (n1 & Hn1' & Hn1p & Hsz & _). cbn [extend a_kind a_vlen] in Hn1'. rewrite Hn1 in Hn1'. injection Hn1' as <-.
  assert (own_offs o' = offs0 ++ [off]) as Hoffs' by exact Hoffs.
  assert (obj_wf o') as Hw'.
  { pose proof Hw as [Hwo ? ? ? ? ? Hstr]. split; rewrite ?HW, ?Hoffs'; auto.
    - unfold W. apply Forall_insert; [done|]. apply type_info_ok; lia.
    - apply laid_app. exists off. split; [by eapply laid_ext; [exact Hlaid|lia|done|reflexivity|]|]. simpl. split; [done|].
      exists (12 + 4 * (n0 + Z.of_nat (length ws))). fold j. unfold btf_type in *. rewrite Hlen'. split_and!; auto; try lia.
      rewrite Z.add_comm, Z.mul_comm. change 12 with (3 * 4). rewrite <- Z.mul_add_distr_r. by apply Z.mod_mul.
    - rewrite Hlen'. lia.
    - change (o_strs o') with (o_strs o). rewrite Hst in *. destruct Hstr as (? & ? & ? & ? & ?). rewrite Hlen'. unfold W. rewrite length_insert.
      change (types_cap o') with (types_cap o). change (h_str_len o') with (str_len h). rewrite Hhs. split_and!; auto; lia. }
  split.
  - split_and!; [done|by constructor|done|apply Hext, Hwf].
  - rewrite obj_types_at, Hoffs', HW by done. unfold types_at. apply mapM_Some, Forall2_app; [|by constructor].
    apply mapM_Some. eapply types_at_ext; [exact Hinit|exact Hext|exact Hlaid|exact Hpre].
Qed.

Definition elem_result (al : oracle) (c : chain) (a0 : list atype) (t0 : atype) (n : Z) (name : option (list Z)) (t1 : atype)
    (r : option (Z * chain)) : Prop :=
  exists id c', r = Some (id, c') /\ chain_wf c' /\
    (id = 0 /\ obj_types c' = Some (a0 ++ [t1]) \/ id < 0 /\ obj_types c' = Some (a0 ++ [t0]) /\ no_room al c (4 * n) name).

(** An update of the [info] of the last type, described on its components. *)
Definition updates (upd : chain -> option chain) (t0 : atype) (f : bool) : Prop :=
  forall o base off, btf__type_cnt (view (o :: base)) = Some (o_start_id o + o_nr_types o) -> 0 < o_nr_types o -> 1 <= o_start_id o -> 0 <= off ->
    zget (o_offs o) (o_nr_types o - 1) = Some off ->
    btf_kind (drop (Z.to_nat (off / 4)) (o_types o)) = Some (a_kind t0) -> btf_vlen (drop (Z.to_nat (off / 4)) (o_types o)) = Some (a_vlen t0) ->
    btf_kflag (drop (Z.to_nat (off / 4)) (o_types o)) = Some (a_kflag t0) ->
    upd (o :: base) = Some (with_info o off (btf_type_info (a_kind t0) (a_vlen t0 + 1) f) :: base).

Lemma updates_once t0 f g : g (a_kind t0) (a_vlen t0) (a_kflag t0) = btf_type_info (a_kind t0) (a_vlen t0 + 1) f -> updates (last_info g) t0 f.
Proof. intros Hg o base off H1 H2 H3 H4 H5 H6 H7 H8. rewrite <- Hg. by apply last_info_eq. Qed.

Lemma append_elem_spec al c a0 t0 n0 n name words upd f es : chain_wf c -> obj_types c = Some (a0 ++ [t0]) -> opt_name_ok name -> 0 <= n < 2 ^ 30 ->
  a_vlen t0 < 65535 -> rest_words (a_kind t0) (a_vlen t0) = Some n0 -> rest_words (a_kind t0) (a_vlen t0 + 1) = Some (n0 + n) ->
  (forall no, 0 <= no < 2 ^ 31 -> Forall word_ok (words no) /\ Z.of_nat (length (words no)) = n) ->
  (forall b no, 0 <= no < 2 ^ 31 -> btf__str_by_offset b no = Some (Some (named name)) -> slots b (a_kind t0) n0 (words no) = Some es) ->
  updates upd t0 f ->
  elem_result al c a0 t0 n name (extend t0 (a_vlen t0 + 1) f es) (append_elem al c (4 * n) name words upd).
Proof.
  intros Hwf Ha Hname Hn Hvl Hn0 Hn1 Hwords Hslots Hupd. unfold append_elem. apply append_spec; auto.
  2: { intros r c' Hr Hwf' Hk Hno. exists r, c'. split_and!; auto. right. split; [done|]. split; [|done].
       by apply (kept_types c c' _ Hwf (wf_inv _ Hwf') Hk). }
  intros o base no rest Hwf1 Hk Hm Hno Hstr Hroom Hdrop.
  pose proof (kept_types c (o :: base) _ Hwf (wf_inv _ Hwf1) Hk Ha) as Ha1.
  destruct (last_type_of o base a0 t0 Hwf1 Ha1) as (offs0 & off & m & Hl). destruct (lt_rest _ _ _ _ _ _ _ Hl) as [Hm0 Hmp].
  rewrite Hn0 in Hm0. injection Hm0 as <-. destruct (Hwords no Hno) as [Hok Hlen].
  destruct (type_view_inv _ _ _ (lt_view _ _ _ _ _ _ _ Hl)) as (? & ? & _ & _ & _ & Hk0 & Hv0 & Hf0 & _).
  pose proof (wf_inv _ Hwf1) as [Hw1 _]. apply Forall_cons in Hw1 as [Hw1 _]. pose proof (ow_start _ Hw1) as [Hs1 _].
  rewrite (Hupd o base off (lt_cnt _ _ _ _ _ _ _ Hl) (lt_nr _ _ _ _ _ _ _ Hl) ltac:(lia)
    (proj1 (proj2 (lt_end _ _ _ _ _ _ _ Hl))) (lt_off _ _ _ _ _ _ _ Hl) Hk0 Hv0 Hf0).
  cbn [mbind option_bind head tail]. rewrite <- Hlen in *.
  set (o1 := with_info _ _ _). destruct (wf_modifiable o Hw1 Hm) as (set & _ & Hcap & _). pose proof (ow_len _ Hw1). pose proof (vlen_range _ _ Hv0).
  destruct (elem_finish o base a0 t0 offs0 off n0 (words no) rest (a_vlen t0 + 1) f es (hdr (grow_types (4 * Z.of_nat (length (words no))) o1))) as [Hwf2 Ha2];
    auto; [lia|unfold grow_types; cbn; apply wrap_small; fold (h_type_len o); lia|].
  eexists 0, _. split; [done|]. split; [exact Hwf2|]. by left.
Qed.

(** ** Types whose [info] is set after they were added *)
Lemma info_of_new_spec al c a name t v f r : chain_wf c -> type_result al c a 3 name t r -> rest_words (a_kind t) (a_vlen t) = Some 0 ->
  rest_words (a_kind t) v = Some 0 -> 0 <= v < 65536 ->
  type_result al c a 3 name (extend t v f []) (r ← r; info_of_new r (btf_type_info (a_kind t) v f)).
Proof.
  intros Hwf (id & c' & -> & Hwf' & Hext & Hor) Hn0 Hn1 Hv. cbn [mbind option_bind]. unfold info_of_new. cbn [fst snd].
  destruct Hor as [[Ha Hid]|(Hneg & Ha & Hno)].
  2: { destruct (Z.leb_spec id 0); [|lia]. exists id, c'. split_and!; auto. }
  destruct c' as [|o base]; [by destruct Hwf'|]. destruct c as [|o0 base0]; [by destruct Hwf|]. destruct (Hid o0 eq_refl) as (-> & o' & Ho' & Hm & Hst).
  cbn [head] in Ho'. injection Ho' as <-. pose proof (wf_inv _ Hwf') as [Hw _]. apply Forall_cons in Hw as [Hw _]. pose proof (ow_start _ Hw) as [Hs1 _].
  destruct (last_type_of o base a t Hwf' Ha) as (offs0 & off & n0 & Hl). destruct (lt_rest _ _ _ _ _ _ _ Hl) as [Hn0' Hn0p].
  rewrite Hn0 in Hn0'. injection Hn0' as <-.
  assert (o_nr_types o = Z.of_nat (length a) + 1) as Hnr.
  { rewrite obj_types_at in Ha by done. apply length_mapM in Ha. rewrite <- (own_length o Hw), Ha, length_app. simpl. lia. }
  rewrite <- Hst. destruct (Z.leb_spec (o_start_id o + Z.of_nat (length a)) 0); [lia|]. cbn [head mbind option_bind tail].
  assert (set_info o (o_start_id o + Z.of_nat (length a)) (btf_type_info (a_kind t) v f) = Some (with_info o off (btf_type_info (a_kind t) v f))) as ->.
  { unfold set_info. replace (o_start_id o + Z.of_nat (length a) - o_start_id o) with (o_nr_types o - 1) by lia.
    rewrite (lt_off _ _ _ _ _ _ _ Hl). cbn [mbind option_bind]. destruct (lt_end _ _ _ _ _ _ _ Hl) as (He & Hop & Hom).
    destruct (wf_modifiable o Hw Hm) as (set & _ & Hcap & Hlen). unfold zset. rewrite decide_True; [done|].
    Z.to_euclidean_division_equations. lia. }
  cbn [mbind option_bind].
  destruct (elem_finish o base a t offs0 off 0 [] (drop (Z.to_nat (h_type_len o / 4)) (o_types o)) v f [] (hdr o)) as [Hwf2 Ha2]; auto.
  { simpl. destruct (wf_modifiable o Hw Hm) as (set & _ & Hcap & Hlen). lia. }
  { unfold h_type_len. simpl. lia. }
  eexists _, _. split; [done|]. split; [exact Hwf2|]. split; [exact Hext|]. left. split; [exact Ha2|]. intros o1 Ho1. cbn [head] in Ho1. injection Ho1 as <-. split; [congruence|].
  eexists. split; [done|]. split; [done|]. done.
Qed.
