(* ===== verification/BtfBuildSpec.v ===== *)
(** * What the functions that build BTF do

    The contract of the functions of BtfBuild.v as one abstract specification: each call
    refuses its arguments, appends a type, or appends an element to the last type; and the
    theorem that the functions perform it for every outcome of their allocations. *)
From stdpp Require Import base numbers list gmap.
From S2P Require Import Prelude Hashmap Strset Btf BtfBuild.

(** ** The abstract specification *)
Inductive op :=
| AddInt (name : option (list Z)) (byte_sz encoding : Z)
| AddFloat (name : option (list Z)) (byte_sz : Z)
| AddPtr (id : Z)
| AddArray (index_id elem_id nr_elems : Z)
| AddStruct (name : option (list Z)) (byte_sz : Z)
| AddUnion (name : option (list Z)) (byte_sz : Z)
| AddField (name : option (list Z)) (id bit_offset bit_size : Z)
| AddEnum (name : option (list Z)) (byte_sz : Z)
| AddEnumValue (name : option (list Z)) (value : Z)
| AddEnum64 (name : option (list Z)) (byte_sz : Z) (is_signed : bool)
| AddEnum64Value (name : option (list Z)) (value : Z)
| AddFwd (name : option (list Z)) (fwd_kind : Z)
| AddTypedef (name : option (list Z)) (id : Z)
| AddVolatile (id : Z)
| AddConst (id : Z)
| AddRestrict (id : Z)
| AddTypeTag (value : option (list Z)) (id : Z)
| AddTypeAttr (value : option (list Z)) (id : Z)
| AddFunc (name : option (list Z)) (linkage id : Z)
| AddFuncProto (ret_id : Z)
| AddFuncParam (name : option (list Z)) (id : Z)
| AddVar (name : option (list Z)) (linkage id : Z)
| AddDatasec (name : option (list Z)) (byte_sz : Z)
| AddDatasecVar (id offset byte_sz : Z)
| AddDeclTag (value : option (list Z)) (id component_idx : Z)
| AddDeclAttr (value : option (list Z)) (id component_idx : Z).

Definition run_op (al : oracle) (c : chain) (p : op) : option (Z * chain) :=
  match p with
  | AddInt n s e => btf__add_int al c n s e
  | AddFloat n s => btf__add_float al c n s
  | AddPtr i => btf__add_ptr al c i
  | AddArray x e n => btf__add_array al c x e n
  | AddStruct n s => btf__add_struct al c n s
  | AddUnion n s => btf__add_union al c n s
  | AddField n i o s => btf__add_field al c n i o s
  | AddEnum n s => btf__add_enum al c n s
  | AddEnumValue n v => btf__add_enum_value al c n v
  | AddEnum64 n s g => btf__add_enum64 al c n s g
  | AddEnum64Value n v => btf__add_enum64_value al c n v
  | AddFwd n k => btf__add_fwd al c n k
  | AddTypedef n i => btf__add_typedef al c n i
  | AddVolatile i => btf__add_volatile al c i
  | AddConst i => btf__add_const al c i
  | AddRestrict i => btf__add_restrict al c i
  | AddTypeTag v i => btf__add_type_tag al c v i
  | AddTypeAttr v i => btf__add_type_attr al c v i
  | AddFunc n l i => btf__add_func al c n l i
  | AddFuncProto i => btf__add_func_proto al c i
  | AddFuncParam n i => btf__add_func_param al c n i
  | AddVar n l i => btf__add_var al c n l i
  | AddDatasec n s => btf__add_datasec al c n s
  | AddDatasecVar i o s => btf__add_datasec_var_info al c i o s
  | AddDeclTag v i x => btf__add_decl_tag al c v i x
  | AddDeclAttr v i x => btf__add_decl_attr al c v i x
  end.

(** What an operation should do: refuse its arguments, append a type of [n] words, or append
    an element of [n] words to the last type. *)
Inductive effect :=
| Refuse (e : Z)
| NewType (n : Z) (name : option (list Z)) (t : atype)
| NewElem (n : Z) (name : option (list Z)) (f : bool) (es : list slot).

Definition int_ok (x : Z) : Prop := - 2 ^ 31 <= x < 2 ^ 31.
Definition uint_ok (x : Z) : Prop := 0 <= x < 2 ^ 32.
Definition id_ok (x : Z) : bool := 0 <=? x.
Definition ref (k : Z) (name : option (list Z)) (v : Z) (f : bool) (id : Z) : effect :=
  if id_ok id then NewType 3 name (AType k v f (named name) id []) else Refuse (- EINVAL).
Definition when (b : bool) (e : effect) : effect := if b then e else Refuse (- EINVAL).
Definition elem (a : list atype) (f : atype -> effect) : effect :=
  match last a with Some t => f t | None => Refuse (- EINVAL) end.

Definition effect_of (a : list atype) (p : op) : effect :=
  match p with
  | AddInt name sz enc =>
    when (negb (no_name name) && bool_decide (sz ∈ [1; 2; 4; 8; 16]) && bool_decide (0 <= enc < 8))
      (NewType 4 name (AType BTF_KIND_INT 0 false (named name) sz [inl (enc * 2 ^ 24 + sz * 8)]))
  | AddFloat name sz =>
    when (negb (no_name name) && bool_decide (sz ∈ [2; 4; 8; 12; 16]))
      (NewType 3 name (AType BTF_KIND_FLOAT 0 false (named name) sz []))
  | AddPtr id => ref BTF_KIND_PTR None 0 false id
  | AddArray x e n =>
    when (id_ok x && id_ok e) (NewType 6 None (AType BTF_KIND_ARRAY 0 false [] 0 [inl e; inl x; inl n]))
  | AddStruct name sz => NewType 3 name (AType BTF_KIND_STRUCT 0 false (named name) sz [])
  | AddUnion name sz => NewType 3 name (AType BTF_KIND_UNION 0 false (named name) sz [])
  | AddField name id off bsz =>
    elem a (fun t =>
      let bitfield := negb (bsz =? 0) || negb (off mod 8 =? 0) in
      when (kind_is_composite (a_kind t) && id_ok id &&
            (negb bitfield || bool_decide (1 <= bsz <= 255 /\ off < 2 ^ 24)) &&
            (negb (a_kind t =? BTF_KIND_UNION) || (off =? 0)))
        (NewElem 3 name (bitfield || a_kflag t) [inr (named name); inl id; inl (bsz * 2 ^ 24 + off)]))
  | AddEnum name sz =>
    when (bool_decide (sz ∈ [1; 2; 4; 8])) (NewType 3 name (AType BTF_KIND_ENUM 0 false (named name) sz []))
  | AddEnumValue name v =>
    elem a (fun t =>
      when ((a_kind t =? BTF_KIND_ENUM) && negb (no_name name))
        (if bool_decide (- 2 ^ 31 <= v < 2 ^ 32)
         then NewElem 2 name ((v <? 0) || a_kflag t) [inr (named name); inl (v mod 2 ^ 32)] else Refuse (- E2BIG)))
  | AddEnum64 name sz g =>
    when (bool_decide (sz ∈ [1; 2; 4; 8])) (NewType 3 name (AType BTF_KIND_ENUM64 0 g (named name) sz []))
  | AddEnum64Value name v =>
    elem a (fun t =>
      when ((a_kind t =? BTF_KIND_ENUM64) && negb (no_name name))
        (NewElem 3 name (a_kflag t) [inr (named name); inl (v mod 2 ^ 32); inl (v / 2 ^ 32)]))
  | AddFwd name k =>
    when (negb (no_name name))
      (if k =? BTF_FWD_ENUM then NewType 3 name (AType BTF_KIND_ENUM 0 false (named name) 4 [])
       else when ((k =? BTF_FWD_STRUCT) || (k =? BTF_FWD_UNION)) (ref BTF_KIND_FWD name 0 (k =? BTF_FWD_UNION) 0))
  | AddTypedef name id => when (negb (no_name name)) (ref BTF_KIND_TYPEDEF name 0 false id)
  | AddVolatile id => ref BTF_KIND_VOLATILE None 0 false id
  | AddConst id => ref BTF_KIND_CONST None 0 false id
  | AddRestrict id => ref BTF_KIND_RESTRICT None 0 false id
  | AddTypeTag v id => when (negb (no_name v)) (ref BTF_KIND_TYPE_TAG v 0 false id)
  | AddTypeAttr v id => when (negb (no_name v)) (ref BTF_KIND_TYPE_TAG v 0 true id)
  | AddFunc name l id =>
    when (negb (no_name name) && bool_decide (0 <= l <= 2)) (ref BTF_KIND_FUNC name l false id)
  | AddFuncProto id => ref BTF_KIND_FUNC_PROTO None 0 false id
  | AddFuncParam name id =>
    elem a (fun t => when (id_ok id && (a_kind t =? BTF_KIND_FUNC_PROTO))
      (NewElem 2 name (a_kflag t) [inr (named name); inl id]))
  | AddVar name l id =>
    when (negb (no_name name) && bool_decide (0 <= l <= 2) && id_ok id)
      (NewType 4 name (AType BTF_KIND_VAR 0 false (named name) id [inl l]))
  | AddDatasec name sz => when (negb (no_name name)) (NewType 3 name (AType BTF_KIND_DATASEC 0 false (named name) sz []))
  | AddDatasecVar id off sz =>
    elem a (fun t => when ((a_kind t =? BTF_KIND_DATASEC) && id_ok id) (NewElem 3 None (a_kflag t) [inl id; inl off; inl sz]))
  | AddDeclTag v id x =>
    when (negb (no_name v) && (-1 <=? x) && id_ok id)
      (NewType 4 v (AType BTF_KIND_DECL_TAG 0 false (named v) id [inl (x mod 2 ^ 32)]))
  | AddDeclAttr v id x =>
    when (negb (no_name v) && (-1 <=? x) && id_ok id)
      (NewType 4 v (AType BTF_KIND_DECL_TAG 0 true (named v) id [inl (x mod 2 ^ 32)]))
  end.

(** Arguments in the range of their C types, names that are C strings. *)
Definition op_ok (p : op) : Prop :=
  match p with
  | AddInt n s e => opt_name_ok n /\ 0 <= s < 2 ^ 64 /\ int_ok e
  | AddFloat n s => opt_name_ok n /\ 0 <= s < 2 ^ 64
  | AddPtr i | AddVolatile i | AddConst i | AddRestrict i | AddFuncProto i => int_ok i
  | AddArray x e n => int_ok x /\ int_ok e /\ uint_ok n
  | AddStruct n s | AddUnion n s | AddEnum n s | AddEnum64 n s _ | AddDatasec n s => opt_name_ok n /\ uint_ok s
  | AddField n i o s => opt_name_ok n /\ int_ok i /\ uint_ok o /\ uint_ok s
  | AddEnumValue n v => opt_name_ok n /\ - 2 ^ 63 <= v < 2 ^ 63
  | AddEnum64Value n v => opt_name_ok n /\ 0 <= v < 2 ^ 64
  | AddFwd n k => opt_name_ok n
  | AddTypedef n i | AddTypeTag n i | AddTypeAttr n i | AddFuncParam n i => opt_name_ok n /\ int_ok i
  | AddFunc n l i | AddVar n l i => opt_name_ok n /\ int_ok l /\ int_ok i
  | AddDatasecVar i o s => int_ok i /\ uint_ok o /\ uint_ok s
  | AddDeclTag v i x | AddDeclAttr v i x => opt_name_ok v /\ int_ok i /\ int_ok x
  end.

(** Appending an element needs room in the 16 bits of [vlen]. *)
Definition vlen_room (a : list atype) (p : op) : Prop :=
  match effect_of a p, last a with NewElem _ _ _ _, Some t => a_vlen t < 65535 | _, _ => True end.

Definition performs (al : oracle) (c : chain) (a : list atype) (e : effect) (r : option (Z * chain)) : Prop :=
  exists id c' a', r = Some (id, c') /\ chain_wf c' /\ obj_types c' = Some a' /\
    match e with
    | Refuse err => id = err /\ c' = c /\ a' = a
    | NewType n name t =>
      (forall o, head c = Some o -> id = o_start_id o + Z.of_nat (length a)) /\ a' = a ++ [t] \/
      id < 0 /\ a' = a /\ no_room al c (4 * n) name
    | NewElem n name f es => exists a0 t0, a = a0 ++ [t0] /\
      (id = 0 /\ a' = a0 ++ [extend t0 (a_vlen t0 + 1) f es] \/ id < 0 /\ a' = a /\ no_room al c (4 * n) name)
    end.

(** ** The guards *)
Lemma int_size_guard sz : 0 <= sz < 2 ^ 64 ->
  (sz =? 0) || negb (sz &' u64 (sz - 1) =? 0) || (sz >? 16) = negb (bool_decide (sz ∈ [1; 2; 4; 8; 16])).
Proof.
  intros H. destruct (Z.gtb_spec sz 16) as [Hgt|Hle].
  - rewrite orb_true_r, bool_decide_false; [done|]. rewrite !elem_of_cons, elem_of_nil. lia.
  - destruct (small_nat sz 16 ltac:(lia)) as (i & Hi & ->). clear H Hle. do 17 (destruct i as [|i]; [vm_compute; reflexivity|]). lia.
Qed.

Lemma enum_size_guard sz : uint_ok sz ->
  (sz =? 0) || negb (sz &' u32 (sz - 1) =? 0) || (sz >? 8) = negb (bool_decide (sz ∈ [1; 2; 4; 8])).
Proof.
  intros H. destruct (Z.gtb_spec sz 8) as [Hgt|Hle].
  - rewrite orb_true_r, bool_decide_false; [done|]. rewrite !elem_of_cons, elem_of_nil. lia.
  - destruct (small_nat sz 8 ltac:(unfold uint_ok in H; lia)) as (i & Hi & ->). clear H Hle.
    do 9 (destruct i as [|i]; [vm_compute; reflexivity|]). lia.
Qed.

Lemma float_size_guard sz : negb (sz =? 2) && negb (sz =? 4) && negb (sz =? 8) && negb (sz =? 12) && negb (sz =? 16) =
  negb (bool_decide (sz ∈ [2; 4; 8; 12; 16])).
Proof.
  destruct (bool_decide_reflect (sz ∈ [2; 4; 8; 12; 16])) as [H|H].
  - rewrite !elem_of_cons, elem_of_nil in H. destruct_or?; subst; done.
  - rewrite !elem_of_cons, elem_of_nil in H. destruct (Z.eqb_spec sz 2), (Z.eqb_spec sz 4), (Z.eqb_spec sz 8), (Z.eqb_spec sz 12), (Z.eqb_spec sz 16); simpl; tauto || done.
Qed.

Lemma encoding_guard enc : negb (enc &' Z.lnot (BTF_INT_SIGNED |' BTF_INT_CHAR |' BTF_INT_BOOL) =? 0) = negb (bool_decide (0 <= enc < 8)).
Proof.
  f_equal. change (BTF_INT_SIGNED |' BTF_INT_CHAR |' BTF_INT_BOOL) with (Z.ones 3).
  rewrite <- Z.ldiff_land, Z.ldiff_ones_r, Z.shiftl_mul_pow2, Z.shiftr_div_pow2 by lia. change (2 ^ 3) with 8.
  destruct (bool_decide_reflect (0 <= enc < 8)) as [H|H].
  - rewrite Z.div_small by lia. done.
  - apply Z.eqb_neq. Z.to_euclidean_division_equations. lia.
Qed.

Lemma linkage_guard l : negb (l =? 0) && negb (l =? 1) && negb (l =? 2) = negb (bool_decide (0 <= l <= 2)).
Proof.
  destruct (bool_decide_reflect (0 <= l <= 2)); destruct (Z.eqb_spec l 0), (Z.eqb_spec l 1), (Z.eqb_spec l 2); simpl; lia || done.
Qed.

Lemma id_guard id : int_ok id -> bad_type_id id = negb (id_ok id).
Proof.
  unfold int_ok, bad_type_id, id_ok, BTF_MAX_NR_TYPES. intros H.
  destruct (Z.ltb_spec id 0), (Z.leb_spec 0 id), (Z.gtb_spec id 0x7fffffff); simpl; lia || done.
Qed.

Lemma field_offset_word off bsz : uint_ok off -> bsz = 0 \/ 1 <= bsz <= 255 /\ off < 2 ^ 24 ->
  off |' u32 (bsz <<' 24) = bsz * 2 ^ 24 + off /\ 0 <= bsz * 2 ^ 24 + off < 2 ^ 32.
Proof.
  unfold uint_ok. intros H [->|[H1 H2]]; [change (0 <<' 24) with 0; unfold wrap; rewrite Z.mod_0_l, Z.lor_0_r by lia; lia|].
  rewrite Z.shiftl_mul_pow2, wrap_small, Z.lor_comm by lia. rewrite lor_tag by lia. lia.
Qed.

(** ** Views of what is appended *)
Lemma view_new b no k v f val ws rest s es : 0 <= k < 32 -> 0 <= v < 65536 -> rest_words k v = Some (Z.of_nat (length ws)) ->
  btf__str_by_offset b no = Some (Some s) -> slots b k 0 ws = Some es ->
  type_view b (([no; btf_type_info k v f; val] ++ ws) ++ rest) = Some (AType k v f s val es).
Proof.
  intros Hk Hv Hr Hs Hes. rewrite <- app_assoc.
  destruct (type_info_decode ([no; btf_type_info k v f; val] ++ ws ++ rest) k v f Hk Hv eq_refl) as (E1 & E2 & E3).
  unfold type_view. rewrite E1. cbn [mbind option_bind]. rewrite E2. cbn [mbind option_bind]. rewrite E3. cbn [mbind option_bind].
  rewrite Hr. cbn [mbind option_bind]. change (name_off _) with (Some no). cbn [mbind option_bind]. rewrite Hs. cbn [mbind option_bind].
  change (size _) with (Some val). cbn [mbind option_bind].
  rewrite option_guard_True by (rewrite !length_app; simpl; lia). cbn [mbind option_bind].
  change (drop 3 ([no; btf_type_info k v f; val] ++ ws ++ rest)) with (ws ++ rest).
  rewrite Nat2Z.id, take_app_length, Hes. done.
Qed.

Lemma name_slot_stride k n n0 i : name_stride k = Some n -> 0 < n -> n0 mod n = 0 -> 0 <= i < n -> name_slot k (n0 + i) = (i =? 0).
Proof.
  intros Hk Hn H0 Hi. unfold name_slot. rewrite Hk. rewrite <- (Z.mod_small i n) at 2 by done.
  by rewrite Z.add_mod, H0, Z.add_0_l, Z.mod_mod by lia.
Qed.

(** The words of one element, for the kinds whose elements start with a name. *)
Lemma slots_elem b k n n0 no s ws : name_stride k = Some (Z.of_nat (S (length ws))) -> n = Z.of_nat (S (length ws)) -> n0 mod n = 0 ->
  btf__str_by_offset b no = Some (Some s) -> slots b k n0 (no :: ws) = Some (inr s :: map inl ws).
Proof.
  intros Hk -> H0 Hs. cbn [slots]. pose proof (name_slot_stride k _ n0 0 Hk ltac:(lia) H0 ltac:(lia)) as E. rewrite Z.add_0_r in E.
  rewrite E. simpl. rewrite Hs. cbn [mbind option_bind].
  assert (forall (l : list Z) i, 1 <= i -> i + Z.of_nat (length l) <= Z.of_nat (S (length ws)) -> slots b k (n0 + i) l = Some (map inl l)) as Hrest.
  { induction l as [|w l IH]; intros i Hi Hl; cbn [slots map length] in *; [done|].
    rewrite (name_slot_stride k _ n0 i Hk) by lia. destruct (Z.eqb_spec i 0); [lia|]. cbn [mbind option_bind].
    rewrite <- Z.add_assoc, IH by lia. done. }
  rewrite Hrest by lia. done.
Qed.

Lemma slots_plain b k i ws : name_stride k = None -> slots b k i ws = Some (map inl ws).
Proof.
  intros Hk. revert i. induction ws as [|w ws IH]; intros i; cbn [slots map]; [done|]. unfold name_slot. rewrite Hk. cbn [mbind option_bind].
  rewrite IH. done.
Qed.

(** A negative enumerator sets the flag with a second update. *)
Lemma updates_enum t0 v : a_vlen t0 < 65535 ->
  updates (fun c => c ← btf_type_inc_vlen c; if v <? 0 then last_info (fun k v _ => btf_type_info k v true) c else Some c)
    t0 ((v <? 0) || a_kflag t0).
Proof.
  intros Hroom o base off H1 H2 H3 H4 H5 H6 H7 H8.
  unfold btf_type_inc_vlen. rewrite (updates_once t0 (a_kflag t0) _ eq_refl o base off H1 H2 H3 H4 H5 H6 H7 H8). cbn [mbind option_bind].
  destruct (v <? 0); [|done]. cbn [orb].
  pose proof (kind_range _ _ H6) as Hk. pose proof (vlen_range _ _ H7) as Hv.
  set (i1 := btf_type_info (a_kind t0) (a_vlen t0 + 1) (a_kflag t0)).
  assert (info (drop (Z.to_nat (off / 4)) (o_types (with_info o off i1))) = Some i1) as Hi.
  { unfold info, word, zget. rewrite decide_True, lookup_drop by lia. cbn [with_info set_types o_types].
    assert (0 <= off / 4) by (apply Z.div_pos; lia).
    replace (Z.to_nat (off / 4 + 1)) with (Z.to_nat (off / 4) + Z.to_nat 1)%nat by lia. apply list_lookup_insert_eq.
    unfold btf_kind in H6. apply bind_Some in H6 as (j & Hj & _). unfold info, word, zget in Hj. rewrite decide_True, lookup_drop in Hj by lia.
    by apply lookup_lt_Some in Hj. }
  destruct (type_info_decode _ (a_kind t0) (a_vlen t0 + 1) (a_kflag t0) Hk ltac:(lia) Hi) as (E1 & E2 & E3).
  rewrite (last_info_eq _ (with_info o off i1) base off _ _ _ H1 H2 H3 H4 H5 E1 E2 E3).
  unfold with_info. cbn [set_types o_types types_cap o_offs]. rewrite list_insert_insert_eq. done.
Qed.

(** ** The operations perform their effects *)
Section Performs.
  Context (al : oracle) (c : chain) (a : list atype).
  Context (Hwf : chain_wf c) (Ha : obj_types c = Some a).

Lemma performs_refuse e : performs al c a (Refuse e) (Some (e, c)).
Proof. by exists e, c, a. Qed.

Lemma performs_when g e r : (g = true -> performs al c a e r) ->
  performs al c a (when g e) (if negb g then Some (- EINVAL, c) else r).
Proof. destruct g; intros H; [by apply H|apply performs_refuse]. Qed.

Lemma performs_guard g e r : (g = true -> performs al c a e r) -> (g = false -> r = Some (- EINVAL, c)) -> performs al c a (when g e) r.
Proof. destruct g; intros H1 H2; [by apply H1|]. rewrite H2 by done. apply performs_refuse. Qed.

Lemma performs_type n name t r : type_result al c a n name t r -> performs al c a (NewType n name t) r.
Proof.
  intros (id & c' & Hr & Hw & _ & [[Hty Hid]|(Hneg & Hty & _ & Hno)]).
  - exists id, c', (a ++ [t]). split_and!; auto. left. split; [|done]. intros o Ho. apply (Hid o Ho).
  - exists id, c', a. split_and!; auto.
Qed.

Lemma append_None sz words words' fin : words 0 = words' 0 -> append al c sz None words fin = append al c sz None words' fin.
Proof.
  intros H. unfold append. destruct (head c) as [o|]; [|done]. cbn [mbind option_bind].
  destruct (btf_ensure_modifiable _ o) as [[err o1]|]; [|done]. cbn [mbind option_bind]. destruct (negb _); [done|].
  destruct (btf_add_type_mem _ o1 sz) as [o2|]; [|done]. cbn [add_name mbind option_bind]. by rewrite H.
Qed.

(** Appending the words of a new type. *)
Lemma new_type_result n name k f val ws : 0 <= k < 32 -> opt_name_ok name -> rest_words k 0 = Some (Z.of_nat (length ws)) ->
  n = 3 + Z.of_nat (length ws) -> n <= 6 -> word_ok val -> Forall word_ok ws -> (ws = [] \/ name_stride k = None) ->
  type_result al c a n name (AType k 0 f (named name) val (map inl ws))
    (append_type al c (4 * n) name (fun no => [no; btf_type_info k 0 f; val] ++ ws)).
Proof.
  intros Hk Hname Hr -> Hn Hval Hws Hst. apply append_type_spec; auto; [lia|simpl; rewrite Hr; f_equal; lia| |].
  - intros no Hno. split; [|rewrite length_app; simpl; lia]. apply Forall_app. split; [|done].
    repeat constructor; unfold word_ok in *; try lia; apply type_info_ok; lia.
  - intros b no rest Hno Hs. apply view_new; auto; [lia|]. destruct Hst as [->|Hst]; [done|by apply slots_plain].
Qed.

Lemma new_type_performs n name k f val ws : 0 <= k < 32 -> opt_name_ok name -> rest_words k 0 = Some (Z.of_nat (length ws)) ->
  n = 3 + Z.of_nat (length ws) -> n <= 6 -> word_ok val -> Forall word_ok ws -> (ws = [] \/ name_stride k = None) ->
  performs al c a (NewType n name (AType k 0 f (named name) val (map inl ws)))
    (append_type al c (4 * n) name (fun no => [no; btf_type_info k 0 f; val] ++ ws)).
Proof. intros. apply performs_type. by apply new_type_result. Qed.

Lemma ref_performs k name f id : 0 <= k < 32 -> opt_name_ok name -> rest_words k 0 = Some 0 -> int_ok id ->
  performs al c a (ref k name 0 f id) (btf_add_ref_kind al c k name id f).
Proof.
  intros Hk Hn Hr Hid. unfold ref, btf_add_ref_kind. rewrite id_guard by done. destruct (id_ok id) eqn:E; [|apply performs_refuse].
  apply Z.leb_le in E. apply (new_type_performs 3 name k f id []); auto; unfold word_ok, int_ok in *; simpl; lia.
Qed.

(** A type whose [info] is set once it is there. *)
Lemma ref_info_performs k name v f f' id : 0 <= k < 32 -> opt_name_ok name -> rest_words k 0 = Some 0 -> rest_words k v = Some 0 ->
  0 <= v < 65536 -> int_ok id ->
  performs al c a (ref k name v f' id) (r ← btf_add_ref_kind al c k name id f; info_of_new r (btf_type_info k v f')).
Proof.
  intros Hk Hn Hr Hr' Hv Hid. unfold ref, btf_add_ref_kind. rewrite id_guard by done. destruct (id_ok id) eqn:E; [|apply performs_refuse].
  apply Z.leb_le in E. apply performs_type. cbn [negb].
  apply (info_of_new_spec al c a name (AType k 0 f (named name) id []) v f'); auto.
  apply (new_type_result 3 name k f id []); auto; unfold word_ok, int_ok in *; simpl; lia.
Qed.

Lemma performs_elem g (eff : atype -> effect) : (forall a0 t, a = a0 ++ [t] -> performs al c a (eff t) (g (a_kind t))) ->
  performs al c a (elem a eff)
    (ok ← last_kind c; match ok with None => Some (- EINVAL, c) | Some k => g k end).
Proof.
  intros H. rewrite (last_kind_spec c a Hwf Ha). cbn [mbind option_bind]. unfold elem.
  destruct (last a) as [t|] eqn:E; [|apply performs_refuse]. apply last_Some in E as [a0 ->]. simpl. by apply (H a0).
Qed.

Lemma new_elem_performs a0 t n name words f es upd : a = a0 ++ [t] -> opt_name_ok name -> 0 <= n <= 3 -> a_vlen t < 65535 ->
  rest_words (a_kind t) (a_vlen t) = Some (n * a_vlen t) -> rest_words (a_kind t) (a_vlen t + 1) = Some (n * (a_vlen t + 1)) ->
  (forall no, 0 <= no < 2 ^ 31 -> Forall word_ok (words no) /\ Z.of_nat (length (words no)) = n) ->
  (forall b no, 0 <= no < 2 ^ 31 -> btf__str_by_offset b no = Some (Some (named name)) ->
     slots b (a_kind t) (n * a_vlen t) (words no) = Some es) ->
  updates upd t f -> performs al c a (NewElem n name f es) (append_elem al c (4 * n) name words upd).
Proof.
  intros Ea Hn H0 Hv Hr Hr' Hw Hs Hu.
  assert (elem_result al c a0 t n name (extend t (a_vlen t + 1) f es) (append_elem al c (4 * n) name words upd)) as (id & c' & Hres & Hc & Hcase).
  { apply append_elem_spec with (n0 := n * a_vlen t); auto; [congruence|lia|]. rewrite Hr'. f_equal. lia. }
  destruct Hcase as [[-> Hty]|(Hneg & Hty & Hno)].
  - exists 0, c', (a0 ++ [extend t (a_vlen t + 1) f es]). split_and!; auto. exists a0, t. auto.
  - exists id, c', a. rewrite Ea at 1. split_and!; auto. exists a0, t. auto.
Qed.

End Performs.

Section Operations.
  Context (al : oracle) (c : chain) (a : list atype).
  Context (Hwf : chain_wf c) (Ha : obj_types c = Some a).

Lemma add_int_performs name sz enc : opt_name_ok name -> 0 <= sz < 2 ^ 64 ->
  performs al c a (effect_of a (AddInt name sz enc)) (btf__add_int al c name sz enc).
Proof.
  intros Hn Hs. unfold effect_of, btf__add_int. rewrite int_size_guard, encoding_guard by done.
  destruct (no_name name); [apply performs_refuse, Ha; done|]. cbn [negb andb].
  case_bool_decide as Hsz; [|apply performs_refuse; done]. case_bool_decide as He; [|apply performs_refuse; done]. cbn [negb andb when].
  assert (0 <= sz <= 16) as Hr by (rewrite !elem_of_cons, elem_of_nil in Hsz; lia).
  assert (u32 ((enc <<' 24) |' (sz * 8)) = enc * 2 ^ 24 + sz * 8) as ->.
  { rewrite Z.shiftl_mul_pow2, lor_tag by lia. apply wrap_small. lia. }
  apply (new_type_performs al c a Hwf Ha 4 name BTF_KIND_INT false sz [_]); auto; [done|done|unfold word_ok; lia|].
  repeat constructor; lia.
Qed.

Lemma add_float_performs name sz : opt_name_ok name ->
  performs al c a (effect_of a (AddFloat name sz)) (btf__add_float al c name sz).
Proof.
  intros Hn. unfold effect_of, btf__add_float. rewrite float_size_guard.
  destruct (no_name name); [by apply performs_refuse|]. cbn [negb andb]. case_bool_decide as Hsz; [|by apply performs_refuse].
  apply (new_type_performs al c a Hwf Ha 3 name BTF_KIND_FLOAT false sz []); auto; [done|done|].
  unfold word_ok. rewrite !elem_of_cons, elem_of_nil in Hsz. lia.
Qed.

Lemma add_array_performs x e n : int_ok x -> int_ok e -> uint_ok n ->
  performs al c a (effect_of a (AddArray x e n)) (btf__add_array al c x e n).
Proof.
  intros Hx He Hn. unfold effect_of, btf__add_array. rewrite !id_guard by done. unfold id_ok.
  destruct (Z.leb_spec 0 x); [|by apply performs_refuse]. destruct (Z.leb_spec 0 e); [|by apply performs_refuse]. cbn [negb andb orb when].
  unfold append_type. rewrite (append_None al c 24 _ (fun no => [no; btf_type_info BTF_KIND_ARRAY 0 false; 0] ++ [e; x; n])) by done.
  apply (new_type_performs al c a Hwf Ha 6 None BTF_KIND_ARRAY false 0 [e; x; n]); auto; try done.
  unfold uint_ok, int_ok in *. repeat constructor; lia.
Qed.

Lemma add_composite_performs k name sz : k = BTF_KIND_STRUCT \/ k = BTF_KIND_UNION \/ k = BTF_KIND_DATASEC -> opt_name_ok name -> uint_ok sz ->
  performs al c a (NewType 3 name (AType k 0 false (named name) sz [])) (btf_add_composite al c k name sz).
Proof.
  intros Hk Hn Hs. apply (new_type_performs al c a Hwf Ha 3 name k false sz []); auto; destruct Hk as [->|[->| ->]]; done.
Qed.

Lemma add_enum_performs k name sz g : k = BTF_KIND_ENUM \/ k = BTF_KIND_ENUM64 -> opt_name_ok name -> uint_ok sz ->
  performs al c a (when (bool_decide (sz ∈ [1; 2; 4; 8])) (NewType 3 name (AType k 0 g (named name) sz [])))
    (btf_add_enum_common al c name sz g k).
Proof.
  intros Hk Hn Hs. unfold btf_add_enum_common. rewrite enum_size_guard by done. apply performs_when; auto. intros _.
  apply (new_type_performs al c a Hwf Ha 3 name k g sz []); auto; destruct Hk as [->| ->]; done.
Qed.

Lemma add_fwd_performs name k : opt_name_ok name -> performs al c a (effect_of a (AddFwd name k)) (btf__add_fwd al c name k).
Proof.
  intros Hn. unfold effect_of, btf__add_fwd. destruct (no_name name); [by apply performs_refuse|]. cbn [negb when].
  destruct (Z.eqb_spec k BTF_FWD_ENUM) as [->|].
  - apply (add_enum_performs BTF_KIND_ENUM name 4 false); auto. done.
  - destruct ((k =? BTF_FWD_STRUCT) || (k =? BTF_FWD_UNION)); [|by apply performs_refuse]. cbn [when].
    apply ref_info_performs; auto; done.
Qed.

Lemma add_func_performs name l id : opt_name_ok name -> int_ok id ->
  performs al c a (effect_of a (AddFunc name l id)) (btf__add_func al c name l id).
Proof.
  intros Hn Hid. unfold effect_of, btf__add_func. rewrite linkage_guard. destruct (no_name name); [by apply performs_refuse|]. cbn [negb andb].
  apply performs_when; auto. intros Hl. apply bool_decide_eq_true in Hl. apply ref_info_performs; auto; try done. lia.
Qed.

Lemma add_func_proto_performs id : int_ok id -> performs al c a (effect_of a (AddFuncProto id)) (btf__add_func_proto al c id).
Proof.
  intros Hid. unfold effect_of, btf__add_func_proto, ref. rewrite id_guard by done. destruct (id_ok id) eqn:E; [|by apply performs_refuse].
  apply Z.leb_le in E. unfold append_type. cbn [negb].
  rewrite (append_None al c 12 _ (fun no => [no; btf_type_info BTF_KIND_FUNC_PROTO 0 false; id] ++ [])) by done.
  apply (new_type_performs al c a Hwf Ha 3 None BTF_KIND_FUNC_PROTO false id []); auto; try done. unfold word_ok, int_ok in *. lia.
Qed.

Lemma add_var_performs name l id : opt_name_ok name -> int_ok id ->
  performs al c a (effect_of a (AddVar name l id)) (btf__add_var al c name l id).
Proof.
  intros Hn Hid. unfold effect_of, btf__add_var. rewrite linkage_guard, id_guard by done. destruct (no_name name); [by apply performs_refuse|].
  cbn [negb andb]. case_bool_decide; [|by apply performs_refuse]. cbn [andb negb]. apply performs_when; auto. intros E. apply Z.leb_le in E.
  apply (new_type_performs al c a Hwf Ha 4 name BTF_KIND_VAR false id [l]); auto; try done; [unfold word_ok, int_ok in *; lia|].
  repeat constructor; lia.
Qed.

Lemma add_decl_tag_performs v id x f : opt_name_ok v -> int_ok id -> int_ok x ->
  performs al c a (when (negb (no_name v) && (-1 <=? x) && id_ok id)
      (NewType 4 v (AType BTF_KIND_DECL_TAG 0 f (named v) id [inl (x mod 2 ^ 32)]))) (btf_add_decl_tag al c v id x f).
Proof.
  intros Hn Hid Hx. unfold btf_add_decl_tag. rewrite id_guard by done. destruct (no_name v); [by apply performs_refuse|].
  cbn [negb andb orb]. rewrite Z.ltb_antisym. destruct (-1 <=? x); [|by apply performs_refuse]. cbn [andb negb]. apply performs_when; auto. intros E. apply Z.leb_le in E.
  apply (new_type_performs al c a Hwf Ha 4 v BTF_KIND_DECL_TAG f id [u32 x]); auto; try done; [unfold word_ok, int_ok in *; lia|].
  repeat constructor; apply wrap_range; lia.
Qed.

End Operations.

Section Elements.
  Context (al : oracle) (c : chain) (a : list atype).
  Context (Hwf : chain_wf c) (Ha : obj_types c = Some a).

Lemma multiple_mod n v : 0 < n -> (n * v) mod n = 0.
Proof. intros. rewrite Z.mul_comm. apply Z.mod_mul. lia. Qed.

(** An element that starts with its name. *)
Lemma named_elem_performs a0 t n name ws f upd : a = a0 ++ [t] -> opt_name_ok name -> n = Z.of_nat (S (length ws)) -> n <= 3 -> a_vlen t < 65535 ->
  name_stride (a_kind t) = Some n -> (forall v, rest_words (a_kind t) v = Some (n * v)) -> Forall word_ok ws -> updates upd t f ->
  performs al c a (NewElem n name f (inr (named name) :: map inl ws)) (append_elem al c (4 * n) name (fun no => no :: ws) upd).
Proof.
  intros Ea Hn En Hle Hv Hst Hr Hws Hu. apply (new_elem_performs al c a Hwf Ha a0 t); auto; [lia| |].
  - intros no Hno. split; [|simpl; lia]. constructor; [unfold word_ok; lia|done].
  - intros b no Hno Hs. apply slots_elem with (n := n); auto; [by rewrite <- En|apply multiple_mod; lia].
Qed.

Lemma composite_kind k : kind_is_composite k = true -> name_stride k = Some 3 /\ forall v, rest_words k v = Some (3 * v).
Proof. unfold kind_is_composite. intros [H|H]%orb_prop; apply Z.eqb_eq in H as ->; done. Qed.

Lemma add_field_performs name id off bsz : opt_name_ok name -> int_ok id -> uint_ok off -> uint_ok bsz -> vlen_room a (AddField name id off bsz) ->
  performs al c a (effect_of a (AddField name id off bsz)) (btf__add_field al c name id off bsz).
Proof.
  intros Hn Hid Ho Hb Hroom. unfold btf__add_field. apply performs_elem; auto. intros a0 t Ea.
  unfold vlen_room, effect_of, elem in Hroom. rewrite Ea, !last_snoc in Hroom.
  rewrite id_guard by done. destruct (kind_is_composite (a_kind t)) eqn:Ek; [|by apply performs_refuse]. cbn [negb andb] in *.
  destruct (composite_kind _ Ek) as [Hst Hr]. destruct (id_ok id) eqn:Eid; [|by apply performs_refuse]. cbn [negb andb] in *.
  set (bf := negb (bsz =? 0) || negb (off mod 8 =? 0)) in *.
  assert (bf && ((bsz =? 0) || (bsz >? 255) || (off >? 0xffffff)) = negb (negb bf || bool_decide (1 <= bsz <= 255 /\ off < 2 ^ 24))) as ->.
  { rewrite negb_orb, negb_involutive. f_equal. unfold uint_ok in *.
    case_bool_decide; destruct (Z.eqb_spec bsz 0), (Z.gtb_spec bsz 255), (Z.gtb_spec off 0xffffff); simpl; lia || done. }
  destruct (negb bf || bool_decide (1 <= bsz <= 255 /\ off < 2 ^ 24)) eqn:Eb; [|by apply performs_refuse]. cbn [negb andb] in *.
  replace ((a_kind t =? BTF_KIND_UNION) && negb (off =? 0)) with (negb (negb (a_kind t =? BTF_KIND_UNION) || (off =? 0)))
    by (rewrite negb_orb, negb_involutive; done).
  destruct (negb (a_kind t =? BTF_KIND_UNION) || (off =? 0)); [|by apply performs_refuse]. cbn [negb when] in *.
  destruct (field_offset_word off bsz Ho) as [-> Hword].
  { apply orb_prop in Eb as [Eb|Eb]; [|right; by apply bool_decide_eq_true in Eb]. left. unfold bf in Eb.
    destruct (Z.eqb_spec bsz 0); [done|]. done. }
  apply (named_elem_performs a0 t 3 name [id; bsz * 2 ^ 24 + off]); auto; try done; [|by apply updates_once].
  apply Z.leb_le in Eid. unfold int_ok in *. repeat constructor; lia.
Qed.

Lemma add_enum_value_performs name v : opt_name_ok name -> vlen_room a (AddEnumValue name v) ->
  performs al c a (effect_of a (AddEnumValue name v)) (btf__add_enum_value al c name v).
Proof.
  intros Hn Hroom. unfold btf__add_enum_value. apply performs_elem; auto. intros a0 t Ea.
  unfold vlen_room, effect_of, elem in Hroom. rewrite Ea, !last_snoc in Hroom.
  destruct (Z.eqb_spec (a_kind t) BTF_KIND_ENUM) as [Ek|]; [|by apply performs_refuse].
  destruct (no_name name); [by apply performs_refuse|]. cbn [negb andb when] in *.
  replace ((v <? INT_MIN) || (v >? UINT_MAX)) with (negb (bool_decide (- 2 ^ 31 <= v < 2 ^ 32))).
  2: { unfold INT_MIN, UINT_MAX. case_bool_decide; destruct (Z.ltb_spec v (- 2 ^ 31)), (Z.gtb_spec v (2 ^ 32 - 1)); simpl; lia || done. }
  case_bool_decide; [|by apply performs_refuse]. cbn [negb].
  apply (named_elem_performs a0 t 2 name [u32 v]); auto; rewrite ?Ek; try done; [|by apply updates_enum].
  repeat constructor; apply wrap_range; lia.
Qed.

Lemma add_enum64_value_performs name v : opt_name_ok name -> 0 <= v < 2 ^ 64 -> vlen_room a (AddEnum64Value name v) ->
  performs al c a (effect_of a (AddEnum64Value name v)) (btf__add_enum64_value al c name v).
Proof.
  intros Hn Hv Hroom. unfold btf__add_enum64_value. apply performs_elem; auto. intros a0 t Ea.
  unfold vlen_room, effect_of, elem in Hroom. rewrite Ea, !last_snoc in Hroom.
  destruct (Z.eqb_spec (a_kind t) BTF_KIND_ENUM64) as [Ek|]; [|by apply performs_refuse].
  destruct (no_name name); [by apply performs_refuse|]. cbn [negb andb when] in *.
  assert (0 <= v / 2 ^ 32 < 2 ^ 32) by (Z.to_euclidean_division_equations; lia).
  rewrite shr_div, (wrap_small 32 (v / 2 ^ 32)) by lia.
  apply (named_elem_performs a0 t 3 name [u32 v; v / 2 ^ 32]); auto; rewrite ?Ek; try done; [|by apply updates_once].
  repeat constructor; try lia; apply wrap_range; lia.
Qed.

Lemma add_func_param_performs name id : opt_name_ok name -> int_ok id -> vlen_room a (AddFuncParam name id) ->
  performs al c a (effect_of a (AddFuncParam name id)) (btf__add_func_param al c name id).
Proof.
  intros Hn Hid Hroom. unfold btf__add_func_param. rewrite id_guard by done. destruct (id_ok id) eqn:Eid; cbn [negb].
  2: { unfold effect_of, elem. rewrite Eid. destruct (last a); by apply performs_refuse. }
  apply performs_elem; auto. intros a0 t Ea. unfold vlen_room, effect_of, elem in Hroom. rewrite Ea, !last_snoc, Eid in Hroom. rewrite Eid.
  destruct (Z.eqb_spec (a_kind t) BTF_KIND_FUNC_PROTO) as [Ek|]; [|by apply performs_refuse]. cbn [negb andb when] in *.
  apply (named_elem_performs a0 t 2 name [id]); auto; rewrite ?Ek; try done; [|by apply updates_once].
  apply Z.leb_le in Eid. unfold int_ok in *. repeat constructor; lia.
Qed.

Lemma add_datasec_var_performs id off sz : int_ok id -> uint_ok off -> uint_ok sz -> vlen_room a (AddDatasecVar id off sz) ->
  performs al c a (effect_of a (AddDatasecVar id off sz)) (btf__add_datasec_var_info al c id off sz).
Proof.
  intros Hid Ho Hs Hroom. unfold btf__add_datasec_var_info. apply performs_elem; auto. intros a0 t Ea.
  unfold vlen_room, effect_of, elem in Hroom. rewrite Ea, !last_snoc in Hroom. rewrite id_guard by done.
  destruct (Z.eqb_spec (a_kind t) BTF_KIND_DATASEC) as [Ek|]; [|by apply performs_refuse].
  destruct (id_ok id) eqn:Eid; [|by apply performs_refuse]. cbn [negb andb when] in *.
  apply Z.leb_le in Eid. unfold int_ok, uint_ok in *.
  apply (new_elem_performs al c a Hwf Ha a0 t 3 None); auto; rewrite ?Ek; try done; try (by apply updates_once).
  intros no Hno. split; [repeat constructor; lia|done].
Qed.

End Elements.

(** C12. What every function that extends a well-formed object does, for arguments in the range of
    their C types and, if an element is added, a last type of fewer than 65535 elements (the
    count has 16 bits and is not checked, see [vlen_overflow]): it refuses its arguments, or it
    appends a type, or an element to the last type, made of the words and names that [effect_of]
    gives for its arguments and keeps every other type, or it fails for want of memory or space
    and keeps every type; the object stays well formed.  The offset word of a member is its
    bitfield size times 2^24 plus its bit offset; once the type has a bitfield, a plain member at
    bit 2^24 or later is appended like that too but read back as a bitfield elsewhere, see
    [add_field_offset_lost]. *)
Theorem build_refines al c a p : chain_wf c -> obj_types c = Some a -> op_ok p -> vlen_room a p ->
  performs al c a (effect_of a p) (run_op al c p).
Proof.
  intros Hwf Ha Hok Hroom. destruct p; cbn [run_op op_ok] in *; destruct_and?;
    auto using add_int_performs, add_float_performs, add_array_performs, add_fwd_performs, add_func_performs,
      add_func_proto_performs, add_var_performs, add_field_performs, add_enum_value_performs, add_enum64_value_performs,
      add_func_param_performs, add_datasec_var_performs.
  all: try (by apply ref_performs).
  all: try (by apply add_decl_tag_performs).
  all: try (apply add_enum_performs; auto).
  all: try (apply add_composite_performs; auto; fail).
  all: cbn [effect_of].
  all: unfold btf__add_typedef, btf__add_type_tag, btf__add_type_attr, btf__add_datasec;
    match goal with |- context [no_name ?n] => destruct (no_name n) end; cbn [negb when]; try (by apply performs_refuse).
  all: try (by apply ref_performs).
  apply add_composite_performs; auto.
Qed.

(** An object without types, as [btf_new_empty] makes it. *)
Definition empty_obj : btf_obj := BtfObj (BtfHeader 0xeb9f 24 0 0 0 1) [] 0 [] 0 0 1 0 (StrsRaw [0]) 8.
Lemma empty_wf : chain_wf [empty_obj].
Proof.
  split; [done|]. split; [|by split]. constructor; [|constructor].
  split; simpl; try done; lia.
Qed.
(** An object with two types: an int and a pointer to it. *)
Definition src_obj : btf_obj :=
  BtfObj (BtfHeader 0xeb9f 24 0 28 28 5) [1; btf_type_info BTF_KIND_INT 0 false; 4; 16777248; 0; btf_type_info BTF_KIND_PTR 0 false; 1] 28 [0; 16] 2 2 1 0
    (StrsRaw [0; 105; 110; 116; 0]) 8.
Lemma src_obj_wf : chain_wf [src_obj].
Proof.
  split; [done|]. split; [|by split]. constructor; [|constructor]. split; simpl; try done; try lia.
  - repeat constructor; lia || (vm_compute; done).
  - split; [done|]. exists 16. split_and!; try done. exists 12. split_and!; done.
Qed.
Definition src_types : list atype := [AType 1 0 false [105; 110; 116] 4 [inl 16777248]; AType 2 0 false [] 1 []].

Definition all_ok : oracle := fun _ => true.

Lemma build_refines_witness : exists r, run_op all_ok [empty_obj] (AddInt (Some [105; 110; 116]) 4 1) = r /\
  performs all_ok [empty_obj] [] (NewType 4 (Some [105; 110; 116]) (AType 1 0 false [105; 110; 116] 4 [inl 16777248])) r.
Proof.
  eexists. split; [reflexivity|].
  apply (build_refines all_ok [empty_obj] [] (AddInt (Some [105; 110; 116]) 4 1)); [apply empty_wf|reflexivity| |exact I].
  split; [|unfold int_ok; lia]. split; [|simpl; lia]. repeat constructor; lia.
Defined.

(** Operations in sequence. *)
Fixpoint run_ops (al : oracle) (c : chain) (ps : list op) : option (list Z * chain) :=
  match ps with
  | [] => Some ([], c)
  | p :: ps => '(r, c) ← run_op al c p; '(rs, c) ← run_ops al c ps; Some (r :: rs, c)
  end.

(** A plain member whose bit offset needs more than 24 bits is accepted by [btf__add_field]
    after a bitfield, and is read back as a bitfield at another offset. *)
Theorem add_field_offset_lost : exists c' t,
  run_ops all_ok [empty_obj] [AddInt (Some [105]) 4 1; AddStruct (Some [115]) 4194304; AddField (Some [97]) 1 0 3;
    AddField (Some [98]) 1 (2 ^ 24 + 64) 0] = Some ([1; 2; 0; 0], c') /\
  btf_type_by_id (view c') 2 = Some t /\ btf_member_bit_offset t 1 = Some 64 /\ btf_member_bitfield_size t 1 = Some 1.
Proof. eexists _, _. split; [vm_compute; reflexivity|]. split; [vm_compute; reflexivity|]. split; reflexivity. Qed.

(** [btf_type_inc_vlen] does not check the 16 bits of [vlen]: the 65536th element makes the
    type read as one without elements. *)
Lemma vlen_overflow k f t : 0 <= k < 32 -> info t = Some (btf_type_info k (65535 + 1) f) -> btf_vlen t = Some 0 /\ btf_kind t = Some k.
Proof.
  intros Hk Hi. unfold btf_vlen, btf_kind. rewrite Hi. destruct (small_nat k 31 ltac:(lia)) as (i & Hn & ->). clear Hi Hk.
  destruct f; do 32 (destruct i as [|i]; [split; reflexivity|]); lia.
Qed.
