(* ===== verification/BtfIter.v ===== *)
(** * The field iterator of BTF types

    src/libbpf/src/btf_iter.c: [btf_field_iter_init] and [btf_field_iter_next] enumerate the
    words of a type that hold string offsets, or type ids.  Pointers are byte offsets from the
    start of the type.  The reference is a classification of the words of a type; the theorem
    is that the iterator yields exactly the words of the class, in order and once, and then
    stays at the end. *)
From stdpp Require Import base numbers list gmap sorting.
From S2P Require Import Prelude Hashmap Strset Btf BtfBuild.

Inductive btf_field_iter_kind := BTF_FIELD_ITER_IDS | BTF_FIELD_ITER_STRS.
#[export] Instance iter_kind_eq_dec : EqDecision btf_field_iter_kind.
Proof. solve_decision. Defined.

Record btf_field_desc := FieldDesc { t_off_cnt : Z; t_offs : list Z; m_sz : Z; m_off_cnt : Z; m_offs : list Z }.
Record btf_field_iter := FieldIter { desc : btf_field_desc; it_p : option Z; m_idx : Z; off_idx : Z; it_vlen : Z }.

Definition no_desc : btf_field_desc := FieldDesc 0 [] 0 0 [].
Definition t_desc (offs : list Z) : btf_field_desc := FieldDesc (Z.of_nat (length offs)) offs 0 0 [].
Definition m_desc (offs : list Z) (sz : Z) (m_off : Z) : btf_field_desc := FieldDesc (Z.of_nat (length offs)) offs sz 1 [m_off].

(** The descriptor of a kind; [None] is -EINVAL. *)
Definition iter_desc (iter_kind : btf_field_iter_kind) (k : Z) : option btf_field_desc :=
  match iter_kind with
  | BTF_FIELD_ITER_IDS =>
    if (k =? BTF_KIND_UNKN) || (k =? BTF_KIND_INT) || (k =? BTF_KIND_FLOAT) || (k =? BTF_KIND_ENUM) || (k =? BTF_KIND_ENUM64)
    then Some no_desc
    else if (k =? BTF_KIND_FWD) || (k =? BTF_KIND_CONST) || (k =? BTF_KIND_VOLATILE) || (k =? BTF_KIND_RESTRICT) ||
            (k =? BTF_KIND_PTR) || (k =? BTF_KIND_TYPEDEF) || (k =? BTF_KIND_FUNC) || (k =? BTF_KIND_VAR) ||
            (k =? BTF_KIND_DECL_TAG) || (k =? BTF_KIND_TYPE_TAG)
    then Some (t_desc [8])
    else if k =? BTF_KIND_ARRAY then Some (t_desc [12 + 0; 12 + 4])
    else if (k =? BTF_KIND_STRUCT) || (k =? BTF_KIND_UNION) then Some (m_desc [] 12 4)
    else if k =? BTF_KIND_FUNC_PROTO then Some (m_desc [8] 8 4)
    else if k =? BTF_KIND_DATASEC then Some (m_desc [] 12 0)
    else None
  | BTF_FIELD_ITER_STRS =>
    if k =? BTF_KIND_UNKN then Some no_desc
    else if (k =? BTF_KIND_INT) || (k =? BTF_KIND_FLOAT) || (k =? BTF_KIND_FWD) || (k =? BTF_KIND_ARRAY) ||
            (k =? BTF_KIND_CONST) || (k =? BTF_KIND_VOLATILE) || (k =? BTF_KIND_RESTRICT) || (k =? BTF_KIND_PTR) ||
            (k =? BTF_KIND_TYPEDEF) || (k =? BTF_KIND_FUNC) || (k =? BTF_KIND_VAR) || (k =? BTF_KIND_DECL_TAG) ||
            (k =? BTF_KIND_TYPE_TAG) || (k =? BTF_KIND_DATASEC)
    then Some (t_desc [0])
    else if k =? BTF_KIND_ENUM then Some (m_desc [0] 8 0)
    else if k =? BTF_KIND_ENUM64 then Some (m_desc [0] 12 0)
    else if (k =? BTF_KIND_STRUCT) || (k =? BTF_KIND_UNION) then Some (m_desc [0] 12 0)
    else if k =? BTF_KIND_FUNC_PROTO then Some (m_desc [0] 8 0)
    else None
  end.

(** A descriptor is not written on -EINVAL. *)
Definition btf_field_iter_init (t : btf_type) (iter_kind : btf_field_iter_kind) : option (Z * btf_field_iter) :=
  k ← btf_kind t;
  match iter_desc iter_kind k with
  | None => Some (- EINVAL, FieldIter no_desc None (-1) 0 0)
  | Some d =>
    vlen ← (if negb (m_sz d =? 0) then btf_vlen t else Some 0);
    Some (0, FieldIter d (Some 0) (-1) 0 vlen)
  end.

(** The end: [it->p = NULL]. *)
Definition iter_end (it : btf_field_iter) : option Z * btf_field_iter :=
  (None, FieldIter (desc it) None (m_idx it) (off_idx it) (it_vlen it)).

(** The part of [btf_field_iter_next] for members. *)
Definition next_member (it : btf_field_iter) (p : Z) : option (option Z * btf_field_iter) :=
  let d := desc it in
  if m_sz d =? 0 then Some (iter_end it)
  else
    let '(it, p) :=
      if m_off_cnt d <=? off_idx it then (FieldIter d (Some (p + m_sz d)) (m_idx it + 1) 0 (it_vlen it), p + m_sz d) else (it, p) in
    if m_idx it <? it_vlen it then
      off ← zget (m_offs d) (off_idx it);
      Some (Some (p + off), FieldIter d (it_p it) (m_idx it) (off_idx it + 1) (it_vlen it))
    else Some (iter_end it).

Definition btf_field_iter_next (it : btf_field_iter) : option (option Z * btf_field_iter) :=
  match it_p it with
  | None => Some (None, it)
  | Some p =>
    let d := desc it in
    if m_idx it <? 0 then
      if off_idx it <? t_off_cnt d then
        off ← zget (t_offs d) (off_idx it);
        Some (Some (p + off), FieldIter d (Some p) (m_idx it) (off_idx it + 1) (it_vlen it))
      else next_member (FieldIter d (Some (p + 12)) 0 0 (it_vlen it)) (p + 12)
    else next_member it p
  end.

(** The iterator run to its end: the offsets it yields. *)
Fixpoint iter_run (fuel : nat) (it : btf_field_iter) : option (list Z * btf_field_iter) :=
  match fuel with
  | O => None
  | S fuel =>
    '(p, it) ← btf_field_iter_next it;
    match p with
    | None => Some ([], it)
    | Some off => '(l, it) ← iter_run fuel it; Some (off :: l, it)
    end
  end.

(** ** The reference: which words of a type are string offsets or type ids *)
Definition ref_kind (k : Z) : bool :=
  bool_decide (k ∈ [BTF_KIND_FWD; BTF_KIND_CONST; BTF_KIND_VOLATILE; BTF_KIND_RESTRICT; BTF_KIND_PTR; BTF_KIND_TYPEDEF;
                    BTF_KIND_FUNC; BTF_KIND_VAR; BTF_KIND_DECL_TAG; BTF_KIND_TYPE_TAG; BTF_KIND_FUNC_PROTO]).
(** Whether the [i]-th word behind the base is a type id. *)
Definition id_slot (k i : Z) : bool :=
  if k =? BTF_KIND_ARRAY then i <? 2
  else if (k =? BTF_KIND_STRUCT) || (k =? BTF_KIND_UNION) then i mod 3 =? 1
  else if k =? BTF_KIND_FUNC_PROTO then i mod 2 =? 1
  else if k =? BTF_KIND_DATASEC then i mod 3 =? 0
  else false.
Definition field_word (iter_kind : btf_field_iter_kind) (k j : Z) : bool :=
  match iter_kind with
  | BTF_FIELD_ITER_STRS => (j =? 0) || (3 <=? j) && name_slot k (j - 3)
  | BTF_FIELD_ITER_IDS => (j =? 2) && ref_kind k || (3 <=? j) && id_slot k (j - 3)
  end.

(** The fields of a type of [n] words behind its base, as word numbers. *)
Definition field_words (iter_kind : btf_field_iter_kind) (k n : Z) : list Z :=
  filter (fun j => field_word iter_kind k j = true) (seqZ 0 (3 + n)).

(** ** The fields of a descriptor *)
Definition desc_offs (d : btf_field_desc) (v : Z) : list Z :=
  t_offs d ++ (if m_sz d =? 0 then [] else map (fun i => 12 + i * m_sz d + default 0 (head (m_offs d))) (seqZ 0 v)).

Definition desc_ok (d : btf_field_desc) : Prop :=
  t_off_cnt d = Z.of_nat (length (t_offs d)) /\ (m_sz d = 0 \/ 0 < m_sz d /\ m_off_cnt d = 1 /\ exists off, m_offs d = [off]).

Lemma iter_desc_ok kd k d : iter_desc kd k = Some d -> desc_ok d.
Proof.
  intros H. destruct kd; cbn [iter_desc] in H;
    repeat match type of H with (if ?b then _ else _) = _ => destruct b; [injection H as <-; split; [done|]; simpl; eauto 6 with lia|] end; done.
Qed.

Section Members.
  Context (d : btf_field_desc) (v off : Z).
  Context (Hsz : 0 < m_sz d) (Hcnt : m_off_cnt d = 1) (Hoff : m_offs d = [off]).

Definition member_off (i : Z) : Z := 12 + i * m_sz d + off.

(** The state after the field of member [i] was yielded. *)
Definition at_member (i : Z) : btf_field_iter := FieldIter d (Some (12 + i * m_sz d)) i 1 v.

Lemma next_after i : 0 <= i -> exists it', it_p it' = None /\
  btf_field_iter_next (at_member i) = (if i + 1 <? v then Some (Some (member_off (i + 1)), at_member (i + 1)) else Some (None, it')).
Proof.
  intros Hi. unfold btf_field_iter_next, at_member. cbn [it_p m_idx desc]. destruct (Z.ltb_spec i 0); [lia|].
  unfold next_member. cbn [desc off_idx]. destruct (Z.eqb_spec (m_sz d) 0); [lia|]. rewrite Hcnt. cbn [Z.leb Z.compare Pos.compare Pos.compare_cont m_idx it_vlen off_idx it_p].
  rewrite Hoff. destruct (i + 1 <? v).
  - exists (FieldIter d None 0 0 0). split; [done|]. cbn. unfold member_off, at_member. replace (12 + i * m_sz d + m_sz d) with (12 + (i + 1) * m_sz d) by lia. done.
  - eexists. split; [|reflexivity]. done.
Qed.

Lemma run_members i fuel : 0 <= i < v -> (Z.to_nat (v - i) <= fuel)%nat -> exists it', it_p it' = None /\
  iter_run fuel (at_member i) = Some (map member_off (seqZ (i + 1) (v - i - 1)), it').
Proof.
  remember (Z.to_nat (v - i)) as r eqn:Er. revert i fuel Er.
  induction r as [|r IH]; intros i fuel Er Hi Hf; [lia|]. destruct fuel as [|fuel]; [lia|]. cbn [iter_run].
  destruct (next_after i ltac:(lia)) as (it1 & Hend & ->). destruct (Z.ltb_spec (i + 1) v); cbn [mbind option_bind].
  - destruct (IH (i + 1) fuel ltac:(lia) ltac:(lia) ltac:(lia)) as (it' & He & ->). cbn [mbind option_bind]. exists it'. split; [done|].
    rewrite (seqZ_cons (i + 1) (v - i - 1)) by lia. cbn [map].
    replace (Z.pred (v - i - 1)) with (v - (i + 1) - 1) by lia. done.
  - exists it1. split; [done|]. rewrite (seqZ_nil (i + 1)) by lia. done.
Qed.

End Members.

(** The fields of the base, then those of the members. *)
Lemma run_desc d v fuel n : desc_ok d -> 0 <= v -> 0 <= n <= Z.of_nat (length (t_offs d)) ->
  (length (desc_offs d v) - Z.to_nat n < fuel)%nat -> exists it', it_p it' = None /\
  iter_run fuel (FieldIter d (Some 0) (-1) n v) = Some (drop (Z.to_nat n) (desc_offs d v), it').
Proof.
  intros [Hc Hm] Hv Hn Hf. remember (Z.to_nat (Z.of_nat (length (t_offs d)) - n)) as r eqn:Er. revert n fuel Hn Hf Er.
  induction r as [|r IH]; intros n fuel Hn Hf Er; (destruct fuel as [|fuel]; [lia|]); cbn [iter_run];
    unfold btf_field_iter_next at 1; cbn [it_p m_idx desc off_idx it_vlen]; rewrite Hc.
  - destruct (Z.ltb_spec n (Z.of_nat (length (t_offs d)))); [lia|]. change (-1 <? 0) with true. cbn iota.
    unfold desc_offs in *. rewrite drop_app_ge by lia. replace (Z.to_nat n - length (t_offs d))%nat with 0%nat by lia.
    rewrite drop_0. rewrite length_app in Hf. unfold next_member. cbn [desc off_idx m_idx it_vlen it_p].
    destruct Hm as [Hm|(Hsz & Hcnt & off & Ho)].
    + rewrite Hm. cbn. eexists. split; [|reflexivity]. done.
    + destruct (Z.eqb_spec (m_sz d) 0); [lia|]. rewrite Hcnt, Ho. cbn [Z.leb Z.compare it_vlen m_idx off_idx head default].
      rewrite length_map, length_seqZ in Hf. destruct (Z.ltb_spec 0 v).
      * cbn. destruct (run_members d v off Hsz Hcnt Ho 0 fuel ltac:(lia) ltac:(lia)) as (it' & He & Hr).
        unfold at_member in Hr. replace (12 + 0 * m_sz d) with 12 in Hr by lia. change (zget [off] 0) with (Some off). cbn [mbind option_bind]. change (0 + 12) with 12. change (0 + 1) with 1. rewrite Hr. cbn [mbind option_bind]. exists it'. split; [done|]. rewrite (seqZ_cons 0 v) by lia. cbn [map].
        replace (Z.pred v) with (v - 0 - 1) by lia. done.
      * rewrite seqZ_nil by lia. cbn. eexists. split; [|reflexivity]. done.
  - destruct (Z.ltb_spec n (Z.of_nat (length (t_offs d)))); [|lia]. change (-1 <? 0) with true. cbn iota.
    destruct (zget_is_Some (t_offs d) n ltac:(lia)) as [off Ho]. rewrite Ho. cbn [mbind option_bind].
    assert (length (t_offs d) <= length (desc_offs d v))%nat by (unfold desc_offs; rewrite length_app; lia).
    destruct (IH (n + 1) fuel ltac:(lia) ltac:(lia) ltac:(lia)) as (it' & He & ->). cbn [mbind option_bind]. exists it'. split; [done|].
    apply zget_Some in Ho as [_ Ho]. unfold desc_offs. rewrite (drop_S (_ ++ _) off (Z.to_nat n)) by (apply lookup_app_l_Some; done).
    replace (Z.to_nat (n + 1)) with (S (Z.to_nat n)) by lia. done.
Qed.

(** ** The words of a type by their class *)
Lemma seqZ_app' m n k : 0 <= n -> 0 <= k -> seqZ m (n + k) = seqZ m n ++ seqZ (m + n) k.
Proof. intros. apply seqZ_app; lia. Qed.

(** Every [n]-th word. *)
Lemma filter_stride (P : Z -> bool) n r v : n = 2 \/ n = 3 -> 0 <= r < n -> 0 <= v ->
  (forall i, 0 <= i -> P (3 + i) = (i mod n =? r)) ->
  filter (fun j => P j = true) (seqZ 3 (n * v)) = map (fun i => 3 + i * n + r) (seqZ 0 v).
Proof.
  intros Hn Hr Hv HP. pattern v. apply natlike_ind; [| |done].
  - rewrite Z.mul_0_r. done.
  - intros x Hx IH. rewrite <- Z.add_1_r. rewrite (seqZ_app' 0 x 1), map_app, <- IH by lia.
    replace (n * (x + 1)) with (n * x + n) by lia. rewrite (seqZ_app' 3), filter_app by lia. f_equal.
    assert (forall i, 0 <= i < n -> P (3 + n * x + i) = (i =? r)) as HP'.
    { intros i Hi. replace (3 + n * x + i) with (3 + (n * x + i)) by lia. rewrite HP by lia.
      rewrite (Z.mul_comm n x), Z.add_comm, Z.mod_add, Z.mod_small by lia. done. }
    pose proof (HP' 0 ltac:(lia)) as H0. pose proof (HP' 1 ltac:(lia)) as H1. rewrite Z.add_0_r in H0. rewrite Z.add_0_l, (seqZ_cons x 1) by lia.
    destruct Hn as [->| ->]; [|pose proof (HP' 2 ltac:(lia)) as H2]; rewrite !seqZ_cons, !seqZ_nil by lia; rewrite !filter_cons, filter_nil;
      replace (Z.succ (3 + 2 * x)) with (3 + 2 * x + 1) by lia; replace (Z.succ (3 + 3 * x)) with (3 + 3 * x + 1) by lia;
      replace (Z.succ (3 + 3 * x + 1)) with (3 + 3 * x + 2) by lia; rewrite ?H0, ?H1, ?H2.
    + assert (r = 0 \/ r = 1) as [->| ->] by lia; simpl; f_equal; lia.
    + assert (r = 0 \/ r = 1 \/ r = 2) as [->|[->| ->]] by lia; simpl; f_equal; lia.
Qed.

Lemma field_words_split kd k n : 0 <= n -> field_words kd k n =
  filter (fun j => field_word kd k j = true) [0; 1; 2] ++ filter (fun j => field_word kd k j = true) (seqZ 3 n).
Proof. intros H. unfold field_words. rewrite seqZ_app' by lia. rewrite filter_app. done. Qed.

(** The fields of the members of a kind, when there is one in each, or none. *)
Lemma member_fields kd k n r v : n = 2 \/ n = 3 -> 0 <= r < n -> 0 <= v -> (forall i, 0 <= i -> field_word kd k (3 + i) = (i mod n =? r)) ->
  map (Z.mul 4) (field_words kd k (n * v)) =
  map (Z.mul 4) (filter (fun j => field_word kd k j = true) [0; 1; 2]) ++ map (fun i => 12 + i * (4 * n) + 4 * r) (seqZ 0 v).
Proof.
  intros Hn Hr Hv HP. rewrite field_words_split, map_app by lia. f_equal. rewrite (filter_stride _ n r) by done. rewrite map_map.
  apply map_ext. intros i. lia.
Qed.

Lemma no_member_fields kd k n : 0 <= n -> (forall i, 0 <= i -> field_word kd k (3 + i) = false) ->
  map (Z.mul 4) (field_words kd k n) = map (Z.mul 4) (filter (fun j => field_word kd k j = true) [0; 1; 2]).
Proof.
  intros Hn HP. rewrite field_words_split, map_app by lia.
  rewrite (filter_none _ (seqZ 3 n)); [by rewrite app_nil_r|].
  apply Forall_forall. intros j Hj%elem_of_seqZ. specialize (HP (j - 3) ltac:(lia)). replace (3 + (j - 3)) with j in HP by lia. by rewrite HP.
Qed.

Lemma member_word i (P : bool) : 0 <= i -> (3 <=? 3 + i) && P = P.
Proof. intros. destruct (Z.leb_spec 3 (3 + i)); [done|lia]. Qed.
Lemma base_word i j (P : bool) : 0 <= i -> j < 3 -> (3 + i =? j) && P = false.
Proof. intros. destruct (Z.eqb_spec (3 + i) j); [lia|done]. Qed.

(** The class of the words behind the base. *)
Lemma field_word_rest kd k i : 0 <= i -> field_word kd k (3 + i) =
  match kd with BTF_FIELD_ITER_STRS => name_slot k i | BTF_FIELD_ITER_IDS => id_slot k i end.
Proof.
  intros Hi. destruct kd; cbn [field_word].
  - rewrite base_word, member_word by lia. by replace (3 + i - 3) with i by lia.
  - rewrite member_word by lia. destruct (Z.eqb_spec (3 + i) 0); [lia|]. by replace (3 + i - 3) with i by lia.
Qed.

Lemma desc_fields kd k v n : 0 <= k < 32 -> 0 <= v -> rest_words k v = Some n ->
  exists d, iter_desc kd k = Some d /\ desc_offs d v = map (Z.mul 4) (field_words kd k n).
Proof.
  intros Hk Hv Hr. destruct (small_nat k 31 ltac:(lia)) as (x & Hx & ->). clear Hk.
  do 32 (try destruct x as [|x]); [..|lia].
  all: try discriminate Hr; injection Hr as <-; destruct kd; eexists; (split; [reflexivity|]); try reflexivity.
  all: try (rewrite no_member_fields; [reflexivity|lia|]; intros i Hi; by rewrite field_word_rest).
  all: match goal with |- desc_offs (m_desc _ _ ?r) _ = map _ (field_words _ _ (?m * _)) =>
    rewrite (member_fields _ _ m (r / 4)); [reflexivity|by auto|by vm_compute|done|]; intros i Hi; by rewrite field_word_rest end.
Qed.

Lemma field_iter_spec kd t k v n fuel : btf_kind t = Some k -> btf_vlen t = Some v -> rest_words k v = Some n ->
  (length (field_words kd k n) < fuel)%nat ->
  exists it it', btf_field_iter_init t kd = Some (0, it) /\ iter_run fuel it = Some (map (Z.mul 4) (field_words kd k n), it') /\
    btf_field_iter_next it' = Some (None, it').
Proof.
  intros Hk Hv Hn Hf. pose proof (kind_range _ _ Hk) as Hkr. pose proof (vlen_range _ _ Hv) as Hvr.
  destruct (desc_fields kd k v n Hkr ltac:(lia) Hn) as (d & Hd & Ho). unfold btf_field_iter_init. rewrite Hk. cbn [mbind option_bind]. rewrite Hd.
  assert (exists v', (if negb (m_sz d =? 0) then btf_vlen t else Some 0) = Some v' /\ 0 <= v' /\ desc_offs d v' = desc_offs d v) as (v' & -> & Hv' & Ho').
  { destruct (m_sz d =? 0) eqn:E; cbn [negb]; [exists 0|exists v]; (split; [done|]); (split; [lia|]); [|done]. unfold desc_offs. by rewrite E. }
  cbn [mbind option_bind]. eexists.
  destruct (run_desc d v' fuel 0 (iter_desc_ok _ _ _ Hd) Hv' ltac:(lia)) as (it' & He & Hr); [rewrite Ho', Ho, length_map; lia|].
  exists it'. split; [done|]. rewrite Hr, Ho', Ho. split; [done|]. unfold btf_field_iter_next. by rewrite He.
Qed.

(** The field iterator yields exactly the words of a type that hold string offsets, or
    type ids, in order and once each, for every kind that has a size; then it ends, and stays
    at its end. *)
Theorem field_iter_complete kd t k v n fuel : btf_kind t = Some k -> btf_vlen t = Some v -> rest_words k v = Some n ->
  (length (field_words kd k n) < fuel)%nat ->
  exists it it', btf_field_iter_init t kd = Some (0, it) /\ iter_run fuel it = Some (map (Z.mul 4) (field_words kd k n), it') /\
    btf_field_iter_next it' = Some (None, it').
Proof. apply field_iter_spec. Qed.

Definition two_params : btf_type := [5; btf_type_info BTF_KIND_FUNC_PROTO 2 false; 1; 6; 2; 7; 3].
Lemma field_iter_complete_witness : field_words BTF_FIELD_ITER_IDS BTF_KIND_FUNC_PROTO 4 = [2; 4; 6] /\
  exists it it', btf_field_iter_init two_params BTF_FIELD_ITER_IDS = Some (0, it) /\ iter_run 4 it = Some ([8; 16; 24], it') /\
    btf_field_iter_next it' = Some (None, it').
Proof.
  split; [reflexivity|].
  apply (field_iter_complete BTF_FIELD_ITER_IDS two_params BTF_KIND_FUNC_PROTO 2 4 4); [reflexivity..|].
  vm_compute. lia.
Defined.
