(* ===== verification/BtfCopy.v ===== *)
(** * Copying types between BTF objects

    [btf__add_type] and [btf__add_btf] of src/libbpf/src/btf.c: a type, or all types of an
    object, are appended to another object; string offsets are rewritten to strings of the
    destination, type ids to the ids of the copies.  The source is read as it was at the call
    and is not the destination.  The loops over fields run the iterator of BtfIter.v with fuel
    for every word of the type. *)
From stdpp Require Import base numbers list gmap sorting.
From S2P Require Import Prelude Hashmap Strset Btf BtfBuild BtfBuildSpec BtfIter.

Definition btf_dedup_identity_hash_fn (key : Z) : Z := u64 key.
Definition btf_dedup_equal_fn (k1 k2 : Z) : bool := k1 =? k2.

#[export] Instance identity_HashKey : HashKey btf_dedup_identity_hash_fn btf_dedup_equal_fn.
Proof.
  split; unfold btf_dedup_equal_fn; intros *; [apply Z.eqb_refl|apply Z.eqb_sym|rewrite !Z.eqb_eq; congruence|rewrite Z.eqb_eq; congruence].
Qed.

(** [while ((p = btf_field_iter_next(&it)))] with a body that may fail. *)
Section FieldLoop.
  Context {A : Type} (body : Z -> A -> option (Z * A)).
Fixpoint field_loop (fuel : nat) (it : btf_field_iter) (st : A) : option (Z * A) :=
  match fuel with
  | O => None
  | S fuel =>
    '(p, it) ← btf_field_iter_next it;
    match p with
    | None => Some (0, st)
    | Some off => '(err, st) ← body off st; if negb (err =? 0) then Some (err, st) else field_loop fuel it st
    end
  end.
End FieldLoop.

(** A word of the type data of the object at the head. *)
Definition get_word (c : chain) (w : Z) : option Z := o ← head c; zget (o_types o) w.
Definition put_word (c : chain) (w x : Z) : option chain :=
  o ← head c; ws ← zset (o_types o) w x; Some (set_types ws (types_cap o) o :: tail c).

(** The state of a [btf_pipe]: the destination and the map of string offsets, if any. *)
Definition pipe : Type := chain * option hashmap.

(** The word [w] holds [*str_off]. *)
Definition btf_rewrite_str (al : oracle) (src : btf) (w : Z) (p : pipe) : option (Z * pipe) :=
  let '(c, map) := p in
  str_off ← get_word c w;
  if str_off =? 0 then Some (0, (c, map))
  else
    found ← (match map with
             | None => Some None
             | Some m => hashmap_find btf_dedup_identity_hash_fn btf_dedup_equal_fn m str_off
             end);
    match found with
    | Some mapped_off => c ← put_word c w (u32 mapped_off); Some (0, (c, map))
    | None =>
      s ← btf__str_by_offset src str_off; s ← s;
      '(off, c) ← btf__add_str (sub 0 al) c s;
      if off <? 0 then Some (off, (c, map))
      else
        '(err, map) ←
          (match map with
           | None => Some (0, None)
           | Some m =>
             '(err, m, _, _) ← hashmap_insert btf_dedup_identity_hash_fn btf_dedup_equal_fn (al [1]) (al [2]) m str_off off HASHMAP_APPEND;
             Some (err, Some m)
           end);
        if negb (err =? 0) then Some (err, (c, map))
        else c ← put_word c w (u32 off); Some (0, (c, map))
    end.

(** The loop over the strings of the type at byte [pos] of the type data. *)
Definition rewrite_strs (al : oracle) (src : btf) (pos : Z) (fuel : nat) (p : pipe) : option (Z * pipe) :=
  o ← head p.1;
  '(err, it) ← btf_field_iter_init (drop (Z.to_nat (pos / 4)) (o_types o)) BTF_FIELD_ITER_STRS;
  if negb (err =? 0) then Some (err, p)
  else field_loop (fun off p => btf_rewrite_str (sub off al) src ((pos + off) / 4) p) fuel it p.

Definition btf_add_type (al : oracle) (src : btf) (p : pipe) (src_type : btf_type) : option (Z * pipe) :=
  let '(c, map) := p in
  sz ← btf_type_size src_type;
  if sz <? 0 then Some (sz, p)
  else
    o ← head c;
    '(err, o) ← btf_ensure_modifiable (sub 0 al) o;
    if negb (err =? 0) then Some (- ENOMEM, (o :: tail c, map))
    else
      match btf_add_type_mem (al [1]) o sz with
      | None => Some (- ENOMEM, (o :: tail c, map))
      | Some o =>
        guard (sz / 4 <= Z.of_nat (length src_type));;
        o ← put_words (take (Z.to_nat (sz / 4)) src_type) o;
        '(err, (c, map)) ← rewrite_strs (sub 2 al) src (h_type_len o) (S (Z.to_nat (sz / 4))) (o :: tail c, map);
        if negb (err =? 0) then Some (err, (c, map))
        else '(id, c) ← btf_commit_type (al [3]) c sz; Some (id, (c, map))
      end.

Definition btf__add_type (al : oracle) (c : chain) (src : btf) (src_type : btf_type) : option (Z * chain) :=
  '(id, (c, _)) ← btf_add_type al src (c, None) src_type; Some (id, c).

(** ** All types of an object *)
Definition remap_id (pos : Z) (off : Z) (c : chain) : option (Z * chain) :=
  type_id ← get_word c ((pos + off) / 4);
  if type_id =? 0 then Some (0, c)
  else o ← head c; c ← put_word c ((pos + off) / 4) (u32 (type_id + (o_start_id o + o_nr_types o - 1))); Some (0, c).

(** The loop over the copied types: [pos] is the offset of [t], [idx] the index of [off]. *)
Fixpoint copy_loop (al : oracle) (src : btf) (cnt : nat) (pos idx : Z) (p : pipe) : option (Z * pipe) :=
  match cnt with
  | O => Some (0, p)
  | S cnt =>
    let '(c, map) := p in
    o ← head c;
    sz ← btf_type_size (drop (Z.to_nat (pos / 4)) (o_types o));
    if sz <? 0 then Some (sz, p)
    else
      offs ← zset (o_offs o) idx pos;
      '(err, (c, map)) ← rewrite_strs (sub 0 al) src pos (S (Z.to_nat (sz / 4))) (set_offs offs (offs_cap o) o :: tail c, map);
      if negb (err =? 0) then Some (err, (c, map))
      else
        o ← head c;
        '(err, it) ← btf_field_iter_init (drop (Z.to_nat (pos / 4)) (o_types o)) BTF_FIELD_ITER_IDS;
        if negb (err =? 0) then Some (err, (c, map))
        else
          '(err, c) ← field_loop (remap_id pos) (S (Z.to_nat (sz / 4))) it c;
          if negb (err =? 0) then Some (err, (c, map))
          else copy_loop (sub 1 al) src cnt (pos + sz) (idx + 1) (c, map)
  end.

(** The failure path of [btf__add_btf]; [None]: [memset] on the string data, which is NULL. *)
Definition add_btf_undo (c : chain) (old_strs_len data_sz : Z) : option chain :=
  o ← head c;
  types ← memcpy_at (o_types o) (h_type_len o / 4) (replicate (Z.to_nat (data_sz / 4)) 0);
  if h_str_len o =? old_strs_len
  then Some (set_str_len old_strs_len (set_types types (types_cap o) o) :: tail c)
  else None.

Definition btf__add_btf (al : oracle) (c : chain) (src : chain) : option (Z * chain) :=
  so ← head src;
  match tail src with
  | _ :: _ => Some (- ENOTSUP, c)
  | [] =>
    o ← head c;
    '(err, o) ← btf_ensure_modifiable (sub 0 al) o;
    if negb (err =? 0) then Some (- ENOMEM, o :: tail c)
    else
      let old_strs_len := h_str_len o in
      let data_sz := s32 (h_type_len so) in
      cnt ← btf__type_cnt (view src);
      let cnt := cnt - 1 in
      match btf_add_type_mem (al [1]) o (u64 data_sz) with
      | None => Some (- ENOMEM, o :: tail c)
      | Some o =>
        match btf_add_type_offs_mem (al [2]) o cnt with
        | None => Some (- ENOMEM, o :: tail c)
        | Some o =>
          if negb (al [3]) then Some (- ENOMEM, o :: tail c)
          else
            let pos := h_type_len o in
            guard (data_sz / 4 <= Z.of_nat (length (o_types so)));;
            o ← put_words (take (Z.to_nat (data_sz / 4)) (o_types so)) o;
            '(err, (c, _)) ← copy_loop (sub 4 al) (view src) (Z.to_nat cnt) pos (o_nr_types o) (o :: tail c, Some hashmap__init);
            if negb (err =? 0) then c ← add_btf_undo c old_strs_len data_sz; Some (err, c)
            else
              o ← head c;
              let o := set_nr (u32 (o_nr_types o + cnt)) (grow_types data_sz o) in
              Some (s32 (o_start_id o + o_nr_types o - cnt), o :: tail c)
        end
      end
  end.

(** ** Loops over fields *)
Section Fold.
  Context {A : Type} (body : Z -> A -> option (Z * A)).
Fixpoint fields_fold (offs : list Z) (st : A) : option (Z * A) :=
  match offs with
  | [] => Some (0, st)
  | off :: offs => '(err, st) ← body off st; if negb (err =? 0) then Some (err, st) else fields_fold offs st
  end.

Lemma field_loop_fold fuel it l it' st : iter_run fuel it = Some (l, it') -> field_loop body fuel it st = fields_fold l st.
Proof.
  revert it l st. induction fuel as [|fuel IH]; intros it l st H; [done|]. cbn [iter_run] in H. cbn [field_loop].
  apply bind_Some in H as ([[off|] it1] & -> & H); cbn [mbind option_bind].
  - apply bind_Some in H as ([l1 it2] & Hr & H). simplify_eq. cbn [fields_fold]. destruct (body off st) as [[err st1]|]; [|done].
    cbn [mbind option_bind]. destruct (negb (err =? 0)); [done|]. by apply IH.
  - simplify_eq. done.
Qed.
End Fold.

Lemma field_words_length kd k n : 0 <= n -> (length (field_words kd k n) <= Z.to_nat (3 + n))%nat.
Proof.
  intros Hn. unfold field_words. etransitivity; [apply length_filter|]. rewrite length_seqZ. lia.
Qed.
Lemma field_words_in kd k n j : 0 <= n -> j ∈ field_words kd k n <-> 0 <= j < 3 + n /\ field_word kd k j = true.
Proof. intros Hn. unfold field_words. rewrite list_elem_of_filter, elem_of_seqZ. split; [intros [? ?]; split; [lia|done]|intros [? ?]; split; [done|lia]]. Qed.
Lemma field_words_NoDup kd k n : NoDup (field_words kd k n).
Proof. apply NoDup_filter, NoDup_seqZ. Qed.

(** ** Words above the type data *)
Lemma full_mono c c' s : chain_kept c c' -> str_full c s -> str_full c' s.
Proof.
  intros Hk (o & Ho & Hf). apply list_elem_of_lookup in Ho as [i Hi]. destruct (Forall2_lookup_l _ _ _ _ _ Hk Hi) as (o' & Hi' & K).
  exists o'. split; [by eapply list_elem_of_lookup_2|]. pose proof (k_start _ _ K) as [_ ->]. pose proof (k_str_len _ _ K). lia.
Qed.

(** What stays of the object at the head while words above its type data change. *)
Record frame (o o' : btf_obj) : Prop := {
  fr_mod : modifiable o';
  fr_cap : types_cap o' = types_cap o;
  fr_offs : o_offs o' = o_offs o /\ offs_cap o' = offs_cap o;
  fr_words : length (o_types o') = length (o_types o)
}.
Lemma frame_refl o : modifiable o -> frame o o.
Proof. by split. Qed.
Lemma frame_trans o1 o2 o3 : frame o1 o2 -> frame o2 o3 -> frame o1 o3.
Proof. intros [? ? [? ?] ?] [? ? [? ?] ?]. split; [done|congruence|split; congruence|congruence]. Qed.

Lemma put_word_spec o base w x : chain_wf (o :: base) -> modifiable o -> word_ok x -> h_type_len o / 4 <= w < Z.of_nat (length (o_types o)) ->
  exists o', put_word (o :: base) w x = Some (o' :: base) /\ chain_wf (o' :: base) /\ obj_kept o o' /\ frame o o' /\
    o_types o' = <[Z.to_nat w := x]> (o_types o).
Proof.
  intros Hwf Hm Hx Hw. pose proof Hwf as (_ & Ho & _). apply Forall_cons in Ho as [Ho _].
  destruct (wf_modifiable o Ho Hm) as (set & Hset & Hcap & Hlen). pose proof (ow_len _ Ho) as [Hl0 _].
  assert (0 <= h_type_len o / 4) by (apply Z.div_pos; lia).
  unfold put_word. cbn [head mbind option_bind tail]. unfold zset. rewrite decide_True by lia. cbn [mbind option_bind].
  destruct (set_types_wf o (<[Z.to_nat w := x]> (o_types o)) (types_cap o)) as [Hw' Hk]; auto.
  - apply Forall_insert; [apply (ow_words _ Ho)|done].
  - rewrite length_insert. done.
  - rewrite take_insert_ge by lia. done.
  - eexists. split; [reflexivity|].
    split; [eapply wf_kept; [exact Hwf| |constructor; [exact Hk|apply chain_kept_refl]]; eapply inv_head; eauto using wf_inv|].
    split; [done|]. split; [|done]. split; [done|done|done|]. cbn [o_types set_types]. by rewrite length_insert.
Qed.

(** ** The map of string offsets *)
Definition map_ok (src b : btf) (n : Z) (map : option hashmap) : Prop :=
  match map with
  | None => True
  | Some m => hashmap_wf btf_dedup_identity_hash_fn m /\ cap_tight m /\ sz m <= n /\
      forall e, e ∈ all_entries m -> 0 <= value e < 2 ^ 31 /\
        exists s, btf__str_by_offset src (key e) = Some (Some s) /\ btf__str_by_offset b (value e) = Some (Some s)
  end.

Lemma map_ok_mono src b b' n n' map : map_ok src b n map -> strs_ext b b' -> n <= n' -> map_ok src b' n' map.
Proof.
  destruct map as [m|]; [|done]. intros (Hw & Ht & Hs & He) Hext Hn. split_and!; auto; [lia|].
  intros e Hin. destruct (He e Hin) as (? & s & ? & ?). split; [done|]. exists s. auto.
Qed.

Lemma map_find_spec src b n m x : map_ok src b n (Some m) ->
  exists r, hashmap_find btf_dedup_identity_hash_fn btf_dedup_equal_fn m x = Some r /\
    forall y, r = Some y -> 0 <= y < 2 ^ 31 /\ exists s, btf__str_by_offset src x = Some (Some s) /\ btf__str_by_offset b y = Some (Some s).
Proof.
  intros (Hw & _ & _ & He). destruct (find_entry_spec btf_dedup_identity_hash_fn btf_dedup_equal_fn m x Hw) as (r & Hr & Hcase).
  unfold hashmap_find. rewrite Hr. cbn [mbind option_bind]. eexists. split; [reflexivity|]. intros y Hy.
  destruct r as [[pos e]|]; [|done]. injection Hy as <-. destruct Hcase as (_ & _ & _ & _ & _ & _ & Ha & Hk).
  apply assoc_Some in Ha as [Hin _]. apply Z.eqb_eq in Hk as <-. by apply He.
Qed.

Lemma map_append_spec src b n c a m x y s : map_ok src b n (Some m) -> n < 2 ^ 50 -> 0 <= y < 2 ^ 31 ->
  btf__str_by_offset src x = Some (Some s) -> btf__str_by_offset b y = Some (Some s) ->
  exists err m', hashmap_insert btf_dedup_identity_hash_fn btf_dedup_equal_fn c a m x y HASHMAP_APPEND = Some (err, m', 0, 0) /\
    map_ok src b (n + 1) (Some m') /\ (err = 0 \/ err = - ENOMEM /\ (c = false \/ a = false)).
Proof.
  intros (Hw & Ht & Hs & He) Hn Hy Hsx Hsy. unfold hashmap_insert. cbn [decide]. rewrite decide_True by done. cbn [mbind option_bind].
  destruct (insert_new_spec btf_dedup_identity_hash_fn btf_dedup_equal_fn c a m x y Hw) as (err & m' & -> & Hw' & Ht' & Hcase). cbn [mbind option_bind].
  exists err, m'. split; [done|]. pose proof (wf_sz _ _ Hw) as Hsz. pose proof (wf_sz _ _ Hw') as Hsz'.
  destruct Hcase as [(-> & Hp & Hno)|[-> Hp]]; rewrite Hp in Hsz'; cbn [length] in Hsz'.
  - split; [|right; split; [done|]].
    + split_and!; auto; [lia|]. intros e Hin. apply He. by rewrite Hp in Hin.
    + destruct Hno as [->|[->|Hc]]; auto. unfold cap_tight in Ht. lia.
  - split; [|by left]. split_and!; auto; [lia|]. intros e Hin. rewrite Hp in Hin. apply elem_of_cons in Hin as [->|Hin]; [|by apply He].
    cbn [value key]. eauto.
Qed.

(** ** Rewriting one string offset *)
Definition src_full (src : btf) (c : chain) : Prop := exists x s, btf__str_by_offset src x = Some (Some s) /\ str_full c s.
Definition copy_fails (al : oracle) (src : btf) (c : chain) : Prop := alloc_fails al \/ src_full src c.

Definition rewrote (al : oracle) (src : btf) (o : btf_obj) (base : chain) (n : Z) (P : btf_obj -> chain -> Prop) (r : option (Z * pipe)) : Prop :=
  exists err o' base' map', r = Some (err, (o' :: base', map')) /\ chain_wf (o' :: base') /\ chain_kept (o :: base) (o' :: base') /\
    frame o o' /\ map_ok src (view (o' :: base')) n map' /\ (err = 0 /\ P o' base' \/ err < 0 /\ copy_fails al src (o' :: base')).

Lemma rewrite_str_spec al src w o base map n x s : chain_wf (o :: base) -> modifiable o -> map_ok src (view (o :: base)) n map -> n < 2 ^ 50 ->
  h_type_len o / 4 <= w -> zget (o_types o) w = Some x -> btf__str_by_offset src x = Some (Some s) -> name_ok s ->
  btf__str_by_offset src 0 = Some (Some []) ->
  rewrote al src o base (n + 1) (fun o' base' => exists x', o_types o' = <[Z.to_nat w := x']> (o_types o) /\ word_ok x' /\
      btf__str_by_offset (view (o' :: base')) x' = Some (Some s)) (btf_rewrite_str al src w (o :: base, map)).
Proof.
  intros Hwf Hm Hmap Hn Hw Hx Hs Hok H0. pose proof (zget_lt _ _ _ Hx) as Hlt. unfold btf_rewrite_str, get_word. cbn [head mbind option_bind].
  rewrite Hx. cbn [mbind option_bind]. pose proof Hwf as (_ & Ho & _). apply Forall_cons in Ho as [Ho _].
  destruct (Z.eqb_spec x 0) as [->|Hx0].
  { exists 0, o, base, map. rewrite H0 in Hs. injection Hs as <-. split_and!; auto using chain_kept_refl, frame_refl.
    - eapply map_ok_mono; [exact Hmap|by intros ? ?|lia].
    - left. split; [done|]. exists 0. split; [|split; [unfold word_ok; lia|by apply Hwf]]. symmetry. apply list_insert_id.
      by apply zget_Some in Hx as [_ ?]. }
  assert (exists r, (match map with None => Some None | Some m => hashmap_find btf_dedup_identity_hash_fn btf_dedup_equal_fn m x end) = Some r /\
     forall y, r = Some y -> 0 <= y < 2 ^ 31 /\ btf__str_by_offset (view (o :: base)) y = Some (Some s)) as (r & -> & Hr).
  { destruct map as [m|]; [|by exists None]. destruct (map_find_spec _ _ _ _ x Hmap) as (r & -> & Hr). exists r. split; [done|].
    intros y Hy. destruct (Hr y Hy) as (? & s' & Hs' & ?). rewrite Hs in Hs'. injection Hs' as <-. done. }
  cbn [mbind option_bind]. destruct r as [y|].
  - destruct (Hr y eq_refl) as [Hy Hsy]. rewrite wrap_small by lia.
    destruct (put_word_spec o base w y Hwf Hm ltac:(unfold word_ok; lia) ltac:(lia)) as (o' & -> & Hwf' & Hk & Hf & Ht). cbn [mbind option_bind].
    assert (chain_kept (o :: base) (o' :: base)) as Hck by (constructor; [done|apply chain_kept_refl]).
    exists 0, o', base, map. split_and!; auto.
    + eapply map_ok_mono; [exact Hmap|by apply kept_strs|lia].
    + left. split; [done|]. exists y. split_and!; auto; [unfold word_ok; lia|]. by apply (kept_strs _ _ Hck).
  - rewrite Hs. cbn [mbind option_bind].
    destruct (add_str_chain (sub 0 al) (o :: base) s Hok (wf_inv _ Hwf) ltac:(done)) as (off & c' & -> & Hinv & Hck & Hres & Hhd).
    cbn [mbind option_bind]. destruct (Hhd o eq_refl Hm) as (o1 & Ho1 & Hm1 & E1 & E2 & E3 & E4).
    destruct c' as [|o1' base1]; [done|]. injection Ho1 as ->.
    pose proof (wf_kept _ _ Hwf Hinv Hck) as Hwf1. assert (frame o o1) as Hf1 by (split; [done|done|done|by rewrite E1]).
    pose proof (map_ok_mono _ _ _ n n _ Hmap (kept_strs _ _ Hck) ltac:(lia)) as Hmap1.
    unfold str_result in Hres. destruct (Z.ltb_spec off 0) as [Hneg|Hpos].
    { destruct (Z.leb_spec 0 off); [lia|]. exists off, o1, base1, map. split_and!; auto; [eapply map_ok_mono; [exact Hmap1|by intros ? ?|lia]|].
      right. split; [done|]. destruct Hres as [Hal|Hfull]; [left; by apply fails_sub in Hal|]. right. exists x, s. split; [done|].
      by apply (full_mono _ _ _ Hck). }
    destruct (Z.leb_spec 0 off); [|lia]. destruct Hres as (Hso & _ & Hoff).
    assert (exists err map', (match map with
           | None => Some (0, None)
           | Some m =>
             '(err, m, _, _) ← hashmap_insert btf_dedup_identity_hash_fn btf_dedup_equal_fn (al [1]) (al [2]) m x off HASHMAP_APPEND;
             Some (err, Some m)
           end) = Some (err, map') /\ map_ok src (view (o1 :: base1)) (n + 1) map' /\ (err = 0 \/ err = - ENOMEM /\ alloc_fails al)) as (err & map' & -> & Hmap' & Herr).
    { destruct map as [m|]; [|exists 0, None; split_and!; auto].
      destruct (map_append_spec src _ n (al [1]) (al [2]) m x off s Hmap1 Hn ltac:(lia) Hs Hso) as (err & m' & -> & Hm' & Herr).
      cbn [mbind option_bind]. exists err, (Some m'). split_and!; auto. destruct Herr as [->|[-> Hf]]; [by left|right]. split; [done|].
      destruct Hf; eexists; done. }
    cbn [mbind option_bind]. destruct Herr as [->|[-> Hal]].
    + cbn [Z.eqb negb]. rewrite wrap_small by lia. pose proof (k_len o o1) as Hkl. inversion Hck as [|? ? ? ? Hk0 Hkt]; subst.
      destruct (put_word_spec o1 base1 w off Hwf1 Hm1 ltac:(unfold word_ok; lia)) as (o' & -> & Hwf' & Hk & Hf & Ht).
      { rewrite (k_len _ _ Hk0), E1. lia. }
      cbn [mbind option_bind]. assert (chain_kept (o1 :: base1) (o' :: base1)) as Hck' by (constructor; [done|apply chain_kept_refl]).
      exists 0, o', base1, map'. split_and!; auto; [by eapply chain_kept_trans|by eapply frame_trans| |].
      * eapply map_ok_mono; [exact Hmap'|by apply kept_strs|lia].
      * left. split; [done|]. exists off. rewrite Ht, E1. split_and!; auto; [unfold word_ok; lia|]. by apply (kept_strs _ _ Hck').
    + exists (- ENOMEM), o1, base1, map'. split_and!; auto. right. split; [done|by left].
Qed.

(** ** Rewriting the strings of a type *)

(** The words of [ws'] are those of [ws], except that the words [wb + j] with [j] in [js]
    denote in [b] the strings they denoted in [src]. *)
Definition strs_moved (src b : btf) (wb : Z) (js : list Z) (ws ws' : list Z) : Prop :=
  forall i x, ws !! i = Some x -> exists x', ws' !! i = Some x' /\
    if decide (Z.of_nat i - wb ∈ js)
    then exists s, btf__str_by_offset src x = Some (Some s) /\ btf__str_by_offset b x' = Some (Some s)
    else x' = x.

(** Fields that can be rewritten. *)
Definition src_strs (src : btf) (wb : Z) (js ws : list Z) : Prop :=
  forall j, j ∈ js -> 0 <= j /\ exists x s, zget ws (wb + j) = Some x /\ btf__str_by_offset src x = Some (Some s) /\ name_ok s.

Lemma fold_strs_spec al src pos js o base map n : chain_wf (o :: base) -> modifiable o -> map_ok src (view (o :: base)) n map ->
  n + Z.of_nat (length js) < 2 ^ 50 -> 0 <= pos -> pos mod 4 = 0 -> h_type_len o <= pos -> NoDup js -> src_strs src (pos / 4) js (o_types o) ->
  btf__str_by_offset src 0 = Some (Some []) ->
  rewrote al src o base (n + Z.of_nat (length js))
    (fun o' base' => strs_moved src (view (o' :: base')) (pos / 4) js (o_types o) (o_types o'))
    (fields_fold (fun off p => btf_rewrite_str (sub off al) src ((pos + off) / 4) p) (List.map (Z.mul 4) js) (o :: base, map)).
Proof.
  intros Hwf Hm Hmap Hn Hp Hpm Hpos Hnd Hjs H0. revert o base map n Hwf Hm Hmap Hn Hpos Hjs.
  induction js as [|j js IH]; intros o base map n Hwf Hm Hmap Hn Hpos Hjs; cbn [List.map fields_fold].
  { exists 0, o, base, map. split_and!; auto using chain_kept_refl, frame_refl; [eapply map_ok_mono; [exact Hmap|by intros ? ?|simpl; lia]|].
    left. split; [done|]. intros i x Hi. exists x. split; [done|]. rewrite decide_False by apply not_elem_of_nil. done. }
  apply NoDup_cons in Hnd as [Hnin Hnd]. destruct (Hjs j ltac:(left)) as (Hj & x & s & Hx & Hs & Hok). cbn [length] in Hn.
  assert ((pos + 4 * j) / 4 = pos / 4 + j) as Ew by (rewrite Z.mul_comm, Z.div_add by lia; done).
  destruct (rewrite_str_spec (sub (4 * j) al) src (pos / 4 + j) o base map n x s Hwf Hm Hmap ltac:(lia)) as
    (err & o1 & base1 & map1 & Hr & Hwf1 & Hk1 & Hf1 & Hmap1 & Hcase); auto.
  { Z.to_euclidean_division_equations; lia. }
  rewrite Ew, Hr. cbn [mbind option_bind]. destruct Hcase as [(-> & x1 & Ht1 & Hok1 & Hs1)|(Hneg & Hfail)].
  2: { destruct (Z.eqb_spec err 0); [lia|]. cbn [negb]. exists err, o1, base1, map1. split_and!; auto;
         [eapply map_ok_mono; [exact Hmap1|by intros ? ?|simpl; lia]|]. right. split; [done|].
       destruct Hfail as [Hal|Hfull]; [left; by apply fails_sub in Hal|by right]. }
  cbn [Z.eqb negb]. inversion Hk1 as [|? ? ? ? Hk0 Hkt]; subst.
  assert (0 <= pos / 4) by (apply Z.div_pos; lia).
  destruct (IH Hnd o1 base1 map1 (n + 1) Hwf1 (fr_mod _ _ Hf1) Hmap1 ltac:(lia)) as (err & o' & base' & map' & -> & Hwf' & Hk' & Hf' & Hmap' & Hcase).
  { rewrite (k_len _ _ Hk0). done. }
  { intros j' Hj'. destruct (Hjs j' ltac:(by right)) as (? & x' & s' & Hx' & ?). split; [done|]. exists x', s'. split; [|done].
    unfold zget in *. rewrite decide_True in * by lia. rewrite Ht1, list_lookup_insert_ne; [done|]. intros E. apply Hnin.
    replace j with j' by lia. done. }
  exists err, o', base', map'. split_and!; auto; [by eapply chain_kept_trans|by eapply frame_trans|cbn [length]; by replace (n + Z.of_nat (S (length js))) with (n + 1 + Z.of_nat (length js)) by lia|].
  destruct Hcase as [[-> HP]|Hfail]; [left|by right]. split; [done|]. intros i y Hi.
  destruct (decide (Z.of_nat i = pos / 4 + j)) as [E|E].
  - assert (i = Z.to_nat (pos / 4 + j)) as -> by lia.
    assert (o_types o1 !! Z.to_nat (pos / 4 + j) = Some x1) as Hi1 by (rewrite Ht1; apply list_lookup_insert_eq; by apply lookup_lt_Some in Hi).
    destruct (HP _ _ Hi1) as (x' & Hx' & Hcase). exists x'. split; [done|].
    rewrite decide_False in Hcase by (replace (Z.of_nat (Z.to_nat (pos / 4 + j)) - pos / 4) with j by lia; done). subst x'.
    rewrite decide_True by (replace (Z.of_nat (Z.to_nat (pos / 4 + j)) - pos / 4) with j by lia; left).
    exists s. split; [|by apply (kept_strs _ _ Hk')]. apply zget_Some in Hx as [_ Hx]. rewrite Hx in Hi. by injection Hi as <-.
  - assert (o_types o1 !! i = Some y) as Hi1 by (rewrite Ht1, list_lookup_insert_ne; [done|lia]).
    destruct (HP _ _ Hi1) as (x' & Hx' & Hcase). exists x'. split; [done|].
    destruct (decide (Z.of_nat i - pos / 4 ∈ js)) as [Hin|Hin].
    + rewrite decide_True by (by right). done.
    + rewrite decide_False; [done|]. rewrite elem_of_cons. intros [E'|?]; [lia|done].
Qed.

Lemma strs_moved_drop src b wb js ws ws' : 0 <= wb -> strs_moved src b wb js ws ws' ->
  strs_moved src b 0 js (drop (Z.to_nat wb) ws) (drop (Z.to_nat wb) ws').
Proof.
  intros Hwb H i x Hi. rewrite lookup_drop in Hi. destruct (H _ _ Hi) as (x' & Hx' & Hc). exists x'. rewrite lookup_drop. split; [done|].
  by replace (Z.of_nat (Z.to_nat wb + i) - wb) with (Z.of_nat i - 0) in Hc by lia.
Qed.

(** Elements: names denote the same strings, other words are the same. *)
Lemma slots_moved src b k i ws ws' l : slots src k i ws = Some l -> length ws' = length ws ->
  (forall j x x', ws !! j = Some x -> ws' !! j = Some x' -> if name_slot k (i + Z.of_nat j)
     then exists s, btf__str_by_offset src x = Some (Some s) /\ btf__str_by_offset b x' = Some (Some s) else x' = x) ->
  slots b k i ws' = Some l.
Proof.
  revert i ws' l. induction ws as [|w ws IH]; intros i ws' l Hl Hlen H; (destruct ws' as [|w' ws']; [done || (by simpl in Hlen)|]); [done|].
  cbn [slots] in *. apply bind_Some in Hl as (y0 & Hy0 & Hl). apply bind_Some in Hl as (l0 & Hl0 & Hl). pose proof (H 0%nat w w' eq_refl eq_refl) as H0. rewrite Z.add_0_r in H0.
  assert ((if name_slot k i then s ← btf__str_by_offset b w'; s ← s; Some (inr s) else Some (inl w')) = Some y0) as ->.
  { destruct (name_slot k i); [|by rewrite H0]. destruct H0 as (s & H1 & ->). rewrite H1 in Hy0. done. }
  cbn [mbind option_bind]. rewrite (IH (i + 1) ws' l0); [by simplify_eq|done|simpl in Hlen; lia|].
  intros j y y' Hy Hy'. pose proof (H (S j) y y' Hy Hy') as Hj. by replace (i + Z.of_nat (S j)) with (i + 1 + Z.of_nat j) in Hj by lia.
Qed.

Lemma slots_name b k i ws l j x : slots b k i ws = Some l -> ws !! j = Some x -> name_slot k (i + Z.of_nat j) = true ->
  exists s, btf__str_by_offset b x = Some (Some s).
Proof.
  revert i l j. induction ws as [|w ws IH]; intros i l j Hl Hj Hn; [done|]. cbn [slots] in Hl.
  apply bind_Some in Hl as (y0 & Hy0 & Hl). apply bind_Some in Hl as (l0 & Hl0 & Hl). destruct j as [|j].
  - injection Hj as ->. rewrite Z.add_0_r in Hn. rewrite Hn in Hy0. apply bind_Some in Hy0 as ([s|] & -> & Hy0); [|done]. eauto.
  - apply (IH (i + 1) l0 j Hl0 Hj). by replace (i + 1 + Z.of_nat j) with (i + Z.of_nat (S j)) by lia.
Qed.

(** The view of a type of the same kind and length, by its parts. *)
Lemma type_view_change src b (t t' : list Z) a n no' val' rest' : type_view src t = Some a -> rest_words (a_kind a) (a_vlen a) = Some n ->
  3 + n <= Z.of_nat (length t') -> info t' = info t -> name_off t' = Some no' -> btf__str_by_offset b no' = Some (Some (a_name a)) ->
  size t' = Some val' -> slots b (a_kind a) 0 (take (Z.to_nat n) (drop 3 t')) = Some rest' ->
  type_view b t' = Some (AType (a_kind a) (a_vlen a) (a_kflag a) (a_name a) val' rest').
Proof.
  intros (n' & rest & Hn' & H0 & Hlen & Hk & Hvl & Hf & _)%type_view_inv Hn Hlen' Hinfo Hno Hs Hval Hrest.
  unfold type_view, btf_kind, btf_vlen, btf_kflag in *. rewrite Hinfo.
  rewrite Hk. cbn [mbind option_bind]. rewrite Hvl. cbn [mbind option_bind]. rewrite Hf. cbn [mbind option_bind].
  rewrite Hn. cbn [mbind option_bind]. rewrite Hno. cbn [mbind option_bind]. rewrite Hs. cbn [mbind option_bind].
  rewrite Hval. cbn [mbind option_bind]. rewrite option_guard_True by lia. cbn [mbind option_bind]. rewrite Hrest. done.
Qed.

(** A type whose strings moved is described the same way. *)
Lemma type_view_moved src b (t t' : list Z) a n : type_view src t = Some a -> rest_words (a_kind a) (a_vlen a) = Some n ->
  length t' = length t -> strs_moved src b 0 (field_words BTF_FIELD_ITER_STRS (a_kind a) n) t t' -> type_view b t' = Some a.
Proof.
  intros Hv Hn Hlen' Hmv. destruct (type_view_inv _ _ _ Hv) as (n' & rest & Hn' & H0 & Hlen & _ & _ & _ & (no & Hno & Hs) & Hval & Hrest & Ha).
  unfold btf_type in *. rewrite Hn in Hn'. injection Hn' as <-. set (js := field_words BTF_FIELD_ITER_STRS (a_kind a) n) in *.
  assert (forall i x, (i < 3 + Z.to_nat n)%nat -> t !! i = Some x -> field_word BTF_FIELD_ITER_STRS (a_kind a) (Z.of_nat i) = false -> t' !! i = Some x) as Hsame.
  { intros i x Hi Hx Hfw. destruct (Hmv i x Hx) as (x' & Hx' & Hc). rewrite decide_False in Hc; [by subst|]. rewrite Z.sub_0_r. unfold js.
    rewrite field_words_in by done. rewrite Hfw. intros [_ ?]. done. }
  assert (forall i, 1 <= i < 3 -> word t' i = word t i) as Hw.
  { intros i Hi. destruct (zget_is_Some t i ltac:(lia)) as [x Hx]. unfold word. rewrite Hx. apply zget_Some in Hx as [_ Hx].
    apply zget_Some. split; [lia|]. apply Hsame; [lia|done|]. rewrite Z2Nat.id by lia. cbn [field_word].
    destruct (Z.eqb_spec i 0); [lia|]. destruct (Z.leb_spec 3 i); [lia|]. done. }
  destruct (zget_Some t 0 no) as [Hz _]. destruct (Hz Hno) as [_ Hno0].
  destruct (Hmv _ _ Hno0) as (no' & Hno' & Hc). rewrite decide_True in Hc by (unfold js; apply field_words_in; [done|split; [lia|done]]).
  destruct Hc as (s & Hs1 & Hs2). rewrite Hs in Hs1. injection Hs1 as <-.
  replace (Some a) with (Some (AType (a_kind a) (a_vlen a) (a_kflag a) (a_name a) (a_val a) rest)) by (rewrite <- Ha; by destruct a).
  apply (type_view_change src b t t' a n no' (a_val a) rest Hv Hn); [lia|apply Hw; lia|by apply zget_Some|done|unfold size; by rewrite Hw by lia|].
  apply (slots_moved src b (a_kind a) 0 (take (Z.to_nat n) (drop 3 t))); auto.
  - rewrite !length_take, !length_drop. lia.
  - intros j x x' Hx Hx'. assert (j < Z.to_nat n)%nat by (apply lookup_lt_Some in Hx; rewrite length_take in Hx; lia).
    rewrite lookup_take_lt, lookup_drop in Hx, Hx' by done. rewrite Z.add_0_l.
    pose proof (field_word_rest BTF_FIELD_ITER_STRS (a_kind a) (Z.of_nat j) ltac:(lia)) as Hfw. cbn iota in Hfw.
    destruct (name_slot (a_kind a) (Z.of_nat j)).
    + destruct (Hmv _ _ Hx) as (x1 & Hx1 & Hc). rewrite decide_True in Hc.
      * unfold btf_type in *. rewrite Hx' in Hx1. by injection Hx1 as <-.
      * unfold js. apply field_words_in; [done|]. replace (Z.of_nat (3 + j) - 0) with (3 + Z.of_nat j) by lia. split; [lia|done].
    + apply Hsame in Hx; [|lia|by replace (Z.of_nat (3 + j)) with (3 + Z.of_nat j) by lia]. unfold btf_type in *. rewrite Hx' in Hx. by injection Hx as ->.
Qed.

(** Strings of a well-formed object can be added to another. *)
Definition strs_ok (src : btf) : Prop :=
  btf__str_by_offset src 0 = Some (Some []) /\ forall off s, btf__str_by_offset src off = Some (Some s) -> name_ok s.

Lemma str_at_ok data off : c_string (str_at data off) /\ (length (str_at data off) <= length data)%nat.
Proof.
  unfold str_at. assert (forall l, c_string (c_str l) /\ (length (c_str l) <= length l)%nat) as H.
  { induction l as [|x l [IH1 IH2]]; cbn [c_str]; [split; [constructor|done]|]. destruct (Z.eqb_spec x 0); [split; [constructor|simpl; lia]|].
    split; [by constructor|simpl; lia]. }
  destruct (H (drop (Z.to_nat off) data)) as [H1 H2]. rewrite length_drop in H2. split; [done|lia].
Qed.

Lemma wf_strs_ok c : chain_wf c -> strs_ok (view c).
Proof.
  intros Hwf. split; [by apply Hwf|]. destruct Hwf as (_ & Hw & _ & _). intros off s.
  induction Hw as [|o c Ho _ IH]; cbn [view map btf__str_by_offset]; [done|].
  change (start_str_off (layer_of o)) with (o_start_str_off o). change (strs_len (layer_of o)) with (h_str_len o). change (strs (layer_of o)) with (btf_strs_data o).
  destruct (off <? o_start_str_off o); [apply IH|]. destruct (_ <? h_str_len o); [|done]. intros [= <-].
  destruct (str_at_ok (btf_strs_data o) (off - o_start_str_off o)) as [H1 H2]. split; [done|].
  pose proof (ow_strs _ Ho) as Hst. unfold btf_strs_data in *. destruct (o_strs o) as [data|set].
  - destruct Hst as (_ & Hl & _ & ?). lia.
  - destruct Hst as (_ & _ & Hset & _). pose proof (set_cap _ Hset). pose proof (set_max _ Hset). lia.
Qed.

Lemma src_strs_of_view src (ws : list Z) wb a n : 0 <= wb -> strs_ok src -> type_view src (drop (Z.to_nat wb) ws) = Some a ->
  rest_words (a_kind a) (a_vlen a) = Some n -> src_strs src wb (field_words BTF_FIELD_ITER_STRS (a_kind a) n) ws.
Proof.
  intros Hwb [_ Hok] Hv Hn j Hj. destruct (type_view_inv _ _ _ Hv) as (n' & rest & Hn' & H0 & Hlen & _ & _ & _ & (no & Hno & Hs) & _ & Hrest & _).
  rewrite Hn in Hn'. injection Hn' as <-. apply field_words_in in Hj as [Hj Hf]; [|done]. split; [lia|]. unfold btf_type in *. rewrite length_drop in Hlen.
  destruct (zget_is_Some ws (wb + j) ltac:(lia)) as [x Hx].
  assert (exists s, btf__str_by_offset src x = Some (Some s)) as [s Hsx]; [|exists x, s; split_and!; auto; by apply (Hok x)].
  apply zget_Some in Hx as [_ Hx]. destruct (Z.leb_spec 3 j) as [H3|H3].
  - pose proof (field_word_rest BTF_FIELD_ITER_STRS (a_kind a) (j - 3) ltac:(lia)) as Hfw. cbn iota in Hfw.
    replace (3 + (j - 3)) with j in Hfw by lia. rewrite Hf in Hfw.
    apply (slots_name _ _ _ _ _ (Z.to_nat (j - 3)) x Hrest); [|by rewrite Z2Nat.id, Z.add_0_l by lia].
    rewrite lookup_take_lt, !lookup_drop by lia. rewrite <- Hx. f_equal. lia.
  - cbn [field_word] in Hf. destruct (Z.eqb_spec j 0) as [->|]; [|destruct (Z.leb_spec 3 j); [lia|done]].
    apply zget_Some in Hno as [_ Hno]. rewrite lookup_drop in Hno. replace (Z.to_nat (wb + 0)) with (Z.to_nat wb + Z.to_nat 0)%nat in Hx by lia.
    rewrite Hx in Hno. injection Hno as <-. eauto.
Qed.

(** Words outside of a range are the same. *)
Definition same_outside (lo hi : Z) (ws ws' : list Z) : Prop := forall i, ~ (lo <= Z.of_nat i < hi) -> ws' !! i = ws !! i.

Lemma moved_outside src b wb js ws ws' n : strs_moved src b wb js ws ws' -> length ws' = length ws -> (forall j, j ∈ js -> 0 <= j < n) ->
  same_outside wb (wb + n) ws ws'.
Proof.
  intros H Hlen Hjs i Hi. destruct (ws !! i) as [x|] eqn:E.
  - destruct (H _ _ E) as (x' & -> & Hc). rewrite decide_False in Hc; [by subst|]. intros Hin%Hjs. lia.
  - apply lookup_ge_None in E. apply lookup_ge_None. lia.
Qed.

Lemma rewrite_strs_spec al src pos o base map n0 a n : chain_wf (o :: base) -> modifiable o -> strs_ok src ->
  map_ok src (view (o :: base)) n0 map -> n0 + 3 + n < 2 ^ 50 -> pos mod 4 = 0 -> h_type_len o <= pos ->
  type_view src (drop (Z.to_nat (pos / 4)) (o_types o)) = Some a -> rest_words (a_kind a) (a_vlen a) = Some n ->
  rewrote al src o base (n0 + 3 + n)
    (fun o' base' => type_view (view (o' :: base')) (drop (Z.to_nat (pos / 4)) (o_types o')) = Some a /\
       same_outside (pos / 4) (pos / 4 + 3 + n) (o_types o) (o_types o'))
    (rewrite_strs al src pos (S (Z.to_nat (3 + n))) (o :: base, map)).
Proof.
  intros Hwf Hm Hsok Hmap Hn0 Hpm Hpos Hv Hn. pose proof Hwf as (_ & Ho & _). apply Forall_cons in Ho as [Ho _]. pose proof (ow_len _ Ho) as Hl0.
  assert (0 <= pos / 4) as Hp0 by (apply Z.div_pos; lia).
  destruct (type_view_inv _ _ _ Hv) as (n' & rest & Hn' & Hn00 & Hlen & Hk & Hvl & _). rewrite Hn in Hn'. injection Hn' as <-.
  pose proof (field_words_length BTF_FIELD_ITER_STRS (a_kind a) n Hn00) as Hfl.
  destruct (field_iter_spec BTF_FIELD_ITER_STRS _ _ _ n (S (Z.to_nat (3 + n))) Hk Hvl Hn ltac:(lia)) as (it & it' & Hi & Hr & _).
  unfold rewrite_strs. cbn [fst head mbind option_bind]. rewrite Hi. cbn [mbind option_bind]. cbn [Z.eqb negb].
  rewrite (field_loop_fold _ _ _ _ _ _ Hr).
  destruct (fold_strs_spec al src pos (field_words BTF_FIELD_ITER_STRS (a_kind a) n) o base map n0 Hwf Hm Hmap) as
    (err & o' & base' & map' & -> & Hwf' & Hk' & Hf' & Hmap' & Hcase); auto; [lia|lia|apply field_words_NoDup|by apply src_strs_of_view|by apply Hsok|].
  exists err, o', base', map'. split_and!; auto; [eapply map_ok_mono; [exact Hmap'|by intros ? ?|lia]|].
  destruct Hcase as [[-> Hmv]|Hfail]; [left|by right]. split; [done|]. split.
  - apply (type_view_moved src _ _ _ a n Hv Hn); [rewrite !length_drop, (fr_words _ _ Hf'); done|by apply strs_moved_drop].
  - replace (pos / 4 + 3 + n) with (pos / 4 + (3 + n)) by lia. apply (moved_outside _ _ _ _ _ _ (3 + n) Hmv); [apply (fr_words _ _ Hf')|].
    intros j Hj. by apply field_words_in in Hj as [? _].
Qed.

(** ** Copying a type *)
Lemma rest_words_bound k v n : 0 <= k < 32 -> 0 <= v < 65536 -> rest_words k v = Some n -> 0 <= n < 2 ^ 18.
Proof.
  intros Hk Hv H. destruct (small_nat k 31 ltac:(lia)) as (x & Hx & ->). clear Hk.
  do 32 (try destruct x as [|x]); [..|lia]. all: try discriminate H; injection H as <-; lia.
Qed.

Lemma view_bound b t a n : type_view b t = Some a -> rest_words (a_kind a) (a_vlen a) = Some n -> 0 <= n < 2 ^ 18.
Proof.
  intros (n' & _ & _ & _ & _ & Hk & Hv & _)%type_view_inv Hn. eapply rest_words_bound; [by eapply kind_range|by eapply vlen_range|done].
Qed.

(** Why copying types of [sz] bytes fails. *)
Definition copy_no_room (al : oracle) (src : btf) (c c' : chain) (sz cnt : Z) : Prop :=
  copy_fails al src c' \/ exists o, head c = Some o /\ (UINT_MAX < h_type_len o + sz \/ BTF_MAX_NR_TYPES < o_nr_types o + cnt).

Lemma add_type_spec al o base map n0 a src (st : list Z) t : chain_wf (o :: base) -> obj_types (o :: base) = Some a -> strs_ok src ->
  map_ok src (view (o :: base)) n0 map -> 0 <= n0 < 2 ^ 50 - 2 ^ 19 -> type_view src st = Some t -> Forall word_ok st ->
  exists id c' map' sz, btf_add_type al src (o :: base, map) st = Some (id, (c', map')) /\ chain_wf c' /\ btf_type_size st = Some sz /\
    extends (o :: base) c' /\ map_ok src (view c') (n0 + 2 ^ 19) map' /\
    (id = o_start_id o + Z.of_nat (length a) /\ obj_types c' = Some (a ++ [t]) \/
     id < 0 /\ obj_types c' = Some a /\ chain_kept (o :: base) c' /\ copy_no_room al src (o :: base) c' sz 1).
Proof.
  intros Hwf Ha Hsok Hmap Hn0 Hv Hst. destruct (type_view_size _ _ _ Hv) as (n & Hn & Hn00 & Hsz & Hlen). pose proof (view_bound _ _ _ _ Hv Hn) as Hb.
  unfold btf_add_type. unfold btf_type in *. rewrite Hsz. cbn [mbind option_bind]. destruct (Z.ltb_spec (12 + 4 * n) 0); [lia|]. cbn [head mbind option_bind tail].
  destruct (ensure_mem (sub 0 al) (al [1]) o base (12 + 4 * n) Hwf ltac:(lia)) as (err & o1 & -> & Hwf1 & Hc1 & Hl1 & Herr). cbn [mbind option_bind].
  assert (forall c', chain_wf c' -> chain_kept (o :: base) c' -> obj_types c' = Some a) as Hty.
  { intros c' Hw' Hk'. by apply (kept_types (o :: base) c' a Hwf (wf_inv _ Hw') Hk'). }
  assert (forall c', chain_kept (o :: base) c' -> extends (o :: base) c' /\ map_ok src (view c') (n0 + 2 ^ 19) map) as Hext.
  { intros c' Hk'. split; [by apply kept_extends|]. eapply map_ok_mono; [exact Hmap|by apply kept_strs|lia]. }
  destruct Herr as [[-> Hf]|[-> Hmem]]; cbn [Z.eqb negb].
  { exists (- ENOMEM), (o1 :: base), map, (12 + 4 * n). destruct (Hext _ Hc1). split_and!; auto. right. split_and!; auto; [done|]. left. left. by eapply fails_sub. }
  destruct (btf_add_type_mem _ _ _) as [o2|].
  2: { exists (- ENOMEM), (o1 :: base), map, (12 + 4 * n). destruct (Hext _ Hc1). split_and!; auto. right. split_and!; auto; [done|].
       destruct Hmem as [Hal|Hbig]; [left; left; by exists [1]|right]. exists o. auto. }
  destruct Hmem as (Hwf2 & Hk2 & Hm2 & Hroom & Hl2). rewrite option_guard_True by (Z.to_euclidean_division_equations; lia). cbn [mbind option_bind].
  replace ((12 + 4 * n) / 4) with (3 + n) by (Z.to_euclidean_division_equations; lia).
  pose proof Hwf2 as (_ & Hw2 & _). apply Forall_cons in Hw2 as [Hw2 _].
  assert (length (take (Z.to_nat (3 + n)) st) = Z.to_nat (3 + n)) as Htl by (rewrite length_take; lia).
  destruct (put_words_spec o2 (take (Z.to_nat (3 + n)) st) Hw2 Hm2 (Forall_take _ _ _ Hst)) as (o3 & rest & -> & Hw3 & Hk3 & Hm3 & Hh3 & Hcap3 & _ & Hdrop).
  { rewrite Htl, (k_len _ _ Hk2). lia. }
  cbn [mbind option_bind]. pose proof (obj_kept_trans _ _ _ Hk2 Hk3) as Hk. rewrite <- (k_len _ _ Hk3) in Hdrop.
  assert (chain_kept (o :: base) (o3 :: base)) as Hc3 by (constructor; [done|apply chain_kept_refl]).
  assert (chain_wf (o3 :: base)) as Hwf3 by (eapply wf_kept; [exact Hwf|eapply inv_head; eauto using wf_inv|done]).
  assert (type_view src (drop (Z.to_nat (h_type_len o3 / 4)) (o_types o3)) = Some t) as Hv3.
  { apply (type_view_ext src src st _ t n Hv); [by intros ? ?|done|]. unfold btf_type in *. rewrite Hdrop, take_app_le by (rewrite Htl; lia). rewrite take_take. f_equal. lia. }
  destruct (rewrite_strs_spec (sub 2 al) src (h_type_len o3) o3 base map n0 t n Hwf3 Hm3 Hsok) as (err & o4 & base4 & map4 & -> & Hwf4 & Hc4 & Hf4 & Hmap4 & Hcase);
    [eapply map_ok_mono; [exact Hmap|by apply kept_strs|lia]|lia|by apply type_len_aligned|lia|done|done|].
  cbn [mbind option_bind]. pose proof (chain_kept_trans _ _ _ Hc3 Hc4) as Hc. destruct Hcase as [[-> [Hv4 _]]|[Hneg Hfail]].
  2: { destruct (Z.eqb_spec err 0); [lia|]. exists err, (o4 :: base4), map4, (12 + 4 * n). split_and!; auto using kept_extends; [eapply map_ok_mono; [exact Hmap4|by intros ? ?|lia]|]. right. split_and!; auto. left.
       destruct Hfail as [Hal|?]; [left; by eapply fails_sub|by right]. }
  cbn [Z.eqb negb]. inversion Hc4 as [|? ? ? ? Hk4 _]; subst. inversion Hc as [|? ? ? ? Hk04 _]; subst. rewrite <- (k_len _ _ Hk4) in Hv4.
  destruct (commit_types (al [3]) o4 base4 a t n Hwf4 (fr_mod _ _ Hf4) (Hty _ Hwf4 Hc) Hv4 Hn) as (r & c' & -> & Hwf' & Hx & Hres).
  { rewrite (k_len _ _ Hk04), (fr_cap _ _ Hf4), Hcap3. done. }
  cbn [mbind option_bind]. exists r, c', map4, (12 + 4 * n). split_and!; auto; [eapply extends_trans; [by apply kept_extends|done]|eapply map_ok_mono; [exact Hmap4|apply Hx|lia]|]. destruct Hres as [(Hty' & -> & _)|(Hr & Hty' & Hc' & Hwhy)]; [left|right].
  - destruct (k_start _ _ Hk04) as [<- _]. auto.
  - split_and!; auto; [by eapply chain_kept_trans|]. destruct Hwhy as [?|Hmax]; [left; left; by exists [3]|right]. exists o. split; [done|]. right. rewrite <- (k_nr _ _ Hk04). lia.
Qed.

(** ** Shifting the type ids of a type *)
Definition shift_id (d x : Z) : Z := if x =? 0 then 0 else u32 (x + d).
Definition map_slot (f : Z -> Z) (s : slot) : slot := match s with inl x => inl (f x) | inr s => inr s end.
Fixpoint map_rest (f : Z -> Z) (k i : Z) (l : list slot) : list slot :=
  match l with [] => [] | s :: l => (if id_slot k i then map_slot f s else s) :: map_rest f k (i + 1) l end.
(** The type with other ids. *)
Definition map_ids (f : Z -> Z) (a : atype) : atype :=
  AType (a_kind a) (a_vlen a) (a_kflag a) (a_name a) (if ref_kind (a_kind a) then f (a_val a) else a_val a)
    (map_rest f (a_kind a) 0 (a_rest a)).
(** Void stays void, the other ids of a type move by [d]. *)
Definition shift_type (d : Z) : atype -> atype := map_ids (shift_id d).

Lemma name_not_id k i : name_slot k i = true -> id_slot k i = false.
Proof.
  unfold name_slot, name_stride, id_slot. intros H.
  repeat match goal with
  | H : context [?k =? ?b] |- _ => lazymatch b with 0 => fail | _ => destruct (Z.eqb_spec k b); [subst k|]; cbn [orb] in H end
  end; try done; cbn; apply Z.eqb_eq in H; rewrite ?H; try done; Z.to_euclidean_division_equations; lia.
Qed.

(** The words of [ws'] are those of [ws], with other ids at the words [wb + j], [j] in [js]. *)
Definition ids_mapped (f : Z -> Z) (wb : Z) (js ws ws' : list Z) : Prop := length ws' = length ws /\
  forall i x, ws !! i = Some x -> ws' !! i = Some (if decide (Z.of_nat i - wb ∈ js) then f x else x).

Lemma slots_map f b k i ws ws' l : slots b k i ws = Some l -> length ws' = length ws ->
  (forall j x, ws !! j = Some x -> ws' !! j = Some (if id_slot k (i + Z.of_nat j) then f x else x)) ->
  slots b k i ws' = Some (map_rest f k i l).
Proof.
  revert i ws' l. induction ws as [|w ws IH]; intros i ws' l Hl Hlen H; (destruct ws' as [|w' ws']; try done); [by injection Hl as <-|].
  cbn [slots] in Hl. apply bind_Some in Hl as (y & Hy & Hl). apply bind_Some in Hl as (l0 & Hl0 & Hl). injection Hl as <-.
  pose proof (H 0%nat w eq_refl) as H0. rewrite Z.add_0_r in H0. injection H0 as ->. cbn [slots map_rest].
  rewrite (IH (i + 1) ws' l0 Hl0); [|simpl in Hlen; lia|].
  - destruct (name_slot k i) eqn:En.
    + rewrite (name_not_id _ _ En). rewrite Hy. done.
    + injection Hy as <-. cbn [mbind option_bind]. destruct (id_slot k i); done.
  - intros j x Hx. replace (i + 1 + Z.of_nat j) with (i + Z.of_nat (S j)) by lia. exact (H (S j) x Hx).
Qed.

Lemma type_view_map f b (t t' : list Z) a n : type_view b t = Some a -> rest_words (a_kind a) (a_vlen a) = Some n ->
  ids_mapped f 0 (field_words BTF_FIELD_ITER_IDS (a_kind a) n) t t' -> type_view b t' = Some (map_ids f a).
Proof.
  intros Hv Hn [Hlen' Hsh]. destruct (type_view_inv _ _ _ Hv) as (n' & rest & Hn' & H0 & Hlen & _ & _ & _ & (no & Hno & Hs) & Hval & Hrest & Ha).
  unfold btf_type in *. rewrite Hn in Hn'. injection Hn' as <-.
  assert (forall i x, 0 <= i < 3 + n -> zget t i = Some x -> zget t' i = Some (if field_word BTF_FIELD_ITER_IDS (a_kind a) i then f x else x)) as Hw.
  { intros i x Hi [_ Hx]%zget_Some. apply zget_Some. split; [lia|]. rewrite (Hsh _ _ Hx). f_equal. rewrite Z2Nat.id, Z.sub_0_r by lia.
    destruct (decide (i ∈ _)) as [Hin|Hin]; rewrite field_words_in in Hin by done.
    - by destruct Hin as [_ ->].
    - destruct (field_word _ _ i); [|done]. destruct Hin. split; [lia|done]. }
  destruct (zget_is_Some t 1 ltac:(lia)) as [w1 Hw1].
  unfold map_ids. apply (type_view_change b b t t' a n no _ _ Hv Hn); [lia| | |done| |].
  - unfold info, word. rewrite Hw1. by rewrite (Hw 1 w1 ltac:(lia) Hw1).
  - apply (Hw 0 no ltac:(lia) Hno).
  - unfold size, word. rewrite (Hw 2 _ ltac:(lia) Hval). cbn [field_word Z.eqb andb orb]. simpl. by rewrite orb_false_r.
  - rewrite Ha. apply (slots_map f b (a_kind a) 0 (take (Z.to_nat n) (drop 3 t))); auto.
    { rewrite !length_take, !length_drop. lia. }
    intros j x Hx. assert (j < Z.to_nat n)%nat by (apply lookup_lt_Some in Hx; rewrite length_take in Hx; lia).
    rewrite lookup_take_lt, lookup_drop in Hx |- * by done.
    assert (zget t (3 + Z.of_nat j) = Some x) as Hx' by (apply zget_Some; split; [lia|]; rewrite <- Hx; f_equal; lia).
    apply (Hw (3 + Z.of_nat j) x ltac:(lia)) in Hx'. rewrite field_word_rest in Hx' by lia. apply zget_Some in Hx' as [_ Hx'].
    rewrite Z.add_0_l, <- Hx'. f_equal. lia.
Qed.

Lemma ids_mapped_drop f wb js ws ws' : 0 <= wb -> ids_mapped f wb js ws ws' ->
  ids_mapped f 0 js (drop (Z.to_nat wb) ws) (drop (Z.to_nat wb) ws').
Proof.
  intros Hwb [Hlen H]. split; [rewrite !length_drop; lia|]. intros i x Hi. rewrite lookup_drop in *. rewrite (H _ _ Hi).
  by replace (Z.of_nat (Z.to_nat wb + i) - wb) with (Z.of_nat i - 0) by lia.
Qed.

Lemma ids_outside f wb js ws ws' n : ids_mapped f wb js ws ws' -> (forall j, j ∈ js -> 0 <= j < n) -> same_outside wb (wb + n) ws ws'.
Proof.
  intros [Hlen H] Hjs i Hi. destruct (ws !! i) as [x|] eqn:E.
  - rewrite (H _ _ E), decide_False; [done|]. intros Hin%Hjs. lia.
  - apply lookup_ge_None in E. apply lookup_ge_None. lia.
Qed.

Lemma shift_id_ok d x : word_ok (shift_id d x).
Proof. unfold shift_id, word_ok. destruct (x =? 0); [lia|]. apply wrap_range. lia. Qed.

Lemma remap_id_spec pos j o base x : chain_wf (o :: base) -> modifiable o -> pos mod 4 = 0 -> 0 <= j -> h_type_len o <= pos ->
  zget (o_types o) (pos / 4 + j) = Some x ->
  exists o', remap_id pos (4 * j) (o :: base) = Some (0, o' :: base) /\ chain_wf (o' :: base) /\ obj_kept o o' /\ frame o o' /\
    o_types o' = <[Z.to_nat (pos / 4 + j) := shift_id (o_start_id o + o_nr_types o - 1) x]> (o_types o).
Proof.
  intros Hwf Hm Hp Hj Hpos Hx. unfold remap_id, get_word. replace ((pos + 4 * j) / 4) with (pos / 4 + j) by (rewrite Z.mul_comm, Z.div_add by lia; done).
  cbn [head mbind option_bind]. rewrite Hx. cbn [mbind option_bind]. unfold shift_id. pose proof (zget_lt _ _ _ Hx) as Hlt.
  destruct (Z.eqb_spec x 0) as [->|].
  - exists o. split_and!; auto using obj_kept_refl, frame_refl. symmetry. apply list_insert_id. by apply zget_Some in Hx as [_ ?].
  - destruct (put_word_spec o base (pos / 4 + j) (u32 (x + (o_start_id o + o_nr_types o - 1))) Hwf Hm) as (o' & -> & ? & ? & ? & ?).
    { apply wrap_range. lia. }
    { Z.to_euclidean_division_equations; lia. }
    cbn [mbind option_bind]. exists o'. split_and!; auto.
Qed.

Lemma fold_ids_spec pos js o base d : chain_wf (o :: base) -> modifiable o -> 0 <= pos -> pos mod 4 = 0 -> h_type_len o <= pos -> NoDup js ->
  (forall j, j ∈ js -> 0 <= j /\ pos / 4 + j < Z.of_nat (length (o_types o))) -> d = o_start_id o + o_nr_types o - 1 ->
  exists o', fields_fold (remap_id pos) (map (Z.mul 4) js) (o :: base) = Some (0, o' :: base) /\ chain_wf (o' :: base) /\
    obj_kept o o' /\ frame o o' /\ ids_mapped (shift_id d) (pos / 4) js (o_types o) (o_types o').
Proof.
  intros Hwf Hm Hp Hpm Hpos Hnd Hjs Hd. revert o Hwf Hm Hpos Hjs Hd. assert (0 <= pos / 4) as Hp0 by (apply Z.div_pos; lia).
  induction js as [|j js IH]; intros o Hwf Hm Hpos Hjs Hd; cbn [map fields_fold].
  { exists o. split_and!; auto using obj_kept_refl, frame_refl. split; [done|]. intros i x Hi. by rewrite decide_False by apply not_elem_of_nil. }
  apply NoDup_cons in Hnd as [Hnin Hnd]. destruct (Hjs j ltac:(left)) as [Hj Hjl].
  destruct (zget_is_Some (o_types o) (pos / 4 + j) ltac:(lia)) as [x Hx].
  destruct (remap_id_spec pos j o base x Hwf Hm Hpm Hj Hpos Hx) as (o1 & -> & Hwf1 & Hk1 & Hf1 & Ht1). cbn [mbind option_bind Z.eqb negb].
  destruct (k_start _ _ Hk1) as [Hs1 _]. pose proof (k_nr _ _ Hk1) as Hn1.
  destruct (IH Hnd o1 Hwf1 (fr_mod _ _ Hf1)) as (o' & -> & Hwf' & Hk' & Hf' & [Hlen HP]).
  { by rewrite (k_len _ _ Hk1). }
  { intros j' Hj'. rewrite (fr_words _ _ Hf1). apply Hjs. by right. }
  { by rewrite Hs1, Hn1. }
  exists o'. split_and!; auto; [by eapply obj_kept_trans|by eapply frame_trans|]. split; [rewrite Hlen; apply (fr_words _ _ Hf1)|].
  intros i y Hi. destruct (decide (Z.of_nat i = pos / 4 + j)) as [E|E].
  - rewrite (HP i (shift_id d y)).
    + rewrite decide_False by (replace (Z.of_nat i - pos / 4) with j by lia; done). rewrite decide_True by (replace (Z.of_nat i - pos / 4) with j by lia; left). done.
    + rewrite Ht1. assert (i = Z.to_nat (pos / 4 + j)) as -> by lia. apply zget_Some in Hx as [_ Hx]. rewrite Hx in Hi. injection Hi as ->.
      rewrite Hd. apply list_lookup_insert_eq. by apply lookup_lt_Some in Hx.
  - rewrite (HP i y) by (rewrite Ht1, list_lookup_insert_ne by lia; done). f_equal.
    destruct (decide (Z.of_nat i - pos / 4 ∈ js)) as [Hin|Hin]; [rewrite decide_True by (by right); done|].
    rewrite decide_False; [done|]. rewrite elem_of_cons. intros [E'|?]; [lia|done].
Qed.

(** ** One type of the loop of [btf__add_btf] *)
Lemma set_offs_spec o base idx pos : chain_wf (o :: base) -> o_nr_types o <= idx < offs_cap o ->
  exists offs, zset (o_offs o) idx pos = Some offs /\ offs = <[Z.to_nat idx := pos]> (o_offs o) /\
    chain_wf (set_offs offs (offs_cap o) o :: base) /\ obj_kept o (set_offs offs (offs_cap o) o).
Proof.
  intros Hwf Hidx. pose proof Hwf as (_ & Hw & _). apply Forall_cons in Hw as [Hw _].
  pose proof (ow_nr _ Hw) as Hnr. pose proof (ow_offs _ Hw) as [Hlo Hco]. unfold zset. rewrite decide_True by lia.
  eexists. split; [done|]. split; [done|]. set (o' := set_offs _ _ _).
  assert (own_offs o' = own_offs o) as Hown by (unfold own_offs; cbn; by rewrite take_insert_ge by lia).
  assert (obj_kept o o') as Hk by (split; cbn; auto; done).
  assert (obj_wf o') as Hw' by (destruct Hw; split; cbn; auto; [rewrite length_insert; done|by rewrite Hown]).
  split; [|done]. eapply wf_kept; [exact Hwf|eapply inv_head; eauto using wf_inv|]. constructor; [done|apply chain_kept_refl].
Qed.

Lemma outside_trans lo hi ws1 ws2 ws3 : same_outside lo hi ws1 ws2 -> same_outside lo hi ws2 ws3 -> same_outside lo hi ws1 ws3.
Proof. intros H1 H2 i Hi. by rewrite H2, H1. Qed.

(** What the loop keeps of the destination. *)
Record grown (o o' : btf_obj) : Prop := {
  gr_mod : modifiable o';
  gr_cap : types_cap o' = types_cap o /\ offs_cap o' = offs_cap o;
  gr_words : length (o_types o') = length (o_types o);
  gr_offs : length (o_offs o') = length (o_offs o)
}.
Lemma frame_grown o o' : frame o o' -> grown o o'.
Proof. intros [? ? [E ?] ?]. split; [done|done|done|by rewrite E]. Qed.
Lemma grown_trans o1 o2 o3 : grown o1 o2 -> grown o2 o3 -> grown o1 o3.
Proof. intros [? [? ?] ? ?] [? [? ?] ? ?]. split; [done|split; congruence|congruence|congruence]. Qed.

(** The words from byte [pos] to byte [e] are the types [ts]. *)
Fixpoint typed_from (b : btf) (ws : list Z) (pos : Z) (ts : list atype) (e : Z) : Prop :=
  match ts with
  | [] => pos = e
  | t :: ts => exists n, type_view b (drop (Z.to_nat (pos / 4)) ws) = Some t /\ rest_words (a_kind t) (a_vlen t) = Some n /\
      typed_from b ws (pos + (12 + 4 * n)) ts e
  end.
Fixpoint offs_from (pos : Z) (ts : list atype) : list Z :=
  match ts with
  | [] => []
  | t :: ts => pos :: offs_from (pos + (12 + 4 * default 0 (rest_words (a_kind t) (a_vlen t)))) ts
  end.

Lemma typed_le b ws pos ts e : typed_from b ws pos ts e -> pos + 12 * Z.of_nat (length ts) <= e.
Proof.
  revert pos. induction ts as [|t ts IH]; intros pos; cbn [typed_from]; [simpl; lia|]. intros (n & Hv & Hn & H). apply IH in H. cbn [length].
  pose proof (view_bound _ _ _ _ Hv Hn). lia.
Qed.

Lemma typed_ext b b' ws ws' pos ts e : typed_from b ws pos ts e -> strs_ext b b' -> 0 <= pos -> pos mod 4 = 0 ->
  (forall i, pos / 4 <= Z.of_nat i < e / 4 -> ws' !! i = ws !! i) -> typed_from b' ws' pos ts e.
Proof.
  intros H Hs Hp Hm Hw. revert pos H Hp Hm Hw. induction ts as [|t ts IH]; intros pos H Hp Hm Hw; [done|]. destruct H as (n & Hv & Hn & H).
  pose proof (view_bound _ _ _ _ Hv Hn) as Hb. pose proof (typed_le _ _ _ _ _ H) as Hle. exists n. split; [|split; [done|]].
  - apply (type_view_ext b b' _ _ t n Hv Hs Hn). apply list_eq. intros i. destruct (decide (i < 3 + Z.to_nat n)%nat).
    + rewrite !lookup_take_lt, !lookup_drop by done. apply Hw. Z.to_euclidean_division_equations; lia.
    + by rewrite !lookup_take_ge by lia.
  - apply IH; auto; [lia|by rewrite Z.add_mod, Hm, <- Z.add_mod_idemp_r, (Z.mul_comm 4 n), Z.mod_add by lia|].
    intros i Hi. apply Hw. Z.to_euclidean_division_equations; lia.
Qed.

Definition shifted (d : Z) : list atype -> list atype := map (shift_type d).

Lemma shift_offs d pos ts : offs_from pos (shifted d ts) = offs_from pos ts.
Proof. revert pos. induction ts as [|t ts IH]; intros pos; [done|]. cbn. by rewrite IH. Qed.

Lemma aligned_next pos n : pos mod 4 = 0 -> (pos + (12 + 4 * n)) mod 4 = 0 /\ (pos + (12 + 4 * n)) / 4 = pos / 4 + 3 + n.
Proof. intros H. Z.to_euclidean_division_equations; lia. Qed.

(** One turn of the loop. *)
Lemma copy_one al src o base map pos idx n0 t n d : chain_wf (o :: base) -> modifiable o -> strs_ok src ->
  map_ok src (view (o :: base)) n0 map -> n0 + 3 + n < 2 ^ 50 -> pos mod 4 = 0 -> h_type_len o <= pos -> o_nr_types o <= idx < offs_cap o ->
  type_view src (drop (Z.to_nat (pos / 4)) (o_types o)) = Some t -> rest_words (a_kind t) (a_vlen t) = Some n -> d = o_start_id o + o_nr_types o - 1 ->
  exists r, (forall cnt, copy_loop al src (S cnt) pos idx (o :: base, map) =
      '(err, p) ← r; if negb (err =? 0) then Some (err, p) else copy_loop (sub 1 al) src cnt (pos + (12 + 4 * n)) (idx + 1) p) /\
    exists err o' base' map', r = Some (err, (o' :: base', map')) /\ chain_wf (o' :: base') /\ chain_kept (o :: base) (o' :: base') /\ grown o o' /\
      map_ok src (view (o' :: base')) (n0 + 3 + n) map' /\
      (err = 0 /\ type_view (view (o' :: base')) (drop (Z.to_nat (pos / 4)) (o_types o')) = Some (shift_type d t) /\
         same_outside (pos / 4) (pos / 4 + 3 + n) (o_types o) (o_types o') /\ o_offs o' = <[Z.to_nat idx := pos]> (o_offs o) \/
       err < 0 /\ copy_fails al src (o' :: base')).
Proof.
  intros Hwf Hm Hsok Hmap Hn0 Hpm Hpos Hidx Hv Hn Hd. pose proof (view_bound _ _ _ _ Hv Hn) as Hb.
  pose proof Hwf as (_ & Hw & _). apply Forall_cons in Hw as [Hw _]. pose proof (ow_len _ Hw) as Hl0.
  destruct (type_view_size _ _ _ Hv) as (n' & Hn' & _ & Hsz & Hlen). rewrite Hn in Hn'. injection Hn' as <-.
  destruct (set_offs_spec o base idx pos Hwf Hidx) as (offs & Hset & Hoffs & Hwf1 & Hk1). set (o1 := set_offs offs (offs_cap o) o) in *.
  assert (modifiable o1) as Hm1 by done. assert (grown o o1) as Hg1.
  { split; cbn; auto. rewrite Hoffs, length_insert. done. }
  assert (chain_kept (o :: base) (o1 :: base)) as Hc1 by (constructor; [done|apply chain_kept_refl]).
  destruct (rewrite_strs_spec (sub 0 al) src pos o1 base map n0 t n Hwf1 Hm1 Hsok) as (err & o2 & base2 & map2 & Hr2 & Hwf2 & Hc2 & Hf2 & Hmap2 & Hcase);
    [eapply map_ok_mono; [exact Hmap|by apply kept_strs|lia]|lia|done|done|done|done|].
  pose proof (chain_kept_trans _ _ _ Hc1 Hc2) as Hc. pose proof (grown_trans _ _ _ Hg1 (frame_grown _ _ Hf2)) as Hg.
  assert (forall cnt, copy_loop al src (S cnt) pos idx (o :: base, map) =
    ('(err, (c, map)) ← rewrite_strs (sub 0 al) src pos (S (Z.to_nat (3 + n))) (o1 :: base, map);
      if negb (err =? 0) then Some (err, (c, map))
      else
        o ← head c;
        '(err, it) ← btf_field_iter_init (drop (Z.to_nat (pos / 4)) (o_types o)) BTF_FIELD_ITER_IDS;
        if negb (err =? 0) then Some (err, (c, map))
        else
          '(err, c) ← field_loop (remap_id pos) (S (Z.to_nat (3 + n))) it c;
          if negb (err =? 0) then Some (err, (c, map))
          else copy_loop (sub 1 al) src cnt (pos + (12 + 4 * n)) (idx + 1) (c, map))) as Hstep.
  { intros cnt. cbn [copy_loop head mbind option_bind tail]. unfold btf_type in *. rewrite Hsz. cbn [mbind option_bind].
    destruct (Z.ltb_spec (12 + 4 * n) 0); [lia|]. rewrite Hset. cbn [mbind option_bind].
    replace ((12 + 4 * n) / 4) with (3 + n) by (Z.to_euclidean_division_equations; lia). done. }
  destruct Hcase as [[-> [Hv2 Hout2]]|[Hneg Hfail]].
  2: { exists (Some (err, (o2 :: base2, map2))). split.
       - intros cnt. rewrite Hstep, Hr2. cbn [mbind option_bind]. destruct (Z.eqb_spec err 0); [lia|]. done.
       - exists err, o2, base2, map2. split_and!; auto. right. split; [done|]. destruct Hfail as [?|?]; [left; by eapply fails_sub|by right]. }
  inversion Hc as [|? ? ? ? Hk2 _]; subst. destruct (type_view_inv _ _ _ Hv2) as (n' & rest & Hn' & _ & Hlen2 & Hkd & Hvl & _).
  rewrite Hn in Hn'. injection Hn' as <-. unfold btf_type in *. rewrite length_drop in Hlen2.
  pose proof (field_words_length BTF_FIELD_ITER_IDS (a_kind t) n ltac:(lia)) as Hfl.
  destruct (field_iter_spec BTF_FIELD_ITER_IDS _ _ _ n (S (Z.to_nat (3 + n))) Hkd Hvl Hn ltac:(lia)) as (it & it' & Hi & Hr & _).
  assert (0 <= pos / 4) as Hp0 by (apply Z.div_pos; lia).
  destruct (fold_ids_spec pos (field_words BTF_FIELD_ITER_IDS (a_kind t) n) o2 base2 (o_start_id o + o_nr_types o - 1) Hwf2 (fr_mod _ _ Hf2)) as (o3 & Hfold & Hwf3 & Hk3 & Hf3 & Hsh);
    [lia|done|rewrite (k_len _ _ Hk2); done|apply field_words_NoDup| |destruct (k_start _ _ Hk2) as [-> _]; rewrite (k_nr _ _ Hk2); done|].
  { intros j Hj. apply field_words_in in Hj as [Hj _]; lia. }
  assert (chain_kept (o2 :: base2) (o3 :: base2)) as Hc3 by (constructor; [done|apply chain_kept_refl]).
  exists (Some (0, (o3 :: base2, map2))). split.
  { intros cnt. rewrite Hstep, Hr2. cbn [mbind option_bind Z.eqb negb head]. unfold btf_type in *. rewrite Hi. cbn [mbind option_bind Z.eqb negb].
    rewrite (field_loop_fold _ _ _ _ _ _ Hr), Hfold. done. }
  exists 0, o3, base2, map2. split_and!; auto; [by eapply chain_kept_trans|eapply grown_trans; [exact Hg|by apply frame_grown]|eapply map_ok_mono; [exact Hmap2|by apply kept_strs|lia]|].
  left. split; [done|]. split; [|split].
  - apply (type_view_map _ _ (drop (Z.to_nat (pos / 4)) (o_types o2)) _ _ n); auto; [|by apply ids_mapped_drop].
    apply (type_view_ext _ _ _ _ t n Hv2 (kept_strs _ _ Hc3) Hn). done.
  - eapply outside_trans; [exact Hout2|]. replace (pos / 4 + 3 + n) with (pos / 4 + (3 + n)) by lia. apply (ids_outside _ _ _ _ _ _ Hsh).
    intros j Hj. by apply field_words_in in Hj as [? _]; [|lia].
  - destruct (fr_offs _ _ Hf3) as [-> _]. destruct (fr_offs _ _ Hf2) as [-> _]. done.
Qed.

Lemma copy_loop_spec src ts e d : strs_ok src -> forall al o base map pos idx n0, chain_wf (o :: base) -> modifiable o ->
  map_ok src (view (o :: base)) n0 map -> n0 + (e - pos) < 2 ^ 50 -> pos mod 4 = 0 -> h_type_len o <= pos -> o_nr_types o <= idx ->
  idx + Z.of_nat (length ts) <= offs_cap o -> typed_from src (o_types o) pos ts e -> d = o_start_id o + o_nr_types o - 1 ->
  exists err o' base' map', copy_loop al src (length ts) pos idx (o :: base, map) = Some (err, (o' :: base', map')) /\
    chain_wf (o' :: base') /\ chain_kept (o :: base) (o' :: base') /\ grown o o' /\
    (err = 0 /\ typed_from (view (o' :: base')) (o_types o') pos (shifted d ts) e /\
       take (Z.to_nat idx + length ts) (o_offs o') = take (Z.to_nat idx) (o_offs o) ++ offs_from pos ts /\
       (forall i, Z.of_nat i < pos / 4 -> o_types o' !! i = o_types o !! i) \/
     err < 0 /\ copy_fails al src (o' :: base')).
Proof.
  intros Hsok. induction ts as [|t ts IH]; intros al o base map pos idx n0 Hwf Hm Hmap Hn0 Hpm Hpos Hidx Hcap Hty Hd.
  { exists 0, o, base, map. split_and!; auto using chain_kept_refl, frame_grown, frame_refl. left. split_and!; auto.
    cbn [length offs_from]. by rewrite Nat.add_0_r, app_nil_r. }
  destruct Hty as (n & Hv & Hn & Hty). pose proof (typed_le _ _ _ _ _ Hty) as Hle. pose proof (view_bound _ _ _ _ Hv Hn) as Hb. cbn [length] in *.
  destruct (aligned_next pos n Hpm) as [Hpm' Hdiv]. pose proof Hwf as (_ & Hw & _). apply Forall_cons in Hw as [Hw _].
  pose proof (ow_len _ Hw) as Hl0. pose proof (ow_nr _ Hw) as Hnr0. pose proof (ow_offs _ Hw) as [Hlo _].
  assert (0 <= pos / 4) as Hp0 by (apply Z.div_pos; lia).
  destruct (copy_one al src o base map pos idx n0 t n d Hwf Hm Hsok Hmap ltac:(lia) Hpm Hpos ltac:(lia) Hv Hn Hd) as
    (r & Hstep & err & o1 & base1 & map1 & -> & Hwf1 & Hc1 & Hg1 & Hmap1 & Hcase). rewrite Hstep. cbn [mbind option_bind].
  destruct Hcase as [(-> & Hv1 & Hout & Hoffs1)|[Hneg Hfail]].
  2: { destruct (Z.eqb_spec err 0); [lia|]. exists err, o1, base1, map1. split_and!; auto. }
  cbn [Z.eqb negb]. inversion Hc1 as [|? ? ? ? Hk1 _]; subst. destruct (k_start _ _ Hk1) as [Hs1 _]. pose proof (k_nr _ _ Hk1) as Hn1.
  destruct (gr_cap _ _ Hg1) as [_ Hoc1].
  destruct (IH (sub 1 al) o1 base1 map1 (pos + (12 + 4 * n)) (idx + 1) (n0 + 3 + n) Hwf1 (gr_mod _ _ Hg1) Hmap1) as
    (err & o' & base' & map' & -> & Hwf' & Hc' & Hg' & Hcase); [lia|done|rewrite (k_len _ _ Hk1); lia|rewrite Hn1; lia|rewrite Hoc1; lia| |by rewrite Hs1, Hn1|].
  { eapply typed_ext; [exact Hty|by intros ? ?|lia|done|]. intros i Hi. apply Hout. rewrite Hdiv in Hi. lia. }
  exists err, o', base', map'. split_and!; auto; [by eapply chain_kept_trans|by eapply grown_trans|].
  destruct Hcase as [(-> & Hty' & Htake & Hlow)|[Hneg Hfail]].
  2: { right. split; [done|]. destruct Hfail as [?|?]; [left; by eapply fails_sub|by right]. }
  left. split; [done|]. split; [|split].
  - exists n. split; [|split; [done|done]]. apply (type_view_ext _ _ _ _ _ n Hv1 (kept_strs _ _ Hc') Hn).
    apply list_eq. intros i. destruct (decide (i < 3 + Z.to_nat n)%nat); [|by rewrite !lookup_take_ge by lia].
    rewrite !lookup_take_lt, !lookup_drop by done. apply Hlow. rewrite Hdiv. lia.
  - cbn [offs_from]. rewrite Hn. cbn [default]. replace (Z.to_nat idx + S (length ts))%nat with (Z.to_nat (idx + 1) + length ts)%nat by lia.
    rewrite Htake, Hoffs1. replace (Z.to_nat (idx + 1)) with (S (Z.to_nat idx)) by lia.
    rewrite (take_S_r _ _ pos) by (apply list_lookup_insert_eq; lia). rewrite take_insert_ge by lia. by rewrite <- app_assoc.
  - intros i Hi. rewrite Hlow by (rewrite Hdiv; lia). apply Hout. lia.
Qed.

(** From the layout of an object to its copy. *)
Lemma typed_of_laid b ws ws' next offs e a pos : laid_out ws next offs e -> types_at b ws offs = Some a -> 0 <= next -> next mod 4 = 0 ->
  0 <= pos -> pos mod 4 = 0 -> (forall i, (i < Z.to_nat (e / 4))%nat -> ws' !! (Z.to_nat (pos / 4) + i)%nat = ws !! i) ->
  typed_from b ws' (pos + next) a (pos + e) /\ length a = length offs.
Proof.
  intros Hl Ha Hn Hnm Hp Hpm Hw. revert next a Hl Ha Hn Hnm. induction offs as [|off offs IH]; intros next a Hl Ha Hn Hnm.
  { injection Ha as <-. cbn in *. split; [lia|done]. }
  destruct Hl as (-> & sz & Hsz & Hge & Hm & Hle & Hl). unfold types_at in Ha. apply mapM_Some in Ha. inversion Ha as [|? t ? a' Hv Ha']; subst.
  apply mapM_Some in Ha'. destruct (type_view_size _ _ _ Hv) as (n & Hnr & Hn0 & Hsz' & _). unfold btf_type in *. rewrite Hsz in Hsz'. injection Hsz' as ->.
  pose proof (laid_le _ _ _ _ Hl) as Hle'.
  destruct (IH (next + (12 + 4 * n)) a' Hl Ha' ltac:(lia)) as [Hty Hlen]; [by rewrite Z.add_mod, Hnm, Hm by lia|]. split; [|cbn; lia].
  exists n. split; [|split; [done|by rewrite <- Z.add_assoc]]. apply (type_view_ext b b _ _ t n Hv); [by intros ? ?|done|].
  apply list_eq. intros i. destruct (decide (i < 3 + Z.to_nat n)%nat); [|by rewrite !lookup_take_ge by lia].
  rewrite !lookup_take_lt, !lookup_drop by done. replace (Z.to_nat ((pos + next) / 4) + i)%nat with (Z.to_nat (pos / 4) + (Z.to_nat (next / 4) + i))%nat
    by (Z.to_euclidean_division_equations; lia). apply Hw. Z.to_euclidean_division_equations; lia.
Qed.

Lemma laid_of_typed b ws pos ts e : typed_from b ws pos ts e -> laid_out ws pos (offs_from pos ts) e /\ types_at b ws (offs_from pos ts) = Some ts.
Proof.
  revert pos. induction ts as [|t ts IH]; intros pos; [done|]. intros (n & Hv & Hn & H). pose proof (typed_le _ _ _ _ _ H) as Hle.
  destruct (IH _ H) as [Hl Ht]. cbn [offs_from]. rewrite Hn. cbn [default laid_out]. destruct (type_view_size _ _ _ Hv) as (n' & Hn' & Hn0 & Hsz & _).
  rewrite Hn in Hn'. injection Hn' as <-. split.
  - split; [done|]. exists (12 + 4 * n). split_and!; auto; [lia|Z.to_euclidean_division_equations; lia|lia].
  - unfold types_at in *. apply mapM_Some. constructor; [done|]. by apply mapM_Some.
Qed.
Lemma offs_from_length pos ts : length (offs_from pos ts) = length ts.
Proof. revert pos. induction ts as [|t ts IH]; intros pos; [done|]. cbn. by rewrite IH. Qed.

Lemma offs_mem_spec a o cnt : obj_wf o -> 0 <= cnt < 2 ^ 31 ->
  match btf_add_type_offs_mem a o cnt with
  | None => a = false \/ BTF_MAX_NR_TYPES < o_nr_types o + cnt
  | Some o' => obj_wf o' /\ obj_kept o o' /\ o_nr_types o + cnt <= offs_cap o' /\ hdr o' = hdr o /\ o_types o' = o_types o /\
      types_cap o' = types_cap o /\ o_strs o' = o_strs o
  end.
Proof.
  intros Hw Hcnt. unfold btf_add_type_offs_mem. pose proof (ow_nr _ Hw) as Hnr. pose proof (ow_offs _ Hw) as [Hlo Hco].
  destruct (libbpf_add_mem _ _ _ _ _ _ _) as [[d cap']|] eqn:Ha.
  2: { cbn [mbind option_bind]. apply add_mem_fail in Ha; unfold BTF_MAX_NR_TYPES in *; try lia. destruct Ha; [by left|right; lia]. }
  apply add_mem_cap in Ha as (H1 & H2 & H3); try lia. cbn [mbind option_bind].
  set (offs := o_offs o ++ _). assert (Z.of_nat (length offs) = cap') as Hl by (unfold offs; rewrite length_app, length_replicate; lia).
  assert (take (Z.to_nat (o_nr_types o)) offs = own_offs o) as Htake by (unfold offs, own_offs; by rewrite take_app_le by lia).
  split; [|split; [split; cbn; auto; done|split_and!; auto; cbn; lia]].
  destruct Hw. split; cbn; auto; [lia|unfold BTF_MAX_NR_TYPES in *; lia|]. unfold own_offs. cbn. rewrite Htake. done.
Qed.

Lemma types_at_strs b b' data offs a : types_at b data offs = Some a -> strs_ext b b' -> types_at b' data offs = Some a.
Proof.
  intros Ha Hs. unfold types_at in *. apply mapM_Some in Ha. apply mapM_Some. eapply Forall2_impl; [exact Ha|]. intros off t Hv.
  destruct (type_view_size _ _ _ Hv) as (n & Hn & _). by apply (type_view_ext b b' _ _ t n Hv Hs Hn).
Qed.

(** Committing the copied types. *)
Lemma commit_all o base a ts sz : chain_wf (o :: base) -> modifiable o -> obj_types (o :: base) = Some a ->
  typed_from (view (o :: base)) (o_types o) (h_type_len o) ts (h_type_len o + sz) ->
  take (Z.to_nat (o_nr_types o) + length ts) (o_offs o) = own_offs o ++ offs_from (h_type_len o) ts ->
  h_type_len o + sz <= types_cap o -> o_nr_types o + Z.of_nat (length ts) <= offs_cap o ->
  let o' := set_nr (u32 (o_nr_types o + Z.of_nat (length ts))) (grow_types sz o) in
  chain_wf (o' :: base) /\ obj_types (o' :: base) = Some (a ++ ts) /\ o_nr_types o' = o_nr_types o + Z.of_nat (length ts).
Proof.
  intros Hwf Hm Ha Hty Htake Hcap Hoc o'. pose proof Hwf as (_ & Hws & Hlk & H0). apply Forall_cons in Hws as [Hw Hwb].
  destruct (wf_modifiable o Hw Hm) as (set & Hset & Hc & Hlen). pose proof (ow_len _ Hw) as Hl0. pose proof (ow_nr _ Hw) as Hnr.
  pose proof (ow_offs _ Hw) as [Hlo Hco]. pose proof (typed_le _ _ _ _ _ Hty) as Hle. destruct (laid_of_typed _ _ _ _ _ Hty) as [Hlaid Hat].
  assert (o_nr_types o' = o_nr_types o + Z.of_nat (length ts)) as Hnr' by (unfold o'; cbn; apply wrap_small; lia).
  assert (h_type_len o' = h_type_len o + sz) as Hlen' by (unfold o', h_type_len; cbn; apply wrap_small; unfold h_type_len in *; lia).
  assert (own_offs o' = own_offs o ++ offs_from (h_type_len o) ts) as Hoffs.
  { unfold own_offs at 1. rewrite Hnr'. replace (Z.to_nat (o_nr_types o + Z.of_nat (length ts))) with (Z.to_nat (o_nr_types o) + length ts)%nat by lia. exact Htake. }
  assert (obj_wf o') as Hw'.
  { pose proof (ow_strs _ Hw) as Hst. split; rewrite ?Hlen', ?Hnr', ?Hoffs; unfold o'; cbn [set_nr grow_types set_hdr o_types offs_cap o_offs o_start_id o_start_str_off o_strs types_cap]; try apply Hw; [lia| |lia|].
    - apply laid_app. exists (h_type_len o). split; [apply (ow_laid _ Hw)|done].
    - rewrite Hset in *. destruct Hst as (? & ? & ? & ? & ?). split_and!; auto; lia. }
  assert (strs_ext (view (o :: base)) (view (o' :: base))) as Hext by (intros off s; exact (fun H => H)).
  split; [|split; [|done]].
  - split_and!; [done|by constructor|exact Hlk|by apply Hext].
  - rewrite obj_types_at in * by done. rewrite Hoffs. unfold types_at in *. apply mapM_Some. apply Forall2_app.
    + apply mapM_Some. by apply (types_at_strs _ _ _ _ _ Ha).
    + apply mapM_Some. by apply (types_at_strs _ _ _ _ _ Hat).
Qed.

(** The failure path leaves the object as it was, if no string was added. *)
Lemma undo_spec o base sz old : chain_wf (o :: base) -> modifiable o -> 0 <= sz -> sz mod 4 = 0 -> h_type_len o + sz <= types_cap o ->
  match add_btf_undo (o :: base) old sz with
  | Some c' => chain_wf c' /\ chain_kept (o :: base) c'
  | None => h_str_len o <> old
  end.
Proof.
  intros Hwf Hm Hsz Hszm Hcap. pose proof Hwf as (_ & Hws & _). apply Forall_cons in Hws as [Hw _].
  destruct (wf_modifiable o Hw Hm) as (set & Hset & Hc & Hlen). pose proof (ow_len _ Hw) as Hl0. pose proof (type_len_aligned o Hw) as Hal.
  unfold add_btf_undo. cbn [head mbind option_bind tail]. unfold memcpy_at. rewrite length_replicate.
  assert (h_type_len o / 4 + Z.of_nat (Z.to_nat (sz / 4)) <= Z.of_nat (length (o_types o))) as Hfit by (rewrite Hlen; Z.to_euclidean_division_equations; lia).
  destruct (Z.leb_spec 0 (h_type_len o / 4)); [|Z.to_euclidean_division_equations; lia].
  destruct (Z.leb_spec (h_type_len o / 4 + Z.of_nat (Z.to_nat (sz / 4))) (Z.of_nat (length (o_types o)))); [|lia]. cbn [andb mbind option_bind].
  destruct (Z.eqb_spec (h_str_len o) old) as [<-|]; [|done].
  set (ws := take _ _ ++ _). assert (length ws = length (o_types o)) as Hwl.
  { unfold ws. rewrite !length_app, length_take, length_replicate, length_drop. lia. }
  destruct (set_types_wf o ws (types_cap o)) as [Hw' Hk']; auto; [|by rewrite Hwl| |].
  - unfold ws. pose proof (ow_words _ Hw). apply Forall_app. split; [by apply Forall_take|]. apply Forall_app. split; [|by apply Forall_drop].
    apply Forall_replicate. unfold word_ok. lia.
  - unfold ws. by rewrite take_app_length' by (rewrite length_take; lia).
  - change (set_str_len (h_str_len o) (set_types ws (types_cap o) o)) with (set_str_len (h_str_len (set_types ws (types_cap o) o)) (set_types ws (types_cap o) o)).
    rewrite set_str_len_id. assert (chain_kept (o :: base) (set_types ws (types_cap o) o :: base)) by (constructor; [done|apply chain_kept_refl]).
    split; [|done]. eapply wf_kept; [exact Hwf|eapply inv_head; eauto using wf_inv|done].
Qed.

(** What [btf__add_btf] returns for a destination with the types [a] and a source with the types [ts]. *)
Definition add_btf_result (al : oracle) (o : btf_obj) (base : chain) (a : list atype) (src : btf_obj) (ts : list atype) (r : option (Z * chain)) : Prop :=
  match r with
  | Some (id, c') => chain_wf c' /\
      (id = o_start_id o + Z.of_nat (length a) /\ obj_types c' = Some (a ++ shifted (o_start_id o + Z.of_nat (length a) - 1) ts) \/
       id < 0 /\ obj_types c' = Some a /\ copy_no_room al (view [src]) (o :: base) c' (h_type_len src) (Z.of_nat (length ts)))
  | None => exists o' base', chain_kept (o :: base) (o' :: base') /\ h_str_len o < h_str_len o' /\ copy_fails al (view [src]) (o' :: base')
  end.

Lemma obj_types_length o base a : obj_wf o -> obj_types (o :: base) = Some a -> o_nr_types o = Z.of_nat (length a).
Proof. intros Hw Ha. rewrite obj_types_at in Ha by done. apply length_mapM in Ha. by rewrite <- Ha, own_length. Qed.

Lemma empty_map_ok src b : map_ok src b 0 (Some hashmap__init).
Proof. split; [apply init_wf|]. split; [unfold cap_tight; simpl; lia|]. split; [done|]. intros e He. by apply elem_of_nil in He. Qed.

(** The loop and what follows it. *)
Lemma copy_finish al o base a src ts o4 : chain_wf (o :: base) -> obj_types (o :: base) = Some a -> strs_ok (view [src]) -> 0 <= h_type_len src < 2 ^ 31 ->
  h_type_len src mod 4 = 0 -> chain_wf (o4 :: base) -> obj_kept o o4 -> modifiable o4 -> h_str_len o4 = h_str_len o ->
  o_nr_types o + Z.of_nat (length ts) <= offs_cap o4 -> h_type_len o + h_type_len src <= types_cap o4 ->
  typed_from (view [src]) (o_types o4) (h_type_len o) ts (h_type_len o + h_type_len src) ->
  add_btf_result al o base a src ts
    ('(err, (c, _)) ← copy_loop (sub 4 al) (view [src]) (length ts) (h_type_len o) (o_nr_types o4) (o4 :: base, Some hashmap__init);
     if negb (err =? 0) then c ← add_btf_undo c (h_str_len o) (h_type_len src); Some (err, c)
     else
       o ← head c;
       let o := set_nr (u32 (o_nr_types o + Z.of_nat (length ts))) (grow_types (h_type_len src) o) in
       Some (s32 (o_start_id o + o_nr_types o - Z.of_nat (length ts)), o :: tail c)).
Proof.
  intros Hwf Ha Hsok Hsl Hsal Hwf4 Hk4 Hm4 Hl4 Hoc Hcap Hty. pose proof Hwf as (_ & Hw & _). apply Forall_cons in Hw as [Hw _].
  pose proof (obj_types_length _ _ _ Hw Ha) as Hnr. pose proof (type_len_aligned _ Hw) as Hal. pose proof (ow_len _ Hw) as Hl0.
  pose proof (k_nr _ _ Hk4) as Hn4. destruct (k_start _ _ Hk4) as [Hid4 _]. pose proof (ow_start _ Hw) as [Hs0 _].
  pose proof (own_nr_bound _ Hw) as Hnr0.
  assert (chain_kept (o :: base) (o4 :: base)) as Hc4 by (constructor; [done|apply chain_kept_refl]).
  destruct (copy_loop_spec (view [src]) ts (h_type_len o + h_type_len src) (o_start_id o + o_nr_types o - 1) Hsok (sub 4 al) o4 base (Some hashmap__init)
    (h_type_len o) (o_nr_types o4) 0 Hwf4 Hm4 (empty_map_ok _ _)) as (err & o' & base' & map' & -> & Hwf' & Hc' & Hg' & Hcase);
    [lia|done|rewrite (k_len _ _ Hk4); done|lia|lia|done|by rewrite Hid4, Hn4|]. cbn [mbind option_bind].
  pose proof (chain_kept_trans _ _ _ Hc4 Hc') as Hc. inversion Hc as [|? ? ? ? Hk _]; subst. inversion Hc' as [|? ? ? ? Hk' _]; subst.
  assert (obj_types (o' :: base') = Some a) as Ha' by (apply (kept_types (o :: base) _ a Hwf (wf_inv _ Hwf') Hc Ha)).
  pose proof Hwf' as (_ & Hw' & _). apply Forall_cons in Hw' as [Hw' _]. destruct (gr_cap _ _ Hg') as [Hcap' Hoc'].
  destruct Hcase as [(-> & Hty' & Htake & _)|[Hneg Hfail]]; cbn [Z.eqb negb].
  - cbn [head mbind option_bind tail]. rewrite <- (k_len _ _ Hk) in Hty', Htake.
    destruct (commit_all o' base' a (shifted (o_start_id o + o_nr_types o - 1) ts) (h_type_len src) Hwf' (gr_mod _ _ Hg') Ha' Hty') as (Hwf5 & Ha5 & Hnr5).
    { rewrite shift_offs. unfold shifted. rewrite length_map, (k_nr _ _ Hk), <- Hn4, Htake. f_equal. by rewrite (k_offs _ _ Hk'). }
    { rewrite (k_len _ _ Hk). lia. }
    { unfold shifted. rewrite length_map, (k_nr _ _ Hk). lia. }
    unfold shifted in Hnr5, Hwf5, Ha5. rewrite length_map in Hnr5, Hwf5, Ha5. split; [exact Hwf5|]. left. destruct (k_start _ _ Hk) as [Hid _]. split.
    + cbn [o_start_id set_nr grow_types set_hdr]. rewrite Hnr5. change (o_start_id (set_hdr _ o')) with (o_start_id o').
      rewrite Hid, (k_nr _ _ Hk), Hnr. rewrite swrap_small by lia. lia.
    + rewrite <- Hnr. exact Ha5.
  - destruct (Z.eqb_spec err 0); [lia|]. cbn [negb].
    assert (copy_fails al (view [src]) (o' :: base')) as Hfail' by (destruct Hfail as [?|?]; [left; by eapply fails_sub|by right]).
    pose proof (undo_spec o' base' (h_type_len src) (h_str_len o) Hwf' (gr_mod _ _ Hg') ltac:(lia) Hsal) as Hundo.
    rewrite (k_len _ _ Hk) in Hundo. specialize (Hundo ltac:(lia)). destruct (add_btf_undo _ _ _) as [c5|]; cbn [mbind option_bind].
    + destruct Hundo as [Hwf5 Hc5]. split; [done|]. right. split; [done|]. split.
      * apply (kept_types (o' :: base') _ a Hwf' (wf_inv _ Hwf5) Hc5 Ha').
      * left. destruct Hfail' as [?|(x & s & ? & Hfull)]; [by left|right]. exists x, s. split; [done|]. by apply (full_mono _ _ _ Hc5).
    + exists o', base'. split; [done|]. split; [|done]. pose proof (k_str_len _ _ Hk). lia.
Qed.

Lemma add_btf_spec al o base a src ts : chain_wf (o :: base) -> obj_types (o :: base) = Some a -> chain_wf [src] -> o_start_id src = 1 ->
  h_type_len src < 2 ^ 31 -> obj_types [src] = Some ts -> add_btf_result al o base a src ts (btf__add_btf al (o :: base) [src]).
Proof.
  intros Hwf Ha Hsrc Hsid Hslen Hts. pose proof Hsrc as (_ & Hsw & _). apply Forall_cons in Hsw as [Hsw _].
  pose proof (ow_len _ Hsw) as Hsl0. pose proof (type_len_aligned _ Hsw) as Hsal. pose proof (own_nr_bound _ Hsw) as Hsnr.
  pose proof (obj_types_length _ _ _ Hsw Hts) as Hcnt. pose proof Hwf as (_ & Hw & _). apply Forall_cons in Hw as [Hw _].
  pose proof (obj_types_length _ _ _ Hw Ha) as Hnr.
  assert (forall c', chain_wf c' -> chain_kept (o :: base) c' -> obj_types c' = Some a) as Hty.
  { intros c' Hw' Hk'. by apply (kept_types (o :: base) c' a Hwf (wf_inv _ Hw') Hk'). }
  assert (forall c', chain_wf c' -> chain_kept (o :: base) c' -> copy_no_room al (view [src]) (o :: base) c' (h_type_len src) (Z.of_nat (length ts)) ->
    add_btf_result al o base a src ts (Some (- ENOMEM, c'))) as Hfail.
  { intros c' Hw' Hk' Hno. split; [done|]. right. split_and!; auto. done. }
  unfold btf__add_btf. cbn [head tail mbind option_bind].
  destruct (ensure_mem (sub 0 al) (al [1]) o base (h_type_len src) Hwf ltac:(lia)) as (err & o1 & -> & Hwf1 & Hc1 & Hl1 & Herr). cbn [mbind option_bind].
  destruct Herr as [[-> Hf]|[-> Hmem]]; cbn [Z.eqb negb]; [apply Hfail; auto; left; left; by eapply fails_sub|].
  assert (btf__type_cnt (view [src]) = Some (1 + Z.of_nat (length ts))) as ->.
  { cbn. f_equal. rewrite Hsid, Hcnt. apply wrap_small. lia. }
  cbn [mbind option_bind]. replace (1 + Z.of_nat (length ts) - 1) with (Z.of_nat (length ts)) by lia.
  rewrite swrap_small by lia. rewrite (wrap_small 64) by lia. destruct (btf_add_type_mem _ _ _) as [o2|].
  2: { apply Hfail; auto. destruct Hmem as [?|?]; [left; left; by exists [1]|right; exists o; auto]. }
  destruct Hmem as (Hwf2 & Hk2 & Hm2 & Hroom & Hl2).
  pose proof Hwf2 as (_ & Hw2 & _). apply Forall_cons in Hw2 as [Hw2 _].
  pose proof (offs_mem_spec (al [2]) o2 (Z.of_nat (length ts)) Hw2 ltac:(lia)) as Hmem3. destruct (btf_add_type_offs_mem _ _ _) as [o3|].
  2: { assert (chain_kept (o :: base) (o2 :: base)) by (constructor; [done|apply chain_kept_refl]). apply Hfail; auto.
       destruct Hmem3 as [?|?]; [left; left; by exists [2]|right; exists o]. rewrite <- (k_nr _ _ Hk2). auto. }
  destruct Hmem3 as (Hw3 & Hk3 & Hoc3 & Hh3 & Ht3 & Hcap3 & Hs3). pose proof (obj_kept_trans _ _ _ Hk2 Hk3) as Hk03.
  assert (chain_kept (o :: base) (o3 :: base)) as Hc3 by (constructor; [done|apply chain_kept_refl]).
  assert (chain_wf (o3 :: base)) as Hwf3 by (eapply wf_kept; [exact Hwf|eapply inv_head; eauto using wf_inv|done]).
  destruct (al [3]) eqn:Eal; cbn [negb]; [|apply Hfail; auto; left; left; by exists [3]].
  assert (modifiable o3) as Hm3 by (unfold modifiable, btf_is_modifiable in *; by rewrite Hs3).
  assert (h_type_len src / 4 <= Z.of_nat (length (o_types src))) as Hsfit.
  { pose proof (ow_strs _ Hsw) as Hst. destruct (o_strs src); [lia|]. destruct Hst as (? & ? & _). Z.to_euclidean_division_equations; lia. }
  rewrite option_guard_True by done. cbn [mbind option_bind].
  set (ws := take (Z.to_nat (h_type_len src / 4)) (o_types src)).
  assert (Z.of_nat (length ws) = h_type_len src / 4) as Hwl by (unfold ws; rewrite length_take; Z.to_euclidean_division_equations; lia).
  destruct (put_words_spec o3 ws Hw3 Hm3 (Forall_take _ _ _ (ow_words _ Hsw))) as (o4 & rest & -> & Hw4 & Hk4 & Hm4 & Hh4 & Hcap4 & Ho4 & Hdrop).
  { rewrite Hwl, Hcap3, (k_len _ _ Hk03). Z.to_euclidean_division_equations; lia. }
  cbn [mbind option_bind]. pose proof (obj_kept_trans _ _ _ Hk03 Hk4) as Hk04.
  assert (chain_kept (o :: base) (o4 :: base)) as Hc4 by (constructor; [done|apply chain_kept_refl]).
  assert (chain_wf (o4 :: base)) as Hwf4 by (eapply wf_kept; [exact Hwf|eapply inv_head; eauto using wf_inv|done]).
  pose proof (type_len_aligned _ Hw) as Hal. pose proof (ow_len _ Hw) as Hl0.
  destruct (typed_of_laid (view [src]) (o_types src) (o_types o4) 0 (own_offs src) (h_type_len src) ts (h_type_len o)) as [Htyped _]; auto; try lia.
  { apply (ow_laid _ Hsw). }
  { by rewrite <- obj_types_at. }
  { intros i Hi. rewrite <- lookup_drop, <- (k_len _ _ Hk03), Hdrop, lookup_app_l by lia. unfold ws. by rewrite lookup_take_lt by lia. }
  rewrite Z.add_0_r in Htyped. rewrite Nat2Z.id, Hl1, (k_len _ _ Hk03). apply copy_finish; auto; [by apply wf_strs_ok|..].
  - lia.
  - unfold h_str_len in *. by rewrite Hh4, Hh3.
  - rewrite <- (k_nr _ _ Hk2). destruct (ow_offs _ Hw4) as [<- _]. rewrite Ho4. destruct (ow_offs _ Hw3) as [-> _]. done.
  - by rewrite Hcap4, Hcap3.
Qed.

(** ** Properties *)

(** [btf__add_type]: the type of another object is appended as it is described there, with
    its names and the names of its elements as strings of the destination; all other types
    stay, and failures (memory, space) keep every type. *)
Theorem add_type_copies al o base a src st t : chain_wf (o :: base) -> obj_types (o :: base) = Some a -> chain_wf src ->
  type_view (view src) st = Some t -> Forall word_ok st ->
  exists id c', btf__add_type al (o :: base) (view src) st = Some (id, c') /\ chain_wf c' /\
    (id = o_start_id o + Z.of_nat (length a) /\ obj_types c' = Some (a ++ [t]) \/
     id < 0 /\ obj_types c' = Some a /\ exists sz, btf_type_size st = Some sz /\ copy_no_room al (view src) (o :: base) c' sz 1).
Proof.
  intros Hwf Ha Hsrc Hv Hst.
  destruct (add_type_spec al o base None 0 a (view src) st t Hwf Ha (wf_strs_ok _ Hsrc) I ltac:(lia) Hv Hst) as (id & c' & map' & sz & Hr & Hwf' & Hsz & _ & _ & Hcase).
  exists id, c'. split; [unfold btf__add_type, chain in *; by rewrite Hr|]. split; [done|].
  destruct Hcase as [?|(? & ? & _ & ?)]; [by left|right]. eauto.
Qed.

(** C17. [btf__add_btf]: all types of another object are appended in order, each described as in
    its object, with names as strings of the destination and with every type id moved to the
    copy of the type it named (void stays void); the id of the first copy is returned.  If
    memory or space runs out, all types of the destination are kept and the reason is one of
    these, unless strings were added before, in which case the failure path writes through a
    null pointer. *)
Theorem add_btf_copies al o base a src ts : chain_wf (o :: base) -> obj_types (o :: base) = Some a -> chain_wf [src] ->
  o_start_id src = 1 -> h_type_len src < 2 ^ 31 -> obj_types [src] = Some ts ->
  add_btf_result al o base a src ts (btf__add_btf al (o :: base) [src]).
Proof. apply add_btf_spec. Qed.

Lemma add_type_copies_witness : exists id c', btf__add_type all_ok [empty_obj] (view [src_obj]) (take 4 (o_types src_obj)) = Some (id, c') /\ chain_wf c' /\
    (id = o_start_id empty_obj + Z.of_nat (length (@nil atype)) /\ obj_types c' = Some ([] ++ [AType 1 0 false [105; 110; 116] 4 [inl 16777248]]) \/
     id < 0 /\ obj_types c' = Some [] /\ exists sz, btf_type_size (take 4 (o_types src_obj)) = Some sz /\
       copy_no_room all_ok (view [src_obj]) [empty_obj] c' sz 1).
Proof.
  apply (add_type_copies all_ok empty_obj [] [] [src_obj] (take 4 (o_types src_obj)) (AType 1 0 false [105; 110; 116] 4 [inl 16777248]));
    [apply empty_wf|reflexivity|apply src_obj_wf|reflexivity|repeat constructor; lia || (vm_compute; done)].
Defined.

Lemma add_btf_copies_witness : add_btf_result all_ok empty_obj [] [] src_obj src_types (btf__add_btf all_ok [empty_obj] [src_obj]).
Proof.
  apply (add_btf_copies all_ok empty_obj [] [] src_obj src_types); [apply empty_wf|reflexivity|apply src_obj_wf|reflexivity|vm_compute; reflexivity|reflexivity].
Defined.

(** Allocations that succeed except the one at a path. *)
Definition all_but (q : list Z) : oracle := fun p => negb (bool_decide (p = q)).

(** When an allocation fails in [btf__add_btf] after a string was added, the failure path
    does not return: it clears the added strings through [btf->strs_data], which is NULL in a
    modifiable object. *)
Theorem add_btf_failure_crashes : exists r src,
  run_ops all_ok [empty_obj] [AddInt (Some [105]) 4 0; AddInt (Some [106]) 8 0] = Some (r, src) /\
  btf__add_btf (all_but [4; 1; 0; 0; 0; 4]) [empty_obj] src = None /\
  exists c, btf__add_btf all_ok [empty_obj] src = Some (1, c).
Proof. eexists _, _. split; [vm_compute; reflexivity|]. split; [vm_compute; reflexivity|]. eexists. vm_compute. reflexivity. Qed.
