(* ===== verification/BtfRaw.v ===== *)
(** * The serialised form of a BTF object

    [btf_new_empty], [btf_new] and [btf_get_raw_data] of src/libbpf/src/btf.c: an object is
    created empty, or parsed from a block of bytes with the functions of Btf.v, and written
    back to a block, in either byte order.  Also the pointer size of an object, which is
    guessed from its types.

    A block is a list of bytes; the type section is read and written as little-endian words.
    The version and flags bytes of the header, and what a header longer than 24 bytes has
    behind them, are not kept in the object: they are arguments of the functions that write
    it. *)
From stdpp Require Import base numbers list gmap.
From S2P Require Import Prelude Hashmap Strset Btf BtfBuild BtfBuildSpec.

(** ** Words and bytes *)
Fixpoint words_of (n : nat) (bs : list Z) : list Z :=
  match n with O => [] | S n => le_value (take 4 bs) :: words_of n (drop 4 bs) end.
Definition bytes_of (ws : list Z) : list Z := concat (map (le_bytes 4) ws).

Record hdr_extra := HdrExtra { version : Z; flags : Z; hdr_tail : list Z }.

Definition hdr_bytes (x : hdr_extra) (h : btf_header) : list Z :=
  le_bytes 2 (magic h) ++ [version x; flags x] ++ le_bytes 4 (hdr_len h) ++ le_bytes 4 (type_off h) ++
  le_bytes 4 (type_len h) ++ le_bytes 4 (str_off h) ++ le_bytes 4 (str_len h) ++ hdr_tail x.

(** The header at the start of a block; a block that is too short for one is not read. *)
Definition read_hdr (bs : list Z) : btf_header :=
  let at_ off n := le_value (take n (drop off bs)) in
  BtfHeader (at_ 0 2)%nat (at_ 4 4)%nat (at_ 8 4)%nat (at_ 12 4)%nat (at_ 16 4)%nat (at_ 20 4)%nat.

(** ** Creating objects *)

(** The id and string offset an object starts with: [btf_new_empty] and [btf_new] compute the offset differently. *)
Definition base_ids (base : chain) : option Z := match base with [] => Some 1 | _ => n ← btf__type_cnt (view base); Some (s32 n) end.
Definition empty_str_off (base : chain) : Z :=
  match base with [] => 0 | b :: _ => s32 (u32 (h_str_len b + o_start_str_off b)) end.
Definition new_str_off (base : chain) : Z := match base with [] => 0 | b :: _ => s32 (h_str_len b) end.

Definition btf_new_empty (al : oracle) (base : chain) : option (Z + btf_obj) :=
  if negb (al [0]) then Some (inl (- ENOMEM))
  else
    start_id ← base_ids base;
    if negb (al [1]) then Some (inl (- ENOMEM))
    else
      let n := if decide (base = []) then 1 else 0 in
      Some (inr (BtfObj (BtfHeader BTF_MAGIC 24 0 0 0 n) [] 0 [] 0 0 start_id (empty_str_off base)
                   (StrsRaw (replicate (Z.to_nat n) 0)) 8)).

(** The capacity of the index after [n] entries were added one by one. *)
Fixpoint idx_cap (n : nat) : Z :=
  match n with
  | O => 0
  | S n => let cap := idx_cap n in if Z.of_nat n + 1 <=? cap then cap else add_mem_cnt cap (Z.of_nat n) BTF_MAX_NR_TYPES 1
  end.

(** The object [btf_new] has before the sanity check.  Its pointer size is not known yet (0). *)
Definition new_obj (h : btf_header) (types offs : list Z) (start_id start_str_off : Z) (strs : list Z) : btf_obj :=
  let n := length offs in
  BtfObj h types 0 (offs ++ replicate (Z.to_nat (idx_cap n) - n) 0) (idx_cap n) (Z.of_nat n) start_id start_str_off (StrsRaw strs) 0.

Definition btf_new (al : oracle) (data : list Z) (base : chain) : option (Z + btf_obj) :=
  if negb (al [0]) then Some (inl (- ENOMEM))
  else
    start_id ← base_ids base;
    if negb (al [1]) then Some (inl (- ENOMEM))
    else
      let '(err, swapped, h) := btf_parse_hdr (Z.of_nat (length data)) (read_hdr data) in
      if negb (err =? 0) then Some (inl err)
      else
        let strs := take (Z.to_nat (str_len h)) (drop (Z.to_nat (hdr_len h + str_off h)) data) in
        let types := words_of (Z.to_nat (type_len h / 4)) (drop (Z.to_nat (hdr_len h + type_off h)) data) in
        err ← btf_parse_str_sec (negb (bool_decide (base = []))) h strs;
        if negb (err =? 0) then Some (inl err)
        else
          '(err, types, offs) ← btf_parse_type_sec (fun i => al [2; Z.of_nat i]) swapped types (type_len h);
          if negb (err =? 0) then Some (inl err)
          else
            let o := new_obj h types offs start_id (new_str_off base) strs in
            err ← btf_sanity_check (view (o :: base));
            if negb (err =? 0) then Some (inl err) else Some (inr o).

(** ** Writing an object *)

(** The loop that swaps the copied types; [Some None] is the failure of
    [btf_bswap_type_rest]. *)
Fixpoint swap_types (offs : list Z) (ws : list Z) : option (option (list Z)) :=
  match offs with
  | [] => Some (Some ws)
  | off :: offs =>
    let i := Z.to_nat (off / 4) in
    '(err, t) ← btf_bswap_type_rest (drop i ws);
    if negb (err =? 0) then Some None
    else t ← btf_bswap_type_base t; swap_types offs (take i ws ++ t)
  end.

(** For an object without a cached block.  [Some None] is NULL; [None]: the 32-bit size of
    the block overflows and the copies go past its end. *)
Definition btf_get_raw_data (alloc : bool) (o : btf_obj) (x : hdr_extra) (swap_endian : bool) : option (option (list Z)) :=
  let h := hdr o in
  if negb alloc then Some None
  else
    guard (hdr_len h + type_len h + str_len h < 2 ^ 32);;
    let hb := take (Z.to_nat (hdr_len h)) (hdr_bytes x (if swap_endian then btf_bswap_hdr h else h)) in
    let ws := take (Z.to_nat (type_len h / 4)) (o_types o) in
    ws ← (if swap_endian then swap_types (take (Z.to_nat (o_nr_types o)) (o_offs o)) ws else Some (Some ws));
    match ws with
    | None => Some None
    | Some ws => Some (Some (hb ++ bytes_of ws ++ take (Z.to_nat (str_len h)) (btf_strs_data o)))
    end.

(** ** The pointer size *)
Definition LONG := [108; 111; 110; 103].
Definition INT := [105; 110; 116].
Definition UNSIGNED := [117; 110; 115; 105; 103; 110; 101; 100].
Definition spaced (l : list (list Z)) : list Z := match l with [] => [] | w :: l => w ++ concat (map (cons 32) l) end.
Definition long_aliases : list (list Z) := map spaced
  [[LONG]; [LONG; INT]; [INT; LONG]; [UNSIGNED; LONG]; [LONG; UNSIGNED]; [UNSIGNED; LONG; INT]; [UNSIGNED; INT; LONG];
   [LONG; UNSIGNED; INT]; [LONG; INT; UNSIGNED]; [INT; UNSIGNED; LONG]; [INT; LONG; UNSIGNED]].

Fixpoint ptr_size_loop (n : nat) (b : btf) (i : Z) : option Z :=
  match n with
  | O => Some (-1)
  | S n =>
    t ← btf_type_by_id b i;
    k ← btf_kind t; sz ← size t;
    if negb (k =? BTF_KIND_INT) || (negb (sz =? 4) && negb (sz =? 8)) then ptr_size_loop n b (i + 1)
    else
      no ← name_off t;
      name ← btf__str_by_offset b no;
      match name with
      | None => ptr_size_loop n b (i + 1)
      | Some name => if bool_decide (name ∈ long_aliases) then Some sz else ptr_size_loop n b (i + 1)
      end
  end.

Definition determine_ptr_size (c : chain) : option Z :=
  match tail c with
  | b :: _ => if 0 <? o_ptr_sz b then Some (o_ptr_sz b)
              else n ← btf__type_cnt (view c); ptr_size_loop (Z.to_nat (n - 1)) (view c) 1
  | [] => n ← btf__type_cnt (view c); ptr_size_loop (Z.to_nat (n - 1)) (view c) 1
  end.

Definition set_ptr_sz (n : Z) (o : btf_obj) : btf_obj :=
  BtfObj (hdr o) (o_types o) (types_cap o) (o_offs o) (offs_cap o) (o_nr_types o) (o_start_id o) (o_start_str_off o) (o_strs o) n.

Definition btf__pointer_size (c : chain) : option (Z * chain) :=
  o ← head c;
  n ← (if o_ptr_sz o =? 0 then determine_ptr_size c else Some (o_ptr_sz o));
  Some (if n <? 0 then 0 else n, set_ptr_sz n o :: tail c).

Definition btf__set_pointer_size (c : chain) (ptr_sz : Z) : option (Z * chain) :=
  if negb (ptr_sz =? 4) && negb (ptr_sz =? 8) then Some (- EINVAL, c)
  else o ← head c; Some (0, set_ptr_sz ptr_sz o :: tail c).

(** ** Words and bytes *)
Lemma bytes_of_length ws : length (bytes_of ws) = (4 * length ws)%nat.
Proof. unfold bytes_of. induction ws as [|w ws IH]; [done|]. cbn [map concat]. rewrite length_app, IH, le_bytes_length. simpl. lia. Qed.

Lemma words_of_bytes ws rest : Forall word_ok ws -> words_of (length ws) (bytes_of ws ++ rest) = ws.
Proof.
  intros H. induction H as [|w ws Hw _ IH]; [done|]. cbn [length words_of]. unfold bytes_of in *. cbn [map concat].
  rewrite <- app_assoc. rewrite take_app_length', drop_app_length' by (by rewrite le_bytes_length). rewrite IH, le_value_bytes. f_equal.
  apply Z.mod_small. unfold word_ok in Hw. change (256 ^ Z.of_nat 4) with (2 ^ 32). lia.
Qed.

Record hdr_ok (h : btf_header) : Prop := {
  hk_magic : 0 <= magic h < 2 ^ 16;
  hk_len : word_ok (hdr_len h);
  hk_types : word_ok (type_off h) /\ word_ok (type_len h);
  hk_strs : word_ok (str_off h) /\ word_ok (str_len h)
}.

Lemma field_at pre n v rest : (0 <= v < 256 ^ Z.of_nat n) -> le_value (take n (drop (length pre) (pre ++ le_bytes n v ++ rest))) = v.
Proof. intros Hv. rewrite drop_app_length, take_app_length' by (by rewrite le_bytes_length). rewrite le_value_bytes. by apply Z.mod_small. Qed.

Lemma read_hdr_bytes x h rest : hdr_ok h -> read_hdr (hdr_bytes x h ++ rest) = h.
Proof.
  intros [Hm Hl [Ht1 Ht2] [Hs1 Hs2]]. unfold word_ok in *. unfold read_hdr, hdr_bytes. cbv zeta.
  assert (forall n v, length (le_bytes n v) = n) as Hlen by apply le_bytes_length.
  destruct h as [m l to tl so sl]; cbn [magic hdr_len type_off type_len str_off str_len] in *.
  rewrite <- !app_assoc. f_equal.
  - rewrite drop_0, take_app_length' by done. rewrite le_value_bytes. by apply Z.mod_small.
  - rewrite (app_assoc (le_bytes 2 m)). apply (field_at (le_bytes 2 m ++ [version x; flags x]) 4 l). done.
  - rewrite (app_assoc (le_bytes 2 m)), (app_assoc _ (le_bytes 4 l)). apply (field_at ((le_bytes 2 m ++ [version x; flags x]) ++ le_bytes 4 l) 4 to). done.
  - rewrite (app_assoc (le_bytes 2 m)), (app_assoc _ (le_bytes 4 l)), (app_assoc _ (le_bytes 4 to)).
    apply (field_at (((le_bytes 2 m ++ [version x; flags x]) ++ le_bytes 4 l) ++ le_bytes 4 to) 4 tl). done.
  - rewrite (app_assoc (le_bytes 2 m)), (app_assoc _ (le_bytes 4 l)), (app_assoc _ (le_bytes 4 to)), (app_assoc _ (le_bytes 4 tl)).
    apply (field_at ((((le_bytes 2 m ++ [version x; flags x]) ++ le_bytes 4 l) ++ le_bytes 4 to) ++ le_bytes 4 tl) 4 so). done.
  - rewrite (app_assoc (le_bytes 2 m)), (app_assoc _ (le_bytes 4 l)), (app_assoc _ (le_bytes 4 to)), (app_assoc _ (le_bytes 4 tl)), (app_assoc _ (le_bytes 4 so)).
    apply (field_at (((((le_bytes 2 m ++ [version x; flags x]) ++ le_bytes 4 l) ++ le_bytes 4 to) ++ le_bytes 4 tl) ++ le_bytes 4 so) 4 sl). done.
Qed.

Lemma hdr_bytes_length x h : length (hdr_bytes x h) = (24 + length (hdr_tail x))%nat.
Proof. unfold hdr_bytes. rewrite !length_app, !le_bytes_length. cbn [length]. lia. Qed.

Lemma bswap_32_ok x : word_ok x -> word_ok (bswap_32 x).
Proof.
  intros H. destruct (word_bytes x H) as (b0 & b1 & b2 & b3 & H0 & H1 & H2 & H3 & ->). rewrite bswap_32_bytes by done. unfold word_ok. lia.
Qed.

(** ** The header *)
Definition serial_ok (h : btf_header) : Prop :=
  magic h = BTF_MAGIC /\ hdr_len h = 24 /\ type_off h = 0 /\ str_off h = type_len h /\ word_ok (type_len h) /\ word_ok (str_len h) /\ type_len h mod 4 = 0.

Lemma serial_hdr_ok h swap : serial_ok h -> hdr_ok (if swap : bool then btf_bswap_hdr h else h).
Proof.
  intros (Hm & Hl & Ht & Hs & H1 & H2 & _). destruct swap; split; cbn [btf_bswap_hdr magic hdr_len type_off type_len str_off str_len];
    rewrite ?Hm, ?Hl, ?Ht, ?Hs; try (split; by auto using bswap_32_ok); try done.
Qed.

Lemma parse_serial h swap size : serial_ok h -> size = 24 + type_len h + str_len h ->
  btf_parse_hdr size (if swap : bool then btf_bswap_hdr h else h) = (0, swap, h).
Proof.
  intros (Hm & Hl & Ht & Hs & H1 & H2 & Ha) Hsz. unfold word_ok in *. unfold btf_parse_hdr. destruct (Z.ltb_spec size 24); [lia|].
  assert (forall h', h' = h -> (if size <? hdr_len h' then (- EINVAL, swap, h')
    else if size - hdr_len h' <? str_off h' + str_len h' then (- EINVAL, swap, h')
      else if type_off h' + type_len h' >? str_off h' then (- EINVAL, swap, h')
      else if negb (type_off h' mod 4 =? 0) then (- EINVAL, swap, h') else (0, swap, h')) = (0, swap, h)) as Hchk.
  { intros h' ->. rewrite Hl, Ht, Hs. destruct (Z.ltb_spec size 24); [lia|]. destruct (Z.ltb_spec (size - 24) (type_len h + str_len h)); [lia|].
    destruct (Z.gtb_spec (0 + type_len h) (type_len h)); [lia|]. done. }
  cbv zeta. destruct swap.
  - assert (btf_bswap_hdr (btf_bswap_hdr h) = h) as ->.
    { destruct h as [m l to tl so sl]; cbn in *; subst. unfold btf_bswap_hdr. cbn [magic hdr_len type_off type_len str_off str_len].
      rewrite !bswap_32_invol by (unfold word_ok; lia). done. }
    assert (magic (btf_bswap_hdr h) = bswap_16 BTF_MAGIC) as -> by (cbn; by rewrite Hm). rewrite Z.eqb_refl.
    assert (bswap_32 (hdr_len (btf_bswap_hdr h)) = 24) as -> by (cbn; by rewrite Hl). rewrite Z.eqb_refl. cbn [negb]. by apply Hchk.
  - rewrite Hm. change (BTF_MAGIC =? bswap_16 BTF_MAGIC) with false. cbn iota. change (negb (BTF_MAGIC =? BTF_MAGIC)) with false. cbn iota. by apply Hchk.
Qed.

(** ** Swapping the types *)
Definition half_swapped (ws : list Z) (k : nat) : list Z := map bswap_32 (take k ws) ++ drop k ws.

Lemma swap_one ws k sz n : (k + 3 + n <= length ws)%nat -> btf_type_size (drop k ws) = Some sz -> sz = 12 + 4 * Z.of_nat n -> 
  exists t t', btf_bswap_type_rest (drop k (half_swapped ws k)) = Some (0, t) /\ btf_bswap_type_base t = Some t' /\
    take k (half_swapped ws k) ++ t' = half_swapped ws (k + 3 + n).
Proof.
  intros Hlen Hsz ->. assert (drop k (half_swapped ws k) = drop k ws /\ take k (half_swapped ws k) = map bswap_32 (take k ws)) as [-> ->].
  { unfold half_swapped. split; [by rewrite drop_app_length' by (rewrite length_map, length_take; lia)|].
    by rewrite take_app_length' by (rewrite length_map, length_take; lia). }
  unfold btf_type_size in Hsz. apply bind_Some in Hsz as (kd & Hk & Hsz). apply bind_Some in Hsz as (v & Hv & Hsz). injection Hsz as Hsz.
  unfold btf_bswap_type_rest. rewrite Hk. cbn [mbind option_bind]. rewrite Hv. cbn [mbind option_bind].
  pose proof (type_size_rest kd v (kind_range _ _ Hk) (proj1 (vlen_range _ _ Hv))) as Hr. destruct (rest_words kd v) as [m|]; [|lia].
  destruct Hr as [Hr Hm]. assert (m = Z.of_nat n) as -> by lia. unfold btf_bswap_type_base, swap_words at 1.
  destruct (Z.leb_spec (Z.of_nat n) (Z.of_nat (length (drop 3 (drop k ws))))) as [_|Hn]; [|rewrite !length_drop in Hn; lia].
  rewrite Nat2Z.id. eexists _, _. split; [done|]. unfold swap_words. change (Z.to_nat 3) with 3%nat.
  destruct (Z.leb_spec 3 (Z.of_nat (length (take 3 (drop k ws) ++ map bswap_32 (take n (drop 3 (drop k ws))) ++ drop n (drop 3 (drop k ws))))))
    as [_|Hl]; [|rewrite length_app, length_take, length_drop in Hl; lia]. split; [done|].
  rewrite take_app_length', drop_app_length' by (rewrite length_take, length_drop; lia). unfold half_swapped.
  rewrite !drop_drop. rewrite (app_assoc (map bswap_32 (take 3 _))), <- map_app, app_assoc, <- map_app.
  replace (k + (3 + n))%nat with (k + 3 + n)%nat by lia. f_equal. f_equal.
  rewrite <- Nat.add_assoc, <- (take_take_drop ws k (3 + n)), <- (take_take_drop (drop k ws) 3 n), drop_drop. done.
Qed.

Lemma swap_types_spec ws next offs e k : laid_out ws next offs e -> next = 4 * Z.of_nat k -> e = 4 * Z.of_nat (length ws) ->
  swap_types offs (half_swapped ws k) = Some (Some (map bswap_32 ws)).
Proof.
  revert next k. induction offs as [|off offs IH]; intros next k Hl Hn He; cbn [swap_types].
  - cbn in Hl. assert (k = length ws) as -> by lia. unfold half_swapped. rewrite take_ge, drop_ge, app_nil_r by lia. done.
  - destruct Hl as (-> & sz & Hsz & Hge & Hm & Hle & Hl). assert (Z.to_nat (next / 4) = k) as Ek by (rewrite Hn; Z.to_euclidean_division_equations; lia).
    rewrite Ek in *. destruct (swap_one ws k sz (Z.to_nat (sz / 4 - 3))) as (t & t' & -> & Ht' & Hj); [Z.to_euclidean_division_equations; lia|done|Z.to_euclidean_division_equations; lia|].
    cbn [mbind option_bind Z.eqb negb]. rewrite Ht'. cbn [mbind option_bind]. rewrite Hj. apply (IH (next + sz)); auto. Z.to_euclidean_division_equations; lia.
Qed.

(** ** Parsing what was laid out *)
Lemma parse_laid b alloc native end_type : Forall word_ok native -> Z.of_nat (length native) = end_type / 4 -> (forall i, alloc i = true) ->
  forall new fuel k offs, laid_out native (4 * Z.of_nat k) new end_type -> (length new < fuel)%nat ->
  parse_type_loop fuel alloc b (stored b native k) end_type (4 * Z.of_nat k) offs = Some (0, native, offs ++ new).
Proof.
  intros Hok Hlen Hal. induction new as [|off new IH]; intros fuel k offs Hl Hf; (destruct fuel as [|fuel]; [simpl in Hf; lia|]).
  - cbn in Hl. cbn [parse_type_loop]. destruct (Z.leb_spec (4 * Z.of_nat k + 12) end_type); [lia|]. rewrite Hl, Z.eqb_refl. cbn [negb].
    rewrite app_nil_r. unfold stored. rewrite take_ge, drop_ge by (apply Nat2Z.inj_le; rewrite Hlen; Z.to_euclidean_division_equations; lia).
    destruct b; by rewrite app_nil_r.
  - destruct Hl as (-> & sz & Hsz & Hge & Hm & Hle & Hl). rewrite (Z.mul_comm 4), Z.div_mul, Nat2Z.id in Hsz by lia.
    destruct (parse_step b fuel alloc native end_type k offs Hok Hlen ltac:(lia)) as [-> _].
    assert (k + 3 <= length native)%nat as Hk3 by (apply Nat2Z.inj_le; rewrite Hlen, Nat2Z.inj_add; apply Z.div_le_lower_bound; lia).
    rewrite (next_size_type native k Hk3) in Hsz. injection Hsz as ->. destruct (Z.ltb_spec sz 0); [lia|].
    destruct (Z.gtb_spec (4 * Z.of_nat k + sz) end_type); [lia|]. rewrite Hal. cbn [negb].
    assert (4 * Z.of_nat k + sz = 4 * Z.of_nat (k + Z.to_nat (sz / 4))) as Hnext by (Z.to_euclidean_division_equations; lia).
    rewrite Hnext in *. rewrite (IH fuel); [by rewrite <- app_assoc|done|simpl in Hf; lia].
Qed.

(** ** The object a block denotes *)
Lemma idx_cap_bound n : Z.of_nat n < 2 ^ 30 -> Z.of_nat n <= idx_cap n < 2 ^ 31.
Proof.
  induction n as [|n IH]; intros Hn; cbn [idx_cap]; [lia|]. specialize (IH ltac:(lia)). destruct (Z.leb_spec (Z.of_nat n + 1) (idx_cap n)); [lia|].
  unfold add_mem_cnt, BTF_MAX_NR_TYPES. rewrite !(wrap_small 64) by (Z.to_euclidean_division_equations; lia). rewrite Z.gtb_ltb. repeat bcase; Z.to_euclidean_division_equations; lia.
Qed.

(** The object without unused capacity. *)
Definition packed (o : btf_obj) : btf_obj :=
  new_obj (hdr o) (take (Z.to_nat (h_type_len o / 4)) (o_types o)) (own_offs o) (o_start_id o) (o_start_str_off o)
    (take (Z.to_nat (h_str_len o)) (btf_strs_data o)).

(** The string data of an object: terminated, and below the limit. *)
Lemma strs_terminated o : obj_wf o -> terminated (btf_strs_data o) (h_str_len o) /\ 0 <= h_str_len o < 2 ^ 31.
Proof.
  intros Hw. pose proof (ow_strs _ Hw) as Hst. unfold btf_strs_data. destruct (o_strs o) as [data|set].
  - destruct Hst as (_ & Hl & Ht & ?). split; [done|]. lia.
  - destruct Hst as (_ & _ & Hset & <- & _). pose proof (set_terminated _ Hset) as Ht. split; [done|]. destruct Ht as [? _]. pose proof (set_cap _ Hset).
    pose proof (set_max _ Hset). lia.
Qed.

Lemma types_fit o : obj_wf o -> h_type_len o / 4 <= Z.of_nat (length (o_types o)).
Proof.
  intros Hw. pose proof (ow_strs _ Hw) as Hst. destruct (o_strs o); [lia|]. destruct Hst as (? & ? & _). Z.to_euclidean_division_equations; lia.
Qed.

Lemma packed_wf o : obj_wf o -> obj_wf (packed o) /\ obj_kept o (packed o).
Proof.
  intros Hw. destruct (strs_terminated o Hw) as [Ht Hs]. pose proof (types_fit o Hw) as Hfit. pose proof (own_length o Hw) as Hol.
  pose proof (own_nr_bound o Hw) as Hnb. pose proof (ow_len _ Hw) as Hl0. pose proof (ow_nr _ Hw) as Hnr.
  pose proof (idx_cap_bound (length (own_offs o)) ltac:(lia)) as Hcap.
  assert (0 <= h_type_len o / 4) as Hd by (apply Z.div_pos; lia).
  assert (own_offs (packed o) = own_offs o) as Hown.
  { unfold packed, new_obj, own_offs at 1. cbn [o_nr_types o_offs]. rewrite Nat2Z.id. by rewrite take_app_length. }
  assert (take (Z.to_nat (h_type_len o / 4)) (take (Z.to_nat (h_type_len o / 4)) (o_types o)) = take (Z.to_nat (h_type_len o / 4)) (o_types o)) as Htt
    by (rewrite take_take; f_equal; lia).
  assert (forall off, 0 <= off < h_str_len o -> str_at (take (Z.to_nat (h_str_len o)) (btf_strs_data o)) off = str_at (btf_strs_data o) off) as Hstr.
  { intros off Ho. apply (str_at_prefix _ _ (h_str_len o)); auto. rewrite take_take. f_equal. lia. }
  split.
  - split; try rewrite Hown; unfold packed, new_obj; cbn [o_types o_nr_types offs_cap o_offs o_start_id o_start_str_off o_strs types_cap];
      unfold h_type_len, h_str_len in *; cbn [hdr]; try apply Hw.
    + apply Forall_take, Hw.
    + lia.
    + rewrite length_app, length_replicate. lia.
    + eapply laid_ext; [apply (ow_laid _ Hw)|lia|done|done|exact Htt].
    + rewrite !length_take. destruct Ht as [Ht1 Ht2]. split_and!; [lia|lia| |lia]. split; [rewrite length_take; lia|].
      intros Hpos. rewrite lookup_take_lt by lia. by apply Ht2.
  - split; auto; done.
Qed.

(** What is written: header, types and strings, one after the other, in either byte order. *)
Lemma raw_data_spec o x swap : obj_wf o -> serial_ok (hdr o) -> 24 + h_type_len o + h_str_len o < 2 ^ 32 ->
  let ws := take (Z.to_nat (h_type_len o / 4)) (o_types o) in
  btf_get_raw_data true o x swap =
  Some (Some (take 24 (hdr_bytes x (if swap then btf_bswap_hdr (hdr o) else hdr o)) ++
    bytes_of (if swap then map bswap_32 ws else ws) ++ take (Z.to_nat (h_str_len o)) (btf_strs_data o))).
Proof.
  intros Hw (Hm & Hl & Ht & Hs & H1 & H2 & Hal) Hsz ws. unfold btf_get_raw_data. cbn [negb]. rewrite Hl.
  fold (h_type_len o) (h_str_len o). rewrite option_guard_True by done. cbn [mbind option_bind]. change (Z.to_nat 24) with 24%nat.
  fold ws. destruct swap; [|done]. fold (own_offs o). pose proof (types_fit o Hw) as Hfit.
  assert (ws = half_swapped ws 0) as Hws by (unfold half_swapped; by rewrite take_0, drop_0).
  rewrite Hws at 1. rewrite (swap_types_spec ws 0 (own_offs o) (h_type_len o) 0); [done| |done|].
  - eapply laid_ext; [apply (ow_laid _ Hw)|lia|done|done|]. unfold ws. by rewrite take_take, Nat.min_id.
  - unfold ws. rewrite length_take. unfold h_type_len, word_ok in *. Z.to_euclidean_division_equations; lia.
Qed.

Lemma take_hdr x h : take 24 (hdr_bytes x h) = hdr_bytes (HdrExtra (version x) (flags x) []) h.
Proof. unfold hdr_bytes. cbn [version flags hdr_tail]. rewrite !app_assoc. rewrite take_app_length' by (rewrite !length_app, !le_bytes_length; done). by rewrite app_nil_r. Qed.

(** The string section of an object passes the check. *)
Lemma str_sec_ok o (base : chain) : chain_wf (o :: base) -> o_start_str_off o = new_str_off base ->
  btf_parse_str_sec (negb (bool_decide (base = []))) (hdr o) (take (Z.to_nat (h_str_len o)) (btf_strs_data o)) = Some 0.
Proof.
  intros Hwf Hst. pose proof Hwf as (_ & Hw & _ & H0). apply Forall_cons in Hw as [Hw _]. destruct (strs_terminated o Hw) as [[Hlen Hlast] Hs].
  unfold btf_parse_str_sec. fold (h_str_len o). destruct (Z.eqb_spec (h_str_len o) 0) as [Hz|Hnz].
  - case_bool_decide as Hb; [|done]. subst base. cbn [new_str_off] in Hst. exfalso. cbn in H0. rewrite Hst in H0.
    change (strs_len (layer_of o)) with (h_str_len o) in H0. unfold h_str_len in *. rewrite Hz in H0. done.
  - rewrite andb_false_r. destruct (Z.gtb_spec (h_str_len o - 1) BTF_MAX_STR_OFFSET); [unfold BTF_MAX_STR_OFFSET in *; lia|].
    assert (zget (take (Z.to_nat (h_str_len o)) (btf_strs_data o)) (h_str_len o - 1) = Some 0) as ->.
    { apply zget_Some. split; [lia|]. rewrite lookup_take_lt by lia. apply Hlast. lia. }
    cbn [mbind option_bind Z.eqb negb]. destruct (zget_is_Some (take (Z.to_nat (h_str_len o)) (btf_strs_data o)) 0) as [first Hf]; [rewrite length_take; lia|].
    rewrite Hf. cbn [mbind option_bind]. case_bool_decide as Hb; [|done]. subst base. cbn [new_str_off] in Hst. cbn [negb andb].
    assert (first = 0) as ->; [|done]. apply zget_Some in Hf as [_ Hf]. rewrite lookup_take_lt in Hf by lia.
    cbn [view map btf__str_by_offset] in H0. change (start_str_off (layer_of o)) with (o_start_str_off o) in H0. rewrite Hst in H0.
    change (strs_len (layer_of o)) with (h_str_len o) in H0. cbn [Z.ltb Z.compare] in H0. change (0 - 0) with 0 in H0.
    destruct (Z.ltb_spec 0 (h_str_len o)); [|lia]. change (strs (layer_of o)) with (btf_strs_data o) in H0. injection H0 as H0.
    unfold str_at in H0. change (Z.to_nat 0) with 0%nat in *. rewrite drop_0 in H0. destruct (btf_strs_data o) as [|b l]; [done|]. cbn in *. injection Hf as ->.
    destruct (Z.eqb_spec first 0); [done|]. done.
Qed.

Lemma raw_spec o (base : chain) x swap : chain_wf (o :: base) -> serial_ok (hdr o) ->
  24 + h_type_len o + h_str_len o < 2 ^ 32 -> base_ids base = Some (o_start_id o) -> new_str_off base = o_start_str_off o ->
  exists bs, btf_get_raw_data true o x swap = Some (Some bs) /\
    btf_new all_ok bs base = (err ← btf_sanity_check (view (packed o :: base)); Some (if negb (err =? 0) then inl err else inr (packed o))).
Proof.
  intros Hwf Hser Hsz Hid Hso. pose proof Hwf as (_ & Hw & _). apply Forall_cons in Hw as [Hw _].
  destruct (strs_terminated o Hw) as [[Hsl _] Hs]. pose proof (types_fit o Hw) as Hfit. pose proof (ow_len _ Hw) as Hl0.
  rewrite (raw_data_spec o x swap Hw Hser Hsz). eexists. split; [done|]. rewrite take_hdr. set (x' := HdrExtra _ _ _).
  set (ws := take (Z.to_nat (h_type_len o / 4)) (o_types o)). set (h := if swap then btf_bswap_hdr (hdr o) else hdr o).
  set (ws' := if swap then map bswap_32 ws else ws). set (ss := take (Z.to_nat (h_str_len o)) (btf_strs_data o)).
  assert (0 <= h_type_len o / 4) as Hd by (apply Z.div_pos; lia).
  assert (length ws = Z.to_nat (h_type_len o / 4)) as Hwl by (unfold ws; rewrite length_take; lia).
  assert (length ws' = length ws) as Hwl' by (unfold ws'; destruct swap; by rewrite ?length_map).
  assert (length ss = Z.to_nat (h_str_len o)) as Hssl by (unfold ss; rewrite length_take; lia).
  pose proof Hser as (Hm & Hhl & Hto & Hst & H1 & H2 & Hal). fold (h_type_len o) in Hst, Hal.
  assert (Z.of_nat (length (hdr_bytes x' h ++ bytes_of ws' ++ ss)) = 24 + h_type_len o + h_str_len o) as Htot.
  { rewrite !length_app, hdr_bytes_length, bytes_of_length, Hwl', Hwl, Hssl. cbn [hdr_tail x' length]. Z.to_euclidean_division_equations; lia. }
  unfold btf_new. cbn [all_ok negb]. rewrite Hid. cbn [mbind option_bind]. rewrite Htot, read_hdr_bytes by (by apply serial_hdr_ok).
  unfold h. rewrite (parse_serial (hdr o) swap) by done. cbn [Z.eqb negb]. rewrite Hhl, Hto, Hst. fold (h_type_len o) (h_str_len o).
  assert (drop (Z.to_nat (24 + 0)) (hdr_bytes x' (if swap then btf_bswap_hdr (hdr o) else hdr o) ++ bytes_of ws' ++ ss) = bytes_of ws' ++ ss) as ->.
  { rewrite drop_app_length'; [done|]. rewrite hdr_bytes_length. done. }
  assert (drop (Z.to_nat (24 + h_type_len o)) (hdr_bytes x' (if swap then btf_bswap_hdr (hdr o) else hdr o) ++ bytes_of ws' ++ ss) = ss) as ->.
  { rewrite app_assoc. rewrite drop_app_length'; [done|]. rewrite length_app, hdr_bytes_length, bytes_of_length, Hwl', Hwl. cbn [hdr_tail x' length].
    Z.to_euclidean_division_equations; lia. }
  rewrite (take_ge ss) by lia. pose proof (str_sec_ok o base Hwf (eq_sym Hso)) as Hss. fold ss in Hss. rewrite Hss. cbn [mbind option_bind Z.eqb negb].
  assert (Forall word_ok ws) as Hwok by (apply Forall_take, Hw).
  replace (Z.to_nat (h_type_len o / 4)) with (length ws') by lia. rewrite words_of_bytes.
  2: { unfold ws'. destruct swap; [|done]. apply Forall_map. eapply Forall_impl; [exact Hwok|]. intros w Hww. by apply bswap_32_ok. }
  unfold btf_parse_type_sec. assert (ws' = stored swap ws 0) as -> by (unfold ws', stored; rewrite take_0, drop_0; by destruct swap).
  rewrite (parse_laid swap _ ws (h_type_len o) Hwok ltac:(lia) ltac:(done) (own_offs o) _ 0%nat []).
  - cbn [mbind option_bind Z.eqb negb app]. rewrite Hso. unfold packed. fold ws ss.
    destruct (btf_sanity_check _) as [err|]; [|done]. cbn [mbind option_bind]. by destruct (negb (err =? 0)).
  - eapply laid_ext; [apply (ow_laid _ Hw)|lia|done|done|]. unfold ws. by rewrite take_take, Nat.min_id.
  - pose proof (laid_count _ _ _ _ (ow_laid _ Hw)) as Hc. Z.to_euclidean_division_equations; lia.
Qed.

(** ** Objects that pass the checks can be described *)
Lemma slots_total b k i ws : (forall j w, ws !! j = Some w -> name_slot k (i + Z.of_nat j) = true -> valid_str b w) -> exists l, slots b k i ws = Some l.
Proof.
  revert i. induction ws as [|w ws IH]; intros i H; cbn [slots]; [eauto|].
  destruct (IH (i + 1)) as [l Hl]. { intros j w' Hj Hn. apply (H (S j) w' Hj). by replace (i + Z.of_nat (S j)) with (i + 1 + Z.of_nat j) by lia. }
  pose proof (H 0%nat w eq_refl) as H0. rewrite Z.add_0_r in H0. destruct (name_slot k i).
  - destruct (H0 eq_refl) as [s Hs]. rewrite Hs. cbn [mbind option_bind]. rewrite Hl. eexists. done.
  - cbn [mbind option_bind]. rewrite Hl. eexists. done.
Qed.

Lemma elem_word (t : list Z) j w : drop 3 t !! j = Some w -> word t (3 + Z.of_nat j) = Some w.
Proof. rewrite lookup_drop. intros H. apply zget_Some. split; [lia|]. rewrite <- H. f_equal. lia. Qed.

Lemma name_slot_index k n j : name_stride k = Some n -> 0 < n -> name_slot k j = true -> 0 <= j -> exists i, j = n * i /\ 0 <= i.
Proof.
  intros Hst Hn H Hj. unfold name_slot in H. rewrite Hst in H. apply Z.eqb_eq in H. exists (j / n).
  split; [|apply Z.div_pos; lia]. pose proof (Z.div_mod j n ltac:(lia)). lia.
Qed.

(** Names of elements are among what validation checks. *)
Lemma refs_names b (t : list Z) k v n j w : refs_valid b t -> btf_kind t = Some k -> btf_vlen t = Some v -> rest_words k v = Some n ->
  3 + n <= Z.of_nat (length t) -> (j < Z.to_nat n)%nat -> drop 3 t !! j = Some w -> name_slot k (Z.of_nat j) = true -> valid_str b w.
Proof.
  intros (_ & k' & Hk' & _ & _ & Hcomp & Henum & Henum64 & Hparam) Hk Hv Hn Hlen Hj Hw Hslot. unfold btf_type in *. rewrite Hk in Hk'. injection Hk' as <-.
  assert (forall i, 0 <= i < 3 + n -> exists x, word t i = Some x) as Hword by (intros i Hi; apply zget_is_Some; lia).
  apply elem_word in Hw.
  assert (exists m, name_stride k = Some m) as [m Hm] by (unfold name_slot in Hslot; destruct (name_stride k); eauto; done).
  assert (0 < m) as Hm0 by (unfold name_stride in Hm; repeat case_match; simplify_eq; lia).
  destruct (name_slot_index k m (Z.of_nat j) Hm Hm0 Hslot ltac:(lia)) as (i & Hij & Hi). rewrite Hij in Hw.
  unfold name_stride in Hm. destruct ((k =? BTF_KIND_ENUM) || (k =? BTF_KIND_FUNC_PROTO)) eqn:E1.
  - injection Hm as <-. apply orb_prop in E1 as [E|E]; apply Z.eqb_eq in E; subst k; injection Hn as <-; destruct (Hword (3 + 2 * i + 1) ltac:(lia)) as [y Hy].
    + apply (Henum v i (w, s32 y)); auto; [lia|]. unfold btf_enum_at. rewrite Hw. cbn [mbind option_bind]. by rewrite Hy.
    + apply (Hparam v i (w, y)); auto; [lia|]. unfold btf_param_at. rewrite Hw. cbn [mbind option_bind]. by rewrite Hy.
  - destruct ((k =? BTF_KIND_ENUM64) || (k =? BTF_KIND_STRUCT) || (k =? BTF_KIND_UNION)) eqn:E2; [|done]. injection Hm as <-.
    apply orb_prop in E2 as [E2|E]; [apply orb_prop in E2 as [E|E]|]; apply Z.eqb_eq in E; subst k; injection Hn as <-;
      destruct (Hword (3 + 3 * i + 1) ltac:(lia)) as [y Hy], (Hword (3 + 3 * i + 2) ltac:(lia)) as [z Hz].
    + apply (Henum64 v i (w, (z <<' 32) |' y)); auto; [lia|]. unfold btf_enum64_at. rewrite Hw. cbn [mbind option_bind]. rewrite Hy. cbn [mbind option_bind]. by rewrite Hz.
    + apply (Hcomp v i (BtfMember w y z)); auto; [lia|]. unfold btf_member_at. rewrite Hw. cbn [mbind option_bind]. rewrite Hy. cbn [mbind option_bind]. by rewrite Hz.
    + apply (Hcomp v i (BtfMember w y z)); auto; [lia|]. unfold btf_member_at. rewrite Hw. cbn [mbind option_bind]. rewrite Hy. cbn [mbind option_bind]. by rewrite Hz.
Qed.

Lemma view_of_refs b (t : list Z) : refs_valid b t -> type_complete t -> (exists sz, btf_type_size t = Some sz /\ 12 <= sz) -> exists a, type_view b t = Some a.
Proof.
  intros Hr (sz & Hsz & Hlen) (sz' & Hsz' & Hge). unfold btf_type in *. rewrite Hsz in Hsz'. injection Hsz' as <-.
  unfold btf_type_size in Hsz. apply bind_Some in Hsz as (k & Hk & Hsz). apply bind_Some in Hsz as (v & Hv & Hsz). injection Hsz as Hsz.
  pose proof (type_size_rest k v (kind_range _ _ Hk) (proj1 (vlen_range _ _ Hv))) as Hrw. destruct (rest_words k v) as [n|] eqn:En; [|lia]. destruct Hrw as [Hrw Hn0].
  pose proof Hr as [(no & Hno & s & Hs) _]. destruct (zget_is_Some t 2 ltac:(lia)) as [val Hval].
  assert (exists i, info t = Some i) as [i Hi] by (unfold btf_kind in Hk; apply bind_Some in Hk as (i & ? & _); eauto).
  unfold type_view. rewrite Hk. cbn [mbind option_bind]. rewrite Hv. cbn [mbind option_bind]. unfold btf_kflag. rewrite Hi. cbn [mbind option_bind].
  rewrite En. cbn [mbind option_bind]. rewrite Hno. cbn [mbind option_bind]. rewrite Hs. cbn [mbind option_bind]. unfold size, word. rewrite Hval. cbn [mbind option_bind].
  rewrite option_guard_True by lia. cbn [mbind option_bind].
  destruct (slots_total b k 0 (take (Z.to_nat n) (drop 3 t))) as [l Hl].
  - intros j w Hj Hslot. assert (j < Z.to_nat n)%nat by (apply lookup_lt_Some in Hj; rewrite length_take in Hj; lia). rewrite lookup_take_lt in Hj by done.
    rewrite Z.add_0_l in Hslot. eapply refs_names; eauto. lia.
  - unfold btf_type in *. rewrite Hl. eexists. done.
Qed.

Lemma sanity_views o base : obj_wf o -> btf_sanity_check (view (o :: base)) = Some 0 -> exists a, obj_types (o :: base) = Some a.
Proof.
  intros Hw Hsc. pose proof (ow_start _ Hw) as [Hst _]. pose proof (ow_len _ Hw) as Hl0. pose proof (own_nr_bound _ Hw) as Hnb. pose proof (ow_nr _ Hw) as Hnr.
  unfold obj_types. cbn [head mbind option_bind]. apply mapM_is_Some, Forall_forall. intros id Hid%elem_of_seqZ.
  assert (exists off, zget (o_offs o) (id - o_start_id o) = Some off) as [off Hoff] by (apply zget_is_Some; destruct (ow_offs _ Hw); lia).
  assert (btf_type_by_id (view (o :: base)) id = Some (drop (Z.to_nat (off / 4)) (o_types o))) as Ht.
  { cbn [view map btf_type_by_id layer_of start_id type_offs types_data]. destruct (Z.eqb_spec id 0); [lia|]. destruct (Z.ltb_spec id (o_start_id o)); [lia|].
    by rewrite Hoff. }
  unfold compose. rewrite Ht. cbn [mbind option_bind].
  assert (refs_valid (view (o :: base)) (drop (Z.to_nat (off / 4)) (o_types o))) as Hr.
  { apply (sanity_check_ok (view (o :: base)) (layer_of o) eq_refl Hsc (o_start_id o + o_nr_types o) id); [|exact Hid|done].
    cbn. f_equal. apply wrap_small. lia. }
  assert (off ∈ own_offs o) as Hin.
  { apply zget_Some in Hoff as [_ Hoff]. apply list_elem_of_lookup. exists (Z.to_nat (id - o_start_id o)). unfold own_offs. rewrite lookup_take_lt by lia. done. }
  destruct (laid_in _ _ _ _ off (ow_laid _ Hw) ltac:(lia) eq_refl Hin) as (Ho0 & Hom & sz & Hsz & Hge & Hsm & Hle).
  destruct (view_of_refs (view (o :: base)) (drop (Z.to_nat (off / 4)) (o_types o)) Hr) as [a Ha]; [|eauto|eauto].
  exists sz. split; [done|]. pose proof (types_fit o Hw). rewrite length_drop. Z.to_euclidean_division_equations; lia.
Qed.

(** ** Objects that were loaded *)

(** The base objects that are supported: none, or one that has no base itself. *)
Definition base_ok (base : chain) : Prop :=
  match base with
  | [] => True
  | [b] => chain_wf [b] /\ o_start_str_off b = 0 /\ o_start_id b + o_nr_types b <= 2 ^ 30
  | _ => False
  end.

Lemma le_value_ok bs n : bytes_ok bs -> (n <= 4)%nat -> word_ok (le_value (take n bs)).
Proof.
  intros Hb Hn. pose proof (le_value_range (take n bs) (Forall_take _ _ _ Hb)) as H. rewrite length_take in H.
  assert (256 ^ Z.of_nat (n `min` length bs) <= 256 ^ 4) by (apply Z.pow_le_mono_r; lia). unfold word_ok. change (256 ^ 4) with (2 ^ 32) in *. lia.
Qed.

Lemma words_of_ok n bs : bytes_ok bs -> Forall word_ok (words_of n bs) /\ length (words_of n bs) = n.
Proof.
  revert bs. induction n as [|n IH]; intros bs Hb; [split; [constructor|done]|]. cbn [words_of length].
  destruct (IH (drop 4 bs) (Forall_drop _ _ _ Hb)) as [H1 H2]. split; [constructor; [by apply le_value_ok|done]|lia].
Qed.

Lemma read_hdr_ok bs : bytes_ok bs -> word_ok (hdr_len (read_hdr bs)) /\ word_ok (type_off (read_hdr bs)) /\ word_ok (type_len (read_hdr bs)) /\
  word_ok (str_off (read_hdr bs)) /\ word_ok (str_len (read_hdr bs)).
Proof. intros Hb. unfold read_hdr. cbn [hdr_len type_off type_len str_off str_len]. split_and!; apply le_value_ok; auto; by apply Forall_drop. Qed.

(** What [btf_parse_hdr] establishes. *)
Lemma parse_hdr_inv size h swapped h' : btf_parse_hdr size h = (0, swapped, h') ->
  word_ok (hdr_len h) /\ word_ok (type_off h) /\ word_ok (type_len h) /\ word_ok (str_off h) /\ word_ok (str_len h) ->
  0 <= hdr_len h' /\ 0 <= type_off h' /\ 0 <= type_len h' /\ 0 <= str_len h' /\
  hdr_len h' + str_off h' + str_len h' <= size /\ type_off h' + type_len h' <= str_off h'.
Proof.
  intros H (H1 & H2 & H3 & H4 & H5). unfold btf_parse_hdr in H. cbv zeta in H.
  assert (forall s g, (if size <? hdr_len g then (- EINVAL, s, g) else if size - hdr_len g <? str_off g + str_len g then (- EINVAL, s, g)
      else if type_off g + type_len g >? str_off g then (- EINVAL, s, g) else if negb (type_off g mod 4 =? 0) then (- EINVAL, s, g) else (0, s, g)) = (0, swapped, h') ->
    0 <= hdr_len g -> 0 <= type_off g -> 0 <= type_len g -> 0 <= str_len g ->
    0 <= hdr_len h' /\ 0 <= type_off h' /\ 0 <= type_len h' /\ 0 <= str_len h' /\ hdr_len h' + str_off h' + str_len h' <= size /\ type_off h' + type_len h' <= str_off h') as Hchk.
  { intros s g. repeat bcase; intros; simplify_eq; lia. }
  unfold word_ok in *. destruct (size <? 24); [done|]. destruct (magic h =? bswap_16 BTF_MAGIC).
  - destruct (negb (bswap_32 (hdr_len h) =? 24)); [done|]. apply Hchk in H; auto; cbn [btf_bswap_hdr hdr_len type_off type_len str_len]; by apply bswap_32_ok.
  - destruct (negb (magic h =? BTF_MAGIC)); [done|]. apply Hchk in H; auto; lia.
Qed.

Lemma str_sec_inv base h strs : btf_parse_str_sec base h strs = Some 0 -> 0 <= str_len h -> Z.of_nat (length strs) = str_len h ->
  terminated strs (str_len h) /\ (base = false -> 0 < str_len h /\ zget strs 0 = Some 0).
Proof.
  unfold btf_parse_str_sec. intros H H0 Hlen. destruct (base && (str_len h =? 0)) eqn:Eb.
  { apply andb_prop in Eb as [-> Ez]. apply Z.eqb_eq in Ez. split; [split; lia|done]. }
  destruct (Z.eqb_spec (str_len h) 0); [done|]. destruct (str_len h - 1 >? BTF_MAX_STR_OFFSET); [done|].
  apply bind_Some in H as (last & Hlast & H). destruct (Z.eqb_spec last 0) as [->|]; [|done]. cbn [negb] in H.
  apply bind_Some in H as (first & Hfirst & H). split.
  - split; [lia|]. intros _. by apply zget_Some in Hlast as [_ ?].
  - intros ->. cbn [negb andb] in H. split; [lia|]. destruct (Z.eqb_spec first 0) as [->|]; [done|]. done.
Qed.

Lemma type_sec_inv alloc swapped types len offs data : Forall word_ok types -> Z.of_nat (length types) = len / 4 -> 0 <= len ->
  btf_parse_type_sec alloc swapped types len = Some (0, data, offs) -> Forall word_ok data /\ length data = length types /\ laid_out data 0 offs len.
Proof.
  intros Hok Hlen H0 H. unfold btf_parse_type_sec in H. set (native := if swapped then map bswap_32 types else types).
  assert (Forall word_ok native) as Hn by (unfold native; destruct swapped; [apply Forall_map; eapply Forall_impl; [exact Hok|intros; by apply bswap_32_ok]|done]).
  assert (length native = length types) as Hnl by (unfold native; destruct swapped; by rewrite ?length_map).
  destruct (parse_loop_spec (S (Z.to_nat (len / 12))) alloc native len 0 [] Hn ltac:(by rewrite Hnl) H0) as (err & new & Hp); [simpl; lia|Z.to_euclidean_division_equations; lia|].
  destruct (Hp swapped) as (d & Hd & Hres). assert (stored swapped native 0 = types) as Hst.
  { unfold stored. rewrite take_0, drop_0. unfold native. destruct swapped; [|done]. by apply map_bswap_invol. }
  rewrite Hst in Hd. change (4 * Z.of_nat 0) with 0 in *. rewrite H in Hd. injection Hd as <- <- ->. destruct (Hres eq_refl) as [-> Hl]. done.
Qed.

Lemma c_str_first l : zget l 0 = Some 0 -> c_str l = [].
Proof. intros [_ H]%zget_Some. destruct l as [|x l]; [done|]. cbn in H. injection H as ->. done. Qed.

Lemma new_wf_spec al data base o : bytes_ok data -> Z.of_nat (length data) < 2 ^ 31 -> base_ok base -> btf_new al data base = Some (inr o) ->
  chain_wf (o :: base) /\ exists a, obj_types (o :: base) = Some a.
Proof.
  intros Hb Hsize Hbase H. unfold btf_new in H. destruct (negb (al [0])); [done|].
  apply bind_Some in H as (sid & Hsid & H). destruct (negb (al [1])); [done|].
  destruct (btf_parse_hdr _ _) as [[err swapped] h] eqn:Eh. destruct (Z.eqb_spec err 0) as [->|]; [|done]. cbn [negb] in H.
  destruct (parse_hdr_inv _ _ _ _ Eh (read_hdr_ok _ Hb)) as (Hh0 & Hto & Htl & Hsl & Htot & Hlay).
  apply bind_Some in H as (err & Hss & H). destruct (Z.eqb_spec err 0) as [->|]; [|done]. cbn [negb] in H.
  set (sd := take (Z.to_nat (str_len h)) _) in *. set (types := words_of _ _) in *.
  assert (Z.of_nat (length sd) = str_len h) as Hstl by (unfold sd; rewrite length_take, length_drop; lia).
  destruct (str_sec_inv _ _ _ Hss Hsl Hstl) as [Hterm Hfirst].
  destruct (words_of_ok (Z.to_nat (type_len h / 4)) (drop (Z.to_nat (hdr_len h + type_off h)) data) (Forall_drop _ _ _ Hb)) as [Htok Htlen]. fold types in Htok, Htlen.
  apply bind_Some in H as ([[err types'] offs] & Hts & H). destruct (Z.eqb_spec err 0) as [->|]; [|done]. cbn [negb] in H.
  assert (0 <= type_len h / 4) as Hd4 by (apply Z.div_pos; lia).
  destruct (type_sec_inv _ swapped types (type_len h) offs types' Htok ltac:(lia) ltac:(lia) Hts) as (Hok' & Hlen' & Hlaid).
  pose proof (laid_count _ _ _ _ Hlaid) as Hcnt. pose proof (idx_cap_bound (length offs) ltac:(lia)) as Hcap.
  set (o' := new_obj _ _ _ _ _ _) in *. apply bind_Some in H as (err & Hsan & H). destruct (Z.eqb_spec err 0) as [->|]; [|done]. injection H as <-.
  assert (1 <= sid <= 2 ^ 30 /\ 0 <= new_str_off base < 2 ^ 31) as [Hid Hso].
  { destruct base as [|b [|? ?]]; [injection Hsid as <-; cbn; lia| |done]. destruct Hbase as (Hbw & Hb0 & Hbid). destruct Hbw as (_ & Hw & _). apply Forall_cons in Hw as [Hw _].
    pose proof (ow_start _ Hw) as [? _]. pose proof (ow_nr _ Hw). destruct (strs_terminated b Hw) as [_ Hbs].
    cbn [base_ids btf__type_cnt view map head mbind option_bind] in Hsid. injection Hsid as <-. change (start_id (layer_of b)) with (o_start_id b). change (nr_types (layer_of b)) with (o_nr_types b).
    rewrite wrap_small, swrap_small by lia. cbn [new_str_off]. rewrite swrap_small by lia. lia. }
  assert (obj_wf o') as Hw'.
  { split; unfold o', new_obj, own_offs, h_type_len, h_str_len; cbn [hdr o_types types_cap o_offs offs_cap o_nr_types o_start_id o_start_str_off o_strs]; try done; try lia.
    - rewrite length_app, length_replicate. lia.
    - by rewrite Nat2Z.id, take_app_length.
    - split_and!; auto; lia. }
  split; [|by apply sanity_views].
  assert (o_start_str_off o' = new_str_off base) as Hoso by done. assert (h_str_len o' = str_len h /\ btf_strs_data o' = sd) as [Ehs Ebs] by done.
  destruct base as [|b [|? ?]]; [| |done].
  - split; [done|]. split; [by constructor|]. split; [done|]. destruct (Hfirst eq_refl) as [Hpos Hz].
    cbn [view map btf__str_by_offset]. change (start_str_off (layer_of o')) with 0. change (strs_len (layer_of o')) with (str_len h). change (Btf.strs (layer_of o')) with sd.
    cbn [Z.ltb Z.compare]. change (0 - 0) with 0. destruct (Z.ltb_spec 0 (str_len h)); [|lia]. do 2 f_equal. unfold str_at. change (Z.to_nat 0) with 0%nat. rewrite drop_0.
    by apply c_str_first.
  - destruct Hbase as (Hbw & Hb0 & _). pose proof Hbw as (_ & Hw & _ & Hb1). apply Forall_cons in Hw as [Hw _]. destruct (strs_terminated b Hw) as [_ Hbs].
    assert (new_str_off [b] = h_str_len b) as Enew by (cbn; apply swrap_small; lia).
    split; [done|]. split; [constructor; [done|constructor; [done|constructor]]|]. split; [cbn [linked]; split; [rewrite Hoso, Enew; lia|done]|].
    assert (0 < h_str_len b) as Hpos.
    { cbn [view map btf__str_by_offset] in Hb1. change (start_str_off (layer_of b)) with (o_start_str_off b) in Hb1. rewrite Hb0 in Hb1.
      change (strs_len (layer_of b)) with (h_str_len b) in Hb1. cbn [Z.ltb Z.compare] in Hb1. destruct (Z.ltb_spec (0 - 0) (h_str_len b)); [lia|done]. }
    rewrite str_in_base; [done|]. rewrite Hoso, Enew. lia.
Qed.

Lemma new_empty_spec al base : base = [] \/ chain_wf base ->
  (forall b, head base = Some b -> o_start_id b + o_nr_types b <= 2 ^ 30 /\ o_start_str_off b + h_str_len b < 2 ^ 31) ->
  exists r, btf_new_empty al base = Some r /\
    match r with inl e => e = - ENOMEM /\ alloc_fails al | inr o => chain_wf (o :: base) /\ obj_types (o :: base) = Some [] end.
Proof.
  intros Hbase Hb. unfold btf_new_empty. destruct (al [0]) eqn:E0; cbn [negb]; [|eexists; split; [done|]; split; [done|by exists [0]]].
  destruct base as [|b base].
  - cbn [base_ids mbind option_bind]. destruct (al [1]) eqn:E1; cbn [negb]; [|eexists; split; [done|]; split; [done|by exists [1]]].
    eexists. split; [done|]. rewrite decide_True by done. cbn. split; [exact empty_wf|done].
  - destruct Hbase as [?|Hwf]; [done|]. destruct (Hb b eq_refl) as [Hid Hso]. pose proof Hwf as (_ & Hw & Hl & H0). pose proof Hw as Hws. apply Forall_cons in Hw as [Hw _].
    pose proof (ow_start _ Hw) as [Hs1 Hs2]. pose proof (ow_nr _ Hw) as Hnr. destruct (strs_terminated b Hw) as [_ Hbs].
    cbn [base_ids btf__type_cnt view map head mbind option_bind].
    change (start_id (layer_of b)) with (o_start_id b). change (nr_types (layer_of b)) with (o_nr_types b). cbn [empty_str_off].
    destruct (al [1]) eqn:E1; cbn [negb]; [|eexists; split; [done|]; split; [done|by exists [1]]].
    rewrite decide_False by done. eexists. split; [done|]. rewrite !wrap_small, !swrap_small by lia. split; [|done].
    split; [done|]. split; [|split; [|]].
    + constructor; [|done]. split; cbn [o_types o_nr_types offs_cap o_offs o_start_id o_start_str_off o_strs types_cap]; try done; lia.
    + cbn [linked]. split; [cbn [o_start_str_off]; lia|exact Hl].
    + destruct (decide (0 < h_str_len b + o_start_str_off b)) as [Hp|Hp]; [rewrite str_in_base; [done|cbn [o_start_str_off]; lia]|].
      exfalso. cbn [view map btf__str_by_offset] in H0. change (start_str_off (layer_of b)) with (o_start_str_off b) in H0.
      change (strs_len (layer_of b)) with (h_str_len b) in H0. destruct (Z.ltb_spec 0 (o_start_str_off b)); [lia|].
      destruct (Z.ltb_spec (0 - o_start_str_off b) (h_str_len b)); [lia|done].
Qed.

(** ** Properties *)

(** C19. Writing a well-formed object and parsing the result gives the object back, if its
    header puts the strings right behind the types ([serial_ok]; not so for an object loaded
    from a block with a gap, see [gap_unreadable]), the three parts have less than 4 GiB, and
    the object starts where [btf_new] starts over that base: at the next type id and at the size
    of the base's own strings (not so over a split base, see [split_twice_unreadable]).  Header,
    types and strings are laid out one after the other, in the native or the opposite byte
    order, and [btf_new] over the same base returns the object without its unused capacity, with
    the same types and the same strings, provided it passes the sanity check. *)
Theorem raw_roundtrip o (base : chain) a x swap : chain_wf (o :: base) -> obj_types (o :: base) = Some a -> serial_ok (hdr o) ->
  24 + h_type_len o + h_str_len o < 2 ^ 32 -> base_ids base = Some (o_start_id o) -> new_str_off base = o_start_str_off o ->
  exists bs, btf_get_raw_data true o x swap = Some (Some bs) /\
    btf_new all_ok bs base = (err ← btf_sanity_check (view (packed o :: base)); Some (if negb (err =? 0) then inl err else inr (packed o))) /\
    obj_types (packed o :: base) = Some a /\
    forall off s, btf__str_by_offset (view (o :: base)) off = Some (Some s) -> btf__str_by_offset (view (packed o :: base)) off = Some (Some s).
Proof.
  intros Hwf Ha Hser Hsz Hid Hso. destruct (raw_spec o base x swap Hwf Hser Hsz Hid Hso) as (bs & Hbs & Hnew). exists bs. split; [done|]. split; [done|].
  pose proof Hwf as (_ & Hw & _). apply Forall_cons in Hw as [Hw _]. destruct (packed_wf o Hw) as [Hpw Hpk].
  assert (chain_kept (o :: base) (packed o :: base)) as Hck by (constructor; [done|apply chain_kept_refl]).
  split; [|by apply kept_strs]. apply (kept_types (o :: base) _ a Hwf); [|done|done]. eapply inv_head; eauto using wf_inv.
Qed.

(** C18. Whatever bytes are loaded (less than 2^31 of them), without a base or over a
    well-formed base that has no base itself and whose ids stay below 2^30 (over a split base
    the string offset is wrong, see [split_twice_unreadable]), an object that [btf_new] returns
    is well formed: its index
    lists the types of its type data, which lie inside it one after the other, its strings are
    terminated, every name of a type or element is a string, and so the functions that query
    and extend BTF objects apply to it. *)
Theorem new_well_formed al data base o : bytes_ok data -> Z.of_nat (length data) < 2 ^ 31 -> base_ok base -> btf_new al data base = Some (inr o) ->
  chain_wf (o :: base) /\ exists a, obj_types (o :: base) = Some a.
Proof. apply new_wf_spec. Qed.

(** [btf_new_empty] gives a well-formed object without types, over any base, and fails only
    for want of memory. *)
Theorem new_empty_well_formed al base : base = [] \/ chain_wf base ->
  (forall b, head base = Some b -> o_start_id b + o_nr_types b <= 2 ^ 30 /\ o_start_str_off b + h_str_len b < 2 ^ 31) ->
  exists r, btf_new_empty al base = Some r /\
    match r with inl e => e = - ENOMEM /\ alloc_fails al | inr o => chain_wf (o :: base) /\ obj_types (o :: base) = Some [] end.
Proof. apply new_empty_spec. Qed.

(** ** Examples *)
Definition plain : hdr_extra := HdrExtra 1 0 [].

(** Build an object over a base, or write an object and parse it over its base. *)
Definition make (base : chain) (ops : list op) : option chain :=
  r ← btf_new_empty all_ok base;
  match r with inl _ => None | inr o => '(_, c) ← run_ops all_ok (o :: base) ops; Some c end.
Definition reread (c : chain) : option (Z + btf_obj) :=
  o ← head c; r ← btf_get_raw_data true o plain false; bs ← r; btf_new all_ok bs (tail c).

Definition abc_base : option chain := make [] [AddInt (Some [97; 98; 99]) 4 0].
Definition abc_split : option chain := (c ← abc_base; make c [AddInt (Some [100; 101; 102; 103]) 4 0]).

(** A split object over a base that is itself split cannot be read back: [btf_new] takes the
    string offset of the object to be the size of the base's own strings, [btf_new_empty] the
    size of all strings below it. *)
Theorem split_twice_unreadable : exists c, (c2 ← abc_split; make c2 [AddStruct (Some [104; 105]) 4]) = Some c /\
  obj_types c = Some [AType BTF_KIND_STRUCT 0 false [104; 105] 4 []] /\ reread c = Some (inl (- EINVAL)).
Proof. eexists. split; [vm_compute; reflexivity|]. split; vm_compute; reflexivity. Qed.

(** A block with four bytes between the header and the type section. *)
Definition gap_block : list Z :=
  hdr_bytes plain (BtfHeader BTF_MAGIC 24 4 12 16 1) ++ [9; 9; 9; 9] ++ bytes_of [0; btf_type_info BTF_KIND_PTR 0 false; 0] ++ [0].

(** An object loaded from a block with a gap between its sections cannot be written any
    more once it is modified: the sections are written one after the other, but the header
    keeps the offsets it was loaded with. *)
Theorem gap_unreadable : exists o c r, btf_new all_ok gap_block [] = Some (inr o) /\ run_op all_ok [o] (AddInt (Some [97]) 4 0) = Some (r, c) /\
  r = 2 /\ reread c = Some (inl (- EINVAL)).
Proof. eexists _, _, _. split; [vm_compute; reflexivity|]. split; [vm_compute; reflexivity|]. split; [reflexivity|]. vm_compute. reflexivity. Qed.

Lemma raw_roundtrip_witness : exists bs, btf_get_raw_data true src_obj plain true = Some (Some bs) /\
    btf_new all_ok bs [] = (err ← btf_sanity_check (view [packed src_obj]); Some (if negb (err =? 0) then inl err else inr (packed src_obj))) /\
    obj_types [packed src_obj] = Some src_types /\
    forall off s, btf__str_by_offset (view [src_obj]) off = Some (Some s) -> btf__str_by_offset (view [packed src_obj]) off = Some (Some s).
Proof.
  apply (raw_roundtrip src_obj [] src_types plain true); [apply src_obj_wf|reflexivity| |vm_compute; reflexivity|reflexivity|reflexivity].
  unfold serial_ok, word_ok. simpl. split_and!; done || lia.
Defined.

Lemma new_well_formed_witness : exists o, btf_new all_ok gap_block [] = Some (inr o) /\ chain_wf [o].
Proof.
  eexists. split; [vm_compute; reflexivity|].
  apply (new_well_formed all_ok gap_block []); [|vm_compute; reflexivity|exact I|vm_compute; reflexivity].
  unfold bytes_ok. vm_compute. repeat constructor; discriminate.
Defined.

Lemma new_empty_well_formed_witness : exists r, btf_new_empty all_ok [empty_obj] = Some r /\
    match r with inl e => e = - ENOMEM /\ alloc_fails all_ok | inr o => chain_wf [o; empty_obj] /\ obj_types [o; empty_obj] = Some [] end.
Proof.
  apply (new_empty_well_formed all_ok [empty_obj]); [right; apply empty_wf|].
  intros b Hb. injection Hb as <-. split; vm_compute; [discriminate|reflexivity].
Defined.
