(* ===== verification/BtfDedup.v ===== *)
(** * Deduplication of BTF

    [btf__dedup] of src/libbpf/src/btf.c with its passes: strings, primitive types, structs and
    unions (by equivalence of type graphs), forward declarations, reference types, compaction and
    renumbering.  The state [btf_dedup] has the object over its base, the table of candidates (a
    hash map from the hash of a type to ids), the map of canonical types and the hypothetical map
    of the equivalence check with the list of its entries.  [hash_fn] is the hash function of the
    table: the identity, or the constant function when collisions are forced.

    The .BTF.ext section that can accompany the object is left out: [opts->btf_ext] is NULL.

    A hash is a 64-bit number; the code keeps it in a [long], and converts it back where the
    table uses it.  Loops over candidates run over the entries of the table for the hash, which
    the loops do not change.  Fuel: [resolve_type_id] visits no id twice, so the length of the map
    is enough; an equivalence check adds an entry to the hypothetical map at every level;
    [btf_dedup_identical_types] is 16 levels deep, with a chain of references at each;
    [btf_dedup_ref_type] marks an id at every level. *)
From stdpp Require Import base numbers list gmap sorting.
From S2P Require Import Prelude Hashmap Strset Btf BtfBuild BtfBuildSpec BtfIter BtfCopy.

Definition BTF_UNPROCESSED_ID := 2 ^ 32 - 1.
Definition BTF_IN_PROGRESS_ID := 2 ^ 32 - 2.
Definition ELOOP := 40.

Record btf_dedup := Dedup {
  d_btf : chain;
  dedup_table : hashmap;
  d_map : list Z;
  hypot_map : list Z;
  hypot_list : list Z;
  hypot_cap : Z;
  hypot_adjust_canon : bool
}.

Definition hypot_cnt (d : btf_dedup) : Z := Z.of_nat (length (hypot_list d)).
Definition with_btf (c : chain) (d : btf_dedup) : btf_dedup :=
  Dedup c (dedup_table d) (d_map d) (hypot_map d) (hypot_list d) (hypot_cap d) (hypot_adjust_canon d).
Definition with_table (t : hashmap) (d : btf_dedup) : btf_dedup :=
  Dedup (d_btf d) t (d_map d) (hypot_map d) (hypot_list d) (hypot_cap d) (hypot_adjust_canon d).
Definition with_map (m : list Z) (d : btf_dedup) : btf_dedup :=
  Dedup (d_btf d) (dedup_table d) m (hypot_map d) (hypot_list d) (hypot_cap d) (hypot_adjust_canon d).
Definition with_hypot (m l : list Z) (cap : Z) (adjust : bool) (d : btf_dedup) : btf_dedup :=
  Dedup (d_btf d) (dedup_table d) (d_map d) m l cap adjust.

(** The type with an id, and [d->map\[id\] = to]. *)
Definition dtype (d : btf_dedup) (id : Z) : option btf_type := btf_type_by_id (view (d_btf d)) id.
Definition set_map (d : btf_dedup) (id to_ : Z) : option btf_dedup := m ← zset (d_map d) id to_; Some (with_map m d).

(** ** Hashes *)
Definition hash_combine (h value : Z) : Z := u64 (h * 31 + value).

Definition btf_hash_common (t : btf_type) : option Z :=
  n ← name_off t; i ← info t; s ← size t;
  Some (hash_combine (hash_combine (hash_combine 0 n) i) s).

Definition btf_hash_int_decl_tag (t : btf_type) : option Z :=
  i ← word t 3; h ← btf_hash_common t; Some (hash_combine h i).

Definition btf_hash_enum (t : btf_type) : option Z := n ← name_off t; Some (hash_combine 0 n).

(** [for (i = 0; i < n; i++) h = f(i, h)]. *)
Fixpoint hash_loop (n : nat) (i : Z) (f : Z -> Z -> option Z) (h : Z) : option Z :=
  match n with
  | O => Some h
  | S n => h ← f i h; hash_loop n (i + 1) f h
  end.

Definition btf_hash_struct (t : btf_type) : option Z :=
  vlen ← btf_vlen t; h ← btf_hash_common t;
  hash_loop (Z.to_nat vlen) 0 (fun i h => m ← btf_member_at t i; Some (hash_combine (hash_combine h (m_name_off m)) (m_offset m))) h.

Definition btf_hash_array (t : btf_type) : option Z :=
  a ← array_of t; h ← btf_hash_common t;
  Some (hash_combine (hash_combine (hash_combine h (arr_type a)) (arr_index_type a)) (arr_nelems a)).

Definition btf_hash_fnproto (t : btf_type) : option Z :=
  vlen ← btf_vlen t; h ← btf_hash_common t;
  hash_loop (Z.to_nat vlen) 0 (fun i h => '(n, ty) ← btf_param_at t i; Some (hash_combine (hash_combine h n) ty)) h.

(** ** Comparisons *)

(** [for (i = 0; i < n; i++) if (!f(i)) return false; return true]. *)
Fixpoint all_loop (n : nat) (i : Z) (f : Z -> option bool) : option bool :=
  match n with
  | O => Some true
  | S n => b ← f i; if (b : bool) then all_loop n (i + 1) f else Some false
  end.

Definition btf_equal_common (t1 t2 : btf_type) : option bool :=
  n1 ← name_off t1; n2 ← name_off t2; i1 ← info t1; i2 ← info t2; s1 ← size t1; s2 ← size t2;
  Some ((n1 =? n2) && (i1 =? i2) && (s1 =? s2)).

Definition btf_equal_int_tag (t1 t2 : btf_type) : option bool :=
  eq_ ← btf_equal_common t1 t2;
  if negb eq_ then Some false else i1 ← word t1 3; i2 ← word t2 3; Some (i1 =? i2).

Definition btf_equal_enum_members (t1 t2 : btf_type) : option bool :=
  vlen ← btf_vlen t1;
  all_loop (Z.to_nat vlen) 0 (fun i =>
    n1 ← word t1 (3 + 2 * i); n2 ← word t2 (3 + 2 * i); v1 ← word t1 (3 + 2 * i + 1); v2 ← word t2 (3 + 2 * i + 1);
    Some ((n1 =? n2) && (v1 =? v2))).

Definition btf_equal_enum64_members (t1 t2 : btf_type) : option bool :=
  vlen ← btf_vlen t1;
  all_loop (Z.to_nat vlen) 0 (fun i =>
    n1 ← word t1 (3 + 3 * i); n2 ← word t2 (3 + 3 * i); l1 ← word t1 (3 + 3 * i + 1); l2 ← word t2 (3 + 3 * i + 1);
    h1 ← word t1 (3 + 3 * i + 2); h2 ← word t2 (3 + 3 * i + 2); Some ((n1 =? n2) && (l1 =? l2) && (h1 =? h2))).

Definition btf_equal_enum (t1 t2 : btf_type) : option bool :=
  eq_ ← btf_equal_common t1 t2;
  if negb eq_ then Some false
  else k ← btf_kind t1; if k =? BTF_KIND_ENUM then btf_equal_enum_members t1 t2 else btf_equal_enum64_members t1 t2.

Definition btf_is_enum_fwd (t : btf_type) : option bool :=
  k ← btf_kind t; v ← btf_vlen t; Some (kind_is_any_enum k && (v =? 0)).

Definition btf_compat_enum (t1 t2 : btf_type) : option bool :=
  f1 ← btf_is_enum_fwd t1; f2 ← btf_is_enum_fwd t2;
  if negb f1 && negb f2 then btf_equal_enum t1 t2
  else
    n1 ← name_off t1; n2 ← name_off t2; k1 ← btf_kind t1; k2 ← btf_kind t2;
    Some ((n1 =? n2) && kind_is_any_enum k1 && kind_is_any_enum k2).

Definition btf_shallow_equal_struct (t1 t2 : btf_type) : option bool :=
  eq_ ← btf_equal_common t1 t2;
  if negb eq_ then Some false
  else
    vlen ← btf_vlen t1;
    all_loop (Z.to_nat vlen) 0 (fun i => m1 ← btf_member_at t1 i; m2 ← btf_member_at t2 i;
      Some ((m_name_off m1 =? m_name_off m2) && (m_offset m1 =? m_offset m2))).

Definition btf_equal_array (t1 t2 : btf_type) : option bool :=
  eq_ ← btf_equal_common t1 t2;
  if negb eq_ then Some false
  else
    a1 ← array_of t1; a2 ← array_of t2;
    Some ((arr_type a1 =? arr_type a2) && (arr_index_type a1 =? arr_index_type a2) && (arr_nelems a1 =? arr_nelems a2)).

Definition btf_compat_array (t1 t2 : btf_type) : option bool :=
  eq_ ← btf_equal_common t1 t2;
  if negb eq_ then Some false else a1 ← array_of t1; a2 ← array_of t2; Some (arr_nelems a1 =? arr_nelems a2).

Definition btf_equal_fnproto (t1 t2 : btf_type) : option bool :=
  eq_ ← btf_equal_common t1 t2;
  if negb eq_ then Some false
  else
    vlen ← btf_vlen t1;
    all_loop (Z.to_nat vlen) 0 (fun i => '(n1, ty1) ← btf_param_at t1 i; '(n2, ty2) ← btf_param_at t2 i; Some ((n1 =? n2) && (ty1 =? ty2))).

Definition btf_compat_fnproto (t1 t2 : btf_type) : option bool :=
  n1 ← name_off t1; n2 ← name_off t2; i1 ← info t1; i2 ← info t2;
  if negb (n1 =? n2) || negb (i1 =? i2) then Some false
  else
    vlen ← btf_vlen t1;
    all_loop (Z.to_nat vlen) 0 (fun i => '(n1, _) ← btf_param_at t1 i; '(n2, _) ← btf_param_at t2 i; Some (n1 =? n2)).

(** ** The table of candidates *)
Definition btf_dedup_collision_hash_fn (key : Z) : Z := 0.

#[export] Instance collision_HashKey : HashKey btf_dedup_collision_hash_fn btf_dedup_equal_fn.
Proof.
  split; unfold btf_dedup_equal_fn; intros *; [apply Z.eqb_refl|apply Z.eqb_sym|rewrite !Z.eqb_eq; congruence|done].
Qed.

Section Dedup.
Context (hash_fn : Z -> Z).

Definition btf_dedup_table_add (al : oracle) (d : btf_dedup) (hash type_id : Z) : option (Z * btf_dedup) :=
  '(err, t, _, _) ← hashmap_insert hash_fn btf_dedup_equal_fn (al [0]) (al [1]) (dedup_table d) hash type_id HASHMAP_APPEND;
  Some (err, with_table t d).

Definition candidates (d : btf_dedup) (hash : Z) : option (list Z) :=
  es ← key_entries hash_fn btf_dedup_equal_fn (dedup_table d) hash; Some (map value es).

(** The first candidate that [same] accepts. *)
Fixpoint find_cand (d : btf_dedup) (same : btf_type -> option bool) (cands : list Z) : option (option Z) :=
  match cands with
  | [] => Some None
  | cand_id :: cands =>
    cand ← dtype d cand_id;
    b ← same cand;
    if (b : bool) then Some (Some cand_id) else find_cand d same cands
  end.

(** The end of the functions that choose a canonical type. *)
Definition finish_type (al : oracle) (d : btf_dedup) (h type_id new_id : Z) : option (Z * btf_dedup) :=
  d ← set_map d type_id new_id;
  if type_id =? new_id then
    '(err, d) ← btf_dedup_table_add al d h type_id;
    Some (if negb (err =? 0) then - ENOMEM else 0, d)
  else Some (0, d).

(** ** Preparation *)

(** The loop that fills [d->map]. *)
Fixpoint new_map_loop (n : nat) (c : chain) (i : Z) : option (list Z) :=
  match n with
  | O => Some []
  | S n =>
    t ← btf_type_by_id (view c) i;
    k ← btf_kind t;
    l ← new_map_loop n c (i + 1);
    Some ((if (k =? BTF_KIND_VAR) || (k =? BTF_KIND_DATASEC) then i else BTF_UNPROCESSED_ID) :: l)
  end.

Definition btf_dedup_new (al : oracle) (c : chain) : option (Z + btf_dedup) :=
  if negb (al [0]) then Some (inl (- ENOMEM))
  else if negb (al [1]) then Some (inl (- ENOMEM))
  else
    type_cnt ← btf__type_cnt (view c);
    if negb (al [2]) then Some (inl (- ENOMEM))
    else
      m ← new_map_loop (Z.to_nat (type_cnt - 1)) c 1;
      if negb (al [3]) then Some (inl (- ENOMEM))
      else Some (inr (Dedup c hashmap__init (0 :: m) (replicate (Z.to_nat type_cnt) BTF_UNPROCESSED_ID) [] 0 false)).

(** The hash of a type of the base; [None] for VAR and DATASEC, -EINVAL for an unknown kind. *)
Definition prep_hash (t : btf_type) : option (Z + option Z) :=
  k ← btf_kind t;
  if (k =? BTF_KIND_VAR) || (k =? BTF_KIND_DATASEC) then Some (inr None)
  else if (k =? BTF_KIND_CONST) || (k =? BTF_KIND_VOLATILE) || (k =? BTF_KIND_RESTRICT) || (k =? BTF_KIND_PTR) || (k =? BTF_KIND_FWD) ||
          (k =? BTF_KIND_TYPEDEF) || (k =? BTF_KIND_FUNC) || (k =? BTF_KIND_FLOAT) || (k =? BTF_KIND_TYPE_TAG)
  then h ← btf_hash_common t; Some (inr (Some h))
  else if (k =? BTF_KIND_INT) || (k =? BTF_KIND_DECL_TAG) then h ← btf_hash_int_decl_tag t; Some (inr (Some h))
  else if kind_is_any_enum k then h ← btf_hash_enum t; Some (inr (Some h))
  else if kind_is_composite k then h ← btf_hash_struct t; Some (inr (Some h))
  else if k =? BTF_KIND_ARRAY then h ← btf_hash_array t; Some (inr (Some h))
  else if k =? BTF_KIND_FUNC_PROTO then h ← btf_hash_fnproto t; Some (inr (Some h))
  else Some (inl (- EINVAL)).

Fixpoint prep_loop (n : nat) (al : oracle) (d : btf_dedup) (type_id : Z) : option (Z * btf_dedup) :=
  match n with
  | O => Some (0, d)
  | S n =>
    t ← dtype d type_id;
    d ← set_map d type_id type_id;
    h ← prep_hash t;
    match h with
    | inl err => Some (err, d)
    | inr None => prep_loop n al d (type_id + 1)
    | inr (Some h) =>
      '(err, d) ← btf_dedup_table_add (sub type_id al) d h type_id;
      if negb (err =? 0) then Some (- ENOMEM, d) else prep_loop n al d (type_id + 1)
    end
  end.

Definition btf_dedup_prep (al : oracle) (d : btf_dedup) : option (Z * btf_dedup) :=
  o ← head (d_btf d);
  match tail (d_btf d) with
  | [] => Some (0, d)
  | _ => prep_loop (Z.to_nat (o_start_id o - 1)) al d 1
  end.

(** ** Primitive types *)

(** The loop over the candidates of an enumeration: an enumeration that is only declared takes
    the first one of its name, a defined one becomes the target of declared candidates. *)
Fixpoint enum_cands (d : btf_dedup) (t : btf_type) (type_id : Z) (cands : list Z) : option (Z * btf_dedup) :=
  match cands with
  | [] => Some (type_id, d)
  | cand_id :: cands =>
    cand ← dtype d cand_id;
    same ← btf_equal_enum t cand;
    if (same : bool) then Some (cand_id, d)
    else
      compat ← btf_compat_enum t cand;
      if (compat : bool) then
        fwd ← btf_is_enum_fwd t;
        if (fwd : bool) then Some (cand_id, d)
        else d ← set_map d cand_id type_id; enum_cands d t type_id cands
      else enum_cands d t type_id cands
  end.

Definition btf_dedup_prim_type (al : oracle) (d : btf_dedup) (type_id : Z) : option (Z * btf_dedup) :=
  t ← dtype d type_id;
  k ← btf_kind t;
  if (k =? BTF_KIND_CONST) || (k =? BTF_KIND_VOLATILE) || (k =? BTF_KIND_RESTRICT) || (k =? BTF_KIND_PTR) || (k =? BTF_KIND_TYPEDEF) ||
     (k =? BTF_KIND_ARRAY) || (k =? BTF_KIND_STRUCT) || (k =? BTF_KIND_UNION) || (k =? BTF_KIND_FUNC) || (k =? BTF_KIND_FUNC_PROTO) ||
     (k =? BTF_KIND_VAR) || (k =? BTF_KIND_DATASEC) || (k =? BTF_KIND_DECL_TAG) || (k =? BTF_KIND_TYPE_TAG)
  then Some (0, d)
  else if k =? BTF_KIND_INT then
    h ← btf_hash_int_decl_tag t; cands ← candidates d h;
    r ← find_cand d (btf_equal_int_tag t) cands;
    finish_type al d h type_id (default type_id r)
  else if kind_is_any_enum k then
    h ← btf_hash_enum t; cands ← candidates d h;
    '(new_id, d) ← enum_cands d t type_id cands;
    finish_type al d h type_id new_id
  else if (k =? BTF_KIND_FWD) || (k =? BTF_KIND_FLOAT) then
    h ← btf_hash_common t; cands ← candidates d h;
    r ← find_cand d (btf_equal_common t) cands;
    finish_type al d h type_id (default type_id r)
  else Some (- EINVAL, d).

(** [for (i = 0; i < n; i++)] with a body that may fail with an error: the passes over the own
    types of the object.  The bodies return 0 or a negative error (and [btf_dedup_ref_type] an id),
    so [if (err)] of the first passes is [if (err < 0)] as well. *)
Fixpoint pass (n : nat) (i : Z) (f : Z -> btf_dedup -> option (Z * btf_dedup)) (d : btf_dedup) : option (Z * btf_dedup) :=
  match n with
  | O => Some (0, d)
  | S n => '(err, d) ← f i d; if err <? 0 then Some (err, d) else pass n (i + 1) f d
  end.
Definition own_types (d : btf_dedup) : option (nat * Z) := o ← head (d_btf d); Some (Z.to_nat (o_nr_types o), o_start_id o).

Definition btf_dedup_prim_types (al : oracle) (d : btf_dedup) : option (Z * btf_dedup) :=
  '(n, start) ← own_types d;
  pass n start (fun id d => btf_dedup_prim_type (sub id al) d id) d.

(** ** Canonical ids *)
Definition is_type_mapped (d : btf_dedup) (type_id : Z) : option bool := m ← zget (d_map d) type_id; Some (m <=? BTF_MAX_NR_TYPES).

Fixpoint resolve_loop (fuel : nat) (m : list Z) (type_id : Z) : option Z :=
  match fuel with
  | O => None
  | S fuel =>
    to_ ← zget m type_id;
    if (to_ <=? BTF_MAX_NR_TYPES) && negb (to_ =? type_id) then resolve_loop fuel m to_ else Some type_id
  end.
Definition resolve_type_id (d : btf_dedup) (type_id : Z) : option Z := resolve_loop (S (length (d_map d))) (d_map d) type_id.

(** [btf_is_fwd(btf__type_by_id(d->btf, id))]. *)
Definition id_is_fwd (d : btf_dedup) (id : Z) : option bool :=
  t ← btf__type_by_id (view (d_btf d)) id; t ← t; k ← btf_kind t; Some (k =? BTF_KIND_FWD).

Definition resolve_fwd_id (d : btf_dedup) (type_id : Z) : option Z :=
  fwd ← id_is_fwd d type_id;
  if negb fwd then Some type_id
  else
    id ← resolve_type_id d type_id;
    fwd ← id_is_fwd d id;
    Some (if negb fwd then id else type_id).

Definition btf_fwd_kind (t : btf_type) : option Z := f ← btf_kflag t; Some (if (f : bool) then BTF_KIND_UNION else BTF_KIND_STRUCT).

(** ** Equivalence of type graphs *)

(** A reference or a pointer: the kinds with one reference. *)
Definition chain_kind (k : Z) : bool :=
  (k =? BTF_KIND_CONST) || (k =? BTF_KIND_VOLATILE) || (k =? BTF_KIND_RESTRICT) || (k =? BTF_KIND_PTR) || (k =? BTF_KIND_TYPEDEF) ||
  (k =? BTF_KIND_FUNC) || (k =? BTF_KIND_TYPE_TAG).

Fixpoint btf_dedup_identical_types (fuel : nat) (b : btf) (id1 id2 depth : Z) : option bool :=
  match fuel with
  | O => None
  | S fuel =>
    if depth <=? 0 then Some false
    else
      let same x1 x2 := if x1 =? x2 then Some true else btf_dedup_identical_types fuel b x1 x2 (depth - 1) in
      t1 ← btf_type_by_id b id1; t2 ← btf_type_by_id b id2;
      k1 ← btf_kind t1; k2 ← btf_kind t2;
      if negb (k1 =? k2) then Some false
      else if k1 =? BTF_KIND_UNKN then Some true
      else if k1 =? BTF_KIND_INT then btf_equal_int_tag t1 t2
      else if kind_is_any_enum k1 then btf_compat_enum t1 t2
      else if (k1 =? BTF_KIND_FWD) || (k1 =? BTF_KIND_FLOAT) then btf_equal_common t1 t2
      else if chain_kind k1 then
        i1 ← info t1; i2 ← info t2; n1 ← name_off t1; n2 ← name_off t2;
        if negb (i1 =? i2) || negb (n1 =? n2) then Some false
        else id1 ← type t1; id2 ← type t2; btf_dedup_identical_types fuel b id1 id2 depth
      else if k1 =? BTF_KIND_ARRAY then
        c ← btf_compat_array t1 t2;
        if negb c then Some false
        else
          a1 ← array_of t1;
          a2 ← array_of t1;
          ok ← same (arr_index_type a1) (arr_index_type a2);
          if negb ok then Some false else same (arr_type a1) (arr_type a2)
      else if kind_is_composite k1 then
        c ← btf_shallow_equal_struct t1 t2;
        if negb c then Some false
        else
          n ← btf_vlen t1;
          all_loop (Z.to_nat n) 0 (fun i => m1 ← btf_member_at t1 i; m2 ← btf_member_at t2 i; same (m_type m1) (m_type m2))
      else if k1 =? BTF_KIND_FUNC_PROTO then
        c ← btf_compat_fnproto t1 t2;
        if negb c then Some false
        else
          r1 ← type t1; r2 ← type t2;
          ok ← same r1 r2;
          if negb ok then Some false
          else
            n ← btf_vlen t1;
            all_loop (Z.to_nat n) 0 (fun i => '(_, ty1) ← btf_param_at t1 i; '(_, ty2) ← btf_param_at t2 i; same ty1 ty2)
      else Some false
  end.

Definition identical_fuel (d : btf_dedup) : nat := 17 * S (length (d_map d)).

(** The allocation for the entry [hypot_cnt]; a list that is full grows by a half or 16. *)
Definition btf_dedup_hypot_map_add (al : oracle) (d : btf_dedup) (from_id to_id : Z) : option (Z * btf_dedup) :=
  let full := hypot_cnt d =? hypot_cap d in
  let cap := if full then hypot_cap d + Z.max 16 (hypot_cap d / 2) else hypot_cap d in
  if full && negb (al [hypot_cnt d]) then Some (- ENOMEM, with_hypot (hypot_map d) (hypot_list d) cap (hypot_adjust_canon d) d)
  else
    m ← zset (hypot_map d) from_id to_id;
    Some (0, with_hypot m (hypot_list d ++ [from_id]) cap (hypot_adjust_canon d) d).

Fixpoint clear_loop (l m : list Z) : option (list Z) :=
  match l with
  | [] => Some m
  | id :: l => m ← zset m id BTF_UNPROCESSED_ID; clear_loop l m
  end.
Definition btf_dedup_clear_hypot_map (d : btf_dedup) : option btf_dedup :=
  m ← clear_loop (hypot_list d) (hypot_map d);
  Some (with_hypot m [] (hypot_cap d) false d).

(** [for (i = 0; i < n; i++) { eq = f(i); if (eq <= 0) return eq; } return 1]. *)
Fixpoint equiv_loop (n : nat) (i : Z) (f : Z -> btf_dedup -> option (Z * btf_dedup)) (d : btf_dedup) : option (Z * btf_dedup) :=
  match n with
  | O => Some (1, d)
  | S n => '(eq_, d) ← f i d; if eq_ <=? 0 then Some (eq_, d) else equiv_loop n (i + 1) f d
  end.

Definition then_equiv (r : option (Z * btf_dedup)) (f : btf_dedup -> option (Z * btf_dedup)) : option (Z * btf_dedup) :=
  '(eq_, d) ← r; if eq_ <=? 0 then Some (eq_, d) else f d.

Definition equal_answer (b : option bool) (d : btf_dedup) : option (Z * btf_dedup) := b ← b; Some (bool_int b, d).

(** The check after the entry of the hypothetical map has been added; [rec] is the recursive
    call. *)
Definition equiv_types (rec : btf_dedup -> Z -> Z -> option (Z * btf_dedup)) (d : btf_dedup) (cand_id canon_id : Z) : option (Z * btf_dedup) :=
  cand_type ← dtype d cand_id; canon_type ← dtype d canon_id;
  cand_kind ← btf_kind cand_type; canon_kind ← btf_kind canon_type;
  n1 ← name_off cand_type; n2 ← name_off canon_type;
  if negb (n1 =? n2) then Some (0, d)
  else if ((cand_kind =? BTF_KIND_FWD) || (canon_kind =? BTF_KIND_FWD)) && negb (cand_kind =? canon_kind) then
    if cand_kind =? BTF_KIND_FWD then
      fwd_kind ← btf_fwd_kind cand_type;
      Some (bool_int (fwd_kind =? canon_kind), d)
    else
      fwd_kind ← btf_fwd_kind canon_type;
      o ← head (d_btf d);
      let adjust := (fwd_kind =? cand_kind) && (canon_id <? o_start_id o) in
      Some (bool_int (fwd_kind =? cand_kind), with_hypot (hypot_map d) (hypot_list d) (hypot_cap d) (adjust || hypot_adjust_canon d) d)
  else if negb (cand_kind =? canon_kind) then Some (0, d)
  else if cand_kind =? BTF_KIND_INT then equal_answer (btf_equal_int_tag cand_type canon_type) d
  else if kind_is_any_enum cand_kind then equal_answer (btf_compat_enum cand_type canon_type) d
  else if (cand_kind =? BTF_KIND_FWD) || (cand_kind =? BTF_KIND_FLOAT) then equal_answer (btf_equal_common cand_type canon_type) d
  else if chain_kind cand_kind then
    i1 ← info cand_type; i2 ← info canon_type;
    if negb (i1 =? i2) then Some (0, d)
    else r1 ← type cand_type; r2 ← type canon_type; rec d r1 r2
  else if cand_kind =? BTF_KIND_ARRAY then
    c ← btf_compat_array cand_type canon_type;
    if negb c then Some (0, d)
    else
      a1 ← array_of cand_type; a2 ← array_of canon_type;
      then_equiv (rec d (arr_index_type a1) (arr_index_type a2)) (fun d => rec d (arr_type a1) (arr_type a2))
  else if kind_is_composite cand_kind then
    c ← btf_shallow_equal_struct cand_type canon_type;
    if negb c then Some (0, d)
    else
      vlen ← btf_vlen cand_type;
      equiv_loop (Z.to_nat vlen) 0 (fun i d => m1 ← btf_member_at cand_type i; m2 ← btf_member_at canon_type i; rec d (m_type m1) (m_type m2)) d
  else if cand_kind =? BTF_KIND_FUNC_PROTO then
    c ← btf_compat_fnproto cand_type canon_type;
    if negb c then Some (0, d)
    else
      r1 ← type cand_type; r2 ← type canon_type;
      then_equiv (rec d r1 r2) (fun d =>
        vlen ← btf_vlen cand_type;
        equiv_loop (Z.to_nat vlen) 0 (fun i d => '(_, ty1) ← btf_param_at cand_type i; '(_, ty2) ← btf_param_at canon_type i; rec d ty1 ty2) d)
  else Some (- EINVAL, d).

Fixpoint btf_dedup_is_equiv (fuel : nat) (al : oracle) (d : btf_dedup) (cand_id canon_id : Z) : option (Z * btf_dedup) :=
  match fuel with
  | O => None
  | S fuel =>
    r1 ← resolve_type_id d cand_id; r2 ← resolve_type_id d canon_id;
    if r1 =? r2 then Some (1, d)
    else
      canon_id ← resolve_fwd_id d canon_id;
      hypot_type_id ← zget (hypot_map d) canon_id;
      if hypot_type_id <=? BTF_MAX_NR_TYPES then
        if hypot_type_id =? cand_id then Some (1, d)
        else equal_answer (btf_dedup_identical_types (identical_fuel d) (view (d_btf d)) hypot_type_id cand_id 16) d
      else
        '(err, d) ← btf_dedup_hypot_map_add al d canon_id cand_id;
        if negb (err =? 0) then Some (- ENOMEM, d)
        else equiv_types (btf_dedup_is_equiv fuel al) d cand_id canon_id
  end.

(** ** Structs and unions *)
Definition id_kind (d : btf_dedup) (id : Z) : option Z := t ← btf__type_by_id (view (d_btf d)) id; t ← t; btf_kind t.

Fixpoint merge_loop (l : list Z) (d : btf_dedup) : option btf_dedup :=
  match l with
  | [] => Some d
  | canon_type_id :: l =>
    targ_type_id ← zget (hypot_map d) canon_type_id;
    t_id ← resolve_type_id d targ_type_id; c_id ← resolve_type_id d canon_type_id;
    t_kind ← id_kind d t_id; c_kind ← id_kind d c_id;
    d ← (if negb (t_kind =? BTF_KIND_FWD) && (c_kind =? BTF_KIND_FWD) then set_map d c_id t_id else Some d);
    if hypot_adjust_canon d then merge_loop l d
    else
      d ← (if (t_kind =? BTF_KIND_FWD) && negb (c_kind =? BTF_KIND_FWD) then set_map d t_id c_id else Some d);
      c_mapped ← is_type_mapped d c_id; t_mapped ← is_type_mapped d t_id;
      d ← (if kind_is_composite t_kind && negb (c_kind =? BTF_KIND_FWD) && c_mapped && negb t_mapped then set_map d t_id c_id else Some d);
      merge_loop l d
  end.
Definition btf_dedup_merge_hypot_map (d : btf_dedup) : option btf_dedup := merge_loop (hypot_list d) d.

(** The loop over the candidates of a struct or union: the canonical id or an error. *)
Fixpoint struct_cands (al : oracle) (d : btf_dedup) (t : btf_type) (type_id : Z) (cands : list Z) : option (Z * btf_dedup) :=
  match cands with
  | [] => Some (type_id, d)
  | cand_id :: cands =>
    cand_type ← dtype d cand_id;
    shallow ← btf_shallow_equal_struct t cand_type;
    if negb shallow then struct_cands al d t type_id cands
    else
      d ← btf_dedup_clear_hypot_map d;
      '(eq_, d) ← btf_dedup_is_equiv (S (length (d_map d))) (sub cand_id al) d type_id cand_id;
      if eq_ <? 0 then Some (eq_, d)
      else if eq_ =? 0 then struct_cands al d t type_id cands
      else
        d ← btf_dedup_merge_hypot_map d;
        if hypot_adjust_canon d then struct_cands al d t type_id cands else Some (cand_id, d)
  end.

Definition btf_dedup_struct_type (al : oracle) (d : btf_dedup) (type_id : Z) : option (Z * btf_dedup) :=
  mapped ← is_type_mapped d type_id;
  if (mapped : bool) then Some (0, d)
  else
    t ← dtype d type_id;
    kind ← btf_kind t;
    if negb (kind_is_composite kind) then Some (0, d)
    else
      h ← btf_hash_struct t; cands ← candidates d h;
      '(new_id, d) ← struct_cands (sub 0 al) d t type_id cands;
      if new_id <? 0 then Some (new_id, d) else finish_type (sub 1 al) d h type_id new_id.

Definition btf_dedup_struct_types (al : oracle) (d : btf_dedup) : option (Z * btf_dedup) :=
  '(n, start) ← own_types d;
  pass n start (fun id d => btf_dedup_struct_type (sub id al) d id) d.

(** ** Forward declarations *)
Definition names_add (al : oracle) (m : hashmap) (name id : Z) : option (Z * hashmap) :=
  '(err, m, _, _) ← hashmap_insert btf_dedup_identity_hash_fn btf_dedup_equal_fn (al [0]) (al [1]) m name id HASHMAP_ADD;
  if err =? - EEXIST then
    '(err, m, _, _) ← hashmap_insert btf_dedup_identity_hash_fn btf_dedup_equal_fn (al [2]) (al [3]) m name 0 HASHMAP_SET;
    Some (err, m)
  else Some (err, m).

Fixpoint fill_names_loop (n : nat) (al : oracle) (d : btf_dedup) (type_id : Z) (m : hashmap) : option (Z * hashmap) :=
  match n with
  | O => Some (0, m)
  | S n =>
    t ← dtype d type_id;
    kind ← btf_kind t;
    if negb (kind_is_composite kind) then fill_names_loop n al d (type_id + 1) m
    else
      c ← zget (d_map d) type_id;
      if negb (type_id =? c) then fill_names_loop n al d (type_id + 1) m
      else
        name ← name_off t;
        '(err, m) ← names_add (sub type_id al) m name type_id;
        if negb (err =? 0) then Some (err, m) else fill_names_loop n al d (type_id + 1) m
  end.
Definition btf_dedup_fill_unique_names_map (al : oracle) (d : btf_dedup) : option (Z * hashmap) :=
  nr ← btf__type_cnt (view (d_btf d));
  fill_names_loop (Z.to_nat (nr - 1)) al d 1 hashmap__init.

Definition btf_dedup_resolve_fwd (names_map : hashmap) (d : btf_dedup) (type_id : Z) : option (Z * btf_dedup) :=
  t ← dtype d type_id;
  fwd_kind ← btf_kflag t;
  kind ← btf_kind t;
  if negb (kind =? BTF_KIND_FWD) then Some (0, d)
  else
    m ← zget (d_map d) type_id;
    if negb (type_id =? m) then Some (0, d)
    else
      name ← name_off t;
      found ← hashmap_find btf_dedup_identity_hash_fn btf_dedup_equal_fn names_map name;
      match found with
      | None => Some (0, d)
      | Some cand_id =>
        if cand_id =? 0 then Some (0, d)
        else
          cand_t ← dtype d cand_id;
          cand_kind ← btf_kind cand_t;
          if (cand_kind =? BTF_KIND_STRUCT) && negb (bool_int fwd_kind =? BTF_FWD_STRUCT) ||
             (cand_kind =? BTF_KIND_UNION) && negb (bool_int fwd_kind =? BTF_FWD_UNION)
          then Some (0, d)
          else d ← set_map d type_id cand_id; Some (0, d)
      end.

Definition btf_dedup_resolve_fwds (al : oracle) (d : btf_dedup) : option (Z * btf_dedup) :=
  if negb (al [0]) then Some (- ENOMEM, d)
  else
    '(err, names) ← btf_dedup_fill_unique_names_map (sub 1 al) d;
    if err <? 0 then Some (err, d)
    else
      '(n, start) ← own_types d;
      pass n start (fun id d => btf_dedup_resolve_fwd names d id) d.

(** ** Reference types *)

(** A store to the word [i] of the type [id], in whichever object of the chain has it. *)
Fixpoint set_type_word (c : chain) (id i x : Z) : option chain :=
  match c with
  | [] => None
  | o :: base =>
    if id <? o_start_id o then base ← set_type_word base id i x; Some (o :: base)
    else
      off ← zget (o_offs o) (id - o_start_id o);
      ws ← zset (o_types o) (off / 4 + i) x;
      Some (set_types ws (types_cap o) o :: base)
  end.
Definition set_ref (d : btf_dedup) (id i x : Z) : option btf_dedup := c ← set_type_word (d_btf d) id i x; Some (with_btf c d).

(** The references at the words [ws] of the type [type_id] are replaced, in this order. *)
Fixpoint ref_words (rec : btf_dedup -> Z -> option (Z * btf_dedup)) (d : btf_dedup) (type_id : Z) (ws : list Z) : option (Z * btf_dedup) :=
  match ws with
  | [] => Some (0, d)
  | w :: ws =>
    t ← dtype d type_id;
    ref ← word t w;
    '(ref_type_id, d) ← rec d ref;
    if ref_type_id <? 0 then Some (ref_type_id, d)
    else d ← set_ref d type_id w ref_type_id; ref_words rec d type_id ws
  end.

(** The words that hold references, in the order the code replaces them; the hash and the
    comparison of a kind. *)
Definition ref_spec (k vlen : Z) : option (list Z * (btf_type -> option Z) * (btf_type -> btf_type -> option bool)) :=
  if chain_kind k then Some ([2], btf_hash_common, btf_equal_common)
  else if k =? BTF_KIND_DECL_TAG then Some ([2], btf_hash_int_decl_tag, btf_equal_int_tag)
  else if k =? BTF_KIND_ARRAY then Some ([3; 4], btf_hash_array, btf_equal_array)
  else if k =? BTF_KIND_FUNC_PROTO then Some (2 :: map (fun i => 3 + 2 * i + 1) (seqZ 0 vlen), btf_hash_fnproto, btf_equal_fnproto)
  else None.

Fixpoint btf_dedup_ref_type (fuel : nat) (al : oracle) (d : btf_dedup) (type_id : Z) : option (Z * btf_dedup) :=
  match fuel with
  | O => None
  | S fuel =>
    m ← zget (d_map d) type_id;
    if m =? BTF_IN_PROGRESS_ID then Some (- ELOOP, d)
    else if m <=? BTF_MAX_NR_TYPES then r ← resolve_type_id d type_id; Some (s32 r, d)
    else
      t ← dtype d type_id;
      d ← set_map d type_id BTF_IN_PROGRESS_ID;
      k ← btf_kind t; vlen ← btf_vlen t;
      match ref_spec k vlen with
      | None => Some (- EINVAL, d)
      | Some (ws, hash, same) =>
        '(err, d) ← ref_words (btf_dedup_ref_type fuel al) d type_id ws;
        if err <? 0 then Some (err, d)
        else
          t ← dtype d type_id;
          h ← hash t; cands ← candidates d h;
          r ← find_cand d (same t) cands;
          let new_id := default type_id r in
          '(err, d) ← finish_type (sub type_id al) d h type_id new_id;
          Some (if negb (err =? 0) then err else s32 new_id, d)
      end
  end.

Definition btf_dedup_ref_types (al : oracle) (d : btf_dedup) : option (Z * btf_dedup) :=
  '(n, start) ← own_types d;
  '(err, d) ← pass n start (fun id d => btf_dedup_ref_type (S (length (d_map d))) al d id) d;
  if err <? 0 then Some (err, d) else Some (0, with_table hashmap__init d).

(** ** Compaction *)

(** The own types from [id] on, [n] of them: [p] is where the next canonical one is moved to. *)
Fixpoint compact_loop (n : nat) (d : btf_dedup) (id next_type_id p : Z) : option (Z * Z * Z * btf_dedup) :=
  match n with
  | O => Some (0, next_type_id, p, d)
  | S n =>
    m ← zget (d_map d) id;
    if negb (m =? id) then compact_loop n d (id + 1) next_type_id p
    else
      t ← btf__type_by_id (view (d_btf d)) id; t ← t;
      len ← btf_type_size t;
      if len <? 0 then Some (len, next_type_id, p, d)
      else
        o ← head (d_btf d);
        guard (len / 4 <= Z.of_nat (length t));;
        ws ← memcpy_at (o_types o) (p / 4) (take (Z.to_nat (len / 4)) t);
        hm ← zset (hypot_map d) id next_type_id;
        offs ← zset (o_offs o) (next_type_id - o_start_id o) p;
        let o := set_offs offs (offs_cap o) (set_types ws (types_cap o) o) in
        let d := with_btf (o :: tail (d_btf d)) (with_hypot hm (hypot_list d) (hypot_cap d) (hypot_adjust_canon d) d) in
        compact_loop n d (id + 1) (next_type_id + 1) (p + len)
  end.

(** [hdr->type_len = len], and [hdr->str_off = len]. *)
Definition set_type_len (len : Z) (o : btf_obj) : btf_obj :=
  let h := hdr o in set_hdr (BtfHeader (magic h) (hdr_len h) (type_off h) len (str_off h) (str_len h)) o.
Definition set_str_off (len : Z) (o : btf_obj) : btf_obj :=
  let h := hdr o in set_hdr (BtfHeader (magic h) (hdr_len h) (type_off h) (type_len h) len (str_len h)) o.

Definition btf_dedup_compact_types (al : oracle) (d : btf_dedup) : option (Z * btf_dedup) :=
  o ← head (d_btf d);
  let start := o_start_id o in
  guard (start + o_nr_types o <= Z.of_nat (length (hypot_map d)));;
  let hm := seqZ 0 start ++ replicate (Z.to_nat (o_nr_types o)) BTF_UNPROCESSED_ID ++ drop (Z.to_nat (start + o_nr_types o)) (hypot_map d) in
  '(err, next, p, d) ← compact_loop (Z.to_nat (o_nr_types o)) (with_hypot hm (hypot_list d) (hypot_cap d) (hypot_adjust_canon d) d) start start 0;
  if err <? 0 then Some (err, d)
  else
    o ← head (d_btf d);
    let nr := next - start in
    let o := set_type_len p (set_offs (o_offs o) nr (set_nr nr o)) in
    if negb (nr =? 0) && negb (al [0]) then Some (- ENOMEM, with_btf (o :: tail (d_btf d)) d)
    else Some (0, with_btf (set_str_off p (set_offs (take (Z.to_nat nr) (o_offs o)) nr o) :: tail (d_btf d)) d).

(** ** Renumbering *)
Definition remap_word (d : btf_dedup) (w : Z) (c : chain) : option (Z * chain) :=
  id ← get_word c w;
  resolved_id ← resolve_type_id d id;
  new_id ← zget (hypot_map d) resolved_id;
  if new_id >? BTF_MAX_NR_TYPES then Some (- EINVAL, c)
  else c ← put_word c w new_id; Some (0, c).

Definition remap_type (d : btf_dedup) (id : Z) (c : chain) : option (Z * chain) :=
  o ← head c;
  off ← zget (o_offs o) (id - o_start_id o);
  let t := drop (Z.to_nat (off / 4)) (o_types o) in
  '(r, it) ← btf_field_iter_init t BTF_FIELD_ITER_IDS;
  if negb (r =? 0) then Some (r, c)
  else field_loop (fun o c => remap_word d ((off + o) / 4) c) (S (length t)) it c.

Fixpoint remap_loop (n : nat) (d : btf_dedup) (id : Z) (c : chain) : option (Z * chain) :=
  match n with
  | O => Some (0, c)
  | S n => '(r, c) ← remap_type d id c; if negb (r =? 0) then Some (r, c) else remap_loop n d (id + 1) c
  end.
Definition btf_dedup_remap_types (d : btf_dedup) : option (Z * btf_dedup) :=
  '(n, start) ← own_types d;
  '(r, c) ← remap_loop n d start (d_btf d);
  Some (r, with_btf c d).

(** ** Strings *)

(** The word [w] holds [*str_off_ptr]; the state is the chain and [d->strs_set]. *)
Definition strs_dedup_remap_str_off (al : oracle) (w : Z) (st : chain * strset) : option (Z * (chain * strset)) :=
  let '(c, set) := st in
  str_off ← get_word c w;
  o ← head c;
  if (str_off =? 0) || (str_off <? o_start_str_off o) then Some (0, (c, set))
  else
    s ← btf__str_by_offset (view c) str_off;
    s ← s;
    '(off, base) ← (match tail c with [] => Some (- ENOENT, []) | _ => btf__find_str (sub 0 al) (tail c) s end);
    let c := o :: base in
    if off >=? 0 then c ← put_word c w off; Some (0, (c, set))
    else if negb (off =? - ENOENT) then Some (off, (c, set))
    else
      '(off, set) ← strset__add_str (al [1]) (al [2]) (al [3]) set s;
      if off <? 0 then Some (off, (c, set))
      else c ← put_word c w (u32 (o_start_str_off o + off)); Some (0, (c, set)).

Fixpoint str_offs_loop (n : nat) (al : oracle) (id : Z) (st : chain * strset) : option (Z * (chain * strset)) :=
  match n with
  | O => Some (0, st)
  | S n =>
    o ← head st.1;
    off ← zget (o_offs o) (id - o_start_id o);
    let t := drop (Z.to_nat (off / 4)) (o_types o) in
    '(r, it) ← btf_field_iter_init t BTF_FIELD_ITER_STRS;
    if negb (r =? 0) then Some (r, st)
    else
      '(r, st) ← field_loop (fun o st => strs_dedup_remap_str_off (sub id (sub o al)) ((off + o) / 4) st) (S (length t)) it st;
      if negb (r =? 0) then Some (r, st) else str_offs_loop n al (id + 1) st
  end.

(** [strs_deduped] is the field of the object. *)
Definition btf_dedup_strings (al : oracle) (strs_deduped : bool) (c : chain) : option (Z * chain) :=
  if strs_deduped then Some (0, c)
  else
    r ← strset__new (al [0], al [1], al [2]) (fun _ => (true, true)) BTF_MAX_STR_OFFSET None;
    match r with
    | inl err => Some (err, c)
    | inr set =>
      '(err, set) ← (match tail c with [] => strset__add_str (al [3]) (al [4]) (al [5]) set [] | _ => Some (0, set) end);
      if err <? 0 then Some (err, c)
      else
        o ← head c;
        '(err, (c, set)) ← str_offs_loop (Z.to_nat (o_nr_types o)) (sub 6 al) (o_start_id o) (c, set);
        if negb (err =? 0) then Some (err, c)
        else o ← head c; Some (0, set_str_len (strset__data_size set) (set_strs (StrsSet set) o) :: tail c)
    end.

(** ** The whole *)

(** One pass after the other, until one fails. *)
Definition and_then (r : option (Z * btf_dedup)) (f : btf_dedup -> option (Z * btf_dedup)) : option (Z * btf_dedup) :=
  '(err, d) ← r; if err <? 0 then Some (err, d) else f d.

Definition dedup_passes (al : oracle) (d : btf_dedup) : option (Z * btf_dedup) :=
  and_then (btf_dedup_prim_types (sub 0 al) d) (fun d =>
  and_then (btf_dedup_struct_types (sub 1 al) d) (fun d =>
  and_then (btf_dedup_resolve_fwds (sub 2 al) d) (fun d =>
  and_then (btf_dedup_ref_types (sub 3 al) d) (fun d =>
  and_then (btf_dedup_compact_types (sub 4 al) d) (fun d =>
  btf_dedup_remap_types d))))).

(** What [btf_ensure_modifiable] makes of [strs_deduped]. *)
Definition deduped_after (strs_deduped : bool) (c : chain) : option bool :=
  o ← head c;
  Some (strs_deduped || match o_strs o with
                        | StrsSet _ => false
                        | StrsRaw _ => (h_str_len o =? 0) || (match tail c with [] => true | _ => false end) && (h_str_len o =? 1)
                        end).

Definition btf__dedup (al : oracle) (strs_deduped : bool) (c : chain) : option (Z * chain) :=
  d ← btf_dedup_new (sub 0 al) c;
  match d with
  | inl _ => Some (- EINVAL, c)
  | inr d =>
    o ← head c;
    '(err, o) ← btf_ensure_modifiable (sub 1 al) o;
    if negb (err =? 0) then Some (- ENOMEM, o :: tail c)
    else
      deduped ← deduped_after strs_deduped c;
      '(err, d) ← btf_dedup_prep (sub 2 al) (with_btf (o :: tail c) d);
      if negb (err =? 0) then Some (err, d_btf d)
      else
        '(err, c) ← btf_dedup_strings (sub 3 al) deduped (d_btf d);
        if err <? 0 then Some (err, c)
        else
          '(err, d) ← dedup_passes (sub 4 al) (with_btf c d);
          Some (err, d_btf d)
  end.
End Dedup.
