(* ===== verification/DedupPrim.v ===== *)
(** * Deduplication: hashes, comparisons and primitive types

    The comparisons of BtfDedup.v decide the equality of certain words of two types
    ([type_words] lists them by kind), and the hashes are functions of these words, so equal types
    meet in the table of candidates.  [prim_types_dedup]: after the pass over primitive types,
    whatever the hash function of the table does, every integer, float and forward declaration is
    mapped to an equal type that is mapped to itself, and no two of those are equal. *)
From stdpp Require Import base numbers list gmap sorting.
From S2P Require Import Prelude Hashmap Strset Btf BtfBuild BtfBuildSpec BtfIter BtfCopy BtfDedup.

(** ** Complete types *)

(** A type of kind [k] with [v] elements, followed by all its [n] words. *)
Record whole (t : btf_type) (k v n : Z) : Prop := {
  wh_kind : btf_kind t = Some k;
  wh_vlen : btf_vlen t = Some v;
  wh_rest : rest_words k v = Some n;
  wh_len : 3 + n <= Z.of_nat (length t)
}.

Lemma whole_ranges t k v n : whole t k v n -> 0 <= k < 32 /\ 0 <= v < 65536 /\ 0 <= n.
Proof.
  intros [Hk Hv Hr _]. pose proof (kind_range _ _ Hk). pose proof (vlen_range _ _ Hv). split_and!; try lia.
  pose proof (type_size_rest k v ltac:(lia) ltac:(lia)) as Hs. rewrite Hr in Hs. lia.
Qed.

Lemma whole_word t k v n j : whole t k v n -> 0 <= j < 3 + n -> exists x, word t j = Some x.
Proof. intros Hw Hj. apply zget_is_Some. pose proof (wh_len _ _ _ _ Hw). lia. Qed.

Lemma info_kind t1 t2 k v n k' v' n' : whole t1 k v n -> whole t2 k' v' n' -> word t1 1 = word t2 1 -> k = k' /\ v = v' /\ n = n'.
Proof.
  intros [Hk Hv Hn _] [Hk' Hv' Hn' _] Hi. unfold btf_kind, btf_vlen, info in *. rewrite Hi in Hk, Hv. split_and!; congruence.
Qed.

(** ** Comparisons *)
Definition same_words (ws : list Z) (t1 t2 : btf_type) : Prop := forall j, j ∈ ws -> word t1 j = word t2 j.
Definition decides (r : option bool) (P : Prop) : Prop := exists b, r = Some b /\ (b = true <-> P).

Lemma decides_iff r P Q : decides r P -> (P <-> Q) -> decides r Q.
Proof. intros (b & -> & H) HPQ. exists b. split; [done|]. by rewrite H. Qed.

#[export] Instance decides_proper r : Proper (iff ==> iff) (decides r).
Proof. intros P Q HPQ. split; intros H; eapply decides_iff; [exact H|done|exact H|by rewrite HPQ]. Qed.

Lemma same_words_app ws ws' t1 t2 : same_words (ws ++ ws') t1 t2 <-> same_words ws t1 t2 /\ same_words ws' t1 t2.
Proof.
  unfold same_words. split; [intros H; split; intros j Hj; apply H, elem_of_app; auto|]. intros [H1 H2] j [Hj|Hj]%elem_of_app; auto.
Qed.

Lemma same_words_cons w ws t1 t2 : same_words (w :: ws) t1 t2 <-> word t1 w = word t2 w /\ same_words ws t1 t2.
Proof.
  unfold same_words. split; [intros H; split; [apply H; left|intros j Hj; apply H; by right]|]. intros [H1 H2] j [->|Hj]%elem_of_cons; auto.
Qed.

Lemma same_words_nil t1 t2 : same_words [] t1 t2 <-> True.
Proof. split; [done|]. intros _ j Hj. by apply elem_of_nil in Hj. Qed.

Lemma same_words_refl ws t : same_words ws t t.
Proof. by intros j _. Qed.
Lemma same_words_sym ws t1 t2 : same_words ws t1 t2 -> same_words ws t2 t1.
Proof. intros H j Hj. symmetry. by apply H. Qed.
Lemma same_words_trans ws t1 t2 t3 : same_words ws t1 t2 -> same_words ws t2 t3 -> same_words ws t1 t3.
Proof. intros H H' j Hj. rewrite (H j Hj). by apply H'. Qed.

(** Words that can be read in both types are compared. *)
Lemma eqb_words t1 t2 j x y : word t1 j = Some x -> word t2 j = Some y -> (x =? y) = true <-> word t1 j = word t2 j.
Proof. intros -> ->. rewrite Z.eqb_eq. split; congruence. Qed.

Lemma all_loop_spec n i f : (forall j, i <= j < i + Z.of_nat n -> exists b, f j = Some b) ->
  decides (all_loop n i f) (forall j, i <= j < i + Z.of_nat n -> f j = Some true).
Proof.
  revert i. induction n as [|n IH]; intros i Hf; cbn [all_loop].
  - exists true. split; [done|]. split; [intros _; lia|done].
  - destruct (Hf i) as [b Hb]; [lia|]. rewrite Hb. cbn [mbind option_bind]. destruct b.
    + eapply decides_iff; [apply IH; intros j Hj; apply Hf; lia|]. split; intros H j Hj; [|apply H; lia].
      destruct (decide (j = i)) as [->|]; [done|]. apply H. lia.
    + exists false. split; [done|]. split; [done|]. intros H. rewrite (H i) in Hb by lia. done.
Qed.

Lemma equal_common_spec t1 t2 k v n k' v' n' : whole t1 k v n -> whole t2 k' v' n' -> decides (btf_equal_common t1 t2) (same_words [0; 1; 2] t1 t2).
Proof.
  intros H1 H2. pose proof (whole_ranges _ _ _ _ H1). pose proof (whole_ranges _ _ _ _ H2).
  destruct (whole_word _ _ _ _ 0 H1) as [n1 E1]; [lia|]. destruct (whole_word _ _ _ _ 0 H2) as [n2 E2]; [lia|].
  destruct (whole_word _ _ _ _ 1 H1) as [i1 E3]; [lia|]. destruct (whole_word _ _ _ _ 1 H2) as [i2 E4]; [lia|].
  destruct (whole_word _ _ _ _ 2 H1) as [s1 E5]; [lia|]. destruct (whole_word _ _ _ _ 2 H2) as [s2 E6]; [lia|].
  unfold btf_equal_common, name_off, info, size. rewrite E1, E2, E3, E4, E5, E6. cbn [mbind option_bind]. eexists. split; [done|].
  rewrite !andb_true_iff, !same_words_cons, same_words_nil, (eqb_words t1 t2 0), (eqb_words t1 t2 1), (eqb_words t1 t2 2) by done. tauto.
Qed.

(** A comparison that first compares the three words of the head and then, in types of the same
    kind and number of elements, decides [P]. *)
Lemma after_common t1 t2 k v n k' v' n' (f : option bool) P : whole t1 k v n -> whole t2 k' v' n' -> (k = k' -> v = v' -> n = n' -> decides f P) ->
  decides (eq_ ← btf_equal_common t1 t2; if negb eq_ then Some false else f) (same_words [0; 1; 2] t1 t2 /\ P).
Proof.
  intros H1 H2 Hf. destruct (equal_common_spec t1 t2 _ _ _ _ _ _ H1 H2) as (b & -> & Hb). cbn [mbind option_bind]. destruct b; cbn [negb].
  - assert (same_words [0; 1; 2] t1 t2) as Hs by (by apply Hb). destruct (info_kind t1 t2 _ _ _ _ _ _ H1 H2) as (-> & -> & ->); [apply Hs; set_solver|].
    eapply decides_iff; [by apply Hf|]. tauto.
  - exists false. split; [done|]. split; [done|]. intros [Hs _]. by apply Hb.
Qed.

Lemma equal_int_spec t1 t2 k v k' v' n' : whole t1 k v 1 -> whole t2 k' v' n' -> decides (btf_equal_int_tag t1 t2) (same_words [0; 1; 2; 3] t1 t2).
Proof.
  intros H1 H2. eapply decides_iff; [apply (after_common t1 t2 k v 1 k' v' n' _ (same_words [3] t1 t2) H1 H2)|rewrite !same_words_cons, !same_words_nil; tauto].
  intros -> -> <-. destruct (whole_word _ _ _ _ 3 H1) as [x E1]; [lia|]. destruct (whole_word _ _ _ _ 3 H2) as [y E2]; [lia|].
  rewrite E1, E2. cbn [mbind option_bind]. eexists. split; [done|]. rewrite (eqb_words t1 t2 3) by done. rewrite same_words_cons, same_words_nil. tauto.
Qed.

(** ** Hashes *)
Definition hash_words (t : btf_type) (ws : list Z) (h : Z) : option Z := foldl (fun h j => h ← h; x ← word t j; Some (hash_combine h x)) (Some h) ws.

Lemma hash_words_cons t w ws h x : word t w = Some x -> hash_words t (w :: ws) h = hash_words t ws (hash_combine h x).
Proof. intros Hx. unfold hash_words. cbn [foldl]. cbn [mbind option_bind]. by rewrite Hx. Qed.

Lemma hash_words_app t ws ws' h h' : hash_words t ws h = Some h' -> hash_words t (ws ++ ws') h = hash_words t ws' h'.
Proof. intros Hh. unfold hash_words in *. by rewrite foldl_app, Hh. Qed.

Lemma hash_words_same t1 t2 ws h : same_words ws t1 t2 -> hash_words t1 ws h = hash_words t2 ws h.
Proof.
  intros Hs. unfold hash_words. generalize (Some h). induction ws as [|w ws IH]; intros a; [done|]. cbn [foldl].
  apply same_words_cons in Hs as [Hw Hs]. rewrite Hw. by apply IH.
Qed.

(** ** The words of each comparison and of each hash *)
Definition elem_words (v m : Z) (offs : list Z) : list Z := mjoin ((fun i => (fun o => 3 + m * i + o) <$> offs) <$> seqZ 0 v).

Lemma same_elem_words v m offs t1 t2 : same_words (elem_words v m offs) t1 t2 <->
  forall i, 0 <= i < v -> same_words ((fun o => 3 + m * i + o) <$> offs) t1 t2.
Proof.
  unfold elem_words, same_words. split.
  - intros H i Hi j Hj. apply H, list_elem_of_join. eexists. split; [exact Hj|]. apply list_elem_of_fmap. exists i. split; [done|]. apply elem_of_seqZ. lia.
  - intros H j Hj. apply list_elem_of_join in Hj as (l & Hj & Hl). apply list_elem_of_fmap in Hl as (i & -> & Hi). apply elem_of_seqZ in Hi. apply (H i); [lia|done].
Qed.

Section TwoTypes.
Context (t1 t2 : btf_type) (k v n k' v' n' : Z).
Hypothesis (H1 : whole t1 k v n) (H2 : whole t2 k' v' n').

(** Both types have the words of element [i]. *)
Lemma elem_word_at i m o : n = m * v -> n = n' -> 0 <= i < v -> 0 <= o < m ->
  exists x y, word t1 (3 + m * i + o) = Some x /\ word t2 (3 + m * i + o) = Some y.
Proof.
  intros Hn <- Hi Ho. destruct (whole_word t1 k v n (3 + m * i + o) H1) as [x Hx]; [nia|].
  destruct (whole_word t2 k' v' n (3 + m * i + o) H2) as [y Hy]; [nia|]. eauto.
Qed.

Lemma elems_spec m offs f : (forall i, 0 <= i < v -> decides (f i) (same_words ((fun o => 3 + m * i + o) <$> offs) t1 t2)) ->
  decides (all_loop (Z.to_nat v) 0 f) (same_words (elem_words v m offs) t1 t2).
Proof.
  intros Hf. pose proof (whole_ranges _ _ _ _ H1). eapply decides_iff; [apply all_loop_spec|].
  - intros j Hj. destruct (Hf j) as (b & Hb & _); [lia|]. eauto.
  - rewrite same_elem_words, Z2Nat.id by lia. split; intros H' i Hi; (destruct (Hf i) as (b & Hb & Hiff); [lia|]).
    + apply Hiff. rewrite (H' i) in Hb by lia. congruence.
    + rewrite Hb. f_equal. apply Hiff, H'. lia.
Qed.

Lemma one_word j x y : word t1 j = Some x -> word t2 j = Some y -> (x =? y) = true <-> word t1 j = word t2 j.
Proof. intros -> ->. rewrite Z.eqb_eq. split; congruence. Qed.

Lemma enum_members_spec : n = 2 * v -> n = n' -> decides (btf_equal_enum_members t1 t2) (same_words (elem_words v 2 [0; 1]) t1 t2).
Proof.
  intros Hn Hn'. unfold btf_equal_enum_members. rewrite (wh_vlen _ _ _ _ H1). cbn [mbind option_bind]. apply elems_spec. intros i Hi.
  destruct (elem_word_at i 2 0) as (x & y & Hx & Hy); [lia..|]. destruct (elem_word_at i 2 1) as (x' & y' & Hx' & Hy'); [lia..|].
  cbn [fmap list_fmap]. rewrite !same_words_cons, same_words_nil, <- (one_word _ _ _ Hx Hy), <- (one_word _ _ _ Hx' Hy').
  rewrite Z.add_0_r in Hx, Hy. rewrite Hx, Hy, Hx', Hy'. cbn [mbind option_bind]. eexists. split; [done|]. rewrite andb_true_iff. tauto.
Qed.

Lemma enum64_members_spec : n = 3 * v -> n = n' -> decides (btf_equal_enum64_members t1 t2) (same_words (elem_words v 3 [0; 1; 2]) t1 t2).
Proof.
  intros Hn Hn'. unfold btf_equal_enum64_members. rewrite (wh_vlen _ _ _ _ H1). cbn [mbind option_bind]. apply elems_spec. intros i Hi.
  destruct (elem_word_at i 3 0) as (x & y & Hx & Hy); [lia..|]. destruct (elem_word_at i 3 1) as (x' & y' & Hx' & Hy'); [lia..|].
  destruct (elem_word_at i 3 2) as (x'' & y'' & Hx'' & Hy''); [lia..|].
  cbn [fmap list_fmap]. rewrite !same_words_cons, same_words_nil, <- (one_word _ _ _ Hx Hy), <- (one_word _ _ _ Hx' Hy'), <- (one_word _ _ _ Hx'' Hy'').
  rewrite Z.add_0_r in Hx, Hy. rewrite Hx, Hy, Hx', Hy', Hx'', Hy''. cbn [mbind option_bind]. eexists. split; [done|]. rewrite !andb_true_iff. tauto.
Qed.

Lemma shallow_members_spec : n = 3 * v -> n = n' ->
  decides (all_loop (Z.to_nat v) 0 (fun i => m1 ← btf_member_at t1 i; m2 ← btf_member_at t2 i;
    Some ((m_name_off m1 =? m_name_off m2) && (m_offset m1 =? m_offset m2)))) (same_words (elem_words v 3 [0; 2]) t1 t2).
Proof.
  intros Hn Hn'. apply elems_spec. intros i Hi.
  destruct (elem_word_at i 3 0) as (x & y & Hx & Hy); [lia..|]. destruct (elem_word_at i 3 1) as (x' & y' & Hx' & Hy'); [lia..|].
  destruct (elem_word_at i 3 2) as (x'' & y'' & Hx'' & Hy''); [lia..|].
  cbn [fmap list_fmap]. rewrite !same_words_cons, same_words_nil, <- (one_word _ _ _ Hx Hy), <- (one_word _ _ _ Hx'' Hy'').
  unfold btf_member_at. rewrite Z.add_0_r in Hx, Hy. rewrite Hx, Hy, Hx', Hy', Hx'', Hy''. cbn [mbind option_bind m_name_off m_offset].
  eexists. split; [done|]. rewrite !andb_true_iff. tauto.
Qed.

Lemma params_spec : n = 2 * v -> n = n' ->
  decides (all_loop (Z.to_nat v) 0 (fun i => '(n1, ty1) ← btf_param_at t1 i; '(n2, ty2) ← btf_param_at t2 i; Some ((n1 =? n2) && (ty1 =? ty2))))
    (same_words (elem_words v 2 [0; 1]) t1 t2).
Proof.
  intros Hn Hn'. apply elems_spec. intros i Hi.
  destruct (elem_word_at i 2 0) as (x & y & Hx & Hy); [lia..|]. destruct (elem_word_at i 2 1) as (x' & y' & Hx' & Hy'); [lia..|].
  cbn [fmap list_fmap]. rewrite !same_words_cons, same_words_nil, <- (one_word _ _ _ Hx Hy), <- (one_word _ _ _ Hx' Hy').
  unfold btf_param_at. rewrite Z.add_0_r in Hx, Hy. rewrite Hx, Hy, Hx', Hy'. cbn [mbind option_bind]. eexists. split; [done|]. rewrite andb_true_iff. tauto.
Qed.

Lemma param_names_spec : n = 2 * v -> n = n' ->
  decides (all_loop (Z.to_nat v) 0 (fun i => '(n1, _) ← btf_param_at t1 i; '(n2, _) ← btf_param_at t2 i; Some (n1 =? n2)))
    (same_words (elem_words v 2 [0]) t1 t2).
Proof.
  intros Hn Hn'. apply elems_spec. intros i Hi.
  destruct (elem_word_at i 2 0) as (x & y & Hx & Hy); [lia..|]. destruct (elem_word_at i 2 1) as (x' & y' & Hx' & Hy'); [lia..|].
  cbn [fmap list_fmap]. rewrite !same_words_cons, same_words_nil, <- (one_word _ _ _ Hx Hy).
  unfold btf_param_at. rewrite Z.add_0_r in Hx, Hy. rewrite Hx, Hy, Hx', Hy'. cbn [mbind option_bind]. eexists. split; [done|]. tauto.
Qed.

(** *** Whole comparisons *)
Lemma kind_eqs : (k = BTF_KIND_ENUM -> n = 2 * v) /\ (k = BTF_KIND_ENUM64 -> n = 3 * v) /\ (kind_is_composite k = true -> n = 3 * v) /\
  (k = BTF_KIND_ARRAY -> n = 3) /\ (k = BTF_KIND_FUNC_PROTO -> n = 2 * v) /\ (k = BTF_KIND_INT \/ k = BTF_KIND_DECL_TAG -> n = 1).
Proof.
  pose proof (wh_rest _ _ _ _ H1) as Hr. split_and!; intros Hk; try (subst k; cbn in Hr; congruence).
  - unfold kind_is_composite in Hk. apply orb_true_iff in Hk as [->%Z.eqb_eq | ->%Z.eqb_eq]; cbn in Hr; congruence.
  - destruct Hk as [-> | ->]; cbn in Hr; congruence.
Qed.

Definition enum_words : list Z := [0; 1; 2] ++ (if k =? BTF_KIND_ENUM then elem_words v 2 [0; 1] else elem_words v 3 [0; 1; 2]).

Lemma equal_enum_spec : kind_is_any_enum k = true -> decides (btf_equal_enum t1 t2) (same_words enum_words t1 t2).
Proof.
  intros Hk. unfold enum_words. rewrite same_words_app. apply (after_common t1 t2 k v n k' v' n' _ _ H1 H2). intros Ek Ev En.
  rewrite (wh_kind _ _ _ _ H1). cbn [mbind option_bind]. destruct kind_eqs as (E1 & E2 & _). destruct (Z.eqb_spec k BTF_KIND_ENUM).
  - apply enum_members_spec; auto.
  - apply enum64_members_spec; [|done]. apply E2. unfold kind_is_any_enum in Hk. lia.
Qed.

Lemma shallow_spec : kind_is_composite k = true -> decides (btf_shallow_equal_struct t1 t2) (same_words ([0; 1; 2] ++ elem_words v 3 [0; 2]) t1 t2).
Proof.
  intros Hk. rewrite same_words_app. apply (after_common t1 t2 k v n k' v' n' _ _ H1 H2). intros Ek Ev En.
  rewrite (wh_vlen _ _ _ _ H1). cbn [mbind option_bind]. destruct kind_eqs as (_ & _ & E3 & _). apply shallow_members_spec; auto.
Qed.

Lemma equal_array_spec : k = BTF_KIND_ARRAY -> decides (btf_equal_array t1 t2) (same_words [0; 1; 2; 3; 4; 5] t1 t2).
Proof.
  intros Hk. eapply decides_iff; [apply (after_common t1 t2 k v n k' v' n' _ (same_words [3; 4; 5] t1 t2) H1 H2)|rewrite !same_words_cons, !same_words_nil; tauto].
  intros Ek Ev En. destruct kind_eqs as (_ & _ & _ & E4 & _). rewrite (E4 Hk) in *. subst n'.
  destruct (whole_word _ _ _ _ 3 H1) as [x E5]; [lia|]. destruct (whole_word _ _ _ _ 3 H2) as [x' E5']; [lia|].
  destruct (whole_word _ _ _ _ 4 H1) as [y E6]; [lia|]. destruct (whole_word _ _ _ _ 4 H2) as [y' E6']; [lia|].
  destruct (whole_word _ _ _ _ 5 H1) as [z E7]; [lia|]. destruct (whole_word _ _ _ _ 5 H2) as [z' E7']; [lia|].
  rewrite !same_words_cons, same_words_nil, <- (one_word _ _ _ E5 E5'), <- (one_word _ _ _ E6 E6'), <- (one_word _ _ _ E7 E7').
  unfold array_of. rewrite E5, E5', E6, E6', E7, E7'. cbn [mbind option_bind arr_type arr_index_type arr_nelems]. eexists. split; [done|]. rewrite !andb_true_iff. tauto.
Qed.

Lemma compat_array_spec : k = BTF_KIND_ARRAY -> decides (btf_compat_array t1 t2) (same_words [0; 1; 2; 5] t1 t2).
Proof.
  intros Hk. eapply decides_iff; [apply (after_common t1 t2 k v n k' v' n' _ (same_words [5] t1 t2) H1 H2)|rewrite !same_words_cons, !same_words_nil; tauto].
  intros Ek Ev En. destruct kind_eqs as (_ & _ & _ & E4 & _). rewrite (E4 Hk) in *. subst n'.
  destruct (whole_word _ _ _ _ 3 H1) as [x E5]; [lia|]. destruct (whole_word _ _ _ _ 3 H2) as [x' E5']; [lia|].
  destruct (whole_word _ _ _ _ 4 H1) as [y E6]; [lia|]. destruct (whole_word _ _ _ _ 4 H2) as [y' E6']; [lia|].
  destruct (whole_word _ _ _ _ 5 H1) as [z E7]; [lia|]. destruct (whole_word _ _ _ _ 5 H2) as [z' E7']; [lia|].
  rewrite !same_words_cons, same_words_nil, <- (one_word _ _ _ E7 E7').
  unfold array_of. rewrite E5, E5', E6, E6', E7, E7'. cbn [mbind option_bind arr_nelems]. eexists. split; [done|]. tauto.
Qed.

Lemma equal_fnproto_spec : k = BTF_KIND_FUNC_PROTO -> decides (btf_equal_fnproto t1 t2) (same_words ([0; 1; 2] ++ elem_words v 2 [0; 1]) t1 t2).
Proof.
  intros Hk. rewrite same_words_app. apply (after_common t1 t2 k v n k' v' n' _ _ H1 H2). intros Ek Ev En.
  rewrite (wh_vlen _ _ _ _ H1). cbn [mbind option_bind]. destruct kind_eqs as (_ & _ & _ & _ & E5 & _). apply params_spec; auto.
Qed.

Lemma compat_fnproto_spec : k = BTF_KIND_FUNC_PROTO -> decides (btf_compat_fnproto t1 t2) (same_words ([0; 1] ++ elem_words v 2 [0]) t1 t2).
Proof.
  intros Hk. rewrite same_words_app. pose proof (whole_ranges _ _ _ _ H1). pose proof (whole_ranges _ _ _ _ H2).
  destruct (whole_word _ _ _ _ 0 H1) as [n1 E1]; [lia|]. destruct (whole_word _ _ _ _ 0 H2) as [n2 E2]; [lia|].
  destruct (whole_word _ _ _ _ 1 H1) as [i1 E3]; [lia|]. destruct (whole_word _ _ _ _ 1 H2) as [i2 E4]; [lia|].
  unfold btf_compat_fnproto, name_off, info. rewrite E1, E2, E3, E4. cbn [mbind option_bind]. rewrite !same_words_cons, same_words_nil.
  destruct (Z.eqb_spec n1 n2) as [->|Hn]; cbn [negb orb]; [|exists false; split; [done|]; split; [done|]; intros ((? & _) & _); congruence].
  destruct (Z.eqb_spec i1 i2) as [->|Hi]; cbn [negb]; [|exists false; split; [done|]; split; [done|]; intros ((_ & ? & _) & _); congruence].
  destruct (info_kind t1 t2 _ _ _ _ _ _ H1 H2) as (Ek & Ev & En); [congruence|].
  rewrite (wh_vlen _ _ _ _ H1). cbn [mbind option_bind]. destruct kind_eqs as (_ & _ & _ & _ & E5 & _).
  eapply decides_iff; [apply param_names_spec; auto|]. rewrite E1, E2, E3, E4. tauto.
Qed.

Lemma is_enum_fwd_spec : btf_is_enum_fwd t1 = Some (kind_is_any_enum k && (v =? 0)).
Proof. unfold btf_is_enum_fwd. by rewrite (wh_kind _ _ _ _ H1), (wh_vlen _ _ _ _ H1). Qed.
End TwoTypes.

(** Enumerations are compatible when they are equal, or when one of them is only declared and
    they have the same name. *)
Lemma compat_enum_spec t1 t2 k v n k' v' n' : whole t1 k v n -> whole t2 k' v' n' -> kind_is_any_enum k = true ->
  decides (btf_compat_enum t1 t2) ((v <> 0 /\ ~ (kind_is_any_enum k' = true /\ v' = 0) /\ same_words (enum_words k v) t1 t2) \/
    ((v = 0 \/ kind_is_any_enum k' = true /\ v' = 0) /\ word t1 0 = word t2 0 /\ kind_is_any_enum k' = true)).
Proof.
  intros H1 H2 Hk. unfold btf_compat_enum. rewrite (is_enum_fwd_spec t1 k v n H1), (is_enum_fwd_spec t2 k' v' n' H2), Hk. cbn [mbind option_bind andb].
  pose proof (whole_ranges _ _ _ _ H1). pose proof (whole_ranges _ _ _ _ H2).
  destruct (whole_word _ _ _ _ 0 H1) as [n1 E1]; [lia|]. destruct (whole_word _ _ _ _ 0 H2) as [n2 E2]; [lia|].
  destruct (negb (v =? 0) && negb (kind_is_any_enum k' && (v' =? 0))) eqn:Hb.
  - apply andb_true_iff in Hb as [Hv%negb_true_iff%Z.eqb_neq Hb%negb_true_iff]. apply andb_false_iff in Hb.
    eapply decides_iff; [by eapply equal_enum_spec|]. rewrite Z.eqb_neq in Hb. split; [intros Hs; left; split_and!; [done| |done]|].
    + intros [He Hv']. destruct Hb as [Hb|Hb]; congruence.
    + intros [(_ & _ & Hs)|([Hv0|[He Hv']] & _)]; [done|lia|]. destruct Hb as [Hb|Hb]; congruence.
  - unfold name_off. rewrite E1, E2, (wh_kind _ _ _ _ H1), (wh_kind _ _ _ _ H2). cbn [mbind option_bind]. rewrite Hk, andb_true_r.
    eexists. split; [done|]. rewrite andb_true_iff, Z.eqb_eq. apply andb_false_iff in Hb. rewrite !negb_false_iff, andb_true_iff, !Z.eqb_eq in Hb. split.
    + intros [-> He]. right. split_and!; [tauto|done|done].
    + intros [(Hv & Hn & _)|(_ & Hn & He)]; [exfalso; tauto|]. split; [congruence|done].
Qed.

(** *** Hashes as functions of words *)

(** The words the hash of a kind depends on; [None]: types of the kind are not hashed. *)
Definition hash_ws (k v : Z) : option (list Z) :=
  if (k =? BTF_KIND_VAR) || (k =? BTF_KIND_DATASEC) then None
  else if (k =? BTF_KIND_CONST) || (k =? BTF_KIND_VOLATILE) || (k =? BTF_KIND_RESTRICT) || (k =? BTF_KIND_PTR) || (k =? BTF_KIND_FWD) ||
          (k =? BTF_KIND_TYPEDEF) || (k =? BTF_KIND_FUNC) || (k =? BTF_KIND_FLOAT) || (k =? BTF_KIND_TYPE_TAG)
  then Some [0; 1; 2]
  else if (k =? BTF_KIND_INT) || (k =? BTF_KIND_DECL_TAG) then Some [0; 1; 2; 3]
  else if kind_is_any_enum k then Some [0]
  else if kind_is_composite k then Some ([0; 1; 2] ++ elem_words v 3 [0; 2])
  else if k =? BTF_KIND_ARRAY then Some [0; 1; 2; 3; 4; 5]
  else if k =? BTF_KIND_FUNC_PROTO then Some ([0; 1; 2] ++ elem_words v 2 [0; 1])
  else None.

Lemma hash_words_total t ws h : (forall j, j ∈ ws -> exists x, word t j = Some x) -> exists h', hash_words t ws h = Some h'.
Proof.
  revert h. induction ws as [|w ws IH]; intros h Hr; [by exists h|]. destruct (Hr w) as [x Hx]; [left|]. rewrite (hash_words_cons t w ws h x Hx).
  apply IH. intros j Hj. apply Hr. by right.
Qed.

Section Hash.
Context (t : btf_type) (k v n : Z).
Hypothesis (H : whole t k v n).

Lemma hash_common_spec : exists h, btf_hash_common t = Some h /\ hash_words t [0; 1; 2] 0 = Some h.
Proof.
  pose proof (whole_ranges _ _ _ _ H). destruct (whole_word _ _ _ _ 0 H) as [x Hx]; [lia|]. destruct (whole_word _ _ _ _ 1 H) as [y Hy]; [lia|].
  destruct (whole_word _ _ _ _ 2 H) as [z Hz]; [lia|]. unfold btf_hash_common, name_off, info, size. rewrite Hx, Hy, Hz. cbn [mbind option_bind].
  eexists. split; [done|]. by rewrite (hash_words_cons t 0 _ _ x), (hash_words_cons t 1 _ _ y), (hash_words_cons t 2 _ _ z).
Qed.

Lemma hash_int_spec : n = 1 -> exists h, btf_hash_int_decl_tag t = Some h /\ hash_words t [0; 1; 2; 3] 0 = Some h.
Proof.
  intros Hn. destruct hash_common_spec as (h & Hc & Hh). destruct (whole_word _ _ _ _ 3 H) as [x Hx]; [lia|].
  unfold btf_hash_int_decl_tag. rewrite Hx, Hc. cbn [mbind option_bind]. eexists. split; [done|].
  change [0; 1; 2; 3] with ([0; 1; 2] ++ [3]). rewrite (hash_words_app _ _ _ _ _ Hh). by rewrite (hash_words_cons t 3 _ _ x).
Qed.

Lemma hash_enum_spec : exists h, btf_hash_enum t = Some h /\ hash_words t [0] 0 = Some h.
Proof.
  pose proof (whole_ranges _ _ _ _ H). destruct (whole_word _ _ _ _ 0 H) as [x Hx]; [lia|]. unfold btf_hash_enum, name_off. rewrite Hx. cbn [mbind option_bind].
  eexists. split; [done|]. by rewrite (hash_words_cons t 0 _ _ x).
Qed.

Lemma hash_array_spec : n = 3 -> exists h, btf_hash_array t = Some h /\ hash_words t [0; 1; 2; 3; 4; 5] 0 = Some h.
Proof.
  intros Hn. destruct hash_common_spec as (h & Hc & Hh). destruct (whole_word _ _ _ _ 3 H) as [x Hx]; [lia|]. destruct (whole_word _ _ _ _ 4 H) as [y Hy]; [lia|].
  destruct (whole_word _ _ _ _ 5 H) as [z Hz]; [lia|]. unfold btf_hash_array, array_of. rewrite Hx, Hy, Hz, Hc. cbn [mbind option_bind]. eexists. split; [done|].
  change [0; 1; 2; 3; 4; 5] with ([0; 1; 2] ++ [3; 4; 5]). rewrite (hash_words_app _ _ _ _ _ Hh).
  by rewrite (hash_words_cons t 3 _ _ x), (hash_words_cons t 4 _ _ y), (hash_words_cons t 5 _ _ z).
Qed.

Lemma elem_words_S m i c offs : 0 <= c -> mjoin ((fun i => (fun o => 3 + m * i + o) <$> offs) <$> seqZ i (c + 1)) =
  ((fun o => 3 + m * i + o) <$> offs) ++ mjoin ((fun i => (fun o => 3 + m * i + o) <$> offs) <$> seqZ (i + 1) c).
Proof. intros Hc. rewrite (seqZ_cons i) by lia. cbn [fmap list_fmap mjoin list_join]. by replace (Z.pred (c + 1)) with c by lia. Qed.

(** A loop that hashes the words [offs] of each of the elements from [i] on. *)
Lemma hash_loop_spec m offs f c i h : 0 <= i -> (forall j h, i <= j < i + Z.of_nat c -> exists h', f j h = Some h' /\ hash_words t ((fun o => 3 + m * j + o) <$> offs) h = Some h') ->
  exists h', hash_loop c i f h = Some h' /\ hash_words t (mjoin ((fun i => (fun o => 3 + m * i + o) <$> offs) <$> seqZ i (Z.of_nat c))) h = Some h'.
Proof.
  revert i h. induction c as [|c IH]; intros i h Hi Hf; [by exists h|]. cbn [hash_loop]. destruct (Hf i h) as (h1 & E1 & E2); [lia|]. rewrite E1. cbn [mbind option_bind].
  destruct (IH (i + 1) h1) as (h' & E3 & E4); [lia|intros j h' Hj; apply Hf; lia|]. exists h'. split; [done|].
  replace (Z.of_nat (S c)) with (Z.of_nat c + 1) by lia. rewrite elem_words_S by lia. by rewrite (hash_words_app _ _ _ _ _ E2).
Qed.

Lemma hash_struct_spec : n = 3 * v -> exists h, btf_hash_struct t = Some h /\ hash_words t ([0; 1; 2] ++ elem_words v 3 [0; 2]) 0 = Some h.
Proof.
  intros Hn. pose proof (whole_ranges _ _ _ _ H). destruct hash_common_spec as (h & Hc & Hh). unfold btf_hash_struct. rewrite (wh_vlen _ _ _ _ H), Hc. cbn [mbind option_bind].
  rewrite (hash_words_app _ _ _ _ _ Hh). unfold elem_words.
  replace (seqZ 0 v) with (seqZ 0 (Z.of_nat (Z.to_nat v))) by (f_equal; lia). apply hash_loop_spec; [lia|]. intros i h1 Hi.
  destruct (whole_word _ _ _ _ (3 + 3 * i) H) as [x Hx]; [lia|]. destruct (whole_word _ _ _ _ (3 + 3 * i + 1) H) as [y Hy]; [lia|].
  destruct (whole_word _ _ _ _ (3 + 3 * i + 2) H) as [z Hz]; [lia|]. unfold btf_member_at. rewrite Hx, Hy, Hz. cbn [mbind option_bind m_name_off m_offset].
  eexists. split; [done|]. cbn [fmap list_fmap]. rewrite Z.add_0_r. by rewrite (hash_words_cons t (3 + 3 * i) _ _ x), (hash_words_cons t (3 + 3 * i + 2) _ _ z).
Qed.

Lemma hash_fnproto_spec : n = 2 * v -> exists h, btf_hash_fnproto t = Some h /\ hash_words t ([0; 1; 2] ++ elem_words v 2 [0; 1]) 0 = Some h.
Proof.
  intros Hn. pose proof (whole_ranges _ _ _ _ H). destruct hash_common_spec as (h & Hc & Hh). unfold btf_hash_fnproto. rewrite (wh_vlen _ _ _ _ H), Hc. cbn [mbind option_bind].
  rewrite (hash_words_app _ _ _ _ _ Hh). unfold elem_words.
  replace (seqZ 0 v) with (seqZ 0 (Z.of_nat (Z.to_nat v))) by (f_equal; lia). apply hash_loop_spec; [lia|]. intros i h1 Hi.
  destruct (whole_word _ _ _ _ (3 + 2 * i) H) as [x Hx]; [lia|]. destruct (whole_word _ _ _ _ (3 + 2 * i + 1) H) as [y Hy]; [lia|].
  unfold btf_param_at. rewrite Hx, Hy. cbn [mbind option_bind]. eexists. split; [done|]. cbn [fmap list_fmap]. rewrite Z.add_0_r.
  by rewrite (hash_words_cons t (3 + 2 * i) _ _ x), (hash_words_cons t (3 + 2 * i + 1) _ _ y).
Qed.

(** The hash that is stored for a type. *)
Definition stored_hash (h : Z) : Prop := exists ws, hash_ws k v = Some ws /\ hash_words t ws 0 = Some h.

Lemma prep_hash_spec : prep_hash t = Some (inr None) /\ hash_ws k v = None \/ exists h, prep_hash t = Some (inr (Some h)) /\ stored_hash h.
Proof.
  pose proof (wh_rest _ _ _ _ H) as Hr. destruct (kind_eqs t k v n H) as (E1 & E2 & E3 & E4 & E5 & E6). unfold prep_hash, stored_hash, hash_ws. rewrite (wh_kind _ _ _ _ H). cbn [mbind option_bind].
  destruct ((k =? BTF_KIND_VAR) || (k =? BTF_KIND_DATASEC)) eqn:Ev; [by left|right].
  destruct ((k =? BTF_KIND_CONST) || _ || _ || _ || _ || _ || _ || _ || _) eqn:Ec.
  { destruct hash_common_spec as (h & -> & Hh). eauto. }
  destruct ((k =? BTF_KIND_INT) || (k =? BTF_KIND_DECL_TAG)) eqn:Ei.
  { destruct hash_int_spec as (h & -> & Hh); [apply E6; by rewrite orb_true_iff, !Z.eqb_eq in Ei|]. eauto. }
  destruct (kind_is_any_enum k) eqn:Ee; [destruct hash_enum_spec as (h & -> & Hh); eauto|].
  destruct (kind_is_composite k) eqn:Eco; [destruct hash_struct_spec as (h & -> & Hh); eauto|].
  destruct (Z.eqb_spec k BTF_KIND_ARRAY); [destruct hash_array_spec as (h & -> & Hh); eauto|].
  destruct (Z.eqb_spec k BTF_KIND_FUNC_PROTO); [destruct hash_fnproto_spec as (h & -> & Hh); eauto|].
  exfalso. unfold rest_words, kind_is_any_enum, kind_is_composite in *. repeat rewrite orb_false_iff in *. destruct_and!.
  repeat match goal with E : (?a =? ?b) = false |- _ => rewrite E in Hr; clear E end.
  apply Z.eqb_neq in n0, n1. rewrite n0, n1 in Hr. done.
Qed.
End Hash.

(** ** The object and the table of candidates *)

(** All types of the object and of its base are complete; there are [N] ids. *)
Record types_ok (c : chain) (N : Z) : Prop := {
  to_cnt : btf__type_cnt (view c) = Some N;
  to_head : exists o base, c = o :: base /\ N = o_start_id o + o_nr_types o /\ 1 <= o_start_id o /\ 0 <= o_nr_types o /\ (base = [] -> o_start_id o = 1);
  to_max : N <= 2 ^ 31;
  to_types : forall id, 0 < id < N -> exists t k v n, btf_type_by_id (view c) id = Some t /\ whole t k v n
}.

Section Table.
Context (hash_fn : Z -> Z) {HK : HashKey hash_fn btf_dedup_equal_fn}.

(** The entries of the table are ids with the hashes of their types; at most [m] of them. *)
Record table_ok (d : btf_dedup) (N m : Z) : Prop := {
  tb_wf : hashmap_wf hash_fn (dedup_table d);
  tb_tight : cap_tight (dedup_table d);
  tb_size : sz (dedup_table d) <= m;
  tb_entries : forall e, e ∈ all_entries (dedup_table d) -> 0 < value e < N /\
    exists t k v n, dtype d (value e) = Some t /\ whole t k v n /\ stored_hash t k v (key e)
}.

Definition in_table (d : btf_dedup) (id : Z) : Prop := exists e, e ∈ all_entries (dedup_table d) /\ value e = id.

Lemma candidates_spec d N m h : table_ok d N m -> exists l, candidates hash_fn d h = Some l /\
  forall id, id ∈ l <-> exists e, e ∈ all_entries (dedup_table d) /\ key e = h /\ value e = id.
Proof.
  intros Ht. unfold candidates. rewrite (key_entries_spec hash_fn btf_dedup_equal_fn _ _ HK (tb_wf _ _ _ Ht)). cbn [mbind option_bind]. eexists. split; [done|].
  intros id. rewrite list_elem_of_fmap. split.
  - intros (e & -> & He). apply list_elem_of_filter in He as [Hk He]. apply Z.eqb_eq in Hk. eauto.
  - intros (e & He & Hk & Hv). exists e. split; [done|]. apply list_elem_of_filter. split; [|done]. by apply Z.eqb_eq.
Qed.

(** A candidate is a type of the object. *)
Lemma candidate_type d N m h l id : table_ok d N m -> candidates hash_fn d h = Some l -> id ∈ l -> 0 < id < N /\ in_table d id /\
  exists t k v n, dtype d id = Some t /\ whole t k v n /\ stored_hash t k v h.
Proof.
  intros Ht Hl Hid. destruct (candidates_spec d N m h Ht) as (l' & Hl' & Hin). rewrite Hl in Hl'. injection Hl' as <-.
  apply Hin in Hid as (e & He & <- & <-). destruct (tb_entries _ _ _ Ht e He) as (? & Hrest). split_and!; [lia|lia|by exists e|done].
Qed.

(** A type of the table with this hash is a candidate. *)
Lemma table_candidate d N m h l id t k v n : table_ok d N m -> candidates hash_fn d h = Some l -> in_table d id ->
  dtype d id = Some t -> whole t k v n -> stored_hash t k v h -> id ∈ l.
Proof.
  intros Ht Hl (e & He & Hv) Hty Hw (ws & Hws & Hh). destruct (candidates_spec d N m h Ht) as (l' & Hl' & Hin). rewrite Hl in Hl'. injection Hl' as <-.
  apply Hin. exists e. split; [done|]. split; [|done]. destruct (tb_entries _ _ _ Ht e He) as (_ & t' & k' & v' & n' & Ht' & Hw' & ws' & Hws' & Hh').
  rewrite Hv, Hty in Ht'. injection Ht' as <-. destruct (info_kind t t _ _ _ _ _ _ Hw Hw' eq_refl) as (-> & -> & ->). congruence.
Qed.

Lemma find_cand_spec d (same : btf_type -> option bool) (P : Z -> Prop) cands :
  (forall id, id ∈ cands -> exists t, dtype d id = Some t /\ decides (same t) (P id)) ->
  exists r, find_cand d same cands = Some r /\ match r with Some id => id ∈ cands /\ P id | None => forall id, id ∈ cands -> ~ P id end.
Proof.
  induction cands as [|c cands IH]; intros Hc; cbn [find_cand]; [exists None; split; [done|]; intros id Hid; by apply elem_of_nil in Hid|].
  destruct (Hc c) as (t & -> & b & Hb & Hiff); [left|]. cbn [mbind option_bind]. rewrite Hb. cbn [mbind option_bind]. destruct b.
  - exists (Some c). split; [done|]. split; [left|]. by apply Hiff.
  - destruct IH as (r & -> & Hr); [intros id Hid; apply Hc; by right|]. exists r. split; [done|]. destruct r as [id|].
    + destruct Hr as [Hin HP]. split; [by right|done].
    + intros id [->|Hid]%elem_of_cons; [|by apply Hr]. intros HP. by apply Hiff in HP.
Qed.

Lemma table_add_spec al d N m h id t k v n : table_ok d N m -> m < 2 ^ 50 -> 0 < id < N -> dtype d id = Some t -> whole t k v n -> stored_hash t k v h ->
  exists err tb, btf_dedup_table_add hash_fn al d h id = Some (err, with_table tb d) /\ table_ok (with_table tb d) N (m + 1) /\
    (err = 0 /\ all_entries tb ≡ₚ Entry h id :: all_entries (dedup_table d) \/ err = - ENOMEM /\ alloc_fails al).
Proof.
  intros [Hwf Hti Hsz Hen] Hm Hid Hty Hw Hh. unfold btf_dedup_table_add, hashmap_insert. rewrite decide_True by done. cbn [mbind option_bind].
  destruct (insert_new_spec hash_fn btf_dedup_equal_fn (al [0]) (al [1]) (dedup_table d) h id Hwf) as (err & tb & -> & Hwf' & Hti' & Hcase). cbn [mbind option_bind].
  exists err, tb. split; [done|]. pose proof (wf_sz _ _ Hwf) as Hs. pose proof (wf_sz _ _ Hwf') as Hs'.
  destruct Hcase as [(-> & Hp & Hno)|[-> Hp]]; rewrite Hp in Hs'; cbn [length] in Hs'.
  - split; [|right; split; [done|]].
    + split; cbn [dedup_table with_table]; auto; [lia|]. intros e He. apply Hen. by rewrite Hp in He.
    + destruct Hno as [Ha|[Ha|Hc]]; [by exists [0]|by exists [1]|]. unfold cap_tight in Hti. lia.
  - split; [|by left]. split; cbn [dedup_table with_table]; auto; [lia|]. intros e He. rewrite Hp in He. apply elem_of_cons in He as [->|He]; [|by apply Hen].
    cbn [value key]. split; [lia|]. by exists t, k, v, n.
Qed.

(** ** Integers, floats and forward declarations *)
Definition plain_kind (k : Z) : bool := (k =? BTF_KIND_INT) || (k =? BTF_KIND_FLOAT) || (k =? BTF_KIND_FWD).
Definition plain_words (k : Z) : list Z := if k =? BTF_KIND_INT then [0; 1; 2; 3] else [0; 1; 2].

Definition plain (c : chain) (id : Z) : Prop := exists t k v n, btf_type_by_id (view c) id = Some t /\ whole t k v n /\ plain_kind k = true.
(** Two ids with equal types. *)
Definition plain_eq (c : chain) (x y : Z) : Prop := exists t k v n t' k' v' n',
  btf_type_by_id (view c) x = Some t /\ whole t k v n /\ btf_type_by_id (view c) y = Some t' /\ whole t' k' v' n' /\
  plain_kind k = true /\ same_words (plain_words k) t t'.

Lemma plain_eq_kinds c x y : plain_eq c x y -> plain c x /\ plain c y.
Proof.
  intros (t & k & v & n & t' & k' & v' & n' & Hx & Hw & Hy & Hw' & Hk & Hs).
  destruct (info_kind t t' _ _ _ _ _ _ Hw Hw') as (-> & -> & ->); [apply Hs; unfold plain_words; destruct (_ =? _); set_solver|].
  split; [by exists t, k', v', n'|by exists t', k', v', n'].
Qed.

Lemma plain_eq_sym c x y : plain_eq c x y -> plain_eq c y x.
Proof.
  intros (t & k & v & n & t' & k' & v' & n' & Hx & Hw & Hy & Hw' & Hk & Hs).
  destruct (info_kind t t' _ _ _ _ _ _ Hw Hw') as (-> & -> & ->); [apply Hs; unfold plain_words; destruct (_ =? _); set_solver|].
  exists t', k', v', n', t, k', v', n'. split_and!; auto. by apply same_words_sym.
Qed.

(** The state when the own types below [i] have been visited. *)
Record prim_inv (c : chain) (N start m : Z) (d : btf_dedup) (i : Z) : Prop := {
  pv_btf : d_btf d = c;
  pv_len : Z.of_nat (length (d_map d)) = N;
  pv_table : table_ok d N m;
  pv_self : forall x, plain c x -> in_table d x -> zget (d_map d) x = Some x;
  pv_done : forall j, start <= j < i -> plain c j -> exists r, in_table d r /\ plain_eq c j r /\ zget (d_map d) j = Some r;
  pv_uniq : forall x y, start <= x -> plain c x -> in_table d x -> in_table d y -> x <> y -> ~ plain_eq c x y;
  pv_base : forall b, 0 < b < start -> plain c b -> in_table d b;
  pv_new : forall x, in_table d x -> x < i
}.

Section Prim.
Context (c : chain) (N start : Z).
Hypothesis (Hc : types_ok c N) (Hstart : 1 <= start).

Lemma in_table_add d tb h i x : all_entries tb ≡ₚ Entry h i :: all_entries (dedup_table d) -> in_table (with_table tb d) x <-> x = i \/ in_table d x.
Proof.
  intros Hp. unfold in_table. cbn [dedup_table with_table]. split.
  - intros (e & He & Hv). rewrite Hp in He. apply elem_of_cons in He as [->|He]; [left; done|right; eauto].
  - intros [->|(e & He & Hv)]; [exists (Entry h i)|exists e]; (split; [rewrite Hp|done]); [left|by right].
Qed.

(** The end of a step: the type [i] is mapped to [new], after a loop that changed the map only at
    types that are not plain. *)
Lemma finish_step al d m i m1 h t k v n new : prim_inv c N start m d i -> m < 2 ^ 50 -> start <= i < N ->
  btf_type_by_id (view c) i = Some t -> whole t k v n -> stored_hash t k v h ->
  length m1 = length (d_map d) -> (forall x, plain c x -> zget m1 x = zget (d_map d) x) ->
  (new <> i -> in_table d new /\ (plain c i -> plain_eq c i new)) -> (new = i -> forall y, in_table d y -> ~ plain_eq c i y) ->
  exists err d', finish_type hash_fn al (with_map m1 d) h i new = Some (err, d') /\
    (err = 0 /\ prim_inv c N start (m + 1) d' (i + 1) \/ err = - ENOMEM /\ alloc_fails al).
Proof.
  intros [Hb Hlen Ht Hself Hdone Huniq Hbase Hnew] Hm Hi Hty Hw Hh Hm1 Hagree Hother Hsame. unfold finish_type, set_map.
  destruct (zset_is_Some m1 i new) as [m2 Hm2]; [lia|]. cbn [d_map with_map]. rewrite Hm2. cbn [mbind option_bind].
  assert (~ in_table d i) as Hni by (intros Hin; apply Hnew in Hin; lia).
  assert (forall x, plain c x -> x <> i -> zget m2 x = zget (d_map d) x) as Hget.
  { intros x Hx Hne. rewrite (zget_zset_ne _ _ _ _ _ Hm2) by done. by apply Hagree. }
  pose proof (zget_zset_eq _ _ _ _ Hm2) as Hgi. pose proof (zset_length _ _ _ _ Hm2) as Hl2.
  destruct (Z.eqb_spec i new) as [<-|Hne].
  - destruct (table_add_spec al (with_map m2 (with_map m1 d)) N m h i t k v n) as (err & tb & -> & Ht' & Hcase); [split; apply Ht|done|lia|unfold dtype; cbn; by rewrite Hb|done|done|].
    cbn [mbind option_bind]. destruct Hcase as [[-> Hp]|[-> Hal]]; cbn [Z.eqb negb]; [|eexists _, _; split; [done|]; by right].
    eexists _, _. split; [done|]. left. split; [done|].
    assert (forall x, in_table (with_table tb (with_map m2 (with_map m1 d))) x <-> x = i \/ in_table d x) as Hin.
    { intros x. apply (in_table_add (with_map m2 (with_map m1 d)) tb h i x). exact Hp. }
    split; cbn [d_btf d_map with_table with_map]; [done|congruence|done|..].
    + intros x Hx [->|Hxt]%Hin; [done|]. rewrite Hget; [by apply Hself|done|]. intros ->. done.
    + intros j Hj Hpj. destruct (decide (j = i)) as [->|Hji].
      * exists i. split; [apply Hin; by left|]. split; [|done]. destruct Hpj as (t' & k' & v' & n' & E1 & E2 & E3).
        exists t', k', v', n', t', k', v', n'. split_and!; auto using same_words_refl.
      * destruct (Hdone j) as (r & Hr & He & Hg); [lia|done|]. exists r. split; [apply Hin; by right|]. split; [done|]. by rewrite Hget.
    + intros x y Hx Hpx Hxt Hyt Hxy Heq. apply Hin in Hxt as [->|Hxt], Hyt as [->|Hyt]; [done|by apply (Hsame eq_refl y)| |by apply (Huniq x y)].
      by apply (Hsame eq_refl x Hxt), plain_eq_sym.
    + intros b Hb' Hpb. apply Hin. right. by apply Hbase.
    + intros x [->|Hx]%Hin; [lia|]. apply Hnew in Hx. lia.
  - eexists _, _. split; [done|]. left. split; [done|]. destruct (Hother ltac:(done)) as [Hnt Hpe].
    split; cbn [d_btf d_map with_map]; [done|congruence|..].
    + destruct Ht as [? ? Hsz ?]. split; auto. cbn [dedup_table with_map]. lia.
    + intros x Hx Hxt. rewrite Hget; [by apply Hself|done|]. intros ->. done.
    + intros j Hj Hpj. destruct (decide (j = i)) as [->|Hji]; [exists new; split_and!; auto|].
      destruct (Hdone j) as (r & Hr & He & Hg); [lia|done|]. exists r. split_and!; [done..|]. by rewrite Hget.
    + done.
    + done.
    + intros x Hx. apply Hnew in Hx. lia.
Qed.

Lemma with_map_id d : with_map (d_map d) d = d.
Proof. by destruct d. Qed.

(** A plain type: the candidates are searched for an equal one. *)
Lemma plain_step al d m i t k v n h same : prim_inv c N start m d i -> m < 2 ^ 50 -> start <= i < N ->
  btf_type_by_id (view c) i = Some t -> whole t k v n -> plain_kind k = true -> stored_hash t k v h ->
  (forall t' k' v' n', whole t' k' v' n' -> decides (same t') (same_words (plain_words k) t t')) ->
  exists err d', (cands ← candidates hash_fn d h; r ← find_cand d same cands; finish_type hash_fn al d h i (default i r)) = Some (err, d') /\
    (err = 0 /\ prim_inv c N start (m + 1) d' (i + 1) \/ err = - ENOMEM /\ alloc_fails al).
Proof.
  intros Hinv Hm Hi Hty Hw Hk Hh Hsame. pose proof (pv_table _ _ _ _ _ _ Hinv) as Ht. pose proof (pv_btf _ _ _ _ _ _ Hinv) as Hb.
  destruct (candidates_spec d N m h Ht) as (l & Hl & _). rewrite Hl. cbn [mbind option_bind].
  assert (forall y t' k' v' n', btf_type_by_id (view c) y = Some t' -> whole t' k' v' n' -> plain_eq c i y <-> same_words (plain_words k) t t') as Hpe.
  { intros y t' k' v' n' Ht' Hw'. split; [|by exists t, k, v, n, t', k', v', n'].
    intros (t1 & k1 & v1 & n1 & t2 & k2 & v2 & n2 & E1 & W1 & E2 & W2 & _ & Hs). rewrite Hty in E1. injection E1 as <-. rewrite Ht' in E2. injection E2 as <-.
    by destruct (info_kind t t _ _ _ _ _ _ Hw W1 eq_refl) as (-> & _ & _). }
  destruct (find_cand_spec d same (plain_eq c i) l) as (r & -> & Hr).
  { intros id Hid. destruct (candidate_type d N m h l id Ht Hl Hid) as (_ & _ & t' & k' & v' & n' & Ht' & Hw' & _). exists t'. split; [done|].
    eapply decides_iff; [by eapply Hsame|]. symmetry. unfold dtype in Ht'. rewrite Hb in Ht'. by eapply Hpe. }
  cbn [mbind option_bind]. pose proof (finish_step al d m i (d_map d) h t k v n (default i r)) as Hf. rewrite with_map_id in Hf. apply Hf; auto.
  - destruct r as [id|]; [|done]. cbn [default]. destruct Hr as [Hin Heq]. destruct (candidate_type d N m h l id Ht Hl Hin) as (_ & Hit & _). done.
  - destruct r as [id|]; cbn [default]; intros He y Hy Heq.
    + destruct Hr as [Hin _]. simpl in He. rewrite He in Hin. destruct (candidate_type d N m h l i Ht Hl Hin) as (_ & Hit & _). apply (pv_new _ _ _ _ _ _ Hinv) in Hit. lia.
    + apply (Hr y); [|done]. pose proof Heq as (t1 & k1 & v1 & n1 & t2 & k2 & v2 & n2 & E1 & W1 & E2 & W2 & Hk1 & Hs). rewrite Hty in E1. injection E1 as <-.
      destruct (info_kind t t _ _ _ _ _ _ Hw W1 eq_refl) as (-> & -> & ->).
      destruct (info_kind t t2 _ _ _ _ _ _ W1 W2) as (-> & -> & ->); [apply Hs; unfold plain_words; destruct (_ =? _); set_solver|].
      eapply (table_candidate d N m h l y t2); [done|done|done|unfold dtype; by rewrite Hb|done|]. destruct Hh as (ws & Hws & Hh). exists ws. split; [done|].
      rewrite <- Hh. symmetry. apply hash_words_same. unfold plain_kind in Hk1. unfold plain_words in Hs.
      destruct (Z.eqb_spec k2 BTF_KIND_INT) as [->|]; [cbn in Hws; by injection Hws as <-|].
      apply orb_true_iff in Hk1 as [Hk1|Hk1]; apply Z.eqb_eq in Hk1 as ->; cbn in Hws; by injection Hws as <-.
Qed.

Lemma enum_not_plain k : kind_is_any_enum k = true -> plain_kind k = false.
Proof. unfold kind_is_any_enum, plain_kind. intros [->%Z.eqb_eq | ->%Z.eqb_eq]%orb_true_iff; done. Qed.

Lemma not_plain id t k v n : btf_type_by_id (view c) id = Some t -> whole t k v n -> plain_kind k = false -> ~ plain c id.
Proof.
  intros Ht Hw Hk (t' & k' & v' & n' & Ht' & Hw' & Hk'). rewrite Ht in Ht'. injection Ht' as <-.
  destruct (info_kind t t _ _ _ _ _ _ Hw Hw' eq_refl) as (-> & _ & _). congruence.
Qed.

(** The loop over the candidates of an enumeration. *)
Lemma enum_cands_spec d t k v n i cands : d_btf d = c -> whole t k v n -> kind_is_any_enum k = true ->
  (forall id, id ∈ cands -> 0 < id < N /\ exists t' k' v' n', dtype d id = Some t' /\ whole t' k' v' n') ->
  forall m0, Z.of_nat (length m0) = N -> exists new m1, enum_cands (with_map m0 d) t i cands = Some (new, with_map m1 d) /\
    length m1 = length m0 /\ (forall x, plain c x -> zget m1 x = zget m0 x) /\ (new = i \/ new ∈ cands).
Proof.
  intros Hb Hw Hk. induction cands as [|cand cands IH]; intros Hcs m0 Hlen; cbn [enum_cands]; [exists i, m0; by split_and!; auto|].
  destruct (Hcs cand) as (Hr & t' & k' & v' & n' & Ht' & Hw'); [left|]. unfold dtype at 1. cbn [d_btf with_map]. unfold dtype in Ht'. rewrite Ht'. cbn [mbind option_bind].
  assert (forall m1, Z.of_nat (length m1) = N -> (forall x, plain c x -> zget m1 x = zget m0 x) -> exists new m2, enum_cands (with_map m1 d) t i cands = Some (new, with_map m2 d) /\
    length m2 = length m0 /\ (forall x, plain c x -> zget m2 x = zget m0 x) /\ (new = i \/ new ∈ cand :: cands)) as Hnext.
  { intros m1 Hl1 Ha. destruct (IH ltac:(intros id Hid; apply Hcs; by right) m1 Hl1) as (new & m2 & E1 & E2 & E3 & E4). exists new, m2.
    split_and!; [done|lia| |]; [intros x Hx; rewrite E3, Ha by done; done|]. destruct E4; [by left|right; by right]. }
  destruct (equal_enum_spec t t' k v n k' v' n' Hw Hw' Hk) as (b & -> & _). cbn [mbind option_bind].
  destruct b; [exists cand, m0; split_and!; auto; right; left|].
  destruct (compat_enum_spec t t' k v n k' v' n' Hw Hw' Hk) as (b & -> & Hcompat). cbn [mbind option_bind]. destruct b; [|by apply Hnext].
  rewrite (is_enum_fwd_spec t k v n Hw), Hk. cbn [mbind option_bind andb]. destruct (Z.eqb_spec v 0); [exists cand, m0; split_and!; auto; right; left|].
  unfold set_map. cbn [d_map with_map]. destruct (zset_is_Some m0 cand i) as [m1 Hm1]; [lia|]. rewrite Hm1. cbn [mbind option_bind].
  apply Hnext; [by rewrite (zset_length _ _ _ _ Hm1)|]. intros x Hx. apply (zget_zset_ne _ _ _ _ _ Hm1). intros <-. revert Hx. rewrite <- Hb.
  assert (kind_is_any_enum k' = true) as Hk'. { destruct (proj1 Hcompat eq_refl) as [(_ & _ & Hs)|(_ & _ & ?)]; [|done].
    destruct (info_kind t t' _ _ _ _ _ _ Hw Hw') as (<- & _ & _); [apply Hs; unfold enum_words; set_solver|done]. }
  rewrite Hb. eapply not_plain; [by rewrite <- Hb|done|by apply enum_not_plain].
Qed.

Lemma skip_step d m i t k v n : prim_inv c N start m d i -> btf_type_by_id (view c) i = Some t -> whole t k v n -> plain_kind k = false ->
  prim_inv c N start (m + 1) d (i + 1).
Proof.
  intros [Hb Hlen Ht Hself Hdone Huniq Hbase Hnew] Hty Hw Hk. split; auto.
  - destruct Ht as [? ? Hsz ?]. split; auto. lia.
  - intros j Hj Hp. apply Hdone; [|done]. destruct (decide (j = i)) as [->|]; [|lia]. exfalso. by apply (not_plain i t k v n).
  - intros x Hx. apply Hnew in Hx. lia.
Qed.

Lemma prim_step al d m i : prim_inv c N start m d i -> m < 2 ^ 50 -> start <= i < N ->
  exists err d', btf_dedup_prim_type hash_fn al d i = Some (err, d') /\ (err = 0 /\ prim_inv c N start (m + 1) d' (i + 1) \/ err = - ENOMEM /\ alloc_fails al).
Proof.
  intros Hinv Hm Hi. destruct (to_types c N Hc i) as (t & k & v & n & Hty & Hw); [lia|]. pose proof (pv_btf _ _ _ _ _ _ Hinv) as Hb.
  destruct (kind_eqs t k v n Hw) as (_ & _ & _ & _ & _ & E6).
  unfold btf_dedup_prim_type, dtype. rewrite Hb, Hty. cbn [mbind option_bind]. rewrite (wh_kind _ _ _ _ Hw). cbn [mbind option_bind].
  destruct ((k =? BTF_KIND_CONST) || _ || _ || _ || _ || _ || _ || _ || _ || _ || _ || _ || _ || _) eqn:Ec.
  { exists 0, d. split; [done|]. left. split; [done|]. apply (skip_step d m i t k v n); auto.
    repeat rewrite orb_true_iff in Ec. rewrite !Z.eqb_eq in Ec. by destruct_or! Ec; subst k. }
  destruct (Z.eqb_spec k BTF_KIND_INT) as [->|Hk1].
  { destruct (hash_int_spec t _ v n Hw (E6 (or_introl eq_refl))) as (h & -> & Hh). cbn [mbind option_bind]. rewrite (E6 (or_introl eq_refl)) in Hw.
    eapply (plain_step al d m i t _ v 1 h); try done; [by exists [0; 1; 2; 3]|]. intros t' k' v' n' Hw'. by eapply equal_int_spec. }
  destruct (kind_is_any_enum k) eqn:Hk2.
  { destruct (hash_enum_spec t k v n Hw) as (h & -> & Hh). cbn [mbind option_bind]. pose proof (pv_table _ _ _ _ _ _ Hinv) as Ht.
    destruct (candidates_spec d N m h Ht) as (l & Hl & _). rewrite Hl. cbn [mbind option_bind].
    destruct (enum_cands_spec d t k v n i l Hb Hw Hk2) with (m0 := d_map d) as (new & m1 & He & Hl1 & Ha & Hnew); [|apply Hinv|].
    { intros id Hid. destruct (candidate_type d N m h l id Ht Hl Hid) as (? & _ & t' & k' & v' & n' & Ht' & Hw' & _). split; [lia|]. by exists t', k', v', n'. }
    rewrite with_map_id in He. rewrite He. cbn [mbind option_bind]. apply (finish_step al d m i m1 h t k v n); auto.
    - unfold kind_is_any_enum in Hk2. apply orb_true_iff in Hk2 as [->%Z.eqb_eq | ->%Z.eqb_eq]; by exists [0].
    - intros Hne. destruct Hnew as [->|Hin]; [done|]. destruct (candidate_type d N m h l new Ht Hl Hin) as (_ & ? & _). split; [done|].
      intros Hp. exfalso. revert Hp. eapply not_plain; [done..|]. by apply enum_not_plain.
    - intros _ y _ [Hp _]%plain_eq_kinds. revert Hp. eapply not_plain; [done..|]. by apply enum_not_plain. }
  destruct ((k =? BTF_KIND_FWD) || (k =? BTF_KIND_FLOAT)) eqn:Hk3.
  { destruct (hash_common_spec t k v n Hw) as (h & -> & Hh). cbn [mbind option_bind]. eapply (plain_step al d m i t k v n h); try done.
    - unfold plain_kind. apply orb_true_iff in Hk3 as [->%Z.eqb_eq | ->%Z.eqb_eq]; done.
    - exists [0; 1; 2]. split; [|done]. apply orb_true_iff in Hk3 as [->%Z.eqb_eq | ->%Z.eqb_eq]; done.
    - intros t' k' v' n' Hw'. unfold plain_words. destruct (Z.eqb_spec k BTF_KIND_INT); [done|]. by eapply equal_common_spec. }
  exfalso. pose proof (wh_rest _ _ _ _ Hw) as Hr. unfold rest_words, kind_is_any_enum in *. repeat rewrite orb_false_iff in *. destruct_and!.
  apply Z.eqb_neq in Hk1. repeat match goal with E : (?a =? ?b) = false |- _ => rewrite E in Hr; clear E end. done.
Qed.

Lemma prim_pass al nn d m i : prim_inv c N start m d i -> m + Z.of_nat nn < 2 ^ 50 -> start <= i -> i + Z.of_nat nn <= N ->
  exists err d', pass nn i (fun id d => btf_dedup_prim_type hash_fn (sub id al) d id) d = Some (err, d') /\
    (err = 0 /\ prim_inv c N start (m + Z.of_nat nn) d' (i + Z.of_nat nn) \/ err = - ENOMEM /\ alloc_fails al).
Proof.
  revert d m i. induction nn as [|nn IH]; intros d m i Hinv Hm Hs Hi; cbn [pass].
  - exists 0, d. split; [done|]. left. split; [done|]. by rewrite !Z.add_0_r.
  - destruct (prim_step (sub i al) d m i Hinv) as (err & d1 & -> & Hcase); [lia..|]. cbn [mbind option_bind]. destruct Hcase as [[-> Hinv1]|[-> Hal]].
    + cbn [Z.ltb Z.compare]. destruct (IH d1 (m + 1) (i + 1) Hinv1) as (err & d' & E & Hcase); [lia..|]. exists err, d'. split; [done|].
      destruct Hcase as [[-> H']|?]; [left; split; [done|]|by right]. replace (m + Z.of_nat (S nn)) with (m + 1 + Z.of_nat nn) by lia.
      by replace (i + Z.of_nat (S nn)) with (i + 1 + Z.of_nat nn) by lia.
    + exists (- ENOMEM), d1. split; [done|]. right. split; [done|]. by apply fails_sub in Hal.
Qed.
End Prim.

(** ** The state before the passes *)
Section Prep.
Context (c : chain) (N : Z).
Hypothesis Hc : types_ok c N.

Lemma new_map_spec n i : 0 < i -> i + Z.of_nat n <= N -> exists l, new_map_loop n c i = Some l /\ length l = n /\
  forall j, 0 <= j < Z.of_nat n -> exists t k v n', btf_type_by_id (view c) (i + j) = Some t /\ whole t k v n' /\
    zget l j = Some (if (k =? BTF_KIND_VAR) || (k =? BTF_KIND_DATASEC) then i + j else BTF_UNPROCESSED_ID).
Proof.
  revert i. induction n as [|n IH]; intros i Hi Hn; cbn [new_map_loop]; [exists []; split_and!; [done..|lia]|].
  destruct (to_types c N Hc i) as (t & k & v & n' & Hty & Hw); [lia|]. rewrite Hty. cbn [mbind option_bind]. rewrite (wh_kind _ _ _ _ Hw). cbn [mbind option_bind].
  destruct (IH (i + 1)) as (l & -> & Hl & Hj); [lia..|]. cbn [mbind option_bind]. eexists. split; [done|]. split; [cbn; lia|]. intros j Hjr.
  destruct (decide (j = 0)) as [->|Hne]; [rewrite Z.add_0_r; by exists t, k, v, n'|].
  destruct (Hj (j - 1)) as (t' & k' & v' & n'' & E1 & E2 & E3); [lia|]. replace (i + 1 + (j - 1)) with (i + j) in * by lia. exists t', k', v', n''. split_and!; auto.
  rewrite <- E3. unfold zget. rewrite !decide_True by lia. replace (Z.to_nat j) with (S (Z.to_nat (j - 1))) by lia. done.
Qed.

(** A fresh state. *)
Record fresh (d : btf_dedup) : Prop := {
  fs_btf : d_btf d = c;
  fs_table : dedup_table d = hashmap__init;
  fs_len : Z.of_nat (length (d_map d)) = N;
  fs_zero : zget (d_map d) 0 = Some 0;
  fs_map : forall j, 0 < j < N -> exists t k v n, btf_type_by_id (view c) j = Some t /\ whole t k v n /\
    zget (d_map d) j = Some (if (k =? BTF_KIND_VAR) || (k =? BTF_KIND_DATASEC) then j else BTF_UNPROCESSED_ID);
  fs_hypot : hypot_map d = replicate (Z.to_nat N) BTF_UNPROCESSED_ID /\ hypot_list d = [] /\ hypot_cap d = 0 /\ hypot_adjust_canon d = false
}.

Lemma dedup_new_spec al : exists r, btf_dedup_new al c = Some r /\ match r with inl err => err = - ENOMEM /\ alloc_fails al | inr d => fresh d end.
Proof.
  unfold btf_dedup_new. destruct (al [0]) eqn:A0; cbn [negb]; [|eexists; split; [done|]; split; [done|by exists [0]]].
  destruct (al [1]) eqn:A1; cbn [negb]; [|eexists; split; [done|]; split; [done|by exists [1]]]. rewrite (to_cnt c N Hc). cbn [mbind option_bind].
  destruct (al [2]) eqn:A2; cbn [negb]; [|eexists; split; [done|]; split; [done|by exists [2]]].
  destruct (to_head c N Hc) as (o & base & _ & HN & Hs & Hnr & _). destruct (new_map_spec (Z.to_nat (N - 1)) 1) as (l & -> & Hl & Hj); [lia..|]. cbn [mbind option_bind].
  destruct (al [3]) eqn:A3; cbn [negb]; [|eexists; split; [done|]; split; [done|by exists [3]]]. eexists. split; [done|].
  split; cbn [d_btf dedup_table d_map hypot_map hypot_list hypot_cap hypot_adjust_canon]; [done|done|cbn [length]; lia|done| |done].
  intros j Hjr. destruct (Hj (j - 1)) as (t & k & v & n & E1 & E2 & E3); [lia|]. replace (1 + (j - 1)) with j in * by lia. exists t, k, v, n. split_and!; auto.
  rewrite <- E3. unfold zget. rewrite !decide_True by lia. replace (Z.to_nat j) with (S (Z.to_nat (j - 1))) by lia. done.
Qed.

(** The base types below [j] have been visited. *)
Record prep_inv (m : Z) (d : btf_dedup) (j : Z) : Prop := {
  pp_btf : d_btf d = c;
  pp_len : Z.of_nat (length (d_map d)) = N;
  pp_table : table_ok d N m;
  pp_self : forall b, 0 < b < j -> zget (d_map d) b = Some b;
  pp_base : forall b, 0 < b < j -> plain c b -> in_table d b;
  pp_new : forall x, in_table d x -> 0 < x < j
}.

Lemma prep_loop_spec al n d m j : prep_inv m d j -> m + Z.of_nat n < 2 ^ 50 -> 0 < j -> j + Z.of_nat n <= N ->
  exists err d', prep_loop hash_fn n al d j = Some (err, d') /\
    (err = 0 /\ prep_inv (m + Z.of_nat n) d' (j + Z.of_nat n) \/ err = - ENOMEM /\ alloc_fails al).
Proof.
  revert d m j. induction n as [|n IH]; intros d m j [Hb Hlen Ht Hself Hbase Hnew] Hm Hj Hn; cbn [prep_loop].
  { exists 0, d. split; [done|]. left. split; [done|]. rewrite !Z.add_0_r. by split. }
  destruct (to_types c N Hc j) as (t & k & v & n' & Hty & Hw); [lia|]. unfold dtype. rewrite Hb, Hty. cbn [mbind option_bind].
  unfold set_map. destruct (zset_is_Some (d_map d) j j) as [m1 Hm1]; [lia|]. rewrite Hm1. cbn [mbind option_bind].
  assert (forall b, 0 < b < j + 1 -> zget m1 b = Some b) as Hs1.
  { intros b Hb'. destruct (decide (b = j)) as [->|]; [by apply (zget_zset_eq _ _ _ _ Hm1)|]. rewrite (zget_zset_ne _ _ _ _ _ Hm1) by done. apply Hself. lia. }
  assert (Z.of_nat (length m1) = N) as Hl1 by (by rewrite (zset_length _ _ _ _ Hm1)).
  replace (m + Z.of_nat (S n)) with (m + 1 + Z.of_nat n) by lia. replace (j + Z.of_nat (S n)) with (j + 1 + Z.of_nat n) by lia.
  destruct (prep_hash_spec t k v n' Hw) as [[-> Hnone]|(h & -> & Hh)]; cbn [mbind option_bind].
  - apply IH; [|lia..]. split; cbn [d_btf d_map with_map]; [done|done| |done| |].
    + destruct Ht as [? ? Hsz ?]. split; auto. cbn [dedup_table with_map]. lia.
    + intros b Hb' Hp. destruct (decide (b = j)) as [->|]; [|apply (Hbase b); [lia|done]]. exfalso. revert Hp. eapply not_plain; [done..|].
      unfold hash_ws in Hnone. unfold plain_kind. destruct ((k =? BTF_KIND_VAR) || (k =? BTF_KIND_DATASEC)) eqn:Ev.
      * by apply orb_true_iff in Ev as [->%Z.eqb_eq | ->%Z.eqb_eq].
      * destruct (Z.eqb_spec k BTF_KIND_INT) as [->|]; [done|]. destruct (Z.eqb_spec k BTF_KIND_FLOAT) as [->|]; [done|].
        destruct (Z.eqb_spec k BTF_KIND_FWD) as [->|]; done.
    + intros x Hx. destruct (Hnew x Hx). lia.
  - destruct (table_add_spec (sub j al) (with_map m1 d) N m h j t k v n') as (err & tb & -> & Ht' & Hcase);
      [split; apply Ht|lia|lia|unfold dtype; cbn; by rewrite Hb|done|done|].
    cbn [mbind option_bind]. destruct Hcase as [[-> Hp]|[-> Hal]]; cbn [Z.eqb negb].
    + apply IH; [|lia..]. assert (forall x, in_table (with_table tb (with_map m1 d)) x <-> x = j \/ in_table d x) as Hin by (intros x; by apply (in_table_add (with_map m1 d) tb h j x)).
      split; cbn [d_btf d_map with_map with_table]; [done|done|done|done| |].
      * intros b Hb' Hpb. apply Hin. destruct (decide (b = j)) as [->|]; [by left|]. right. apply Hbase; [lia|done].
      * intros x [->|Hx]%Hin; [lia|]. destruct (Hnew x Hx). lia.
    + eexists _, _. split; [done|]. right. split; [done|]. by apply fails_sub in Hal.
Qed.

Lemma fresh_table d : fresh d -> table_ok d N 0 /\ forall x, ~ in_table d x.
Proof.
  intros [Hb Ht Hlen Hz Hmap Hhy]. split.
  - split; rewrite ?Ht; [apply init_wf|unfold cap_tight; cbn; lia|cbn; lia|]. intros e He. by apply elem_of_nil in He.
  - intros x (e & He & _). rewrite Ht in He. by apply elem_of_nil in He.
Qed.

Lemma prep_spec al d o base : c = o :: base -> fresh d -> exists err d', btf_dedup_prep hash_fn al d = Some (err, d') /\
  (err = 0 /\ prim_inv c N (o_start_id o) (o_start_id o - 1) d' (o_start_id o) \/ err = - ENOMEM /\ alloc_fails al).
Proof.
  intros Ec Hf. destruct (fresh_table d Hf) as [Htab Hno]. destruct Hf as [Hb Ht Hlen Hz Hmap Hhy]. destruct (to_head c N Hc) as (o' & base' & Ec' & HN & Hs & Hnr & H1).
  rewrite Ec in Ec'. injection Ec' as <- <-. pose proof (to_max c N Hc). unfold btf_dedup_prep. rewrite Hb.
  replace (head c) with (Some o) by (by rewrite Ec). replace (tail c) with base by (by rewrite Ec). cbn [mbind option_bind].
  assert (prep_inv 0 d 1) as Hp0 by (split; [done|done|done|lia|lia|intros x Hx; by apply Hno in Hx]).
  assert (forall m d', prep_inv m d' (o_start_id o) -> prim_inv c N (o_start_id o) m d' (o_start_id o)) as Hfin.
  { intros m d' [P1 P2 P3 P4 P5 P6]. split; [done|done|done|intros x _ Hx; apply P4, P6, Hx|intros j Hj; lia|intros x y Hx _ Hxt; apply P6 in Hxt; lia|done|intros x Hx; apply P6 in Hx; lia]. }
  destruct base as [|b0 base0].
  - exists 0, d. split; [done|]. left. split; [done|]. rewrite (H1 eq_refl) in *. by apply Hfin.
  - destruct (prep_loop_spec al (Z.to_nat (o_start_id o - 1)) d 0 1 Hp0) as (err & d' & -> & Hcase); [lia..|]. exists err, d'. split; [done|].
    destruct Hcase as [[-> Hp]|?]; [left; split; [done|]|by right]. rewrite Z2Nat.id in Hp by lia.
    replace (0 + (o_start_id o - 1)) with (o_start_id o - 1) in Hp by lia. replace (1 + (o_start_id o - 1)) with (o_start_id o) in Hp by lia. by apply Hfin.
Qed.

(** The passes up to the primitive types. *)
Definition dedup_prims (al : oracle) : option (Z * option btf_dedup) :=
  r ← btf_dedup_new (sub 0 al) c;
  match r with
  | inl err => Some (err, None)
  | inr d =>
    '(err, d) ← btf_dedup_prep hash_fn (sub 1 al) d;
    if negb (err =? 0) then Some (err, Some d) else '(err, d) ← btf_dedup_prim_types hash_fn (sub 2 al) d; Some (err, Some d)
  end.

(** Every own plain type is mapped to an equal type that is mapped to itself, and these are all
    different, from each other and from the plain types of the base. *)
Record prims_unique (start : Z) (d : btf_dedup) : Prop := {
  pu_canon : forall j, start <= j < N -> plain c j -> exists r, zget (d_map d) j = Some r /\ plain_eq c j r /\ zget (d_map d) r = Some r;
  pu_uniq : forall x y, start <= x < N -> plain c x -> zget (d_map d) x = Some x -> x <> y ->
    0 < y < start \/ start <= y < N /\ zget (d_map d) y = Some y -> ~ plain_eq c x y
}.

Lemma dedup_prims_spec al o base : c = o :: base -> exists err d, dedup_prims al = Some (err, d) /\
  (err = 0 /\ (exists d', d = Some d' /\ prims_unique (o_start_id o) d' /\ prim_inv c N (o_start_id o) (N - 1) d' N) \/ err = - ENOMEM /\ alloc_fails al).
Proof.
  intros Ec. destruct (to_head c N Hc) as (o' & base' & Ec' & HN & Hs & Hnr & H1). rewrite Ec in Ec'. injection Ec' as <- <-. pose proof (to_max c N Hc).
  unfold dedup_prims. destruct (dedup_new_spec (sub 0 al)) as ([err|d] & -> & Hr); cbn [mbind option_bind].
  { destruct Hr as [-> Hal]. eexists _, _. split; [done|]. right. split; [done|]. by apply fails_sub in Hal. }
  destruct (prep_spec (sub 1 al) d o base Ec Hr) as (err & d1 & -> & Hcase). cbn [mbind option_bind].
  destruct Hcase as [[-> Hinv]|[-> Hal]]; cbn [Z.eqb negb]; [|eexists _, _; split; [done|]; right; split; [done|by apply fails_sub in Hal]].
  unfold btf_dedup_prim_types, own_types. rewrite (pv_btf _ _ _ _ _ _ Hinv).
  replace (head c) with (Some o) by (by rewrite Ec). cbn [mbind option_bind].
  destruct (prim_pass c N (o_start_id o) Hc Hs (sub 2 al) (Z.to_nat (o_nr_types o)) d1 (o_start_id o - 1) (o_start_id o) Hinv) as (err & d2 & -> & Hcase); [lia..|].
  cbn [mbind option_bind]. eexists _, _. split; [done|]. destruct Hcase as [[-> Hinv2]|[-> Hal]]; [left|right; split; [done|by apply fails_sub in Hal]].
  split; [done|]. exists d2. split; [done|]. rewrite Z2Nat.id in Hinv2 by lia. rewrite <- HN in Hinv2. replace (o_start_id o - 1 + o_nr_types o) with (N - 1) in Hinv2 by lia.
  split; [|done]. destruct Hinv2 as [Hb Hlen Ht Hself Hdone Huniq Hbase Hnew]. split.
  - intros j Hj Hp. destruct (Hdone j) as (r & Hrt & Heq & Hg); [lia|done|]. exists r. split_and!; [done|done|]. apply Hself; [|done]. by apply plain_eq_kinds in Heq as [_ ?].
  - intros x y Hx Hp Hxx Hne Hy Heq. apply plain_eq_kinds in Heq as Hk. destruct Hk as [_ Hpy].
    assert (in_table d2 x) as Hxt. { destruct (Hdone x) as (r & Hrt & _ & Hg); [lia|done|]. congruence. }
    apply (Huniq x y); try done; [lia|]. destruct Hy as [Hy|[Hy Hyy]]; [by apply Hbase|]. destruct (Hdone y) as (r & Hrt & _ & Hg); [lia|done|]. congruence.
Qed.
End Prep.

(** For every object whose types are complete, and every hash function of the table and
    outcome of the allocations, the preparation and the pass over primitive types return; if no
    allocation fails, every own integer, float and forward declaration is mapped to an equal type
    that is mapped to itself, and no two of these canonical types, nor one of them and a type of
    the base, are equal. *)
Theorem prim_types_dedup al c N o base : types_ok c N -> c = o :: base -> exists err d, dedup_prims c al = Some (err, d) /\
  (err = 0 /\ (exists d', d = Some d' /\ prims_unique c N (o_start_id o) d') \/ err = - ENOMEM /\ alloc_fails al).
Proof.
  intros Hc Ec. destruct (dedup_prims_spec c N Hc al o base Ec) as (err & d & Hd & Hcase). exists err, d. split; [done|].
  destruct Hcase as [[-> (d' & -> & Hu & _)]|?]; [left; eauto|by right].
Qed.
End Table.

(** ** A sample object *)

(** An integer twice, a list structure with a pointer to itself twice, and a forward declaration
    of it with a pointer. *)
Definition dedup_sample : btf_obj :=
  BtfObj (BtfHeader BTF_MAGIC 24 0 152 152 13)
    ([1; btf_type_info BTF_KIND_INT 0 false; 4; 32] ++
     [5; btf_type_info BTF_KIND_STRUCT 2 false; 16; 9; 1; 0; 11; 3; 64] ++
     [0; btf_type_info BTF_KIND_PTR 0 false; 2] ++
     [1; btf_type_info BTF_KIND_INT 0 false; 4; 32] ++
     [5; btf_type_info BTF_KIND_STRUCT 2 false; 16; 9; 4; 0; 11; 6; 64] ++
     [0; btf_type_info BTF_KIND_PTR 0 false; 5] ++
     [5; btf_type_info BTF_KIND_FWD 0 false; 0] ++
     [0; btf_type_info BTF_KIND_PTR 0 false; 7]) 0
    [0; 16; 52; 64; 80; 116; 128; 140] 8 8 1 0
    (StrsRaw [0; 105; 110; 116; 0; 102; 111; 111; 0; 97; 0; 110; 0]) 8.

(** One subgoal for each of the ids 1 to 8. *)
Ltac each_id id := let H := fresh in assert (id = 1 \/ id = 2 \/ id = 3 \/ id = 4 \/ id = 5 \/ id = 6 \/ id = 7 \/ id = 8) as H by lia; destruct_or! H; subst id.

Lemma dedup_sample_types : types_ok [dedup_sample] 9.
Proof.
  split; [reflexivity|exists dedup_sample, []; split_and!; [done|done|done|done|done]|lia|].
  intros id Hid. assert (exists k v n, (forall t, btf_type_by_id (view [dedup_sample]) id = Some t -> whole t k v n) /\ is_Some (btf_type_by_id (view [dedup_sample]) id)) as (k & v & n & Hw & [t Ht]);
    [|exists t, k, v, n; auto].
  each_id id; [exists BTF_KIND_INT, 0, 1|exists BTF_KIND_STRUCT, 2, 6|exists BTF_KIND_PTR, 0, 0|exists BTF_KIND_INT, 0, 1|exists BTF_KIND_STRUCT, 2, 6|exists BTF_KIND_PTR, 0, 0|exists BTF_KIND_FWD, 0, 0|exists BTF_KIND_PTR, 0, 0];
    (split; [intros t [= <-]; split; vm_compute; done|eexists; reflexivity]).
Qed.

Lemma prim_types_dedup_witness : types_ok [dedup_sample] 9 /\
  exists err d, dedup_prims btf_dedup_identity_hash_fn [dedup_sample] (fun _ => true) = Some (err, d) /\
  (err = 0 /\ (exists d', d = Some d' /\ prims_unique [dedup_sample] 9 1 d') \/ err = - ENOMEM /\ alloc_fails (fun _ => true)).
Proof.
  split; [apply dedup_sample_types|]. apply (prim_types_dedup btf_dedup_identity_hash_fn (fun _ => true) [dedup_sample] 9 dedup_sample []); [apply dedup_sample_types|reflexivity].
Defined.
