(* ===== verification/DedupEquiv.v ===== *)
(** * Deduplication: equivalence of type graphs

    [btf_dedup_is_equiv] walks two type graphs side by side.  [is_equiv_simulation]: on any object
    with complete types and valid references it returns, and when it answers yes, the hypothetical
    map is a simulation: each of its pairs agrees in name, kind and everything that is not a
    reference (or is a forward declaration and a struct or union of its name and kind), and the
    types they refer to are again related: they have the same canonical type, form a pair of the
    map, or are identical in the sense of [btf_dedup_identical_types] to such a pair.

    [identical_arrays_bug]: for arrays that sense is too weak. *)
From stdpp Require Import base numbers list gmap sorting.
From S2P Require Import Prelude Hashmap Strset Btf BtfBuild BtfBuildSpec BtfIter BtfCopy BtfDedup DedupPrim.

(** ** Canonical ids *)

(** [x] leads to [r] in [k] steps of the map. *)
Inductive resolves (m : list Z) : nat -> Z -> Z -> Prop :=
  | res_root x v : zget m x = Some v -> BTF_MAX_NR_TYPES < v \/ v = x -> resolves m 0 x x
  | res_step k x v r : zget m x = Some v -> v <= BTF_MAX_NR_TYPES -> v <> x -> resolves m k v r -> resolves m (S k) x r.

Definition rooted (m : list Z) : Prop := forall x, 0 <= x < Z.of_nat (length m) -> exists k r, resolves m k x r.

Lemma resolves_fun m k x r : resolves m k x r -> forall k' r', resolves m k' x r' -> k' = k /\ r' = r.
Proof.
  induction 1 as [x v Hv Hr|k x v r Hv Hm Hne _ IH]; intros k' r' H'; inversion H' as [x' v' Hv' Hr'|k1 x' v' r1 Hv' Hm' Hne' H1]; subst; simplify_eq; try done; try lia.
  destruct (IH _ _ H1) as [-> ->]. done.
Qed.

Lemma resolves_range m k x r : resolves m k x r -> 0 <= x < Z.of_nat (length m) /\ 0 <= r < Z.of_nat (length m).
Proof. induction 1 as [x v Hv Hr|k x v r Hv Hm Hne _ IH]; apply zget_lt in Hv; [done|split; [done|apply IH]]. Qed.

(** The ids on the way are different, so there are at most as many as the map has. *)
Lemma resolves_path m k x r : resolves m k x r -> exists l, length l = S k /\ NoDup l /\ forall y, y ∈ l -> exists k', (k' <= k)%nat /\ resolves m k' y r.
Proof.
  induction 1 as [x v Hv Hr|k x v r Hv Hm Hne Hres (l & Hl & Hnd & Hin)].
  - exists [x]. split; [done|]. split; [apply NoDup_singleton|]. intros y ->%list_elem_of_singleton. exists 0%nat. split; [lia|]. by apply (res_root m x v).
  - exists (x :: l). split; [cbn; lia|]. assert (resolves m (S k) x r) as Hx by (by apply (res_step m k x v r)). split.
    + apply NoDup_cons. split; [|done]. intros Hxl. destruct (Hin x Hxl) as (k' & Hk' & H'). destruct (resolves_fun _ _ _ _ Hx _ _ H') as [-> _]. lia.
    + intros y [->|Hy]%elem_of_cons; [exists (S k); split; [lia|done]|]. destruct (Hin y Hy) as (k' & ? & ?). exists k'. split; [lia|done].
Qed.

Lemma resolves_bound m k x r : resolves m k x r -> (k < length m)%nat.
Proof.
  intros H. destruct (resolves_path _ _ _ _ H) as (l & Hl & Hnd & Hin). assert (l ⊆+ seqZ 0 (Z.of_nat (length m))) as Hs.
  { apply NoDup_submseteq; [done|]. intros y Hy. destruct (Hin y Hy) as (k' & _ & Hr). apply resolves_range in Hr as [Hy' _]. apply elem_of_seqZ. lia. }
  apply submseteq_length in Hs. rewrite length_seqZ in Hs. lia.
Qed.

Lemma resolve_loop_spec m k x r fuel : resolves m k x r -> (k < fuel)%nat -> resolve_loop fuel m x = Some r.
Proof.
  intros H. revert fuel. induction H as [x v Hv Hr|k x v r Hv Hm Hne _ IH]; intros fuel Hf; (destruct fuel as [|fuel]; [lia|]); cbn [resolve_loop]; rewrite Hv; cbn [mbind option_bind].
  - destruct (Z.leb_spec v BTF_MAX_NR_TYPES), (Z.eqb_spec v x); cbn [andb negb]; try done; lia.
  - rewrite (proj2 (Z.leb_le _ _)), (proj2 (Z.eqb_neq _ _)) by done. cbn [andb negb]. apply IH. lia.
Qed.

Lemma resolve_spec d k x r : resolves (d_map d) k x r -> resolve_type_id d x = Some r.
Proof. intros H. apply (resolve_loop_spec _ k); [done|]. pose proof (resolves_bound _ _ _ _ H). lia. Qed.

Lemma resolve_total d x : rooted (d_map d) -> 0 <= x < Z.of_nat (length (d_map d)) -> exists k r, resolves (d_map d) k x r /\ resolve_type_id d x = Some r.
Proof. intros Hr Hx. destruct (Hr x Hx) as (k & r & H). exists k, r. split; [done|]. by apply (resolve_spec d k). Qed.

(** An id that is mapped to itself or to another root: the links stay without cycles. *)
Lemma link_root m m' x y : rooted m -> zset m x y = Some m' -> y <= BTF_MAX_NR_TYPES -> (y <> x -> resolves m 0 y y) -> rooted m'.
Proof.
  intros Hm Hs Hy Hroot z Hz. rewrite (zset_length _ _ _ _ Hs) in Hz. destruct (Hm z Hz) as (k & r & Hr). clear Hz.
  assert (exists k r, resolves m' k x r) as Hx.
  { pose proof (zget_zset_eq _ _ _ _ Hs) as Ex. destruct (decide (y = x)) as [->|Hyx]; [exists 0%nat, x; apply (res_root m' x x); [done|by right]|].
    specialize (Hroot Hyx). inversion Hroot as [y' v Hv Hvr|]; subst y'. exists 1%nat, y. apply (res_step m' 0 x y y); [done|done|done|].
    apply (res_root m' y v); [by rewrite (zget_zset_ne _ _ _ _ _ Hs)|done]. }
  induction Hr as [z v Hv Hr|k z v r Hv Hmx Hnz _ IH]; (destruct (decide (z = x)) as [->|Hzx]; [done|]).
  - exists 0%nat, z. apply (res_root m' z v); [by rewrite (zget_zset_ne _ _ _ _ _ Hs)|done].
  - destruct IH as (k' & r' & Hr'). exists (S k'), r'. apply (res_step m' k' z v r'); [by rewrite (zget_zset_ne _ _ _ _ _ Hs)|done..].
Qed.

(** ** The type graph *)

(** Every reference of a type is an id of the object. *)
Definition refs_ok (c : chain) (N : Z) : Prop := forall id t k v n j x, 0 < id < N -> btf_type_by_id (view c) id = Some t -> whole t k v n ->
  0 <= j < 3 + n -> field_word BTF_FIELD_ITER_IDS k j = true -> word t j = Some x -> 0 <= x < N.

(** No cycle consists of modifiers, pointers, typedefs and functions only: in C a cycle of types
    goes through a struct or union. *)
Definition ranked (c : chain) (N : Z) : Prop := exists rk : Z -> nat, forall id, 0 <= id < N -> (rk id <= Z.to_nat N)%nat /\
  forall t k x, btf_type_by_id (view c) id = Some t -> btf_kind t = Some k -> chain_kind k = true -> type t = Some x -> (rk x < rk id)%nat.

Record graph_ok (c : chain) (N : Z) : Prop := { gr_types : types_ok c N; gr_refs : refs_ok c N; gr_ranked : ranked c N }.

(** The words of a kind that are references, in the order in which they are compared. *)
Definition ref_ws (k v : Z) : list Z :=
  if chain_kind k then [2]
  else if k =? BTF_KIND_ARRAY then [4; 3]
  else if kind_is_composite k then elem_words v 3 [1]
  else if k =? BTF_KIND_FUNC_PROTO then [2] ++ elem_words v 2 [1]
  else [].

Lemma elem_words_in v m offs j : j ∈ elem_words v m offs <-> exists i o, 0 <= i < v /\ o ∈ offs /\ j = 3 + m * i + o.
Proof.
  unfold elem_words. rewrite list_elem_of_join. split.
  - intros (l & Hj & Hl). apply list_elem_of_fmap in Hl as (i & -> & Hi). apply list_elem_of_fmap in Hj as (o & -> & Ho). apply elem_of_seqZ in Hi. exists i, o. split_and!; [lia|lia|done|done].
  - intros (i & o & Hi & Ho & ->). exists ((fun o => 3 + m * i + o) <$> offs). split; apply list_elem_of_fmap; [by exists o|]. exists i. split; [done|]. apply elem_of_seqZ. lia.
Qed.

Lemma chain_kind_ref k : chain_kind k = true -> ref_kind k = true.
Proof.
  unfold chain_kind. repeat rewrite orb_true_iff. rewrite !Z.eqb_eq. intros H. destruct_or! H; subst k; done.
Qed.

Lemma ref_ws_fields t k v n j : whole t k v n -> j ∈ ref_ws k v -> 0 <= j < 3 + n /\ field_word BTF_FIELD_ITER_IDS k j = true.
Proof.
  intros Hw Hj. pose proof (whole_ranges _ _ _ _ Hw) as (_ & Hv & Hn). destruct (kind_eqs t k v n Hw) as (_ & _ & E3 & E4 & E5 & _). unfold ref_ws in Hj.
  destruct (chain_kind k) eqn:Hck; [apply list_elem_of_singleton in Hj as ->; split; [lia|]; unfold field_word; by rewrite chain_kind_ref|].
  destruct (Z.eqb_spec k BTF_KIND_ARRAY) as [->|]; [rewrite (E4 eq_refl); apply elem_of_cons in Hj as [-> | ->%list_elem_of_singleton]; split; done || lia|].
  destruct (kind_is_composite k) eqn:Hco.
  { apply elem_words_in in Hj as (i & o & Hi & ->%list_elem_of_singleton & ->). rewrite (E3 eq_refl). split; [lia|].
    replace (3 + 3 * i + 1) with (3 + (3 * i + 1)) by lia. rewrite field_word_rest by lia. unfold id_slot, kind_is_composite in *.
    rewrite Hco. destruct (Z.eqb_spec k BTF_KIND_ARRAY); [done|]. rewrite Z.add_comm, Z.mul_comm, Z_mod_plus_full. done. }
  destruct (Z.eqb_spec k BTF_KIND_FUNC_PROTO) as [->|]; [|by apply elem_of_nil in Hj].
  apply elem_of_app in Hj as [->%list_elem_of_singleton|Hj]; [split; [lia|done]|].
  apply elem_words_in in Hj as (i & o & Hi & ->%list_elem_of_singleton & ->). rewrite (E5 eq_refl). split; [lia|].
  replace (3 + 2 * i + 1) with (3 + (2 * i + 1)) by lia. rewrite field_word_rest by lia. unfold id_slot. cbn.
  rewrite Z.add_comm, Z.mul_comm, Z_mod_plus_full. done.
Qed.

(** Membership in a list whose first elements are given. *)
Ltac in_list := solve [cbn [app]; repeat first [constructor 1 | constructor 2]].

Section Graph.
Context (c : chain) (N : Z).
Hypothesis Hg : graph_ok c N.

Lemma id_type id : 0 <= id < N -> exists t, btf_type_by_id (view c) id = Some t /\ (id = 0 /\ t = btf_void \/ 0 < id /\ exists k v n, whole t k v n).
Proof.
  intros Hid. destruct (decide (id = 0)) as [->|Hz].
  - exists btf_void. split; [|by left]. destruct (to_head _ _ (gr_types _ _ Hg)) as (o & base & -> & _). done.
  - destruct (to_types _ _ (gr_types _ _ Hg) id) as (t & k & v & n & Ht & Hw); [lia|]. exists t. split; [done|]. right. split; [lia|]. eauto.
Qed.

Lemma void_kind t k v n : whole t k v n -> k <> 0.
Proof. intros [_ _ Hr _] ->. done. Qed.

Lemma id_facts id : 0 <= id < N -> exists t k s f, btf_type_by_id (view c) id = Some t /\ btf_kind t = Some k /\ word t 0 = Some s /\ btf_fwd_kind t = Some f /\
  0 < f /\ (k <> 0 -> 0 < id /\ exists v n, whole t k v n).
Proof.
  intros Hid. destruct (id_type id Hid) as (t & Ht & [[-> ->]|[Hp (k & v & n & Hw)]]); [by exists btf_void, 0, 0, BTF_KIND_STRUCT|].
  pose proof (whole_ranges _ _ _ _ Hw). destruct (whole_word _ _ _ _ 0 Hw) as [s Hs]; [lia|]. destruct (whole_word _ _ _ _ 1 Hw) as [i Hi]; [lia|].
  exists t, k, s, (if negb (i >>' 31 =? 0) then BTF_KIND_UNION else BTF_KIND_STRUCT). split_and!; [done|apply (wh_kind _ _ _ _ Hw)|done| | |].
  - unfold btf_fwd_kind, btf_kflag, info. by rewrite Hi.
  - by destruct (negb (i >>' 31 =? 0)).
  - intros _. split; [done|]. by exists v, n.
Qed.

(** References of a type, and their ranks. *)
Lemma ref_ok id t k v n j : 0 < id < N -> btf_type_by_id (view c) id = Some t -> whole t k v n -> j ∈ ref_ws k v -> exists x, word t j = Some x /\ 0 <= x < N.
Proof.
  intros Hid Ht Hw Hj. destruct (ref_ws_fields t k v n j Hw Hj) as [Hr Hf]. destruct (whole_word t k v n j Hw Hr) as [x Hx]. exists x. split; [done|].
  by apply (gr_refs _ _ Hg id t k v n j x).
Qed.

(** ** Identical types *)
Lemma identical_total : forall fuel id1 id2 depth rk, (forall id, 0 <= id < N -> (rk id <= Z.to_nat N)%nat /\
    forall t k x, btf_type_by_id (view c) id = Some t -> btf_kind t = Some k -> chain_kind k = true -> type t = Some x -> (rk x < rk id)%nat) ->
  0 <= id1 < N -> 0 <= id2 < N -> (Z.to_nat depth * S (Z.to_nat N) + rk id1 < fuel)%nat -> exists b, btf_dedup_identical_types fuel (view c) id1 id2 depth = Some b.
Proof.
  induction fuel as [|fuel IH]; intros id1 id2 depth rk Hrk Hid1 Hid2 Hf; [lia|]. cbn [btf_dedup_identical_types].
  destruct (Z.leb_spec depth 0); [eauto|].
  assert (forall x1 x2, 0 <= x1 < N -> 0 <= x2 < N -> exists b, (if x1 =? x2 then Some true else btf_dedup_identical_types fuel (view c) x1 x2 (depth - 1)) = Some b) as Hsame.
  { intros x1 x2 H1 H2. destruct (x1 =? x2); [eauto|]. apply (IH _ _ _ rk); auto. destruct (Hrk x1 H1) as [Hle _]. replace (Z.to_nat depth) with (S (Z.to_nat (depth - 1))) in Hf by lia. lia. }
  destruct (id_type id1 Hid1) as (t1 & Ht1 & Hc1). destruct (id_type id2 Hid2) as (t2 & Ht2 & Hc2). rewrite Ht1, Ht2. cbn [mbind option_bind].
  destruct Hc1 as [[-> ->]|[Hp1 (k & v & n & Hw1)]].
  { destruct Hc2 as [[-> ->]|[Hp2 (k2 & v2 & n2 & Hw2)]]; [cbn; eauto|]. rewrite (wh_kind _ _ _ _ Hw2). cbn [mbind option_bind].
    change (btf_kind btf_void) with (Some 0). cbn [mbind option_bind]. pose proof (void_kind _ _ _ _ Hw2). rewrite (proj2 (Z.eqb_neq 0 k2)) by done. cbn. eauto. }
  rewrite (wh_kind _ _ _ _ Hw1). cbn [mbind option_bind]. destruct Hc2 as [[-> ->]|[Hp2 (k2 & v2 & n2 & Hw2)]].
  { change (btf_kind btf_void) with (Some 0). cbn [mbind option_bind]. rewrite (proj2 (Z.eqb_neq k 0)) by (by apply void_kind in Hw1). cbn. eauto. }
  rewrite (wh_kind _ _ _ _ Hw2). cbn [mbind option_bind]. destruct (Z.eqb_spec k k2) as [<-|]; cbn [negb]; [|eauto].
  rewrite (proj2 (Z.eqb_neq k BTF_KIND_UNKN)) by (by apply void_kind in Hw1). destruct (kind_eqs t1 k v n Hw1) as (_ & _ & E3 & E4 & E5 & E6).
  destruct (Z.eqb_spec k BTF_KIND_INT) as [Ek|Ek]; [rewrite (E6 (or_introl Ek)) in Hw1; destruct (equal_int_spec t1 t2 _ _ _ _ _ Hw1 Hw2) as (b & -> & _); eauto|].
  destruct (kind_is_any_enum k) eqn:Hk; [destruct (compat_enum_spec t1 t2 _ _ _ _ _ _ Hw1 Hw2 Hk) as (b & -> & _); eauto|].
  destruct ((k =? BTF_KIND_FWD) || (k =? BTF_KIND_FLOAT)); [destruct (equal_common_spec t1 t2 _ _ _ _ _ _ Hw1 Hw2) as (b & -> & _); eauto|].
  pose proof (fun j => ref_ok id1 t1 k v n j ltac:(lia) Ht1 Hw1) as Hr1. pose proof (fun j => ref_ok id2 t2 k v2 n2 j ltac:(lia) Ht2 Hw2) as Hr2.
  pose proof (whole_ranges _ _ _ _ Hw1). pose proof (whole_ranges _ _ _ _ Hw2).
  destruct (chain_kind k) eqn:Hck.
  { destruct (whole_word _ _ _ _ 0 Hw1) as [a0 A0]; [lia|]. destruct (whole_word _ _ _ _ 0 Hw2) as [b0 B0]; [lia|].
    destruct (whole_word _ _ _ _ 1 Hw1) as [a1 A1]; [lia|]. destruct (whole_word _ _ _ _ 1 Hw2) as [b1 B1]; [lia|].
    unfold info, name_off. rewrite A0, A1, B0, B1. cbn [mbind option_bind]. destruct (_ || _); [eauto|].
    unfold ref_ws in Hr1, Hr2. rewrite Hck in Hr1, Hr2. destruct (Hr1 2) as (x & Hx & Hxr); [left|]. destruct (Hr2 2) as (y & Hy & Hyr); [left|].
    unfold type. rewrite Hx, Hy. cbn [mbind option_bind]. apply (IH _ _ _ rk); auto. destruct (Hrk id1 Hid1) as [_ Hlt].
    specialize (Hlt t1 k x Ht1 (wh_kind _ _ _ _ Hw1) Hck Hx). lia. }
  unfold ref_ws in Hr1, Hr2. rewrite Hck in Hr1, Hr2. destruct (Z.eqb_spec k BTF_KIND_ARRAY) as [Ea|Ea].
  { destruct (compat_array_spec t1 t2 _ _ _ _ _ _ Hw1 Hw2 Ea) as (b & -> & _). cbn [mbind option_bind]. destruct b; cbn [negb]; [|eauto].
    rewrite (E4 Ea) in *. destruct (Hr1 3) as (x & Hx & Hxr); [in_list|]. destruct (Hr1 4) as (y & Hy & Hyr); [in_list|]. destruct (whole_word _ _ _ _ 5 Hw1) as [z Hz]; [lia|].
    unfold array_of. rewrite Hx, Hy, Hz. cbn [mbind option_bind arr_index_type arr_type]. rewrite !Z.eqb_refl. cbn [mbind option_bind negb]. eauto. }
  destruct (kind_is_composite k) eqn:Hco.
  { destruct (shallow_spec t1 t2 _ _ _ _ _ _ Hw1 Hw2 Hco) as (b & -> & Hsh). cbn [mbind option_bind]. destruct b; cbn [negb]; [|eauto].
    destruct (info_kind t1 t2 _ _ _ _ _ _ Hw1 Hw2) as (_ & <- & <-); [apply (proj1 Hsh eq_refl); in_list|].
    rewrite (wh_vlen _ _ _ _ Hw1). cbn [mbind option_bind]. edestruct all_loop_spec as (b & -> & _); [|eauto]. intros i Hi.
    destruct (Hr1 (3 + 3 * i + 1)) as (x & Hx & Hxr); [apply elem_words_in; exists i, 1; split_and!; [lia|lia|left|lia]|].
    destruct (Hr2 (3 + 3 * i + 1)) as (y & Hy & Hyr); [apply elem_words_in; exists i, 1; split_and!; [lia|lia|left|lia]|].
    rewrite (E3 eq_refl) in *. destruct (whole_word _ _ _ _ (3 + 3 * i) Hw1) as [a0 A0]; [lia|]. destruct (whole_word _ _ _ _ (3 + 3 * i) Hw2) as [b0 B0]; [lia|].
    destruct (whole_word _ _ _ _ (3 + 3 * i + 2) Hw1) as [a1 A1]; [lia|]. destruct (whole_word _ _ _ _ (3 + 3 * i + 2) Hw2) as [b1 B1]; [lia|].
    unfold btf_member_at. rewrite A0, B0, Hx, Hy, A1, B1. cbn [mbind option_bind m_type]. by apply Hsame. }
  destruct (Z.eqb_spec k BTF_KIND_FUNC_PROTO) as [Ef|]; [|eauto].
  destruct (compat_fnproto_spec t1 t2 _ _ _ _ _ _ Hw1 Hw2 Ef) as (b & -> & Hsh). cbn [mbind option_bind]. destruct b; cbn [negb]; [|eauto].
  destruct (info_kind t1 t2 _ _ _ _ _ _ Hw1 Hw2) as (_ & <- & <-); [apply (proj1 Hsh eq_refl); in_list|].
  destruct (Hr1 2) as (x & Hx & Hxr); [in_list|]. destruct (Hr2 2) as (y & Hy & Hyr); [in_list|]. unfold type. rewrite Hx, Hy. cbn [mbind option_bind].
  destruct (Hsame x y Hxr Hyr) as (b & ->). cbn [mbind option_bind]. destruct b; cbn [negb]; [|eauto].
  rewrite (wh_vlen _ _ _ _ Hw1). cbn [mbind option_bind]. edestruct all_loop_spec as (b & -> & _); [|eauto]. intros i Hi.
  destruct (Hr1 (3 + 2 * i + 1)) as (x1 & Hx1 & Hx1r); [apply elem_of_app; right; apply elem_words_in; exists i, 1; split_and!; [lia|lia|left|lia]|].
  destruct (Hr2 (3 + 2 * i + 1)) as (y1 & Hy1 & Hy1r); [apply elem_of_app; right; apply elem_words_in; exists i, 1; split_and!; [lia|lia|left|lia]|].
  rewrite (E5 Ef) in *. destruct (whole_word _ _ _ _ (3 + 2 * i) Hw1) as [a0 A0]; [lia|]. destruct (whole_word _ _ _ _ (3 + 2 * i) Hw2) as [b0 B0]; [lia|].
  unfold btf_param_at. rewrite A0, B0, Hx1, Hy1. cbn [mbind option_bind]. by apply Hsame.
Qed.

(** ** The hypothetical map *)

(** [cand] is taken to be the same type as [canon]. *)
Definition accepted (d : btf_dedup) (cand canon : Z) : Prop :=
  (exists r, resolve_type_id d cand = Some r /\ resolve_type_id d canon = Some r) \/
  (exists canon' h, resolve_fwd_id d canon = Some canon' /\ zget (hypot_map d) canon' = Some h /\ h <= BTF_MAX_NR_TYPES /\
    (h = cand \/ btf_dedup_identical_types (identical_fuel d) (view (d_btf d)) h cand 16 = Some true)).

(** The words in which types of a kind are compared; [None]: the kind does not occur in graphs. *)
Definition shape_ws (k v : Z) : option (list Z) :=
  if k =? BTF_KIND_INT then Some [0; 1; 2; 3]
  else if (k =? BTF_KIND_FWD) || (k =? BTF_KIND_FLOAT) then Some [0; 1; 2]
  else if chain_kind k then Some [0; 1]
  else if k =? BTF_KIND_ARRAY then Some [0; 1; 2; 5]
  else if kind_is_composite k then Some ([0; 1; 2] ++ elem_words v 3 [0; 2])
  else if k =? BTF_KIND_FUNC_PROTO then Some ([0; 1] ++ elem_words v 2 [0])
  else None.

(** Two types agree and the types they refer to are accepted. *)
Inductive matches (d : btf_dedup) (t1 : btf_type) (k1 v1 : Z) (t2 : btf_type) (k2 v2 : Z) : Prop :=
  | match_cand_fwd : k1 = BTF_KIND_FWD -> k2 <> BTF_KIND_FWD -> btf_fwd_kind t1 = Some k2 -> matches d t1 k1 v1 t2 k2 v2
  | match_canon_fwd : k2 = BTF_KIND_FWD -> k1 <> BTF_KIND_FWD -> btf_fwd_kind t2 = Some k1 -> matches d t1 k1 v1 t2 k2 v2
  | match_enum : k1 = k2 -> kind_is_any_enum k1 = true -> v1 = 0 \/ v2 = 0 \/ v1 = v2 /\ same_words (enum_words k1 v1) t1 t2 -> matches d t1 k1 v1 t2 k2 v2
  | match_shape ws : k1 = k2 -> v1 = v2 -> shape_ws k1 v1 = Some ws -> same_words ws t1 t2 ->
      (forall j x y, j ∈ ref_ws k1 v1 -> word t1 j = Some x -> word t2 j = Some y -> accepted d x y) -> matches d t1 k1 v1 t2 k2 v2.

Definition local (d : btf_dedup) (cand canon : Z) : Prop := exists t1 k1 v1 n1 t2 k2 v2 n2,
  btf_type_by_id (view c) cand = Some t1 /\ whole t1 k1 v1 n1 /\ btf_type_by_id (view c) canon = Some t2 /\ whole t2 k2 v2 n2 /\
  word t1 0 = word t2 0 /\ matches d t1 k1 v1 t2 k2 v2.

Record hyp_inv (m : list Z) (d : btf_dedup) : Prop := {
  hi_btf : d_btf d = c;
  hi_map : d_map d = m;
  hi_len : length (hypot_map d) = Z.to_nat N;
  hi_nodup : NoDup (hypot_list d);
  hi_list : forall id, id ∈ hypot_list d <-> exists h, zget (hypot_map d) id = Some h /\ h <= BTF_MAX_NR_TYPES;
  hi_ids : forall id h, zget (hypot_map d) id = Some h -> h <= BTF_MAX_NR_TYPES -> 0 <= h < N
}.

(** Entries are only added. *)
Definition ext (d d' : btf_dedup) : Prop := hypot_list d `prefix_of` hypot_list d' /\
  (forall id, id ∈ hypot_list d -> zget (hypot_map d') id = zget (hypot_map d) id) /\ dedup_table d' = dedup_table d.

Lemma ext_refl d : ext d d.
Proof. done. Qed.
Lemma ext_trans d1 d2 d3 : ext d1 d2 -> ext d2 d3 -> ext d1 d3.
Proof.
  intros (P1 & H1 & E1) (P2 & H2 & E2). split_and!; [by etrans| |by etrans]. intros id Hid. rewrite H2, H1; [done|done|]. destruct P1 as [l ->]. apply elem_of_app. by left.
Qed.

Section Equiv.
Context (al : oracle) (m : list Z).
Hypothesis Hm : rooted m.
Hypothesis Hml : length m = Z.to_nat N.

Lemma hyp_cnt_bound d : hyp_inv m d -> (length (hypot_list d) <= Z.to_nat N)%nat.
Proof.
  intros Hi. assert (hypot_list d ⊆+ seqZ 0 N) as Hs.
  { apply NoDup_submseteq; [apply (hi_nodup _ _ Hi)|]. intros y (h & Hh & _)%(hi_list _ _ Hi). apply zget_lt in Hh. rewrite (hi_len _ _ Hi) in Hh. apply elem_of_seqZ. lia. }
  apply submseteq_length in Hs. by rewrite length_seqZ in Hs.
Qed.

Lemma accepted_mono d d' x y : hyp_inv m d -> hyp_inv m d' -> ext d d' -> accepted d x y -> accepted d' x y.
Proof.
  intros Hi Hi' (_ & He & _). unfold accepted, resolve_fwd_id, id_is_fwd, resolve_type_id, identical_fuel.
  rewrite (hi_btf _ _ Hi), (hi_btf _ _ Hi'), (hi_map _ _ Hi), (hi_map _ _ Hi'). intros [H|(cn & h & Hc & Hh & Hle & H)]; [by left|right].
  exists cn, h. rewrite He; [done|]. apply (hi_list _ _ Hi). eauto.
Qed.

Lemma local_mono d d' x y : hyp_inv m d -> hyp_inv m d' -> ext d d' -> local d x y -> local d' x y.
Proof.
  intros Hi Hi' He (t1 & k1 & v1 & n1 & t2 & k2 & v2 & n2 & T1 & W1 & T2 & W2 & H0 & Hma). exists t1, k1, v1, n1, t2, k2, v2, n2. split_and!; [done..|].
  destruct Hma as [?|?|?|ws ? ? ? ? Hr]; [by apply match_cand_fwd|by apply match_canon_fwd|by apply match_enum|].
  apply (match_shape _ _ _ _ _ _ _ ws); [done..|]. intros j x' y' Hj Hx Hy. apply (accepted_mono d d'); [done..|]. by apply (Hr j).
Qed.

(** A call that starts in [d]: it returns, adds entries, and when its answer is yes, [P] holds
    and the new entries are pairs of types that agree. *)
Definition good (d : btf_dedup) (P : btf_dedup -> Prop) (res : option (Z * btf_dedup)) : Prop := exists r d',
  res = Some (r, d') /\ hyp_inv m d' /\ ext d d' /\
  (r = 1 /\ P d' /\ (forall id h, id ∈ hypot_list d' -> id ∉ hypot_list d -> zget (hypot_map d') id = Some h -> local d' h id) \/
   r = 0 \/ r = - EINVAL \/ r = - ENOMEM /\ alloc_fails al).

Definition stable (P : btf_dedup -> Prop) : Prop := forall d d', hyp_inv m d -> hyp_inv m d' -> ext d d' -> P d -> P d'.

Lemma good_yes d (P : btf_dedup -> Prop) : hyp_inv m d -> P d -> good d P (Some (1, d)).
Proof. intros Hi HP. exists 1, d. split_and!; [done|done|apply ext_refl|]. left. split_and!; [done|done|]. intros id h H1 H2. done. Qed.

Lemma good_no d P : hyp_inv m d -> good d P (Some (0, d)).
Proof. intros Hi. exists 0, d. split_and!; [done|done|apply ext_refl|]. right. by left. Qed.

Lemma good_answer d (P : btf_dedup -> Prop) b Q : hyp_inv m d -> decides b Q -> (Q -> P d) -> good d P (equal_answer b d).
Proof. intros Hi (x & -> & Hx) HP. destruct x; cbn; [apply good_yes; [done|]; by apply HP, Hx|by apply good_no]. Qed.

Lemma good_then d (P Q : btf_dedup -> Prop) res f : good d P res -> stable P -> (forall d', hyp_inv m d' -> ext d d' -> good d' Q (f d')) ->
  good d (fun d' => P d' /\ Q d') (then_equiv res f).
Proof.
  intros (r & d1 & -> & Hi1 & He1 & Hr) HP Hf. unfold then_equiv. cbn [mbind option_bind].
  destruct Hr as [(-> & HP1 & Hn1)|[->|[->|[-> Ha]]]]; cbn [Z.leb Z.compare]; [|exists 0, d1|exists (- EINVAL), d1|exists (- ENOMEM), d1]; [|split_and!; [done..|tauto]|split_and!; [done..|tauto]|split_and!; [done..|tauto]].
  destruct (Hf d1 Hi1 He1) as (r & d2 & -> & Hi2 & He2 & Hr). exists r, d2. split_and!; [done|done|by eapply ext_trans|].
  destruct Hr as [(-> & HQ & Hn2)|Hr]; [left|by right]. split_and!; [done|by apply (HP d1)|done|]. intros id h Hin Hnin Hh.
  destruct (decide (id ∈ hypot_list d1)) as [Hid|]; [|by apply Hn2]. apply (local_mono d1); [done..|]. apply Hn1; [done|done|]. destruct He2 as (_ & He2 & _). by rewrite <- He2.
Qed.

Lemma good_weaken d (P Q : btf_dedup -> Prop) res : good d P res -> (forall d', hyp_inv m d' -> P d' -> Q d') -> good d Q res.
Proof. intros (r & d' & -> & Hi & He & Hr) HPQ. exists r, d'. split_and!; [done..|]. destruct Hr as [(-> & HP & Hn)|Hr]; [left|by right]. split_and!; [done|by apply HPQ|done]. Qed.

Lemma good_loop (P : Z -> btf_dedup -> Prop) f : (forall i, stable (P i)) -> forall n i d, hyp_inv m d ->
  (forall j d', i <= j < i + Z.of_nat n -> hyp_inv m d' -> ext d d' -> good d' (P j) (f j d')) ->
  good d (fun d' => forall j, i <= j < i + Z.of_nat n -> P j d') (equiv_loop n i f d).
Proof.
  intros HP. induction n as [|n IH]; intros i d Hi Hf; cbn [equiv_loop]; [apply good_yes; [done|lia]|].
  eapply good_weaken; [eapply (good_then d (P i) (fun d' => forall j, i + 1 <= j < i + 1 + Z.of_nat n -> P j d') (f i d) (equiv_loop n (i + 1) f))|].
  - apply Hf; [lia|done|apply ext_refl].
  - apply HP.
  - intros d1 Hi1 He1. apply IH; [done|]. intros j d' Hj Hi' He'. apply Hf; [lia|done|by eapply ext_trans].
  - intros d' _ [H1 H2] j Hj. destruct (decide (j = i)) as [->|]; [done|]. apply H2. lia.
Qed.

Lemma accepted_stable x y : stable (fun d => accepted d x y).
Proof. intros d d' ? ? ?. by apply accepted_mono. Qed.

Section Rec.
Context (rec : btf_dedup -> Z -> Z -> option (Z * btf_dedup)) (d1 : btf_dedup).
Hypothesis Hrec : forall d x y, hyp_inv m d -> ext d1 d -> 0 <= x < N -> 0 <= y < N -> good d (fun d' => accepted d' x y) (rec d x y).

Section Pair.
Context (t1 t2 : btf_type) (id1 id2 k v n : Z).
Hypothesis Hid1 : 0 < id1 < N.
Hypothesis Hid2 : 0 < id2 < N.
Hypothesis Ht1 : btf_type_by_id (view c) id1 = Some t1.
Hypothesis Ht2 : btf_type_by_id (view c) id2 = Some t2.
Hypothesis Hw1 : whole t1 k v n.
Hypothesis Hw2 : whole t2 k v n.

Definition refs_accepted (d : btf_dedup) : Prop := forall j x y, j ∈ ref_ws k v -> word t1 j = Some x -> word t2 j = Some y -> accepted d x y.

(** The recursive call for the word [j]. *)
Lemma word_good d j : hyp_inv m d -> ext d1 d -> j ∈ ref_ws k v -> exists x y, word t1 j = Some x /\ word t2 j = Some y /\ good d (fun d' => accepted d' x y) (rec d x y).
Proof.
  intros Hi He Hj. destruct (ref_ok id1 t1 k v n j Hid1 Ht1 Hw1 Hj) as (x & Hx & Hxr). destruct (ref_ok id2 t2 k v n j Hid2 Ht2 Hw2 Hj) as (y & Hy & Hyr).
  exists x, y. split_and!; [done..|]. by apply Hrec.
Qed.

Lemma chain_good d : chain_kind k = true -> hyp_inv m d -> ext d1 d -> exists x y, type t1 = Some x /\ type t2 = Some y /\ good d refs_accepted (rec d x y).
Proof.
  intros Hk Hi He. assert (ref_ws k v = [2]) as E by (unfold ref_ws; by rewrite Hk). destruct (word_good d 2 Hi He) as (x & y & Hx & Hy & Hgo); [rewrite E; in_list|].
  exists x, y. split_and!; [done..|]. eapply good_weaken; [done|]. intros d' _ Ha j x' y' Hj Hx' Hy'. rewrite E in Hj. apply list_elem_of_singleton in Hj as ->. by simplify_eq.
Qed.

(** The calls for elements of [w] words whose reference is the second word. *)
Lemma elems_good w d : (forall i, 0 <= i < v -> 3 + w * i + 1 ∈ ref_ws k v) -> forall f,
  (forall i d x y, 0 <= i < v -> word t1 (3 + w * i + 1) = Some x -> word t2 (3 + w * i + 1) = Some y -> f i d = rec d x y) ->
  hyp_inv m d -> ext d1 d ->
  good d (fun d' => forall i x y, 0 <= i < v -> word t1 (3 + w * i + 1) = Some x -> word t2 (3 + w * i + 1) = Some y -> accepted d' x y) (equiv_loop (Z.to_nat v) 0 f d).
Proof.
  intros Hin f Hf Hi He. pose proof (whole_ranges _ _ _ _ Hw1). eapply good_weaken.
  - apply (good_loop (fun i d' => forall x y, word t1 (3 + w * i + 1) = Some x -> word t2 (3 + w * i + 1) = Some y -> accepted d' x y)); [|done|].
    + intros i d' d2 Hi1 Hi2 He2 Ha x y Hx Hy. apply (accepted_mono d'); [done..|]. by apply Ha.
    + intros i d' Hir Hi' He'. destruct (word_good d' (3 + w * i + 1)) as (x & y & Hx & Hy & Hgo); [done|by eapply ext_trans|apply Hin; lia|].
      rewrite (Hf i d' x y) by (done || lia). eapply good_weaken; [done|]. intros d2 _ Ha x' y' Hx' Hy'. by simplify_eq.
  - intros d' _ Ha i x y Hir. apply Ha. lia.
Qed.

Lemma composite_good d : kind_is_composite k = true -> hyp_inv m d -> ext d1 d -> good d refs_accepted
  (equiv_loop (Z.to_nat v) 0 (fun i d => m1 ← btf_member_at t1 i; m2 ← btf_member_at t2 i; rec d (m_type m1) (m_type m2)) d).
Proof.
  intros Hk Hi He. destruct (kind_eqs t1 k v n Hw1) as (_ & _ & E3 & _). pose proof (E3 Hk) as En. clear E3. pose proof (whole_ranges _ _ _ _ Hw1).
  assert (ref_ws k v = elem_words v 3 [1]) as E.
  { unfold ref_ws. rewrite Hk. unfold kind_is_composite in Hk. apply orb_true_iff in Hk as [->%Z.eqb_eq | ->%Z.eqb_eq]; done. }
  eapply good_weaken; [apply (elems_good 3)|]; [|intros i d' x y Hir Hx Hy|done|done|].
  - intros i Hir. rewrite E. apply elem_words_in. exists i, 1. split_and!; [lia|lia|in_list|done].
  - destruct (whole_word _ _ _ _ (3 + 3 * i) Hw1) as [a0 A0]; [lia|]. destruct (whole_word _ _ _ _ (3 + 3 * i) Hw2) as [b0 B0]; [lia|].
    destruct (whole_word _ _ _ _ (3 + 3 * i + 2) Hw1) as [a1 A1]; [lia|]. destruct (whole_word _ _ _ _ (3 + 3 * i + 2) Hw2) as [b1 B1]; [lia|].
    unfold btf_member_at. rewrite A0, B0, Hx, Hy, A1, B1. done.
  - intros d' _ Ha j x y Hj Hx Hy. rewrite E in Hj. apply elem_words_in in Hj as (i & o & Hir & ->%list_elem_of_singleton & ->). by apply (Ha i).
Qed.

Lemma array_good d : k = BTF_KIND_ARRAY -> hyp_inv m d -> ext d1 d -> exists a1 a2, array_of t1 = Some a1 /\ array_of t2 = Some a2 /\
  good d refs_accepted (then_equiv (rec d (arr_index_type a1) (arr_index_type a2)) (fun d => rec d (arr_type a1) (arr_type a2))).
Proof.
  intros Hk Hi He. destruct (kind_eqs t1 k v n Hw1) as (_ & _ & _ & E4 & _). pose proof (E4 Hk) as En. clear E4.
  assert (ref_ws k v = [4; 3]) as E by (by rewrite Hk).
  destruct (word_good d 4 Hi He) as (x & y & Hx & Hy & Hgo); [rewrite E; in_list|]. destruct (whole_word _ _ _ _ 3 Hw1) as [x3 X3]; [lia|]. destruct (whole_word _ _ _ _ 3 Hw2) as [y3 Y3]; [lia|].
  destruct (whole_word _ _ _ _ 5 Hw1) as [x5 X5]; [lia|]. destruct (whole_word _ _ _ _ 5 Hw2) as [y5 Y5]; [lia|].
  exists (BtfArray x3 x x5), (BtfArray y3 y y5). unfold array_of. rewrite Hx, Hy, X3, Y3, X5, Y5. split_and!; [done..|]. cbn [arr_index_type arr_type].
  eapply good_weaken; [apply (good_then d _ (fun d' => accepted d' x3 y3) _ _ Hgo (accepted_stable x y))|].
  - intros d' Hi' He'. destruct (word_good d' 3 Hi') as (x' & y' & Hx' & Hy' & Hgo'); [by eapply ext_trans|rewrite E; in_list|]. by simplify_eq.
  - intros d' _ [Ha Hb] j x' y' Hj Hx' Hy'. rewrite E in Hj. apply elem_of_cons in Hj as [-> | ->%list_elem_of_singleton]; by simplify_eq.
Qed.

Lemma fnproto_good d : k = BTF_KIND_FUNC_PROTO -> hyp_inv m d -> ext d1 d -> exists r1 r2, type t1 = Some r1 /\ type t2 = Some r2 /\
  good d refs_accepted (then_equiv (rec d r1 r2) (fun d => vlen ← btf_vlen t1;
    equiv_loop (Z.to_nat vlen) 0 (fun i d => '(_, ty1) ← btf_param_at t1 i; '(_, ty2) ← btf_param_at t2 i; rec d ty1 ty2) d)).
Proof.
  intros Hk Hi He. destruct (kind_eqs t1 k v n Hw1) as (_ & _ & _ & _ & E5 & _). pose proof (E5 Hk) as En. clear E5.
  assert (ref_ws k v = [2] ++ elem_words v 2 [1]) as E by (by rewrite Hk).
  destruct (word_good d 2 Hi He) as (x & y & Hx & Hy & Hgo); [rewrite E; in_list|]. exists x, y. split_and!; [done..|]. rewrite (wh_vlen _ _ _ _ Hw1). cbn [mbind option_bind].
  eapply good_weaken; [eapply (good_then d _ (fun d' => forall i x y, 0 <= i < v -> word t1 (3 + 2 * i + 1) = Some x -> word t2 (3 + 2 * i + 1) = Some y -> accepted d' x y) _ _ Hgo (accepted_stable x y))|].
  - intros d' Hi' He'. apply (elems_good 2); [|intros i d2 x' y' Hir Hx' Hy'|done|by eapply ext_trans].
    + intros i Hir. rewrite E. apply elem_of_app. right. apply elem_words_in. exists i, 1. split_and!; [lia|lia|in_list|done].
    + destruct (whole_word _ _ _ _ (3 + 2 * i) Hw1) as [a0 A0]; [lia|]. destruct (whole_word _ _ _ _ (3 + 2 * i) Hw2) as [b0 B0]; [lia|].
      unfold btf_param_at. by rewrite A0, B0, Hx', Hy'.
  - intros d' _ [Ha Hb] j x' y' Hj Hx' Hy'. rewrite E in Hj. apply elem_of_app in Hj as [->%list_elem_of_singleton|Hj]; [by simplify_eq|].
    apply elem_words_in in Hj as (i & o & Hir & ->%list_elem_of_singleton & ->). by apply (Hb i).
Qed.
End Pair.

Lemma with_adjust_inv d a : hyp_inv m d -> hyp_inv m (with_hypot (hypot_map d) (hypot_list d) (hypot_cap d) a d).
Proof. intros []. by split. Qed.

(** Types of the same kind, which has references or not. *)
Lemma same_kind_good d id1 id2 t1 t2 k v n v' n' : hyp_inv m d -> ext d1 d -> 0 < id1 < N -> 0 < id2 < N ->
  btf_type_by_id (view c) id1 = Some t1 -> btf_type_by_id (view c) id2 = Some t2 -> whole t1 k v n -> whole t2 k v' n' -> word t1 0 = word t2 0 ->
  good d (fun d' => matches d' t1 k v t2 k v') (
  if k =? BTF_KIND_INT then equal_answer (btf_equal_int_tag t1 t2) d
  else if kind_is_any_enum k then equal_answer (btf_compat_enum t1 t2) d
  else if (k =? BTF_KIND_FWD) || (k =? BTF_KIND_FLOAT) then equal_answer (btf_equal_common t1 t2) d
  else if chain_kind k then
    i1 ← info t1; i2 ← info t2;
    if negb (i1 =? i2) then Some (0, d)
    else r1 ← type t1; r2 ← type t2; rec d r1 r2
  else if k =? BTF_KIND_ARRAY then
    c ← btf_compat_array t1 t2;
    if negb c then Some (0, d)
    else
      a1 ← array_of t1; a2 ← array_of t2;
      then_equiv (rec d (arr_index_type a1) (arr_index_type a2)) (fun d => rec d (arr_type a1) (arr_type a2))
  else if kind_is_composite k then
    c ← btf_shallow_equal_struct t1 t2;
    if negb c then Some (0, d)
    else
      vlen ← btf_vlen t1;
      equiv_loop (Z.to_nat vlen) 0 (fun i d => m1 ← btf_member_at t1 i; m2 ← btf_member_at t2 i; rec d (m_type m1) (m_type m2)) d
  else if k =? BTF_KIND_FUNC_PROTO then
    c ← btf_compat_fnproto t1 t2;
    if negb c then Some (0, d)
    else
      r1 ← type t1; r2 ← type t2;
      then_equiv (rec d r1 r2) (fun d =>
        vlen ← btf_vlen t1;
        equiv_loop (Z.to_nat vlen) 0 (fun i d => '(_, ty1) ← btf_param_at t1 i; '(_, ty2) ← btf_param_at t2 i; rec d ty1 ty2) d)
  else Some (- EINVAL, d)).
Proof.
  intros Hi He Hid1 Hid2 Ht1 Ht2 Hw1 Hw2 Hnm. destruct (kind_eqs t1 k v n Hw1) as (_ & _ & _ & _ & _ & E6).
  assert (forall ws, shape_ws k v = Some ws -> 1 ∈ ws -> same_words ws t1 t2 -> v' = v /\ n' = n) as Hsame.
  { intros ws _ H1 Hs. destruct (info_kind t1 t2 _ _ _ _ _ _ Hw1 Hw2) as (_ & -> & ->); [by apply Hs|done]. }
  assert (forall ws, shape_ws k v = Some ws -> 1 ∈ ws -> same_words ws t1 t2 -> forall d', refs_accepted t1 t2 k v d' -> matches d' t1 k v t2 k v') as Hmatch.
  { intros ws Hws H1 Hs d' Hr. destruct (Hsame ws Hws H1 Hs) as [-> _]. by apply (match_shape _ _ _ _ _ _ _ ws). }
  unfold shape_ws in Hsame, Hmatch.
  assert (forall j, chain_kind k = false -> k <> BTF_KIND_ARRAY -> kind_is_composite k = false -> k <> BTF_KIND_FUNC_PROTO -> j ∉ ref_ws k v) as Hnone.
  { intros j H1 H2 H3 H4. unfold ref_ws. rewrite H1, H3, (proj2 (Z.eqb_neq _ _) H2), (proj2 (Z.eqb_neq _ _) H4). apply not_elem_of_nil. }
  destruct (Z.eqb_spec k BTF_KIND_INT) as [Ek|_].
  { rewrite (E6 (or_introl Ek)) in Hw1. eapply good_answer; [done|by eapply equal_int_spec|]. intros Hs. eapply Hmatch; [done|in_list|done|]. intros j x y Hj. exfalso. revert Hj. rewrite Ek. apply not_elem_of_nil. }
  destruct (kind_is_any_enum k) eqn:Hen.
  { eapply good_answer; [done|by eapply compat_enum_spec|]. intros Hs. apply match_enum; [done|done|]. rewrite Hen in Hs.
    destruct Hs as [(Hv & Hv' & Hs)|([Hv|[_ Hv]] & _)]; [|by left|by right; left]. right. right. split; [|done].
    destruct (info_kind t1 t2 _ _ _ _ _ _ Hw1 Hw2) as (_ & <- & _); [|done]. apply Hs. unfold enum_words. in_list. }
  destruct ((k =? BTF_KIND_FWD) || (k =? BTF_KIND_FLOAT)) eqn:Hff.
  { eapply good_answer; [done|by eapply equal_common_spec|]. intros Hs. eapply Hmatch; [done|in_list|done|]. intros j x y Hj. exfalso. revert Hj. apply orb_true_iff in Hff as [->%Z.eqb_eq | ->%Z.eqb_eq]; by apply Hnone. }
  destruct (chain_kind k) eqn:Hck.
  { destruct (whole_word _ _ _ _ 1 Hw1) as [i1 I1]; [pose proof (whole_ranges _ _ _ _ Hw1); lia|]. destruct (whole_word _ _ _ _ 1 Hw2) as [i2 I2]; [pose proof (whole_ranges _ _ _ _ Hw2); lia|].
    unfold info. rewrite I1, I2. cbn [mbind option_bind]. destruct (Z.eqb_spec i1 i2) as [<-|]; cbn [negb]; [|by apply good_no].
    assert (same_words [0; 1] t1 t2) as Hs. { apply same_words_cons. split; [done|]. apply same_words_cons. split; [congruence|]. by apply same_words_nil. }
    destruct (Hsame _ eq_refl ltac:(in_list) Hs) as [-> ->]. destruct (chain_good t1 t2 id1 id2 k v n Hid1 Hid2 Ht1 Ht2 Hw1 Hw2 d Hck Hi He) as (x & y & -> & -> & Hgo). cbn [mbind option_bind].
    eapply good_weaken; [done|]. intros d' _. apply (Hmatch _ eq_refl); [in_list|done]. }
  destruct (Z.eqb_spec k BTF_KIND_ARRAY) as [Ea|Ea].
  { destruct (compat_array_spec t1 t2 _ _ _ _ _ _ Hw1 Hw2 Ea) as (b & -> & Hs). cbn [mbind option_bind]. destruct b; cbn [negb]; [|by apply good_no]. pose proof (proj1 Hs eq_refl) as Hsw. clear Hs.
    destruct (Hsame _ eq_refl ltac:(in_list) Hsw) as [-> ->]. destruct (array_good t1 t2 id1 id2 k v n Hid1 Hid2 Ht1 Ht2 Hw1 Hw2 d Ea Hi He) as (a1 & a2 & -> & -> & Hgo). cbn [mbind option_bind].
    eapply good_weaken; [done|]. intros d' _. apply (Hmatch _ eq_refl); [in_list|done]. }
  destruct (kind_is_composite k) eqn:Hco.
  { destruct (shallow_spec t1 t2 _ _ _ _ _ _ Hw1 Hw2 Hco) as (b & -> & Hs). cbn [mbind option_bind]. destruct b; cbn [negb]; [|by apply good_no]. pose proof (proj1 Hs eq_refl) as Hsw. clear Hs.
    destruct (Hsame _ eq_refl ltac:(in_list) Hsw) as [-> ->]. rewrite (wh_vlen _ _ _ _ Hw1). cbn [mbind option_bind].
    eapply good_weaken; [by apply (composite_good t1 t2 id1 id2 k v n)|]. intros d' _. apply (Hmatch _ eq_refl); [in_list|done]. }
  destruct (Z.eqb_spec k BTF_KIND_FUNC_PROTO) as [Ef|Ef].
  2:{ exists (- EINVAL), d. split_and!; [done|done|apply ext_refl|]. right. right. by left. }
  destruct (compat_fnproto_spec t1 t2 _ _ _ _ _ _ Hw1 Hw2 Ef) as (b & -> & Hs). cbn [mbind option_bind]. destruct b; cbn [negb]; [|by apply good_no]. pose proof (proj1 Hs eq_refl) as Hsw. clear Hs.
  destruct (Hsame _ eq_refl ltac:(in_list) Hsw) as [-> ->]. destruct (fnproto_good t1 t2 id1 id2 k v n Hid1 Hid2 Ht1 Ht2 Hw1 Hw2 d Ef Hi He) as (r1 & r2 & -> & -> & Hgo). cbn [mbind option_bind].
  eapply good_weaken; [done|]. intros d' _. apply (Hmatch _ eq_refl); [in_list|done].
Qed.

Lemma equiv_types_good d cand canon : hyp_inv m d -> ext d1 d -> 0 <= cand < N -> 0 <= canon < N -> good d (fun d' => local d' cand canon) (equiv_types rec d cand canon).
Proof.
  intros Hi He Hc1 Hc2. destruct (id_facts cand Hc1) as (t1 & k1 & s1 & f1 & T1 & K1 & S1 & F1 & P1 & W1). destruct (id_facts canon Hc2) as (t2 & k2 & s2 & f2 & T2 & K2 & S2 & F2 & P2 & W2).
  unfold equiv_types, dtype, name_off. rewrite (hi_btf _ _ Hi), T1, T2. cbn [mbind option_bind]. rewrite K1, K2, S1, S2. cbn [mbind option_bind].
  destruct (Z.eqb_spec s1 s2) as [<-|]; cbn [negb]; [|by apply good_no].
  assert (k1 <> 0 -> k2 <> 0 -> forall d', (forall v1 n1 v2 n2, whole t1 k1 v1 n1 -> whole t2 k2 v2 n2 -> matches d' t1 k1 v1 t2 k2 v2) -> local d' cand canon) as Hloc.
  { intros H1 H2 d' Hma. destruct (W1 H1) as (_ & v1 & n1 & Hw1). destruct (W2 H2) as (_ & v2 & n2 & Hw2). exists t1, k1, v1, n1, t2, k2, v2, n2. split_and!; [done..|congruence|by eapply Hma]. }
  destruct (Z.eqb_spec k1 k2) as [<-|Hne]; cbn [negb].
  - rewrite andb_false_r. destruct (Z.eqb_spec k1 0) as [->|Hk0].
    { exists (- EINVAL), d. split_and!; [done|done|apply ext_refl|]. right. right. by left. }
    destruct (W1 Hk0) as (Hp1 & v1 & n1 & Hw1). destruct (W2 Hk0) as (Hp2 & v2 & n2 & Hw2). eapply good_weaken; [apply (same_kind_good d cand canon t1 t2 k1 v1 n1 v2 n2); try done; [lia|lia|congruence]|].
    intros d' _ Hma. exists t1, k1, v1, n1, t2, k1, v2, n2. split_and!; [done..|congruence|done].
  - rewrite andb_true_r. destruct (Z.eqb_spec k1 BTF_KIND_FWD) as [Hf1|Hf1]; cbn [orb].
    + rewrite F1. cbn [mbind option_bind]. destruct (Z.eqb_spec f1 k2) as [->|]; [|by apply good_no]. apply good_yes; [done|]. apply Hloc; [by rewrite Hf1|lia|]. intros. apply match_cand_fwd; congruence.
    + destruct (Z.eqb_spec k2 BTF_KIND_FWD) as [Hf2|]; [|by apply good_no]. rewrite F2. cbn [mbind option_bind].
      destruct (to_head _ _ (gr_types _ _ Hg)) as (o & base & Ec & _). replace (head c) with (Some o) by (by rewrite Ec). cbn [mbind option_bind].
      match goal with |- good d _ (Some (_, ?dd)) => assert (good dd (fun d' => local d' cand canon) (Some (bool_int (f2 =? k1), dd))) as Hgo end.
      { destruct (Z.eqb_spec f2 k1) as [->|]; [|apply good_no; by apply with_adjust_inv]. apply good_yes; [by apply with_adjust_inv|].
        apply Hloc; [lia|by rewrite Hf2|]. intros. apply match_canon_fwd; congruence. }
      destruct Hgo as (r & d' & E & Hi' & (Hp' & Hm' & Ht') & Hr). exists r, d'. split_and!; done.
Qed.
End Rec.

(** The entry for [from] is new. *)
Lemma hypot_add_spec d from to_ : hyp_inv m d -> from ∉ hypot_list d -> 0 <= from < N -> 0 <= to_ < N -> exists err d',
  btf_dedup_hypot_map_add al d from to_ = Some (err, d') /\ hyp_inv m d' /\ ext d d' /\
  (err = 0 /\ hypot_list d' = hypot_list d ++ [from] /\ zget (hypot_map d') from = Some to_ \/ err = - ENOMEM /\ alloc_fails al).
Proof.
  intros Hi Hnew Hf Ht. unfold btf_dedup_hypot_map_add. destruct ((hypot_cnt d =? hypot_cap d) && negb (al [hypot_cnt d])) eqn:Hal.
  { eexists _, _. split; [done|]. split_and!; [by destruct Hi; split|done|]. right. split; [done|]. exists [hypot_cnt d]. apply andb_true_iff in Hal as [_ Hal]. by destruct (al [hypot_cnt d]). }
  destruct (zset_is_Some (hypot_map d) from to_) as [hm Hs]; [rewrite (hi_len _ _ Hi); lia|]. rewrite Hs. cbn [mbind option_bind]. eexists _, _. split; [done|].
  pose proof (to_max _ _ (gr_types _ _ Hg)) as Hmax. assert (to_ <= BTF_MAX_NR_TYPES) as Hto by (unfold BTF_MAX_NR_TYPES; lia). split_and!.
  - split; cbn [d_btf d_map hypot_map hypot_list with_hypot]; [apply (hi_btf _ _ Hi)|apply (hi_map _ _ Hi)|rewrite (zset_length _ _ _ _ Hs); apply (hi_len _ _ Hi)| | |].
    + apply NoDup_app. split_and!; [apply (hi_nodup _ _ Hi)| |apply NoDup_singleton]. intros x Hx ->%list_elem_of_singleton. done.
    + intros id. rewrite elem_of_app, list_elem_of_singleton, (hi_list _ _ Hi). destruct (decide (id = from)) as [->|Hn].
      * split; [intros _; exists to_; split; [by apply (zget_zset_eq _ _ _ _ Hs)|done]|by right].
      * rewrite (zget_zset_ne _ _ _ _ _ Hs) by done. tauto.
    + intros id h. destruct (decide (id = from)) as [->|Hn]; [rewrite (zget_zset_eq _ _ _ _ Hs); by intros [= <-]|]. rewrite (zget_zset_ne _ _ _ _ _ Hs) by done. apply (hi_ids _ _ Hi).
  - split_and!; cbn [hypot_map hypot_list with_hypot]; [by exists [from]| |done]. intros id Hid. apply (zget_zset_ne _ _ _ _ _ Hs). intros <-. done.
  - left. split_and!; [done|done|]. by apply (zget_zset_eq _ _ _ _ Hs).
Qed.

Lemma id_is_fwd_total d id : d_btf d = c -> 0 <= id < N -> exists b, id_is_fwd d id = Some b.
Proof.
  intros Hb Hid. destruct (id_facts id Hid) as (t & k & s & f & Ht & Hk & _). unfold id_is_fwd, btf__type_by_id. rewrite Hb, (to_cnt _ _ (gr_types _ _ Hg)). cbn [mbind option_bind].
  rewrite (proj2 (Z.geb_leb id N)) || (destruct (Z.geb_spec id N); [lia|]). rewrite Ht. cbn [mbind option_bind]. rewrite Hk. cbn. eauto.
Qed.

Lemma resolve_fwd_total d id : hyp_inv m d -> 0 <= id < N -> exists id', resolve_fwd_id d id = Some id' /\ 0 <= id' < N.
Proof.
  intros Hi Hid. unfold resolve_fwd_id. destruct (id_is_fwd_total d id (hi_btf _ _ Hi) Hid) as [b ->]. cbn [mbind option_bind]. destruct b; cbn [negb]; [|eauto].
  destruct (resolve_total d id) as (k & r & Hr & ->); [by rewrite (hi_map _ _ Hi)|rewrite (hi_map _ _ Hi), Hml; lia|]. cbn [mbind option_bind].
  apply resolves_range in Hr as [_ Hr]. rewrite (hi_map _ _ Hi), Hml in Hr. destruct (id_is_fwd_total d r (hi_btf _ _ Hi)) as [b ->]; [lia|]. cbn [mbind option_bind]. eexists. split; [done|]. destruct b; cbn; lia.
Qed.

Lemma is_equiv_good : forall fuel d cand canon, hyp_inv m d -> (Z.to_nat N - length (hypot_list d) < fuel)%nat -> 0 <= cand < N -> 0 <= canon < N ->
  good d (fun d' => accepted d' cand canon) (btf_dedup_is_equiv fuel al d cand canon).
Proof.
  induction fuel as [|fuel IH]; intros d cand canon Hi Hf Hc1 Hc2; [lia|]. cbn [btf_dedup_is_equiv].
  destruct (resolve_total d cand) as (kc & r1 & _ & R1); [by rewrite (hi_map _ _ Hi)|rewrite (hi_map _ _ Hi), Hml; lia|]. destruct (resolve_total d canon) as (kn & r2 & _ & R2); [by rewrite (hi_map _ _ Hi)|rewrite (hi_map _ _ Hi), Hml; lia|].
  rewrite R1, R2. cbn [mbind option_bind]. destruct (Z.eqb_spec r1 r2) as [<-|Hne]; [apply good_yes; [done|]; left; eauto|].
  destruct (resolve_fwd_total d canon Hi Hc2) as (cn & Hcn & Hcr). rewrite Hcn. cbn [mbind option_bind]. destruct (zget_is_Some (hypot_map d) cn) as [h Hh]; [rewrite (hi_len _ _ Hi); lia|].
  rewrite Hh. cbn [mbind option_bind]. destruct (Z.leb_spec h BTF_MAX_NR_TYPES) as [Hle|Hgt].
  - destruct (Z.eqb_spec h cand) as [->|Hhc]; [apply good_yes; [done|]; right; exists cn, cand; split_and!; [done..|by left]|].
    destruct (gr_ranked _ _ Hg) as [rk Hrk]. destruct (identical_total (identical_fuel d) h cand 16 rk Hrk) as [b Hb]; [by apply (hi_ids _ _ Hi cn)|done| |].
    { destruct (Hrk h (hi_ids _ _ Hi cn h Hh Hle)) as [Hrh _]. unfold identical_fuel. rewrite (hi_map _ _ Hi), Hml. lia. }
    rewrite (hi_btf _ _ Hi), Hb. apply (good_answer _ _ _ (b = true)); [done|by exists b|]. intros ->. right. exists cn, h. split_and!; [done..|]. right. by rewrite (hi_btf _ _ Hi).
  - assert (cn ∉ hypot_list d) as Hnew by (intros (h' & Hh' & ?)%(hi_list _ _ Hi); simplify_eq; lia).
    destruct (hypot_add_spec d cn cand Hi Hnew Hcr Hc1) as (err & d1 & -> & Hi1 & He1 & Hr). cbn [mbind option_bind].
    destruct Hr as [(-> & Hl1 & Hg1)|[-> Ha]]; cbn [Z.eqb negb]; [|exists (- ENOMEM), d1; split_and!; [done..|]; right; right; right; by split].
    assert (good d1 (fun d' => local d' cand cn) (equiv_types (btf_dedup_is_equiv fuel al) d1 cand cn)) as (r & d' & -> & Hi' & He' & Hr).
    { apply (equiv_types_good _ d1); [|done|apply ext_refl|done|done]. intros d2 x y Hi2 (Hp2 & _) Hx Hy. apply IH; [done| |done|done].
      pose proof (hyp_cnt_bound d1 Hi1) as Hb. apply prefix_length in Hp2. rewrite Hl1, length_app in Hp2, Hb. cbn in Hp2, Hb. lia. }
    exists r, d'. split_and!; [done|done|by eapply ext_trans|]. destruct Hr as [(-> & Hlo & Hn)|Hr]; [left|by right].
    assert (zget (hypot_map d') cn = Some cand) as Hg'. { destruct He' as (_ & He' & _). rewrite He'; [done|]. rewrite Hl1. apply elem_of_app. right. in_list. }
    split_and!; [done| |].
    + right. exists cn, cand. split_and!; [|done|pose proof (to_max _ _ (gr_types _ _ Hg)); unfold BTF_MAX_NR_TYPES; lia|by left].
      revert Hcn. unfold resolve_fwd_id, id_is_fwd, resolve_type_id. by rewrite (hi_btf _ _ Hi), (hi_btf _ _ Hi'), (hi_map _ _ Hi), (hi_map _ _ Hi').
    + intros id h' Hin Hnin Hh'. destruct (decide (id = cn)) as [->|Hd]; [by simplify_eq|]. apply Hn; [done| |done]. rewrite Hl1. intros [?|?%list_elem_of_singleton]%elem_of_app; done.
Qed.
End Equiv.
End Graph.

(** The state in which the check of a candidate starts: the map of canonical types has no cycles
    and the hypothetical map is empty. *)
Record check_start (c : chain) (N : Z) (d : btf_dedup) : Prop := {
  cs_btf : d_btf d = c;
  cs_rooted : rooted (d_map d);
  cs_len : length (d_map d) = Z.to_nat N;
  cs_hypot : hypot_map d = replicate (Z.to_nat N) BTF_UNPROCESSED_ID;
  cs_list : hypot_list d = []
}.

Lemma check_start_inv c N d : check_start c N d -> hyp_inv c N (d_map d) d.
Proof.
  intros [Hb Hr Hl Hh Hli]. assert (forall id h, zget (hypot_map d) id = Some h -> ~ h <= BTF_MAX_NR_TYPES) as Hno.
  { intros id h. rewrite Hh. intros [_ [-> _]%lookup_replicate]%zget_Some. by vm_compute. }
  split; [done|done|by rewrite Hh, length_replicate|rewrite Hli; constructor| |].
  - intros id. rewrite Hli. split; [intros []%elem_of_nil|]. intros (h & Hz & Hle). by apply Hno in Hz.
  - intros id h Hz Hle. by apply Hno in Hz.
Qed.

(** C14. The equivalence check of two type graphs returns for every object with complete types,
    valid references and no cycle of pointers and modifiers only, and leaves the object and the
    map of canonical types as they are.  Its answer is yes, no, -EINVAL, or -ENOMEM if an
    allocation fails.  When it is yes, the hypothetical map is a simulation: the two ids are
    accepted, and each entry is a pair of types with the same name that agree in kind and in all
    words that are not references (or are a forward declaration and a struct or union of its
    kind, or enumerations of which one is only declared), and whose references are accepted. *)
Theorem is_equiv_simulation al c N d cand canon : graph_ok c N -> check_start c N d -> 0 <= cand < N -> 0 <= canon < N ->
  exists r d', btf_dedup_is_equiv (S (length (d_map d))) al d cand canon = Some (r, d') /\ d_btf d' = d_btf d /\ d_map d' = d_map d /\
  (r = 1 /\ accepted d' cand canon /\ (forall id h, id ∈ hypot_list d' -> zget (hypot_map d') id = Some h -> local c d' h id) \/
   r = 0 \/ r = - EINVAL \/ r = - ENOMEM /\ alloc_fails al).
Proof.
  intros Hg Hs Hc1 Hc2. pose proof (check_start_inv c N d Hs) as Hi.
  destruct (is_equiv_good c N Hg al (d_map d) (cs_rooted _ _ _ Hs) (cs_len _ _ _ Hs) (S (length (d_map d))) d cand canon Hi) as (r & d' & Hd & Hi' & _ & Hr); [rewrite (cs_len _ _ _ Hs); lia|done|done|].
  exists r, d'. split_and!; [done|by rewrite (hi_btf _ _ _ _ Hi'), (hi_btf _ _ _ _ Hi)|apply (hi_map _ _ _ _ Hi')|].
  destruct Hr as [(-> & Ha & Hn)|Hr]; [left|by right]. split_and!; [done|done|]. intros id h Hin Hh. apply Hn; [done| |done]. rewrite (cs_list _ _ _ Hs). apply not_elem_of_nil.
Qed.

(** The sample object after the pass over primitive types. *)
Definition sample_state : btf_dedup :=
  Dedup [dedup_sample] hashmap__init ([0; 1] ++ [BTF_UNPROCESSED_ID; BTF_UNPROCESSED_ID; 1] ++ [BTF_UNPROCESSED_ID; BTF_UNPROCESSED_ID; 7; BTF_UNPROCESSED_ID])
    (replicate 9 BTF_UNPROCESSED_ID) [] 0 false.

(** [refs_ok] as a function. *)
Definition refs_okb (c : chain) (N : Z) : bool :=
  forallb (fun id =>
    match (t ← btf_type_by_id (view c) id; k ← btf_kind t; v ← btf_vlen t; n ← rest_words k v; Some (t, k, n)) with
    | None => true
    | Some (t, k, n) => forallb (fun j => negb (field_word BTF_FIELD_ITER_IDS k j) || match word t j with None => true | Some x => (0 <=? x) && (x <? N) end) (seqZ 0 (3 + n))
    end) (seqZ 1 (N - 1)).

Lemma refs_okb_sound c N : refs_okb c N = true -> refs_ok c N.
Proof.
  unfold refs_okb. rewrite forallb_forall. intros H id t k v n j x Hid Ht Hw Hj Hf Hx.
  assert (In id (seqZ 1 (N - 1))) as Hin by (apply list_elem_of_In, elem_of_seqZ; lia). specialize (H id Hin). destruct Hw as [Hk Hv Hn _].
  rewrite Ht in H. cbn [mbind option_bind] in H. rewrite Hk, Hv in H. cbn [mbind option_bind] in H. rewrite Hn in H. cbn [mbind option_bind] in H.
  rewrite forallb_forall in H. assert (In j (seqZ 0 (3 + n))) as Hjn by (apply list_elem_of_In, elem_of_seqZ; lia). specialize (H j Hjn). rewrite Hf, Hx in H. cbn in H.
  apply andb_true_iff in H as [H1 H2]. lia.
Qed.

Lemma sample_graph : graph_ok [dedup_sample] 9.
Proof.
  split; [apply dedup_sample_types| |].
  - apply refs_okb_sound. vm_compute. reflexivity.
  - exists (fun id => if (id =? 3) || (id =? 6) || (id =? 8) then 1%nat else 0%nat). intros id Hid. split.
    + destruct (_ || _); lia.
    + intros t k x Ht Hk Hc Hx. destruct (decide (id = 0)) as [->|]; [injection Ht as <-; vm_compute in Hk; injection Hk as <-; discriminate Hc|].
      each_id id; injection Ht as <-; vm_compute in Hk; injection Hk as <-; first [discriminate Hc|vm_compute in Hx; injection Hx as <-; cbn; lia].
Qed.

Lemma sample_start : check_start [dedup_sample] 9 sample_state.
Proof.
  split; [done| |done|done|done]. intros x Hx. change (Z.of_nat (length (d_map sample_state))) with 9 in Hx.
  destruct (decide (x = 4)) as [->|]; [exists 1%nat, 1; apply (res_step _ 0 4 1 1); [reflexivity|by vm_compute|lia|]; apply (res_root _ 1 1); [reflexivity|by right]|].
  exists 0%nat, x. assert (x = 0 \/ x = 1 \/ x = 2 \/ x = 3 \/ x = 5 \/ x = 6 \/ x = 7 \/ x = 8) as Hxs by lia.
  destruct_or! Hxs; subst x; (eapply res_root; [reflexivity|]); first [by right|by left].
Qed.

(** The two list structures of the sample are equivalent. *)
Lemma is_equiv_simulation_witness : graph_ok [dedup_sample] 9 /\ check_start [dedup_sample] 9 sample_state /\
  (fst <$> btf_dedup_is_equiv 10 (fun _ => true) sample_state 5 2) = Some 1 /\
  exists r d', btf_dedup_is_equiv (S (length (d_map sample_state))) (fun _ => true) sample_state 5 2 = Some (r, d') /\ d_btf d' = [dedup_sample] /\ d_map d' = d_map sample_state /\
  (r = 1 /\ accepted d' 5 2 /\ (forall id h, id ∈ hypot_list d' -> zget (hypot_map d') id = Some h -> local [dedup_sample] d' h id) \/
   r = 0 \/ r = - EINVAL \/ r = - ENOMEM /\ alloc_fails (fun _ => true)).
Proof.
  split; [apply sample_graph|]. split; [apply sample_start|]. split; [vm_compute; reflexivity|].
  apply (is_equiv_simulation (fun _ => true) [dedup_sample] 9 sample_state 5 2); [apply sample_graph|apply sample_start|lia|lia].
Defined.

(** ** Arrays *)

(** [struct S { int x\[2\]; int y\[2\]; }] (type 4) and [struct S { int x\[2\]; float y\[2\]; }] (type 6). *)
Definition arrays_sample : btf_obj :=
  BtfObj (BtfHeader BTF_MAGIC 24 0 172 172 17)
    ([1; btf_type_info BTF_KIND_INT 0 false; 4; 32] ++
     [5; btf_type_info BTF_KIND_FLOAT 0 false; 4] ++
     [0; btf_type_info BTF_KIND_ARRAY 0 false; 0; 1; 1; 2] ++
     [11; btf_type_info BTF_KIND_STRUCT 2 false; 16; 13; 3; 0; 15; 3; 64] ++
     [0; btf_type_info BTF_KIND_ARRAY 0 false; 0; 2; 1; 2] ++
     [11; btf_type_info BTF_KIND_STRUCT 2 false; 16; 13; 7; 0; 15; 5; 64] ++
     [0; btf_type_info BTF_KIND_ARRAY 0 false; 0; 1; 1; 2]) 0
    [0; 16; 28; 52; 88; 112; 148] 7 7 1 0
    (StrsRaw [0; 105; 110; 116; 0; 102; 108; 111; 97; 116; 0; 83; 0; 120; 0; 121; 0]) 8.

(** [btf_dedup_identical_types] reads both arrays from the first type, so it takes the array of
    integers for the array of floats, and deduplication replaces the second structure by the
    first: no struct with a float array is left. *)
Theorem identical_arrays_bug : exists o', btf__dedup btf_dedup_identity_hash_fn (fun _ => true) false [arrays_sample] = Some (0, [o']) /\
  (m ← (t ← btf_type_by_id (view [arrays_sample]) 6; btf_member_at t 1); a ← (t ← btf_type_by_id (view [arrays_sample]) (m_type m); array_of t); Some (arr_type a)) = Some 2 /\
  take (Z.to_nat (h_type_len o' / 4)) (o_types o') =
    [1; btf_type_info BTF_KIND_INT 0 false; 4; 32] ++
    [5; btf_type_info BTF_KIND_FLOAT 0 false; 4] ++
    [0; btf_type_info BTF_KIND_ARRAY 0 false; 0; 1; 1; 2] ++
    [11; btf_type_info BTF_KIND_STRUCT 2 false; 16; 13; 3; 0; 15; 3; 64] ++
    [0; btf_type_info BTF_KIND_ARRAY 0 false; 0; 2; 1; 2].
Proof.
  destruct (btf__dedup btf_dedup_identity_hash_fn (fun _ => true) false [arrays_sample]) as [[err c]|] eqn:E; [|exfalso; vm_compute in E; discriminate E].
  destruct c as [|o' [|]]; [exfalso; vm_compute in E; discriminate E| |exfalso; vm_compute in E; discriminate E].
  exists o'. vm_compute in E. injection E as <- <-. split_and!; vm_compute; reflexivity.
Qed.
