(* ===== verification/DedupStruct.v ===== *)
(** * Deduplication: structs and unions

    The invariant of the map of canonical types ([map_inv]: no cycles, links keep the name and kind
    of structs, unions and forward declarations, reference types are not linked yet), and that the
    merge of a hypothetical map, the search among the candidates of a struct and the pass over all
    structs keep it ([merge_spec], [struct_cands_spec], [struct_pass]). *)
From stdpp Require Import base numbers list gmap sorting.
From S2P Require Import Prelude Hashmap Strset Btf BtfBuild BtfBuildSpec BtfIter BtfCopy BtfDedup DedupPrim DedupEquiv.

(** ** The map of canonical types *)

(** The name and the kind of a struct, union or forward declaration. *)
Definition cls (c : chain) (id : Z) : option (Z * Z) :=
  t ← btf_type_by_id (view c) id; k ← btf_kind t; s ← name_off t;
  if k =? BTF_KIND_FWD then f ← btf_fwd_kind t; Some (s, f) else if kind_is_composite k then Some (s, k) else None.

Definition kind_of (c : chain) (id : Z) : option Z := t ← btf_type_by_id (view c) id; btf_kind t.
Definition composite (c : chain) (id : Z) : Prop := exists k, kind_of c id = Some k /\ kind_is_composite k = true.
Definition is_enum (c : chain) (id : Z) : Prop := exists k, kind_of c id = Some k /\ kind_is_any_enum k = true.
Definition ref_kinds (k : Z) : bool := chain_kind k || (k =? BTF_KIND_DECL_TAG) || (k =? BTF_KIND_ARRAY) || (k =? BTF_KIND_FUNC_PROTO).
Definition is_ref (c : chain) (id : Z) : Prop := exists k, kind_of c id = Some k /\ ref_kinds k = true.
Definition is_fwd (c : chain) (id : Z) : Prop := kind_of c id = Some BTF_KIND_FWD.

Definition mapped (m : list Z) (id : Z) : Prop := exists y, zget m id = Some y /\ y <= BTF_MAX_NR_TYPES.

(** The map has no cycles, and its links keep names and kinds; structs and unions are linked to
    structs and unions; what is linked to is mapped, or a struct, union or enumeration that will
    be; reference types are not linked to others yet. *)
Record map_inv (c : chain) (N : Z) (m : list Z) : Prop := {
  mi_len : length m = Z.to_nat N;
  mi_rooted : rooted m;
  mi_zero : zget m 0 = Some 0;
  mi_cls : forall x y, zget m x = Some y -> y <= BTF_MAX_NR_TYPES -> cls c x = cls c y;
  mi_comp : forall x y, zget m x = Some y -> y <= BTF_MAX_NR_TYPES -> composite c x -> composite c y;
  mi_target : forall x y, zget m x = Some y -> y <= BTF_MAX_NR_TYPES -> composite c y \/ is_enum c y \/ mapped m y;
  mi_noref : forall x y, zget m x = Some y -> y <= BTF_MAX_NR_TYPES -> y <> x -> ~ is_ref c x
}.

(** What the pass does to the map: mapped ids stay mapped, and mapped types other than forward
    declarations keep their target. *)
Definition grows (c : chain) (m m' : list Z) : Prop :=
  (forall id, mapped m id -> mapped m' id) /\ (forall id, ~ is_fwd c id -> mapped m id -> zget m' id = zget m id).

Lemma grows_refl c m : grows c m m.
Proof. by split. Qed.
Lemma grows_trans c m1 m2 m3 : grows c m1 m2 -> grows c m2 m3 -> grows c m1 m3.
Proof. intros [A1 B1] [A2 B2]. split; [auto|]. intros id Hc Hm. rewrite B2; [by apply B1|done|by apply A1]. Qed.

Lemma cls_fwd c id t k v n : btf_type_by_id (view c) id = Some t -> whole t k v n -> k = BTF_KIND_FWD -> exists s f, word t 0 = Some s /\ btf_fwd_kind t = Some f /\ cls c id = Some (s, f) /\ kind_is_composite f = true.
Proof.
  intros Ht Hw Hk. pose proof (whole_ranges _ _ _ _ Hw). destruct (whole_word _ _ _ _ 0 Hw) as [s Hs]; [lia|]. destruct (whole_word _ _ _ _ 1 Hw) as [i Hi]; [lia|].
  unfold cls, name_off, btf_fwd_kind, btf_kflag, info. rewrite Ht. cbn [mbind option_bind]. rewrite (wh_kind _ _ _ _ Hw), Hs, Hi, Hk. cbn [mbind option_bind].
  exists s. eexists. split_and!; [done|done|done|]. by destruct (negb _).
Qed.

Lemma cls_other c id t k v n : btf_type_by_id (view c) id = Some t -> whole t k v n -> k <> BTF_KIND_FWD -> cls c id = if kind_is_composite k then s ← word t 0; Some (s, k) else None.
Proof.
  intros Ht Hw Hk. pose proof (whole_ranges _ _ _ _ Hw). destruct (whole_word _ _ _ _ 0 Hw) as [s Hs]; [lia|]. unfold cls, name_off. rewrite Ht. cbn [mbind option_bind].
  rewrite (wh_kind _ _ _ _ Hw), Hs. cbn [mbind option_bind]. by rewrite (proj2 (Z.eqb_neq _ _) Hk).
Qed.

(** An enumeration that is only declared. *)
Definition declared_enum (c : chain) (id : Z) : Prop := exists t k n, btf_type_by_id (view c) id = Some t /\ whole t k 0 n /\ kind_is_any_enum k = true.

Lemma enum_kinds k : kind_is_any_enum k = true -> k <> BTF_KIND_FWD /\ kind_is_composite k = false.
Proof. unfold kind_is_any_enum. intros [->%Z.eqb_eq | ->%Z.eqb_eq]%orb_true_iff; done. Qed.

Lemma declared_is_enum c id : declared_enum c id -> is_enum c id.
Proof. intros (t & k & n & Ht & Hw & He). exists k. split; [|done]. unfold kind_of. rewrite Ht. apply Hw. Qed.

Lemma comp_not_declared c id : composite c id -> ~ declared_enum c id.
Proof. intros (k & Hk & Hc) (k' & Hk' & He)%declared_is_enum. rewrite Hk in Hk'. injection Hk' as <-. apply enum_kinds in He as [_ He]. congruence. Qed.

Lemma ref_kinds_not k : ref_kinds k = true -> k <> BTF_KIND_FWD /\ kind_is_composite k = false /\ kind_is_any_enum k = false /\ plain_kind k = false.
Proof.
  unfold ref_kinds, chain_kind. repeat rewrite orb_true_iff. rewrite !Z.eqb_eq. intros H. destruct_or! H; subst k; done.
Qed.

Lemma fwd_not_ref c id : is_fwd c id -> ~ is_ref c id.
Proof. unfold is_fwd. intros Hf (k & Hk & Hr). rewrite Hf in Hk. injection Hk as <-. done. Qed.

Lemma comp_not_ref c id : composite c id -> ~ is_ref c id.
Proof. intros (k & Hk & Hc) (k' & Hk' & Hr). rewrite Hk in Hk'. injection Hk' as <-. apply ref_kinds_not in Hr as (_ & Hr & _). congruence. Qed.

Lemma comp_not_fwd c id : composite c id -> ~ is_fwd c id.
Proof. intros (k & Hk & Hc) Hf. unfold is_fwd in Hf. rewrite Hk in Hf. by injection Hf as ->. Qed.

(** Pairs of the hypothetical map have the same name and kind. *)
Lemma local_cls c d x y : local c d x y -> cls c x = cls c y.
Proof.
  intros (t1 & k1 & v1 & n1 & t2 & k2 & v2 & n2 & T1 & W1 & T2 & W2 & H0 & Hma). destruct Hma as [Hk1 Hk2 Hf|Hk2 Hk1 Hf| -> Hen _|ws -> -> Hws Hsw _].
  - destruct (cls_fwd c x _ _ _ _ T1 W1 Hk1) as (s & f & Hs & Hf' & -> & Hfc). rewrite (cls_other c y _ _ _ _ T2 W2 Hk2). simplify_eq. by rewrite Hfc, <- H0, Hs.
  - destruct (cls_fwd c y _ _ _ _ T2 W2 Hk2) as (s & f & Hs & Hf' & -> & Hfc). rewrite (cls_other c x _ _ _ _ T1 W1 Hk1). simplify_eq. by rewrite Hfc, H0, Hs.
  - assert (k2 <> BTF_KIND_FWD /\ kind_is_composite k2 = false) as [Hnf Hnc]. { unfold kind_is_any_enum in Hen. apply orb_true_iff in Hen as [->%Z.eqb_eq | ->%Z.eqb_eq]; done. }
    by rewrite (cls_other c x _ _ _ _ T1 W1 Hnf), (cls_other c y _ _ _ _ T2 W2 Hnf), Hnc.
  - destruct (decide (k2 = BTF_KIND_FWD)) as [Hk|Hk]; [|by rewrite (cls_other c x _ _ _ _ T1 W1 Hk), (cls_other c y _ _ _ _ T2 W2 Hk), H0].
    destruct (cls_fwd c x _ _ _ _ T1 W1 Hk) as (s & f & Hs & Hf & -> & _). destruct (cls_fwd c y _ _ _ _ T2 W2 Hk) as (s' & f' & Hs' & Hf' & -> & _).
    rewrite Hk in Hws. injection Hws as <-. assert (word t1 1 = word t2 1) as H1 by (apply Hsw; in_list). unfold btf_fwd_kind, btf_kflag, info in Hf, Hf'. rewrite H1 in Hf. congruence.
Qed.

Lemma resolves_cls c N m k x r : map_inv c N m -> resolves m k x r -> cls c x = cls c r.
Proof. intros Hm. induction 1 as [|k x v r Hv Hle _ _ IH]; [done|]. by rewrite (mi_cls _ _ _ Hm x v Hv Hle). Qed.

Lemma resolves_comp c N m k x r : map_inv c N m -> resolves m k x r -> composite c x -> composite c r.
Proof. intros Hm. induction 1 as [|k x v r Hv Hle _ _ IH]; [done|]. intros Hx. apply IH. by apply (mi_comp _ _ _ Hm x v). Qed.

Lemma resolves_root m k x r : resolves m k x r -> resolves m 0 r r.
Proof. induction 1 as [x v Hv Hr|]; [by apply (res_root m x v)|done]. Qed.

Lemma mapped_zset m m' x y : zset m x y = Some m' -> y <= BTF_MAX_NR_TYPES -> forall id, mapped m id -> mapped m' id.
Proof.
  intros Hs Hy id (z & Hz & Hle). destruct (decide (id = x)) as [->|Hne]; [exists y; split; [by apply (zget_zset_eq _ _ _ _ Hs)|done]|]. exists z. by rewrite (zget_zset_ne _ _ _ _ _ Hs).
Qed.

(** A link to a root of the same name and kind. *)
Lemma map_link c N m m' x y : map_inv c N m -> zset m x y = Some m' -> x <> 0 -> 0 <= y <= BTF_MAX_NR_TYPES -> (y <> x -> resolves m 0 y y) ->
  cls c x = cls c y -> (composite c x -> composite c y) -> composite c y \/ is_enum c y \/ mapped m y \/ y = x -> ~ is_ref c x -> map_inv c N m'.
Proof.
  intros [Hl Hr H0 Hc Hco Hta Hnr] Hs Hx0 Hy Hroot Hcl Hcomp Hyt Hxr.
  assert (forall z, mapped m z -> mapped m' z) as Hmono by (apply (mapped_zset m m' x y); [done|lia]).
  assert (mapped m' x) as Hmx by (exists y; split; [by apply (zget_zset_eq _ _ _ _ Hs)|lia]).
  split; [by rewrite (zset_length _ _ _ _ Hs)|apply (link_root m m' x y); [done|done|lia|done]|by rewrite (zget_zset_ne _ _ _ _ _ Hs)| | | |].
  - intros a b Hab Hle. destruct (decide (a = x)) as [->|Hne]; [rewrite (zget_zset_eq _ _ _ _ Hs) in Hab; by simplify_eq|]. rewrite (zget_zset_ne _ _ _ _ _ Hs) in Hab by done. by apply Hc.
  - intros a b Hab Hle. destruct (decide (a = x)) as [->|Hne]; [rewrite (zget_zset_eq _ _ _ _ Hs) in Hab; by simplify_eq|]. rewrite (zget_zset_ne _ _ _ _ _ Hs) in Hab by done. by apply Hco.
  - intros a b Hab Hle. destruct (decide (a = x)) as [->|Hne].
    + rewrite (zget_zset_eq _ _ _ _ Hs) in Hab. injection Hab as <-. destruct Hyt as [?|[?|[?| ->]]]; auto.
    + rewrite (zget_zset_ne _ _ _ _ _ Hs) in Hab by done. destruct (Hta a b Hab Hle) as [?|[?|?]]; auto.
  - intros a b Hab Hle Hne. destruct (decide (a = x)) as [->|Hax]; [done|]. rewrite (zget_zset_ne _ _ _ _ _ Hs) in Hab by done. by apply (Hnr a b).
Qed.

Lemma grows_link c m m' x y : zset m x y = Some m' -> y <= BTF_MAX_NR_TYPES -> (~ is_fwd c x -> mapped m x -> zget m x = Some y) -> grows c m m'.
Proof.
  intros Hs Hy Hx. split; [by apply (mapped_zset m m' x y)|]. intros id Hc Hm. destruct (decide (id = x)) as [->|Hne]; [rewrite (zget_zset_eq _ _ _ _ Hs); symmetry; by apply Hx|]. by rewrite (zget_zset_ne _ _ _ _ _ Hs).
Qed.

(** ** Merging the hypothetical map *)
Section Merge.
Context (c : chain) (N : Z).
Hypothesis Hg : graph_ok c N.

Record state_inv (d : btf_dedup) : Prop := { si_hyp : hyp_inv c N (d_map d) d; si_map : map_inv c N (d_map d) }.

Lemma id_max id : id < N -> id <= BTF_MAX_NR_TYPES.
Proof. pose proof (to_max _ _ (gr_types _ _ Hg)). unfold BTF_MAX_NR_TYPES. lia. Qed.

Lemma with_map_inv m d : hyp_inv c N (d_map d) d -> map_inv c N m -> state_inv (with_map m d).
Proof. intros [] Hm. split; [by split|done]. Qed.

Lemma kind_of_total id : 0 <= id < N -> exists k, kind_of c id = Some k.
Proof. intros Hid. destruct (id_facts c N Hg id Hid) as (t & k & s & f & Ht & Hk & _). exists k. unfold kind_of. by rewrite Ht. Qed.

Lemma kind_nonzero id k : kind_of c id = Some k -> k <> 0 -> id <> 0.
Proof.
  intros Hk Hne ->. destruct (to_head _ _ (gr_types _ _ Hg)) as (o & base & Ec & _). unfold kind_of in Hk. rewrite Ec in Hk. by injection Hk as <-.
Qed.

Lemma id_kind_spec d id : d_btf d = c -> 0 <= id < N -> id_kind d id = kind_of c id.
Proof.
  intros Hb Hid. destruct (id_facts c N Hg id Hid) as (t & k & s & f & Ht & Hk & _). unfold id_kind, kind_of, btf__type_by_id. rewrite Hb, (to_cnt _ _ (gr_types _ _ Hg)). cbn [mbind option_bind].
  destruct (Z.geb_spec id N); [lia|]. by rewrite Ht.
Qed.

(** Of two types of the same name and kind, one is a forward declaration only if the other is one
    or is a struct or union. *)
Lemma cls_kinds x y kx ky : 0 <= x < N -> 0 <= y < N -> kind_of c x = Some kx -> kind_of c y = Some ky -> cls c x = cls c y -> ky <> BTF_KIND_FWD ->
  kx = BTF_KIND_FWD \/ kind_is_composite kx = true -> kind_is_composite ky = true.
Proof.
  intros Hx Hy Kx Ky Hcl Hny Hkx. destruct (id_facts c N Hg x Hx) as (t & k & s & f & Ht & Hk & Hs & Hf & _ & Hw). destruct (id_facts c N Hg y Hy) as (t' & k' & s' & f' & Ht' & Hk' & Hs' & Hf' & _).
  unfold kind_of in Kx, Ky. rewrite Ht in Kx. rewrite Ht' in Ky. cbn [mbind option_bind] in Kx, Ky. assert (k = kx) as -> by congruence. assert (k' = ky) as -> by congruence.
  unfold cls, name_off in Hcl. rewrite Ht, Ht' in Hcl. cbn [mbind option_bind] in Hcl. rewrite Hk, Hk', Hs, Hs', Hf, Hf' in Hcl. cbn [mbind option_bind] in Hcl.
  rewrite (proj2 (Z.eqb_neq _ _) Hny) in Hcl. destruct (kind_is_composite ky); [done|]. destruct Hkx as [->|Hkx]; [done|]. rewrite Hkx in Hcl. by destruct (kx =? BTF_KIND_FWD).
Qed.

Lemma map_range m x y : map_inv c N m -> zget m x = Some y -> 0 <= x < N.
Proof. intros Hm Hx%zget_lt. rewrite (mi_len _ _ _ Hm) in Hx. lia. Qed.

Lemma resolve_in d x : state_inv d -> 0 <= x < N -> exists r, resolve_type_id d x = Some r /\ 0 <= r < N /\ resolves (d_map d) 0 r r /\ cls c x = cls c r /\ (composite c x -> composite c r).
Proof.
  intros [_ Hm] Hx. destruct (resolve_total d x (mi_rooted _ _ _ Hm)) as (k & r & Hr & Hres); [rewrite (mi_len _ _ _ Hm); lia|]. exists r. split; [done|].
  pose proof (resolves_range _ _ _ _ Hr) as [_ Hrr]. rewrite (mi_len _ _ _ Hm) in Hrr.
  split_and!; [lia|lia|by eapply resolves_root|by eapply resolves_cls|by eapply resolves_comp].
Qed.

Lemma is_mapped_spec d x : state_inv d -> 0 <= x < N -> exists b, is_type_mapped d x = Some b /\ (b = true <-> mapped (d_map d) x).
Proof.
  intros [_ Hm] Hx. destruct (zget_is_Some (d_map d) x) as [y Hy]; [rewrite (mi_len _ _ _ Hm); lia|]. unfold is_type_mapped. rewrite Hy. cbn [mbind option_bind]. eexists. split; [done|].
  rewrite Z.leb_le. split; [intros; by exists y|]. intros (z & Hz & Hle). by simplify_eq.
Qed.

(** [d->map\[x\] = y] for a root [y]. *)
Lemma set_map_link d x y : state_inv d -> x <> 0 -> 0 <= x < N -> 0 <= y < N -> (y <> x -> resolves (d_map d) 0 y y) -> cls c x = cls c y ->
  (composite c x -> composite c y) -> composite c y \/ mapped (d_map d) y -> ~ is_ref c x -> (~ is_fwd c x -> mapped (d_map d) x -> zget (d_map d) x = Some y) ->
  exists m', set_map d x y = Some (with_map m' d) /\ map_inv c N m' /\ grows c (d_map d) m' /\ zset (d_map d) x y = Some m'.
Proof.
  intros [Hh Hm] Hx0 Hx Hy Hr Hcl Hco Hyt Hxr Hk. destruct (zset_is_Some (d_map d) x y) as [m' Hs]; [rewrite (mi_len _ _ _ Hm); lia|]. pose proof (id_max y ltac:(lia)).
  exists m'. unfold set_map. rewrite Hs. split_and!; [done|apply (map_link c N (d_map d) m' x y); [done|done|done|lia|done|done|done|tauto|done]|by apply (grows_link c _ _ x y)|done].
Qed.

Lemma merge_spec l : forall d, state_inv d -> (forall id, id ∈ l -> exists h, zget (hypot_map d) id = Some h /\ 0 <= h < N /\ 0 <= id < N /\ cls c h = cls c id) ->
  exists m', merge_loop l d = Some (with_map m' d) /\ map_inv c N m' /\ grows c (d_map d) m'.
Proof.
  induction l as [|id l IH]; intros d Hs Hl; cbn [merge_loop]; [exists (d_map d); split_and!; [by destruct d|apply Hs|apply grows_refl]|].
  destruct (Hl id) as (h & Hh & Hhr & Hidr & Hcl); [left|]. rewrite Hh. cbn [mbind option_bind].
  destruct (resolve_in d h Hs Hhr) as (tr & -> & Ht & Htroot & Htc & Htco). destruct (resolve_in d id Hs Hidr) as (cr & -> & Hcr & Hcroot & Hcc & Hcco). cbn [mbind option_bind].
  rewrite !id_kind_spec by (done || apply (si_hyp _ Hs)). destruct (kind_of_total tr Ht) as [tk Htk]. destruct (kind_of_total cr Hcr) as [ck Hck]. rewrite Htk, Hck. cbn [mbind option_bind].
  assert (cls c tr = cls c cr) as Hcls by congruence.
  assert (forall m', map_inv c N m' -> grows c (d_map d) m' -> exists m2, merge_loop l (with_map m' d) = Some (with_map m2 d) /\ map_inv c N m2 /\ grows c (d_map d) m2) as Hrest.
  { intros m' Hm' Hgr. destruct (IH (with_map m' d)) as (m2 & Hm2 & Hi2 & Hg2); [apply with_map_inv; [apply Hs|done]|intros id' Hid'; apply Hl; by right|].
    exists m2. split_and!; [done|done|by eapply grows_trans]. }
  assert (forall x k, kind_of c x = Some k -> k = BTF_KIND_FWD -> ~ composite c x /\ is_fwd c x) as Hnc by (intros x k Hx ->; split; [intros (k' & Hk' & Hco); simplify_eq; done|done]).
  assert (tk = BTF_KIND_FWD -> ck <> BTF_KIND_FWD -> composite c cr) as Hcc' by (intros H1 H2; exists ck; split; [done|]; apply (cls_kinds tr cr tk ck); auto).
  assert (ck = BTF_KIND_FWD -> tk <> BTF_KIND_FWD -> composite c tr) as Htc' by (intros H1 H2; exists tk; split; [done|]; apply (cls_kinds cr tr ck tk); auto).
  destruct (Z.eqb_spec tk BTF_KIND_FWD) as [Etk|Etk]; destruct (Z.eqb_spec ck BTF_KIND_FWD) as [Eck|Eck]; cbn [negb andb mbind option_bind].
  - assert (kind_is_composite tk = false) as -> by (by rewrite Etk). destruct (is_mapped_spec d cr Hs Hcr) as (bc & -> & _). destruct (is_mapped_spec d tr Hs Ht) as (bt & -> & _). cbn [mbind option_bind andb].
    destruct (hypot_adjust_canon d); destruct (Hrest (d_map d) (si_map _ Hs) (grows_refl c _)) as (m2 & Hm2 & ?); exists m2; (split; [by destruct d|done]).
  - destruct (hypot_adjust_canon d) eqn:Had; [destruct (Hrest (d_map d) (si_map _ Hs) (grows_refl c _)) as (m2 & Hm2 & ?); exists m2; (split; [by destruct d|done])|].
    destruct (Hnc tr tk Htk Etk) as [Hnt Hft]. destruct (set_map_link d tr cr) as (m' & -> & Hm' & Hgr & _); [done|by apply (kind_nonzero tr tk); [|rewrite Etk]|done|done|done|done|done|left; by apply Hcc'|by apply fwd_not_ref|done|]. cbn [mbind option_bind].
    assert (kind_is_composite tk = false) as -> by (by rewrite Etk). pose proof (with_map_inv m' d (si_hyp _ Hs) Hm') as Hs'.
    destruct (is_mapped_spec _ cr Hs' Hcr) as (bc & -> & _). destruct (is_mapped_spec _ tr Hs' Ht) as (bt & -> & _). cbn [mbind option_bind andb]. by apply Hrest.
  - destruct (Hnc cr ck Hck Eck) as [Hnt Hft]. destruct (set_map_link d cr tr) as (m' & -> & Hm' & Hgr & _); [done|by apply (kind_nonzero cr ck); [|rewrite Eck]|done|done|done|done|done|left; by apply Htc'|by apply fwd_not_ref|done|]. cbn [mbind option_bind].
    change (hypot_adjust_canon (with_map m' d)) with (hypot_adjust_canon d). destruct (hypot_adjust_canon d); [by apply Hrest|]. cbn [mbind option_bind].
    pose proof (with_map_inv m' d (si_hyp _ Hs) Hm') as Hs'. destruct (is_mapped_spec _ cr Hs' Hcr) as (bc & -> & _). destruct (is_mapped_spec _ tr Hs' Ht) as (bt & -> & _). cbn [mbind option_bind].
    rewrite andb_false_r. cbn [andb mbind option_bind]. by apply Hrest.
  - destruct (hypot_adjust_canon d) eqn:Had; [destruct (Hrest (d_map d) (si_map _ Hs) (grows_refl c _)) as (m2 & Hm2 & ?); exists m2; (split; [by destruct d|done])|]. cbn [mbind option_bind].
    destruct (is_mapped_spec d cr Hs Hcr) as (bc & -> & Hbc). destruct (is_mapped_spec d tr Hs Ht) as (bt & -> & Hbt). cbn [mbind option_bind]. rewrite andb_true_r.
    destruct (kind_is_composite tk && bc && negb bt) eqn:Hb; cbn [mbind option_bind]; [|destruct (Hrest (d_map d) (si_map _ Hs) (grows_refl c _)) as (m2 & Hm2 & ?); exists m2; (split; [by destruct d|done])].
    apply andb_true_iff in Hb as [[Hb1 ->]%andb_true_iff ->%negb_true_iff].
    destruct (set_map_link d tr cr) as (m' & -> & Hm' & Hgr & _); [done|apply (kind_nonzero tr tk); [done|by intros ->]|done|done|done|done| |right; by apply Hbc|apply comp_not_ref; by exists tk|intros _ Hx; by apply Hbt in Hx|by apply Hrest].
    intros _. exists ck. split; [done|]. apply (cls_kinds tr cr tk ck); auto.
Qed.

Lemma clear_loop_spec l : forall m, (forall id, id ∈ l -> 0 <= id < Z.of_nat (length m)) -> exists m', clear_loop l m = Some m' /\ length m' = length m /\
  forall id, zget m' id = if decide (id ∈ l) then Some BTF_UNPROCESSED_ID else zget m id.
Proof.
  induction l as [|x l IH]; intros m Hl; cbn [clear_loop]; [exists m; split_and!; [done|done|]; intros id; by rewrite decide_False by apply not_elem_of_nil|].
  destruct (zset_is_Some m x BTF_UNPROCESSED_ID) as [m1 Hs]; [apply Hl; left|]. rewrite Hs. cbn [mbind option_bind]. pose proof (zset_length _ _ _ _ Hs) as Hlen.
  destruct (IH m1) as (m' & -> & Hl' & Hg'); [intros id Hid; rewrite Hlen; apply Hl; by right|]. exists m'. split_and!; [done|lia|]. intros id. rewrite Hg'.
  destruct (decide (id ∈ l)) as [Hin|Hin]; [by rewrite decide_True by (by right)|]. destruct (decide (id = x)) as [->|Hne].
  - rewrite decide_True by left. by apply (zget_zset_eq _ _ _ _ Hs).
  - rewrite decide_False by (intros [?|?]%elem_of_cons; done). by apply (zget_zset_ne _ _ _ _ _ Hs).
Qed.

Lemma clear_spec d : state_inv d -> exists d', btf_dedup_clear_hypot_map d = Some d' /\ state_inv d' /\ d_map d' = d_map d /\ dedup_table d' = dedup_table d /\ hypot_list d' = [].
Proof.
  intros [Hh Hm]. unfold btf_dedup_clear_hypot_map. destruct (clear_loop_spec (hypot_list d) (hypot_map d)) as (m' & -> & Hl & Hz).
  { intros id (h & Hid & _)%(hi_list _ _ _ _ Hh). by apply zget_lt in Hid. }
  cbn [mbind option_bind]. eexists. split; [done|]. split_and!; [|done|done|done]. split; [|done].
  assert (forall id h, zget m' id = Some h -> ~ h <= BTF_MAX_NR_TYPES) as Hno.
  { intros id h Hid Hle. rewrite Hz in Hid. destruct (decide (id ∈ hypot_list d)) as [|Hn]; [injection Hid as <-; by vm_compute in Hle|]. apply Hn. apply (hi_list _ _ _ _ Hh). eauto. }
  split; cbn [d_btf d_map hypot_map hypot_list with_hypot]; [apply Hh|done|by rewrite Hl, (hi_len _ _ _ _ Hh)|constructor| |].
  - intros id. split; [intros []%elem_of_nil|]. intros (h & Hid & Hle). by apply Hno in Hid.
  - intros id h Hid Hle. by apply Hno in Hid.
Qed.

(** ** The candidates of a struct or union *)
Definition err_of (al : oracle) (err : Z) : Prop := err = - EINVAL \/ err = - ENOMEM /\ alloc_fails al.

Lemma shallow_cls x y t k v n t' k' v' n' : btf_type_by_id (view c) x = Some t -> whole t k v n -> kind_is_composite k = true -> btf_type_by_id (view c) y = Some t' -> whole t' k' v' n' ->
  same_words ([0; 1; 2] ++ elem_words v 3 [0; 2]) t t' -> cls c x = cls c y /\ composite c x /\ composite c y.
Proof.
  intros Tx Wx Hk Ty Wy Hs. destruct (info_kind t t' _ _ _ _ _ _ Wx Wy) as (<- & <- & <-); [apply Hs; in_list|]. assert (k <> BTF_KIND_FWD) as Hnf by (intros ->; done).
  rewrite (cls_other c x _ _ _ _ Tx Wx Hnf), (cls_other c y _ _ _ _ Ty Wy Hnf). assert (word t 0 = word t' 0) as -> by (apply Hs; in_list). split; [done|].
  split; exists k; (split; [|done]); unfold kind_of; [rewrite Tx; apply Wx|rewrite Ty; apply Wy].
Qed.

Lemma struct_cands_spec al t type_id k v n cands : 0 < type_id < N -> btf_type_by_id (view c) type_id = Some t -> whole t k v n -> kind_is_composite k = true -> forall d, state_inv d ->
  (forall id, id ∈ cands -> 0 < id < N /\ (composite c id -> zget (d_map d) id = Some id)) ->
  exists r d', struct_cands al d t type_id cands = Some (r, d') /\ state_inv d' /\ grows c (d_map d) (d_map d') /\ dedup_table d' = dedup_table d /\
    (r = type_id \/ r ∈ cands /\ composite c r /\ cls c type_id = cls c r \/ err_of al r).
Proof.
  intros Htid Ht Hw Hk. induction cands as [|cd cands IH]; intros d Hs Hc; cbn [struct_cands]; [exists type_id, d; split_and!; [done|done|apply grows_refl|done|by left]|].
  destruct (Hc cd) as [Hcd Hcself]; [left|]. destruct (to_types _ _ (gr_types _ _ Hg) cd Hcd) as (t' & k' & v' & n' & Ht' & Hw'). unfold dtype at 1. rewrite (hi_btf _ _ _ _ (si_hyp _ Hs)), Ht'. cbn [mbind option_bind].
  assert (forall d1, state_inv d1 -> grows c (d_map d) (d_map d1) -> dedup_table d1 = dedup_table d ->
    exists r d', struct_cands al d1 t type_id cands = Some (r, d') /\ state_inv d' /\ grows c (d_map d) (d_map d') /\ dedup_table d' = dedup_table d /\
    (r = type_id \/ r ∈ cd :: cands /\ composite c r /\ cls c type_id = cls c r \/ err_of al r)) as Hrest.
  { intros d1 Hs1 Hg1 Ht1. destruct (IH d1 Hs1) as (r & d' & -> & Hs' & Hg' & Ht1' & Hr).
    - intros id Hid. destruct (Hc id) as [Hr Hself]; [by right|]. split; [done|]. intros Hco. destruct Hg1 as [_ Hg1]. rewrite Hg1; [by apply Hself|by apply comp_not_fwd|].
      exists id. split; [by apply Hself|apply id_max; lia].
    - exists r, d'. split_and!; [done|done|by eapply grows_trans|congruence|]. destruct Hr as [?|[[? ?]|?]]; [by left|right; left; split; [by right|done]|by right; right]. }
  destruct (shallow_spec t t' _ _ _ _ _ _ Hw Hw' Hk) as (b & -> & Hb). cbn [mbind option_bind]. destruct b; cbn [negb]; [|apply Hrest; [done|apply grows_refl|done]].
  pose proof (shallow_cls type_id cd t k v n t' k' v' n' Ht Hw Hk Ht' Hw' (proj1 Hb eq_refl)) as (Hcls & _ & Hcomp).
  destruct (clear_spec d Hs) as (d1 & -> & Hs1 & Hm1 & Ht1 & Hl1). cbn [mbind option_bind].
  destruct (is_equiv_good c N Hg (sub cd al) (d_map d1) (mi_rooted _ _ _ (si_map _ Hs1)) (mi_len _ _ _ (si_map _ Hs1)) (S (length (d_map d1))) d1 type_id cd (si_hyp _ Hs1)) as (r & d2 & -> & Hi2 & (_ & _ & Ht2) & Hr);
    [rewrite (mi_len _ _ _ (si_map _ Hs1)); lia|lia|lia|]. cbn [mbind option_bind].
  assert (state_inv d2) as Hs2. { split; rewrite (hi_map _ _ _ _ Hi2); [done|apply Hs1]. } assert (d_map d2 = d_map d) as Hm2 by (by rewrite (hi_map _ _ _ _ Hi2)).
  assert (grows c (d_map d) (d_map d2)) as Hg2 by (rewrite Hm2; apply grows_refl).
  destruct Hr as [(-> & _ & Hn)|[->|[->|[-> Ha]]]]; cbn [Z.ltb Z.eqb Z.compare].
  - destruct (merge_spec (hypot_list d2) d2 Hs2) as (m3 & Hm3 & Hi3 & Hg3).
    { intros id Hid. pose proof Hid as (h & Hh & Hle)%(hi_list _ _ _ _ Hi2). exists h. split_and!; [done|by apply (hi_ids _ _ _ _ Hi2 id h)|by apply (hi_ids _ _ _ _ Hi2 id h)| | |].
      - apply zget_lt in Hh. lia.
      - apply zget_lt in Hh. rewrite (hi_len _ _ _ _ Hi2) in Hh. lia.
      - apply (local_cls c d2). apply Hn; [done| |done]. rewrite Hl1. apply not_elem_of_nil. }
    unfold btf_dedup_merge_hypot_map. rewrite Hm3. cbn [mbind option_bind]. pose proof (with_map_inv m3 d2 (si_hyp _ Hs2) Hi3) as Hs3.
    assert (grows c (d_map d) (d_map (with_map m3 d2))) as Hg3' by (by eapply grows_trans). change (hypot_adjust_canon (with_map m3 d2)) with (hypot_adjust_canon d2).
    destruct (hypot_adjust_canon d2); [apply Hrest; [done|done|cbn; congruence]|]. exists cd, (with_map m3 d2). split_and!; [done|done|done|cbn; congruence|]. right. left. split; [left|done].
  - apply Hrest; [done|done|congruence].
  - exists (- EINVAL), d2. split_and!; [done|done|done|congruence|]. right. right. by left.
  - exists (- ENOMEM), d2. split_and!; [done|done|done|congruence|]. right. right. right. split; [done|by apply fails_sub in Ha].
Qed.

(** ** The pass *)
Section Pass.
Context (hash_fn : Z -> Z) {HK : HashKey hash_fn btf_dedup_equal_fn} (start : Z) (m0 : list Z).

(** Before the struct or union [i]: the types in the table are canonical, except for declarations,
    and the structs and unions before [i], the enumerations and the base are mapped; types other
    than forward declarations that were mapped in [m0], before the pass, keep their target. *)
Record struct_inv (size : Z) (d : btf_dedup) (i : Z) : Prop := {
  ss_state : state_inv d;
  ss_table : table_ok hash_fn d N size;
  ss_self : forall id, in_table d id -> ~ is_fwd c id -> ~ declared_enum c id -> zget (d_map d) id = Some id;
  ss_done : forall id, 0 < id < i -> composite c id -> mapped (d_map d) id;
  ss_others : forall id, 0 < id < start \/ 0 < id < N /\ is_enum c id -> mapped (d_map d) id;
  ss_keep : forall id, ~ is_fwd c id -> mapped m0 id -> zget (d_map d) id = zget m0 id
}.

Lemma table_ok_same d d' size : dedup_table d' = dedup_table d -> d_btf d' = d_btf d -> table_ok hash_fn d N size -> table_ok hash_fn d' N size.
Proof. intros Et Eb [H1 H2 H3 H4]. split; rewrite ?Et; try done. intros e He. unfold dtype. rewrite Eb. by apply H4. Qed.

Lemma struct_skip size d i : struct_inv size d i -> (composite c i -> mapped (d_map d) i) -> struct_inv (size + 1) d (i + 1).
Proof.
  intros [Hs [] Hself Hdone Hoth Hkeep] Hi. split; [done|split; auto; lia|done| |done|done]. intros id Hid Hc. destruct (decide (id = i)) as [->|]; [by apply Hi|]. apply Hdone; [lia|done].
Qed.

(** The end of a struct or union that was not mapped: [m] is the map before its candidates were
    compared. *)
Lemma struct_finish al size d i h t k v n r : state_inv d -> table_ok hash_fn d N size -> size < 2 ^ 50 -> 0 < i < N -> btf_type_by_id (view c) i = Some t -> whole t k v n -> stored_hash t k v h ->
  (forall id, in_table d id -> ~ is_fwd c id -> ~ declared_enum c id -> id <> i /\ zget (d_map d) id = Some id) -> (forall id, 0 < id < i -> composite c id -> mapped (d_map d) id) ->
  (forall id, 0 < id < start \/ 0 < id < N /\ is_enum c id -> mapped (d_map d) id) -> (forall id, ~ is_fwd c id -> mapped m0 id -> zget (d_map d) id = zget m0 id /\ id <> i) -> composite c i ->
  r = i \/ in_table d r /\ composite c r /\ cls c i = cls c r ->
  exists err d', finish_type hash_fn al d h i r = Some (err, d') /\ (err = 0 /\ struct_inv (size + 1) d' (i + 1) \/ err_of al err).
Proof.
  intros Hs Ht Hsz Hi Hty Hw Hh Hself Hdone Hoth Hkeep Hci Hr. assert (0 <= r < N) as Hrr by (destruct Hr as [->|((e & He & <-) & _)]; [lia|]; apply (tb_entries _ _ _ _ Ht) in He as [? _]; lia).
  assert (r <> i -> resolves (d_map d) 0 r r) as Hroot. { intros Hne. destruct Hr as [->|(Hin & Hco & _)]; [done|]. apply (res_root _ r r); [by apply Hself; [..|apply comp_not_fwd|apply comp_not_declared]|by right]. }
  assert (cls c i = cls c r) as Hcls by (destruct Hr as [->|(_ & _ & ?)]; done).
  unfold finish_type, set_map. destruct (zset_is_Some (d_map d) i r) as [m' Hs']; [rewrite (mi_len _ _ _ (si_map _ Hs)); lia|]. rewrite Hs'. cbn [mbind option_bind].
  assert (map_inv c N m') as Hm'. { apply (map_link c N (d_map d) m' i r); [apply Hs|done|lia|pose proof (id_max r); lia|done|done| |left|by apply comp_not_ref]; destruct Hr as [->|(_ & ? & _)]; done. }
  pose proof (with_map_inv m' d (si_hyp _ Hs) Hm') as Hsm. assert (table_ok hash_fn (with_map m' d) N size) as Htm by (by apply (table_ok_same d)).
  assert (forall id, 0 < id < i + 1 -> composite c id -> mapped m' id) as Hdone'.
  { intros id Hid Hc. destruct (decide (id = i)) as [->|]; [exists r; split; [by apply (zget_zset_eq _ _ _ _ Hs')|apply id_max; lia]|].
    destruct (Hdone id) as (y & Hy & ?); [lia|done|]. exists y. by rewrite (zget_zset_ne _ _ _ _ _ Hs'). }
  assert (forall id, 0 < id < start \/ 0 < id < N /\ is_enum c id -> mapped m' id) as Hoth' by (intros id Hid; apply (mapped_zset (d_map d) m' i r); [done|apply id_max; lia|by apply Hoth]).
  assert (forall id, ~ is_fwd c id -> mapped m0 id -> zget m' id = zget m0 id) as Hkeep'.
  { intros id Hf Hm. destruct (Hkeep id Hf Hm) as [<- Hne]. by rewrite (zget_zset_ne _ _ _ _ _ Hs'). }
  destruct (Z.eqb_spec i r) as [<-|Hne].
  - destruct (table_add_spec hash_fn al (with_map m' d) N size h i t k v n Htm Hsz Hi) as (err & tb & -> & Htb & Hcase); [unfold dtype; by rewrite (hi_btf _ _ _ _ (si_hyp _ Hsm))|done|done|].
    cbn [mbind option_bind]. eexists _, _. split; [done|]. destruct Hcase as [[-> Hp]|[-> Ha]]; [left; split; [done|]|right; by right].
    split; [by destruct Hsm as [[] ?]; split; [split|]|done| |done|done|done]. intros id Hin Hc Hd. apply (in_table_add (with_map m' d) tb h i id Hp) in Hin as [->|Hin]; [by apply (zget_zset_eq _ _ _ _ Hs')|].
    destruct (Hself id Hin Hc Hd) as [Hne Hz]. cbn [d_map with_table with_map]. by rewrite (zget_zset_ne _ _ _ _ _ Hs').
  - eexists _, _. split; [done|]. left. split; [done|]. split; [done|destruct Htm; split; auto; lia| |done|done|done].
    intros id Hin Hc Hd. destruct (Hself id Hin Hc Hd) as [Hni Hz]. cbn [d_map with_map]. by rewrite (zget_zset_ne _ _ _ _ _ Hs').
Qed.

Lemma struct_step al size d i : struct_inv size d i -> size < 2 ^ 50 -> 0 < i < N ->
  exists err d', btf_dedup_struct_type hash_fn al d i = Some (err, d') /\ (err = 0 /\ struct_inv (size + 1) d' (i + 1) \/ err_of al err).
Proof.
  intros Hinv Hsz Hi. pose proof Hinv as [Hs Ht Hself Hdone Hoth Hkeep]. unfold btf_dedup_struct_type.
  destruct (is_mapped_spec d i Hs) as (b & -> & Hb); [lia|]. cbn [mbind option_bind]. destruct b.
  { exists 0, d. split; [done|]. left. split; [done|]. apply struct_skip; [done|]. intros _. by apply Hb. }
  destruct (to_types _ _ (gr_types _ _ Hg) i Hi) as (t & k & v & n & Hty & Hw). unfold dtype. rewrite (hi_btf _ _ _ _ (si_hyp _ Hs)), Hty. cbn [mbind option_bind]. rewrite (wh_kind _ _ _ _ Hw). cbn [mbind option_bind].
  assert (kind_of c i = Some k) as Hki by (unfold kind_of; rewrite Hty; apply Hw). destruct (kind_is_composite k) eqn:Hco; cbn [negb].
  2:{ exists 0, d. split; [done|]. left. split; [done|]. apply struct_skip; [done|]. intros (k' & Hk' & ?). simplify_eq. congruence. }
  destruct (kind_eqs t k v n Hw) as (_ & _ & E3 & _). destruct (hash_struct_spec t k v n Hw (E3 Hco)) as (h & -> & Hh). cbn [mbind option_bind].
  assert (stored_hash t k v h) as Hst. { eexists. split; [|done]. unfold hash_ws. rewrite Hco. unfold kind_is_composite in Hco. apply orb_true_iff in Hco as [->%Z.eqb_eq | ->%Z.eqb_eq]; done. }
  destruct (candidates_spec hash_fn d N size h Ht) as (l & Hl & _). rewrite Hl. cbn [mbind option_bind].
  assert (forall id, id ∈ l -> 0 < id < N /\ in_table d id) as Hin by (intros id Hid; destruct (candidate_type hash_fn d N size h l id Ht Hl Hid) as (? & ? & _); done).
  destruct (struct_cands_spec (sub 0 al) t i k v n l Hi Hty Hw Hco d Hs) as (r & d1 & -> & Hs1 & Hg1 & Ht1 & Hr). { intros id Hid. destruct (Hin id Hid). split; [done|]. intros Hc. apply Hself; [done|by apply comp_not_fwd|by apply comp_not_declared]. }
  cbn [mbind option_bind]. assert (table_ok hash_fn d1 N size) as Htd1. { apply (table_ok_same d); [done|by rewrite (hi_btf _ _ _ _ (si_hyp _ Hs1)), (hi_btf _ _ _ _ (si_hyp _ Hs))|done]. }
  assert (forall id, in_table d1 id <-> in_table d id) as Hint by (intros id; unfold in_table; by rewrite Ht1).
  assert (err_of (sub 0 al) r \/ (r = i \/ in_table d1 r /\ composite c r /\ cls c i = cls c r)) as Hr'.
  { destruct Hr as [?|[(Hrin & ? & ?)|?]]; [by right; left|right; right; rewrite Hint; split_and!; [by apply Hin|done|done]|by left]. }
  destruct Hr' as [He|Hr'].
  { exists r, d1. destruct He as [->|[-> Ha]]; cbn [Z.ltb Z.compare]; (split; [done|]); right; [by left|right; split; [done|by apply fails_sub in Ha]]. }
  assert (0 < r) as Hrp by (destruct Hr' as [->|(Hrin & _)]; [lia|]; destruct Hrin as (e & He & <-); apply (tb_entries _ _ _ _ Htd1) in He as [? _]; lia).
  destruct (Z.ltb_spec r 0); [lia|]. destruct (struct_finish (sub 1 al) size d1 i h t k v n r) as (err & d' & -> & Hcase); try done.
  - intros id Hid Hc Hd. apply Hint in Hid. pose proof (Hself id Hid Hc Hd) as Hz. assert (mapped (d_map d) id) as Hm. { exists id. split; [done|]. apply zget_lt in Hz. rewrite (mi_len _ _ _ (si_map _ Hs)) in Hz. apply id_max. lia. }
    split; [intros ->; by apply Hb in Hm|]. destruct Hg1 as [_ Hg1]. by rewrite Hg1.
  - intros id Hid Hc. apply Hg1. by apply Hdone.
  - intros id Hid. apply Hg1. by apply Hoth.
  - intros id Hf Hm. pose proof (Hkeep id Hf Hm) as Hz. assert (mapped (d_map d) id) as Hmd by (destruct Hm as (y & Hy & ?); exists y; by rewrite Hz).
    split; [destruct Hg1 as [_ Hg1]; by rewrite Hg1|]. intros ->. by apply Hb in Hmd.
  - by exists k.
  - exists err, d'. split; [done|]. destruct Hcase as [?|[?|[? Ha]]]; [by left|right; by left|right; right]. split; [done|by apply fails_sub in Ha].
Qed.

Lemma struct_pass al nn : forall size d i, struct_inv size d i -> size + Z.of_nat nn < 2 ^ 50 -> 0 < i -> i + Z.of_nat nn <= N ->
  exists err d', pass nn i (fun id d => btf_dedup_struct_type hash_fn (sub id al) d id) d = Some (err, d') /\
    (err = 0 /\ struct_inv (size + Z.of_nat nn) d' (i + Z.of_nat nn) \/ err_of al err).
Proof.
  induction nn as [|nn IH]; intros size d i Hinv Hm Hs Hi; cbn [pass].
  - exists 0, d. split; [done|]. left. split; [done|]. by rewrite !Z.add_0_r.
  - destruct (struct_step (sub i al) size d i Hinv) as (err & d1 & -> & Hcase); [lia..|]. cbn [mbind option_bind]. destruct Hcase as [[-> Hinv1]|He].
    + cbn [Z.ltb Z.compare]. destruct (IH (size + 1) d1 (i + 1) Hinv1) as (err & d' & E & Hcase); [lia..|]. exists err, d'. split; [done|].
      destruct Hcase as [[-> H']|?]; [left; split; [done|]|by right]. replace (size + Z.of_nat (S nn)) with (size + 1 + Z.of_nat nn) by lia.
      by replace (i + Z.of_nat (S nn)) with (i + 1 + Z.of_nat nn) by lia.
    + exists err, d1. destruct He as [->|[-> Ha]]; cbn [Z.ltb Z.compare]; (split; [done|]); right; [by left|right; split; [done|by apply fails_sub in Ha]].
Qed.
End Pass.
End Merge.
