(* ===== verification/DedupLinks.v ===== *)
(** * Deduplication: from a fresh state through the structs

    The preparation and the pass over primitive types leave a state in which the pass over structs
    and unions is sound; [struct_types_sound] composes the three. *)
From stdpp Require Import base numbers list gmap sorting.
From S2P Require Import Prelude Hashmap Strset Btf BtfBuild BtfBuildSpec BtfIter BtfCopy BtfDedup DedupPrim DedupEquiv DedupStruct.

(** A root that is mapped to an id that leads elsewhere: the links stay without cycles. *)
Lemma root_link m m' x y k r : rooted m -> zset m x y = Some m' -> y <= BTF_MAX_NR_TYPES -> resolves m 0 x x -> resolves m k y r -> r <> x -> rooted m'.
Proof.
  intros Hm Hs Hy Hx Hyr Hne z Hz. rewrite (zset_length _ _ _ _ Hs) in Hz.
  assert (forall k z r, resolves m k z r -> r <> x -> resolves m' k z r) as Hother.
  { clear z Hz. induction 1 as [z v Hv Hr|k' z v r' Hv Hmx Hnz Hres IH]; intros Hrx.
    - apply (res_root m' z v); [|done]. by rewrite (zget_zset_ne _ _ _ _ _ Hs).
    - apply (res_step m' k' z v r'); [|done|done|by apply IH]. destruct (decide (z = x)) as [->|]; [|by rewrite (zget_zset_ne _ _ _ _ _ Hs)].
      exfalso. assert (resolves m (S k') x r') as H' by (by apply (res_step m k' x v r')). destruct (resolves_fun _ _ _ _ Hx _ _ H') as [? _]. done. }
  assert (exists k, resolves m' k x r) as [kx Hxr].
  { destruct (decide (y = x)) as [->|Hyx]; [destruct (resolves_fun _ _ _ _ Hx _ _ Hyr) as [_ ->]; done|].
    exists (S k). apply (res_step m' k x y r); [by apply (zget_zset_eq _ _ _ _ Hs)|lia|done|by apply Hother]. }
  destruct (Hm z Hz) as (kz & rz & Hzr). destruct (decide (rz = x)) as [->|]; [|exists kz, rz; by apply Hother].
  clear Hz. induction Hzr as [z v Hv Hr|k' z v r' Hv Hmx Hnz Hres IH]; [eauto|]. destruct IH as (k2 & r2 & Hv2); [done..|].
  destruct (decide (z = r')) as [->|Hzx]; [eauto|]. exists (S k2), r2. apply (res_step m' k2 z v r2); [|done..]. by rewrite (zget_zset_ne _ _ _ _ _ Hs).
Qed.

(** Links that lead below [i] do not reach [i]. *)
Lemma resolves_below m i k y r : resolves m k y r -> y <> i -> (forall x v, zget m x = Some v -> v <= BTF_MAX_NR_TYPES -> v = x \/ v < i) -> r <> i.
Proof. induction 1 as [|k x v r Hv Hle Hne _ IH]; intros Hy Hb; [done|]. apply IH; [|done]. destruct (Hb x v Hv Hle); [done|lia]. Qed.

Lemma whole_fun c id t t' k v n k' v' n' : btf_type_by_id (view c) id = Some t -> whole t k v n -> btf_type_by_id (view c) id = Some t' -> whole t' k' v' n' -> t = t' /\ k = k' /\ v = v' /\ n = n'.
Proof. intros H1 W1 H2 W2. rewrite H1 in H2. injection H2 as <-. split; [done|]. by apply (info_kind t t). Qed.

Section Links.
Context (hash_fn : Z -> Z) {HK : HashKey hash_fn btf_dedup_equal_fn} (c : chain) (N start : Z).
Hypothesis Hg : graph_ok c N.

(** The state before the own type [i]. *)
Record links_inv (size : Z) (d : btf_dedup) (i : Z) : Prop := {
  li_state : state_inv c N d;
  li_table : table_ok hash_fn d N size;
  li_new : forall id, in_table d id -> id < i;
  li_self : forall id, in_table d id -> ~ declared_enum c id -> zget (d_map d) id = Some id;
  li_below : forall x y, zget (d_map d) x = Some y -> y <= BTF_MAX_NR_TYPES -> y = x \/ y < i;
  li_base : forall id, 0 < id < start \/ 0 < id < i /\ is_enum c id -> mapped (d_map d) id;
  li_rest : forall id, i <= id < N -> resolves (d_map d) 0 id id
}.

Lemma declared_dec id : 0 <= id < N -> declared_enum c id \/ ~ declared_enum c id.
Proof.
  intros Hid. destruct (decide (id = 0)) as [->|Hne].
  - right. intros (t & k & n & Ht & Hw & _). destruct (id_type c N Hg 0 Hid) as (t' & Ht' & [[_ ->]|[? _]]); [|lia]. simplify_eq. by destruct Hw as [Hk _ Hr _]; injection Hk as <-.
  - destruct (to_types _ _ (gr_types _ _ Hg) id) as (t & k & v & n & Ht & Hw); [lia|]. destruct (decide (v = 0 /\ kind_is_any_enum k = true)) as [[-> He]|Hn]; [left; by exists t, k, n|right].
    intros (t' & k' & n' & Ht' & Hw' & He). destruct (whole_fun c id t t' _ _ _ _ _ _ Ht Hw Ht' Hw') as (_ & -> & -> & _). by apply Hn.
Qed.

(** The types of a link have the same name and kind. *)
Definition same_sort (x y : Z) : Prop := cls c x = cls c y /\ ~ composite c x /\ ~ is_ref c x.

(** The end of a step. [m1] is the map after the candidates, [new] the canonical type. *)
Lemma links_finish al size d i m1 h t k v n new : links_inv size d i -> size < 2 ^ 50 -> 0 < i < N -> btf_type_by_id (view c) i = Some t -> whole t k v n -> stored_hash t k v h ->
  map_inv c N m1 -> (forall x, ~ (in_table d x /\ declared_enum c x) -> zget m1 x = zget (d_map d) x) ->
  (forall id, mapped (d_map d) id -> mapped m1 id) -> (forall x y, zget m1 x = Some y -> y <= BTF_MAX_NR_TYPES -> y = x \/ y < i + 1) ->
  same_sort i new -> new = i \/ in_table d new /\ (exists k r, resolves m1 k new r /\ r <> i) ->
  exists err d', finish_type hash_fn al (with_map m1 d) h i new = Some (err, d') /\ (err = 0 /\ links_inv (size + 1) d' (i + 1) \/ err = - ENOMEM /\ alloc_fails al).
Proof.
  intros [Hs Ht Hnew Hself Hbelow Hbase Hrest] Hsz Hi Hty Hw Hh Hm1 Hkeep Hmono Hbel1 (Hcls & Hnc & Hnref) Hn.
  assert (~ in_table d i) as Hni by (intros Hin; apply Hnew in Hin; lia).
  assert (0 <= new < N /\ new < i + 1) as [Hnr Hni'] by (destruct Hn as [->|[Hin _]]; [lia|]; pose proof (Hnew new Hin); destruct Hin as (e & He & <-); apply (tb_entries _ _ _ _ Ht) in He as [? _]; lia).
  assert (zget m1 i = zget (d_map d) i) as Hgi by (apply Hkeep; intros [? _]; done).
  assert (forall id, i <= id < N -> resolves m1 0 id id) as Hrest1.
  { intros id Hid. pose proof (Hrest id Hid) as Hr. inversion Hr as [x v' Hv' Hvr|]; subst x. apply (res_root m1 id v'); [|done]. rewrite Hkeep; [done|]. intros [Hin _]. apply Hnew in Hin. lia. }
  unfold finish_type, set_map. cbn [d_map with_map]. destruct (zset_is_Some m1 i new) as [m2 Hm2]; [rewrite (mi_len _ _ _ Hm1); lia|]. rewrite Hm2. cbn [mbind option_bind].
  assert (map_inv c N m2) as Hmi2.
  { assert (rooted m2) as Hr2. { destruct Hn as [->|(_ & kk & r & Hr & Hne)]; [apply (link_root m1 m2 i i); [apply Hm1|done|pose proof (id_max c N Hg i); lia|done]|].
      apply (root_link m1 m2 i new kk r); [apply Hm1|done|pose proof (id_max c N Hg new); lia|apply Hrest1; lia|done|done]. }
    pose proof (mapped_zset m1 m2 i new Hm2 (id_max c N Hg new ltac:(lia))) as Hmono2.
    destruct Hm1 as [Hl _ H0 Hc1 Hc2 Hta Hnr1]. split; [by rewrite (zset_length _ _ _ _ Hm2)|done|rewrite (zget_zset_ne _ _ _ _ _ Hm2); [done|lia]| | | |].
    - intros a b Hab Hle. destruct (decide (a = i)) as [->|Hne]; [rewrite (zget_zset_eq _ _ _ _ Hm2) in Hab; by simplify_eq|]. rewrite (zget_zset_ne _ _ _ _ _ Hm2) in Hab by done. by apply Hc1.
    - intros a b Hab Hle. destruct (decide (a = i)) as [->|Hne]; [done|]. rewrite (zget_zset_ne _ _ _ _ _ Hm2) in Hab by done. by apply Hc2.
    - intros a b Hab Hle. destruct (decide (a = i)) as [->|Hne].
      + rewrite (zget_zset_eq _ _ _ _ Hm2) in Hab. injection Hab as <-. right. destruct Hn as [->|(Hin & _)]; [right; exists i; split; [by apply (zget_zset_eq _ _ _ _ Hm2)|apply (id_max c N Hg); lia]|].
        destruct (declared_dec new ltac:(lia)) as [Hd|Hd]; [left; by apply declared_is_enum|right]. apply Hmono2, Hmono. exists new. split; [by apply Hself|apply (id_max c N Hg); lia].
      + rewrite (zget_zset_ne _ _ _ _ _ Hm2) in Hab by done. destruct (Hta a b Hab Hle) as [?|[?|?]]; auto.
    - intros a b Hab Hle Hne. destruct (decide (a = i)) as [->|Hai]; [done|]. rewrite (zget_zset_ne _ _ _ _ _ Hm2) in Hab by done. by apply (Hnr1 a b). }
  assert (forall id, id <> i -> ~ (in_table d id /\ declared_enum c id) -> zget m2 id = zget (d_map d) id) as Hkeep2 by (intros; rewrite (zget_zset_ne _ _ _ _ _ Hm2) by done; by apply Hkeep).
  assert (forall d', d_btf d' = c -> d_map d' = m2 -> hypot_map d' = hypot_map d -> hypot_list d' = hypot_list d -> table_ok hash_fn d' N (size + 1) ->
    (forall id, in_table d' id -> id = i /\ new = i \/ in_table d id) -> links_inv (size + 1) d' (i + 1)) as Hfin.
  { intros d' Eb Em Eh El Ht' Hin. split; rewrite ?Em.
    - destruct Hs as [[H1 H2 H3 H4 H5 H6] _]. split; rewrite ?Em; [|done]. split; rewrite ?Eh, ?El; done.
    - done.
    - intros id [[-> _]|Hid]%Hin; [lia|]. apply Hnew in Hid. lia.
    - intros id [[-> ->]|Hid]%Hin Hd; [by apply (zget_zset_eq _ _ _ _ Hm2)|]. rewrite Hkeep2; [by apply Hself| |]; [intros ->; done|intros [_ ?]; done].
    - intros x y Hxy Hle. destruct (decide (x = i)) as [->|Hne]; [rewrite (zget_zset_eq _ _ _ _ Hm2) in Hxy; simplify_eq; lia|]. rewrite (zget_zset_ne _ _ _ _ _ Hm2) in Hxy by done. by apply Hbel1.
    - intros id Hid. destruct (decide (id = i)) as [->|Hne]; [exists new; split; [by apply (zget_zset_eq _ _ _ _ Hm2)|apply (id_max c N Hg); lia]|].
      destruct (Hmono id) as (y & Hy & ?); [apply Hbase; destruct Hid as [?|[? ?]]; [by left|right; split; [lia|done]]|]. exists y. by rewrite (zget_zset_ne _ _ _ _ _ Hm2).
    - intros id Hid. pose proof (Hrest1 id ltac:(lia)) as Hr. inversion Hr as [x v' Hv' Hvr|]; subst x. apply (res_root m2 id v'); [|done]. rewrite (zget_zset_ne _ _ _ _ _ Hm2); [done|lia]. }
  pose proof (hi_btf _ _ _ _ (si_hyp _ _ _ Hs)) as Eb. destruct (Z.eqb_spec i new) as [<-|Hne].
  - destruct (table_add_spec hash_fn al (with_map m2 (with_map m1 d)) N size h i t k v n) as (err & tb & -> & Ht' & Hcase); [split; apply Ht|done|lia|unfold dtype; cbn; by rewrite Eb|done|done|].
    cbn [mbind option_bind]. eexists _, _. split; [done|]. destruct Hcase as [[-> Hp]|[-> Ha]]; [left; split; [done|]|by right].
    apply Hfin; try done. intros id Hid. apply (in_table_add (with_map m2 (with_map m1 d)) tb h i id Hp) in Hid as [->|Hid]; [by left|by right].
  - eexists _, _. split; [done|]. left. split; [done|]. apply Hfin; try done; [destruct Ht; split; auto; cbn [dedup_table with_map]; lia|by right].
Qed.

Lemma links_skip size d i : links_inv size d i -> ~ is_enum c i -> links_inv (size + 1) d (i + 1).
Proof.
  intros [Hs [] Hnew Hself Hbelow Hbase Hrest] Hi. split; [done|split; auto; lia|intros id Hid; apply Hnew in Hid; lia|done| | |intros id Hid; apply Hrest; lia].
  2:{ intros id [Hid|[Hid He]]; apply Hbase; [by left|right]. split; [|done]. destruct (decide (id = i)) as [->|]; [done|lia]. }
  intros x y Hxy Hle. destruct (Hbelow x y Hxy Hle); [by left|right; lia].
Qed.

(** The map is not changed by the search for a candidate. *)
Lemma links_keep al size d i h t k v n new : links_inv size d i -> size < 2 ^ 50 -> 0 < i < N -> btf_type_by_id (view c) i = Some t -> whole t k v n -> stored_hash t k v h ->
  same_sort i new -> new = i \/ in_table d new ->
  exists err d', finish_type hash_fn al d h i new = Some (err, d') /\ (err = 0 /\ links_inv (size + 1) d' (i + 1) \/ err = - ENOMEM /\ alloc_fails al).
Proof.
  intros Hinv Hsz Hi Hty Hw Hh Hss Hn. pose proof (links_finish al size d i (d_map d) h t k v n new Hinv Hsz Hi Hty Hw Hh) as Hf. rewrite with_map_id in Hf.
  destruct Hinv as [Hs Ht Hnew Hself Hbelow Hbase Hrest]. apply Hf; [apply Hs|done|done| |done|].
  - intros x y Hxy Hle. destruct (Hbelow x y Hxy Hle); [by left|right; lia].
  - destruct Hn as [?|Hin]; [by left|right]. split; [done|]. destruct (mi_rooted _ _ _ (si_map _ _ _ Hs) new) as (kk & r & Hr).
    { rewrite (mi_len _ _ _ (si_map _ _ _ Hs)). destruct Hin as (e & He & <-). apply (tb_entries _ _ _ _ Ht) in He as [? _]. lia. }
    exists kk, r. split; [done|]. apply (resolves_below (d_map d) i kk new r); [done| |done]. apply Hnew in Hin. lia.
Qed.

(** The kind of a type that is looked up by id. *)
Lemma kind_of_whole i t k v n k' : btf_type_by_id (view c) i = Some t -> whole t k v n -> kind_of c i = Some k' -> k' = k.
Proof. intros Hty Hw Hk. unfold kind_of in Hk. rewrite Hty in Hk. cbn [mbind option_bind] in Hk. rewrite (wh_kind _ _ _ _ Hw) in Hk. by injection Hk as <-. Qed.

Lemma self_sort i t k v n : btf_type_by_id (view c) i = Some t -> whole t k v n -> kind_is_composite k = false -> ref_kinds k = false -> same_sort i i.
Proof.
  intros Hty Hw Hk Hr. split_and!; [done| |]; intros (k2 & Hk2 & Hc); rewrite (kind_of_whole i t k v n k2 Hty Hw Hk2) in Hc; congruence.
Qed.

Lemma plain_not k : plain_kind k = true -> kind_is_composite k = false /\ ref_kinds k = false.
Proof. unfold plain_kind. repeat rewrite orb_true_iff. rewrite !Z.eqb_eq. intros H. destruct_or! H; subst k; done. Qed.

Lemma plain_sort i y t k v n t' k' v' n' ws : plain_kind k = true -> btf_type_by_id (view c) i = Some t -> whole t k v n -> btf_type_by_id (view c) y = Some t' -> whole t' k' v' n' ->
  0 ∈ ws -> 1 ∈ ws -> same_words ws t t' -> same_sort i y.
Proof.
  intros Hk Hty Hw Hty' Hw' H0 H1 Hs. destruct (info_kind t t' _ _ _ _ _ _ Hw Hw') as (<- & <- & <-); [by apply Hs|]. destruct (plain_not k Hk) as [Hnc Hnr].
  destruct (self_sort i t k v n Hty Hw Hnc Hnr) as (_ & ? & ?). split_and!; [|done|done].
  destruct (decide (k = BTF_KIND_FWD)) as [Hf|Hf]; [|rewrite (cls_other c i _ _ _ _ Hty Hw Hf), (cls_other c y _ _ _ _ Hty' Hw' Hf); by rewrite (Hs 0 H0)].
  destruct (cls_fwd c i _ _ _ _ Hty Hw Hf) as (s & f & Es & Ef & -> & _). destruct (cls_fwd c y _ _ _ _ Hty' Hw' Hf) as (s' & f' & Es' & Ef' & -> & _).
  unfold btf_fwd_kind, btf_kflag, info in Ef, Ef'. rewrite (Hs 1 H1) in Ef. rewrite (Hs 0 H0) in Es. congruence.
Qed.

Lemma links_plain al size d i t k v n h same ws : links_inv size d i -> size < 2 ^ 50 -> 0 < i < N ->
  btf_type_by_id (view c) i = Some t -> whole t k v n -> plain_kind k = true -> stored_hash t k v h -> 0 ∈ ws -> 1 ∈ ws ->
  (forall t' k' v' n', whole t' k' v' n' -> decides (same t') (same_words ws t t')) ->
  exists err d', (cands ← candidates hash_fn d h; r ← find_cand d same cands; finish_type hash_fn al d h i (default i r)) = Some (err, d') /\
    (err = 0 /\ links_inv (size + 1) d' (i + 1) \/ err = - ENOMEM /\ alloc_fails al).
Proof.
  intros Hinv Hsz Hi Hty Hw Hk Hh H0 H1 Hsame. pose proof (li_table _ _ _ Hinv) as Ht. pose proof (hi_btf _ _ _ _ (si_hyp _ _ _ (li_state _ _ _ Hinv))) as Hb.
  destruct (candidates_spec hash_fn d N size h Ht) as (l & Hl & _). rewrite Hl. cbn [mbind option_bind].
  destruct (find_cand_spec d same (fun y => forall t' k' v' n', btf_type_by_id (view c) y = Some t' -> whole t' k' v' n' -> same_words ws t t') l) as (r & -> & Hr).
  { intros id Hid. destruct (candidate_type hash_fn d N size h l id Ht Hl Hid) as (_ & _ & t' & k' & v' & n' & Ht' & Hw' & _). exists t'. split; [done|]. unfold dtype in Ht'. rewrite Hb in Ht'.
    eapply decides_iff; [by eapply Hsame|]. split; [|intros Hall; by apply (Hall t' k' v' n')]. intros Hs t2 k2 v2 n2 Ht2 Hw2. by destruct (whole_fun c id t' t2 _ _ _ _ _ _ Ht' Hw' Ht2 Hw2) as (<- & _). }
  cbn [mbind option_bind]. destruct (plain_not k Hk) as [Hnc Hnr].
  apply (links_keep al size d i h t k v n); try done.
  - destruct r as [y|]; cbn [default from_option id]; [|by apply (self_sort i t k v n)]. destruct Hr as [Hin Hs]. destruct (candidate_type hash_fn d N size h l y Ht Hl Hin) as (_ & _ & t' & k' & v' & n' & Ht' & Hw' & _).
    unfold dtype in Ht'. rewrite Hb in Ht'. apply (plain_sort i y t k v n t' k' v' n' ws); try done. by apply (Hs t' k' v' n').
  - destruct r as [y|]; cbn [default from_option id]; [right|by left]. destruct Hr as [Hin _]. by destruct (candidate_type hash_fn d N size h l y Ht Hl Hin) as (_ & ? & _).
Qed.

Lemma enum_not_ref k : kind_is_any_enum k = true -> ref_kinds k = false.
Proof. unfold kind_is_any_enum. intros [->%Z.eqb_eq | ->%Z.eqb_eq]%orb_true_iff; done. Qed.

Lemma enum_sort x y t k v n t' k' v' n' : btf_type_by_id (view c) x = Some t -> whole t k v n -> kind_is_any_enum k = true -> btf_type_by_id (view c) y = Some t' -> whole t' k' v' n' -> kind_is_any_enum k' = true -> same_sort x y.
Proof.
  intros Hx Wx Kx Hy Wy Ky. destruct (enum_kinds k Kx) as [Hf Hc]. destruct (enum_kinds k' Ky) as [Hf' Hc'].
  split; [by rewrite (cls_other c x _ _ _ _ Hx Wx Hf), (cls_other c y _ _ _ _ Hy Wy Hf'), Hc, Hc'|]. by apply (self_sort x t k v n); [..|apply enum_not_ref].
Qed.

(** The loop over the candidates of the enumeration [i]: it changes the map only at declared
    enumerations, and not at all if [i] is one. *)
Lemma enum_links d i t k v n cands : btf_type_by_id (view c) i = Some t -> whole t k v n -> kind_is_any_enum k = true -> 0 < i < N -> d_btf d = c ->
  (forall id, id ∈ cands -> in_table d id /\ id < i /\ 0 < id < N) ->
  forall m0, map_inv c N m0 -> resolves m0 0 i i -> exists new m1, enum_cands (with_map m0 d) t i cands = Some (new, with_map m1 d) /\ map_inv c N m1 /\ (v = 0 -> m1 = m0) /\
    (forall x, ~ (in_table d x /\ declared_enum c x) -> zget m1 x = zget m0 x) /\ (forall x, zget m1 x = zget m0 x \/ zget m1 x = Some i) /\
    (new = i \/ new ∈ cands /\ same_sort i new /\ (v <> 0 -> ~ declared_enum c new)).
Proof.
  intros Hty Hw Hk Hi Hb. induction cands as [|cand cands IH]; intros Hcs m0 Hm0 Hroot; cbn [enum_cands].
  { exists i, m0. split_and!; [done|done|done|done|by left|by left]. }
  destruct (Hcs cand) as (Hin & Hlt & Hr); [left|]. destruct (to_types _ _ (gr_types _ _ Hg) cand Hr) as (t' & k' & v' & n' & Ht' & Hw'). unfold dtype at 1. cbn [d_btf with_map]. rewrite Hb, Ht'. cbn [mbind option_bind].
  assert (forall m1, map_inv c N m1 -> resolves m1 0 i i -> (v = 0 -> m1 = m0) -> (forall x, ~ (in_table d x /\ declared_enum c x) -> zget m1 x = zget m0 x) -> (forall x, zget m1 x = zget m0 x \/ zget m1 x = Some i) ->
    exists new m2, enum_cands (with_map m1 d) t i cands = Some (new, with_map m2 d) /\ map_inv c N m2 /\ (v = 0 -> m2 = m0) /\
    (forall x, ~ (in_table d x /\ declared_enum c x) -> zget m2 x = zget m0 x) /\ (forall x, zget m2 x = zget m0 x \/ zget m2 x = Some i) /\
    (new = i \/ new ∈ cand :: cands /\ same_sort i new /\ (v <> 0 -> ~ declared_enum c new))) as Hnext.
  { intros m1 Hm1 Hr1 E1 Hk1 Ho1. destruct (IH ltac:(intros id Hid; apply Hcs; by right) m1 Hm1 Hr1) as (new & m2 & -> & Hm2 & E2 & Hk2 & Ho2 & Hnew). exists new, m2.
    split_and!; [done|done|intros Hv; by rewrite E2, E1|intros x Hx; by rewrite Hk2, Hk1| |].
    - intros x. destruct (Ho2 x) as [->|?]; [apply Ho1|by right].
    - destruct Hnew as [?|[? ?]]; [by left|right]. split; [by right|done]. }
  assert (kind_is_any_enum k' = true -> (v <> 0 -> v' <> 0) -> exists new m1, Some (cand, with_map m0 d) = Some (new, with_map m1 d) /\ map_inv c N m1 /\ (v = 0 -> m1 = m0) /\
    (forall x, ~ (in_table d x /\ declared_enum c x) -> zget m1 x = zget m0 x) /\ (forall x, zget m1 x = zget m0 x \/ zget m1 x = Some i) /\
    (new = i \/ new ∈ cand :: cands /\ same_sort i new /\ (v <> 0 -> ~ declared_enum c new))) as Hstop.
  { intros Hk' Hvv. exists cand, m0. split_and!; [done|done|done|done|by left|right]. split_and!; [left|by apply (enum_sort i cand t k v n t' k' v' n')|].
    intros Hv (t2 & k2 & n2 & Ht2 & Hw2 & _). destruct (whole_fun c cand t' t2 _ _ _ _ _ _ Ht' Hw' Ht2 Hw2) as (_ & _ & E & _). by apply Hvv. }
  destruct (equal_enum_spec t t' k v n k' v' n' Hw Hw' Hk) as (b & -> & Hbe). cbn [mbind option_bind]. destruct b.
  { assert (same_words (enum_words k v) t t') as Hs by (by apply Hbe). destruct (info_kind t t' _ _ _ _ _ _ Hw Hw') as (<- & <- & _); [apply Hs; unfold enum_words; in_list|]. by apply Hstop. }
  destruct (compat_enum_spec t t' k v n k' v' n' Hw Hw' Hk) as (b & -> & Hcompat). cbn [mbind option_bind]. destruct b; [|apply Hnext; auto].
  destruct (proj1 Hcompat eq_refl) as [(_ & _ & Hs)|(Hfw & _ & Hk')]; [by apply Hbe in Hs|].
  rewrite (is_enum_fwd_spec t k v n Hw), Hk. cbn [mbind option_bind andb]. destruct (Z.eqb_spec v 0) as [Hv|Hv]; [by apply Hstop|]. destruct Hfw as [?|[_ Hv']]; [done|]. rewrite Hv' in Hw'.
  assert (declared_enum c cand) as Hdecl by (by exists t', k', n').
  unfold set_map. cbn [d_map with_map]. destruct (zset_is_Some m0 cand i) as [m1 Hm1]; [rewrite (mi_len _ _ _ Hm0); lia|]. rewrite Hm1. cbn [mbind option_bind].
  destruct (enum_sort cand i t' k' 0 n' t k v n Ht' Hw' Hk' Hty Hw Hk) as (Hcl & Hnc & Hncr). pose proof (id_max c N Hg i ltac:(lia)). apply Hnext; [apply (map_link c N m0 m1 cand i); [done|done|lia|lia|done|done|done|right; left; exists k; split; [unfold kind_of; rewrite Hty; apply Hw|done]|done]| |done| |].
  - inversion Hroot as [x v0 Hv0 Hvr|]; subst x. apply (res_root m1 i v0); [|done]. rewrite (zget_zset_ne _ _ _ _ _ Hm1); [done|lia].
  - intros x Hx. apply (zget_zset_ne _ _ _ _ _ Hm1). intros <-. by apply Hx.
  - intros x. destruct (decide (x = cand)) as [->|Hne]; [right; by apply (zget_zset_eq _ _ _ _ Hm1)|left]. by apply (zget_zset_ne _ _ _ _ _ Hm1).
Qed.

Lemma links_enum al size d i t k v n : links_inv size d i -> size < 2 ^ 50 -> 0 < i < N -> btf_type_by_id (view c) i = Some t -> whole t k v n -> kind_is_any_enum k = true ->
  exists err d', (h ← btf_hash_enum t; cands ← candidates hash_fn d h; '(new_id, d) ← enum_cands d t i cands; finish_type hash_fn al d h i new_id) = Some (err, d') /\
    (err = 0 /\ links_inv (size + 1) d' (i + 1) \/ err = - ENOMEM /\ alloc_fails al).
Proof.
  intros Hinv Hsz Hi Hty Hw Hk. pose proof Hinv as [Hs Ht Hnew Hself Hbelow Hbase Hrest]. pose proof (hi_btf _ _ _ _ (si_hyp _ _ _ Hs)) as Hb.
  destruct (hash_enum_spec t k v n Hw) as (h & -> & Hh). cbn [mbind option_bind]. destruct (candidates_spec hash_fn d N size h Ht) as (l & Hl & _). rewrite Hl. cbn [mbind option_bind].
  assert (stored_hash t k v h) as Hst by (unfold kind_is_any_enum in Hk; apply orb_true_iff in Hk as [->%Z.eqb_eq | ->%Z.eqb_eq]; by exists [0]).
  assert (forall id, id ∈ l -> in_table d id /\ id < i /\ 0 < id < N) as Hc. { intros id Hid. destruct (candidate_type hash_fn d N size h l id Ht Hl Hid) as (? & ? & _). split_and!; [done|by apply Hnew|lia|lia]. }
  destruct (enum_links d i t k v n l Hty Hw Hk Hi Hb Hc (d_map d) (si_map _ _ _ Hs) (Hrest i ltac:(lia))) as (new & m1 & He & Hm1 & E0 & Hkeep & Ho & Hn).
  rewrite with_map_id in He. rewrite He. cbn [mbind option_bind]. pose proof (id_max c N Hg i ltac:(lia)).
  apply (links_finish al size d i m1 h t k v n new); try done.
  - intros id (y & Hy & Hle). destruct (Ho id) as [E|E]; [exists y; by rewrite E|by exists i].
  - intros x y Hxy Hle. destruct (Ho x) as [E|E]; [|rewrite E in Hxy; simplify_eq; right; lia]. rewrite E in Hxy. destruct (Hbelow x y Hxy Hle); [by left|right; lia].
  - destruct Hn as [->|(_ & ? & _)]; [|done]. apply (self_sort i t k v n); [done|done|by apply enum_kinds|by apply enum_not_ref].
  - destruct Hn as [?|(Hin & _ & Hd)]; [by left|right]. destruct (Hc new Hin) as (Hit & Hlt & Hr). split; [done|]. destruct (decide (v = 0)) as [Hv|Hv].
    + rewrite (E0 Hv). destruct (mi_rooted _ _ _ (si_map _ _ _ Hs) new) as (kk & r & Hres); [rewrite (mi_len _ _ _ (si_map _ _ _ Hs)); lia|]. exists kk, r. split; [done|].
      apply (resolves_below (d_map d) i kk new r); [done|lia|done].
    + exists 0%nat, new. split; [|lia]. apply (res_root m1 new new); [|by right]. rewrite Hkeep; [|intros [_ ?]; by apply Hd]. by apply Hself; [|apply Hd].
Qed.

Lemma links_step al size d i : links_inv size d i -> size < 2 ^ 50 -> 0 < i < N ->
  exists err d', btf_dedup_prim_type hash_fn al d i = Some (err, d') /\ (err = 0 /\ links_inv (size + 1) d' (i + 1) \/ err = - ENOMEM /\ alloc_fails al).
Proof.
  intros Hinv Hsz Hi. destruct (to_types c N (gr_types _ _ Hg) i) as (t & k & v & n & Hty & Hw); [lia|]. pose proof (hi_btf _ _ _ _ (si_hyp _ _ _ (li_state _ _ _ Hinv))) as Hb.
  destruct (kind_eqs t k v n Hw) as (_ & _ & _ & _ & _ & E6).
  unfold btf_dedup_prim_type, dtype. rewrite Hb, Hty. cbn [mbind option_bind]. rewrite (wh_kind _ _ _ _ Hw). cbn [mbind option_bind].
  destruct ((k =? BTF_KIND_CONST) || _ || _ || _ || _ || _ || _ || _ || _ || _ || _ || _ || _ || _) eqn:Ec.
  { exists 0, d. split; [done|]. left. split; [done|]. apply links_skip; [done|]. intros (k' & Hk' & He). unfold kind_of in Hk'. rewrite Hty in Hk'. cbn [mbind option_bind] in Hk'. rewrite (wh_kind _ _ _ _ Hw) in Hk'. injection Hk' as <-.
    unfold kind_is_any_enum in He. apply orb_true_iff in He as [->%Z.eqb_eq | ->%Z.eqb_eq]; done. }
  destruct (Z.eqb_spec k BTF_KIND_INT) as [->|Hk1].
  { destruct (hash_int_spec t _ v n Hw (E6 (or_introl eq_refl))) as (h & -> & Hh). cbn [mbind option_bind]. rewrite (E6 (or_introl eq_refl)) in Hw.
    eapply (links_plain al size d i t _ v 1 h _ [0; 1; 2; 3]); try done; [by exists [0; 1; 2; 3]|in_list|in_list|]. intros t' k' v' n' Hw'. by eapply equal_int_spec. }
  destruct (kind_is_any_enum k) eqn:Hk2; [by apply (links_enum al size d i t k v n)|].
  destruct ((k =? BTF_KIND_FWD) || (k =? BTF_KIND_FLOAT)) eqn:Hk3.
  { destruct (hash_common_spec t k v n Hw) as (h & -> & Hh). cbn [mbind option_bind]. eapply (links_plain al size d i t k v n h _ [0; 1; 2]); try done; [| |in_list|in_list|].
    - unfold plain_kind. apply orb_true_iff in Hk3 as [->%Z.eqb_eq | ->%Z.eqb_eq]; done.
    - exists [0; 1; 2]. split; [|done]. apply orb_true_iff in Hk3 as [->%Z.eqb_eq | ->%Z.eqb_eq]; done.
    - intros t' k' v' n' Hw'. by eapply equal_common_spec. }
  exfalso. pose proof (wh_rest _ _ _ _ Hw) as Hr. unfold rest_words, kind_is_any_enum in *. repeat rewrite orb_false_iff in *. destruct_and!.
  apply Z.eqb_neq in Hk1. repeat match goal with E : (?a =? ?b) = false |- _ => rewrite E in Hr; clear E end. done.
Qed.

Lemma links_pass al nn : forall size d i, links_inv size d i -> size + Z.of_nat nn < 2 ^ 50 -> 0 < i -> i + Z.of_nat nn <= N ->
  exists err d', pass nn i (fun id d => btf_dedup_prim_type hash_fn (sub id al) d id) d = Some (err, d') /\
    (err = 0 /\ links_inv (size + Z.of_nat nn) d' (i + Z.of_nat nn) \/ err = - ENOMEM /\ alloc_fails al).
Proof.
  induction nn as [|nn IH]; intros size d i Hinv Hm Hs Hi; cbn [pass].
  - exists 0, d. split; [done|]. left. split; [done|]. by rewrite !Z.add_0_r.
  - destruct (links_step (sub i al) size d i Hinv) as (err & d1 & -> & Hcase); [lia..|]. cbn [mbind option_bind]. destruct Hcase as [[-> Hinv1]|[-> Hal]].
    + cbn [Z.ltb Z.compare]. destruct (IH (size + 1) d1 (i + 1) Hinv1) as (err & d' & E & Hcase); [lia..|]. exists err, d'. split; [done|].
      destruct Hcase as [[-> H']|?]; [left; split; [done|]|by right]. replace (size + Z.of_nat (S nn)) with (size + 1 + Z.of_nat nn) by lia.
      by replace (i + Z.of_nat (S nn)) with (i + 1 + Z.of_nat nn) by lia.
    + exists (- ENOMEM), d1. split; [done|]. right. split; [done|]. by apply fails_sub in Hal.
Qed.

(** The preparation changes the table, and the map only at types of the base. *)
Lemma prep_frame al n : forall d j err d', 0 < j -> prep_loop hash_fn n al d j = Some (err, d') -> hypot_map d' = hypot_map d /\ hypot_list d' = hypot_list d /\
  forall x, x < j \/ j + Z.of_nat n <= x -> zget (d_map d') x = zget (d_map d) x.
Proof.
  induction n as [|n IH]; intros d j err d' Hj E; cbn [prep_loop] in E; [by injection E as <- <-|].
  destruct (dtype d j) as [t|]; [|done]. cbn [mbind option_bind] in E. unfold set_map in E. destruct (zset (d_map d) j j) as [m1|] eqn:Hm1; [|done]. cbn [mbind option_bind] in E.
  assert (forall d1, hypot_map d1 = hypot_map d -> hypot_list d1 = hypot_list d -> d_map d1 = m1 -> forall err d', prep_loop hash_fn n al d1 (j + 1) = Some (err, d') \/ d' = d1 ->
    hypot_map d' = hypot_map d /\ hypot_list d' = hypot_list d /\ forall x, x < j \/ j + Z.of_nat (S n) <= x -> zget (d_map d') x = zget (d_map d) x) as Hrest.
  { intros d1 E1 E2 E3 err2 d2 [H| ->].
    - apply IH in H as (-> & -> & Hx); [|lia]. split_and!; [done|done|]. intros x Hxr. rewrite Hx, E3 by lia. apply (zget_zset_ne _ _ _ _ _ Hm1). lia.
    - split_and!; [done|done|]. intros x Hxr. rewrite E3. apply (zget_zset_ne _ _ _ _ _ Hm1). lia. }
  destruct (prep_hash t) as [[e|[h|]]|]; cbn [mbind option_bind] in E; [|unfold btf_dedup_table_add in E|by apply (Hrest (with_map m1 d) eq_refl eq_refl eq_refl err d'); left|done].
  - injection E as <- <-. by apply (Hrest (with_map m1 d) eq_refl eq_refl eq_refl 0); right.
  - destruct (hashmap_insert _ _ _ _ _ _ _ _) as [[[[e tb] a] b]|]; [|done]. cbn [mbind option_bind] in E. destruct (negb (e =? 0)); [injection E as <- <-; by apply (Hrest (with_table tb (with_map m1 d)) eq_refl eq_refl eq_refl 0); right|].
    by apply (Hrest (with_table tb (with_map m1 d)) eq_refl eq_refl eq_refl err d'); left.
Qed.

(** A state in which every id is mapped to itself or not at all. *)
Lemma links_start size d : d_btf d = c -> Z.of_nat (length (d_map d)) = N -> hypot_map d = replicate (Z.to_nat N) BTF_UNPROCESSED_ID -> hypot_list d = [] -> table_ok hash_fn d N size ->
  (forall x, in_table d x -> 0 < x < start) -> (forall x, 0 < x < start -> zget (d_map d) x = Some x) -> zget (d_map d) 0 = Some 0 -> 1 <= start <= N ->
  (forall x y, zget (d_map d) x = Some y -> y = x \/ y = BTF_UNPROCESSED_ID) -> links_inv size d start.
Proof.
  intros Hb Hlen Hh Hl Ht Hin Hbase H0 Hst Hxy.
  assert (forall x, 0 <= x < N -> resolves (d_map d) 0 x x) as Hroot.
  { intros x Hx. destruct (zget_is_Some (d_map d) x) as [y Hy]; [lia|]. apply (res_root _ x y); [done|]. destruct (Hxy x y Hy) as [->| ->]; [by right|left; by vm_compute]. }
  assert (forall x y, zget (d_map d) x = Some y -> y <= BTF_MAX_NR_TYPES -> y = x) as Hself by (intros x y Hy Hle; destruct (Hxy x y Hy) as [->| ->]; [done|by vm_compute in Hle]).
  assert (rooted (d_map d)) as Hr by (intros x Hx; exists 0%nat, x; apply Hroot; lia). pose proof (to_max _ _ (gr_types _ _ Hg)).
  split; [split; [apply check_start_inv; split; [done|done|lia|done|done]|split; [lia|done|done| | | |]]|done| | | | |].
  - intros x y Hy Hle. by rewrite (Hself x y Hy Hle).
  - intros x y Hy Hle. by rewrite (Hself x y Hy Hle).
  - intros x y Hy Hle. right. right. pose proof (Hself x y Hy Hle) as E. subst y. by exists x.
  - intros x y Hy Hle Hne. by rewrite (Hself x y Hy Hle) in Hne.
  - intros id Hid. apply Hin in Hid. lia.
  - intros id Hid _. by apply Hbase, Hin.
  - intros x y Hy Hle. left. by apply Hself.
  - intros id Hid. assert (0 < id < start) by lia. exists id. split; [by apply Hbase|apply (id_max c N Hg); lia].
  - intros id Hid. apply Hroot. lia.
Qed.
End Links.

(** ** The composition *)
Section Structs.
Context (hash_fn : Z -> Z) {HK : HashKey hash_fn btf_dedup_equal_fn}.

(** The passes up to the structs. *)
Definition dedup_structs (c : chain) (al : oracle) : option (Z * option btf_dedup) :=
  '(err, d) ← dedup_prims hash_fn c al;
  match d with
  | Some d => if negb (err =? 0) then Some (err, Some d) else '(err, d) ← btf_dedup_struct_types hash_fn (sub 3 al) d; Some (err, Some d)
  | None => Some (err, None)
  end.

(** The links of the map have no cycle and keep names and kinds, and every struct and union leads
    to one that is mapped to itself. *)
Record structs_canonical (c : chain) (N : Z) (d : btf_dedup) : Prop := {
  sc_btf : d_btf d = c;
  sc_map : map_inv c N (d_map d);
  sc_canon : forall id, 0 < id < N -> composite c id -> exists r, resolve_type_id d id = Some r /\ zget (d_map d) r = Some r /\ composite c r /\ cls c id = cls c r
}.

Lemma prims_links c N o base al : graph_ok c N -> c = o :: base -> exists err d, dedup_prims hash_fn c al = Some (err, d) /\
  (err = 0 /\ (exists d', d = Some d' /\ links_inv hash_fn c N (o_start_id o) (N - 1) d' N) \/ err = - ENOMEM /\ alloc_fails al).
Proof.
  intros Hg Ec. pose proof (gr_types _ _ Hg) as Hc. destruct (to_head c N Hc) as (o' & base' & Ec' & HN & Hs & Hnr & H1). rewrite Ec in Ec'. injection Ec' as <- <-. pose proof (to_max c N Hc).
  unfold dedup_prims. destruct (dedup_new_spec c N Hc (sub 0 al)) as ([err|d] & -> & Hr); cbn [mbind option_bind].
  { destruct Hr as [-> Hal]. eexists _, _. split; [done|]. right. split; [done|]. by apply fails_sub in Hal. }
  destruct (fresh_table hash_fn c N d Hr) as [Htab Hno]. destruct Hr as [Hb Ht Hlen Hz Hmap (Hh1 & Hh2 & _ & _)].
  assert (exists err d1, btf_dedup_prep hash_fn (sub 1 al) d = Some (err, d1) /\ (err = 0 /\ links_inv hash_fn c N (o_start_id o) (o_start_id o - 1) d1 (o_start_id o) \/ err = - ENOMEM /\ alloc_fails al)) as (err & d1 & -> & Hcase).
  { assert (forall x y, zget (d_map d) x = Some y -> y = x \/ y = BTF_UNPROCESSED_ID) as Hxy.
    { intros x y Hy. pose proof (zget_lt _ _ _ Hy). destruct (decide (x = 0)) as [->|Hx0]; [left; congruence|]. destruct (Hmap x) as (t & k & v & n & _ & _ & E); [lia|]. rewrite Hy in E. destruct (_ || _); injection E as ->; [by left|by right]. }
    assert (prep_inv hash_fn c N 0 d 1) as Hp0 by (split; [done|done|done|lia|lia|intros x Hx; by apply Hno in Hx]).
    unfold btf_dedup_prep. rewrite Hb. replace (head c) with (Some o) by (by rewrite Ec). replace (tail c) with base by (by rewrite Ec). cbn [mbind option_bind]. destruct base as [|b0 base0].
    - exists 0, d. split; [done|]. left. split; [done|]. rewrite (H1 eq_refl) in *. apply links_start; try done; [intros x Hx; by apply Hno in Hx|lia|lia].
    - destruct (prep_loop_spec hash_fn c N Hc (sub 1 al) (Z.to_nat (o_start_id o - 1)) d 0 1 Hp0) as (err & d' & E & Hcase); [lia..|]. rewrite E. exists err, d'. split; [done|].
      apply prep_frame in E as (Eh & El & Ex); [|lia]. destruct Hcase as [[-> Hp]|[? Ha]]; [left; split; [done|]|right; split; [done|by apply fails_sub in Ha]].
      rewrite Z2Nat.id in Hp, Ex by lia. replace (0 + (o_start_id o - 1)) with (o_start_id o - 1) in Hp by lia. replace (1 + (o_start_id o - 1)) with (o_start_id o) in * by lia.
      destruct Hp as [P1 P2 P3 P4 P5 P6]. apply links_start; try done; [by rewrite Eh|by rewrite El|by rewrite Ex by lia|lia|]. intros x y Hy. destruct (decide (0 < x < o_start_id o)) as [Hx|Hx]; [left; rewrite P4 in Hy by done; congruence|].
      rewrite Ex in Hy by lia. by apply Hxy. }
  cbn [mbind option_bind]. destruct Hcase as [[-> Hinv]|[-> Hal]]; cbn [Z.eqb negb]; [|eexists _, _; split; [done|]; by right].
  unfold btf_dedup_prim_types, own_types. rewrite (hi_btf _ _ _ _ (si_hyp _ _ _ (li_state _ _ _ _ _ _ _ Hinv))). replace (head c) with (Some o) by (by rewrite Ec). cbn [mbind option_bind].
  destruct (links_pass hash_fn c N (o_start_id o) Hg (sub 2 al) (Z.to_nat (o_nr_types o)) (o_start_id o - 1) d1 (o_start_id o) Hinv) as (err & d2 & -> & Hcase); [lia..|].
  cbn [mbind option_bind]. eexists _, _. split; [done|]. destruct Hcase as [[-> Hinv2]|[-> Hal]]; [left|right; split; [done|by apply fails_sub in Hal]].
  split; [done|]. exists d2. split; [done|]. rewrite Z2Nat.id in Hinv2 by lia. rewrite <- HN in Hinv2. by replace (o_start_id o - 1 + o_nr_types o) with (N - 1) in Hinv2 by lia.
Qed.

Lemma structs_spec al c N o base : graph_ok c N -> c = o :: base -> exists err d, dedup_structs c al = Some (err, d) /\
  (err = 0 /\ (exists d0 d', d = Some d' /\ prims_unique c N (o_start_id o) d0 /\ length (d_map d0) = Z.to_nat N /\ struct_inv c N hash_fn (o_start_id o) (d_map d0) (N - 1 + o_nr_types o) d' N) \/ err = - EINVAL \/ err = - ENOMEM /\ alloc_fails al).
Proof.
  intros Hg Ec. pose proof (gr_types _ _ Hg) as Hc. destruct (to_head c N Hc) as (o' & base' & Ec' & HN & Hs & Hnr & H1). rewrite Ec in Ec'. injection Ec' as <- <-. pose proof (to_max c N Hc).
  unfold dedup_structs. destruct (prims_links c N o base al Hg Ec) as (err & d & Ed & Hcase). destruct (dedup_prims_spec hash_fn c N Hc al o base Ec) as (err' & d' & Ed' & Hprim). rewrite Ed in Ed'. injection Ed' as <- <-. rewrite Ed. cbn [mbind option_bind].
  destruct Hcase as [[-> (d1 & -> & Hli)]|[-> Ha]]; cbn [Z.eqb negb]; [|destruct d; (eexists _, _; split; [done|]; right; by right)].
  destruct Hprim as [(_ & d1' & [= <-] & Hpu & _)|[? _]]; [|done]. destruct Hli as [Hst Ht Hnew Hself Hbelow Hbase Hrest]. unfold btf_dedup_struct_types, own_types. rewrite (hi_btf _ _ _ _ (si_hyp _ _ _ Hst)). replace (head c) with (Some o) by (by rewrite Ec). cbn [mbind option_bind].
  assert (struct_inv c N hash_fn (o_start_id o) (d_map d1) (N - 1) d1 (o_start_id o)) as Hinv by (split; [done|done|intros id Hin _; by apply Hself|intros id Hid _; apply Hbase; by left|done|done]).
  destruct (struct_pass c N Hg hash_fn (o_start_id o) (d_map d1) (sub 3 al) (Z.to_nat (o_nr_types o)) (N - 1) d1 (o_start_id o) Hinv) as (err & d2 & -> & Hcase); [lia..|]. cbn [mbind option_bind]. eexists _, _. split; [done|].
  destruct Hcase as [[-> Hi2]|[->|[-> Ha]]]; [left; split; [done|]|by right; left|right; right; split; [done|by apply fails_sub in Ha]]. exists d1, d2. split; [done|]. split; [done|]. split; [apply Hst|].
  rewrite Z2Nat.id in Hi2 by lia. by replace (o_start_id o + o_nr_types o) with N in Hi2 by lia.
Qed.

(** C15. For every object with complete types, valid references and no cycle of pointers and
    modifiers only, and every hash function of the table, the passes up to the structs return:
    with 0, with -EINVAL, or with -ENOMEM if an allocation fails.  After a success the map of
    canonical types has no cycle; structs, unions and their forward declarations are linked only
    among themselves, to a type of the same name and kind (a forward declaration counts as what
    it declares), structs and unions never to a forward declaration; reference types are not
    linked to others yet; and every struct and union leads to a struct or union that is mapped to
    itself.  (Nothing more is stated of the links of integers, floats and enumerations, where a
    forward-declared enumeration may be linked to one of the 64-bit kind.) *)
Theorem struct_types_sound al c N o base : graph_ok c N -> c = o :: base -> exists err d, dedup_structs c al = Some (err, d) /\
  (err = 0 /\ (exists d', d = Some d' /\ structs_canonical c N d') \/ err = - EINVAL \/ err = - ENOMEM /\ alloc_fails al).
Proof.
  intros Hg Ec. destruct (structs_spec al c N o base Hg Ec) as (err & d & -> & Hcase). eexists _, _. split; [done|]. destruct Hcase as [[-> (d0 & d2 & -> & _ & _ & Hi2)]|?]; [left; split; [done|]|by right]. exists d2. split; [done|].
  destruct Hi2 as [Hs2 _ _ Hdone _ _]. split; [apply Hs2|apply Hs2|]. intros id Hid Hco.
  destruct (resolve_in c N d2 id Hs2) as (r & Hr & Hrr & Hroot & Hcl & Hcomp); [lia|]. specialize (Hcomp Hco). exists r. split_and!; [done| |done|done].
  inversion Hroot as [x v Hv Hvr|]; subst x. destruct Hvr as [Hvr| ->]; [|done]. exfalso. destruct (Hdone r) as (y & Hy & Hle); [|done|simplify_eq; lia].
  destruct (decide (r = 0)) as [->|]; [|lia]. exfalso. destruct Hcomp as (k & Hk & Hkc). unfold kind_of in Hk. destruct (id_type c N Hg 0) as (t & Ht0 & [[_ ->]|[? _]]); [lia| |lia]. rewrite Ht0 in Hk. by injection Hk as <-.
Qed.
End Structs.

(** On the sample, the second structure and the forward declaration are mapped to the first one. *)
Lemma struct_types_sound_witness : graph_ok [dedup_sample] 9 /\
  (r ← dedup_structs btf_dedup_identity_hash_fn [dedup_sample] (fun _ => true); Some (fst r, option_map d_map (snd r))) = Some (0, Some [0; 1; 2; BTF_UNPROCESSED_ID; 1; 2; BTF_UNPROCESSED_ID; 7; BTF_UNPROCESSED_ID]) /\
  exists err d, dedup_structs btf_dedup_identity_hash_fn [dedup_sample] (fun _ => true) = Some (err, d) /\
  (err = 0 /\ (exists d', d = Some d' /\ structs_canonical [dedup_sample] 9 d') \/ err = - EINVAL \/ err = - ENOMEM /\ alloc_fails (fun _ => true)).
Proof.
  split; [apply sample_graph|]. split; [vm_compute; reflexivity|].
  apply (struct_types_sound btf_dedup_identity_hash_fn (fun _ => true) [dedup_sample] 9 dedup_sample []); [apply sample_graph|reflexivity].
Defined.

(** ** Names and kinds only *)

(** [struct A { struct foo *p; }] with a forward declaration (4, 3, 2), [struct foo { int a; }] (5),
    [struct X { struct foo *p; }] with it (7, 6), [struct A] again with the other [foo] (8, 9), [struct X]
    with the forward declaration (10), and [struct foo { int b; int c; }] (11). *)
Definition merge_sample : btf_obj :=
  BtfObj (BtfHeader BTF_MAGIC 24 0 236 236 19)
    ([1; btf_type_info BTF_KIND_INT 0 false; 4; 32] ++
     [5; btf_type_info BTF_KIND_FWD 0 false; 0] ++
     [0; btf_type_info BTF_KIND_PTR 0 false; 2] ++
     [9; btf_type_info BTF_KIND_STRUCT 1 false; 8; 17; 3; 0] ++
     [5; btf_type_info BTF_KIND_STRUCT 1 false; 4; 13; 1; 0] ++
     [0; btf_type_info BTF_KIND_PTR 0 false; 5] ++
     [11; btf_type_info BTF_KIND_STRUCT 1 false; 8; 17; 6; 0] ++
     [9; btf_type_info BTF_KIND_STRUCT 1 false; 8; 17; 9; 0] ++
     [0; btf_type_info BTF_KIND_PTR 0 false; 11] ++
     [11; btf_type_info BTF_KIND_STRUCT 1 false; 8; 17; 3; 0] ++
     [5; btf_type_info BTF_KIND_STRUCT 2 false; 8; 15; 1; 0; 13; 1; 32]) 0
    [0; 16; 28; 40; 64; 88; 100; 124; 148; 160; 184] 11 11 1 0
    (StrsRaw [0; 105; 110; 116; 0; 102; 111; 111; 0; 65; 0; 88; 0; 97; 0; 98; 0; 112; 0]) 8.

(** Merging a hypothetical map links a struct that was not compared: the forward declaration 2 is
    resolved to [foo] 11 while 11 is not processed, then [X] 10 is found equivalent to [X] 7,
    where 2 meets [foo] 5, and 11 is mapped to 5 although they have different members. *)
Theorem unverified_merge :
  (r ← dedup_structs btf_dedup_identity_hash_fn [merge_sample] (fun _ => true); d ← snd r; r11 ← resolve_type_id d 11; Some (fst r, r11)) = Some (0, 5) /\
  (t5 ← btf_type_by_id (view [merge_sample]) 5; t11 ← btf_type_by_id (view [merge_sample]) 11; v5 ← btf_vlen t5; v11 ← btf_vlen t11; Some (v5, v11)) = Some (1, 2).
Proof. split; vm_compute; reflexivity. Qed.
