(* ===== verification/DedupFinish.v ===== *)
(** * Deduplication: compaction and renumbering

    [dedup_finish]: when every reference leads to a canonical type, the last two passes keep
    exactly the canonical types, in their order and next to each other, and every reference in
    them becomes the new number of the canonical type it leads to. *)
From stdpp Require Import base numbers list gmap sorting.
From S2P Require Import Prelude Hashmap Strset Btf BtfBuild BtfBuildSpec BtfIter BtfCopy BtfDedup DedupPrim DedupEquiv.

(** ** Types next to each other *)
Fixpoint body_offs (pos : Z) (ts : list (list Z)) : list Z :=
  match ts with
  | [] => []
  | t :: ts => pos :: body_offs (pos + 4 * Z.of_nat (length t)) ts
  end.

(** A complete type and nothing after it. *)
Definition exact (t : list Z) : Prop := exists k v n, whole t k v n /\ Z.of_nat (length t) = 3 + n.

(** The own types of the object are [ts]; other words follow them. *)
Record bodies (o : btf_obj) (ts : list (list Z)) : Prop := {
  bd_nr : o_nr_types o = Z.of_nat (length ts);
  bd_words : exists rest, o_types o = mjoin ts ++ rest;
  bd_offs : exists more, o_offs o = body_offs 0 ts ++ more;
  bd_exact : Forall exact ts
}.

Lemma body_offs_length pos ts : length (body_offs pos ts) = length ts.
Proof. revert pos. induction ts as [|t ts IH]; intros pos; [done|]. cbn. by rewrite IH. Qed.

Lemma body_offs_app pos ts ts' : body_offs pos (ts ++ ts') = body_offs pos ts ++ body_offs (pos + 4 * Z.of_nat (length (mjoin ts))) ts'.
Proof.
  revert pos. induction ts as [|t ts IH]; intros pos; cbn [app body_offs]; [by rewrite Z.mul_0_r, Z.add_0_r|]. rewrite IH. cbn [app]. do 2 f_equal.
  change (mjoin (t :: ts)) with (t ++ mjoin ts). rewrite length_app. f_equal. lia.
Qed.

(** The type at an offset, when the words from there on are known. *)
Lemma exact_prefix t k v n (l : list Z) : whole t k v n -> Z.of_nat (length t) = 3 + n -> whole (t ++ l) k v n.
Proof.
  intros Hw Hl. pose proof (whole_ranges _ _ _ _ Hw). assert (word (t ++ l) 1 = word t 1) as E by (unfold word; apply zget_app_l; lia). destruct Hw as [H1 H2 H3 H4].
  split; [unfold btf_kind, info; by rewrite E|unfold btf_vlen, info; by rewrite E|done|]. rewrite length_app. lia.
Qed.

(** ** Compaction *)

(** The types that are mapped to themselves. *)
Fixpoint kept (m : list Z) (id : Z) (ts : list (list Z)) : list (list Z) :=
  match ts with
  | [] => []
  | t :: ts => if decide (zget m id = Some id) then t :: kept m (id + 1) ts else kept m (id + 1) ts
  end.

(** The number of these among the first [n] types from [id] on. *)
Fixpoint kept_before (m : list Z) (id : Z) (n : nat) : Z :=
  match n with
  | O => 0
  | S n => (if decide (zget m id = Some id) then 1 else 0) + kept_before m (id + 1) n
  end.

(** The new number of a type, as compaction records it. *)
Definition new_id (m : list Z) (start id : Z) : Z :=
  if id <? start then id else if decide (zget m id = Some id) then start + kept_before m start (Z.to_nat (id - start)) else BTF_UNPROCESSED_ID.

Lemma kept_app m id ts ts' : kept m id (ts ++ ts') = kept m id ts ++ kept m (id + Z.of_nat (length ts)) ts'.
Proof.
  revert id. induction ts as [|t ts IH]; intros id; cbn [app kept length]; [by rewrite Z.add_0_r|]. rewrite IH. replace (id + 1 + Z.of_nat (length ts)) with (id + Z.of_nat (S (length ts))) by lia. by destruct (decide _).
Qed.

Lemma kept_count m id ts : Z.of_nat (length (kept m id ts)) = kept_before m id (length ts).
Proof. revert id. induction ts as [|t ts IH]; intros id; cbn [kept kept_before length]; [done|]. rewrite <- IH. destruct (decide _); cbn [length]; lia. Qed.

Lemma kept_words m id ts : (length (mjoin (kept m id ts)) <= length (mjoin ts))%nat.
Proof.
  revert id. induction ts as [|t ts IH]; intros id; cbn [kept]; [done|]. change (mjoin (t :: ts)) with (t ++ mjoin ts). rewrite length_app. specialize (IH (id + 1)).
  destruct (decide _); [change (mjoin (t :: ?l)) with (t ++ mjoin l); rewrite length_app|]; lia.
Qed.

Lemma kept_length m id ts : (length (kept m id ts) <= length ts)%nat.
Proof. revert id. induction ts as [|t ts IH]; intros id; cbn [kept]; [done|]. specialize (IH (id + 1)). destruct (decide _); cbn [length]; lia. Qed.

Lemma zget_mid {A} (l : list A) x r i : i = Z.of_nat (length l) -> zget (l ++ x :: r) i = Some x.
Proof. intros ->. unfold zget. rewrite decide_True by lia. rewrite Nat2Z.id. by apply list_lookup_middle. Qed.

Lemma zset_mid {A} (l : list A) x y r i : i = Z.of_nat (length l) -> zset (l ++ x :: r) i y = Some (l ++ y :: r).
Proof. intros ->. unfold zset. rewrite length_app. cbn [length]. rewrite decide_True by lia. rewrite Nat2Z.id. f_equal. rewrite insert_app_r_alt by lia. by rewrite Nat.sub_diag. Qed.

Lemma memcpy_mid (l old r ws : list Z) off : off = Z.of_nat (length l) -> length old = length ws -> memcpy_at (l ++ old ++ r) off ws = Some (l ++ ws ++ r).
Proof.
  intros -> Hl. unfold memcpy_at. rewrite !length_app. destruct (Z.leb_spec 0 (Z.of_nat (length l))); [|lia]. destruct (Z.leb_spec (Z.of_nat (length l) + Z.of_nat (length ws)) (Z.of_nat (length l + (length old + length r)))); [|lia]. cbn [andb].
  rewrite Nat2Z.id, take_app_length. f_equal. f_equal. f_equal. rewrite <- Hl, app_assoc, <- length_app. apply drop_app_length.
Qed.

Lemma quarter x : 4 * x / 4 = x.
Proof. rewrite Z.mul_comm. apply Z_div_mult. lia. Qed.

Lemma exact_size t l : exact t -> btf_type_size (t ++ l) = Some (4 * Z.of_nat (length t)) /\ (3 <= length t)%nat.
Proof.
  intros (k & v & n & Hw & Hl). pose proof (exact_prefix t k v n l Hw Hl) as [Hk Hv Hr _]. pose proof (whole_ranges _ _ _ _ Hw). unfold btf_type_size. rewrite Hk. cbn [mbind option_bind]. rewrite Hv. cbn [mbind option_bind].
  pose proof (type_size_rest _ _ (kind_range _ _ Hk) (proj1 (vlen_range _ _ Hv))) as Hs. rewrite Hr in Hs. destruct Hs as [-> _]. split; [f_equal; lia|lia].
Qed.

Section Compact.
Context (d0 : btf_dedup) (o0 : btf_obj) (base : chain) (ts : list (list Z)).
Hypothesis Hexact : Forall exact ts.
Hypothesis Hnr : o_nr_types o0 = Z.of_nat (length ts).
Hypothesis Hstart : 1 <= o_start_id o0 /\ o_start_id o0 + o_nr_types o0 <= 2 ^ 31.

Definition done_state (ws offs hm : list Z) : btf_dedup :=
  with_btf (set_offs offs (offs_cap o0) (set_types ws (types_cap o0) o0) :: base) (with_hypot hm (hypot_list d0) (hypot_cap d0) (hypot_adjust_canon d0) d0).

(** The map of new numbers when the own types below [bound] have been visited. *)
Definition renumbered (hm : list Z) (bound : Z) : Prop := forall id, 0 <= id < o_start_id o0 + o_nr_types o0 ->
  zget hm id = Some (if id <? bound then new_id (d_map d0) (o_start_id o0) id else BTF_UNPROCESSED_ID).

(** One step for a type that is kept. *)
Lemma compact_keep n K pre t suf gap gapo rest more hm : ts = pre ++ t :: suf -> (length (mjoin K) + length gap = length (mjoin pre))%nat -> (length K + length gapo = length pre)%nat ->
  let s := o_start_id o0 in let id := s + Z.of_nat (length pre) in zget (d_map d0) id = Some id -> id < Z.of_nat (length hm) ->
  exists gap1 gapo1 hm1, zset hm id (s + Z.of_nat (length K)) = Some hm1 /\ length gap1 = length gap /\ length gapo1 = length gapo /\
    compact_loop (S n) (done_state (mjoin K ++ gap ++ mjoin (t :: suf) ++ rest) (body_offs 0 K ++ gapo ++ body_offs (4 * Z.of_nat (length (mjoin pre))) (t :: suf) ++ more) hm)
      id (s + Z.of_nat (length K)) (4 * Z.of_nat (length (mjoin K))) =
    compact_loop n (done_state (mjoin K ++ t ++ gap1 ++ mjoin suf ++ rest)
        (body_offs 0 K ++ 4 * Z.of_nat (length (mjoin K)) :: gapo1 ++ body_offs (4 * Z.of_nat (length (mjoin pre)) + 4 * Z.of_nat (length t)) suf ++ more) hm1)
      (id + 1) (s + Z.of_nat (length K) + 1) (4 * Z.of_nat (length (mjoin K)) + 4 * Z.of_nat (length t)).
Proof.
  intros Ets Hgap Hgapo s id Hy Hlen. assert (length ts = length pre + S (length suf))%nat as Hlts by (by rewrite Ets, length_app). assert (s <= id < s + o_nr_types o0) as Hid by lia.
  cbn [compact_loop]. change (d_map (done_state ?a ?b ?c)) with (d_map d0). rewrite Hy. cbn [mbind option_bind]. rewrite Z.eqb_refl. cbn [negb].
  change (btf__type_by_id (view (d_btf (done_state ?a ?b ?c)))) with (btf__type_by_id (view (set_offs b (offs_cap o0) (set_types a (types_cap o0) o0) :: base))).
  assert (exact t) as Hte. { rewrite Ets in Hexact. apply Forall_app in Hexact as [_ Hexact]. by apply Forall_cons in Hexact as [? _]. }
  unfold btf__type_by_id, btf__type_cnt. cbn [view map head mbind option_bind layer_of start_id nr_types o_start_id o_nr_types set_offs set_types].
  rewrite (wrap_small 32) by lia. fold s. destruct (Z.geb_spec id (s + o_nr_types o0)); [lia|]. cbn [btf_type_by_id layer_of start_id type_offs types_data o_offs o_types o_start_id set_offs set_types]. fold s.
  destruct (Z.eqb_spec id 0); [lia|]. destruct (Z.ltb_spec id s); [lia|]. cbn [body_offs].
  assert (zget (body_offs 0 K ++ gapo ++ (4 * Z.of_nat (length (mjoin pre)) :: body_offs (4 * Z.of_nat (length (mjoin pre)) + 4 * Z.of_nat (length t)) suf) ++ more) (id - s) = Some (4 * Z.of_nat (length (mjoin pre)))) as ->.
  { rewrite app_assoc. cbn [app]. apply zget_mid. rewrite length_app, body_offs_length. lia. }
  cbn [mbind option_bind]. rewrite quarter, Nat2Z.id.
  replace (drop (length (mjoin pre)) (mjoin K ++ gap ++ mjoin (t :: suf) ++ rest)) with (t ++ mjoin suf ++ rest).
  2:{ rewrite (app_assoc (mjoin K)), <- Hgap, <- length_app, drop_app_length. change (mjoin (t :: suf)) with (t ++ mjoin suf). by rewrite app_assoc. }
  destruct (exact_size t (mjoin suf ++ rest) Hte) as [-> Hl3]. cbn [mbind option_bind]. destruct (Z.ltb_spec (4 * Z.of_nat (length t)) 0); [lia|].
  change (d_btf (done_state ?a ?b ?c)) with (set_offs b (offs_cap o0) (set_types a (types_cap o0) o0) :: base). cbn [head mbind option_bind].
  rewrite !quarter. rewrite option_guard_True by (rewrite !length_app; lia). cbn [mbind option_bind].
  rewrite Nat2Z.id, take_app_length. cbn [o_types set_offs set_types o_offs o_start_id]. fold s.
  change (mjoin (t :: suf)) with (t ++ mjoin suf).
  assert (exists old gap', gap ++ t = old ++ gap' /\ length old = length t /\ length gap' = length gap) as (old & gap1 & Eg & Lo & Lg).
  { exists (take (length t) (gap ++ t)), (drop (length t) (gap ++ t)). rewrite take_drop, length_take, length_drop, length_app. split_and!; [done|lia|lia]. }
  replace (mjoin K ++ gap ++ (t ++ mjoin suf) ++ rest) with (mjoin K ++ old ++ gap1 ++ mjoin suf ++ rest) by (rewrite (app_assoc old), <- Eg; by rewrite !app_assoc).
  rewrite memcpy_mid by done. cbn [mbind option_bind].
  change (hypot_map (done_state ?a ?b ?c)) with c. destruct (zset_is_Some hm id (s + Z.of_nat (length K))) as [hm1 Hz]; [lia|]. rewrite Hz. cbn [mbind option_bind].
  assert (exists x gapo1, gapo ++ [4 * Z.of_nat (length (mjoin pre))] = x :: gapo1 /\ length gapo1 = length gapo) as (x & gapo1 & Ego & Lgo).
  { destruct gapo as [|g gapo]; [by exists (4 * Z.of_nat (length (mjoin pre))), []|]. exists g, (gapo ++ [4 * Z.of_nat (length (mjoin pre))]). split; [done|]. rewrite length_app. cbn. lia. }
  match goal with |- context [zset ?l _ _] => replace l with (body_offs 0 K ++ x :: gapo1 ++ body_offs (4 * Z.of_nat (length (mjoin pre)) + 4 * Z.of_nat (length t)) suf ++ more) end.
  2:{ f_equal. rewrite (app_comm_cons gapo1), <- Ego. by rewrite <- app_assoc. }
  rewrite zset_mid by (rewrite body_offs_length; lia). cbn [mbind option_bind tail].
  exists gap1, gapo1, hm1. by split_and!.
Qed.

Lemma compact_loop_spec suf : forall pre gap gapo rest more hm, ts = pre ++ suf ->
  (length (mjoin (kept (d_map d0) (o_start_id o0) pre)) + length gap = length (mjoin pre))%nat -> (length (kept (d_map d0) (o_start_id o0) pre) + length gapo = length pre)%nat ->
  (forall id, 0 <= id < o_start_id o0 + o_nr_types o0 -> exists y, zget (d_map d0) id = Some y) -> renumbered hm (o_start_id o0 + Z.of_nat (length pre)) ->
  exists gap' gapo' hm', compact_loop (length suf)
    (done_state (mjoin (kept (d_map d0) (o_start_id o0) pre) ++ gap ++ mjoin suf ++ rest) (body_offs 0 (kept (d_map d0) (o_start_id o0) pre) ++ gapo ++ body_offs (4 * Z.of_nat (length (mjoin pre))) suf ++ more) hm)
    (o_start_id o0 + Z.of_nat (length pre)) (o_start_id o0 + Z.of_nat (length (kept (d_map d0) (o_start_id o0) pre))) (4 * Z.of_nat (length (mjoin (kept (d_map d0) (o_start_id o0) pre)))) =
    Some (0, o_start_id o0 + Z.of_nat (length (kept (d_map d0) (o_start_id o0) ts)), 4 * Z.of_nat (length (mjoin (kept (d_map d0) (o_start_id o0) ts))),
      done_state (mjoin (kept (d_map d0) (o_start_id o0) ts) ++ gap' ++ rest) (body_offs 0 (kept (d_map d0) (o_start_id o0) ts) ++ gapo' ++ more) hm') /\
    length hm' = length hm /\ renumbered hm' (o_start_id o0 + o_nr_types o0).
Proof.
  induction suf as [|t suf IH]; intros pre gap gapo rest more hm Ets Hgap Hgapo Hmap Hhm.
  { rewrite app_nil_r in Ets. subst ts. exists gap, gapo, hm. cbn [length compact_loop mjoin list_join body_offs app]. split_and!; [done|done|]. by rewrite Hnr. }
  set (m := d_map d0) in *. set (s := o_start_id o0) in *. set (id := s + Z.of_nat (length pre)) in *.
  assert (length ts = length pre + S (length suf))%nat as Hlts by (by rewrite Ets, length_app). assert (s <= id < s + o_nr_types o0) as Hid by lia.
  assert (mjoin (pre ++ [t]) = mjoin pre ++ t) as Hj. { rewrite join_app. cbn. by rewrite app_nil_r. }
  assert (ts = (pre ++ [t]) ++ suf) as Ets' by (by rewrite <- app_assoc).
  assert (s + Z.of_nat (length (pre ++ [t])) = id + 1) as Eid by (rewrite length_app; cbn [length]; lia).
  assert (renumbered hm (id + 1) \/ zget m id = Some id) as Hnew. { destruct (decide (zget m id = Some id)) as [|Hne]; [by right|left]. intros x Hx. rewrite (Hhm x Hx). fold s m id.
    destruct (decide (x = id)) as [->|]; [|destruct (Z.ltb_spec x id), (Z.ltb_spec x (id + 1)); done || lia]. rewrite (proj2 (Z.ltb_ge id id)), (proj2 (Z.ltb_lt id (id + 1))) by lia.
    unfold new_id. destruct (Z.ltb_spec id s); [lia|]. by rewrite decide_False. }
  destruct (Hmap id) as [y Hy]; [lia|].
  specialize (IH (pre ++ [t])). rewrite kept_app in IH. fold id in IH. cbn [kept] in IH. rewrite Hj, Eid in IH. destruct (decide (y = id)) as [->|Hne].
  - rewrite decide_True in IH by done. pose proof (Hhm id ltac:(lia)) as Hx. apply zget_lt in Hx.
    destruct (compact_keep (length suf) (kept m s pre) pre t suf gap gapo rest more hm Ets Hgap Hgapo Hy) as (gap1 & gapo1 & hm1 & Hz & Lg & Lgo & Hstep); [lia|].
    fold s in Hz, Hstep. fold id in Hz, Hstep. cbn [length]. rewrite Hstep. clear Hstep.
    destruct (IH gap1 gapo1 rest more hm1 Ets') as (gap' & gapo' & hm' & Hc & Lh & Hre).
    + rewrite join_app, !length_app. cbn. rewrite app_nil_r. lia.
    + rewrite !length_app. cbn. lia.
    + done.
    + intros z Hzr. destruct (decide (z = id)) as [->|Hzi].
      * rewrite (zget_zset_eq _ _ _ _ Hz), (proj2 (Z.ltb_lt id (id + 1))) by lia. unfold new_id. fold s m. destruct (Z.ltb_spec id s); [lia|]. rewrite decide_True by done. f_equal. f_equal.
        replace (Z.to_nat (id - s)) with (length pre) by lia. apply kept_count.
      * rewrite (zget_zset_ne _ _ _ _ _ Hz), (Hhm z Hzr) by done. fold s m id. destruct (Z.ltb_spec z id), (Z.ltb_spec z (id + 1)); done || lia.
    + exists gap', gapo', hm'. split_and!; [|by rewrite Lh, (zset_length _ _ _ _ Hz)|done]. rewrite <- Hc. unfold done_state. f_equal.
      * cbn. rewrite join_app, body_offs_app. cbn. rewrite app_nil_r, <- !app_assoc. cbn [app]. replace (4 * Z.of_nat (length (mjoin pre ++ t))) with (4 * Z.of_nat (length (mjoin pre)) + 4 * Z.of_nat (length t)) by (rewrite length_app; lia). reflexivity.
      * rewrite length_app. cbn. lia.
      * rewrite join_app, length_app. cbn. rewrite app_nil_r. lia.
  - cbn [length compact_loop]. change (d_map (done_state ?a ?b ?c)) with m. rewrite Hy. cbn [mbind option_bind]. rewrite (proj2 (Z.eqb_neq _ _) Hne). cbn [negb]. rewrite decide_False in IH by congruence. rewrite app_nil_r in IH. destruct Hnew as [Hnew|]; [|congruence].
    destruct (IH (gap ++ t) (gapo ++ [4 * Z.of_nat (length (mjoin pre))]) rest more hm Ets') as (gap' & gapo' & hm' & Hc & Lh & Hre); [rewrite !length_app; lia|rewrite !length_app; cbn; lia|done|done|].
    exists gap', gapo', hm'. split_and!; [|done|done]. rewrite <- Hc. cbn [body_offs]. change (mjoin (t :: suf)) with (t ++ mjoin suf). rewrite <- !app_assoc. cbn [app].
    replace (4 * Z.of_nat (length (mjoin pre ++ t))) with (4 * Z.of_nat (length (mjoin pre)) + 4 * Z.of_nat (length t)) by (rewrite length_app; lia). reflexivity.
Qed.

Lemma compact_types_spec al : d_btf d0 = o0 :: base -> bodies o0 ts -> o_start_id o0 + o_nr_types o0 <= Z.of_nat (length (hypot_map d0)) -> o_start_id o0 + o_nr_types o0 <= Z.of_nat (length (d_map d0)) ->
  exists err d1, btf_dedup_compact_types al d0 = Some (err, d1) /\
  (err = - ENOMEM /\ alloc_fails al \/
   err = 0 /\ exists o1, d_btf d1 = o1 :: base /\ bodies o1 (kept (d_map d0) (o_start_id o0) ts) /\ o_start_id o1 = o_start_id o0 /\
     h_type_len o1 = 4 * Z.of_nat (length (mjoin (kept (d_map d0) (o_start_id o0) ts))) /\ o_strs o1 = o_strs o0 /\ d_map d1 = d_map d0 /\ renumbered (hypot_map d1) (o_start_id o0 + o_nr_types o0)).
Proof.
  intros Hb [_ [rest Hw] [more Ho] _] Hhl Hml. unfold btf_dedup_compact_types. rewrite Hb. cbn [head mbind option_bind]. rewrite option_guard_True by done. cbn [mbind option_bind].
  set (hm := seqZ 0 _ ++ _). assert (renumbered hm (o_start_id o0 + Z.of_nat (length (@nil (list Z))))) as Hhm.
  { intros id Hid. cbn [length]. rewrite Z.add_0_r. unfold hm. destruct (Z.ltb_spec id (o_start_id o0)) as [Hlt|Hge].
    - rewrite zget_app_l by (rewrite length_seqZ; lia). unfold new_id. destruct (Z.ltb_spec id (o_start_id o0)); [|lia]. apply zget_Some. split; [lia|]. rewrite lookup_seqZ. lia.
    - replace id with (Z.of_nat (length (seqZ 0 (o_start_id o0))) + (id - o_start_id o0)) by (rewrite length_seqZ; lia). rewrite zget_app_r by lia.
      rewrite zget_app_l by (rewrite length_replicate; lia). apply zget_Some. split; [lia|]. apply lookup_replicate. split; [done|lia]. }
  rewrite Hnr, Nat2Z.id.
  destruct (compact_loop_spec ts [] [] [] rest more hm eq_refl eq_refl eq_refl) as (gap & gapo & hm' & Hc & Lh & Hre); [|done|].
  { intros id Hid. apply zget_is_Some. lia. }
  cbn [kept mjoin list_join app body_offs length] in Hc. change (Z.of_nat 0) with 0 in Hc. rewrite !Z.mul_0_r, !Z.add_0_r, <- Hw, <- Ho in Hc.
  assert (with_hypot hm (hypot_list d0) (hypot_cap d0) (hypot_adjust_canon d0) d0 = done_state (o_types o0) (o_offs o0) hm) as ->.
  { unfold done_state. destruct d0 as [cc ? ? ? ? ? ?]. cbn in Hb |- *. rewrite Hb. by destruct o0. }
  rewrite Hc. cbn [mbind option_bind Z.ltb Z.compare]. set (K := kept (d_map d0) (o_start_id o0) ts) in *. change (d_btf (done_state ?a ?b ?c)) with (set_offs b (offs_cap o0) (set_types a (types_cap o0) o0) :: base).
  cbn [head mbind option_bind tail]. replace (o_start_id o0 + Z.of_nat (length K) - o_start_id o0) with (Z.of_nat (length K)) by lia.
  destruct (negb (Z.of_nat (length K) =? 0) && negb (al [0])) eqn:Ha.
  { eexists _, _. split; [done|]. left. split; [done|]. exists [0]. apply andb_true_iff in Ha as [_ Ha]. by destruct (al [0]). }
  eexists _, _. split; [done|]. right. split; [done|]. eexists. split; [done|]. split_and!; try done; [|by rewrite <- Hnr].
  split; [done|by exists (gap ++ rest)| |].
  - exists []. cbn. rewrite Nat2Z.id, app_nil_r. rewrite <- (body_offs_length 0 K) at 1. apply take_app_length.
  - subst K. clear -Hexact. generalize (o_start_id o0). induction Hexact as [|t l Ht Hl IH]; intros s; cbn [kept]; [done|]. destruct (decide _); [constructor; [done|by apply IH]|by apply IH].
Qed.
End Compact.

(** ** Renumbering *)

(** The new number of the type that [x] leads to. *)
Definition target (d : btf_dedup) (x : Z) : option Z := r ← resolve_type_id d x; zget (hypot_map d) r.

(** All references of a type replaced. *)
Definition rename (f : Z -> Z) (t : list Z) : list Z :=
  match btf_kind t with
  | Some k => imap (fun j w => if field_word BTF_FIELD_ITER_IDS k (Z.of_nat j) then f w else w) t
  | None => t
  end.

Lemma rename_length f t : length (rename f t) = length t.
Proof. unfold rename. destruct (btf_kind t); [apply length_imap|done]. Qed.

Lemma rename_words f (ts : list (list Z)) : length (mjoin (rename f <$> ts)) = length (mjoin ts).
Proof. induction ts as [|t ts IH]; [done|]. change (mjoin (rename f <$> t :: ts)) with (rename f t ++ mjoin (rename f <$> ts)). change (mjoin (t :: ts)) with (t ++ mjoin ts). by rewrite !length_app, rename_length, IH. Qed.

Lemma rename_offs f pos ts : body_offs pos (rename f <$> ts) = body_offs pos ts.
Proof. revert pos. induction ts as [|t ts IH]; intros pos; [done|]. cbn [fmap list_fmap body_offs]. by rewrite rename_length, IH. Qed.

(** Every reference of the type leads to a type with a new number. *)
Definition refs_known (d : btf_dedup) (t : list Z) : Prop := forall k j x, btf_kind t = Some k -> field_word BTF_FIELD_ITER_IDS k j = true -> zget t j = Some x ->
  exists y, target d x = Some y /\ y <= BTF_MAX_NR_TYPES.

Definition new_ref (d : btf_dedup) (x : Z) : Z := default 0 (target d x).

Section Remap.
Context (d : btf_dedup) (o : btf_obj) (base : chain).

Definition with_words (ws : list Z) : chain := set_types ws (types_cap o) o :: base.

Lemma remap_word_spec l t r w j x y : w = Z.of_nat (length l) + j -> zget t j = Some x -> target d x = Some y -> y <= BTF_MAX_NR_TYPES -> exists t',
  remap_word d w (with_words (l ++ t ++ r)) = Some (0, with_words (l ++ t' ++ r)) /\ zset t j y = Some t'.
Proof.
  intros -> Hx Hy Hle. pose proof (zget_lt _ _ _ Hx) as Hj. destruct (zset_is_Some t j y Hj) as [t' Ht']. exists t'. split; [|done].
  assert (zset (l ++ t ++ r) (Z.of_nat (length l) + j) y = Some (l ++ t' ++ r)) as Hs.
  { apply zset_Some in Ht' as [_ ->]. unfold zset. rewrite decide_True by (rewrite !length_app; lia). f_equal. rewrite insert_app_r_alt by lia. f_equal. replace (Z.to_nat (Z.of_nat (length l) + j) - length l)%nat with (Z.to_nat j) by lia. rewrite insert_app_l by lia. done. }
  unfold remap_word, get_word, with_words. cbn [head mbind option_bind o_types set_types]. rewrite zget_app_r, zget_app_l, Hx by lia. cbn [mbind option_bind].
  unfold target in Hy. destruct (resolve_type_id d x) as [rr|]; [|done]. cbn [mbind option_bind] in Hy |- *. rewrite Hy. cbn [mbind option_bind]. destruct (Z.gtb_spec y BTF_MAX_NR_TYPES); [lia|].
  unfold put_word. cbn [head mbind option_bind o_types set_types]. rewrite Hs. done.
Qed.

Lemma fold_remap l r pos js : 4 * Z.of_nat (length l) = pos -> NoDup js -> forall t, (forall j, j ∈ js -> exists x y, zget t j = Some x /\ target d x = Some y /\ y <= BTF_MAX_NR_TYPES) ->
  exists t', fields_fold (fun off c => remap_word d ((pos + off) / 4) c) (map (Z.mul 4) js) (with_words (l ++ t ++ r)) = Some (0, with_words (l ++ t' ++ r)) /\ length t' = length t /\
    forall j, zget t' j = if decide (j ∈ js) then new_ref d <$> zget t j else zget t j.
Proof.
  intros Hpos. induction 1 as [|j js Hj Hnd IH]; intros t Hjs; cbn [map fields_fold].
  { exists t. split_and!; [done|done|]. intros j. by rewrite decide_False by apply not_elem_of_nil. }
  destruct (Hjs j) as (x & y & Hx & Hy & Hle); [left|]. replace ((pos + 4 * j) / 4) with (Z.of_nat (length l) + j) by (replace (pos + 4 * j) with (4 * (Z.of_nat (length l) + j)) by lia; by rewrite quarter).
  destruct (remap_word_spec l t r _ j x y eq_refl Hx Hy Hle) as (t1 & -> & Ht1). cbn [mbind option_bind Z.eqb negb].
  destruct (IH t1) as (t' & -> & Hl & Hg).
  { intros j' Hj'. destruct (Hjs j') as (x' & y' & ? & ? & ?); [by right|]. exists x', y'. rewrite (zget_zset_ne _ _ _ _ _ Ht1); [done|]. intros <-. done. }
  exists t'. split_and!; [done|by rewrite Hl, (zset_length _ _ _ _ Ht1)|]. intros j'. rewrite Hg. destruct (decide (j' = j)) as [->|Hne].
  - rewrite decide_False by done. rewrite decide_True by left. rewrite (zget_zset_eq _ _ _ _ Ht1), Hx. change (new_ref d <$> Some x) with (Some (new_ref d x)). unfold new_ref. by rewrite Hy.
  - rewrite (zget_zset_ne _ _ _ _ _ Ht1) by done. destruct (decide (j' ∈ js)) as [Hin|Hin]; [by rewrite decide_True by (by right)|]. rewrite decide_False; [done|]. by intros [?|?]%elem_of_cons.
Qed.

(** One type. *)
Lemma remap_type_spec l t r id : exact t -> refs_known d t -> zget (o_offs o) (id - o_start_id o) = Some (4 * Z.of_nat (length l)) ->
  remap_type d id (with_words (l ++ t ++ r)) = Some (0, with_words (l ++ rename (new_ref d) t ++ r)).
Proof.
  intros (k & v & n & Hw & Hlen) Hk Hoff. unfold remap_type. change (head (with_words ?ws)) with (Some (set_types ws (types_cap o) o)). cbn [mbind option_bind o_offs o_types o_start_id set_types]. rewrite Hoff. cbn [mbind option_bind].
  rewrite quarter, Nat2Z.id, drop_app_length. pose proof (exact_prefix t k v n r Hw Hlen) as [Hk1 Hv1 Hr1 _]. pose proof (whole_ranges _ _ _ _ Hw) as (_ & _ & Hn0).
  destruct (field_iter_spec BTF_FIELD_ITER_IDS (t ++ r) k v n (S (length (t ++ r))) Hk1 Hv1 Hr1) as (it & it' & -> & Hrun & _).
  { pose proof (field_words_length BTF_FIELD_ITER_IDS k n Hn0). rewrite length_app. lia. }
  cbn [mbind option_bind Z.eqb negb]. rewrite (field_loop_fold _ _ _ _ _ _ Hrun).
  destruct (fold_remap l r _ (field_words BTF_FIELD_ITER_IDS k n) eq_refl (field_words_NoDup _ _ _) t) as (t' & -> & Hl' & Hg).
  { intros j [Hj Hf]%field_words_in; [|done]. destruct (zget_is_Some t j) as [x Hx]; [lia|]. destruct (Hk k j x (wh_kind _ _ _ _ Hw) Hf Hx) as (y & ? & ?). by exists x, y. }
  do 5 f_equal. unfold rename. rewrite (wh_kind _ _ _ _ Hw). apply list_eq. intros i. rewrite list_lookup_imap. specialize (Hg (Z.of_nat i)). rewrite !zget_nat in Hg. rewrite Hg.
  destruct (decide (Z.of_nat i ∈ field_words BTF_FIELD_ITER_IDS k n)) as [Hin|Hin]; (destruct (t !! i) as [x|] eqn:Hx; [|done]); apply lookup_lt_Some in Hx; cbn [fmap option_fmap option_map].
  - apply field_words_in in Hin as [_ ->]; done.
  - destruct (field_word BTF_FIELD_ITER_IDS k (Z.of_nat i)) eqn:Hf; [|done]. exfalso. apply Hin, field_words_in; [done|]. split; [lia|done].
Qed.

Lemma remap_loop_spec suf : forall pre rest, Forall exact suf -> Forall (refs_known d) suf -> (exists more, o_offs o = body_offs 0 (pre ++ suf) ++ more) ->
  remap_loop (length suf) d (o_start_id o + Z.of_nat (length pre)) (with_words (mjoin (rename (new_ref d) <$> pre) ++ mjoin suf ++ rest)) =
  Some (0, with_words (mjoin (rename (new_ref d) <$> pre ++ suf) ++ rest)).
Proof.
  induction suf as [|t suf IH]; intros pre rest He Hk [more Ho]; cbn [length remap_loop]; [by rewrite app_nil_r|]. apply Forall_cons in He as [Het He]. apply Forall_cons in Hk as [Hkt Hk].
  change (mjoin (t :: suf)) with (t ++ mjoin suf). rewrite <- app_assoc. rewrite (remap_type_spec _ t (mjoin suf ++ rest)); [|done|done|].
  2:{ rewrite Ho, rename_words, body_offs_app, <- app_assoc. cbn [body_offs app]. apply zget_mid. rewrite body_offs_length. lia. }
  cbn [mbind option_bind Z.eqb negb]. specialize (IH (pre ++ [t]) rest He Hk). rewrite <- app_assoc in IH. change ([t] ++ suf) with (t :: suf) in IH. specialize (IH ltac:(by exists more)). rewrite <- IH. f_equal.
  - rewrite length_app. cbn [length]. lia.
  - f_equal. rewrite fmap_app, join_app. cbn. rewrite app_nil_r. by rewrite <- app_assoc.
Qed.
End Remap.

Lemma info_not_id k : field_word BTF_FIELD_ITER_IDS k 1 = false.
Proof. unfold field_word. cbn. by rewrite ?andb_false_r. Qed.

Lemma rename_exact f t : exact t -> exact (rename f t).
Proof.
  intros (k & v & n & Hw & Hl). pose proof (whole_ranges _ _ _ _ Hw). assert (word (rename f t) 1 = word t 1) as E.
  { unfold word. change 1 with (Z.of_nat 1). rewrite !zget_nat. unfold rename. rewrite (wh_kind _ _ _ _ Hw), list_lookup_imap. change (Z.of_nat 1) with 1. rewrite info_not_id. by destruct (t !! 1%nat). }
  exists k, v, n. destruct Hw as [H1 H2 H3 H4]. split; [|by rewrite rename_length]. split; [unfold btf_kind, info in *; by rewrite E|unfold btf_vlen, info in *; by rewrite E|done|by rewrite rename_length].
Qed.

Lemma rename_ext f g t : (forall k j x, btf_kind t = Some k -> field_word BTF_FIELD_ITER_IDS k j = true -> zget t j = Some x -> f x = g x) -> rename f t = rename g t.
Proof.
  intros H. unfold rename. destruct (btf_kind t) as [k|] eqn:Hk; [|done]. apply imap_ext. intros i x Hx. destruct (field_word _ k _) eqn:Hf; [|done]. apply (H k (Z.of_nat i)); [done|done|by rewrite zget_nat].
Qed.

(** ** The last two passes *)

(** Every reference leads to a type of the base or to one that is mapped to itself. *)
Definition refs_canonical (d : btf_dedup) (start N : Z) (t : list Z) : Prop := forall k j x, btf_kind t = Some k -> field_word BTF_FIELD_ITER_IDS k j = true -> zget t j = Some x ->
  exists r, resolve_type_id d x = Some r /\ 0 <= r < N /\ (r < start \/ zget (d_map d) r = Some r).

(** The number of the canonical type that [x] leads to. *)
Definition canon_number (d : btf_dedup) (start x : Z) : Z := from_option (new_id (d_map d) start) 0 (resolve_type_id d x).

Lemma kept_before_le m id n : 0 <= kept_before m id n <= Z.of_nat n.
Proof. revert id. induction n as [|n IH]; intros id; cbn [kept_before]; [lia|]. specialize (IH (id + 1)). destruct (decide _); lia. Qed.

Lemma new_id_le m start N r : 0 <= r < N -> N <= 2 ^ 31 -> r < start \/ zget m r = Some r -> new_id m start r <= BTF_MAX_NR_TYPES.
Proof.
  intros Hr HN Hc. unfold new_id, BTF_MAX_NR_TYPES. destruct (Z.ltb_spec r start); [lia|]. destruct Hc as [|Hc]; [lia|]. rewrite decide_True by done. pose proof (kept_before_le m start (Z.to_nat (r - start))). lia.
Qed.

(** When every reference of a canonical type leads to a canonical type, compaction and
    renumbering succeed unless an allocation fails: the own types of the object become exactly
    the canonical ones, complete and in their old order, with every reference replaced by the new
    number of the canonical type it leads to; the length of the type data is that of these
    types; the base, its numbers and the strings stay as they are. *)
Lemma dedup_finish al d o base ts : d_btf d = o :: base -> bodies o ts -> 1 <= o_start_id o -> o_start_id o + o_nr_types o <= 2 ^ 31 ->
  o_start_id o + o_nr_types o <= Z.of_nat (length (hypot_map d)) -> o_start_id o + o_nr_types o <= Z.of_nat (length (d_map d)) ->
  Forall (refs_canonical d (o_start_id o) (o_start_id o + o_nr_types o)) (kept (d_map d) (o_start_id o) ts) ->
  exists err d', and_then (btf_dedup_compact_types al d) btf_dedup_remap_types = Some (err, d') /\
  (err = - ENOMEM /\ alloc_fails al \/
   err = 0 /\ exists o', d_btf d' = o' :: base /\ bodies o' (rename (canon_number d (o_start_id o)) <$> kept (d_map d) (o_start_id o) ts) /\
     o_start_id o' = o_start_id o /\ h_type_len o' = 4 * Z.of_nat (length (mjoin (kept (d_map d) (o_start_id o) ts))) /\ o_strs o' = o_strs o).
Proof.
  intros Hb Hbd Hst HN Hhl Hml Hrefs. pose proof (bd_exact _ _ Hbd) as Hex. unfold and_then.
  destruct (compact_types_spec d o base ts Hex (bd_nr _ _ Hbd) (conj Hst HN) al Hb Hbd Hhl Hml) as (err & d1 & -> & Hcase). cbn [mbind option_bind].
  destruct Hcase as [[-> Ha]|(-> & o1 & Hb1 & Hbd1 & Es & El & Estr & Em & Hre)]; cbn [Z.ltb Z.compare]; [eexists _, _; split; [done|]; by left|].
  assert (forall x, resolve_type_id d1 x = resolve_type_id d x) as Eres by (intros x; unfold resolve_type_id; by rewrite Em).
  set (K := kept (d_map d) (o_start_id o) ts) in *.
  assert (forall x r, resolve_type_id d x = Some r -> 0 <= r < o_start_id o + o_nr_types o -> target d1 x = Some (new_id (d_map d) (o_start_id o) r)) as Htar.
  { intros x r Hx Hr. unfold target. rewrite Eres, Hx. cbn [mbind option_bind]. rewrite (Hre r Hr). by rewrite (proj2 (Z.ltb_lt _ _)) by lia. }
  assert (Forall (refs_known d1) K) as Hkn.
  { eapply Forall_impl; [exact Hrefs|]. intros t Ht k j x Hk Hf Hx. destruct (Ht k j x Hk Hf Hx) as (r & Hr & Hrr & Hc). exists (new_id (d_map d) (o_start_id o) r). split; [by apply Htar|].
    by apply (new_id_le _ _ (o_start_id o + o_nr_types o)). }
  assert (rename (new_ref d1) <$> K = rename (canon_number d (o_start_id o)) <$> K) as Eren.
  { apply list_fmap_ext. intros i t Hi. eapply Forall_lookup_1 in Hrefs; [|exact Hi]. apply rename_ext. intros k j x Hk Hf Hx. destruct (Hrefs k j x Hk Hf Hx) as (r & Hr & Hrr & _).
    unfold new_ref, canon_number. by rewrite (Htar x r Hr Hrr), Hr. }
  destruct Hbd1 as [Bn [rest Bw] [more Bo] Be]. unfold btf_dedup_remap_types, own_types. rewrite Hb1. cbn [head mbind option_bind]. rewrite Bn, Nat2Z.id.
  assert (o1 :: base = with_words o1 base (mjoin (rename (new_ref d1) <$> []) ++ mjoin K ++ rest)) as E1 by (cbn [fmap list_fmap mjoin list_join app]; rewrite <- Bw; by destruct o1).
  pose proof (remap_loop_spec d1 o1 base K [] rest Be Hkn ltac:(by exists more)) as Hloop. change (Z.of_nat (length (@nil (list Z)))) with 0 in Hloop. rewrite Z.add_0_r in Hloop. rewrite <- E1 in Hloop. rewrite Hloop. cbn [mbind option_bind].
  eexists _, _. split; [done|]. right. split; [done|]. eexists. split; [done|]. cbn [app]. rewrite Eren. split_and!; try done.
  split; [cbn; by rewrite length_fmap|by exists rest|exists more; cbn; by rewrite rename_offs|]. apply Forall_fmap. eapply Forall_impl; [exact Be|]. intros t. apply rename_exact.
Qed.
