(* ===== verification/DedupRef.v ===== *)
(** * Deduplication: forward declarations and reference types

    [resolve_fwds_spec]: resolving forward declarations by name keeps the invariant of the structs.
    The pass over reference types rewrites references in place: [ref_inv] relates the words of the
    object to the original ones (a word is unchanged, or it is a reference that has become its
    canonical type), and says that a reference type that is linked to another one has the same
    words.  [ref_type_spec] is the recursive step, [ref_pass] the whole pass: it ends within the
    fuel, with every own type mapped, or with -ELOOP, -EINVAL or a failed allocation. *)
From stdpp Require Import base numbers list gmap sorting.
From S2P Require Import Prelude Hashmap Strset Btf BtfBuild BtfBuildSpec BtfIter BtfCopy BtfDedup DedupPrim DedupEquiv DedupStruct DedupLinks DedupFinish.

(** ** Forward declarations *)
Section Fwd.
Context (hash_fn : Z -> Z) {HK : HashKey hash_fn btf_dedup_equal_fn} (c : chain) (N start : Z) (m0 : list Z).
Hypothesis Hg : graph_ok c N.

Definition name_wf (m : hashmap) : Prop := map_wf btf_dedup_identity_hash_fn btf_dedup_equal_fn m.

(** The map of names: a name that belongs to one canonical struct or union only leads to it, and a
    name of several to 0. *)
Record names_ok (m : list Z) (nm : hashmap) (n : Z) : Prop := {
  nk_wf : name_wf nm;
  nk_tight : cap_tight nm;
  nk_size : sz nm <= n;
  nk_entries : forall e, e ∈ all_entries nm -> value e = 0 \/
    0 < value e < N /\ composite c (value e) /\ zget m (value e) = Some (value e) /\ exists t, btf_type_by_id (view c) (value e) = Some t /\ word t 0 = Some (key e)
}.

Lemma names_init m : names_ok m hashmap__init 0.
Proof.
  split; [split; [apply init_wf|done]|unfold cap_tight; cbn; lia|cbn; lia|]. intros e He. by apply elem_of_nil in He.
Qed.

Lemma names_add_spec al m nm n name id t : names_ok m nm n -> n < 2 ^ 50 -> 0 < id < N -> composite c id -> zget m id = Some id -> btf_type_by_id (view c) id = Some t -> word t 0 = Some name ->
  exists err nm', names_add al nm name id = Some (err, nm') /\ (err = 0 /\ names_ok m nm' (n + 1) \/ err = - ENOMEM /\ alloc_fails al).
Proof.
  intros [Hw Ht Hs He] Hn Hid Hco Hm Hty Hnm. unfold names_add.
  assert (cap nm < 2 ^ 60) as Hcap by (unfold cap_tight in Ht; lia).
  destruct (hashmap_insert_ref btf_dedup_identity_hash_fn btf_dedup_equal_fn (al [0]) (al [1]) nm name id HASHMAP_ADD Hw) as (err & m1 & ok & ov & -> & Hw1 & Hcase); [done|]. cbn [mbind option_bind].
  destruct (contents _ _ _) as [e|] eqn:Hc.
  - destruct Hcase as (-> & -> & _ & _). rewrite Z.eqb_refl.
    destruct (hashmap_insert_ref btf_dedup_identity_hash_fn btf_dedup_equal_fn (al [2]) (al [3]) nm name 0 HASHMAP_SET Hw) as (err & m2 & ok2 & ov2 & -> & Hw2 & Hcase); [done|]. cbn [mbind option_bind]. rewrite Hc in Hcase.
    destruct Hcase as (-> & Hup & Hsz & Hcp & _ & _). eexists _, _. split; [done|]. left. split; [done|]. split; [done|unfold cap_tight in *; lia|lia|].
    intros e' [->|Hin]%(updated_elem btf_dedup_identity_hash_fn btf_dedup_equal_fn nm m2 name 0 e' Hw2 Hup); [by left|by apply He].
  - destruct Hcase as (_ & _ & Ht1 & [(-> & Hno & _)|(-> & Hup & Hsz)]); cbn [Z.eqb].
    + assert ((- ENOMEM =? - EEXIST) = false) as -> by done. eexists _, _. split; [done|]. right. split; [done|]. destruct Hno as [?|[?|?]]; [by exists [0]|by exists [1]|lia].
    + eexists _, _. split; [done|]. left. split; [done|]. split; [done|by apply Ht1|lia|].
      intros e' [->|Hin]%(updated_elem btf_dedup_identity_hash_fn btf_dedup_equal_fn nm m1 name id e' Hw1 Hup); [right; cbn [key value]; split_and!; [lia|lia|done|done|by exists t]|by apply He].
Qed.

Lemma fill_names_spec al d nn : forall i nm n, d_btf d = c -> length (d_map d) = Z.to_nat N -> names_ok (d_map d) nm n -> n + Z.of_nat nn < 2 ^ 50 -> 0 < i -> i + Z.of_nat nn <= N ->
  exists err nm', fill_names_loop nn al d i nm = Some (err, nm') /\ (err = 0 /\ names_ok (d_map d) nm' (n + Z.of_nat nn) \/ err = - ENOMEM /\ alloc_fails al).
Proof.
  induction nn as [|nn IH]; intros i nm n Hb Hl Hn Hsz Hi HN; cbn [fill_names_loop]; [exists 0, nm; split; [done|]; left; split; [done|]; by rewrite Z.add_0_r|].
  destruct (to_types _ _ (gr_types _ _ Hg) i) as (t & k & v & w & Hty & Hw); [lia|]. unfold dtype. rewrite Hb, Hty. cbn [mbind option_bind]. rewrite (wh_kind _ _ _ _ Hw). cbn [mbind option_bind].
  replace (n + Z.of_nat (S nn)) with (n + 1 + Z.of_nat nn) by lia.
  assert (names_ok (d_map d) nm (n + 1)) as Hn1 by (destruct Hn; split; auto; lia).
  destruct (kind_is_composite k) eqn:Hk; cbn [negb]; [|apply IH; done || lia].
  destruct (zget_is_Some (d_map d) i) as [y Hy]; [lia|]. rewrite Hy. cbn [mbind option_bind]. destruct (Z.eqb_spec i y) as [<-|]; cbn [negb]; [|apply IH; done || lia].
  destruct (whole_word _ _ _ _ 0 Hw) as [s Hs]; [pose proof (whole_ranges _ _ _ _ Hw); lia|]. unfold name_off. rewrite Hs. cbn [mbind option_bind].
  destruct (names_add_spec (sub i al) (d_map d) nm n s i t Hn) as (err & nm' & -> & Hcase); [lia|lia|exists k; split; [unfold kind_of; rewrite Hty; apply Hw|done]|done|done|done|]. cbn [mbind option_bind].
  destruct Hcase as [[-> Hn']|[-> Ha]]; cbn [Z.eqb negb]; [apply IH; done || lia|]. eexists _, _. split; [done|]. right. split; [done|by apply fails_sub in Ha].
Qed.

Lemma resolve_fwd_step nm n size d i : struct_inv c N hash_fn start m0 size d N -> names_ok (d_map d) nm n -> 0 < i < N -> exists d',
  btf_dedup_resolve_fwd nm d i = Some (0, d') /\ struct_inv c N hash_fn start m0 size d' N /\ names_ok (d_map d') nm n.
Proof.
  intros Hinv Hn Hi. destruct (to_types _ _ (gr_types _ _ Hg) i Hi) as (t & k & v & w & Hty & Hw). pose proof Hinv as [Hs Ht Hself Hdone Hoth Hkp].
  unfold btf_dedup_resolve_fwd, dtype. rewrite (hi_btf _ _ _ _ (si_hyp _ _ _ Hs)), Hty. cbn [mbind option_bind]. pose proof (whole_ranges _ _ _ _ Hw).
  destruct (whole_word _ _ _ _ 0 Hw) as [s Hs0]; [lia|]. destruct (whole_word _ _ _ _ 1 Hw) as [inf Hinf]; [lia|].
  unfold btf_kflag, info at 1. rewrite Hinf. cbn [mbind option_bind]. rewrite (wh_kind _ _ _ _ Hw). cbn [mbind option_bind].
  destruct (Z.eqb_spec k BTF_KIND_FWD) as [Hk|]; cbn [negb]; [|by exists d]. destruct (zget_is_Some (d_map d) i) as [y Hy]; [rewrite (mi_len _ _ _ (si_map _ _ _ Hs)); lia|]. rewrite Hy. cbn [mbind option_bind].
  destruct (Z.eqb_spec i y) as [<-|]; cbn [negb]; [|by exists d]. unfold name_off. rewrite Hs0. cbn [mbind option_bind].
  rewrite (hashmap_find_spec btf_dedup_identity_hash_fn btf_dedup_equal_fn nm s (nk_wf _ _ _ Hn)). cbn [mbind option_bind]. destruct (contents _ nm s) as [e|] eqn:Hc; cbn [fmap option_fmap option_map]; [|by exists d].
  apply contents_in in Hc as [He Hke]. apply Z.eqb_eq in Hke. destruct (nk_entries _ _ _ Hn e He) as [->|(Hr & Hco & Hm & t' & Hty' & Hs')]; [cbn [Z.eqb]; by exists d|].
  set (y := value e) in *. destruct (Z.eqb_spec y 0); [lia|]. rewrite Hty'. cbn [mbind option_bind]. destruct Hco as (k' & Hk' & Hkc). pose proof Hk' as Hk2. unfold kind_of in Hk2. rewrite Hty' in Hk2. cbn [mbind option_bind] in Hk2. rewrite Hk2. cbn [mbind option_bind].
  destruct ((k' =? BTF_KIND_STRUCT) && _ || _) eqn:Hmis; [by exists d|].
  assert (is_fwd c i) as Hfi by (unfold is_fwd, kind_of; rewrite Hty; cbn [mbind option_bind]; rewrite (wh_kind _ _ _ _ Hw); by rewrite Hk).
  assert (composite c y) as Hcy by (by exists k'). assert (~ composite c i) as Hci by (intros Hx; by apply comp_not_fwd in Hx).
  assert (cls c i = cls c y) as Hcls.
  { destruct (cls_fwd c i t k v w Hty Hw Hk) as (s1 & f & E1 & Ef & -> & _). rewrite Hs0 in E1. injection E1 as <-. unfold btf_fwd_kind, btf_kflag, info in Ef. rewrite Hinf in Ef. cbn [mbind option_bind] in Ef. set (b := negb (inf >>' 31 =? 0)) in *. clearbody b.
    unfold cls, name_off. rewrite Hty'. cbn [mbind option_bind]. rewrite Hk2, Hs'. cbn [mbind option_bind]. rewrite Hkc, Hke. unfold kind_is_composite in Hkc.
    apply orb_true_iff in Hkc as [->%Z.eqb_eq | ->%Z.eqb_eq]; destruct b; injection Ef as <-; done. }
  destruct (set_map_link c N Hg d i y) as (m' & -> & Hm' & Hgr & Hz); [done|lia|lia|lia| |done|done|by left|by apply fwd_not_ref|done|].
  { intros _. apply (res_root _ y y); [done|by right]. }
  cbn [mbind option_bind]. exists (with_map m' d). split; [done|]. assert (forall id, ~ is_fwd c id -> zget m' id = zget (d_map d) id) as Hkeep by (intros id Hf; apply (zget_zset_ne _ _ _ _ _ Hz); intros <-; done). split.
  - split; [by apply with_map_inv; [apply Hs|]|by apply (table_ok_same N hash_fn d)| | | |].
    + intros id Hin Hf Hd. cbn [d_map with_map]. rewrite Hkeep by done. by apply Hself.
    + intros id Hid Hc. apply Hgr. by apply Hdone.
    + intros id Hid. apply Hgr. by apply Hoth.
    + intros id Hf Hmp. cbn [d_map with_map]. rewrite Hkeep by done. by apply Hkp.
  - destruct Hn as [N1 N2 N3 N4]. split; [done..|]. intros e' He'. destruct (N4 e' He') as [?|(? & Hce & Hme & ?)]; [by left|right]. split_and!; [lia|lia|done| |done]. cbn [d_map with_map]. rewrite Hkeep; [done|by apply comp_not_fwd].
Qed.

Lemma fwd_pass nm n nn : forall size d i, struct_inv c N hash_fn start m0 size d N -> names_ok (d_map d) nm n -> 0 < i -> i + Z.of_nat nn <= N -> exists d',
  pass nn i (fun id d => btf_dedup_resolve_fwd nm d id) d = Some (0, d') /\ struct_inv c N hash_fn start m0 size d' N.
Proof.
  induction nn as [|nn IH]; intros size d i Hinv Hn Hi HN; cbn [pass]; [by exists d|]. destruct (resolve_fwd_step nm n size d i Hinv Hn) as (d1 & -> & Hinv1 & Hn1); [lia|]. cbn [mbind option_bind Z.ltb Z.compare].
  apply IH; done || lia.
Qed.

Lemma resolve_fwds_spec al size d o base : c = o :: base -> struct_inv c N hash_fn start m0 size d N -> exists err d', btf_dedup_resolve_fwds al d = Some (err, d') /\
  (err = 0 /\ struct_inv c N hash_fn start m0 size d' N \/ err = - ENOMEM /\ alloc_fails al).
Proof.
  intros Ec Hinv. pose proof (ss_state _ _ _ _ _ _ _ _ Hinv) as Hs. pose proof (hi_btf _ _ _ _ (si_hyp _ _ _ Hs)) as Hb. destruct (to_head _ _ (gr_types _ _ Hg)) as (o' & base' & Ec' & HN & Hst & Hnr & _). rewrite Ec in Ec'. injection Ec' as <- <-. pose proof (to_max _ _ (gr_types _ _ Hg)).
  unfold btf_dedup_resolve_fwds. destruct (al [0]) eqn:Ha; cbn [negb]; [|eexists _, _; split; [done|]; right; split; [done|by exists [0]]].
  unfold btf_dedup_fill_unique_names_map. rewrite Hb, (to_cnt _ _ (gr_types _ _ Hg)). cbn [mbind option_bind].
  destruct (fill_names_spec (sub 1 al) d (Z.to_nat (N - 1)) 1 hashmap__init 0 Hb (mi_len _ _ _ (si_map _ _ _ Hs)) (names_init _)) as (err & nm & -> & Hcase); [lia..|]. cbn [mbind option_bind].
  destruct Hcase as [[-> Hn]|[-> Hal]]; cbn [Z.ltb Z.compare]; [|eexists _, _; split; [done|]; right; split; [done|by apply fails_sub in Hal]].
  unfold own_types. rewrite Hb. replace (head c) with (Some o) by (by rewrite Ec). cbn [mbind option_bind].
  destruct (fwd_pass nm _ (Z.to_nat (o_nr_types o)) size d (o_start_id o) Hinv Hn) as (d' & -> & Hinv'); [lia..|]. eexists _, _. split; [done|]. by left.
Qed.
End Fwd.

(** ** Canonical types *)

(** [x] leads to [r], which is mapped to itself. *)
Definition canon (m : list Z) (x r : Z) : Prop := (exists k, resolves m k x r) /\ zget m r = Some r.

(** Mapped ids keep their target. *)
Definition keeps (m m' : list Z) : Prop := forall x y, zget m x = Some y -> y <= BTF_MAX_NR_TYPES -> zget m' x = Some y.
Definition keeps_progress (m m' : list Z) : Prop := forall x, zget m x = Some BTF_IN_PROGRESS_ID -> zget m' x = Some BTF_IN_PROGRESS_ID.

Lemma keeps_refl m : keeps m m.
Proof. by intros x y. Qed.
Lemma keeps_trans m1 m2 m3 : keeps m1 m2 -> keeps m2 m3 -> keeps m1 m3.
Proof. intros H1 H2 x y Hx Hy. apply H2; [by apply H1|done]. Qed.

Lemma canon_mono m m' x r : keeps m m' -> r <= BTF_MAX_NR_TYPES -> canon m x r -> canon m' x r.
Proof.
  intros Hk Hle [[k Hr] Hs]. split; [|by apply Hk]. exists k. induction Hr as [x v Hv _|k x v r Hv Hmx Hne _ IH].
  - apply (res_root m' x x); [by apply Hk|by right].
  - apply (res_step m' k x v r); [by apply Hk|done|done|]. by apply IH.
Qed.

Lemma canon_self m x r : canon m x r -> zget m x = Some x -> r = x.
Proof. intros [[k Hr] _] Hx. assert (resolves m 0 x x) as H0 by (apply (res_root m x x); [done|by right]). by destruct (resolves_fun _ _ _ _ H0 _ _ Hr) as [_ ->]. Qed.

Lemma canon_mapped m x r : canon m x r -> r <= BTF_MAX_NR_TYPES -> mapped m x.
Proof. intros [[k Hr] Hs] Hle. destruct Hr as [x v Hv _|k x v r Hv Hmx _ _]; [by exists x|by exists v]. Qed.

(** The entries that are neither mapped nor in progress. *)
Definition opens (m : list Z) : nat := length (filter (fun v => BTF_MAX_NR_TYPES < v /\ v <> BTF_IN_PROGRESS_ID) m).

Lemma opens_set m m' i v : zset m i v = Some m' -> v <= BTF_MAX_NR_TYPES \/ v = BTF_IN_PROGRESS_ID -> exists old, zget m i = Some old /\
  (opens m' <= opens m)%nat /\ (BTF_MAX_NR_TYPES < old -> old <> BTF_IN_PROGRESS_ID -> S (opens m') = opens m).
Proof.
  intros Hs Hv. apply zset_Some in Hs as [Hi ->]. destruct (zget_is_Some m i Hi) as [old Ho]. exists old. split; [done|]. apply zget_Some in Ho as [_ Ho].
  unfold opens. rewrite <- (take_drop_middle m _ _ Ho) at 2 4. rewrite insert_take_drop by lia. rewrite !filter_app, !length_app, !filter_cons.
  rewrite decide_False by lia. destruct (decide _); cbn [length]; split; try lia.
Qed.

(** ** Reference types *)

(** A type and its original: references may have been replaced by canonical types. *)
Definition body_rel (m : list Z) (t0 t : list Z) : Prop := length t = length t0 /\
  forall j x, zget t0 j = Some x -> exists y, zget t j = Some y /\ (y = x \/ (exists k, btf_kind t0 = Some k /\ field_word BTF_FIELD_ITER_IDS k j = true) /\ canon m x y /\ 0 <= y <= BTF_MAX_NR_TYPES).

Lemma body_rel_refl m t : body_rel m t t.
Proof. split; [done|]. intros j x Hx. exists x. auto. Qed.

Lemma body_rel_mono m m' t0 t : keeps m m' -> body_rel m t0 t -> body_rel m' t0 t.
Proof.
  intros Hk [Hl H]. split; [done|]. intros j x Hx. destruct (H j x Hx) as (y & Hy & Hc). exists y. split; [done|]. destruct Hc as [?|(? & ? & ?)]; [by left|right]. split_and!; [done|apply (canon_mono m); [done|lia|done]|lia|lia].
Qed.

Lemma body_rel_whole m t0 t k v n : body_rel m t0 t -> whole t0 k v n -> whole t k v n.
Proof.
  intros [Hl H] Hw. pose proof (whole_ranges _ _ _ _ Hw). destruct (whole_word _ _ _ _ 1 Hw) as [i Hi]; [lia|]. assert (word t 1 = word t0 1) as E.
  { destruct (H 1 i Hi) as (y & Hy & [->|((k' & _ & Hf) & _)]); [unfold word in *; congruence|]. by rewrite info_not_id in Hf. }
  destruct Hw as [H1 H2 H3 H4]. split; [unfold btf_kind, info in *; by rewrite E|unfold btf_vlen, info in *; by rewrite E|done|lia].
Qed.

Lemma body_rel_set m t0 t t' j x r k : body_rel m t0 t -> zget t0 j = Some x -> btf_kind t0 = Some k -> field_word BTF_FIELD_ITER_IDS k j = true -> canon m x r -> 0 <= r <= BTF_MAX_NR_TYPES -> zset t j r = Some t' -> body_rel m t0 t'.
Proof.
  intros [Hl H] Hx Hk Hf Hc Hr Hs. split; [by rewrite (zset_length _ _ _ _ Hs)|]. intros j' x' Hx'. destruct (decide (j' = j)) as [->|Hne].
  - exists r. split; [by apply (zget_zset_eq _ _ _ _ Hs)|]. simplify_eq. right. split_and!; [by exists k|done|lia|lia].
  - rewrite (zget_zset_ne _ _ _ _ _ Hs) by done. by apply H.
Qed.

Section Ref.
Context (hash_fn : Z -> Z) {HK : HashKey hash_fn btf_dedup_equal_fn} (c : chain) (N : Z) (o : btf_obj) (base : chain) (ts0 : list (list Z)) (al : oracle).
Hypothesis Hg : graph_ok c N.
Hypothesis Ec : c = o :: base.
Hypothesis Hbd : bodies o ts0.

(** The object with other words for its types. *)
Definition cur (ts : list (list Z)) (rest : list Z) : chain := set_types (mjoin ts ++ rest) (types_cap o) o :: base.

(** Two types with the same words. *)
Definition same_type (d : btf_dedup) (x y : Z) : Prop := exists t t' k v n, dtype d x = Some t /\ dtype d y = Some t' /\ whole t k v n /\ whole t' k v n /\
  forall j, 0 <= j < 3 + n -> word t j = word t' j.

(** The state between the steps: own types differ from the originals in references only, the map
    of canonical types has no cycle and every mapped type leads to a canonical one; a reference
    type is linked to a type with the same words.  [B] bounds the size of the table. *)
Record ref_inv (B : Z) (d : btf_dedup) : Prop := {
  ri_btf : exists ts rest, d_btf d = cur ts rest /\ Forall2 (body_rel (d_map d)) ts0 ts;
  ri_len : length (d_map d) = Z.to_nat N;
  ri_rooted : rooted (d_map d);
  ri_base : forall id, 0 <= id < o_start_id o -> mapped (d_map d) id;
  ri_canon : forall x, mapped (d_map d) x -> exists r, canon (d_map d) x r;
  ri_wf : hashmap_wf hash_fn (dedup_table d);
  ri_tight : cap_tight (dedup_table d);
  ri_size : sz (dedup_table d) + Z.of_nat (opens (d_map d)) <= B;
  ri_ids : forall e, e ∈ all_entries (dedup_table d) -> 0 < value e < N;
  ri_self : forall id, in_table d id -> ~ is_fwd c id -> ~ declared_enum c id -> zget (d_map d) id = Some id;
  ri_hyp : length (hypot_map d) = Z.to_nat N;
  ri_cls : forall x y, zget (d_map d) x = Some y -> y <= BTF_MAX_NR_TYPES -> cls c x = cls c y;
  ri_cong : forall x y, zget (d_map d) x = Some y -> y <= BTF_MAX_NR_TYPES -> y <> x -> is_ref c x -> zget (d_map d) y = Some y /\ same_type d x y
}.

Lemma head_facts : N = o_start_id o + o_nr_types o /\ 1 <= o_start_id o /\ 0 <= o_nr_types o /\ N <= 2 ^ 31.
Proof. destruct (to_head _ _ (gr_types _ _ Hg)) as (o' & base' & E & ? & ? & ? & _). rewrite Ec in E. injection E as <- <-. pose proof (to_max _ _ (gr_types _ _ Hg)). auto. Qed.

Lemma canon_range B d x r : ref_inv B d -> canon (d_map d) x r -> 0 <= r < N.
Proof. intros Hi [_ Hr%zget_lt]. rewrite (ri_len _ _ Hi) in Hr. lia. Qed.

(** Where the type [id] of the object is. *)
Lemma body_at m id ts rest : Forall2 (body_rel m) ts0 ts -> o_start_id o <= id < N -> exists pre0 t0 suf0 pre t suf, ts0 = pre0 ++ t0 :: suf0 /\ ts = pre ++ t :: suf /\ length pre = Z.to_nat (id - o_start_id o) /\
  Forall2 (body_rel m) pre0 pre /\ body_rel m t0 t /\ Forall2 (body_rel m) suf0 suf /\ zget (o_offs o) (id - o_start_id o) = Some (4 * Z.of_nat (length (mjoin pre))) /\
  btf_type_by_id (view c) id = Some (t0 ++ drop (length (mjoin (pre0 ++ [t0]))) (o_types o)) /\ btf_type_by_id (view (cur ts rest)) id = Some (t ++ mjoin suf ++ rest) /\ exact t0.
Proof.
  intros Hrel Hid. destruct head_facts as (HN & Hst & Hnr & Hmax). pose proof Hbd as [Bn [rest0 Bw] [more Bo] Be].
  destruct (lookup_lt_is_Some_2 ts0 (Z.to_nat (id - o_start_id o))) as [t0 Ht0]; [lia|]. apply take_drop_middle in Ht0 as Ets0. set (pre0 := take _ ts0) in Ets0. set (suf0 := drop _ ts0) in Ets0.
  assert (length pre0 = Z.to_nat (id - o_start_id o)) as Hlp by (unfold pre0; apply length_take_le; apply lookup_lt_Some in Ht0; lia). clearbody pre0 suf0.
  rewrite <- Ets0 in Hrel. apply Forall2_app_inv_l in Hrel as (pre & l & Hpre & Hl & ->). apply Forall2_cons_inv_l in Hl as (t & suf & Ht & Hsuf & ->).
  assert (length (mjoin pre) = length (mjoin pre0)) as Hlj. { clear -Hpre. induction Hpre as [|a b l l' [Hab _] _ IH]; [done|]. change (mjoin (a :: l)) with (a ++ mjoin l). change (mjoin (b :: l')) with (b ++ mjoin l'). rewrite !length_app, Hab, IH. done. }
  assert (zget (o_offs o) (id - o_start_id o) = Some (4 * Z.of_nat (length (mjoin pre)))) as Hoff. { rewrite Bo, <- Ets0, body_offs_app, <- app_assoc, Hlj. cbn [body_offs app]. apply zget_mid. rewrite body_offs_length. lia. }
  assert (exact t0) as Het by (rewrite <- Ets0 in Be; apply Forall_app in Be as [_ Be]; by apply Forall_cons in Be as [? _]).
  exists pre0, t0, suf0, pre, t, suf. split_and!; try done.
  - apply Forall2_length in Hpre. lia.
  - rewrite Ec. cbn [view map btf_type_by_id layer_of start_id type_offs types_data]. rewrite (proj2 (Z.eqb_neq id 0)), (proj2 (Z.ltb_ge _ _)), Hoff by lia. cbn [mbind option_bind]. rewrite quarter, Nat2Z.id, Hlj. f_equal.
    rewrite Bw, <- Ets0, join_app, <- app_assoc, drop_app_length. change (mjoin (t0 :: suf0)) with (t0 ++ mjoin suf0). rewrite <- app_assoc. f_equal.
    assert (mjoin (pre0 ++ [t0]) = mjoin pre0 ++ t0) as -> by (rewrite join_app; cbn; by rewrite app_nil_r). rewrite (app_assoc (mjoin pre0)). by rewrite drop_app_length.
  - unfold cur. cbn [view map btf_type_by_id layer_of start_id type_offs types_data o_offs o_types o_start_id set_types]. rewrite (proj2 (Z.eqb_neq id 0)), (proj2 (Z.ltb_ge _ _)), Hoff by lia. cbn [mbind option_bind]. rewrite quarter, Nat2Z.id. f_equal.
    rewrite join_app, <- app_assoc, drop_app_length. change (mjoin (t :: suf)) with (t ++ mjoin suf). by rewrite <- app_assoc.
Qed.

(** The type [id] now, and its original. *)
Lemma cur_type B d id : ref_inv B d -> 0 < id < N -> exists t0 t k v n, btf_type_by_id (view c) id = Some t0 /\ dtype d id = Some t /\ whole t0 k v n /\ whole t k v n /\
  forall j x, 0 <= j < 3 + n -> word t0 j = Some x -> exists y, word t j = Some y /\ (y = x \/ field_word BTF_FIELD_ITER_IDS k j = true /\ canon (d_map d) x y).
Proof.
  intros Hi Hid. destruct (ri_btf _ _ Hi) as (ts & rest & Eb & Hrel). unfold dtype. rewrite Eb. destruct (decide (id < o_start_id o)) as [Hlt|Hge].
  - destruct (to_types _ _ (gr_types _ _ Hg) id Hid) as (t & k & v & n & Ht & Hw). exists t, t, k, v, n. split_and!; [done| |done|done|].
    + rewrite <- Ht, Ec. unfold cur. cbn [view map btf_type_by_id layer_of start_id o_start_id set_types]. by rewrite (proj2 (Z.ltb_lt id _)) by lia.
    + intros j x _ Hx. exists x. auto.
  - destruct (body_at (d_map d) id ts rest Hrel) as (pre0 & t0 & suf0 & pre & t & suf & _ & _ & _ & _ & Hrt & _ & _ & Hc0 & Hc & (k & v & n & Hw & Hl)); [lia|].
    pose proof (body_rel_whole _ _ _ _ _ _ Hrt Hw) as Hwt. destruct Hrt as [Hlt H]. exists (t0 ++ drop (length (mjoin (pre0 ++ [t0]))) (o_types o)), (t ++ mjoin suf ++ rest), k, v, n.
    split_and!; [done|done|by apply exact_prefix|by apply exact_prefix; [|rewrite Hlt]|]. intros j x Hj Hx. unfold word in *. rewrite zget_app_l in Hx |- * by lia.
    destruct (H j x Hx) as (y & Hy & Hcase). exists y. split; [done|]. destruct Hcase as [?|((k' & Hk' & Hf) & Hca & _)]; [by left|right]. split; [|done]. rewrite (wh_kind _ _ _ _ Hw) in Hk'. by injection Hk' as <-.
Qed.

(** The first words of a type depend on its own body only. *)
Lemma body_words m ts ts' rest rest' id : Forall2 (body_rel m) ts0 ts -> Forall2 (body_rel m) ts0 ts' -> 0 < id < N -> (o_start_id o <= id -> ts !! Z.to_nat (id - o_start_id o) = ts' !! Z.to_nat (id - o_start_id o)) ->
  forall t k v n, btf_type_by_id (view (cur ts rest)) id = Some t -> whole t k v n -> exists t', btf_type_by_id (view (cur ts' rest')) id = Some t' /\ whole t' k v n /\ forall j, 0 <= j < 3 + n -> word t' j = word t j.
Proof.
  intros Hr Hr' Hid Hsame t k v n Ht Hw. destruct (decide (id < o_start_id o)) as [Hlt|Hge].
  - exists t. split_and!; [|done|done]. rewrite <- Ht. unfold cur. cbn [view map btf_type_by_id layer_of start_id o_start_id set_types]. by rewrite (proj2 (Z.ltb_lt id _)) by lia.
  - destruct (body_at m id ts rest Hr) as (p0 & b0 & s0 & p & b & s & E0 & -> & Hl & _ & Hrel & _ & _ & _ & Hb & (k0 & v0 & n0 & Hw0 & Hl0)); [lia|]. destruct (body_at m id ts' rest' Hr') as (p0' & b0' & s0' & p' & b' & s' & E0' & -> & Hl' & _ & _ & _ & _ & _ & Hb' & _); [lia|].
    specialize (Hsame ltac:(lia)). rewrite !list_lookup_middle in Hsame by done. injection Hsame as <-. rewrite Hb in Ht. injection Ht as <-.
    pose proof (body_rel_whole _ _ _ _ _ _ Hrel Hw0) as Hwb. destruct Hrel as [Hlb _]. pose proof (exact_prefix b k0 v0 n0 (mjoin s ++ rest) Hwb ltac:(lia)) as Hwb1. destruct (info_kind _ _ _ _ _ _ _ _ Hw Hwb1 eq_refl) as (<- & <- & <-).
    exists (b ++ mjoin s' ++ rest'). split_and!; [done|by apply exact_prefix; [|lia]|]. intros j Hj. unfold word. by rewrite !zget_app_l by lia.
Qed.

(** A store of a canonical type to a reference of the type in progress. *)
Lemma set_ref_spec B d id t0 k v n j x r : ref_inv B d -> o_start_id o <= id < N -> zget (d_map d) id = Some BTF_IN_PROGRESS_ID -> btf_type_by_id (view c) id = Some t0 -> whole t0 k v n -> 0 <= j < 3 + n -> field_word BTF_FIELD_ITER_IDS k j = true ->
  word t0 j = Some x -> canon (d_map d) x r -> exists ch, set_ref d id j r = Some (with_btf ch d) /\ ref_inv B (with_btf ch d).
Proof.
  intros Hi Hid Hprog Ht0 Hw Hj Hf Hx Hc. destruct (ri_btf _ _ Hi) as (ts & rest & Eb & Hrel).
  destruct (body_at (d_map d) id ts rest Hrel Hid) as (pre0 & b0 & suf0 & pre & b & suf & E0 & Ets & Hlp & Hp & Hrt & Hs & Hoff & Hc0 & _ & (k' & v' & n' & Hw' & Hl)).
  rewrite Ht0 in Hc0. injection Hc0 as ->. pose proof (exact_prefix b0 k' v' n' (drop (length (mjoin (pre0 ++ [b0]))) (o_types o)) Hw' Hl) as Hw2. destruct (info_kind _ _ _ _ _ _ _ _ Hw Hw2 eq_refl) as (<- & <- & <-).
  assert (zget b0 j = Some x) as Hx0 by (unfold word in Hx; by rewrite zget_app_l in Hx by lia). pose proof Hrt as [Hlb _].
  destruct (zset_is_Some b j r) as [b' Hb']; [lia|]. pose proof (canon_range B d x r Hi Hc) as Hr.
  assert (body_rel (d_map d) b0 b') as Hrb by (apply (body_rel_set _ _ b _ j x r k); try done; [apply Hw'|pose proof (id_max c N Hg r); lia]).
  assert (Forall2 (body_rel (d_map d)) ts0 (pre ++ b' :: suf)) as Hrel' by (rewrite E0; apply Forall2_app; [done|by constructor]).
  exists (cur (pre ++ b' :: suf) rest). unfold set_ref. rewrite Eb, Ets. unfold cur at 1. cbn [set_type_word o_start_id o_offs o_types types_cap set_types]. rewrite (proj2 (Z.ltb_ge id _)), Hoff by lia. cbn [mbind option_bind]. rewrite quarter.
  assert (zset (mjoin (pre ++ b :: suf) ++ rest) (Z.of_nat (length (mjoin pre)) + j) r = Some (mjoin (pre ++ b' :: suf) ++ rest)) as ->.
  { rewrite !join_app. change (mjoin (b :: suf)) with (b ++ mjoin suf). change (mjoin (b' :: suf)) with (b' ++ mjoin suf). rewrite <- !app_assoc. apply zset_Some in Hb' as [Hjb ->]. unfold zset. rewrite decide_True by (rewrite !length_app; lia). f_equal.
    rewrite insert_app_r_alt by lia. f_equal. replace (Z.to_nat (Z.of_nat (length (mjoin pre)) + j) - length (mjoin pre))%nat with (Z.to_nat j) by lia. by rewrite insert_app_l by lia. }
  cbn [mbind option_bind]. split; [done|].
  assert (forall y, 0 < y < N -> y <> id -> forall t k v n, dtype d y = Some t -> whole t k v n -> exists t', dtype (with_btf (cur (pre ++ b' :: suf) rest) d) y = Some t' /\ whole t' k v n /\ forall j, 0 <= j < 3 + n -> word t' j = word t j) as Hframe.
  { intros y Hy Hne t. unfold dtype. rewrite Eb. apply (body_words (d_map d) ts); [done|done|done|]. intros Hge. rewrite Ets. assert (Z.to_nat (y - o_start_id o) <> length pre) as Hix by lia.
    destruct (decide (Z.to_nat (y - o_start_id o) < length pre)%nat); [by rewrite !lookup_app_l by done|]. rewrite !lookup_app_r by lia. by destruct (Z.to_nat (y - o_start_id o) - length pre)%nat eqn:E; [lia|]. }
  pose proof Hi as [_ Hlen Hro Hba Hca Hwf Hti Hsz Hids Hself Hhyp Hcls Hcong]. split; try done; [by exists (pre ++ b' :: suf), rest|].
  cbn [d_map with_btf]. intros y z Hyz Hle Hne Hry. destruct (Hcong y z Hyz Hle Hne Hry) as [Hzz (t & t' & ky & vy & ny & Hty & Htz & Hwy & Hwz & Hwords)]. split; [done|].
  assert (0 < y < N) as Hyr by (pose proof (zget_lt _ _ _ Hyz) as Hl'; rewrite Hlen in Hl'; destruct Hry as (kk & Hkk & Hrk); assert (y <> 0) by (apply (kind_nonzero c N Hg y kk Hkk); by intros ->); lia).
  assert (0 < z < N) as Hzr. { pose proof (zget_lt _ _ _ Hzz) as Hl'. rewrite Hlen in Hl'. destruct (decide (z = 0)) as [->|]; [|lia]. exfalso. unfold dtype in Htz. rewrite Eb in Htz. injection Htz as <-. by destruct Hwz as [Hk0 _ Hr0 _]; injection Hk0 as <-. }
  destruct (Hframe y Hyr ltac:(intros ->; rewrite Hprog in Hyz; injection Hyz as <-; by vm_compute in Hle) t ky vy ny Hty Hwy) as (ty & E1 & W1 & Q1).
  destruct (Hframe z Hzr ltac:(intros ->; rewrite Hprog in Hzz; injection Hzz as <-; by vm_compute in Hle) t' ky vy ny Htz Hwz) as (tz & E2 & W2 & Q2).
  exists ty, tz, ky, vy, ny. split_and!; [done..|]. intros j' Hj'. rewrite Q1, Q2 by done. by apply Hwords.
Qed.

(** ** Hashes and comparisons of reference types *)
Lemma ref_spec_words k v n ws hash same : ref_spec k v = Some (ws, hash, same) -> rest_words k v = Some n -> 0 <= v -> 0 <= n -> forall w, w ∈ ws -> 0 <= w < 3 + n /\ field_word BTF_FIELD_ITER_IDS k w = true.
Proof.
  unfold ref_spec. intros Hr Hn Hv Hn0 w Hw.
  destruct (chain_kind k) eqn:Hc; [injection Hr as <- <- <-; apply list_elem_of_singleton in Hw as ->; split; [lia|]; unfold field_word; by rewrite (chain_kind_ref k Hc)|].
  destruct (Z.eqb_spec k BTF_KIND_DECL_TAG) as [->|]; [injection Hr as <- <- <-; apply list_elem_of_singleton in Hw as ->; split; [lia|done]|].
  destruct (Z.eqb_spec k BTF_KIND_ARRAY) as [->|]; [injection Hr as <- <- <-; injection Hn as <-; apply elem_of_cons in Hw as [-> | ->%list_elem_of_singleton]; (split; [lia|done])|].
  destruct (Z.eqb_spec k BTF_KIND_FUNC_PROTO) as [->|]; [|done]. injection Hr as <- <- <-. injection Hn as <-. apply elem_of_cons in Hw as [->|Hw]; [split; [lia|done]|].
  apply list_elem_of_In, in_map_iff in Hw as (i & <- & Hi). apply list_elem_of_In, elem_of_seqZ in Hi. split; [lia|]. replace (3 + 2 * i + 1) with (3 + (2 * i + 1)) by lia. rewrite field_word_rest by lia. unfold id_slot. cbn.
  rewrite Z.add_comm, Z.mul_comm, Z_mod_plus_full. done.
Qed.

(** Words that are compared, one by one or as elements of two words, are all the words. *)
Lemma all_words (ws : list Z) (t t' : btf_type) n : (forall j, 0 <= j < 3 + n -> j ∈ ws) -> same_words ws t t' -> forall j, 0 <= j < 3 + n -> word t j = word t' j.
Proof. intros Hws Hs j Hj. by apply Hs, Hws. Qed.

Lemma first_words j n : 0 <= j < n -> 0 <= n <= 6 -> j ∈ take (Z.to_nat n) [0; 1; 2; 3; 4; 5].
Proof. intros Hj Hn. assert (n = 1 \/ n = 2 \/ n = 3 \/ n = 4 \/ n = 5 \/ n = 6) as Hns by lia. destruct_or! Hns; subst n; cbn; assert (j = 0 \/ j = 1 \/ j = 2 \/ j = 3 \/ j = 4 \/ j = 5) as Hjs by lia; destruct_or! Hjs; subst j; first [lia|in_list]. Qed.

Lemma ref_spec_total t k v n ws hash same : ref_spec k v = Some (ws, hash, same) -> whole t k v n -> (exists h, hash t = Some h) /\
  forall t' k' v' n', whole t' k' v' n' -> exists b, same t t' = Some b /\ (b = true -> forall j, 0 <= j < 3 + n -> word t j = word t' j).
Proof.
  unfold ref_spec. intros Hr Hw. destruct (kind_eqs t k v n Hw) as (_ & _ & _ & E4 & E5 & E6). pose proof (wh_rest _ _ _ _ Hw) as Hn. pose proof (whole_ranges _ _ _ _ Hw).
  destruct (chain_kind k) eqn:Hc.
  { assert (n = 0) as En. { unfold chain_kind in Hc. repeat rewrite orb_true_iff in Hc. rewrite !Z.eqb_eq in Hc. destruct_or! Hc; rewrite Hc in Hn; by injection Hn as <-. }
    injection Hr as <- <- <-. split; [destruct (hash_common_spec t k v n Hw) as (h & -> & _); eauto|]. intros t' k' v' n' Hw'. destruct (equal_common_spec t t' _ _ _ _ _ _ Hw Hw') as (b & -> & Hb). exists b. split; [done|]. intros ->.
    apply (all_words [0; 1; 2]); [|by apply Hb]. intros j Hj. apply (first_words j 3); lia. }
  destruct (Z.eqb_spec k BTF_KIND_DECL_TAG) as [Hk|].
  { injection Hr as <- <- <-. assert (n = 1) as En by (rewrite Hk in Hn; by injection Hn as <-). split; [destruct (hash_int_spec t k v n Hw En) as (h & -> & _); eauto|].
    intros t' k' v' n' Hw'. rewrite En in Hw |- *. destruct (equal_int_spec t t' _ _ _ _ _ Hw Hw') as (b & -> & Hb). exists b. split; [done|]. intros ->. apply (all_words [0; 1; 2; 3]); [|by apply Hb]. intros j Hj. apply (first_words j 4); lia. }
  destruct (Z.eqb_spec k BTF_KIND_ARRAY) as [Hk|].
  { injection Hr as <- <- <-. split; [destruct (hash_array_spec t k v n Hw (E4 Hk)) as (h & -> & _); eauto|]. intros t' k' v' n' Hw'. destruct (equal_array_spec t t' _ _ _ _ _ _ Hw Hw' Hk) as (b & -> & Hb). exists b. split; [done|]. intros ->.
    apply (all_words [0; 1; 2; 3; 4; 5]); [|by apply Hb]. rewrite (E4 Hk). intros j Hj. apply (first_words j 6); lia. }
  destruct (Z.eqb_spec k BTF_KIND_FUNC_PROTO) as [Hk|]; [|done]. injection Hr as <- <- <-. split; [destruct (hash_fnproto_spec t k v n Hw (E5 Hk)) as (h & -> & _); eauto|].
  intros t' k' v' n' Hw'. destruct (equal_fnproto_spec t t' _ _ _ _ _ _ Hw Hw' Hk) as (b & -> & Hb). exists b. split; [done|]. intros ->. apply (all_words ([0; 1; 2] ++ elem_words v 2 [0; 1])); [|by apply Hb].
  rewrite (E5 Hk). intros j Hj. apply elem_of_app. destruct (decide (j < 3)); [left; apply (first_words j 3); lia|right]. apply elem_words_in. pose proof (Z.mod_pos_bound (j - 3) 2 ltac:(lia)) as Hm. pose proof (Z.div_mod (j - 3) 2 ltac:(lia)) as Hd.
  exists ((j - 3) / 2), ((j - 3) mod 2). split_and!; [lia|lia| |lia]. assert ((j - 3) mod 2 = 0 \/ (j - 3) mod 2 = 1) as [-> | ->] by lia; in_list.
Qed.

Lemma ref_spec_kind k v ws hash same : ref_spec k v = Some (ws, hash, same) -> ref_kinds k = true.
Proof. unfold ref_spec, ref_kinds. destruct (chain_kind k), (k =? BTF_KIND_DECL_TAG), (k =? BTF_KIND_ARRAY), (k =? BTF_KIND_FUNC_PROTO); done. Qed.

Lemma ref_cls id t k v n : btf_type_by_id (view c) id = Some t -> whole t k v n -> ref_kinds k = true -> cls c id = None.
Proof. intros Ht Hw Hr. destruct (ref_kinds_not k Hr) as (Hf & Hc & _). by rewrite (cls_other c id t k v n Ht Hw Hf), Hc. Qed.

(** ** The recursion *)
Definition ref_err (r : Z) : Prop := r = - ELOOP \/ r = - EINVAL \/ r = - ENOMEM /\ alloc_fails al.

Lemma ref_err_neg r : ref_err r -> r < 0.
Proof. intros [->|[->|[-> _]]]; done. Qed.

(** What happens to the map. *)
Definition advances (d d' : btf_dedup) : Prop := keeps (d_map d) (d_map d') /\ keeps_progress (d_map d) (d_map d') /\ (opens (d_map d') <= opens (d_map d))%nat.

Lemma advances_refl d : advances d d.
Proof. split_and!; [apply keeps_refl|by intros x|done]. Qed.
Lemma advances_trans d1 d2 d3 : advances d1 d2 -> advances d2 d3 -> advances d1 d3.
Proof. intros (A1 & B1 & C1) (A2 & B2 & C2). split_and!; [by eapply keeps_trans|intros x Hx; by apply B2, B1|lia]. Qed.

Definition good_ref (B : Z) (d : btf_dedup) (id : Z) (res : option (Z * btf_dedup)) : Prop := exists r d', res = Some (r, d') /\
  (ref_err r \/ 0 <= r /\ ref_inv B d' /\ advances d d' /\ canon (d_map d') id r).

Lemma ref_words_spec rec B u id t0 k v n : (forall d x, ref_inv B d -> (opens (d_map d) <= u)%nat -> 0 <= x < N -> good_ref B d x (rec d x)) ->
  o_start_id o <= id < N -> btf_type_by_id (view c) id = Some t0 -> whole t0 k v n -> forall ws d, (forall w, w ∈ ws -> 0 <= w < 3 + n /\ field_word BTF_FIELD_ITER_IDS k w = true) ->
  ref_inv B d -> zget (d_map d) id = Some BTF_IN_PROGRESS_ID -> (opens (d_map d) <= u)%nat -> exists e d', ref_words rec d id ws = Some (e, d') /\ (ref_err e \/ e = 0 /\ ref_inv B d' /\ advances d d').
Proof.
  intros Hrec Hid Ht0 Hw. destruct head_facts as (_ & Hst & _ & _). induction ws as [|w ws IH]; intros d Hws Hi Hprog Hu; cbn [ref_words]; [exists 0, d; split; [done|]; right; split_and!; [done|done|apply advances_refl..]|].
  destruct (Hws w) as [Hwr Hf]; [left|]. destruct (cur_type B d id Hi) as (t0' & t & k' & v' & n' & Ht0' & Ht & Hw0 & Hwt & Hwd); [lia|]. rewrite Ht0 in Ht0'. injection Ht0' as <-.
  destruct (info_kind _ _ _ _ _ _ _ _ Hw Hw0 eq_refl) as (<- & <- & <-). rewrite Ht. cbn [mbind option_bind]. destruct (whole_word _ _ _ _ w Hw) as [x Hx]; [lia|]. destruct (Hwd w x Hwr Hx) as (y & Hy & Hcase). rewrite Hy. cbn [mbind option_bind].
  assert (0 <= x < N) as Hxr by (apply (gr_refs _ _ Hg id t0 k v n w x); done || lia). assert (0 <= y < N) as Hyr by (destruct Hcase as [->|[_ Hca]]; [done|by apply (canon_range B d x)]).
  destruct (Hrec d y Hi Hu Hyr) as (r & d1 & -> & Hr). cbn [mbind option_bind]. destruct Hr as [He|(Hr0 & Hi1 & Ha1 & Hc1)].
  { rewrite (proj2 (Z.ltb_lt r 0)) by (by apply ref_err_neg). exists r, d1. split; [done|by left]. }
  rewrite (proj2 (Z.ltb_ge r 0)) by done.
  assert (canon (d_map d1) x r) as Hcx.
  { destruct Hcase as [->|[_ Hca]]; [done|]. pose proof (canon_range B d x y Hi Hca). assert (canon (d_map d1) x y) as Hxy by (apply (canon_mono (d_map d)); [apply Ha1|apply (id_max c N Hg); lia|done]).
    destruct Hxy as [Hres Hself]. by rewrite (canon_self _ _ _ Hc1 Hself). }
  destruct (set_ref_spec B d1 id t0 k v n w x r Hi1 Hid (proj1 (proj2 Ha1) id Hprog) Ht0 Hw Hwr Hf Hx Hcx) as (ch & -> & Hi2). cbn [mbind option_bind].
  destruct (IH (with_btf ch d1)) as (e & d2 & -> & He); [intros w' Hw'; apply Hws; by right|done|by apply Ha1|destruct Ha1 as (_ & _ & ?); cbn [d_map with_btf]; lia|]. exists e, d2. split; [done|].
  destruct He as [?|(-> & Hi3 & Ha3)]; [by left|right]. split_and!; [done|done|by apply (advances_trans d d1)..].
Qed.

(** The end of a step: [id] is in progress and its references are canonical. *)
Lemma ref_finish B d id t k v n h new ald : ref_inv (B - 1) d -> B < 2 ^ 50 -> o_start_id o <= id < N -> zget (d_map d) id = Some BTF_IN_PROGRESS_ID -> kind_of c id = Some k ->
  dtype d id = Some t -> whole t k v n -> new = id \/ in_table d new /\ zget (d_map d) new = Some new /\ cls c id = cls c new /\ same_type d id new ->
  exists err d', finish_type hash_fn ald d h id new = Some (err, d') /\
  (err = - ENOMEM /\ alloc_fails ald \/ err = 0 /\ ref_inv B d' /\ keeps (d_map d) (d_map d') /\ (forall x, x <> id -> zget (d_map d') x = zget (d_map d) x) /\ (opens (d_map d') <= opens (d_map d))%nat /\ canon (d_map d') id new).
Proof.
  intros Hi HB Hid Hp Hk Ht Hw Hnew. destruct head_facts as (_ & Hst & _ & _). pose proof Hi as [[ts [rest [Eb Hrel]]] Hlen Hro Hba Hca Hwf Hti Hsz Hids Hself Hhyp Hcls Hcong].
  assert (0 <= new < N) as Hnr by (destruct Hnew as [->|(_ & Hz%zget_lt & _)]; [lia|]; rewrite Hlen in Hz; lia). pose proof (id_max c N Hg new ltac:(lia)) as Hmax.
  unfold finish_type, set_map. destruct (zset_is_Some (d_map d) id new) as [m' Hz]; [rewrite Hlen; lia|]. rewrite Hz. cbn [mbind option_bind].
  assert (keeps (d_map d) m') as Hke. { intros x y Hx Hy. destruct (decide (x = id)) as [->|]; [|by rewrite (zget_zset_ne _ _ _ _ _ Hz)]. rewrite Hp in Hx. injection Hx as <-. by vm_compute in Hy. }
  assert (canon m' id new) as Hcid.
  { pose proof (zget_zset_eq _ _ _ _ Hz) as Hge. destruct (decide (new = id)) as [->|Hne]; [split; [exists 0%nat; apply (res_root m' id id); [done|by right]|done]|]. destruct Hnew as [|(_ & Hns & _)]; [done|].
    assert (zget m' new = Some new) as Hn' by (by apply Hke). split; [|done]. exists 1%nat. apply (res_step m' 0 id new new); [done|done|done|]. apply (res_root m' new new); [done|by right]. }
  destruct (opens_set _ _ _ _ Hz (or_introl Hmax)) as (old & Hold & Hop & _).
  assert (forall d', d_btf d' = d_btf d -> d_map d' = m' -> hypot_map d' = hypot_map d -> hashmap_wf hash_fn (dedup_table d') -> cap_tight (dedup_table d') -> sz (dedup_table d') <= sz (dedup_table d) + 1 ->
    (forall x, in_table d' x -> x = id /\ new = id \/ in_table d x) -> ref_inv B d') as Hfin.
  { intros d' Eb' Em' Eh' Hwf' Hti' Hsz' Hin. split; rewrite ?Em', ?Eh'; try done.
    - exists ts, rest. split; [by rewrite Eb'|]. eapply Forall2_impl; [exact Hrel|]. intros. by eapply body_rel_mono.
    - by rewrite (zset_length _ _ _ _ Hz).
    - apply (link_root (d_map d) m' id new); [done|done|done|]. intros Hne. destruct Hnew as [|(_ & Hns & _)]; [done|]. apply (res_root _ new new); [done|by right].
    - intros x Hx. destruct (Hba x Hx) as (y & Hy & ?). exists y. split; [by apply Hke|done].
    - intros x (y & Hy & Hle). destruct (decide (x = id)) as [->|Hne]; [by exists new|]. rewrite (zget_zset_ne _ _ _ _ _ Hz) in Hy by done. destruct (Hca x) as [r Hr]; [by exists y|]. exists r. apply (canon_mono (d_map d)); [done| |done].
      pose proof (canon_range _ d x r Hi Hr). apply (id_max c N Hg). lia.
    - lia.
    - intros e He. destruct (Hin (value e)) as [[-> _]|(e' & He' & <-)]; [by exists e|lia|by apply Hids].
    - intros x [[-> ->]|Hx]%Hin Hf Hd; [apply Hcid|]. apply Hke; [by apply Hself|]. destruct Hx as (e & He & <-). apply (id_max c N Hg). apply Hids in He. lia.
    - intros x y Hxy Hle. destruct (decide (x = id)) as [->|Hne]; [rewrite (zget_zset_eq _ _ _ _ Hz) in Hxy; injection Hxy as <-; destruct Hnew as [->|(_ & _ & ? & _)]; done|]. rewrite (zget_zset_ne _ _ _ _ _ Hz) in Hxy by done. by apply Hcls.
    - intros x y Hxy Hle Hyx Hrx. unfold same_type, dtype in *. rewrite Eb'. destruct (decide (x = id)) as [->|Hne].
      + rewrite (zget_zset_eq _ _ _ _ Hz) in Hxy. injection Hxy as <-. destruct Hnew as [|(_ & Hns & _ & Hst')]; [done|]. split; [by apply Hke|done].
      + rewrite (zget_zset_ne _ _ _ _ _ Hz) in Hxy by done. destruct (Hcong x y Hxy Hle Hyx Hrx) as [Hyy Hsm]. split; [by apply Hke|done]. }
  assert (forall x, x <> id -> zget m' x = zget (d_map d) x) as Hother by (intros x Hx; apply (zget_zset_ne _ _ _ _ _ Hz); done).
  destruct (Z.eqb_spec id new) as [<-|Hne].
  - unfold btf_dedup_table_add, hashmap_insert. rewrite decide_True by done. cbn [dedup_table with_map mbind option_bind].
    destruct (insert_new_spec hash_fn btf_dedup_equal_fn (ald [0]) (ald [1]) (dedup_table d) h id Hwf) as (err & tb & -> & Hwf' & Hti' & Hcase). cbn [mbind option_bind].
    pose proof (wf_sz _ _ Hwf) as Hs1. pose proof (wf_sz _ _ Hwf') as Hs2. eexists _, _. split; [done|]. destruct Hcase as [(-> & Hperm & Hno)|[-> Hperm]].
    + left. split; [done|]. destruct Hno as [?|[?|?]]; [by exists [0]|by exists [1]|]. unfold cap_tight in Hti. lia.
    + right. rewrite Hperm in Hs2. cbn [length] in Hs2. split_and!; [done| |done|done|done|done..]. apply Hfin; try done; [by apply Hti'|cbn; lia|].
      intros x (e & He & <-). cbn [dedup_table with_table] in He. rewrite Hperm in He. apply elem_of_cons in He as [->|He]; [by left|right; by exists e].
  - eexists _, _. split; [done|]. right. split_and!; [done| |done|done|done|done..]. apply Hfin; try done; [cbn; lia|by right].
Qed.

(** The id is marked. *)
Lemma ref_mark_spec B d id y : ref_inv B d -> 0 <= id < N -> zget (d_map d) id = Some y -> BTF_MAX_NR_TYPES < y -> y <> BTF_IN_PROGRESS_ID -> exists m',
  set_map d id BTF_IN_PROGRESS_ID = Some (with_map m' d) /\ ref_inv (B - 1) (with_map m' d) /\ zget m' id = Some BTF_IN_PROGRESS_ID /\ keeps (d_map d) m' /\ keeps_progress (d_map d) m' /\ S (opens m') = opens (d_map d).
Proof.
  intros Hi Hid Hy Hgt Hne. pose proof Hi as [[ts [rest [Eb Hrel]]] Hlen Hro Hba Hca Hwf Hti Hsz Hids Hself Hhyp Hcls Hcong].
  destruct (zset_is_Some (d_map d) id BTF_IN_PROGRESS_ID) as [m' Hz]; [rewrite Hlen; lia|]. exists m'. unfold set_map. rewrite Hz. split; [done|].
  assert (keeps (d_map d) m') as Hke. { intros x z Hx Hz'. destruct (decide (x = id)) as [->|]; [simplify_eq; lia|by rewrite (zget_zset_ne _ _ _ _ _ Hz)]. }
  destruct (opens_set _ _ _ _ Hz (or_intror eq_refl)) as (old & Hold & Hop & Hop1). rewrite Hy in Hold. injection Hold as <-. specialize (Hop1 Hgt Hne).
  assert (forall x r, canon (d_map d) x r -> canon m' x r) as Hcm. { intros x r Hr. apply (canon_mono (d_map d)); [done| |done]. pose proof (canon_range _ d x r Hi Hr). apply (id_max c N Hg). lia. }
  split_and!; [|by apply (zget_zset_eq _ _ _ _ Hz)|done| |done].
  - split; cbn [d_btf d_map dedup_table with_map]; try done.
    + exists ts, rest. split; [done|]. eapply Forall2_impl; [exact Hrel|]. intros. by eapply body_rel_mono.
    + by rewrite (zset_length _ _ _ _ Hz).
    + intros x Hx. rewrite (zset_length _ _ _ _ Hz) in Hx. destruct (Hro x Hx) as (k & r & Hr). clear Hx. assert (resolves m' 0 id id) as Hr0 by (apply (res_root m' id BTF_IN_PROGRESS_ID); [by apply (zget_zset_eq _ _ _ _ Hz)|by left; vm_compute]).
      induction Hr as [x w Hw Hor|k x w r Hw Hmx Hnx _ IH]; (destruct (decide (x = id)) as [->|Hxi]; [by exists 0%nat, id|]).
      * exists 0%nat, x. apply (res_root m' x w); [by rewrite (zget_zset_ne _ _ _ _ _ Hz)|done].
      * destruct IH as (k' & r' & Hr'). exists (S k'), r'. apply (res_step m' k' x w r'); [by apply Hke|done..].
    + intros x Hx. destruct (Hba x Hx) as (z & Hz' & ?). exists z. split; [by apply Hke|done].
    + intros x (z & Hx & Hle). destruct (decide (x = id)) as [->|Hxi]; [rewrite (zget_zset_eq _ _ _ _ Hz) in Hx; injection Hx as <-; by vm_compute in Hle|]. rewrite (zget_zset_ne _ _ _ _ _ Hz) in Hx by done.
      destruct (Hca x) as [r Hr]; [by exists z|]. exists r. by apply Hcm.
    + lia.
    + intros x Hx Hf Hd. apply Hke; [by apply Hself|]. destruct Hx as (e & He & <-). apply (id_max c N Hg). apply Hids in He. lia.
    + intros x z Hx Hle. destruct (decide (x = id)) as [->|Hxi]; [rewrite (zget_zset_eq _ _ _ _ Hz) in Hx; injection Hx as <-; by vm_compute in Hle|]. rewrite (zget_zset_ne _ _ _ _ _ Hz) in Hx by done. by apply Hcls.
    + intros x z Hx Hle Hzx Hrx. destruct (decide (x = id)) as [->|Hxi]; [rewrite (zget_zset_eq _ _ _ _ Hz) in Hx; injection Hx as <-; by vm_compute in Hle|]. rewrite (zget_zset_ne _ _ _ _ _ Hz) in Hx by done.
      destruct (Hcong x z Hx Hle Hzx Hrx) as [Hzz Hsm]. split; [by apply Hke|done].
  - intros x Hx. destruct (decide (x = id)) as [->|]; [by apply (zget_zset_eq _ _ _ _ Hz)|by rewrite (zget_zset_ne _ _ _ _ _ Hz)].
Qed.

Lemma s32_id x : 0 <= x < N -> s32 x = x.
Proof. intros Hx. destruct head_facts as (_ & _ & _ & Hm). apply swrap_small; cbn; lia. Qed.

Lemma ref_type_spec : forall fuel B d id, ref_inv B d -> B < 2 ^ 50 -> 0 <= id < N -> (opens (d_map d) < fuel)%nat -> good_ref B d id (btf_dedup_ref_type hash_fn fuel al d id).
Proof.
  destruct head_facts as (_ & Hst & _ & Hmax). induction fuel as [|fuel IH]; intros B d id Hi HB Hid Hf; [lia|]. cbn [btf_dedup_ref_type].
  destruct (zget_is_Some (d_map d) id) as [y Hy]; [rewrite (ri_len _ _ Hi); lia|]. rewrite Hy. cbn [mbind option_bind].
  destruct (Z.eqb_spec y BTF_IN_PROGRESS_ID) as [|Hnp]; [exists (- ELOOP), d; split; [done|]; left; by left|].
  destruct (Z.leb_spec y BTF_MAX_NR_TYPES) as [Hle|Hgt].
  { destruct (ri_canon _ _ Hi id) as [r Hr]; [by exists y|]. pose proof (canon_range B d id r Hi Hr). destruct Hr as [[kk Hres] Hsr]. rewrite (resolve_spec d kk id r Hres). cbn [mbind option_bind]. rewrite s32_id by done.
    exists r, d. split; [done|]. right. split_and!; [lia|done|apply advances_refl..|]. split; [by exists kk|done]. }
  assert (o_start_id o <= id) as Hown. { destruct (decide (o_start_id o <= id)); [done|]. destruct (ri_base _ _ Hi id) as (z & Hz & ?); [lia|]. simplify_eq. lia. }
  destruct (cur_type B d id Hi) as (t0 & t & k & v & n & Ht0 & Ht & Hw0 & Hw & _); [lia|]. rewrite Ht. cbn [mbind option_bind].
  destruct (ref_mark_spec B d id y Hi Hid Hy Hgt Hnp) as (m1 & -> & Hi1 & Hp1 & Hk1 & Hkp1 & Ho1). cbn [mbind option_bind]. rewrite (wh_kind _ _ _ _ Hw), (wh_vlen _ _ _ _ Hw). cbn [mbind option_bind].
  destruct (ref_spec k v) as [[[ws hash] same]|] eqn:Hrs; [|eexists _, _; split; [done|]; left; right; by left]. pose proof (whole_ranges _ _ _ _ Hw) as (_ & Hv0 & Hn0).
  assert (kind_of c id = Some k) as Hki by (unfold kind_of; rewrite Ht0; apply Hw0).
  destruct (ref_words_spec (btf_dedup_ref_type hash_fn fuel al) (B - 1) (opens m1) id t0 k v n) with (ws := ws) (d := with_map m1 d) as (e & d2 & -> & He); try done.
  { intros d' x Hi' Ho' Hx. apply IH; [done|lia|done|lia]. }
  { lia. }
  { apply (ref_spec_words k v n ws hash same); [done|apply Hw|lia|lia]. }
  cbn [mbind option_bind]. destruct He as [He|(-> & Hi2 & Ha2)]; [rewrite (proj2 (Z.ltb_lt e 0)) by (by apply ref_err_neg); exists e, d2; split; [done|by left]|]. cbn [Z.ltb Z.compare].
  destruct (cur_type (B - 1) d2 id Hi2) as (t0' & t2 & k' & v' & n' & Ht0' & Ht2 & Hw0' & Hw2 & _); [lia|]. rewrite Ht0 in Ht0'. injection Ht0' as <-. destruct (info_kind _ _ _ _ _ _ _ _ Hw0 Hw0' eq_refl) as (<- & <- & <-).
  rewrite Ht2. cbn [mbind option_bind]. destruct (ref_spec_total t2 k v n ws hash same Hrs Hw2) as [[h Hh] Hsame]. rewrite Hh. cbn [mbind option_bind].
  unfold candidates. rewrite (key_entries_spec hash_fn btf_dedup_equal_fn _ h HK (ri_wf _ _ Hi2)). cbn [mbind option_bind]. set (l := map value _).
  assert (forall x, x ∈ l -> in_table d2 x /\ 0 < x < N) as Hl. { intros x Hx. unfold l in Hx. apply list_elem_of_In, in_map_iff in Hx as (e & <- & He). apply list_elem_of_In, list_elem_of_filter in He as [_ He]. split; [by exists e|by apply (ri_ids _ _ Hi2)]. }
  destruct (find_cand_spec d2 (same t2) (fun x => exists t', dtype d2 x = Some t' /\ same t2 t' = Some true) l) as (r & -> & Hr).
  { intros x Hx. destruct (Hl x Hx) as [_ Hxr]. destruct (cur_type (B - 1) d2 x Hi2 Hxr) as (_ & t' & k' & v' & n' & _ & Ht' & _ & Hw' & _). exists t'. split; [done|]. destruct (Hsame t' k' v' n' Hw') as (b & Hb & _). exists b. split; [done|]. split.
    - intros ->. by exists t'.
    - intros (t'' & Ht'' & Hb''). simplify_eq. done. }
  cbn [mbind option_bind]. set (new := default id r).
  assert (new = id \/ in_table d2 new /\ zget (d_map d2) new = Some new /\ cls c id = cls c new /\ same_type d2 id new) as Hnew.
  { destruct r as [x|]; [right|by left]. change new with x. destruct Hr as [Hx (t' & Ht' & Hb)]. destruct (Hl x Hx) as [Hin Hxr]. split; [done|].
    destruct (cur_type (B - 1) d2 x Hi2 Hxr) as (tx0 & t'' & k' & v' & n' & Htx0 & Ht'' & Hwx0 & Hw' & _). rewrite Ht' in Ht''. injection Ht'' as <-. destruct (Hsame t' k' v' n' Hw') as (b & Hb' & Hi'). rewrite Hb in Hb'. injection Hb' as <-.
    specialize (Hi' eq_refl). destruct (info_kind t2 t' _ _ _ _ _ _ Hw2 Hw' (Hi' 1 ltac:(lia))) as (<- & <- & <-). pose proof (ref_spec_kind k v ws hash same Hrs) as Hrk. destruct (ref_kinds_not k Hrk) as (Hnf & _ & Hne & _).
    assert (kind_of c x = Some k) as Hkx by (unfold kind_of; rewrite Htx0; apply Hwx0).
    split_and!; [|by rewrite (ref_cls id t0 k v n Ht0 Hw0 Hrk), (ref_cls x tx0 k v n Htx0 Hwx0 Hrk)|by exists t2, t', k, v, n]. apply (ri_self _ _ Hi2); [done| |].
    - unfold is_fwd. congruence.
    - intros (kk & Hkk & He')%declared_is_enum. rewrite Hkx in Hkk. injection Hkk as <-. congruence. }
  destruct (ref_finish B d2 id t2 k v n h new (sub id al)) as (err & d3 & -> & Hcase); try done; [lia|apply Ha2; exact Hp1|]. cbn [mbind option_bind]. eexists _, _. split; [done|].
  destruct Hcase as [[-> Hal]|(-> & Hi3 & Hk3 & Hot3 & Ho3 & Hc3)]; [left; right; right; split; [done|by apply fails_sub in Hal]|]. cbn [Z.eqb negb].
  pose proof (canon_range B d3 id new Hi3 Hc3). rewrite s32_id by done. right. destruct Ha2 as (A1 & A2 & A3). cbn [d_map with_map] in A1, A2, A3. split_and!; [lia|done| |done]. split_and!.
  - by apply (keeps_trans _ m1); [|apply (keeps_trans _ (d_map d2))].
  - intros x Hx. rewrite Hot3; [by apply A2, Hkp1|]. intros ->. rewrite Hy in Hx. by injection Hx as ->.
  - lia.
Qed.

(** ** The pass *)
Lemma opens_length m : (opens m <= length m)%nat.
Proof. apply length_filter. Qed.

Lemma ref_pass nn B : B < 2 ^ 50 -> forall d i, ref_inv B d -> 0 < i -> i + Z.of_nat nn <= N ->
  exists err d', pass nn i (fun id d => btf_dedup_ref_type hash_fn (S (length (d_map d))) al d id) d = Some (err, d') /\
  (ref_err err \/ err = 0 /\ ref_inv B d' /\ keeps (d_map d) (d_map d') /\ forall x, i <= x < i + Z.of_nat nn -> mapped (d_map d') x).
Proof.
  intros HB. induction nn as [|nn IH]; intros d i Hi Hi0 HN; cbn [pass]; [exists 0, d; split; [done|]; right; split_and!; [done|done|apply keeps_refl|lia]|].
  destruct (ref_type_spec (S (length (d_map d))) B d i Hi HB) as (r & d1 & -> & Hr); [lia|pose proof (opens_length (d_map d)); lia|]. cbn [mbind option_bind].
  destruct Hr as [He|(Hr0 & Hi1 & (Ha & _) & Hc)]; [rewrite (proj2 (Z.ltb_lt r 0)) by (by apply ref_err_neg); exists r, d1; split; [done|by left]|]. rewrite (proj2 (Z.ltb_ge r 0)) by done.
  destruct (IH d1 (i + 1) Hi1) as (err & d2 & -> & Hcase); [lia..|]. exists err, d2. split; [done|]. destruct Hcase as [?|(-> & Hi2 & Hk2 & Hm2)]; [by left|right]. split_and!; [done|done|by eapply keeps_trans|].
  intros x Hx. destruct (decide (x = i)) as [->|]; [|apply Hm2; lia]. pose proof (canon_range B d1 i r Hi1 Hc). apply (canon_mapped _ i r); [|apply (id_max c N Hg); lia]. apply (canon_mono (d_map d1)); [done|apply (id_max c N Hg); lia|done].
Qed.

(** The state after structs and forward declarations. *)
Lemma ref_start m0 size d : struct_inv c N hash_fn (o_start_id o) m0 size d N -> ref_inv (size + N) d.
Proof.
  intros [Hs Ht Hself Hdone Hoth Hkeep]. destruct head_facts as (HN & Hst & Hnr & Hmax). pose proof (si_map _ _ _ Hs) as Hm. pose proof (si_hyp _ _ _ Hs) as Hh. pose proof Hbd as [_ [rest0 Bw] _ _].
  assert (forall id k, kind_of c id = Some k -> k <> 0 -> forall x, zget (d_map d) x = Some id -> id <= BTF_MAX_NR_TYPES -> 0 < id < N) as Hpos.
  { intros id k Hk Hk0 x Hx Hle. pose proof (kind_nonzero c N Hg id k Hk Hk0). destruct (decide (id = x)) as [->|Hne]; [apply zget_lt in Hx; rewrite (mi_len _ _ _ Hm) in Hx; lia|].
    pose proof (zget_lt _ _ _ Hx) as Hxr. destruct (mi_rooted _ _ _ Hm x Hxr) as (kk & r & Hr). inversion Hr as [? w Hw Hor|? ? w ? Hw _ _ Hrest]; subst; rewrite Hx in Hw; injection Hw as <-; [destruct Hor; [lia|done]|].
    apply resolves_range in Hrest as [Hrg _]. rewrite (mi_len _ _ _ Hm) in Hrg. lia. }
  assert (forall x y, zget (d_map d) x = Some y -> y <= BTF_MAX_NR_TYPES -> mapped (d_map d) y) as Htar.
  { intros x y Hxy Hle. destruct (mi_target _ _ _ Hm x y Hxy Hle) as [Hc|[He|?]]; [| |done].
    - apply Hdone; [|done]. destruct Hc as (k & Hk & Hkc). apply (Hpos y k Hk ltac:(by intros ->) x Hxy Hle).
    - apply Hoth. right. split; [|done]. destruct He as (k & Hk & Hkc). apply (Hpos y k Hk ltac:(by intros ->) x Hxy Hle). }
  split; [exists ts0, rest0; split| | | | | | | | | | | |].
  - rewrite (hi_btf _ _ _ _ Hh), Ec. unfold cur. rewrite <- Bw. by destruct o.
  - apply Forall_Forall2_diag, Forall_true. intros. apply body_rel_refl.
  - apply (mi_len _ _ _ Hm).
  - apply (mi_rooted _ _ _ Hm).
  - intros id Hid. destruct (decide (id = 0)) as [->|]; [exists 0; split; [apply (mi_zero _ _ _ Hm)|by vm_compute]|]. apply Hoth. left. lia.
  - intros x Hx. destruct Hx as (y & Hy & Hle). pose proof (zget_lt _ _ _ Hy) as Hxr. destruct (mi_rooted _ _ _ Hm x Hxr) as (k & r & Hr). exists r. split; [by exists k|].
    assert (mapped (d_map d) x) as Hx by (by exists y). clear Hxr y Hy Hle. induction Hr as [x w Hw Hor|k x w r Hw Hmx Hnx _ IH]; [|apply IH; by apply (Htar x w)].
    destruct Hx as (z & Hz & Hzl). rewrite Hw in Hz. injection Hz as <-. destruct Hor as [|Hor]; [lia|by rewrite Hor in Hw].
  - apply (tb_wf _ _ _ _ Ht).
  - apply (tb_tight _ _ _ _ Ht).
  - pose proof (tb_size _ _ _ _ Ht). pose proof (opens_length (d_map d)) as Ho. rewrite (mi_len _ _ _ Hm) in Ho. lia.
  - intros e He. by apply (tb_entries _ _ _ _ Ht).
  - done.
  - apply (hi_len _ _ _ _ Hh).
  - apply (mi_cls _ _ _ Hm).
  - intros x y Hxy Hle Hne Hr. by apply (mi_noref _ _ _ Hm x y) in Hr.
Qed.
End Ref.
