(* ===== verification/DedupWhole.v ===== *)
(** * Deduplication: the whole

    [btf_dedup_quotient]: [btf__dedup] of an object whose strings need no deduplication returns,
    and when it succeeds, the new types are the quotient of the old ones by a map of canonical
    types: the canonical types in their old order, with every reference replaced by the new
    number of the canonical type it leads to.  The map is total; it keeps the names and kinds of
    structs, unions and forward declarations; integers and floats lead to equal ones; reference
    types lead to types of the same kind with the same words, up to references that lead to the
    same canonical types. *)
From stdpp Require Import base numbers list gmap sorting.
From S2P Require Import Prelude Hashmap Strset Btf BtfBuild BtfBuildSpec BtfIter BtfCopy BtfDedup DedupPrim DedupEquiv DedupStruct DedupLinks DedupFinish DedupRef.

(** The new number of the canonical type that [x] leads to, and the new types. *)
Definition number (m : list Z) (start x : Z) : Z := from_option (new_id m start) 0 (resolve_loop (S (length m)) m x).
Definition quotient (m : list Z) (start : Z) (ts : list (list Z)) : list (list Z) := rename (number m start) <$> kept m start ts.

Definition number_type (c : chain) (id : Z) : Prop := exists k, kind_of c id = Some k /\ (k = BTF_KIND_INT \/ k = BTF_KIND_FLOAT).

(** Types of the same kind with the same words, up to references to the same canonical type. *)
Definition congruent (c : chain) (m : list Z) (x y : Z) : Prop := exists t t' k v n, btf_type_by_id (view c) x = Some t /\ btf_type_by_id (view c) y = Some t' /\ whole t k v n /\ whole t' k v n /\
  forall j a b, 0 <= j < 3 + n -> word t j = Some a -> word t' j = Some b -> a = b \/ field_word BTF_FIELD_ITER_IDS k j = true /\ exists q, canon m a q /\ canon m b q.

Record canonical_map (c : chain) (N start : Z) (m : list Z) : Prop := {
  cm_total : forall x, 0 <= x < N -> exists r, 0 <= r < N /\ canon m x r;
  cm_names : forall x r, canon m x r -> cls c x = cls c r;
  cm_numbers : forall x r, start <= x < N -> number_type c x -> canon m x r -> plain_eq c x r;
  cm_unique : forall x y, start <= x < N -> number_type c x -> zget m x = Some x -> x <> y -> 0 < y < start \/ start <= y < N /\ zget m y = Some y -> ~ plain_eq c x y;
  cm_refs : forall x r, 0 < x < N -> is_ref c x -> canon m x r -> congruent c m x r
}.

(** ** Bodies and their originals *)
Lemma canon_resolve m x r : canon m x r -> resolve_loop (S (length m)) m x = Some r.
Proof. intros [[k Hr] _]. apply (resolve_loop_spec m k); [done|]. pose proof (resolves_bound _ _ _ _ Hr). lia. Qed.

Lemma canon_refl m r : zget m r = Some r -> canon m r r.
Proof. intros Hr. split; [|done]. exists 0%nat. apply (res_root m r r); [done|by right]. Qed.

Lemma canon_fun m x r r' : canon m x r -> canon m x r' -> r = r'.
Proof. intros [[k H] _] [[k' H'] _]. by destruct (resolves_fun _ _ _ _ H _ _ H') as [_ ->]. Qed.

Lemma rename_rel m start t0 t : body_rel m t0 t -> (exists k v n, whole t0 k v n) -> rename (number m start) t = rename (number m start) t0.
Proof.
  intros Hrel (k & v & n & Hw). pose proof (body_rel_whole _ _ _ _ _ _ Hrel Hw) as Hwt. destruct Hrel as [Hl H]. unfold rename. rewrite (wh_kind _ _ _ _ Hw), (wh_kind _ _ _ _ Hwt).
  apply list_eq. intros i. rewrite !list_lookup_imap. destruct (t0 !! i) as [x|] eqn:Hx; [|apply lookup_ge_None in Hx; by rewrite (lookup_ge_None_2 t i) by lia].
  destruct (H (Z.of_nat i) x) as (y & Hy & Hcase); [by rewrite zget_nat|]. rewrite zget_nat in Hy. rewrite Hy. cbn [fmap option_fmap option_map]. f_equal.
  destruct Hcase as [->|((k' & Hk' & Hf) & Hc & _)]; [done|]. rewrite (wh_kind _ _ _ _ Hw) in Hk'. injection Hk' as <-. rewrite Hf. unfold number. rewrite (canon_resolve m x y Hc). destruct Hc as [_ Hs]. by rewrite (canon_resolve m y y (canon_refl m y Hs)).
Qed.

Lemma kept_rel m start ts0 ts : Forall2 (body_rel m) ts0 ts -> Forall exact ts0 -> quotient m start ts = quotient m start ts0.
Proof.
  intros Hrel Hex. unfold quotient. generalize start at 2 4. induction Hrel as [|t0 t ts0 ts Ht _ IH]; intros s; [done|]. apply Forall_cons in Hex as [(k & v & n & Hw & _) Hex]. cbn [kept].
  destruct (decide _); cbn [fmap list_fmap]; [|by apply IH]. f_equal; [|by apply IH]. apply rename_rel; [done|eauto].
Qed.

Lemma rel_bodies o m ts0 ts rest : bodies o ts0 -> Forall2 (body_rel m) ts0 ts -> bodies (set_types (mjoin ts ++ rest) (types_cap o) o) ts.
Proof.
  intros [Bn _ [more Bo] Be] Hrel. split; cbn [o_nr_types o_types o_offs set_types].
  - by rewrite Bn, (Forall2_length _ _ _ Hrel).
  - by exists rest.
  - exists more. rewrite Bo. f_equal. clear -Hrel. generalize 0. induction Hrel as [|a b l l' [Hab _] _ IH]; intros p; [done|]. cbn [body_offs]. by rewrite Hab, IH.
  - clear -Hrel Be. induction Hrel as [|a b l l' Hab _ IH]; [done|]. apply Forall_cons in Be as [(k & v & n & Hw & Hl) Be]. constructor; [|by apply IH]. exists k, v, n. split; [by eapply body_rel_whole|]. destruct Hab as [-> _]. done.
Qed.

Section Whole.
Context (hash_fn : Z -> Z) {HK : HashKey hash_fn btf_dedup_equal_fn} (c : chain) (N : Z) (o : btf_obj) (base : chain) (ts0 : list (list Z)).
Hypothesis Hg : graph_ok c N.
Hypothesis Ec : c = o :: base.
Hypothesis Hbd : bodies o ts0.

(** ** The map after the pass over reference types *)
Section Final.
Context (B : Z) (d d0 : btf_dedup).
Hypothesis Hi : ref_inv hash_fn c N o base ts0 B d.
Hypothesis Hall : forall x, o_start_id o <= x < N -> mapped (d_map d) x.
Hypothesis Hpu : prims_unique c N (o_start_id o) d0.
Hypothesis Hl0 : length (d_map d0) = Z.to_nat N.
Hypothesis Hkeep : forall id, ~ is_fwd c id -> mapped (d_map d0) id -> zget (d_map d) id = zget (d_map d0) id.

Lemma final_total x : 0 <= x < N -> exists r, 0 <= r < N /\ canon (d_map d) x r.
Proof.
  intros Hx. destruct (ri_canon _ _ _ _ _ _ _ _ Hi x) as [r Hr]; [destruct (decide (x < o_start_id o)); [apply (ri_base _ _ _ _ _ _ _ _ Hi); lia|apply Hall; lia]|].
  exists r. split; [|done]. exact (canon_range _ _ _ _ _ _ _ _ _ _ Hi Hr).
Qed.

Lemma final_names x r : canon (d_map d) x r -> cls c x = cls c r.
Proof. intros [[k Hr] _]. induction Hr as [|k x v r Hv Hle _ _ IH]; [done|]. by rewrite (ri_cls _ _ _ _ _ _ _ _ Hi x v Hv Hle). Qed.

Lemma number_plain x : 0 < x < N -> number_type c x -> plain c x /\ plain_eq c x x.
Proof.
  intros Hx (k & Hk & Hnum). destruct (to_types _ _ (gr_types _ _ Hg) x Hx) as (t & k' & v & n & Ht & Hw). assert (k' = k) as -> by (unfold kind_of in Hk; rewrite Ht in Hk; cbn [mbind option_bind] in Hk; rewrite (wh_kind _ _ _ _ Hw) in Hk; congruence).
  assert (plain_kind k = true) as Hp by (unfold plain_kind; destruct Hnum as [-> | ->]; done). split; [by exists t, k, v, n|]. exists t, k, v, n, t, k, v, n. split_and!; auto using same_words_refl.
Qed.

(** What is equal to a number is a number. *)
Lemma number_eq x y : number_type c x -> plain_eq c x y -> number_type c y /\ ~ is_fwd c y.
Proof.
  intros (k & Hk & Hnum) (t & k1 & v1 & n1 & t2 & k2 & v2 & n2 & E1 & W1 & E2 & W2 & _ & Hs). unfold kind_of in Hk. rewrite E1 in Hk. cbn [mbind option_bind] in Hk. rewrite (wh_kind _ _ _ _ W1) in Hk. injection Hk as ->.
  destruct (info_kind t t2 _ _ _ _ _ _ W1 W2) as (<- & _ & _); [apply Hs; unfold plain_words; destruct (_ =? _); in_list|].
  assert (kind_of c y = Some k) as Hky by (unfold kind_of; rewrite E2; cbn [mbind option_bind]; apply (wh_kind _ _ _ _ W2)). split; [by exists k|]. unfold is_fwd. rewrite Hky. intros [= ->]. by destruct Hnum.
Qed.

(** The map of numbers is that after their pass. *)
Lemma number_map x : o_start_id o <= x < N -> number_type c x -> exists r, zget (d_map d) x = Some r /\ zget (d_map d) r = Some r /\ zget (d_map d0) x = Some r /\ plain_eq c x r /\ r <= BTF_MAX_NR_TYPES.
Proof.
  intros Hx Hn. destruct (head_facts c N o base Hg Ec) as (_ & Hst & _ & _). destruct (number_plain x) as [Hp Hxx]; [lia|done|]. destruct (pu_canon _ _ _ _ Hpu x Hx Hp) as (r & Hxr & Heq & Hrr).
  assert (r <= BTF_MAX_NR_TYPES) as Hle by (apply (id_max c N Hg); apply zget_lt in Hrr; rewrite Hl0 in Hrr; lia). exists r. split_and!; try done; (rewrite Hkeep; [done| |by exists r]).
  - by apply (number_eq x x).
  - by apply (number_eq x r).
Qed.

Lemma final_numbers x r : o_start_id o <= x < N -> number_type c x -> canon (d_map d) x r -> plain_eq c x r.
Proof.
  intros Hx Hn Hc. destruct (number_map x Hx Hn) as (r0 & Hx1 & Hr1 & _ & Heq & Hle).
  assert (canon (d_map d) x r0) as Hc0. { destruct (decide (r0 = x)) as [->|Hne]; [by apply canon_refl|]. split; [|done]. exists 1%nat. apply (res_step _ 0 x r0 r0); [done|done|done|]. apply (res_root _ r0 r0); [done|by right]. }
  by rewrite (canon_fun _ _ _ _ Hc Hc0).
Qed.

Lemma final_unique x y : o_start_id o <= x < N -> number_type c x -> zget (d_map d) x = Some x -> x <> y -> 0 < y < o_start_id o \/ o_start_id o <= y < N /\ zget (d_map d) y = Some y -> ~ plain_eq c x y.
Proof.
  intros Hx Hn Hxx Hne Hy Heq. destruct (number_map x Hx Hn) as (r & Hr & _ & Hr0 & _). assert (r = x) as -> by congruence. destruct (head_facts c N o base Hg Ec) as (_ & Hst & _ & _).
  destruct (number_eq x y Hn Heq) as [Hny _]. destruct (number_plain x) as [Hp _]; [lia|done|]. apply (pu_uniq _ _ _ _ Hpu x y Hx Hp Hr0 Hne); [|done]. destruct Hy as [?|[Hyr Hyy]]; [by left|right]. split; [done|].
  destruct (number_map y Hyr Hny) as (r & Hyr1 & _ & Hyr0 & _). congruence.
Qed.

Lemma final_refs x r : 0 < x < N -> is_ref c x -> canon (d_map d) x r -> congruent c (d_map d) x r.
Proof.
  intros Hx Hrx Hc. destruct (decide (x = r)) as [<-|Hne].
  { destruct (to_types _ _ (gr_types _ _ Hg) x) as (t & k & v & n & Ht & Hw); [lia|]. exists t, t, k, v, n. split_and!; [done..|]. intros j a b _ Ha Hb. left. congruence. }
  pose proof Hc as [[k Hr] Hroot]. destruct Hr as [? ? ? ?|k x y r Hy Hle Hyx Hr]; [done|]. destruct (ri_cong _ _ _ _ _ _ _ _ Hi x y Hy Hle Hyx Hrx) as [Hyy (t & t' & k1 & v1 & n1 & Et & Et' & W & W' & Hws)].
  assert (y = r) as -> by (destruct (resolves_fun _ _ _ _ Hr _ _ (res_root _ y y Hyy (or_intror eq_refl))) as [_ ->]; done).
  destruct (canon_range _ _ _ _ _ _ _ _ _ _ Hi Hc) as [Hr0 HrN].
  destruct (cur_type hash_fn c N o base ts0 Hg Ec Hbd B d x Hi Hx) as (a0 & a1 & k2 & v2 & n2 & A0 & A1 & WA0 & WA1 & HA). rewrite Et in A1. injection A1 as <-. destruct (info_kind _ _ _ _ _ _ _ _ W WA1 eq_refl) as (<- & <- & <-).
  assert (0 < r) as Hrp.
  { destruct (decide (r = 0)) as [->|]; [exfalso|lia]. destruct Hrx as (kx & Hkx & Href). unfold kind_of in Hkx. rewrite A0 in Hkx. cbn [mbind option_bind] in Hkx. rewrite (wh_kind _ _ _ _ WA0) in Hkx. injection Hkx as <-.
    destruct (ri_btf _ _ _ _ _ _ _ _ Hi) as (ts & rest & Eb & _). unfold dtype in Et'. rewrite Eb in Et'. cbn in Et'. injection Et' as <-. pose proof (wh_kind _ _ _ _ W') as Hk0. injection Hk0 as <-. done. }
  destruct (cur_type hash_fn c N o base ts0 Hg Ec Hbd B d r Hi) as (b0 & b1 & k3 & v3 & n3 & B0 & B1 & WB0 & WB1 & HB); [lia|]. rewrite Et' in B1. injection B1 as <-. destruct (info_kind _ _ _ _ _ _ _ _ W' WB1 eq_refl) as (<- & <- & <-).
  exists a0, b0, k1, v1, n1. split_and!; [done..|]. intros j a b Hj Ha Hb. destruct (HA j a Hj Ha) as (a' & Ha' & Ca). destruct (HB j b Hj Hb) as (b' & Hb' & Cb). rewrite (Hws j Hj), Hb' in Ha'. injection Ha' as ->.
  destruct Ca as [->|[Hf Ca]], Cb as [->|[Hf' Cb]]; [by left|right|right|right]; (split; [done|]).
  - exists a. split; [|done]. apply canon_refl, (proj2 Cb).
  - exists b. split; [done|]. apply canon_refl, (proj2 Ca).
  - by exists a'.
Qed.

Lemma final_map : canonical_map c N (o_start_id o) (d_map d).
Proof. split; eauto using final_total, final_names, final_numbers, final_unique, final_refs. Qed.

(** ** The last two passes *)
Lemma kept_incl m start ts t : t ∈ kept m start ts -> t ∈ ts.
Proof. revert start. induction ts as [|u ts IH]; intros s; cbn [kept]; [done|]. destruct (decide _); rewrite ?elem_of_cons; naive_solver. Qed.

Lemma own_refs ts rest t : d_btf d = cur o base ts rest -> Forall2 (body_rel (d_map d)) ts0 ts -> t ∈ ts -> refs_canonical (with_table hashmap__init d) (o_start_id o) N t.
Proof.
  intros Eb Hrel Hin k j x Hk Hf Hx. destruct (head_facts c N o base Hg Ec) as (HN & Hst & Hnr & _). apply list_elem_of_lookup in Hin as [i Hi']. pose proof Hbd as [Bn _ _ _]. pose proof (Forall2_length _ _ _ Hrel) as Hlen. apply lookup_lt_Some in Hi' as Hlt.
  destruct (body_at c N o base ts0 Hg Ec Hbd (d_map d) (o_start_id o + Z.of_nat i) ts rest Hrel) as (p0 & b0 & s0 & p & b & s & E0 & E1 & Hl & _ & Hb & _ & _ & Ht0 & _ & (k0 & v0 & n0 & Hw0 & Hlx)); [lia|].
  assert (b = t) as -> by (rewrite E1, list_lookup_middle in Hi' by lia; congruence).
  pose proof (body_rel_whole _ _ _ _ _ _ Hb Hw0) as Hwt. rewrite (wh_kind _ _ _ _ Hwt) in Hk. injection Hk as <-. pose proof (zget_lt _ _ _ Hx) as Hj. destruct Hb as [Hlb Hb].
  assert (exists r, canon (d_map d) x r) as [r Hr].
  { destruct (zget_is_Some b0 j) as [x0 Hx0]; [lia|]. destruct (Hb j x0 Hx0) as (y & Hy & [->|(_ & [_ Hc] & _)]); rewrite Hx in Hy; injection Hy as ->; [|exists y; by apply canon_refl].
    destruct (final_total x0) as (r & _ & Hr); [|by exists r]. apply (gr_refs _ _ Hg (o_start_id o + Z.of_nat i) _ k0 v0 n0 j x0 ltac:(lia) Ht0); [by apply exact_prefix|lia|done|]. unfold word. by rewrite zget_app_l by lia. }
  exists r. split_and!; [by apply canon_resolve|..|right; apply (proj2 Hr)]; apply (canon_range _ _ _ _ _ _ _ _ _ _ Hi Hr).
Qed.

Lemma final_finish al : exists err d', and_then (btf_dedup_compact_types al (with_table hashmap__init d)) btf_dedup_remap_types = Some (err, d') /\ (err = - ENOMEM /\ alloc_fails al \/
  err = 0 /\ exists o', d_btf d' = o' :: base /\ bodies o' (quotient (d_map d) (o_start_id o) ts0) /\ o_start_id o' = o_start_id o /\ o_strs o' = o_strs o).
Proof.
  destruct (head_facts c N o base Hg Ec) as (HN & Hst & Hnr & Hmax). destruct (ri_btf _ _ _ _ _ _ _ _ Hi) as (ts & rest & Eb & Hrel). pose proof (bd_exact _ _ Hbd) as Hex.
  destruct (dedup_finish al (with_table hashmap__init d) (set_types (mjoin ts ++ rest) (types_cap o) o) base ts) as (err & d' & Hrun & Hcase); [done|by apply (rel_bodies o (d_map d) ts0)|done|cbn [o_start_id o_nr_types set_types]; lia|..].
  - cbn [hypot_map with_table o_start_id o_nr_types set_types]. rewrite (ri_hyp _ _ _ _ _ _ _ _ Hi). lia.
  - cbn [d_map with_table o_start_id o_nr_types set_types]. rewrite (ri_len _ _ _ _ _ _ _ _ Hi). lia.
  - apply Forall_forall. intros t Ht%kept_incl. cbn [o_start_id o_nr_types set_types]. rewrite <- HN. by apply (own_refs ts rest).
  - exists err, d'. split; [done|]. destruct Hcase as [H|[-> (o' & Ho' & Hb' & Hs & _ & Hstr)]]; [by left|right]. split; [done|]. exists o'. split_and!; [done| |done|done].
    rewrite <- (kept_rel _ _ _ _ Hrel Hex). exact Hb'.
Qed.
End Final.

(** ** The passes after the one over structs *)
Definition dedup_outcome (al : oracle) (err : Z) (c' : chain) : Prop :=
  err = 0 /\ (exists m o', c' = o' :: base /\ canonical_map c N (o_start_id o) m /\ bodies o' (quotient m (o_start_id o) ts0) /\ o_start_id o' = o_start_id o /\ o_strs o' = o_strs o) \/
  err = - ELOOP \/ err = - EINVAL \/ err = - ENOMEM /\ alloc_fails al.

Lemma refs_and_finish al al' size d d0 : size + N < 2 ^ 50 -> prims_unique c N (o_start_id o) d0 -> length (d_map d0) = Z.to_nat N -> struct_inv c N hash_fn (o_start_id o) (d_map d0) size d N ->
  exists err d', and_then (btf_dedup_ref_types hash_fn al d) (fun d => and_then (btf_dedup_compact_types al' d) btf_dedup_remap_types) = Some (err, d') /\ (dedup_outcome al err (d_btf d') \/ dedup_outcome al' err (d_btf d')).
Proof.
  intros Hsz Hpu Hl0 Hs. destruct (head_facts c N o base Hg Ec) as (HN & Hst & Hnr & Hmax). pose proof (ref_start hash_fn c N o base ts0 Hg Ec Hbd (d_map d0) size d Hs) as Hi.
  destruct (ref_pass hash_fn c N o base ts0 al Hg Ec Hbd (Z.to_nat (o_nr_types o)) (size + N) Hsz d (o_start_id o) Hi) as (err & d1 & Hrun & Hcase); [lia..|].
  unfold btf_dedup_ref_types, own_types. pose proof (hi_btf _ _ _ _ (si_hyp _ _ _ (ss_state _ _ _ _ _ _ _ _ Hs))) as ->. replace (head c) with (Some o) by (by rewrite Ec). cbn [mbind option_bind]. rewrite Hrun. cbn [mbind option_bind].
  destruct Hcase as [Herr|(-> & Hi1 & Hk & Hm)].
  { pose proof (ref_err_neg al err Herr) as Hneg. destruct (Z.ltb_spec err 0); [|lia]. unfold and_then at 1. cbn [mbind option_bind]. destruct (Z.ltb_spec err 0); [|lia]. exists err, d1. split; [done|]. left. right. exact Herr. }
  change (0 <? 0) with false. cbv iota. unfold and_then at 1. cbn [mbind option_bind]. change (0 <? 0) with false. cbv iota.
  assert (forall x, o_start_id o <= x < N -> mapped (d_map d1) x) as Hall by (intros x Hx; apply Hm; lia).
  assert (forall id, ~ is_fwd c id -> mapped (d_map d0) id -> zget (d_map d1) id = zget (d_map d0) id) as Hkeep.
  { intros id Hf Hid. pose proof (ss_keep _ _ _ _ _ _ _ _ Hs id Hf Hid) as E. destruct Hid as (y & Hy & Hle). rewrite Hy in E. rewrite Hy. by apply Hk. }
  destruct (final_finish (size + N) d1 d0 Hi1 Hall Hpu Hl0 Hkeep al') as (err & d' & Hfin & Hend). exists err, d'. split; [done|]. right. destruct Hend as [[-> Hal]|(-> & o' & Ho' & Hb' & Hs' & Hstr)]; [right; right; right; done|left]. split; [done|].
  exists (d_map d1), o'. split_and!; try done. by apply (final_map (size + N) d1 d0).
Qed.

Lemma after_structs al d d0 : prims_unique c N (o_start_id o) d0 -> length (d_map d0) = Z.to_nat N -> struct_inv c N hash_fn (o_start_id o) (d_map d0) (N - 1 + o_nr_types o) d N ->
  exists err d', and_then (btf_dedup_resolve_fwds (sub 2 al) d) (fun d => and_then (btf_dedup_ref_types hash_fn (sub 3 al) d) (fun d => and_then (btf_dedup_compact_types (sub 4 al) d) btf_dedup_remap_types)) = Some (err, d') /\ dedup_outcome al err (d_btf d').
Proof.
  intros Hpu Hl0 Hs. destruct (head_facts c N o base Hg Ec) as (HN & Hst & Hnr & Hmax).
  destruct (resolve_fwds_spec hash_fn c N (o_start_id o) (d_map d0) Hg (sub 2 al) _ d o base Ec Hs) as (err & d1 & Hrun & [[-> Hs1]|[-> Hal]]); rewrite Hrun; unfold and_then at 1; cbn [mbind option_bind].
  - change (0 <? 0) with false. cbv iota. destruct (refs_and_finish (sub 3 al) (sub 4 al) (N - 1 + o_nr_types o) d1 d0 ltac:(lia) Hpu Hl0 Hs1) as (err & d' & -> & Hout). exists err, d'. split; [done|].
    destruct Hout as [H|H]; (destruct H as [H|[H|[H|[H Hal]]]]; [by left|by right; left|by right; right; left|right; right; right; split; [done|by apply fails_sub in Hal]]).
  - change (- ENOMEM <? 0) with true. exists (- ENOMEM), d1. split; [done|]. right. right. right. split; [done|by apply fails_sub in Hal].
Qed.

(** The answers of the allocator to the first three passes. *)
Definition structs_oracle (al : oracle) : oracle := fun p =>
  match p with
  | 0 :: p => al (0 :: p)
  | 1 :: p => al (2 :: p)
  | 2 :: p => al (4 :: 0 :: p)
  | 3 :: p => al (4 :: 1 :: p)
  | _ => true
  end.

Lemma structs_oracle_fails al : alloc_fails (structs_oracle al) -> alloc_fails al.
Proof.
  intros [p Hp]. destruct p as [|[|[[p|p|]|[p|p|]|]|] q]; try done; by eexists.
Qed.

Lemma with_own_btf d : with_btf (d_btf d) d = d.
Proof. by destruct d. Qed.

(** [dedup_structs] is the part of [btf__dedup] up to the pass over structs. *)
Lemma dedup_run al s err dd : o_strs o = StrsSet s -> dedup_structs hash_fn c (structs_oracle al) = Some (err, dd) -> err <= 0 ->
  btf__dedup hash_fn al true c = match dd with
    | Some d => '(err, d) ← and_then (Some (err, d)) (fun d => and_then (btf_dedup_resolve_fwds (sub 2 (sub 4 al)) d) (fun d => and_then (btf_dedup_ref_types hash_fn (sub 3 (sub 4 al)) d) (fun d => and_then (btf_dedup_compact_types (sub 4 (sub 4 al)) d) btf_dedup_remap_types))); Some (err, d_btf d)
    | None => Some (- EINVAL, c)
    end.
Proof.
  intros Hs Hrun Hle. unfold dedup_structs, dedup_prims in Hrun. change (sub 0 (structs_oracle al)) with (sub 0 al) in Hrun. change (sub 1 (structs_oracle al)) with (sub 2 al) in Hrun.
  change (sub 2 (structs_oracle al)) with (sub 0 (sub 4 al)) in Hrun. change (sub 3 (structs_oracle al)) with (sub 1 (sub 4 al)) in Hrun. unfold btf__dedup.
  destruct (dedup_new_spec c N (gr_types _ _ Hg) (sub 0 al)) as (r & Hnew & Hr). rewrite Hnew in Hrun |- *. cbn [mbind option_bind] in Hrun |- *. destruct r as [e|dn]; cbn [mbind option_bind] in Hrun; [by injection Hrun as <- <-|].
  assert (head c = Some o) as Hh by (by rewrite Ec). rewrite Hh. cbn [mbind option_bind]. unfold btf_ensure_modifiable, deduped_after. rewrite Hs, Hh. cbn [mbind option_bind]. change (negb (0 =? 0)) with false. cbv iota. change (true || false) with true.
  replace (with_btf (o :: tail c) dn) with dn by (rewrite Ec; cbn [tail]; rewrite <- Ec, <- (fs_btf _ _ _ Hr); symmetry; apply with_own_btf).
  destruct (btf_dedup_prep hash_fn (sub 2 al) dn) as [[e1 d1]|]; [|done]. cbn [mbind option_bind] in Hrun |- *.
  assert (forall e, e <= 0 -> negb (e =? 0) = (e <? 0)) as Hneg by (intros e He; destruct (Z.eqb_spec e 0), (Z.ltb_spec e 0); done || lia).
  destruct (negb (e1 =? 0)) eqn:E1; cbn [mbind option_bind] in Hrun.
  { rewrite E1 in Hrun. injection Hrun as <- <-. unfold and_then. cbn [mbind option_bind]. by rewrite <- Hneg, E1 by done. }
  cbn [orb]. change (btf_dedup_strings (sub 3 al) true (d_btf d1)) with (Some (0, d_btf d1)). cbn [mbind option_bind] in Hrun |- *. change (0 <? 0) with false. cbv iota. rewrite with_own_btf. unfold dedup_passes.
  destruct (btf_dedup_prim_types hash_fn (sub 0 (sub 4 al)) d1) as [[e2 d2]|]; [|done]. cbn [mbind option_bind] in Hrun |- *. unfold and_then at 1. cbn [mbind option_bind].
  destruct (negb (e2 =? 0)) eqn:E2. { injection Hrun as <- <-. rewrite <- Hneg, E2 by done. unfold and_then. cbn [mbind option_bind]. by rewrite <- Hneg, E2 by done. }
  assert (e2 = 0) as -> by (destruct (Z.eqb_spec e2 0); done). change (0 <? 0) with false. cbv iota. destruct (btf_dedup_struct_types hash_fn (sub 1 (sub 4 al)) d2) as [[e3 d3]|]; [|done]. cbn [mbind option_bind] in Hrun. by injection Hrun as <- <-.
Qed.

(** C6. For a sound graph of types whose strings are already unique, deduplication always
    returns.  When it succeeds, the own types of the object have become the quotient of the old
    ones by a canonical map: the types that are their own representative, in their old order,
    with every reference replaced by the new number of its representative.  The map is total; it
    keeps names and kinds of structs, unions and forward declarations; integers and floats are
    represented by equal ones, and no two representatives of them are equal; pointers, modifiers, arrays and prototypes are represented by
    types with the same words, up to references with the same representative.  The other results
    are the failure of an allocation, a cycle of reference types and a kind no pass handles. *)
Theorem btf_dedup_quotient al s : o_strs o = StrsSet s -> exists err c', btf__dedup hash_fn al true c = Some (err, c') /\ dedup_outcome al err c'.
Proof.
  intros Hs. destruct (structs_spec hash_fn (structs_oracle al) c N o base Hg Ec) as (err & dd & Hrun & Hcase).
  rewrite (dedup_run al s err dd Hs Hrun); [|destruct Hcase as [[-> _]|[-> |[-> _]]]; done]. destruct Hcase as [(-> & d0 & d & -> & Hpu & Hl0 & Hsi)|Herr].
  - unfold and_then at 1. cbn [mbind option_bind]. change (0 <? 0) with false. cbv iota. destruct (after_structs (sub 4 al) d d0 Hpu Hl0 Hsi) as (err & d' & -> & Hout). cbn [mbind option_bind]. exists err, (d_btf d'). split; [done|].
    destruct Hout as [H|[H|[H|[H Hal]]]]; [by left|by right; left|by right; right; left|]. right. right. right. split; [done|by apply fails_sub in Hal].
  - assert (err < 0) as Hneg by (destruct Herr as [-> |[-> _]]; done). destruct dd as [d|]; [|exists (- EINVAL), c; split; [done|by right; right; left]]. unfold and_then at 1. cbn [mbind option_bind]. rewrite (proj2 (Z.ltb_lt _ _) Hneg). cbv iota. cbn [mbind option_bind].
    exists err, (d_btf d). split; [done|]. right. right. destruct Herr as [->|[-> Hal]]; [by left|]. right. split; [done|by apply structs_oracle_fails].
Qed.
End Whole.

(** ** The sample object *)
Lemma graph_strs ss o base N : graph_ok (o :: base) N -> graph_ok (set_strs ss o :: base) N.
Proof.
  intros [[A (o1 & base1 & [= <- <-] & B) C D] R K]. split; [split; [exact A| |exact C|exact D]|exact R|exact K]. exists (set_strs ss o), base. by split.
Qed.

(** The strings of the sample in a set. *)
Definition sample_strs : strset :=
  match strset__new (true, true, true) (fun _ => (true, true)) BTF_MAX_STR_OFFSET (Some [0; 105; 110; 116; 0; 102; 111; 111; 0; 97; 0; 110; 0]) with
  | Some (inr s) => s
  | _ => Strset [] 0 0 0 hashmap__init
  end.
Definition unique_sample : btf_obj := set_strs (StrsSet sample_strs) dedup_sample.
Definition sample_bodies : list (list Z) :=
  [[1; btf_type_info BTF_KIND_INT 0 false; 4; 32];
   [5; btf_type_info BTF_KIND_STRUCT 2 false; 16; 9; 1; 0; 11; 3; 64];
   [0; btf_type_info BTF_KIND_PTR 0 false; 2];
   [1; btf_type_info BTF_KIND_INT 0 false; 4; 32];
   [5; btf_type_info BTF_KIND_STRUCT 2 false; 16; 9; 4; 0; 11; 6; 64];
   [0; btf_type_info BTF_KIND_PTR 0 false; 5];
   [5; btf_type_info BTF_KIND_FWD 0 false; 0];
   [0; btf_type_info BTF_KIND_PTR 0 false; 7]].

Lemma unique_bodies : bodies unique_sample sample_bodies.
Proof.
  split; [done|by exists []|by exists []|]. unfold sample_bodies. repeat apply Forall_cons_2; [..|done].
  all: first [by exists BTF_KIND_INT, 0, 1|by exists BTF_KIND_STRUCT, 2, 6|by exists BTF_KIND_PTR, 0, 0|by exists BTF_KIND_FWD, 0, 0].
Qed.

(** Of the eight types of the sample three are left: the integer, the structure and the pointer to it. *)
Lemma btf_dedup_quotient_witness : graph_ok [unique_sample] 9 /\ bodies unique_sample sample_bodies /\
  (r ← btf__dedup btf_dedup_identity_hash_fn (fun _ => true) true [unique_sample]; o ← head (snd r); Some (fst r, take (Z.to_nat (h_type_len o / 4)) (o_types o))) =
    Some (0, [1; btf_type_info BTF_KIND_INT 0 false; 4; 32] ++ [5; btf_type_info BTF_KIND_STRUCT 2 false; 16; 9; 1; 0; 11; 3; 64] ++ [0; btf_type_info BTF_KIND_PTR 0 false; 2]) /\
  exists err c', btf__dedup btf_dedup_identity_hash_fn (fun _ => true) true [unique_sample] = Some (err, c') /\ dedup_outcome [unique_sample] 9 unique_sample [] sample_bodies (fun _ => true) err c'.
Proof.
  split; [apply graph_strs, sample_graph|]. split; [apply unique_bodies|]. split; [vm_compute; reflexivity|].
  apply (btf_dedup_quotient btf_dedup_identity_hash_fn [unique_sample] 9 unique_sample [] sample_bodies) with (s := sample_strs); [apply graph_strs, sample_graph|reflexivity|apply unique_bodies|reflexivity].
Defined.
