(* ===== verification/BtfReloc.v ===== *)
(** * Relocation of split BTF to another base

    src/libbpf/src/btf_relocate.c.  A module's BTF is split over a distilled base: the names and
    sizes of the base types it refers to.  [btf_relocate] finds these types in the base the kernel
    has, and rewrites the references and names of the split object accordingly.

    The object is a [chain] whose tail is the distilled base.  The record [btf_relocate_r] is the
    state of the relocation; [r_btf] has the object as it is rewritten.  A name is [None] when it is
    NULL; comparing it is an error of the run.  [qsort] is a merge sort: the order of entries that
    compare as equal is not specified by C, and the theorems do not depend on it. *)
From stdpp Require Import base numbers list gmap sorting.
From S2P Require Import Prelude Strset Btf BtfBuild BtfBuildSpec BtfIter BtfCopy.

Record btf_relocate_r := Reloc {
  r_btf : chain;
  r_base : chain;
  nr_base_types : Z;
  nr_split_types : Z;
  nr_dist_base_types : Z;
  dist_str_len : Z;
  base_str_len : Z;
  id_map : list Z;
  str_map : list Z
}.
Definition with_id_map (m : list Z) (r : btf_relocate_r) : btf_relocate_r :=
  Reloc (r_btf r) (r_base r) (nr_base_types r) (nr_split_types r) (nr_dist_base_types r) (dist_str_len r) (base_str_len r) m (str_map r).
Definition with_str_map (m : list Z) (r : btf_relocate_r) : btf_relocate_r :=
  Reloc (r_btf r) (r_base r) (nr_base_types r) (nr_split_types r) (nr_dist_base_types r) (dist_str_len r) (base_str_len r) (id_map r) m.
Definition with_r_btf (c : chain) (r : btf_relocate_r) : btf_relocate_r :=
  Reloc c (r_base r) (nr_base_types r) (nr_split_types r) (nr_dist_base_types r) (dist_str_len r) (base_str_len r) (id_map r) (str_map r).

Definition dist_base_btf (r : btf_relocate_r) : btf := view (tail (r_btf r)).

Definition BTF_IS_EMBEDDED := 2 ^ 32 - 1.

(** [size] has 31 bits. *)
Record btf_name_info := NameInfo { ni_name : option (list Z); needs_size : bool; ni_size : Z; ni_id : Z }.

(** ** Names *)

(** The difference of the first bytes that differ; the byte after the last is 0. *)
Fixpoint strcmp (a b : list Z) : Z :=
  match a, b with
  | [], [] => 0
  | [], y :: _ => - y
  | x :: _, [] => x
  | x :: a, y :: b => if x =? y then strcmp a b else x - y
  end.

Definition cmp_btf_name_size (n1 n2 : btf_name_info) : option Z :=
  s1 ← ni_name n1; s2 ← ni_name n2;
  let name_diff := strcmp s1 s2 in
  Some (if (name_diff =? 0) && needs_size n1 && needs_size n2 then ni_size n2 - ni_size n1 else name_diff).

(** The order of [qsort]. *)
Definition info_le (n1 n2 : btf_name_info) : Prop := from_option (fun d => d <= 0) True (cmp_btf_name_size n1 n2).
#[export] Instance info_le_dec n1 n2 : Decision (info_le n1 n2).
Proof. unfold info_le. destruct (cmp_btf_name_size n1 n2); cbn; apply _. Defined.

(** The index of the leftmost match; [ret] is the last one that was found. *)
Fixpoint search_loop (fuel : nat) (key : btf_name_info) (vals : list btf_name_info) (low high : Z) (ret : option Z) : option (option Z) :=
  match fuel with
  | O => None
  | S fuel =>
    if low <=? high then
      let mid := (low + high) / 2 in
      val ← zget vals mid;
      diff ← cmp_btf_name_size key val;
      let ret := if diff =? 0 then Some mid else ret in
      if diff <=? 0 then search_loop fuel key vals low (mid - 1) ret else search_loop fuel key vals (mid + 1) high ret
    else Some ret
  end.
Definition search_btf_name_size (key : btf_name_info) (vals : list btf_name_info) (nelems : Z) : option (option Z) :=
  search_loop (S (Z.to_nat nelems)) key vals 0 (nelems - 1) None.

(** ** Embedded structs *)

(** From a member through modifiers, typedefs and arrays; every type is visited at most once when
    these do not form a cycle. *)
Fixpoint embed_loop (fuel : nat) (b : btf) (nr_dist : Z) (next_id : Z) (m : list Z) : option (list Z) :=
  match fuel with
  | O => None
  | S fuel =>
    if next_id =? 0 then Some m
    else
      t ← btf_type_by_id b next_id;
      k ← btf_kind t;
      if (k =? BTF_KIND_CONST) || (k =? BTF_KIND_RESTRICT) || (k =? BTF_KIND_VOLATILE) || (k =? BTF_KIND_TYPEDEF) || (k =? BTF_KIND_TYPE_TAG)
      then id ← type t; embed_loop fuel b nr_dist id m
      else if k =? BTF_KIND_ARRAY then a ← array_of t; embed_loop fuel b nr_dist (arr_type a) m
      else if kind_is_composite k then
        if next_id <? nr_dist then zset m next_id BTF_IS_EMBEDDED else Some m
      else Some m
  end.

Definition btf_mark_embedded_composite_type_ids (r : btf_relocate_r) (i : Z) : option (Z * btf_relocate_r) :=
  t ← btf_type_by_id (view (r_btf r)) i;
  k ← btf_kind t;
  if negb (kind_is_composite k) then Some (0, r)
  else
    '(err, it) ← btf_field_iter_init t BTF_FIELD_ITER_IDS;
    if negb (err =? 0) then Some (err, r)
    else
      '(err, m) ← field_loop (fun off m =>
          id ← word t (off / 4);
          m ← embed_loop (S (Z.to_nat (nr_dist_base_types r + nr_split_types r))) (view (r_btf r)) (nr_dist_base_types r) id m;
          Some (0, m)) (S (length t)) it (id_map r);
      Some (err, with_id_map m r).

(** [for (...; i++) { err = f(r, i); if (err) return err; }]. *)
Fixpoint reloc_each (n : nat) (i : Z) (f : btf_relocate_r -> Z -> option (Z * btf_relocate_r)) (r : btf_relocate_r) : option (Z * btf_relocate_r) :=
  match n with
  | O => Some (0, r)
  | S n => '(err, r) ← f r i; if negb (err =? 0) then Some (err, r) else reloc_each n (i + 1) f r
  end.

(** ** The types of the distilled base in the new base *)
Definition dist_info (r : btf_relocate_r) (id : Z) : option btf_name_info :=
  t ← btf_type_by_id (dist_base_btf r) id;
  no ← name_off t;
  name ← btf__name_by_offset (dist_base_btf r) no;
  size ← type t;
  Some (NameInfo name true (wrap 31 size) id).

(** [qsort] compares when there are at least two entries. *)
Definition sort_infos (infos : list btf_name_info) : option (list btf_name_info) :=
  guard ((length infos <= 1)%nat \/ Forall (fun i => is_Some (ni_name i)) infos);;
  Some (merge_sort info_le infos).

Fixpoint name_cnt_loop (n : nat) (b : btf) (id : Z) (cnt : list Z) : option (list Z) :=
  match n with
  | O => Some cnt
  | S n =>
    t ← btf_type_by_id b id;
    k ← btf_kind t;
    no ← name_off t;
    if negb (kind_is_composite k) || (no =? 0) then name_cnt_loop n b (id + 1) cnt
    else
      c ← zget cnt no;
      cnt ← (if c <? 255 then zset cnt no (c + 1) else Some cnt);
      name_cnt_loop n b (id + 1) cnt
  end.

(** The key of a base type: [Some None] for the types that are passed over. *)
Definition base_key (r : btf_relocate_r) (cnt : list Z) (id : Z) : option (option btf_name_info) :=
  t ← btf_type_by_id (view (r_base r)) id;
  no ← name_off t;
  if no =? 0 then Some None
  else
    k ← btf_kind t;
    name ← btf__name_by_offset (view (r_base r)) no;
    size ← type t;
    if (k =? BTF_KIND_INT) || (k =? BTF_KIND_FLOAT) || (k =? BTF_KIND_ENUM) || (k =? BTF_KIND_ENUM64) then Some (Some (NameInfo name true (wrap 31 size) id))
    else if k =? BTF_KIND_FWD then Some (Some (NameInfo name false 0 id))
    else if kind_is_composite k then c ← zget cnt no; Some (Some (NameInfo name (c >? 1) (wrap 31 size) id))
    else Some None.

(** The two switches: whether the found type is compatible; [mapped] is its entry of [id_map]. *)
Definition dist_compat (dist_t base_t : btf_type) (mapped : Z) : option bool :=
  dist_kind ← btf_kind dist_t; base_kind ← btf_kind base_t;
  if dist_kind =? BTF_KIND_FWD then
    f ← btf_kflag base_t;
    if base_kind =? BTF_KIND_FWD then g ← btf_kflag dist_t; Some (Bool.eqb g f)
    else if base_kind =? BTF_KIND_STRUCT then Some (negb f)
    else if base_kind =? BTF_KIND_UNION then Some f
    else Some false
  else if dist_kind =? BTF_KIND_INT then
    if negb (dist_kind =? base_kind) then Some false
    else e ← btf_int_encoding base_t; e' ← btf_int_encoding dist_t; Some (e =? e')
  else if dist_kind =? BTF_KIND_FLOAT then Some (dist_kind =? base_kind)
  else if dist_kind =? BTF_KIND_ENUM then Some ((base_kind =? dist_kind) || (base_kind =? BTF_KIND_ENUM64))
  else if kind_is_composite dist_kind then
    bs ← type base_t; ds ← type dist_t;
    Some (negb ((mapped =? BTF_IS_EMBEDDED) && negb (bs =? ds)))
  else Some false.

(** From a match on, while the entries compare as equal. *)
Fixpoint match_infos (key : btf_name_info) (id : Z) (l : list btf_name_info) (r : btf_relocate_r) : option (Z * btf_relocate_r) :=
  match l with
  | [] => Some (0, r)
  | info :: l =>
    c ← cmp_btf_name_size key info;
    if negb (c =? 0) then Some (0, r)
    else if (ni_id info =? 0) || (nr_dist_base_types r <=? ni_id info) then Some (- EINVAL, r)
    else
      base_t ← btf_type_by_id (view (r_base r)) id;
      dist_t ← btf_type_by_id (dist_base_btf r) (ni_id info);
      mapped ← zget (id_map r) (ni_id info);
      ok ← dist_compat dist_t base_t mapped;
      if negb ok then match_infos key id l r
      else if negb (mapped =? 0) && negb (mapped =? BTF_IS_EMBEDDED) then Some (- EINVAL, r)
      else
        im ← zset (id_map r) (ni_id info) id;
        dn ← name_off dist_t; bn ← name_off base_t;
        sm ← zset (str_map r) dn bn;
        match_infos key id l (with_str_map sm (with_id_map im r))
  end.

Definition match_base (infos : list btf_name_info) (cnt : list Z) (r : btf_relocate_r) (id : Z) : option (Z * btf_relocate_r) :=
  key ← base_key r cnt id;
  match key with
  | None => Some (0, r)
  | Some key =>
    found ← search_btf_name_size key infos (nr_dist_base_types r);
    match found with
    | None => Some (0, r)
    | Some idx => match_infos key id (drop (Z.to_nat idx) infos) r
    end
  end.

(** All distilled types have been mapped. *)
Fixpoint mapped_loop (n : nat) (r : btf_relocate_r) (id : Z) : option Z :=
  match n with
  | O => Some 0
  | S n => m ← zget (id_map r) id; if negb (m =? 0) && negb (m =? BTF_IS_EMBEDDED) then mapped_loop n r (id + 1) else Some (- EINVAL)
  end.

Definition btf_relocate_map_distilled_base (al : oracle) (r : btf_relocate_r) : option (Z * btf_relocate_r) :=
  if negb (al [0]) then Some (- ENOMEM, r)
  else
    infos ← mapM (dist_info r) (seqZ 0 (nr_dist_base_types r));
    infos ← sort_infos infos;
    '(err, r) ← reloc_each (Z.to_nat (nr_split_types r)) (nr_dist_base_types r) btf_mark_embedded_composite_type_ids r;
    if negb (err =? 0) then Some (err, r)
    else if negb (al [1]) then Some (- ENOMEM, r)
    else
      cnt ← name_cnt_loop (Z.to_nat (nr_base_types r - 1)) (view (r_base r)) 1 (replicate (Z.to_nat (base_str_len r)) 0);
      '(err, r) ← reloc_each (Z.to_nat (nr_base_types r - 1)) 1 (match_base infos cnt) r;
      if negb (err =? 0) then Some (err, r)
      else err ← mapped_loop (Z.to_nat (nr_dist_base_types r - 1)) r 1; Some (err, r).

Fixpoint validate_loop (n : nat) (b : btf) (i : Z) : option Z :=
  match n with
  | O => Some 0
  | S n =>
    t ← btf_type_by_id b i;
    kind ← btf_kind t;
    no ← name_off t;
    if ((kind =? BTF_KIND_INT) || (kind =? BTF_KIND_FLOAT) || (kind =? BTF_KIND_ENUM) || kind_is_composite kind || (kind =? BTF_KIND_FWD)) && negb (no =? 0)
    then validate_loop n b (i + 1)
    else Some (- EINVAL)
  end.
Definition btf_relocate_validate_distilled_base (r : btf_relocate_r) : option Z :=
  validate_loop (Z.to_nat (nr_dist_base_types r - 1)) (dist_base_btf r) 1.

(** ** Rewriting *)

(** The loop over the fields [kd] of the own type [i]; [f] is the new value of a field or an error. *)
Definition rewrite_fields (kd : btf_field_iter_kind) (f : Z -> option (Z + Z)) (r : btf_relocate_r) (i : Z) : option (Z * btf_relocate_r) :=
  o ← head (r_btf r);
  off ← zget (o_offs o) (i - o_start_id o);
  let t := drop (Z.to_nat (off / 4)) (o_types o) in
  '(err, it) ← btf_field_iter_init t kd;
  if negb (err =? 0) then Some (err, r)
  else
    '(err, c) ← field_loop (fun p c =>
        x ← get_word c ((off + p) / 4);
        y ← f x;
        match y with
        | inl err => Some (err, c)
        | inr y => c ← put_word c ((off + p) / 4) y; Some (0, c)
        end) (S (length t)) it (r_btf r);
    Some (err, with_r_btf c r).

Definition btf_relocate_rewrite_type_id (r : btf_relocate_r) (i : Z) : option (Z * btf_relocate_r) :=
  rewrite_fields BTF_FIELD_ITER_IDS (fun id => y ← zget (id_map r) id; Some (inr y)) r i.

Definition new_str (r : btf_relocate_r) (str_off : Z) : option (Z + Z) :=
  if str_off =? 0 then Some (inr 0)
  else if str_off >=? dist_str_len r then Some (inr (u32 (str_off + (base_str_len r - dist_str_len r))))
  else off ← zget (str_map r) str_off; Some (if off =? 0 then inl (- ENOENT) else inr off).
Definition btf_relocate_rewrite_strs (r : btf_relocate_r) (i : Z) : option (Z * btf_relocate_r) :=
  rewrite_fields BTF_FIELD_ITER_STRS (new_str r) r i.

(** ** The whole *)

(** The argument [base_btf]: NULL, the base the object has, or another one. *)
Inductive base_arg := NullBase | OwnBase | OtherBase (c : chain).

(** [btf_set_base_btf]. *)
Definition btf_set_base_btf (c base : chain) : option chain :=
  o ← head c; n ← btf__type_cnt (view base); bo ← head base;
  Some (BtfObj (hdr o) (o_types o) (types_cap o) (o_offs o) (offs_cap o) (o_nr_types o) n (h_str_len bo) (o_strs o) (o_ptr_sz o) :: base).

(** The last component is what is stored through the argument [id_map], if anything. *)
Definition btf_relocate (al : oracle) (c : chain) (base_btf : base_arg) : option (Z * chain * option (list Z)) :=
  nr_types ← btf__type_cnt (view c);
  match base_btf with
  | NullBase | OwnBase => Some (- EINVAL, c, None)
  | OtherBase base =>
    nr_dist ← btf__type_cnt (view (tail c));
    nr_base ← btf__type_cnt (view base);
    dist ← head (tail c); bo ← head base;
    if negb (al [0] && al [1]) then Some (- ENOMEM, c, None)
    else
      let im := replicate (Z.to_nat nr_dist) 0 ++ map (fun id => u32 (id + nr_base - nr_dist)) (seqZ nr_dist (nr_types - nr_dist)) in
      let r := Reloc c base nr_base (nr_types - nr_dist) nr_dist (h_str_len dist) (h_str_len bo) im (replicate (Z.to_nat (h_str_len dist)) 0) in
      err ← btf_relocate_validate_distilled_base r;
      if negb (err =? 0) then Some (err, c, None)
      else
        '(err, r) ← btf_relocate_map_distilled_base (sub 2 al) r;
        if negb (err =? 0) then Some (err, r_btf r, None)
        else
          '(err, r) ← reloc_each (Z.to_nat (nr_types - nr_dist)) nr_dist btf_relocate_rewrite_type_id r;
          if negb (err =? 0) then Some (err, r_btf r, None)
          else
            '(err, r) ← reloc_each (Z.to_nat (nr_types - nr_dist)) nr_dist btf_relocate_rewrite_strs r;
            if negb (err =? 0) then Some (err, r_btf r, None)
            else c ← btf_set_base_btf (r_btf r) base; Some (0, c, Some (id_map r))
  end.
