(* ===== verification/BtfRelocSpec.v ===== *)
(** * Relocation of split BTF: correctness

    [relocate_correct]: relocating an object returns; when it succeeds, every type of the distilled
    base has been found in the new base, where exactly one type matches it, references lead to these
    types or to the moved types of the object, and every name reads as before. *)
From stdpp Require Import base numbers list gmap sorting.
From S2P Require Import Prelude Strset Btf BtfBuild BtfBuildSpec BtfIter BtfCopy BtfDedup DedupPrim DedupEquiv DedupFinish BtfReloc.

(** ** The order of names *)
Lemma strcmp_refl a : strcmp a a = 0.
Proof. induction a as [|x a IH]; [done|]. cbn. by rewrite Z.eqb_refl. Qed.

Lemma strcmp_eq a b : c_string a -> c_string b -> strcmp a b = 0 -> a = b.
Proof.
  intros Ha. revert b. induction Ha as [|x a Hx _ IH]; intros [|y b] Hb; cbn; [done| | |].
  - apply Forall_cons in Hb as [Hy _]. lia.
  - lia.
  - apply Forall_cons in Hb as [_ Hb]. destruct (Z.eqb_spec x y) as [->|]; [intros; f_equal; by apply IH|lia].
Qed.

Lemma strcmp_flip a b : strcmp b a = - strcmp a b.
Proof.
  revert b. induction a as [|x a IH]; intros [|y b]; cbn; [done|lia|lia|]. rewrite Z.eqb_sym. destruct (Z.eqb_spec x y); [apply IH|lia].
Qed.

Lemma strcmp_lt_trans a b c : c_string a -> c_string b -> c_string c -> strcmp a b < 0 -> strcmp b c < 0 -> strcmp a c < 0.
Proof.
  intros Ha. revert b c. induction Ha as [|x a Hx _ IH]; intros [|y b] [|z c] Hb Hc; cbn; intros H1 H2;
    repeat match goal with H : context [?p =? ?q] |- _ => destruct (Z.eqb_spec p q); subst end; repeat case Z.eqb_spec; intros; subst; try lia.
  apply Forall_cons in Hb as [_ Hb]. apply Forall_cons in Hc as [_ Hc]. by apply (IH b).
Qed.

(** A key, and an entry of the sorted array. *)
Definition good_key (k : btf_name_info) : Prop := exists s, ni_name k = Some s /\ c_string s.
Definition good_info (v : btf_name_info) : Prop := good_key v /\ needs_size v = true.

Lemma cmp_total k v : good_key k -> good_key v -> exists d, cmp_btf_name_size k v = Some d.
Proof. intros (s & Hs & _) (s' & Hs' & _). unfold cmp_btf_name_size. rewrite Hs, Hs'. by eexists. Qed.

(** The comparison of a key goes down along the sorted array. *)
Lemma cmp_mono k v w d e : good_key k -> good_info v -> good_info w -> info_le v w -> cmp_btf_name_size k v = Some d -> cmp_btf_name_size k w = Some e ->
  (d < 0 -> e < 0) /\ (0 < e -> 0 < d).
Proof.
  intros (s & Hs & Cs) [(sv & Hv & Cv) Nv] [(sw & Hw & Cw) Nw]. unfold info_le, cmp_btf_name_size. rewrite Hs, Hv, Hw, Nv, Nw. cbn [mbind option_bind from_option]. rewrite !andb_true_r.
  intros Hle [= <-] [= <-]. destruct (Z.eqb_spec (strcmp sv sw) 0) as [E|E].
  - apply strcmp_eq in E as ->; [|done|done]. destruct (_ && _); [|done]. lia.
  - pose proof (strcmp_flip s sv). pose proof (strcmp_flip s sw). pose proof (strcmp_flip sv sw).
    assert (strcmp s sv <= 0 -> strcmp s sw < 0) as Hdown. { intros Hd. destruct (decide (strcmp s sv = 0)) as [E0|]; [apply strcmp_eq in E0 as ->; [lia|done|done]|]. apply (strcmp_lt_trans s sv sw); [done|done|done|lia|lia]. }
    destruct (Z.eqb_spec (strcmp s sv) 0) as [E1|E1], (Z.eqb_spec (strcmp s sw) 0) as [E2|E2]; cbn [andb]; [lia|destruct (needs_size k); lia|lia|lia].
Qed.

Section Search.
Context (k : btf_name_info) (vals : list btf_name_info).
Hypothesis Hk : good_key k.
Hypothesis Hv : Forall good_info vals.
Hypothesis Hs : StronglySorted info_le vals.

Lemma vals_cmp i v : vals !! i = Some v -> exists d, cmp_btf_name_size k v = Some d.
Proof. intros H. apply (proj1 (Forall_lookup _ _) Hv) in H as [Hg _]. by apply cmp_total. Qed.

Lemma vals_mono i j v w d e : (i < j)%nat -> vals !! i = Some v -> vals !! j = Some w -> cmp_btf_name_size k v = Some d -> cmp_btf_name_size k w = Some e ->
  (d < 0 -> e < 0) /\ (0 < e -> 0 < d).
Proof.
  intros Hij Hi Hj. apply cmp_mono; [done|by eapply Forall_lookup|by eapply Forall_lookup|].
  clear Hv. revert i j Hij Hi Hj. induction Hs as [|x l Hl IH Hx]; intros [|i] [|j] Hij Hi Hj; try done; [lia| |lia|apply (IH Hl i j); [lia|done|done]].
  injection Hi as <-. by eapply Forall_lookup.
Qed.

Definition cmp_at (P : Z -> Prop) (i : Z) : Prop := forall v d, zget vals i = Some v -> cmp_btf_name_size k v = Some d -> P d.

Lemma search_loop_spec fuel low high ret : (Z.to_nat (high - low + 1) < fuel)%nat -> 0 <= low <= high + 1 -> high < Z.of_nat (length vals) ->
  (forall i, i < low -> cmp_at (fun d => 0 < d) i) -> (forall i, high < i -> cmp_at (fun d => d <= 0) i) ->
  match ret with Some i => i = high + 1 /\ 0 <= i < Z.of_nat (length vals) /\ cmp_at (fun d => d = 0) i | None => forall i, high < i -> cmp_at (fun d => d < 0) i end ->
  exists ret', search_loop fuel k vals low high ret = Some ret' /\
  match ret' with
  | Some i => 0 <= i < Z.of_nat (length vals) /\ cmp_at (fun d => d = 0) i /\ (forall i', i' < i -> cmp_at (fun d => 0 < d) i') /\ (forall i', i < i' -> cmp_at (fun d => d <= 0) i')
  | None => forall i, cmp_at (fun d => d <> 0) i
  end.
Proof.
  revert low high ret. induction fuel as [|fuel IH]; intros low high ret Hf Hlow Hhigh Hlo Hhi Hret; [lia|]. cbn [search_loop]. destruct (Z.leb_spec low high) as [Hle|Hgt].
  - set (mid := (low + high) / 2). assert (low <= mid <= high) as Hmid by (unfold mid; split; [apply Z.div_le_lower_bound; lia|apply Z.div_le_upper_bound; lia]). clearbody mid.
    destruct (zget_is_Some vals mid) as [v Hv0]; [lia|]. rewrite Hv0. cbn [mbind option_bind]. apply zget_Some in Hv0 as Hv1. destruct Hv1 as [_ Hv1]. destruct (vals_cmp _ _ Hv1) as [d Hd]. rewrite Hd. cbn [mbind option_bind].
    assert (forall i, mid < i -> cmp_at (fun e => d < 0 -> e < 0) i) as Hup. { intros i Hi w e [Hi0 Hw]%zget_Some He. eapply (vals_mono (Z.to_nat mid) (Z.to_nat i)); [lia|done..]. }
    assert (forall i, mid < i -> cmp_at (fun e => 0 < e -> 0 < d) i) as Hup'. { intros i Hi w e [Hi0 Hw]%zget_Some He. eapply (vals_mono (Z.to_nat mid) (Z.to_nat i)); [lia|done..]. }
    assert (forall i, i < mid -> cmp_at (fun e => 0 < d -> 0 < e) i) as Hdn. { intros i Hi w e [Hi0 Hw]%zget_Some He. eapply (vals_mono (Z.to_nat i) (Z.to_nat mid)); [lia|done..]. }
    destruct (Z.leb_spec d 0) as [Hd0|Hd0].
    + apply IH; [lia|lia|lia|done| |].
      * intros i Hi w e Hw He. destruct (decide (i = mid)) as [->|]; [simplify_eq; cbv beta; lia|]. pose proof (Hup' i ltac:(lia) w e Hw He); cbv beta in *; lia.
      * destruct (Z.eqb_spec d 0) as [->|Hne].
        { split_and!; [lia|lia|lia|]. intros w e Hw He. simplify_eq. done. }
        assert (ret = None) as ->. { destruct ret as [i|]; [|done]. destruct Hret as (-> & Hi & Heq). exfalso. destruct (zget_is_Some vals (high + 1) Hi) as [w Hw]. apply zget_Some in Hw as Hw1. destruct Hw1 as [_ Hw1]. destruct (vals_cmp _ _ Hw1) as [e He].
          pose proof (Heq w e Hw He). pose proof (Hup (high + 1) ltac:(lia) w e Hw He); cbv beta in *; lia. }
        intros i Hi w e Hw He. destruct (decide (i = mid)) as [->|]; [simplify_eq; cbv beta; lia|]. apply (Hup i ltac:(lia) w e Hw He); cbv beta in *; lia.
    + destruct (Z.eqb_spec d 0); [lia|]. apply IH; [lia|lia|lia| |done|done].
      intros i Hi w e Hw He. destruct (decide (i = mid)) as [->|]; [simplify_eq; cbv beta; lia|]. apply (Hdn i ltac:(lia) w e Hw He); cbv beta in *; lia.
  - exists ret. split; [done|]. assert (low = high + 1) as -> by lia. destruct ret as [i|].
    + destruct Hret as (-> & Hi & Heq). split_and!; [lia|lia|done|done|]. intros i' Hi' w e Hw He. by apply (Hhi i' ltac:(lia) w e).
    + intros i w e Hw He. destruct (decide (i < high + 1)) as [Hi|Hi]; [pose proof (Hlo i Hi w e Hw He); cbv beta in *; lia|pose proof (Hret i ltac:(lia) w e Hw He); cbv beta in *; lia].
Qed.

(** The search and the loop from its result visit exactly the equal entries. *)
Definition equal_infos : list btf_name_info := filter (fun v => cmp_btf_name_size k v = Some 0) vals.

Lemma match_infos_filter id r l : (forall v, v ∈ l -> exists d, cmp_btf_name_size k v = Some d /\ d <= 0) ->
  (forall i j v w d e, (i < j)%nat -> l !! i = Some v -> l !! j = Some w -> cmp_btf_name_size k v = Some d -> cmp_btf_name_size k w = Some e -> d < 0 -> e < 0) ->
  match_infos k id l r = match_infos k id (filter (fun v => cmp_btf_name_size k v = Some 0) l) r.
Proof.
  revert r. induction l as [|v l IH]; intros r Hd Hm; [done|]. destruct (Hd v) as (d & Hc & Hle); [left|]. destruct (decide (d = 0)) as [->|Hne].
  - rewrite filter_cons_True by done. cbn [match_infos]. rewrite Hc. cbn [mbind option_bind Z.eqb negb].
    assert (forall r, match_infos k id l r = match_infos k id (filter (fun v => cmp_btf_name_size k v = Some 0) l) r) as E.
    { intros r'. apply IH; [intros w Hw; apply Hd; by right|]. intros i j w w' e e' Hij Hi Hj. apply (Hm (S i) (S j)); [lia|done|done]. }
    repeat (case_match; [done|]). do 4 (apply option_bind_ext_fun; intros ?). destruct (negb _); [apply E|]. destruct (_ && _); [done|]. do 4 (apply option_bind_ext_fun; intros ?). apply E.
  - rewrite filter_cons_False by (rewrite Hc; congruence). cbn [match_infos]. rewrite Hc. cbn [mbind option_bind]. destruct (Z.eqb_spec d 0); [done|]. cbn [negb].
    replace (filter _ l) with (@nil btf_name_info); [done|]. symmetry. apply filter_none, Forall_forall. intros w Hw Hw0. apply list_elem_of_lookup in Hw as [j Hj]. pose proof (Hm 0%nat (S j) v w d 0 ltac:(lia) eq_refl Hj Hc Hw0). lia.
Qed.

Lemma search_match id r : exists found, search_btf_name_size k vals (Z.of_nat (length vals)) = Some found /\
  match found with None => Some (0, r) | Some idx => match_infos k id (drop (Z.to_nat idx) vals) r end = match_infos k id equal_infos r.
Proof.
  unfold search_btf_name_size. destruct (search_loop_spec (S (Z.to_nat (Z.of_nat (length vals)))) 0 (Z.of_nat (length vals) - 1) None) as (found & -> & Hf); [lia|lia|lia| | | |].
  - intros i Hi v d Hv0. apply zget_lt in Hv0. lia.
  - intros i Hi v d Hv0. apply zget_lt in Hv0. lia.
  - intros i Hi v d Hv0. apply zget_lt in Hv0. lia.
  - exists found. split; [done|]. unfold equal_infos. destruct found as [i|].
    + destruct Hf as (Hi & Heq & Hlo & Hhi). rewrite <- (take_drop (Z.to_nat i) vals) at 2. rewrite filter_app.
      replace (filter _ (take _ vals)) with (@nil btf_name_info).
      2:{ symmetry. apply filter_none, Forall_forall. intros w Hw Hw0. apply list_elem_of_lookup in Hw as [j Hj]. apply lookup_take_Some in Hj as [Hj Hji]. pose proof (Hlo (Z.of_nat j) ltac:(lia) w 0) as H. cbv beta in H. rewrite zget_nat in H. specialize (H Hj Hw0). lia. }
      cbn [app]. apply match_infos_filter.
      * intros v Hin. apply list_elem_of_lookup in Hin as [j Hj]. rewrite lookup_drop in Hj. destruct (vals_cmp _ _ Hj) as [d Hd]. exists d. split; [done|]. destruct j as [|j].
        { pose proof (Heq v d) as H. cbv beta in H. rewrite Nat.add_0_r in Hj. enough (d = 0) by lia. apply H; [|done]. apply zget_Some. split; [lia|done]. }
        pose proof (Hhi (i + Z.of_nat (S j)) ltac:(lia) v d) as H. cbv beta in H. apply H; [|done]. apply zget_Some. split; [lia|]. by replace (Z.to_nat (i + Z.of_nat (S j))) with (Z.to_nat i + S j)%nat by lia.
      * intros a b v w d e Hab Ha Hb Hd He. rewrite !lookup_drop in *. eapply (vals_mono (Z.to_nat i + a) (Z.to_nat i + b)); [lia|done..].
    + replace (filter _ vals) with (@nil btf_name_info); [done|]. symmetry. apply filter_none, Forall_forall. intros w Hw Hw0. apply list_elem_of_lookup in Hw as [j Hj]. pose proof (Hf (Z.of_nat j) w 0) as H. cbv beta in H. rewrite zget_nat in H. by apply H.
Qed.
End Search.

(** ** Embedded structs *)
Definition embed_mod (k : Z) : bool :=
  (k =? BTF_KIND_CONST) || (k =? BTF_KIND_RESTRICT) || (k =? BTF_KIND_VOLATILE) || (k =? BTF_KIND_TYPEDEF) || (k =? BTF_KIND_TYPE_TAG).

(** Where a modifier, typedef or array leads. *)
Definition embed_next (b : btf) (x : Z) : option Z :=
  t ← btf_type_by_id b x; k ← btf_kind t;
  if embed_mod k then type t else if k =? BTF_KIND_ARRAY then a ← array_of t; Some (arr_type a) else None.

(** From a member to the struct or union it embeds. *)
Inductive leads (b : btf) : Z -> Z -> Prop :=
  | leads_here x t k : x <> 0 -> btf_type_by_id b x = Some t -> btf_kind t = Some k -> kind_is_composite k = true -> leads b x x
  | leads_next x y i : x <> 0 -> embed_next b x = Some y -> leads b y i -> leads b x i.

(** No cycle consists of modifiers, typedefs and arrays. *)
Definition embed_ranked (b : btf) (N : Z) : Prop := exists rk : Z -> nat, forall x, 0 <= x < N -> (rk x <= Z.to_nat N)%nat /\ forall y, x <> 0 -> embed_next b x = Some y -> (rk y < rk x)%nat.

Lemma composite_kinds k : kind_is_composite k = true -> k = BTF_KIND_STRUCT \/ k = BTF_KIND_UNION.
Proof. unfold kind_is_composite. rewrite orb_true_iff, !Z.eqb_eq. done. Qed.

Lemma leads_fun b x i j : leads b x i -> leads b x j -> i = j.
Proof.
  intros H. revert j. induction H as [x t k Hx Ht Hk Hc|x y i Hx Hn _ IH]; intros j Hj; inversion Hj as [x' t' k' Hx' Ht' Hk' Hc'|x' y' i' Hx' Hn' Hl']; subst; try done.
  - exfalso. unfold embed_next in Hn'. rewrite Ht in Hn'. cbn [mbind option_bind] in Hn'. rewrite Hk in Hn'. cbn [mbind option_bind] in Hn'. apply composite_kinds in Hc as [-> | ->]; done.
  - exfalso. unfold embed_next in Hn. rewrite Ht' in Hn. cbn [mbind option_bind] in Hn. rewrite Hk' in Hn. cbn [mbind option_bind] in Hn. apply composite_kinds in Hc' as [-> | ->]; done.
  - apply IH. congruence.
Qed.

Section Embed.
Context (c : chain) (N D : Z) (m0 : list Z).
Hypothesis Htypes : types_ok c N.
Hypothesis Hrefs : refs_ok c N.
Hypothesis Hrank : embed_ranked (view c) N.
Hypothesis Hlen : length m0 = Z.to_nat N.

(** The ids below [D] in [P] are marked; the other entries are as in [m0]. *)
Definition marks (m : list Z) (P : Z -> Prop) : Prop := length m = length m0 /\ (forall i, ~ 0 < i < D -> zget m i = zget m0 i) /\
  forall i, 0 < i < D -> exists x, zget m i = Some x /\ (x = 0 /\ ~ P i \/ x = BTF_IS_EMBEDDED /\ P i).

Lemma marks_ext m P Q : marks m P -> (forall i, 0 < i < D -> P i <-> Q i) -> marks m Q.
Proof. intros (Hl & Ho & Hm) HPQ. split_and!; [done|done|]. intros i Hi. destruct (Hm i Hi) as (x & Hx & Hc). exists x. split; [done|]. rewrite <- (HPQ i Hi). done. Qed.

Lemma marks_none m P x : marks m P -> (forall i, leads (view c) x i -> ~ 0 < i < D) -> marks m (fun i => P i \/ leads (view c) x i).
Proof. intros H Hn. apply (marks_ext m P); [done|]. intros i Hi. split; [by left|]. intros [?|Hl]; [done|]. by destruct (Hn i Hl). Qed.

Lemma embed_next_range x y : 0 < x < N -> embed_next (view c) x = Some y -> 0 <= y < N.
Proof.
  intros Hx Hn. destruct (to_types _ _ Htypes x Hx) as (t & k & v & n & Ht & Hw). pose proof (whole_ranges _ _ _ _ Hw) as (_ & _ & Hn0). unfold embed_next in Hn. rewrite Ht in Hn. cbn [mbind option_bind] in Hn. rewrite (wh_kind _ _ _ _ Hw) in Hn. cbn [mbind option_bind] in Hn.
  destruct (embed_mod k) eqn:Em.
  - apply (Hrefs x t k v n 2 y Hx Ht Hw); [lia| |done]. unfold embed_mod in Em. repeat (apply orb_true_iff in Em as [Em|Em]); apply Z.eqb_eq in Em as ->; done.
  - destruct (Z.eqb_spec k BTF_KIND_ARRAY) as [->|]; [|done]. unfold array_of in Hn. destruct (word t 3) as [a|] eqn:Ha, (word t 4), (word t 5); try done. cbn [mbind option_bind arr_type] in Hn. injection Hn as <-.
    pose proof (wh_rest _ _ _ _ Hw) as Hr. injection Hr as <-. by apply (Hrefs x t BTF_KIND_ARRAY v 3 3 a Hx Ht Hw).
Qed.

Lemma embed_loop_spec fuel x m P : 0 <= x < N -> (forall rk, (forall x, 0 <= x < N -> forall y, x <> 0 -> embed_next (view c) x = Some y -> (rk y < rk x)%nat) -> (rk x < fuel)%nat -> marks m P ->
  exists m', embed_loop fuel (view c) D x m = Some m' /\ marks m' (fun i => P i \/ leads (view c) x i)).
Proof.
  intros Hx rk Hrk. revert x Hx. induction fuel as [|fuel IH]; intros x Hx Hf Hm; [lia|]. cbn [embed_loop]. destruct (Z.eqb_spec x 0) as [->|Hx0].
  { exists m. split; [done|]. apply marks_none; [done|]. intros i Hl. by inversion Hl. }
  destruct (to_types _ _ Htypes x) as (t & k & v & n & Ht & Hw); [lia|]. rewrite Ht. cbn [mbind option_bind]. rewrite (wh_kind _ _ _ _ Hw). cbn [mbind option_bind]. change (_ || (k =? BTF_KIND_TYPE_TAG)) with (embed_mod k). pose proof (whole_ranges _ _ _ _ Hw) as (_ & _ & Hn0).
  assert (embed_next (view c) x = if embed_mod k then type t else if k =? BTF_KIND_ARRAY then a ← array_of t; Some (arr_type a) else None) as En by (unfold embed_next; rewrite Ht; cbn [mbind option_bind]; by rewrite (wh_kind _ _ _ _ Hw)).
  assert (forall y, embed_next (view c) x = Some y -> exists m', embed_loop fuel (view c) D y m = Some m' /\ marks m' (fun i => P i \/ leads (view c) x i)) as Hnext.
  { intros y Hy. destruct (IH y) as (m' & Hr & Hm'); [apply (embed_next_range x y); [lia|done]|pose proof (Hrk x Hx y Hx0 Hy); lia|done|]. exists m'. split; [done|]. apply (marks_ext m' _ _ Hm'). intros i Hi. split; intros [?|Hl]; [by left|right|by left|right].
    - by apply (leads_next _ x y).
    - inversion Hl as [x' t' k' _ Ht' Hk' Hc'|x' y' i' _ Hn' Hl']; subst; [|congruence]. exfalso. rewrite Ht in Ht'. injection Ht' as <-. rewrite (wh_kind _ _ _ _ Hw) in Hk'. injection Hk' as <-.
      rewrite En in Hy. apply composite_kinds in Hc' as [-> | ->]; done. }
  destruct (embed_mod k) eqn:Em; [destruct (whole_word t k v n 2 Hw ltac:(lia)) as [y Hy]; unfold type; rewrite Hy; cbn [mbind option_bind]; apply Hnext; rewrite En; exact Hy|].
  destruct (Z.eqb_spec k BTF_KIND_ARRAY) as [->|Ha].
  { pose proof (wh_rest _ _ _ _ Hw) as Hr. injection Hr as <-. destruct (whole_word t _ v 3 3 Hw ltac:(lia)) as [a E3], (whole_word t _ v 3 4 Hw ltac:(lia)) as [a' E4], (whole_word t _ v 3 5 Hw ltac:(lia)) as [a'' E5].
    assert (array_of t = Some (BtfArray a a' a'')) as Ea by (unfold array_of; by rewrite E3, E4, E5). rewrite Ea in En |- *. cbn [mbind option_bind arr_type] in En |- *. by apply Hnext. }
  destruct (kind_is_composite k) eqn:Hc.
  - assert (leads (view c) x x) as Hl by (apply (leads_here _ x t k); [done|done|apply (wh_kind _ _ _ _ Hw)|done]). destruct (Z.ltb_spec x D) as [HxD|HxD].
    + destruct Hm as (Hlm & Ho & Hm). destruct (zset_is_Some m x BTF_IS_EMBEDDED) as [m' Hs]; [rewrite Hlm, Hlen; lia|]. exists m'. split; [done|]. split_and!.
      * by rewrite (zset_length _ _ _ _ Hs).
      * intros i Hi. rewrite (zget_zset_ne _ _ _ _ _ Hs); [by apply Ho|]. intros ->. lia.
      * intros i Hi. destruct (decide (i = x)) as [->|Hne]; [exists BTF_IS_EMBEDDED; split; [by apply (zget_zset_eq _ _ _ _ Hs)|right; split; [done|by right]]|].
        destruct (Hm i Hi) as (z & Hz & Hcz). exists z. rewrite (zget_zset_ne _ _ _ _ _ Hs) by done. split; [done|]. destruct Hcz as [[? Hn]|[? Hp]]; [left; split; [done|]; intros [?|Hl']; [done|]; by rewrite (leads_fun _ _ _ _ Hl' Hl) in Hne|right; split; [done|by left]].
    + exists m. split; [done|]. apply marks_none; [done|]. intros i Hl'. rewrite (leads_fun _ _ _ _ Hl' Hl). lia.
  - exists m. split; [done|]. apply marks_none; [done|]. intros i Hl. exfalso. inversion Hl as [x' t' k' _ Ht' Hk' Hc'|x' y' i' _ Hn' _]; subst; [rewrite Ht in Ht'; injection Ht' as <-; rewrite (wh_kind _ _ _ _ Hw) in Hk'; congruence|]. rewrite En in Hn'. done.
Qed.

Lemma fold_embed t js m P : (forall j, j ∈ js -> exists x, word t j = Some x /\ 0 <= x < N) -> marks m P ->
  exists m', fields_fold (fun off m => id ← word t (off / 4); m ← embed_loop (S (Z.to_nat N)) (view c) D id m; Some (0, m)) (map (Z.mul 4) js) m = Some (0, m') /\
  marks m' (fun i => P i \/ exists j x, j ∈ js /\ word t j = Some x /\ leads (view c) x i).
Proof.
  destruct Hrank as [rk Hrk]. revert m P. induction js as [|j js IH]; intros m P Hjs Hm; cbn [map fields_fold].
  { exists m. split; [done|]. apply (marks_ext m P); [done|]. intros i Hi. split; [by left|]. intros [?|(j & x & Hj & _)]; [done|]. by apply not_elem_of_nil in Hj. }
  destruct (Hjs j) as (x & Hx & Hxr); [left|]. rewrite quarter, Hx. cbn [mbind option_bind].
  destruct (embed_loop_spec (S (Z.to_nat N)) x m P Hxr rk) as (m1 & -> & Hm1); [intros y Hy; apply Hrk; lia|destruct (Hrk x Hxr); lia|done|]. cbn [mbind option_bind Z.eqb negb].
  destruct (IH m1 (fun i => P i \/ leads (view c) x i)) as (m' & -> & Hm'); [intros j' Hj'; apply Hjs; by right|done|]. exists m'. split; [done|]. apply (marks_ext m' _ _ Hm'). intros i Hi. split.
  - intros [[?|Hl]|(j' & x' & Hj' & Hx' & Hl)]; [by left|right; exists j, x; split_and!; [left|done|done]|right; exists j', x'; split_and!; [by right|done|done]].
  - intros [?|(j' & x' & Hj' & Hx' & Hl)]; [by left; left|]. apply elem_of_cons in Hj' as [->|Hj']; [rewrite Hx in Hx'; injection Hx' as <-; left; by right|right; by exists j', x'].
Qed.

(** The struct or union [s] is embedded in the type [id]. *)
Definition embeds (id s : Z) : Prop := exists t k v n j x, btf_type_by_id (view c) id = Some t /\ whole t k v n /\ kind_is_composite k = true /\
  0 <= j < 3 + n /\ field_word BTF_FIELD_ITER_IDS k j = true /\ word t j = Some x /\ leads (view c) x s.

Definition split_state (r : btf_relocate_r) : Prop := r_btf r = c /\ nr_dist_base_types r = D /\ nr_split_types r = N - D.

Lemma mark_type_spec r id P : split_state r -> 0 < id < N -> marks (id_map r) P -> exists m, btf_mark_embedded_composite_type_ids r id = Some (0, with_id_map m r) /\ marks m (fun i => P i \/ embeds id i).
Proof.
  intros (Eb & Ed & Es) Hid Hm. unfold btf_mark_embedded_composite_type_ids. rewrite Eb, Ed, Es. destruct (to_types _ _ Htypes id Hid) as (t & k & v & n & Ht & Hw). rewrite Ht. cbn [mbind option_bind]. rewrite (wh_kind _ _ _ _ Hw). cbn [mbind option_bind].
  destruct (kind_is_composite k) eqn:Hc; cbn [negb].
  2:{ exists (id_map r). split; [by destruct r|]. apply (marks_ext _ P); [done|]. intros i Hi. split; [by left|]. intros [?|(t' & k' & v' & n' & j & x & Ht' & Hw' & Hc' & _)]; [done|]. rewrite Ht in Ht'. injection Ht' as <-. destruct (info_kind _ _ _ _ _ _ _ _ Hw Hw' eq_refl) as (<- & _). congruence. }
  pose proof (whole_ranges _ _ _ _ Hw) as (_ & _ & Hn0). destruct (field_iter_spec BTF_FIELD_ITER_IDS t k v n (S (length t)) (wh_kind _ _ _ _ Hw) (wh_vlen _ _ _ _ Hw) (wh_rest _ _ _ _ Hw)) as (it & it' & -> & Hrun & _).
  { pose proof (field_words_length BTF_FIELD_ITER_IDS k n Hn0). pose proof (wh_len _ _ _ _ Hw). lia. }
  cbn [mbind option_bind Z.eqb negb]. rewrite (field_loop_fold _ _ _ _ _ _ Hrun). replace (D + (N - D)) with N by lia.
  destruct (fold_embed t (field_words BTF_FIELD_ITER_IDS k n) (id_map r) P) as (m & -> & Hm'); [|done|].
  { intros j [Hj Hf]%field_words_in; [|done]. destruct (whole_word t k v n j Hw Hj) as [x Hx]. exists x. split; [done|]. by apply (Hrefs id t k v n j x). }
  exists m. split; [done|]. apply (marks_ext m _ _ Hm'). intros i Hi. split; intros [?|H]; [by left|right|by left|right].
  - destruct H as (j & x & [Hj Hf]%field_words_in & Hx & Hl); [|done]. by exists t, k, v, n, j, x.
  - destruct H as (t' & k' & v' & n' & j & x & Ht' & Hw' & Hc' & Hj & Hf & Hx & Hl). rewrite Ht in Ht'. injection Ht' as <-. destruct (info_kind _ _ _ _ _ _ _ _ Hw Hw' eq_refl) as (<- & <- & <-). exists j, x. split_and!; [by apply field_words_in|done|done].
Qed.

Lemma mark_types_spec nn r id P : split_state r -> 0 < id -> id + Z.of_nat nn <= N -> marks (id_map r) P ->
  exists m, reloc_each nn id btf_mark_embedded_composite_type_ids r = Some (0, with_id_map m r) /\ marks m (fun i => P i \/ exists x, id <= x < id + Z.of_nat nn /\ embeds x i).
Proof.
  revert r id P. induction nn as [|nn IH]; intros r id P Hr Hid Hn Hm; cbn [reloc_each].
  { exists (id_map r). split; [by destruct r|]. apply (marks_ext _ P); [done|]. intros i Hi. split; [by left|]. intros [?|(x & Hx & _)]; [done|lia]. }
  destruct (mark_type_spec r id P Hr ltac:(lia) Hm) as (m1 & -> & Hm1). cbn [mbind option_bind Z.eqb negb]. destruct (IH (with_id_map m1 r) (id + 1) (fun i => P i \/ embeds id i)) as (m & -> & Hm'); [done|lia|lia|done|].
  exists m. split; [done|]. apply (marks_ext m _ _ Hm'). intros i Hi. split.
  - intros [[?|He]|(x & Hx & He)]; [by left|right; exists id; split; [lia|done]|right; exists x; split; [lia|done]].
  - intros [?|(x & Hx & He)]; [by left; left|]. destruct (decide (x = id)) as [->|]; [left; by right|right; exists x; split; [lia|done]].
Qed.
End Embed.

(** ** What matches *)
Definition tkind (b : btf) (id : Z) : option Z := t ← btf_type_by_id b id; btf_kind t.
Definition tsize (b : btf) (id : Z) : option Z := t ← btf_type_by_id b id; type t.
Definition tname_off (b : btf) (id : Z) : option Z := t ← btf_type_by_id b id; name_off t.
Definition tname (b : btf) (id : Z) : option (list Z) := no ← tname_off b id; s ← btf__str_by_offset b no; s.

Definition numeric_kind (k : Z) : bool := (k =? BTF_KIND_INT) || (k =? BTF_KIND_FLOAT) || (k =? BTF_KIND_ENUM) || (k =? BTF_KIND_ENUM64).

(** The structs and unions below [B] with the name [no]. *)
Definition homonyms (b : btf) (B no : Z) : list Z :=
  filter (fun id => from_option kind_is_composite false (tkind b id) = true /\ tname_off b id = Some no) (seqZ 1 (B - 1)).

(** The base types that are searched for, and those whose size has to agree: numbers, and structs
    and unions whose name is not unique. *)
Definition searched (b : btf) (j : Z) : Prop := exists k no, tkind b j = Some k /\ tname_off b j = Some no /\ no <> 0 /\
  numeric_kind k || (k =? BTF_KIND_FWD) || kind_is_composite k = true.
Definition sized (b : btf) (B j : Z) : Prop := exists k no, tkind b j = Some k /\ tname_off b j = Some no /\
  (numeric_kind k = true \/ kind_is_composite k = true /\ (1 < length (homonyms b B no))%nat).

(** A distilled type [t] and a base type [t']: forward declarations match forward declarations of
    the same kind and, by their kind flag, structs and unions; enumerations match those of both
    widths; a distilled struct or union has been found by its name. *)
Definition compatible (t t' : btf_type) : Prop := exists k k', btf_kind t = Some k /\ btf_kind t' = Some k' /\
  (k = BTF_KIND_FWD /\ (k' = BTF_KIND_FWD /\ btf_kflag t = btf_kflag t' \/ k' = BTF_KIND_STRUCT /\ btf_kflag t' = Some false \/ k' = BTF_KIND_UNION /\ btf_kflag t' = Some true) \/
   k = BTF_KIND_INT /\ k' = BTF_KIND_INT /\ btf_int_encoding t = btf_int_encoding t' \/
   k = BTF_KIND_FLOAT /\ k' = BTF_KIND_FLOAT \/
   k = BTF_KIND_ENUM /\ (k' = BTF_KIND_ENUM \/ k' = BTF_KIND_ENUM64) \/
   kind_is_composite k = true).

(** The base type [j] of [b] has the name of the distilled type [i] of [db], its size where sizes count,
    and a compatible kind. *)
Record candidate (db b : btf) (B i j : Z) : Prop := {
  cd_range : 0 < j < B;
  cd_searched : searched b j;
  cd_name : exists s, tname db i = Some s /\ tname b j = Some s;
  cd_size : sized b B j -> wrap 31 <$> tsize db i = wrap 31 <$> tsize b j;
  cd_compat : exists t t', btf_type_by_id db i = Some t /\ btf_type_by_id b j = Some t' /\ compatible t t'
}.

Ltac kind_cases := intuition (discriminate || congruence).

(** The switches of the code. *)
Lemma dist_compat_spec t k v n t' k' v' n' m : whole t k v n -> whole t' k' v' n' -> exists ok, dist_compat t t' m = Some ok /\
  (ok = true <-> compatible t t' /\ (m = BTF_IS_EMBEDDED -> kind_is_composite k = true -> type t' = type t)).
Proof.
  intros Hw Hw'. pose proof (whole_ranges _ _ _ _ Hw) as (_ & _ & Hn). pose proof (whole_ranges _ _ _ _ Hw') as (_ & _ & Hn').
  destruct (whole_word t k v n 1 Hw ltac:(lia)) as [a1 A1], (whole_word t k v n 2 Hw ltac:(lia)) as [a2 A2], (whole_word t' k' v' n' 1 Hw' ltac:(lia)) as [b1 B1], (whole_word t' k' v' n' 2 Hw' ltac:(lia)) as [b2 B2].
  unfold dist_compat. rewrite (wh_kind _ _ _ _ Hw), (wh_kind _ _ _ _ Hw'). cbn [mbind option_bind].
  assert (compatible t t' <-> (k = BTF_KIND_FWD /\ (k' = BTF_KIND_FWD /\ btf_kflag t = btf_kflag t' \/ k' = BTF_KIND_STRUCT /\ btf_kflag t' = Some false \/ k' = BTF_KIND_UNION /\ btf_kflag t' = Some true) \/ k = BTF_KIND_INT /\ k' = BTF_KIND_INT /\ btf_int_encoding t = btf_int_encoding t' \/ k = BTF_KIND_FLOAT /\ k' = BTF_KIND_FLOAT \/ k = BTF_KIND_ENUM /\ (k' = BTF_KIND_ENUM \/ k' = BTF_KIND_ENUM64) \/ kind_is_composite k = true)) as Hcompat.
  { split; [|intros H; by exists k, k'; rewrite (wh_kind _ _ _ _ Hw), (wh_kind _ _ _ _ Hw')]. intros (k1 & k2 & E1 & E2 & H). rewrite (wh_kind _ _ _ _ Hw) in E1. rewrite (wh_kind _ _ _ _ Hw') in E2. by simplify_eq. }
  setoid_rewrite Hcompat. clear Hcompat. unfold btf_kflag, btf_int_encoding, info, type. rewrite A1, A2, B1, B2. cbn [mbind option_bind].
  destruct (Z.eqb_spec k BTF_KIND_FWD) as [->|Hf].
  { destruct (Z.eqb_spec k' BTF_KIND_FWD) as [->|]; [eexists; split; [done|]; rewrite Bool.eqb_true_iff; kind_cases|].
    destruct (Z.eqb_spec k' BTF_KIND_STRUCT) as [->|]; [eexists; split; [done|]; rewrite negb_true_iff; kind_cases|]. destruct (Z.eqb_spec k' BTF_KIND_UNION) as [->|]; eexists; (split; [done|]); kind_cases. }
  destruct (Z.eqb_spec k BTF_KIND_INT) as [->|Hi].
  { destruct (Z.eqb_spec BTF_KIND_INT k') as [<-|]; cbn [negb]; [|eexists; split; [done|]; kind_cases]. pose proof (wh_rest _ _ _ _ Hw) as R. injection R as <-. pose proof (wh_rest _ _ _ _ Hw') as R'. injection R' as <-.
    destruct (whole_word t _ v 1 3 Hw ltac:(lia)) as [a3 A3], (whole_word t' _ v' 1 3 Hw' ltac:(lia)) as [b3 B3]. rewrite A3, B3. cbn [mbind option_bind]. eexists. split; [done|]. rewrite Z.eqb_eq. kind_cases. }
  destruct (Z.eqb_spec k BTF_KIND_FLOAT) as [->|Hfl]; [eexists; split; [done|]; rewrite Z.eqb_eq; kind_cases|]. destruct (Z.eqb_spec k BTF_KIND_ENUM) as [->|He]; [eexists; split; [done|]; rewrite orb_true_iff, !Z.eqb_eq; kind_cases|].
  destruct (kind_is_composite k) eqn:Hc; [|eexists; split; [done|]; kind_cases]. eexists. split; [done|]. rewrite negb_true_iff, andb_false_iff, negb_false_iff, Z.eqb_neq, Z.eqb_eq. split; [intros H; split; [tauto|]; intros -> _; f_equal; tauto|].
  intros [_ H]. destruct (decide (m = BTF_IS_EMBEDDED)) as [Hm|]; [right|by left]. specialize (H Hm eq_refl). congruence.
Qed.

(** ** The setting *)

(** The own types [ts] of the object [o] lie over the distilled base [dob]; [bo] is the new base. *)
Record reloc_ok (o dob bo : btf_obj) (ts : list (list Z)) (N D B : Z) : Prop := {
  rk_types : types_ok [o; dob] N;
  rk_refs : refs_ok [o; dob] N;
  rk_rank : embed_ranked (view [o; dob]) N;
  rk_dist : types_ok [dob] D;
  rk_base : types_ok [bo] B;
  rk_start : o_start_id o = D;
  rk_bodies : bodies o ts;
  rk_offs : o_start_str_off o = h_str_len dob /\ o_start_str_off dob = 0 /\ o_start_str_off bo = 0;
  rk_lens : 0 <= h_str_len o /\ h_str_len dob + h_str_len o < 2 ^ 31 /\ h_str_len bo + h_str_len o < 2 ^ 31;
  rk_dist_names : forall id no, 0 < id < D -> tname_off (view [dob]) id = Some no -> 0 <= no < h_str_len dob;
  rk_base_names : forall id no, 0 < id < B -> tname_off (view [bo]) id = Some no -> 0 <= no < h_str_len bo;
  rk_own_names : forall t k j x, t ∈ ts -> btf_kind t = Some k -> field_word BTF_FIELD_ITER_STRS k j = true -> zget t j = Some x -> 0 <= x < h_str_len dob + h_str_len o;
  rk_empty : btf__str_by_offset (view [dob]) 0 = Some (Some []) /\ btf__str_by_offset (view [bo]) 0 = Some (Some [])
}.

Lemma single_str ob x : o_start_str_off ob = 0 -> 0 <= x < h_str_len ob -> btf__str_by_offset (view [ob]) x = Some (Some (str_at (btf_strs_data ob) x)).
Proof. intros H0 Hx. unfold view. cbn [map btf__str_by_offset layer_of start_str_off strs_len strs]. rewrite H0, Z.sub_0_r. destruct (Z.ltb_spec x 0); [lia|]. destruct (Z.ltb_spec x (h_str_len ob)); [done|lia]. Qed.

Section Names.
Context (ob : btf_obj) (M : Z).
Hypothesis Ht : types_ok [ob] M.
Hypothesis H0 : o_start_str_off ob = 0.
Hypothesis Hn : forall id no, 0 < id < M -> tname_off (view [ob]) id = Some no -> 0 <= no < h_str_len ob.

(** The kind, name and size of a type of a single object. *)
Lemma type_facts id : 0 < id < M -> exists t k v n no sz s, btf_type_by_id (view [ob]) id = Some t /\ whole t k v n /\ name_off t = Some no /\ type t = Some sz /\ 0 <= no < h_str_len ob /\
  btf__str_by_offset (view [ob]) no = Some (Some s) /\ c_string s /\
  tkind (view [ob]) id = Some k /\ tsize (view [ob]) id = Some sz /\ tname_off (view [ob]) id = Some no /\ tname (view [ob]) id = Some s.
Proof.
  intros Hid. destruct (to_types _ _ Ht id Hid) as (t & k & v & n & Et & Hw). pose proof (whole_ranges _ _ _ _ Hw) as (_ & _ & Hn0).
  destruct (whole_word t k v n 0 Hw ltac:(lia)) as [no E0], (whole_word t k v n 2 Hw ltac:(lia)) as [sz E2].
  assert (tname_off (view [ob]) id = Some no) as Eno by (unfold tname_off; rewrite Et; exact E0). pose proof (Hn id no Hid Eno) as Hno. pose proof (single_str ob no H0 Hno) as Hs.
  exists t, k, v, n, no, sz, (str_at (btf_strs_data ob) no). split_and!; try done; try lia.
  - apply str_at_ok.
  - unfold tkind. rewrite Et. apply (wh_kind _ _ _ _ Hw).
  - unfold tsize. rewrite Et. exact E2.
  - unfold tname. rewrite Eno. cbn [mbind option_bind]. by rewrite Hs.
Qed.

(** ** The counts of names *)
Lemma homonyms_snoc no id : 0 < id -> homonyms (view [ob]) (id + 1) no = homonyms (view [ob]) id no ++ (if decide (from_option kind_is_composite false (tkind (view [ob]) id) = true /\ tname_off (view [ob]) id = Some no) then [id] else []).
Proof.
  intros Hid. unfold homonyms. replace (id + 1 - 1) with (id - 1 + 1) by lia. rewrite seqZ_app', filter_app by lia. f_equal. replace (seqZ (1 + (id - 1)) 1) with [id] by (replace (1 + (id - 1)) with id by lia; done). rewrite filter_cons, filter_nil. done.
Qed.

Definition counts (cnt : list Z) (id : Z) : Prop := Z.of_nat (length cnt) = h_str_len ob /\ forall no, 0 < no < h_str_len ob -> zget cnt no = Some (Z.min 255 (Z.of_nat (length (homonyms (view [ob]) id no)))).

Lemma name_cnt_spec nn id cnt : 0 < id -> id + Z.of_nat nn <= M -> counts cnt id -> exists cnt', name_cnt_loop nn (view [ob]) id cnt = Some cnt' /\ counts cnt' (id + Z.of_nat nn).
Proof.
  revert id cnt. induction nn as [|nn IH]; intros id cnt Hid Hle Hc; cbn [name_cnt_loop]; [exists cnt; split; [done|]; by rewrite Z.add_0_r|].
  destruct (type_facts id) as (t & k & v & n & no & sz & s & Et & Hw & Eno & _ & Hno & _ & _ & Ek & _ & Eno' & _); [lia|]. rewrite Et. cbn [mbind option_bind]. rewrite (wh_kind _ _ _ _ Hw). cbn [mbind option_bind]. rewrite Eno. cbn [mbind option_bind].
  assert (forall cnt', counts cnt' (id + 1) -> exists cnt'', name_cnt_loop nn (view [ob]) (id + 1) cnt' = Some cnt'' /\ counts cnt'' (id + Z.of_nat (S nn))) as Hnext.
  { intros cnt' Hc'. destruct (IH (id + 1) cnt') as (cnt'' & ? & ?); [lia|lia|done|]. exists cnt''. split; [done|]. by replace (id + Z.of_nat (S nn)) with (id + 1 + Z.of_nat nn) by lia. }
  destruct Hc as [Hl Hc]. destruct (kind_is_composite k) eqn:Hk; cbn [negb orb].
  2:{ apply Hnext. split; [done|]. intros no' Hno'. rewrite (Hc no' Hno'), homonyms_snoc, Ek by done. cbn [from_option]. rewrite Hk, decide_False by (intros [? _]; done). by rewrite app_nil_r. }
  destruct (Z.eqb_spec no 0) as [->|Hno0].
  { apply Hnext. split; [done|]. intros no' Hno'. rewrite (Hc no' Hno'), homonyms_snoc, Eno' by done. rewrite decide_False by (intros [_ [= ?]]; lia). by rewrite app_nil_r. }
  rewrite (Hc no) by lia. cbn [mbind option_bind]. set (L := homonyms (view [ob]) id no). destruct (Z.ltb_spec (Z.min 255 (Z.of_nat (length L))) 255) as [Hlt|Hge].
  - destruct (zset_is_Some cnt no (Z.min 255 (Z.of_nat (length L)) + 1)) as [cnt' Hs]; [lia|]. rewrite Hs. cbn [mbind option_bind]. apply Hnext. split; [by rewrite (zset_length _ _ _ _ Hs)|].
    intros no' Hno'. rewrite homonyms_snoc, Ek, Eno' by done. cbn [from_option]. destruct (decide (no' = no)) as [->|Hne].
    + rewrite (zget_zset_eq _ _ _ _ Hs), decide_True by done. fold L. rewrite length_app. cbn [length]. f_equal. lia.
    + rewrite (zget_zset_ne _ _ _ _ _ Hs), (Hc no' Hno'), decide_False by (done || (intros [_ [= ?]]; done)). by rewrite app_nil_r.
  - cbn [mbind option_bind]. apply Hnext. split; [done|]. intros no' Hno'. rewrite (Hc no' Hno'), homonyms_snoc, Ek, Eno' by done. cbn [from_option]. destruct (decide (no' = no)) as [->|Hne].
    + rewrite decide_True by done. fold L. rewrite length_app. cbn [length]. f_equal. lia.
    + rewrite decide_False by (intros [_ [= ?]]; done). by rewrite app_nil_r.
Qed.
End Names.

(** ** Keys and entries *)
Lemma mapM_map {A C} (f : A -> option C) (g : A -> C) l : (forall x, x ∈ l -> f x = Some (g x)) -> mapM f l = Some (g <$> l).
Proof.
  induction l as [|x l IH]; intros H; [done|]. cbn [mapM]. rewrite (H x) by left. cbn [mbind option_bind]. rewrite IH by (intros y Hy; apply H; by right). done.
Qed.

Lemma sorted_strong {A} (R : A -> A -> Prop) (P : A -> Prop) l : (forall x y z, P x -> P y -> P z -> R x y -> R y z -> R x z) -> Forall P l -> Sorted R l -> StronglySorted R l.
Proof.
  intros Htr. induction l as [|x l IH]; intros HP Hs; [constructor|]. apply Forall_cons in HP as [Hx HP]. inversion Hs as [|? ? Hl Hh]; subst. specialize (IH HP Hl). constructor; [done|].
  destruct Hh as [|y l Hxy]; [done|]. inversion IH as [|? ? _ Hy]; subst. apply Forall_cons in HP as [Py HP]. constructor; [done|]. apply Forall_forall. intros z Hz. rewrite Forall_forall in HP, Hy. apply (Htr x y z); auto.
Qed.

#[export] Instance info_le_total : Total info_le.
Proof.
  intros x y. unfold info_le, cmp_btf_name_size. destruct (ni_name x) as [s|], (ni_name y) as [s'|]; cbn [mbind option_bind from_option]; auto. rewrite (strcmp_flip s s').
  replace (- strcmp s s' =? 0) with (strcmp s s' =? 0) by (destruct (Z.eqb_spec (strcmp s s') 0), (Z.eqb_spec (- strcmp s s') 0); done || lia). rewrite (andb_comm _ (needs_size x)), (andb_comm (_ && needs_size y)), andb_assoc.
  rewrite (andb_comm (needs_size x) (_ =? 0)), <- (andb_assoc (_ =? 0)), (andb_comm (needs_size x)), (andb_assoc (_ =? 0)). destruct (_ && needs_size x); lia.
Qed.

Lemma info_le_trans x y z : good_info x -> good_info y -> good_info z -> info_le x y -> info_le y z -> info_le x z.
Proof.
  intros Hx Hy Hz Hxy Hyz. destruct (cmp_total x y (proj1 Hx) (proj1 Hy)) as [d Hd], (cmp_total x z (proj1 Hx) (proj1 Hz)) as [e He]. destruct (cmp_mono x y z d e (proj1 Hx) Hy Hz Hyz Hd He) as [H1 H2].
  unfold info_le in *. rewrite Hd in Hxy. rewrite He. cbn [from_option] in *. lia.
Qed.

Section Match.
Context (o dob bo : btf_obj) (ts : list (list Z)) (N D B : Z).
Hypothesis Hok : reloc_ok o dob bo ts N D B.

Record frame (r : btf_relocate_r) : Prop := {
  fr_btf : r_btf r = [o; dob];
  fr_base : r_base r = [bo];
  fr_nr : nr_base_types r = B /\ nr_split_types r = N - D /\ nr_dist_base_types r = D;
  fr_len : dist_str_len r = h_str_len dob /\ base_str_len r = h_str_len bo
}.

Lemma dist_db r : frame r -> dist_base_btf r = view [dob].
Proof. intros [Hb _ _ _]. unfold dist_base_btf. by rewrite Hb. Qed.

Lemma counts_pos : 0 < D /\ 0 < B /\ D <= N /\ N <= 2 ^ 31 /\ B <= 2 ^ 31.
Proof.
  destruct (to_head _ _ (rk_dist _ _ _ _ _ _ _ Hok)) as (x & l & _ & Hd & H1 & H2 & _). destruct (to_head _ _ (rk_base _ _ _ _ _ _ _ Hok)) as (y & l' & _ & Hd' & H1' & H2' & _).
  destruct (to_head _ _ (rk_types _ _ _ _ _ _ _ Hok)) as (z & l'' & [= <- <-] & Hd'' & H1'' & H2'' & _). pose proof (rk_start _ _ _ _ _ _ _ Hok). pose proof (to_max _ _ (rk_types _ _ _ _ _ _ _ Hok)). pose proof (to_max _ _ (rk_base _ _ _ _ _ _ _ Hok)). lia.
Qed.

Definition info_of (i : Z) : btf_name_info := NameInfo (tname (view [dob]) i) true (wrap 31 (default 0 (tsize (view [dob]) i))) i.

Lemma dist_facts i : 0 < i < D -> exists t k v n no sz s, btf_type_by_id (view [dob]) i = Some t /\ whole t k v n /\ name_off t = Some no /\ type t = Some sz /\ 0 <= no < h_str_len dob /\
  btf__str_by_offset (view [dob]) no = Some (Some s) /\ c_string s /\
  tkind (view [dob]) i = Some k /\ tsize (view [dob]) i = Some sz /\ tname_off (view [dob]) i = Some no /\ tname (view [dob]) i = Some s.
Proof. apply type_facts; [apply Hok|apply Hok|]. intros. by eapply (rk_dist_names _ _ _ _ _ _ _ Hok). Qed.

Lemma base_facts j : 0 < j < B -> exists t k v n no sz s, btf_type_by_id (view [bo]) j = Some t /\ whole t k v n /\ name_off t = Some no /\ type t = Some sz /\ 0 <= no < h_str_len bo /\
  btf__str_by_offset (view [bo]) no = Some (Some s) /\ c_string s /\
  tkind (view [bo]) j = Some k /\ tsize (view [bo]) j = Some sz /\ tname_off (view [bo]) j = Some no /\ tname (view [bo]) j = Some s.
Proof. apply type_facts; [apply Hok|apply Hok|]. intros. by eapply (rk_base_names _ _ _ _ _ _ _ Hok). Qed.

Lemma void_name : tname (view [dob]) 0 = Some [].
Proof. unfold tname, tname_off. cbn [view map btf_type_by_id layer_of]. change (0 =? 0) with true. cbv iota. cbn [mbind option_bind]. change (name_off btf_void) with (Some 0). cbn [mbind option_bind]. change [layer_of dob] with (view [dob]). pose proof (proj1 (rk_empty _ _ _ _ _ _ _ Hok)) as H. by rewrite H. Qed.

Lemma info_good i : 0 <= i < D -> good_info (info_of i).
Proof.
  intros Hi. split; [|done]. destruct (decide (i = 0)) as [->|]; [exists []; split; [apply void_name|constructor]|].
  destruct (dist_facts i) as (? & ? & ? & ? & ? & ? & s & _ & _ & _ & _ & _ & _ & Hs & _ & _ & _ & Hn); [lia|]. by exists s.
Qed.

Lemma dist_info_spec r i : frame r -> 0 <= i < D -> dist_info r i = Some (info_of i).
Proof.
  intros Hr Hi. unfold dist_info. rewrite (dist_db r Hr). destruct (decide (i = 0)) as [->|].
  - unfold info_of. rewrite void_name. cbn [view map btf_type_by_id layer_of]. change (0 =? 0) with true. cbv iota. cbn [mbind option_bind]. change (name_off btf_void) with (Some 0). cbn [mbind option_bind]. pose proof (proj1 (rk_empty _ _ _ _ _ _ _ Hok)) as H. change btf__name_by_offset with btf__str_by_offset. change [layer_of dob] with (view [dob]). by rewrite H.
  - destruct (dist_facts i) as (t & ? & ? & ? & no & sz & s & Et & _ & Eno & Esz & _ & Es & _ & _ & Esz' & _ & En); [lia|]. rewrite Et. cbn [mbind option_bind]. rewrite Eno. cbn [mbind option_bind]. change btf__name_by_offset with btf__str_by_offset. rewrite Es. cbn [mbind option_bind]. rewrite Esz. cbn [mbind option_bind].
    unfold info_of. by rewrite En, Esz'.
Qed.

Lemma infos_spec r : frame r -> exists infos, (l ← mapM (dist_info r) (seqZ 0 (nr_dist_base_types r)); sort_infos l) = Some infos /\
  infos ≡ₚ (info_of <$> seqZ 0 D) /\ Forall good_info infos /\ StronglySorted info_le infos /\ Z.of_nat (length infos) = D.
Proof.
  intros Hr. destruct counts_pos as (HD & _). destruct (fr_nr _ Hr) as (_ & _ & ->). rewrite (mapM_map _ info_of) by (intros x Hx%elem_of_seqZ; apply dist_info_spec; [done|lia]). cbn [mbind option_bind].
  assert (Forall good_info (info_of <$> seqZ 0 D)) as Hg. { apply Forall_fmap, Forall_forall. intros i Hi%elem_of_seqZ. apply info_good. lia. }
  unfold sort_infos. rewrite option_guard_True by (right; eapply Forall_impl; [exact Hg|]; intros v [(s & Hs & _) _]; by exists s). cbn [mbind option_bind].
  exists (merge_sort info_le (info_of <$> seqZ 0 D)). pose proof (merge_sort_Permutation info_le (info_of <$> seqZ 0 D)) as Hp. split_and!; [done|done| | |].
  - by rewrite Hp.
  - apply (sorted_strong _ good_info); [apply info_le_trans|by rewrite Hp|apply Sorted_merge_sort; apply _].
  - rewrite Hp, length_fmap, length_seqZ. lia.
Qed.

(** The key of a base type compares as equal with the entries of its name and, where that counts,
    its size. *)
Definition key_of (j : Z) (k : btf_name_info) : Prop := searched (view [bo]) j /\ ni_name k = tname (view [bo]) j /\ (needs_size k = true <-> sized (view [bo]) B j) /\
  (needs_size k = true -> Some (ni_size k) = wrap 31 <$> tsize (view [bo]) j).

Lemma base_key_spec r cnt j : frame r -> counts bo cnt B -> 0 < j < B -> exists key, base_key r cnt j = Some key /\ match key with None => ~ searched (view [bo]) j | Some k => key_of j k end.
Proof.
  intros Hr [_ Hc] Hj. destruct (base_facts j Hj) as (t & k & v & n & no & sz & s & Et & Hw & Eno & Esz & Hno & Es & _ & Ek & Esz' & Eno' & En).
  assert (forall P, (forall k0 no0, tkind (view [bo]) j = Some k0 -> tname_off (view [bo]) j = Some no0 -> k0 = k /\ no0 = no -> P) -> P) as Hfun by (intros P HP; by apply (HP k no)).
  unfold base_key. rewrite (fr_base _ Hr), Et. cbn [mbind option_bind]. rewrite Eno. cbn [mbind option_bind]. destruct (Z.eqb_spec no 0) as [->|Hno0].
  { exists None. split; [done|]. intros (k' & no' & _ & E & Hne & _). congruence. }
  rewrite (wh_kind _ _ _ _ Hw). cbn [mbind option_bind]. change btf__name_by_offset with btf__str_by_offset. rewrite Es. cbn [mbind option_bind]. rewrite Esz. cbn [mbind option_bind]. change (_ || (k =? BTF_KIND_ENUM64)) with (numeric_kind k).
  destruct (numeric_kind k) eqn:Hnk; [|destruct (Z.eqb_spec k BTF_KIND_FWD) as [->|Hf]; [|destruct (kind_is_composite k) eqn:Hck]].
  - eexists. split; [done|]. split_and!; [exists k, no; by rewrite Hnk|by rewrite En|split; [intros _; exists k, no; split_and!; [done|done|by left]|done]|]. intros _. by rewrite Esz'.
  - eexists. split; [done|]. split_and!; [by exists BTF_KIND_FWD, no|by rewrite En|split; [done|]|done]. intros (k' & no' & E & _ & H). rewrite Ek in E. injection E as <-. destruct H as [H|[H _]]; done.
  - rewrite (Hc no) by lia. cbn [mbind option_bind]. eexists. split; [done|]. split_and!; [exists k, no; rewrite Hck; by rewrite orb_true_r|by rewrite En| |intros _; by rewrite Esz'].
    cbn [needs_size]. rewrite Z.gtb_lt. split; [intros Hgt; exists k, no; split_and!; [done|done|right; split; [done|lia]]|]. intros (k' & no' & E & E' & H). rewrite Ek in E. rewrite Eno' in E'. injection E as <-. injection E' as <-. destruct H as [H|[_ H]]; [congruence|lia].
  - exists None. split; [done|]. intros (k' & no' & E & _ & _ & H). rewrite Ek in E. injection E as <-. rewrite Hnk, Hck in H. destruct (Z.eqb_spec k BTF_KIND_FWD); done.
Qed.

Lemma key_good j k : 0 < j < B -> key_of j k -> good_key k.
Proof. intros Hj (_ & Hn & _). destruct (base_facts j Hj) as (? & ? & ? & ? & ? & ? & s & _ & _ & _ & _ & _ & _ & Hs & _ & _ & _ & En). exists s. by rewrite Hn. Qed.

Lemma equal_spec j k i : 0 < j < B -> key_of j k -> 0 <= i < D -> cmp_btf_name_size k (info_of i) = Some 0 <->
  (exists s, tname (view [dob]) i = Some s /\ tname (view [bo]) j = Some s) /\ (sized (view [bo]) B j -> Some (wrap 31 (default 0 (tsize (view [dob]) i))) = wrap 31 <$> tsize (view [bo]) j).
Proof.
  intros Hj Hk Hi. destruct (key_good j k Hj Hk) as (s & Hs & Cs). destruct Hk as (_ & Hn & Hsz & Hv). destruct (info_good i Hi) as [(s' & Hs' & Cs') _]. unfold cmp_btf_name_size. rewrite Hs, Hs'. cbn [mbind option_bind needs_size info_of ni_size]. rewrite andb_true_r. rewrite <- Hn, Hs. change (ni_name (info_of i)) with (tname (view [dob]) i) in Hs'. rewrite Hs'.
  destruct (Z.eqb_spec (strcmp s' s) 0) as [E|E]; rewrite (strcmp_flip s' s).
  - apply strcmp_eq in E as ->; [|done|done]. rewrite strcmp_refl. change (- 0 =? 0) with true. cbn [andb]. destruct (needs_size k) eqn:Hns.
    + rewrite <- Hv by done. generalize (wrap 31 (default 0 (tsize (view [dob]) i))). intros w. split; [intros H; split; [by exists s|]; intros _; f_equal; assert (w - ni_size k = 0) by congruence; lia|].
      intros [_ H]. assert (w = ni_size k) as -> by (rewrite <- Hsz in H; specialize (H eq_refl); congruence). by rewrite Z.sub_diag.
    + split; [intros _; split; [by exists s|]|done]. intros H. by apply Hsz in H.
  - destruct (Z.eqb_spec (- strcmp s' s) 0); [lia|]. cbn [andb]. split; [intros [= H]; lia|]. intros [(s0 & [= <-] & [= <-]) _]. by rewrite strcmp_refl in E.
Qed.

(** ** The map *)

(** A struct or union of the distilled base is a part of a struct or union of the object; then its
    size has to agree. *)
Definition embedded (i : Z) : Prop := exists x, D <= x < N /\ embeds [o; dob] x i.
Definition matches (i j : Z) : Prop := candidate (view [dob]) (view [bo]) B i j /\ (embedded i -> tsize (view [dob]) i = tsize (view [bo]) j).

(** Two base types for a distilled type, or a base type whose name is empty. *)
Definition clash : Prop := (exists i j j', 0 < i < D /\ j <> j' /\ candidate (view [dob]) (view [bo]) B i j /\ candidate (view [dob]) (view [bo]) B i j') \/
  (exists j, 0 < j < B /\ searched (view [bo]) j /\ tname (view [bo]) j = Some []).

Context (m0 : list Z).

(** The entry [x] of the distilled type [i] when the base types below [J] have been searched. *)
Definition reloc_entry (i x J : Z) : Prop :=
  (x = 0 /\ ~ embedded i \/ x = BTF_IS_EMBEDDED /\ embedded i) /\ (forall j, 0 < j < J -> ~ matches i j) \/
  0 < x < J /\ matches i x /\ forall j, 0 < j < J -> matches i j -> j = x.

Record reloc_inv (r : btf_relocate_r) (J : Z -> Z) : Prop := {
  ri_frame : frame r;
  ri_len : Z.of_nat (length (id_map r)) = N;
  ri_slen : Z.of_nat (length (str_map r)) = h_str_len dob;
  ri_other : forall i, ~ 0 < i < D -> zget (id_map r) i = zget m0 i;
  ri_ids : forall i, 0 < i < D -> exists x, zget (id_map r) i = Some x /\ reloc_entry i x (J i);
  ri_strs : forall x y, zget (str_map r) x = Some y -> y = 0 \/ exists i j, 0 < i < D /\ zget (id_map r) i = Some j /\ 0 < j < B /\ matches i j /\ tname_off (view [dob]) i = Some x /\ tname_off (view [bo]) j = Some y;
  ri_named : forall i j, 0 < i < D -> zget (id_map r) i = Some j -> 0 < j < B -> exists x y, tname_off (view [dob]) i = Some x /\ zget (str_map r) x = Some y /\ y <> 0
}.

Lemma reloc_inv_ext r J J' : reloc_inv r J -> (forall i, 0 < i < D -> J i = J' i) -> reloc_inv r J'.
Proof. intros [H1 H2 H3 H4 H5 H6 H7] HJ. split; try done. intros i Hi. rewrite <- (HJ i Hi). by apply H5. Qed.

Lemma dist_embedded i : 0 < i < D -> embedded i -> exists k, tkind (view [dob]) i = Some k /\ kind_is_composite k = true.
Proof.
  intros Hi (x & _ & t & k & v & n & j & y & _ & _ & _ & _ & _ & _ & Hl). assert (exists k, tkind (view [o; dob]) i = Some k /\ kind_is_composite k = true) as (k' & Hk & Hc).
  { clear -Hl. induction Hl as [x t k _ Ht Hk Hc|x y i _ _ _ IH]; [|done]. exists k. split; [|done]. unfold tkind. by rewrite Ht. }
  exists k'. split; [|done]. rewrite <- Hk. unfold tkind. cbn [view map btf_type_by_id layer_of start_id]. rewrite (rk_start _ _ _ _ _ _ _ Hok). destruct (Z.eqb_spec i 0); [lia|]. destruct (Z.ltb_spec i D); [done|lia].
Qed.

(** An entry for the base type [j] after [j] has been tried. *)
Lemma entry_skip i x j : reloc_entry i x j -> ~ matches i j -> reloc_entry i x (j + 1).
Proof.
  intros [[Hx Hn]|(Hx & Hm & Hu)] Hj; [left|right].
  - split; [done|]. intros j' Hj'. destruct (decide (j' = j)) as [->|]; [done|]. apply Hn. lia.
  - split_and!; [lia|lia|done|]. intros j' Hj' Hm'. destruct (decide (j' = j)) as [->|]; [done|]. apply Hu; [lia|done].
Qed.

Lemma match_infos_spec key j L r : 0 < j < B -> key_of j key -> NoDup L -> (forall i, i ∈ L -> 0 <= i < D /\ cmp_btf_name_size key (info_of i) = Some 0) ->
  reloc_inv r (fun i => if decide (i ∈ L) then j else j + 1) ->
  exists err r', match_infos key j (info_of <$> L) r = Some (err, r') /\ (err = 0 /\ reloc_inv r' (fun _ => j + 1) \/ err = - EINVAL /\ clash).
Proof.
  intros Hj Hkey. revert r. induction L as [|i L IH]; intros r Hnd HL Hr; cbn [fmap list_fmap match_infos].
  { exists 0, r. split; [done|]. left. split; [done|]. apply (reloc_inv_ext _ _ _ Hr). intros i _. by rewrite decide_False by apply not_elem_of_nil. }
  apply NoDup_cons in Hnd as [HiL Hnd]. destruct (HL i) as [Hi Hcmp]; [left|]. rewrite Hcmp. cbn [mbind option_bind Z.eqb negb ni_id info_of]. pose proof Hr as [Hfr Hlen Hslen Hoth Hids Hstrs Hnamed]. destruct (fr_nr _ Hfr) as (_ & _ & ->).
  pose proof Hcmp as [Hname Hsize]%(equal_spec j key i); [|done|done|lia]. destruct counts_pos as (HD & HB & HDN & HN & HBm).
  destruct (Z.eqb_spec i 0) as [->|Hi0]; cbn [orb].
  { eexists _, _. split; [done|]. right. split; [done|]. right. exists j. split_and!; [lia|lia|apply Hkey|]. destruct Hname as (s & Hs & Hs'). rewrite void_name in Hs. by injection Hs as <-. }
  destruct (Z.leb_spec D i); [lia|]. rewrite (fr_base _ Hfr), (dist_db _ Hfr).
  destruct (base_facts j Hj) as (t' & k' & v' & n' & no' & sz' & s' & Et' & Hw' & Eno' & Esz' & Hno' & _ & _ & Ek' & Tsz' & Tno' & _). destruct (dist_facts i) as (t & k & v & n & no & sz & s & Et & Hw & Eno & Esz & Hno & _ & _ & Ek & Tsz & Tno & _); [lia|].
  rewrite Et', Et. cbn [mbind option_bind]. destruct (Hids i) as (x & Hx & Hent); [lia|]. rewrite decide_True in Hent by left. rewrite Hx. cbn [mbind option_bind].
  destruct (dist_compat_spec t k v n t' k' v' n' x Hw Hw') as (ok & -> & Hok'). cbn [mbind option_bind].
  assert (compatible t t' <-> candidate (view [dob]) (view [bo]) B i j) as Hcand.
  { split; [|intros [_ _ _ _ (u & u' & Eu & Eu' & Hc)]; rewrite Et in Eu; rewrite Et' in Eu'; by simplify_eq]. intros Hc. split; [done|apply Hkey|done| |by exists t, t']. intros Hsd. specialize (Hsize Hsd). rewrite Tsz in Hsize |- *. exact Hsize. }
  assert (forall r1, reloc_inv r1 (fun i' => if decide (i' ∈ L) then j else j + 1) -> exists err r', match_infos key j (info_of <$> L) r1 = Some (err, r') /\ (err = 0 /\ reloc_inv r' (fun _ => j + 1) \/ err = - EINVAL /\ clash)) as Hnext.
  { intros r1 Hr1. apply IH; [done|intros i' Hi'; apply HL; by right|done]. }
  assert ((forall i', 0 < i' < D -> i' <> i -> exists x, zget (id_map r) i' = Some x /\ reloc_entry i' x (if decide (i' ∈ L) then j else j + 1))) as Hrest.
  { intros i' Hi' Hne. destruct (Hids i' Hi') as (x' & Hx' & He'). exists x'. split; [done|]. destruct (decide (i' ∈ L)); [by rewrite decide_True in He' by (by right)|]. rewrite decide_False in He' by (intros [?|?]%elem_of_cons; done). done. }
  assert (~ matches i j -> reloc_inv r (fun i' => if decide (i' ∈ L) then j else j + 1)) as Hskip.
  { intros Hn. split; try done. intros i' Hi'. destruct (decide (i' = i)) as [->|]; [|by apply Hrest]. exists x. split; [done|]. rewrite decide_False by done. by apply entry_skip. }
  destruct ok; cbn [negb].
  2:{ apply Hnext, Hskip. intros [Hc He]. enough (false = true) by done. apply Hok'. split; [by apply Hcand|]. intros Hxe _. destruct Hent as [[[[Hx0 _]|[_ Hemb]] _]|[Hxr _]]; [rewrite Hx0 in Hxe; done| |unfold BTF_IS_EMBEDDED in Hxe; lia]. specialize (He Hemb). rewrite Tsz, Tsz' in He. congruence. }
  destruct Hok' as [[Hcp Hemb] _]; [done|]. apply Hcand in Hcp. destruct (decide (x = 0 \/ x = BTF_IS_EMBEDDED)) as [Hxm|Hxm].
  2:{ destruct (Z.eqb_spec x 0), (Z.eqb_spec x BTF_IS_EMBEDDED); cbn [negb andb]; [tauto|tauto|tauto|]. eexists _, _. split; [done|]. right. split; [done|]. left. destruct Hent as [[[[? _]|[? _]] _]|(Hxr & [Hcx _] & _)]; [done|done|]. exists i, x, j. split_and!; [lia|lia|lia|done|done]. }
  replace (negb (x =? 0) && negb (x =? BTF_IS_EMBEDDED)) with false by (destruct Hxm as [-> | ->]; done).
  destruct Hent as [[Hmark Hnone]|(Hxr & _)]; [|unfold BTF_IS_EMBEDDED in Hxm; lia].
  assert (matches i j) as Hm. { split; [done|]. intros He. destruct (dist_embedded i ltac:(lia) He) as (k1 & Hk1 & Hc1). rewrite Ek in Hk1. injection Hk1 as <-. rewrite Tsz, Tsz'. rewrite <- Esz, <- Esz'. symmetry. apply Hemb; [|done]. destruct Hmark as [[_ ?]|[? _]]; done. }
  destruct (zset_is_Some (id_map r) i j) as [im Him]; [lia|]. rewrite Him. cbn [mbind option_bind]. rewrite Eno, Eno'. cbn [mbind option_bind]. destruct (zset_is_Some (str_map r) no no') as [sm Hsm]; [lia|]. rewrite Hsm. cbn [mbind option_bind].
  apply Hnext. split; cbn [id_map str_map with_id_map with_str_map].
  - destruct Hfr. by split.
  - by rewrite (zset_length _ _ _ _ Him).
  - by rewrite (zset_length _ _ _ _ Hsm).
  - intros i' Hi'. rewrite (zget_zset_ne _ _ _ _ _ Him); [by apply Hoth|]. intros ->. lia.
  - intros i' Hi'. destruct (decide (i' = i)) as [->|Hne]; [|rewrite (zget_zset_ne _ _ _ _ _ Him) by done; by apply Hrest]. exists j. split; [by apply (zget_zset_eq _ _ _ _ Him)|]. rewrite decide_False by done. right. split_and!; [lia|lia|done|].
    intros j' Hj' Hm'. destruct (decide (j' = j)) as [->|]; [done|]. exfalso. apply (Hnone j'); [lia|done].
  - intros a b Hab. destruct (decide (a = no)) as [->|Hne]; [rewrite (zget_zset_eq _ _ _ _ Hsm) in Hab; injection Hab as <-; right; exists i, j; split_and!; try done; try lia; by apply (zget_zset_eq _ _ _ _ Him)|].
    rewrite (zget_zset_ne _ _ _ _ _ Hsm) in Hab by done. destruct (Hstrs a b Hab) as [?|(i1 & j1 & Hi1 & Hz1 & Hj1 & Hrest1)]; [by left|right]. exists i1, j1. split_and!; try done; try lia; [|apply Hrest1..]. rewrite (zget_zset_ne _ _ _ _ _ Him); [done|]. intros ->. rewrite Hx in Hz1. injection Hz1 as ->. unfold BTF_IS_EMBEDDED in Hxm. lia.
  - assert (no' <> 0) as Hno0 by (destruct Hkey as [(k1 & no1 & _ & E1 & Hne & _) _]; congruence). intros i1 j1 Hi1 Hz1 Hj1. destruct (decide (i1 = i)) as [->|Hne].
    + exists no, no'. split_and!; [done|by apply (zget_zset_eq _ _ _ _ Hsm)|done].
    + rewrite (zget_zset_ne _ _ _ _ _ Him) in Hz1 by done. destruct (Hnamed i1 j1 Hi1 Hz1 Hj1) as (a & b & Ha & Hb & Hb0). destruct (decide (a = no)) as [->|Hna]; [exists no, no'; split_and!; [done|by apply (zget_zset_eq _ _ _ _ Hsm)|done]|]. exists a, b. split_and!; [done| |done]. by rewrite (zget_zset_ne _ _ _ _ _ Hsm).
Qed.

Lemma match_infos_btf key j l r err r' : match_infos key j l r = Some (err, r') -> r_btf r' = r_btf r.
Proof.
  revert r. induction l as [|v l IH]; intros r; cbn [match_infos]; [by intros [= <- <-]|]. destruct (cmp_btf_name_size key v) as [d|]; [|done]. cbn [mbind option_bind]. destruct (negb (d =? 0)); [by intros [= <- <-]|]. destruct (_ || _); [by intros [= <- <-]|].
  destruct (btf_type_by_id (view (r_base r)) j) as [t'|]; [|done]. cbn [mbind option_bind]. destruct (btf_type_by_id (dist_base_btf r) (ni_id v)) as [t|]; [|done]. cbn [mbind option_bind]. destruct (zget (id_map r) (ni_id v)) as [x|]; [|done]. cbn [mbind option_bind].
  destruct (dist_compat t t' x) as [[]|]; [|apply IH|done]. cbn [mbind option_bind negb]. destruct (_ && _); [by intros [= <- <-]|]. destruct (zset (id_map r) (ni_id v) j); [|done]. cbn [mbind option_bind]. destruct (name_off t); [|done]. cbn [mbind option_bind]. destruct (name_off t'); [|done]. cbn [mbind option_bind].
  destruct (zset (str_map r) _ _); [|done]. cbn [mbind option_bind]. intros H. by apply IH in H.
Qed.

Lemma NoDup_fmap_filter {A C} (f : A -> C) (P : A -> Prop) `{!forall x, Decision (P x)} l : NoDup (f <$> l) -> NoDup (f <$> filter P l).
Proof.
  induction l as [|x l IH]; [done|]. cbn [fmap list_fmap]. intros [Hx Hl]%NoDup_cons. destruct (decide (P x)); [rewrite filter_cons_True by done|rewrite filter_cons_False by done; by apply IH]. cbn [fmap list_fmap]. apply NoDup_cons. split; [|by apply IH].
  intros Hin. apply Hx. apply list_elem_of_fmap in Hin as (y & -> & [_ Hy]%list_elem_of_filter). apply list_elem_of_fmap. by exists y.
Qed.

Lemma match_base_spec infos cnt r j : infos ≡ₚ (info_of <$> seqZ 0 D) -> Forall good_info infos -> StronglySorted info_le infos -> Z.of_nat (length infos) = D -> counts bo cnt B -> 0 < j < B -> reloc_inv r (fun _ => j) ->
  exists err r', match_base infos cnt r j = Some (err, r') /\ r_btf r' = r_btf r /\ (err = 0 /\ reloc_inv r' (fun _ => j + 1) \/ err = - EINVAL /\ clash).
Proof.
  intros Hp Hgood Hsort Hlen Hcnt Hj Hr. pose proof Hr as [Hfr _ _ _ Hids _ _]. unfold match_base. destruct (base_key_spec r cnt j Hfr Hcnt Hj) as (key & -> & Hkey). cbn [mbind option_bind].
  assert (forall L : list Z, (forall i, 0 < i < D -> matches i j -> i ∈ L) -> reloc_inv r (fun i => if decide (i ∈ L) then j else j + 1)) as Hstart.
  { intros L HL. destruct Hr as [H1 H2 H3 H4 H5 H6 H7]. split; try done. intros i Hi. destruct (Hids i Hi) as (x & Hx & He). exists x. split; [done|]. destruct (decide (i ∈ L)) as [|Hn]; [done|]. apply entry_skip; [done|]. intros Hm. by apply Hn, HL. }
  destruct key as [key|].
  2:{ exists 0, r. split_and!; [done|done|]. left. split; [done|]. apply (reloc_inv_ext _ _ _ (Hstart [] ltac:(intros i _ [[_ Hs _ _ _] _]; done))). intros i _. by rewrite decide_False by apply not_elem_of_nil. }
  destruct (fr_nr _ Hfr) as (_ & _ & ->). rewrite <- Hlen. destruct (search_match key infos (key_good j key Hj Hkey) Hgood Hsort j r) as (found & -> & Hloop). cbn [mbind option_bind].
  assert (forall v, v ∈ infos -> v = info_of (ni_id v) /\ 0 <= ni_id v < D) as Hinfo. { intros v Hv. rewrite Hp in Hv. apply list_elem_of_fmap in Hv as (i & -> & Hi%elem_of_seqZ). split; [done|]. cbn. lia. }
  assert (equal_infos key infos = info_of <$> (ni_id <$> equal_infos key infos)) as E. { rewrite <- list_fmap_compose. rewrite <- (list_fmap_id (equal_infos key infos)) at 1. apply list_fmap_ext. intros i v Hv. apply (Hinfo v). eapply list_elem_of_filter. by apply list_elem_of_lookup_2 in Hv. }
  assert (exists err r', match_infos key j (equal_infos key infos) r = Some (err, r') /\ (err = 0 /\ reloc_inv r' (fun _ => j + 1) \/ err = - EINVAL /\ clash)) as (err & r' & Hrun & Hcase).
  { rewrite E. apply match_infos_spec; [done|done| | |].
    - apply NoDup_fmap_filter. rewrite Hp, <- list_fmap_compose, (list_fmap_ext _ id); [rewrite list_fmap_id; apply NoDup_seqZ|done].
    - intros i Hi. apply list_elem_of_fmap in Hi as (v & -> & [Hv0 Hv]%list_elem_of_filter). destruct (Hinfo v Hv) as [<- ?]. done.
    - apply Hstart. intros i Hi [[_ _ Hn Hsz _] _]. apply list_elem_of_fmap. exists (info_of i). split; [done|]. apply list_elem_of_filter. split.
      + apply equal_spec with j; [done|done|lia|]. split; [done|]. intros Hsd. specialize (Hsz Hsd). destruct (dist_facts i Hi) as (? & ? & ? & ? & ? & sz & ? & _ & _ & _ & _ & _ & _ & _ & _ & Ts & _). rewrite Ts in Hsz |- *. exact Hsz.
      + rewrite Hp. apply list_elem_of_fmap. exists i. split; [done|]. apply elem_of_seqZ. lia. }
  rewrite Hloop. exists err, r'. split_and!; [done|by eapply match_infos_btf|done].
Qed.

Lemma match_all_spec infos cnt nn : infos ≡ₚ (info_of <$> seqZ 0 D) -> Forall good_info infos -> StronglySorted info_le infos -> Z.of_nat (length infos) = D -> counts bo cnt B ->
  forall r j, 0 < j -> j + Z.of_nat nn <= B -> reloc_inv r (fun _ => j) ->
  exists err r', reloc_each nn j (match_base infos cnt) r = Some (err, r') /\ r_btf r' = r_btf r /\ (err = 0 /\ reloc_inv r' (fun _ => j + Z.of_nat nn) \/ err = - EINVAL /\ clash).
Proof.
  intros Hp Hgood Hsort Hlen Hcnt. induction nn as [|nn IH]; intros r j Hj Hle Hr; cbn [reloc_each]; [exists 0, r; split_and!; [done|done|]; left; split; [done|]; by rewrite Z.add_0_r|].
  destruct (match_base_spec infos cnt r j Hp Hgood Hsort Hlen Hcnt ltac:(lia) Hr) as (err & r1 & -> & Hb & [[-> Hr1]|[-> Hc]]); cbn [mbind option_bind].
  - change (negb (0 =? 0)) with false. cbv iota. destruct (IH r1 (j + 1)) as (err & r' & -> & Hb' & Hcase); [lia|lia|done|]. exists err, r'. split_and!; [done|congruence|]. replace (j + Z.of_nat (S nn)) with (j + 1 + Z.of_nat nn) by lia. done.
  - change (negb (- EINVAL =? 0)) with true. cbv iota. exists (- EINVAL), r1. split_and!; [done|done|by right].
Qed.

Lemma mapped_loop_spec r nn id : reloc_inv r (fun _ => B) -> 0 < id -> id + Z.of_nat nn <= D -> exists err, mapped_loop nn r id = Some err /\
  (err = 0 /\ (forall i, id <= i < id + Z.of_nat nn -> exists j, zget (id_map r) i = Some j /\ 0 < j < B /\ matches i j /\ forall j', 0 < j' < B -> matches i j' -> j' = j) \/
   err = - EINVAL /\ exists i, 0 < i < D /\ forall j, 0 < j < B -> ~ matches i j).
Proof.
  intros Hr. revert id. induction nn as [|nn IH]; intros id Hid Hle; cbn [mapped_loop]; [exists 0; split; [done|]; left; split; [done|]; intros; lia|].
  destruct (ri_ids _ _ Hr id) as (x & Hx & He); [lia|]. rewrite Hx. cbn [mbind option_bind]. destruct He as [[Hm Hn]|(Hxr & Hm & Hu)].
  - exists (- EINVAL). split; [destruct Hm as [[-> _]|[-> _]]; done|]. right. split; [done|]. exists id. split; [lia|done].
  - destruct (Z.eqb_spec x 0); [lia|]. pose proof counts_pos. destruct (Z.eqb_spec x BTF_IS_EMBEDDED); [unfold BTF_IS_EMBEDDED in *; lia|]. cbn [negb andb]. destruct (IH (id + 1)) as (err & -> & Hcase); [lia|lia|]. exists err. split; [done|]. destruct Hcase as [[-> Hi]|Hc]; [left; split; [done|]|by right].
    intros i Hir. destruct (decide (i = id)) as [->|]; [by exists x|]. apply Hi. lia.
Qed.

(** Every distilled type is mapped to the only base type that matches it. *)
Definition all_mapped (m : list Z) : Prop := forall i, 0 < i < D -> exists j, zget m i = Some j /\ 0 < j < B /\ matches i j /\ forall j', 0 < j' < B -> matches i j' -> j' = j.
Definition unmatched : Prop := clash \/ exists i, 0 < i < D /\ forall j, 0 < j < B -> ~ matches i j.

Lemma map_distilled_spec al r : frame r -> id_map r = m0 -> Z.of_nat (length m0) = N -> (forall i, 0 < i < D -> zget m0 i = Some 0) -> str_map r = replicate (Z.to_nat (h_str_len dob)) 0 -> 0 <= h_str_len dob -> 0 <= h_str_len bo ->
  exists err r', btf_relocate_map_distilled_base al r = Some (err, r') /\ r_btf r' = [o; dob] /\
  (err = 0 /\ reloc_inv r' (fun _ => B) /\ all_mapped (id_map r') \/ err = - EINVAL /\ unmatched \/ err = - ENOMEM /\ alloc_fails al).
Proof.
  intros Hfr Em Hlm Hz Esm Hdl Hbl. destruct counts_pos as (HD & HB & HDN & HN & HBm). unfold btf_relocate_map_distilled_base. destruct (al [0]) eqn:Ha0; cbn [negb]; [|exists (- ENOMEM), r; split_and!; [done|apply Hfr|]; right; right; split; [done|by exists [0]]].
  destruct (infos_spec r Hfr) as (infos & Hin & Hp & Hgood & Hsort & Hil). destruct (mapM (dist_info r) (seqZ 0 (nr_dist_base_types r))) as [l|]; [|done]. cbn [mbind option_bind] in Hin |- *. rewrite Hin. cbn [mbind option_bind].
  destruct (fr_nr _ Hfr) as (Enb & Ens & End). rewrite Ens, End.
  destruct (mark_types_spec [o; dob] N D m0 (rk_types _ _ _ _ _ _ _ Hok) (rk_refs _ _ _ _ _ _ _ Hok) (rk_rank _ _ _ _ _ _ _ Hok) ltac:(lia) (Z.to_nat (N - D)) r D (fun _ => False)) as (m & -> & Hml & Hmo & Hmi); [split_and!; [apply Hfr|done|done]|lia|lia| |].
  { rewrite Em. split_and!; [done|done|]. intros i Hi. exists 0. split; [by apply Hz|]. left. split; [done|]. by intros []. }
  cbn [mbind option_bind Z.eqb negb]. assert (frame (with_id_map m r)) as Hfr1 by (destruct Hfr; by split).
  destruct (al [1]) eqn:Ha1; cbn [negb]; [|eexists _, _; split_and!; [done|apply Hfr1|]; right; right; split; [done|by exists [1]]].
  change (r_base (with_id_map m r)) with (r_base r). change (nr_base_types (with_id_map m r)) with (nr_base_types r). change (base_str_len (with_id_map m r)) with (base_str_len r). rewrite (fr_base _ Hfr), Enb, (proj2 (fr_len _ Hfr)).
  destruct (name_cnt_spec bo B (rk_base _ _ _ _ _ _ _ Hok) ltac:(apply Hok) ltac:(intros; by eapply (rk_base_names _ _ _ _ _ _ _ Hok)) (Z.to_nat (B - 1)) 1 (replicate (Z.to_nat (h_str_len bo)) 0)) as (cnt & -> & Hcnt); [lia|lia| |].
  { split; [rewrite length_replicate; lia|]. intros no Hno. apply zget_Some. split; [lia|]. apply lookup_replicate. split; [done|lia]. }
  cbn [mbind option_bind]. replace (1 + Z.of_nat (Z.to_nat (B - 1))) with B in Hcnt by lia.
  assert (reloc_inv (with_id_map m r) (fun _ => 1)) as Hr1.
  { split; cbn [id_map str_map with_id_map]; [done|by rewrite Hml|rewrite Esm, length_replicate; lia|done| | |].
    - intros i Hi. destruct (Hmi i Hi) as (x & Hx & Hc). exists x. split; [done|]. left. split; [|intros; lia]. assert ((False \/ exists x, D <= x < D + Z.of_nat (Z.to_nat (N - D)) /\ embeds [o; dob] x i) <-> embedded i) as Hiff.
      { unfold embedded. replace (D + Z.of_nat (Z.to_nat (N - D))) with N by lia. tauto. } rewrite Hiff in Hc. exact Hc.
    - intros x y Hxy. left. rewrite Esm in Hxy. apply zget_Some in Hxy as [_ [-> _]%lookup_replicate]. done.
    - intros i j Hi Hij Hj. exfalso. destruct (Hmi i Hi) as (x & Hx & Hc). rewrite Hij in Hx. injection Hx as <-. unfold BTF_IS_EMBEDDED in Hc. lia. }
  destruct (match_all_spec infos cnt (Z.to_nat (B - 1)) Hp Hgood Hsort Hil Hcnt (with_id_map m r) 1 ltac:(lia) ltac:(lia) Hr1) as (err & r2 & -> & Hb2 & Hcase). rewrite (fr_btf _ Hfr1) in Hb2. cbn [mbind option_bind].
  destruct Hcase as [[-> Hr2]|[-> Hc]]; [|exists (- EINVAL), r2; split_and!; [done|done|]; right; left; split; [done|by left]]. change (negb (0 =? 0)) with false. cbv iota.
  replace (1 + Z.of_nat (Z.to_nat (B - 1))) with B in Hr2 by lia. destruct (fr_nr _ (ri_frame _ _ Hr2)) as (_ & _ & ->). destruct (mapped_loop_spec r2 (Z.to_nat (D - 1)) 1 Hr2 ltac:(lia) ltac:(lia)) as (err & -> & Hcase). cbn [mbind option_bind].
  exists err, r2. split_and!; [done|done|]. destruct Hcase as [[-> Hall]|[-> Hn]]; [left|right; left; split; [done|by right]]. split_and!; [done|done|]. intros i Hi. apply Hall. lia.
Qed.
End Match.

(** ** Rewriting *)

(** The fields [kd] of [t] replaced by [f]. *)
Definition rewritten (kd : btf_field_iter_kind) (f : Z -> option (Z + Z)) (t t' : list Z) : Prop := length t' = length t /\
  forall k j x, btf_kind t = Some k -> zget t j = Some x -> exists y, zget t' j = Some y /\ if field_word kd k j then f x = Some (inr y) else y = x.

Lemma info_not_field kd k : field_word kd k 1 = false.
Proof. destruct kd; unfold field_word; cbn; by rewrite ?andb_false_r. Qed.

Lemma rewritten_whole kd f t t' k v n : rewritten kd f t t' -> whole t k v n -> whole t' k v n.
Proof.
  intros [Hl H] Hw. pose proof (whole_ranges _ _ _ _ Hw) as (_ & _ & Hn). destruct (whole_word t k v n 1 Hw ltac:(lia)) as [x Hx]. destruct (H k 1 x (wh_kind _ _ _ _ Hw) Hx) as (y & Hy & Hf). rewrite info_not_field in Hf. subst y.
  assert (word t' 1 = word t 1) as E by (rewrite Hx; exact Hy). destruct Hw as [H1 H2 H3 H4]. split; [unfold btf_kind, info in *; by rewrite E|unfold btf_vlen, info in *; by rewrite E|done|lia].
Qed.

Lemma rewritten_exact kd f t t' : rewritten kd f t t' -> exact t -> exact t'.
Proof. intros Hr (k & v & n & Hw & Hl). exists k, v, n. split; [by eapply rewritten_whole|]. destruct Hr as [-> _]. done. Qed.

Section Rewrite.
Context (o : btf_obj) (base : chain) (kd : btf_field_iter_kind) (f : Z -> option (Z + Z)) (r0 : btf_relocate_r).
Hypothesis Hf : forall x e, f x = Some (inl e) -> e <> 0.

Definition at_words (ws : list Z) : btf_relocate_r := with_r_btf (with_words o base ws) r0.
Definition fields_total (t : list Z) : Prop := forall k j x, btf_kind t = Some k -> field_word kd k j = true -> zget t j = Some x -> exists y, f x = Some y.
Definition field_error (err : Z) : Prop := err <> 0 /\ exists x, f x = Some (inl err).

Definition field_body (pos : Z) (p : Z) (c : chain) : option (Z * chain) :=
  x ← get_word c ((pos + p) / 4); y ← f x;
  match y with
  | inl err => Some (err, c)
  | inr y => c ← put_word c ((pos + p) / 4) y; Some (0, c)
  end.

Lemma field_step l t r pos j x y : 4 * Z.of_nat (length l) = pos -> zget t j = Some x -> f x = Some y -> exists t1,
  field_body pos (4 * j) (with_words o base (l ++ t ++ r)) = Some (match y with inl e => e | inr _ => 0 end, with_words o base (l ++ t1 ++ r)) /\
  match y with inl _ => t1 = t | inr y => zset t j y = Some t1 end.
Proof.
  intros Hpos Hx Hy. pose proof (zget_lt _ _ _ Hx) as Hjl. unfold field_body. replace ((pos + 4 * j) / 4) with (Z.of_nat (length l) + j) by (replace (pos + 4 * j) with (4 * (Z.of_nat (length l) + j)) by lia; by rewrite quarter).
  unfold get_word, put_word, with_words. cbn [head tail mbind option_bind o_types set_types]. rewrite zget_app_r, zget_app_l, Hx by lia. cbn [mbind option_bind]. rewrite Hy. cbn [mbind option_bind]. destruct y as [e|y]; [by exists t|].
  destruct (zset_is_Some t j y Hjl) as [t1 Ht1]. exists t1. split; [|done].
  assert (zset (l ++ t ++ r) (Z.of_nat (length l) + j) y = Some (l ++ t1 ++ r)) as ->; [|done].
  apply zset_Some in Ht1 as [_ ->]. unfold zset. rewrite decide_True by (rewrite !length_app; lia). f_equal. rewrite insert_app_r_alt by lia. f_equal. replace (Z.to_nat (Z.of_nat (length l) + j) - length l)%nat with (Z.to_nat j) by lia. rewrite insert_app_l by lia. done.
Qed.

Lemma fold_fields l r pos js : 4 * Z.of_nat (length l) = pos -> NoDup js -> forall t, (forall j, j ∈ js -> exists x y, zget t j = Some x /\ f x = Some y) ->
  exists err t', fields_fold (field_body pos) (map (Z.mul 4) js) (with_words o base (l ++ t ++ r)) = Some (err, with_words o base (l ++ t' ++ r)) /\ length t' = length t /\
    (err = 0 /\ (forall j, j ∉ js -> zget t' j = zget t j) /\ (forall j, j ∈ js -> exists x y, zget t j = Some x /\ zget t' j = Some y /\ f x = Some (inr y)) \/ field_error err).
Proof.
  intros Hpos. induction 1 as [|j js Hj Hnd IH]; intros t Hjs; cbn [map fields_fold].
  { exists 0, t. split_and!; [done|done|]. left. split_and!; [done|done|]. intros j Hj. by apply not_elem_of_nil in Hj. }
  destruct (Hjs j) as (x & y & Hx & Hy); [left|]. destruct (field_step l t r pos j x y Hpos Hx Hy) as (t1 & -> & Ht1). cbn [mbind option_bind]. destruct y as [e|y].
  { pose proof (Hf _ _ Hy) as He. destruct (Z.eqb_spec e 0); [done|]. cbn [negb]. subst t1. exists e, t. split_and!; [done|done|]. right. split; [done|]. by exists x. }
  cbn [Z.eqb negb]. destruct (IH t1) as (err & t' & Hrun & Hl & Hcase).
  { intros j' Hj'. destruct (Hjs j') as (x' & y' & ? & ?); [by right|]. exists x', y'. rewrite (zget_zset_ne _ _ _ _ _ Ht1); [done|]. intros <-. done. }
  exists err, t'. split_and!; [exact Hrun|by rewrite Hl, (zset_length _ _ _ _ Ht1)|]. destruct Hcase as [(-> & Hno & Hin)|He]; [left|by right]. split_and!; [done| |].
  - intros j' [Hne Hn]%not_elem_of_cons. rewrite (Hno j' Hn), (zget_zset_ne _ _ _ _ _ Ht1); [done|congruence].
  - intros j' [->|Hj']%elem_of_cons; [exists x, y; rewrite (Hno j Hj), (zget_zset_eq _ _ _ _ Ht1); done|]. destruct (Hin j' Hj') as (x' & y' & Hx' & Hy' & Hff). exists x', y'. split_and!; [|done|done]. rewrite <- Hx'. symmetry. apply (zget_zset_ne _ _ _ _ _ Ht1). intros ->. done.
Qed.

Lemma rewrite_one l t rest i : exact t -> fields_total t -> zget (o_offs o) (i - o_start_id o) = Some (4 * Z.of_nat (length l)) ->
  exists err t', rewrite_fields kd f (at_words (l ++ t ++ rest)) i = Some (err, at_words (l ++ t' ++ rest)) /\ length t' = length t /\ (err = 0 /\ rewritten kd f t t' \/ field_error err).
Proof.
  intros (k & v & n & Hw & Hlen) Ht Hoff. unfold rewrite_fields. change (head (r_btf (at_words ?ws))) with (Some (set_types ws (types_cap o) o)). cbn [mbind option_bind o_offs o_types o_start_id set_types]. rewrite Hoff. cbn [mbind option_bind].
  rewrite quarter, Nat2Z.id, drop_app_length. pose proof (exact_prefix t k v n rest Hw Hlen) as [Hk1 Hv1 Hr1 _]. pose proof (whole_ranges _ _ _ _ Hw) as (_ & _ & Hn0).
  destruct (field_iter_spec kd (t ++ rest) k v n (S (length (t ++ rest))) Hk1 Hv1 Hr1) as (it & it' & -> & Hrun & _).
  { pose proof (field_words_length kd k n Hn0). rewrite length_app. lia. }
  cbn [mbind option_bind Z.eqb negb]. rewrite (field_loop_fold _ _ _ _ _ _ Hrun). change (r_btf (at_words ?ws)) with (with_words o base ws).
  destruct (fold_fields l rest _ (field_words kd k n) eq_refl (field_words_NoDup _ _ _) t) as (err & t' & Hfold & Hl' & Hcase).
  { intros j [Hj Hfw]%field_words_in; [|done]. destruct (zget_is_Some t j) as [x Hx]; [lia|]. destruct (Ht k j x (wh_kind _ _ _ _ Hw) Hfw Hx) as [y Hy]. by exists x, y. }
  exists err, t'. split_and!; [|done|].
  - unfold field_body in Hfold. rewrite Hfold. done.
  - destruct Hcase as [(-> & Hno & Hin)|He]; [left|by right]. split; [done|]. split; [done|]. intros k' j x Hk' Hx. rewrite (wh_kind _ _ _ _ Hw) in Hk'. injection Hk' as <-. pose proof (zget_lt _ _ _ Hx) as Hj.
    destruct (field_word kd k j) eqn:Hfw.
    + destruct (Hin j) as (x' & y & Hx' & Hy & Hfy); [apply field_words_in; [done|]; split; [lia|done]|]. rewrite Hx in Hx'. injection Hx' as <-. by exists y.
    + exists x. split; [|done]. rewrite Hno; [done|]. intros [_ ?]%field_words_in; [congruence|done].
Qed.

Lemma rewrite_all step suf : (forall ws i, step (at_words ws) i = rewrite_fields kd f (at_words ws) i) -> Forall exact suf -> Forall fields_total suf ->
  forall pre pre' rest, length (mjoin pre') = length (mjoin pre) -> (exists more, o_offs o = body_offs 0 (pre ++ suf) ++ more) ->
  exists err ws, reloc_each (length suf) (o_start_id o + Z.of_nat (length pre)) step (at_words (mjoin pre' ++ mjoin suf ++ rest)) = Some (err, at_words ws) /\
  (err = 0 /\ (exists suf', Forall2 (rewritten kd f) suf suf' /\ ws = mjoin pre' ++ mjoin suf' ++ rest) \/ field_error err).
Proof.
  intros Hstep. induction suf as [|t suf IH]; intros He Ht pre pre' rest Hpre [more Ho]; cbn [length reloc_each]; [eexists 0, _; split; [done|]; left; split; [done|]; by exists []|]. apply Forall_cons in He as [Het He]. apply Forall_cons in Ht as [Htt Ht].
  change (mjoin (t :: suf)) with (t ++ mjoin suf). rewrite <- app_assoc, Hstep. destruct (rewrite_one (mjoin pre') t (mjoin suf ++ rest) (o_start_id o + Z.of_nat (length pre)) Het Htt) as (err & t' & -> & Hl & Hcase).
  { rewrite Ho, body_offs_app, <- app_assoc. cbn [body_offs app]. rewrite Hpre. apply zget_mid. rewrite body_offs_length. lia. }
  cbn [mbind option_bind]. destruct Hcase as [[-> Hrw]|He'].
  - change (negb (0 =? 0)) with false. cbv iota. destruct (IH He Ht (pre ++ [t]) (pre' ++ [t']) rest) as (err & ws & Hrun & Hcase).
    + rewrite !join_app, !length_app. cbn. rewrite !app_nil_r. lia.
    + exists more. by rewrite <- app_assoc.
    + rewrite length_app, join_app in Hrun. cbn [length mjoin list_join] in Hrun. rewrite app_nil_r, <- app_assoc in Hrun. replace (o_start_id o + Z.of_nat (length pre) + 1) with (o_start_id o + Z.of_nat (length pre + 1)) by lia. exists err, ws. split; [exact Hrun|].
      destruct Hcase as [[-> (suf' & Hs & ->)]|?]; [left|by right]. split; [done|]. exists (t' :: suf'). split; [by constructor|]. change (mjoin (t' :: suf')) with (t' ++ mjoin suf'). rewrite join_app. cbn. by rewrite app_nil_r, <- !app_assoc.
  - destruct He' as [Hne He']. destruct (Z.eqb_spec err 0); [done|]. cbn [negb]. eexists _, _. split; [done|]. right. by split.
Qed.
End Rewrite.

(** ** The whole *)
Lemma str_not_id k j : field_word BTF_FIELD_ITER_STRS k j = true -> field_word BTF_FIELD_ITER_IDS k j = false.
Proof.
  unfold field_word. destruct (Z.eqb_spec j 0) as [->|]; [done|]. cbn [orb]. intros [Hj Hs]%andb_true_iff. apply name_not_id in Hs. rewrite Hs, andb_false_r, orb_false_r. destruct (Z.eqb_spec j 2); [|done]. apply Z.leb_le in Hj. lia.
Qed.

Section Whole.
Context (o dob bo : btf_obj) (ts : list (list Z)) (N D B : Z).
Hypothesis Hok : reloc_ok o dob bo ts N D B.

(** The distilled base has named types of these kinds only. *)
Definition distillable (i : Z) : Prop := exists k no, tkind (view [dob]) i = Some k /\ tname_off (view [dob]) i = Some no /\ no <> 0 /\
  (k = BTF_KIND_INT \/ k = BTF_KIND_FLOAT \/ k = BTF_KIND_ENUM \/ kind_is_composite k = true \/ k = BTF_KIND_FWD).

Lemma validate_loop_spec nn i : 0 < i -> i + Z.of_nat nn <= D -> exists err, validate_loop nn (view [dob]) i = Some err /\ (err = 0 \/ err = - EINVAL /\ exists i, 0 < i < D /\ ~ distillable i).
Proof.
  revert i. induction nn as [|nn IH]; intros i Hi Hle; cbn [validate_loop]; [exists 0; split; [done|by left]|].
  destruct (dist_facts o dob bo ts N D B Hok i) as (t & k & v & n & no & sz & s & Et & Hw & Eno & _ & _ & _ & _ & Ek & _ & Tno & _); [lia|]. rewrite Et. cbn [mbind option_bind]. rewrite (wh_kind _ _ _ _ Hw). cbn [mbind option_bind]. rewrite Eno. cbn [mbind option_bind].
  destruct (_ && negb (no =? 0)) eqn:Hd; [apply IH; lia|]. exists (- EINVAL). split; [done|]. right. split; [done|]. exists i. split; [lia|]. intros (k' & no' & E & E' & Hno & Hk). rewrite Ek in E. rewrite Tno in E'. injection E as <-. injection E' as <-.
  apply andb_false_iff in Hd as [Hd|Hd]; [|apply negb_false_iff, Z.eqb_eq in Hd; done]. apply not_true_iff_false in Hd. apply Hd. rewrite !orb_true_iff, !Z.eqb_eq. tauto.
Qed.

Definition start_map : list Z := replicate (Z.to_nat D) 0 ++ map (fun id => u32 (id + B - D)) (seqZ D (N - D)).

Lemma start_map_spec : Z.of_nat (length start_map) = N /\ (forall i, 0 <= i < D -> zget start_map i = Some 0) /\ forall i, D <= i < N -> zget start_map i = Some (u32 (i + B - D)).
Proof.
  destruct (counts_pos o dob bo ts N D B Hok) as (HD & HB & HDN & HN & HBm). unfold start_map. split_and!.
  - rewrite length_app, length_replicate, length_map, length_seqZ. lia.
  - intros i Hi. rewrite zget_app_l by (rewrite length_replicate; lia). apply zget_Some. split; [lia|]. apply lookup_replicate. split; [done|lia].
  - intros i Hi. replace i with (Z.of_nat (length (replicate (Z.to_nat D) 0)) + (i - D)) at 1 by (rewrite length_replicate; lia). rewrite zget_app_r by lia. apply zget_Some. split; [lia|]. rewrite list_lookup_fmap, lookup_seqZ_lt by lia. cbn. do 2 f_equal. lia.
Qed.

(** The new words of a type of the object; [o'] is the object over the new base. *)
Definition relocated (m : list Z) (o' : btf_obj) (t t' : list Z) : Prop := length t' = length t /\
  forall k j x, btf_kind t = Some k -> zget t j = Some x -> exists y, zget t' j = Some y /\
  if field_word BTF_FIELD_ITER_IDS k j then zget m x = Some y
  else if field_word BTF_FIELD_ITER_STRS k j then btf__str_by_offset (view [o'; bo]) y = btf__str_by_offset (view [o; dob]) x
  else y = x.

Definition moved_obj (ws : list Z) : btf_obj := BtfObj (hdr o) ws (types_cap o) (o_offs o) (offs_cap o) (o_nr_types o) B (h_str_len bo) (o_strs o) (o_ptr_sz o).

Lemma chain_str ob base x : btf__str_by_offset (view (ob :: base)) x = if x <? o_start_str_off ob then btf__str_by_offset (view base) x else if x - o_start_str_off ob <? h_str_len ob then Some (Some (str_at (btf_strs_data ob) (x - o_start_str_off ob))) else Some None.
Proof. done. Qed.

Lemma str_lens : 0 < h_str_len dob /\ 0 < h_str_len bo.
Proof.
  destruct (rk_empty _ _ _ _ _ _ _ Hok) as [H1 H2]. destruct (rk_offs _ _ _ _ _ _ _ Hok) as (_ & O1 & O2). rewrite chain_str in H1, H2. rewrite O1 in H1. rewrite O2 in H2. change (0 <? 0) with false in *. cbv iota in *. rewrite Z.sub_0_r in *.
  destruct (Z.ltb_spec 0 (h_str_len dob)), (Z.ltb_spec 0 (h_str_len bo)); done.
Qed.

(** The new offset of a string reads as the old one. *)
Lemma new_str_reads r m0 ws x y : reloc_inv o dob bo N D B m0 r (fun _ => B) -> 0 <= x < h_str_len dob + h_str_len o -> new_str r x = Some (inr y) ->
  btf__str_by_offset (view [moved_obj ws; bo]) y = btf__str_by_offset (view [o; dob]) x.
Proof.
  intros Hr Hx Hy. destruct str_lens as [Hdl Hbl]. destruct (rk_lens _ _ _ _ _ _ _ Hok) as (Hol & Hl1 & Hl2). destruct (rk_offs _ _ _ _ _ _ _ Hok) as (O0 & O1 & O2). rewrite !(chain_str _ [_]). change (o_start_str_off (moved_obj ws)) with (h_str_len bo). change (h_str_len (moved_obj ws)) with (h_str_len o). change (btf_strs_data (moved_obj ws)) with (btf_strs_data o). rewrite O0.
  destruct (fr_len _ _ _ _ _ _ _ (ri_frame _ _ _ _ _ _ _ _ _ Hr)) as [Ed Eb]. unfold new_str in Hy. rewrite Ed, Eb in Hy. destruct (Z.eqb_spec x 0) as [->|Hx0].
  - injection Hy as <-. rewrite !(proj2 (Z.ltb_lt _ _)) by lia. destruct (rk_empty _ _ _ _ _ _ _ Hok) as [-> ->]. done.
  - rewrite Z.geb_leb in Hy. destruct (Z.leb_spec (h_str_len dob) x) as [Hge|Hlt].
    + injection Hy as <-. rewrite wrap_small by lia. destruct (Z.ltb_spec (x + (h_str_len bo - h_str_len dob)) (h_str_len bo)); [lia|]. destruct (Z.ltb_spec x (h_str_len dob)); [lia|]. by replace (x + (h_str_len bo - h_str_len dob) - h_str_len bo) with (x - h_str_len dob) by lia.
    + destruct (zget (str_map r) x) as [z|] eqn:Hz; [|done]. cbn [mbind option_bind] in Hy. destruct (Z.eqb_spec z 0) as [|Hz0]; [done|]. injection Hy as ->. destruct (ri_strs _ _ _ _ _ _ _ _ _ Hr x y Hz) as [|(i & j & Hi & _ & Hj & [[_ _ (s & Hs & Hs') _ _] _] & Tx & Ty)]; [done|].
      pose proof (rk_base_names _ _ _ _ _ _ _ Hok j y Hj Ty) as Hyr. rewrite !(proj2 (Z.ltb_lt _ _)) by lia.
      unfold tname in Hs, Hs'. rewrite Tx in Hs. rewrite Ty in Hs'. cbn [mbind option_bind] in Hs, Hs'. destruct (btf__str_by_offset (view [dob]) x) as [[?|]|], (btf__str_by_offset (view [bo]) y) as [[?|]|]; try done. cbn [mbind option_bind] in Hs, Hs'. congruence.
Qed.

(** ** The passes that rewrite the object *)
Definition id_field (m : list Z) (x : Z) : option (Z + Z) := y ← zget m x; Some (inr y).

Lemma forall2_rewritten kd f ts1 ts2 : Forall2 (rewritten kd f) ts1 ts2 -> Forall exact ts1 -> Forall exact ts2 /\ (forall p, body_offs p ts2 = body_offs p ts1) /\ length ts2 = length ts1.
Proof.
  induction 1 as [|t t' l l' Ht _ IH]; intros He; [done|]. apply Forall_cons in He as [Het He]. destruct (IH He) as (IH1 & IH2 & IH3). split_and!; [constructor; [by eapply rewritten_exact|done]| |by cbn; f_equal]. intros p. cbn [body_offs]. destruct Ht as [-> _]. by rewrite IH2.
Qed.

Lemma at_start r : r_btf r = [o; dob] -> at_words o [dob] r (o_types o) = r.
Proof. intros Hb. unfold at_words, with_words. destruct r as [c ? ? ? ? ? ? ? ?]. cbn in Hb |- *. subst c. by destruct o. Qed.

(** References first, then names. *)
Lemma rewrite_ids r m : r_btf r = [o; dob] -> id_map r = m -> Z.of_nat (length m) = N -> exists ts1 rest, o_types o = mjoin ts ++ rest /\ Forall2 (rewritten BTF_FIELD_ITER_IDS (id_field m)) ts ts1 /\
  reloc_each (Z.to_nat (N - D)) D btf_relocate_rewrite_type_id r = Some (0, at_words o [dob] r (mjoin ts1 ++ rest)).
Proof.
  intros Hb Em Hlm. destruct (rk_bodies _ _ _ _ _ _ _ Hok) as [Bn [rest Bw] [more Bo] Be]. destruct (to_head _ _ (rk_types _ _ _ _ _ _ _ Hok)) as (z & l & [= <- <-] & HN & _ & _ & _). pose proof (rk_start _ _ _ _ _ _ _ Hok) as Hst.
  assert (forall x e, id_field m x = Some (inl e) -> e <> 0) as Hf by (intros x e; unfold id_field; by destruct (zget m x)).
  destruct (rewrite_all o [dob] BTF_FIELD_ITER_IDS (id_field m) r Hf btf_relocate_rewrite_type_id ts) with (pre := @nil (list Z)) (pre' := @nil (list Z)) (rest := rest) as (err & ws & Hrun & Hcase); [|done| |done|by exists more|].
  { intros ws i. unfold btf_relocate_rewrite_type_id, id_field. cbn [id_map at_words with_r_btf]. by rewrite Em. }
  { apply Forall_forall. intros t Ht k j x Hk Hfw Hx. enough (0 <= x < N) as Hxr by (destruct (zget_is_Some m x) as [y Hy]; [lia|]; exists (inr y); unfold id_field; by rewrite Hy).
    apply list_elem_of_lookup in Ht as [i Hi]. pose proof (lookup_lt_Some _ _ _ Hi) as Hlt. pose proof (proj1 (Forall_lookup _ _) Be _ _ Hi) as (k' & v & n & Hw & Hl). rewrite (wh_kind _ _ _ _ Hw) in Hk. injection Hk as ->. pose proof (zget_lt _ _ _ Hx).
    apply take_drop_middle in Hi as Ets. set (pre := take i ts) in Ets. set (suf := drop (S i) ts) in Ets. assert (length pre = i) as Hpre by (unfold pre; apply length_take_le; lia).
    assert (btf_type_by_id (view [o; dob]) (D + Z.of_nat i) = Some (t ++ mjoin suf ++ rest)) as Et.
    { cbn [view map btf_type_by_id layer_of start_id type_offs types_data]. rewrite Hst. destruct (counts_pos o dob bo ts N D B Hok). destruct (Z.eqb_spec (D + Z.of_nat i) 0); [lia|]. destruct (Z.ltb_spec (D + Z.of_nat i) D); [lia|].
      replace (D + Z.of_nat i - D) with (Z.of_nat (length pre)) by lia. rewrite Bo, <- Ets, body_offs_app, <- app_assoc. cbn [body_offs app]. rewrite zget_mid by (by rewrite body_offs_length). cbn [mbind option_bind]. rewrite Z.add_0_l, quarter, Nat2Z.id, Bw, <- Ets, join_app, <- app_assoc, drop_app_length. change (mjoin (t :: suf)) with (t ++ mjoin suf). by rewrite <- app_assoc. }
    apply (rk_refs _ _ _ _ _ _ _ Hok (D + Z.of_nat i) _ k v n j x ltac:(destruct (counts_pos o dob bo ts N D B Hok); lia) Et); [by apply exact_prefix|lia|done|]. unfold word. by rewrite zget_app_l by lia. }
  cbn [mjoin list_join app length] in Hrun. change (Z.of_nat 0) with 0 in Hrun. rewrite Z.add_0_r, Hst, <- Bw, at_start in Hrun by done. replace (length ts) with (Z.to_nat (N - D)) in Hrun by lia.
  destruct Hcase as [[-> (ts1 & H2 & ->)]|[_ (x & Hx)]]; [|unfold id_field in Hx; by destruct (zget m x)]. exists ts1, rest. split_and!; [done|done|exact Hrun].
Qed.

(** A string of the distilled base that is not the name of a type. *)
Definition nameless : Prop := exists x, 0 < x < h_str_len dob /\ forall i, 0 < i < D -> tname_off (view [dob]) i <> Some x.

Lemma rewrite_names r m0 ts1 rest : reloc_inv o dob bo N D B m0 r (fun _ => B) -> all_mapped o dob bo N D B (id_map r) -> Forall2 (rewritten BTF_FIELD_ITER_IDS (id_field (id_map r))) ts ts1 ->
  exists err ws, reloc_each (Z.to_nat (N - D)) D btf_relocate_rewrite_strs (at_words o [dob] r (mjoin ts1 ++ rest)) = Some (err, at_words o [dob] r ws) /\
  (err = 0 /\ (exists ts2, ws = mjoin ts2 ++ rest /\ Forall exact ts2 /\ (forall p, body_offs p ts2 = body_offs p ts) /\ length ts2 = length ts /\ Forall2 (relocated (id_map r) (moved_obj ws)) ts ts2) \/ err = - ENOENT /\ nameless).
Proof.
  intros Hr Hall H1. destruct (rk_bodies _ _ _ _ _ _ _ Hok) as [Bn _ [more Bo] Be]. destruct (forall2_rewritten _ _ _ _ H1 Be) as (Be1 & Bo1 & Bl1). destruct (to_head _ _ (rk_types _ _ _ _ _ _ _ Hok)) as (z & l & [= <- <-] & HN & _ & _ & _). pose proof (rk_start _ _ _ _ _ _ _ Hok) as Hst.
  destruct (fr_len _ _ _ _ _ _ _ (ri_frame _ _ _ _ _ _ _ _ _ Hr)) as [Ed Eb]. pose proof (ri_slen _ _ _ _ _ _ _ _ _ Hr) as Hsl.
  assert (forall x e, new_str r x = Some (inl e) -> e = - ENOENT /\ nameless) as Herr.
  { intros x e. unfold new_str. rewrite Ed. destruct (Z.eqb_spec x 0); [done|]. rewrite Z.geb_leb. destruct (Z.leb_spec (h_str_len dob) x); [done|]. destruct (zget (str_map r) x) as [y|] eqn:Hy; [|done]. cbn [mbind option_bind]. destruct (Z.eqb_spec y 0) as [->|]; [|done]. intros [= <-]. split; [done|].
    exists x. pose proof (zget_lt _ _ _ Hy). split; [lia|]. intros i Hi Tx. destruct (Hall i Hi) as (j & Hj & Hjr & _). destruct (ri_named _ _ _ _ _ _ _ _ _ Hr i j Hi Hj Hjr) as (x' & y' & Tx' & Hy' & Hne). rewrite Tx in Tx'. injection Tx' as <-. congruence. }
  destruct (rewrite_all o [dob] BTF_FIELD_ITER_STRS (new_str r) r) with (step := btf_relocate_rewrite_strs) (suf := ts1) (pre := @nil (list Z)) (pre' := @nil (list Z)) (rest := rest) as (err & ws & Hrun & Hcase); [|done|done| |done|exists more; cbn [app]; by rewrite Bo1|].
  { intros x e He. destruct (Herr x e He) as [-> _]. done. }
  { apply Forall_forall. intros t1 Ht1 k j x Hk Hfw Hx. apply list_elem_of_lookup in Ht1 as [i Hi]. destruct (Forall2_lookup_r _ _ _ _ _ H1 Hi) as (t & Ht & Hrw).
    pose proof (proj1 (Forall_lookup _ _) Be _ _ Ht) as (k' & v & n & Hw & Hl). pose proof (rewritten_whole _ _ _ _ _ _ _ Hrw Hw) as Hw1. rewrite (wh_kind _ _ _ _ Hw1) in Hk. injection Hk as ->. destruct Hrw as [Hl1 Hrw]. pose proof (zget_lt _ _ _ Hx).
    destruct (zget_is_Some t j) as [x0 Hx0]; [lia|]. destruct (Hrw k j x0 (wh_kind _ _ _ _ Hw) Hx0) as (x1 & Hx1 & Hid). rewrite (str_not_id k j Hfw) in Hid. rewrite Hx in Hx1. injection Hx1 as <-. subst x0.
    pose proof (rk_own_names _ _ _ _ _ _ _ Hok t k j x (list_elem_of_lookup_2 _ _ _ Ht) (wh_kind _ _ _ _ Hw) Hfw Hx0) as Hxr. unfold new_str. rewrite Ed. destruct (Z.eqb_spec x 0); [by eexists|]. rewrite Z.geb_leb. destruct (Z.leb_spec (h_str_len dob) x); [by eexists|]. destruct (zget_is_Some (str_map r) x) as [y ->]; [lia|]. by eexists. }
  cbn [mjoin list_join app length] in Hrun. change (Z.of_nat 0) with 0 in Hrun. rewrite Z.add_0_r, Hst in Hrun. replace (length ts1) with (Z.to_nat (N - D)) in Hrun by lia. exists err, ws. split; [exact Hrun|].
  destruct Hcase as [[-> (ts2 & H2 & Ews)]|[_ (x & Hx)]]; [left|right; by apply (Herr x)]. split; [done|]. destruct (forall2_rewritten _ _ _ _ H2 Be1) as (Be2 & Bo2 & Bl2). exists ts2. split_and!; [done|done|intros p; by rewrite Bo2|congruence|].
  apply Forall2_same_length_lookup. split; [congruence|]. intros i t t2 Ht Ht2. destruct (Forall2_lookup_l _ _ _ _ _ H1 Ht) as (t1 & Ht1 & [L1 R1]). destruct (Forall2_lookup_l _ _ _ _ _ H2 Ht1) as (t2' & Ht2' & [L2 R2]). rewrite Ht2 in Ht2'. injection Ht2' as <-.
  split; [congruence|]. intros k j x Hk Hx. destruct (R1 k j x Hk Hx) as (x1 & Hx1 & Hid). pose proof (proj1 (Forall_lookup _ _) Be _ _ Ht) as (k' & v & n & Hw & Hl). rewrite (wh_kind _ _ _ _ Hw) in Hk. injection Hk as ->. pose proof (rewritten_whole _ _ _ _ _ _ _ (conj L1 R1) Hw) as Hw1.
  destruct (R2 k j x1 (wh_kind _ _ _ _ Hw1) Hx1) as (y & Hy & Hs). exists y. split; [done|]. destruct (field_word BTF_FIELD_ITER_STRS k j) eqn:Hfs.
  - rewrite (str_not_id k j Hfs) in Hid |- *. subst x1. apply (new_str_reads r m0); [done| |done]. by apply (rk_own_names _ _ _ _ _ _ _ Hok t k j x (list_elem_of_lookup_2 _ _ _ Ht) (wh_kind _ _ _ _ Hw) Hfs).
  - subst y. destruct (field_word BTF_FIELD_ITER_IDS k j); [|done]. unfold id_field in Hid. destruct (zget (id_map r) x) as [y|]; [|done]. by injection Hid as ->.
Qed.

(** C7. Relocation of a well-formed split object over a distilled base to another base returns.
    When it succeeds, the object lies over the new base; by the map of ids every type of the
    distilled base is the one type of the new base that matches it: same name, compatible kind, and the
    same size for numbers, for structs and unions whose name is not unique and for those embedded
    in types of the object; a reference has become the id that its target has now; every name reads
    as before, and all other words are as before.  A refusal with -EINVAL has a reason: a type that
    a distilled base does not have, one that no base type matches, one with two candidates, or a
    base type with an empty name; -ENOENT means that the distilled base has a string that is no
    type's name, -ENOMEM that an allocation failed; only after -ENOENT a failed call has changed the
    object. *)
Theorem relocate_correct al : exists err c' im, btf_relocate al [o; dob] (OtherBase [bo]) = Some (err, c', im) /\
  (err = 0 /\ (exists m o' ts', im = Some m /\ c' = [o'; bo] /\ bodies o' ts' /\ o_start_id o' = B /\ o_start_str_off o' = h_str_len bo /\ o_strs o' = o_strs o /\
     Forall2 (relocated m o') ts ts' /\ zget m 0 = Some 0 /\ (forall id, D <= id < N -> zget m id = Some (u32 (id - D + B))) /\ all_mapped o dob bo N D B m) \/
   err = - EINVAL /\ c' = [o; dob] /\ ((exists i, 0 < i < D /\ ~ distillable i) \/ unmatched o dob bo N D B) \/
   err = - ENOENT /\ nameless \/
   err = - ENOMEM /\ c' = [o; dob] /\ alloc_fails al).
Proof.
  destruct (counts_pos o dob bo ts N D B Hok) as (HD & HB & HDN & HN & HBm). destruct str_lens as [Hdl Hbl]. destruct start_map_spec as (Hlm & Hz & Hown). unfold btf_relocate.
  rewrite (to_cnt _ _ (rk_types _ _ _ _ _ _ _ Hok)). cbn [mbind option_bind tail]. rewrite (to_cnt _ _ (rk_dist _ _ _ _ _ _ _ Hok)), (to_cnt _ _ (rk_base _ _ _ _ _ _ _ Hok)). cbn [mbind option_bind head].
  destruct (al [0] && al [1]) eqn:Ha; cbn [negb]; [|exists (- ENOMEM), [o; dob], None; split; [done|]; right; right; right; split_and!; [done|done|]; apply andb_false_iff in Ha as [Ha|Ha]; [by exists [0]|by exists [1]]].
  fold start_map. set (r := Reloc _ _ _ _ _ _ _ _ _). assert (frame o dob bo N D B r) as Hfr by (by split).
  unfold btf_relocate_validate_distilled_base. rewrite (dist_db o dob bo N D B r Hfr). change (nr_dist_base_types r) with D. destruct (validate_loop_spec (Z.to_nat (D - 1)) 1 ltac:(lia) ltac:(lia)) as (err & -> & [-> |[-> Hd]]); cbn [mbind option_bind]; [|exists (- EINVAL), [o; dob], None; split; [done|]; right; left; split_and!; [done|done|by left]].
  change (negb (0 =? 0)) with false. cbv iota. destruct (map_distilled_spec o dob bo ts N D B Hok start_map (sub 2 al) r Hfr eq_refl Hlm) as (err & r1 & -> & Hb1 & Hcase); [intros; apply Hz; lia|done|lia|lia|]. cbn [mbind option_bind].
  destruct Hcase as [(-> & Hr1 & Hall)|[[-> Hu]|[-> Hal]]].
  2:{ exists (- EINVAL), (r_btf r1), None. split; [done|]. right. left. split_and!; [done|done|by right]. }
  2:{ exists (- ENOMEM), (r_btf r1), None. split; [done|]. right. right. right. split_and!; [done|done|by apply fails_sub in Hal]. }
  change (negb (0 =? 0)) with false. cbv iota. destruct (rewrite_ids r1 (id_map r1) Hb1 eq_refl (ri_len _ _ _ _ _ _ _ _ _ Hr1)) as (ts1 & rest & Bw & H1 & ->). cbn [mbind option_bind]. change (negb (0 =? 0)) with false. cbv iota.
  destruct (rewrite_names r1 start_map ts1 rest Hr1 Hall H1) as (err & ws & -> & Hcase). cbn [mbind option_bind]. destruct Hcase as [(-> & ts2 & -> & Be2 & Bo2 & Bl2 & H2)|[-> Hn]]; [|eexists _, _, _; split; [done|]; right; right; left; by split].
  change (negb (0 =? 0)) with false. cbv iota. unfold btf_set_base_btf. change (head (r_btf (at_words o [dob] r1 ?ws))) with (Some (set_types ws (types_cap o) o)). cbn [mbind option_bind head]. rewrite (to_cnt _ _ (rk_base _ _ _ _ _ _ _ Hok)). cbn [mbind option_bind].
  eexists _, _, _. split; [done|]. left. split; [done|]. exists (id_map r1), (moved_obj (mjoin ts2 ++ rest)), ts2. destruct (rk_bodies _ _ _ _ _ _ _ Hok) as [Bn _ [more Bo] Be]. split_and!; try done.
  - split; [cbn; by rewrite Bn, Bl2|by exists rest|exists more; cbn; by rewrite Bo2|done].
  - rewrite (ri_other _ _ _ _ _ _ _ _ _ Hr1) by lia. apply Hz. lia.
  - intros id Hid. rewrite (ri_other _ _ _ _ _ _ _ _ _ Hr1) by lia. rewrite (Hown id Hid). do 2 f_equal. lia.
Qed.
End Whole.

(** ** A sample *)

(** [types_ok] for the types, [embed_ranked], and the ranges of names as functions. *)
Definition wholeb (c : chain) (N : Z) : bool :=
  forallb (fun i => from_option (fun b => b) false (t ← btf_type_by_id (view c) i; k ← btf_kind t; v ← btf_vlen t; n ← rest_words k v; Some (3 + n <=? Z.of_nat (length t)))) (seqZ 1 (N - 1)).
Definition rankedb (b : btf) (N : Z) (rk : Z -> nat) : bool :=
  forallb (fun x => (rk x <=? Z.to_nat N)%nat && ((x =? 0) || from_option (fun y => (rk y <? rk x)%nat) true (embed_next b x))) (seqZ 0 N).
Definition namesb (b : btf) (M len : Z) : bool :=
  forallb (fun id => from_option (fun no => (0 <=? no) && (no <? len)) true (tname_off b id)) (seqZ 1 (M - 1)).
Definition own_namesb (ts : list (list Z)) (len : Z) : bool :=
  forallb (fun t => from_option (fun k => forallb (fun j => negb (field_word BTF_FIELD_ITER_STRS k j) || from_option (fun x => (0 <=? x) && (x <? len)) true (zget t j)) (seqZ 0 (Z.of_nat (length t)))) true (btf_kind t)) ts.

Lemma wholeb_sound c N id : wholeb c N = true -> 0 < id < N -> exists t k v n, btf_type_by_id (view c) id = Some t /\ whole t k v n.
Proof.
  unfold wholeb. rewrite forallb_forall. intros H Hid. assert (In id (seqZ 1 (N - 1))) as Hin by (apply list_elem_of_In, elem_of_seqZ; lia). specialize (H id Hin).
  destruct (btf_type_by_id (view c) id) as [t|]; [|done]. cbn [mbind option_bind] in H.
  destruct (btf_kind t) as [k|] eqn:Hk; [|done]. destruct (btf_vlen t) as [v|] eqn:Hv; [|done]. cbn [mbind option_bind] in H. destruct (rest_words k v) as [n|] eqn:Hn; [|done]. exists t, k, v, n. split; [done|]. split; [done|done|done|]. by apply Z.leb_le.
Qed.
Lemma rankedb_sound b N rk : rankedb b N rk = true -> embed_ranked b N.
Proof.
  unfold rankedb. rewrite forallb_forall. intros H. exists rk. intros x Hx. assert (In x (seqZ 0 N)) as Hin by (apply list_elem_of_In, elem_of_seqZ; lia). apply H, andb_true_iff in Hin as [H1 H2]. apply Nat.leb_le in H1. split; [done|].
  intros y Hx0 Hy. rewrite Hy in H2. apply orb_true_iff in H2 as [H2|H2]; [by apply Z.eqb_eq in H2|by apply Nat.ltb_lt].
Qed.
Lemma namesb_sound b M len id no : namesb b M len = true -> 0 < id < M -> tname_off b id = Some no -> 0 <= no < len.
Proof.
  unfold namesb. rewrite forallb_forall. intros H Hid Hno. assert (In id (seqZ 1 (M - 1))) as Hin by (apply list_elem_of_In, elem_of_seqZ; lia). specialize (H id Hin). rewrite Hno in H. apply andb_true_iff in H as [H1 H2]. lia.
Qed.
Lemma own_namesb_sound ts len t k j x : own_namesb ts len = true -> t ∈ ts -> btf_kind t = Some k -> field_word BTF_FIELD_ITER_STRS k j = true -> zget t j = Some x -> 0 <= x < len.
Proof.
  unfold own_namesb. rewrite forallb_forall. intros H Ht Hk Hf Hx. specialize (H t (proj1 (list_elem_of_In _ _) Ht)). rewrite Hk in H. cbn [from_option] in H. rewrite forallb_forall in H. pose proof (zget_lt _ _ _ Hx).
  assert (In j (seqZ 0 (Z.of_nat (length t)))) as Hin by (apply list_elem_of_In, elem_of_seqZ; lia). specialize (H j Hin). rewrite Hf, Hx in H. apply andb_true_iff in H as [H1 H2]. lia.
Qed.

(** Distilled: [int] and a struct [foo] of 16 bytes. *)
Definition sample_dist : btf_obj :=
  BtfObj (BtfHeader BTF_MAGIC 24 0 28 28 9) ([1; btf_type_info BTF_KIND_INT 0 false; 4; 32] ++ [5; btf_type_info BTF_KIND_STRUCT 0 false; 16]) 0 [0; 16] 2 2 1 0
    (StrsRaw [0; 105; 110; 116; 0; 102; 111; 111; 0]) 8.
(** A struct [bar] with a member [f] of type [foo] and a pointer [p] to [int]. *)
Definition sample_own : list (list Z) := [[10; btf_type_info BTF_KIND_STRUCT 2 false; 24; 14; 2; 0; 16; 4; 128]; [0; btf_type_info BTF_KIND_PTR 0 false; 1]].
Definition sample_split : btf_obj :=
  BtfObj (BtfHeader BTF_MAGIC 24 0 48 48 9) (mjoin sample_own) 0 [0; 36] 2 2 3 9 (StrsRaw [0; 98; 97; 114; 0; 102; 0; 112; 0]) 8.
(** The new base: [char], [int], a pointer, a struct [foo] of 16 bytes and one of 8 bytes. *)
Definition sample_base : btf_obj :=
  BtfObj (BtfHeader BTF_MAGIC 24 0 80 80 16)
    ([1; btf_type_info BTF_KIND_INT 0 false; 1; 16777224] ++ [10; btf_type_info BTF_KIND_INT 0 false; 4; 32] ++ [0; btf_type_info BTF_KIND_PTR 0 false; 4] ++
     [6; btf_type_info BTF_KIND_STRUCT 1 false; 16; 14; 3; 0] ++ [6; btf_type_info BTF_KIND_STRUCT 0 false; 8]) 0 [0; 16; 32; 44; 68] 5 5 1 0
    (StrsRaw [0; 99; 104; 97; 114; 0; 102; 111; 111; 0; 105; 110; 116; 0; 120; 0]) 8.

Lemma sample_reloc_ok : reloc_ok sample_split sample_dist sample_base sample_own 5 3 6.
Proof.
  split.
  - split; [done|by exists sample_split, [sample_dist]|done|]. intros id. by apply wholeb_sound.
  - by apply refs_okb_sound.
  - by apply (rankedb_sound _ _ (fun _ => 0%nat)).
  - split; [done|by exists sample_dist, []|done|]. intros id. by apply wholeb_sound.
  - split; [done|by exists sample_base, []|done|]. intros id. by apply wholeb_sound.
  - done.
  - split; [done|by exists []|by exists []|]. repeat apply Forall_cons_2; [by exists BTF_KIND_STRUCT, 2, 6|by exists BTF_KIND_PTR, 0, 0|done].
  - done.
  - done.
  - intros id no. by apply namesb_sound.
  - intros id no. by apply namesb_sound.
  - intros t k j x. by apply own_namesb_sound.
  - done.
Qed.

(** [bar] embeds the struct of 16 bytes: the names come after those of the new base, the member has
    type 4 and the pointer is to type 2. *)
Lemma relocate_correct_witness : reloc_ok sample_split sample_dist sample_base sample_own 5 3 6 /\
  (r ← btf_relocate (fun _ => true) [sample_split; sample_dist] (OtherBase [sample_base]); o ← head (snd (fst r)); Some (fst (fst r), o_types o, snd r)) =
    Some (0, [17; btf_type_info BTF_KIND_STRUCT 2 false; 24; 21; 4; 0; 23; 7; 128] ++ [0; btf_type_info BTF_KIND_PTR 0 false; 2], Some [0; 2; 4; 6; 7]) /\
  exists err c' im, btf_relocate (fun _ => true) [sample_split; sample_dist] (OtherBase [sample_base]) = Some (err, c', im) /\
  (err = 0 /\ (exists m o' ts', im = Some m /\ c' = [o'; sample_base] /\ bodies o' ts' /\ o_start_id o' = 6 /\ o_start_str_off o' = 16 /\ o_strs o' = o_strs sample_split /\
     Forall2 (relocated sample_split sample_dist sample_base m o') sample_own ts' /\ zget m 0 = Some 0 /\ (forall id, 3 <= id < 5 -> zget m id = Some (u32 (id - 3 + 6))) /\ all_mapped sample_split sample_dist sample_base 5 3 6 m) \/
   err = - EINVAL /\ c' = [sample_split; sample_dist] /\ ((exists i, 0 < i < 3 /\ ~ distillable sample_dist i) \/ unmatched sample_split sample_dist sample_base 5 3 6) \/
   err = - ENOENT /\ nameless sample_dist 3 \/
   err = - ENOMEM /\ c' = [sample_split; sample_dist] /\ alloc_fails (fun _ => true)).
Proof.
  split; [apply sample_reloc_ok|]. split; [vm_compute; reflexivity|].
  apply (relocate_correct sample_split sample_dist sample_base sample_own 5 3 6). apply sample_reloc_ok.
Defined.

(** A forward declaration is compared with the kflag of the base type, which for a struct or union
    tells whether it has bitfields: the forward declaration of a union is taken for a struct, and
    not found when the base has the union. *)
Definition fwd_dist : btf_obj := BtfObj (BtfHeader BTF_MAGIC 24 0 12 12 5) [1; btf_type_info BTF_KIND_FWD 0 true; 0] 0 [0] 1 1 1 0 (StrsRaw [0; 102; 111; 111; 0]) 8.
Definition fwd_split : btf_obj := BtfObj (BtfHeader BTF_MAGIC 24 0 12 12 0) [0; btf_type_info BTF_KIND_PTR 0 false; 1] 0 [0] 1 1 2 5 (StrsRaw []) 8.
Definition fwd_base (kind : Z) : btf_obj := BtfObj (BtfHeader BTF_MAGIC 24 0 12 12 5) [1; btf_type_info kind 0 false; 8] 0 [0] 1 1 1 0 (StrsRaw [0; 102; 111; 111; 0]) 8.
Theorem fwd_union_confused :
  (r ← btf_relocate (fun _ => true) [fwd_split; fwd_dist] (OtherBase [fwd_base BTF_KIND_STRUCT]); Some (fst (fst r), snd r)) = Some (0, Some [0; 1; 2]) /\
  (r ← btf_relocate (fun _ => true) [fwd_split; fwd_dist] (OtherBase [fwd_base BTF_KIND_UNION]); Some (fst (fst r), snd r)) = Some (- EINVAL, None).
Proof. by vm_compute. Qed.
