(* ===== verification/BtfDistill.v ===== *)
(** * Distilled base BTF

    [btf__distill_base] of src/libbpf/src/btf.c: for an object over a base it makes a small base
    with what is needed to find the base types again (named numbers, forward declarations, and
    structs, unions and enums without their elements), and a new object over it with the types of
    the object and the other base types it refers to.

    The state of the run is the record [btf_distill]; [pipe.src] is the object itself, which is not
    changed.  The new object and its base are one [chain].  [btf__set_endianness] has no effect on
    what is modelled of an object. *)
From stdpp Require Import base numbers list gmap sorting.
From S2P Require Import Prelude Hashmap Strset Btf BtfBuild BtfBuildSpec BtfIter BtfCopy BtfRaw.

Record btf_distill := Distill {
  ds_pipe : pipe;
  ds_id_map : list Z;
  split_start_id : Z;
  diff_id : Z
}.

(** ** The base types that are needed *)

(** The kinds an object may refer to in its base. *)
Definition distill_kind (k : Z) : bool :=
  (k =? BTF_KIND_INT) || (k =? BTF_KIND_FLOAT) || (k =? BTF_KIND_FWD) || (k =? BTF_KIND_ARRAY) || (k =? BTF_KIND_STRUCT) || (k =? BTF_KIND_UNION) ||
  (k =? BTF_KIND_TYPEDEF) || (k =? BTF_KIND_ENUM) || (k =? BTF_KIND_ENUM64) || (k =? BTF_KIND_PTR) || (k =? BTF_KIND_CONST) || (k =? BTF_KIND_RESTRICT) ||
  (k =? BTF_KIND_VOLATILE) || (k =? BTF_KIND_FUNC_PROTO) || (k =? BTF_KIND_TYPE_TAG).

(** Every level of the recursion marks another id. *)
Fixpoint btf_add_distilled_type_ids (fuel : nat) (src : btf) (start : Z) (i : Z) (m : list Z) : option (Z * list Z) :=
  match fuel with
  | O => None
  | S fuel =>
    split_t ← btf_type_by_id src i;
    '(err, it) ← btf_field_iter_init split_t BTF_FIELD_ITER_IDS;
    if negb (err =? 0) then Some (err, m)
    else field_loop (fun off m =>
        id ← word split_t (off / 4);
        if id =? 0 then Some (0, m)
        else if start <=? id then Some (0, m)
        else
          v ← zget m id;
          if 0 <? v then Some (0, m)
          else
            base_t ← btf_type_by_id src id;
            k ← btf_kind base_t;
            if negb (distill_kind k) then Some (- EINVAL, m)
            else
              m ← zset m id id;
              no ← name_off base_t;
              if kind_is_composite k && negb (no =? 0) then Some (0, m)
              else btf_add_distilled_type_ids fuel src start id m) (S (length split_t)) it m
  end.

(** [for (i = src_btf->start_id; i < n; i++)]. *)
Fixpoint distill_ids_loop (n : nat) (fuel : nat) (src : btf) (start : Z) (i : Z) (m : list Z) : option (Z * list Z) :=
  match n with
  | O => Some (0, m)
  | S n =>
    '(err, m) ← btf_add_distilled_type_ids fuel src start i m;
    if err <? 0 then Some (err, m) else distill_ids_loop n fuel src start (i + 1) m
  end.

(** ** Adding them to the new base or to the new object *)

(** What the switch does with a needed type. *)
Inductive distill_action := Pass | Copy | Composite | Enum | Unexpected.
Definition action (adding_to_base : bool) (kind no : Z) : distill_action :=
  if (kind =? BTF_KIND_INT) || (kind =? BTF_KIND_FLOAT) || (kind =? BTF_KIND_FWD) then if adding_to_base then Copy else Pass
  else if (kind =? BTF_KIND_STRUCT) || (kind =? BTF_KIND_UNION) then
    if adding_to_base then if no =? 0 then Pass else Composite else if negb (no =? 0) then Pass else Copy
  else if (kind =? BTF_KIND_ENUM) || (kind =? BTF_KIND_ENUM64) then
    if adding_to_base then if no =? 0 then Pass else Enum else if negb (no =? 0) then Pass else Copy
  else if (kind =? BTF_KIND_ARRAY) || (kind =? BTF_KIND_TYPEDEF) || (kind =? BTF_KIND_PTR) || (kind =? BTF_KIND_CONST) || (kind =? BTF_KIND_RESTRICT) ||
          (kind =? BTF_KIND_VOLATILE) || (kind =? BTF_KIND_FUNC_PROTO) || (kind =? BTF_KIND_TYPE_TAG) then if adding_to_base then Pass else Copy
  else Unexpected.

Definition distill_add (al : oracle) (src : btf) (a : distill_action) (kind : Z) (name : option (list Z)) (t : btf_type) (p : pipe) : option (Z * pipe) :=
  match a with
  | Copy => btf_add_type al src p t
  | Composite => sz ← size t; '(err, c) ← btf_add_composite al p.1 kind name sz; Some (err, (c, p.2))
  | Enum => sz ← size t; '(err, c) ← btf__add_enum al p.1 name sz; Some (err, (c, p.2))
  | Pass | Unexpected => None
  end.

(** [id] is the id of the next type, [err] the last result. *)
Fixpoint add_distilled_loop (n : nat) (al : oracle) (src : btf) (adding_to_base : bool) (i id err : Z) (p : pipe) (m : list Z) : option (Z * (pipe * list Z)) :=
  match n with
  | O => Some (err, (p, m))
  | S n =>
    v ← zget m i;
    if v =? 0 then add_distilled_loop n al src adding_to_base (i + 1) id err p m
    else
      t ← btf_type_by_id src i;
      kind ← btf_kind t;
      no ← name_off t;
      name ← btf__name_by_offset src no;
      match action adding_to_base kind no with
      | Pass => add_distilled_loop n al src adding_to_base (i + 1) id err p m
      | Unexpected => Some (- EINVAL, (p, m))
      | a =>
        '(err, p) ← distill_add (sub i al) src a kind name t p;
        if err <? 0 then Some (err, (p, m))
        else m ← zset m i id; add_distilled_loop n al src adding_to_base (i + 1) (id + 1) err p m
      end
  end.

Definition btf_add_distilled_types (al : oracle) (src : btf) (d : btf_distill) : option (Z * btf_distill) :=
  dst ← head (ds_pipe d).1;
  id ← btf__type_cnt (view (ds_pipe d).1);
  '(err, (p, m)) ← add_distilled_loop (Z.to_nat (split_start_id d - 1)) al src (o_start_id dst =? 1) 1 id 0 (ds_pipe d) (ds_id_map d);
  Some (err, Distill p m (split_start_id d) (diff_id d)).

(** The own types of the object: [btf_add_type] for each of them. *)
Fixpoint add_split_loop (n : nat) (al : oracle) (src : btf) (i err : Z) (p : pipe) : option (Z * pipe) :=
  match n with
  | O => Some (err, p)
  | S n =>
    t ← btf_type_by_id src i;
    '(err, p) ← btf_add_type (sub i al) src p t;
    if err <? 0 then Some (err, p) else add_split_loop n al src (i + 1) err p
  end.

(** ** The new ids *)
Definition distilled_id (m : list Z) (start diff : Z) (x : Z) : option Z :=
  y ← zget m x;
  Some (if negb (y =? 0) then u32 y else if start <=? x then u32 (x - diff) else x).

(** The fields of the type [i] of the object that has it. *)
Fixpoint btf_update_distilled_type_ids (m : list Z) (start diff : Z) (i : Z) (c : chain) : option (Z * chain) :=
  match c with
  | [] => None
  | o :: base =>
    if i <? o_start_id o then '(err, base) ← btf_update_distilled_type_ids m start diff i base; Some (err, o :: base)
    else
      off ← zget (o_offs o) (i - o_start_id o);
      let t := drop (Z.to_nat (off / 4)) (o_types o) in
      '(err, it) ← btf_field_iter_init t BTF_FIELD_ITER_IDS;
      if negb (err =? 0) then Some (err, c)
      else field_loop (fun p c =>
          x ← get_word c ((off + p) / 4);
          y ← distilled_id m start diff x;
          c ← put_word c ((off + p) / 4) y;
          Some (0, c)) (S (length t)) it c
  end.
Fixpoint update_loop (n : nat) (m : list Z) (start diff : Z) (i err : Z) (c : chain) : option (Z * chain) :=
  match n with
  | O => Some (err, c)
  | S n =>
    '(err, c) ← btf_update_distilled_type_ids m start diff i c;
    if err <? 0 then Some (err, c) else update_loop n m start diff (i + 1) err c
  end.

(** ** The whole *)

(** Up to the label [done]: the result and the objects so far. *)
Definition distill_objects (al : oracle) (src : chain) : option (Z * chain) :=
  n ← btf__type_cnt (view src);
  so ← head src;
  new_base ← btf_new_empty (sub 0 al) [];
  match new_base with
  | inl _ => Some (- ENOMEM, [])
  | inr new_base =>
    if negb (al [1]) then Some (- ENOMEM, [new_base])
    else if negb (al [2]) then Some (- ENOMEM, [new_base])
    else
      start ← btf__type_cnt (view (tail src));
      '(err, m) ← distill_ids_loop (Z.to_nat (n - o_start_id so)) (S (Z.to_nat n)) (view src) start (o_start_id so) (replicate (Z.to_nat n) 0);
      if err <? 0 then Some (err, [new_base])
      else
        '(err, d) ← btf_add_distilled_types (sub 3 al) (view src) (Distill ([new_base], Some hashmap__init) m start 0);
        if err <? 0 then Some (err, (ds_pipe d).1)
        else
          new_split ← btf_new_empty (sub 4 al) (ds_pipe d).1;
          match new_split with
          | inl err => Some (err, (ds_pipe d).1)
          | inr new_split =>
            '(err, p) ← add_split_loop (Z.to_nat (n - o_start_id so)) (sub 5 al) (view src) (o_start_id so) err (new_split :: (ds_pipe d).1, (ds_pipe d).2);
            if err <? 0 then Some (err, p.1)
            else
              '(err, d) ← btf_add_distilled_types (sub 6 al) (view src) (Distill p (ds_id_map d) start 0);
              if err <? 0 then Some (err, (ds_pipe d).1)
              else
                cnt ← btf__type_cnt (view (tail (ds_pipe d).1));
                let diff := s32 (start - cnt) in
                n ← btf__type_cnt (view (ds_pipe d).1);
                update_loop (Z.to_nat (n - 1)) (ds_id_map d) start diff 1 err (ds_pipe d).1
          end
  end.

(** The arguments say whether the result pointers are not NULL. *)
Definition btf__distill_base (al : oracle) (src : chain) (new_base_btf new_split_btf : bool) : option (Z * option chain) :=
  if negb new_base_btf || negb new_split_btf || bool_decide (tail src = []) then Some (- EINVAL, None)
  else
    '(err, c) ← distill_objects al src;
    Some (if negb (err =? 0) then (err, None) else (0, Some c)).
