(* ===== verification/BtfDistillSpec.v ===== *)
(** * Distilled base BTF: correctness

    [distill_correct]: the base types an object needs are exactly those it reaches; the new base has
    the ones that can be found again by name, the new object the own types and the others, and every
    id is that of the copy of the type it named. *)
From stdpp Require Import base numbers list gmap sorting.
From S2P Require Import Prelude Hashmap Strset Btf BtfBuild BtfBuildSpec BtfIter BtfCopy BtfRaw BtfDistill.

(** ** The ids of a type *)
Fixpoint rest_ids (k i : Z) (l : list slot) : list Z :=
  match l with
  | [] => []
  | s :: l => match s with inl x => if id_slot k i then [x] else [] | inr _ => [] end ++ rest_ids k (i + 1) l
  end.
Definition type_ids (a : atype) : list Z := (if ref_kind (a_kind a) then [a_val a] else []) ++ rest_ids (a_kind a) 0 (a_rest a).

Lemma rest_ids_word b k i ws l j x : slots b k i ws = Some l -> ws !! j = Some x -> id_slot k (i + Z.of_nat j) = true -> x ∈ rest_ids k i l.
Proof.
  revert i l j. induction ws as [|w ws IH]; intros i l j Hl Hj Hid; [done|]. cbn [slots] in Hl. apply bind_Some in Hl as (y & Hy & Hl). apply bind_Some in Hl as (l0 & Hl0 & [= <-]). cbn [rest_ids]. apply elem_of_app. destruct j as [|j].
  - left. injection Hj as ->. rewrite Z.add_0_r in Hid. destruct (name_slot k i) eqn:En; [by rewrite (name_not_id _ _ En) in Hid|]. injection Hy as <-. rewrite Hid. by left.
  - right. apply (IH (i + 1) l0 j); [done|done|]. by replace (i + 1 + Z.of_nat j) with (i + Z.of_nat (S j)) by lia.
Qed.
Lemma rest_ids_inv b k i ws l x : slots b k i ws = Some l -> x ∈ rest_ids k i l -> exists j, ws !! j = Some x /\ id_slot k (i + Z.of_nat j) = true.
Proof.
  revert i l. induction ws as [|w ws IH]; intros i l Hl Hx; cbn [slots] in Hl; [injection Hl as <-; by apply elem_of_nil in Hx|]. apply bind_Some in Hl as (y & Hy & Hl). apply bind_Some in Hl as (l0 & Hl0 & [= <-]). cbn [rest_ids] in Hx. apply elem_of_app in Hx as [Hx|Hx].
  - exists 0%nat. rewrite Z.add_0_r. destruct (name_slot k i); [apply bind_Some in Hy as (s & _ & Hy); apply bind_Some in Hy as (s' & _ & [= <-]); by apply elem_of_nil in Hx|]. injection Hy as <-. destruct (id_slot k i); [|by apply elem_of_nil in Hx]. apply list_elem_of_singleton in Hx as ->. done.
  - destruct (IH _ _ Hl0 Hx) as (j & Hj & Hid). exists (S j). split; [done|]. by replace (i + Z.of_nat (S j)) with (i + 1 + Z.of_nat j) by lia.
Qed.

(** The ids of a type are the words of its id fields. *)
Lemma ids_of_view b (t : list Z) a n x : type_view b t = Some a -> rest_words (a_kind a) (a_vlen a) = Some n ->
  x ∈ type_ids a <-> exists j, j ∈ field_words BTF_FIELD_ITER_IDS (a_kind a) n /\ zget t j = Some x.
Proof.
  intros Hv Hn. destruct (type_view_inv _ _ _ Hv) as (n' & rest & Hn' & H0 & Hlen & _ & _ & _ & _ & Hval & Hrest & Ha). unfold btf_type in *. rewrite Hn in Hn'. injection Hn' as <-. unfold type_ids. rewrite elem_of_app, Ha. setoid_rewrite field_words_in; [|done].
  assert (forall j, 0 <= j -> take (Z.to_nat n) (drop 3 t) !! Z.to_nat j = Some x <-> 3 + j < 3 + n /\ zget t (3 + j) = Some x) as Htail.
  { intros j Hj. rewrite zget_Some. replace (Z.to_nat (3 + j)) with (3 + Z.to_nat j)%nat by lia. destruct (decide (j < n)); [rewrite lookup_take_lt, lookup_drop by lia; intuition lia|rewrite lookup_take_ge by lia; split; [done|lia]]. }
  split.
  - intros [Hx|Hx].
    + destruct (ref_kind (a_kind a)) eqn:Er; [|by apply elem_of_nil in Hx]. apply list_elem_of_singleton in Hx as ->. exists 2. split; [split; [lia|]; cbn; by rewrite Er|done].
    + destruct (rest_ids_inv _ _ _ _ _ _ Hrest Hx) as (j & Hj & Hid). rewrite <- (Nat2Z.id j) in Hj. apply Htail in Hj as [Hj1 Hj2]; [|lia]. exists (3 + Z.of_nat j). split; [split; [lia|]|done]. rewrite field_word_rest by lia. done.
  - intros (j & [Hj Hf] & Hx). destruct (decide (j < 3)) as [Hj3|Hj3].
    + left. cbn in Hf. destruct (Z.leb_spec 3 j); [lia|]. rewrite orb_false_r in Hf. apply andb_true_iff in Hf as [Hj2 Hf]. apply Z.eqb_eq in Hj2 as ->. rewrite Hf. unfold size, word in Hval. rewrite Hx in Hval. injection Hval as ->. by left.
    + right. replace j with (3 + (j - 3)) in Hf by lia. rewrite field_word_rest in Hf by lia. eapply (rest_ids_word _ _ _ _ _ (Z.to_nat (j - 3))); [exact Hrest| |].
      * apply Htail; [lia|]. replace (3 + (j - 3)) with j by lia. split; [lia|done].
      * by rewrite Z2Nat.id, Z.add_0_l by lia.
Qed.

Lemma map_rest_ext f g k i l : (forall x, x ∈ rest_ids k i l -> f x = g x) -> map_rest f k i l = map_rest g k i l.
Proof.
  revert i. induction l as [|s l IH]; intros i H; [done|]. cbn [map_rest rest_ids] in *. f_equal; [|apply IH; intros x Hx; apply H, elem_of_app; by right].
  destruct (id_slot k i); [|done]. destruct s as [x|s]; [|done]. cbn. rewrite (H x); [done|]. by left.
Qed.
Lemma map_ids_ext f g a : (forall x, x ∈ type_ids a -> f x = g x) -> map_ids f a = map_ids g a.
Proof.
  intros H. unfold map_ids, type_ids in *. f_equal; [|apply map_rest_ext; intros x Hx; apply H, elem_of_app; by right]. destruct (ref_kind (a_kind a)); [|done]. apply H. by left.
Qed.

(** ** Rewriting the ids of a type in place *)
Lemma offs_from_range b ws pos ts e k off : typed_from b ws pos ts e -> 0 <= pos -> pos mod 4 = 0 -> offs_from pos ts !! k = Some off -> pos <= off /\ off mod 4 = 0.
Proof.
  revert pos k. induction ts as [|t ts IH]; intros pos k H Hp Hm Hk; [done|]. destruct H as (n & Hv & Hn & H). cbn [offs_from] in Hk. rewrite Hn in Hk. cbn [default] in Hk. destruct k as [|k]; [by injection Hk as <-|].
  pose proof (view_bound _ _ _ _ Hv Hn). destruct (aligned_next pos n Hm) as [Ha _]. destruct (IH _ _ H ltac:(lia) Ha Hk). split; [lia|done].
Qed.

Lemma laid_offs b ws next offs e a : laid_out ws next offs e -> types_at b ws offs = Some a -> offs = offs_from next a.
Proof.
  revert next a. induction offs as [|off offs IH]; intros next a Hl Ha; [by injection Ha as <-|]. destruct Hl as (-> & sz & Hsz & _ & _ & _ & Hl). unfold types_at in Ha. apply mapM_Some in Ha. inversion Ha as [|? t ? a' Hv Ha']; subst. apply mapM_Some in Ha'.
  destruct (type_view_size _ _ _ Hv) as (n & Hn & _ & Hsz' & _). unfold btf_type in *. rewrite Hsz in Hsz'. injection Hsz' as ->. cbn [offs_from]. rewrite Hn. cbn [default]. f_equal. by apply IH.
Qed.

Lemma offs_from_insert pos ts k t t' : ts !! k = Some t -> a_kind t' = a_kind t -> a_vlen t' = a_vlen t -> offs_from pos (<[k := t']> ts) = offs_from pos ts.
Proof. intros Hk Ek Ev. revert pos k Hk. induction ts as [|t0 ts IH]; intros pos [|k] Hk; try done; cbn; [injection Hk as ->; by rewrite Ek, Ev|]. by rewrite (IH _ k). Qed.

Lemma typed_insert b b' ws ws' pos ts e k t t' n off : typed_from b ws pos ts e -> strs_ext b b' -> 0 <= pos -> pos mod 4 = 0 -> ts !! k = Some t -> offs_from pos ts !! k = Some off ->
  rest_words (a_kind t) (a_vlen t) = Some n -> same_outside (off / 4) (off / 4 + (3 + n)) ws ws' -> type_view b' (drop (Z.to_nat (off / 4)) ws') = Some t' -> a_kind t' = a_kind t -> a_vlen t' = a_vlen t -> typed_from b' ws' pos (<[k := t']> ts) e.
Proof.
  intros H Hs Hp Hm Hk Ho Hn Hout Hv' Ek Ev. revert pos k H Hp Hm Hk Ho. induction ts as [|t0 ts IH]; intros pos k H Hp Hm Hk Ho; [done|]. destruct H as (n0 & Hv & Hn0 & H). pose proof (view_bound _ _ _ _ Hv Hn0) as Hb. pose proof (typed_le _ _ _ _ _ H) as Hle. destruct (aligned_next pos n0 Hm) as [Ha Hd]. cbn [offs_from] in Ho. rewrite Hn0 in Ho. cbn [default] in Ho. destruct k as [|k].
  - injection Hk as ->. injection Ho as <-. rewrite Hn in Hn0. injection Hn0 as <-. cbn. exists n. split_and!; [done|by rewrite Ek, Ev|]. apply (typed_ext b b' ws); [done|done|lia|done|]. intros i Hi. apply Hout. rewrite Hd in Hi. lia.
  - destruct (offs_from_range _ _ _ _ _ _ _ H ltac:(lia) Ha Ho) as [Hge _]. assert (pos / 4 + 3 + n0 <= off / 4) as Hge' by (rewrite <- Hd; apply Z.div_le_mono; lia). cbn. exists n0. split_and!; [|done|apply (IH _ k); [done|lia|done|done|done]].
    apply (type_view_ext b b' _ _ t0 n0 Hv Hs Hn0). apply list_eq. intros i. destruct (decide (i < 3 + Z.to_nat n0)%nat); [|by rewrite !lookup_take_ge by lia]. rewrite !lookup_take_lt, !lookup_drop by done. apply Hout. assert (0 <= pos / 4) by (apply Z.div_pos; lia). lia.
Qed.

Section Update.
Context (m : list Z) (start diff : Z) (f : Z -> Z).

Lemma set_types_same o : set_types (o_types o) (types_cap o) o = o.
Proof. by destruct o. Qed.

Lemma get_word_head o base w : get_word (o :: base) w = zget (o_types o) w.
Proof. done. Qed.
Lemma put_word_head o base w x : put_word (o :: base) w x = (ws ← zset (o_types o) w x; Some (set_types ws (types_cap o) o :: base)).
Proof. done. Qed.

Lemma fold_update off js o base : 0 <= off -> NoDup js -> (forall j, j ∈ js -> 0 <= j /\ exists x, zget (o_types o) (off / 4 + j) = Some x /\ distilled_id m start diff x = Some (f x)) ->
  exists ws, fields_fold (fun p c => x ← get_word c ((off + p) / 4); y ← distilled_id m start diff x; c ← put_word c ((off + p) / 4) y; Some (0, c)) (map (Z.mul 4) js) (o :: base) = Some (0, set_types ws (types_cap o) o :: base) /\
    ids_mapped f (off / 4) js (o_types o) ws.
Proof.
  intros Hoff Hnd. assert (0 <= off / 4) as Hp by (apply Z.div_pos; lia). revert o. induction js as [|j js IH]; intros o Hjs; cbn [map fields_fold].
  { exists (o_types o). rewrite set_types_same. split; [done|]. split; [done|]. intros i x Hi. by rewrite decide_False by apply not_elem_of_nil. }
  apply NoDup_cons in Hnd as [Hnin Hnd]. destruct (Hjs j ltac:(left)) as (Hj & x & Hx & Hf). replace ((off + 4 * j) / 4) with (off / 4 + j) by (rewrite Z.mul_comm, Z.div_add by lia; done). rewrite get_word_head, Hx. cbn [mbind option_bind]. rewrite Hf. cbn [mbind option_bind].
  rewrite put_word_head. pose proof (zget_lt _ _ _ Hx) as Hlt. destruct (zset_is_Some (o_types o) (off / 4 + j) (f x) Hlt) as [ws1 Hs]. rewrite Hs. cbn [mbind option_bind Z.eqb negb].
  destruct (IH Hnd (set_types ws1 (types_cap o) o)) as (ws & Hr & Hlen & Hmp).
  { intros j' Hj'. destruct (Hjs j' ltac:(by right)) as (? & x' & Hx' & ?). split; [done|]. exists x'. split; [|done]. cbn [o_types set_types]. rewrite (zget_zset_ne _ _ _ _ _ Hs); [done|]. intros E. apply Hnin. by replace j with j' by lia. }
  exists ws. split; [exact Hr|]. cbn [o_types set_types] in Hlen, Hmp. split; [by rewrite Hlen, (zset_length _ _ _ _ Hs)|]. intros i y Hi. destruct (decide (Z.of_nat i = off / 4 + j)) as [E|E].
  - apply zget_Some in Hx as [_ Hx]. assert (i = Z.to_nat (off / 4 + j)) as -> by lia. rewrite Hx in Hi. injection Hi as <-. pose proof (zget_zset_eq _ _ _ _ Hs) as Hg. apply zget_Some in Hg as [_ Hg]. rewrite (Hmp _ _ Hg). rewrite E. replace (off / 4 + j - off / 4) with j by lia. rewrite decide_False by done. by rewrite decide_True by left.
  - assert (ws1 !! i = Some y) as Hg. { assert (zget ws1 (Z.of_nat i) = Some y) as Hz by (rewrite (zget_zset_ne _ _ _ _ _ Hs) by lia; by rewrite zget_nat). by rewrite zget_nat in Hz. }
    rewrite (Hmp _ _ Hg). f_equal. destruct (decide (Z.of_nat i - off / 4 ∈ js)) as [Hin|Hin]; [by rewrite decide_True by (by right)|]. rewrite decide_False; [done|]. rewrite elem_of_cons. intros [E'|?]; [lia|done].
Qed.

Lemma obj_typed o base ts : obj_wf o -> obj_types (o :: base) = Some ts -> typed_from (view (o :: base)) (o_types o) 0 ts (h_type_len o) /\ own_offs o = offs_from 0 ts.
Proof.
  intros Hw Hts. rewrite obj_types_at in Hts by done. split; [|by apply (laid_offs (view (o :: base)) (o_types o) 0 _ (h_type_len o)); [apply (ow_laid _ Hw)|]].
  destruct (typed_of_laid (view (o :: base)) (o_types o) (o_types o) 0 (own_offs o) (h_type_len o) ts 0) as [H _]; try done. apply (ow_laid _ Hw).
Qed.

Lemma update_obj o base ts k t : obj_wf o -> obj_types (o :: base) = Some ts -> ts !! k = Some t -> (forall x, x ∈ type_ids t -> distilled_id m start diff x = Some (f x) /\ word_ok (f x)) ->
  exists ws, btf_update_distilled_type_ids m start diff (o_start_id o + Z.of_nat k) (o :: base) = Some (0, set_types ws (types_cap o) o :: base) /\
    obj_wf (set_types ws (types_cap o) o) /\ obj_types (set_types ws (types_cap o) o :: base) = Some (<[k := map_ids f t]> ts).
Proof.
  intros Hw Hts Hk Hids. destruct (obj_typed o base ts Hw Hts) as [Hty Hoffs]. pose proof (lookup_lt_Some _ _ _ Hk) as Hkl. destruct (lookup_lt_is_Some_2 (offs_from 0 ts) k) as [off Hoff]; [by rewrite offs_from_length|].
  destruct (offs_from_range _ _ _ _ _ k off Hty ltac:(lia) eq_refl Hoff) as [Hoff0 Hoffm]. assert (0 <= off / 4) as Hp by (apply Z.div_pos; lia).
  assert (type_view (view (o :: base)) (drop (Z.to_nat (off / 4)) (o_types o)) = Some t) as Hv.
  { rewrite obj_types_at in Hts by done. unfold types_at in Hts. apply mapM_Some in Hts. destruct (Forall2_lookup_r _ _ _ _ _ Hts Hk) as (off' & Ho' & H). rewrite Hoffs, Hoff in Ho'. injection Ho' as <-. done. }
  destruct (type_view_inv _ _ _ Hv) as (n & rest & Hn & Hn0 & Hlen & Hkd & Hvl & _). unfold btf_type in *.
  assert (zget (o_offs o) (Z.of_nat k) = Some off) as Hgo. { rewrite zget_nat. rewrite <- Hoffs in Hoff. unfold own_offs in Hoff. by apply lookup_take_Some in Hoff as [? _]. }
  cbn [btf_update_distilled_type_ids]. destruct (Z.ltb_spec (o_start_id o + Z.of_nat k) (o_start_id o)); [lia|]. replace (o_start_id o + Z.of_nat k - o_start_id o) with (Z.of_nat k) by lia. rewrite Hgo. cbn [mbind option_bind].
  pose proof (field_words_length BTF_FIELD_ITER_IDS (a_kind t) n Hn0) as Hfl. destruct (field_iter_spec BTF_FIELD_ITER_IDS _ (a_kind t) (a_vlen t) n (S (length (drop (Z.to_nat (off / 4)) (o_types o)))) Hkd Hvl Hn ltac:(lia)) as (it & it' & -> & Hr & _). cbn [mbind option_bind Z.eqb negb]. rewrite (field_loop_fold _ _ _ _ _ _ Hr).
  set (js := field_words BTF_FIELD_ITER_IDS (a_kind t) n) in *. assert (forall j x, j ∈ js -> zget (o_types o) (off / 4 + j) = Some x -> x ∈ type_ids t) as Hin.
  { intros j x Hj Hx. apply (ids_of_view _ _ _ _ _ Hv Hn). exists j. split; [done|]. apply field_words_in in Hj as [Hj _]; [|done]. apply zget_Some in Hx as [_ Hx]. apply zget_Some. split; [lia|]. rewrite lookup_drop. rewrite <- Hx. f_equal. lia. }
  assert (forall j, j ∈ js -> 0 <= j < 3 + n) as Hjr by (intros j Hj; by apply field_words_in in Hj as [? _]). rewrite length_drop in Hlen.
  destruct (fold_update off js o base Hoff0) as (ws & Hrun & Hmap); [apply field_words_NoDup| |].
  { intros j Hj. pose proof (Hjr j Hj). split; [lia|]. destruct (zget_is_Some (o_types o) (off / 4 + j)) as [x Hx]; [lia|]. exists x. split; [done|]. apply Hids. by apply (Hin j). }
  exists ws. split; [exact Hrun|]. set (o' := set_types ws (types_cap o) o). assert (strs_ext (view (o :: base)) (view (o' :: base))) as Hse by (by intros ? ?). pose proof (proj1 Hmap) as Hwl.
  assert (typed_from (view (o' :: base)) ws 0 (<[k := map_ids f t]> ts) (h_type_len o)) as Hty'.
  { apply (typed_insert (view (o :: base)) _ (o_types o) ws 0 ts _ k t _ n off); try done; [by eapply ids_outside|].
    apply (type_view_map f _ (drop (Z.to_nat (off / 4)) (o_types o)) _ t n); [|done|by apply ids_mapped_drop]. apply (type_view_ext _ _ _ _ t n Hv Hse Hn). done. }
  destruct (laid_of_typed _ _ _ _ _ Hty') as [Hl' Ha']. rewrite (offs_from_insert 0 ts k t) in Hl', Ha' by done. rewrite <- Hoffs in Hl', Ha'.
  assert (obj_wf o') as Hw'.
  { destruct Hw as [W1 W2 W3 W4 W5 W6 W7]. split; try done.
    - apply Forall_lookup. intros i y Hi. cbn in Hi. destruct (lookup_lt_is_Some_2 (o_types o) i) as [x Hx]; [rewrite <- Hwl; by eapply lookup_lt_Some|]. pose proof (proj2 Hmap i x Hx) as E. rewrite Hi in E. injection E as ->. case_decide as Hd; [|by eapply Forall_lookup in W1].
      apply Hids, (Hin (Z.of_nat i - off / 4)); [done|]. replace (off / 4 + (Z.of_nat i - off / 4)) with (Z.of_nat i) by lia. by rewrite zget_nat.
    - cbn. rewrite Hwl. exact W7. }
  split; [done|]. rewrite obj_types_at by done. exact Ha'.
Qed.

(** All types of an object and its base. *)
Definition both (o nb : btf_obj) (lb lo : list atype) : Prop := chain_wf [o; nb] /\ obj_types [nb] = Some lb /\ obj_types [o; nb] = Some lo /\ o_start_id nb = 1 /\ o_start_id o = 1 + Z.of_nat (length lb).

Lemma both_step o nb lb lo k t : both o nb lb lo -> (lb ++ lo) !! k = Some t -> (forall x, x ∈ type_ids t -> distilled_id m start diff x = Some (f x) /\ word_ok (f x)) ->
  exists o' nb' lb' lo', btf_update_distilled_type_ids m start diff (1 + Z.of_nat k) [o; nb] = Some (0, [o'; nb']) /\ both o' nb' lb' lo' /\ length lb' = length lb /\ lb' ++ lo' = <[k := map_ids f t]> (lb ++ lo).
Proof.
  intros (Hwf & Hlb & Hlo & Hs1 & Hs2) Hk Hids. pose proof Hwf as (_ & Hw & Hl & H0). apply Forall_cons in Hw as [Hwo Hw]. apply Forall_cons in Hw as [Hwb _]. destruct (decide (k < length lb)%nat) as [Hkb|Hkb].
  - rewrite lookup_app_l in Hk by done. destruct (update_obj nb [] lb k t Hwb Hlb Hk Hids) as (ws & Hr & Hw' & Hts). rewrite Hs1 in Hr. exists o, (set_types ws (types_cap nb) nb), (<[k := map_ids f t]> lb), lo. split_and!.
    + cbn [btf_update_distilled_type_ids]. destruct (Z.ltb_spec (1 + Z.of_nat k) (o_start_id o)); [|lia]. cbn [btf_update_distilled_type_ids] in Hr. rewrite Hr. done.
    + split_and!; [|done| |done|by rewrite length_insert]; [split_and!; [done|by do 2 (apply Forall_cons_2; [done|])|exact Hl|exact H0]|]. rewrite obj_types_at in Hlo |- * by done. apply (types_at_strs (view [o; nb])); [done|by intros ? ?].
    + by rewrite length_insert.
    + by rewrite insert_app_l by done.
  - rewrite lookup_app_r in Hk by lia. destruct (update_obj o [nb] lo (k - length lb) t Hwo Hlo Hk Hids) as (ws & Hr & Hw' & Hts). replace (o_start_id o + Z.of_nat (k - length lb)) with (1 + Z.of_nat k) in Hr by lia.
    exists (set_types ws (types_cap o) o), nb, lb, (<[(k - length lb)%nat := map_ids f t]> lo). split_and!; [done| |done|by rewrite insert_app_r_alt by lia]. split_and!; try done. split_and!; [done|by do 2 (apply Forall_cons_2; [done|])|exact Hl|exact H0].
Qed.

Lemma update_loop_spec nn k err o nb lb lo : both o nb lb lo -> (k + nn = length (lb ++ lo))%nat -> (forall j t x, (k <= j)%nat -> (lb ++ lo) !! j = Some t -> x ∈ type_ids t -> distilled_id m start diff x = Some (f x) /\ word_ok (f x)) ->
  exists o' nb' lb' lo', update_loop nn m start diff (1 + Z.of_nat k) err [o; nb] = Some (match nn with O => err | S _ => 0 end, [o'; nb']) /\ both o' nb' lb' lo' /\ length lb' = length lb /\
    lb' ++ lo' = take k (lb ++ lo) ++ map (map_ids f) (drop k (lb ++ lo)).
Proof.
  revert k err o nb lb lo. induction nn as [|nn IH]; intros k err o nb lb lo Hb Hn Hids; cbn [update_loop].
  { exists o, nb, lb, lo. split_and!; [done|done|done|]. rewrite drop_ge, take_ge by lia. cbn. by rewrite app_nil_r. }
  destruct (lookup_lt_is_Some_2 (lb ++ lo) k) as [t Ht]; [lia|]. destruct (both_step o nb lb lo k t Hb Ht) as (o1 & nb1 & lb1 & lo1 & -> & Hb1 & Hl1 & E1); [intros x; by apply (Hids k t x)|]. cbn [mbind option_bind Z.ltb Z.compare].
  destruct (IH (S k) 0 o1 nb1 lb1 lo1 Hb1) as (o2 & nb2 & lb2 & lo2 & Hr & Hb2 & Hl2 & E2).
  { rewrite E1, length_insert. lia. }
  { intros j t' x Hj Ht'. rewrite E1, list_lookup_insert_ne in Ht' by lia. apply (Hids j t'); [lia|done]. }
  exists o2, nb2, lb2, lo2. replace (1 + Z.of_nat (S k)) with (1 + Z.of_nat k + 1) in Hr by lia. split_and!; [rewrite Hr; by destruct nn|done|congruence|]. rewrite E2, E1. rewrite drop_insert_lt by lia. rewrite (drop_S _ _ _ Ht). cbn [map].
  rewrite (take_S_r _ _ (map_ids f t)) by (apply list_lookup_insert_eq; lia). rewrite take_insert_ge by lia. by rewrite <- app_assoc.
Qed.
End Update.

(** ** The setting *)

(** The object [so] over [sbase]: [N] ids, the own ones from [S]; all types can be read, and their
    ids are ids of the object. *)
Definition src_type (c : chain) (id : Z) : option atype := t ← btf_type_by_id (view c) id; type_view (view c) t.
Definition refers (c : chain) (i x : Z) : Prop := exists a, src_type c i = Some a /\ x ∈ type_ids a.

Record distill_ok (so : btf_obj) (sbase : chain) (N S : Z) : Prop := {
  dk_wf : chain_wf (so :: sbase);
  dk_cnt : btf__type_cnt (view (so :: sbase)) = Some N;
  dk_base : btf__type_cnt (view sbase) = Some S;
  dk_start : o_start_id so = S;
  dk_range : 1 <= S <= N /\ N <= 2 ^ 30;
  dk_types : forall id, 0 < id < N -> is_Some (src_type (so :: sbase) id);
  dk_refs : forall i x, 0 < i < N -> refers (so :: sbase) i x -> 0 <= x < N
}.

(** The kind and whether the type has a name. *)
Definition kind_named (c : chain) (i : Z) : option (Z * bool) := t ← btf_type_by_id (view c) i; k ← btf_kind t; no ← name_off t; Some (k, negb (no =? 0)).
Definition shortened (c : chain) (i : Z) : Prop := exists k, kind_named c i = Some (k, true) /\ kind_is_composite k = true.
Definition expected (c : chain) (i : Z) : Prop := exists k n, kind_named c i = Some (k, n) /\ distill_kind k = true.

(** The base types that are needed: what the object refers to, and what these refer to, but for
    the members of named structs and unions. *)
Inductive needed (c : chain) (N S : Z) : Z -> Prop :=
  | needed_own i x : S <= i < N -> refers c i x -> 0 < x < S -> needed c N S x
  | needed_base i x : needed c N S i -> ~ shortened c i -> refers c i x -> 0 < x < S -> needed c N S x.

Lemma chain_words c id t : Forall obj_wf c -> btf_type_by_id (view c) id = Some t -> Forall word_ok t.
Proof.
  induction 1 as [|o c Ho _ IH]; [done|]. cbn [view map btf_type_by_id]. destruct (id =? 0); [intros [= <-]; repeat constructor; lia|]. change (start_id (layer_of o)) with (o_start_id o). destruct (id <? o_start_id o); [apply IH|].
  intros H. apply bind_Some in H as (off & _ & [= <-]). apply Forall_drop, (ow_words _ Ho).
Qed.

Section Distill.
Context (so : btf_obj) (sbase : chain) (N S : Z).
Hypothesis Hok : distill_ok so sbase N S.
Abbreviation src := (so :: sbase).

Lemma src_facts i : 0 < i < N -> exists t a n no s, btf_type_by_id (view src) i = Some t /\ type_view (view src) t = Some a /\ src_type src i = Some a /\ rest_words (a_kind a) (a_vlen a) = Some n /\ 0 <= n /\ 3 + n <= Z.of_nat (length t) /\
  btf_kind t = Some (a_kind a) /\ btf_vlen t = Some (a_vlen a) /\ name_off t = Some no /\ btf__str_by_offset (view src) no = Some (Some s) /\ a_name a = s /\ size t = Some (a_val a) /\ Forall word_ok t /\ kind_named src i = Some (a_kind a, negb (no =? 0)).
Proof.
  intros Hi. destruct (dk_types _ _ _ _ Hok i Hi) as [a Ha]. pose proof Ha as Hb. unfold src_type in Hb. apply bind_Some in Hb as (t & Ht & Hv). destruct (type_view_inv _ _ _ Hv) as (n & rest & Hn & H0 & Hlen & Hk & Hvl & _ & (no & Hno & Hs) & Hval & _).
  exists t, a, n, no, (a_name a). split_and!; try done.
  - destruct (dk_wf _ _ _ _ Hok) as (_ & Hw & _). by apply (chain_words src i).
  - unfold kind_named. rewrite Ht. cbn [mbind option_bind]. rewrite Hk. cbn [mbind option_bind]. by rewrite Hno.
Qed.

(** ** Marking *)
Definition marked (m : list Z) (x : Z) : Prop := 0 < x < S /\ zget m x = Some x.
Record marks_ok (m : list Z) : Prop := {
  mk_len : Z.of_nat (length m) = N;
  mk_entry : forall x, 0 <= x < N -> zget m x = Some 0 \/ marked m x /\ needed src N S x /\ expected src x
}.
Definition more (m m' : list Z) : Prop := forall x, marked m x -> marked m' x.
Definition closed_at (m : list Z) (x : Z) : Prop := ~ shortened src x -> forall y, refers src x y -> 0 < y < S -> marked m y.
Definition unmarked (m : list Z) : nat := length (filter (fun x => x = 0) m).

Lemma closed_more m m' x : more m m' -> closed_at m x -> closed_at m' x.
Proof. intros Hm Hc Hs y Hy Hr. by apply Hm, Hc. Qed.

Lemma unmarked_set m x m' : zget m x = Some 0 -> 0 < x -> zset m x x = Some m' -> (unmarked m' < unmarked m)%nat.
Proof.
  intros Hg Hx Hs. apply zget_Some in Hg as [_ Hg]. unfold zset in Hs. destruct (decide _); [|done]. injection Hs as <-. unfold unmarked. rewrite <- (take_drop_middle _ _ _ Hg) at 2. pose proof (lookup_lt_Some _ _ _ Hg). rewrite insert_take_drop by done.
  rewrite !filter_app, !length_app, filter_cons_False, filter_cons_True by lia. cbn. lia.
Qed.

Lemma mark_ok m x m' : marks_ok m -> 0 < x < S -> needed src N S x -> expected src x -> zset m x x = Some m' -> marks_ok m' /\ more m m' /\ marked m' x /\ forall y, marked m' y -> marked m y \/ y = x.
Proof.
  intros Hm Hx Hn He Hs. assert (forall y, y <> x -> zget m' y = zget m y) as Hne by (intros y Hy; by apply (zget_zset_ne _ _ _ _ _ Hs)). pose proof (zget_zset_eq _ _ _ _ Hs) as Heq. split_and!.
  - split; [rewrite (zset_length _ _ _ _ Hs); apply (mk_len _ Hm)|]. intros y Hy. destruct (decide (y = x)) as [->|Hyx]; [right; by split_and!|]. destruct (mk_entry _ Hm y Hy) as [H|([? ?] & ? & ?)]; [left; by rewrite Hne|right; split_and!; [|done|done]; split; [done|by rewrite Hne]].
  - intros y [Hy Hg]. split; [done|]. destruct (decide (y = x)) as [->|]; [done|by rewrite Hne].
  - by split.
  - intros y [Hy Hg]. destruct (decide (y = x)) as [->|]; [by right|left]. split; [done|]. by rewrite <- Hne.
Qed.

(** The outcome of marking from [m]: [P] holds of the new marks when nothing unexpected is needed. *)
Definition marking (m : list Z) (P : list Z -> Prop) (r : option (Z * list Z)) : Prop := exists err m', r = Some (err, m') /\ marks_ok m' /\ more m m' /\ (unmarked m' <= unmarked m)%nat /\
  (err = 0 /\ P m' /\ (forall x, marked m' x -> marked m x \/ closed_at m' x) \/ err = - EINVAL /\ exists x, needed src N S x /\ ~ expected src x).

Lemma add_ids_spec fuel i m : 0 < i < N -> (S <= i \/ needed src N S i /\ ~ shortened src i) -> marks_ok m -> (unmarked m < fuel)%nat ->
  marking m (fun m' => forall y, refers src i y -> 0 < y < S -> marked m' y) (btf_add_distilled_type_ids fuel (view src) S i m).
Proof.
  revert i m. induction fuel as [|fuel IH]; intros i m Hi Hsrc Hm Hf; [lia|]. cbn [btf_add_distilled_type_ids].
  destruct (src_facts i Hi) as (t & a & n & no & s & Ht & Hv & Hst & Hn & Hn0 & Hlen & Hk & Hvl & _). rewrite Ht. cbn [mbind option_bind]. pose proof (field_words_length BTF_FIELD_ITER_IDS (a_kind a) n Hn0) as Hfl.
  destruct (field_iter_spec BTF_FIELD_ITER_IDS t (a_kind a) (a_vlen a) n (Datatypes.S (length t)) Hk Hvl Hn ltac:(lia)) as (it & it' & -> & Hr & _). cbn [mbind option_bind Z.eqb negb]. rewrite (field_loop_fold _ _ _ _ _ _ Hr). clear Hr it it'.
  assert (forall y, refers src i y <-> exists j, j ∈ field_words BTF_FIELD_ITER_IDS (a_kind a) n /\ zget t j = Some y) as Href.
  { intros y. rewrite <- (ids_of_view _ _ _ _ _ Hv Hn). unfold refers. rewrite Hst. split; [intros (? & [= <-] & ?); done|intros ?; by exists a]. }
  assert (forall j, j ∈ field_words BTF_FIELD_ITER_IDS (a_kind a) n -> exists y, zget t j = Some y /\ refers src i y) as Hjs.
  { intros j Hj. pose proof Hj as Hj'. apply field_words_in in Hj' as [Hjr _]; [|done]. destruct (zget_is_Some t j) as [y Hy]; [lia|]. exists y. split; [done|]. apply Href. by exists j. }
  enough (marking m (fun m' => forall j y, j ∈ field_words BTF_FIELD_ITER_IDS (a_kind a) n -> zget t j = Some y -> 0 < y < S -> marked m' y)
    (fields_fold (fun off m => id ← word t (off / 4); if id =? 0 then Some (0, m) else if S <=? id then Some (0, m) else v ← zget m id; if 0 <? v then Some (0, m) else base_t ← btf_type_by_id (view src) id; k ← btf_kind base_t;
      if negb (distill_kind k) then Some (- EINVAL, m) else m ← zset m id id; no ← name_off base_t; if kind_is_composite k && negb (no =? 0) then Some (0, m) else btf_add_distilled_type_ids fuel (view src) S id m)
      (map (Z.mul 4) (field_words BTF_FIELD_ITER_IDS (a_kind a) n)) m)) as (err & m' & Hrun & Hm' & Hmore & Hu & Hcase).
  { exists err, m'. split; [exact Hrun|]. split_and!; try done. destruct Hcase as [(-> & HP & Hc)|H]; [left; split_and!; try done|by right]. intros y (j & Hj & Hy)%Href Hr. by apply (HP j). }
  clear Hfl Href. revert m Hm Hf Hjs. generalize (field_words BTF_FIELD_ITER_IDS (a_kind a) n). intros js. induction js as [|j js IHj]; intros m Hm Hf Hjs; cbn [map fields_fold].
  { exists 0, m. split_and!; [done|done|by intros ?|done|]. left. split_and!; [done| |by left]. intros j y Hj. by apply elem_of_nil in Hj. }
  destruct (Hjs j ltac:(left)) as (x & Hx & Hix). replace (4 * j / 4) with j by (rewrite Z.mul_comm, Z.div_mul; lia). assert (word t j = Some x) as -> by exact Hx. cbn [mbind option_bind].
  assert (forall r, marking m (fun m' => 0 < x < S -> marked m' x) r -> marking m (fun m' => forall j0 y, j0 ∈ j :: js -> zget t j0 = Some y -> 0 < y < S -> marked m' y) ('(err, st) ← r; if negb (err =? 0) then Some (err, st) else
    fields_fold (fun off m => id ← word t (off / 4); if id =? 0 then Some (0, m) else if S <=? id then Some (0, m) else v ← zget m id; if 0 <? v then Some (0, m) else base_t ← btf_type_by_id (view src) id; k ← btf_kind base_t;
      if negb (distill_kind k) then Some (- EINVAL, m) else m ← zset m id id; no ← name_off base_t; if kind_is_composite k && negb (no =? 0) then Some (0, m) else btf_add_distilled_type_ids fuel (view src) S id m)
      (map (Z.mul 4) js) st)) as Hstep.
  { intros r (err & m1 & -> & Hm1 & Hmo1 & Hu1 & [(-> & HP1 & Hc1)|[-> Hbad]]); cbn [mbind option_bind Z.eqb negb]; [|exists (- EINVAL), m1; split_and!; [done|done|done|done|by right]].
    destruct (IHj m1 Hm1 ltac:(lia)) as (err & m2 & -> & Hm2 & Hmo2 & Hu2 & Hcase); [intros j' Hj'; apply Hjs; by right|]. exists err, m2. split_and!; [done|done|intros y Hy; by apply Hmo2, Hmo1|lia|]. destruct Hcase as [(-> & HP2 & Hc2)|H]; [left; split_and!; [done| |]|by right].
    - intros j0 y Hj0 Hy Hr. apply elem_of_cons in Hj0 as [->|Hj0]; [|by apply (HP2 j0)]. rewrite Hx in Hy. injection Hy as <-. by apply Hmo2, HP1.
    - intros y Hy. destruct (Hc2 y Hy) as [Hy1|?]; [|by right]. destruct (Hc1 y Hy1) as [?|Hcl]; [by left|right]. by apply (closed_more m1). }
  apply Hstep. clear Hstep IHj. assert (forall P : list Z -> Prop, P m -> marking m P (Some (0, m))) as Hstay by (intros P HP; exists 0, m; split_and!; [done|done|by intros ?|done|]; left; split_and!; [done|done|by left]).
  destruct (Z.eqb_spec x 0) as [->|Hx0]; [apply Hstay; lia|]. destruct (Z.leb_spec S x) as [HxS|HxS]; [apply Hstay; lia|]. pose proof (dk_refs _ _ _ _ Hok i x Hi Hix) as Hxr. destruct (zget_is_Some m x) as [v Hg]; [rewrite (mk_len _ Hm); lia|]. rewrite Hg. cbn [mbind option_bind].
  destruct (mk_entry _ Hm x ltac:(lia)) as [E|([_ E] & Hnx & Hex)]; rewrite Hg in E; injection E as ->; [|destruct (Z.ltb_spec 0 x); [apply Hstay; intros _; split; [lia|done]|lia]].
  cbn [Z.ltb Z.compare]. assert (needed src N S x) as Hnx by (destruct Hsrc as [?|[Hni Hsi]]; [apply (needed_own _ _ _ i); [lia|done|lia]|apply (needed_base _ _ _ i); [done|done|done|lia]]).
  destruct (src_facts x ltac:(lia)) as (tx & ax & nx & nox & sx & Htx & _ & _ & _ & _ & _ & Hkx & _ & Hnox & _ & _ & _ & _ & Hkn). rewrite Htx. cbn [mbind option_bind]. rewrite Hkx. cbn [mbind option_bind]. destruct (distill_kind (a_kind ax)) eqn:Hdk; cbn [negb].
  2:{ exists (- EINVAL), m. split_and!; [done|done|by intros ?|done|]. right. split; [done|]. exists x. split; [done|]. intros (k & nm & E & E'). rewrite Hkn in E. injection E as <- <-. congruence. }
  assert (expected src x) as Hex by (by exists (a_kind ax), (negb (nox =? 0))). destruct (zset_is_Some m x x) as [m1 Hs]; [rewrite (mk_len _ Hm); lia|]. rewrite Hs. cbn [mbind option_bind]. rewrite Hnox. cbn [mbind option_bind].
  destruct (mark_ok m x m1 Hm ltac:(lia) Hnx Hex Hs) as (Hm1 & Hmo1 & Hmx & Hmi). pose proof (unmarked_set m x m1 Hg ltac:(lia) Hs) as Hu1. destruct (kind_is_composite (a_kind ax) && negb (nox =? 0)) eqn:Hsh.
  - exists 0, m1. split_and!; [done|done|done|lia|]. left. split_and!; [done|done|]. intros y Hy. destruct (Hmi y Hy) as [?| ->]; [by left|right]. intros Hns. exfalso. apply Hns. apply andb_true_iff in Hsh as [H1 H2]. exists (a_kind ax). by rewrite Hkn, H2.
  - assert (~ shortened src x) as Hns. { intros (k & E & E'). rewrite Hkn in E. injection E as <- E. rewrite E, E' in Hsh. done. }
    destruct (IH x m1 ltac:(lia) (or_intror (conj Hnx Hns)) Hm1 ltac:(lia)) as (err & m2 & -> & Hm2 & Hmo2 & Hu2 & Hcase). exists err, m2. split_and!; [done|done|intros y Hy; by apply Hmo2, Hmo1|lia|]. destruct Hcase as [(-> & HP2 & Hc2)|H]; [left; split_and!; [done|intros _; by apply Hmo2|]|by right].
    intros y Hy. destruct (Hc2 y Hy) as [Hy1|?]; [|by right]. destruct (Hmi y Hy1) as [?| ->]; [by left|right]. intros _. apply HP2.
Qed.

Lemma ids_loop_spec fuel nn i m : S <= i -> i + Z.of_nat nn = N -> marks_ok m -> (unmarked m < fuel)%nat ->
  marking m (fun m' => forall j y, i <= j < N -> refers src j y -> 0 < y < S -> marked m' y) (distill_ids_loop nn fuel (view src) S i m).
Proof.
  revert i m. induction nn as [|nn IH]; intros i m Hi Hn Hm Hf; cbn [distill_ids_loop].
  { exists 0, m. split_and!; [done|done|by intros ?|done|]. left. split_and!; [done|intros; lia|by left]. }
  destruct (dk_range _ _ _ _ Hok). destruct (add_ids_spec fuel i m ltac:(lia) (or_introl Hi) Hm Hf) as (err & m1 & -> & Hm1 & Hmo1 & Hu1 & [(-> & HP1 & Hc1)|[-> Hbad]]); cbn [mbind option_bind]; [cbn [Z.ltb Z.compare]|exists (- EINVAL), m1; split_and!; [done|done|done|done|by right]].
  destruct (IH (i + 1) m1 ltac:(lia) ltac:(lia) Hm1 ltac:(lia)) as (err & m2 & -> & Hm2 & Hmo2 & Hu2 & Hcase). exists err, m2. split_and!; [done|done|intros y Hy; by apply Hmo2, Hmo1|lia|]. destruct Hcase as [(-> & HP2 & Hc2)|?]; [left; split_and!; [done| |]|by right].
  - intros j y Hj Hy Hr. destruct (decide (j = i)) as [->|]; [by apply Hmo2, HP1|apply (HP2 j); [lia|done|done]].
  - intros y Hy. destruct (Hc2 y Hy) as [Hy1|?]; [|by right]. destruct (Hc1 y Hy1) as [?|Hcl]; [by left|right]. by apply (closed_more m1).
Qed.

(** The marks are the needed types. *)
Lemma marks_spec : exists err m, distill_ids_loop (Z.to_nat (N - S)) (Datatypes.S (Z.to_nat N)) (view src) S S (replicate (Z.to_nat N) 0) = Some (err, m) /\
  (err = 0 /\ marks_ok m /\ (forall x, 0 < x < S -> marked m x <-> needed src N S x) \/ err = - EINVAL /\ exists x, needed src N S x /\ ~ expected src x).
Proof.
  destruct (dk_range _ _ _ _ Hok) as [HS HN]. assert (marks_ok (replicate (Z.to_nat N) 0)) as Hz. { split; [rewrite length_replicate; lia|]. intros x Hx. left. apply zget_Some. split; [lia|]. apply lookup_replicate. split; [done|lia]. }
  destruct (ids_loop_spec (Datatypes.S (Z.to_nat N)) (Z.to_nat (N - S)) S _ ltac:(lia) ltac:(lia) Hz) as (err & m & -> & Hm & _ & _ & Hcase).
  { unfold unmarked. pose proof (length_filter (fun x => x = 0) (replicate (Z.to_nat N) 0)) as Hl. rewrite length_replicate in Hl. lia. }
  exists err, m. split; [done|]. destruct Hcase as [(-> & HP & Hc)|?]; [left|by right]. split_and!; [done|done|]. intros x Hx. split.
  - intros Hmx. destruct (mk_entry _ Hm x ltac:(lia)) as [E|(_ & ? & _)]; [|done]. destruct Hmx as [_ E']. rewrite E in E'. injection E' as <-. lia.
  - intros Hn. clear Hx. assert (forall x, ~ marked (replicate (Z.to_nat N) 0) x) as Hno. { intros y [Hy Hg]. destruct (mk_entry _ Hz y ltac:(lia)) as [E|([_ E] & _)]; [rewrite E in Hg; injection Hg; lia|]. apply zget_Some in E as [_ E]. apply lookup_replicate in E as [E _]. lia. }
    induction Hn as [i x Hi Hr Hx|i x Hi IH Hs Hr Hx]; [by apply (HP i)|]. destruct (Hc i IH) as [H1|Hcl]; [by apply Hno in H1|by apply Hcl].
Qed.

(** ** Adding types *)

(** The types of the new base: numbers and forward declarations, named structs, unions and enums;
    of the latter only name and size. *)
Definition findable (k : Z) (named : bool) : bool :=
  (k =? BTF_KIND_INT) || (k =? BTF_KIND_FLOAT) || (k =? BTF_KIND_FWD) || named && (kind_is_composite k || (k =? BTF_KIND_ENUM) || (k =? BTF_KIND_ENUM64)).
Definition to_base (i : Z) : bool := match kind_named src i with Some (k, named) => findable k named | None => false end.
Definition stub (a : atype) : atype :=
  if kind_is_composite (a_kind a) then AType (a_kind a) 0 false (a_name a) (a_val a) []
  else if (a_kind a =? BTF_KIND_ENUM) || (a_kind a =? BTF_KIND_ENUM64) then AType BTF_KIND_ENUM 0 false (a_name a) (a_val a) []
  else a.
Definition made (tb : bool) (a : atype) : atype := if tb then stub a else a.

Lemma action_cases tb k no : distill_kind k = true ->
  match action tb k no with
  | Pass => findable k (negb (no =? 0)) = negb tb
  | Copy => findable k (negb (no =? 0)) = tb /\ (tb = true -> kind_is_composite k = false /\ (k =? BTF_KIND_ENUM) || (k =? BTF_KIND_ENUM64) = false)
  | Composite => tb = true /\ findable k (negb (no =? 0)) = true /\ kind_is_composite k = true
  | Enum => tb = true /\ findable k (negb (no =? 0)) = true /\ kind_is_composite k = false /\ (k =? BTF_KIND_ENUM) || (k =? BTF_KIND_ENUM64) = true
  | Unexpected => False
  end.
Proof.
  intros Hk. unfold distill_kind in Hk. rewrite !orb_true_iff, !Z.eqb_eq in Hk. destruct (Z.eqb_spec no 0) as [->|Hno].
  - destruct_or! Hk; subst k; destruct tb; done.
  - apply Z.eqb_neq in Hno. destruct_or! Hk; subst k; destruct tb; unfold action; rewrite ?Hno; done.
Qed.

(** An enum whose size [btf__add_enum] refuses. *)
Definition odd_enum (i : Z) : Prop := exists a, src_type src i = Some a /\ (a_kind a =? BTF_KIND_ENUM) || (a_kind a =? BTF_KIND_ENUM64) = true /\ a_val a ∉ [1; 2; 4; 8].

Definition type_bytes (a : atype) : Z := 12 + 4 * default 0 (rest_words (a_kind a) (a_vlen a)).
(** No memory, or no room in the objects [c] for a string or a type of the source. *)
Definition ran_out (al : oracle) (c : chain) : Prop :=
  alloc_fails al \/ src_full (view src) c \/ exists o i a, head c = Some o /\ src_type src i = Some a /\ UINT_MAX < h_type_len o + type_bytes a.

Lemma src_strs_ok : strs_ok (view src).
Proof. apply wf_strs_ok, (dk_wf _ _ _ _ Hok). Qed.

Definition added (al : oracle) (o : btf_obj) (base : chain) (a : list atype) (n0 : Z) (t : atype) (P : Z -> Prop) (r : option (Z * pipe)) : Prop :=
  exists err c' map', r = Some (err, (c', map')) /\ chain_wf c' /\ extends (o :: base) c' /\ map_ok (view src) (view c') (n0 + 2 ^ 19) map' /\
  (err = o_start_id o + Z.of_nat (length a) /\ obj_types c' = Some (a ++ [t]) \/ err < 0 /\ obj_types c' = Some a /\ (ran_out al c' \/ P err)).

Lemma add_copy al o base map a n0 i t ta P : chain_wf (o :: base) -> obj_types (o :: base) = Some a -> map_ok (view src) (view (o :: base)) n0 map -> 0 <= n0 < 2 ^ 50 - 2 ^ 19 -> Z.of_nat (length a) < 2 ^ 30 ->
  0 < i < N -> btf_type_by_id (view src) i = Some t -> src_type src i = Some ta -> added al o base a n0 ta P (btf_add_type al (view src) (o :: base, map) t).
Proof.
  intros Hwf Ha Hmap Hn0 Hlen Hi Ht Hst. destruct (src_facts i Hi) as (t' & ta' & n & no & s & Ht' & Hv & Hst' & Hn & Hn00 & _ & _ & _ & _ & _ & _ & _ & Hw & _). rewrite Ht in Ht'. injection Ht' as <-. rewrite Hst in Hst'. injection Hst' as <-.
  destruct (add_type_spec al o base map n0 a (view src) t ta Hwf Ha src_strs_ok Hmap Hn0 Hv Hw) as (err & c' & map' & sz & Hr & Hwf' & Hsz & Hx & Hm' & Hcase). exists err, c', map'. split_and!; try done. destruct Hcase as [?|(Hneg & Ha' & Hk & Hno)]; [by left|right]. split_and!; [done|done|left].
  destruct (type_view_size _ _ _ Hv) as (n' & Hn' & _ & Hsz' & _). unfold btf_type in *. rewrite Hsz in Hsz'. injection Hsz' as ->. destruct Hno as [[?|?]|(o0 & Ho0 & Hbig)]; [by left|right; by left|]. injection Ho0 as <-.
  pose proof Hwf as (_ & Hwo & _). apply Forall_cons in Hwo as [Hwo _]. pose proof (obj_types_length o base a Hwo Ha) as Hnr. destruct Hbig as [Hbig|Hbig]; [|unfold BTF_MAX_NR_TYPES in Hbig; lia].
  right. right. inversion Hk as [|? o' ? ? Hko]; subst. exists o', i, ta. split_and!; [done|done|]. unfold type_bytes. rewrite Hn', (k_len _ _ Hko). done.
Qed.

Lemma add_stub al o base map a n0 i ta s k g (P : Z -> Prop) : chain_wf (o :: base) -> obj_types (o :: base) = Some a -> map_ok (view src) (view (o :: base)) n0 map -> 0 <= n0 -> Z.of_nat (length a) < 2 ^ 30 -> 0 < i < N ->
  src_type src i = Some ta -> (exists no, btf__str_by_offset (view src) no = Some (Some s)) -> 0 <= k < 32 -> rest_words k 0 = Some 0 -> word_ok (a_val ta) -> a_name ta = s ->
  added al o base a n0 (AType k 0 g s (a_val ta) []) P ('(err, c) ← append_type al (o :: base) 12 (Some s) (fun no => [no; btf_type_info k 0 g; a_val ta]); Some (err, (c, map))).
Proof.
  intros Hwf Ha Hmap Hn0 Hlen Hi Hst [no Hs] Hk Hr Hval <-. destruct (new_type_result al (o :: base) a Hwf Ha 3 (Some (a_name ta)) k g (a_val ta) []) as (err & c' & Hrun & Hwf' & Hx & Hcase); try done.
  { cbn. by apply src_strs_ok in Hs. } { by left. }
  change (4 * 3) with 12 in Hrun. cbn [app] in Hrun. rewrite Hrun. cbn [mbind option_bind]. exists err, c', map. split_and!; try done; [eapply map_ok_mono; [exact Hmap|apply Hx|lia]|]. destruct Hcase as [[Ha' Hid]|(Hneg & Ha' & Hk' & Hno)]; [left; split; [by apply Hid|done]|right]. split_and!; [done|done|left].
  destruct Hno as [?|[Hfull|(o0 & Ho0 & Hbig)]]; [by left|right; left; exists no, (a_name ta); split; [done|by apply (full_mono _ _ _ Hk')]|]. injection Ho0 as <-. pose proof Hwf as (_ & Hwo & _). apply Forall_cons in Hwo as [Hwo _]. pose proof (obj_types_length o base a Hwo Ha) as Hnr. destruct Hbig as [Hbig|Hbig]; [|unfold BTF_MAX_NR_TYPES in Hbig; lia].
  right. right. inversion Hk' as [|? o' ? ? Hko]; subst. exists o', i, ta. split_and!; [done|done|]. destruct (src_facts i Hi) as (t' & ta' & n & no' & s & _ & _ & Hst' & Hn & Hn00 & _). rewrite Hst in Hst'. injection Hst' as <-. unfold type_bytes. rewrite Hn, (k_len _ _ Hko). cbn. lia.
Qed.

Lemma distill_add_spec tb al o base map a n0 i t ta no s : chain_wf (o :: base) -> obj_types (o :: base) = Some a -> map_ok (view src) (view (o :: base)) n0 map -> 0 <= n0 < 2 ^ 50 - 2 ^ 19 -> Z.of_nat (length a) < 2 ^ 30 ->
  0 < i < N -> btf_type_by_id (view src) i = Some t -> src_type src i = Some ta -> name_off t = Some no -> btf__str_by_offset (view src) no = Some (Some s) -> distill_kind (a_kind ta) = true -> to_base i = tb -> kind_named src i = Some (a_kind ta, negb (no =? 0)) ->
  action tb (a_kind ta) no <> Pass /\ action tb (a_kind ta) no <> Unexpected /\
  added al o base a n0 (made tb ta) (fun err => err = - EINVAL /\ odd_enum i) (distill_add al (view src) (action tb (a_kind ta) no) (a_kind ta) (Some s) t (o :: base, map)).
Proof.
  intros Hwf Ha Hmap Hn0 Hlen Hi Ht Hst Hno Hs Hdk Htb Hkn. pose proof (action_cases tb (a_kind ta) no Hdk) as Hc. unfold to_base in Htb. rewrite Hkn in Htb.
  destruct (src_facts i Hi) as (t' & ta' & n & no' & s' & Ht' & Hv & Hst' & Hn & Hn00 & _ & Hk & _ & Hno' & Hs' & Hnm & Hsz & Hw & _). rewrite Ht in Ht'. injection Ht' as <-. rewrite Hst in Hst'. injection Hst' as <-. rewrite Hno in Hno'. injection Hno' as <-. rewrite Hs in Hs'. injection Hs' as <-.
  assert (word_ok (a_val ta)) as Hval by (unfold size, word in Hsz; apply zget_Some in Hsz as [_ Hsz]; by eapply Forall_lookup in Hw). pose proof (kind_range _ _ Hk) as Hkr.
  destruct (action tb (a_kind ta) no) eqn:Ea; [rewrite Htb in Hc; by destruct tb| | | |done]; (split; [done|]); (split; [done|]); cbn [distill_add fst snd].
  - destruct Hc as [_ Hc]. replace (made tb ta) with ta; [by apply (add_copy al o base map a n0 i)|]. unfold made. destruct tb; [|done]. destruct (Hc eq_refl) as [E1 E2]. unfold stub. by rewrite E1, E2.
  - destruct Hc as (-> & _ & Hcomp). rewrite Hsz. cbn [mbind option_bind]. unfold made, stub. rewrite Hcomp, Hnm. apply (add_stub al o base map a n0 i ta s (a_kind ta) false); try done; [lia|by exists no|]. unfold kind_is_composite in Hcomp. apply orb_true_iff in Hcomp as [E|E]; apply Z.eqb_eq in E as ->; done.
  - destruct Hc as (-> & _ & Hcomp & Hen). rewrite Hsz. cbn [mbind option_bind]. unfold made, stub. rewrite Hcomp, Hen, Hnm. unfold btf__add_enum, btf_add_enum_common. rewrite enum_size_guard by done. case_bool_decide as Hin; cbn [negb].
    + apply (add_stub al o base map a n0 i ta s BTF_KIND_ENUM false); try done; [lia|by exists no].
    + cbn [mbind option_bind]. exists (- EINVAL), (o :: base), map. split_and!; [done|done|apply kept_extends, chain_kept_refl|eapply map_ok_mono; [exact Hmap|by intros ? ?|lia]|]. right. split_and!; [done|done|right]. split; [done|]. by exists ta.
Qed.

(** The types [is] were added behind [a], under the ids from [id]. *)
Definition appended (tb : bool) (a a' : list atype) (is_ : list Z) : Prop := exists ts, a' = a ++ ts /\ Forall2 (fun x t => exists t0, src_type src x = Some t0 /\ t = made tb t0) is_ ts.
Definition renumbered (m m' : list Z) (id : Z) (is_ : list Z) : Prop := length m' = length m /\ (forall k x, is_ !! k = Some x -> zget m' x = Some (id + Z.of_nat k)) /\ forall x, x ∉ is_ -> zget m' x = zget m x.

(** Of the ids with a mark, those for this object. *)
Definition picked (tb : bool) (m : list Z) (x : Z) : bool := match zget m x with Some v => negb (v =? 0) && Bool.eqb (to_base x) tb | None => false end.

Definition adding (al : oracle) (tb : bool) (o : btf_obj) (base : chain) (a : list atype) (m : list Z) (n0 err0 : Z) (is_ : list Z) (r : option (Z * (pipe * list Z))) : Prop :=
  exists err c' map' m', r = Some (err, ((c', map'), m')) /\ chain_wf c' /\ extends (o :: base) c' /\ map_ok (view src) (view c') (n0 + 2 ^ 19 * Z.of_nat (length is_)) map' /\
  (0 <= err /\ (is_ = [] -> err = err0) /\ (exists a', obj_types c' = Some a' /\ appended tb a a' is_) /\ renumbered m m' (o_start_id o + Z.of_nat (length a)) is_ \/
   err < 0 /\ (ran_out al c' \/ err = - EINVAL /\ exists i, i ∈ is_ /\ odd_enum i)).

Lemma extends_head o base c : extends (o :: base) c -> exists o' base', c = o' :: base' /\ o_start_id o' = o_start_id o /\ o_start_str_off o' = o_start_str_off o /\ chain_kept base base'.
Proof. intros (_ & Hk & E). destruct c as [|o' base']; [done|]. cbn in E. injection E as E1 E2. exists o', base'. by split_and!. Qed.

Lemma ran_out_sub al q c : ran_out (sub q al) c -> ran_out al c.
Proof. intros [?|?]; [left; by eapply fails_sub|by right]. Qed.

Lemma picks_set tb m i id m1 nn : zset m i id = Some m1 -> filter (fun x => picked tb m1 x = true) (seqZ (i + 1) nn) = filter (fun x => picked tb m x = true) (seqZ (i + 1) nn).
Proof.
  intros Hs. assert (forall l, Forall (fun x => x <> i) l -> filter (fun x => picked tb m1 x = true) l = filter (fun x => picked tb m x = true) l) as H.
  { intros l. induction 1 as [|x l Hx _ IH]; [done|]. assert (picked tb m1 x = picked tb m x) as E by (unfold picked; by rewrite (zget_zset_ne _ _ _ _ _ Hs)). rewrite !filter_cons, E, IH. done. }
  apply H, Forall_forall. intros x Hx. apply elem_of_seqZ in Hx. lia.
Qed.

Lemma appended_cons tb a t0 t a' i is_ : src_type src i = Some t0 -> t = made tb t0 -> appended tb (a ++ [t]) a' is_ -> appended tb a a' (i :: is_).
Proof. intros Hi Ht (ts & -> & H). exists (t :: ts). split; [by rewrite <- app_assoc|]. constructor; [by exists t0|done]. Qed.

Lemma renumbered_cons m m1 m' i id is_ : zset m i id = Some m1 -> i ∉ is_ -> renumbered m1 m' (id + 1) is_ -> renumbered m m' id (i :: is_).
Proof.
  intros Hs Hni (Hl & Hin & Hout). split_and!; [by rewrite Hl, (zset_length _ _ _ _ Hs)| |].
  - intros [|k] x Hx; [injection Hx as <-; rewrite Hout, (zget_zset_eq _ _ _ _ Hs), Z.add_0_r by done; done|]. rewrite (Hin k x Hx). f_equal. lia.
  - intros x Hx. rewrite not_elem_of_cons in Hx. destruct Hx as [Hx1 Hx2]. rewrite Hout by done. by apply (zget_zset_ne _ _ _ _ _ Hs).
Qed.

Lemma add_loop_spec tb al nn i id err o base map a m n0 : chain_wf (o :: base) -> obj_types (o :: base) = Some a -> map_ok (view src) (view (o :: base)) n0 map -> 0 < i -> i + Z.of_nat nn = S -> id = o_start_id o + Z.of_nat (length a) -> 0 <= err ->
  Z.of_nat (length m) = N -> (forall x v, i <= x < S -> zget m x = Some v -> v <> 0 -> expected src x) -> 0 <= n0 -> n0 + 2 ^ 19 * Z.of_nat nn < 2 ^ 50 -> Z.of_nat (length a) + Z.of_nat nn <= 2 ^ 30 ->
  adding al tb o base a m n0 err (filter (fun x => picked tb m x = true) (seqZ i (Z.of_nat nn))) (add_distilled_loop nn al (view src) tb i id err (o :: base, map) m).
Proof.
  destruct (dk_range _ _ _ _ Hok) as [HS HN]. revert i id err o base map a m n0. induction nn as [|nn IH]; intros i id err o base map a m n0 Hwf Ha Hmap Hi Hn Hid He Hlm Hex Hn0 Hb Hla.
  { cbn [add_distilled_loop]. exists err, (o :: base), map, m. split_and!; [done|done|apply kept_extends, chain_kept_refl|eapply map_ok_mono; [exact Hmap|by intros ? ?|cbn; lia]|]. left. split_and!; [done|done| |].
    - exists a. split; [done|]. exists []. by rewrite app_nil_r.
    - split_and!; [done|done|done]. }
  cbn [add_distilled_loop]. destruct (zget_is_Some m i) as [v Hv]; [lia|]. rewrite Hv. cbn [mbind option_bind]. rewrite seqZ_cons by lia. replace (Z.pred (Z.of_nat (Datatypes.S nn))) with (Z.of_nat nn) by lia. change (Z.succ i) with (i + 1).
  assert (picked tb m i = false -> adding al tb o base a m n0 err (filter (fun x => picked tb m x = true) (i :: seqZ (i + 1) (Z.of_nat nn))) (add_distilled_loop nn al (view src) tb (i + 1) id err (o :: base, map) m)) as Hskip.
  { intros Hp. rewrite filter_cons_False by (by rewrite Hp). apply IH; try done; try lia. intros x w Hx. apply Hex. lia. }
  destruct (Z.eqb_spec v 0) as [->|Hv0]; [apply Hskip; unfold picked; by rewrite Hv|].
  destruct (src_facts i ltac:(lia)) as (t & ta & n & no & s & Ht & _ & Hst & _ & _ & _ & Hk & _ & Hno & Hs & _ & _ & _ & Hkn). rewrite Ht. cbn [mbind option_bind]. rewrite Hk. cbn [mbind option_bind]. rewrite Hno. cbn [mbind option_bind]. unfold btf__name_by_offset. rewrite Hs. cbn [mbind option_bind].
  destruct (Hex i v ltac:(lia) Hv Hv0) as (k' & nm & E & Hdk). rewrite Hkn in E. injection E as <- <-. destruct (Bool.eqb_spec (to_base i) tb) as [Htb|Htb].
  - assert (picked tb m i = true) as Hp by (unfold picked; rewrite Hv, Htb, Bool.eqb_reflx; by destruct (Z.eqb_spec v 0)). rewrite filter_cons_True by done.
    destruct (distill_add_spec tb (sub i al) o base map a n0 i t ta no s) as (Hnp & Hnu & err' & c' & map' & Hrun & Hwf' & Hx & Hmap' & Hcase); try done; try lia.
    assert (forall r r', match action tb (a_kind ta) no with Pass => r | Unexpected => r' | a0 => '(err, p) ← distill_add (sub i al) (view src) a0 (a_kind ta) (Some s) t (o :: base, map); if err <? 0 then Some (err, (p, m)) else m ← zset m i id; add_distilled_loop nn al (view src) tb (i + 1) (id + 1) err p m end =
      (if err' <? 0 then Some (err', ((c', map'), m)) else m ← zset m i id; add_distilled_loop nn al (view src) tb (i + 1) (id + 1) err' (c', map') m)) as Estep by (intros r r'; destruct (action tb (a_kind ta) no); try done; by rewrite Hrun).
    rewrite Estep. clear Estep. destruct Hcase as [(-> & Ha')|(Hneg & Ha' & Hwhy)].
    + pose proof Hwf as (_ & Hwo & _). apply Forall_cons in Hwo as [Hwo _]. pose proof (ow_start _ Hwo) as [Hs1 _]. destruct (Z.ltb_spec (o_start_id o + Z.of_nat (length a)) 0); [lia|]. destruct (zset_is_Some m i id) as [m1 Hset]; [lia|]. rewrite Hset. cbn [mbind option_bind].
      destruct (extends_head _ _ _ Hx) as (o' & base' & -> & Eid & _ & _).
      destruct (IH (i + 1) (id + 1) (o_start_id o + Z.of_nat (length a)) o' base' map' (a ++ [made tb ta]) m1 (n0 + 2 ^ 19)) as (err2 & c2 & map2 & m2 & Hr2 & Hwf2 & Hx2 & Hmap2 & Hcase2); try done; try (rewrite ?length_app; cbn [length]; lia).
      { rewrite (zset_length _ _ _ _ Hset). done. }
      { intros x w Hxr Hw. rewrite (zget_zset_ne _ _ _ _ _ Hset) in Hw by lia. apply (Hex x w); [lia|done]. }
      rewrite (picks_set tb m i id m1 _ Hset) in Hmap2, Hcase2. set (is_ := filter _ (seqZ (i + 1) _)) in *. exists err2, c2, map2, m2. split_and!; [exact Hr2|done|by eapply extends_trans|eapply map_ok_mono; [exact Hmap2|by intros ? ?|cbn [length]; lia]|].
      destruct Hcase2 as [(He2 & _ & (a2 & Ha2 & Hap) & Hren)|(Hneg2 & Hwhy2)]; [left|right].
      * split_and!; [done|done|exists a2; split; [done|by apply (appended_cons tb a ta (made tb ta))]|]. rewrite Eid, length_app in Hren. cbn [length] in Hren. apply (renumbered_cons m m1); [by rewrite <- Hid| |].
        { unfold is_. rewrite list_elem_of_filter, elem_of_seqZ. lia. }
        by replace (o_start_id o + Z.of_nat (length a + 1)) with (o_start_id o + Z.of_nat (length a) + 1) in Hren by lia.
      * split; [done|]. destruct Hwhy2 as [?|(? & j & Hj & ?)]; [by left|right]. split; [done|]. exists j. split; [by right|done].
    + destruct (Z.ltb_spec err' 0); [|lia]. exists err', c', map', m. split_and!; [done|done|done|eapply map_ok_mono; [exact Hmap'|by intros ? ?|cbn [length]; lia]|]. right. split; [done|]. destruct Hwhy as [Hro|[-> Hodd]]; [left; by eapply ran_out_sub|right]. split; [done|]. exists i. split; [by left|done].
  - assert (action tb (a_kind ta) no = Pass) as ->. { pose proof (action_cases tb (a_kind ta) no Hdk) as Hc. unfold to_base in Htb. rewrite Hkn in Htb. destruct (action tb (a_kind ta) no); try done; [by destruct Hc as [? _]|destruct Hc as (-> & ? & _); congruence|destruct Hc as (-> & ? & _); congruence]. }
    apply Hskip. unfold picked. rewrite Hv. destruct (to_base i), tb; cbn; rewrite ?andb_false_r; congruence.
Qed.

Lemma add_split_spec al nn i err o base map a n0 : chain_wf (o :: base) -> obj_types (o :: base) = Some a -> map_ok (view src) (view (o :: base)) n0 map -> 0 < i -> i + Z.of_nat nn = N -> 0 <= err ->
  0 <= n0 -> n0 + 2 ^ 19 * Z.of_nat nn < 2 ^ 50 -> Z.of_nat (length a) + Z.of_nat nn <= 2 ^ 30 ->
  exists err' c' map', add_split_loop nn al (view src) i err (o :: base, map) = Some (err', (c', map')) /\ chain_wf c' /\ extends (o :: base) c' /\ map_ok (view src) (view c') (n0 + 2 ^ 19 * Z.of_nat nn) map' /\
  (0 <= err' /\ (exists a', obj_types c' = Some a' /\ appended false a a' (seqZ i (Z.of_nat nn))) \/ err' < 0 /\ ran_out al c').
Proof.
  revert i err o base map a n0. induction nn as [|nn IH]; intros i err o base map a n0 Hwf Ha Hmap Hi Hn He Hn0 Hb Hla; cbn [add_split_loop].
  { exists err, (o :: base), map. split_and!; [done|done|apply kept_extends, chain_kept_refl|eapply map_ok_mono; [exact Hmap|by intros ? ?|lia]|]. left. split; [done|]. exists a. split; [done|]. exists []. by rewrite app_nil_r. }
  destruct (src_facts i ltac:(lia)) as (t & ta & n & no & s & Ht & _ & Hst & _). rewrite Ht. cbn [mbind option_bind].
  destruct (add_copy (sub i al) o base map a n0 i t ta (fun _ => False) Hwf Ha Hmap ltac:(lia) ltac:(lia) ltac:(lia) Ht Hst) as (err1 & c1 & map1 & Hr1 & Hwf1 & Hx1 & Hmap1 & Hcase1). unfold chain, pipe in *. rewrite Hr1. cbn [mbind option_bind].
  destruct Hcase1 as [(-> & Ha1)|(Hneg & Ha1 & [Hro|[]])].
  - pose proof Hwf as (_ & Hwo & _). apply Forall_cons in Hwo as [Hwo _]. pose proof (ow_start _ Hwo) as [Hs1 _]. destruct (Z.ltb_spec (o_start_id o + Z.of_nat (length a)) 0); [lia|]. destruct (extends_head _ _ _ Hx1) as (o1 & base1 & -> & _).
    destruct (IH (i + 1) (o_start_id o + Z.of_nat (length a)) o1 base1 map1 (a ++ [ta]) (n0 + 2 ^ 19)) as (err2 & c2 & map2 & Hr2 & Hwf2 & Hx2 & Hmap2 & Hcase2); try done; try (rewrite ?length_app; cbn [length]; lia).
    exists err2, c2, map2. split_and!; [exact Hr2|done|by eapply extends_trans|eapply map_ok_mono; [exact Hmap2|by intros ? ?|lia]|]. destruct Hcase2 as [(He2 & a2 & Ha2 & Hap)|?]; [left|by right]. split; [done|]. exists a2. split; [done|].
    rewrite seqZ_cons by lia. replace (Z.pred (Z.of_nat (Datatypes.S nn))) with (Z.of_nat nn) by lia. by apply (appended_cons false a ta ta).
  - destruct (Z.ltb_spec err1 0); [|lia]. exists err1, c1, map1. split_and!; [done|done|done|eapply map_ok_mono; [exact Hmap1|by intros ? ?|lia]|]. right. split; [done|by eapply ran_out_sub].
Qed.

(** ** The new ids *)

(** The types with the ids [ids] of the source have the ids 1, 2, ... now. *)
Definition new_id (ids : list Z) (x : Z) : Z := if x =? 0 then 0 else match list_find (fun y => y = x) ids with Some (k, _) => 1 + Z.of_nat k | None => 0 end.

Lemma new_id_at ids k x : NoDup ids -> ids !! k = Some x -> x <> 0 -> new_id ids x = 1 + Z.of_nat k.
Proof.
  intros Hnd Hk Hx. unfold new_id. destruct (Z.eqb_spec x 0); [done|]. assert (list_find (fun y => y = x) ids = Some (k, x)) as ->; [|done]. apply list_find_Some. split_and!; [done|done|]. intros j y Hj Hjk ->. pose proof (NoDup_lookup _ _ _ _ Hnd Hj Hk). lia.
Qed.

(** The needed types of the new base or of the new object, in their order. *)
Definition chosen (tb : bool) (is_ : list Z) : Prop := is_ `sublist_of` seqZ 1 (S - 1) /\ forall x, x ∈ is_ <-> 0 < x < S /\ needed src N S x /\ to_base x = tb.

Lemma chosen_picks tb m : marks_ok m -> (forall x, 0 < x < S -> marked m x <-> needed src N S x) -> chosen tb (filter (fun x => picked tb m x = true) (seqZ 1 (S - 1))).
Proof.
  destruct (dk_range _ _ _ _ Hok) as [HS HN]. intros Hm Hmk. split; [apply sublist_filter|]. intros x. rewrite list_elem_of_filter, elem_of_seqZ. unfold picked. split.
  - intros [Hp Hx]. assert (0 < x < S) as Hr by lia. destruct (mk_entry _ Hm x ltac:(lia)) as [E|(Hmx & Hn & _)]; [by rewrite E in Hp|]. destruct Hmx as [_ E]. rewrite E in Hp. apply andb_true_iff in Hp as [_ Hp]. split_and!; [lia|lia|done|by apply Bool.eqb_prop].
  - intros (Hx & Hn & Htb). split; [|lia]. apply (Hmk x Hx) in Hn as [_ E]. rewrite E, Htb, Bool.eqb_reflx. destruct (Z.eqb_spec x 0); [lia|done].
Qed.

Lemma chosen_NoDup tb is_ : chosen tb is_ -> NoDup is_.
Proof. intros [Hs _]. by eapply sublist_NoDup; [apply NoDup_seqZ|]. Qed.

(** All ids in the new order. *)
Definition all_ids (bs es : list Z) : list Z := bs ++ seqZ S (N - S) ++ es.

Lemma all_ids_NoDup bs es : chosen true bs -> chosen false es -> NoDup (all_ids bs es).
Proof.
  intros Hb He. unfold all_ids. apply NoDup_app. split_and!; [by apply (chosen_NoDup true)| |apply NoDup_app; split_and!; [apply NoDup_seqZ| |by apply (chosen_NoDup false)]].
  - intros x Hx. apply (proj2 Hb) in Hx as (Hr & _ & Hx). rewrite elem_of_app, elem_of_seqZ. intros [?|Hx']; [lia|]. apply (proj2 He) in Hx' as (_ & _ & ?). congruence.
  - intros x Hx. apply elem_of_seqZ in Hx. intros Hx'. apply (proj2 He) in Hx' as (? & _). lia.
Qed.

Lemma stub_ids i a x : src_type src i = Some a -> 0 < i < N -> to_base i = true -> x ∈ type_ids (stub a) -> refers src i x /\ ~ shortened src i.
Proof.
  intros Ha Hi Htb Hx. destruct (src_facts i Hi) as (t & a' & n & no & s & _ & _ & Ha' & _ & _ & _ & _ & _ & _ & _ & _ & _ & _ & Hkn). rewrite Ha in Ha'. injection Ha' as <-. unfold stub in Hx. destruct (kind_is_composite (a_kind a)) eqn:Hc.
  - exfalso. unfold type_ids in Hx. cbn [a_kind a_rest rest_ids] in Hx. rewrite app_nil_r in Hx. unfold kind_is_composite in Hc. apply orb_true_iff in Hc as [E|E]; apply Z.eqb_eq in E; rewrite E in Hx; cbn in Hx; by apply elem_of_nil in Hx.
  - split; [|intros (k & E & E'); rewrite Hkn in E; injection E as <- _; congruence]. exists a. split; [done|]. destruct ((a_kind a =? BTF_KIND_ENUM) || (a_kind a =? BTF_KIND_ENUM64)); [by apply elem_of_nil in Hx|done].
Qed.

(** A copied type refers to copied types only. *)
Lemma ids_closed bs es i a x (tb : bool) : chosen true bs -> chosen false es -> src_type src i = Some a -> x ∈ type_ids (made tb a) -> (if tb then i ∈ bs else i ∈ seqZ S (N - S) ++ es) -> x = 0 \/ x ∈ all_ids bs es.
Proof.
  destruct (dk_range _ _ _ _ Hok) as [HS HN]. intros Hb He Ha Hx Hi.
  assert (0 < i < N /\ refers src i x /\ (S <= i \/ needed src N S i /\ ~ shortened src i)) as (Hir & Hr & Hsrc).
  { destruct tb; cbn [made] in Hx.
    - apply (proj2 Hb) in Hi as (Hi & Hn & Htb). destruct (stub_ids i a x Ha ltac:(lia) Htb Hx). split_and!; [lia|lia|done|by right].
    - apply elem_of_app in Hi as [Hi|Hi]; [apply elem_of_seqZ in Hi; split_and!; [lia|lia|by exists a|left; lia]|]. apply (proj2 He) in Hi as (Hi & Hn & Htb). split_and!; [lia|lia|by exists a|right]. split; [done|]. intros (k & E & E'). unfold to_base in Htb. rewrite E in Htb. unfold findable in Htb. rewrite E' in Htb. cbn in Htb. by rewrite orb_true_r in Htb. }
  pose proof (dk_refs _ _ _ _ Hok i x Hir Hr) as Hxr. destruct (decide (x = 0)) as [->|Hx0]; [by left|right]. unfold all_ids. rewrite !elem_of_app, elem_of_seqZ. destruct (decide (S <= x)); [right; left; lia|].
  assert (needed src N S x) as Hnx by (destruct Hsrc as [?|[? ?]]; [apply (needed_own _ _ _ i); [lia|done|lia]|apply (needed_base _ _ _ i); [done|done|done|lia]]). destruct (to_base x) eqn:Htb; [left; apply (proj2 Hb); split_and!; [lia|lia|done|done]|right; right; apply (proj2 He); split_and!; [lia|lia|done|done]].
Qed.

Lemma chosen_length tb is_ : chosen tb is_ -> Z.of_nat (length is_) <= S - 1.
Proof. destruct (dk_range _ _ _ _ Hok) as [HS HN]. intros [Hs _]. apply sublist_length in Hs. rewrite length_seqZ in Hs. lia. Qed.

(** After both rounds the map gives the new ids. *)
Lemma final_ids m m1 m2 bs es x : marks_ok m -> chosen true bs -> chosen false es -> renumbered m m1 1 bs -> renumbered m1 m2 (1 + Z.of_nat (length bs) + (N - S)) es -> x = 0 \/ x ∈ all_ids bs es ->
  distilled_id m2 S (S - (1 + Z.of_nat (length bs))) x = Some (new_id (all_ids bs es) x) /\ word_ok (new_id (all_ids bs es) x).
Proof.
  destruct (dk_range _ _ _ _ Hok) as [HS HN]. intros Hm Hb He (_ & R1 & O1) (_ & R2 & O2) Hx. pose proof (chosen_length true bs Hb) as Hlb. pose proof (chosen_length false es He) as Hle.
  assert (forall y, 0 <= y < N -> y = 0 \/ S <= y -> zget m2 y = Some 0) as Hzero.
  { intros y Hy Hy'. assert (y ∉ es) by (intros Hin; apply (proj2 He) in Hin as (? & _); lia). assert (y ∉ bs) by (intros Hin; apply (proj2 Hb) in Hin as (? & _); lia). rewrite O2, O1 by done. destruct (mk_entry _ Hm y Hy) as [?|([? _] & _)]; [done|lia]. }
  unfold distilled_id, word_ok. destruct (decide (x = 0)) as [->|Hx0].
  - rewrite Hzero by lia. cbn. destruct (Z.leb_spec S 0); [lia|]. unfold new_id. cbn. split; [done|lia].
  - destruct Hx as [?|Hx]; [done|]. apply list_elem_of_lookup in Hx as [k Hk]. rewrite (new_id_at _ k x (all_ids_NoDup bs es Hb He) Hk Hx0). unfold all_ids in Hk. apply lookup_app_Some in Hk as [Hk|[Hkl Hk]].
    + pose proof (list_elem_of_lookup_2 _ _ _ Hk) as Hin. apply lookup_lt_Some in Hk as Hlt. assert (x ∉ es) by (intros Hin'; apply (proj2 He) in Hin' as (_ & _ & ?); apply (proj2 Hb) in Hin as (_ & _ & ?); congruence). rewrite O2, (R1 k x Hk) by done. cbn [mbind option_bind]. destruct (Z.eqb_spec (1 + Z.of_nat k) 0); [lia|]. cbn [negb]. rewrite wrap_small by lia. split; [done|lia].
    + apply lookup_app_Some in Hk as [Hk|[Hkl' Hk]].
      * apply lookup_seqZ in Hk as [-> Hk]. rewrite Hzero by lia. cbn [mbind option_bind Z.eqb negb]. destruct (Z.leb_spec S (S + Z.of_nat (k - length bs))); [|lia]. rewrite wrap_small by lia. split; [f_equal; lia|lia].
      * rewrite length_seqZ in Hk, Hkl'. apply lookup_lt_Some in Hk as Hlt. rewrite (R2 _ x Hk). cbn [mbind option_bind]. destruct (Z.eqb_spec (1 + Z.of_nat (length bs) + (N - S) + Z.of_nat (k - length bs - Z.to_nat (N - S))) 0); [lia|]. cbn [negb]. rewrite wrap_small by lia. split; [f_equal; lia|lia].
Qed.

Lemma empty_starts al base o : btf_new_empty al base = Some (inr o) -> base_ids base = Some (o_start_id o) /\ o_start_str_off o = empty_str_off base.
Proof. unfold btf_new_empty. destruct (negb (al [0])); [done|]. intros H. apply bind_Some in H as (i & Hi & H). destruct (negb (al [1])); [done|]. injection H as <-. done. Qed.

Lemma obj_cnt o base a : obj_wf o -> obj_types (o :: base) = Some a -> o_start_id o + Z.of_nat (length a) < 2 ^ 32 -> btf__type_cnt (view (o :: base)) = Some (o_start_id o + Z.of_nat (length a)).
Proof.
  intros Hw Ha Hb. pose proof (obj_types_length o base a Hw Ha) as Hnr. pose proof (ow_start _ Hw) as [? _]. cbn. f_equal. rewrite wrap_small by lia. lia.
Qed.

(** A base under a new object. *)
Lemma over_base ns nb a al : chain_wf [nb] -> obj_types [nb] = Some a -> o_start_id nb = 1 -> o_start_str_off nb = 0 -> Z.of_nat (length a) < 2 ^ 30 -> btf_new_empty al [nb] = Some (inr ns) ->
  chain_wf [ns; nb] /\ obj_types [ns; nb] = Some [] /\ o_start_id ns = 1 + Z.of_nat (length a) /\ strs_ext (view [nb]) (view [ns; nb]).
Proof.
  intros Hwf Ha Hs Hso Hl Hr. pose proof Hwf as (_ & Hw & _). apply Forall_cons in Hw as [Hw _]. pose proof (obj_types_length nb [] a Hw Ha) as Hnr. destruct (strs_terminated nb Hw) as [_ Hsl].
  destruct (new_empty_spec al [nb] (or_intror Hwf)) as (r & Hr' & Hres); [intros b [= <-]; lia|]. rewrite Hr in Hr'. injection Hr' as <-. destruct Hres as [Hwf' Ha']. destruct (empty_starts al [nb] ns Hr) as [E1 E2]. split_and!; [done|done| |].
  - cbn [base_ids] in E1. rewrite (obj_cnt nb [] a Hw Ha) in E1 by lia. cbn [mbind option_bind] in E1. injection E1 as <-. rewrite swrap_small by lia. lia.
  - intros off s Hs'. rewrite str_in_base; [done|]. rewrite E2. cbn [empty_str_off]. rewrite Hso, wrap_small, swrap_small by lia. rewrite Z.add_0_r. unfold view in Hs'. cbn [map btf__str_by_offset] in Hs'. change (start_str_off (layer_of nb)) with (o_start_str_off nb) in Hs'. change (strs_len (layer_of nb)) with (h_str_len nb) in Hs'. rewrite Hso in Hs'.
    destruct (off <? 0); [done|]. destruct (Z.ltb_spec (off - 0) (h_str_len nb)); [lia|done].
Qed.

(** ** The whole *)
Definition made_of (tb : bool) (is_ : list Z) (ts : list atype) : Prop := Forall2 (fun x t => exists t0, src_type src x = Some t0 /\ t = made tb t0) is_ ts.

Lemma base_phase al m nb0 : marks_ok m -> (forall x, 0 < x < S -> marked m x <-> needed src N S x) -> chain_wf [nb0] -> obj_types [nb0] = Some [] -> o_start_id nb0 = 1 -> o_start_str_off nb0 = 0 ->
  exists err c map m1, btf_add_distilled_types al (view src) (Distill ([nb0], Some hashmap__init) m S 0) = Some (err, Distill (c, map) m1 S 0) /\
  (0 <= err /\ (exists nb bs lb, c = [nb] /\ bs = filter (fun x => picked true m x = true) (seqZ 1 (S - 1)) /\ chain_wf [nb] /\ obj_types [nb] = Some lb /\ o_start_id nb = 1 /\ o_start_str_off nb = 0 /\
     map_ok (view src) (view [nb]) (2 ^ 19 * (S - 1)) map /\ made_of true bs lb /\ renumbered m m1 1 bs) \/
   err < 0 /\ (ran_out al c \/ err = - EINVAL /\ exists i, needed src N S i /\ odd_enum i)).
Proof.
  destruct (dk_range _ _ _ _ Hok) as [HS HN]. intros Hm Hmk Hwf Ha Hs Hso. unfold btf_add_distilled_types. cbn [ds_pipe fst snd head mbind option_bind split_start_id ds_id_map diff_id]. pose proof Hwf as (_ & Hw0 & _). apply Forall_cons in Hw0 as [Hw0 _]. rewrite (obj_cnt nb0 [] [] Hw0 Ha) by (rewrite Hs; cbn; lia). cbn [mbind option_bind]. rewrite Hs. cbn [Z.eqb Pos.eqb].
  destruct (add_loop_spec true al (Z.to_nat (S - 1)) 1 (1 + Z.of_nat (length (@nil atype))) 0 nb0 [] (Some hashmap__init) [] m 0 Hwf Ha (empty_map_ok _ _)) as (err & c & map & m1 & Hr & Hwf1 & Hx & Hmap & Hcase); try (cbn; lia); [apply (mk_len _ Hm)| |].
  { intros x v Hx Hv Hv0. destruct (mk_entry _ Hm x ltac:(lia)) as [E|(_ & _ & ?)]; [congruence|done]. }
  rewrite Z2Nat.id in Hmap, Hcase by lia. unfold pipe, chain in *. rewrite Hr. cbn [mbind option_bind]. exists err, c, map, m1. split; [done|]. pose proof (chosen_picks true m Hm Hmk) as Hch. set (bs := filter _ _) in *. pose proof (chosen_length true bs Hch) as Hbl.
  destruct (extends_head _ _ _ Hx) as (nb & base' & -> & Es & Eso & Hk). inversion Hk; subst base'. destruct Hcase as [(He & _ & (a' & Ha' & lb & -> & H2) & Hren)|(Hneg & Hwhy)]; [left|right].
  - split; [done|]. cbn [app] in Ha'. exists nb, bs, lb. split_and!; try done; [congruence|congruence|eapply map_ok_mono; [exact Hmap|by intros ? ?|lia]|]. rewrite Hs in Hren. cbn in Hren. exact Hren.
  - split; [done|]. destruct Hwhy as [?|(-> & i & Hi & Hodd)]; [by left|right]. split; [done|]. exists i. split; [|done]. by apply (proj2 Hch) in Hi as (_ & ? & _).
Qed.

(** The own types and the second round. *)
Lemma split_phase al al' m m1 nb ns lb bs map err0 : marks_ok m -> (forall x, 0 < x < S -> marked m x <-> needed src N S x) -> bs = filter (fun x => picked true m x = true) (seqZ 1 (S - 1)) ->
  (bs <> [] \/ forall x, needed src N S x -> to_base x = true) -> chain_wf [ns; nb] -> obj_types [ns; nb] = Some [] -> chain_wf [nb] -> obj_types [nb] = Some lb -> made_of true bs lb -> o_start_id nb = 1 -> o_start_id ns = 1 + Z.of_nat (length lb) ->
  map_ok (view src) (view [ns; nb]) (2 ^ 19 * (S - 1)) map -> renumbered m m1 1 bs -> 0 <= err0 ->
  exists err p, add_split_loop (Z.to_nat (N - S)) al (view src) S err0 ([ns; nb], map) = Some (err, p) /\
  (err < 0 /\ ran_out al p.1 \/ 0 <= err /\ exists err d, btf_add_distilled_types al' (view src) (Distill p m1 S 0) = Some (err, d) /\
    (err < 0 /\ (ran_out al' (ds_pipe d).1 \/ err = - EINVAL /\ exists i, needed src N S i /\ odd_enum i) \/
     0 <= err /\ exists o nb' es lo m2 map', d = Distill ([o; nb'], map') m2 S 0 /\ chosen false es /\ both o nb' lb lo /\ made_of false (seqZ S (N - S) ++ es) lo /\ renumbered m1 m2 (1 + Z.of_nat (length bs) + (N - S)) es /\ (lo = [] -> err = 0))).
Proof.
  destruct (dk_range _ _ _ _ Hok) as [HS HN]. intros Hm Hmk Ebs Hnt Hwf Ha Hwfb Hlb Hmade Hs1 Hs2 Hmap Hren He0. pose proof (chosen_picks true m Hm Hmk) as Hch. rewrite <- Ebs in Hch. pose proof (chosen_length true bs Hch) as Hbl. pose proof (Forall2_length _ _ _ Hmade) as Hll.
  destruct (add_split_spec al (Z.to_nat (N - S)) S err0 ns [nb] map [] (2 ^ 19 * (S - 1)) Hwf Ha Hmap) as (err & c & map1 & Hr & Hwf1 & Hx1 & Hmap1 & Hcase); try (cbn; lia).
  exists err, (c, map1). split; [done|]. destruct Hcase as [(He & a1 & Ha1 & own & -> & Hown)|?]; [right|by left]. split; [done|]. cbn [app] in Ha1. rewrite Z2Nat.id in Hown, Hmap1 by lia. pose proof (Forall2_length _ _ _ Hown) as Hol. rewrite length_seqZ in Hol.
  destruct (extends_head _ _ _ Hx1) as (ns1 & base1 & -> & Es1 & _ & Hk1). inversion Hk1 as [|? nb1 ? ? Hkb Hk0]; subst base1. inversion Hk0; subst.
  unfold btf_add_distilled_types. cbn [ds_pipe fst snd head mbind option_bind split_start_id ds_id_map diff_id]. pose proof Hwf1 as (_ & Hwn1 & _). apply Forall_cons in Hwn1 as [Hwn1 _]. rewrite (obj_cnt ns1 [nb1] own Hwn1 Ha1) by lia. cbn [mbind option_bind]. set (tb := o_start_id ns1 =? 1). set (bs := filter (fun x => picked true m x = true) (seqZ 1 (S - 1))) in *.
  set (es := filter (fun x => picked false m x = true) (seqZ 1 (S - 1))). pose proof (chosen_picks false m Hm Hmk) as Hce. fold es in Hce.
  assert (filter (fun x => picked tb m1 x = true) (seqZ 1 (S - 1)) = es /\ (tb = false \/ es = [])) as [Epick Htb].
  { destruct Hren as (_ & R1 & O1). assert (forall x, to_base x = false -> picked false m1 x = picked false m x) as Hsame. { intros x Hx. unfold picked. rewrite O1; [done|]. intros Hin. apply (proj2 Hch) in Hin as (_ & _ & ?). congruence. }
    unfold tb. destruct (Z.eqb_spec (o_start_id ns1) 1) as [E|E].
    - assert (bs = []) as Enil by (apply nil_length_inv; lia). assert (es = []) as Een. { destruct Hnt as [?|Hall]; [done|]. destruct es as [|x es']; [done|]. destruct (proj1 (proj2 Hce x) ltac:(left)) as (_ & Hn & Hf). rewrite (Hall x Hn) in Hf. done. }
      split; [|by right]. rewrite Een, <- Enil. unfold bs. apply list_filter_iff. intros x. unfold picked. rewrite O1; [done|]. rewrite Enil. apply not_elem_of_nil.
    - split; [|by left]. unfold es. apply list_filter_iff. intros x. destruct (to_base x) eqn:Htx; [|by rewrite Hsame]. unfold picked. rewrite Htx. cbn [Bool.eqb]. destruct (zget m1 x), (zget m x); by rewrite ?andb_false_r. }
  pose proof Hren as (Rl & R1 & O1).
  destruct (add_loop_spec tb al' (Z.to_nat (S - 1)) 1 (o_start_id ns1 + Z.of_nat (length own)) 0 ns1 [nb1] map1 own m1 (2 ^ 19 * (S - 1) + 2 ^ 19 * (N - S)) Hwf1 Ha1) as (err2 & c2 & map2 & m2 & Hr2 & Hwf2 & Hx2 & _ & Hcase2); try (cbn; lia); try done.
  { rewrite Rl. apply (mk_len _ Hm). }
  { intros x v Hx Hv Hv0. destruct (mk_entry _ Hm x ltac:(lia)) as [E|(_ & _ & ?)]; [|done]. destruct (decide (x ∈ bs)) as [Hin|Hin]; [|rewrite O1 in Hv by done; congruence]. apply (proj2 Hch) in Hin as (_ & Hn & _). apply (Hmk x ltac:(lia)) in Hn as [_ E']. rewrite E in E'. injection E' as <-. lia. }
  rewrite Z2Nat.id, Epick in Hcase2 by lia. unfold pipe, chain in *. rewrite Hr2. cbn [mbind option_bind]. eexists _, _. split; [done|]. cbn [ds_pipe fst].
  destruct Hcase2 as [(He2 & Hz2 & (a2 & Ha2 & ext & -> & Hext) & Hren2)|(Hneg & Hwhy)]; [right|left].
  2:{ split; [done|]. destruct Hwhy as [?|(-> & i & Hi & Hodd)]; [by left|right]. split; [done|]. exists i. split; [|done]. by apply (proj2 Hce) in Hi as (_ & ? & _). }
  split; [done|]. destruct (extends_head _ _ _ Hx2) as (ns2 & base2 & -> & Es2 & _ & Hk2). inversion Hk2 as [|? nb2 ? ? Hkb2 Hk02]; subst. inversion Hk02; subst. assert (chain_kept [nb] [nb2]) as Hkn by (constructor; [by eapply obj_kept_trans|done]).
  assert (obj_types [nb2] = Some lb) as Hlb2. { apply (kept_types [nb] [nb2] lb Hwfb); [|done|done]. destruct Hwf2 as (_ & Hf & Hl & _). apply Forall_cons in Hf as [_ Hf]. split; [done|done]. }
  exists ns2, nb2, es, (own ++ ext), m2, map2. split_and!; [done|done| | | |].
  - inversion Hkn as [|? ? ? ? Hkk]; subst. destruct (k_start _ _ Hkk) as [Ek _]. split_and!; [done|done|done|congruence|]. rewrite Es2, Es1. done.
  - apply Forall2_app; [done|]. destruct Htb as [E|E]; [by rewrite E in Hext|rewrite E in Hext |- *; by inversion Hext; subst].
  - rewrite Es1, Hs2 in Hren2. replace (1 + Z.of_nat (length bs) + (N - S)) with (1 + Z.of_nat (length lb) + Z.of_nat (length own)) by lia. exact Hren2.
  - intros E. apply app_eq_nil in E as [_ E]. apply Hz2. rewrite E in Hext. by inversion Hext.
Qed.

(** The type [t] is the type [a] of the source with the new ids of copied types. *)
Definition copy_of (ids : list Z) (a t : atype) : Prop := t = map_ids (new_id ids) a /\ forall y, y ∈ type_ids a -> y = 0 \/ y ∈ ids.
Definition copies (tb : bool) (ids is_ : list Z) (ts : list atype) : Prop := Forall2 (fun x t => exists a, src_type src x = Some a /\ copy_of ids (made tb a) t) is_ ts.

Definition distilled (c : chain) : Prop := exists o nb bs es lb lo, c = [o; nb] /\ chosen true bs /\ chosen false es /\ both o nb lb lo /\
  copies true (all_ids bs es) bs lb /\ copies false (all_ids bs es) (seqZ S (N - S) ++ es) lo.

Lemma made_copies (tb : bool) bs es (is_ : list Z) ts : chosen true bs -> chosen false es -> (forall i : Z, i ∈ is_ -> if tb then i ∈ bs else i ∈ seqZ S (N - S) ++ es) -> made_of tb is_ ts -> copies tb (all_ids bs es) is_ (map (map_ids (new_id (all_ids bs es))) ts).
Proof.
  intros Hb He Hin H. unfold copies. apply Forall2_fmap_r. apply Forall2_same_length_lookup. split; [by eapply Forall2_length|]. intros k x t Hx Ht. destruct (Forall2_lookup_lr _ _ _ _ _ _ H Hx Ht) as (a & Ha & ->). exists a. split; [done|]. split; [done|]. intros y Hy. apply (ids_closed bs es x a y tb Hb He Ha Hy), Hin. by eapply list_elem_of_lookup_2.
Qed.

Lemma made_ids (tb : bool) bs es (is_ : list Z) ts k t x : chosen true bs -> chosen false es -> (forall i : Z, i ∈ is_ -> if tb then i ∈ bs else i ∈ seqZ S (N - S) ++ es) -> made_of tb is_ ts -> ts !! k = Some t -> x ∈ type_ids t -> x = 0 \/ x ∈ all_ids bs es.
Proof. intros Hb He Hin H Ht Hx. destruct (Forall2_lookup_r _ _ _ _ _ H Ht) as (i & Hi & a & Ha & ->). apply (ids_closed bs es i a x tb Hb He Ha Hx), Hin. by eapply list_elem_of_lookup_2. Qed.

(** C8. [btf__distill_base] on a well-formed object over a base returns.  When it succeeds, the
    new base has the needed base types that can be found by name (numbers and forward declarations
    as they are; structs, unions and enums with their name and size only), the new object has the
    own types and all other needed base types as they are, both in the order of their ids; every id
    in them is the new id of the type it named.  Needed are exactly the base types that are reached
    from the object without passing through a named struct or union.  It fails only for a needed
    type of an unexpected kind, an enum of an odd size, or when memory or room in the new objects runs
    out.  Some needed type has to go to the new base, unless none goes to the new object. *)
Theorem distill_correct al : (exists x, needed src N S x /\ to_base x = true) \/ (forall x, needed src N S x -> to_base x = true) ->
  exists err c, distill_objects al src = Some (err, c) /\ btf__distill_base al src true true = Some (if err =? 0 then (0, Some c) else (err, None)) /\
  (err = 0 /\ distilled c \/
   err = - EINVAL /\ (exists x, needed src N S x /\ (~ expected src x \/ odd_enum x)) \/
   err < 0 /\ ran_out al c).
Proof.
  intros Hnt. assert (sbase <> []) as Hsb by (intros E; pose proof (dk_base _ _ _ _ Hok) as Hb; by rewrite E in Hb). destruct (dk_range _ _ _ _ Hok) as [HS HN].
  enough (exists err c, distill_objects al src = Some (err, c) /\ (err = 0 /\ distilled c \/ err = - EINVAL /\ (exists x, needed src N S x /\ (~ expected src x \/ odd_enum x)) \/ err < 0 /\ ran_out al c)) as (err & c & Hr & Hc).
  { exists err, c. split_and!; [done| |done]. unfold btf__distill_base. cbn [negb orb tail]. rewrite bool_decide_false by done. rewrite Hr. cbn [mbind option_bind]. by destruct (err =? 0). }
  unfold distill_objects. rewrite (dk_cnt _ _ _ _ Hok). cbn [mbind option_bind head tail]. rewrite (dk_start _ _ _ _ Hok), (dk_base _ _ _ _ Hok).
  destruct (new_empty_spec (sub 0 al) [] (or_introl eq_refl)) as (r0 & Hr0 & Hres0); [done|]. rewrite Hr0. cbn [mbind option_bind]. destruct r0 as [e|nb0].
  { exists (- ENOMEM), (@nil btf_obj). split; [done|]. right. right. split; [done|]. left. destruct Hres0 as [_ ?]. by eapply fails_sub. }
  destruct Hres0 as [Hwf0 Ha0]. destruct (empty_starts _ _ _ Hr0) as [E1 E2]. cbn in E1, E2. injection E1 as E1.
  destruct (al [1]) eqn:Ea1; cbn [negb]; [|exists (- ENOMEM), [nb0]; split; [done|]; right; right; split; [done|]; left; by exists [1]].
  destruct (al [2]) eqn:Ea2; cbn [negb mbind option_bind]; [|exists (- ENOMEM), [nb0]; split; [done|]; right; right; split; [done|]; left; by exists [2]].
  destruct marks_spec as (err & m & -> & Hcase). cbn [mbind option_bind]. destruct Hcase as [(-> & Hm & Hmk)|(-> & x & Hn & Hu)]; [cbn [Z.ltb Z.compare]|exists (- EINVAL), [nb0]; split; [done|]; right; left; split; [done|]; exists x; split; [done|by left]].
  destruct (base_phase (sub 3 al) m nb0 Hm Hmk Hwf0 Ha0 (eq_sym E1) E2) as (err & c1 & map1 & m1 & -> & Hcase). cbn [mbind option_bind ds_pipe fst snd ds_id_map].
  destruct Hcase as [(He1 & nb & bs & lb & -> & Ebs & Hwf1 & Hlb & Hs1 & Hso1 & Hmap1 & Hmade1 & Hren1)|(Hneg & Hwhy)].
  2:{ destruct (Z.ltb_spec err 0); [|lia]. exists err, c1. split; [done|]. destruct Hwhy as [Hro|(-> & i & Hn & Hodd)]; [right; right; split; [done|by eapply ran_out_sub]|right; left]. split; [done|]. exists i. split; [done|by right]. }
  destruct (Z.ltb_spec err 0); [lia|]. pose proof (chosen_picks true m Hm Hmk) as Hcb. rewrite <- Ebs in Hcb. pose proof (chosen_length true bs Hcb) as Hbl. pose proof (Forall2_length _ _ _ Hmade1) as Hll.
  destruct (new_empty_spec (sub 4 al) [nb] (or_intror Hwf1)) as (r1 & Hr1 & Hres1).
  { intros b [= <-]. pose proof Hwf1 as (_ & Hw & _). apply Forall_cons in Hw as [Hw _]. rewrite (obj_types_length nb [] lb Hw Hlb). destruct (strs_terminated nb Hw). lia. }
  unfold chain in *. rewrite Hr1. cbn [mbind option_bind]. destruct r1 as [e|ns].
  { destruct Hres1 as [-> ?]. exists (- ENOMEM), [nb]. split; [done|]. right. right. split; [done|]. left. by eapply fails_sub. }
  destruct (over_base ns nb lb (sub 4 al) Hwf1 Hlb Hs1 Hso1 ltac:(lia) Hr1) as (Hwf2 & Ha2 & Hs2 & Hext2).
  destruct (split_phase (sub 5 al) (sub 6 al) m m1 nb ns lb bs map1 err Hm Hmk Ebs) as (err2 & p & Hr2 & Hcase); try done.
  { destruct Hnt as [(x & Hn & Hx)|?]; [left|by right]. intros E. assert (x ∈ bs) as Hin; [|rewrite E in Hin; by apply elem_of_nil in Hin]. apply (proj2 Hcb). split; [by destruct Hn|done]. }
  { eapply map_ok_mono; [exact Hmap1|done|lia]. }
  unfold pipe, chain in *. rewrite Hr2. cbn [mbind option_bind]. destruct Hcase as [(Hneg & Hro)|(He2 & err3 & d & Hr3 & Hcase)]; [destruct (Z.ltb_spec err2 0); [|lia]; exists err2, p.1; split; [done|]; right; right; split; [done|by eapply ran_out_sub]|].
  destruct (Z.ltb_spec err2 0); [lia|]. rewrite Hr3. cbn [mbind option_bind]. destruct Hcase as [(Hneg & Hwhy)|(He3 & o & nb' & es & lo & m2 & map2 & -> & Hce & Hboth & Hmade2 & Hren2 & Hz)].
  { destruct (Z.ltb_spec err3 0); [|lia]. exists err3, (ds_pipe d).1. split; [done|]. destruct Hwhy as [Hro|(-> & i & Hn & Hodd)]; [right; right; split; [done|by eapply ran_out_sub]|right; left]. split; [done|]. exists i. split; [done|by right]. }
  destruct (Z.ltb_spec err3 0); [lia|]. cbn [ds_pipe fst tail ds_id_map]. pose proof Hboth as (Hwf3 & Hlb3 & Hlo3 & Hn1 & Ho1). pose proof (Forall2_length _ _ _ Hmade2) as Hll2. rewrite length_app, length_seqZ in Hll2. pose proof (chosen_length false es Hce) as Hel.
  pose proof Hwf3 as (_ & Hf & _). apply Forall_cons in Hf as [Hfo Hf]. apply Forall_cons in Hf as [Hfb _]. rewrite (obj_cnt nb' [] lb Hfb Hlb3) by lia. cbn [mbind option_bind]. rewrite (obj_cnt o [nb'] lo Hfo Hlo3) by lia. cbn [mbind option_bind]. rewrite swrap_small by lia.
  destruct (update_loop_spec m2 S (S - (1 + Z.of_nat (length bs))) (new_id (all_ids bs es)) (length (lb ++ lo)) 0 err3 o nb' lb lo Hboth) as (o4 & nb4 & lb4 & lo4 & Hr4 & Hboth4 & Hl4 & E4); [lia| |].
  { intros j t x _ Ht Hx. apply (final_ids m m1 m2); try done. apply lookup_app_Some in Ht as [Ht|[_ Ht]]; [by apply (made_ids true bs es bs lb j t)|by apply (made_ids false bs es (seqZ S (N - S) ++ es) lo (j - length lb)%nat t x)]. }
  rewrite length_app in Hr4. replace (Z.to_nat (o_start_id o + Z.of_nat (length lo) - 1)) with (length lb + length lo)%nat by lia. rewrite Hn1. replace (S - (1 + Z.of_nat (length lb))) with (S - (1 + Z.of_nat (length bs))) by lia. change (1 + Z.of_nat 0) with 1 in Hr4. rewrite Hr4.
  assert (match (length lb + length lo)%nat with O => err3 | Datatypes.S _ => 0 end = 0) as -> by (destruct (length lb + length lo)%nat eqn:El; [|done]; apply Hz, nil_length_inv; lia).
  exists 0, [o4; nb4]. split; [done|]. left. split; [done|]. rewrite take_0, drop_0 in E4. cbn [app] in E4. rewrite map_app in E4. apply app_inj_1 in E4 as [-> ->]; [|by rewrite length_map]. eexists o4, nb4, bs, es, _, _. split_and!; [done|done|done|exact Hboth4|by apply made_copies|by apply (made_copies false)].
Qed.
End Distill.

(** ** Samples *)

(** [dk_types] and [dk_refs] as a function. *)
Definition src_typesb (c : chain) (N : Z) : bool :=
  forallb (fun i => match src_type c i with Some a => forallb (fun x => (0 <=? x) && (x <? N)) (type_ids a) | None => false end) (seqZ 1 (N - 1)).
Lemma src_typesb_sound c N i : src_typesb c N = true -> 0 < i < N -> is_Some (src_type c i) /\ forall x, refers c i x -> 0 <= x < N.
Proof.
  unfold src_typesb. rewrite forallb_forall. intros H Hi. assert (In i (seqZ 1 (N - 1))) as Hin by (apply list_elem_of_In, elem_of_seqZ; lia). specialize (H i Hin). destruct (src_type c i) as [a|] eqn:Ha; [|done]. split; [done|]. rewrite forallb_forall in H.
  intros x (a' & Ha' & Hx). rewrite Ha in Ha'. injection Ha' as <-. apply list_elem_of_In, H, andb_true_iff in Hx as [H1 H2]. lia.
Qed.

(** A base with [int], a struct [foo] and a pointer to it; over it a struct with such a pointer. *)
Definition foo_base : btf_obj :=
  BtfObj (BtfHeader BTF_MAGIC 24 0 52 52 11) ([1; btf_type_info BTF_KIND_INT 0 false; 4; 32] ++ [5; btf_type_info BTF_KIND_STRUCT 1 false; 8; 9; 1; 0] ++ [0; btf_type_info BTF_KIND_PTR 0 false; 2]) 52 [0; 16; 40] 3 3 1 0
    (StrsRaw [0; 105; 110; 116; 0; 102; 111; 111; 0; 120; 0]) 8.
Definition foo_split : btf_obj :=
  BtfObj (BtfHeader BTF_MAGIC 24 0 24 24 6) [11; btf_type_info BTF_KIND_STRUCT 1 false; 8; 15; 3; 0] 24 [0] 1 1 4 11 (StrsRaw [98; 97; 114; 0; 112; 0]) 8.

Lemma foo_ok : distill_ok foo_split [foo_base] 5 4.
Proof.
  assert (src_typesb [foo_split; foo_base] 5 = true) as Hb by (vm_compute; reflexivity).
  split; [|done|done|done|lia|intros i; by apply src_typesb_sound|intros i x Hi; by apply src_typesb_sound].
  split; [done|]. split; [|split; [by vm_compute|done]]. apply Forall_cons_2; [|apply Forall_cons_2; [|constructor]]; (split; simpl; try done; try lia).
  - repeat constructor; lia || (vm_compute; done).
  - split; [done|]. exists 24. split_and!; done.
  - repeat constructor; lia || (vm_compute; done).
  - split; [done|]. exists 16. split_and!; try done. exists 24. split_and!; try done. exists 12. split_and!; done.
Qed.

Lemma foo_needed : needed [foo_split; foo_base] 5 4 2.
Proof.
  apply (needed_base _ _ _ 3); [apply (needed_own _ _ _ 4); [lia| |lia]| | |lia].
  - eexists. split; [vm_compute; reflexivity|]. vm_compute. by left.
  - intros (k & E & Hk). vm_compute in E. done.
  - eexists. split; [vm_compute; reflexivity|]. vm_compute. by left.
Qed.

(** [foo] alone goes to the new base; the pointer follows the struct in the new object. *)
Lemma distill_correct_witness : distill_ok foo_split [foo_base] 5 4 /\
  (r ← btf__distill_base all_ok [foo_split; foo_base] true true; c ← snd r; lo ← obj_types c; lb ← obj_types (tail c); Some (fst r, lb, lo)) =
    Some (0, [AType BTF_KIND_STRUCT 0 false [102; 111; 111] 8 []], [AType BTF_KIND_STRUCT 1 false [98; 97; 114] 8 [inr [112]; inl 3; inl 0]; AType BTF_KIND_PTR 0 false [] 1 []]) /\
  exists err c, distill_objects all_ok [foo_split; foo_base] = Some (err, c) /\ btf__distill_base all_ok [foo_split; foo_base] true true = Some (if err =? 0 then (0, Some c) else (err, None)) /\
  (err = 0 /\ distilled foo_split [foo_base] 5 4 c \/
   err = - EINVAL /\ (exists x, needed [foo_split; foo_base] 5 4 x /\ (~ expected [foo_split; foo_base] x \/ odd_enum foo_split [foo_base] x)) \/
   err < 0 /\ ran_out foo_split [foo_base] all_ok c).
Proof.
  split; [apply foo_ok|]. split; [vm_compute; reflexivity|].
  apply (distill_correct foo_split [foo_base] 5 4 foo_ok all_ok). left. exists 2. split; [apply foo_needed|vm_compute; reflexivity].
Defined.

(** When no needed type goes to the new base, the new object starts at id 1 and the second round
    takes it for the base: a pointer to void of the base is needed but added nowhere, and the new
    object, with the one type 1, refers to a type 2 that does not exist. *)
Definition void_base : btf_obj :=
  BtfObj (BtfHeader BTF_MAGIC 24 0 28 28 5) ([1; btf_type_info BTF_KIND_INT 0 false; 4; 32] ++ [0; btf_type_info BTF_KIND_PTR 0 false; 0]) 28 [0; 16] 2 2 1 0 (StrsRaw [0; 105; 110; 116; 0]) 8.
Definition void_split : btf_obj := BtfObj (BtfHeader BTF_MAGIC 24 0 12 12 0) [0; btf_type_info BTF_KIND_CONST 0 false; 2] 12 [0] 1 1 3 5 (StrsRaw []) 8.
Theorem empty_base_dangles :
  (r ← btf__distill_base all_ok [void_split; void_base] true true; c ← snd r; lo ← obj_types c; lb ← obj_types (tail c); Some (fst r, lb, lo)) = Some (0, [], [AType BTF_KIND_CONST 0 false [] 2 []]).
Proof. vm_compute. reflexivity. Qed.
