(* ===== verification/UsdtArgs.v ===== *)
(** * USDT notes and argument specifications

    The notes, argument specification strings and argument records of src/libbpf/src/usdt.c,
    and the BPF side that reads arguments with them, src/libbpf/src/usdt.bpf.h.

    A note of the ELF section .note.stapsdt ([parse_usdt_note]) has a string such as
    -4@-20(%rbp) 8@%rax, which [parse_usdt_spec] turns into one [usdt_arg_spec] per argument
    with the [sscanf] formats of [parse_usdt_arg] (the x86-64 version); when a probe fires,
    [bpf_usdt_arg] fetches an argument with its record.  [scan] interprets [sscanf] formats.

    Strings of the note section are pointers into its data; [None] is an access outside the data or
    a read of a variable the code has not set. *)
From Stdlib Require Import ZArith Lia String Ascii.
From stdpp Require Import base numbers list gmap sorting.
From S2P Require Import Prelude Hashmap Strset.

(** ** Strings *)
Definition ascii_bytes (s : string) : list Z := map (fun c => Z.of_nat (nat_of_ascii c)) (list_ascii_of_string s).

Definition isspace (c : Z) : bool := ((9 <=? c) && (c <=? 13)) || (c =? 32).
Definition isdigit (c : Z) : bool := (48 <=? c) && (c <=? 57).

(** The longest prefix of characters that satisfy [p], of at most [max] characters. *)
Fixpoint span (p : Z -> bool) (max : option nat) (s : list Z) : list Z * list Z :=
  match s, max with
  | [], _ => ([], [])
  | _, Some O => ([], s)
  | c :: s', _ =>
    if p c then let (l, r) := span p (pred <$> max) s' in (c :: l, r) else ([], s)
  end.

Definition skip_space (s : list Z) : list Z := (span isspace None s).2.

(** ** [sscanf] *)

(** Directives: white space, an ordinary character, %d ([w] = 32) or %ld ([w] = 64), %s with an
    optional maximum width, %\[^c\] with an optional maximum width, and %n. *)
Inductive directive :=
| Blank
| Lit (c : Z)
| Dec (w : Z)
| Str (max : option nat)
| Until (max : option nat) (c : Z)
| Count.

Inductive scanned := SInt (z : Z) | SStr (s : list Z) | SCount (n : Z).

Definition digits_value (l : list Z) : Z := fold_left (fun v c => v * 10 + (c - 48)) l 0.

(** [strtol]: the value is clamped to the range of [long]. *)
Definition strtol (neg : bool) (l : list Z) : Z :=
  let v := if neg then - digits_value l else digits_value l in
  Z.max (- 2 ^ 63) (Z.min (2 ^ 63 - 1) v).

Definition scan_dec (s : list Z) : option (Z * list Z) :=
  let s := skip_space s in
  let (neg, s) := match s with
                  | c :: s' => if c =? 45 then (true, s') else if c =? 43 then (false, s') else (false, s)
                  | [] => (false, s)
                  end in
  let (l, r) := span isdigit None s in
  match l with
  | [] => None
  | _ => Some (strtol neg l, r)
  end.

(** [total] is the length of the whole input.  The result lists what the conversions store, in
    their order, up to the first failure: the value [sscanf] returns is the number of
    conversions other than %n. *)
Fixpoint scan (fmt : list directive) (total : Z) (s : list Z) : list scanned :=
  match fmt with
  | [] => []
  | Blank :: fmt => scan fmt total (skip_space s)
  | Lit c :: fmt =>
    match s with
    | c' :: s => if c =? c' then scan fmt total s else []
    | [] => []
    end
  | Dec w :: fmt =>
    match scan_dec s with
    | Some (v, s) => SInt (swrap w v) :: scan fmt total s
    | None => []
    end
  | Str max :: fmt =>
    match span (fun c => negb (isspace c)) max (skip_space s) with
    | ([], _) => []
    | (l, s) => SStr l :: scan fmt total s
    end
  | Until max c :: fmt =>
    match span (fun c' => negb (c' =? c)) max s with
    | ([], _) => []
    | (l, s) => SStr l :: scan fmt total s
    end
  | Count :: fmt => SCount (total - Z.of_nat (length s)) :: scan fmt total s
  end.
Definition sscanf (s : list Z) (fmt : list directive) : list scanned := scan fmt (Z.of_nat (length s)) s.

(** ** Argument records *)
Inductive usdt_arg_type := USDT_ARG_CONST | USDT_ARG_REG | USDT_ARG_REG_DEREF.

Record usdt_arg_spec := ArgSpec {
  val_off : Z;
  arg_type : usdt_arg_type;
  reg_off : Z;
  arg_signed : bool;
  arg_bitshift : Z
}.

Definition USDT_MAX_ARG_CNT := 12.

Record usdt_spec := Spec { args : list usdt_arg_spec; usdt_cookie : Z; arg_cnt : Z }.

#[export] Instance usdt_arg_type_eq_dec : EqDecision usdt_arg_type.
Proof. solve_decision. Defined.
#[export] Instance usdt_arg_spec_eq_dec : EqDecision usdt_arg_spec.
Proof. solve_decision. Defined.
#[export] Instance usdt_spec_eq_dec : EqDecision usdt_spec.
Proof. solve_decision. Defined.

(** The record of a target after [memset]. *)
Definition zero_arg : usdt_arg_spec := ArgSpec 0 USDT_ARG_CONST 0 false 0.
Definition zero_spec : usdt_spec := Spec (replicate 12 zero_arg) 0 0.

Definition set_loc (ty : usdt_arg_type) (off : Z) (arg : usdt_arg_spec) : usdt_arg_spec :=
  ArgSpec (u64 off) ty (reg_off arg) (arg_signed arg) (arg_bitshift arg).
Definition set_reg_off (v : Z) (arg : usdt_arg_spec) : usdt_arg_spec :=
  ArgSpec (val_off arg) (arg_type arg) (s16 v) (arg_signed arg) (arg_bitshift arg).
Definition set_size (sgn : bool) (shift : Z) (arg : usdt_arg_spec) : usdt_arg_spec :=
  ArgSpec (val_off arg) (arg_type arg) (reg_off arg) sgn (s8 shift).

(** The register names with the offsets of their fields in [struct pt_regs] of x86-64. *)
Definition reg_map : list (list string * Z) :=
  [ (["rip"; "eip"; EmptyString; EmptyString], 128);
    (["rax"; "eax"; "ax"; "al"], 80);
    (["rbx"; "ebx"; "bx"; "bl"], 40);
    (["rcx"; "ecx"; "cx"; "cl"], 88);
    (["rdx"; "edx"; "dx"; "dl"], 96);
    (["rsi"; "esi"; "si"; "sil"], 104);
    (["rdi"; "edi"; "di"; "dil"], 112);
    (["rbp"; "ebp"; "bp"; "bpl"], 32);
    (["rsp"; "esp"; "sp"; "spl"], 152);
    (["r8"; "r8d"; "r8w"; "r8b"], 72);
    (["r9"; "r9d"; "r9w"; "r9b"], 64);
    (["r10"; "r10d"; "r10w"; "r10b"], 56);
    (["r11"; "r11d"; "r11w"; "r11b"], 48);
    (["r12"; "r12d"; "r12w"; "r12b"], 24);
    (["r13"; "r13d"; "r13w"; "r13b"], 16);
    (["r14"; "r14d"; "r14w"; "r14b"], 8);
    (["r15"; "r15d"; "r15w"; "r15b"], 0) ]%string.

Fixpoint find_reg (map : list (list string * Z)) (reg_name : list Z) : Z :=
  match map with
  | [] => - ENOENT
  | (names, off) :: map =>
    if existsb (fun name => bool_decide (reg_name = ascii_bytes name)) names then off else find_reg map reg_name
  end.
Definition calc_pt_regs_off (reg_name : list Z) : Z := find_reg reg_map reg_name.

(** The formats %d @ %ld ( %%%15\[^)\] ) %n, %d @ ( %%%15\[^)\] ) %n, %d @ %%%15s %n and %d @ $%ld %n, each
    with a blank in front. *)
Definition fmt_deref : list directive :=
  [Blank; Dec 32; Blank; Lit 64; Blank; Dec 64; Blank; Lit 40; Blank; Lit 37; Until (Some 15%nat) 41; Blank; Lit 41; Blank; Count].
Definition fmt_deref0 : list directive :=
  [Blank; Dec 32; Blank; Lit 64; Blank; Lit 40; Blank; Lit 37; Until (Some 15%nat) 41; Blank; Lit 41; Blank; Count].
Definition fmt_reg : list directive :=
  [Blank; Dec 32; Blank; Lit 64; Blank; Lit 37; Str (Some 15%nat); Blank; Count].
Definition fmt_const : list directive :=
  [Blank; Dec 32; Blank; Lit 64; Blank; Lit 36; Dec 64; Blank; Count].

(** [len], which has a value only if %n was reached. *)
Definition scanned_len (l : list scanned) : option Z :=
  match l with [SCount n] => Some n | _ => None end.

(** The tail shared by the branches with a register. *)
Definition arg_register (reg_name : list Z) (tail : list scanned) (arg : usdt_arg_spec) (arg_sz : Z)
    : option (Z * usdt_arg_spec * Z) :=
  let off := calc_pt_regs_off reg_name in
  if off <? 0 then Some (off, arg, arg_sz)
  else len ← scanned_len tail; Some (len, set_reg_off off arg, arg_sz).

(** [sscanf] returned 3 (an integer, an integer and a string), 2 (an integer and a string), or 2 (two
    integers); what is left is the result of %n. *)
Definition scanned3 (l : list scanned) : option (Z * Z * list Z * list scanned) :=
  match l with SInt z1 :: SInt z2 :: SStr s :: tail => Some (z1, z2, s, tail) | _ => None end.
Definition scanned2 (l : list scanned) : option (Z * list Z * list scanned) :=
  match l with SInt z :: SStr s :: tail => Some (z, s, tail) | _ => None end.
Definition scanned2i (l : list scanned) : option (Z * Z * list scanned) :=
  match l with SInt z1 :: SInt z2 :: tail => Some (z1, z2, tail) | _ => None end.

(** The result is the return value, the argument record and [*arg_sz] (0 if no format stored it). *)
Definition parse_usdt_arg (arg_str : list Z) (arg : usdt_arg_spec) : option (Z * usdt_arg_spec * Z) :=
  match scanned3 (sscanf arg_str fmt_deref) with
  | Some (arg_sz, off, reg_name, tail) => arg_register reg_name tail (set_loc USDT_ARG_REG_DEREF off arg) arg_sz
  | None =>
  match scanned2 (sscanf arg_str fmt_deref0) with
  | Some (arg_sz, reg_name, tail) => arg_register reg_name tail (set_loc USDT_ARG_REG_DEREF 0 arg) arg_sz
  | None =>
  match scanned2 (sscanf arg_str fmt_reg) with
  | Some (arg_sz, reg_name, tail) => arg_register reg_name tail (set_loc USDT_ARG_REG 0 arg) arg_sz
  | None =>
  match scanned2i (sscanf arg_str fmt_const) with
  | Some (arg_sz, off, tail) =>
    len ← scanned_len tail; Some (len, set_reg_off 0 (set_loc USDT_ARG_CONST off arg), arg_sz)
  | None => Some (- EINVAL, arg, 0)
  end end end end.

(** The switch on the size of an argument. *)
Definition size_ok (arg_sz : Z) : bool := (arg_sz =? 1) || (arg_sz =? 2) || (arg_sz =? 4) || (arg_sz =? 8).

Fixpoint spec_loop (fuel : nat) (s : list Z) (spec : usdt_spec) : option (Z * usdt_spec) :=
  match s, fuel with
  | [], _ => Some (0, spec)
  | _, O => None
  | _, S fuel =>
    if arg_cnt spec >=? USDT_MAX_ARG_CNT then Some (- E2BIG, spec)
    else
      arg ← zget (args spec) (arg_cnt spec);
      '(len, arg, arg_sz) ← parse_usdt_arg s arg;
      if len <? 0 then args' ← zset (args spec) (arg_cnt spec) arg; Some (len, Spec args' (usdt_cookie spec) (arg_cnt spec))
      else
        let sgn := arg_sz <? 0 in
        let arg_sz := if arg_sz <? 0 then s32 (- arg_sz) else arg_sz in
        if size_ok arg_sz then
          args' ← zset (args spec) (arg_cnt spec) (set_size sgn (64 - arg_sz * 8) arg);
          spec_loop fuel (drop (Z.to_nat len) s) (Spec args' (usdt_cookie spec) (s16 (arg_cnt spec + 1)))
        else
          args' ← zset (args spec) (arg_cnt spec) (set_size sgn (arg_bitshift arg) arg);
          Some (- EINVAL, Spec args' (usdt_cookie spec) (arg_cnt spec))
  end.

(** [s] is the string [note->args]; every round consumes a character, so its length is enough fuel. *)
Definition parse_usdt_spec (spec : usdt_spec) (s : list Z) (cookie : Z) : option (Z * usdt_spec) :=
  spec_loop (length s) s (Spec (args spec) cookie 0).

(** ** Notes *)

(** [GElf_Nhdr], as libelf returns it. *)
Record nhdr := Nhdr { n_namesz : Z; n_descsz : Z; n_type : Z }.

Definition USDT_NOTE_TYPE := 3.
Definition USDT_NOTE_NAME : list Z := ascii_bytes "stapsdt".

(** Strings are offsets in the data of the section; [lit_empty] is the address of the literal
    empty string. *)
Record usdt_note := Note { provider : Z; name : Z; note_args : Z; loc_addr : Z; base_addr : Z; sema_addr : Z }.
Definition lit_empty : Z := -1.

(** [strncmp(data + off, lit, n) == 0] for a literal [lit] without its terminator. *)
Fixpoint strncmp_lit (n : nat) (data : list Z) (off : Z) (lit : list Z) : option bool :=
  match n with
  | O => Some true
  | S n =>
    c ← zget data off;
    match lit with
    | [] => Some (c =? 0)
    | l :: lit => if c =? l then strncmp_lit n data (off + 1) lit else Some false
    end
  end.

(** [memchr(data + off, 0, n)], as an offset in [data]. *)
Fixpoint memchr0 (n : nat) (data : list Z) (off : Z) : option (option Z) :=
  match n with
  | O => Some None
  | S n => c ← zget data off; if c =? 0 then Some (Some off) else memchr0 n data (off + 1)
  end.

(** A note that does not parse leaves no record. *)
Definition parse_usdt_note (nh : nhdr) (data : list Z) (name_off desc_off : Z) : option (Z + usdt_note) :=
  same ← strncmp_lit (Z.to_nat (n_namesz nh)) data name_off USDT_NOTE_NAME;
  if negb same then Some (inl (- EINVAL))
  else if negb (n_type nh =? USDT_NOTE_TYPE) then Some (inl (- EINVAL))
  else if n_descsz nh <? 24 + 3 then Some (inl (- EINVAL))
  else
    loc ← get_le 8 data desc_off;
    base ← get_le 8 data (desc_off + 8);
    sema ← get_le 8 data (desc_off + 16);
    let dend := desc_off + n_descsz nh in
    let provider := desc_off + 24 in
    name ← memchr0 (Z.to_nat (dend - provider)) data provider;
    match name with
    | None => Some (inl (- EINVAL))
    | Some name =>
      let name := name + 1 in
      if name >=? dend then Some (inl (- EINVAL))
      else
        c ← zget data name;
        if c =? 0 then Some (inl (- EINVAL))
        else
          args ← memchr0 (Z.to_nat (dend - name)) data name;
          match args with
          | None => Some (inl (- EINVAL))
          | Some args =>
            let args := args + 1 in
            if args >=? dend then Some (inl (- EINVAL))
            else
              c ← zget data args;
              Some (inr (Note provider name (if (c =? 0) || (c =? 58) then lit_empty else args)
                           (s64 loc) (s64 base) (s64 sema)))
          end
    end.

(** The C string at a pointer of a note: [None] if no terminator follows in the data. *)
Definition note_str (data : list Z) (p : Z) : option (list Z) :=
  if p =? lit_empty then Some []
  else if bool_decide (0 <= p <= Z.of_nat (length data) /\ 0 ∈ drop (Z.to_nat p) data) then Some (str_at data p)
  else None.

(** ** Fetching arguments in a BPF program *)

(** What the program sees when a probe fires: the cookie of the probe, the instruction pointer
    and the memory of the traced process through the helpers [bpf_probe_read_kernel] (by offset
    from the context) and [bpf_probe_read_user], which return an error or the 8 bytes read. *)
Record probe_ctx := Ctx { attach_cookie : Z; ctx_ip : Z; read_kernel : Z -> Z + Z; read_user : Z -> Z + Z }.

Section Fetch.
(** The kernel's cookie support and the two maps. *)
Context (has_cookie : bool) (specs : Z -> option usdt_spec) (ip_to_spec_id : Z -> option Z).

Definition __bpf_usdt_spec_id (ctx : probe_ctx) : Z :=
  if negb has_cookie then
    match ip_to_spec_id (ctx_ip ctx) with Some id => id | None => - ESRCH end
  else s32 (attach_cookie ctx).

Definition ctx_spec (ctx : probe_ctx) : option usdt_spec :=
  let spec_id := __bpf_usdt_spec_id ctx in if spec_id <? 0 then None else specs spec_id.

Definition bpf_usdt_arg_cnt (ctx : probe_ctx) : Z :=
  match ctx_spec ctx with None => - ESRCH | Some spec => arg_cnt spec end.

Definition bpf_usdt_cookie (ctx : probe_ctx) : Z :=
  match ctx_spec ctx with None => 0 | Some spec => s64 (usdt_cookie spec) end.

(** [arg_num >= spec->arg_cnt] compares unsigned 64-bit values. *)
Definition arg_of (spec : usdt_spec) (arg_num : Z) : option (Z + usdt_arg_spec) :=
  if arg_num >=? USDT_MAX_ARG_CNT then Some (inl (- ENOENT))
  else if arg_num >=? u64 (arg_cnt spec) then Some (inl (- ENOENT))
  else arg_spec ← zget (args spec) arg_num; Some (inr arg_spec).

Definition bpf_usdt_arg_size (ctx : probe_ctx) (arg_num : Z) : option Z :=
  match ctx_spec ctx with
  | None => Some (- ESRCH)
  | Some spec =>
    r ← arg_of spec arg_num;
    match r with
    | inl err => Some err
    | inr arg_spec => Some (s32 (u32 (64 - arg_bitshift arg_spec) / 8))
    end
  end.

(** The value of the location, before the size of the argument is applied. *)
Definition fetch_raw (ctx : probe_ctx) (arg_spec : usdt_arg_spec) : Z + Z :=
  match arg_type arg_spec with
  | USDT_ARG_CONST => inr (val_off arg_spec)
  | USDT_ARG_REG => read_kernel ctx (reg_off arg_spec)
  | USDT_ARG_REG_DEREF =>
    match read_kernel ctx (reg_off arg_spec) with
    | inl err => inl err
    | inr val => read_user ctx (u64 (val + val_off arg_spec))
    end
  end.

(** The result is the return value and [*res]; shifts are those of 64-bit registers. *)
Definition bpf_usdt_arg (ctx : probe_ctx) (arg_num : Z) : option (Z * Z) :=
  match ctx_spec ctx with
  | None => Some (- ESRCH, 0)
  | Some spec =>
    r ← arg_of spec arg_num;
    match r with
    | inl err => Some (err, 0)
    | inr arg_spec =>
      match fetch_raw ctx arg_spec with
      | inl err => Some (err, 0)
      | inr val =>
        let val := u64 (val <<' arg_bitshift arg_spec) in
        let val := if arg_signed arg_spec then s64 val >>' arg_bitshift arg_spec else val >>' arg_bitshift arg_spec in
        Some (0, s64 val)
      end
    end
  end.

End Fetch.

(** ** Scanning *)
Lemma span_spec p max s l r : span p max s = (l, r) -> s = l ++ r /\ Forall (fun c => p c = true) l.
Proof.
  revert max l r. induction s as [|c s IH]; intros max l r; simpl; [destruct max as [[]|]; by intros [= <- <-]|].
  assert (forall m l r, (let (l, r) := span p m s in (c :: l, r)) = (l, r) -> p c = true ->
    c :: s = l ++ r /\ Forall (fun c => p c = true) l) as Hgo.
  { intros m l' r' H Hc. destruct (span p m s) as [l0 r0] eqn:E. injection H as <- <-.
    apply IH in E as [-> Hl]. split; [done|by constructor]. }
  destruct max as [[|k]|]; [by intros [= <- <-]| |]; (destruct (p c) eqn:Hp; [|by intros [= <- <-]]); intros H; by eapply Hgo.
Qed.

(** The span of [l] when the character behind it, if any, does not qualify. *)
Lemma span_app p max l r : Forall (fun c => p c = true) l -> from_option (fun c => p c = false) True (head r) ->
  from_option (fun k => length l <= k)%nat True max -> span p max (l ++ r) = (l, r).
Proof.
  intros Hl Hr. revert max. induction Hl as [|c l Hc Hl IH]; intros max Hm.
  - destruct r as [|c r]; simpl in *; [destruct max as [[]|]; done|]. rewrite Hr. destruct max as [[]|]; done.
  - cbn [app length span] in *. destruct max as [[|k]|]; simpl in Hm; [lia| |]; rewrite Hc; cbn [fmap option_fmap option_map];
      rewrite IH; simpl; try done; lia.
Qed.

Lemma skip_space_suffix s : exists l, s = l ++ skip_space s.
Proof. unfold skip_space. destruct (span isspace None s) as [l r] eqn:E. apply span_spec in E as [-> _]. by exists l. Qed.

Lemma skip_space_id s : from_option (fun c => isspace c = false) True (head s) -> skip_space s = s.
Proof. intros H. unfold skip_space. by setoid_rewrite (span_app isspace None [] s). Qed.

Lemma scan_dec_shorter s v r : scan_dec s = Some (v, r) -> (length r < length s)%nat.
Proof.
  unfold scan_dec. destruct (skip_space_suffix s) as [l0 E0]. rewrite E0 at 2. generalize (skip_space s). intros t.
  rewrite length_app.
  assert (forall neg t', (length t' <= length t)%nat ->
    (let (l, r) := span isdigit None t' in match l with [] => None | _ => Some (strtol neg l, r) end) = Some (v, r) ->
    (length r < length l0 + length t)%nat) as Hgo.
  { intros neg t' Ht. destruct (span isdigit None t') as [l r'] eqn:E. apply span_spec in E as [-> _].
    destruct l as [|c l]; [done|]. intros [= _ ->]. rewrite length_app in Ht. simpl in Ht. lia. }
  destruct t as [|c t]; [by apply (Hgo false)|]. simpl. repeat bcase; apply Hgo; simpl; lia.
Qed.

(** Only %n yields a count, and it yields the number of characters consumed. *)
Lemma scan_count fmt total s n : (exists l, SCount n ∈ l /\ scan fmt total s = l) -> Z.of_nat (length s) <= total ->
  exists k, (k <= length s)%nat /\ n = total - Z.of_nat k.
Proof.
  intros (l & Hin & <-). revert s Hin. induction fmt as [|d fmt IH]; intros s Hin Hs; simpl in Hin; [by apply elem_of_nil in Hin|].
  assert (forall t, (length t <= length s)%nat -> SCount n ∈ scan fmt total t -> exists k, (k <= length s)%nat /\ n = total - Z.of_nat k) as Hgo.
  { intros t Ht Hin'. destruct (IH t Hin') as (k & ? & ->); [lia|]. exists k. split; [lia|done]. }
  destruct d as [|c|w|m|m c|].
  - destruct (skip_space_suffix s) as [l E]. apply (Hgo (skip_space s)); [|done]. pose proof (f_equal length E) as El. rewrite length_app in El. lia.
  - destruct s as [|c' s]; [by apply elem_of_nil in Hin|]. destruct (c =? c'); [|by apply elem_of_nil in Hin]. apply (Hgo s); [simpl; lia|done].
  - destruct (scan_dec s) as [[v r]|] eqn:E; [|by apply elem_of_nil in Hin]. apply elem_of_cons in Hin as [?|Hin]; [done|].
    apply scan_dec_shorter in E. apply (Hgo r); [lia|done].
  - destruct (skip_space_suffix s) as [l0 E0]. destruct (span _ m (skip_space s)) as [l r] eqn:E. apply span_spec in E as [E _].
    destruct l; [by apply elem_of_nil in Hin|]. apply elem_of_cons in Hin as [?|Hin]; [done|]. apply (Hgo r); [|done].
    rewrite E in E0. pose proof (f_equal length E0) as El. rewrite !length_app in El. lia.
  - destruct (span _ m s) as [l r] eqn:E. apply span_spec in E as [E _].
    destruct l; [by apply elem_of_nil in Hin|]. apply elem_of_cons in Hin as [?|Hin]; [done|]. apply (Hgo r); [|done].
    rewrite E, !length_app. lia.
  - apply elem_of_cons in Hin as [[= ->]|Hin]; [by exists (length s)|by apply (Hgo s)].
Qed.

(** ** Every round of the loop consumes part of the string *)
Lemma scan_arg_count fmt s n l : sscanf s (Blank :: Dec 32 :: fmt) = l -> SCount n ∈ l -> 0 < n <= Z.of_nat (length s).
Proof.
  unfold sscanf. cbn [scan]. destruct (skip_space_suffix s) as [l0 E0].
  destruct (scan_dec (skip_space s)) as [[v r]|] eqn:E; intros <- Hin; [|by apply elem_of_nil in Hin].
  apply elem_of_cons in Hin as [?|Hin]; [done|]. apply scan_dec_shorter in E.
  assert (length r < length s)%nat by (pose proof (f_equal length E0) as El; rewrite length_app in El; lia).
  destruct (scan_count fmt (Z.of_nat (length s)) r n) as (k & Hk & ->); [eauto|lia|]. lia.
Qed.

Lemma arg_register_len reg tail arg sz len arg' sz' : arg_register reg tail arg sz = Some (len, arg', sz') ->
  len < 0 \/ SCount len ∈ tail.
Proof.
  unfold arg_register. destruct (Z.ltb_spec (calc_pt_regs_off reg) 0) as [Hn|Hn]; [intros [= <- _ _]; by left|]. intros H.
  obind_inv H. simplify_eq. destruct tail as [|[] []]; simplify_eq/=. right. apply list_elem_of_here.
Qed.

Lemma scanned_tail l n :
  (forall z1 z2 s t, scanned3 l = Some (z1, z2, s, t) -> SCount n ∈ t -> SCount n ∈ l) /\
  (forall z s t, scanned2 l = Some (z, s, t) -> SCount n ∈ t -> SCount n ∈ l) /\
  (forall z1 z2 t, scanned2i l = Some (z1, z2, t) -> SCount n ∈ t -> SCount n ∈ l).
Proof.
  destruct l as [|[] [|[] [|[] l]]]; repeat split; intros; simplify_eq/=; repeat (eassumption || apply list_elem_of_further).
Qed.

Lemma parse_arg_len s arg len arg' sz : parse_usdt_arg s arg = Some (len, arg', sz) -> len < 0 \/ 0 < len <= Z.of_nat (length s).
Proof.
  unfold parse_usdt_arg.
  destruct (scanned3 (sscanf s fmt_deref)) as [[[[z1 z2] r] t]|] eqn:E1.
  { intros [?|Hin]%arg_register_len; [by left|]. right. eapply scan_arg_count; [done|]. eapply (proj1 (scanned_tail _ _)); eassumption. }
  destruct (scanned2 (sscanf s fmt_deref0)) as [[[z1 r] t]|] eqn:E2.
  { intros [?|Hin]%arg_register_len; [by left|]. right. eapply scan_arg_count; [done|]. eapply (proj1 (proj2 (scanned_tail _ _))); eassumption. }
  destruct (scanned2 (sscanf s fmt_reg)) as [[[z1 r] t]|] eqn:E3.
  { intros [?|Hin]%arg_register_len; [by left|]. right. eapply scan_arg_count; [done|]. eapply (proj1 (proj2 (scanned_tail _ _))); eassumption. }
  destruct (scanned2i (sscanf s fmt_const)) as [[[z1 z2] t]|] eqn:E4; [|intros [= <- _ _]; by left].
  intros H. obind_inv H. simplify_eq. right. eapply scan_arg_count; [done|]. eapply (proj2 (proj2 (scanned_tail _ _))); [eassumption|].
  destruct t as [|[] []]; simplify_eq/=. apply list_elem_of_here.
Qed.

(** The length of the string is enough fuel: more does not change the result. *)
Lemma spec_loop_fuel fuel s spec : (length s <= fuel)%nat -> spec_loop fuel s spec = spec_loop (length s) s spec.
Proof.
  remember (length s) as n eqn:En. assert (length s <= n)%nat as Hn by lia. clear En.
  revert fuel s spec Hn. induction n as [|n IH]; intros fuel s spec Hn Hf; (destruct s as [|c s]; [by destruct fuel|]); simpl in Hn; [lia|].
  destruct fuel as [|fuel]; [lia|]. cbn [spec_loop]. bcase; [done|].
  destruct (zget (args spec) (arg_cnt spec)) as [arg|]; [|done]. cbn [mbind option_bind].
  destruct (parse_usdt_arg (c :: s) arg) as [[[len arg'] sz]|] eqn:E; [|done]. cbn [mbind option_bind].
  destruct (Z.ltb_spec len 0); [done|]. destruct (size_ok _); [|done]. destruct (zset _ _ _); [|done]. cbn [mbind option_bind].
  apply parse_arg_len in E as [?|[??]]; [lia|]. apply IH; rewrite ?length_drop; simpl; lia.
Qed.

(** ** Printing of numbers *)
Fixpoint print_digits (fuel : nat) (z : Z) : list Z :=
  match fuel with
  | O => []
  | S fuel => if z <? 10 then [48 + z] else print_digits fuel (z / 10) ++ [48 + z mod 10]
  end.
Definition print_int (z : Z) : list Z :=
  if z <? 0 then 45 :: print_digits 20 (- z) else print_digits 20 z.

Lemma print_digits_spec fuel z : 0 <= z < 10 ^ Z.of_nat fuel -> (0 < fuel)%nat ->
  digits_value (print_digits fuel z) = z /\ Forall (fun c => isdigit c = true) (print_digits fuel z) /\ print_digits fuel z <> [].
Proof.
  revert z. induction fuel as [|fuel IH]; intros z Hz Hf; [lia|]. cbn [print_digits].
  rewrite Nat2Z.inj_succ, Z.pow_succ_r in Hz by lia. unfold isdigit in *. bcase.
  - split; [|split; [repeat constructor; lia|done]]. unfold digits_value. simpl. lia.
  - assert (0 <= z / 10 < 10 ^ Z.of_nat fuel) as Hd by (Z.div_mod_to_equations; lia).
    assert (0 < fuel)%nat. { destruct fuel; [|lia]. change (10 ^ Z.of_nat 0) with 1 in Hd. Z.div_mod_to_equations; lia. }
    destruct (IH _ Hd) as (Hv & Ha & Hne); [done|]. split; [|split; [apply Forall_app; split; [done|repeat constructor]|]].
    + unfold digits_value in *. rewrite fold_left_app, Hv. simpl. Z.div_mod_to_equations; lia.
    + Z.div_mod_to_equations; lia.
    + by destruct (print_digits fuel (z / 10)).
Qed.

(** A number in the range of [long], read back from its digits. *)
Lemma scan_print_int z r : - 2 ^ 63 <= z < 2 ^ 63 -> from_option (fun c => isdigit c = false) True (head r) ->
  scan_dec (print_int z ++ r) = Some (z, r).
Proof.
  intros Hz Hr. unfold print_int.
  assert (forall v, 0 <= v <= 2 ^ 63 -> forall neg : bool, (if neg then - v else v) = z ->
    (let (l, r) := span isdigit None (print_digits 20 v ++ r) in match l with [] => None | _ => Some (strtol neg l, r) end) = Some (z, r)) as Hgo.
  { intros v Hv neg E. destruct (print_digits_spec 20 v) as (Hd & Ha & Hne); [lia|lia|].
    rewrite span_app by (try done; apply I). unfold strtol. rewrite Hd, E. destruct (print_digits 20 v); [done|].
    do 2 f_equal. lia. }
  unfold scan_dec. destruct (Z.ltb_spec z 0).
  - rewrite skip_space_id by done. cbn [app]. rewrite Z.eqb_refl. apply Hgo; lia.
  - destruct (print_digits_spec 20 z) as (_ & Ha & Hne); [lia|lia|]. specialize (Hgo z ltac:(lia) false eq_refl).
    destruct (print_digits 20 z) as [|c l]; [done|]. inversion Ha as [|?? Hc _]; subst. unfold isdigit in Hc.
    rewrite skip_space_id by (simpl; unfold isspace; lia). cbn [app] in *.
    destruct (Z.eqb_spec c 45); [lia|]. destruct (Z.eqb_spec c 43); [lia|]. done.
Qed.

(** ** Argument specifications and their text *)

(** A location: a constant, a register, or memory at a register with or without an offset. *)
Inductive arg_loc := AConst (z : Z) | AReg (r : list Z) | ADeref (off : Z) (r : list Z) | ADeref0 (r : list Z).

(** An argument has a size in bytes, negative for a signed value. *)
Record usdt_arg := Arg { a_size : Z; a_loc : arg_loc }.

Definition print_loc (l : arg_loc) : list Z :=
  match l with
  | AConst z => 36 :: print_int z
  | AReg r => 37 :: r
  | ADeref off r => print_int off ++ 40 :: 37 :: r ++ [41]
  | ADeref0 r => 40 :: 37 :: r ++ [41]
  end.
Definition print_arg (a : usdt_arg) : list Z := print_int (a_size a) ++ 64 :: print_loc (a_loc a).

(** Arguments are separated by one space. *)
Fixpoint print_args (l : list usdt_arg) : list Z :=
  match l with
  | [] => []
  | [a] => print_arg a
  | a :: l => print_arg a ++ 32 :: print_args l
  end.

(** Names of registers: those of the table except its empty fillers. *)
Definition reg_names : list (list Z) := filter (fun r => r <> []) (map ascii_bytes (mjoin (map fst reg_map))).

Definition loc_ok (l : arg_loc) : Prop :=
  match l with
  | AConst z => - 2 ^ 63 <= z < 2 ^ 63
  | AReg r | ADeref0 r => r ∈ reg_names
  | ADeref off r => - 2 ^ 63 <= off < 2 ^ 63 /\ r ∈ reg_names
  end.
Definition arg_ok (a : usdt_arg) : Prop := size_ok (Z.abs (a_size a)) = true /\ loc_ok (a_loc a).

(** The record of an argument. *)
Definition arg_record (a : usdt_arg) : usdt_arg_spec :=
  let '(ty, off, reg) := match a_loc a with
                         | AConst z => (USDT_ARG_CONST, u64 z, 0)
                         | AReg r => (USDT_ARG_REG, 0, calc_pt_regs_off r)
                         | ADeref off r => (USDT_ARG_REG_DEREF, u64 off, calc_pt_regs_off r)
                         | ADeref0 r => (USDT_ARG_REG_DEREF, 0, calc_pt_regs_off r)
                         end in
  ArgSpec off ty reg (a_size a <? 0) (64 - Z.abs (a_size a) * 8).

Lemma reg_name_facts r : r ∈ reg_names ->
  (0 < length r <= 4)%nat /\ 0 <= calc_pt_regs_off r < 2 ^ 15 /\ Forall (fun c => isspace c = false /\ c <> 41) r.
Proof.
  intros Hr.
  assert (forallb (fun r => (bool_decide (0 < length r <= 4)%nat) && (0 <=? calc_pt_regs_off r) && (calc_pt_regs_off r <? 2 ^ 15) &&
    forallb (fun c => negb (isspace c) && negb (c =? 41)) r) reg_names = true) as H by (vm_compute; reflexivity).
  rewrite forallb_forall in H. apply list_elem_of_In in Hr. specialize (H r Hr). apply andb_prop in H as [H1 H2].
  rewrite forallb_forall in H2. split; [|split].
  - apply andb_prop in H1 as [[H1 _]%andb_prop _]. by apply bool_decide_eq_true in H1.
  - lia.
  - apply Forall_forall. intros c Hc. apply list_elem_of_In, H2 in Hc. destruct (isspace c); [done|]. split; [done|lia].
Qed.

Lemma size_range a : arg_ok a -> - 8 <= a_size a <= 8 /\ a_size a <> 0.
Proof. intros [H _]. unfold size_ok in H. lia. Qed.

Lemma print_int_head z r : - 2 ^ 63 <= z < 2 ^ 63 -> exists c l, print_int z ++ r = c :: l /\ isspace c = false.
Proof.
  intros Hz. unfold print_int. bcase; [by eexists _, _|].
  destruct (print_digits_spec 20 z) as (_ & Ha & Hne); [lia|lia|]. destruct (print_digits 20 z) as [|c l]; [done|].
  inversion Ha as [|?? Hc _]; subst. exists c, (l ++ r). split; [done|]. unfold isdigit, isspace in *. lia.
Qed.

Lemma print_args_head a l : arg_ok a -> exists c r, print_args (a :: l) = c :: r /\ isspace c = false.
Proof.
  intros Ha%size_range. destruct l; cbn [print_args]; unfold print_arg; [|rewrite <- app_assoc]; apply print_int_head; lia.
Qed.

Lemma skip_print_int z r : - 2 ^ 63 <= z < 2 ^ 63 -> skip_space (print_int z ++ r) = print_int z ++ r.
Proof. intros Hz. destruct (print_int_head z r Hz) as (c & l & -> & Hc). by apply skip_space_id. Qed.

(** The part common to the formats: the size and the at sign. *)
Lemma scan_size fmt total sz t : - 8 <= sz <= 8 -> skip_space t = t ->
  scan (Blank :: Dec 32 :: Blank :: Lit 64 :: Blank :: fmt) total (print_int sz ++ 64 :: t) = SInt sz :: scan fmt total t.
Proof.
  intros Hs Ht. cbn [app scan]. rewrite skip_print_int by lia. rewrite scan_print_int by (done || lia). cbn [scan].
  rewrite (skip_space_id (64 :: t)) by done. rewrite Z.eqb_refl, Ht, swrap_small by lia. done.
Qed.

#[local] Arguments calc_pt_regs_off : simpl never.

Lemma reg_no_space r : r ∈ reg_names -> exists c l, r = c :: l /\ isspace c = false.
Proof.
  intros (Hl & _ & Hf)%reg_name_facts. destruct r as [|c l]; simpl in Hl; [lia|]. inversion Hf as [|?? [? _] _]; subst. eauto.
Qed.

Lemma scan_paren total r rest : r ∈ reg_names ->
  scan [Lit 40; Blank; Lit 37; Until (Some 15%nat) 41; Blank; Lit 41; Blank; Count] total (40 :: 37 :: r ++ 41 :: rest) =
  [SStr r; SCount (total - Z.of_nat (length (skip_space rest)))].
Proof.
  intros Hr. pose proof (reg_name_facts r Hr) as (Hl & _ & Hf). cbn [scan]. rewrite Z.eqb_refl.
  rewrite (skip_space_id (37 :: _)) by done. rewrite Z.eqb_refl. rewrite span_app; [|eapply Forall_impl; [done|]; cbv beta; lia|done|simpl; lia].
  destruct r as [|c r]; [simpl in Hl; lia|]. by rewrite (skip_space_id (41 :: rest)) by done.
Qed.

Lemma scan_dec_other c t : isspace c = false -> isdigit c = false -> c <> 45 -> c <> 43 -> scan_dec (c :: t) = None.
Proof.
  intros Hs Hd H1 H2. unfold scan_dec. rewrite skip_space_id by done. destruct (Z.eqb_spec c 45); [done|]. destruct (Z.eqb_spec c 43); [done|].
  simpl. by rewrite Hd.
Qed.

Lemma scan_dec_blank w fmt total s v r : scan_dec s = Some (v, r) -> skip_space r = r ->
  scan (Dec w :: Blank :: fmt) total s = SInt (swrap w v) :: scan fmt total r.
Proof. intros H Hr. cbn [scan]. by rewrite H, Hr. Qed.

Lemma scan_dec_fail w fmt total s : scan_dec s = None -> scan (Dec w :: fmt) total s = [].
Proof. intros H. cbn [scan]. by rewrite H. Qed.

(** What separates an argument from the rest of the string. *)
Definition arg_end (rest : list Z) : Prop := from_option (fun c => c = 32) True (head rest).

(** The number of characters an argument takes, with the space behind it. *)
Definition arg_len (a : usdt_arg) (rest : list Z) : Z := Z.of_nat (length (print_arg a ++ rest)) - Z.of_nat (length (skip_space rest)).

(** An argument is read back from its text, whatever follows it. *)
Lemma parse_print_arg a rest arg : arg_ok a -> arg_end rest -> exists arg',
  parse_usdt_arg (print_arg a ++ rest) arg = Some (arg_len a rest, arg', a_size a) /\
  arg_type arg' = arg_type (arg_record a) /\ val_off arg' = val_off (arg_record a) /\ reg_off arg' = reg_off (arg_record a).
Proof.
  intros Ha He. unfold arg_end in He. pose proof (size_range a Ha) as [Hs _]. destruct Ha as [_ Hl]. unfold parse_usdt_arg, arg_len, print_arg. rewrite <- app_assoc.
  unfold sscanf. generalize (Z.of_nat (length (print_int (a_size a) ++ (64 :: print_loc (a_loc a)) ++ rest))). intros total.
  unfold fmt_deref, fmt_deref0, fmt_reg, fmt_const.
  unfold arg_record. cbn [app]. destruct (a_loc a) as [z|r|off r|r]; simpl in Hl; cbn [print_loc app].
  - assert (skip_space (36 :: print_int z ++ rest) = 36 :: print_int z ++ rest) as Ht by by apply skip_space_id.
    rewrite !scan_size by done. cbn [scan].
    rewrite scan_dec_other by done. cbn [scanned3 scanned2 scanned2i Z.eqb Pos.eqb].
    rewrite scan_print_int; [|done|destruct rest; simpl in *; [done|by subst]]. cbn [scanned2i scan scanned_len mbind option_bind].
    rewrite swrap_small by lia. eexists. split; [done|]. simpl. done.
  - destruct (reg_no_space r Hl) as (c & l & E & Hc). pose proof (reg_name_facts r Hl) as (Hn & Ho & Hf).
    assert (skip_space (37 :: r ++ rest) = 37 :: r ++ rest) as Ht by by apply skip_space_id.
    rewrite !scan_size by done. cbn [scan]. rewrite scan_dec_other by done. cbn [scanned3 scanned2 Z.eqb Pos.eqb].
    rewrite (skip_space_id (r ++ rest)) by by subst r.
    rewrite span_app; [|eapply Forall_impl; [done|]; cbv beta; intros ? [-> _]; done|destruct rest; simpl in *; [done|by subst]|simpl; lia].
    subst r. cbn [scanned2 scan arg_register]. unfold arg_register. destruct (Z.ltb_spec (calc_pt_regs_off (c :: l)) 0); [lia|].
    eexists. split; [done|]. simpl. rewrite !swrap_small by lia. done.
  - pose proof (reg_name_facts r (proj2 Hl)) as (Hn & Ho & Hf). destruct Hl as [Hz Hl].
    rewrite <- !app_assoc. cbn [app]. rewrite <- app_assoc. cbn [app].
    rewrite scan_size by (done || apply skip_print_int; lia).
    rewrite (scan_dec_blank _ _ _ _ off (40 :: 37 :: r ++ 41 :: rest)) by (done || by apply scan_print_int).
    rewrite scan_paren by done. cbn [scanned3]. unfold arg_register.
    destruct (Z.ltb_spec (calc_pt_regs_off r) 0); [lia|]. eexists. split; [done|]. simpl.
    rewrite !swrap_small by lia. done.
  - pose proof (reg_name_facts r Hl) as (Hn & Ho & Hf). rewrite <- app_assoc. cbn [app].
    assert (skip_space (40 :: 37 :: r ++ 41 :: rest) = 40 :: 37 :: r ++ 41 :: rest) as Ht by by apply skip_space_id.
    rewrite !scan_size by done. rewrite scan_dec_fail by by apply scan_dec_other. cbn [scanned3].
    rewrite scan_paren by done. cbn [scanned2]. unfold arg_register.
    destruct (Z.ltb_spec (calc_pt_regs_off r) 0); [lia|]. eexists. split; [done|]. simpl.
    rewrite !swrap_small by lia. done.
Qed.

(** The text behind the first argument. *)
Definition args_rest (l : list usdt_arg) : list Z := match l with [] => [] | _ => 32 :: print_args l end.

Lemma print_args_cons a l : print_args (a :: l) = print_arg a ++ args_rest l.
Proof. destruct l; [|done]. cbn [print_args args_rest]. by rewrite app_nil_r. Qed.

Lemma skip_args_rest l : Forall arg_ok l -> skip_space (args_rest l) = print_args l.
Proof.
  intros Hl. destruct l as [|a l]; [done|]. inversion Hl as [|?? Ha _]; subst. cbn [args_rest].
  destruct (print_args_head a l Ha) as (c & r & -> & Hc). unfold skip_space.
  change (32 :: c :: r) with ([32] ++ c :: r). by rewrite span_app by (try done; repeat constructor).
Qed.

Lemma drop_arg a l : Forall arg_ok l -> drop (Z.to_nat (arg_len a (args_rest l))) (print_arg a ++ args_rest l) = print_args l /\
  0 <= arg_len a (args_rest l).
Proof.
  intros Hl. unfold arg_len. pose proof (skip_args_rest l Hl) as Hs. destruct (skip_space_suffix (args_rest l)) as [p Hp]. rewrite Hs in *.
  rewrite Hp, app_assoc, !length_app. split; [|lia].
  replace (Z.to_nat _) with (length (print_arg a ++ p)) by (rewrite length_app; lia). apply drop_app_length.
Qed.

(** The spec that has the records of [l]. *)
Definition spec_of (l : list usdt_arg) (cookie : Z) : usdt_spec :=
  Spec (map arg_record l ++ replicate (12 - length l) zero_arg) cookie (Z.of_nat (length l)).

Lemma spec_of_next l a cookie : (length l < 12)%nat ->
  zget (args (spec_of l cookie)) (Z.of_nat (length l)) = Some zero_arg /\
  zset (args (spec_of l cookie)) (Z.of_nat (length l)) (arg_record a) = Some (args (spec_of (l ++ [a]) cookie)).
Proof.
  intros Hl. cbn [args spec_of]. destruct (12 - length l)%nat as [|k] eqn:Ek; [lia|]. cbn [replicate].
  replace (Z.of_nat (length l)) with (Z.of_nat (length (map arg_record l)) + 0) by (rewrite length_map; lia). split.
  - by rewrite zget_app_r.
  - apply zset_Some. rewrite length_app. cbn [length]. split; [lia|].
    rewrite length_app. cbn [length]. replace (12 - (length l + 1))%nat with k by lia.
    rewrite map_app, <- app_assoc. rewrite insert_app_r_alt by lia. cbn [map app]. f_equal.
    replace (Z.to_nat _ - _)%nat with 0%nat by lia. done.
Qed.

Lemma set_size_record a arg' : arg_ok a -> arg_type arg' = arg_type (arg_record a) -> val_off arg' = val_off (arg_record a) ->
  reg_off arg' = reg_off (arg_record a) -> set_size (a_size a <? 0) (64 - Z.abs (a_size a) * 8) arg' = arg_record a.
Proof.
  intros Hs%size_range E1 E2 E3. unfold set_size. rewrite E1, E2, E3. rewrite swrap_small by lia.
  unfold arg_record. by destruct (a_loc a).
Qed.

Lemma spec_loop_print l : forall fuel done cookie, Forall arg_ok l -> (length (print_args l) <= fuel)%nat -> (length done <= 12)%nat ->
  if decide (length done + length l <= 12)%nat
  then spec_loop fuel (print_args l) (spec_of done cookie) = Some (0, spec_of (done ++ l) cookie)
  else exists spec, spec_loop fuel (print_args l) (spec_of done cookie) = Some (- E2BIG, spec).
Proof.
  induction l as [|a l IH]; intros fuel done cookie Hl Hf Hd.
  { rewrite decide_True by (simpl; lia). rewrite app_nil_r. by destruct fuel. }
  inversion Hl as [|?? Ha Hl']; subst. destruct (print_args_head a l Ha) as (c & r & E & _).
  destruct fuel as [|fuel]; [rewrite E in Hf; simpl in Hf; lia|]. cbn [spec_loop]. rewrite E.
  change (arg_cnt (spec_of done cookie)) with (Z.of_nat (length done)). unfold USDT_MAX_ARG_CNT.
  rewrite Z.geb_leb. destruct (Z.leb_spec 12 (Z.of_nat (length done))).
  { rewrite decide_False by (simpl; lia). eauto. }
  destruct (spec_of_next done a cookie) as [-> Hset]; [lia|]. cbn [mbind option_bind].
  rewrite print_args_cons in E. rewrite <- E.
  destruct (parse_print_arg a (args_rest l) zero_arg Ha) as (arg' & Hp & E1 & E2 & E3); [by destruct l|]. rewrite Hp. cbn [mbind option_bind].
  destruct (drop_arg a l Hl') as [Hdrop Hpos]. destruct (Z.ltb_spec (arg_len a (args_rest l)) 0); [lia|].
  pose proof (size_range a Ha) as Hr. destruct (proj1 Ha).
  assert ((if a_size a <? 0 then s32 (- a_size a) else a_size a) = Z.abs (a_size a)) as -> by (bcase; [rewrite swrap_small|]; lia).
  rewrite (proj1 Ha). rewrite set_size_record, Hset by done. cbn [mbind option_bind].
  rewrite Hdrop, swrap_small by lia.
  replace (Spec _ _ _) with (spec_of (done ++ [a]) cookie) by (unfold spec_of; f_equal; rewrite length_app; simpl; lia).
  assert (length (print_args l) <= fuel)%nat.
  { rewrite <- Hdrop, length_drop, <- print_args_cons. rewrite print_args_cons in *. apply parse_arg_len in Hp. lia. }
  specialize (IH fuel (done ++ [a]) cookie Hl' ltac:(done) ltac:(rewrite length_app; simpl; lia)).
  rewrite <- app_assoc in IH. rewrite length_app in IH. cbn [length app] in *.
  replace (length done + 1 + length l)%nat with (length done + S (length l))%nat in IH by lia. apply IH.
Qed.

(** ** What a fetched argument is *)

(** The 64 bits at a location. *)
Definition loc_value (ctx : probe_ctx) (l : arg_loc) : Z + Z :=
  match l with
  | AConst z => inr z
  | AReg r => read_kernel ctx (calc_pt_regs_off r)
  | ADeref off r => match read_kernel ctx (calc_pt_regs_off r) with inl err => inl err | inr v => read_user ctx (u64 (v + off)) end
  | ADeref0 r => match read_kernel ctx (calc_pt_regs_off r) with inl err => inl err | inr v => read_user ctx (u64 v) end
  end.

(** The low [size] bytes of it as a signed or an unsigned number, in a [long]. *)
Definition arg_value (ctx : probe_ctx) (a : usdt_arg) : Z * Z :=
  match loc_value ctx (a_loc a) with
  | inl err => (err, 0)
  | inr v => (0, if a_size a <? 0 then swrap (8 * - a_size a) v else s64 (wrap (8 * a_size a) v))
  end.

(** Shifting up and down keeps the low bits, with or without the sign. *)
Lemma shift_unsigned v n : 0 < n <= 64 -> u64 (v <<' (64 - n)) >>' (64 - n) = wrap n v.
Proof.
  intros Hn. rewrite Z.shiftl_mul_pow2, Z.shiftr_div_pow2 by lia. unfold wrap.
  replace 64 with (n + (64 - n)) at 2 by lia. rewrite Z.pow_add_r by lia.
  rewrite Z.mul_mod_distr_r, Z.div_mul by (apply Z.pow_nonzero; lia). done.
Qed.

Lemma s64_u64 v : s64 (u64 v) = s64 v.
Proof. unfold swrap, wrap. by rewrite Zplus_mod_idemp_l. Qed.

Lemma shift_signed v n : 0 < n <= 64 -> s64 (u64 (v <<' (64 - n))) >>' (64 - n) = swrap n v.
Proof.
  intros Hn. rewrite s64_u64, Z.shiftl_mul_pow2, Z.shiftr_div_pow2 by lia. unfold swrap.
  replace (2 ^ (64 - 1)) with (2 ^ (n - 1) * 2 ^ (64 - n)) by (rewrite <- Z.pow_add_r by lia; f_equal; lia).
  replace (2 ^ 64) with (2 ^ n * 2 ^ (64 - n)) by (rewrite <- Z.pow_add_r by lia; f_equal; lia).
  rewrite <- Z.mul_add_distr_r, Z.mul_mod_distr_r by (apply Z.pow_nonzero; lia).
  rewrite <- Z.mul_sub_distr_r, Z.div_mul by (apply Z.pow_nonzero; lia). done.
Qed.

Lemma swrap_swrap w v : 0 < w <= 64 -> s64 (swrap w v) = swrap w v.
Proof.
  intros Hw. pose proof (swrap_range w v ltac:(lia)). assert (2 ^ (w - 1) <= 2 ^ 63) by (apply Z.pow_le_mono_r; lia).
  apply swrap_small; lia.
Qed.

Lemma u64_shiftl v n : 0 <= n -> u64 (u64 v <<' n) = u64 (v <<' n).
Proof. intros Hn. rewrite !Z.shiftl_mul_pow2 by done. apply Zmult_mod_idemp_l. Qed.

(** A record made from an argument fetches the value of that argument. *)
Lemma fetch_record ctx a : arg_ok a ->
  match fetch_raw ctx (arg_record a) with
  | inl err => (err, 0)
  | inr val =>
    let val := u64 (val <<' arg_bitshift (arg_record a)) in
    (0, s64 (if arg_signed (arg_record a) then s64 val >>' arg_bitshift (arg_record a) else val >>' arg_bitshift (arg_record a)))
  end = arg_value ctx a.
Proof.
  intros Ha%size_range.
  assert (forall v, s64 (if a_size a <? 0 then s64 (u64 (v <<' (64 - Z.abs (a_size a) * 8))) >>' (64 - Z.abs (a_size a) * 8)
                         else u64 (v <<' (64 - Z.abs (a_size a) * 8)) >>' (64 - Z.abs (a_size a) * 8)) =
    if a_size a <? 0 then swrap (8 * - a_size a) v else s64 (wrap (8 * a_size a) v)) as Hv.
  { intros v. bcase.
    - rewrite shift_signed, swrap_swrap by lia. f_equal. lia.
    - rewrite shift_unsigned by lia. do 2 f_equal. lia. }
  unfold arg_value, loc_value, fetch_raw, arg_record.
  destruct (a_loc a) as [z|r|off r|r]; cbn [arg_type val_off reg_off arg_bitshift arg_signed].
  - cbv zeta. by rewrite u64_shiftl, Hv by lia.
  - destruct (read_kernel ctx _); [done|]. cbv zeta. by rewrite Hv.
  - destruct (read_kernel ctx _) as [|v]; [done|]. rewrite wrap_add_r. destruct (read_user ctx _); [done|]. cbv zeta. by rewrite Hv.
  - destruct (read_kernel ctx _) as [|v]; [done|]. rewrite Z.add_0_r. destruct (read_user ctx _); [done|]. cbv zeta. by rewrite Hv.
Qed.

Lemma spec_of_arg l cookie i a : (length l <= 12)%nat -> zget l i = Some a -> arg_of (spec_of l cookie) i = Some (inr (arg_record a)).
Proof.
  intros Hl Hi. pose proof (zget_lt _ _ _ Hi) as Hb. unfold arg_of, USDT_MAX_ARG_CNT. cbn [arg_cnt args spec_of].
  rewrite wrap_small by lia. rewrite !Z.geb_leb. destruct (Z.leb_spec 12 i); [lia|]. destruct (Z.leb_spec (Z.of_nat (length l)) i); [lia|].
  rewrite zget_app_l by (rewrite length_map; lia). rewrite zget_map, Hi. done.
Qed.

(** C11. For every list of arguments whose sizes, registers and offsets are those USDT allows, parsing their text
    succeeds exactly if there are at most 12, and a BPF program whose probe is bound to the parsed spec then
    sees the number of arguments, the cookie, the size of each argument and, through [bpf_usdt_arg], the value
    at its location: the low bytes of the constant, register or memory word, with or without sign. *)
Theorem usdt_args_fetched l cookie : Forall arg_ok l ->
  if decide (length l <= 12)%nat then
    exists spec, parse_usdt_spec zero_spec (print_args l) cookie = Some (0, spec) /\
    forall has_cookie specs ips ctx, ctx_spec has_cookie specs ips ctx = Some spec ->
      bpf_usdt_arg_cnt has_cookie specs ips ctx = Z.of_nat (length l) /\
      bpf_usdt_cookie has_cookie specs ips ctx = s64 cookie /\
      forall i, 0 <= i -> match zget l i with
        | Some a => bpf_usdt_arg has_cookie specs ips ctx i = Some (arg_value ctx a) /\
                    bpf_usdt_arg_size has_cookie specs ips ctx i = Some (Z.abs (a_size a))
        | None => bpf_usdt_arg has_cookie specs ips ctx i = Some (- ENOENT, 0)
        end
  else exists spec, parse_usdt_spec zero_spec (print_args l) cookie = Some (- E2BIG, spec).
Proof.
  intros Hl. unfold parse_usdt_spec. pose proof (spec_loop_print l (length (print_args l)) [] cookie Hl ltac:(lia) ltac:(simpl; lia)) as H.
  cbn [length Nat.add] in H. change (Spec (args zero_spec) cookie 0) with (spec_of [] cookie). case_decide; [|done].
  exists (spec_of l cookie). split; [done|]. intros has specs ips ctx Hs.
  unfold bpf_usdt_arg_cnt, bpf_usdt_cookie, bpf_usdt_arg, bpf_usdt_arg_size. rewrite Hs. split; [done|]. split; [done|]. intros i Hi.
  destruct (zget l i) as [a|] eqn:E.
  - rewrite (spec_of_arg l cookie i a) by done. cbn [mbind option_bind].
    assert (arg_ok a) as Ha by (eapply Forall_forall; [done|]; by eapply zget_elem). rewrite <- (fetch_record ctx a Ha).
    split; [by destruct (fetch_raw ctx (arg_record a))|]. apply size_range in Ha.
    replace (arg_bitshift (arg_record a)) with (64 - Z.abs (a_size a) * 8) by (unfold arg_record; by destruct (a_loc a)).
    replace (64 - (64 - _)) with (Z.abs (a_size a) * 8) by lia. rewrite wrap_small, Z.div_mul, swrap_small by lia. done.
  - unfold arg_of, USDT_MAX_ARG_CNT. cbn [arg_cnt spec_of]. rewrite wrap_small by lia. rewrite !Z.geb_leb.
    destruct (Z.leb_spec 12 i); [done|]. destruct (Z.leb_spec (Z.of_nat (length l)) i); [done|].
    destruct (zget_is_Some l i) as [a Ha]; [lia|]. congruence.
Qed.

(** ** Notes *)
Lemma strncmp_lit_ok n data off lit : 0 <= off -> off + Z.of_nat n <= Z.of_nat (length data) -> exists b, strncmp_lit n data off lit = Some b.
Proof.
  revert off lit. induction n as [|n IH]; intros off lit Ho He; [eauto|]. cbn [strncmp_lit].
  destruct (zget_is_Some data off) as [c ->]; [lia|]. cbn [mbind option_bind]. destruct lit as [|l lit]; [eauto|]. bcase; [apply IH; lia|eauto].
Qed.

Lemma memchr0_spec n data off : 0 <= off -> off + Z.of_nat n <= Z.of_nat (length data) -> exists r, memchr0 n data off = Some r /\
  match r with Some p => off <= p < off + Z.of_nat n /\ zget data p = Some 0 | None => True end.
Proof.
  revert off. induction n as [|n IH]; intros off Ho He; [by exists None|]. cbn [memchr0].
  destruct (zget_is_Some data off) as [c Hc]; [lia|]. rewrite Hc. cbn [mbind option_bind]. destruct (Z.eqb_spec c 0) as [->|].
  - exists (Some off). split; [done|]. split; [lia|done].
  - destruct (IH (off + 1)) as (r & -> & Hr); [lia..|]. exists r. split; [done|]. destruct r; [|done]. split; [lia|apply Hr].
Qed.

(** libelf only returns notes that lie inside the data of their section. *)
Definition note_inside (data : list Z) (nh : nhdr) (name_off desc_off : Z) : Prop :=
  0 <= name_off /\ 0 <= n_namesz nh /\ name_off + n_namesz nh <= Z.of_nat (length data) /\
  0 <= desc_off /\ 0 <= n_descsz nh /\ desc_off + n_descsz nh <= Z.of_nat (length data).

(** The provider and the name are terminated inside the description, the text of the arguments begins
    there. *)
Definition note_strings (data : list Z) (nh : nhdr) (desc_off : Z) (n : usdt_note) : Prop :=
  exists e1 e2, provider n = desc_off + 24 /\ provider n <= e1 /\ zget data e1 = Some 0 /\ name n = e1 + 1 /\ name n < e2 /\
    zget data e2 = Some 0 /\ e2 + 1 < desc_off + n_descsz nh /\ (note_args n = lit_empty \/ note_args n = e2 + 1).

(** Parsing a note stays inside the description. *)
Lemma parse_note_safe nh data name_off desc_off : bytes_ok data -> note_inside data nh name_off desc_off ->
  exists r, parse_usdt_note nh data name_off desc_off = Some r /\
  match r with inl err => err = - EINVAL | inr n => note_strings data nh desc_off n end.
Proof.
  intros Hb (Hn1 & Hn2 & Hn3 & Hd1 & Hd2 & Hd3). unfold parse_usdt_note.
  destruct (strncmp_lit_ok (Z.to_nat (n_namesz nh)) data name_off USDT_NOTE_NAME) as [same ->]; [lia..|]. cbn [mbind option_bind].
  destruct same; [|by eexists]. cbn [negb]. destruct (n_type nh =? USDT_NOTE_TYPE); [|by eexists]. cbn [negb].
  destruct (Z.ltb_spec (n_descsz nh) (24 + 3)); [by eexists|].
  destruct (get_le_ok 8 data desc_off Hb) as (v1 & -> & _); [lia..|]. destruct (get_le_ok 8 data (desc_off + 8) Hb) as (v2 & -> & _); [lia..|].
  destruct (get_le_ok 8 data (desc_off + 16) Hb) as (v3 & -> & _); [lia..|]. cbn [mbind option_bind].
  destruct (memchr0_spec (Z.to_nat (desc_off + n_descsz nh - (desc_off + 24))) data (desc_off + 24)) as ([e1|] & -> & H1); [lia|lia| |by eexists].
  cbn [mbind option_bind]. rewrite Z.geb_leb. destruct (Z.leb_spec (desc_off + n_descsz nh) (e1 + 1)); [by eexists|].
  destruct (zget_is_Some data (e1 + 1)) as [c Hc]; [lia|]. rewrite Hc. cbn [mbind option_bind]. destruct (Z.eqb_spec c 0); [by eexists|].
  destruct (memchr0_spec (Z.to_nat (desc_off + n_descsz nh - (e1 + 1))) data (e1 + 1)) as ([e2|] & -> & H2); [lia|lia| |by eexists].
  cbn [mbind option_bind]. rewrite Z.geb_leb. destruct (Z.leb_spec (desc_off + n_descsz nh) (e2 + 1)); [by eexists|].
  destruct (zget_is_Some data (e2 + 1)) as [c' Hc']; [lia|]. rewrite Hc'. cbn [mbind option_bind].
  eexists. split; [done|]. cbv beta iota. exists e1, e2. cbn [provider name note_args].
  assert (e2 <> e1 + 1) by (intros ->; destruct H2 as [_ H2]; congruence). split_and!; try done; try lia; [apply H1|apply H2|]. destruct (_ || _); auto.
Qed.

Lemma note_str_ok data p e : 0 <= p <= e -> zget data e = Some 0 -> note_str data p = Some (str_at data p).
Proof.
  intros Hp He. pose proof (zget_lt _ _ _ He). unfold note_str. destruct (Z.eqb_spec p lit_empty) as [E|]; [unfold lit_empty in E; lia|].
  rewrite bool_decide_true; [done|]. split; [lia|]. apply zget_Some in He as [_ He]. apply list_elem_of_lookup.
  exists (Z.to_nat e - Z.to_nat p)%nat. rewrite lookup_drop. rewrite <- He. f_equal. lia.
Qed.

(** A note whose text of arguments has no terminator is accepted, and reading that text runs past the
    data of the section. *)
Definition open_note : list Z := ascii_bytes "stapsdt" ++ [0] ++ replicate 24 0 ++ ascii_bytes "p" ++ [0] ++ ascii_bytes "n" ++ [0] ++ ascii_bytes "8@%rax".
Theorem unterminated_args_accepted : exists n, note_inside open_note (Nhdr 8 34 3) 0 8 /\
  parse_usdt_note (Nhdr 8 34 3) open_note 0 8 = Some (inr n) /\ note_str open_note (note_args n) = None.
Proof. eexists. split; [unfold note_inside; cbn; lia|]. split; vm_compute; reflexivity. Qed.

(** A memory operand without its closing parenthesis makes the parser return a length it never set. *)
Theorem open_paren_unset_length : parse_usdt_arg (ascii_bytes "8@-16(%rbp") zero_arg = None /\
  parse_usdt_arg (ascii_bytes "8@(%rbp") zero_arg = None.
Proof. split; vm_compute; reflexivity. Qed.

(** ** A concrete use *)
Definition demo_ctx : probe_ctx :=
  Ctx 0 4096 (fun off => if off =? 32 then inr 1000 else if off =? 80 then inr (2 ^ 32 + 200) else inl (- 14)) (fun a => if a =? 980 then inr 255 else inl (- 14)).
Definition demo_args : list usdt_arg := [Arg (-1) (ADeref (-20) (ascii_bytes "rbp")); Arg 1 (AReg (ascii_bytes "al")); Arg 4 (AConst 71)].

Lemma usdt_args_fetched_witness : Forall arg_ok demo_args /\
  print_args demo_args = ascii_bytes "-1@-20(%rbp) 1@%al 4@$71" /\
  exists spec, parse_usdt_spec zero_spec (print_args demo_args) 5 = Some (0, spec) /\
  bpf_usdt_arg true (fun id => if id =? 0 then Some spec else None) (fun _ => None) demo_ctx 0 = Some (0, -1) /\
  bpf_usdt_arg true (fun id => if id =? 0 then Some spec else None) (fun _ => None) demo_ctx 1 = Some (0, 200).
Proof.
  assert (Forall arg_ok demo_args) as Hok.
  { repeat constructor; try (cbn; lia); apply list_elem_of_In; vm_compute; tauto. }
  split; [done|]. split; [vm_compute; reflexivity|].
  pose proof (usdt_args_fetched demo_args 5 Hok) as H. rewrite decide_True in H by (simpl; lia). destruct H as (spec & Hp & H).
  exists spec. split; [done|]. destruct (H true (fun id => if id =? 0 then Some spec else None) (fun _ => None) demo_ctx eq_refl) as (_ & _ & Ha).
  split; [pose proof (Ha 0 ltac:(lia)) as [-> _]|pose proof (Ha 1 ltac:(lia)) as [-> _]]; vm_compute; reflexivity.
Defined.
