(* ===== verification/UsdtTargets.v ===== *)
(** * USDT targets of a binary

    The discovery of attachment points in src/libbpf/src/usdt.c: [collect_usdt_targets] goes
    through the notes of a binary and makes a [usdt_target] of each note of the wanted probe,
    with the file offset, the absolute address and the semaphore the kernel needs.

    What libelf returns for the binary is the record [elf]; the text of /proc/<pid>/maps is the
    list of entries [fscanf] reads from it.  Addresses are [long]s.  An oracle gives the
    outcomes of the allocations; [None] is an access outside the data of the note section or a
    read of an unset variable. *)
From Stdlib Require Import ZArith Lia String.
From stdpp Require Import base numbers list gmap sorting.
From S2P Require Import Prelude Btf Hashmap Strset UsdtArgs.

Definition EBADF := 9.
Definition SHT_NOTE := 7.
Definition PT_LOAD := 1.
Definition PF_X := 1.
Definition ET_EXEC := 2.
Definition ET_DYN := 3.
Definition ELFCLASS64 := 2.
Definition ELFDATA2LSB := 1.
Definition PATH_MAX := 4096.

(** ** What libelf returns *)
Record shdr := Shdr { sh_type : Z; sh_addr : Z }.
Record phdr := Phdr { p_type : Z; p_vaddr : Z; p_memsz : Z; p_offset : Z; p_flags : Z }.

(** A section: its header and its name ([None] where libelf fails), its data, and the notes
    [gelf_getnote] finds in it, with the offsets of name and description. *)
Record elf_sec := Sec { sec_shdr : option shdr; sec_name : option (list Z); sec_data : list Z; sec_notes : list (nhdr * Z * Z) }.

(** [e_type] and [e_ident\[EI_DATA\]] of the header; a failing [elf_getphdrnum] or [gelf_getphdr]
    leaves its error in [errno]. *)
Record elf := Elf {
  elf_is_elf : bool;
  elf_class : Z;
  elf_ehdr : option (Z * Z);
  shstrndx_ok : bool;
  shstr_raw_ok : bool;
  elf_secs : list elf_sec;
  elf_phdrs : Z + list (Z + phdr)
}.

(** A 64-bit little-endian host. *)
Definition sanity_check_usdt_elf (e : elf) : Z :=
  if negb (elf_is_elf e) then - EBADF
  else if negb (elf_class e =? ELFCLASS64) then - EBADF
  else match elf_ehdr e with
       | None => - EINVAL
       | Some (e_type, data) =>
         if negb (e_type =? ET_EXEC) && negb (e_type =? ET_DYN) then - EBADF
         else if negb (data =? ELFDATA2LSB) then - EBADF
         else 0
       end.

Fixpoint find_sec (secs : list elf_sec) (name : list Z) : Z + (shdr * elf_sec) :=
  match secs with
  | [] => inl (- ENOENT)
  | sec :: secs =>
    match sec_shdr sec with
    | None => inl (- EINVAL)
    | Some sh => if bool_decide (sec_name sec = Some name) then inr (sh, sec) else find_sec secs name
    end
  end.
Definition find_elf_sec_by_name (e : elf) (name : list Z) : Z + (shdr * elf_sec) :=
  if negb (shstrndx_ok e) then inl (- EINVAL)
  else if negb (shstr_raw_ok e) then inl (- EINVAL)
  else find_sec (elf_secs e) name.

(** ** Segments *)
Record elf_seg := Seg { seg_start : Z; seg_end : Z; seg_offset : Z; is_exec : bool }.

Definition seg_le (a b : elf_seg) : Prop := seg_start a <= seg_start b.
#[export] Instance seg_le_dec a b : Decision (seg_le a b).
Proof. unfold seg_le. apply _. Defined.
#[export] Instance seg_le_total : Total seg_le.
Proof. intros a b. unfold seg_le. lia. Qed.

Fixpoint load_segs (al : Z -> bool) (i : Z) (phdrs : list (Z + phdr)) (segs : list elf_seg) : Z + list elf_seg :=
  match phdrs with
  | [] => inr segs
  | inl errno :: _ => inl (- errno)
  | inr ph :: phdrs =>
    if negb (p_type ph =? PT_LOAD) then load_segs al (i + 1) phdrs segs
    else if negb (al i) then inl (- ENOMEM)
    else load_segs al (i + 1) phdrs
           (segs ++ [Seg (s64 (p_vaddr ph)) (s64 (p_vaddr ph + p_memsz ph)) (s64 (p_offset ph)) (negb (p_flags ph &' PF_X =? 0))])
  end.

Definition parse_elf_segs (al : Z -> bool) (e : elf) : Z + list elf_seg :=
  match elf_phdrs e with
  | inl errno => inl (- errno)
  | inr phdrs =>
    match load_segs al 0 phdrs [] with
    | inl err => inl err
    | inr [] => inl (- ESRCH)
    | inr segs => inr (merge_sort seg_le segs)
    end
  end.

(** An entry of /proc/<pid>/maps: addresses, mode, offset and the text behind the inode. *)
Record maps_entry := Maps { m_start : Z; m_end : Z; m_mode : list Z; m_off : Z; m_line : list Z }.

(** What [parse_vma_segs] asks of the system: [realpath] and the maps file (or an [errno]). *)
Record proc_view := Proc { realpath : list Z -> option (list Z); maps : Z -> Z + list maps_entry }.

Definition isblank (c : Z) : bool := (c =? 32) || (c =? 9).

(** The format /proc/%d/root%s. *)
Definition fmt_proc_root : list directive := map Lit (ascii_bytes "/proc/") ++ [Dec 32] ++ map Lit (ascii_bytes "/root") ++ [Str None].

(** [libbpf_strlcpy]: what fits with a terminator. *)
Definition libbpf_strlcpy (src : list Z) (sz : Z) : list Z := take (Z.to_nat (sz - 1)) src.

Definition lib_path (sys : proc_view) (pid : Z) (path : list Z) : list Z :=
  match scanned2 (sscanf path fmt_proc_root) with
  | Some (tmp_pid, rest, _) =>
    if pid =? tmp_pid then rest
    else match realpath sys path with Some p => p | None => libbpf_strlcpy path PATH_MAX end
  | None => match realpath sys path with Some p => p | None => libbpf_strlcpy path PATH_MAX end
  end.

Fixpoint vma_loop (al : Z -> bool) (i : Z) (path : list Z) (entries : list maps_entry) (segs : list elf_seg) : Z + list elf_seg :=
  match entries with
  | [] => inr segs
  | m :: entries =>
    if negb (bool_decide ((span isblank None (m_line m)).2 = path)) then vma_loop al (i + 1) path entries segs
    else if negb (bool_decide (m_mode m !! 2%nat = Some 120)) then vma_loop al (i + 1) path entries segs
    else if negb (al i) then inl (- ENOMEM)
    else vma_loop al (i + 1) path entries (segs ++ [Seg (s64 (m_start m)) (s64 (m_end m)) (s64 (m_off m)) true])
  end.

Definition parse_vma_segs (al : Z -> bool) (sys : proc_view) (pid : Z) (path : list Z) : Z + list elf_seg :=
  match maps sys pid with
  | inl errno => inl (- errno)
  | inr entries =>
    match vma_loop al 0 (lib_path sys pid path) entries [] with
    | inl err => inl err
    | inr [] => inl (- ESRCH)
    | inr segs => inr (merge_sort seg_le segs)
    end
  end.

Fixpoint find_elf_seg (segs : list elf_seg) (virtaddr : Z) : option elf_seg :=
  match segs with
  | [] => None
  | seg :: segs => if (seg_start seg <=? virtaddr) && (virtaddr <? seg_end seg) then Some seg else find_elf_seg segs virtaddr
  end.

Fixpoint find_vma_seg (segs : list elf_seg) (offset : Z) : option elf_seg :=
  match segs with
  | [] => None
  | seg :: segs =>
    if (seg_offset seg <=? offset) && (offset <? s64 (seg_offset seg + (seg_end seg - seg_start seg))) then Some seg
    else find_vma_seg segs offset
  end.

(** ** Targets *)
Record usdt_target := Target { abs_ip : Z; rel_ip : Z; sema_off : Z; spec : usdt_spec; spec_str : Z }.

Definition USDT_BASE_SEC : list Z := ascii_bytes ".stapsdt.base".
Definition USDT_NOTE_SEC : list Z := ascii_bytes ".note.stapsdt".

(** What a search for targets is given: the binary, the process and the probe, and what the kernel supports. *)
Record query := Query {
  q_elf : elf; q_sys : proc_view; q_path : list Z; q_pid : Z;
  q_provider : list Z; q_name : list Z; q_cookie : Z;
  has_bpf_cookie : bool; has_sema_refcnt : bool
}.

(** The absolute address of a target: for a shared library without cookies the one in the process,
    with [vma_segs] filled on first use. *)
Definition resolve_abs (al : oracle) (q : query) (e_type : Z) (vma_segs : list elf_seg) (ip rel : Z) : Z + (Z * list elf_seg) :=
  if (e_type =? ET_DYN) && negb (has_bpf_cookie q) then
    if q_pid q <? 0 then inl (- ENOTSUP)
    else
      match (match vma_segs with [] => parse_vma_segs (fun i => al [1; i]) (q_sys q) (q_pid q) (q_path q) | _ => inr vma_segs end) with
      | inl err => inl err
      | inr vma_segs =>
        match find_vma_seg vma_segs rel with
        | None => inl (- ESRCH)
        | Some seg => inr (s64 (seg_start seg - seg_offset seg + rel), vma_segs)
        end
      end
  else inr (ip, vma_segs).

(** The file offset of the semaphore. *)
Definition resolve_sema (q : query) (segs : list elf_seg) (addr : Z) : Z + Z :=
  if addr =? 0 then inr 0
  else if negb (has_sema_refcnt q) then inl (- ENOTSUP)
  else match find_elf_seg segs addr with
       | None => inl (- ESRCH)
       | Some seg => if is_exec seg then inl (- ESRCH) else inr (s64 (addr - seg_start seg + seg_offset seg))
       end.

(** The address of a note after prelinking. *)
Definition note_ip (base : Z) (n : usdt_note) : Z :=
  if negb (base =? 0) && negb (base_addr n =? 0) then s64 (loc_addr n + (base - base_addr n)) else loc_addr n.

(** The body of the loop for a note of the wanted probe. *)
Definition note_target (al : oracle) (q : query) (e_type base : Z) (data : list Z) (segs vma_segs : list elf_seg) (n : usdt_note)
    : option (Z + (usdt_target * list elf_seg)) :=
  let ip := note_ip base n in
  match find_elf_seg segs ip with
  | None => Some (inl (- ESRCH))
  | Some seg =>
    if negb (is_exec seg) then Some (inl (- ESRCH))
    else
      let rel := s64 (ip - seg_start seg + seg_offset seg) in
      match resolve_abs al q e_type vma_segs ip rel with
      | inl err => Some (inl err)
      | inr (abs, vma_segs) =>
        match resolve_sema q segs (sema_addr n) with
        | inl err => Some (inl err)
        | inr sema =>
          if negb (al [2]) then Some (inl (- ENOMEM))
          else
            s ← note_str data (note_args n);
            '(err, sp) ← parse_usdt_spec zero_spec s (q_cookie q);
            if negb (err =? 0) then Some (inl err)
            else Some (inr (Target abs rel sema sp (note_args n), vma_segs))
        end
      end
  end.

Fixpoint note_loop (al : oracle) (i : Z) (q : query) (e_type base : Z) (data : list Z) (segs vma_segs : list elf_seg)
    (notes : list (nhdr * Z * Z)) (targets : list usdt_target) : option (Z + list usdt_target) :=
  match notes with
  | [] => Some (inr targets)
  | (nh, name_off, desc_off) :: notes =>
    r ← parse_usdt_note nh data name_off desc_off;
    match r with
    | inl err => Some (inl err)
    | inr n =>
      prov ← note_str data (provider n);
      nm ← note_str data (name n);
      if negb (bool_decide (prov = q_provider q)) || negb (bool_decide (nm = q_name q)) then
        note_loop al (i + 1) q e_type base data segs vma_segs notes targets
      else
        r ← note_target (sub i al) q e_type base data segs vma_segs n;
        match r with
        | inl err => Some (inl err)
        | inr (t, vma_segs) => note_loop al (i + 1) q e_type base data segs vma_segs notes (targets ++ [t])
        end
    end
  end.

(** The address of the section .stapsdt.base, 0 without one. *)
Definition stapsdt_base (e : elf) : Z :=
  match find_elf_sec_by_name e USDT_BASE_SEC with inr (sh, _) => s64 (sh_addr sh) | inl _ => 0 end.

(** The error, or the targets (none of them is an error of the caller) with the data their strings
    point into. *)
Definition collect_usdt_targets (al : oracle) (q : query) : option (Z + (list Z * list usdt_target)) :=
  match find_elf_sec_by_name (q_elf q) USDT_NOTE_SEC with
  | inl err => Some (inl err)
  | inr (notes_shdr, notes_scn) =>
    match elf_ehdr (q_elf q) with
    | None => Some (inl (- EINVAL))
    | Some (e_type, _) =>
      if negb (sh_type notes_shdr =? SHT_NOTE) then Some (inl (- EINVAL))
      else
        match parse_elf_segs (fun i => al [0; i]) (q_elf q) with
        | inl err => Some (inl err)
        | inr segs =>
          r ← note_loop (sub 1 al) 0 q e_type (stapsdt_base (q_elf q)) (sec_data notes_scn) segs [] (sec_notes notes_scn) [];
          match r with
          | inl err => Some (inl err)
          | inr targets => Some (inr (sec_data notes_scn, targets))
          end
        end
    end
  end.

(** ** What a target is *)
Lemma find_elf_seg_spec segs a seg : find_elf_seg segs a = Some seg -> seg ∈ segs /\ seg_start seg <= a < seg_end seg.
Proof.
  induction segs as [|s segs IH]; cbn [find_elf_seg]; [done|]. destruct (_ && _) eqn:E.
  - intros [= <-]. split; [apply list_elem_of_here|lia].
  - intros [? ?]%IH. split; [by apply list_elem_of_further|done].
Qed.

Lemma find_vma_seg_spec segs o seg : find_vma_seg segs o = Some seg ->
  seg ∈ segs /\ seg_offset seg <= o < s64 (seg_offset seg + (seg_end seg - seg_start seg)).
Proof.
  induction segs as [|s segs IH]; cbn [find_vma_seg]; [done|]. destruct (_ && _) eqn:E.
  - intros [= <-]. split; [apply list_elem_of_here|lia].
  - intros [? ?]%IH. split; [by apply list_elem_of_further|done].
Qed.

(** The segments are the loadable ones of the program headers. *)
Definition seg_of (e : elf) (seg : elf_seg) : Prop :=
  exists phdrs ph, elf_phdrs e = inr phdrs /\ inr ph ∈ phdrs /\ p_type ph = PT_LOAD /\
    seg = Seg (s64 (p_vaddr ph)) (s64 (p_vaddr ph + p_memsz ph)) (s64 (p_offset ph)) (negb (p_flags ph &' PF_X =? 0)).

(** The executable mappings of the library in the process. *)
Definition vma_of (sys : proc_view) (pid : Z) (path : list Z) (seg : elf_seg) : Prop :=
  exists entries m, maps sys pid = inr entries /\ m ∈ entries /\ (span isblank None (m_line m)).2 = lib_path sys pid path /\
    m_mode m !! 2%nat = Some 120 /\ seg = Seg (s64 (m_start m)) (s64 (m_end m)) (s64 (m_off m)) true.

Lemma load_segs_spec e phdrs al i l segs r : elf_phdrs e = inr phdrs -> (forall p, p ∈ l -> p ∈ phdrs) ->
  Forall (seg_of e) segs -> load_segs al i l segs = inr r -> Forall (seg_of e) r.
Proof.
  intros He. revert i segs. induction l as [|[err|ph] l IH]; intros i segs Hl Hs; cbn [load_segs]; [by intros [= <-]|done|].
  destruct (Z.eqb_spec (p_type ph) PT_LOAD) as [Ht|]; cbn [negb]; [|apply IH; [intros p Hp; apply Hl; by apply list_elem_of_further|done]].
  destruct (al i); cbn [negb]; [|done]. apply IH; [intros p Hp; apply Hl; by apply list_elem_of_further|].
  apply Forall_app. split; [done|]. repeat constructor. exists phdrs, ph. split_and!; try done. apply Hl, list_elem_of_here.
Qed.

Lemma sorted_segs (P : elf_seg -> Prop) segs : Forall P segs -> Forall P (merge_sort seg_le segs).
Proof. intros H. by rewrite (merge_sort_Permutation seg_le segs). Qed.

Lemma parse_elf_segs_spec al e segs : parse_elf_segs al e = inr segs -> Forall (seg_of e) segs.
Proof.
  unfold parse_elf_segs. destruct (elf_phdrs e) as [?|phdrs] eqn:He; [done|]. destruct (load_segs al 0 phdrs []) as [?|l] eqn:E; [done|].
  apply (load_segs_spec e phdrs) in E; [|done..]. destruct l; [done|]. intros [= <-]. by apply sorted_segs.
Qed.

Lemma vma_loop_spec sys pid path entries al i l segs r : maps sys pid = inr entries -> (forall m, m ∈ l -> m ∈ entries) ->
  Forall (vma_of sys pid path) segs -> vma_loop al i (lib_path sys pid path) l segs = inr r -> Forall (vma_of sys pid path) r.
Proof.
  intros He. revert i segs. induction l as [|m l IH]; intros i segs Hl Hs; cbn [vma_loop]; [by intros [= <-]|].
  assert (forall m', m' ∈ l -> m' ∈ entries) as Hl' by (intros m' Hm; apply Hl; by apply list_elem_of_further).
  case_bool_decide as H1; cbn [negb]; [|by apply IH]. case_bool_decide as H2; cbn [negb]; [|by apply IH].
  destruct (al i); cbn [negb]; [|done]. apply IH; [done|]. apply Forall_app. split; [done|]. repeat constructor.
  exists entries, m. split_and!; try done. apply Hl, list_elem_of_here.
Qed.

Lemma parse_vma_segs_spec al sys pid path segs : parse_vma_segs al sys pid path = inr segs -> Forall (vma_of sys pid path) segs /\ segs <> [].
Proof.
  unfold parse_vma_segs. destruct (maps sys pid) as [?|entries] eqn:He; [done|]. destruct (vma_loop _ _ _ _ _) as [?|l] eqn:E; [done|].
  apply (vma_loop_spec _ _ _ entries) in E; [|done..]. destruct l as [|s l]; [done|]. intros [= <-]. split; [by apply sorted_segs|].
  intros Hn. pose proof (Permutation_length (merge_sort_Permutation seg_le (s :: l))) as Hp. rewrite Hn in Hp. done.
Qed.

(** A target of a note: the file offset of its (prelinked) address in an executable segment; that address, or for a
    shared library without cookies the one at which the process has it mapped; the file offset of the semaphore
    in a segment that is not executable; the spec its text of arguments denotes. *)
Record target_ok (q : query) (e_type base : Z) (data : list Z) (n : usdt_note) (t : usdt_target) : Prop := {
  ok_rel : exists seg, seg_of (q_elf q) seg /\ is_exec seg = true /\ seg_start seg <= note_ip base n < seg_end seg /\
    rel_ip t = s64 (note_ip base n - seg_start seg + seg_offset seg);
  ok_abs : if (e_type =? ET_DYN) && negb (has_bpf_cookie q)
    then 0 <= q_pid q /\ exists seg, vma_of (q_sys q) (q_pid q) (q_path q) seg /\
      seg_offset seg <= rel_ip t < s64 (seg_offset seg + (seg_end seg - seg_start seg)) /\
      abs_ip t = s64 (seg_start seg - seg_offset seg + rel_ip t)
    else abs_ip t = note_ip base n;
  ok_sema : if sema_addr n =? 0 then sema_off t = 0
    else has_sema_refcnt q = true /\ exists seg, seg_of (q_elf q) seg /\ is_exec seg = false /\
      seg_start seg <= sema_addr n < seg_end seg /\ sema_off t = s64 (sema_addr n - seg_start seg + seg_offset seg);
  ok_str : spec_str t = note_args n;
  ok_spec : exists s, note_str data (spec_str t) = Some s /\ parse_usdt_spec zero_spec s (q_cookie q) = Some (0, spec t)
}.

Lemma resolve_abs_spec al q e_type vma ip rel abs vma' : Forall (vma_of (q_sys q) (q_pid q) (q_path q)) vma ->
  resolve_abs al q e_type vma ip rel = inr (abs, vma') -> Forall (vma_of (q_sys q) (q_pid q) (q_path q)) vma' /\
  if (e_type =? ET_DYN) && negb (has_bpf_cookie q)
  then 0 <= q_pid q /\ exists seg, vma_of (q_sys q) (q_pid q) (q_path q) seg /\
    seg_offset seg <= rel < s64 (seg_offset seg + (seg_end seg - seg_start seg)) /\ abs = s64 (seg_start seg - seg_offset seg + rel)
  else abs = ip.
Proof.
  intros Hv. unfold resolve_abs. destruct (_ && _); [|by intros [= <- <-]]. destruct (Z.ltb_spec (q_pid q) 0); [done|].
  destruct (match vma with [] => _ | _ => _ end) as [?|segs] eqn:E; [done|].
  assert (Forall (vma_of (q_sys q) (q_pid q) (q_path q)) segs) as Hs.
  { destruct vma; [by apply parse_vma_segs_spec in E as [? _]|by injection E as <-]. }
  destruct (find_vma_seg segs rel) as [seg|] eqn:Ef; [|done]. intros [= <- <-]. split; [done|]. split; [done|].
  apply find_vma_seg_spec in Ef as [Hin ?]. exists seg. split; [|done]. by eapply Forall_forall in Hs.
Qed.

Lemma resolve_sema_spec q segs addr off : Forall (seg_of (q_elf q)) segs -> resolve_sema q segs addr = inr off ->
  if addr =? 0 then off = 0
  else has_sema_refcnt q = true /\ exists seg, seg_of (q_elf q) seg /\ is_exec seg = false /\
    seg_start seg <= addr < seg_end seg /\ off = s64 (addr - seg_start seg + seg_offset seg).
Proof.
  intros Hs. unfold resolve_sema. destruct (addr =? 0); [by intros [= <-]|]. destruct (has_sema_refcnt q); [|done]. cbn [negb].
  destruct (find_elf_seg segs addr) as [seg|] eqn:Ef; [|done]. destruct (is_exec seg) eqn:Ee; [done|]. intros [= <-]. split; [done|].
  apply find_elf_seg_spec in Ef as [Hin ?]. exists seg. split; [|done]. by eapply Forall_forall in Hs.
Qed.

(** The text of the arguments of a note ends inside the data, and its parser sets what it reads. *)
Definition args_readable (q : query) (data : list Z) (n : usdt_note) : Prop :=
  exists s r, note_str data (note_args n) = Some s /\ parse_usdt_spec zero_spec s (q_cookie q) = Some r.

Lemma note_target_spec al q e_type base data segs vma n : Forall (seg_of (q_elf q)) segs ->
  Forall (vma_of (q_sys q) (q_pid q) (q_path q)) vma -> args_readable q data n ->
  exists r, note_target al q e_type base data segs vma n = Some r /\
  match r with
  | inl _ => True
  | inr (t, vma') => Forall (vma_of (q_sys q) (q_pid q) (q_path q)) vma' /\ target_ok q e_type base data n t
  end.
Proof.
  intros Hs Hv (s & [err sp] & Hstr & Hp). unfold note_target. cbv zeta. set (ip := note_ip base n).
  destruct (find_elf_seg segs ip) as [seg|] eqn:Ef; [|by eexists]. destruct (is_exec seg) eqn:Ee; cbn [negb]; [|by eexists].
  set (rel := s64 (ip - seg_start seg + seg_offset seg)).
  destruct (resolve_abs al q e_type vma ip rel) as [?|[abs vma']] eqn:Ea; [by eexists|]. apply resolve_abs_spec in Ea as [Hv' Ha]; [|done].
  destruct (resolve_sema q segs (sema_addr n)) as [?|sema] eqn:Em; [by eexists|]. apply resolve_sema_spec in Em; [|done].
  destruct (al [2]); cbn [negb]; [|by eexists]. rewrite Hstr. cbn [mbind option_bind]. rewrite Hp. cbn [mbind option_bind].
  destruct (Z.eqb_spec err 0) as [->|]; cbn [negb]; [|by eexists]. eexists. split; [done|]. cbv beta iota. split; [done|].
  apply find_elf_seg_spec in Ef as [Hin Hb]. split; cbn [abs_ip rel_ip sema_off spec spec_str]; [|done|done|done|by exists s].
  exists seg. split; [by eapply Forall_forall in Hs|done].
Qed.

(** The notes of the wanted probe, in their order. *)
Definition wanted (q : query) (data : list Z) (nt : nhdr * Z * Z) : option usdt_note :=
  let '(nh, name_off, desc_off) := nt in
  match parse_usdt_note nh data name_off desc_off with
  | Some (inr n) =>
    if bool_decide (note_str data (provider n) = Some (q_provider q)) && bool_decide (note_str data (name n) = Some (q_name q))
    then Some n else None
  | _ => None
  end.

Definition notes_ok (q : query) (data : list Z) (notes : list (nhdr * Z * Z)) : Prop :=
  Forall (fun '(nh, name_off, desc_off) => note_inside data nh name_off desc_off) notes /\
  Forall (args_readable q data) (omap (wanted q data) notes).

Lemma note_loop_spec al i q e_type base data segs vma notes ts : bytes_ok data -> Forall (seg_of (q_elf q)) segs ->
  Forall (vma_of (q_sys q) (q_pid q) (q_path q)) vma -> notes_ok q data notes ->
  exists r, note_loop al i q e_type base data segs vma notes ts = Some r /\
  match r with
  | inl _ => True
  | inr ts' => exists ts1, ts' = ts ++ ts1 /\ Forall2 (target_ok q e_type base data) (omap (wanted q data) notes) ts1
  end.
Proof.
  intros Hb Hs. revert i vma ts. induction notes as [|[[nh name_off] desc_off] notes IH]; intros i vma ts Hv [Hn Ha].
  { eexists. split; [done|]. exists []. by rewrite app_nil_r. }
  inversion Hn as [|?? Hin Hn']; subst. cbn [note_loop].
  change (omap (wanted q data) ((nh, name_off, desc_off) :: notes)) with
    (match wanted q data (nh, name_off, desc_off) with Some n => n :: omap (wanted q data) notes | None => omap (wanted q data) notes end) in *.
  destruct (parse_note_safe nh data name_off desc_off Hb Hin) as ([err|n] & Hp & Hr); rewrite Hp; cbn [mbind option_bind]; [by eexists|].
  destruct Hr as (e1 & e2 & Hpr & He1 & Hz1 & Hnm & He2 & Hz2 & _). destruct Hin as (_ & _ & _ & Hd & _).
  pose proof (note_str_ok data (provider n) e1 ltac:(lia) Hz1) as Hs1. pose proof (note_str_ok data (name n) e2 ltac:(lia) Hz2) as Hs2.
  assert (wanted q data (nh, name_off, desc_off) =
    if bool_decide (str_at data (provider n) = q_provider q) && bool_decide (str_at data (name n) = q_name q) then Some n else None) as Hw.
  { unfold wanted. rewrite Hp, Hs1, Hs2.
    rewrite (bool_decide_ext (Some _ = Some (q_provider q)) (str_at data (provider n) = q_provider q)) by (split; [by intros [= ->]|by intros ->]).
    by rewrite (bool_decide_ext (Some _ = Some (q_name q)) (str_at data (name n) = q_name q)) by (split; [by intros [= ->]|by intros ->]). }
  rewrite Hw in *. rewrite Hs1, Hs2. cbn [mbind option_bind]. rewrite <- negb_andb. destruct (_ && _); cbn [negb]; [|by apply IH].
  inversion Ha as [|?? Har Ha']; subst.
  destruct (note_target_spec (sub i al) q e_type base data segs vma n Hs Hv Har) as ([err|[t vma']] & -> & Ht); cbn [mbind option_bind]; [by eexists|].
  destruct Ht as [Hv' Ht]. destruct (IH (i + 1) vma' (ts ++ [t]) Hv' (conj Hn' Ha')) as (r & -> & Hr). exists r. split; [done|].
  destruct r as [|ts']; [done|]. destruct Hr as (ts1 & -> & Hf). exists (t :: ts1). rewrite <- app_assoc. split; [done|]. by constructor.
Qed.

(** The text a pointer of a target stands for. *)
Definition arg_str (data : list Z) (p : Z) : list Z := default [] (note_str data p).

(** Equal texts of arguments give equal specs: what sharing of specs in an attachment relies on. *)
Definition targets_agree (data : list Z) (ts : list usdt_target) : Prop :=
  forall t1 t2, t1 ∈ ts -> t2 ∈ ts -> arg_str data (spec_str t1) = arg_str data (spec_str t2) -> spec t1 = spec t2.

(** For a binary whose note section libelf can walk and whose wanted notes have readable text, the search for targets
    returns; unless it reports an error, the targets are those of the notes of the probe, in order, each with the
    file offset, the absolute address, the semaphore offset and the spec of its note. *)
Theorem collect_targets_exact al q sh scn e_type endian :
  find_elf_sec_by_name (q_elf q) USDT_NOTE_SEC = inr (sh, scn) -> elf_ehdr (q_elf q) = Some (e_type, endian) ->
  bytes_ok (sec_data scn) -> notes_ok q (sec_data scn) (sec_notes scn) ->
  exists r, collect_usdt_targets al q = Some r /\
  match r with
  | inl _ => True
  | inr (data, ts) => data = sec_data scn /\
      Forall2 (target_ok q e_type (stapsdt_base (q_elf q)) data) (omap (wanted q data) (sec_notes scn)) ts
  end.
Proof.
  intros Hsec He Hb Hn. unfold collect_usdt_targets. rewrite Hsec, He. destruct (_ =? SHT_NOTE); cbn [negb]; [|by eexists].
  destruct (parse_elf_segs _ _) as [?|segs] eqn:Es; [by eexists|]. apply parse_elf_segs_spec in Es.
  match goal with |- context [note_loop ?al ?i ?q ?e ?base ?d ?segs ?v ?ns ?ts] =>
    destruct (note_loop_spec al i q e base d segs v ns ts Hb Es ltac:(done) Hn) as ([err|ts'] & -> & Hr) end; cbn [mbind option_bind]; [by eexists|].
  destruct Hr as (ts1 & -> & Hf). eexists. split; [done|]. cbv beta iota. split; [done|]. exact Hf.
Qed.

(** Whatever the notes are, the targets found have the specs of their texts and are no more than the notes. *)
Lemma note_loop_parsed al i q e_type base data segs vma notes ts ts' :
  note_loop al i q e_type base data segs vma notes ts = Some (inr ts') ->
  Forall (fun t => exists s, note_str data (spec_str t) = Some s /\ parse_usdt_spec zero_spec s (q_cookie q) = Some (0, spec t)) ts ->
  Forall (fun t => exists s, note_str data (spec_str t) = Some s /\ parse_usdt_spec zero_spec s (q_cookie q) = Some (0, spec t)) ts' /\
  (length ts' <= length ts + length notes)%nat.
Proof.
  revert i vma ts. induction notes as [|[[nh name_off] desc_off] notes IH]; intros i vma ts; cbn [note_loop].
  { intros [= <-] Hf. split; [done|]. cbn [length]. lia. }
  intros H Hf. obind_inv H. destruct x as [|n]; [done|]. obind_inv H. destruct (_ || _).
  { apply IH in H as [? ?]; [|done]. split; [done|]. cbn [length]. lia. }
  obind_inv H. destruct x1 as [|[t vma']]; [done|]. apply IH in H as [? Hl].
  - split; [done|]. rewrite length_app in Hl. cbn [length] in *. lia.
  - apply Forall_app. split; [done|]. repeat constructor. unfold note_target in E2. cbv zeta in E2.
    destruct (find_elf_seg segs _); [|done]. destruct (negb _); [done|]. destruct (resolve_abs _ _ _ _ _ _) as [|[]]; [done|].
    destruct (resolve_sema _ _ _); [done|]. destruct (negb _); [done|]. obind_inv E2. destruct x2 as [err sp].
    destruct (Z.eqb_spec err 0) as [->|]; [|done]. injection E2 as <- _. cbn [spec_str spec]. eauto.
Qed.

Lemma collect_agree al q data ts : collect_usdt_targets al q = Some (inr (data, ts)) -> targets_agree data ts /\
  exists sh scn, find_elf_sec_by_name (q_elf q) USDT_NOTE_SEC = inr (sh, scn) /\ (length ts <= length (sec_notes scn))%nat.
Proof.
  unfold collect_usdt_targets. destruct (find_elf_sec_by_name (q_elf q) USDT_NOTE_SEC) as [|[sh scn]]; [done|]. destruct (elf_ehdr (q_elf q)) as [[]|]; [|done].
  destruct (negb _); [done|]. destruct (parse_elf_segs _ _) as [|segs]; [done|]. intros H. obind_inv H. destruct x as [|ts']; [done|]. injection H as <- <-.
  apply note_loop_parsed in E as [Hf Hl]; [|constructor]. split; [|by exists sh, scn].
  intros t1 t2 H1 H2 Hs. rewrite Forall_forall in Hf. destruct (Hf t1 H1) as (s1 & Hs1 & Hp1), (Hf t2 H2) as (s2 & Hs2 & Hp2).
  unfold arg_str in Hs. rewrite Hs1, Hs2 in Hs. simpl in Hs. subst s2. congruence.
Qed.
