(* ===== verification/UsdtMan.v ===== *)
(** * The USDT manager

    The attachment of programs to USDT probes in src/libbpf/src/usdt.c.  The [usdt_manager] of a BPF object hands
    out the slots of the specs map: [allocate_spec_id] gives every distinct text of arguments of an attachment
    a slot, from the list of freed slots or a fresh one, [usdt_manager_attach_usdt] fills the slot and attaches the
    probes, and [bpf_link_usdt_detach] returns the slots of a link.

    The kernel is the class [ProbeKernel]: the two BPF maps and the attached probes, with the system calls on them;
    [ProbeKernelLaws] states their documented effect.  The strings of targets are pointers into the note
    section ([note_str]).  An int array is [None] for NULL or a list whose unset cells are [None]; a model is
    [None] if the code would read an unset cell or outside an array. *)
From Stdlib Require Import ZArith Lia String.
From stdpp Require Import base numbers list gmap sorting.
From S2P Require Import Prelude Btf Hashmap Strset UsdtArgs UsdtTargets.

(** ** The kernel *)

(** Where a probe is attached: the program, the process filter and the file. *)
Record place := Place { pl_prog : Z; pl_pid : Z; pl_path : list Z }.

(** A probe: file offset, offset of the semaphore, cookie. *)
Definition probe : Type := Z * Z * Z.

(** A system call returns 0 or an errno, an attachment an errno or the handle of a link. *)
Class ProbeKernel (K : Type) := {
  specs_update_elem : K -> Z -> usdt_spec -> Z * K;
  ip_update_noexist : K -> Z -> Z -> Z * K;
  ip_delete_elem : K -> Z -> Z * K;
  attach_uprobe_opts : K -> place -> probe -> (Z + Z) * K;
  attach_uprobe_multi : K -> place -> list probe -> (Z + Z) * K;
  link_close : K -> Z -> K;
  spec_map : K -> Z -> option usdt_spec;
  ip_map : K -> Z -> option Z;
  probes : K -> Z -> option (place * list probe)
}.

Definition upd {A} (f : Z -> option A) (x : Z) (v : option A) : Z -> option A := fun y => if y =? x then v else f y.

(** The documented effect of the calls: a failing call changes nothing, BPF_NOEXIST refuses a key that is present,
    an error is not 0, a new link has a new handle, and closing a link detaches its probes only. *)
Class ProbeKernelLaws K `{ProbeKernel K} : Prop := {
  specs_update_law k id sp : forall e k', specs_update_elem k id sp = (e, k') ->
    (forall x, spec_map k' x = if e =? 0 then upd (spec_map k) id (Some sp) x else spec_map k x) /\
    (forall x, ip_map k' x = ip_map k x) /\ (forall x, probes k' x = probes k x);
  ip_update_law k ip id : forall e k', ip_update_noexist k ip id = (e, k') ->
    (e = 0 -> ip_map k ip = None) /\ (is_Some (ip_map k ip) -> e = EEXIST) /\
    (forall x, ip_map k' x = if e =? 0 then upd (ip_map k) ip (Some id) x else ip_map k x) /\
    (forall x, spec_map k' x = spec_map k x) /\ (forall x, probes k' x = probes k x);
  ip_delete_law k ip : forall e k', ip_delete_elem k ip = (e, k') ->
    (forall x, ip_map k' x = upd (ip_map k) ip None x) /\
    (forall x, spec_map k' x = spec_map k x) /\ (forall x, probes k' x = probes k x);
  attach_uprobe_law k pl p : forall r k', attach_uprobe_opts k pl p = (r, k') ->
    (forall x, spec_map k' x = spec_map k x) /\ (forall x, ip_map k' x = ip_map k x) /\
    match r with
    | inl e => e <> 0 /\ forall x, probes k' x = probes k x
    | inr h => probes k h = None /\ forall x, probes k' x = upd (probes k) h (Some (pl, [p])) x
    end;
  attach_multi_law k pl ps : forall r k', attach_uprobe_multi k pl ps = (r, k') ->
    (forall x, spec_map k' x = spec_map k x) /\ (forall x, ip_map k' x = ip_map k x) /\
    match r with
    | inl e => e <> 0 /\ forall x, probes k' x = probes k x
    | inr h => probes k h = None /\ forall x, probes k' x = upd (probes k) h (Some (pl, ps)) x
    end;
  link_close_law k h :
    (forall x, spec_map (link_close k h) x = spec_map k x) /\ (forall x, ip_map (link_close k h) x = ip_map k x) /\
    forall x, probes (link_close k h) x = upd (probes k) h None x
}.

(** ** Arrays of spec ids *)
Definition int_array := option (list (option Z)).

(** [realloc] to [n] cells of 4 bytes: kept cells, then unset ones.  For 0 cells it frees and returns NULL. *)
Definition realloc_ints (alloc : bool) (a : int_array) (n : Z) : int_array :=
  if negb alloc || (n * 4 >=? 2 ^ 64) || (n =? 0) then None
  else let old := take (Z.to_nat n) (default [] a) in Some (old ++ replicate (Z.to_nat n - length old) None).

Definition read_int (a : int_array) (i : Z) : option Z := l ← a; c ← zget l i; c.
Definition write_int (a : int_array) (i v : Z) : option int_array := l ← a; l ← zset l i (Some v); Some (Some l).

(** [memcpy] of [n] cells of [src] to [dst] at [off]; nothing is accessed if [n] is 0. *)
Definition memcpy_ints (dst : int_array) (off : Z) (src : int_array) (n : Z) : option int_array :=
  if n =? 0 then Some dst
  else
    d ← dst; s ← src;
    if bool_decide (0 <= off /\ 0 <= n <= Z.of_nat (length s) /\ off + n <= Z.of_nat (length d)) then
      Some (Some (take (Z.to_nat off) d ++ take (Z.to_nat n) s ++ drop (Z.to_nat (off + n)) d))
    else None.

(** ** State *)
Record usdt_manager := Man {
  max_entries : Z;
  free_spec_ids : int_array;
  free_spec_cnt : Z;
  next_free_spec_id : Z;
  man_bpf_cookie : bool;
  man_sema_refcnt : bool;
  man_uprobe_multi : bool
}.

Record bpf_link_usdt := Link {
  disconnected : bool;
  spec_cnt : Z;
  spec_ids : int_array;
  uprobe_cnt : Z;
  uprobes : list (Z * option Z);
  multi_link : option Z
}.

(** [usdt_manager_new], given the two maps ([specs_entries] is the size of the specs map) and the features of the
    kernel. *)
Definition usdt_manager_new (alloc : bool) (specs_entries : option Z) (ip_map_found cookie refcnt multi : bool) : Z + usdt_manager :=
  match specs_entries with
  | Some n =>
    if negb ip_map_found then inl (- ESRCH)
    else if negb alloc then inl (- ENOMEM)
    else inr (Man n None 0 0 cookie refcnt multi)
  | None => inl (- ESRCH)
  end.

Definition set_free (ids : int_array) (cnt : Z) (m : usdt_manager) : usdt_manager :=
  Man (max_entries m) ids cnt (next_free_spec_id m) (man_bpf_cookie m) (man_sema_refcnt m) (man_uprobe_multi m).
Definition set_next (v : Z) (m : usdt_manager) : usdt_manager :=
  Man (max_entries m) (free_spec_ids m) (free_spec_cnt m) v (man_bpf_cookie m) (man_sema_refcnt m) (man_uprobe_multi m).
Definition set_ids (ids : int_array) (cnt : Z) (l : bpf_link_usdt) : bpf_link_usdt :=
  Link (disconnected l) cnt ids (uprobe_cnt l) (uprobes l) (multi_link l).
Definition set_uprobes (ups : list (Z * option Z)) (cnt : Z) (l : bpf_link_usdt) : bpf_link_usdt :=
  Link (disconnected l) (spec_cnt l) (spec_ids l) cnt ups (multi_link l).
Definition set_multi (h : option Z) (l : bpf_link_usdt) : bpf_link_usdt :=
  Link (disconnected l) (spec_cnt l) (spec_ids l) (uprobe_cnt l) (uprobes l) h.

Section Manager.
Context {K : Type} `{HK : ProbeKernel K}.

(** ** Detaching *)

(** [bpf_link__destroy] of an inner link, which may be NULL. *)
Definition destroy_inner (k : K) (h : option Z) : K := match h with Some h => link_close k h | None => k end.

Fixpoint detach_loop (n : nat) (i : Z) (cookie : bool) (ups : list (Z * option Z)) (k : K) : option K :=
  match n with
  | O => Some k
  | S n =>
    '(ip, h) ← zget ups i;
    let k := destroy_inner k h in
    detach_loop n (i + 1) cookie ups (if cookie then k else (ip_delete_elem k ip).2)
  end.

(** The ids of the link go to the free list. *)
Definition return_spec_ids (alloc : bool) (man : usdt_manager) (link : bpf_link_usdt) : option usdt_manager :=
  match free_spec_ids man with
  | None => Some (set_free (spec_ids link) (spec_cnt link) man)
  | Some _ =>
    let new_cnt := u64 (free_spec_cnt man + spec_cnt link) in
    let new_free_ids := realloc_ints alloc (free_spec_ids man) new_cnt in
    if bool_decide (new_free_ids <> None) || (new_cnt =? 0) then
      new_free_ids ← memcpy_ints new_free_ids (free_spec_cnt man) (spec_ids link) (spec_cnt link);
      Some (set_free new_free_ids new_cnt man)
    else Some man
  end.

Definition bpf_link_usdt_detach (alloc : bool) (man : usdt_manager) (link : bpf_link_usdt) (k : K) : option (usdt_manager * K) :=
  let k := destroy_inner k (multi_link link) in
  k ← detach_loop (Z.to_nat (uprobe_cnt link)) 0 (man_bpf_cookie man) (uprobes link) k;
  man ← return_spec_ids alloc man link;
  Some (man, k).

(** [bpf_link__destroy] of a USDT link, and [bpf_link__disconnect]. *)
Definition bpf_link__destroy (alloc : bool) (man : usdt_manager) (link : bpf_link_usdt) (k : K) : option (usdt_manager * K) :=
  if disconnected link then Some (man, k) else bpf_link_usdt_detach alloc man link k.
Definition bpf_link__disconnect (l : bpf_link_usdt) : bpf_link_usdt :=
  Link true (spec_cnt l) (spec_ids l) (uprobe_cnt l) (uprobes l) (multi_link l).

(** ** Attaching *)

Definition specs_hash_fn (data : list Z) (key : Z) : Z := str_hash (arg_str data key).
Definition specs_equal_fn (data : list Z) (key1 key2 : Z) : bool := bool_decide (arg_str data key1 = arg_str data key2).

(** The state an attachment threads through its targets. *)
Record attaching := Attaching { a_man : usdt_manager; a_k : K; a_hash : hashmap; a_link : bpf_link_usdt; a_probes : list probe }.

(** Cache the new id under its text; on success [commit] takes it from the manager. *)
Definition cache_id (al : oracle) (data : list Z) (st : attaching) (key id : Z) (commit : usdt_manager -> usdt_manager) : option (Z * attaching) :=
  '(err, hash, _, _) ← hashmap_insert (specs_hash_fn data) (specs_equal_fn data) (al [1]) (al [2]) (a_hash st) key id HASHMAP_ADD;
  if negb (err =? 0) then Some (err, Attaching (a_man st) (a_k st) hash (a_link st) (a_probes st))
  else
    let man := commit (a_man st) in
    let link := a_link st in
    ids ← write_int (spec_ids link) (spec_cnt link) id;
    Some (0, Attaching man (a_k st) hash (set_ids ids (u64 (spec_cnt link + 1)) link) (a_probes st)).

(** The error, the state, and [*spec_id] and [*is_new]. *)
Definition allocate_spec_id (al : oracle) (data : list Z) (st : attaching) (t : usdt_target) : option (Z * attaching * Z * bool) :=
  found ← hashmap_find (specs_hash_fn data) (specs_equal_fn data) (a_hash st) (spec_str t);
  match found with
  | Some tmp => Some (0, st, s32 tmp, false)
  | None =>
    let man := a_man st in
    let link := a_link st in
    match realloc_ints (al [0]) (spec_ids link) (u64 (spec_cnt link + 1)) with
    | None => Some (- ENOMEM, st, 0, false)
    | new_ids =>
      let st := Attaching man (a_k st) (a_hash st) (set_ids new_ids (spec_cnt link) link) (a_probes st) in
      if negb (free_spec_cnt man =? 0) then
        spec_id ← read_int (free_spec_ids man) (free_spec_cnt man - 1);
        '(err, st) ← cache_id al data st (spec_str t) spec_id (fun m => set_free (free_spec_ids m) (free_spec_cnt m - 1) m);
        Some (err, st, spec_id, err =? 0)
      else if next_free_spec_id man >=? max_entries man then Some (- E2BIG, st, 0, false)
      else
        let spec_id := s32 (next_free_spec_id man) in
        '(err, st) ← cache_id al data st (spec_str t) spec_id (fun m => set_next (u64 (next_free_spec_id m + 1)) m);
        Some (err, st, spec_id, err =? 0)
    end
  end.

Definition with_k (k : K) (st : attaching) : attaching := Attaching (a_man st) k (a_hash st) (a_link st) (a_probes st).

(** The part of the loop behind the allocation of the id. *)
Definition attach_target (pl : place) (st : attaching) (i : Z) (t : usdt_target) (spec_id : Z) (is_new : bool) : option (Z * attaching) :=
  let man := a_man st in
  let (e, k) := if is_new then specs_update_elem (a_k st) spec_id (spec t) else (0, a_k st) in
  if negb (e =? 0) then Some (- e, with_k k st)
  else
    let (e, k) := if man_bpf_cookie man then (0, k) else ip_update_noexist k (abs_ip t) spec_id in
    if negb (e =? 0) then Some (- e, with_k k st)
    else if man_uprobe_multi man then
      Some (0, Attaching man k (a_hash st) (a_link st) (a_probes st ++ [(rel_ip t, sema_off t, spec_id)]))
    else
      match attach_uprobe_opts k pl (rel_ip t, sema_off t, if man_bpf_cookie man then spec_id else 0) with
      | (inl e, k) => Some (- e, with_k k st)
      | (inr h, k) =>
        let link := a_link st in
        ups ← zset (uprobes link) i (abs_ip t, Some h);
        Some (0, Attaching man k (a_hash st) (set_uprobes ups (u64 (uprobe_cnt link + 1)) link) (a_probes st))
      end.

Fixpoint attach_loop (al : oracle) (data : list Z) (pl : place) (i : Z) (ts : list usdt_target) (st : attaching) : option (Z * attaching) :=
  match ts with
  | [] => Some (0, st)
  | t :: ts =>
    '(err, st, spec_id, is_new) ← allocate_spec_id (sub i al) data st t;
    if negb (err =? 0) then Some (err, st)
    else
      '(err, st) ← attach_target pl st i t spec_id is_new;
      if negb (err =? 0) then Some (err, st) else attach_loop al data pl (i + 1) ts st
  end.

(** The loop and the multi link. *)
Definition attach_targets (al : oracle) (data : list Z) (pl : place) (ts : list usdt_target) (st : attaching) : option (Z * attaching) :=
  '(err, st) ← attach_loop al data pl 0 ts st;
  if negb (err =? 0) then Some (err, st)
  else if man_uprobe_multi (a_man st) then
    match attach_uprobe_multi (a_k st) pl (a_probes st) with
    | (inl e, k) => Some (- e, with_k k st)
    | (inr h, k) => Some (0, Attaching (a_man st) k (a_hash st) (set_multi (Some h) (a_link st)) (a_probes st))
    end
  else Some (0, st).

(** What follows the discovery of the targets; an error after the allocation of the link destroys it. *)
Definition attach_found (al : oracle) (data : list Z) (pl : place) (ts : list usdt_target) (man : usdt_manager) (k : K)
    : option (usdt_manager * K * (Z + bpf_link_usdt)) :=
  if negb (al [0]) then Some (man, k, inl (- ENOMEM))
  else if negb (al [1]) then Some (man, k, inl (- ENOMEM))
  else
    let arrays := if man_uprobe_multi man then al [2] && al [3] && al [4] else al [2] in
    let link := Link false 0 None 0 (if man_uprobe_multi man then [] else replicate (length ts) (0, None)) None in
    if negb arrays then
      '(man, k) ← bpf_link__destroy (al [5]) man (Link false 0 None 0 [] None) k; Some (man, k, inl (- ENOMEM))
    else
      '(err, st) ← attach_targets (sub 6 al) data pl ts (Attaching man k hashmap__init link []);
      if err =? 0 then Some (a_man st, a_k st, inr (a_link st))
      else '(man, k) ← bpf_link__destroy (al [5]) (a_man st) (a_link st) (a_k st); Some (man, k, inl err).

(** The arguments of [usdt_manager_attach_usdt]; [r_elf] is the opened binary or the error of [elf_open], [r_self] the
    process itself. *)
Record request := Request { r_elf : Z + elf; r_sys : proc_view; r_self : Z; r_prog : Z; r_pid : Z; r_path : list Z;
  r_provider : list Z; r_name : list Z; r_cookie : Z }.

Definition norm_pid (r : request) : Z := if r_pid r <? 0 then -1 else if r_pid r =? 0 then r_self r else r_pid r.
Definition query_of (man : usdt_manager) (r : request) (e : elf) : query :=
  Query e (r_sys r) (r_path r) (norm_pid r) (r_provider r) (r_name r) (r_cookie r) (man_bpf_cookie man) (man_sema_refcnt man).
Definition place_of (r : request) : place := Place (r_prog r) (norm_pid r) (r_path r).

Definition usdt_manager_attach_usdt (al : oracle) (r : request) (man : usdt_manager) (k : K)
    : option (usdt_manager * K * (Z + bpf_link_usdt)) :=
  match r_elf r with
  | inl err => Some (man, k, inl err)
  | inr e =>
    let err := sanity_check_usdt_elf e in
    if negb (err =? 0) then Some (man, k, inl err)
    else
      found ← collect_usdt_targets (sub 0 al) (query_of man r e);
      match found with
      | inl err => Some (man, k, inl err)
      | inr (_, []) => Some (man, k, inl (- ENOENT))
      | inr (data, ts) => attach_found (sub 1 al) data (place_of r) ts man k
      end
  end.

End Manager.
