(* ===== verification/UsdtManSpec.v ===== *)
(** * Correctness of the USDT manager

    In every state that attachments, failed attachments and detachments can lead to, no slot of the specs map is
    used twice, and a program fired by a probe of a live link finds the spec of that probe ([usdt_probes_served]). *)
From Stdlib Require Import ZArith Lia String.
From stdpp Require Import base numbers list gmap sorting.
From S2P Require Import Prelude Btf Hashmap Strset UsdtArgs UsdtTargets UsdtMan.

#[export] Instance specs_HashKey data : HashKey (specs_hash_fn data) (specs_equal_fn data).
Proof.
  unfold specs_equal_fn, specs_hash_fn. split; intros.
  - by apply bool_decide_true.
  - by apply bool_decide_ext.
  - rewrite bool_decide_eq_true in *. congruence.
  - rewrite bool_decide_eq_true in *. congruence.
Qed.

(** ** Arrays *)

(** The first [cnt] cells, all set, are [l]. *)
Definition holds (a : int_array) (cnt : Z) (l : list Z) : Prop :=
  cnt = Z.of_nat (length l) /\ exists rest, default [] a = map Some l ++ rest.

Definition arr_ids (a : int_array) (cnt : Z) : list Z := omap id (take (Z.to_nat cnt) (default [] a)).

Lemma omap_some (l : list Z) : omap id (map Some l) = l.
Proof. induction l as [|x l IH]; [done|]. cbn. by f_equal. Qed.

Lemma holds_ids a cnt l : holds a cnt l -> arr_ids a cnt = l.
Proof.
  intros [-> [rest E]]. unfold arr_ids. rewrite E, Nat2Z.id.
  replace (length l) with (length (map Some l)) by apply length_map. rewrite take_app_length. apply omap_some.
Qed.

Lemma read_last a l x : holds a (Z.of_nat (length (l ++ [x]))) (l ++ [x]) -> read_int a (Z.of_nat (length (l ++ [x])) - 1) = Some x.
Proof.
  intros [_ [rest E]]. destruct a as [c|]; simpl in E.
  - subst c. unfold read_int. cbn [mbind option_bind]. rewrite length_app, map_app, <- app_assoc. cbn [length map app].
    replace (Z.of_nat (length l + 1) - 1) with (Z.of_nat (length (map Some l)) + 0) by (rewrite length_map; lia). by rewrite zget_app_r.
  - by destruct l.
Qed.

Lemma holds_shrink a l x : holds a (Z.of_nat (length (l ++ [x]))) (l ++ [x]) -> holds a (Z.of_nat (length l)) l.
Proof. intros [_ [rest E]]. split; [done|]. rewrite map_app, <- app_assoc in E. eauto. Qed.

Lemma realloc_holds al a l n a' : holds a (Z.of_nat (length l)) l -> Z.of_nat (length l) <= n -> realloc_ints al a n = Some a' ->
  holds (Some a') (Z.of_nat (length l)) l /\ Z.of_nat (length a') = n.
Proof.
  intros [_ [rest E]] Hn. unfold realloc_ints. destruct (_ || _); [done|]. cbv zeta. intros [= <-]. rewrite E.
  rewrite take_app, take_ge by (rewrite length_map; lia). rewrite length_map. split.
  - split; [done|]. cbn [default]. rewrite <- app_assoc. eauto.
  - rewrite !length_app, length_replicate, length_take, length_map. lia.
Qed.

Lemma write_holds a l x : holds (Some a) (Z.of_nat (length l)) l -> Z.of_nat (length a) = Z.of_nat (length l) + 1 ->
  exists a', write_int (Some a) (Z.of_nat (length l)) x = Some a' /\ holds a' (Z.of_nat (length (l ++ [x]))) (l ++ [x]).
Proof.
  intros [_ [rest E]] Hl. simpl in E. subst a. rewrite length_app, length_map in Hl. destruct rest as [|c [|]]; simpl in Hl; try lia.
  unfold write_int. cbn [mbind option_bind]. unfold zset. rewrite decide_True by (rewrite length_app, length_map; simpl; lia).
  cbn [mbind option_bind]. eexists. split; [done|]. split; [done|]. exists []. cbn [default]. rewrite map_app, app_nil_r.
  rewrite insert_app_r_alt by (rewrite length_map; lia). rewrite length_map, Nat2Z.id, Nat.sub_diag. done.
Qed.

(** Returning the ids of a link to the free list. *)
Lemma memcpy_holds a b l1 l2 : holds (Some a) (Z.of_nat (length l1)) l1 -> Z.of_nat (length a) = Z.of_nat (length l1 + length l2) ->
  holds b (Z.of_nat (length l2)) l2 -> exists a', memcpy_ints (Some a) (Z.of_nat (length l1)) b (Z.of_nat (length l2)) = Some a' /\
    holds a' (Z.of_nat (length (l1 ++ l2))) (l1 ++ l2).
Proof.
  intros [_ [r1 E1]] Hl [_ [r2 E2]]. simpl in E1. subst a. rewrite length_app, length_map in Hl. unfold memcpy_ints.
  destruct (Z.eqb_spec (Z.of_nat (length l2)) 0).
  { destruct l2; [|simpl in *; lia]. eexists. split; [done|]. rewrite app_nil_r. split; [done|]. by exists r1. }
  destruct b as [b|]; simpl in E2; [|by destruct l2]. subst b. cbn [mbind option_bind].
  rewrite bool_decide_true by (rewrite !length_app, !length_map; lia). eexists. split; [done|]. split; [done|]. exists []. cbn [default].
  rewrite !Nat2Z.id. replace (length l1) with (length (map Some l1)) at 1 by apply length_map. rewrite take_app_length.
  replace (length l2) with (length (map Some l2)) at 1 by apply length_map. rewrite take_app_length.
  rewrite drop_ge, !app_nil_r, map_app by (rewrite length_app, length_map; lia). done.
Qed.

Section Spec.
Context {K : Type} `{HK : ProbeKernel K} `{HL : !ProbeKernelLaws K}.

(** ** The invariant *)

(** A live link with the targets it was made for and the id each of them got. *)
Record entry := En { en_link : bpf_link_usdt; en_place : place; en_ts : list (usdt_target * Z) }.

Definition en_ids (e : entry) : list Z := arr_ids (spec_ids (en_link e)) (spec_cnt (en_link e)).
Definition en_ips (e : entry) : list Z := map (fun p => abs_ip p.1) (en_ts e).
Definition link_handles (l : bpf_link_usdt) : list Z :=
  option_list (multi_link l) ++ omap snd (take (Z.to_nat (uprobe_cnt l)) (uprobes l)).
Definition en_handles (e : entry) : list Z := link_handles (en_link e).

Definition multi_probe (p : usdt_target * Z) : probe := (rel_ip p.1, sema_off p.1, p.2).

(** The probe of a target of its own, with its id as the cookie where cookies exist. *)
Definition uprobe_ok (cookie : bool) (k : K) (pl : place) (up : Z * option Z) (p : usdt_target * Z) : Prop :=
  up.1 = abs_ip p.1 /\ exists h, up.2 = Some h /\ probes k h = Some (pl, [(rel_ip p.1, sema_off p.1, if cookie then p.2 else 0)]).

Record entry_ok (man : usdt_manager) (k : K) (e : entry) : Prop := {
  eo_ids : holds (spec_ids (en_link e)) (spec_cnt (en_link e)) (en_ids e);
  eo_spec : Forall (fun p => p.2 ∈ en_ids e /\ spec_map k p.2 = Some (spec p.1)) (en_ts e);
  eo_ip : man_bpf_cookie man = false -> Forall (fun p => ip_map k (abs_ip p.1) = Some p.2) (en_ts e);
  eo_uprobes : man_uprobe_multi man = false -> multi_link (en_link e) = None /\ uprobe_cnt (en_link e) = Z.of_nat (length (en_ts e)) /\
    Forall2 (uprobe_ok (man_bpf_cookie man) k (en_place e)) (take (length (en_ts e)) (uprobes (en_link e))) (en_ts e);
  eo_multi : man_uprobe_multi man = true -> uprobe_cnt (en_link e) = 0 /\
    forall h, multi_link (en_link e) = Some h -> probes k h = Some (en_place e, map multi_probe (en_ts e))
}.

Record inv (man : usdt_manager) (k : K) (free : list Z) (es : list entry) : Prop := {
  i_free : holds (free_spec_ids man) (free_spec_cnt man) free;
  i_nodup : NoDup (free ++ concat (map en_ids es));
  i_range : Forall (fun id => 0 <= id < next_free_spec_id man) (free ++ concat (map en_ids es));
  i_next : 0 <= next_free_spec_id man <= max_entries man /\ max_entries man <= 2 ^ 31;
  i_entries : Forall (entry_ok man k) es;
  i_handles : NoDup (concat (map en_handles es));
  i_ips : man_bpf_cookie man = false -> NoDup (concat (map en_ips es))
}.

(** The handles of a link are those of attached probes. *)
Lemma handles_live man k e : entry_ok man k e -> Forall (fun h => probes k h <> None) (en_handles e).
Proof.
  intros [_ _ _ Hu Hm]. unfold en_handles, link_handles. destruct (man_uprobe_multi man).
  - destruct (Hm eq_refl) as [-> Hh]. cbn [Z.to_nat take omap list_omap]. rewrite app_nil_r.
    destruct (multi_link (en_link e)) as [h|]; cbn [option_list]; [|by constructor]. repeat constructor. by rewrite (Hh h).
  - destruct (Hu eq_refl) as (-> & -> & Hf). rewrite Nat2Z.id. clear Hu Hm. revert Hf.
    generalize (take (length (en_ts e)) (uprobes (en_link e))) (en_ts e). intros ups' ts' Hf. induction Hf as [|[ip o] p ups ts Hup Hf IH]; [by constructor|].
    destruct Hup as [_ (h & Ho & Hp)]. simpl in Ho. subst o. cbn. constructor; [by rewrite Hp|done].
Qed.

(** An entry only depends on the part of the kernel it uses. *)
Lemma entry_ok_frame man man' k k' e : man_bpf_cookie man' = man_bpf_cookie man -> man_uprobe_multi man' = man_uprobe_multi man ->
  (forall p, p ∈ en_ts e -> spec_map k' p.2 = spec_map k p.2) ->
  (man_bpf_cookie man = false -> forall ip, ip ∈ en_ips e -> ip_map k' ip = ip_map k ip) ->
  (forall h, h ∈ en_handles e -> probes k' h = probes k h) -> entry_ok man k e -> entry_ok man' k' e.
Proof.
  intros Hc Hmu Hs Hi Hp He. destruct He as [H1 H2 H3 H4 H5]. split.
  - done.
  - apply Forall_forall. intros p Hp'. rewrite Forall_forall in H2. destruct (H2 p Hp') as [Hin Hsp]. split; [done|]. by rewrite Hs.
  - rewrite Hc. intros E. specialize (H3 E). specialize (Hi E). apply Forall_forall. intros p Hin. rewrite Forall_forall in H3.
    rewrite Hi; [by apply H3|]. apply list_elem_of_fmap. eauto.
  - rewrite Hc, Hmu. intros E. destruct (H4 E) as (Hml & Hcnt & Hf). split; [done|]. split; [done|].
    assert (forall up h, up ∈ take (length (en_ts e)) (uprobes (en_link e)) -> up.2 = Some h -> probes k' h = probes k h) as Hk.
    { intros up h Hin Hu. apply Hp. unfold en_handles, link_handles. rewrite Hcnt, Nat2Z.id. apply elem_of_app. right. apply list_elem_of_omap. eauto. }
    revert Hf Hk. clear. generalize (take (length (en_ts e)) (uprobes (en_link e))) (en_ts e). intros ups' ts' Hf Hk. induction Hf as [|up p ups ts [Hip (h & Hu & Hpr)] Hf IH]; constructor.
    + split; [done|]. exists h. split; [done|]. rewrite (Hk up h); [done|apply list_elem_of_here|done].
    + apply IH. intros up' h' Hin. apply Hk. by apply list_elem_of_further.
  - rewrite Hmu. intros E. destruct (H5 E) as [Hcnt Hh]. split; [done|]. intros h Hml. rewrite Hp; [by apply Hh|].
    unfold en_handles, link_handles. rewrite Hml. apply list_elem_of_here.
Qed.

Lemma elem_of_concat_map {A B} (f : A -> list B) es x : x ∈ concat (map f es) <-> exists e, e ∈ es /\ x ∈ f e.
Proof.
  rewrite list_elem_of_In, in_concat. split.
  - intros (l & Hl & Hx). apply in_map_iff in Hl as (e & <- & He). exists e. by rewrite !list_elem_of_In.
  - intros (e & He & Hx). exists (f e). split; [apply in_map|]; by apply list_elem_of_In.
Qed.

(** What two disjoint parts of a list without duplicates do not share. *)
Lemma nodup_head {A B} (f : A -> list B) e es x e' : NoDup (concat (map f (e :: es))) -> x ∈ f e -> e' ∈ es -> x ∉ f e'.
Proof. cbn [map concat]. intros (_ & Hd & _)%NoDup_app Hx He Hx'. apply (Hd x Hx), elem_of_concat_map. eauto. Qed.

(** A new element in front of lists without duplicates. *)
Lemma nodup_new {A B} (f : A -> list B) e es l x : NoDup (concat (map f (e :: es))) -> (forall e', e' ∈ e :: es -> x ∉ f e') -> l ≡ₚ x :: f e ->
  NoDup (l ++ concat (map f es)).
Proof.
  cbn [map concat]. intros Hd Hn ->. cbn [app]. constructor; [|done]. rewrite elem_of_app, elem_of_concat_map.
  intros [Hx|(e' & He & Hx)]; [apply (Hn e); [apply list_elem_of_here|done]|apply (Hn e'); [by apply list_elem_of_further|done]].
Qed.

(** Leaving out an entry, with its ids given back or not. *)
Lemma inv_drop man k free e es : inv man k free (e :: es) -> inv man k free es.
Proof.
  intros [H1 H2 H3 H4 H5 H6 H7]. cbn [map concat] in *. split; try done.
  - apply NoDup_app in H2 as (? & Hd & H2). apply NoDup_app. apply NoDup_app in H2 as (_ & _ & ?).
    split; [done|]. split; [|done]. intros x Hx Hx'. apply (Hd x Hx). apply elem_of_app. by right.
  - apply Forall_app in H3 as [? [_ ?]%Forall_app]. by apply Forall_app.
  - by inversion H5.
  - by apply NoDup_app in H6 as (_ & _ & ?).
  - intros Hc. specialize (H7 Hc). by apply NoDup_app in H7 as (_ & _ & ?).
Qed.

(** Entries may be listed in any order. *)
Lemma inv_perm man k free es es' : es ≡ₚ es' -> inv man k free es -> inv man k free es'.
Proof.
  intros Hp [H1 H2 H3 H4 H5 H6 H7].
  assert (forall B (f : entry -> list B), concat (map f es') ≡ₚ concat (map f es)) as Hc.
  { intros B f. clear -Hp. induction Hp; cbn [map concat]; [done|by rewrite IHHp|by rewrite !app_assoc, (Permutation_app_comm (f y))|by etransitivity]. }
  split; try done; rewrite ?Hc; try done. by rewrite <- Hp.
Qed.

(** Only slots that no entry uses may change, and nothing else. *)
Lemma entries_frame man man' k k' es : man_bpf_cookie man' = man_bpf_cookie man -> man_uprobe_multi man' = man_uprobe_multi man ->
  (forall e p, e ∈ es -> p ∈ en_ts e -> spec_map k' p.2 = spec_map k p.2) ->
  (man_bpf_cookie man = false -> forall e ip, e ∈ es -> ip ∈ en_ips e -> ip_map k' ip = ip_map k ip) ->
  (forall e h, e ∈ es -> h ∈ en_handles e -> probes k' h = probes k h) -> Forall (entry_ok man k) es -> Forall (entry_ok man' k') es.
Proof.
  intros Hc Hm Hs Hi Hp He. apply Forall_forall. intros e Hin. rewrite Forall_forall in He. apply (entry_ok_frame man man' k k'); auto.
  - intros p. by apply Hs.
  - intros E ip. by apply Hi.
  - intros h. by apply Hp.
Qed.

Lemma destroy_inner_spec k h : (forall x, spec_map (destroy_inner k h) x = spec_map k x) /\ (forall x, ip_map (destroy_inner k h) x = ip_map k x) /\
  (forall x, x ∉ option_list h -> probes (destroy_inner k h) x = probes k x) /\
  (forall x, x ∈ option_list h \/ probes k x = None -> probes (destroy_inner k h) x = None).
Proof.
  destruct h as [h|]; cbn [destroy_inner option_list].
  - destruct (link_close_law k h) as (H1 & H2 & H3). split; [done|]. split; [done|]. split; intros x Hx; rewrite H3; unfold upd.
    + destruct (Z.eqb_spec x h) as [->|]; [|done]. destruct Hx. apply list_elem_of_here.
    + destruct (Z.eqb_spec x h) as [->|]; [done|]. destruct Hx as [Hx%list_elem_of_singleton|Hx]; done.
  - split; [done|]. split; [done|]. split; [done|]. intros x [Hx|Hx]; [by apply elem_of_nil in Hx|done].
Qed.

Lemma detach_loop_spec n i cookie ups k : Z.of_nat n + i <= Z.of_nat (length ups) -> 0 <= i ->
  exists k', detach_loop n i cookie ups k = Some k' /\
  let part := take n (drop (Z.to_nat i) ups) in
  (forall x, spec_map k' x = spec_map k x) /\
  (forall x, x ∉ omap snd part -> probes k' x = probes k x) /\
  (forall x, x ∈ omap snd part \/ probes k x = None -> probes k' x = None) /\
  (forall x, ip_map k' x = if cookie then ip_map k x else if bool_decide (x ∈ map fst part) then None else ip_map k x).
Proof.
  revert i k. induction n as [|n IH]; intros i k Hn Hi; cbn [detach_loop].
  { exists k. split; [done|]. cbn [take omap list_omap map]. split; [done|]. split; [done|].
    split; [intros x [Hx|Hx]; [by apply elem_of_nil in Hx|done]|]. intros x. destruct cookie; [done|].
    rewrite bool_decide_false; [done|]. apply not_elem_of_nil. }
  destruct (zget_is_Some ups i) as [[ip h] Hg]; [lia|]. rewrite Hg. cbn [mbind option_bind]. cbv zeta.
  destruct (destroy_inner_spec k h) as (D1 & D2 & D3 & D4). set (k1 := destroy_inner k h) in *.
  set (k2 := if cookie then k1 else (ip_delete_elem k1 ip).2).
  assert ((forall x, spec_map k2 x = spec_map k1 x) /\ (forall x, probes k2 x = probes k1 x) /\
          (forall x, ip_map k2 x = if cookie then ip_map k1 x else upd (ip_map k1) ip None x)) as (E1 & E2 & E3).
  { subst k2. destruct cookie; [done|]. destruct (ip_delete_elem k1 ip) as [e k2] eqn:Ed. apply ip_delete_law in Ed as (? & ? & ?). done. }
  destruct (IH (i + 1) k2) as (k' & Hl & H1 & H2 & H3 & H4); [lia..|]. exists k'. split; [done|]. cbv zeta.
  apply zget_Some in Hg as [_ Hg]. rewrite (drop_S ups (ip, h) (Z.to_nat i)) by done. replace (S (Z.to_nat i)) with (Z.to_nat (i + 1)) by lia.
  cbn [take]. set (part := take n (drop (Z.to_nat (i + 1)) ups)) in *.
  assert (omap snd ((ip, h) :: part) = option_list h ++ omap snd part) as -> by (destruct h; done). cbn [map fst].
  split; [intros x; by rewrite H1, E1, D1|]. split; [|split].
  - intros x [Hx1 Hx2]%not_elem_of_app. by rewrite H2, E2, D3.
  - intros x Hx. apply H3. rewrite E2. rewrite elem_of_app in Hx. destruct Hx as [[Hx|Hx]|Hx]; [right; apply D4; auto|by left|right; apply D4; auto].
  - intros x. rewrite H4, E3. destruct cookie; [by rewrite D2|]. unfold upd.
    destruct (Z.eqb_spec x ip) as [->|].
    + rewrite (bool_decide_true (ip ∈ ip :: _)) by apply list_elem_of_here. by case_bool_decide.
    + rewrite D2. rewrite (bool_decide_ext (x ∈ ip :: map fst part) (x ∈ map fst part)); [done|]. rewrite elem_of_cons. split; [by intros [?|?]|by right].
Qed.

Lemma nodup_range (l : list Z) n : 0 <= n -> NoDup l -> Forall (fun x => 0 <= x < n) l -> Z.of_nat (length l) <= n.
Proof.
  intros Hn Hd Hr. assert (l ⊆+ seqZ 0 n) as Hs.
  { apply NoDup_submseteq; [done|]. intros x Hx. rewrite Forall_forall in Hr. apply elem_of_seqZ. specialize (Hr x Hx). lia. }
  apply submseteq_length in Hs. rewrite length_seqZ in Hs. lia.
Qed.

Lemma inv_cnt man k free e es : inv man k free (e :: es) -> Z.of_nat (length free + length (en_ids e)) <= 2 ^ 31.
Proof.
  intros [_ H2 H3 H4 _ _ _]. cbn [map concat] in *. pose proof (nodup_range _ _ (proj1 (proj1 H4)) H2 H3) as H. rewrite !length_app in H. lia.
Qed.

(** The list of free ids, returned by the link or lost with a failing allocation. *)
Lemma return_ids al man k free e es : inv man k free (e :: es) -> exists ids' cnt' free',
  return_spec_ids al man (en_link e) = Some (set_free ids' cnt' man) /\ holds ids' cnt' free' /\ (free' = free ++ en_ids e \/ free' = free).
Proof.
  intros Hi. pose proof (inv_cnt _ _ _ _ _ Hi) as Hb. destruct Hi as [Hfree _ _ _ He _ _]. inversion He as [|?? [Hids _ _ _ _] _]; subst.
  unfold return_spec_ids. pose proof Hfree as [Hfc _]. pose proof Hids as [Hic _]. set (ids := en_ids e) in *.
  destruct (free_spec_ids man) as [c|] eqn:Ef.
  2: { exists (spec_ids (en_link e)), (spec_cnt (en_link e)), ids. split; [done|]. split; [done|].
       left. destruct Hfree as [_ [r E]]. simpl in E. by destruct free. }
  cbv zeta. rewrite Hfc, Hic in *. rewrite wrap_small by lia. rewrite <- Nat2Z.inj_add. set (n := Z.of_nat (length free + length ids)) in *.
  destruct (realloc_ints al (Some c) n) as [a|] eqn:Er.
  - rewrite bool_decide_true by done. cbn [orb].
    destruct (realloc_holds al (Some c) free n a) as [Ha Hl]; [done|lia|done|].
    destruct (memcpy_holds a (spec_ids (en_link e)) free ids) as (a' & -> & Ha'); [done|lia|done|]. cbn [mbind option_bind].
    exists a', n, (free ++ ids). split; [done|]. split; [|by left]. by rewrite length_app in Ha'.
  - rewrite bool_decide_false by naive_solver. cbn [orb]. destruct (Z.eqb_spec n 0) as [E0|].
    + assert (length free = 0 /\ length ids = 0)%nat as [E1 E2] by lia. destruct free, ids; try done. cbn.
      exists None, n, []. rewrite E0. split; [done|]. split; [|by left]. split; [done|]. by exists [].
    + exists (Some c), (Z.of_nat (length free)), free. split; [|by auto].
      destruct man; simpl in *. by subst.
Qed.

Lemma entry_uprobes man k e : entry_ok man k e -> (Z.to_nat (uprobe_cnt (en_link e)) <= length (uprobes (en_link e)))%nat /\
  (man_uprobe_multi man = false -> map fst (take (Z.to_nat (uprobe_cnt (en_link e))) (uprobes (en_link e))) = en_ips e) /\
  (man_uprobe_multi man = true -> take (Z.to_nat (uprobe_cnt (en_link e))) (uprobes (en_link e)) = []).
Proof.
  intros [_ _ _ Hu Hm]. destruct (man_uprobe_multi man).
  - destruct (Hm eq_refl) as [-> _]. split; [simpl; lia|done].
  - destruct (Hu eq_refl) as (_ & -> & Hf). rewrite Nat2Z.id. pose proof (Forall2_length _ _ _ Hf) as Hl. rewrite length_take in Hl.
    split; [lia|]. split; [|done]. intros _. unfold en_ips. revert Hf. clear. generalize (take (length (en_ts e)) (uprobes (en_link e))) (en_ts e).
    intros ups' ts' Hf. induction Hf as [|up p ups ts [Hip _] Hf IH]; [done|]. cbn [map]. by f_equal.
Qed.

(** Detaching a link never goes wrong, returns its ids (unless memory is short) and leaves the other links as they are. *)
Lemma detach_inv al man k free e es : inv man k free (e :: es) ->
  exists man' k' free', bpf_link_usdt_detach al man (en_link e) k = Some (man', k') /\ inv man' k' free' es /\
    (exists ids' cnt', man' = set_free ids' cnt' man).
Proof.
  intros Hi. pose proof Hi as [Hfree Hnd Hrg Hnx He Hh Hip]. inversion He as [|?? Heo Hes]; subst. pose proof (entry_uprobes _ _ _ Heo) as (Hlen & Hips & Hnone).
  unfold bpf_link_usdt_detach. cbv zeta. destruct (destroy_inner_spec k (multi_link (en_link e))) as (D1 & D2 & D3 & D4).
  set (k1 := destroy_inner k (multi_link (en_link e))) in *.
  destruct (detach_loop_spec (Z.to_nat (uprobe_cnt (en_link e))) 0 (man_bpf_cookie man) (uprobes (en_link e)) k1) as (k' & -> & L1 & L2 & L3 & L4); [lia..|].
  cbn [mbind option_bind]. change (Z.to_nat 0) with 0%nat in *. rewrite drop_0 in *. set (part := take _ _) in *.
  destruct (return_ids al man k free e es Hi) as (ids' & cnt' & free' & -> & Hfree' & Hf'). cbn [mbind option_bind].
  eexists _, k', free'. split; [done|].
  split; [|by exists ids', cnt']. cbn [map concat] in Hnd, Hrg, Hh. split; cbn; try done.
  - destruct Hf' as [->| ->]; [by rewrite <- app_assoc|by apply (i_nodup _ _ _ _ (inv_drop _ _ _ _ _ Hi))].
  - destruct Hf' as [->| ->]; [by rewrite <- app_assoc|by apply (i_range _ _ _ _ (inv_drop _ _ _ _ _ Hi))].
  - apply (entries_frame man _ k); try done.
    + intros e' id _ _. by rewrite L1, D1.
    + intros Hc e' ip He' Hin. rewrite L4, Hc, D2. rewrite bool_decide_false; [done|]. destruct (man_uprobe_multi man).
      * rewrite Hnone by done. cbn [map]. apply not_elem_of_nil.
      * rewrite Hips by done. intros Hx. by apply (nodup_head en_ips e es ip e' (Hip Hc) Hx He').
    + intros e' h He' Hin. assert (h ∉ en_handles e) as Hn. { intros Hx. by apply (nodup_head en_handles e es h e' Hh Hx He'). }
      unfold en_handles, link_handles in Hn. apply not_elem_of_app in Hn as [Hn1 Hn2]. rewrite L2 by done. by apply D3.
  - by apply NoDup_app in Hh as (_ & _ & ?).
  - intros Hc. specialize (Hip Hc). by apply NoDup_app in Hip as (_ & _ & ?).
Qed.

(** ** Allocating ids *)
Lemma entry_ok_more man k l pl ts ids' cnt' new : entry_ok man k (En l pl ts) -> holds ids' cnt' (en_ids (En l pl ts) ++ new) ->
  entry_ok man k (En (set_ids ids' cnt' l) pl ts).
Proof.
  intros [H1 H2 H3 H4 H5] Hh. pose proof (holds_ids _ _ _ Hh) as Hi. split; cbn [en_link en_place en_ts] in *; try done.
  - unfold en_ids at 1. cbn [en_link spec_ids spec_cnt set_ids]. by rewrite Hi.
  - eapply Forall_impl; [exact H2|]. intros p [Hin Hs]. split; [|done]. unfold en_ids. cbn [en_link spec_ids spec_cnt set_ids].
    rewrite Hi. apply elem_of_app. by left.
Qed.

(** The current link gets more ids; the manager changes its free ids or its next id. *)
Lemma inv_more man man' k free free' l pl ts es ids' cnt' new : inv man k free (En l pl ts :: es) ->
  man_bpf_cookie man' = man_bpf_cookie man -> man_uprobe_multi man' = man_uprobe_multi man ->
  holds (free_spec_ids man') (free_spec_cnt man') free' -> holds ids' cnt' (en_ids (En l pl ts) ++ new) ->
  (0 <= next_free_spec_id man' <= max_entries man' /\ max_entries man' <= 2 ^ 31) ->
  free' ++ (en_ids (En l pl ts) ++ new) ++ concat (map en_ids es) ≡ₚ
    (if decide (next_free_spec_id man' = next_free_spec_id man) then [] else [next_free_spec_id man]) ++ free ++ en_ids (En l pl ts) ++ concat (map en_ids es) ->
  next_free_spec_id man <= next_free_spec_id man' ->
  inv man' k free' (En (set_ids ids' cnt' l) pl ts :: es).
Proof.
  intros [H1 H2 H3 H4 H5 H6 H7] Hc Hm Hf Hh Hn Hp Hle. pose proof (holds_ids _ _ _ Hh) as Hi. cbn [map concat] in *.
  assert (en_ids (En (set_ids ids' cnt' l) pl ts) = en_ids (En l pl ts) ++ new) as Hids by exact Hi.
  assert (Forall (fun id => 0 <= id < next_free_spec_id man') (free ++ en_ids (En l pl ts) ++ concat (map en_ids es))) as H3'.
  { eapply Forall_impl; [exact H3|]. intros id; cbv beta; lia. }
  split; try done; cbn [map concat]; rewrite ?Hids.
  - rewrite Hp. destruct (decide _); [done|]. cbn [app]. constructor; [|done]. intros Hin. rewrite Forall_forall in H3. apply H3 in Hin. lia.
  - rewrite Hp. destruct (decide _); [done|]. apply Forall_app. split; [repeat constructor; lia|done].
  - assert (Forall (entry_ok man' k) (En l pl ts :: es)) as He by (apply (entries_frame man man' k k); try done).
    inversion He as [|?? Hx Hes]; subst. constructor; [|done]. by eapply entry_ok_more.
  - by rewrite Hc.
Qed.

Definition hash_wf (data : list Z) (m : hashmap) : Prop := map_wf (specs_hash_fn data) (specs_equal_fn data) m.

(** The cache holds ids of the link whose slots have the spec of a target with that text. *)
Definition hash_ok (data : list Z) (k : K) (ids : list Z) (all : list usdt_target) (m : hashmap) : Prop :=
  hash_wf data m /\ forall p e, contents (specs_equal_fn data) m p = Some e -> value e ∈ ids /\
    exists t, t ∈ all /\ arg_str data (spec_str t) = arg_str data p /\ spec_map k (value e) = Some (spec t).

(** What [cache_id] does: an error and no id taken, or the id is the link's and cached. *)
Lemma cache_id_spec al data (st : @attaching K) key id commit a ids : hash_wf data (a_hash st) -> contents (specs_equal_fn data) (a_hash st) key = None ->
  spec_ids (a_link st) = Some a -> spec_cnt (a_link st) = Z.of_nat (length ids) -> holds (Some a) (Z.of_nat (length ids)) ids ->
  Z.of_nat (length a) = Z.of_nat (length ids) + 1 -> Z.of_nat (length ids) < 2 ^ 32 ->
  exists err st', cache_id al data st key id commit = Some (err, st') /\ a_k st' = a_k st /\ a_probes st' = a_probes st /\
  ((err <> 0 /\ a_man st' = a_man st /\ a_link st' = a_link st) \/
   (err = 0 /\ a_man st' = commit (a_man st) /\ hash_wf data (a_hash st') /\
    (forall p e, contents (specs_equal_fn data) (a_hash st') p = Some e ->
       (arg_str data key = arg_str data p /\ value e = id) \/ contents (specs_equal_fn data) (a_hash st) p = Some e) /\
    exists ids', a_link st' = set_ids ids' (Z.of_nat (length (ids ++ [id]))) (a_link st) /\ holds ids' (Z.of_nat (length (ids ++ [id]))) (ids ++ [id]))).
Proof.
  intros Hwf Hnone Hsp Hcnt Hh Hlen Hb. unfold cache_id.
  destruct (hashmap_insert_ref (specs_hash_fn data) (specs_equal_fn data) (al [1]) (al [2]) (a_hash st) key id HASHMAP_ADD Hwf)
    as (err & m' & ok & ov & -> & Hwf' & Hr); [done|]. cbn [mbind option_bind]. rewrite Hnone in Hr. destruct Hr as (_ & _ & _ & Hr).
  destruct Hr as [(-> & _ & _)|(-> & Hup & _)].
  { eexists _, _. split; [done|]. split; [done|]. split; [done|]. by left. }
  change (negb (0 =? 0)) with false. cbv iota zeta. rewrite Hsp, Hcnt.
  destruct (write_holds a ids id Hh Hlen) as (a' & -> & Ha'). cbn [mbind option_bind].
  eexists _, _. split; [done|]. split; [done|]. split; [done|]. right. split; [done|]. split; [done|]. split; [done|]. split.
  - intros p e. cbn [a_hash]. rewrite Hup. unfold specs_equal_fn at 1. case_bool_decide as Hk; [|by right]. intros [= <-]. by left.
  - exists a'. rewrite wrap_small by lia. rewrite length_app in *. cbn [length] in *. rewrite Nat2Z.inj_add in *. done.
Qed.

(** The outcome of [allocate_spec_id]: the invariant is kept in any case; without an error the id belongs to the link, and it
    is an id whose slot has the right spec or one that no target had before. *)
Record allocated (data : list Z) (all : list usdt_target) (t : usdt_target) (pl : place) (ts : list (usdt_target * Z)) (es : list entry)
    (st : @attaching K) (err : Z) (st' : @attaching K) (id : Z) (is_new : bool) : Prop := {
  al_k : a_k st' = a_k st;
  al_probes : a_probes st' = a_probes st;
  al_link : exists ids' cnt', a_link st' = set_ids ids' cnt' (a_link st);
  al_man : man_bpf_cookie (a_man st') = man_bpf_cookie (a_man st) /\ man_uprobe_multi (a_man st') = man_uprobe_multi (a_man st);
  al_inv : exists free', inv (a_man st') (a_k st) free' (En (a_link st') pl ts :: es);
  al_id : err = 0 -> id ∈ en_ids (En (a_link st') pl ts) /\ hash_wf data (a_hash st') /\
    (if is_new then id ∉ en_ids (En (a_link st) pl ts) else spec_map (a_k st) id = Some (spec t)) /\
    (forall x, x ∈ en_ids (En (a_link st) pl ts) -> x ∈ en_ids (En (a_link st') pl ts)) /\
    forall p e, contents (specs_equal_fn data) (a_hash st') p = Some e ->
      (is_new = true /\ arg_str data (spec_str t) = arg_str data p /\ value e = id) \/ contents (specs_equal_fn data) (a_hash st) p = Some e
}.

Lemma last_case (l : list Z) : l = [] \/ exists l' x, l = l' ++ [x].
Proof. destruct (decide (l = [])); [by left|]. right. destruct (exists_last n) as (l' & x & ->). eauto. Qed.

(** A new id, taken by [commit]. *)
Lemma cache_allocated al data all t pl ts es st free a id commit free' ids' :
  hash_wf data (a_hash st) -> contents (specs_equal_fn data) (a_hash st) (spec_str t) = None ->
  inv (a_man st) (a_k st) free (En (a_link st) pl ts :: es) ->
  ids' = en_ids (En (a_link st) pl ts) ++ [id] ->
  holds (Some a) (spec_cnt (a_link st)) (en_ids (En (a_link st) pl ts)) -> Z.of_nat (length a) = spec_cnt (a_link st) + 1 ->
  man_bpf_cookie (commit (a_man st)) = man_bpf_cookie (a_man st) -> man_uprobe_multi (commit (a_man st)) = man_uprobe_multi (a_man st) ->
  (forall arr cnt, holds arr cnt ids' -> inv (commit (a_man st)) (a_k st) free' (En (set_ids arr cnt (a_link st)) pl ts :: es)) ->
  id ∉ en_ids (En (a_link st) pl ts) ->
  exists err st', cache_id al data (Attaching (a_man st) (a_k st) (a_hash st) (set_ids (Some a) (spec_cnt (a_link st)) (a_link st)) (a_probes st))
      (spec_str t) id commit = Some (err, st') /\ allocated data all t pl ts es st err st' id (err =? 0).
Proof.
  intros Hwf Hnone Hi -> Ha Hla Hc Hm Hcommit Hnew. set (ids := en_ids _) in *. pose proof Ha as [Hcnt _].
  pose proof (inv_cnt _ _ _ _ _ Hi) as Hb. fold ids in Hb.
  pose proof (i_entries _ _ _ _ Hi) as He. inversion He as [|?? Hcur _]; subst.
  set (st0 := Attaching _ _ _ _ _).
  destruct (cache_id_spec al data st0 (spec_str t) id commit a ids) as (err & st' & Hcache & Hk & Hpr & Hr); try done; [by rewrite <- Hcnt|lia|lia|].
  exists err, st'. split; [done|]. destruct Hr as [(Herr & Hman & Hlink)|(-> & Hman & Hwf' & Hcont & arr & Hlink & Harr)].
  - split; [by rewrite Hk|by rewrite Hpr|rewrite Hlink; by eexists _, _|by rewrite Hman| |done].
    exists free. rewrite Hman, Hlink. cbn [a_man a_link st0]. eapply (inv_more (a_man st) (a_man st) (a_k st) free free _ _ _ _ _ _ []); try done.
    + apply (i_free _ _ _ _ Hi).
    + by rewrite app_nil_r.
    + apply (i_next _ _ _ _ Hi).
    + rewrite decide_True by done. by rewrite app_nil_r.
  - assert (en_ids (En (a_link st') pl ts) = ids ++ [id]) as Hids.
    { unfold en_ids. rewrite Hlink. cbn [en_link spec_ids spec_cnt set_ids]. by apply holds_ids. }
    split; [by rewrite Hk|by rewrite Hpr|rewrite Hlink; by eexists _, _|by rewrite Hman| |].
    + exists free'. rewrite Hman, Hlink. apply (Hcommit arr). done.
    + intros _. rewrite Hids. split; [apply elem_of_app; right; apply list_elem_of_here|]. split; [done|]. split; [done|].
      split; [intros x Hx; apply elem_of_app; by left|]. intros p e Hp. apply Hcont in Hp as [[? ?]|?]; [by left|by right].
Qed.

Lemma allocate_spec al data all t pl ts es st free : hash_ok data (a_k st) (en_ids (En (a_link st) pl ts)) all (a_hash st) ->
  targets_agree data all -> t ∈ all -> inv (a_man st) (a_k st) free (En (a_link st) pl ts :: es) ->
  exists err st' id is_new, allocate_spec_id al data st t = Some (err, st', id, is_new) /\ allocated data all t pl ts es st err st' id is_new.
Proof.
  intros [Hwf Hh] Hag Ht Hi. unfold allocate_spec_id. rewrite (hashmap_find_spec _ _ _ _ Hwf). cbn [mbind option_bind].
  set (ids := en_ids (En (a_link st) pl ts)) in *. pose proof (i_entries _ _ _ _ Hi) as He. inversion He as [|?? Hcur _]; subst.
  pose proof (eo_ids _ _ _ Hcur) as Hids. cbn [en_link] in Hids. fold ids in Hids. pose proof Hids as [Hcnt _].
  pose proof (inv_cnt _ _ _ _ _ Hi) as Hb. fold ids in Hb. pose proof Hi as [Hfree Hnd Hrg Hnx _ _ _]. cbn [map concat] in Hnd, Hrg. fold ids in Hnd, Hrg.
  assert (forall err, err <> 0 -> allocated data all t pl ts es st err st 0 false) as Hfail.
  { intros err Herr. split; try done; [by exists (spec_ids (a_link st)), (spec_cnt (a_link st)); destruct (a_link st)|by exists free]. }
  destruct (contents (specs_equal_fn data) (a_hash st) (spec_str t)) as [e|] eqn:Ec; cbn [fmap option_fmap option_map].
  - destruct (Hh _ _ Ec) as (Hin & t' & Ht' & Hs & Hsp).
    assert (0 <= value e < 2 ^ 31) as Hr.
    { rewrite Forall_forall in Hrg. specialize (Hrg (value e)). rewrite !elem_of_app in Hrg. specialize (Hrg (or_intror (or_introl Hin))). cbv beta in Hrg. lia. }
    eexists _, _, _, _. split; [done|]. rewrite swrap_small by lia. split; try done.
    + exists (spec_ids (a_link st)), (spec_cnt (a_link st)). by destruct (a_link st).
    + by exists free.
    + intros _. split; [done|]. split; [done|]. split; [by rewrite (Hag t t' Ht Ht' (eq_sym Hs))|]. split; [done|]. by right.
  - destruct (realloc_ints (al [0]) (spec_ids (a_link st)) (u64 (spec_cnt (a_link st) + 1))) as [a|] eqn:Er.
    2: { eexists _, _, _, _. split; [done|]. by apply Hfail. }
    cbv zeta. rewrite Hcnt in Er. rewrite wrap_small in Er by lia. destruct (realloc_holds (al [0]) (spec_ids (a_link st)) ids (Z.of_nat (length ids) + 1) a) as [Ha Hla]; [by rewrite <- Hcnt|lia|done|].
    rewrite <- Hcnt in Ha, Hla. destruct (Z.eqb_spec (free_spec_cnt (a_man st)) 0) as [Ef|Ef]; cbn [negb].
    + rewrite Z.geb_leb. destruct (Z.leb_spec (max_entries (a_man st)) (next_free_spec_id (a_man st))) as [|Hlt].
      { eexists _, _, _, _. split; [done|]. split; try done; cbn [a_man a_k a_link]; [by eexists _, _|]. exists free.
        eapply (inv_more (a_man st) (a_man st) (a_k st) free free _ _ _ _ _ _ []); try done; [by rewrite app_nil_r|by rewrite decide_True, app_nil_r by done]. }
      rewrite swrap_small by lia. assert (next_free_spec_id (a_man st) ∉ free ++ ids ++ concat (map en_ids es)) as Hn.
      { intros Hin. rewrite Forall_forall in Hrg. apply Hrg in Hin. lia. }
      edestruct (cache_allocated al data all t pl ts es st free a (next_free_spec_id (a_man st))
        (fun m => set_next (u64 (next_free_spec_id m + 1)) m) free) as (err & st' & -> & Hall); try done; fold ids; try done.
      { intros arr cnt Harr. cbv beta. rewrite wrap_small by lia. eapply inv_more; try done; cbn [next_free_spec_id set_next max_entries]; [lia| |lia].
        rewrite decide_False by lia. fold ids. rewrite <- !app_assoc. cbn [app]. rewrite (app_assoc free), (Permutation_app_comm (free ++ ids)).
        cbn [app]. constructor. by rewrite Permutation_app_comm, <- app_assoc. }
      { rewrite !not_elem_of_app in Hn. apply Hn. }
      cbn [mbind option_bind]. eexists _, _, _, _. split; [done|]. done.
    + destruct (last_case free) as [->|(free0 & x & ->)]; [destruct Hfree as [Hc0 _]; simpl in Hc0; lia|].
      pose proof Hfree as [Hfc _]. rewrite Hfc in Hfree. rewrite Hfc, (read_last _ free0 x) by done. cbn [mbind option_bind].
      assert (x ∉ ids) as Hx. { apply NoDup_app in Hnd as (_ & Hd & _). specialize (Hd x). rewrite !elem_of_app in Hd. intros Hin. apply Hd; [right; apply list_elem_of_here|by left]. }
      edestruct (cache_allocated al data all t pl ts es st (free0 ++ [x]) a x
        (fun m => set_free (free_spec_ids m) (free_spec_cnt m - 1) m) free0) as (err & st' & Hcache & Hall); try done; fold ids; try done.
      { intros arr cnt Harr. cbv beta. eapply inv_more; try done; cbn [free_spec_ids free_spec_cnt set_free next_free_spec_id max_entries]; try done; [|..].
        - rewrite Hfc, length_app. cbn [length]. replace (Z.of_nat (length free0 + 1) - 1) with (Z.of_nat (length free0)) by lia. by eapply holds_shrink.
        - rewrite decide_True by done. fold ids. cbn [app]. rewrite <- !app_assoc. cbn [app]. apply Permutation_app_head.
          change (x :: ids ++ concat (map en_ids es)) with ((x :: ids) ++ concat (map en_ids es)).
          rewrite (Permutation_cons_append ids x), <- app_assoc. done. }
      rewrite Hcache. cbn [mbind option_bind]. eexists _, _, _, _. done.
Qed.

(** ** Attaching *)

(** The kernel may change where no entry looks. *)
Lemma inv_frame man k k' free es :
  (forall e p, e ∈ es -> p ∈ en_ts e -> spec_map k' p.2 = spec_map k p.2) ->
  (man_bpf_cookie man = false -> forall e ip, e ∈ es -> ip ∈ en_ips e -> ip_map k' ip = ip_map k ip) ->
  (forall e h, e ∈ es -> h ∈ en_handles e -> probes k' h = probes k h) -> inv man k free es -> inv man k' free es.
Proof. intros Hs Hi Hp [H1 H2 H3 H4 H5 H6 H7]. split; try done. by apply (entries_frame man man k k'). Qed.

Lemma inv_ip_used man k free es e ip : inv man k free es -> man_bpf_cookie man = false -> e ∈ es -> ip ∈ en_ips e -> is_Some (ip_map k ip).
Proof.
  intros [_ _ _ _ He _ _] Hc Hin Hip. rewrite Forall_forall in He. pose proof (eo_ip _ _ _ (He e Hin) Hc) as Hf. rewrite Forall_forall in Hf.
  apply list_elem_of_fmap in Hip as (p & -> & Hp). rewrite (Hf p Hp). eauto.
Qed.

Lemma inv_handle_used man k free es e h : inv man k free es -> e ∈ es -> h ∈ en_handles e -> probes k h <> None.
Proof.
  intros [_ _ _ _ He _ _] Hin Hh. rewrite Forall_forall in He. pose proof (handles_live _ _ _ (He e Hin)) as Hf. rewrite Forall_forall in Hf. by apply Hf.
Qed.

Lemma inv_id_used man k free es e p : inv man k free es -> e ∈ es -> p ∈ en_ts e -> p.2 ∈ en_ids e.
Proof. intros [_ _ _ _ He _ _] Hin Hp. rewrite Forall_forall in He. pose proof (eo_spec _ _ _ (He e Hin)) as Hf. rewrite Forall_forall in Hf. by apply Hf. Qed.

(** Writing the slot of a new id. *)
Lemma inv_write_slot man k k' free l pl ts es id sp : inv man k free (En l pl ts :: es) -> id ∈ en_ids (En l pl ts) ->
  (forall p, p ∈ ts -> p.2 <> id) -> specs_update_elem k id sp = (0, k') -> inv man k' free (En l pl ts :: es) /\ spec_map k' id = Some sp.
Proof.
  intros Hi Hid Hts Hu. apply specs_update_law in Hu as (H1 & H2 & H3). cbn [Z.eqb] in H1. unfold upd in H1. split; [|by rewrite H1, Z.eqb_refl].
  apply (inv_frame man k); try done. intros e p He Hp. rewrite H1. destruct (Z.eqb_spec p.2 id) as [E|]; [|done].
  apply elem_of_cons in He as [->|He]; [by destruct (Hts p Hp)|]. pose proof (i_nodup _ _ _ _ Hi) as (_ & _ & Hn)%NoDup_app.
  destruct (nodup_head en_ids (En l pl ts) es id e Hn Hid He). rewrite <- E. eapply inv_id_used; [exact Hi|by apply list_elem_of_further|done].
Qed.

(** A failed update leaves everything. *)
Lemma inv_failed_spec man k k' free es id sp e : inv man k free es -> specs_update_elem k id sp = (e, k') -> e <> 0 -> inv man k' free es.
Proof.
  intros Hi Hu He. apply specs_update_law in Hu as (H1 & H2 & H3). destruct (Z.eqb_spec e 0); [done|]. by apply (inv_frame man k).
Qed.

(** Entering the address of a target. *)
Lemma inv_write_ip man k k' free es ip id : man_bpf_cookie man = false -> inv man k free es -> ip_update_noexist k ip id = (0, k') ->
  inv man k' free es /\ ip_map k' ip = Some id /\ (forall x, spec_map k' x = spec_map k x) /\ (forall e, e ∈ es -> ip ∉ en_ips e).
Proof.
  intros Hc Hi Hu. apply ip_update_law in Hu as (Hn & _ & H1 & H2 & H3). specialize (Hn eq_refl). cbn [Z.eqb] in H1. unfold upd in H1.
  assert (forall e, e ∈ es -> ip ∉ en_ips e) as Hnew.
  { intros e He Hin. destruct (inv_ip_used _ _ _ _ _ _ Hi Hc He Hin). congruence. }
  split; [|split; [by rewrite H1, Z.eqb_refl|done]].
  apply (inv_frame man k); try done. intros _ e x He Hx. rewrite H1. destruct (Z.eqb_spec x ip) as [->|]; [|done]. by destruct (Hnew e He).
Qed.

Lemma inv_failed_ip man k k' free es ip id e : inv man k free es -> ip_update_noexist k ip id = (e, k') -> e <> 0 -> inv man k' free es.
Proof.
  intros Hi Hu He. apply ip_update_law in Hu as (_ & _ & H1 & H2 & H3). destruct (Z.eqb_spec e 0); [done|]. by apply (inv_frame man k).
Qed.

(** The address of a target is new where addresses are entered. *)
Definition ip_new (man : usdt_manager) (k : K) (es : list entry) (t : usdt_target) (id : Z) : Prop :=
  man_bpf_cookie man = false -> ip_map k (abs_ip t) = Some id /\ forall e, e ∈ es -> abs_ip t ∉ en_ips e.


Lemma ips_add ts t id l pl : en_ips (En l pl (ts ++ [(t, id)])) = map (fun p => abs_ip p.1) ts ++ [abs_ip t].
Proof. unfold en_ips. cbn [en_ts]. by rewrite map_app. Qed.

Lemma nodup_ips_add man k l pl ts es t id (l' : bpf_link_usdt) : ip_new man k (En l pl ts :: es) t id ->
  (man_bpf_cookie man = false -> NoDup (concat (map en_ips (En l pl ts :: es)))) ->
  man_bpf_cookie man = false -> NoDup (concat (map en_ips (En l' pl (ts ++ [(t, id)]) :: es))).
Proof.
  intros Hip Hnd Hc. cbn [map concat]. apply (nodup_new en_ips (En l pl ts) es _ (abs_ip t) (Hnd Hc)); [by apply Hip|].
  rewrite ips_add. by rewrite <- Permutation_cons_append.
Qed.

(** The common part of an entry with one more target. *)
Lemma entry_add man k l pl ts t id : entry_ok man k (En l pl ts) -> id ∈ en_ids (En l pl ts) -> spec_map k id = Some (spec t) ->
  (man_bpf_cookie man = false -> ip_map k (abs_ip t) = Some id) ->
  Forall (fun p => p.2 ∈ en_ids (En l pl ts) /\ spec_map k p.2 = Some (spec p.1)) (ts ++ [(t, id)]) /\
  (man_bpf_cookie man = false -> Forall (fun p => ip_map k (abs_ip p.1) = Some p.2) (ts ++ [(t, id)])).
Proof.
  intros [H1 H2 H3 _ _] Hid Hs Hip. cbn [en_ts] in *. split; [|intros Hc]; (apply Forall_app; split; [by auto|repeat constructor; auto]).
Qed.

Lemma inv_add_multi man k free l pl ts es t id : man_uprobe_multi man = true -> multi_link l = None -> inv man k free (En l pl ts :: es) ->
  id ∈ en_ids (En l pl ts) -> spec_map k id = Some (spec t) -> ip_new man k (En l pl ts :: es) t id ->
  inv man k free (En l pl (ts ++ [(t, id)]) :: es).
Proof.
  intros Hm Hl Hi Hid Hs Hip. pose proof Hi as [H1 H2 H3 H4 H5 H6 H7]. split; try done.
  - inversion H5 as [|?? He Hes]; subst. constructor; [|done].
    destruct (entry_add man k l pl ts t id He Hid Hs) as [A B]; [intros Hc; by apply Hip|]. destruct He as [E1 _ _ _ E5]. split; try done.
    + by rewrite Hm.
    + intros _. destruct (E5 Hm) as [Hcnt _]. split; [done|]. cbn [en_link]. by rewrite Hl.
  - by eapply nodup_ips_add.
Qed.

Lemma take_insert_last {A} (l : list A) n x : (n < length l)%nat -> take (S n) (<[n := x]> l) = take n l ++ [x].
Proof.
  intros Hn. rewrite (take_S_r _ _ x) by by apply list_lookup_insert_eq. by rewrite take_insert_ge by lia.
Qed.

Lemma inv_add_uprobe man k k' free l pl ts es t id h ups : man_uprobe_multi man = false -> inv man k free (En l pl ts :: es) ->
  id ∈ en_ids (En l pl ts) -> spec_map k id = Some (spec t) -> ip_new man k (En l pl ts :: es) t id ->
  attach_uprobe_opts k pl (rel_ip t, sema_off t, if man_bpf_cookie man then id else 0) = (inr h, k') ->
  zset (uprobes l) (Z.of_nat (length ts)) (abs_ip t, Some h) = Some ups ->
  inv man k' free (En (set_uprobes ups (Z.of_nat (length ts) + 1) l) pl (ts ++ [(t, id)]) :: es).
Proof.
  intros Hm Hi Hid Hs Hip Ha [Hlen ->]%zset_Some. rewrite Nat2Z.id. apply attach_uprobe_law in Ha as (P1 & P2 & Hnew & P3).
  assert (forall e, e ∈ En l pl ts :: es -> h ∉ en_handles e) as Hfresh.
  { intros e He Hin. by destruct (inv_handle_used _ _ _ _ _ _ Hi He Hin). }
  assert (inv man k' free (En l pl ts :: es)) as Hi'.
  { apply (inv_frame man k); try done. intros e x He Hx. rewrite P3. unfold upd. destruct (Z.eqb_spec x h) as [->|]; [|done]. by destruct (Hfresh e He). }
  pose proof Hi' as [H1 H2 H3 H4 H5 H6 H7]. inversion H5 as [|?? He Hes]; subst. pose proof (eo_uprobes _ _ _ He Hm) as (Hml & Hcnt & Hf). cbn [en_link en_ts] in *.
  assert (en_handles (En (set_uprobes (<[length ts := (abs_ip t, Some h)]> (uprobes l)) (Z.of_nat (length ts) + 1) l) pl (ts ++ [(t, id)])) =
    en_handles (En l pl ts) ++ [h]) as Hhs.
  { unfold en_handles, link_handles. cbn [en_link multi_link uprobe_cnt uprobes set_uprobes]. rewrite Hcnt, Hml, Nat2Z.id. cbn [option_list app].
    replace (Z.to_nat (Z.of_nat (length ts) + 1)) with (S (length ts)) by lia. rewrite take_insert_last by lia. by rewrite omap_app. }
  split; try done.
  - constructor; [|done].
    destruct (entry_add man k' l pl ts t id He Hid) as [A B]; [by rewrite P1|intros Hc; rewrite P2; by apply Hip|]. destruct He as [E1 _ _ _ _].
    split; try done; cbn [en_link en_ts en_place]; [|by rewrite Hm]. intros _. split; [done|]. rewrite length_app. cbn [length].
    split; [cbn; lia|]. cbn [uprobes set_uprobes]. replace (length ts + 1)%nat with (S (length ts)) by lia. rewrite take_insert_last by lia.
    apply Forall2_app; [done|]. repeat constructor. exists h. split; [done|]. rewrite P3. unfold upd. by rewrite Z.eqb_refl.
  - cbn [map concat]. apply (nodup_new en_handles (En l pl ts) es _ h H6 Hfresh). rewrite Hhs. by rewrite <- Permutation_cons_append.
  - eapply nodup_ips_add; [|done]. intros Hc. destruct (Hip Hc) as [? ?]. split; [by rewrite P2|done].
Qed.

(** The state between two targets: [ts] are done, [all] are the targets of the attachment. *)
Record going (data : list Z) (pl : place) (all : list usdt_target) (ts : list (usdt_target * Z)) (es : list entry) (st : @attaching K) : Prop := {
  g_inv : exists free, inv (a_man st) (a_k st) free (En (a_link st) pl ts :: es);
  g_hash : hash_ok data (a_k st) (en_ids (En (a_link st) pl ts)) all (a_hash st);
  g_probes : man_uprobe_multi (a_man st) = true -> a_probes st = map multi_probe ts /\ multi_link (a_link st) = None;
  g_room : man_uprobe_multi (a_man st) = false -> length (uprobes (a_link st)) = length all;
  g_live : disconnected (a_link st) = false
}.

(** Where an attachment stops with an error: the link can still be destroyed. *)
Definition stopped (pl : place) (es : list entry) (st : @attaching K) : Prop :=
  disconnected (a_link st) = false /\ exists free ts, inv (a_man st) (a_k st) free (En (a_link st) pl ts :: es).

Definition same_flags (m m' : usdt_manager) : Prop :=
  man_bpf_cookie m' = man_bpf_cookie m /\ man_uprobe_multi m' = man_uprobe_multi m.

(** The slot of the id holds the spec of the target. *)
Lemma slot_written data pl all ts es st t st1 id is_new e k1 : going data pl all ts es st -> t ∈ all ->
  allocated data all t pl ts es st 0 st1 id is_new ->
  (if is_new then specs_update_elem (a_k st1) id (spec t) else (0, a_k st1)) = (e, k1) ->
  exists free, inv (a_man st1) k1 free (En (a_link st1) pl ts :: es) /\
    (e = 0 -> spec_map k1 id = Some (spec t) /\ hash_ok data k1 (en_ids (En (a_link st1) pl ts)) all (a_hash st1)).
Proof.
  intros [(free0 & Hinv0) [_ Hhash] _ _ _] Ht [Hk _ _ _ (free & Hinv) Hid] Hu. destruct (Hid eq_refl) as (Hin & Hwf & Hnew & Hsub & Hcont).
  rewrite Hk in Hu. exists free. destruct is_new.
  - assert (forall p, p ∈ ts -> p.2 <> id) as Hts.
    { intros p Hp E. apply Hnew. rewrite <- E. change ts with (en_ts (En (a_link st) pl ts)) in Hp. eapply inv_id_used; [exact Hinv0|apply list_elem_of_here|done]. }
    destruct (decide (e = 0)) as [->|He]; [|split; [by eapply inv_failed_spec|done]].
    destruct (inv_write_slot _ _ _ _ _ _ _ _ _ _ Hinv Hin Hts Hu) as [Hi' Hs']. split; [done|]. intros _. split; [done|]. split; [done|].
    intros p x Hp. apply Hcont in Hp as [(_ & Hs & Hv)|Hp].
    + rewrite Hv. split; [done|]. by exists t.
    + destruct (Hhash p x Hp) as (Hx & t' & Ht' & Hs & Hsp). split; [by apply Hsub|]. exists t'. split; [done|]. split; [done|].
      apply specs_update_law in Hu as (H1 & _). rewrite H1. cbn [Z.eqb]. unfold upd. destruct (Z.eqb_spec (value x) id) as [E|]; [|done].
      rewrite E in Hx. done.
  - injection Hu as <- <-. split; [done|]. intros _. split; [done|]. split; [done|]. intros p x Hp. apply Hcont in Hp as [(? & _)|Hp]; [done|].
    destruct (Hhash p x Hp) as (Hx & Ht'). split; [by apply Hsub|done].
Qed.

Lemma hash_ok_frame data k k' ids all m : (forall x, spec_map k' x = spec_map k x) -> hash_ok data k ids all m -> hash_ok data k' ids all m.
Proof.
  intros Hs [Hwf Hh]. split; [done|]. intros p e Hp. destruct (Hh p e Hp) as (? & t & ? & ? & ?). split; [done|]. exists t. by rewrite Hs.
Qed.

Lemma attach_target_spec data pl all ts es st t st1 id is_new : going data pl all ts es st -> t ∈ all ->
  (length ts < length all)%nat -> Z.of_nat (length all) < 2 ^ 31 -> allocated data all t pl ts es st 0 st1 id is_new ->
  exists err st', attach_target pl st1 (Z.of_nat (length ts)) t id is_new = Some (err, st') /\ same_flags (a_man st) (a_man st') /\
    if err =? 0 then going data pl all (ts ++ [(t, id)]) es st' else stopped pl es st'.
Proof.
  intros Hg Ht Hlen Hall Hal. pose proof Hal as [_ Hpr (ids' & cnt' & Hlink) Hfl _ Hid]. destruct (Hid eq_refl) as (Hin & _). clear Hid.
  assert (same_flags (a_man st) (a_man st1)) as Hsf by exact Hfl.
  assert (disconnected (a_link st1) = false) as Hdis by (rewrite Hlink; apply Hg).
  assert (man_uprobe_multi (a_man st1) = false -> length (uprobes (a_link st1)) = length all) as Hroom.
  { intros Hm. rewrite Hlink. apply Hg. by rewrite <- (proj2 Hfl). }
  assert (man_uprobe_multi (a_man st1) = true -> a_probes st1 = map multi_probe ts /\ multi_link (a_link st1) = None) as Hmp.
  { intros Hm. rewrite Hlink, Hpr. apply Hg. by rewrite <- (proj2 Hfl). }
  clear Hfl. unfold attach_target. cbv zeta. destruct (if is_new then _ else _) as [e1 k1] eqn:E1.
  destruct (slot_written _ _ _ _ _ _ _ _ _ _ _ _ Hg Ht Hal E1) as (free & Hi1 & Hs1).
  destruct (Z.eqb_spec e1 0) as [->|He1]; cbn [negb].
  2: { eexists _, _. split; [done|]. split; [done|]. destruct (Z.eqb_spec (- e1) 0); [lia|]. split; [done|]. by exists free, ts. }
  destruct (Hs1 eq_refl) as [Hsp Hh1]. clear Hs1 E1. destruct (if man_bpf_cookie (a_man st1) then _ else _) as [e2 k2] eqn:E2.
  destruct (Z.eqb_spec e2 0) as [->|He2]; cbn [negb].
  2: { eexists _, _. split; [done|]. split; [done|]. destruct (Z.eqb_spec (- e2) 0); [lia|]. split; [done|]. exists free, ts.
       cbn [a_man a_k a_link with_k]. destruct (man_bpf_cookie (a_man st1)); [by injection E2 as <- <-|by eapply inv_failed_ip]. }
  assert (inv (a_man st1) k2 free (En (a_link st1) pl ts :: es) /\ (forall x, spec_map k2 x = spec_map k1 x) /\
          ip_new (a_man st1) k2 (En (a_link st1) pl ts :: es) t id) as (Hi2 & Hsm & Hip).
  { unfold ip_new. destruct (man_bpf_cookie (a_man st1)) eqn:Ec; [injection E2 as <-; split; [done|]; split; [done|]; done|].
    destruct (inv_write_ip _ _ _ _ _ _ _ Ec Hi1 E2) as (? & ? & ? & ?). split; [done|]. split; [done|]. done. }
  assert (hash_ok data k2 (en_ids (En (a_link st1) pl ts)) all (a_hash st1)) as Hh2 by by eapply hash_ok_frame.
  assert (spec_map k2 id = Some (spec t)) as Hsp2 by by rewrite Hsm. destruct (man_uprobe_multi (a_man st1)) eqn:Em.
  - eexists _, _. split; [done|]. split; [done|]. cbn [Z.eqb]. destruct (Hmp eq_refl) as [Hps Hml].
    split; cbn [a_man a_k a_link a_hash a_probes]; try done.
    + exists free. by apply inv_add_multi.
    + intros _. split; [|done]. by rewrite Hps, map_app.
    + by rewrite Em.
  - destruct (attach_uprobe_opts k2 pl _) as [[e3|h] k3] eqn:E3.
    + pose proof E3 as (P1 & P2 & He3 & P3)%attach_uprobe_law. eexists _, _. split; [done|]. split; [done|]. destruct (Z.eqb_spec (- e3) 0); [lia|].
      split; [done|]. exists free, ts. cbn [a_man a_k a_link with_k]. by apply (inv_frame _ k2).
    + pose proof E3 as (P1 & P2 & _)%attach_uprobe_law. specialize (Hroom eq_refl).
      destruct (zset_is_Some (uprobes (a_link st1)) (Z.of_nat (length ts)) (abs_ip t, Some h)) as [ups Hups]; [lia|]. rewrite Hups. cbn [mbind option_bind].
      pose proof (i_entries _ _ _ _ Hi2) as He. inversion He as [|?? Hcur _]; subst. pose proof (eo_uprobes _ _ _ Hcur Em) as (_ & Hcnt & _). cbn [en_link en_ts] in Hcnt.
      eexists _, _. split; [done|]. split; [done|]. cbn [Z.eqb]. rewrite Hcnt, wrap_small by lia.
      split; cbn [a_man a_k a_link a_hash a_probes]; try done.
      * exists free. by eapply inv_add_uprobe.
      * by eapply hash_ok_frame.
      * by rewrite Em.
      * intros _. cbn [uprobes set_uprobes]. apply zset_length in Hups. by rewrite Hups.
Qed.

Lemma attach_loop_spec al data pl es todo : forall all ts st, all = map fst ts ++ todo -> targets_agree data all -> Z.of_nat (length all) < 2 ^ 31 ->
  going data pl all ts es st -> exists err st', attach_loop al data pl (Z.of_nat (length ts)) todo st = Some (err, st') /\ same_flags (a_man st) (a_man st') /\
    if err =? 0 then exists ts', map fst ts' = all /\ going data pl all ts' es st' else stopped pl es st'.
Proof.
  induction todo as [|t todo IH]; intros all ts st Hall Hag Hlen Hg; cbn [attach_loop].
  { eexists _, _. split; [done|]. split; [done|]. cbn [Z.eqb]. exists ts. split; [by rewrite Hall, app_nil_r|done]. }
  assert (t ∈ all) as Ht by (rewrite Hall; apply elem_of_app; right; apply list_elem_of_here).
  assert (length all = length ts + S (length todo))%nat as Hl by by rewrite Hall, length_app, length_map.
  destruct (g_inv _ _ _ _ _ _ Hg) as [free Hi].
  destruct (allocate_spec (sub (Z.of_nat (length ts)) al) data all t pl ts es st free (g_hash _ _ _ _ _ _ Hg) Hag Ht Hi)
    as (err & st1 & id & is_new & -> & Hal). cbn [mbind option_bind].
  destruct (Z.eqb_spec err 0) as [->|Herr]; cbn [negb].
  - destruct (attach_target_spec data pl all ts es st t st1 id is_new Hg Ht) as (err & st2 & -> & Hf & Hr); [lia|lia|done|]. cbn [mbind option_bind].
    destruct (Z.eqb_spec err 0) as [->|Herr]; cbn [negb].
    + cbn [Z.eqb] in Hr. replace (Z.of_nat (length ts) + 1) with (Z.of_nat (length (ts ++ [(t, id)]))) by (rewrite length_app; simpl; lia).
      destruct (IH all (ts ++ [(t, id)]) st2) as (err & st' & -> & Hf' & Hr'); [by rewrite Hall, map_app, <- app_assoc|done..|].
      eexists _, _. split; [done|]. split; [|done]. destruct Hf as [A B], Hf' as [C D]. split; congruence.
    + eexists _, _. split; [done|]. split; [done|]. by destruct (Z.eqb_spec err 0).
  - eexists _, _. split; [done|]. split; [apply Hal|]. destruct (Z.eqb_spec err 0); [done|].
    destruct Hal as [Hk _ (i' & c' & Hlk) _ (free' & Hi') _]. split; [rewrite Hlk; apply Hg|]. exists free', ts. by rewrite Hk.
Qed.

(** A link that an attachment returns: all of its targets are served. *)
Definition attached (man : usdt_manager) (k : K) (pl : place) (all : list usdt_target) (es : list entry) (link : bpf_link_usdt) : Prop :=
  disconnected link = false /\ (man_uprobe_multi man = true -> multi_link link <> None) /\
  exists free ts, map fst ts = all /\ inv man k free (En link pl ts :: es).

Lemma attach_targets_spec al data pl es all st : targets_agree data all -> Z.of_nat (length all) < 2 ^ 31 -> going data pl all [] es st ->
  exists err st', attach_targets al data pl all st = Some (err, st') /\ same_flags (a_man st) (a_man st') /\
    if err =? 0 then attached (a_man st') (a_k st') pl all es (a_link st') else stopped pl es st'.
Proof.
  intros Hag Hlen Hg. unfold attach_targets. destruct (attach_loop_spec al data pl es all all [] st eq_refl Hag Hlen Hg) as (err & st' & Hl & Hf & Hr).
  change (Z.of_nat (length (@nil (usdt_target * Z)))) with 0 in Hl. rewrite Hl. cbn [mbind option_bind]. destruct (Z.eqb_spec err 0) as [->|Herr]; cbn [negb].
  2: { eexists _, _. split; [done|]. split; [done|]. by destruct (Z.eqb_spec err 0). }
  destruct Hr as (ts & Hts & [(free & Hi) _ Hmp _ Hdis]). destruct (man_uprobe_multi (a_man st')) eqn:Em.
  2: { eexists _, _. split; [done|]. split; [done|]. cbn [Z.eqb]. split; [done|]. split; [by rewrite Em|]. by exists free, ts. }
  destruct (Hmp eq_refl) as [Hps Hml]. destruct (attach_uprobe_multi (a_k st') pl (a_probes st')) as [[e|h] k'] eqn:Ea.
  - apply attach_multi_law in Ea as (P1 & P2 & He & P3). eexists _, _. split; [done|]. split; [done|]. destruct (Z.eqb_spec (- e) 0); [lia|].
    split; [done|]. exists free, ts. cbn [a_man a_k a_link with_k]. by apply (inv_frame _ (a_k st')).
  - apply attach_multi_law in Ea as (P1 & P2 & Hnew & P3). eexists _, _. split; [done|]. split; [done|]. cbn [Z.eqb].
    cbn [a_man a_k a_link]. split; [done|]. split; [done|]. exists free, ts. split; [done|].
    assert (forall e, e ∈ En (a_link st') pl ts :: es -> h ∉ en_handles e) as Hfresh.
    { intros e He Hin. by destruct (inv_handle_used _ _ _ _ _ _ Hi He Hin). }
    assert (inv (a_man st') k' free (En (a_link st') pl ts :: es)) as Hi'.
    { apply (inv_frame _ (a_k st')); try done. intros e x He Hx. rewrite P3. unfold upd. destruct (Z.eqb_spec x h) as [->|]; [|done]. by destruct (Hfresh e He). }
    pose proof Hi' as [H1 H2 H3 H4 H5 H6 H7]. inversion H5 as [|?? [E1 E2 E3 E4 E5] Hes]; subst. split; try done.
    + constructor; [|done]. split; try done; cbn [en_link en_place en_ts] in *; [by rewrite Em|]. intros _. destruct (E5 Em) as [Hcnt _]. split; [done|].
      intros h' [= <-]. rewrite P3. unfold upd. by rewrite Z.eqb_refl, Hps.
    + cbn [map concat]. apply (nodup_new en_handles (En (a_link st') pl ts) es _ h H6 Hfresh).
      unfold en_handles, link_handles. cbn [en_link multi_link uprobe_cnt uprobes set_multi]. by rewrite Hml.
Qed.

(** An attachment never goes wrong: it returns a link whose targets are served, or an error after which the other links
    are as before and no id is lost (unless memory is short). *)
Lemma attach_found_spec al data pl all man k free es : targets_agree data all -> Z.of_nat (length all) < 2 ^ 31 -> inv man k free es ->
  exists man' k' r, attach_found al data pl all man k = Some (man', k', r) /\ same_flags man man' /\
  match r with inl _ => exists free', inv man' k' free' es | inr link => attached man' k' pl all es link end.
Proof.
  intros Hag Hlen Hi. unfold attach_found.
  destruct (al [0]); cbn [negb]; [|by eexists _, _, _; split; [done|]; split; [done|]; exists free].
  destruct (al [1]); cbn [negb]; [|by eexists _, _, _; split; [done|]; split; [done|]; exists free]. cbv zeta.
  assert (forall ups, inv man k free (En (Link false 0 None 0 ups None) pl [] :: es)) as Hstart.
  { intros ups. destruct Hi as [H1 H2 H3 H4 H5 H6 H7]. split; try done. constructor; [|done].
    split; try done. split; [done|by exists []]. }
  destruct (if man_uprobe_multi man then _ else _) eqn:Earr; cbn [negb].
  - destruct (attach_targets_spec (sub 6 al) data pl es all
      (Attaching man k hashmap__init (Link false 0 None 0 (if man_uprobe_multi man then [] else replicate (length all) (0, None)) None) []) Hag Hlen)
      as (err & st & -> & Hf & Hr).
    { split; cbn [a_man a_k a_link a_hash a_probes]; try done.
      - exists free. apply Hstart.
      - intros Hm. rewrite Hm. apply length_replicate. }
    cbn [mbind option_bind a_man] in *. destruct (err =? 0); [by eexists _, _, _|].
    destruct Hr as (Hdis & free' & ts & Hi'). unfold bpf_link__destroy. rewrite Hdis.
    destruct (detach_inv (al [5]) _ _ _ _ _ Hi') as (man' & k' & free2 & Hd & Hi2 & ids' & cnt' & ->). cbn [en_link] in Hd. rewrite Hd. cbn [mbind option_bind].
    eexists _, _, _. split; [done|]. split; [done|]. by exists free2.
  - unfold bpf_link__destroy. cbn [disconnected].
    destruct (detach_inv (al [5]) _ _ _ _ _ (Hstart [])) as (man' & k' & free2 & Hd & Hi2 & ids' & cnt' & ->). cbn [en_link] in Hd. rewrite Hd. cbn [mbind option_bind].
    eexists _, _, _. split; [done|]. split; [done|]. by exists free2.
Qed.

(** ** The system *)

(** The manager, the kernel and the live links, each with its place and its targets. *)
Record system := System { s_man : usdt_manager; s_k : K; s_links : list (bpf_link_usdt * place * list usdt_target) }.

(** The binary of a request has fewer than 2^31 notes. *)
Definition request_ok (r : request) : Prop :=
  forall e sh scn, r_elf r = inr e -> find_elf_sec_by_name e USDT_NOTE_SEC = inr (sh, scn) -> Z.of_nat (length (sec_notes scn)) < 2 ^ 31.

(** The targets of a request. *)
Definition found_targets (al : oracle) (man : usdt_manager) (r : request) (ts : list usdt_target) : Prop :=
  exists e data, r_elf r = inr e /\ collect_usdt_targets (sub 0 al) (query_of man r e) = Some (inr (data, ts)).

Inductive usdt_step : system -> system -> Prop :=
| attach_ok al r ts man k links man' k' link : request_ok r -> found_targets al man r ts ->
    usdt_manager_attach_usdt al r man k = Some (man', k', inr link) ->
    usdt_step (System man k links) (System man' k' ((link, place_of r, ts) :: links))
| attach_failed al r man k links man' k' err : request_ok r ->
    usdt_manager_attach_usdt al r man k = Some (man', k', inl err) -> usdt_step (System man k links) (System man' k' links)
| step_destroy al man k link pl ts l1 l2 man' k' : bpf_link__destroy al man link k = Some (man', k') ->
    usdt_step (System man k (l1 ++ (link, pl, ts) :: l2)) (System man' k' (l1 ++ l2))
| step_disconnect man k link pl ts l1 l2 :
    usdt_step (System man k (l1 ++ (link, pl, ts) :: l2)) (System man k (l1 ++ (bpf_link__disconnect link, pl, ts) :: l2)).

(** A new manager and any state of the kernel. *)
Definition initial (s : system) : Prop :=
  s_links s = [] /\ exists al n c f m, 0 <= n <= 2 ^ 31 /\ usdt_manager_new al (Some n) true c f m = inr (s_man s).

Definition reachable (s : system) : Prop := exists s0, initial s0 /\ rtc usdt_step s0 s.

Definition sys_inv (s : system) : Prop := exists free es, inv (s_man s) (s_k s) free es /\
  map (fun e => (en_link e, en_place e, map fst (en_ts e))) es = s_links s /\
  Forall (fun e => man_uprobe_multi (s_man s) = true -> multi_link (en_link e) <> None) es.

Lemma initial_inv s : initial s -> sys_inv s.
Proof.
  intros [Hl (al & n & c & f & m & Hn & Hnew)]. unfold usdt_manager_new in Hnew. cbn [negb] in Hnew. destruct al; [|done]. injection Hnew as Hm.
  exists [], []. rewrite Hl, <- Hm. split; [|by split]. split; cbn [map concat app]; try constructor; try done; cbn; try lia. by exists [].
Qed.

Lemma attach_spec al r man k free es : request_ok r -> inv man k free es ->
  (forall e, r_elf r = inr e -> collect_usdt_targets (sub 0 al) (query_of man r e) <> None) ->
  exists man' k' res, usdt_manager_attach_usdt al r man k = Some (man', k', res) /\ same_flags man man' /\
  match res with
  | inl _ => exists free', inv man' k' free' es
  | inr link => exists ts, found_targets al man r ts /\ attached man' k' (place_of r) ts es link
  end.
Proof.
  intros Hok Hi Hc. unfold usdt_manager_attach_usdt. destruct (r_elf r) as [|e] eqn:Ee; [by eexists _, _, _; split; [done|]; split; [done|]; exists free|].
  cbv zeta. destruct (negb _); [by eexists _, _, _; split; [done|]; split; [done|]; exists free|]. specialize (Hc e eq_refl).
  destruct (collect_usdt_targets (sub 0 al) (query_of man r e)) as [[err|[data ts]]|] eqn:Ec; [|..|done]; cbn [mbind option_bind];
    [by eexists _, _, _; split; [done|]; split; [done|]; exists free|].
  destruct (collect_agree _ _ _ _ Ec) as (Hag & sh & scn & Hsec & Hlen). cbn [q_elf query_of] in Hsec. pose proof (Hok e sh scn Ee Hsec) as Hb.
  destruct ts as [|t ts]; [by eexists _, _, _; split; [done|]; split; [done|]; exists free|].
  destruct (attach_found_spec (sub 1 al) data (place_of r) (t :: ts) man k free es Hag ltac:(lia) Hi) as (man' & k' & res & -> & Hf & Hr).
  eexists _, _, _. split; [done|]. split; [done|]. destruct res; [done|]. exists (t :: ts). split; [by exists e, data|done].
Qed.

Lemma attach_found_or al r man k x : usdt_manager_attach_usdt al r man k = Some x ->
  (exists e, r_elf r = inr e /\ sanity_check_usdt_elf e = 0) -> forall e, r_elf r = inr e -> collect_usdt_targets (sub 0 al) (query_of man r e) <> None.
Proof.
  unfold usdt_manager_attach_usdt. intros H (e0 & E0 & Hs) e E. rewrite E in H. cbv zeta in H. assert (e0 = e) as -> by congruence. rewrite Hs in H.
  cbn [Z.eqb negb] in H. intros Hn. by rewrite Hn in H.
Qed.

Lemma attach_inv al r man k free es man' k' res : request_ok r -> inv man k free es -> usdt_manager_attach_usdt al r man k = Some (man', k', res) ->
  same_flags man man' /\
  match res with
  | inl _ => exists free', inv man' k' free' es
  | inr link => exists ts, found_targets al man r ts /\ attached man' k' (place_of r) ts es link
  end.
Proof.
  intros Hok Hi Ha. destruct (r_elf r) as [err|e] eqn:Ee.
  { unfold usdt_manager_attach_usdt in Ha. rewrite Ee in Ha. injection Ha as <- <- <-. split; [done|]. by exists free. }
  destruct (Z.eqb_spec (sanity_check_usdt_elf e) 0) as [Es|Es].
  - destruct (attach_spec al r man k free es Hok Hi) as (m1 & k1 & r1 & Ha' & Hr); [|by rewrite Ha in Ha'; injection Ha' as <- <- <-].
    eapply attach_found_or; [done|eauto].
  - unfold usdt_manager_attach_usdt in Ha. rewrite Ee in Ha. cbv zeta in Ha. apply Z.eqb_neq in Es. rewrite Es in Ha. cbn [negb] in Ha. injection Ha as <- <- <-.
    split; [done|]. by exists free.
Qed.

Lemma inv_disconnect man k free l pl ts es : inv man k free (En l pl ts :: es) -> inv man k free (En (bpf_link__disconnect l) pl ts :: es).
Proof.
  intros [H1 H2 H3 H4 H5 H6 H7]. split; try done. inversion H5 as [|?? [E1 E2 E3 E4 E5] Hes]; subst. constructor; [|done]. by split.
Qed.

(** A live link is one of the entries, with the rest around it. *)
Lemma entry_of_link (f : entry -> bpf_link_usdt * place * list usdt_target) es l1 x l2 : map f es = l1 ++ x :: l2 ->
  exists es1 e es2, es = es1 ++ e :: es2 /\ map f es1 = l1 /\ f e = x /\ map f es2 = l2.
Proof.
  intros H. apply map_eq_app in H as (es1 & es' & -> & H1 & H2). apply map_eq_cons in H2 as (e & es2 & -> & H2 & H3). by exists es1, e, es2.
Qed.

Lemma step_inv s s' : sys_inv s -> usdt_step s s' -> sys_inv s'.
Proof.
  intros (free & es & Hi & Hmap & Hall) Hstep. destruct Hstep as [al r ts man k links man' k' link Hok Hft Ha|al r man k links man' k' err Hok Ha
    |al man k link pl ts l1 l2 man' k' Hd|man k link pl ts l1 l2]; cbn [s_man s_k s_links] in *.
  - apply (attach_inv _ _ _ _ free es) in Ha as [[Hf1 Hf2] (ts' & Hft' & _ & Hml & free' & pairs & Hp & Hi')]; [|done..].
    assert (ts' = ts) as ->.
    { destruct Hft as (e & d & E1 & E2), Hft' as (e' & d' & E1' & E2'). assert (e' = e) as -> by congruence. rewrite E2 in E2'. congruence. }
    exists free', (En link (place_of r) pairs :: es). split; [done|]. split; [cbn [map en_link en_place en_ts]; by rewrite Hp, Hmap|].
    constructor; [done|]. eapply Forall_impl; [exact Hall|]. intros e. cbn [s_man]. by rewrite Hf2.
  - apply (attach_inv _ _ _ _ free es) in Ha as [[Hf1 Hf2] [free' Hi']]; [|done..]. exists free', es. split; [done|]. split; [done|]. eapply Forall_impl; [exact Hall|]. intros e. cbn [s_man]. by rewrite Hf2.
  - apply entry_of_link in Hmap as (es1 & e & es2 & -> & H1 & He & H2). injection He as Hl Hpl Hts.
    assert (inv man k free (e :: es1 ++ es2)) as Hp by (eapply inv_perm; [|exact Hi]; by rewrite <- Permutation_middle).
    apply Forall_app in Hall as [Ha1 Ha2]. inversion Ha2 as [|?? _ Ha3]; subst.
    unfold bpf_link__destroy in Hd. destruct (disconnected (en_link e)).
    + injection Hd as <- <-. exists free, (es1 ++ es2). split; [by eapply inv_drop|]. split; [by rewrite map_app|by apply Forall_app].
    + destruct (detach_inv al man k free e (es1 ++ es2) Hp) as (m1 & k1 & f1 & Hd' & Hi' & ids' & cnt' & ->). rewrite Hd in Hd'. injection Hd' as -> ->.
      exists f1, (es1 ++ es2). split; [done|]. split; [by rewrite map_app|by apply Forall_app].
  - apply entry_of_link in Hmap as (es1 & [l0 pl0 ts0] & es2 & -> & H1 & He & H2). cbn [en_link en_place en_ts] in He. injection He as -> -> Hts.
    exists free, (es1 ++ En (bpf_link__disconnect link) pl ts0 :: es2). split; [|split].
    + eapply inv_perm; [apply Permutation_middle|]. apply inv_disconnect. eapply inv_perm; [|exact Hi]. by rewrite <- Permutation_middle.
    + cbn [s_links]. rewrite map_app, H1. cbn [map en_link en_place en_ts]. by rewrite Hts, H2.
    + apply Forall_app in Hall as [Ha1 Ha2]. inversion Ha2; subst. apply Forall_app. split; [done|]. by constructor.
Qed.

Lemma reachable_inv s : reachable s -> sys_inv s.
Proof. intros (s0 & Hi & Hs). apply initial_inv in Hi. induction Hs as [|x y z Hxy _ IH]; [done|]. apply IH. by eapply step_inv. Qed.

(** The ids a link holds, and those that are free. *)
Definition held_ids (s : system) : list Z := concat (map (fun x => arr_ids (spec_ids x.1.1) (spec_cnt x.1.1)) (s_links s)).
Definition free_ids (s : system) : list Z := arr_ids (free_spec_ids (s_man s)) (free_spec_cnt (s_man s)).

(** What an attachment assumes of the binary: its note section has fewer than 2^31 notes, all of them inside its data, as
    libelf returns them, and in those of the wanted probe the text of the arguments is terminated inside the data and its
    parser does not use an unset length. *)
Definition request_readable (man : usdt_manager) (r : request) : Prop :=
  forall e sh scn, r_elf r = inr e -> find_elf_sec_by_name e USDT_NOTE_SEC = inr (sh, scn) ->
    Z.of_nat (length (sec_notes scn)) < 2 ^ 31 /\ bytes_ok (sec_data scn) /\ notes_ok (query_of man r e) (sec_data scn) (sec_notes scn).

Lemma readable_collect al man r e : request_readable man r -> r_elf r = inr e -> collect_usdt_targets al (query_of man r e) <> None.
Proof.
  intros Hr He. destruct (find_elf_sec_by_name e USDT_NOTE_SEC) as [err|[sh scn]] eqn:Hs.
  - unfold collect_usdt_targets. cbn [q_elf query_of]. by rewrite Hs.
  - destruct (Hr e sh scn He Hs) as (_ & Hb & Hn). destruct (elf_ehdr e) as [[ty en]|] eqn:Eh.
    + destruct (collect_targets_exact al (query_of man r e) sh scn ty en) as (x & -> & _); done.
    + unfold collect_usdt_targets. cbn [q_elf query_of]. by rewrite Hs, Eh.
Qed.

(** C10. The slots of the specs map: in every reachable state the free ids and the ids of the live links are all different
    and inside the map; the destruction of any live link, and the next attachment to any binary whose notes of the wanted
    probe are readable (the text of their arguments ends inside the section and is parsed without the use of an unset
    length; not so for every binary, see [unterminated_args_accepted] and [open_paren_unset_length]), whatever errors it
    meets, run to their end without touching an array out of bounds or an unset cell. *)
Theorem usdt_ids_exclusive s : reachable s ->
  NoDup (free_ids s ++ held_ids s) /\ Forall (fun id => 0 <= id < max_entries (s_man s)) (free_ids s ++ held_ids s) /\
  (forall al link pl ts, (link, pl, ts) ∈ s_links s -> is_Some (bpf_link__destroy al (s_man s) link (s_k s))) /\
  (forall al r, request_readable (s_man s) r -> is_Some (usdt_manager_attach_usdt al r (s_man s) (s_k s))).
Proof.
  intros (free & es & Hi & Hmap & _)%reachable_inv. pose proof Hi as [H1 H2 H3 H4 H5 _ _]. unfold free_ids, held_ids. rewrite (holds_ids _ _ _ H1), <- Hmap, map_map.
  split; [exact H2|]. split; [|split].
  - eapply Forall_impl; [exact H3|]. intros id; cbv beta; lia.
  - intros al link pl ts Hin. apply list_elem_of_fmap in Hin as (e & [= -> -> ->] & He).
    unfold bpf_link__destroy. destruct (disconnected (en_link e)); [eauto|]. apply list_elem_of_split in He as (es1 & es2 & ->).
    destruct (detach_inv al (s_man s) (s_k s) free e (es1 ++ es2)) as (m & k & f & Hd & _); [|eauto].
    eapply inv_perm; [|exact Hi]. by rewrite <- Permutation_middle.
  - intros al r Hr. destruct (attach_spec al r (s_man s) (s_k s) free es) as (m & k & res & -> & _); [|done| |eauto].
    + intros e sh scn He Hs. by destruct (Hr e sh scn He Hs).
    + intros e He. by apply readable_collect.
Qed.

(** C9. The promise to BPF programs: in every reachable state, every target of every live link has an attached probe at its
    file offset with its semaphore, and when a program is fired by that probe (with the cookie of the probe, at the
    address of the target) the BPF side finds the spec of that very target. *)
Theorem usdt_probes_served s link pl ts t : reachable s -> (link, pl, ts) ∈ s_links s -> t ∈ ts ->
  exists h ps cookie, probes (s_k s) h = Some (pl, ps) /\ (rel_ip t, sema_off t, cookie) ∈ ps /\
  forall ctx, attach_cookie ctx = cookie -> ctx_ip ctx = abs_ip t ->
    ctx_spec (man_bpf_cookie (s_man s)) (spec_map (s_k s)) (ip_map (s_k s)) ctx = Some (spec t).
Proof.
  intros (free & es & Hi & Hmap & Hcomp)%reachable_inv Hin Ht. rewrite <- Hmap in Hin. apply list_elem_of_fmap in Hin as (e & [= -> -> ->] & He).
  apply list_elem_of_fmap in Ht as ([t' id] & -> & Hp). cbn [fst].
  pose proof Hi as [_ _ Hr Hn Hes _ _]. rewrite Forall_forall in Hes, Hcomp. pose proof (Hes e He) as [_ E2 E3 E4 E5].
  rewrite Forall_forall in E2. destruct (E2 _ Hp) as [Hid Hs]. cbn [fst snd] in Hid, Hs.
  assert (0 <= id < 2 ^ 31) as Hb.
  { rewrite Forall_forall in Hr. specialize (Hr id). rewrite elem_of_app, elem_of_concat_map in Hr.
    specialize (Hr (or_intror (ex_intro _ e (conj He Hid)))). cbv beta in Hr. lia. }
  assert (forall c, (man_bpf_cookie (s_man s) = true -> c = id) -> forall ctx, attach_cookie ctx = c -> ctx_ip ctx = abs_ip t' ->
    ctx_spec (man_bpf_cookie (s_man s)) (spec_map (s_k s)) (ip_map (s_k s)) ctx = Some (spec t')) as Hctx.
  { intros c Hc ctx H1 H2. unfold ctx_spec, __bpf_usdt_spec_id. destruct (man_bpf_cookie (s_man s)); cbn [negb].
    - rewrite H1, (Hc eq_refl), swrap_small by lia. destruct (Z.ltb_spec id 0); [lia|done].
    - specialize (E3 eq_refl). rewrite Forall_forall in E3. pose proof (E3 _ Hp) as Hip. cbn [fst snd] in Hip. rewrite H2, Hip.
      destruct (Z.ltb_spec id 0); [lia|done]. }
  destruct (man_uprobe_multi (s_man s)) eqn:Em.
  - destruct (E5 eq_refl) as [_ Hh]. destruct (multi_link (en_link e)) as [h|] eqn:Eml; [|by destruct (Hcomp e He)].
    exists h, (map multi_probe (en_ts e)), id. split; [by apply Hh|]. split; [apply list_elem_of_fmap; by exists (t', id)|by apply Hctx].
  - destruct (E4 eq_refl) as (_ & _ & Hf). apply list_elem_of_lookup in Hp as [j Hj].
    eapply Forall2_lookup_r in Hf as (up & _ & _ & h & _ & Hpr); [|exact Hj]. cbn [fst snd] in Hpr.
    eexists h, _, (if man_bpf_cookie (s_man s) then id else 0). split; [exact Hpr|]. split; [apply list_elem_of_here|]. apply Hctx. by intros ->.
Qed.

End Spec.

(** ** A kernel *)

(** Maps and probes as finite maps; [tk_deny] lists the file offsets at which it refuses probes. *)
Record toy_kernel := Toy { tk_specs : gmap Z usdt_spec; tk_ips : gmap Z Z; tk_probes : gmap Z (place * list probe); tk_next : Z; tk_deny : list Z }.

Definition toy_attach (k : toy_kernel) (pl : place) (ps : list probe) : (Z + Z) * toy_kernel :=
  if existsb (fun p => existsb (Z.eqb p.1.1) (tk_deny k)) ps then (inl EPERM, k)
  else match tk_probes k !! tk_next k with
       | Some _ => (inl EEXIST, k)
       | None => (inr (tk_next k), Toy (tk_specs k) (tk_ips k) (<[tk_next k := (pl, ps)]> (tk_probes k)) (tk_next k + 1) (tk_deny k))
       end.

#[export] Instance toy_ProbeKernel : ProbeKernel toy_kernel := {
  specs_update_elem k id sp := (0, Toy (<[id := sp]> (tk_specs k)) (tk_ips k) (tk_probes k) (tk_next k) (tk_deny k));
  ip_update_noexist k ip id :=
    match tk_ips k !! ip with
    | Some _ => (EEXIST, k)
    | None => (0, Toy (tk_specs k) (<[ip := id]> (tk_ips k)) (tk_probes k) (tk_next k) (tk_deny k))
    end;
  ip_delete_elem k ip := (0, Toy (tk_specs k) (delete ip (tk_ips k)) (tk_probes k) (tk_next k) (tk_deny k));
  attach_uprobe_opts k pl p := toy_attach k pl [p];
  attach_uprobe_multi := toy_attach;
  link_close k h := Toy (tk_specs k) (tk_ips k) (delete h (tk_probes k)) (tk_next k) (tk_deny k);
  spec_map k x := tk_specs k !! x;
  ip_map k x := tk_ips k !! x;
  probes k x := tk_probes k !! x
}.

Lemma upd_insert {A} (m : gmap Z A) i v x : <[i := v]> m !! x = upd (fun y => m !! y) i (Some v) x.
Proof. unfold upd. destruct (Z.eqb_spec x i) as [->|]; [by rewrite lookup_insert_eq|by rewrite lookup_insert_ne]. Qed.

Lemma upd_delete {A} (m : gmap Z A) i x : delete i m !! x = upd (fun y => m !! y) i None x.
Proof. unfold upd. destruct (Z.eqb_spec x i) as [->|]; [by rewrite lookup_delete_eq|by rewrite lookup_delete_ne]. Qed.

Lemma toy_attach_law k pl ps r k' : toy_attach k pl ps = (r, k') ->
  (forall x, tk_specs k' !! x = tk_specs k !! x) /\ (forall x, tk_ips k' !! x = tk_ips k !! x) /\
  match r with
  | inl e => e <> 0 /\ forall x, tk_probes k' !! x = tk_probes k !! x
  | inr h => tk_probes k !! h = None /\ forall x, tk_probes k' !! x = upd (fun y => tk_probes k !! y) h (Some (pl, ps)) x
  end.
Proof.
  unfold toy_attach. case_match; [by intros [= <- <-]|]. destruct (tk_probes k !! tk_next k) eqn:E; intros [= <- <-]; [done|].
  split; [done|]. split; [done|]. split; [done|]. intros x. apply upd_insert.
Qed.

#[export] Instance toy_ProbeKernelLaws : ProbeKernelLaws toy_kernel.
Proof.
  split; cbn.
  - intros k id sp e k' [= <- <-]. cbn. split; [intros x; apply upd_insert|done].
  - intros k ip id e k'. destruct (tk_ips k !! ip) eqn:E; intros [= <- <-]; cbn.
    + split; [done|]. split; [done|]. done.
    + split; [done|]. split; [by intros [? ?]|]. split; [intros x; apply upd_insert|done].
  - intros k ip e k' [= <- <-]. cbn. split; [intros x; apply upd_delete|done].
  - intros k pl p r k'. apply toy_attach_law.
  - intros k pl p r k'. apply toy_attach_law.
  - intros k h. split; [done|]. split; [done|]. intros x. apply upd_delete.
Qed.

(** ** An attachment *)

(** An executable with one probe p:n at address 4096, argument 8@%rax. *)
Definition demo_data : list Z :=
  ascii_bytes "stapsdt" ++ [0] ++ le_bytes 8 4096 ++ le_bytes 8 0 ++ le_bytes 8 0 ++ ascii_bytes "p" ++ [0] ++ ascii_bytes "n" ++ [0] ++ ascii_bytes "8@%rax" ++ [0].
Definition demo_elf : elf :=
  Elf true ELFCLASS64 (Some (ET_EXEC, ELFDATA2LSB)) true true
    [Sec (Some (Shdr SHT_NOTE 0)) (Some USDT_NOTE_SEC) demo_data [(Nhdr 8 35 3, 0, 8)]] (inr [inr (Phdr PT_LOAD 4096 4096 512 PF_X)]).
Definition demo_request : request :=
  Request (inr demo_elf) (Proc (fun _ => None) (fun _ => inl ENOENT)) 1 7 (-1) (ascii_bytes "/bin/x") (ascii_bytes "p") (ascii_bytes "n") 5.
Definition demo_man (cookie : bool) : usdt_manager := Man 256 None 0 0 cookie true false.
Definition demo_kernel (deny : list Z) : toy_kernel := Toy ∅ ∅ ∅ 1 deny.
Definition all_mem : oracle := fun _ => true.

Lemma demo_request_ok : request_ok demo_request.
Proof. intros e sh scn [= <-] Hf. vm_compute in Hf. injection Hf as <- <-. vm_compute. reflexivity. Qed.

(** The state after the attachment. *)
Definition demo_found : option (Z + (list Z * list usdt_target)) := collect_usdt_targets all_mem (query_of (demo_man true) demo_request demo_elf).
Definition demo_targets : list usdt_target := match demo_found with Some (inr (_, ts)) => ts | _ => [] end.
Definition demo_state : @system toy_kernel :=
  match usdt_manager_attach_usdt all_mem demo_request (demo_man true) (demo_kernel []) with
  | Some (m, k, inr l) => System m k [(l, place_of demo_request, demo_targets)]
  | _ => System (demo_man true) (demo_kernel []) []
  end.

Lemma demo_reachable : reachable demo_state.
Proof.
  exists (System (demo_man true) (demo_kernel []) []). split.
  - split; [done|]. exists true, 256, true, true, false. split; [lia|done].
  - apply rtc_once. unfold demo_state.
    destruct (usdt_manager_attach_usdt all_mem demo_request (demo_man true) (demo_kernel [])) as [[[m k] [err|l]]|] eqn:E;
      [vm_compute in E; discriminate| |vm_compute in E; discriminate].
    apply (attach_ok all_mem demo_request demo_targets); [apply demo_request_ok| |done].
    eexists _, demo_data. split; [done|]. vm_compute. reflexivity.
Qed.

Lemma demo_readable man : request_readable man demo_request.
Proof.
  intros e sh scn [= <-] Hf. vm_compute in Hf. injection Hf as <- <-. split; [vm_compute; reflexivity|]. split.
  - unfold bytes_ok. vm_compute. repeat constructor; discriminate.
  - split; [repeat constructor; vm_compute; discriminate|]. set (l := omap _ _). vm_compute in l. subst l.
    repeat constructor. eexists _, _. split; [vm_compute; reflexivity|]. vm_compute. reflexivity.
Qed.

Lemma usdt_ids_exclusive_witness : reachable demo_state /\ NoDup (free_ids demo_state ++ held_ids demo_state) /\ held_ids demo_state = [0] /\
  is_Some (usdt_manager_attach_usdt all_mem demo_request (s_man demo_state) (s_k demo_state)).
Proof.
  split; [apply demo_reachable|]. destruct (usdt_ids_exclusive demo_state demo_reachable) as (H1 & _ & _ & H2).
  split; [exact H1|]. split; [vm_compute; reflexivity|]. apply H2, demo_readable.
Defined.

Lemma usdt_probes_served_witness : exists link pl ts t, reachable demo_state /\ (link, pl, ts) ∈ s_links demo_state /\ t ∈ ts /\ rel_ip t = 512 /\
  exists h ps cookie, probes (s_k demo_state) h = Some (pl, ps) /\ (rel_ip t, sema_off t, cookie) ∈ ps.
Proof.
  destruct (s_links demo_state) as [|[[link pl] ts] l] eqn:El; [vm_compute in El; discriminate|].
  destruct ts as [|t ts]; [vm_compute in El; discriminate|].
  exists link, pl, (t :: ts), t. split; [apply demo_reachable|]. split; [apply list_elem_of_here|]. split; [apply list_elem_of_here|].
  split; [vm_compute in El; injection El as _ _ <- _ _; reflexivity|].
  destruct (usdt_probes_served demo_state link pl (t :: ts) t demo_reachable) as (h & ps & c & H1 & H2 & _);
    [rewrite El; apply list_elem_of_here|apply list_elem_of_here|]. by exists h, ps, c.
Defined.

(** ** An address that is never released *)

(** Without cookies, a probe the kernel refuses leaves the address of its target in the map of addresses although the
    attachment fails: no link holds it, and attaching again later fails with a collision. *)
Theorem failed_attach_keeps_ip : exists man k, 
  usdt_manager_attach_usdt all_mem demo_request (demo_man false) (demo_kernel [512]) = Some (man, k, inl (- EPERM)) /\
  ip_map k 4096 = Some 0 /\
  exists man' k', usdt_manager_attach_usdt all_mem demo_request man (Toy (tk_specs k) (tk_ips k) (tk_probes k) (tk_next k) []) = Some (man', k', inl (- EEXIST)).
Proof.
  eexists _, _. split; [vm_compute; reflexivity|]. split; [vm_compute; reflexivity|]. eexists _, _. vm_compute. reflexivity.
Qed.
