(* ===== verification/CoreCompat.v ===== *)
(** * CO-RE: names and type compatibility

    src/libbpf/src/relo_core.c ([__bpf_core_types_are_compat],
    [bpf_core_fields_are_compat], [__bpf_core_types_match] and its helpers) and
    src/libbpf/src/libbpf.c ([bpf_core_essential_name_len], [bpf_core_add_cands]).

    Results are the C results: 1 and 0 for yes and no, negative errors.  [None] is a run
    the code must not have (see Btf). *)
From stdpp Require Import base numbers list gmap.
From S2P Require Import Prelude Hashmap Strset Btf.

(** ** Names *)
Definition USCORE := 95.

(** [s]: the bytes from the position on, the terminator and what follows reading as 0. *)
Definition bpf_core_is_flavor_sep (s : list Z) : bool :=
  let at_ i := default 0 (s !! i) in
  negb (at_ 0%nat =? USCORE) && (at_ 1%nat =? USCORE) && (at_ 2%nat =? USCORE) &&
  (at_ 3%nat =? USCORE) && negb (at_ 4%nat =? USCORE).

(** The loop downwards from [i = k - 1]. *)
Fixpoint essential_loop (k : nat) (name : list Z) : option nat :=
  match k with
  | O => None
  | S i => if bpf_core_is_flavor_sep (drop i name) then Some (i + 1)%nat else essential_loop i name
  end.

Definition bpf_core_essential_name_len (name : list Z) : nat :=
  let n := length name in
  match essential_loop (n - 4) name with Some r => r | None => n end.

Definition str_is_empty (s : option (list Z)) : bool :=
  match s with None => true | Some s => bool_decide (s = []) end.

(** [strncmp(a, b, n) == 0] for C strings. *)
Definition strn_eq (a b : list Z) (n : nat) : bool := bool_decide (take n a = take n b).

Definition bpf_core_names_match (local_btf : btf) (local_name_off : Z) (targ_btf : btf) (targ_name_off : Z)
  : option bool :=
  local_n ← btf__name_by_offset local_btf local_name_off;
  targ_n ← btf__name_by_offset targ_btf targ_name_off;
  if str_is_empty targ_n then Some (str_is_empty local_n)
  else
    targ_n ← targ_n;
    local_n ← local_n;
    let targ_len := bpf_core_essential_name_len targ_n in
    let local_len := bpf_core_essential_name_len local_n in
    Some ((targ_len =? local_len)%nat && strn_eq local_n targ_n local_len).


(** ** Compatibility of types *)

(** [for (i = 0; i < n; i++) { err = f i; if (err <= 0) return err; } return k;] *)
Fixpoint each_positive (n : nat) (i : Z) (f : Z -> option Z) (k : option Z) : option Z :=
  match n with
  | O => k
  | S n => err ← f i; if err <=? 0 then Some err else each_positive n (i + 1) f k
  end.

(** The code from the label [recur]: [depth] steps are left, [params] checks the parameters
    of two prototypes and continues. *)
Fixpoint compat_recur (depth : nat) (local_btf targ_btf : btf)
    (params : btf_type -> btf_type -> Z -> option Z -> option Z) (local_id targ_id : Z) : option Z :=
  match depth with
  | O => Some (- EINVAL)
  | S depth =>
    '(local_type, local_id) ← skip_mods_and_typedefs local_btf local_id;
    '(targ_type, targ_id) ← skip_mods_and_typedefs targ_btf targ_id;
    lk ← btf_kind local_type;
    tk ← btf_kind targ_type;
    if negb (kind_core_compat lk tk) then Some 0
    else if (lk =? BTF_KIND_UNKN) || (lk =? BTF_KIND_STRUCT) || (lk =? BTF_KIND_UNION) ||
            (lk =? BTF_KIND_ENUM) || (lk =? BTF_KIND_FWD) || (lk =? BTF_KIND_ENUM64) then Some 1
    else if lk =? BTF_KIND_INT then
      lo ← btf_int_offset local_type;
      to ← btf_int_offset targ_type;
      Some (bool_int ((lo =? 0) && (to =? 0)))
    else if lk =? BTF_KIND_PTR then
      li ← type local_type; ti ← type targ_type; compat_recur depth local_btf targ_btf params li ti
    else if lk =? BTF_KIND_ARRAY then
      la ← array_of local_type; ta ← array_of targ_type;
      compat_recur depth local_btf targ_btf params (arr_type la) (arr_type ta)
    else if lk =? BTF_KIND_FUNC_PROTO then
      local_vlen ← btf_vlen local_type;
      targ_vlen ← btf_vlen targ_type;
      if negb (local_vlen =? targ_vlen) then Some 0
      else
        params local_type targ_type local_vlen
          (li ← type local_type; ti ← type targ_type;
           '(_, li) ← skip_mods_and_typedefs local_btf li;
           '(_, ti) ← skip_mods_and_typedefs targ_btf ti;
           compat_recur depth local_btf targ_btf params li ti)
    else Some 0
  end.

Fixpoint types_are_compat (level : nat) (local_btf : btf) (local_id : Z) (targ_btf : btf) (targ_id : Z)
  : option Z :=
  local_type ← btf_type_by_id local_btf local_id;
  targ_type ← btf_type_by_id targ_btf targ_id;
  c ← btf_kind_core_compat local_type targ_type;
  if negb c then Some 0
  else
    compat_recur 32 local_btf targ_btf
      (fun local_t targ_t vlen k =>
         each_positive (Z.to_nat vlen) 0 (fun i =>
           match level with
           | O => Some (- EINVAL)
           | S level =>
             lp ← btf_param_at local_t i;
             tp ← btf_param_at targ_t i;
             '(_, li) ← skip_mods_and_typedefs local_btf lp.2;
             '(_, ti) ← skip_mods_and_typedefs targ_btf tp.2;
             types_are_compat level local_btf li targ_btf ti
           end) k)
      local_id targ_id.
Definition bpf_core_types_are_compat := types_are_compat 32.

(** ** Compatibility of fields *)
Fixpoint fields_loop (fuel : nat) (local_btf : btf) (local_id : Z) (targ_btf : btf) (targ_id : Z) : option Z :=
  match fuel with
  | O => None
  | S fuel =>
    '(local_type, local_id) ← skip_mods_and_typedefs local_btf local_id;
    '(targ_type, targ_id) ← skip_mods_and_typedefs targ_btf targ_id;
    lk ← btf_kind local_type;
    tk ← btf_kind targ_type;
    if kind_is_composite lk && kind_is_composite tk then Some 1
    else if negb (kind_core_compat lk tk) then Some 0
    else if (lk =? BTF_KIND_PTR) || (lk =? BTF_KIND_FLOAT) then Some 1
    else if (lk =? BTF_KIND_FWD) || (lk =? BTF_KIND_ENUM64) || (lk =? BTF_KIND_ENUM) then
      lo ← name_off local_type;
      to ← name_off targ_type;
      ln ← btf__name_by_offset local_btf lo;
      tn ← btf__name_by_offset targ_btf to;
      local_name ← ln;
      targ_name ← tn;
      let local_len := bpf_core_essential_name_len local_name in
      let targ_len := bpf_core_essential_name_len targ_name in
      Some (bool_int ((local_len =? 0)%nat || (targ_len =? 0)%nat ||
                      ((local_len =? targ_len)%nat && strn_eq local_name targ_name local_len)))
    else if lk =? BTF_KIND_INT then
      lo ← btf_int_offset local_type;
      to ← btf_int_offset targ_type;
      Some (bool_int ((lo =? 0) && (to =? 0)))
    else if lk =? BTF_KIND_ARRAY then
      la ← array_of local_type; ta ← array_of targ_type;
      fields_loop fuel local_btf (arr_type la) targ_btf (arr_type ta)
    else Some 0
  end.

(** The loop has no bound of its own: one step per local type is enough when arrays do not
    contain themselves. *)
Definition bpf_core_fields_are_compat (local_btf : btf) (local_id : Z) (targ_btf : btf) (targ_id : Z) : option Z :=
  n ← btf__type_cnt local_btf; fields_loop (S (Z.to_nat n)) local_btf local_id targ_btf targ_id.

(** ** Matching types *)
Definition enum_name_off (k : Z) (t : btf_type) (i : Z) : option Z :=
  if k =? BTF_KIND_ENUM then e ← btf_enum_at t i; Some e.1 else e ← btf_enum64_at t i; Some e.1.

(** Whether some [j < n] satisfies [f]. *)
Fixpoint some_index (n : nat) (j : Z) (f : Z -> option bool) : option bool :=
  match n with
  | O => Some false
  | S n => r ← f j; if r : bool then Some true else some_index n (j + 1) f
  end.

(** The loops over the variants of two enums. *)
Fixpoint enums_loop (n : nat) (i : Z) (f : Z -> option bool) : option Z :=
  match n with
  | O => Some 1
  | S n => r ← f i; if r : bool then enums_loop n (i + 1) f else Some 0
  end.

Definition bpf_core_enums_match (local_btf : btf) (local_t : btf_type) (targ_btf : btf) (targ_t : btf_type)
  : option Z :=
  lk ← btf_kind local_t; tk ← btf_kind targ_t;
  local_vlen ← btf_vlen local_t; targ_vlen ← btf_vlen targ_t;
  ls ← size local_t; ts ← size targ_t;
  if negb (ls =? ts) then Some 0
  else if local_vlen >? targ_vlen then Some 0
  else
    enums_loop (Z.to_nat local_vlen) 0 (fun i =>
      local_n_off ← enum_name_off lk local_t i;
      some_index (Z.to_nat targ_vlen) 0 (fun j =>
        targ_n_off ← enum_name_off tk targ_t j;
        bpf_core_names_match local_btf local_n_off targ_btf targ_n_off)).

(** The inner loop of [bpf_core_composites_match]: 1 when a member matches, else 0 or an
    error. *)
Fixpoint member_match (n : nat) (j : Z) (names : Z -> option bool) (types : Z -> option Z) : option Z :=
  match n with
  | O => Some 0
  | S n =>
    m ← names j;
    if negb m then member_match n (j + 1) names types
    else
      err ← types j;
      if err <? 0 then Some err
      else if err >? 0 then Some 1
      else member_match n (j + 1) names types
  end.

Definition bpf_core_composites_match (types_match : Z -> Z -> option Z)
    (local_btf : btf) (local_t : btf_type) (targ_btf : btf) (targ_t : btf_type) : option Z :=
  local_vlen ← btf_vlen local_t; targ_vlen ← btf_vlen targ_t;
  if local_vlen >? targ_vlen then Some 0
  else
    each_positive (Z.to_nat local_vlen) 0 (fun i =>
      lm ← btf_member_at local_t i;
      member_match (Z.to_nat targ_vlen) 0
        (fun j => tm ← btf_member_at targ_t j;
           bpf_core_names_match local_btf (m_name_off lm) targ_btf (m_name_off tm))
        (fun j => tm ← btf_member_at targ_t j; types_match (m_type lm) (m_type tm))) (Some 1).

(** The code of [__bpf_core_types_match] from the label [recur]; [rec behind_ptr l t] is the
    recursive call one level down. *)
Fixpoint match_recur (depth : nat) (local_btf targ_btf : btf) (rec : bool -> Z -> Z -> option Z)
    (behind_ptr : bool) (local_id targ_id : Z) : option Z :=
  match depth with
  | O => Some (- EINVAL)
  | S depth =>
    '(local_t, local_id) ← skip_mods_and_typedefs local_btf local_id;
    '(targ_t, targ_id) ← skip_mods_and_typedefs targ_btf targ_id;
    lno ← name_off local_t;
    tno ← name_off targ_t;
    names ← bpf_core_names_match local_btf lno targ_btf tno;
    if negb names then Some 0
    else
      local_k ← btf_kind local_t;
      targ_k ← btf_kind targ_t;
      if local_k =? BTF_KIND_UNKN then Some (bool_int (local_k =? targ_k))
      else if local_k =? BTF_KIND_FWD then
        local_f ← btf_kflag local_t;
        targ_f ← btf_kflag targ_t;
        if behind_ptr then
          if local_k =? targ_k then Some (bool_int (Bool.eqb local_f targ_f))
          else Some (bool_int (((targ_k =? BTF_KIND_STRUCT) && negb local_f) ||
                               ((targ_k =? BTF_KIND_UNION) && local_f)))
        else if negb (local_k =? targ_k) then Some 0
        else Some (bool_int (Bool.eqb local_f targ_f))
      else if (local_k =? BTF_KIND_ENUM) || (local_k =? BTF_KIND_ENUM64) then
        if negb (kind_is_any_enum targ_k) then Some 0
        else bpf_core_enums_match local_btf local_t targ_btf targ_t
      else if (local_k =? BTF_KIND_STRUCT) || (local_k =? BTF_KIND_UNION) then
        if behind_ptr then
          targ_f ← btf_kflag targ_t;
          if local_k =? targ_k then Some 1
          else if negb (targ_k =? BTF_KIND_FWD) then Some 0
          else Some (bool_int (Bool.eqb (local_k =? BTF_KIND_UNION) targ_f))
        else if negb (local_k =? targ_k) then Some 0
        else bpf_core_composites_match (rec behind_ptr) local_btf local_t targ_btf targ_t
      else if local_k =? BTF_KIND_INT then
        if negb (local_k =? targ_k) then Some 0
        else
          le ← btf_int_encoding local_t;
          te ← btf_int_encoding targ_t;
          ls ← size local_t;
          ts ← size targ_t;
          Some (bool_int ((ls =? ts) && (le &' BTF_INT_SIGNED =? te &' BTF_INT_SIGNED)))
      else if local_k =? BTF_KIND_PTR then
        if negb (local_k =? targ_k) then Some 0
        else li ← type local_t; ti ← type targ_t; match_recur depth local_btf targ_btf rec true li ti
      else if local_k =? BTF_KIND_ARRAY then
        if negb (local_k =? targ_k) then Some 0
        else
          la ← array_of local_t; ta ← array_of targ_t;
          if negb (arr_nelems la =? arr_nelems ta) then Some 0
          else match_recur depth local_btf targ_btf rec behind_ptr (arr_type la) (arr_type ta)
      else if local_k =? BTF_KIND_FUNC_PROTO then
        if negb (local_k =? targ_k) then Some 0
        else
          local_vlen ← btf_vlen local_t; targ_vlen ← btf_vlen targ_t;
          if negb (local_vlen =? targ_vlen) then Some 0
          else
            each_positive (Z.to_nat local_vlen) 0 (fun i =>
              lp ← btf_param_at local_t i; tp ← btf_param_at targ_t i; rec behind_ptr lp.2 tp.2)
              (li ← type local_t; ti ← type targ_t; match_recur depth local_btf targ_btf rec behind_ptr li ti)
      else Some 0
  end.

Fixpoint types_match (level : nat) (local_btf targ_btf : btf) (behind_ptr : bool) (local_id targ_id : Z) : option Z :=
  match level with
  | O => Some (- EINVAL)
  | S level => match_recur 32 local_btf targ_btf (types_match level local_btf targ_btf) behind_ptr local_id targ_id
  end.
Definition bpf_core_types_match (local_btf : btf) (local_id : Z) (targ_btf : btf) (targ_id : Z) : option Z :=
  types_match 32 local_btf targ_btf false local_id targ_id.

(** ** Candidates *)

(** The scan of the target types from id [i]; [alloc] tells whether the list can be extended
    for a given id.  The result is the error and the extended list of ids. *)
Fixpoint add_cands_loop (n : nat) (alloc : Z -> bool) (local_t : btf_type) (local_name : list Z) (local_essent_len : nat)
    (targ_btf : btf) (i : Z) (cands : list Z) : option (Z * list Z) :=
  match n with
  | O => Some (0, cands)
  | S n =>
    t ← btf__type_by_id targ_btf i;
    t ← t;
    c ← btf_kind_core_compat t local_t;
    let next cands := add_cands_loop n alloc local_t local_name local_essent_len targ_btf (i + 1) cands in
    if negb c then next cands
    else
      no ← name_off t;
      targ_name ← btf__name_by_offset targ_btf no;
      if str_is_empty targ_name then next cands
      else
        targ_name ← targ_name;
        if negb (bpf_core_essential_name_len targ_name =? local_essent_len)%nat then next cands
        else if negb (strn_eq local_name targ_name local_essent_len) then next cands
        else if negb (alloc i) then Some (- ENOMEM, cands)
        else next (cands ++ [i])
  end.

Definition bpf_core_add_cands (alloc : Z -> bool) (local_btf : btf) (local_id : Z) (local_essent_len : nat)
    (targ_btf : btf) (targ_start_id : Z) (cands : list Z) : option (Z * list Z) :=
  local_t ← btf__type_by_id local_btf local_id;
  local_t ← local_t;
  no ← name_off local_t;
  local_name ← btf__str_by_offset local_btf no;
  local_name ← local_name;
  n ← btf__type_cnt targ_btf;
  add_cands_loop (Z.to_nat (n - targ_start_id)) alloc local_t local_name local_essent_len targ_btf targ_start_id cands.

(** ** Symmetry *)
Lemma kind_core_compat_sym k1 k2 : kind_core_compat k1 k2 = kind_core_compat k2 k1.
Proof. unfold kind_core_compat. by rewrite Z.eqb_sym, andb_comm. Qed.

Lemma each_positive_ext n i f g k k' : (forall i, f i = g i) -> k = k' -> each_positive n i f k = each_positive n i g k'.
Proof. intros Hf ->. revert i. induction n as [|n IH]; intros i; simpl; [done|]. rewrite Hf. destruct (g i); simpl; [|done]. by rewrite IH. Qed.

(** Kinds that are compatible take the same branch of a switch, but for the two enum kinds. *)
Lemma compat_kinds lk tk : kind_core_compat lk tk = true ->
  lk = tk \/ (kind_is_any_enum lk = true /\ kind_is_any_enum tk = true).
Proof.
  unfold kind_core_compat. intros [?%Z.eqb_eq|[? ?]%andb_true_iff]%orb_true_iff; auto.
Qed.

Lemma any_enum_cases k : kind_is_any_enum k = true -> k = BTF_KIND_ENUM \/ k = BTF_KIND_ENUM64.
Proof. unfold kind_is_any_enum. intros [?%Z.eqb_eq|?%Z.eqb_eq]%orb_true_iff; auto. Qed.

Lemma compat_recur_sym depth b1 b2 p1 p2 id1 id2 :
  (forall t1 t2 v k1 k2, k1 = k2 -> p1 t1 t2 v k1 = p2 t2 t1 v k2) ->
  compat_recur depth b1 b2 p1 id1 id2 = compat_recur depth b2 b1 p2 id2 id1.
Proof.
  intros Hp. revert id1 id2. induction depth as [|d IH]; intros id1 id2; [done|]. cbn [compat_recur].
  destruct (skip_mods_and_typedefs b1 id1) as [[t1 i1]|], (skip_mods_and_typedefs b2 id2) as [[t2 i2]|];
    cbn [mbind option_bind]; try done.
  destruct (btf_kind t1) as [k1|], (btf_kind t2) as [k2|]; cbn [mbind option_bind]; try done.
  rewrite (kind_core_compat_sym k2 k1). destruct (kind_core_compat k1 k2) eqn:Hc; cbn [negb]; [|done].
  apply compat_kinds in Hc as [->|[[-> | ->]%any_enum_cases [-> | ->]%any_enum_cases]]; try done.
  destruct (_ || _); [done|]. destruct (k2 =? BTF_KIND_INT).
  { destruct (btf_int_offset t1), (btf_int_offset t2); simpl; try done. by rewrite andb_comm. }
  destruct (k2 =? BTF_KIND_PTR).
  { destruct (type t1), (type t2); cbn [mbind option_bind]; auto. }
  destruct (k2 =? BTF_KIND_ARRAY).
  { destruct (array_of t1), (array_of t2); cbn [mbind option_bind]; auto. }
  destruct (k2 =? BTF_KIND_FUNC_PROTO); [|done].
  destruct (btf_vlen t1) as [v1|], (btf_vlen t2) as [v2|]; cbn [mbind option_bind]; try done.
  rewrite (Z.eqb_sym v2 v1). destruct (Z.eqb_spec v1 v2) as [->|]; cbn [negb]; [|done]. apply Hp.
  destruct (type t1) as [r1|], (type t2) as [r2|]; cbn [mbind option_bind]; try done.
  - destruct (skip_mods_and_typedefs b1 r1) as [[? ?]|], (skip_mods_and_typedefs b2 r2) as [[? ?]|]; cbn [mbind option_bind]; auto.
Qed.

Lemma types_are_compat_sym level b1 id1 b2 id2 :
  types_are_compat level b1 id1 b2 id2 = types_are_compat level b2 id2 b1 id1.
Proof.
  revert id1 id2. induction level as [|level IH]; intros id1 id2; cbn [types_are_compat].
  all: destruct (btf_type_by_id b1 id1) as [t1|], (btf_type_by_id b2 id2) as [t2|]; cbn [mbind option_bind]; try done.
  all: unfold btf_kind_core_compat; destruct (btf_kind t1) as [k1|], (btf_kind t2) as [k2|]; cbn [mbind option_bind]; try done.
  all: rewrite (kind_core_compat_sym k2 k1); destruct (kind_core_compat k1 k2); cbn [negb]; [|done].
  all: apply compat_recur_sym; intros u1 u2 v q1 q2 ->; apply each_positive_ext; [|done]; intros i; try done.
  destruct (btf_param_at u1 i) as [[? p1]|], (btf_param_at u2 i) as [[? p2]|]; cbn [mbind option_bind snd]; try done.
  all: destruct (skip_mods_and_typedefs b1 p1) as [[? ?]|], (skip_mods_and_typedefs b2 p2) as [[? ?]|] || idtac; cbn [mbind option_bind]; auto.
Qed.

Lemma strn_eq_sym a b n : strn_eq a b n = strn_eq b a n.
Proof. unfold strn_eq. by apply bool_decide_ext. Qed.

Lemma fields_loop_sym fuel b1 id1 b2 id2 : fields_loop fuel b1 id1 b2 id2 = fields_loop fuel b2 id2 b1 id1.
Proof.
  revert id1 id2. induction fuel as [|fuel IH]; intros id1 id2; [done|]. cbn [fields_loop].
  destruct (skip_mods_and_typedefs b1 id1) as [[t1 i1]|], (skip_mods_and_typedefs b2 id2) as [[t2 i2]|];
    cbn [mbind option_bind]; try done.
  destruct (btf_kind t1) as [k1|], (btf_kind t2) as [k2|]; cbn [mbind option_bind]; try done.
  rewrite (andb_comm (kind_is_composite k2)). destruct (_ && _); [done|].
  rewrite (kind_core_compat_sym k2 k1). destruct (kind_core_compat k1 k2) eqn:Hc; cbn [negb]; [|done].
  assert ((lo ← name_off t1; to ← name_off t2; ln ← btf__name_by_offset b1 lo; tn ← btf__name_by_offset b2 to;
    local_name ← ln; targ_name ← tn;
    Some (bool_int ((bpf_core_essential_name_len local_name =? 0)%nat || (bpf_core_essential_name_len targ_name =? 0)%nat ||
      ((bpf_core_essential_name_len local_name =? bpf_core_essential_name_len targ_name)%nat &&
        strn_eq local_name targ_name (bpf_core_essential_name_len local_name))))) =
   (lo ← name_off t2; to ← name_off t1; ln ← btf__name_by_offset b2 lo; tn ← btf__name_by_offset b1 to;
    local_name ← ln; targ_name ← tn;
    Some (bool_int ((bpf_core_essential_name_len local_name =? 0)%nat || (bpf_core_essential_name_len targ_name =? 0)%nat ||
      ((bpf_core_essential_name_len local_name =? bpf_core_essential_name_len targ_name)%nat &&
        strn_eq local_name targ_name (bpf_core_essential_name_len local_name)))))) as Hnames.
  { destruct (name_off t1) as [o1|], (name_off t2) as [o2|]; cbn [mbind option_bind]; try done.
    - destruct (btf__name_by_offset b1 o1) as [[n1|]|], (btf__name_by_offset b2 o2) as [[n2|]|]; cbn [mbind option_bind]; try done.
      do 2 f_equal. rewrite (orb_comm (_ =? 0)%nat). f_equal. rewrite Nat.eqb_sym.
      destruct (Nat.eqb_spec (bpf_core_essential_name_len n2) (bpf_core_essential_name_len n1)) as [->|]; [|done].
      cbn [andb]. apply strn_eq_sym. }
  apply compat_kinds in Hc as [->|[[-> | ->]%any_enum_cases [-> | ->]%any_enum_cases]]; try exact Hnames.
  destruct (_ || _); [done|]. destruct (_ || _); [exact Hnames|]. destruct (k2 =? BTF_KIND_INT).
  { destruct (btf_int_offset t1), (btf_int_offset t2); simpl; try done. by rewrite andb_comm. }
  destruct (k2 =? BTF_KIND_ARRAY); [|done]. destruct (array_of t1), (array_of t2); cbn [mbind option_bind]; auto.
Qed.

(** ** Names *)

(** What a name is compared by: the part before the last flavor separator. *)
Definition essential (name : list Z) : list Z := take (bpf_core_essential_name_len name) name.

Lemma essential_loop_spec k name :
  match essential_loop k name with
  | None => forall i, (i < k)%nat -> bpf_core_is_flavor_sep (drop i name) = false
  | Some r => exists i, r = (i + 1)%nat /\ (i < k)%nat /\ bpf_core_is_flavor_sep (drop i name) = true /\
      forall j, (i < j < k)%nat -> bpf_core_is_flavor_sep (drop j name) = false
  end.
Proof.
  induction k as [|k IH]; cbn [essential_loop]; [lia|].
  destruct (bpf_core_is_flavor_sep (drop k name)) eqn:E.
  - exists k. split_and!; [done|lia|done|lia].
  - assert (forall i, (i < k)%nat \/ i = k -> bpf_core_is_flavor_sep (drop i name) = false \/ (i < k)%nat) as Hsplit
      by (intros i [?| ->]; auto).
    destruct (essential_loop k name) as [r|].
    + destruct IH as (i & -> & Hi & Hs & Hj). exists i. split_and!; [done|lia|done|]. intros j Hj'.
      destruct (decide (j = k)) as [->|]; [done|]. apply Hj. lia.
    + intros i Hi. destruct (decide (i = k)) as [->|]; [done|]. apply IH. lia.
Qed.

Lemma essential_len_le name : (bpf_core_essential_name_len name <= length name)%nat.
Proof.
  unfold bpf_core_essential_name_len. pose proof (essential_loop_spec (length name - 4) name) as H.
  destruct (essential_loop _ _) as [r|]; [|lia]. destruct H as (i & -> & ? & _). lia.
Qed.

Lemma strn_eq_essential n1 n2 :
  (bpf_core_essential_name_len n1 =? bpf_core_essential_name_len n2)%nat &&
    strn_eq n2 n1 (bpf_core_essential_name_len n2) = bool_decide (essential n2 = essential n1).
Proof.
  unfold strn_eq, essential. destruct (Nat.eqb_spec (bpf_core_essential_name_len n1) (bpf_core_essential_name_len n2)) as [->|Hne];
    cbn [andb]; [done|]. symmetry. apply bool_decide_eq_false. intros He. apply Hne.
  apply (f_equal length) in He. rewrite !length_take in He. pose proof (essential_len_le n1). pose proof (essential_len_le n2). lia.
Qed.

(** A separator in the middle of a name. *)
Lemma flavor_sep_middle pre c flavor : c <> USCORE -> head flavor <> Some USCORE ->
  bpf_core_is_flavor_sep (drop (length pre) (pre ++ c :: USCORE :: USCORE :: USCORE :: flavor)) = true.
Proof.
  intros Hc Hf. rewrite drop_app_length. unfold bpf_core_is_flavor_sep. cbn.
  destruct (Z.eqb_spec c USCORE); [done|]. cbn. destruct flavor as [|f flavor]; [done|]. cbn in *.
  destruct (Z.eqb_spec f USCORE); [congruence|done].
Qed.

Lemma essential_flavor pre c flavor : c <> USCORE -> flavor <> [] -> head flavor <> Some USCORE ->
  (forall i, bpf_core_is_flavor_sep (drop i flavor) = false) ->
  essential (pre ++ c :: USCORE :: USCORE :: USCORE :: flavor) = pre ++ [c].
Proof.
  intros Hc Hne Hf Hsep. set (name := pre ++ c :: USCORE :: USCORE :: USCORE :: flavor).
  assert (bpf_core_essential_name_len name = length pre + 1)%nat as Hlen.
  { unfold bpf_core_essential_name_len. pose proof (essential_loop_spec (length name - 4) name) as H.
    pose proof (flavor_sep_middle pre c flavor Hc Hf) as Hm. fold name in Hm.
    assert (length name = length pre + 4 + length flavor)%nat as Hn by (unfold name; rewrite length_app; simpl; lia).
    destruct flavor as [|f fl]; [done|]. simpl in Hn.
    destruct (essential_loop _ _) as [r|].
    - destruct H as (i & -> & Hi & Hs & Hj). destruct (decide (i = length pre)) as [->|Hd]; [done|].
      destruct (decide (i < length pre)%nat); [rewrite (Hj (length pre)) in Hm; [done|lia]|].
      exfalso. assert (drop i name = drop (i - length pre - 1) (USCORE :: USCORE :: USCORE :: f :: fl)) as Hdrop.
      { unfold name. rewrite skipn_app, (drop_ge pre i) by lia. simpl. by destruct (i - length pre)%nat eqn:E; [lia|]; simpl; rewrite Nat.sub_0_r. }
      rewrite Hdrop in Hs. destruct (i - length pre - 1)%nat as [|[|[|j]]]; try done.
      simpl in Hs. by rewrite Hsep in Hs.
    - rewrite H in Hm; [done|lia]. }
  unfold essential. rewrite Hlen. unfold name. rewrite firstn_app. 
  rewrite take_ge by lia. replace (length pre + 1 - length pre)%nat with 1%nat by lia. done.
Qed.

Lemma names_match_essential b1 o1 n1 b2 o2 n2 :
  btf__name_by_offset b1 o1 = Some (Some n1) -> btf__name_by_offset b2 o2 = Some (Some n2) -> n2 <> [] ->
  bpf_core_names_match b1 o1 b2 o2 = Some (bool_decide (essential n1 = essential n2)).
Proof.
  intros H1 H2 Hne. unfold bpf_core_names_match. rewrite H1, H2. cbn [mbind option_bind str_is_empty].
  rewrite bool_decide_false by done. by rewrite strn_eq_essential.
Qed.

(** ** Candidates *)
(** Whether the scan takes the type with id [i]. *)
Definition is_cand (local_t : btf_type) (local_name : list Z) (len : nat) (targ_btf : btf) (i : Z) : bool :=
  match btf_type_by_id targ_btf i with
  | Some t =>
    match btf_kind_core_compat t local_t, name_off t ≫= btf__name_by_offset targ_btf with
    | Some true, Some (Some targ_name) =>
      negb (bool_decide (targ_name = [])) && bool_decide (essential targ_name = take len local_name) &&
      (bpf_core_essential_name_len targ_name =? len)%nat
    | _, _ => false
    end
  | None => false
  end.

(** The ids from [i] on. *)
Definition ids_from (i : Z) (n : nat) : list Z := map (fun j => i + Z.of_nat j) (seq 0 n).

Lemma ids_from_S i n : ids_from i (S n) = i :: ids_from (i + 1) n.
Proof.
  unfold ids_from. simpl. f_equal; [lia|]. rewrite <- seq_shift, map_map. apply map_ext. lia.
Qed.

Lemma add_cands_loop_spec n alloc local_t local_name len targ_btf i cands err out :
  add_cands_loop n alloc local_t local_name len targ_btf i cands = Some (err, out) ->
  (err = 0 /\ out = cands ++ List.filter (is_cand local_t local_name len targ_btf) (ids_from i n)) \/
  (err = - ENOMEM /\ exists j, alloc j = false).
Proof.
  revert i cands. induction n as [|n IH]; intros i cands; cbn [add_cands_loop].
  { intros [= <- <-]. left. by rewrite app_nil_r. }
  intros H. rewrite ids_from_S. cbn [List.filter].
  apply bind_Some in H as (ot & Hot & H). apply bind_Some in H as (t & -> & H).
  apply type_by_id_some in Hot. unfold is_cand at 1. rewrite Hot.
  apply bind_Some in H as (c & Hc & H). rewrite Hc. destruct c; cbn [negb] in H; [|by apply IH].
  apply bind_Some in H as (no & Hno & H). rewrite Hno. cbn [mbind option_bind].
  apply bind_Some in H as (tn & Htn & H). rewrite Htn. destruct tn as [tn|]; cbn [str_is_empty] in H; [|by apply IH].
  destruct (bool_decide (tn = [])) eqn:Hemp; cbn [negb andb]; [by apply IH|]. cbn [mbind option_bind] in H.
  destruct (Nat.eqb_spec (bpf_core_essential_name_len tn) len) as [Hl|Hl]; cbn [negb] in H; [|rewrite andb_false_r; by apply IH].
  rewrite andb_true_r. assert (strn_eq local_name tn len = bool_decide (essential tn = take len local_name)) as Hs.
  { unfold strn_eq, essential. rewrite Hl. by apply bool_decide_ext. }
  rewrite Hs in H. destruct (bool_decide (essential tn = take len local_name)); cbn [negb] in H; [|by apply IH].
  destruct (alloc i) eqn:Ha; cbn [negb] in H.
  - apply IH in H as [[-> ->]|?]; [|by right]. left. by rewrite <- app_assoc.
  - simplify_eq. right. eauto.
Qed.

(** ** Safety on valid BTF *)

(** A BTF that passed the checks of loading (btf_sanity_check), with prototypes whose result
    types exist and without a cycle of modifiers and typedefs (in [btf_ok]). *)
Record core_ok (b : btf) (n : Z) : Prop := {
  core_btf : btf_ok b n;
  core_words : words_ok b;
  core_refs id t : 0 < id < n -> btf_type_by_id b id = Some t -> refs_valid b t;
  core_ret id t ty : 0 < id < n -> btf_type_by_id b id = Some t -> btf_kind t = Some BTF_KIND_FUNC_PROTO ->
    type t = Some ty -> 0 <= ty < n;
  core_anon : valid_str b 0
}.

(** [t] is the type of some id of [b]. *)
Definition type_in (b : btf) (n : Z) (t : btf_type) : Prop := exists id, 0 <= id < n /\ btf_type_by_id b id = Some t.

Section Valid.
Context (b : btf) (n : Z) (Hok : core_ok b n).

Lemma valid_id_range id : valid_id b id -> id < n.
Proof.
  intros [t Ht]. unfold btf__type_by_id in Ht. rewrite (ok_cnt b n (core_btf b n Hok)) in Ht. cbn [mbind option_bind] in Ht.
  rewrite Z.geb_leb in Ht. destruct (Z.leb_spec n id); [done|lia].
Qed.

Lemma type_in_words t : type_in b n t -> Forall word_ok t.
Proof. intros (id & _ & Ht). eapply type_words_ok; [exact (core_words b n Hok)|done]. Qed.

Lemma word_id t i x : type_in b n t -> word t i = Some x -> valid_id b x -> 0 <= x < n.
Proof.
  intros Ht Hw Hv. pose proof (valid_id_range x Hv). pose proof (word_value t i x (type_in_words t Ht) Hw) as [? ?]. lia.
Qed.

(** The kind, the name and the count of a type can be read. *)
Lemma type_in_base t : type_in b n t ->
  exists k v no s, btf_kind t = Some k /\ btf_vlen t = Some v /\ name_off t = Some no /\
    btf__name_by_offset b no = Some (Some s) /\ (exists f, btf_kflag t = Some f) /\ exists sz, size t = Some sz.
Proof.
  intros (id & Hid & Ht). destruct (ok_type b n (core_btf b n Hok) id Hid) as (t' & Ht' & Hc).
  rewrite Ht in Ht'. injection Ht' as <-. destruct (decide (id = 0)) as [->|Hnz].
  - assert (t = btf_void) as ->.
    { destruct b as [|l b']; [done|]. simpl in Ht. congruence. }
    destruct (core_anon b n Hok) as [s Hs]. exists 0, 0, 0, s. split_and!; try done; by eexists.
  - destruct Hc as [->|Hc]; [done|]. destruct (core_refs b n Hok id t ltac:(lia) Ht) as [(no & Hno & s & Hs) _].
    destruct Hc as (sz & Hsz & Hlen). unfold btf_type_size in Hsz.
    apply bind_Some in Hsz as (k & Hk & Hsz). apply bind_Some in Hsz as (v & Hv & Hsz).
    assert (12 <= sz) as H12.
    { injection Hsz as <-. pose proof (type_size_rest k v (kind_range _ _ Hk) (proj1 (vlen_range _ _ Hv))) as Hr.
      destruct (rest_words k v); lia. }
    exists k, v, no, s. split_and!; try done.
    + pose proof Hk as Hk'. unfold btf_kind in Hk'. apply bind_Some in Hk' as (i & Hi & _). unfold btf_kflag. rewrite Hi. by eexists.
    + apply zget_is_Some. lia.
Qed.

Lemma type_in_refs t k : type_in b n t -> btf_kind t = Some k -> k <> BTF_KIND_UNKN -> type_complete t /\ refs_valid b t.
Proof.
  intros (id & Hid & Ht) Hk Hnz. assert (id <> 0) as Hid0.
  { intros ->. destruct b as [|l b']; [done|]. simpl in Ht. simplify_eq. apply Hnz. vm_compute in Hk. by injection Hk as <-. }
  destruct (ok_type b n (core_btf b n Hok) id Hid) as (t' & Ht' & Hc).
  rewrite Ht in Ht'. injection Ht' as <-. destruct Hc as [->|Hc]; [done|]. split; [done|].
  apply (core_refs b n Hok id); [lia|done].
Qed.

(** The words of the elements of a type can be read. *)
Lemma type_in_word t k v i : type_in b n t -> btf_kind t = Some k -> k <> BTF_KIND_UNKN -> btf_vlen t = Some v ->
  0 <= i -> 4 * i < type_size_of k v -> exists w, word t i = Some w /\ word_ok w.
Proof.
  intros Ht Hk Hnz Hv Hi Hlt. destruct (type_in_refs t k Ht Hk Hnz) as [Hc _].
  destruct (complete_word t k v i Hc Hk Hv Hi Hlt) as [w Hw]. exists w. split; [done|].
  by eapply word_value; [apply type_in_words|].
Qed.

Lemma skip_in id : 0 <= id < n -> exists t rid, skip_mods_and_typedefs b id = Some (t, rid) /\ 0 <= rid < n /\
  type_in b n t /\ btf_type_by_id b rid = Some t.
Proof.
  intros Hid. destruct (skip_total b n id (core_btf b n Hok) Hid) as (t & rid & Hs & Hr & Hres).
  apply resolved_kind in Hres as (k & _ & _ & Hby). apply type_by_id_some in Hby.
  exists t, rid. split_and!; try done; try lia. by exists rid.
Qed.

(** What the switches over kinds read. *)
Lemma ptr_type t : type_in b n t -> btf_kind t = Some BTF_KIND_PTR -> exists ty, type t = Some ty /\ 0 <= ty < n.
Proof.
  intros Ht Hk. destruct (type_in_base t Ht) as (k & v & _ & _ & _ & Hv & _).
  destruct (type_in_word t _ v 2 Ht Hk ltac:(done) Hv) as (w & Hw & _); [done|done|].
  exists w. split; [done|]. apply (word_id t 2 w Ht Hw). destruct (type_in_refs t _ Ht Hk ltac:(done)) as [_ [_ (k' & Hk' & Hp & _)]].
  apply Hp; [done|]. assert (k' = BTF_KIND_PTR) as -> by congruence. by left.
Qed.

Lemma array_elem t : type_in b n t -> btf_kind t = Some BTF_KIND_ARRAY ->
  exists a, array_of t = Some a /\ 0 <= arr_type a < n.
Proof.
  intros Ht Hk. destruct (type_in_base t Ht) as (k & v & _ & _ & _ & Hv & _).
  destruct (type_in_word t _ v 3 Ht Hk ltac:(done) Hv) as (w3 & Hw3 & _); [done|done|].
  destruct (type_in_word t _ v 4 Ht Hk ltac:(done) Hv) as (w4 & Hw4 & _); [done|done|].
  destruct (type_in_word t _ v 5 Ht Hk ltac:(done) Hv) as (w5 & Hw5 & _); [done|done|].
  assert (array_of t = Some (BtfArray w3 w4 w5)) as Ha.
  { unfold array_of. rewrite Hw3. cbn [mbind option_bind]. rewrite Hw4. cbn [mbind option_bind]. by rewrite Hw5. }
  exists (BtfArray w3 w4 w5). split; [done|]. cbn [arr_type]. apply (word_id t 3 w3 Ht Hw3).
  destruct (type_in_refs t _ Ht Hk ltac:(done)) as [_ [_ (k' & Hk' & _ & Hp & _)]].
  apply (Hp _ Ha). congruence.
Qed.

Lemma int_word t : type_in b n t -> btf_kind t = Some BTF_KIND_INT -> exists w, word t 3 = Some w.
Proof.
  intros Ht Hk. destruct (type_in_base t Ht) as (k & v & _ & _ & _ & Hv & _).
  destruct (type_in_word t _ v 3 Ht Hk ltac:(done) Hv) as (w3 & Hw3 & _); [done|done|]. eauto.
Qed.

Lemma proto_ret t : type_in b n t -> btf_kind t = Some BTF_KIND_FUNC_PROTO -> exists ty, type t = Some ty /\ 0 <= ty < n.
Proof.
  intros Ht Hk. destruct (type_in_base t Ht) as (k & v & _ & _ & _ & Hv & _ & _ & _ & sz & Hsz).
  exists sz. split; [done|]. destruct Ht as (id & Hid & Ht). apply (core_ret b n Hok id t); auto.
  assert (id <> 0); [|lia]. intros ->. destruct b as [|l b']; [done|]. simpl in Ht. simplify_eq.
Qed.

Lemma proto_param t v i : type_in b n t -> btf_kind t = Some BTF_KIND_FUNC_PROTO -> btf_vlen t = Some v -> 0 <= i < v ->
  exists p, btf_param_at t i = Some p /\ 0 <= p.2 < n.
Proof.
  intros Ht Hk Hv Hi.
  destruct (type_in_word t _ v (3 + 2 * i) Ht Hk ltac:(done) Hv) as (w1 & Hw1 & _); [lia|unfold type_size_of; simpl; lia|].
  destruct (type_in_word t _ v (3 + 2 * i + 1) Ht Hk ltac:(done) Hv) as (w2 & Hw2 & _); [lia|unfold type_size_of; simpl; lia|].
  assert (btf_param_at t i = Some (w1, w2)) as Hp.
  { unfold btf_param_at. rewrite Hw1. cbn [mbind option_bind]. by rewrite Hw2. }
  exists (w1, w2). split; [done|]. cbn [snd]. apply (word_id t _ w2 Ht Hw2).
  destruct (type_in_refs t _ Ht Hk ltac:(done)) as [_ [_ (k' & Hk' & _ & _ & _ & _ & _ & Hpar)]].
  apply (Hpar v i (w1, w2)); auto. congruence.
Qed.
End Valid.

(** What the comparisons return. *)
Definition core_result (r : Z) : Prop := r = 1 \/ r = 0 \/ r = - EINVAL.
Definition returns (o : option Z) : Prop := exists r, o = Some r /\ core_result r.

Lemma returns_bool x : returns (Some (bool_int x)).
Proof. destruct x; (eexists; split; [done|]); unfold core_result; auto. Qed.
Lemma returns_0 : returns (Some 0).
Proof. exact (returns_bool false). Qed.
Lemma returns_1 : returns (Some 1).
Proof. exact (returns_bool true). Qed.
Lemma returns_einval : returns (Some (- EINVAL)).
Proof. eexists. split; [done|]. unfold core_result. auto. Qed.
Create HintDb compat.
#[export] Hint Resolve returns_bool returns_0 returns_1 returns_einval : compat.

Lemma each_positive_returns m i f k : (forall j, i <= j < i + Z.of_nat m -> returns (f j)) -> returns k ->
  returns (each_positive m i f k).
Proof.
  revert i. induction m as [|m IH]; intros i Hf Hk; cbn [each_positive]; [done|].
  destruct (Hf i ltac:(lia)) as (r & -> & Hr). cbn [mbind option_bind].
  destruct (r <=? 0); [by exists r|]. apply IH; [|done]. intros j Hj. apply Hf. lia.
Qed.

Section Two.
Context (b1 b2 : btf) (n1 n2 : Z) (H1 : core_ok b1 n1) (H2 : core_ok b2 n2).

Lemma compat_recur_returns depth p id1 id2 : 0 <= id1 < n1 -> 0 <= id2 < n2 ->
  (forall t1 t2 v k, type_in b1 n1 t1 -> type_in b2 n2 t2 -> btf_kind t1 = Some BTF_KIND_FUNC_PROTO ->
     btf_kind t2 = Some BTF_KIND_FUNC_PROTO -> btf_vlen t1 = Some v -> btf_vlen t2 = Some v ->
     returns k -> returns (p t1 t2 v k)) ->
  returns (compat_recur depth b1 b2 p id1 id2).
Proof.
  intros Hi1 Hi2 Hp. revert id1 id2 Hi1 Hi2. induction depth as [|d IH]; intros id1 id2 Hi1 Hi2; cbn [compat_recur]; [auto with compat|].
  destruct (skip_in b1 n1 H1 id1 Hi1) as (t1 & r1 & -> & Hr1 & Ht1 & _).
  destruct (skip_in b2 n2 H2 id2 Hi2) as (t2 & r2 & -> & Hr2 & Ht2 & _). cbn [mbind option_bind].
  destruct (type_in_base b1 n1 H1 t1 Ht1) as (k1 & v1 & _ & _ & Hk1 & Hv1 & _).
  destruct (type_in_base b2 n2 H2 t2 Ht2) as (k2 & v2 & _ & _ & Hk2 & Hv2 & _). rewrite Hk1, Hk2. cbn [mbind option_bind].
  destruct (kind_core_compat k1 k2) eqn:Hc; cbn [negb]; [|auto with compat].
  apply compat_kinds in Hc as [<-|[[-> | ->]%any_enum_cases _]]; [|auto with compat..].
  destruct (_ || _); [auto with compat|].
  destruct (Z.eqb_spec k1 BTF_KIND_INT) as [->|].
  { destruct (int_word b1 n1 H1 t1 Ht1 Hk1) as [w1 Hw1], (int_word b2 n2 H2 t2 Ht2 Hk2) as [w2 Hw2].
    unfold btf_int_offset. rewrite Hw1, Hw2. cbn [mbind option_bind]. auto with compat. }
  destruct (Z.eqb_spec k1 BTF_KIND_PTR) as [->|].
  { destruct (ptr_type b1 n1 H1 t1 Ht1 Hk1) as (y1 & -> & Hy1), (ptr_type b2 n2 H2 t2 Ht2 Hk2) as (y2 & -> & Hy2).
    cbn [mbind option_bind]. by apply IH. }
  destruct (Z.eqb_spec k1 BTF_KIND_ARRAY) as [->|].
  { destruct (array_elem b1 n1 H1 t1 Ht1 Hk1) as (y1 & -> & Hy1), (array_elem b2 n2 H2 t2 Ht2 Hk2) as (y2 & -> & Hy2).
    cbn [mbind option_bind]. by apply IH. }
  destruct (Z.eqb_spec k1 BTF_KIND_FUNC_PROTO) as [->|]; [|auto with compat].
  rewrite Hv1, Hv2. cbn [mbind option_bind]. destruct (Z.eqb_spec v1 v2) as [<-|]; cbn [negb]; [|auto with compat].
  apply Hp; auto.
  destruct (proto_ret b1 n1 H1 t1 Ht1 Hk1) as (y1 & -> & Hy1), (proto_ret b2 n2 H2 t2 Ht2 Hk2) as (y2 & -> & Hy2).
  cbn [mbind option_bind].
  destruct (skip_in b1 n1 H1 y1 Hy1) as (? & ? & -> & ? & _), (skip_in b2 n2 H2 y2 Hy2) as (? & ? & -> & ? & _).
  cbn [mbind option_bind]. by apply IH.
Qed.

Lemma types_are_compat_returns level id1 id2 : 0 <= id1 < n1 -> 0 <= id2 < n2 ->
  returns (types_are_compat level b1 id1 b2 id2).
Proof.
  revert id1 id2. induction level as [|level IH]; intros id1 id2 Hi1 Hi2; cbn [types_are_compat].
  all: destruct (ok_by_id b1 n1 id1 (core_btf b1 n1 H1) Hi1) as (t1 & k1 & _ & -> & Hk1).
  all: destruct (ok_by_id b2 n2 id2 (core_btf b2 n2 H2) Hi2) as (t2 & k2 & _ & -> & Hk2); cbn [mbind option_bind].
  all: unfold btf_kind_core_compat; rewrite Hk1, Hk2; cbn [mbind option_bind].
  all: destruct (kind_core_compat k1 k2); cbn [negb]; [|auto with compat].
  all: apply compat_recur_returns; auto; intros u1 u2 v q Hu1 Hu2 Hku1 Hku2 Hv1 Hv2 Hq.
  all: apply each_positive_returns; [|done]; intros j Hj; try solve [auto with compat].
  pose proof (vlen_range _ _ Hv1).
  destruct (proto_param b1 n1 H1 u1 v j Hu1 Hku1 Hv1 ltac:(lia)) as (p1 & -> & Hp1).
  destruct (proto_param b2 n2 H2 u2 v j Hu2 Hku2 Hv2 ltac:(lia)) as (p2 & -> & Hp2). cbn [mbind option_bind].
  destruct (skip_in b1 n1 H1 _ Hp1) as (? & ? & -> & ? & _), (skip_in b2 n2 H2 _ Hp2) as (? & ? & -> & ? & _).
  cbn [mbind option_bind]. by apply IH.
Qed.
End Two.

(** Enumerators and members of valid types. *)
Lemma enum_name_valid b n t k v i : core_ok b n -> type_in b n t -> btf_kind t = Some k -> kind_is_any_enum k = true ->
  btf_vlen t = Some v -> 0 <= i < v -> exists no, enum_name_off k t i = Some no /\ valid_str b no.
Proof.
  intros Hok Ht Hk He Hv Hi. destruct (type_in_refs b n Hok t k Ht Hk) as [_ [_ (k' & Hk' & _ & _ & _ & He32 & He64 & _)]].
  { by apply any_enum_cases in He as [-> | ->]. }
  assert (k' = k) as -> by congruence. clear Hk'.
  assert (forall j, 0 <= j -> 4 * j < type_size_of k v -> exists w, word t j = Some w /\ word_ok w) as Hw.
  { intros j. apply (type_in_word b n Hok); auto. by apply any_enum_cases in He as [-> | ->]. }
  apply any_enum_cases in He as [-> | ->]; unfold enum_name_off, btf_enum_at, btf_enum64_at in *; cbn [Z.eqb Pos.eqb].
  - destruct (Hw (3 + 2 * i)) as (w1 & Hw1 & _); [lia|unfold type_size_of; simpl; lia|].
    destruct (Hw (3 + 2 * i + 1)) as (w2 & Hw2 & _); [lia|unfold type_size_of; simpl; lia|].
    cbn. rewrite Hw1. cbn [mbind option_bind]. rewrite Hw2. cbn [mbind option_bind fst]. eexists. split; [done|].
    apply (He32 v i (w1, s32 w2)); auto. rewrite Hw1. cbn [mbind option_bind]. by rewrite Hw2.
  - destruct (Hw (3 + 3 * i)) as (w1 & Hw1 & _); [lia|unfold type_size_of; simpl; lia|].
    destruct (Hw (3 + 3 * i + 1)) as (w2 & Hw2 & _); [lia|unfold type_size_of; simpl; lia|].
    destruct (Hw (3 + 3 * i + 2)) as (w3 & Hw3 & _); [lia|unfold type_size_of; simpl; lia|].
    cbn. rewrite Hw1. cbn [mbind option_bind]. rewrite Hw2. cbn [mbind option_bind]. rewrite Hw3.
    cbn [mbind option_bind fst]. eexists. split; [done|].
    apply (He64 v i (w1, (w3 <<' 32) |' w2)); auto. rewrite Hw1. cbn [mbind option_bind]. rewrite Hw2.
    cbn [mbind option_bind]. by rewrite Hw3.
Qed.

Lemma member_valid b n t k v i : core_ok b n -> type_in b n t -> btf_kind t = Some k -> kind_is_composite k = true ->
  btf_vlen t = Some v -> 0 <= i < v ->
  exists m, btf_member_at t i = Some m /\ valid_str b (m_name_off m) /\ 0 <= m_type m < n.
Proof.
  intros Hok Ht Hk Hc Hv Hi. assert (k = BTF_KIND_STRUCT \/ k = BTF_KIND_UNION) as Hk2.
  { unfold kind_is_composite in Hc. apply orb_true_iff in Hc as [?%Z.eqb_eq|?%Z.eqb_eq]; auto. }
  assert (k <> BTF_KIND_UNKN) as Hnz by (by destruct Hk2 as [-> | ->]).
  destruct (type_in_refs b n Hok t k Ht Hk Hnz) as [_ [_ (k' & Hk' & _ & _ & Hm & _)]].
  assert (k' = k) as -> by congruence. clear Hk'.
  assert (forall j, 0 <= j -> j < 3 + 3 * v -> exists w, word t j = Some w /\ word_ok w) as Hw.
  { intros j Hj0 Hj. apply (type_in_word b n Hok t k v); auto. destruct Hk2 as [-> | ->]; unfold type_size_of; simpl; lia. }
  destruct (Hw (3 + 3 * i)) as (w1 & Hw1 & _); [lia|lia|].
  destruct (Hw (3 + 3 * i + 1)) as (w2 & Hw2 & _); [lia|lia|].
  destruct (Hw (3 + 3 * i + 2)) as (w3 & Hw3 & _); [lia|lia|].
  assert (btf_member_at t i = Some (BtfMember w1 w2 w3)) as Hat.
  { unfold btf_member_at. rewrite Hw1. cbn [mbind option_bind]. rewrite Hw2. cbn [mbind option_bind]. by rewrite Hw3. }
  exists (BtfMember w1 w2 w3). split; [done|]. destruct (Hm v i _ Hv Hi Hc Hat) as [Hs Hid]. split; [done|].
  by apply (word_id b n Hok t (3 + 3 * i + 1)).
Qed.

Lemma member_match_returns m j names types : (forall i, j <= i < j + Z.of_nat m -> exists x, names i = Some x) ->
  (forall i, j <= i < j + Z.of_nat m -> returns (types i)) -> returns (member_match m j names types).
Proof.
  revert j. induction m as [|m IH]; intros j Hn Ht; cbn [member_match]; [auto with compat|].
  destruct (Hn j ltac:(lia)) as [x ->]. cbn [mbind option_bind]. 
  assert (returns (member_match m (j + 1) names types)) as Hrest by (apply IH; intros i Hi; [apply Hn|apply Ht]; lia).
  destruct x; cbn [negb]; [|done]. destruct (Ht j ltac:(lia)) as (r & -> & Hr). cbn [mbind option_bind].
  destruct (r <? 0); [by exists r|]. destruct (r >? 0); [auto with compat|done].
Qed.

Lemma some_index_some m j f : (forall i, j <= i < j + Z.of_nat m -> exists x, f i = Some x) -> exists x, some_index m j f = Some x.
Proof.
  revert j. induction m as [|m IH]; intros j Hf; cbn [some_index]; [eauto|].
  destruct (Hf j ltac:(lia)) as [x ->]. cbn [mbind option_bind]. destruct x; [eauto|]. apply IH. intros i Hi. apply Hf. lia.
Qed.

Lemma enums_loop_returns m i f : (forall j, i <= j < i + Z.of_nat m -> exists x, f j = Some x) -> returns (enums_loop m i f).
Proof.
  revert i. induction m as [|m IH]; intros i Hf; cbn [enums_loop]; [auto with compat|].
  destruct (Hf i ltac:(lia)) as [x ->]. cbn [mbind option_bind]. destruct x; [|auto with compat].
  apply IH. intros j Hj. apply Hf. lia.
Qed.

Section Two.
Context (b1 b2 : btf) (n1 n2 : Z) (H1 : core_ok b1 n1) (H2 : core_ok b2 n2).

Lemma names_match_some o1 o2 : valid_str b1 o1 -> valid_str b2 o2 -> exists x, bpf_core_names_match b1 o1 b2 o2 = Some x.
Proof.
  intros [s1 Hs1] [s2 Hs2]. unfold bpf_core_names_match, btf__name_by_offset. rewrite Hs1, Hs2. cbn [mbind option_bind].
  destruct (str_is_empty (Some s2)); eauto.
Qed.

Lemma enums_match_returns t1 t2 k1 k2 : type_in b1 n1 t1 -> type_in b2 n2 t2 -> btf_kind t1 = Some k1 -> btf_kind t2 = Some k2 ->
  kind_is_any_enum k1 = true -> kind_is_any_enum k2 = true -> returns (bpf_core_enums_match b1 t1 b2 t2).
Proof.
  intros Ht1 Ht2 Hk1 Hk2 He1 He2. unfold bpf_core_enums_match. rewrite Hk1, Hk2. cbn [mbind option_bind].
  destruct (type_in_base b1 n1 H1 t1 Ht1) as (_ & v1 & _ & _ & _ & Hv1 & _ & _ & _ & s1 & Hs1).
  destruct (type_in_base b2 n2 H2 t2 Ht2) as (_ & v2 & _ & _ & _ & Hv2 & _ & _ & _ & s2 & Hs2).
  rewrite Hv1, Hv2, Hs1, Hs2. cbn [mbind option_bind]. destruct (s1 =? s2); cbn [negb]; [|auto with compat].
  destruct (v1 >? v2); [auto with compat|]. pose proof (vlen_range _ _ Hv1). pose proof (vlen_range _ _ Hv2).
  apply enums_loop_returns. intros i Hi.
  destruct (enum_name_valid b1 n1 t1 k1 v1 i H1 Ht1 Hk1 He1 Hv1 ltac:(lia)) as (o1 & -> & Ho1). cbn [mbind option_bind].
  apply some_index_some. intros j Hj.
  destruct (enum_name_valid b2 n2 t2 k2 v2 j H2 Ht2 Hk2 He2 Hv2 ltac:(lia)) as (o2 & -> & Ho2). cbn [mbind option_bind].
  by apply names_match_some.
Qed.

Lemma composites_match_returns rec t1 t2 k1 k2 :
  type_in b1 n1 t1 -> type_in b2 n2 t2 -> btf_kind t1 = Some k1 -> btf_kind t2 = Some k2 ->
  kind_is_composite k1 = true -> kind_is_composite k2 = true ->
  (forall i1 i2, 0 <= i1 < n1 -> 0 <= i2 < n2 -> returns (rec i1 i2)) ->
  returns (bpf_core_composites_match rec b1 t1 b2 t2).
Proof.
  intros Ht1 Ht2 Hk1 Hk2 Hc1 Hc2 Hrec. unfold bpf_core_composites_match.
  destruct (type_in_base b1 n1 H1 t1 Ht1) as (_ & v1 & _ & _ & _ & Hv1 & _).
  destruct (type_in_base b2 n2 H2 t2 Ht2) as (_ & v2 & _ & _ & _ & Hv2 & _).
  rewrite Hv1, Hv2. cbn [mbind option_bind]. destruct (v1 >? v2); [auto with compat|].
  pose proof (vlen_range _ _ Hv1). pose proof (vlen_range _ _ Hv2).
  apply each_positive_returns; [|auto with compat]. intros i Hi.
  destruct (member_valid b1 n1 t1 k1 v1 i H1 Ht1 Hk1 Hc1 Hv1 ltac:(lia)) as (m1 & -> & Hs1 & Hm1). cbn [mbind option_bind].
  apply member_match_returns; intros j Hj;
    destruct (member_valid b2 n2 t2 k2 v2 j H2 Ht2 Hk2 Hc2 Hv2 ltac:(lia)) as (m2 & -> & Hs2 & Hm2); cbn [mbind option_bind].
  - by apply names_match_some.
  - by apply Hrec.
Qed.

Lemma match_recur_returns depth rec bp id1 id2 : 0 <= id1 < n1 -> 0 <= id2 < n2 ->
  (forall bp i1 i2, 0 <= i1 < n1 -> 0 <= i2 < n2 -> returns (rec bp i1 i2)) ->
  returns (match_recur depth b1 b2 rec bp id1 id2).
Proof.
  intros Hi1 Hi2 Hrec. revert bp id1 id2 Hi1 Hi2. induction depth as [|d IH]; intros bp id1 id2 Hi1 Hi2; cbn [match_recur]; [auto with compat|].
  destruct (skip_in b1 n1 H1 id1 Hi1) as (t1 & r1 & -> & Hr1 & Ht1 & _).
  destruct (skip_in b2 n2 H2 id2 Hi2) as (t2 & r2 & -> & Hr2 & Ht2 & _). cbn [mbind option_bind].
  destruct (type_in_base b1 n1 H1 t1 Ht1) as (k1 & v1 & o1 & s1 & Hk1 & Hv1 & Ho1 & Hs1 & (f1 & Hf1) & z1 & Hz1).
  destruct (type_in_base b2 n2 H2 t2 Ht2) as (k2 & v2 & o2 & s2 & Hk2 & Hv2 & Ho2 & Hs2 & (f2 & Hf2) & z2 & Hz2).
  rewrite Ho1, Ho2. cbn [mbind option_bind].
  destruct (names_match_some o1 o2) as [x ->]; [by exists s1|by exists s2|]. cbn [mbind option_bind].
  destruct x; cbn [negb]; [|auto with compat]. rewrite Hk1, Hk2. cbn [mbind option_bind]. rewrite Hf1, Hf2. cbn [mbind option_bind].
  destruct (k1 =? BTF_KIND_UNKN); [auto with compat|].
  destruct (k1 =? BTF_KIND_FWD); [destruct bp, (k1 =? k2); cbn [negb]; auto with compat|].
  destruct ((k1 =? BTF_KIND_ENUM) || (k1 =? BTF_KIND_ENUM64)) eqn:He.
  { destruct (kind_is_any_enum k2) eqn:He2; cbn [negb]; [|auto with compat]. by eapply enums_match_returns. }
  destruct ((k1 =? BTF_KIND_STRUCT) || (k1 =? BTF_KIND_UNION)) eqn:Hc.
  { destruct bp; [destruct (k1 =? k2), (k2 =? BTF_KIND_FWD); cbn [negb]; auto with compat|].
    destruct (Z.eqb_spec k1 k2) as [<-|]; cbn [negb]; [|auto with compat].
    eapply composites_match_returns; [done..|]. intros. by apply Hrec. }
  destruct (Z.eqb_spec k1 BTF_KIND_INT) as [->|].
  { destruct (Z.eqb_spec BTF_KIND_INT k2) as [<-|]; cbn [negb]; [|auto with compat].
    destruct (int_word b1 n1 H1 t1 Ht1 Hk1) as [w1 Hw1], (int_word b2 n2 H2 t2 Ht2 Hk2) as [w2 Hw2].
    unfold btf_int_encoding. rewrite Hw1, Hw2, Hz1, Hz2. cbn [mbind option_bind]. auto with compat. }
  destruct (Z.eqb_spec k1 BTF_KIND_PTR) as [->|].
  { destruct (Z.eqb_spec BTF_KIND_PTR k2) as [<-|]; cbn [negb]; [|auto with compat].
    destruct (ptr_type b1 n1 H1 t1 Ht1 Hk1) as (y1 & -> & Hy1), (ptr_type b2 n2 H2 t2 Ht2 Hk2) as (y2 & -> & Hy2).
    cbn [mbind option_bind]. by apply IH. }
  destruct (Z.eqb_spec k1 BTF_KIND_ARRAY) as [->|].
  { destruct (Z.eqb_spec BTF_KIND_ARRAY k2) as [<-|]; cbn [negb]; [|auto with compat].
    destruct (array_elem b1 n1 H1 t1 Ht1 Hk1) as (y1 & -> & Hy1), (array_elem b2 n2 H2 t2 Ht2 Hk2) as (y2 & -> & Hy2).
    cbn [mbind option_bind]. destruct (arr_nelems y1 =? arr_nelems y2); cbn [negb]; [|auto with compat]. by apply IH. }
  destruct (Z.eqb_spec k1 BTF_KIND_FUNC_PROTO) as [->|]; [|auto with compat].
  destruct (Z.eqb_spec BTF_KIND_FUNC_PROTO k2) as [<-|]; cbn [negb]; [|auto with compat].
  rewrite Hv1, Hv2. cbn [mbind option_bind]. destruct (Z.eqb_spec v1 v2) as [<-|]; cbn [negb]; [|auto with compat].
  pose proof (vlen_range _ _ Hv1). apply each_positive_returns.
  - intros j Hj. destruct (proto_param b1 n1 H1 t1 v1 j Ht1 Hk1 Hv1 ltac:(lia)) as (p1 & -> & Hp1).
    destruct (proto_param b2 n2 H2 t2 v1 j Ht2 Hk2 Hv2 ltac:(lia)) as (p2 & -> & Hp2). cbn [mbind option_bind]. by apply Hrec.
  - destruct (proto_ret b1 n1 H1 t1 Ht1 Hk1) as (y1 & -> & Hy1), (proto_ret b2 n2 H2 t2 Ht2 Hk2) as (y2 & -> & Hy2).
    cbn [mbind option_bind]. by apply IH.
Qed.

Lemma types_match_returns level bp id1 id2 : 0 <= id1 < n1 -> 0 <= id2 < n2 -> returns (types_match level b1 b2 bp id1 id2).
Proof.
  revert bp id1 id2. induction level as [|level IH]; intros bp id1 id2 Hi1 Hi2; cbn [types_match]; [auto with compat|].
  apply match_recur_returns; auto.
Qed.
End Two.

(** ** Fields *)

(** No array contains itself, through aliases or not. *)
Definition arrays_acyclic (b : btf) (n : Z) : Prop :=
  exists rank : Z -> nat, forall id, 0 <= id < n -> (rank id <= Z.to_nat n)%nat /\
    forall t k, btf_type_by_id b id = Some t -> btf_kind t = Some k ->
      (forall ty, skipped_kind k = true -> type t = Some ty -> (rank ty < rank id)%nat) /\
      (forall a, k = BTF_KIND_ARRAY -> array_of t = Some a -> (rank (arr_type a) < rank id)%nat).

Lemma resolved_rank b n (rank : Z -> nat) : btf_ok b n ->
  (forall id, 0 <= id < n -> forall t k ty, btf_type_by_id b id = Some t -> btf_kind t = Some k ->
     skipped_kind k = true -> type t = Some ty -> (rank ty < rank id)%nat) ->
  forall id t rid, resolved b id t rid -> 0 <= id < n -> (rank rid <= rank id)%nat.
Proof.
  intros Hok Hrank. induction 1 as [|id t k ty t' rid Hby Hk Hs Hty Hres IH]; intros Hid; [done|].
  apply type_by_id_some in Hby. pose proof (ok_alias b n Hok id t k ty Hid Hby Hk Hs Hty).
  pose proof (Hrank id Hid t k ty Hby Hk Hs Hty). specialize (IH ltac:(done)). lia.
Qed.

Lemma fields_loop_fuel fuel b1 id1 b2 id2 r : fields_loop fuel b1 id1 b2 id2 = Some r ->
  forall fuel', (fuel <= fuel')%nat -> fields_loop fuel' b1 id1 b2 id2 = Some r.
Proof.
  revert id1 id2. induction fuel as [|fuel IH]; intros id1 id2 H fuel' Hle; [done|].
  destruct fuel' as [|fuel']; [lia|]. cbn [fields_loop] in *.
  destruct (skip_mods_and_typedefs b1 id1) as [[t1 r1]|], (skip_mods_and_typedefs b2 id2) as [[t2 r2]|];
    cbn [mbind option_bind] in *; try done.
  destruct (btf_kind t1) as [k1|], (btf_kind t2) as [k2|]; cbn [mbind option_bind] in *; try done.
  destruct (_ && _); [done|]. destruct (negb _); [done|]. destruct (_ || _); [done|]. destruct (_ || _); [done|].
  destruct (k1 =? BTF_KIND_INT); [done|]. destruct (k1 =? BTF_KIND_ARRAY); [|done].
  destruct (array_of t1), (array_of t2); cbn [mbind option_bind] in *; try done. apply IH; [done|lia].
Qed.

Lemma fields_loop_returns b1 n1 b2 n2 (rank : Z -> nat) fuel id1 id2 : core_ok b1 n1 -> core_ok b2 n2 ->
  (forall id, 0 <= id < n1 -> (rank id <= Z.to_nat n1)%nat /\
    forall t k, btf_type_by_id b1 id = Some t -> btf_kind t = Some k ->
      (forall ty, skipped_kind k = true -> type t = Some ty -> (rank ty < rank id)%nat) /\
      (forall a, k = BTF_KIND_ARRAY -> array_of t = Some a -> (rank (arr_type a) < rank id)%nat)) ->
  0 <= id1 < n1 -> 0 <= id2 < n2 -> (rank id1 < fuel)%nat -> returns (fields_loop fuel b1 id1 b2 id2).
Proof.
  intros H1 H2 Hrank. revert id1 id2. induction fuel as [|fuel IH]; intros id1 id2 Hi1 Hi2 Hf; [lia|]. cbn [fields_loop].
  destruct (skip_total b1 n1 id1 (core_btf _ _ H1) Hi1) as (t1 & r1 & -> & Hr1 & Hres).
  pose proof (resolved_rank b1 n1 rank (core_btf _ _ H1)
    (fun id Hid t k ty Ht Hk Hs Hty => proj1 (proj2 (Hrank id Hid) t k Ht Hk) ty Hs Hty) _ _ _ Hres Hi1) as Hle.
  apply resolved_kind in Hres as (k1 & Hk1 & _ & Hby1). apply type_by_id_some in Hby1.
  assert (type_in b1 n1 t1) as Ht1 by (by exists r1).
  destruct (skip_in b2 n2 H2 id2 Hi2) as (t2 & r2 & -> & Hr2 & Ht2 & _). cbn [mbind option_bind].
  destruct (type_in_base b1 n1 H1 t1 Ht1) as (k1' & v1 & o1 & s1 & _ & Hv1 & Ho1 & Hs1 & _).
  destruct (type_in_base b2 n2 H2 t2 Ht2) as (k2 & v2 & o2 & s2 & Hk2 & Hv2 & Ho2 & Hs2 & _).
  rewrite Hk1, Hk2. cbn [mbind option_bind]. destruct (_ && _); [auto with compat|].
  destruct (kind_core_compat k1 k2) eqn:Hc; cbn [negb]; [|auto with compat].
  destruct (_ || _); [auto with compat|]. destruct (_ || _).
  { rewrite Ho1, Ho2. cbn [mbind option_bind]. rewrite Hs1, Hs2. cbn [mbind option_bind]. auto with compat. }
  destruct (Z.eqb_spec k1 BTF_KIND_INT) as [->|].
  { apply compat_kinds in Hc as [<-|[? _]]; [|done].
    destruct (int_word b1 n1 H1 t1 Ht1 Hk1) as [w1 Hw1], (int_word b2 n2 H2 t2 Ht2 Hk2) as [w2 Hw2].
    unfold btf_int_offset. rewrite Hw1, Hw2. cbn [mbind option_bind]. auto with compat. }
  destruct (Z.eqb_spec k1 BTF_KIND_ARRAY) as [->|]; [|auto with compat].
  apply compat_kinds in Hc as [<-|[? _]]; [|done].
  destruct (array_elem b1 n1 H1 t1 Ht1 Hk1) as (y1 & Hy1 & Hy1r), (array_elem b2 n2 H2 t2 Ht2 Hk2) as (y2 & -> & Hy2).
  rewrite Hy1. cbn [mbind option_bind]. pose proof (proj2 (proj2 (Hrank r1 Hr1) _ _ Hby1 Hk1) y1 eq_refl Hy1). apply IH; auto. lia.
Qed.

Lemma fields_are_compat_returns b1 n1 id1 b2 n2 id2 : core_ok b1 n1 -> core_ok b2 n2 -> arrays_acyclic b1 n1 ->
  0 <= id1 < n1 -> 0 <= id2 < n2 -> returns (bpf_core_fields_are_compat b1 id1 b2 id2).
Proof.
  intros H1 H2 [rank Hr] Hi1 Hi2. unfold bpf_core_fields_are_compat. rewrite (ok_cnt _ _ (core_btf _ _ H1)). cbn [mbind option_bind].
  apply (fields_loop_returns b1 n1 b2 n2 rank); auto. pose proof (proj1 (Hr id1 Hi1)). lia.
Qed.

Lemma fields_are_compat_sym b1 id1 b2 id2 r1 r2 : bpf_core_fields_are_compat b1 id1 b2 id2 = Some r1 ->
  bpf_core_fields_are_compat b2 id2 b1 id1 = Some r2 -> r1 = r2.
Proof.
  unfold bpf_core_fields_are_compat. intros Ha Hb. apply bind_Some in Ha as (n1 & _ & Ha). apply bind_Some in Hb as (n2 & _ & Hb).
  rewrite fields_loop_sym in Hb. set (m := Nat.max (S (Z.to_nat n1)) (S (Z.to_nat n2))).
  pose proof (fields_loop_fuel _ _ _ _ _ _ Ha m ltac:(lia)). pose proof (fields_loop_fuel _ _ _ _ _ _ Hb m ltac:(lia)). congruence.
Qed.

(** [name] is [base], or [base] with a flavor. *)
Definition no_sep (s : list Z) : Prop := forall i, bpf_core_is_flavor_sep (drop i s) = false.
Definition flavored (base name : list Z) : Prop :=
  name <> [] /\
  ((name = base /\ no_sep base) \/
   exists pre c flavor, base = pre ++ [c] /\ name = pre ++ c :: USCORE :: USCORE :: USCORE :: flavor /\
     c <> USCORE /\ flavor <> [] /\ head flavor <> Some USCORE /\ no_sep flavor).

Lemma flavored_essential base name : flavored base name -> essential name = base /\ name <> [].
Proof.
  intros [Hne [[-> Hs]|(pre & c & flavor & -> & -> & Hc & Hf & Hh & Hs)]]; (split; [|done]).
  - unfold essential, bpf_core_essential_name_len. pose proof (essential_loop_spec (length base - 4) base) as H.
    destruct (essential_loop _ _) as [r|]; [|by apply take_ge]. destruct H as (i & _ & _ & H & _). by rewrite Hs in H.
  - by apply essential_flavor.
Qed.

Lemma add_cands_loop_total alloc t1 k1 name1 len b2 n2 m i cands : core_ok b2 n2 -> btf_kind t1 = Some k1 ->
  0 <= i -> i + Z.of_nat m <= n2 ->
  exists err out, add_cands_loop m alloc t1 name1 len b2 i cands = Some (err, out).
Proof.
  intros H2 Hk1. revert i cands. induction m as [|m IH]; intros i cands Hi Hm; cbn [add_cands_loop]; [eauto|].
  destruct (ok_by_id b2 n2 i (core_btf _ _ H2) ltac:(lia)) as (t & k & -> & Ht & Hk). cbn [mbind option_bind].
  unfold btf_kind_core_compat. rewrite Hk, Hk1. cbn [mbind option_bind].
  assert (forall cands, exists err out, add_cands_loop m alloc t1 name1 len b2 (i + 1) cands = Some (err, out)) as Hnext.
  { intros c. apply IH; lia. }
  destruct (type_in_base b2 n2 H2 t) as (_ & _ & no & s & _ & _ & Hno & Hs & _); [exists i; split; [lia|done]|].
  rewrite Hno. cbn [mbind option_bind]. rewrite Hs. cbn [mbind option_bind].
  repeat match goal with |- context [if ?c then _ else _] => destruct c end; eauto.
Qed.

(** ** Properties *)

(** C31. On BTF that passed validation, whose prototypes return existing types and in which no
    modifiers and typedefs form a cycle (with one, skipping them never ends, see
    [typedef_cycle_endless]), the recursive comparisons of types end and return 1, 0 or -EINVAL:
    no lookup misses, whatever cycles the types have through pointers, arrays, prototypes and
    members. *)
Theorem core_comparisons_return b1 n1 id1 b2 n2 id2 : core_ok b1 n1 -> core_ok b2 n2 -> 0 <= id1 < n1 -> 0 <= id2 < n2 ->
  returns (bpf_core_types_are_compat b1 id1 b2 id2) /\ returns (bpf_core_types_match b1 id1 b2 id2).
Proof. intros H1 H2 Hi1 Hi2. split; [by eapply types_are_compat_returns|by eapply types_match_returns]. Qed.

(** Compatibility of types does not depend on which of the two is the local one. *)
Theorem types_are_compat_symmetric b1 id1 b2 id2 :
  bpf_core_types_are_compat b1 id1 b2 id2 = bpf_core_types_are_compat b2 id2 b1 id1.
Proof. apply types_are_compat_sym. Qed.

(** Compatibility of fields is decided in one step per local type when arrays do not
    contain themselves, and it is symmetric. *)
Theorem fields_are_compat_decided b1 n1 id1 b2 n2 id2 : core_ok b1 n1 -> core_ok b2 n2 ->
  arrays_acyclic b1 n1 -> arrays_acyclic b2 n2 -> 0 <= id1 < n1 -> 0 <= id2 < n2 ->
  exists r, bpf_core_fields_are_compat b1 id1 b2 id2 = Some r /\ bpf_core_fields_are_compat b2 id2 b1 id1 = Some r /\ core_result r.
Proof.
  intros H1 H2 Ha1 Ha2 Hi1 Hi2. destruct (fields_are_compat_returns b1 n1 id1 b2 n2 id2) as (r & Hr & Hres); auto.
  destruct (fields_are_compat_returns b2 n2 id2 b1 n1 id1) as (r' & Hr' & _); auto.
  exists r. split; [done|]. split; [|done]. by rewrite (fields_are_compat_sym _ _ _ _ _ _ Hr Hr').
Qed.

(** Names match exactly when what precedes their flavors is the same: [task], [task___old]
    and [task___v2] all match each other, and nothing with another base. *)
Theorem flavored_names_match b1 o1 base1 n1 b2 o2 base2 n2 :
  btf__name_by_offset b1 o1 = Some (Some n1) -> btf__name_by_offset b2 o2 = Some (Some n2) ->
  flavored base1 n1 -> flavored base2 n2 ->
  bpf_core_names_match b1 o1 b2 o2 = Some (bool_decide (base1 = base2)).
Proof.
  intros H1 H2 Hf1 Hf2. destruct (flavored_essential _ _ Hf2) as [He2 Hne].
  rewrite (names_match_essential b1 o1 n1 b2 o2 n2); auto. by rewrite He2, (proj1 (flavored_essential _ _ Hf1)).
Qed.

(** On valid BTF the scan for candidates appends, in the order of their ids, exactly the
    target types of a compatible kind whose name agrees with the local one up to its flavor;
    it fails only when the list cannot be extended. *)
Theorem add_cands_exact alloc b1 n1 id1 b2 n2 start len cands : core_ok b1 n1 -> core_ok b2 n2 -> 0 <= id1 < n1 ->
  0 <= start <= n2 -> exists t1 name1 err out,
    btf_type_by_id b1 id1 = Some t1 /\ name_off t1 ≫= btf__str_by_offset b1 = Some (Some name1) /\
    bpf_core_add_cands alloc b1 id1 len b2 start cands = Some (err, out) /\
    ((err = 0 /\ out = cands ++ List.filter (is_cand t1 name1 len b2) (ids_from start (Z.to_nat (n2 - start)))) \/
     (err = - ENOMEM /\ exists j, alloc j = false)).
Proof.
  intros H1 H2 Hi Hs. destruct (ok_by_id b1 n1 id1 (core_btf _ _ H1) Hi) as (t1 & k1 & Hby & Ht1 & Hk1).
  destruct (type_in_base b1 n1 H1 t1) as (_ & _ & no & name1 & _ & _ & Hno & Hname & _); [by exists id1|].
  destruct (add_cands_loop_total alloc t1 k1 name1 len b2 n2 (Z.to_nat (n2 - start)) start cands H2 Hk1) as (err & out & Hr); [lia..|].
  exists t1, name1, err, out. split; [done|]. split; [by rewrite Hno|]. split; [|by eapply add_cands_loop_spec].
  unfold bpf_core_add_cands. rewrite Hby. cbn [mbind option_bind]. rewrite Hno. cbn [mbind option_bind].
  unfold btf__name_by_offset in Hname. rewrite Hname. cbn [mbind option_bind].
  rewrite (ok_cnt _ _ (core_btf _ _ H2)). done.
Qed.

(** ** Witnesses *)
Lemma demo_core_ok : core_ok demo_btf 4.
Proof.
  split.
  - exact demo_btf_ok.
  - repeat constructor; unfold word_ok; lia.
  - intros id t Hid Ht. apply (sanity_check_ok demo_btf demo_layer) with (n := 4) (id := id); [done|vm_compute; reflexivity|reflexivity|simpl; lia|exact Ht].
  - intros id t ty Hid Ht Hk. assert (id = 1 \/ id = 2 \/ id = 3) as [->|[->| ->]] by lia;
      vm_compute in Ht; simplify_eq; vm_compute in Hk; discriminate.
  - eexists. vm_compute. reflexivity.
Qed.

Lemma demo_acyclic : arrays_acyclic demo_btf 4.
Proof.
  exists (fun id => if id =? 3 then 2%nat else if id =? 2 then 1%nat else 0%nat). intros id Hid.
  split; [destruct (id =? 3), (id =? 2); simpl; lia|]. intros t k Ht Hk.
  assert (id = 0 \/ id = 1 \/ id = 2 \/ id = 3) as [->|[->|[->| ->]]] by lia; vm_compute in Ht; simplify_eq;
    vm_compute in Hk; simplify_eq; (split; [intros ty Hs Hty|intros a Ha Hty]); try discriminate; vm_compute in Hty; simplify_eq; simpl; lia.
Qed.

(** A typedef of itself passes the sanity check, but skipping it does not end, in any number of
    steps, and so the comparisons of it never return. *)
Definition self_typedef : btf := [BtfLayer [1; 0x08000000; 1] [0] 1 1 0 [0; 97; 0] 3 8].
Theorem typedef_cycle_endless : btf_sanity_check self_typedef = Some 0 /\ (forall steps, skip_loop steps self_typedef 1 = None) /\
  bpf_core_types_are_compat self_typedef 1 self_typedef 1 = None /\ bpf_core_types_match self_typedef 1 self_typedef 1 = None.
Proof.
  split; [vm_compute; reflexivity|]. split; [|split; vm_compute; reflexivity].
  induction steps as [|steps IH]; [done|]. exact IH.
Qed.

Lemma core_comparisons_return_witness : returns (bpf_core_types_are_compat demo_btf 2 demo_btf 3).
Proof. apply (core_comparisons_return demo_btf 4 2 demo_btf 4 3); [exact demo_core_ok|exact demo_core_ok|lia|lia]. Defined.

Lemma fields_are_compat_decided_witness : exists r, bpf_core_fields_are_compat demo_btf 3 demo_btf 3 = Some r.
Proof.
  destruct (fields_are_compat_decided demo_btf 4 3 demo_btf 4 3) as (r & Hr & _);
    [exact demo_core_ok|exact demo_core_ok|exact demo_acyclic|exact demo_acyclic|lia|lia|]. exists r. exact Hr.
Defined.

(** ["", "t", "t___v2"] *)
Definition names_btf : btf := [BtfLayer [] [] 0 1 0 [0; 116; 0; 116; 95; 95; 95; 118; 50; 0] 10 8].

Lemma flavored_names_match_witness : bpf_core_names_match names_btf 3 names_btf 1 = Some (bool_decide ([116] = [116])).
Proof.
  apply (flavored_names_match names_btf 3 [116] [116; 95; 95; 95; 118; 50] names_btf 1 [116] [116]);
    [vm_compute; reflexivity|vm_compute; reflexivity| |].
  - split; [discriminate|]. right. exists [], 116, [118; 50]. split_and!; try discriminate; try reflexivity.
    intros [|[|[|i]]]; reflexivity.
  - split; [discriminate|]. left. split; [reflexivity|]. intros [|[|i]]; reflexivity.
Defined.

Lemma add_cands_exact_witness : exists err out, bpf_core_add_cands (fun _ => true) demo_btf 1 0 demo_btf 1 [] = Some (err, out).
Proof.
  destruct (add_cands_exact (fun _ => true) demo_btf 4 1 demo_btf 4 1 0 []) as (t & nm & err & out & _ & _ & H & _);
    [exact demo_core_ok|exact demo_core_ok|lia|lia|]. exists err, out. exact H.
Defined.
