(* ===== verification/CoreSpec.v ===== *)
(** * CO-RE: access specs

    src/libbpf/src/relo_core.c: [bpf_core_parse_spec] turns a relocation into an access spec
    over the local BTF, [bpf_core_match_member] and [bpf_core_spec_match] find the same access
    in a target type.

    A spec keeps two arrays of 64 elements; writing outside of them is [None].  Results are
    the C results, with the spec as the code leaves it. *)
From stdpp Require Import base numbers list gmap.
From S2P Require Import Prelude Hashmap Strset Btf CoreCompat.

(** ** Data *)
Definition BPF_CORE_SPEC_MAX_LEN := 64.
Definition BPF_CORE_FIELD_BYTE_OFFSET := 0.
Definition BPF_CORE_FIELD_BYTE_SIZE := 1.
Definition BPF_CORE_FIELD_EXISTS := 2.
Definition BPF_CORE_FIELD_SIGNED := 3.
Definition BPF_CORE_FIELD_LSHIFT_U64 := 4.
Definition BPF_CORE_FIELD_RSHIFT_U64 := 5.
Definition BPF_CORE_TYPE_ID_LOCAL := 6.
Definition BPF_CORE_TYPE_ID_TARGET := 7.
Definition BPF_CORE_TYPE_EXISTS := 8.
Definition BPF_CORE_TYPE_SIZE := 9.
Definition BPF_CORE_ENUMVAL_EXISTS := 10.
Definition BPF_CORE_ENUMVAL_VALUE := 11.
Definition BPF_CORE_TYPE_MATCHES := 12.

Definition core_relo_is_field_based (kind : Z) : bool :=
  (kind =? BPF_CORE_FIELD_BYTE_OFFSET) || (kind =? BPF_CORE_FIELD_BYTE_SIZE) || (kind =? BPF_CORE_FIELD_EXISTS) ||
  (kind =? BPF_CORE_FIELD_SIGNED) || (kind =? BPF_CORE_FIELD_LSHIFT_U64) || (kind =? BPF_CORE_FIELD_RSHIFT_U64).
Definition core_relo_is_type_based (kind : Z) : bool :=
  (kind =? BPF_CORE_TYPE_ID_LOCAL) || (kind =? BPF_CORE_TYPE_ID_TARGET) || (kind =? BPF_CORE_TYPE_EXISTS) ||
  (kind =? BPF_CORE_TYPE_MATCHES) || (kind =? BPF_CORE_TYPE_SIZE).
Definition core_relo_is_enumval_based (kind : Z) : bool :=
  (kind =? BPF_CORE_ENUMVAL_EXISTS) || (kind =? BPF_CORE_ENUMVAL_VALUE).

Record bpf_core_relo := Relo { r_type_id : Z; r_access_str_off : Z; r_kind : Z }.

Record bpf_core_accessor := Acc { acc_type_id : Z; acc_idx : Z; acc_name : option (list Z) }.

Record bpf_core_spec := Spec {
  spec_btf : btf;
  accs : list bpf_core_accessor;   (** the array [spec] *)
  root_type_id : Z;
  relo_kind : Z;
  len : Z;
  raw_spec : list Z;
  raw_len : Z;
  bit_offset : Z
}.

(** The spec after [memset] and the first assignments. *)
Definition spec_zero (b : btf) (root kind : Z) : bpf_core_spec :=
  Spec b (replicate 64 (Acc 0 0 None)) root kind 0 (replicate 64 0) 0 0.

(** [spec->raw_spec\[spec->raw_len++\] = v], [spec->spec\[spec->len++\] = a] and the updates of the
    bit offset. *)
Definition push_raw (v : Z) (s : bpf_core_spec) : option bpf_core_spec :=
  raw ← zset (raw_spec s) (raw_len s) v;
  Some (Spec (spec_btf s) (accs s) (root_type_id s) (relo_kind s) (len s) raw (raw_len s + 1) (bit_offset s)).
Definition push_acc (a : bpf_core_accessor) (s : bpf_core_spec) : option bpf_core_spec :=
  l ← zset (accs s) (len s) a;
  Some (Spec (spec_btf s) l (root_type_id s) (relo_kind s) (len s + 1) (raw_spec s) (raw_len s) (bit_offset s)).
Definition add_bits (n : Z) (s : bpf_core_spec) : bpf_core_spec :=
  Spec (spec_btf s) (accs s) (root_type_id s) (relo_kind s) (len s) (raw_spec s) (raw_len s) (u32 (bit_offset s + n)).
Definition pop_raw (s : bpf_core_spec) : bpf_core_spec :=
  Spec (spec_btf s) (accs s) (root_type_id s) (relo_kind s) (len s) (raw_spec s) (raw_len s - 1) (bit_offset s).
Definition pop_acc (s : bpf_core_spec) : bpf_core_spec :=
  Spec (spec_btf s) (accs s) (root_type_id s) (relo_kind s) (len s - 1) (raw_spec s) (raw_len s) (bit_offset s).

Definition is_flex_arr (b : btf) (acc : bpf_core_accessor) (arr : btf_array) : option bool :=
  match acc_name acc with
  | None => Some false
  | Some _ =>
    if arr_nelems arr >? 0 then Some false
    else
      t ← btf_type_by_id b (acc_type_id acc);
      v ← btf_vlen t;
      Some (acc_idx acc =? u32 (v - 1))
  end.

(** ** The access string *)
Definition COLON := 58.
Definition is_space (c : Z) : bool := (c =? 32) || ((9 <=? c) && (c <=? 13)).
Definition is_digit (c : Z) : bool := (48 <=? c) && (c <=? 57).

Fixpoint skip_spaces (s : list Z) : list Z :=
  match s with
  | c :: s' => if is_space c then skip_spaces s' else s
  | [] => []
  end.

(** The decimal digits at the head of [s], as a number continuing [acc], and the rest. *)
Fixpoint scan_digits (s : list Z) (acc : Z) : Z * list Z :=
  match s with
  | c :: s' => if is_digit c then scan_digits s' (10 * acc + (c - 48)) else (acc, s)
  | [] => (acc, [])
  end.

(** [sscanf(s, "%d%n", &access_idx, &parsed_len)]: the number and what follows it, [None] when
    nothing is converted.  The conversion goes through a [long] and is cut to an [int]. *)
Definition scan_int (s : list Z) : option (Z * list Z) :=
  let s := skip_spaces s in
  let '(neg, s) := match s with
                   | 45 :: s => (true, s)
                   | 43 :: s => (false, s)
                   | _ => (false, s)
                   end in
  match s with
  | c :: _ =>
    if is_digit c then
      let '(v, rest) := scan_digits s 0 in
      let v := if neg : bool then - v else v in
      Some (s32 (Z.max (- 2 ^ 63) (Z.min v (2 ^ 63 - 1))), rest)
    else None
  | [] => None
  end.

(** The loop over the access string; each iteration consumes at least a digit. *)
Fixpoint parse_raw (fuel : nat) (s : list Z) (sp : bpf_core_spec) : option (Z * bpf_core_spec) :=
  match s with
  | [] => Some (0, sp)
  | c :: s' =>
    match fuel with
    | O => None
    | S fuel =>
      let s := if c =? COLON then s' else s in
      match scan_int s with
      | None => Some (- EINVAL, sp)
      | Some (access_idx, rest) =>
        if raw_len sp =? BPF_CORE_SPEC_MAX_LEN then Some (- E2BIG, sp)
        else sp ← push_raw access_idx sp; parse_raw fuel rest sp
      end
    end
  end.

(** ** Parsing a spec *)

(** The loop over the raw spec from index [i], at type [id]. *)
Fixpoint parse_loop (n : nat) (b : btf) (i id : Z) (sp : bpf_core_spec) : option (Z * bpf_core_spec) :=
  match n with
  | O => Some (0, sp)
  | S n =>
    '(t, id) ← skip_mods_and_typedefs b id;
    access_idx ← zget (raw_spec sp) i;
    k ← btf_kind t;
    if kind_is_composite k then
      vlen ← btf_vlen t;
      if access_idx >=? vlen then Some (- EINVAL, sp)
      else
        off ← btf_member_bit_offset t access_idx;
        let sp := add_bits off sp in
        m ← btf_member_at t access_idx;
        if negb (m_name_off m =? 0) then
          name ← btf__name_by_offset b (m_name_off m);
          if str_is_empty name then Some (- EINVAL, sp)
          else
            sp ← push_acc (Acc id (u32 access_idx) name) sp;
            parse_loop n b (i + 1) (m_type m) sp
        else parse_loop n b (i + 1) (m_type m) sp
    else if k =? BTF_KIND_ARRAY then
      a ← array_of t;
      '(t, id) ← skip_mods_and_typedefs b (arr_type a);
      prev ← zget (accs sp) (len sp - 1);
      flex ← is_flex_arr b prev a;
      if negb flex && (u32 access_idx >=? arr_nelems a) then Some (- EINVAL, sp)
      else
        old ← zget (accs sp) (len sp);
        sp ← push_acc (Acc id (u32 access_idx) (acc_name old)) sp;
        sz ← btf__resolve_size b id;
        if sz <? 0 then Some (sz, sp)
        else parse_loop n b (i + 1) id (add_bits (access_idx * sz * 8) sp)
    else Some (- EINVAL, sp)
  end.

(** From the first accessor on, [raw_spec] being filled. *)
Definition parse_accessors (b : btf) (relo : bpf_core_relo) (sp : bpf_core_spec) : option (Z * bpf_core_spec) :=
  '(t, id) ← skip_mods_and_typedefs b (r_type_id relo);
  access_idx ← zget (raw_spec sp) 0;
  k ← btf_kind t;
  if core_relo_is_enumval_based (r_kind relo) then
    vlen ← btf_vlen t;
    if negb (kind_is_any_enum k) || (raw_len sp >? 1) || (access_idx >=? vlen) then
      sp ← push_acc (Acc id (u32 access_idx) None) sp; Some (- EINVAL, sp)
    else
      no ← enum_name_off k t access_idx;
      name ← btf__name_by_offset b no;
      sp ← push_acc (Acc id (u32 access_idx) name) sp;
      Some (0, sp)
  else
    sp ← push_acc (Acc id (u32 access_idx) None) sp;
    if negb (core_relo_is_field_based (r_kind relo)) then Some (- EINVAL, sp)
    else
      sz ← btf__resolve_size b id;
      if sz <? 0 then Some (sz, sp)
      else parse_loop (Z.to_nat (raw_len sp - 1)) b 1 id (add_bits (access_idx * sz * 8) sp).

(** [spec0] is what the caller's spec holds before. *)
Definition bpf_core_parse_spec (b : btf) (relo : bpf_core_relo) (spec0 : bpf_core_spec) : option (Z * bpf_core_spec) :=
  spec_str ← btf__name_by_offset b (r_access_str_off relo);
  if str_is_empty spec_str then Some (- EINVAL, spec0)
  else
    spec_str ← spec_str;
    if bool_decide (head spec_str = Some COLON) then Some (- EINVAL, spec0)
    else
      let sp := spec_zero b (r_type_id relo) (r_kind relo) in
      if core_relo_is_type_based (r_kind relo) then
        Some (if bool_decide (spec_str = [48]) then 0 else - EINVAL, sp)
      else
        '(err, sp) ← parse_raw (length spec_str) spec_str sp;
        if negb (err =? 0) then Some (err, sp)
        else if raw_len sp =? 0 then Some (- EINVAL, sp)
        else parse_accessors b relo sp.

(** ** Matching a spec *)

(** The loop over the members of [targ_type] from index [i]; [rec] is the search inside an
    anonymous member.  The last component is [*next_targ_id]. *)
Fixpoint match_loop (n : nat) (rec : Z -> bpf_core_spec -> Z -> option (Z * bpf_core_spec * Z))
    (local_btf : btf) (local_type_id : Z) (local_name : option (list Z)) (targ_btf : btf)
    (targ_id : Z) (targ_type : btf_type) (i : Z) (sp : bpf_core_spec) (next : Z) : option (Z * bpf_core_spec * Z) :=
  match n with
  | O => Some (0, sp, next)
  | S n =>
    off ← btf_member_bit_offset targ_type i;
    if raw_len sp =? BPF_CORE_SPEC_MAX_LEN then Some (- E2BIG, sp, next)
    else
      sp ← push_raw i (add_bits off sp);
      m ← btf_member_at targ_type i;
      targ_name ← btf__name_by_offset targ_btf (m_name_off m);
      let undo sp := pop_raw (add_bits (- off) sp) in
      if str_is_empty targ_name then
        '(found, sp, next) ← rec (m_type m) sp next;
        if negb (found =? 0) then Some (found, sp, next)
        else match_loop n rec local_btf local_type_id local_name targ_btf targ_id targ_type (i + 1) (undo sp) next
      else
        targ_name ← targ_name;
        local ← local_name;
        if bool_decide (local = targ_name) then
          sp ← push_acc (Acc targ_id i (Some targ_name)) sp;
          found ← bpf_core_fields_are_compat local_btf local_type_id targ_btf (m_type m);
          Some (found, if found =? 0 then pop_acc sp else sp, m_type m)
        else match_loop n rec local_btf local_type_id local_name targ_btf targ_id targ_type (i + 1) (undo sp) next
  end.

(** Each level of the recursion adds an element to [raw_spec], so 65 levels are enough. *)
Fixpoint match_member (fuel : nat) (local_btf : btf) (local_acc : bpf_core_accessor) (targ_btf : btf)
    (targ_id : Z) (sp : bpf_core_spec) (next : Z) : option (Z * bpf_core_spec * Z) :=
  match fuel with
  | O => None
  | S fuel =>
    '(targ_type, targ_id) ← skip_mods_and_typedefs targ_btf targ_id;
    k ← btf_kind targ_type;
    if negb (kind_is_composite k) then Some (0, sp, next)
    else
      local_type ← btf_type_by_id local_btf (acc_type_id local_acc);
      local_member ← btf_member_at local_type (acc_idx local_acc);
      local_name ← btf__name_by_offset local_btf (m_name_off local_member);
      n ← btf_vlen targ_type;
      match_loop (Z.to_nat n) (match_member fuel local_btf local_acc targ_btf) local_btf (m_type local_member) local_name
        targ_btf targ_id targ_type 0 sp next
  end.
Definition bpf_core_match_member := match_member 65.

(** The loop over the enumerators of the target. *)
Fixpoint enumval_loop (n : nat) (b : btf) (k : Z) (t : btf_type) (targ_id : Z) (local_name : list Z) (i : Z)
    (sp : bpf_core_spec) : option (Z * bpf_core_spec) :=
  match n with
  | O => Some (0, sp)
  | S n =>
    no ← enum_name_off k t i;
    targ_name ← btf__name_by_offset b no;
    targ_name ← targ_name;
    if (bpf_core_essential_name_len targ_name =? bpf_core_essential_name_len local_name)%nat &&
       strn_eq local_name targ_name (bpf_core_essential_name_len local_name)
    then sp ← push_acc (Acc targ_id i (Some targ_name)) sp; sp ← push_raw i sp; Some (1, sp)
    else enumval_loop n b k t targ_id local_name (i + 1) sp
  end.

(** The loop over the accessors of the local spec from index [i]; [targ_acc] is the element [i]
    of the target's array. *)
Fixpoint spec_match_loop (n : nat) (local_spec : bpf_core_spec) (targ_btf : btf) (i targ_id : Z) (sp : bpf_core_spec)
  : option (Z * bpf_core_spec) :=
  match n with
  | O => Some (1, sp)
  | S n =>
    local_acc ← zget (accs local_spec) i;
    '(targ_type, targ_id) ← skip_mods_and_typedefs targ_btf targ_id;
    match acc_name local_acc with
    | Some _ =>
      '(matched, sp, targ_id) ← bpf_core_match_member (spec_btf local_spec) local_acc targ_btf targ_id sp targ_id;
      if matched <=? 0 then Some (matched, sp)
      else spec_match_loop n local_spec targ_btf (i + 1) targ_id sp
    | None =>
      (** [Some None] is [return 0]. *)
      elem ← (if i >? 0 then
                k ← btf_kind targ_type;
                if negb (k =? BTF_KIND_ARRAY) then Some None
                else
                  a ← array_of targ_type;
                  prev ← zget (accs sp) (i - 1);
                  flex ← is_flex_arr targ_btf prev a;
                  if negb flex && (acc_idx local_acc >=? arr_nelems a) then Some None
                  else '(_, id) ← skip_mods_and_typedefs targ_btf (arr_type a); Some (Some id)
              else Some (Some targ_id));
      match elem with
      | None => Some (0, sp)
      | Some targ_id =>
        if raw_len sp =? BPF_CORE_SPEC_MAX_LEN then Some (- E2BIG, sp)
        else
          l ← zset (accs sp) i (Acc targ_id (acc_idx local_acc) None);
          let sp := Spec (spec_btf sp) l (root_type_id sp) (relo_kind sp) (len sp + 1) (raw_spec sp) (raw_len sp) (bit_offset sp) in
          sp ← push_raw (s32 (acc_idx local_acc)) sp;
          sz ← btf__resolve_size targ_btf targ_id;
          let sz := s32 sz in
          if sz <? 0 then Some (sz, sp)
          else spec_match_loop n local_spec targ_btf (i + 1) targ_id (add_bits (acc_idx local_acc * sz * 8) sp)
      end
    end
  end.

Definition bpf_core_spec_match (local_spec : bpf_core_spec) (targ_btf : btf) (targ_id : Z) : option (Z * bpf_core_spec) :=
  let sp := spec_zero targ_btf targ_id (relo_kind local_spec) in
  if core_relo_is_type_based (relo_kind local_spec) then
    r ← (if relo_kind local_spec =? BPF_CORE_TYPE_MATCHES
         then bpf_core_types_match (spec_btf local_spec) (root_type_id local_spec) targ_btf targ_id
         else bpf_core_types_are_compat (spec_btf local_spec) (root_type_id local_spec) targ_btf targ_id);
    Some (r, sp)
  else if core_relo_is_enumval_based (relo_kind local_spec) then
    '(targ_type, targ_id) ← skip_mods_and_typedefs targ_btf targ_id;
    k ← btf_kind targ_type;
    if negb (kind_is_any_enum k) then Some (0, sp)
    else
      local_acc ← zget (accs local_spec) 0;
      local_name ← acc_name local_acc;
      n ← btf_vlen targ_type;
      enumval_loop (Z.to_nat n) targ_btf k targ_type targ_id local_name 0 sp
  else if negb (core_relo_is_field_based (relo_kind local_spec)) then Some (- EINVAL, sp)
  else spec_match_loop (Z.to_nat (len local_spec)) local_spec targ_btf 0 targ_id sp.

(** ** Well-formed specs *)

(** What a spec says: the accessors and the raw indices in use. *)
Definition acc_list (s : bpf_core_spec) : list bpf_core_accessor := take (Z.to_nat (len s)) (accs s).
Definition raw_list (s : bpf_core_spec) : list Z := take (Z.to_nat (raw_len s)) (raw_spec s).

Record spec_wf (s : bpf_core_spec) : Prop := {
  wf_accs : length (accs s) = 64%nat;
  wf_raw : length (raw_spec s) = 64%nat;
  wf_len : 0 <= len s <= raw_len s;
  wf_raw_len : raw_len s <= 64;
  wf_bits : 0 <= bit_offset s < 2 ^ 32
}.

Lemma spec_zero_wf b root kind : spec_wf (spec_zero b root kind).
Proof. split; cbn [accs raw_spec len raw_len bit_offset spec_zero]; rewrite ?length_replicate; lia. Qed.

Lemma take_zset {A} (l : list A) i x l' : zset l i x = Some l' -> take (Z.to_nat (i + 1)) l' = take (Z.to_nat i) l ++ [x].
Proof.
  unfold zset. case_decide; [|done]. intros [= <-]. replace (Z.to_nat (i + 1)) with (S (Z.to_nat i)) by lia.
  rewrite (take_S_r _ _ x) by (apply list_lookup_insert_eq; lia). by rewrite take_insert_ge by lia.
Qed.

Lemma zget_take {A} (l : list A) n i x : zget l i = Some x -> i < Z.of_nat n -> take n l !! Z.to_nat i = Some x.
Proof. unfold zget. case_decide; [|done]. intros Hx Hi. rewrite lookup_take_lt by lia. done. Qed.

(** Adding a raw index. *)
Lemma push_raw_spec v s : spec_wf s -> raw_len s < 64 ->
  exists s', push_raw v s = Some s' /\ spec_wf s' /\ raw_list s' = raw_list s ++ [v] /\ acc_list s' = acc_list s /\
    len s' = len s /\ raw_len s' = raw_len s + 1 /\ bit_offset s' = bit_offset s /\ accs s' = accs s /\
    spec_btf s' = spec_btf s /\ relo_kind s' = relo_kind s /\ root_type_id s' = root_type_id s.
Proof.
  intros [Ha Hr Hl Hrl Hb] Hlt. unfold push_raw. destruct (zset_is_Some (raw_spec s) (raw_len s) v) as [l' Hl']; [lia|].
  rewrite Hl'. cbn [mbind option_bind]. eexists. split; [done|]. split.
  { split; cbn [accs raw_spec len raw_len bit_offset]; rewrite ?(zset_length _ _ _ _ Hl'); lia. }
  split_and!; try done. unfold raw_list. cbn [raw_spec raw_len]. by apply take_zset.
Qed.

(** Adding an accessor: there is room as long as there are fewer accessors than raw indices. *)
Lemma push_acc_spec a s : spec_wf s -> len s < raw_len s ->
  exists s', push_acc a s = Some s' /\ spec_wf s' /\ acc_list s' = acc_list s ++ [a] /\ raw_list s' = raw_list s /\
    len s' = len s + 1 /\ raw_len s' = raw_len s /\ bit_offset s' = bit_offset s /\ raw_spec s' = raw_spec s /\
    spec_btf s' = spec_btf s /\ relo_kind s' = relo_kind s /\ root_type_id s' = root_type_id s.
Proof.
  intros [Ha Hr Hl Hrl Hb] Hlt. unfold push_acc. destruct (zset_is_Some (accs s) (len s) a) as [l' Hl']; [lia|].
  rewrite Hl'. cbn [mbind option_bind]. eexists. split; [done|]. split.
  { split; cbn [accs raw_spec len raw_len bit_offset]; rewrite ?(zset_length _ _ _ _ Hl'); lia. }
  split_and!; try done. unfold acc_list. cbn [accs len]. by apply take_zset.
Qed.

Lemma add_bits_wf n s : spec_wf s -> spec_wf (add_bits n s).
Proof. intros [Ha Hr Hl Hrl Hb]. split; cbn [add_bits accs raw_spec len raw_len bit_offset]; try done. apply Z.mod_pos_bound. lia. Qed.

Lemma u32_add x y z : u32 (u32 (x + y) + z) = u32 (x + (y + z)).
Proof. unfold wrap. rewrite Zplus_mod_idemp_l. f_equal. lia. Qed.

Lemma u32_idem x : 0 <= x < 2 ^ 32 -> u32 x = x.
Proof. intros H. by apply Z.mod_small. Qed.

(** ** The access string *)

(** The decimal digits of a number. *)
Fixpoint dec_digits (fuel : nat) (n : Z) (acc : list Z) : list Z :=
  match fuel with
  | O => acc
  | S fuel => let acc := (48 + n mod 10) :: acc in if n <? 10 then acc else dec_digits fuel (n / 10) acc
  end.
Definition dec (n : Z) : list Z := dec_digits 11 n [].

(** The access string of a list of indices. *)
Fixpoint access_str (l : list Z) : list Z :=
  match l with
  | [] => []
  | [n] => dec n
  | n :: l => dec n ++ COLON :: access_str l
  end.

Lemma dec_digits_app fuel n acc : dec_digits fuel n acc = dec_digits fuel n [] ++ acc.
Proof.
  revert n acc. induction fuel as [|fuel IH]; intros n acc; cbn [dec_digits]; [done|].
  destruct (n <? 10); [done|]. rewrite IH, (IH _ [_]), <- app_assoc. done.
Qed.

Lemma scan_digit d s acc : 0 <= d < 10 -> scan_digits ((48 + d) :: s) acc = scan_digits s (10 * acc + d).
Proof.
  intros Hd. cbn [scan_digits]. unfold is_digit. destruct (Z.leb_spec 48 (48 + d)); [|lia].
  destruct (Z.leb_spec (48 + d) 57); [|lia]. cbn [andb]. f_equal. lia.
Qed.

(** Reading the digits of [n] from 0 gives [n]; the digits read so far do not matter. *)
Lemma scan_dec_digits fuel n s : 0 <= n < 10 ^ Z.of_nat fuel ->
  scan_digits (dec_digits fuel n [] ++ s) 0 = scan_digits s n.
Proof.
  revert n s. induction fuel as [|fuel IH]; intros n s Hn.
  { change (10 ^ Z.of_nat 0) with 1 in Hn. by replace n with 0 by lia. }
  cbn [dec_digits]. pose proof (Z.mod_pos_bound n 10 ltac:(lia)).
  destruct (Z.ltb_spec n 10).
  - cbn [app]. rewrite scan_digit by lia. f_equal. rewrite Z.mod_small by lia. lia.
  - rewrite dec_digits_app, <- app_assoc, IH.
    + cbn [app]. rewrite scan_digit by lia. f_equal. pose proof (Z.div_mod n 10). lia.
    + rewrite Nat2Z.inj_succ, Z.pow_succ_r in Hn by lia. split; [apply Z.div_pos; lia|]. apply Z.div_lt_upper_bound; lia.
Qed.

(** The first character is a digit. *)
Lemma dec_head fuel n acc : (0 < fuel)%nat -> 0 <= n ->
  exists d l, dec_digits fuel n acc = (48 + d) :: l /\ 0 <= d < 10.
Proof.
  revert n acc. induction fuel as [|fuel IH]; intros n acc Hf Hn; [lia|]. cbn [dec_digits].
  pose proof (Z.mod_pos_bound n 10 ltac:(lia)). destruct (n <? 10); [eauto|].
  destruct fuel as [|fuel]; [eauto|]. apply IH; [lia|]. apply Z.div_pos; lia.
Qed.

Definition idx_ok (n : Z) : Prop := 0 <= n < 2 ^ 31.

Lemma scan_int_dec n s : idx_ok n -> head s = None \/ head s = Some COLON -> scan_int (dec n ++ s) = Some (n, s).
Proof.
  unfold idx_ok. intros Hn Hs. unfold scan_int, dec. destruct (dec_head 11 n [] ltac:(lia) ltac:(lia)) as (d & l & Hd & Hd10).
  pose proof (scan_dec_digits 11 n s ltac:(lia)) as Hscan. rewrite Hd in *. cbn [app] in *.
  assert (skip_spaces ((48 + d) :: l ++ s) = (48 + d) :: l ++ s) as ->.
  { cbn [skip_spaces]. unfold is_space. destruct (Z.eqb_spec (48 + d) 32); [lia|]. destruct (Z.leb_spec (48 + d) 13); [lia|].
    by rewrite andb_false_r. }
  assert (match (48 + d) :: l ++ s with | 45 :: s => (true, s) | 43 :: s => (false, s) | _ => (false, (48 + d) :: l ++ s) end =
    (false, (48 + d) :: l ++ s)) as ->.
  { assert (exists k, (k < 10)%nat /\ d = Z.of_nat k) as (k & Hk & ->) by (exists (Z.to_nat d); lia).
    do 10 (destruct k as [|k]; [reflexivity|]). lia. }
  cbv iota beta. assert (is_digit (48 + d) = true) as ->.
  { unfold is_digit. destruct (Z.leb_spec 48 (48 + d)); [|lia]. destruct (Z.leb_spec (48 + d) 57); [done|lia]. }
  rewrite Hscan. assert (scan_digits s n = (n, s)) as ->.
  { destruct s as [|c s]; [done|]. destruct Hs as [|Hs]; [done|]. injection Hs as ->. done. }
  cbv iota beta. rewrite Z.min_l, Z.max_r by lia. by rewrite swrap_small by lia.
Qed.

Lemma access_str_cons n l : access_str (n :: l) = dec n ++ (if l is [] then [] else COLON :: access_str l).
Proof. destruct l; [by rewrite app_nil_r|done]. Qed.

(** The string without its leading separator, if it has one. *)
Lemma parse_raw_access fuel l sp lead : Forall idx_ok l -> l <> [] -> spec_wf sp ->
  (length (access_str l) <= fuel)%nat ->
  parse_raw (fuel + (if lead : bool then 1 else 0)) ((if lead then [COLON] else []) ++ access_str l) sp =
    if Z.of_nat (length l) <=? 64 - raw_len sp
    then (foldl (fun osp v => sp ← osp; push_raw v sp) (Some sp) l) ≫= (fun sp => Some (0, sp))
    else (foldl (fun osp v => sp ← osp; push_raw v sp) (Some sp) (take (Z.to_nat (64 - raw_len sp)) l)) ≫= (fun sp => Some (- E2BIG, sp)).
Proof.
  intros Hok Hne. revert fuel lead sp Hne. induction Hok as [|n l Hn Hl IH]; intros fuel lead sp Hne Hwf Hfuel; [done|].
  rewrite access_str_cons in *. set (tl := if l is [] then [] else COLON :: access_str l) in *.
  assert (head tl = None \/ head tl = Some COLON) as Htl by (unfold tl; destruct l; auto).
  destruct (dec_head 11 n [] ltac:(lia) ltac:(destruct Hn; lia)) as (d & ds & Hd & Hd10).
  assert (exists f, (fuel + (if lead then 1 else 0))%nat = S f /\ (length tl <= f)%nat) as (f & -> & Hf).
  { unfold dec in Hfuel. rewrite Hd in Hfuel. cbn [app length] in Hfuel. rewrite length_app in Hfuel.
    destruct lead; [exists fuel|exists (fuel - 1)%nat]; lia. }
  assert (exists c s', (if lead then [COLON] else []) ++ dec n ++ tl = c :: s' /\
    (if c =? COLON then s' else c :: s') = dec n ++ tl) as (c & s' & -> & Hs).
  { destruct lead.
    - exists COLON, (dec n ++ tl). done.
    - cbn [app]. unfold dec. rewrite Hd. cbn [app]. exists (48 + d), (ds ++ tl). split; [done|].
      destruct (Z.eqb_spec (48 + d) COLON); [unfold COLON in *; lia|done]. }
  cbn [parse_raw]. rewrite Hs, (scan_int_dec n tl Hn Htl). unfold BPF_CORE_SPEC_MAX_LEN.
  destruct (wf_len sp Hwf). pose proof (wf_raw_len sp Hwf).
  destruct (Z.eqb_spec (raw_len sp) 64) as [He|He].
  { rewrite He. cbn [length]. destruct (Z.leb_spec (Z.of_nat (S (length l))) (64 - 64)); [lia|]. done. }
  destruct (push_raw_spec n sp Hwf ltac:(lia)) as (sp' & Hp & Hwf' & _ & _ & _ & Hrl & _). rewrite Hp. cbn [mbind option_bind].
  assert (parse_raw f tl sp' =
    if Z.of_nat (length l) <=? 64 - raw_len sp'
    then (foldl (fun osp v => sp ← osp; push_raw v sp) (Some sp') l) ≫= (fun sp => Some (0, sp))
    else (foldl (fun osp v => sp ← osp; push_raw v sp) (Some sp') (take (Z.to_nat (64 - raw_len sp')) l)) ≫= (fun sp => Some (- E2BIG, sp))) as ->.
  { unfold tl in *. destruct l as [|n' l'].
    - cbn [length foldl]. destruct f; cbn [parse_raw]; (destruct (Z.leb_spec (Z.of_nat 0) (64 - raw_len sp')); [done|lia]).
    - cbn [length] in Hf. rewrite <- (IH (f - 1)%nat true sp'); [|done|done|lia].
      cbn [app]. f_equal. lia. }
  cbn [length]. rewrite Hrl. replace (Z.to_nat (64 - raw_len sp)) with (S (Z.to_nat (64 - (raw_len sp + 1)))) by lia.
  cbn [firstn foldl mbind option_bind]. rewrite Hp.
  destruct (Z.leb_spec (Z.of_nat (length l)) (64 - (raw_len sp + 1))), (Z.leb_spec (Z.of_nat (S (length l))) (64 - raw_len sp)); try lia; done.
Qed.

Lemma push_raws l sp : spec_wf sp -> raw_len sp + Z.of_nat (length l) <= 64 ->
  exists sp', foldl (fun osp v => sp ← osp; push_raw v sp) (Some sp) l = Some sp' /\ spec_wf sp' /\
    raw_list sp' = raw_list sp ++ l /\ raw_len sp' = raw_len sp + Z.of_nat (length l) /\
    len sp' = len sp /\ accs sp' = accs sp /\ bit_offset sp' = bit_offset sp /\ spec_btf sp' = spec_btf sp /\ relo_kind sp' = relo_kind sp.
Proof.
  revert sp. induction l as [|v l IH]; intros sp Hwf Hl; cbn [foldl mbind option_bind length].
  { exists sp. rewrite app_nil_r, Z.add_0_r. done. }
  cbn [length] in Hl. destruct (push_raw_spec v sp Hwf ltac:(lia)) as (s1 & -> & Hwf1 & Hr1 & _ & Hl1 & Hn1 & Hb1 & Ha1 & Hbt1 & Hk1 & _).
  destruct (IH s1 Hwf1 ltac:(lia)) as (s2 & -> & Hwf2 & Hr2 & Hn2 & Hl2 & Ha2 & Hb2 & Hbt2 & Hk2).
  exists s2. split_and!; try done; try congruence; try lia. by rewrite Hr2, Hr1, <- app_assoc.
Qed.

Lemma parse_raw_zero b root kind l : Forall idx_ok l -> l <> [] ->
  exists err sp, parse_raw (length (access_str l)) (access_str l) (spec_zero b root kind) = Some (err, sp) /\
    ((length l <= 64)%nat -> err = 0 /\ spec_wf sp /\ raw_list sp = l /\ raw_len sp = Z.of_nat (length l) /\ len sp = 0 /\
       accs sp = replicate 64 (Acc 0 0 None) /\ bit_offset sp = 0 /\ spec_btf sp = b /\ relo_kind sp = kind) /\
    ((64 < length l)%nat -> err = - E2BIG).
Proof.
  intros Hok Hne. pose proof (parse_raw_access (length (access_str l)) l (spec_zero b root kind) false Hok Hne (spec_zero_wf b root kind)
    ltac:(lia)) as H. rewrite Nat.add_0_r in H. cbn [app] in H. rewrite H. change (raw_len (spec_zero b root kind)) with 0.
  destruct (Z.leb_spec (Z.of_nat (length l)) (64 - 0)).
  - destruct (push_raws l (spec_zero b root kind) (spec_zero_wf b root kind)) as (sp & -> & Hwf & Hr & Hn & Hl & Ha & Hb & Hbt & Hk).
    { change (raw_len (spec_zero b root kind)) with 0. lia. }
    cbn [mbind option_bind]. exists 0, sp. split; [done|]. split; [|lia]. intros _. split_and!; try done.
  - destruct (push_raws (take (Z.to_nat (64 - 0)) l) (spec_zero b root kind) (spec_zero_wf b root kind)) as (sp & -> & _).
    { change (raw_len (spec_zero b root kind)) with 0. rewrite length_take. lia. }
    cbn [mbind option_bind]. exists (- E2BIG), sp. split; [done|]. split; [lia|done].
Qed.

(** ** The offset of an access path

    [path_off b id l o e]: following the indices [l] from an object of type [id], members of
    structs and unions and elements of arrays, leads to an object of type [e] at bit [o]. *)
Definition member_of (b : btf) (id i off : Z) (m : btf_member) : Prop :=
  exists t rid k v, skip_mods_and_typedefs b id = Some (t, rid) /\ btf_kind t = Some k /\ kind_is_composite k = true /\
    btf_vlen t = Some v /\ 0 <= i < v /\ btf_member_bit_offset t i = Some off /\ btf_member_at t i = Some m.

Inductive path_off (b : btf) : Z -> list Z -> Z -> Z -> Prop :=
| path_nil id : path_off b id [] 0 id
| path_member id i off m l o e :
    member_of b id i off m -> path_off b (m_type m) l o e -> path_off b id (i :: l) (off + o) e
| path_elem id t rid a et eid i sz l o e :
    skip_mods_and_typedefs b id = Some (t, rid) -> btf_kind t = Some BTF_KIND_ARRAY -> array_of t = Some a ->
    skip_mods_and_typedefs b (arr_type a) = Some (et, eid) -> sizeof b eid sz -> 0 <= i -> (i < arr_nelems a \/ arr_nelems a = 0) ->
    path_off b eid l o e -> path_off b id (i :: l) (i * sz * 8 + o) e.

(** The type and the index of an accessor exist. *)
Definition acc_ok (b : btf) (n : Z) (a : bpf_core_accessor) : Prop :=
  0 <= acc_type_id a < n /\ idx_ok (acc_idx a) /\
  (forall name, acc_name a = Some name -> exists t k v, btf_type_by_id b (acc_type_id a) = Some t /\ btf_kind t = Some k /\
     kind_is_composite k = true /\ btf_vlen t = Some v /\ acc_idx a < v).
Definition accs_in (b : btf) (n : Z) (s : bpf_core_spec) : Prop := Forall (acc_ok b n) (acc_list s).

(** The accessors not in use have no name. *)
Definition fresh (s : bpf_core_spec) : Prop := Forall (fun a => acc_name a = None) (drop (Z.to_nat (len s)) (accs s)).

Lemma push_acc_fresh a s s' : spec_wf s -> fresh s -> push_acc a s = Some s' -> fresh s'.
Proof.
  unfold push_acc, fresh. intros Hwf Hf H. apply bind_Some in H as (l & Hl & H). simplify_eq. cbn [len accs].
  destruct (wf_len s Hwf) as [? _]. unfold zset in Hl. case_decide; [|done]. simplify_eq. replace (Z.to_nat (len s + 1)) with (S (Z.to_nat (len s))) by lia.
  rewrite drop_insert_lt by lia. rewrite <- Nat.add_1_r, <- drop_drop. by apply Forall_drop.
Qed.

Lemma acc_at s i : spec_wf s -> 0 <= i < len s -> exists a, zget (accs s) i = Some a /\ a ∈ acc_list s.
Proof.
  intros Hwf Hi. destruct Hwf as [Ha _ Hl Hrl _]. destruct (zget_is_Some (accs s) i) as [a Hga]; [lia|].
  exists a. split; [done|]. apply list_elem_of_lookup. exists (Z.to_nat i). apply zget_take; [done|lia].
Qed.

Lemma raw_at s i : spec_wf s -> 0 <= i < raw_len s ->
  exists x, zget (raw_spec s) i = Some x /\ drop (Z.to_nat i) (raw_list s) = x :: drop (Z.to_nat (i + 1)) (raw_list s).
Proof.
  intros Hwf Hi. destruct Hwf as [_ Hr Hl Hrl _]. destruct (zget_is_Some (raw_spec s) i) as [x Hx]; [lia|].
  exists x. split; [done|]. replace (Z.to_nat (i + 1)) with (S (Z.to_nat i)) by lia. apply drop_S. apply zget_take; [done|lia].
Qed.

Lemma is_flex_arr_total b n a arr : core_ok b n -> 0 <= acc_type_id a < n -> exists f, is_flex_arr b a arr = Some f /\
  (f = true -> arr_nelems arr <= 0).
Proof.
  intros Hok Ha. unfold is_flex_arr. destruct (acc_name a); [|by exists false]. rewrite Z.gtb_ltb.
  destruct (Z.ltb_spec 0 (arr_nelems arr)); [by exists false|].
  destruct (ok_by_id b n _ (core_btf _ _ Hok) Ha) as (t & k & _ & Ht & _). rewrite Ht. cbn [mbind option_bind].
  destruct (type_in_base b n Hok t) as (_ & v & _ & _ & _ & Hv & _); [by exists (acc_type_id a)|].
  rewrite Hv. cbn [mbind option_bind]. eexists. split; [done|]. intros _. lia.
Qed.

Lemma member_off_total t i m f : btf_member_at t i = Some m -> btf_kflag t = Some f -> exists off, btf_member_bit_offset t i = Some off.
Proof. intros Hm Hf. unfold btf_member_bit_offset. rewrite Hm. cbn [mbind option_bind]. rewrite Hf. eauto. Qed.

Lemma array_nelems b n t a : core_ok b n -> type_in b n t -> array_of t = Some a -> 0 <= arr_nelems a < 2 ^ 32.
Proof.
  intros Hok Ht Ha. unfold array_of in Ha. obind_inv Ha. simplify_eq. cbn [arr_nelems].
  by apply (word_value t 5 x1 (type_in_words b n Hok t Ht)).
Qed.

Section Parse.
Context (b : btf) (n : Z) (Hok : core_ok b n).

(** The size the code resolves is the size of the type. *)
Lemma resolve_size_cases id : 0 <= id < n -> exists r, btf__resolve_size b id = Some r /\ (0 <= r -> sizeof b id r).
Proof.
  intros Hid. destruct (resolve_size_total b n id (core_btf _ _ Hok) (core_words _ _ Hok)) as [r Hr]; [lia|].
  exists r. split; [done|]. intros Hr0. destruct (resolve_size_ok b (core_words _ _ Hok) id r Hr) as [->|[->|(m & Hm & -> & _)]].
  - unfold EINVAL in *. lia.
  - unfold E2BIG in *. lia.
  - by rewrite Z.mul_1_l.
Qed.

Definition parsed (id i : Z) (sp : bpf_core_spec) (r : option (Z * bpf_core_spec)) : Prop :=
  exists err sp', r = Some (err, sp') /\ spec_wf sp' /\ raw_list sp' = raw_list sp /\ accs_in b n sp' /\ spec_btf sp' = spec_btf sp /\
    relo_kind sp' = relo_kind sp /\ (exists tl, acc_list sp' = acc_list sp ++ tl) /\
    (err = 0 -> exists o e, path_off b id (drop (Z.to_nat i) (raw_list sp)) o e /\ bit_offset sp' = u32 (bit_offset sp + o)).

Lemma parsed_error id i sp err : err <> 0 -> spec_wf sp -> accs_in b n sp -> parsed id i sp (Some (err, sp)).
Proof. intros He Hwf Hin. exists err, sp. split_and!; try done. exists []. by rewrite app_nil_r. Qed.

(** One more step on a path. *)
Lemma parsed_step id i sp id' sp1 off x r :
  (forall l o e, path_off b id' l o e -> path_off b id (x :: l) (off + o) e) ->
  drop (Z.to_nat i) (raw_list sp) = x :: drop (Z.to_nat (i + 1)) (raw_list sp) ->
  raw_list sp1 = raw_list sp -> spec_btf sp1 = spec_btf sp -> relo_kind sp1 = relo_kind sp -> (exists tl, acc_list sp1 = acc_list sp ++ tl) ->
  bit_offset sp1 = u32 (bit_offset sp + off) -> parsed id' (i + 1) sp1 r -> parsed id i sp r.
Proof.
  intros Hpath Hd Hr Hb Hk [tl1 Htl1] Hbits (err & sp' & -> & Hwf & Hr' & Hin & Hb' & Hk' & [tl2 Htl2] & Hres). exists err, sp'.
  split_and!; try done; try congruence; [exists (tl1 ++ tl2); by rewrite Htl2, Htl1, app_assoc|]. intros He. destruct (Hres He) as (o & e & Hp & Hbo). exists (off + o), e.
  rewrite Hd. split; [apply Hpath; by rewrite <- Hr|]. rewrite Hbo, Hbits. apply u32_add.
Qed.

(** The hypotheses of a round of the loop, and what is assumed of the rounds after it. *)
Record at_accessor (k : nat) (i id : Z) (sp : bpf_core_spec) : Prop := {
  aa_id : 0 <= id < n;
  aa_wf : spec_wf sp;
  aa_in : accs_in b n sp;
  aa_fresh : fresh sp;
  aa_len : 1 <= len sp <= i;
  aa_left : i + Z.of_nat k = raw_len sp;
  aa_idx : Forall idx_ok (raw_list sp);
}.
Definition rounds_ok (k : nat) : Prop := forall i id sp, at_accessor k i id sp -> parsed id i sp (parse_loop k b i id sp).

(** The type and the index a round looks at. *)
Record looks_at (i id : Z) (sp : bpf_core_spec) (t : btf_type) (rid x kd v : Z) (f : bool) : Prop := {
  la_skip : skip_mods_and_typedefs b id = Some (t, rid);
  la_rid : 0 <= rid < n;
  la_type : type_in b n t;
  la_by : btf_type_by_id b rid = Some t;
  la_raw : zget (raw_spec sp) i = Some x;
  la_drop : drop (Z.to_nat i) (raw_list sp) = x :: drop (Z.to_nat (i + 1)) (raw_list sp);
  la_idx : idx_ok x;
  la_kind : btf_kind t = Some kd;
  la_vlen : btf_vlen t = Some v;
  la_kflag : btf_kflag t = Some f;
}.

Lemma looks_total k i id sp : at_accessor (S k) i id sp -> exists t rid x kd v f, looks_at i id sp t rid x kd v f.
Proof.
  intros [Hid Hwf Hin Hfr Hl Hk Hidx]. destruct (skip_in b n Hok id Hid) as (t & rid & Hskip & Hrid & Ht & Hby).
  destruct (raw_at sp i Hwf ltac:(lia)) as (x & Hx & Hd).
  destruct (type_in_base b n Hok t Ht) as (kd & v & _ & _ & Hkd & Hv & _ & _ & (f & Hf) & _).
  exists t, rid, x, kd, v, f. constructor; try done.
  pose proof (Forall_drop _ (Z.to_nat i) _ Hidx) as Hdr. rewrite Hd in Hdr. by inversion Hdr.
Qed.

Lemma member_round k i id sp t rid x kd v f : rounds_ok k -> at_accessor (S k) i id sp -> looks_at i id sp t rid x kd v f ->
  kind_is_composite kd = true -> parsed id i sp (parse_loop (S k) b i id sp).
Proof.
  intros IH [Hid Hwf Hin Hfr Hl Hk Hidx] [Hskip Hrid Ht Hby Hx Hd Hxok Hkd Hv Hf] Hc. unfold idx_ok in Hxok. cbn [parse_loop].
  rewrite Hskip. cbn [mbind option_bind]. rewrite Hx. cbn [mbind option_bind]. rewrite Hkd. cbn [mbind option_bind]. rewrite Hc.
  rewrite Hv. cbn [mbind option_bind]. rewrite Z.geb_leb. destruct (Z.leb_spec v x); [by apply parsed_error|].
  destruct (member_valid b n t kd v x Hok Ht Hkd Hc Hv ltac:(lia)) as (m & Hm & [s Hs] & Hmt).
  destruct (member_off_total t x m f Hm Hf) as [off Hoff]. rewrite Hoff. cbn [mbind option_bind]. rewrite Hm. cbn [mbind option_bind].
  pose proof (add_bits_wf off sp Hwf) as Hwf1.
  assert (forall sp1 r, raw_list sp1 = raw_list sp -> spec_btf sp1 = spec_btf sp -> relo_kind sp1 = relo_kind sp ->
    (exists tl, acc_list sp1 = acc_list sp ++ tl) ->
    bit_offset sp1 = u32 (bit_offset sp + off) -> parsed (m_type m) (i + 1) sp1 r -> parsed id i sp r) as Hstep.
  { intros sp1 r H1 H2 H3 Ht1 H4 H5. eapply (parsed_step id i sp (m_type m) sp1 off x); auto. intros l o e Hp. eapply path_member; [|done]. exists t, rid, kd, v. split_and!; auto; lia. }
  destruct (negb (m_name_off m =? 0)).
  + unfold btf__name_by_offset. rewrite Hs. cbn [mbind option_bind]. destruct (str_is_empty (Some s)).
    { exists (- EINVAL), (add_bits off sp). split_and!; try done. exists []. by rewrite app_nil_r. }
    destruct (push_acc_spec (Acc rid (u32 x) (Some s)) (add_bits off sp) Hwf1) as (sp2 & Hpush & Hwf2 & Hacc & Hraw & Hlen & Hrl & Hbits & _ & Hbt & Hrk & _);
      [cbn [add_bits len raw_len]; lia|]. rewrite Hpush. cbn [mbind option_bind].
    change (raw_list (add_bits off sp)) with (raw_list sp) in Hraw. cbn [add_bits len raw_len bit_offset spec_btf relo_kind] in *.
    apply (Hstep sp2); auto; [by eexists|]. apply IH. constructor; auto.
    * unfold accs_in. rewrite Hacc. apply Forall_app. split; [exact Hin|]. constructor; [|done].
      split; [done|]. cbn [acc_idx acc_type_id]. rewrite u32_idem by lia. split; [done|]. intros _ _. by exists t, kd, v.
    * by apply (push_acc_fresh _ _ _ Hwf1) in Hpush.
    * lia.
    * lia.
    * by rewrite Hraw.
  + apply (Hstep (add_bits off sp)); auto; [exists []; by rewrite app_nil_r|]. apply IH. constructor; auto.
    * cbn [add_bits len]. lia.
    * cbn [add_bits raw_len]. lia.
Qed.

Lemma array_round k i id sp t rid x v f : rounds_ok k -> at_accessor (S k) i id sp -> looks_at i id sp t rid x BTF_KIND_ARRAY v f ->
  parsed id i sp (parse_loop (S k) b i id sp).
Proof.
  intros IH [Hid Hwf Hin Hfr Hl Hk Hidx] [Hskip Hrid Ht Hby Hx Hd Hxok Hkd Hv Hf]. unfold idx_ok in Hxok. cbn [parse_loop].
  rewrite Hskip. cbn [mbind option_bind]. rewrite Hx. cbn [mbind option_bind]. rewrite Hkd. cbn [mbind option_bind].
  change (kind_is_composite BTF_KIND_ARRAY) with false. rewrite Z.eqb_refl. cbn iota.
  destruct (array_elem b n Hok t Ht Hkd) as (a & Ha & Hat). rewrite Ha. cbn [mbind option_bind].
  destruct (skip_in b n Hok _ Hat) as (et & eid & Hes & Heid & _). rewrite Hes. cbn [mbind option_bind].
  pose proof (array_nelems b n t a Hok Ht Ha) as Hne.
  destruct (acc_at sp (len sp - 1) Hwf ltac:(lia)) as (prev & -> & Hprev). cbn [mbind option_bind].
  destruct (is_flex_arr_total b n prev a Hok) as (fl & -> & Hfl).
  { unfold accs_in in Hin. rewrite Forall_forall in Hin. by apply (Hin prev). }
  cbn [mbind option_bind]. rewrite u32_idem by lia. rewrite Z.geb_leb.
  destruct (negb fl && (arr_nelems a <=? x)) eqn:Hbound; [by apply parsed_error|].
  destruct (zget_is_Some (accs sp) (len sp)) as [old Hold]; [rewrite (wf_accs sp Hwf); pose proof (wf_raw_len sp Hwf); lia|].
  rewrite Hold. cbn [mbind option_bind]. assert (acc_name old = None) as Hname.
  { apply zget_Some in Hold as [_ Hold]. unfold fresh in Hfr. rewrite Forall_forall in Hfr. apply Hfr.
    apply list_elem_of_lookup. exists 0%nat. rewrite lookup_drop, Nat.add_0_r. done. }
  rewrite Hname.
  destruct (push_acc_spec (Acc eid x None) sp Hwf ltac:(lia)) as (sp2 & Hpush & Hwf2 & Hacc & Hraw & Hlen & Hrl & Hbits & _ & Hbt & Hrk & _).
  rewrite Hpush. cbn [mbind option_bind]. assert (accs_in b n sp2) as Hin2.
  { unfold accs_in. rewrite Hacc. apply Forall_app. split; [exact Hin|]. constructor; [|done]. split_and!; cbn; try done; lia. }
  destruct (resolve_size_cases eid Heid) as (sz & -> & Hsz). cbn [mbind option_bind]. destruct (Z.ltb_spec sz 0).
  { exists sz, sp2. split_and!; try done; [by eexists|]. lia. }
  apply (parsed_step id i sp eid (add_bits (x * sz * 8) sp2) (x * sz * 8) x); auto; [|by eexists| |].
  + intros l o e Hp. eapply path_elem; eauto; [lia|]. apply andb_false_iff in Hbound as [Hb|Hb].
    * apply negb_false_iff in Hb as ->. specialize (Hfl eq_refl). lia.
    * apply Z.leb_gt in Hb. lia.
  + cbn [add_bits bit_offset]. by rewrite Hbits.
  + apply IH. constructor; auto; try (cbn [add_bits len raw_len]; lia).
    * by apply add_bits_wf.
    * by apply (push_acc_fresh _ _ _ Hwf) in Hpush.
    * change (raw_list (add_bits (x * sz * 8) sp2)) with (raw_list sp2). by rewrite Hraw.
Qed.

Lemma parse_accs_spec k : rounds_ok k.
Proof.
  induction k as [|k IH]; intros i id sp Ha.
  - destruct Ha as [Hid Hwf Hin Hfr Hl Hk Hidx]. cbn [parse_loop]. exists 0, sp. split_and!; try done; [exists []; by rewrite app_nil_r|].
    intros _. exists 0, id. rewrite drop_ge.
    + split; [constructor|]. rewrite Z.add_0_r. symmetry. apply u32_idem, Hwf.
    + unfold raw_list. rewrite length_take. lia.
  - destruct (looks_total k i id sp Ha) as (t & rid & x & kd & v & f & Hla).
    destruct (kind_is_composite kd) eqn:Hc; [by eapply member_round|].
    destruct (Z.eqb_spec kd BTF_KIND_ARRAY) as [->|Hna]; [by eapply array_round|].
    destruct Ha as [_ Hwf Hin _ _ _ _], Hla as [Hskip _ _ _ Hx _ _ Hkd _ _]. cbn [parse_loop]. rewrite Hskip. cbn [mbind option_bind].
    rewrite Hx. cbn [mbind option_bind]. rewrite Hkd. cbn [mbind option_bind]. rewrite Hc, (proj2 (Z.eqb_neq _ _) Hna).
    by apply parsed_error.
Qed.
End Parse.

Lemma field_based_only kind : core_relo_is_field_based kind = true ->
  core_relo_is_type_based kind = false /\ core_relo_is_enumval_based kind = false.
Proof.
  unfold core_relo_is_field_based. intros H. repeat (apply orb_true_iff in H as [H|H]); apply Z.eqb_eq in H; by subst.
Qed.

(** What a successful parse of a field access establishes. *)
Definition field_spec (b : btf) (n root : Z) (idxs : list Z) (sp : bpf_core_spec) : Prop :=
  spec_wf sp /\ raw_list sp = idxs /\ accs_in b n sp /\ spec_btf sp = b /\ (exists a0, head (acc_list sp) = Some a0 /\ acc_name a0 = None) /\
  exists t rid sz i0 l o e, idxs = i0 :: l /\ skip_mods_and_typedefs b root = Some (t, rid) /\ sizeof b rid sz /\
    path_off b rid l o e /\ bit_offset sp = u32 (i0 * sz * 8 + o).

Lemma parse_accessors_field b n relo sp i0 l : core_ok b n -> 0 <= r_type_id relo < n ->
  core_relo_is_field_based (r_kind relo) = true -> spec_wf sp -> raw_list sp = i0 :: l ->
  raw_len sp = Z.of_nat (length (i0 :: l)) -> len sp = 0 -> bit_offset sp = 0 -> spec_btf sp = b -> fresh sp -> Forall idx_ok (i0 :: l) ->
  exists err sp', parse_accessors b relo sp = Some (err, sp') /\
    (err = 0 -> field_spec b n (r_type_id relo) (i0 :: l) sp' /\ relo_kind sp' = relo_kind sp).
Proof.
  intros Hok Hid Hkind Hwf Hraw Hrl Hlen Hbits Hbt Hfr Hidx. unfold parse_accessors. cbn [length] in Hrl.
  destruct (skip_in b n Hok _ Hid) as (t & rid & Hskip & Hrid & Ht & _). rewrite Hskip. cbn [mbind option_bind].
  destruct (raw_at sp 0 Hwf ltac:(lia)) as (x & Hx & Hd). rewrite Hx. cbn [mbind option_bind].
  assert (x = i0) as -> by (rewrite Hraw in Hd; simpl in Hd; congruence). clear Hd.
  destruct (type_in_base b n Hok t Ht) as (k & _ & _ & _ & Hk & _). rewrite Hk. cbn [mbind option_bind].
  rewrite (proj2 (field_based_only _ Hkind)), Hkind. cbn [negb].
  destruct (push_acc_spec (Acc rid (u32 i0) None) sp Hwf ltac:(lia)) as (s1 & Hpush & Hwf1 & Hacc1 & Hraw1 & Hlen1 & Hrl1 & Hbits1 & _ & Hbt1 & Hrk1 & _).
  rewrite Hpush. cbn [mbind option_bind]. destruct (resolve_size_cases b n Hok rid Hrid) as (sz & -> & Hsz). cbn [mbind option_bind].
  destruct (Z.ltb_spec sz 0); [exists sz, s1; split; [done|lia]|].
  set (s2 := add_bits (i0 * sz * 8) s1).
  assert (at_accessor b n (Z.to_nat (raw_len s1 - 1)) 1 rid s2) as Haa.
  { constructor.
    - done.
    - by apply add_bits_wf.
    - unfold accs_in, s2. change (acc_list (add_bits (i0 * sz * 8) s1)) with (acc_list s1). rewrite Hacc1. apply Forall_app. split.
      + unfold acc_list. rewrite Hlen. constructor.
      + constructor; [|done]. unfold acc_ok. cbn. assert (idx_ok i0) as Hi0 by (by inversion Hidx). unfold idx_ok in *. rewrite u32_idem by lia. split_and!; try done; lia.
    - by apply (push_acc_fresh _ _ _ Hwf) in Hpush.
    - unfold s2. cbn [add_bits len]. lia.
    - unfold s2. cbn [add_bits raw_len]. lia.
    - change (raw_list s2) with (raw_list s1). by rewrite Hraw1, Hraw. }
  destruct (parse_accs_spec b n Hok _ 1 rid s2 Haa) as (err & sp' & -> & Hwf' & Hraw' & Hin' & Hbt' & Hrk' & [tl Htl] & Hres).
  exists err, sp'. split; [done|]. intros He. destruct (Hres He) as (o & e & Hp & Hb).
    change (raw_list s2) with (raw_list s1) in *. rewrite Hraw1, Hraw in *. change (drop (Z.to_nat 1) (i0 :: l)) with l in Hp.
    split; [|rewrite Hrk'; unfold s2; exact Hrk1]. split; [done|]. split; [done|]. split; [done|]. split; [by rewrite Hbt', <- Hbt; unfold s2; cbn [add_bits spec_btf]|].
    split.
    { exists (Acc rid (u32 i0) None). split; [|done]. rewrite Htl. unfold s2. change (acc_list (add_bits (i0 * sz * 8) s1)) with (acc_list s1).
      rewrite Hacc1. unfold acc_list. by rewrite Hlen. }
    exists t, rid, sz, i0, l, o, e. split_and!; try done; [by apply Hsz|]. rewrite Hb. unfold s2. cbn [add_bits bit_offset].
    rewrite Hbits1, Hbits. apply (u32_add 0).
Qed.

Lemma access_str_head i0 l : idx_ok i0 -> access_str (i0 :: l) <> [] /\ head (access_str (i0 :: l)) <> Some COLON.
Proof.
  intros Hi. unfold idx_ok in Hi. rewrite access_str_cons. unfold dec.
  destruct (dec_head 11 i0 [] ltac:(lia) ltac:(lia)) as (d & ds & -> & Hd). cbn [app head]. split; [done|].
  intros [= He]. unfold COLON in He. lia.
Qed.

Lemma parse_spec_field_ok b n relo spec0 i0 l : core_ok b n -> 0 <= r_type_id relo < n ->
  core_relo_is_field_based (r_kind relo) = true ->
  btf__name_by_offset b (r_access_str_off relo) = Some (Some (access_str (i0 :: l))) -> Forall idx_ok (i0 :: l) ->
  exists err sp, bpf_core_parse_spec b relo spec0 = Some (err, sp) /\ ((64 < length (i0 :: l))%nat -> err = - E2BIG) /\
    (err = 0 -> field_spec b n (r_type_id relo) (i0 :: l) sp /\ relo_kind sp = r_kind relo).
Proof.
  intros Hok Hid Hkind Hname Hidx. unfold bpf_core_parse_spec. rewrite Hname. cbn [mbind option_bind].
  destruct (access_str_head i0 l) as [Hne Hc]; [by inversion Hidx|].
  cbn [str_is_empty]. rewrite (bool_decide_false (access_str (i0 :: l) = [])) by done. cbn [mbind option_bind].
  rewrite (bool_decide_false (head _ = _)) by done. rewrite (proj1 (field_based_only _ Hkind)).
  destruct (parse_raw_zero b (r_type_id relo) (r_kind relo) (i0 :: l) Hidx ltac:(done)) as (err & sp & -> & Hle & Hgt).
  cbn [mbind option_bind]. destruct (decide (64 < length (i0 :: l))%nat) as [Hlong|Hshort].
  { rewrite (Hgt Hlong). change (negb (- E2BIG =? 0)) with true. cbv iota. exists (- E2BIG), sp. split; [done|]. split; [done|].
    unfold E2BIG. lia. }
  destruct Hle as (-> & Hwf & Hraw & Hrl & Hlen & Haccs & Hbits & Hbt & Hrk); [lia|]. cbn [Z.eqb negb].
  destruct (Z.eqb_spec (raw_len sp) 0); [cbn [length] in *; lia|].
  destruct (parse_accessors_field b n relo sp i0 l) as (err & sp' & -> & Hres); auto.
  { unfold fresh. rewrite Haccs. apply Forall_drop, Forall_replicate. done. }
  exists err, sp'. split; [done|]. split; [lia|]. by rewrite <- Hrk.
Qed.

(** ** Fields by name *)

(** [has_field b name id p o ty]: the member [name] of the composite [id], found through
    anonymous members along [p], at bit [o] and of type [ty]. *)
Inductive has_field (b : btf) (name : list Z) : Z -> list Z -> Z -> Z -> Prop :=
| field_here id i off m : member_of b id i off m -> btf__name_by_offset b (m_name_off m) = Some (Some name) ->
    has_field b name id [i] off (m_type m)
| field_anon id i off m l o ty : member_of b id i off m -> btf__name_by_offset b (m_name_off m) = Some (Some []) ->
    has_field b name (m_type m) l o ty -> has_field b name id (i :: l) (off + o) ty.

(** C gives the members of a composite, those of its anonymous members included, different
    names. *)
Definition fields_unique (b : btf) : Prop :=
  forall name id p1 o1 t1 p2 o2 t2, has_field b name id p1 o1 t1 -> has_field b name id p2 o2 t2 -> p1 = p2.

Lemma has_field_path b name id p o ty : has_field b name id p o ty -> path_off b id p o ty.
Proof.
  induction 1 as [id i off m Hm Hn|id i off m l o ty Hm Hn H IH].
  - rewrite <- (Z.add_0_r off). eapply path_member; [done|constructor].
  - by eapply path_member.
Qed.

Lemma path_app b id l1 o1 e1 l2 o2 e2 : path_off b id l1 o1 e1 -> path_off b e1 l2 o2 e2 -> path_off b id (l1 ++ l2) (o1 + o2) e2.
Proof.
  induction 1 as [id|id i off m l o e Hm H IH|id t rid a et eid i sz l o e Hs Hk Ha He Hsz Hi Hb H IH]; intros H2; cbn [app].
  - done.
  - rewrite <- Z.add_assoc. eapply path_member; eauto.
  - rewrite <- Z.add_assoc. eapply path_elem; eauto.
Qed.

(** Skipping modifiers ends at a type that is not one, so skipping twice is skipping once. *)
Lemma skip_loop_end fuel b id t rid : skip_loop fuel b id = Some (t, rid) ->
  exists k, btf__type_by_id b rid = Some (Some t) /\ btf_kind t = Some k /\ (kind_is_mod k || (k =? BTF_KIND_TYPEDEF)) = false.
Proof.
  revert id. induction fuel as [|fuel IH]; intros id H; [done|]. cbn [skip_loop] in H.
  apply bind_Some in H as (ot & Hot & H). apply bind_Some in H as (t' & -> & H). apply bind_Some in H as (k & Hk & H).
  destruct (kind_is_mod k || (k =? BTF_KIND_TYPEDEF)) eqn:Hs; [|simplify_eq; eauto].
  apply bind_Some in H as (ty & Hty & H). eauto.
Qed.

Lemma skip_idem b id t rid : skip_mods_and_typedefs b id = Some (t, rid) -> skip_mods_and_typedefs b rid = Some (t, rid).
Proof.
  unfold skip_mods_and_typedefs. intros H. apply bind_Some in H as (n & Hn & H). rewrite Hn. cbn [mbind option_bind].
  destruct (skip_loop_end _ _ _ _ _ H) as (k & Hby & Hk & Hs). cbn [skip_loop]. rewrite Hby. cbn [mbind option_bind]. rewrite Hk.
  cbn [mbind option_bind]. by rewrite Hs.
Qed.

Lemma member_of_resolve b id t rid i off m : skip_mods_and_typedefs b id = Some (t, rid) -> member_of b rid i off m -> member_of b id i off m.
Proof.
  intros Hs (t' & rid' & k & v & Hs' & H). rewrite (skip_idem _ _ _ _ Hs) in Hs'. injection Hs' as <- <-. by exists t, rid, k, v.
Qed.

Lemma has_field_resolve b name id t rid p o ty : skip_mods_and_typedefs b id = Some (t, rid) ->
  has_field b name rid p o ty -> has_field b name id p o ty.
Proof.
  intros Hs H. inversion H; subst; [eapply field_here|eapply field_anon]; eauto using member_of_resolve.
Qed.

(** ** Matching a member *)

(** The same spec, up to what lies behind the ends of the arrays. *)
Record same_spec (s s' : bpf_core_spec) : Prop := {
  same_raw : raw_list s' = raw_list s;
  same_raw_len : raw_len s' = raw_len s;
  same_bits : bit_offset s' = bit_offset s
}.

Lemma pop_raw_list s l x : spec_wf s -> raw_len s = Z.of_nat (length l) + 1 -> raw_list s = l ++ [x] -> raw_list (pop_raw s) = l.
Proof.
  intros Hwf Hn Hr. unfold raw_list in *. cbn [pop_raw raw_spec raw_len].
  rewrite <- (take_app_length l [x]), <- Hr, take_take. f_equal. lia.
Qed.

Lemma raw_list_length s : spec_wf s -> Z.of_nat (length (raw_list s)) = raw_len s.
Proof. intros [Ha Hr Hl Hrl _]. unfold raw_list. rewrite length_take. lia. Qed.

Lemma undo_wf off s : spec_wf s -> len s < raw_len s -> spec_wf (pop_raw (add_bits off s)).
Proof.
  intros Hwf Hlt. destruct (add_bits_wf off s Hwf) as [Ha Hr Hl Hrl Hb].
  split; cbn [pop_raw add_bits accs raw_spec len raw_len bit_offset] in *; try done; lia.
Qed.

Section Member.
Context (lb : btf) (ln : Z) (Hlb : core_ok lb ln) (Hlac : arrays_acyclic lb ln).
Context (tb : btf) (tn : Z) (Htb : core_ok tb tn) (Htu : fields_unique tb).
Context (la : bpf_core_accessor) (lt : btf_type) (lm : btf_member) (lname : list Z).
Context (Hlt : btf_type_by_id lb (acc_type_id la) = Some lt) (Hlm : btf_member_at lt (acc_idx la) = Some lm).
Context (Hln : btf__name_by_offset lb (m_name_off lm) = Some (Some lname)) (Hlty : 0 <= m_type lm < ln).

(** What the search in [id] from [sp] returns: the field with its path appended, or nothing
    with the spec restored unless an incompatible field was found, or an error. *)
Definition matched (id : Z) (sp : bpf_core_spec) (r : option (Z * bpf_core_spec * Z)) : Prop :=
  exists found sp' next, r = Some (found, sp', next) /\ spec_wf sp' /\ accs_in tb tn sp' /\
    spec_btf sp' = spec_btf sp /\ relo_kind sp' = relo_kind sp /\
    ((found = 1 /\ len sp' = len sp + 1 /\ exists p o, has_field tb lname id p o next /\
        raw_list sp' = raw_list sp ++ p /\ bit_offset sp' = u32 (bit_offset sp + o)) \/
     (found = 0 /\ len sp' = len sp /\ raw_len sp <= raw_len sp' /\
        (same_spec sp sp' \/ exists p o ty, has_field tb lname id p o ty)) \/
     (found = - E2BIG \/ found = - EINVAL)).

(** The state of the loop before member [i]. *)
Record at_member (id i : Z) (sp cur : bpf_core_spec) : Prop := {
  am_wf : spec_wf cur;
  am_in : accs_in tb tn cur;
  am_btf : spec_btf cur = spec_btf sp /\ relo_kind cur = relo_kind sp;
  am_len : len cur = len sp;
  am_raw : raw_len sp <= raw_len cur;
  am_same : same_spec sp cur \/ exists j l o ty, j < i /\ has_field tb lname id (j :: l) o ty
}.

(** A field found at member [i] means the loop is in its first state. *)
Lemma at_member_same id i sp cur l o ty : at_member id i sp cur -> has_field tb lname id (i :: l) o ty -> same_spec sp cur.
Proof.
  intros [_ _ _ _ _ [Hs|(j & l' & o' & ty' & Hj & Hf)]] Hi; [done|].
  pose proof (Htu _ _ _ _ _ _ _ _ Hf Hi) as He. injection He as -> _. lia.
Qed.

(** Undoing the speculation on member [i]. *)
Lemma at_member_undo id i off sp cur s1 s2 : at_member id i sp cur -> spec_wf s2 -> accs_in tb tn s2 ->
  raw_list s1 = raw_list cur ++ [i] -> raw_len s1 = raw_len cur + 1 -> bit_offset s1 = u32 (bit_offset cur + off) ->
  spec_btf s2 = spec_btf cur -> relo_kind s2 = relo_kind cur -> len s2 = len cur -> raw_len s1 <= raw_len s2 ->
  (same_spec s1 s2 \/ exists l o ty, has_field tb lname id (i :: l) o ty) ->
  at_member id (i + 1) sp (pop_raw (add_bits (- off) s2)).
Proof.
  intros [Hwf Hin [Hb Hk] Hlen Hraw Hsame] Hwf2 Hin2 Hr1 Hn1 Hb1 Hbt2 Hk2 Hlen2 Hrl2 Hs2. destruct (wf_len cur Hwf).
  split.
  - apply undo_wf; [done|lia].
  - exact Hin2.
  - cbn [pop_raw add_bits spec_btf relo_kind]. split; congruence.
  - cbn [pop_raw add_bits len]. lia.
  - cbn [pop_raw add_bits raw_len]. lia.
  - destruct Hsame as [[Hsr Hsl Hsb]|(j & l & o & ty & Hj & Hf)]; [|right; exists j, l, o, ty; split; [lia|done]].
    destruct Hs2 as [[Hsr2 Hsl2 Hsb2]|(l & o & ty & Hf)]; [left|right; exists i, l, o, ty; split; [lia|done]].
    split.
    + transitivity (raw_list cur); [|done]. apply (pop_raw_list (add_bits (- off) s2) (raw_list cur) i).
      * by apply add_bits_wf.
      * rewrite raw_list_length by done. cbn [add_bits raw_len]. lia.
      * change (raw_list (add_bits (- off) s2)) with (raw_list s2). congruence.
    + cbn [pop_raw add_bits raw_len]. lia.
    + cbn [pop_raw add_bits bit_offset]. rewrite Hsb2, Hb1, u32_add, Z.add_opp_diag_r, Z.add_0_r, u32_idem by apply Hwf. done.
Qed.

Lemma pop_acc_list s l x : spec_wf s -> 0 <= len s - 1 -> acc_list s = l ++ [x] -> acc_list (pop_acc s) = l.
Proof.
  intros Hwf Hn Hr. assert (length (acc_list s) = Z.to_nat (len s)) as Hlen.
  { destruct Hwf as [Ha _ Hl Hrl _]. unfold acc_list. rewrite length_take. lia. }
  rewrite Hr, length_app in Hlen. simpl in Hlen. unfold acc_list in *. cbn [pop_acc accs len].
  rewrite <- (take_app_length l [x]), <- Hr, take_take. f_equal. lia.
Qed.

(** The member [i] has the local name. *)
Lemma match_named id t rid kd v i m off sp cur : skip_mods_and_typedefs tb id = Some (t, rid) -> 0 <= rid < tn ->
  btf_type_by_id tb rid = Some t -> btf_kind t = Some kd -> kind_is_composite kd = true -> btf_vlen t = Some v -> 0 <= i < v ->
  btf_member_bit_offset t i = Some off -> btf_member_at t i = Some m -> 0 <= m_type m < tn ->
  btf__name_by_offset tb (m_name_off m) = Some (Some lname) -> at_member id i sp cur ->
  forall s1, spec_wf s1 -> raw_list s1 = raw_list cur ++ [i] -> acc_list s1 = acc_list cur -> len s1 = len cur ->
    raw_len s1 = raw_len cur + 1 -> bit_offset s1 = u32 (bit_offset cur + off) -> spec_btf s1 = spec_btf cur -> relo_kind s1 = relo_kind cur ->
  matched id sp (sp ← push_acc (Acc rid i (Some lname)) s1;
                 found ← bpf_core_fields_are_compat lb (m_type lm) tb (m_type m);
                 Some (found, if found =? 0 then pop_acc sp else sp, m_type m)).
Proof.
  intros Hskip Hrid Hby Hkd Hc Hv Hi Hoff Hm Hmt Hname Hat s1 Hwf1 Hr1 Ha1 Hl1 Hn1 Hb1 Hbt1 Hk1.
  assert (member_of tb id i off m) as Hmem by (exists t, rid, kd, v; done).
  pose proof (field_here tb lname id i off m Hmem Hname) as Hfield.
  pose proof (at_member_same id i sp cur [] off (m_type m) Hat Hfield) as [Hsr Hsl Hsb].
  destruct Hat as [Hwf Hin [Hbt Hrk] Hlen Hraw _]. destruct (wf_len cur Hwf).
  destruct (push_acc_spec (Acc rid i (Some lname)) s1 Hwf1 ltac:(lia)) as (s2 & -> & Hwf2 & Ha2 & Hr2 & Hl2 & Hn2 & Hb2 & _ & Hbt2 & Hk2 & _).
  cbn [mbind option_bind]. pose proof (vlen_range _ _ Hv).
  assert (accs_in tb tn s2) as Hin2.
  { unfold accs_in. rewrite Ha2, Ha1. apply Forall_app. split; [exact Hin|]. constructor; [|done].
    split; [done|]. unfold idx_ok. cbn [acc_idx acc_type_id acc_name]. split; [lia|]. intros _ _. exists t, kd, v. split_and!; auto. lia. }
  destruct (fields_are_compat_returns lb ln (m_type lm) tb tn (m_type m)) as (r & -> & Hr); auto. cbn [mbind option_bind].
  destruct Hr as [->|[->| ->]].
  - exists 1, s2, (m_type m). split_and!; try done; try congruence. left. split; [done|]. split; [lia|]. exists [i], off.
    split_and!; try done; congruence.
  - cbn [Z.eqb]. exists 0, (pop_acc s2), (m_type m).
    assert (acc_list (pop_acc s2) = acc_list cur) as Hpop by (rewrite <- Ha1; eapply pop_acc_list; [done|lia|done]).
    split_and!; try done; try (cbn [pop_acc spec_btf relo_kind]; congruence).
    + destruct Hwf2 as [? ? ? ? ?]. split; cbn [pop_acc accs raw_spec len raw_len bit_offset]; try done; lia.
    + unfold accs_in. by rewrite Hpop.
    + right. left. split; [done|]. cbn [pop_acc len raw_len]. split; [lia|]. split; [lia|]. right. by eexists _, _, _.
  - exists (- EINVAL), s2, (m_type m). split_and!; try done; try congruence. right. right. by right.
Qed.

Lemma match_loop_spec fuel rec id t rid kd v sp :
  (forall ty s nx, 0 <= ty < tn -> spec_wf s -> accs_in tb tn s -> (65 - Z.to_nat (raw_len s) <= fuel)%nat -> matched ty s (rec ty s nx)) ->
  skip_mods_and_typedefs tb id = Some (t, rid) -> 0 <= rid < tn -> type_in tb tn t -> btf_type_by_id tb rid = Some t ->
  btf_kind t = Some kd -> kind_is_composite kd = true -> btf_vlen t = Some v ->
  (64 - Z.to_nat (raw_len sp) <= fuel)%nat -> spec_wf sp ->
  forall k i cur next, 0 <= i -> i + Z.of_nat k = v -> at_member id i sp cur ->
  matched id sp (match_loop k rec lb (m_type lm) (Some lname) tb rid t i cur next).
Proof.
  intros Hrec Hskip Hrid Ht Hby Hkd Hc Hv Hfuel Hwfsp.
  destruct (type_in_base tb tn Htb t Ht) as (_ & _ & _ & _ & _ & _ & _ & _ & (f & Hf) & _).
  induction k as [|k IH]; intros i cur next Hi Hik Hat; cbn [match_loop].
  { destruct Hat as [Hwf Hin [Hbt Hrk] Hlen Hraw Hsame]. exists 0, cur, next. split_and!; try done. right. left.
    split_and!; try done. destruct Hsame as [?|(j & l & o & ty & _ & ?)]; [by left|right; eauto]. }
  destruct (member_valid tb tn t kd v i Htb Ht Hkd Hc Hv ltac:(lia)) as (m & Hm & [s Hs] & Hmt).
  destruct (member_off_total t i m f Hm Hf) as [off Hoff]. rewrite Hoff. cbn [mbind option_bind].
  pose proof Hat as [Hwf Hin [Hbt Hrk] Hlen Hraw _]. unfold BPF_CORE_SPEC_MAX_LEN.
  destruct (Z.eqb_spec (raw_len cur) 64) as [He|He].
  { exists (- E2BIG), cur, next. split_and!; try done. right. right. by left. }
  destruct (wf_len cur Hwf). pose proof (wf_raw_len cur Hwf).
  destruct (push_raw_spec i (add_bits off cur) (add_bits_wf off cur Hwf)) as (s1 & -> & Hwf1 & Hr1 & Ha1 & Hl1 & Hn1 & Hb1 & _ & Hbt1 & Hk1 & _);
    [cbn [add_bits raw_len]; lia|]. cbn [mbind option_bind].
  change (raw_list (add_bits off cur)) with (raw_list cur) in Hr1. change (acc_list (add_bits off cur)) with (acc_list cur) in Ha1.
  cbn [add_bits len raw_len bit_offset spec_btf relo_kind] in Hl1, Hn1, Hb1, Hbt1, Hk1.
  rewrite Hm. cbn [mbind option_bind]. assert (btf__name_by_offset tb (m_name_off m) = Some (Some s)) as Hname by done.
  rewrite Hname. cbn [mbind option_bind str_is_empty].
  assert (member_of tb id i off m) as Hmem by (exists t, rid, kd, v; split_and!; auto; lia).
  assert (accs_in tb tn s1) as Hin1 by (unfold accs_in; by rewrite Ha1).
  case_bool_decide as Hemp; [subst s|].
  - destruct (Hrec (m_type m) s1 next Hmt Hwf1 Hin1 ltac:(lia)) as (found & s2 & nx & -> & Hwf2 & Hin2 & Hbt2 & Hk2 & Hres).
    cbn [mbind option_bind]. destruct Hres as [(-> & Hl2 & p & o & Hf2 & Hr2 & Hb2)|[(-> & Hl2 & Hn2 & Hs2)|Hneg]].
    + cbn [Z.eqb negb]. pose proof (field_anon tb lname id i off m p o nx Hmem Hname Hf2) as Hfield.
      pose proof (at_member_same id i sp cur p _ _ Hat Hfield) as [Hsr Hsl Hsb].
      exists 1, s2, nx. split_and!; try done; try congruence. left. split; [done|]. split; [lia|]. exists (i :: p), (off + o). split; [done|].
      split; [by rewrite Hr2, Hr1, Hsr, <- app_assoc|]. by rewrite Hb2, Hb1, Hsb, u32_add.
    + cbn [Z.eqb negb]. apply IH; [lia|lia|]. eapply at_member_undo; eauto; try congruence.
      destruct Hs2 as [?|(p & o & ty & Hf2)]; [by left|]. right. exists p, (off + o), ty. by eapply field_anon.
    + assert (negb (found =? 0) = true) as -> by (by destruct Hneg as [-> | ->]).
      exists found, s2, nx. split_and!; try done; try congruence. by right; right.
  - cbn [mbind option_bind]. case_bool_decide as Hnm; [subst s|].
    + eapply match_named; eauto. lia.
    + apply IH; [lia|lia|]. eapply (at_member_undo id i off sp cur s1 s1); eauto; try lia. left. by split.
Qed.

Lemma match_member_spec fuel id sp next : 0 <= id < tn -> spec_wf sp -> accs_in tb tn sp -> (65 - Z.to_nat (raw_len sp) <= fuel)%nat ->
  matched id sp (match_member fuel lb la tb id sp next).
Proof.
  revert id sp next. induction fuel as [|fuel IH]; intros id sp next Hid Hwf Hin Hfuel.
  { pose proof (wf_raw_len sp Hwf). lia. }
  cbn [match_member]. destruct (skip_in tb tn Htb id Hid) as (t & rid & Hskip & Hrid & Ht & Hby). rewrite Hskip. cbn [mbind option_bind].
  destruct (type_in_base tb tn Htb t Ht) as (kd & v & _ & _ & Hkd & Hv & _). rewrite Hkd. cbn [mbind option_bind].
  assert (same_spec sp sp) as Hrefl by done.
  destruct (kind_is_composite kd) eqn:Hc; cbn [negb].
  2: { exists 0, sp, next. split_and!; try done. right. left. split_and!; auto. lia. }
  rewrite Hlt. cbn [mbind option_bind]. rewrite Hlm. cbn [mbind option_bind]. rewrite Hln. cbn [mbind option_bind].
  rewrite Hv. cbn [mbind option_bind]. pose proof (vlen_range _ _ Hv). eapply match_loop_spec; eauto; try lia.
  split; auto. lia.
Qed.
End Member.

(** ** Matching a spec *)
Lemma has_field_range b n name id p o ty : core_ok b n -> has_field b name id p o ty -> 0 <= id < n -> 0 <= ty < n.
Proof.
  intros Hok H. induction H as [id i off m Hm Hn|id i off m l o ty Hm Hn H IH]; intros Hid.
  all: destruct Hm as (t & rid & k & v & Hs & Hk & Hc & Hv & Hi & _ & Hm).
  all: destruct (skip_in b n Hok id Hid) as (t' & rid' & Hs' & Hrid & Ht & _); rewrite Hs in Hs'; simplify_eq.
  all: destruct (member_valid b n t' k v i Hok Ht Hk Hc Hv Hi) as (m' & Hm' & _ & Hr); simplify_eq; auto.
Qed.

(** An array accessor: the accessor and the index are added together. *)
Lemma push_elem a v s : spec_wf s -> raw_len s < 64 ->
  exists s', (l ← zset (accs s) (len s) a;
      push_raw v (Spec (spec_btf s) l (root_type_id s) (relo_kind s) (len s + 1) (raw_spec s) (raw_len s) (bit_offset s))) = Some s' /\
    spec_wf s' /\ acc_list s' = acc_list s ++ [a] /\ raw_list s' = raw_list s ++ [v] /\ len s' = len s + 1 /\
    bit_offset s' = bit_offset s /\ spec_btf s' = spec_btf s /\ relo_kind s' = relo_kind s.
Proof.
  intros [Ha Hr Hl Hrl Hb] Hlt. destruct (zset_is_Some (accs s) (len s) a) as [l Hla]; [lia|]. rewrite Hla. cbn [mbind option_bind].
  unfold push_raw. cbn [raw_spec raw_len accs len spec_btf root_type_id relo_kind bit_offset].
  destruct (zset_is_Some (raw_spec s) (raw_len s) v) as [l' Hl']; [lia|]. rewrite Hl'. cbn [mbind option_bind].
  eexists. split; [done|]. split.
  { split; cbn [accs raw_spec len raw_len bit_offset]; rewrite ?(zset_length _ _ _ _ Hl'), ?(zset_length _ _ _ _ Hla); lia. }
  split_and!; try done; [unfold acc_list|unfold raw_list]; cbn [accs len raw_spec raw_len]; by apply take_zset.
Qed.

Lemma resolve_size_int b n id : core_ok b n -> 0 <= id < n ->
  exists r, btf__resolve_size b id = Some r /\ (0 <= s32 r -> sizeof b id (s32 r)).
Proof.
  intros Hok Hid. destruct (resolve_size_total b n id (core_btf _ _ Hok) (core_words _ _ Hok)) as [r Hr]; [lia|].
  exists r. split; [done|]. intros H0. destruct (resolve_size_ok b (core_words _ _ Hok) id r Hr) as [->|[->|(m & Hm & -> & Hb)]].
  - rewrite swrap_small in H0 by (unfold EINVAL; lia). unfold EINVAL in *. lia.
  - rewrite swrap_small in H0 by (unfold E2BIG; lia). unfold E2BIG in *. lia.
  - rewrite Z.mul_1_l in *. unfold UINT32_MAX in Hb. destruct (decide (m < 2 ^ 31)); [by rewrite swrap_small by lia|].
    exfalso. unfold swrap in H0. change (32 - 1) with 31 in H0.
    replace (m + 2 ^ 31) with (m - 2 ^ 31 + 1 * 2 ^ 32) in H0 by lia. rewrite Z.mod_add, Z.mod_small in H0 by lia. lia.
Qed.

Section Match.
Context (lb : btf) (ln : Z) (Hlb : core_ok lb ln) (Hlac : arrays_acyclic lb ln).
Context (tb : btf) (tn : Z) (Htb : core_ok tb tn) (Htu : fields_unique tb).
Context (ls : bpf_core_spec) (Hlwf : spec_wf ls) (Hlin : accs_in lb ln ls) (Hlbtf : spec_btf ls = lb).
Context (root : Z) (Hroot : 0 <= root < tn).

(** The raw path taken so far leads from an object of the root type to [e]. *)
Definition reached (e : Z) (sp : bpf_core_spec) : Prop :=
  exists t rid sz i0 l o, raw_list sp = i0 :: l /\ skip_mods_and_typedefs tb root = Some (t, rid) /\ sizeof tb rid sz /\
    path_off tb rid l o e /\ bit_offset sp = u32 (i0 * sz * 8 + o).

Lemma reached_step e sp e' sp' p o : reached e sp -> path_off tb e p o e' -> raw_list sp' = raw_list sp ++ p ->
  bit_offset sp' = u32 (bit_offset sp + o) -> reached e' sp'.
Proof.
  intros (t & rid & sz & i0 & l & o0 & Hr & Hs & Hsz & Hp & Hb) Hp' Hr' Hb'. exists t, rid, sz, i0, (l ++ p), (o0 + o).
  split_and!; auto; [by rewrite Hr', Hr|by eapply path_app|]. by rewrite Hb', Hb, u32_add, Z.add_assoc.
Qed.

Definition spec_matched (r : option (Z * bpf_core_spec)) : Prop :=
  exists res sp', r = Some (res, sp') /\ res <= 1 /\
    (res = 1 -> spec_wf sp' /\ accs_in tb tn sp' /\ len sp' = len ls /\ spec_btf sp' = tb /\ exists e, reached e sp').

Lemma spec_matched_fail res sp : res <= 0 -> spec_matched (Some (res, sp)).
Proof. intros H. exists res, sp. split_and!; [done|lia|lia]. Qed.

Lemma spec_match_loop_spec k i e sp : 1 <= i -> i + Z.of_nat k = len ls -> 0 <= e < tn -> spec_wf sp -> accs_in tb tn sp ->
  len sp = i -> spec_btf sp = tb -> reached e sp -> spec_matched (spec_match_loop k ls tb i e sp).
Proof.
  revert i e sp. induction k as [|k IH]; intros i e sp Hi Hik He Hwf Hin Hlen Hsb Hre; cbn [spec_match_loop].
  { exists 1, sp. split_and!; [done|lia|]. intros _. split_and!; auto; [lia|by exists e]. }
  destruct (acc_at ls i Hlwf ltac:(lia)) as (la & Hla & Hmem). rewrite Hla. cbn [mbind option_bind].
  destruct (skip_in tb tn Htb e He) as (t & rid & Hskip & Hrid & Ht & Hby). rewrite Hskip. cbn [mbind option_bind].
  assert (acc_ok lb ln la) as (Hla1 & Hla2 & Hla3) by (unfold accs_in in Hlin; rewrite Forall_forall in Hlin; auto).
  destruct (acc_name la) as [nm|] eqn:Hnm.
  - destruct (Hla3 nm eq_refl) as (lt & lk & lv & Hlt & Hlk & Hlc & Hlv & Hlidx).
    destruct (member_valid lb ln lt lk lv (acc_idx la) Hlb) as (lm & Hlm & [lname Hln] & Hlmt); auto; [by exists (acc_type_id la)|unfold idx_ok in Hla2; lia|].
    destruct (match_member_spec lb ln Hlb Hlac tb tn Htb Htu la lt lm lname Hlt Hlm Hln Hlmt 65 rid sp rid Hrid Hwf Hin ltac:(lia))
      as (found & s1 & nx & Hmm & Hwf1 & Hin1 & Hbt1 & Hk1 & Hres).
    unfold bpf_core_match_member. rewrite Hlbtf, Hmm. cbn [mbind option_bind].
    destruct Hres as [(-> & Hl1 & p & o & Hf & Hr1 & Hb1)|[(-> & _)|Hneg]].
    + cbn [Z.leb Z.compare]. pose proof (has_field_resolve tb lname e t rid p o nx Hskip Hf) as Hf'.
      apply IH; auto; try lia; [by eapply has_field_range; [exact Htb|exact Hf'|]|congruence|].
      eapply reached_step; eauto. by eapply has_field_path.
    + cbn [Z.leb Z.compare]. apply spec_matched_fail. lia.
    + destruct Hneg as [-> | ->]; (apply spec_matched_fail; unfold E2BIG, EINVAL; lia).
  - rewrite Z.gtb_ltb. destruct (Z.ltb_spec 0 i); [|lia].
    destruct (type_in_base tb tn Htb t Ht) as (kd & v & _ & _ & Hkd & _). rewrite Hkd. cbn [mbind option_bind].
    destruct (Z.eqb_spec kd BTF_KIND_ARRAY) as [->|]; cbn [negb mbind option_bind]; [|apply spec_matched_fail; lia].
    destruct (array_elem tb tn Htb t Ht Hkd) as (a & Ha & Hat). rewrite Ha. cbn [mbind option_bind].
    destruct (acc_at sp (i - 1) Hwf ltac:(lia)) as (prev & -> & Hprev). cbn [mbind option_bind].
    destruct (is_flex_arr_total tb tn prev a Htb) as (fl & -> & Hfl).
    { unfold accs_in in Hin. rewrite Forall_forall in Hin. by apply (Hin prev). }
    cbn [mbind option_bind]. rewrite Z.geb_leb. destruct (negb fl && (arr_nelems a <=? acc_idx la)) eqn:Hbound;
      cbn [mbind option_bind]; [apply spec_matched_fail; lia|].
    destruct (skip_in tb tn Htb _ Hat) as (et & eid & Hes & Heid & _). rewrite Hes. cbn [mbind option_bind].
    unfold BPF_CORE_SPEC_MAX_LEN. destruct (Z.eqb_spec (raw_len sp) 64); [apply spec_matched_fail; unfold E2BIG; lia|].
    pose proof (wf_raw_len sp Hwf). rewrite <- Hlen.
    destruct (push_elem (Acc eid (acc_idx la) None) (s32 (acc_idx la)) sp Hwf ltac:(lia)) as (s1 & Hpush & Hwf1 & Ha1 & Hr1 & Hl1 & Hb1 & Hsb1 & _).
    apply bind_Some in Hpush as (l & -> & Hpush). cbn [mbind option_bind]. rewrite Hpush. cbn [mbind option_bind].
    unfold idx_ok in Hla2. rewrite swrap_small in Hr1 by lia.
    destruct (resolve_size_int tb tn eid Htb Heid) as (sz & -> & Hsz). cbn [mbind option_bind].
    destruct (Z.ltb_spec (s32 sz) 0); [apply spec_matched_fail; lia|]. apply IH; auto.
    + lia.
    + lia.
    + by apply add_bits_wf.
    + unfold accs_in. change (acc_list (add_bits (acc_idx la * s32 sz * 8) s1)) with (acc_list s1). rewrite Ha1. apply Forall_app.
      split; [exact Hin|]. constructor; [|done]. unfold acc_ok, idx_ok. cbn. split_and!; try done; lia.
    + cbn [add_bits spec_btf]. congruence.
    + eapply (reached_step e sp eid _ [acc_idx la] (acc_idx la * s32 sz * 8 + 0)); eauto.
      * eapply path_elem; eauto; [lia| |constructor]. pose proof (array_nelems tb tn t a Htb Ht Ha).
        apply andb_false_iff in Hbound as [Hb|Hb]; [apply negb_false_iff in Hb as ->; specialize (Hfl eq_refl); lia|apply Z.leb_gt in Hb; lia].
      * cbn [add_bits bit_offset]. by rewrite Hb1, Z.add_0_r.
Qed.
End Match.

Lemma spec_match_field_ok lb ln tb tn ls root idxs targ_id : core_ok lb ln -> arrays_acyclic lb ln -> core_ok tb tn -> fields_unique tb ->
  field_spec lb ln root idxs ls -> core_relo_is_field_based (relo_kind ls) = true -> 0 <= targ_id < tn ->
  spec_matched tb tn ls targ_id (bpf_core_spec_match ls tb targ_id).
Proof.
  intros Hlb Hac Htb Htu (Hwf & Hraw & Hin & Hbt & (a0 & Ha0 & Hnm) & _) Hkind Hid. unfold bpf_core_spec_match.
  destruct (field_based_only _ Hkind) as [-> ->]. rewrite Hkind. cbn [negb].
  assert (0 < len ls) as Hlen.
  { destruct (wf_len ls Hwf). unfold acc_list in Ha0. destruct (decide (len ls = 0)) as [He|]; [rewrite He in Ha0; done|lia]. }
  destruct (Z.to_nat (len ls)) as [|k] eqn:Hk; [lia|]. cbn [spec_match_loop].
  destruct (acc_at ls 0 Hwf ltac:(lia)) as (la & Hla & Hmem). rewrite Hla. cbn [mbind option_bind].
  assert (la = a0) as ->.
  { apply zget_Some in Hla as [_ Hla]. unfold acc_list in Ha0. rewrite Hk in Ha0. destruct (accs ls); [done|]. simpl in *. congruence. }
  destruct (skip_in tb tn Htb targ_id Hid) as (t & rid & Hskip & Hrid & Ht & Hby). rewrite Hskip. cbn [mbind option_bind]. rewrite Hnm.
  change (0 >? 0) with false. cbn [mbind option_bind].
  assert (acc_ok lb ln a0) as (_ & Hidx & _) by (unfold accs_in in Hin; rewrite Forall_forall in Hin; auto). unfold idx_ok in Hidx.
  set (s0 := spec_zero tb targ_id (relo_kind ls)). change (raw_len s0 =? BPF_CORE_SPEC_MAX_LEN) with false. cbv iota.
  change (zset (accs s0) 0) with (zset (accs s0) (len s0)).
  destruct (push_elem (Acc rid (acc_idx a0) None) (s32 (acc_idx a0)) s0 (spec_zero_wf _ _ _) ltac:(done)) as (s1 & Hpush & Hwf1 & Ha1 & Hr1 & Hl1 & Hb1 & Hsb1 & _).
  apply bind_Some in Hpush as (l & -> & Hpush). cbn [mbind option_bind]. rewrite Hpush. cbn [mbind option_bind].
  rewrite swrap_small in Hr1 by lia. destruct (resolve_size_int tb tn rid Htb Hrid) as (sz & -> & Hsz). cbn [mbind option_bind].
  destruct (Z.ltb_spec (s32 sz) 0); [apply spec_matched_fail; lia|].
  eapply (spec_match_loop_spec lb ln Hlb Hac tb tn Htb Htu ls Hwf Hin Hbt targ_id); auto.
  - lia.
  - lia.
  - by apply add_bits_wf.
  - unfold accs_in. change (acc_list (add_bits (acc_idx a0 * s32 sz * 8) s1)) with (acc_list s1). rewrite Ha1. constructor; [|constructor].
    unfold acc_ok, idx_ok. cbn. split_and!; try done; lia.
  - exists t, rid, (s32 sz), (acc_idx a0), [], 0. split_and!; auto; [constructor|]. cbn [add_bits bit_offset].
    rewrite Hb1, Z.add_0_r. done.
Qed.

(** ** Properties *)

(** C27. An access string written for a list of indices is read back as that list, and a field
    spec parsed from it never leaves its arrays: more than 64 indices are refused with -E2BIG,
    and on success the bit offset is that of the access path through structs, unions and
    arrays from the root type (modulo 2^32). *)
Theorem parse_spec_field b n relo spec0 i0 l : core_ok b n -> 0 <= r_type_id relo < n ->
  core_relo_is_field_based (r_kind relo) = true ->
  btf__name_by_offset b (r_access_str_off relo) = Some (Some (access_str (i0 :: l))) -> Forall idx_ok (i0 :: l) ->
  exists err sp, bpf_core_parse_spec b relo spec0 = Some (err, sp) /\ ((64 < length (i0 :: l))%nat -> err = - E2BIG) /\
    (err = 0 -> field_spec b n (r_type_id relo) (i0 :: l) sp /\ relo_kind sp = r_kind relo).
Proof. intros. by apply parse_spec_field_ok. Qed.


(** The search for a named member returns 1 only with the path of a member of that name,
    inside anonymous members or not, appended to the raw spec and its offset added to the bit
    offset; when it returns 0 the spec is as before unless a member of that name was found
    incompatible. *)
Theorem match_member_finds lb ln tb tn la lt lm lname id sp next :
  core_ok lb ln -> arrays_acyclic lb ln -> core_ok tb tn -> fields_unique tb ->
  btf_type_by_id lb (acc_type_id la) = Some lt -> btf_member_at lt (acc_idx la) = Some lm ->
  btf__name_by_offset lb (m_name_off lm) = Some (Some lname) -> 0 <= m_type lm < ln ->
  0 <= id < tn -> spec_wf sp -> accs_in tb tn sp ->
  matched tb tn lname id sp (bpf_core_match_member lb la tb id sp next).
Proof. intros Hlb Hac Htb Htu Hlt Hlm Hln Hty Hid Hwf Hin. by apply (match_member_spec lb ln Hlb Hac tb tn Htb Htu la lt lm lname Hlt Hlm Hln Hty); [..|lia]. Qed.

(** ** Witnesses *)

(** int; int[3]; struct s { int a; int b[3]; }, with the access strings ["0:1:2"] and ["0:-1"]. *)
Definition core_words_demo : list Z :=
  [0; 0x01000000; 4; 32;
   0; 0x03000000; 0; 1; 1; 3;
   1; 0x04000002; 16; 3; 1; 0; 5; 2; 32].
Definition core_strs_demo : list Z := [0; 115; 0; 97; 0; 98; 0; 48; 58; 49; 58; 50; 0; 48; 58; 45; 49; 0].
Definition core_layer : btf_layer := BtfLayer core_words_demo [0; 16; 40] 3 1 0 core_strs_demo 18 8.
Definition core_btf_demo : btf := [core_layer].

Lemma demo_ids id : 0 <= id < 4 -> id = 0 \/ id = 1 \/ id = 2 \/ id = 3.
Proof. lia. Qed.

Lemma core_demo_btf_ok : btf_ok core_btf_demo 4.
Proof.
  split.
  - reflexivity.
  - intros id [->|[->|[->| ->]]]%demo_ids; eexists; (split; [vm_compute; reflexivity|]); [by left|right..];
      (eexists; split; [vm_compute; reflexivity|simpl; lia]).
  - intros id t k ty [->|[->|[->| ->]]]%demo_ids Ht Hk Hs Hty; vm_compute in Ht; simplify_eq;
      vm_compute in Hk; simplify_eq; discriminate.
  - exists (fun _ => 0%nat). intros id Hid. split; [lia|].
    intros t k ty Ht Hk Hs Hty. apply demo_ids in Hid as [->|[->|[->| ->]]]; vm_compute in Ht; simplify_eq;
      vm_compute in Hk; simplify_eq; discriminate.
Qed.

Lemma core_demo_ok : core_ok core_btf_demo 4.
Proof.
  split.
  - exact core_demo_btf_ok.
  - repeat constructor; unfold word_ok; lia.
  - intros id t Hid Ht. apply (sanity_check_ok core_btf_demo core_layer) with (n := 4) (id := id);
      [done|vm_compute; reflexivity|reflexivity|simpl; lia|exact Ht].
  - intros id t ty Hid Ht Hk. assert (id = 1 \/ id = 2 \/ id = 3) as [->|[->| ->]] by lia;
      vm_compute in Ht; simplify_eq; vm_compute in Hk; discriminate.
  - eexists. vm_compute. reflexivity.
Qed.

Lemma core_demo_acyclic : arrays_acyclic core_btf_demo 4.
Proof.
  exists (fun id => if id =? 2 then 1%nat else 0%nat). intros id Hid.
  split; [destruct (id =? 2); simpl; lia|]. intros t k Ht Hk.
  apply demo_ids in Hid as [->|[->|[->| ->]]]; vm_compute in Ht; simplify_eq;
    vm_compute in Hk; simplify_eq; (split; [intros ty Hs Hty|intros a Ha Hty]); try discriminate; vm_compute in Hty; simplify_eq; simpl; lia.
Qed.

(** The members of the example. *)
Lemma core_demo_member id i off m : member_of core_btf_demo id i off m ->
  (i = 0 /\ btf__name_by_offset core_btf_demo (m_name_off m) = Some (Some [97])) \/
  (i = 1 /\ btf__name_by_offset core_btf_demo (m_name_off m) = Some (Some [98])).
Proof.
  intros (t & rid & k & v & Hs & Hk & Hc & Hv & Hi & _ & Hm).
  assert (exists id', 0 <= id' < 4 /\ btf_type_by_id core_btf_demo id' = Some t) as (id' & Hid & Ht).
  { unfold skip_mods_and_typedefs in Hs. apply bind_Some in Hs as (n & Hn & Hs).
    destruct (skip_loop_end _ _ _ _ _ Hs) as (k' & Hot & _). exists rid. split; [|by apply type_by_id_some].
    unfold btf__type_by_id in Hot. rewrite Hn in Hot. cbn [mbind option_bind] in Hot. vm_compute in Hn. injection Hn as <-.
    rewrite Z.geb_leb in Hot. destruct (Z.leb_spec 4 rid); [done|].
    split; [|done]. destruct (decide (rid < 0)); [|lia]. exfalso. cbn [btf_type_by_id core_btf_demo] in Hot.
    destruct (Z.eqb_spec rid 0); [lia|]. destruct (Z.ltb_spec rid (start_id core_layer)); [done|simpl in *; lia]. }
  apply demo_ids in Hid as [->|[->|[->| ->]]]; vm_compute in Ht; simplify_eq; vm_compute in Hk; simplify_eq; try discriminate.
  vm_compute in Hv. simplify_eq. assert (i = 0 \/ i = 1) as [->| ->] by lia; vm_compute in Hm; simplify_eq; [left|right]; (split; [done|]); vm_compute; reflexivity.
Qed.

Lemma core_demo_unique : fields_unique core_btf_demo.
Proof.
  intros name id p1 o1 t1 p2 o2 t2 H1 H2.
  inversion H1 as [? i1 ? m1 Hm1 Hn1|? i1 ? m1 ? ? ? Hm1 Hn1]; inversion H2 as [? i2 ? m2 Hm2 Hn2|? i2 ? m2 ? ? ? Hm2 Hn2]; subst;
    destruct (core_demo_member _ _ _ _ Hm1) as [[-> Hx1]|[-> Hx1]], (core_demo_member _ _ _ _ Hm2) as [[-> Hx2]|[-> Hx2]];
    rewrite Hx1 in Hn1; rewrite Hx2 in Hn2; congruence.
Qed.

Definition demo_relo : bpf_core_relo := Relo 3 7 BPF_CORE_FIELD_BYTE_OFFSET.
Definition demo_spec0 : bpf_core_spec := spec_zero core_btf_demo 0 0.
Definition demo_parsed : bpf_core_spec := (default (0, demo_spec0) (bpf_core_parse_spec core_btf_demo demo_relo demo_spec0)).2.

Lemma some_pair_inj {A B} (a a' : A) (b b' : B) : Some (a, b) = Some (a', b') -> a = a' /\ b = b'.
Proof. by intros [= -> ->]. Qed.

Lemma demo_parsed_eq : bpf_core_parse_spec core_btf_demo demo_relo demo_spec0 = Some (0, demo_parsed).
Proof. vm_compute. reflexivity. Qed.

Lemma parse_spec_field_witness : field_spec core_btf_demo 4 3 [0; 1; 2] demo_parsed.
Proof.
  destruct (parse_spec_field core_btf_demo 4 demo_relo demo_spec0 0 [1; 2]) as (err & sp & Hr & _ & H);
    [exact core_demo_ok|simpl; lia|reflexivity|vm_compute; reflexivity|repeat constructor; lia|].
  rewrite demo_parsed_eq in Hr. apply some_pair_inj in Hr as [<- <-]. exact (proj1 (H eq_refl)).
Defined.

Lemma demo_parsed_field : field_spec core_btf_demo 4 3 [0; 1; 2] demo_parsed.
Proof.
  destruct (parse_spec_field_ok core_btf_demo 4 demo_relo demo_spec0 0 [1; 2]) as (err & sp & Hr & _ & H);
    [exact core_demo_ok|simpl; lia|reflexivity|vm_compute; reflexivity|repeat constructor; lia|].
  rewrite demo_parsed_eq in Hr. apply some_pair_inj in Hr as [<- <-]. exact (proj1 (H eq_refl)).
Qed.


Lemma match_member_finds_witness :
  matched core_btf_demo 4 [98] 3 demo_spec0 (bpf_core_match_member core_btf_demo (Acc 3 1 None) core_btf_demo 3 demo_spec0 0).
Proof.
  apply (match_member_finds core_btf_demo 4 core_btf_demo 4 (Acc 3 1 None) [1; 0x04000002; 16; 3; 1; 0; 5; 2; 32] (BtfMember 5 2 32) [98]).
  - exact core_demo_ok.
  - exact core_demo_acyclic.
  - exact core_demo_ok.
  - exact core_demo_unique.
  - vm_compute. reflexivity.
  - vm_compute. reflexivity.
  - vm_compute. reflexivity.
  - simpl. lia.
  - lia.
  - apply spec_zero_wf.
  - constructor.
Defined.

(** A target struct (type 5) whose two anonymous members both have a field [a], a struct in
    the first one and an integer in the second one; type 6 is the local struct. *)
Definition twice_named : btf :=
  [BtfLayer [0; 0x01000000; 4; 32; 0; 0x04000000; 0; 0; 0x04000001; 16; 3; 2; 64; 0; 0x04000001; 4; 3; 1; 0;
             1; 0x04000002; 20; 0; 3; 0; 0; 4; 128; 1; 0x04000001; 4; 3; 1; 0]
     [0; 16; 28; 52; 76; 112] 6 1 0 [0; 115; 0; 97; 0; 48; 58; 48; 0] 9 8].

(** When the search in an anonymous member meets the name with an incompatible type,
    [bpf_core_match_member] returns 0 without taking back its index and offset; the caller
    takes back its own only and goes on.  The field that is found later gets raw indices that
    are not a path and another offset than its own. *)
Theorem match_member_not_undone :
  btf_sanity_check twice_named = Some 0 /\ has_field twice_named [97] 5 [1; 0] (128 + 0) 1 /\
  exists ls sp, bpf_core_parse_spec twice_named (Relo 6 5 BPF_CORE_FIELD_BYTE_OFFSET) (spec_zero twice_named 0 0) = Some (0, ls) /\
    bpf_core_spec_match ls twice_named 5 = Some (1, sp) /\ raw_list sp = [0; 0; 1; 0] /\ bit_offset sp = 64 + 128.
Proof.
  split; [vm_compute; reflexivity|]. split.
  - apply (field_anon twice_named [97] 5 1 128 (BtfMember 0 4 128) [0] 0 1); [|vm_compute; reflexivity|].
    + repeat eexists; try (vm_compute; reflexivity); vm_compute; congruence.
    + apply (field_here twice_named [97] _ 0 0 (BtfMember 3 1 0)); [|vm_compute; reflexivity].
      repeat eexists; try (vm_compute; reflexivity); vm_compute; congruence.
  - eexists _, _. split; [vm_compute; reflexivity|]. split; [vm_compute; reflexivity|]. split; vm_compute; reflexivity.
Qed.

(** A negative index passes the bound check of [bpf_core_parse_spec], which compares it as
    an [int]: the access string ["0:-1"] is accepted and the words of the struct itself are
    read as its member -1, giving the struct's name and size as a member's name and offset. *)
Theorem parse_spec_negative_index :
  exists sp, bpf_core_parse_spec core_btf_demo (Relo 3 13 BPF_CORE_FIELD_BYTE_OFFSET) demo_spec0 = Some (0, sp) /\
    raw_list sp = [0; -1] /\ acc_list sp = [Acc 3 0 None; Acc 3 (2 ^ 32 - 1) (Some [115])] /\ bit_offset sp = 16.
Proof. eexists. split; [vm_compute; reflexivity|]. split_and!; vm_compute; reflexivity. Qed.
