(* ===== verification/CoreRelo.v ===== *)
(** * CO-RE: relocation values, candidates and instruction patching

    src/libbpf/src/relo_core.c from [bpf_core_calc_field_relo] to [bpf_core_calc_relo_insn]
    (on a little-endian host) and the bitfield accessors of src/libbpf/src/bpf_core_read.h
    that consume the values.

    [None] is a run the code must not have: a missing type, an access out of bounds, a
    division by zero.  Diagnostics ([pr_warn], [bpf_core_format_spec]) are left out. *)
From stdpp Require Import base numbers list gmap.
From S2P Require Import Prelude Hashmap Strset Btf CoreCompat CoreSpec.

(** ** Relocation values *)

(** What [bpf_core_calc_field_relo] writes through its pointers. *)
Record field_out := FieldOut { o_val : Z; o_sz : Z; o_type_id : Z; o_validate : bool }.

(** [while (btf_is_array(t)) t = skip_mods_and_typedefs(btf, btf_array(t)->type, &elem_id);]
    one step per type is enough when arrays do not contain themselves. *)
Fixpoint elem_loop (fuel : nat) (b : btf) (t : btf_type) (elem_id : Z) : option Z :=
  match fuel with
  | O => None
  | S fuel =>
    k ← btf_kind t;
    if k =? BTF_KIND_ARRAY then
      a ← array_of t;
      '(t, elem_id) ← skip_mods_and_typedefs b (arr_type a);
      elem_loop fuel b t elem_id
    else Some elem_id
  end.

(** The size recorded for loads and stores: that of the innermost array element. *)
Definition elem_size (b : btf) (id : Z) : option Z :=
  n ← btf__type_cnt b;
  '(t, elem_id) ← skip_mods_and_typedefs b id;
  elem_id ← elem_loop (S (Z.to_nat n)) b t elem_id;
  btf__resolve_size b elem_id.

(** The smallest aligned load that covers a bitfield, starting from its declared size: an
    error, or the byte offset and size.  A size of 8 or more ends the loop, so three
    doublings of a positive size are enough. *)
Fixpoint widen_loop (fuel : nat) (bit_off bit_sz byte_off byte_sz : Z) : option (Z + (Z * Z)) :=
  if u32 (bit_off + bit_sz - byte_off * 8) >? u32 (byte_sz * 8) then
    match fuel with
    | O => None
    | S fuel =>
      if byte_sz >=? 8 then Some (inl (- E2BIG))
      else
        let byte_sz := u32 (byte_sz * 2) in
        if byte_sz =? 0 then None
        else widen_loop fuel bit_off bit_sz (bit_off / 8 / byte_sz * byte_sz) byte_sz
    end
  else Some (inr (byte_off, byte_sz)).

Definition bitfield_load (bit_off bit_sz size : Z) : option (Z + (Z * Z)) :=
  if size =? 0 then None
  else widen_loop 4 bit_off bit_sz (bit_off / 8 / size * size) size.

(** A field accessed by name, [m] being the member and [mt] its type without modifiers. *)
Definition calc_member (kind : Z) (spec : bpf_core_spec) (t : btf_type) (acc : bpf_core_accessor)
    (out : field_out) : option (Z * field_out) :=
  m ← btf_member_at t (acc_idx acc);
  '(mt, field_type_id) ← skip_mods_and_typedefs (spec_btf spec) (m_type m);
  let bit_off := bit_offset spec in
  bit_sz ← btf_member_bitfield_size t (acc_idx acc);
  let bitfield := bit_sz >? 0 in
  g ← (if bitfield then sz ← size mt; bitfield_load bit_off bit_sz sz
       else
         sz ← btf__resolve_size (spec_btf spec) field_type_id;
         Some (if sz <? 0 then inl (- EINVAL) else inr (bit_offset spec / 8, u32 sz)));
  match g with
  | inl err => Some (err, out)
  | inr (byte_off, byte_sz) =>
    let bit_sz := if bitfield then bit_sz else u32 (byte_sz * 8) in
    let out := FieldOut (o_val out) (o_sz out) (o_type_id out) (negb bitfield) in
    let val v := FieldOut v (o_sz out) (o_type_id out) (o_validate out) in
    if kind =? BPF_CORE_FIELD_BYTE_OFFSET then
      if bitfield then Some (0, val byte_off)
      else
        sz ← elem_size (spec_btf spec) field_type_id;
        if sz <? 0 then Some (- EINVAL, val byte_off)
        else Some (0, FieldOut byte_off (u32 sz) field_type_id (o_validate out))
    else if kind =? BPF_CORE_FIELD_BYTE_SIZE then Some (0, val byte_sz)
    else if kind =? BPF_CORE_FIELD_SIGNED then
      k ← btf_kind mt;
      f ← btf_kflag mt;
      v ← (if kind_is_any_enum k && f then Some true
           else if k =? BTF_KIND_INT then e ← btf_int_encoding mt; Some (negb (e &' BTF_INT_SIGNED =? 0))
           else Some false);
      Some (0, FieldOut (bool_int v) (o_sz out) (o_type_id out) true)
    else if kind =? BPF_CORE_FIELD_LSHIFT_U64 then Some (0, val (u32 (64 - (bit_off + bit_sz - byte_off * 8))))
    else if kind =? BPF_CORE_FIELD_RSHIFT_U64 then
      Some (0, FieldOut (u32 (64 - bit_sz)) (o_sz out) (o_type_id out) true)
    else Some (- EOPNOTSUPP, out)
  end.

Definition bpf_core_calc_field_relo (kind : Z) (ospec : option bpf_core_spec) (out : field_out) : option (Z * field_out) :=
  let out := FieldOut (o_val out) 0 (o_type_id out) (o_validate out) in
  let val v := FieldOut v (o_sz out) (o_type_id out) (o_validate out) in
  if kind =? BPF_CORE_FIELD_EXISTS then Some (0, val (match ospec with Some _ => 1 | None => 0 end))
  else
    match ospec with
    | None => Some (- EUCLEAN, out)
    | Some spec =>
      acc ← zget (accs spec) (len spec - 1);
      t ← btf_type_by_id (spec_btf spec) (acc_type_id acc);
      match acc_name acc with
      | None =>
        if kind =? BPF_CORE_FIELD_BYTE_OFFSET then
          sz ← elem_size (spec_btf spec) (acc_type_id acc);
          if sz <? 0 then Some (- EINVAL, val (bit_offset spec / 8))
          else Some (0, FieldOut (bit_offset spec / 8) (u32 sz) (acc_type_id acc) true)
        else if kind =? BPF_CORE_FIELD_BYTE_SIZE then
          sz ← btf__resolve_size (spec_btf spec) (acc_type_id acc);
          if sz <? 0 then Some (- EINVAL, out)
          else Some (0, FieldOut (u64 sz) (o_sz out) (o_type_id out) true)
        else Some (- EINVAL, out)
      | Some _ => calc_member kind spec t acc out
      end
    end.

(** The value and whether to validate it. *)
Definition bpf_core_calc_type_relo (kind : Z) (ospec : option bpf_core_spec) (val : Z) : option (Z * Z * bool) :=
  match ospec with
  | None => Some (0, 0, true)
  | Some spec =>
    if kind =? BPF_CORE_TYPE_ID_TARGET then Some (0, root_type_id spec, false)
    else if (kind =? BPF_CORE_TYPE_EXISTS) || (kind =? BPF_CORE_TYPE_MATCHES) then Some (0, 1, true)
    else if kind =? BPF_CORE_TYPE_SIZE then
      sz ← btf__resolve_size (spec_btf spec) (root_type_id spec);
      Some (if sz <? 0 then (- EINVAL, val, true) else (0, u64 sz, true))
    else Some (- EOPNOTSUPP, val, true)
  end.

Definition bpf_core_calc_enumval_relo (kind : Z) (ospec : option bpf_core_spec) (val : Z) : option (Z * Z) :=
  if kind =? BPF_CORE_ENUMVAL_EXISTS then Some (0, match ospec with Some _ => 1 | None => 0 end)
  else if kind =? BPF_CORE_ENUMVAL_VALUE then
    match ospec with
    | None => Some (- EUCLEAN, val)
    | Some spec =>
      acc ← zget (accs spec) 0;
      t ← btf_type_by_id (spec_btf spec) (acc_type_id acc);
      k ← btf_kind t;
      if k =? BTF_KIND_ENUM then e ← btf_enum_at t (acc_idx acc); Some (0, u64 e.2)
      else e ← btf_enum64_at t (acc_idx acc); Some (0, u64 e.2)
    end
  else Some (- EOPNOTSUPP, val).

Record bpf_core_relo_res := Res {
  orig_val : Z;
  new_val : Z;
  poison : bool;
  validate : bool;
  fail_memsz_adjust : bool;
  orig_sz : Z;
  orig_type_id : Z;
  new_sz : Z;
  new_type_id : Z
}.

(** Whether a load or store whose size changes stays correct: pointers and unsigned integers. *)
Definition memsz_ok (local_spec targ_spec : bpf_core_spec) (orig_type_id new_type_id : Z) : option bool :=
  orig_t ← btf_type_by_id (spec_btf local_spec) orig_type_id;
  new_t ← btf_type_by_id (spec_btf targ_spec) new_type_id;
  ok ← btf_kind orig_t;
  nk ← btf_kind new_t;
  if (ok =? BTF_KIND_PTR) && (nk =? BTF_KIND_PTR) then Some true
  else if (ok =? BTF_KIND_INT) && (nk =? BTF_KIND_INT) then
    oe ← btf_int_encoding orig_t;
    ne ← btf_int_encoding new_t;
    Some (negb (oe =? BTF_INT_SIGNED) && negb (ne =? BTF_INT_SIGNED))
  else Some false.

(** The end of [bpf_core_calc_relo], from the label [done]. *)
Definition calc_done (err : Z) (res : bpf_core_relo_res) : Z * bpf_core_relo_res :=
  if err =? - EUCLEAN then
    (0, Res (orig_val res) (new_val res) true (validate res) (fail_memsz_adjust res) (orig_sz res) (orig_type_id res)
          (new_sz res) (new_type_id res))
  else (err, res).

Definition bpf_core_calc_relo (kind : Z) (local_spec : bpf_core_spec) (targ_spec : option bpf_core_spec)
  : option (Z * bpf_core_relo_res) :=
  if core_relo_is_field_based kind then
    '(err, o) ← bpf_core_calc_field_relo kind (Some local_spec) (FieldOut 0 0 0 true);
    '(err, n) ← (if err =? 0 then bpf_core_calc_field_relo kind targ_spec (FieldOut 0 0 0 true)
                 else Some (err, FieldOut 0 0 0 true));
    let res f := Res (o_val o) (o_val n) false (o_validate o) f (o_sz o) (o_type_id o) (o_sz n) (o_type_id n) in
    if negb (err =? 0) then Some (calc_done err (res false))
    else if negb (o_sz o =? o_sz n) then
      targ ← targ_spec;
      ok ← memsz_ok local_spec targ (o_type_id o) (o_type_id n);
      Some (calc_done err (res (negb ok)))
    else Some (calc_done err (res false))
  else if core_relo_is_type_based kind then
    '(err, o, v) ← bpf_core_calc_type_relo kind (Some local_spec) 0;
    '(err, n, _) ← (if err =? 0 then bpf_core_calc_type_relo kind targ_spec 0 else Some (err, 0, true));
    Some (calc_done err (Res o n false v false 0 0 0 0))
  else if core_relo_is_enumval_based kind then
    '(err, o) ← bpf_core_calc_enumval_relo kind (Some local_spec) 0;
    '(err, n) ← (if err =? 0 then bpf_core_calc_enumval_relo kind targ_spec 0 else Some (err, 0));
    Some (calc_done err (Res o n false true false 0 0 0 0))
  else Some (calc_done (- EOPNOTSUPP) (Res 0 0 false true false 0 0 0 0)).

(** ** Choosing among candidates *)
Record bpf_core_cand := Cand { cand_btf : btf; cand_id : Z }.

(** The loop over the candidates: [arr] is the array, compacted in place, [j] the number kept,
    [targ] the result and the spec of the first match.  An error leaves the loop. *)
Fixpoint cands_loop (n : nat) (kind : Z) (local_spec : bpf_core_spec) (arr : list bpf_core_cand) (i j : Z)
    (targ : option (bpf_core_relo_res * bpf_core_spec))
  : option (Z * list bpf_core_cand * Z * option (bpf_core_relo_res * bpf_core_spec)) :=
  match n with
  | O => Some (0, arr, j, targ)
  | S n =>
    c ← zget arr i;
    '(err, cand_spec) ← bpf_core_spec_match local_spec (cand_btf c) (cand_id c);
    if err <? 0 then Some (err, arr, j, targ)
    else if err =? 0 then cands_loop n kind local_spec arr (i + 1) j targ
    else
      '(err, cand_res) ← bpf_core_calc_relo kind local_spec (Some cand_spec);
      if negb (err =? 0) then Some (err, arr, j, targ)
      else
        let keep targ := arr ← zset arr j c; cands_loop n kind local_spec arr (i + 1) (j + 1) targ in
        if j =? 0 then keep (Some (cand_res, cand_spec))
        else
          '(targ_res, targ_spec) ← targ;
          if negb (bit_offset cand_spec =? bit_offset targ_spec) then Some (- EINVAL, arr, j, targ)
          else if negb (Bool.eqb (poison cand_res) (poison targ_res)) || negb (new_val cand_res =? new_val targ_res)
          then Some (- EINVAL, arr, j, targ)
          else keep targ
  end.

(** The result for the instruction, with the candidate array and its length; [scratch] is what
    the caller's specs hold.  The result is [None] in the pair when it was not written. *)
Definition bpf_core_calc_relo_insn (relo : bpf_core_relo) (local_btf : btf) (arr : list bpf_core_cand) (n : Z)
    (scratch : bpf_core_spec) : option (Z * option bpf_core_relo_res * list bpf_core_cand * Z) :=
  local_type ← btf_type_by_id local_btf (r_type_id relo);
  no ← name_off local_type;
  local_name ← btf__name_by_offset local_btf no;
  match local_name with
  | None => Some (- EINVAL, None, arr, n)
  | Some _ =>
    '(err, local_spec) ← bpf_core_parse_spec local_btf relo scratch;
    if negb (err =? 0) then Some (- EINVAL, None, arr, n)
    else if r_kind relo =? BPF_CORE_TYPE_ID_LOCAL then
      let id := root_type_id local_spec in
      Some (0, Some (Res id id false false false 0 0 0 0), arr, n)
    else if str_is_empty local_name then Some (- EOPNOTSUPP, None, arr, n)
    else
      '(err, arr, j, targ) ← cands_loop (Z.to_nat n) (r_kind relo) local_spec arr 0 0 None;
      if negb (err =? 0) then Some (err, option_map fst targ, arr, n)
      else
        let n := if j >? 0 then j else n in
        if j =? 0 then
          '(err, res) ← bpf_core_calc_relo (r_kind relo) local_spec None;
          Some (err, Some res, arr, n)
        else Some (0, option_map fst targ, arr, n)
  end.

(** ** Patching an instruction *)
Record bpf_insn := Insn { code : Z; dst_reg : Z; src_reg : Z; off : Z; imm : Z }.

Definition BPF_CLASS (code : Z) : Z := code &' 0x07.
Definition BPF_SIZE (code : Z) : Z := code &' 0x18.
Definition BPF_MODE (code : Z) : Z := code &' 0xe0.
Definition BPF_SRC (code : Z) : Z := code &' 0x08.
Definition BPF_LD := 0x00.
Definition BPF_LDX := 0x01.
Definition BPF_ST := 0x02.
Definition BPF_STX := 0x03.
Definition BPF_ALU := 0x04.
Definition BPF_JMP := 0x05.
Definition BPF_ALU64 := 0x07.
Definition BPF_W := 0x00.
Definition BPF_H := 0x08.
Definition BPF_B := 0x10.
Definition BPF_DW := 0x18.
Definition BPF_IMM := 0x00.
Definition BPF_K := 0x00.
Definition BPF_CALL := 0x80.
Definition SHRT_MAX := 32767.

Definition is_ldimm64_insn (insn : bpf_insn) : bool := code insn =? (BPF_LD |' BPF_IMM |' BPF_DW).

Definition bpf_core_poison_insn : bpf_insn := Insn (BPF_JMP |' BPF_CALL) 0 0 0 195896080.

Definition insn_bpf_size_to_bytes (insn : bpf_insn) : Z :=
  let s := BPF_SIZE (code insn) in
  if s =? BPF_DW then 8 else if s =? BPF_W then 4 else if s =? BPF_H then 2 else if s =? BPF_B then 1 else -1.
Definition insn_bytes_to_bpf_size (sz : Z) : Z :=
  if sz =? 8 then BPF_DW else if sz =? 4 then BPF_W else if sz =? 2 then BPF_H else if sz =? 1 then BPF_B else -1.

(** The code at the label [poison], for the instruction at [idx] of [prog]. *)
Definition poison_at (prog : list bpf_insn) (idx : Z) (insn : bpf_insn) : option (Z * list bpf_insn) :=
  prog ← (if is_ldimm64_insn insn then zset prog (idx + 1) bpf_core_poison_insn else Some prog);
  prog ← zset prog idx bpf_core_poison_insn;
  Some (0, prog).

Definition bpf_core_patch_insn (prog : list bpf_insn) (idx : Z) (res : bpf_core_relo_res) : option (Z * list bpf_insn) :=
  insn ← zget prog idx;
  let class := BPF_CLASS (code insn) in
  let store i := prog ← zset prog idx i; Some prog in
  if poison res then poison_at prog idx insn
  else if (class =? BPF_ALU) || (class =? BPF_ALU64) then
    if negb (BPF_SRC (code insn) =? BPF_K) then Some (- EINVAL, prog)
    else if validate res && negb (u64 (imm insn) =? orig_val res) then Some (- EINVAL, prog)
    else
      prog ← store (Insn (code insn) (dst_reg insn) (src_reg insn) (off insn) (s32 (new_val res)));
      Some (0, prog)
  else if (class =? BPF_LDX) || (class =? BPF_ST) || (class =? BPF_STX) then
    if validate res && negb (u64 (off insn) =? orig_val res) then Some (- EINVAL, prog)
    else if new_val res >? SHRT_MAX then Some (- ERANGE, prog)
    else if fail_memsz_adjust res then poison_at prog idx insn
    else
      let insn := Insn (code insn) (dst_reg insn) (src_reg insn) (s16 (new_val res)) (imm insn) in
      prog' ← store insn;
      if negb (new_sz res =? orig_sz res) then
        if negb (u32 (insn_bpf_size_to_bytes insn) =? orig_sz res) then Some (- EINVAL, prog')
        else
          let insn_bpf_sz := insn_bytes_to_bpf_size (new_sz res) in
          if insn_bpf_sz <? 0 then Some (- EINVAL, prog')
          else
            let c := u8 (BPF_MODE (code insn) |' insn_bpf_sz |' BPF_CLASS (code insn)) in
            prog' ← store (Insn c (dst_reg insn) (src_reg insn) (off insn) (imm insn));
            Some (0, prog')
      else Some (0, prog')
  else if class =? BPF_LD then
    if negb (is_ldimm64_insn insn) || negb (src_reg insn =? 0) || negb (off insn =? 0) then Some (- EINVAL, prog)
    else
      insn1 ← zget prog (idx + 1);
      if negb (code insn1 =? 0) || negb (dst_reg insn1 =? 0) || negb (src_reg insn1 =? 0) || negb (off insn1 =? 0)
      then Some (- EINVAL, prog)
      else
        let imm64 := u32 (imm insn) |' u64 (u64 (imm insn1) <<' 32) in
        if validate res && negb (imm64 =? orig_val res) then Some (- EINVAL, prog)
        else
          prog ← store (Insn (code insn) (dst_reg insn) (src_reg insn) (off insn) (s32 (new_val res)));
          prog ← zset prog (idx + 1)
                   (Insn (code insn1) (dst_reg insn1) (src_reg insn1) (off insn1) (s32 (new_val res >>' 32)));
          Some (0, prog)
  else Some (- EINVAL, prog).

(** ** Bitfield accessors of BPF programs *)

(** Little-endian loads and stores of 1, 2, 4 and 8 bytes in the memory of an object. *)
Definition load_le (mem : list Z) (p sz : Z) : option Z :=
  if decide (0 <= p /\ 0 <= sz /\ p + sz <= Z.of_nat (length mem))
  then Some (le_value (take (Z.to_nat sz) (drop (Z.to_nat p) mem))) else None.
Definition store_le (mem : list Z) (p sz v : Z) : option (list Z) :=
  if decide (0 <= p /\ 0 <= sz /\ p + sz <= Z.of_nat (length mem))
  then Some (take (Z.to_nat p) mem ++ le_bytes (Z.to_nat sz) v ++ drop (Z.to_nat (p + sz)) mem) else None.

Definition access_size (sz : Z) : bool := (sz =? 1) || (sz =? 2) || (sz =? 4) || (sz =? 8).

(** [BPF_CORE_READ_BITFIELD], with the values of its relocations. *)
Definition core_read_bitfield (mem : list Z) (byte_off byte_sz lshift rshift : Z) (signed : bool) : option Z :=
  v ← (if access_size byte_sz then load_le mem byte_off byte_sz else Some 0);
  let v := u64 (v <<' lshift) in
  Some (if signed then u64 (s64 v >>' rshift) else v >>' rshift).

(** [BPF_CORE_WRITE_BITFIELD]; with a size that is none of the four the value is not read. *)
Definition core_write_bitfield (mem : list Z) (byte_off byte_sz lshift rshift nval : Z) : option (list Z) :=
  if access_size byte_sz then
    v ← load_le mem byte_off byte_sz;
    let rpad := u32 (rshift - lshift) in
    let mask := u64 ((2 ^ 64 - 1) <<' rshift) >>' lshift in
    let v := (v &' u64 (Z.lnot mask)) |' (u64 (nval <<' rpad) &' mask) in
    store_le mem byte_off byte_sz v
  else Some mem.

(** ** Bits of memory *)
Lemma testbit_wrap w z i : 0 <= w -> 0 <= i -> Z.testbit (wrap w z) i = (i <? w) && Z.testbit z i.
Proof.
  intros Hw Hi. unfold wrap. destruct (Z.ltb_spec i w); cbn [andb].
  - by apply Z.mod_pow2_bits_low.
  - by apply Z.mod_pow2_bits_high.
Qed.

Definition mem_ok (mem : list Z) : Prop := Forall (fun b => 0 <= b < 256) mem.

Lemma pow256 n : 256 ^ Z.of_nat n = 2 ^ (8 * Z.of_nat n).
Proof. rewrite Z.pow_mul_r by lia. done. Qed.

Lemma le_value_app a b : le_value (a ++ b) = le_value a + 2 ^ (8 * Z.of_nat (length a)) * le_value b.
Proof.
  induction a as [|x a IH]; cbn [app le_value length].
  - change (2 ^ (8 * Z.of_nat 0)) with 1. lia.
  - rewrite IH. rewrite <- !pow256, Nat2Z.inj_succ, Z.pow_succ_r by lia. lia.
Qed.

(** The bits of two adjacent pieces of memory. *)
Lemma testbit_app a b i : mem_ok a -> 0 <= i ->
  Z.testbit (le_value (a ++ b)) i =
    if i <? 8 * Z.of_nat (length a) then Z.testbit (le_value a) i else Z.testbit (le_value b) (i - 8 * Z.of_nat (length a)).
Proof.
  intros Ha Hi. pose proof (le_value_range a Ha) as Hr. rewrite pow256 in Hr. set (n := 8 * Z.of_nat (length a)) in *.
  assert (0 <= n) as Hn by lia. rewrite le_value_app. fold n. rewrite Z.add_comm, Z.mul_comm.
  rewrite <- lor_shiftl_add by lia. rewrite Z.lor_spec, Z.shiftl_spec by lia.
  destruct (Z.ltb_spec i n).
  - rewrite Z.testbit_neg_r by lia. done.
  - rewrite (testbit_small _ n i) by lia. by rewrite orb_false_r.
Qed.

Lemma mem_ok_split mem k : mem_ok mem -> mem_ok (take k mem) /\ mem_ok (drop k mem).
Proof. intros H. split; [by apply Forall_take|by apply Forall_drop]. Qed.

(** A load reads the bits of the memory from its address on. *)
Lemma load_le_bits mem p sz v i : mem_ok mem -> load_le mem p sz = Some v -> 0 <= i ->
  Z.testbit v i = (i <? 8 * sz) && Z.testbit (le_value mem) (i + 8 * p).
Proof.
  unfold load_le. intros Hm H Hi. case_decide as Hin; [|done]. injection H as <-.
  set (l := drop (Z.to_nat p) mem). assert (mem_ok l) as Hl by (by apply mem_ok_split).
  assert (Z.testbit (le_value mem) (i + 8 * p) = Z.testbit (le_value l) i) as ->.
  { rewrite <- (take_drop (Z.to_nat p) mem) at 1. rewrite testbit_app by (try apply mem_ok_split; auto; lia).
    rewrite length_take. destruct (Z.ltb_spec (i + 8 * p) (8 * Z.of_nat (Z.to_nat p `min` length mem))); [lia|]. f_equal. lia. }
  rewrite <- (take_drop (Z.to_nat sz) l) at 2. rewrite testbit_app by (try apply mem_ok_split; auto).
  assert (length (take (Z.to_nat sz) l) = Z.to_nat sz) as Hlen by (unfold l; rewrite length_take, length_drop; lia).
  rewrite Hlen, Z2Nat.id by lia. destruct (Z.ltb_spec i (8 * sz)); cbn [andb]; [done|].
  pose proof (le_value_range (take (Z.to_nat sz) l) (proj1 (mem_ok_split _ _ Hl))) as Hr. rewrite pow256, Hlen in Hr.
  apply (testbit_small _ (8 * sz)); [|lia]. by rewrite Z2Nat.id in Hr by lia.
Qed.

Lemma load_le_range mem p sz v : mem_ok mem -> load_le mem p sz = Some v -> 0 <= v < 2 ^ (8 * sz).
Proof.
  unfold load_le. intros Hm H. case_decide as Hin; [|done]. injection H as <-.
  pose proof (le_value_range (take (Z.to_nat sz) (drop (Z.to_nat p) mem))
    (proj1 (mem_ok_split _ _ (proj2 (mem_ok_split _ (Z.to_nat p) Hm))))) as Hr. rewrite pow256, length_take, length_drop in Hr.
  replace (Z.of_nat (Z.to_nat sz `min` (length mem - Z.to_nat p))) with sz in Hr by lia. done.
Qed.

(** A store replaces the bits of its bytes and no others. *)
Lemma store_le_bits mem p sz v mem' i : mem_ok mem -> store_le mem p sz v = Some mem' -> 0 <= i ->
  mem_ok mem' /\ length mem' = length mem /\
  Z.testbit (le_value mem') i =
    if (8 * p <=? i) && (i <? 8 * (p + sz)) then Z.testbit v (i - 8 * p) else Z.testbit (le_value mem) i.
Proof.
  unfold store_le. intros Hm H Hi. case_decide as Hin; [|done]. injection H as <-.
  pose proof (le_bytes_range (Z.to_nat sz) v) as Hb. pose proof (le_bytes_length (Z.to_nat sz) v) as Hbl.
  destruct (mem_ok_split mem (Z.to_nat p) Hm) as [Ht Hd]. destruct (mem_ok_split mem (Z.to_nat (p + sz)) Hm) as [_ Hd2].
  split; [apply Forall_app; split; [done|]; by apply Forall_app|].
  split; [rewrite !length_app, length_take, length_drop, Hbl; lia|].
  rewrite testbit_app by done. rewrite length_take. replace (Z.of_nat (Z.to_nat p `min` length mem)) with p by lia.
  assert (forall q j, 0 <= q <= Z.of_nat (length mem) -> 0 <= j -> Z.testbit (le_value mem) j =
    if j <? 8 * q then Z.testbit (le_value (take (Z.to_nat q) mem)) j else Z.testbit (le_value (drop (Z.to_nat q) mem)) (j - 8 * q)) as Hsplit.
  { intros q j Hq Hj. rewrite <- (take_drop (Z.to_nat q) mem) at 1. rewrite testbit_app by (try apply mem_ok_split; auto).
    rewrite length_take. by replace (Z.of_nat (Z.to_nat q `min` length mem)) with q by lia. }
  destruct (Z.ltb_spec i (8 * p)).
  { destruct (Z.leb_spec (8 * p) i); [lia|]. cbn [andb]. rewrite (Hsplit p i) by lia. destruct (Z.ltb_spec i (8 * p)); [done|lia]. }
  destruct (Z.leb_spec (8 * p) i); [|lia]. cbn [andb]. rewrite testbit_app by (auto; lia). rewrite Hbl, Z2Nat.id by lia.
  destruct (Z.ltb_spec (i - 8 * p) (8 * sz)), (Z.ltb_spec i (8 * (p + sz))); try lia.
  - rewrite le_value_bytes, pow256, Z2Nat.id by lia. apply Z.mod_pow2_bits_low. lia.
  - rewrite (Hsplit (p + sz) i) by lia. destruct (Z.ltb_spec i (8 * (p + sz))); [lia|]. f_equal. lia.
Qed.

(** ** Bitfield loads *)

(** An aligned access of 1, 2, 4 or 8 bytes that contains the bits [bit_off, bit_off + bit_sz). *)
Definition covers (bit_off bit_sz byte_off byte_sz : Z) : Prop :=
  (byte_sz = 1 \/ byte_sz = 2 \/ byte_sz = 4 \/ byte_sz = 8) /\ byte_off mod byte_sz = 0 /\ 0 <= byte_off /\
  8 * byte_off <= bit_off /\ bit_off + bit_sz <= 8 * (byte_off + byte_sz).

(** The field begins and ends in different 64-bit words. *)
Definition straddles (bit_off bit_sz : Z) : Prop := bit_off / 64 <> (bit_off + bit_sz - 1) / 64.

Lemma covers_not_straddles bit_off bit_sz bo bs : 0 < bit_sz -> covers bit_off bit_sz bo bs -> ~ straddles bit_off bit_sz.
Proof.
  intros Hz (Hs & Hmod & Hbo & H1 & H2) H. apply H. destruct Hs as [->|[->|[->| ->]]]; Z.to_euclidean_division_equations; lia.
Qed.

Lemma aligned_off bit_off s : 0 <= bit_off -> 0 < s -> let bo := bit_off / 8 / s * s in bo mod s = 0 /\ 0 <= bo /\ 8 * bo <= bit_off < 8 * (bo + s).
Proof.
  intros Hb Hs bo. unfold bo. split; [apply Z.mod_mul; lia|].
  pose proof (Z.div_pos bit_off 8 Hb ltac:(lia)). pose proof (Z.div_pos (bit_off / 8) s ltac:(lia) Hs).
  pose proof (Z.mul_div_le (bit_off / 8) s Hs). pose proof (Z.mul_succ_div_gt (bit_off / 8) s Hs).
  pose proof (Z.mul_div_le bit_off 8 ltac:(lia)). pose proof (Z.mul_succ_div_gt bit_off 8 ltac:(lia)). nia.
Qed.

Lemma widen_loop_spec fuel bit_off bit_sz s : 0 <= bit_off -> 0 < bit_sz -> bit_off + bit_sz < 2 ^ 32 ->
  (s = 1 \/ s = 2 \/ s = 4 \/ s = 8) -> 8 <= s * 2 ^ (Z.of_nat fuel - 1) ->
  exists r, widen_loop fuel bit_off bit_sz (bit_off / 8 / s * s) s = Some r /\
    match r with inl err => err = - E2BIG /\ straddles bit_off bit_sz | inr (bo, bs) => covers bit_off bit_sz bo bs end.
Proof.
  intros Hb Hz Hlt. revert s. induction fuel as [|fuel IH]; intros s Hs Hfuel; cbn [widen_loop].
  { exfalso. change (Z.of_nat 0 - 1) with (-1) in Hfuel. change (2 ^ (-1)) with 0 in Hfuel. lia. }
  destruct (aligned_off bit_off s Hb ltac:(lia)) as (Hmod & Hbo & Hle). set (bo := bit_off / 8 / s * s) in *.
  rewrite (wrap_small 32 (bit_off + bit_sz - bo * 8)), (wrap_small 32 (s * 8)) by lia. rewrite Z.gtb_ltb.
  destruct (Z.ltb_spec (s * 8) (bit_off + bit_sz - bo * 8)).
  - rewrite Z.geb_leb. destruct (Z.leb_spec 8 s).
    { eexists. split; [done|]. split; [done|]. assert (s = 8) as -> by lia. unfold straddles, bo in *. clear - H Hb Hz.
      Z.to_euclidean_division_equations; lia. }
    rewrite (wrap_small 32) by lia. destruct (Z.eqb_spec (s * 2) 0); [lia|].
    apply IH; [lia|]. destruct fuel as [|fuel].
    + exfalso. change (2 ^ (Z.of_nat 1 - 1)) with 1 in Hfuel. lia.
    + replace (Z.of_nat (S (S fuel)) - 1) with (Z.succ (Z.of_nat (S fuel) - 1)) in Hfuel by lia. rewrite Z.pow_succ_r in Hfuel by lia. lia.
  - eexists. split; [done|]. split_and!; auto; lia.
Qed.

Lemma bitfield_load_spec bit_off bit_sz s : 0 <= bit_off -> 0 < bit_sz -> bit_off + bit_sz < 2 ^ 32 ->
  (s = 1 \/ s = 2 \/ s = 4 \/ s = 8) ->
  exists r, bitfield_load bit_off bit_sz s = Some r /\
    match r with inl err => err = - E2BIG /\ straddles bit_off bit_sz | inr (bo, bs) => covers bit_off bit_sz bo bs end.
Proof.
  intros. unfold bitfield_load. destruct (Z.eqb_spec s 0); [lia|]. apply widen_loop_spec; auto.
  change (2 ^ (Z.of_nat 4 - 1)) with 8. lia.
Qed.

(** The bits of a field, as an unsigned number. *)
Definition field_bits (mem : list Z) (bit_off bit_sz : Z) : Z := wrap bit_sz (le_value mem >>' bit_off).

Section Bitfield.
Context (mem : list Z) (bit_off bit_sz bo bs : Z).
Context (Hmem : mem_ok mem) (Hoff : 0 <= bit_off) (Hsz : 0 < bit_sz) (Hcov : covers bit_off bit_sz bo bs).
Context (Hfit : bo + bs <= Z.of_nat (length mem)).

Let lshift := 64 - (bit_off + bit_sz - bo * 8).
Let rshift := 64 - bit_sz.

Lemma shifts_range : 0 <= lshift <= rshift /\ rshift < 64 /\ rshift - lshift = bit_off - 8 * bo /\ bs <= 8.
Proof. unfold lshift, rshift. destruct Hcov as (Hs & _ & _ & ? & ?). lia. Qed.

Lemma load_some : exists v, load_le mem bo bs = Some v /\ access_size bs = true.
Proof.
  destruct Hcov as (Hs & _ & ? & ? & ?). unfold load_le. rewrite decide_True by lia. eexists. split; [done|].
  by destruct Hs as [->|[->|[->| ->]]].
Qed.

(** The value after the left shift: the field at the top, other bits below. *)
Lemma shifted_value v : load_le mem bo bs = Some v ->
  u64 (v <<' lshift) >>' rshift = field_bits mem bit_off bit_sz.
Proof.
  intros Hv. destruct shifts_range as (Hl & Hr & Hd & Hbs). apply Z.bits_inj'. intros i Hi.
  rewrite Z.shiftr_spec by done. rewrite testbit_wrap by lia. unfold field_bits. rewrite testbit_wrap by lia.
  rewrite Z.shiftl_spec by lia. rewrite Z.shiftr_spec by done.
  destruct (Z.ltb_spec i bit_sz), (Z.ltb_spec (i + rshift) 64); unfold rshift in *; try lia; cbn [andb]; try done.
  rewrite (load_le_bits mem bo bs v) by (auto; lia). destruct Hcov as (_ & _ & _ & ? & ?).
  destruct (Z.ltb_spec (i + (64 - bit_sz) - lshift) (8 * bs)); [|lia]. cbn [andb]. f_equal. lia.
Qed.

Lemma read_unsigned : core_read_bitfield mem bo bs lshift rshift false = Some (field_bits mem bit_off bit_sz).
Proof.
  destruct load_some as (v & Hv & Ha). unfold core_read_bitfield. rewrite Ha, Hv. cbn [mbind option_bind].
  by rewrite shifted_value.
Qed.

Lemma read_signed : core_read_bitfield mem bo bs lshift rshift true = Some (u64 (swrap bit_sz (field_bits mem bit_off bit_sz))).
Proof.
  destruct load_some as (v & Hv & Ha). unfold core_read_bitfield. rewrite Ha, Hv. cbn [mbind option_bind]. do 2 f_equal.
  pose proof (shifted_value v Hv) as Hs. destruct shifts_range as (Hl & Hr & _).
  set (x := u64 (v <<' lshift)) in *. set (f := field_bits mem bit_off bit_sz) in *.
  assert (0 <= x < 2 ^ 64) as Hx by (apply wrap_range; lia). rewrite shr_div in Hs by lia. rewrite shr_div by lia.
  assert (0 <= f < 2 ^ bit_sz) as Hf by (apply wrap_range; lia).
  assert (2 ^ 64 = 2 ^ bit_sz * 2 ^ rshift) as Hp by (rewrite <- Z.pow_add_r by (unfold rshift in *; lia); f_equal; unfold rshift; lia).
  assert (2 ^ bit_sz = 2 * 2 ^ (bit_sz - 1)) as Hp2 by (rewrite <- Z.pow_succ_r by lia; f_equal; lia).
  assert (0 < 2 ^ rshift) as Hpr by (apply Z.pow_pos_nonneg; lia). assert (0 < 2 ^ (bit_sz - 1)) as Hpb by (apply Z.pow_pos_nonneg; lia).
  pose proof (Z.div_mod x (2 ^ rshift) ltac:(lia)) as Hdm. rewrite Hs in Hdm. pose proof (Z.mod_pos_bound x (2 ^ rshift) Hpr) as Hm.
  set (lo := x mod 2 ^ rshift) in *. unfold swrap at 1. change (64 - 1) with 63. assert (2 ^ 63 = 2 ^ (bit_sz - 1) * 2 ^ rshift) as Hp63 by (change (2 ^ 64) with (2 * 2 ^ 63) in Hp; nia).
  unfold swrap. destruct (decide (f < 2 ^ (bit_sz - 1))) as [Hlt|Hge].
  - assert (x < 2 ^ 63) as Hx63 by nia. rewrite (Z.mod_small (x + 2 ^ 63)) by (change (2 ^ 64) with (2 ^ 63 + 2 ^ 63); lia).
    rewrite (Z.mod_small (f + 2 ^ (bit_sz - 1))) by lia. rewrite Z.add_simpl_r, Z.add_simpl_r. done.
  - assert (2 ^ 63 <= x) as Hx63 by nia.
    replace (x + 2 ^ 63) with (x - 2 ^ 63 + 1 * 2 ^ 64) by (change (2 ^ 64) with (2 ^ 63 + 2 ^ 63); lia).
    rewrite Z.mod_add, (Z.mod_small (x - 2 ^ 63)) by (change (2 ^ 64) with (2 ^ 63 + 2 ^ 63) in *; lia).
    replace (f + 2 ^ (bit_sz - 1)) with (f - 2 ^ (bit_sz - 1) + 1 * 2 ^ bit_sz) by lia.
    rewrite Z.mod_add, (Z.mod_small (f - 2 ^ (bit_sz - 1))) by lia.
    replace (x - 2 ^ 63 - 2 ^ 63) with (x + (- 2 ^ bit_sz) * 2 ^ rshift) by (change (2 ^ 64) with (2 ^ 63 + 2 ^ 63) in Hp; lia).
    rewrite Z.div_add by lia. rewrite Hs. f_equal. lia.
Qed.

(** The mask of a write selects the bits of the field in the loaded value. *)
Lemma mask_bits i : 0 <= i -> Z.testbit (u64 ((2 ^ 64 - 1) <<' rshift) >>' lshift) i =
  (bit_off - 8 * bo <=? i) && (i <? bit_off - 8 * bo + bit_sz).
Proof.
  intros Hi. destruct shifts_range as (Hl & Hr & Hd & Hbs). rewrite Z.shiftr_spec by done. rewrite testbit_wrap by lia.
  rewrite Z.shiftl_spec by lia. change (2 ^ 64 - 1) with (Z.ones 64).
  destruct (Z.leb_spec (bit_off - 8 * bo) i), (Z.ltb_spec (i + lshift) 64), (Z.ltb_spec i (bit_off - 8 * bo + bit_sz));
    unfold lshift, rshift in *; cbn [andb]; try lia; try done.
  - apply Z.ones_spec_low. lia.
  - apply Z.testbit_neg_r. lia.
Qed.

Lemma write_field nval : exists mem', core_write_bitfield mem bo bs lshift rshift nval = Some mem' /\ mem_ok mem' /\ length mem' = length mem /\
  forall i, 0 <= i -> Z.testbit (le_value mem') i =
    if (bit_off <=? i) && (i <? bit_off + bit_sz) then Z.testbit nval (i - bit_off) else Z.testbit (le_value mem) i.
Proof.
  destruct load_some as (v & Hv & Ha). unfold core_write_bitfield. rewrite Ha, Hv. cbn [mbind option_bind].
  destruct shifts_range as (Hl & Hr & Hd & Hbs). destruct Hcov as (_ & _ & Hbo & Hc1 & Hc2).
  rewrite (wrap_small 32 (rshift - lshift)) by lia. set (mask := u64 ((2 ^ 64 - 1) <<' rshift) >>' lshift).
  set (nv := (v &' u64 (Z.lnot mask)) |' (u64 (nval <<' (rshift - lshift)) &' mask)).
  assert (exists mem', store_le mem bo bs nv = Some mem') as [mem' Hst] by (unfold store_le; rewrite decide_True by lia; eauto).
  exists mem'. split; [done|]. destruct (store_le_bits mem bo bs nv mem' 0 Hmem Hst ltac:(lia)) as (Hok & Hlen & _).
  split; [done|]. split; [done|]. intros i Hi. destruct (store_le_bits mem bo bs nv mem' i Hmem Hst Hi) as (_ & _ & ->).
  destruct (Z.leb_spec (8 * bo) i); cbn [andb].
  2: { destruct (Z.leb_spec bit_off i); [lia|done]. }
  destruct (Z.ltb_spec i (8 * (bo + bs))).
  2: { destruct (Z.ltb_spec i (bit_off + bit_sz)); [lia|]. by rewrite andb_false_r. }
  unfold nv. rewrite Z.lor_spec, !Z.land_spec, !testbit_wrap by lia. rewrite Z.lnot_spec by lia. unfold mask. rewrite !mask_bits by lia.
  rewrite Z.shiftl_spec by lia. rewrite (load_le_bits mem bo bs v) by (auto; lia).
  destruct (Z.ltb_spec (i - 8 * bo) 64); [|lia]. destruct (Z.ltb_spec (i - 8 * bo) (8 * bs)); [|lia]. cbn [andb].
  replace (i - 8 * bo + 8 * bo) with i by lia.
  destruct (Z.leb_spec (bit_off - 8 * bo) (i - 8 * bo)), (Z.ltb_spec (i - 8 * bo) (bit_off - 8 * bo + bit_sz)),
    (Z.leb_spec bit_off i), (Z.ltb_spec i (bit_off + bit_sz)); try lia; cbn [andb negb];
    rewrite ?andb_false_r, ?andb_true_r, ?orb_false_r, ?orb_false_l; try done. f_equal. lia.
Qed.
End Bitfield.

(** The last accessor of [spec] is a named bitfield of [bit_sz] bits in a type of [s] bytes. *)
Definition bitfield_member (spec : bpf_core_spec) (bit_sz s : Z) : Prop :=
  exists acc nm t m mt fid, zget (accs spec) (len spec - 1) = Some acc /\ acc_name acc = Some nm /\
    btf_type_by_id (spec_btf spec) (acc_type_id acc) = Some t /\ btf_member_at t (acc_idx acc) = Some m /\
    skip_mods_and_typedefs (spec_btf spec) (m_type m) = Some (mt, fid) /\
    btf_member_bitfield_size t (acc_idx acc) = Some bit_sz /\ size mt = Some s.

(** What the four relocations of a bitfield access compute. *)
Lemma calc_bitfield spec bit_sz s out : bitfield_member spec bit_sz s -> 0 < bit_sz ->
  (s = 1 \/ s = 2 \/ s = 4 \/ s = 8) -> 0 <= bit_offset spec -> bit_offset spec + bit_sz < 2 ^ 32 ->
  let val kind v := exists o, bpf_core_calc_field_relo kind (Some spec) out = Some (0, o) /\ o_val o = v in
  (straddles (bit_offset spec) bit_sz /\ forall kind, kind <> BPF_CORE_FIELD_EXISTS -> exists o, bpf_core_calc_field_relo kind (Some spec) out = Some (- E2BIG, o)) \/
  exists bo bs, covers (bit_offset spec) bit_sz bo bs /\
    val BPF_CORE_FIELD_BYTE_OFFSET bo /\ val BPF_CORE_FIELD_BYTE_SIZE bs /\
    val BPF_CORE_FIELD_LSHIFT_U64 (64 - (bit_offset spec + bit_sz - bo * 8)) /\ val BPF_CORE_FIELD_RSHIFT_U64 (64 - bit_sz).
Proof.
  intros (acc & nm & t & m & mt & fid & Hacc & Hnm & Ht & Hm & Hskip & Hbf & Hsize) Hsz Hs Hoff Hlt val.
  destruct (bitfield_load_spec (bit_offset spec) bit_sz s Hoff Hsz Hlt Hs) as (r & Hr & Hspec).
  assert (forall kind, kind <> BPF_CORE_FIELD_EXISTS -> forall P, (exists x, calc_member kind spec t acc
      (FieldOut (o_val out) 0 (o_type_id out) (o_validate out)) = Some x /\ P x) ->
    exists x, bpf_core_calc_field_relo kind (Some spec) out = Some x /\ P x) as Hcalc.
  { intros kind Hk P HP. unfold bpf_core_calc_field_relo. destruct (Z.eqb_spec kind BPF_CORE_FIELD_EXISTS); [done|].
    rewrite Hacc. cbn [mbind option_bind]. rewrite Ht. cbn [mbind option_bind]. by rewrite Hnm. }
  assert (forall kind out, calc_member kind spec t acc out = match r with
    | inl err => Some (err, out)
    | inr (bo, bs) => calc_member kind spec t acc out end) as Hm1.
  { intros kind out'. destruct r as [err|[bo bs]]; [|done]. unfold calc_member. rewrite Hm. cbn [mbind option_bind]. rewrite Hskip.
    cbn [mbind option_bind]. rewrite Hbf. cbn [mbind option_bind]. rewrite Z.gtb_ltb. destruct (Z.ltb_spec 0 bit_sz); [|lia].
    rewrite Hsize. cbn [mbind option_bind]. by rewrite Hr. }
  destruct r as [err|[bo bs]].
  - left. destruct Hspec as [-> Hstr]. split; [done|]. intros kind Hk.
    destruct (Hcalc kind Hk (fun x => x.1 = - E2BIG)) as ([e o] & He & Heq); [rewrite Hm1; by eexists|].
    simpl in Heq. subst e. eauto.
  - right. exists bo, bs. split; [done|]. destruct Hspec as (Hbs & _ & Hbo & Hc1 & Hc2).
    assert (forall kind v, kind <> BPF_CORE_FIELD_EXISTS -> (exists o, calc_member kind spec t acc
      (FieldOut (o_val out) 0 (o_type_id out) (o_validate out)) = Some (0, o) /\ o_val o = v) -> val kind v) as Hval.
    { intros kind v Hk (o & Ho & Hv). destruct (Hcalc kind Hk (fun x => x.1 = 0 /\ o_val x.2 = v)) as ([e o'] & He & H1 & H2);
        [by eexists|]. simpl in *. subst e. by exists o'. }
    clear Hm1 Hcalc. split_and!; (apply Hval; [done|]); unfold calc_member; rewrite Hm; cbn [mbind option_bind]; rewrite Hskip;
      cbn [mbind option_bind]; rewrite Hbf; cbn [mbind option_bind]; rewrite Z.gtb_ltb;
      (destruct (Z.ltb_spec 0 bit_sz); [|lia]); rewrite Hsize; cbn [mbind option_bind]; rewrite Hr; cbn [mbind option_bind];
      eexists; (split; [reflexivity|]); cbn [o_val]; try done.
    + apply wrap_small. lia.
    + apply wrap_small. lia.
Qed.

(** ** Patching *)

Record insn_ok (i : bpf_insn) : Prop := {
  io_code : 0 <= code i < 256;
  io_off : - 2 ^ 15 <= off i < 2 ^ 15;
  io_imm : - 2 ^ 31 <= imm i < 2 ^ 31
}.

Definition is_alu (i : bpf_insn) : bool := (BPF_CLASS (code i) =? BPF_ALU) || (BPF_CLASS (code i) =? BPF_ALU64).
Definition is_mem (i : bpf_insn) : bool :=
  (BPF_CLASS (code i) =? BPF_LDX) || (BPF_CLASS (code i) =? BPF_ST) || (BPF_CLASS (code i) =? BPF_STX).

(** The operand a relocation sets: the immediate, the offset or the 64-bit immediate. *)
Definition operand (prog : list bpf_insn) (idx : Z) : option Z :=
  i ← zget prog idx;
  if is_alu i then Some (u64 (imm i))
  else if is_mem i then Some (u64 (off i))
  else i1 ← zget prog (idx + 1); Some (u32 (imm i) |' u64 (u64 (imm i1) <<' 32)).

(** The opcode with another access size. *)
Definition resized (c sz : Z) : Z := u8 (BPF_MODE c |' sz |' BPF_CLASS c).

Definition resized_ok (c : Z) (sz : Z) : bool :=
  (BPF_CLASS (resized c sz) =? BPF_CLASS c) && (BPF_MODE (resized c sz) =? BPF_MODE c) && (BPF_SIZE (resized c sz) =? sz).

Lemma resized_correct c sz : 0 <= c < 256 -> sz ∈ [BPF_DW; BPF_W; BPF_H; BPF_B] -> resized_ok c sz = true.
Proof.
  intros Hc Hsz.
  assert (forallb (fun c => forallb (resized_ok (Z.of_nat c)) [BPF_DW; BPF_W; BPF_H; BPF_B]) (seq 0 256) = true) as Hall by (vm_compute; reflexivity).
  rewrite forallb_forall in Hall. specialize (Hall (Z.to_nat c)). rewrite Z2Nat.id in Hall by lia.
  assert (In (Z.to_nat c) (seq 0 256)) as Hin by (apply in_seq; lia). specialize (Hall Hin). rewrite forallb_forall in Hall.
  apply Hall. by apply list_elem_of_In.
Qed.

Lemma bytes_size sz : 0 <= insn_bytes_to_bpf_size sz -> insn_bytes_to_bpf_size sz ∈ [BPF_DW; BPF_W; BPF_H; BPF_B] /\
  forall i, BPF_SIZE (code i) = insn_bytes_to_bpf_size sz -> insn_bpf_size_to_bytes i = sz.
Proof.
  unfold insn_bytes_to_bpf_size, insn_bpf_size_to_bytes.
  repeat match goal with |- context [?a =? ?b] => is_var a; destruct (Z.eqb_spec a b) as [->|] end; intros H; try (exfalso; lia).
  all: split; [|intros i ->; reflexivity].
  all: rewrite !elem_of_cons; auto.
Qed.

(** The two halves of a 64-bit immediate. *)
Lemma imm64_halves v : 0 <= v < 2 ^ 64 -> u32 (s32 v) |' u64 (u64 (s32 (v >>' 32)) <<' 32) = v.
Proof.
  intros Hv. apply Z.bits_inj'. intros i Hi. rewrite Z.lor_spec, (wrap_swrap 32 v) by lia.
  rewrite !testbit_wrap, Z.shiftl_spec by lia.
  destruct (Z.ltb_spec i 32).
  - destruct (Z.ltb_spec i 64); [|lia]. cbn [andb]. rewrite (Z.testbit_neg_r _ (i - 32)) by lia. by rewrite orb_false_r.
  - cbn [andb orb]. destruct (Z.ltb_spec i 64); cbn [andb].
    + rewrite testbit_wrap by lia. destruct (Z.ltb_spec (i - 32) 64); [|lia]. cbn [andb].
      assert (forall w j, 0 <= j < 32 -> Z.testbit (s32 w) j = Z.testbit w j) as Hs.
      { intros w j Hj. assert (Z.testbit (u32 (s32 w)) j = Z.testbit (u32 w) j) as Hw by (by rewrite wrap_swrap by lia).
        rewrite !testbit_wrap in Hw by lia. destruct (Z.ltb_spec j 32); [done|lia]. }
      rewrite Hs by lia. rewrite Z.shiftr_spec by lia. f_equal. lia.
    + symmetry. apply (testbit_small v 64); lia.
Qed.

Lemma zset_others {A} (l l' : list A) i x j : zset l i x = Some l' -> j <> i -> zget l' j = zget l j.
Proof. intros H Hne. eapply zget_zset_ne; eauto. Qed.

Section Patch.
Context (prog : list bpf_insn) (idx : Z) (insn : bpf_insn) (res : bpf_core_relo_res).
Context (Hinsn : zget prog idx = Some insn) (Hiok : insn_ok insn) (Hnew : 0 <= new_val res < 2 ^ 64).
Context (Hnext : is_ldimm64_insn insn = true -> exists insn1, zget prog (idx + 1) = Some insn1).

(** The instruction is replaced by one that cannot be executed: on request, or because a load
    or store cannot be resized. *)
Definition must_poison : bool := poison res || (is_mem insn && fail_memsz_adjust res).

(** The instructions that are accepted: those to poison, and those whose operand is the
    expected one if it has to be validated and that are arithmetic with an immediate, a load or
    store whose new offset has 16 bits and whose size is kept, not adjusted at all, or changed
    from the original one to 1, 2, 4 or 8 bytes, or a plain 64-bit immediate load. *)
Definition patchable : Prop :=
  poison res = true \/
  (validate res = true -> operand prog idx = Some (orig_val res)) /\
  (is_alu insn = true /\ BPF_SRC (code insn) = BPF_K \/
   is_mem insn = true /\ new_val res <= 32767 /\
     (fail_memsz_adjust res = true \/ new_sz res = orig_sz res \/
      u32 (insn_bpf_size_to_bytes insn) = orig_sz res /\ new_sz res ∈ [1; 2; 4; 8]) \/
   is_ldimm64_insn insn = true /\ src_reg insn = 0 /\ off insn = 0 /\
     exists i1, zget prog (idx + 1) = Some i1 /\ code i1 = 0 /\ dst_reg i1 = 0 /\ src_reg i1 = 0 /\ off i1 = 0).

(** The instruction carries the new value in the operand of its class, after the old one was
    checked; a load or store has the new access size; nothing else of it changes. *)
Definition patched (prog' : list bpf_insn) : Prop :=
  exists insn', zget prog' idx = Some insn' /\ BPF_CLASS (code insn') = BPF_CLASS (code insn) /\
    BPF_MODE (code insn') = BPF_MODE (code insn) /\ dst_reg insn' = dst_reg insn /\ src_reg insn' = src_reg insn /\
    (validate res = true -> operand prog idx = Some (orig_val res)) /\
    operand prog' idx = Some (if is_alu insn then u64 (s32 (new_val res)) else new_val res) /\
    (if is_mem insn then imm insn' = imm insn /\
       (if bool_decide (new_sz res = orig_sz res) then code insn' = code insn
        else u32 (insn_bpf_size_to_bytes insn) = orig_sz res /\ insn_bpf_size_to_bytes insn' = new_sz res)
     else code insn' = code insn /\ off insn' = off insn) /\
    (is_ldimm64_insn insn = true -> forall i1, zget prog (idx + 1) = Some i1 ->
       exists v, zget prog' (idx + 1) = Some (Insn (code i1) (dst_reg i1) (src_reg i1) (off i1) v)).

(** The instruction, with the second half of a 64-bit immediate load, cannot be executed. *)
Definition poisoned (prog' : list bpf_insn) : Prop :=
  zget prog' idx = Some bpf_core_poison_insn /\
  (is_ldimm64_insn insn = true -> zget prog' (idx + 1) = Some bpf_core_poison_insn).

Definition patch_result (r : option (Z * list bpf_insn)) : Prop :=
  exists err prog', r = Some (err, prog') /\ length prog' = length prog /\
    (forall j, j <> idx -> (j = idx + 1 -> is_ldimm64_insn insn = false) -> zget prog' j = zget prog j) /\
    (err = 0 \/ err = - EINVAL \/ err = - ERANGE) /\ (err = 0 <-> patchable) /\
    (err = 0 -> if must_poison then poisoned prog' else patched prog').

(** A refusal; the offset of a load or store may have been written before. *)
Lemma patch_error err prog' : ~ patchable -> err = - EINVAL \/ err = - ERANGE -> length prog' = length prog ->
  (forall j, j <> idx -> zget prog' j = zget prog j) -> patch_result (Some (err, prog')).
Proof.
  intros Hn He Hl Hf. assert (err <> 0) as Hz by (destruct He as [-> | ->]; discriminate).
  exists err, prog'. split_and!; auto; [by split|]. intros E. by destruct Hz.
Qed.

Lemma patch_unchanged err : ~ patchable -> err = - EINVAL \/ err = - ERANGE -> patch_result (Some (err, prog)).
Proof. intros. by apply patch_error. Qed.

Lemma store_some i : exists prog', zset prog idx i = Some prog' /\ length prog' = length prog /\ zget prog' idx = Some i /\
  forall j, j <> idx -> zget prog' j = zget prog j.
Proof.
  destruct (zset_is_Some prog idx i (zget_lt _ _ _ Hinsn)) as [prog' H]. exists prog'. split; [done|].
  split; [by eapply zset_length|]. split; [by eapply zget_zset_eq|]. intros j Hj. eapply zget_zset_ne; eauto.
Qed.

Lemma poison_at_result : must_poison = true -> patchable -> patch_result (poison_at prog idx insn).
Proof.
  intros Hp Hok. unfold poison_at.
  assert (exists p1, (if is_ldimm64_insn insn then zset prog (idx + 1) bpf_core_poison_insn else Some prog) = Some p1 /\ length p1 = length prog /\
    (is_ldimm64_insn insn = true -> zget p1 (idx + 1) = Some bpf_core_poison_insn) /\
    forall j, (j = idx + 1 -> is_ldimm64_insn insn = false) -> zget p1 j = zget prog j) as (p1 & -> & Hl1 & Hp1 & H1).
  { destruct (is_ldimm64_insn insn); [|by exists prog]. destruct (Hnext eq_refl) as [i1 Hi1].
    destruct (zset_is_Some prog (idx + 1) bpf_core_poison_insn (zget_lt _ _ _ Hi1)) as [p1 Hp1]. exists p1. split; [done|].
    split; [by eapply zset_length|]. split; [intros _; by eapply zget_zset_eq|]. intros j Hj. eapply zget_zset_ne; eauto.
    intros E. by specialize (Hj (eq_sym E)). }
  cbn [mbind option_bind]. destruct (zset_is_Some p1 idx bpf_core_poison_insn) as [p2 Hp2].
  { rewrite Hl1. by eapply zget_lt. }
  rewrite Hp2. cbn [mbind option_bind]. exists 0, p2. rewrite Hp. split; [done|]. split; [rewrite <- Hl1; by eapply zset_length|].
  split; [intros j Hj Hj1; rewrite (zget_zset_ne p1 p2 idx j _ Hp2) by auto; by apply H1|].
  split; [by left|]. split; [done|]. intros _. split; [by eapply zget_zset_eq|]. intros Hld.
  rewrite (zget_zset_ne p1 p2 idx (idx + 1) _ Hp2) by lia. auto.
Qed.

(** The classes exclude each other. *)
Lemma classes_disjoint : is_alu insn = true -> is_mem insn = false.
Proof.
  unfold is_alu, is_mem. intros [H%Z.eqb_eq|H%Z.eqb_eq]%orb_true_iff; rewrite H; reflexivity.
Qed.
Lemma ldimm64_class : is_ldimm64_insn insn = true -> is_alu insn = false /\ is_mem insn = false.
Proof. unfold is_ldimm64_insn, is_alu, is_mem. intros ->%Z.eqb_eq. by split. Qed.
Lemma alu_not_ldimm64 : is_alu insn = true -> is_ldimm64_insn insn = false.
Proof. intros Ha. destruct (is_ldimm64_insn insn) eqn:E; [|done]. destruct (ldimm64_class E). congruence. Qed.
Lemma mem_not_ldimm64 : is_mem insn = true -> is_ldimm64_insn insn = false.
Proof. intros Ha. destruct (is_ldimm64_insn insn) eqn:E; [|done]. destruct (ldimm64_class E). congruence. Qed.

(** The expected operand was found, or was not. *)
Lemma operand_checked v : operand prog idx = Some v -> validate res && negb (v =? orig_val res) = false ->
  validate res = true -> operand prog idx = Some (orig_val res).
Proof. intros -> Hv Hval. rewrite Hval in Hv. cbn [andb] in Hv. apply negb_false_iff, Z.eqb_eq in Hv. by rewrite Hv. Qed.
Lemma operand_wrong v : poison res = false -> operand prog idx = Some v -> validate res && negb (v =? orig_val res) = true -> ~ patchable.
Proof.
  intros Hp Ho [Hv Hne%negb_true_iff%Z.eqb_neq]%andb_true_iff [Hq|[Hop _]]; [congruence|]. rewrite Ho in Hop.
  specialize (Hop Hv). by injection Hop.
Qed.

Lemma operand_alu prog' i : zget prog' idx = Some i -> is_alu i = true -> operand prog' idx = Some (u64 (imm i)).
Proof. intros Hg Ha. unfold operand. rewrite Hg. cbn [mbind option_bind]. by rewrite Ha. Qed.

Lemma patch_alu : poison res = false -> is_alu insn = true -> BPF_SRC (code insn) = BPF_K ->
  validate res && negb (u64 (imm insn) =? orig_val res) = false ->
  patch_result (prog ← (prog ← zset prog idx (Insn (code insn) (dst_reg insn) (src_reg insn) (off insn) (s32 (new_val res))); Some prog); Some (0, prog)).
Proof.
  intros Hp Ha Hk Hv. pose proof (operand_checked _ (operand_alu prog insn Hinsn Ha) Hv) as Hop.
  destruct (store_some (Insn (code insn) (dst_reg insn) (src_reg insn) (off insn) (s32 (new_val res)))) as (p' & -> & Hl & Hg & Hf).
  cbn [mbind option_bind]. exists 0, p'. split_and!; auto.
  { split; [|done]. intros _. right. split; [done|]. by left. }
  intros _. unfold must_poison. rewrite Hp, (classes_disjoint Ha). cbn [orb andb].
  eexists. split; [exact Hg|]. rewrite (classes_disjoint Ha), (alu_not_ldimm64 Ha), Ha. split_and!; try done.
  by rewrite (operand_alu p' _ Hg Ha).
Qed.

Lemma operand_mem prog' i : zget prog' idx = Some i -> is_alu i = false -> is_mem i = true -> operand prog' idx = Some (u64 (off i)).
Proof. intros Hg Ha Hm. unfold operand. rewrite Hg. cbn [mbind option_bind]. by rewrite Ha, Hm. Qed.

Lemma patch_mem : poison res = false -> is_alu insn = false -> is_mem insn = true ->
  validate res && negb (u64 (off insn) =? orig_val res) = false -> new_val res <= SHRT_MAX -> fail_memsz_adjust res = false ->
  patch_result (
    let insn := Insn (code insn) (dst_reg insn) (src_reg insn) (s16 (new_val res)) (imm insn) in
    let store i := prog ← zset prog idx i; Some prog in
    prog' ← store insn;
    if negb (new_sz res =? orig_sz res) then
      if negb (u32 (insn_bpf_size_to_bytes insn) =? orig_sz res) then Some (- EINVAL, prog')
      else
        let insn_bpf_sz := insn_bytes_to_bpf_size (new_sz res) in
        if insn_bpf_sz <? 0 then Some (- EINVAL, prog')
        else
          prog' ← store (Insn (resized (code insn) insn_bpf_sz) (dst_reg insn) (src_reg insn) (off insn) (imm insn));
          Some (0, prog')
    else Some (0, prog')).
Proof.
  intros Hp Ha Hm Hv Hmax Hfail. unfold SHRT_MAX in Hmax. cbv zeta. set (i1 := Insn (code insn) (dst_reg insn) (src_reg insn) (s16 (new_val res)) (imm insn)).
  assert (s16 (new_val res) = new_val res) as Hs16 by (apply swrap_small; lia).
  destruct (store_some i1) as (p1 & -> & Hl1 & Hg1 & Hf1). cbn [mbind option_bind].
  pose proof (operand_checked _ (operand_mem prog insn Hinsn Ha Hm) Hv) as Hval.
  pose proof (mem_not_ldimm64 Hm) as Hld.
  assert (patchable <-> new_sz res = orig_sz res \/ u32 (insn_bpf_size_to_bytes insn) = orig_sz res /\ new_sz res ∈ [1; 2; 4; 8]) as Hpat.
  { unfold patchable. rewrite Hp, Ha, Hm, Hfail, Hld. intuition (auto; congruence). }
  assert (must_poison = false) as Hmp by (unfold must_poison; by rewrite Hp, Hm, Hfail).
  assert (forall p' i, zget p' idx = Some i -> BPF_CLASS (code i) = BPF_CLASS (code insn) -> off i = new_val res ->
    operand p' idx = Some (if is_alu insn then u64 (s32 (new_val res)) else new_val res)) as Hop.
  { intros p' i Hg Hc Ho. rewrite (operand_mem p' i), Ho, Ha; auto; [|unfold is_alu in *; by rewrite Hc|unfold is_mem in *; by rewrite Hc].
    by rewrite wrap_small by lia. }
  destruct (Z.eqb_spec (new_sz res) (orig_sz res)) as [Heq|Hne]; cbn [negb].
  { exists 0, p1. split_and!; auto; [by split; [intros _; apply Hpat; left|]|]. intros _. rewrite Hmp. exists i1.
    rewrite Hm, bool_decide_true, Hld by done. split_and!; auto; [|done]. by apply (Hop p1 i1). }
  destruct (Z.eqb_spec (u32 (insn_bpf_size_to_bytes i1)) (orig_sz res)) as [Hos|]; cbn [negb].
  2: { apply patch_error; auto. rewrite Hpat. intros [?|[? _]]; [done|]. by destruct n. }
  destruct (Z.ltb_spec (insn_bytes_to_bpf_size (new_sz res)) 0) as [|Hsz].
  { apply patch_error; auto. rewrite Hpat. intros [?|[_ Hin]]; [done|]. unfold insn_bytes_to_bpf_size in *.
    rewrite !elem_of_cons, elem_of_nil in Hin. destruct Hin as [E|[E|[E|[E|[]]]]]; rewrite E in *; discriminate. }
  destruct (bytes_size (new_sz res) Hsz) as [Hin Hback].
  pose proof (resized_correct (code insn) _ (io_code _ Hiok) Hin) as Hres. unfold resized_ok in Hres.
  apply andb_true_iff in Hres as [[Hc%Z.eqb_eq Hmd%Z.eqb_eq]%andb_true_iff Hs%Z.eqb_eq].
  set (i2 := Insn (resized (code i1) (insn_bytes_to_bpf_size (new_sz res))) (dst_reg i1) (src_reg i1) (off i1) (imm i1)).
  destruct (store_some i2) as (p2 & -> & Hl2 & Hg2 & Hf2). cbn [mbind option_bind].
  exists 0, p2. split_and!; auto.
  { split; [intros _; apply Hpat; right; split; [done|]|done]. revert Hsz. unfold insn_bytes_to_bpf_size. rewrite !elem_of_cons.
    repeat match goal with |- context [?a =? ?b] => destruct (Z.eqb_spec a b); [by auto 6|] end. lia. }
  intros _. rewrite Hmp. exists i2. rewrite Hm, bool_decide_false, Hld by done. split_and!; auto; [|done].
  by apply (Hop p2 i2).
Qed.

Lemma patch_ld insn1 : poison res = false -> is_ldimm64_insn insn = true -> zget prog (idx + 1) = Some insn1 -> patchable ->
  validate res && negb (u32 (imm insn) |' u64 (u64 (imm insn1) <<' 32) =? orig_val res) = false ->
  patch_result (
    prog ← (prog ← zset prog idx (Insn (code insn) (dst_reg insn) (src_reg insn) (off insn) (s32 (new_val res))); Some prog);
    prog ← zset prog (idx + 1) (Insn (code insn1) (dst_reg insn1) (src_reg insn1) (off insn1) (s32 (new_val res >>' 32)));
    Some (0, prog)).
Proof.
  intros Hp Hld H1 Hpat Hv. destruct (ldimm64_class Hld) as [Ha Hm]. set (i0 := Insn (code insn) (dst_reg insn) (src_reg insn) (off insn) (s32 (new_val res))).
  set (i1 := Insn (code insn1) (dst_reg insn1) (src_reg insn1) (off insn1) (s32 (new_val res >>' 32))).
  destruct (store_some i0) as (p1 & -> & Hl1 & Hg1 & Hf1). cbn [mbind option_bind].
  destruct (zset_is_Some p1 (idx + 1) i1) as [p2 Hp2]; [rewrite Hl1; by eapply zget_lt|]. rewrite Hp2. cbn [mbind option_bind].
  assert (zget p2 idx = Some i0) as Hg2 by (rewrite (zget_zset_ne p1 p2 (idx + 1) idx _ Hp2) by lia; done).
  pose proof (zget_zset_eq _ _ _ _ Hp2) as Hg3.
  exists 0, p2. split; [done|]. split; [rewrite <- Hl1; by eapply zset_length|]. split.
  { intros j Hj Hj1. rewrite (zget_zset_ne p1 p2 (idx + 1) j _ Hp2); [by apply Hf1|]. intros E. specialize (Hj1 (eq_sym E)). congruence. }
  split; [by left|]. split; [done|]. intros _. unfold must_poison. rewrite Hp, Hm. cbn [orb andb]. exists i0. split_and!; auto.
  - apply (operand_checked (u32 (imm insn) |' u64 (u64 (imm insn1) <<' 32))); [|done].
    unfold operand. rewrite Hinsn. cbn [mbind option_bind]. by rewrite Ha, Hm, H1.
  - unfold operand. rewrite Hg2. cbn [mbind option_bind]. change (is_alu i0) with (is_alu insn). change (is_mem i0) with (is_mem insn).
    rewrite Ha, Hm, Hg3. cbn [mbind option_bind i0 i1 imm]. by rewrite imm64_halves.
  - by rewrite Hm.
  - intros _ x Hx. rewrite H1 in Hx. injection Hx as <-. by eexists.
Qed.

Lemma patch_insn_result : patch_result (bpf_core_patch_insn prog idx res).
Proof.
  unfold bpf_core_patch_insn. rewrite Hinsn. cbn [mbind option_bind]. destruct (poison res) eqn:Hp.
  { apply poison_at_result; [unfold must_poison; by rewrite Hp|by left]. }
  change ((BPF_CLASS (code insn) =? BPF_ALU) || (BPF_CLASS (code insn) =? BPF_ALU64)) with (is_alu insn).
  change ((BPF_CLASS (code insn) =? BPF_LDX) || (BPF_CLASS (code insn) =? BPF_ST) || (BPF_CLASS (code insn) =? BPF_STX)) with (is_mem insn).
  destruct (is_alu insn) eqn:Ha.
  { pose proof (classes_disjoint Ha) as Hm. pose proof (alu_not_ldimm64 Ha) as Hld.
    destruct (Z.eqb_spec (BPF_SRC (code insn)) BPF_K) as [Hk|Hk]; cbn [negb].
    2: { apply patch_unchanged; [|by left]. unfold patchable. rewrite Hp, Ha, Hm, Hld. intros [?|[_ [[_ ?]|[[? _]|[? _]]]]]; congruence. }
    destruct (validate res && negb (u64 (imm insn) =? orig_val res)) eqn:Hv; [|by apply patch_alu].
    apply patch_unchanged; [|by left]. apply (operand_wrong _ Hp (operand_alu prog insn Hinsn Ha) Hv). }
  destruct (is_mem insn) eqn:Hm.
  { pose proof (mem_not_ldimm64 Hm) as Hld. pose proof (operand_mem prog insn Hinsn Ha Hm) as Hop.
    destruct (validate res && negb (u64 (off insn) =? orig_val res)) eqn:Hv.
    { apply patch_unchanged; [|by left]. apply (operand_wrong _ Hp Hop Hv). }
    rewrite Z.gtb_ltb. destruct (Z.ltb_spec SHRT_MAX (new_val res)) as [Hbig|Hbig]; unfold SHRT_MAX in Hbig.
    { apply patch_unchanged; [|by right]. unfold patchable. rewrite Hp, Ha, Hm, Hld. intros [?|[_ [[? _]|[[_ [? _]]|[? _]]]]]; first [congruence|lia]. }
    destruct (fail_memsz_adjust res) eqn:Hfail; [|by apply patch_mem].
    apply poison_at_result; [unfold must_poison; by rewrite Hp, Hm, Hfail|]. right. split; [by apply (operand_checked _ Hop Hv)|]. auto 10. }
  destruct (is_ldimm64_insn insn) eqn:Hld.
  2: { destruct (BPF_CLASS (code insn) =? BPF_LD); cbn [negb orb]; (apply patch_unchanged; [|by left]);
         unfold patchable; rewrite Hp, Ha, Hm, Hld; intros [?|[_ [[? _]|[[? _]|[? _]]]]]; congruence. }
  assert ((BPF_CLASS (code insn) =? BPF_LD) = true) as -> by (unfold is_ldimm64_insn in Hld; apply Z.eqb_eq in Hld; by rewrite Hld).
  destruct (Hnext eq_refl) as [insn1 H1].
  assert (~ (src_reg insn = 0 /\ off insn = 0 /\ code insn1 = 0 /\ dst_reg insn1 = 0 /\ src_reg insn1 = 0 /\ off insn1 = 0) -> ~ patchable) as Hform.
  { intros Hn. unfold patchable. rewrite Hp, Ha, Hm, Hld, H1. intros [?|[_ [[? _]|[[? _]|(_ & ? & ? & i1 & [= <-] & ?)]]]]; [done..|]. apply Hn. tauto. }
  cbn [negb orb]. destruct (Z.eqb_spec (src_reg insn) 0), (Z.eqb_spec (off insn) 0); cbn [negb orb];
    try (apply patch_unchanged; [apply Hform; tauto|by left]).
  rewrite H1. cbn [mbind option_bind]. destruct (Z.eqb_spec (code insn1) 0), (Z.eqb_spec (dst_reg insn1) 0), (Z.eqb_spec (src_reg insn1) 0),
    (Z.eqb_spec (off insn1) 0); cbn [negb orb]; try (apply patch_unchanged; [apply Hform; tauto|by left]).
  assert (operand prog idx = Some (u32 (imm insn) |' u64 (u64 (imm insn1) <<' 32))) as Hop.
  { unfold operand. rewrite Hinsn. cbn [mbind option_bind]. by rewrite Ha, Hm, H1. }
  destruct (validate res && negb (u32 (imm insn) |' u64 (u64 (imm insn1) <<' 32) =? orig_val res)) eqn:Hv.
  { apply patch_unchanged; [|by left]. apply (operand_wrong _ Hp Hop Hv). }
  apply patch_ld; auto. right. split; [by apply (operand_checked _ Hop Hv)|]. right. right. split_and!; auto. by exists insn1.
Qed.
End Patch.

(** ** The values are computed on valid BTF *)

(** Bitfields have a type with a size. *)
Definition bitfields_sized (b : btf) : Prop :=
  forall id t i m bit_sz mt fid s, btf_type_by_id b id = Some t -> btf_member_at t i = Some m ->
    btf_member_bitfield_size t i = Some bit_sz -> 0 < bit_sz -> skip_mods_and_typedefs b (m_type m) = Some (mt, fid) ->
    size mt = Some s -> s <> 0.

Lemma widen_loop_total fuel bit_off bit_sz bo s : 0 < s -> 8 <= s * 2 ^ (Z.of_nat fuel - 1) ->
  exists r, widen_loop fuel bit_off bit_sz bo s = Some r.
Proof.
  revert bo s. induction fuel as [|fuel IH]; intros bo s Hs Hf; cbn [widen_loop].
  { exfalso. change (Z.of_nat 0 - 1) with (-1) in Hf. change (2 ^ (-1)) with 0 in Hf. lia. }
  destruct (_ >? _); [|eauto]. rewrite Z.geb_leb. destruct (Z.leb_spec 8 s); [eauto|].
  rewrite wrap_small by lia. destruct (Z.eqb_spec (s * 2) 0); [lia|]. apply IH; [lia|]. destruct fuel as [|fuel].
  - exfalso. change (2 ^ (Z.of_nat 1 - 1)) with 1 in Hf. lia.
  - replace (Z.of_nat (S (S fuel)) - 1) with (Z.succ (Z.of_nat (S fuel) - 1)) in Hf by lia. rewrite Z.pow_succ_r in Hf by lia. lia.
Qed.

Section Calc.
Context (b : btf) (n : Z) (Hok : core_ok b n) (Hac : arrays_acyclic b n) (Hbf : bitfields_sized b).

Lemma elem_loop_total (rank : Z -> nat) fuel t id :
  (forall id, 0 <= id < n -> (rank id <= Z.to_nat n)%nat /\
    forall t k, btf_type_by_id b id = Some t -> btf_kind t = Some k ->
      (forall ty, skipped_kind k = true -> type t = Some ty -> (rank ty < rank id)%nat) /\
      (forall a, k = BTF_KIND_ARRAY -> array_of t = Some a -> (rank (arr_type a) < rank id)%nat)) ->
  0 <= id < n -> btf_type_by_id b id = Some t -> (rank id < fuel)%nat ->
  exists e, elem_loop fuel b t id = Some e /\ 0 <= e < n.
Proof.
  intros Hrank. revert t id. induction fuel as [|fuel IH]; intros t id Hid Ht Hf; [lia|]. cbn [elem_loop].
  assert (type_in b n t) as Hin by (by exists id).
  destruct (type_in_base b n Hok t Hin) as (k & _ & _ & _ & Hk & _). rewrite Hk. cbn [mbind option_bind].
  destruct (Z.eqb_spec k BTF_KIND_ARRAY) as [->|]; [|eauto].
  destruct (array_elem b n Hok t Hin Hk) as (a & Ha & Hat). rewrite Ha. cbn [mbind option_bind].
  destruct (skip_total b n _ (core_btf _ _ Hok) Hat) as (t' & rid & -> & Hr & Hres). cbn [mbind option_bind].
  pose proof (resolved_rank b n rank (core_btf _ _ Hok)
    (fun id Hid t k ty Ht Hk Hs Hty => proj1 (proj2 (Hrank id Hid) t k Ht Hk) ty Hs Hty) _ _ _ Hres Hat).
  pose proof (proj2 (proj2 (Hrank id Hid) _ _ Ht Hk) a eq_refl Ha).
  apply resolved_kind in Hres as (k' & _ & _ & Hby). apply type_by_id_some in Hby. apply IH; auto. lia.
Qed.

Lemma elem_size_total id : 0 <= id < n -> exists sz, elem_size b id = Some sz.
Proof.
  intros Hid. unfold elem_size. rewrite (ok_cnt _ _ (core_btf _ _ Hok)). cbn [mbind option_bind].
  destruct (skip_in b n Hok id Hid) as (t & rid & -> & Hrid & _ & Hby). cbn [mbind option_bind].
  destruct Hac as [rank Hrank]. destruct (elem_loop_total rank (S (Z.to_nat n)) t rid Hrank Hrid Hby) as (e & -> & He).
  { pose proof (proj1 (Hrank rid Hrid)). lia. }
  cbn [mbind option_bind]. apply (resolve_size_total b n); [apply Hok|apply Hok|lia].
Qed.

Definition calc_ok (out : field_out) (r : option (Z * field_out)) : Prop :=
  exists err o, r = Some (err, o) /\ 0 <= o_type_id o < n.

Lemma calc_member_total kind sp t acc nm out : spec_btf sp = b -> acc_ok b n acc -> acc_name acc = Some nm ->
  btf_type_by_id b (acc_type_id acc) = Some t -> 0 <= o_type_id out < n -> calc_ok out (calc_member kind sp t acc out).
Proof.
  intros Hb (Htid & Hidx & Hmem) Hnm Ht Hout. unfold calc_member. rewrite Hb. unfold idx_ok in Hidx.
  destruct (Hmem nm Hnm) as (t' & k & v & Ht' & Hk & Hc & Hv & Hlt). rewrite Ht in Ht'. injection Ht' as <-.
  assert (type_in b n t) as Hin by (by exists (acc_type_id acc)).
  destruct (member_valid b n t k v (acc_idx acc) Hok Hin Hk Hc Hv ltac:(lia)) as (m & Hm & _ & Hmt). rewrite Hm. cbn [mbind option_bind].
  destruct (skip_in b n Hok _ Hmt) as (mt & fid & Hs & Hfid & Hmtin & _). rewrite Hs. cbn [mbind option_bind].
  destruct (type_in_base b n Hok t Hin) as (_ & _ & _ & _ & _ & _ & _ & _ & (f & Hf) & _).
  assert (exists bit_sz, btf_member_bitfield_size t (acc_idx acc) = Some bit_sz) as [bit_sz Hbs].
  { unfold btf_member_bitfield_size. rewrite Hm. cbn [mbind option_bind]. rewrite Hf. eauto. }
  rewrite Hbs. cbn [mbind option_bind]. destruct (type_in_base b n Hok mt Hmtin) as (mk & _ & _ & _ & Hmk & _ & _ & _ & (mf & Hmf) & s & Hsz).
  rewrite Z.gtb_ltb. assert (exists g, (if 0 <? bit_sz then sz ← size mt; bitfield_load (bit_offset sp) bit_sz sz
    else sz ← btf__resolve_size b fid; Some (if sz <? 0 then inl (- EINVAL) else inr (bit_offset sp / 8, u32 sz))) = Some g) as [g Hg].
  { destruct (Z.ltb_spec 0 bit_sz).
    - rewrite Hsz. cbn [mbind option_bind]. unfold bitfield_load.
      destruct (Z.eqb_spec s 0) as [->|]; [by exfalso; eapply (Hbf _ t); eauto|]. apply widen_loop_total; [|change (2 ^ (Z.of_nat 4 - 1)) with 8].
      + pose proof (word_value mt 2 s (type_in_words b n Hok mt Hmtin) Hsz) as [? _]. lia.
      + pose proof (word_value mt 2 s (type_in_words b n Hok mt Hmtin) Hsz) as [? _]. lia.
    - destruct (resolve_size_total b n fid (core_btf _ _ Hok) (core_words _ _ Hok)) as [r ->]; [lia|]. cbn [mbind option_bind]. eauto. }
  rewrite Hg. cbn [mbind option_bind]. destruct g as [err|[bo bs]]; [by exists err, out|].
  destruct (kind =? BPF_CORE_FIELD_BYTE_OFFSET).
  { destruct (0 <? bit_sz); [by eexists _, _|]. destruct (elem_size_total fid Hfid) as [sz ->]. cbn [mbind option_bind].
    destruct (sz <? 0); by eexists _, _. }
  destruct (kind =? BPF_CORE_FIELD_BYTE_SIZE); [by eexists _, _|].
  destruct (kind =? BPF_CORE_FIELD_SIGNED).
  { rewrite Hmk, Hmf. cbn [mbind option_bind]. destruct (_ && mf); cbn [mbind option_bind]; [by eexists _, _|].
    destruct (Z.eqb_spec mk BTF_KIND_INT) as [->|]; [|by eexists _, _].
    destruct (int_word b n Hok mt Hmtin Hmk) as [w Hw]. unfold btf_int_encoding. rewrite Hw. cbn [mbind option_bind]. by eexists _, _. }
  destruct (kind =? BPF_CORE_FIELD_LSHIFT_U64); [by eexists _, _|]. destruct (kind =? BPF_CORE_FIELD_RSHIFT_U64); by eexists _, _.
Qed.

Lemma calc_field_total kind sp : spec_wf sp -> accs_in b n sp -> spec_btf sp = b -> 1 <= len sp ->
  calc_ok (FieldOut 0 0 0 true) (bpf_core_calc_field_relo kind (Some sp) (FieldOut 0 0 0 true)).
Proof.
  intros Hwf Hin Hb Hlen. unfold bpf_core_calc_field_relo. cbn [o_val o_sz o_type_id o_validate].
  assert (0 < n) as Hn.
  { destruct (acc_at sp (len sp - 1) Hwf ltac:(lia)) as (a & _ & Ha). unfold accs_in in Hin. rewrite Forall_forall in Hin. destruct (Hin a Ha). lia. }
  destruct (kind =? BPF_CORE_FIELD_EXISTS); [eexists _, _; split; [done|]; cbn; lia|].
  destruct (acc_at sp (len sp - 1) Hwf ltac:(lia)) as (a & -> & Ha). cbn [mbind option_bind]. rewrite Hb.
  assert (acc_ok b n a) as Hao by (unfold accs_in in Hin; rewrite Forall_forall in Hin; auto).
  destruct (ok_by_id b n _ (core_btf _ _ Hok) (proj1 Hao)) as (t & k & _ & Ht & _). rewrite Ht. cbn [mbind option_bind].
  destruct (acc_name a) as [nm|] eqn:Hnm; [eapply calc_member_total; eauto; cbn; lia|].
  destruct (kind =? BPF_CORE_FIELD_BYTE_OFFSET).
  { destruct (elem_size_total _ (proj1 Hao)) as [sz ->]. cbn [mbind option_bind]. destruct (sz <? 0); eexists _, _; (split; [done|]); cbn [o_type_id]; [lia|apply Hao]. }
  destruct (kind =? BPF_CORE_FIELD_BYTE_SIZE); [|eexists _, _; split; [done|]; cbn; lia].
  destruct (resolve_size_total b n (acc_type_id a) (core_btf _ _ Hok) (core_words _ _ Hok)) as [r ->]; [destruct Hao; lia|]. cbn [mbind option_bind].
  destruct (r <? 0); eexists _, _; (split; [done|]); cbn; lia.
Qed.
End Calc.

Lemma memsz_ok_total lb ln tb tn ls ts i j : core_ok lb ln -> core_ok tb tn -> spec_btf ls = lb -> spec_btf ts = tb ->
  0 <= i < ln -> 0 <= j < tn -> exists r, memsz_ok ls ts i j = Some r.
Proof.
  intros Hl Ht Hbl Hbt Hi Hj. unfold memsz_ok. rewrite Hbl, Hbt.
  destruct (ok_by_id lb ln i (core_btf _ _ Hl) Hi) as (t1 & k1 & _ & Ht1 & Hk1). rewrite Ht1. cbn [mbind option_bind].
  destruct (ok_by_id tb tn j (core_btf _ _ Ht) Hj) as (t2 & k2 & _ & Ht2 & Hk2). rewrite Ht2. cbn [mbind option_bind].
  rewrite Hk1, Hk2. cbn [mbind option_bind]. destruct (_ && _); [eauto|].
  destruct (Z.eqb_spec k1 BTF_KIND_INT) as [->|]; cbn [andb]; [|eauto]. destruct (Z.eqb_spec k2 BTF_KIND_INT) as [->|]; [|eauto].
  destruct (int_word lb ln Hl t1) as [w1 Hw1]; [by exists i|done|]. destruct (int_word tb tn Ht t2) as [w2 Hw2]; [by exists j|done|].
  unfold btf_int_encoding. rewrite Hw1, Hw2. cbn [mbind option_bind]. eauto.
Qed.

(** Computing a field relocation against a target spec, or against none. *)
Lemma calc_relo_total kind lb ln ls ots : core_relo_is_field_based kind = true ->
  core_ok lb ln -> arrays_acyclic lb ln -> bitfields_sized lb -> spec_wf ls -> accs_in lb ln ls -> spec_btf ls = lb -> 1 <= len ls ->
  (forall ts, ots = Some ts -> exists tb tn, core_ok tb tn /\ arrays_acyclic tb tn /\ bitfields_sized tb /\ spec_wf ts /\
     accs_in tb tn ts /\ spec_btf ts = tb /\ 1 <= len ts) ->
  exists err res, bpf_core_calc_relo kind ls ots = Some (err, res).
Proof.
  intros Hk Hlb Hlac Hlbf Hlwf Hlin Hlbt Hllen Hts. unfold bpf_core_calc_relo. rewrite Hk.
  assert (forall err r, exists err' res, Some (calc_done err r) = Some (err', res)) as Hdone by (intros err r; destruct (calc_done err r); eauto).
  destruct (Z.eqb_spec kind BPF_CORE_FIELD_EXISTS) as [->|Hne].
  { unfold bpf_core_calc_field_relo. cbn [mbind option_bind o_val o_sz o_type_id o_validate Z.eqb Pos.eqb BPF_CORE_FIELD_EXISTS negb]. eauto. }
  destruct (calc_field_total lb ln Hlb Hlac Hlbf kind ls Hlwf Hlin Hlbt Hllen) as (err & o & -> & Ho). cbn [mbind option_bind].
  destruct (Z.eqb_spec err 0) as [->|He]; cbn [mbind option_bind].
  2: { destruct (Z.eqb_spec err 0); [done|]. cbn [negb]. eauto. }
  destruct ots as [ts|].
  - destruct (Hts ts eq_refl) as (tb & tn & Htb & Htac & Htbf & Htwf & Htin & Htbt & Htlen).
    destruct (calc_field_total tb tn Htb Htac Htbf kind ts Htwf Htin Htbt Htlen) as (err & o' & -> & Ho'). cbn [mbind option_bind].
    destruct (negb (err =? 0)); [eauto|]. destruct (negb (o_sz o =? o_sz o')); [|eauto].
    destruct (memsz_ok_total lb ln tb tn ls ts (o_type_id o) (o_type_id o')) as [r ->]; auto. cbn [mbind option_bind]. eauto.
  - unfold bpf_core_calc_field_relo. destruct (Z.eqb_spec kind BPF_CORE_FIELD_EXISTS); [done|]. cbn [mbind option_bind].
    change (negb (- EUCLEAN =? 0)) with true. eauto.
Qed.

(** ** Agreement of the candidates *)
Definition cand_ok (c : bpf_core_cand) : Prop :=
  exists n, core_ok (cand_btf c) n /\ arrays_acyclic (cand_btf c) n /\ fields_unique (cand_btf c) /\ bitfields_sized (cand_btf c) /\
    0 <= cand_id c < n.

(** Whether the local spec matches the candidate. *)
Definition cand_matches (ls : bpf_core_spec) (c : bpf_core_cand) : bool :=
  match bpf_core_spec_match ls (cand_btf c) (cand_id c) with Some (e, _) => 0 <? e | None => false end.

(** The candidate resolves to the offset, the decision and the value of the result. *)
Definition agrees (kind : Z) (ls ts : bpf_core_spec) (tr : bpf_core_relo_res) (c : bpf_core_cand) : Prop :=
  exists e sc rc, bpf_core_spec_match ls (cand_btf c) (cand_id c) = Some (e, sc) /\ 0 < e /\
    bpf_core_calc_relo kind ls (Some sc) = Some (0, rc) /\ bit_offset sc = bit_offset ts /\ poison rc = poison tr /\
    new_val rc = new_val tr.

Definition targ_agrees (kind : Z) (ls : bpf_core_spec) (targ : option (bpf_core_relo_res * bpf_core_spec)) (kept : list bpf_core_cand) : Prop :=
  match targ with None => kept = [] | Some (tr, ts) => kept <> [] /\ Forall (agrees kind ls ts tr) kept end.

Section Cands.
Context (lb : btf) (ln : Z) (Hlb : core_ok lb ln) (Hlac : arrays_acyclic lb ln) (Hlbf : bitfields_sized lb).
Context (ls : bpf_core_spec) (root : Z) (idxs : list Z) (Hls : field_spec lb ln root idxs ls).
Context (kind : Z) (Hk : core_relo_is_field_based kind = true) (Hrk : relo_kind ls = kind).

Lemma local_len : 1 <= len ls.
Proof.
  destruct Hls as (Hwf & _ & _ & _ & (a0 & Ha0 & _) & _). destruct (wf_len ls Hwf). unfold acc_list in Ha0.
  destruct (decide (len ls = 0)) as [He|]; [rewrite He in Ha0; done|lia].
Qed.

(** One candidate. *)
Lemma cand_step c : cand_ok c -> exists e sc, bpf_core_spec_match ls (cand_btf c) (cand_id c) = Some (e, sc) /\
  (0 < e -> exists err rc, bpf_core_calc_relo kind ls (Some sc) = Some (err, rc)).
Proof.
  intros (n & Hc & Hca & Hcu & Hcb & Hid).
  destruct (spec_match_field_ok lb ln (cand_btf c) n ls root idxs (cand_id c)) as (e & sc & Hm & He & Hres); auto; [by rewrite Hrk|].
  exists e, sc. split; [done|]. intros Hpos. destruct (Hres ltac:(lia)) as (Hwf & Hin & Hlen & Hsb & _). pose proof local_len.
  destruct Hls as (Hlwf & _ & Hlin & Hlbt & _). apply (calc_relo_total kind lb ln); auto.
  intros ts [= <-]. exists (cand_btf c), n. split_and!; auto. lia.
Qed.

(** The invariant of the loop: the first [j] elements are the matching candidates among the
    first [i], which agree with the result, and the elements from [i] on are untouched. *)
Record cands_inv (cands arr : list bpf_core_cand) (i j : Z) (targ : option (bpf_core_relo_res * bpf_core_spec)) : Prop := {
  ci_idx : 0 <= j <= i;
  ci_len : length arr = length cands;
  ci_kept : take (Z.to_nat j) arr = List.filter (cand_matches ls) (take (Z.to_nat i) cands);
  ci_rest : drop (Z.to_nat i) arr = drop (Z.to_nat i) cands;
  ci_same : j = 0 -> arr = cands;
  ci_targ : targ_agrees kind ls targ (take (Z.to_nat j) arr)
}.

Lemma cands_inv_next (cands arr : list bpf_core_cand) i c : drop (Z.to_nat i) arr = drop (Z.to_nat i) cands -> 0 <= i -> zget arr i = Some c ->
  take (Z.to_nat (i + 1)) cands = take (Z.to_nat i) cands ++ [c] /\ drop (Z.to_nat (i + 1)) arr = drop (Z.to_nat (i + 1)) cands.
Proof.
  intros Hd Hi Hc. apply zget_Some in Hc as [_ Hc]. replace (Z.to_nat (i + 1)) with (S (Z.to_nat i)) by lia.
  assert (cands !! Z.to_nat i = Some c) as Hc'.
  { rewrite <- (Nat.add_0_r (Z.to_nat i)) in Hc |- *. rewrite <- lookup_drop in Hc |- *. by rewrite <- Hd. }
  split; [by apply take_S_r|]. rewrite (drop_S _ _ _ Hc), (drop_S _ _ _ Hc') in Hd. congruence.
Qed.

(** A candidate that does not match is skipped. *)
Lemma cands_inv_skip cands arr i j targ c : cands_inv cands arr i j targ -> zget arr i = Some c -> cand_matches ls c = false ->
  cands_inv cands arr (i + 1) j targ.
Proof.
  intros [Hij Hl Hkept Hrest Hsame Ht] Hc Hm. destruct (cands_inv_next cands arr i c Hrest ltac:(lia) Hc) as [Ht1 Hd1]. split; auto; [lia|].
  rewrite Ht1, List.filter_app. cbn [List.filter]. by rewrite Hm, app_nil_r.
Qed.

(** A matching candidate that agrees is kept. *)
Lemma cands_inv_keep cands arr arr' i j targ targ' c : cands_inv cands arr i j targ -> zget arr i = Some c -> cand_matches ls c = true ->
  zset arr j c = Some arr' -> targ_agrees kind ls targ' (take (Z.to_nat j) arr ++ [c]) -> cands_inv cands arr' (i + 1) (j + 1) targ'.
Proof.
  intros [Hij Hl Hkept Hrest Ht] Hc Hm Hs Ha. destruct (cands_inv_next cands arr i c Hrest ltac:(lia) Hc) as [Ht1 Hd1].
  pose proof (take_zset _ _ _ _ Hs) as Htk. split.
  - lia.
  - rewrite <- Hl. by eapply zset_length.
  - rewrite Htk, Hkept, Ht1, List.filter_app. cbn [List.filter]. by rewrite Hm.
  - rewrite <- Hd1. unfold zset in Hs. case_decide; [|done]. injection Hs as <-. apply drop_insert_lt. lia.
  - lia.
  - by rewrite Htk.
Qed.

Lemma cands_loop_spec cands k arr i j targ : Forall cand_ok cands -> i + Z.of_nat k <= Z.of_nat (length cands) -> cands_inv cands arr i j targ ->
  exists err arr' j' targ', cands_loop k kind ls arr i j targ = Some (err, arr', j', targ') /\
    (err = 0 -> cands_inv cands arr' (i + Z.of_nat k) j' targ').
Proof.
  intros Hall. revert arr i j targ. induction k as [|k IH]; intros arr i j targ Hik Hinv; cbn [cands_loop].
  { exists 0, arr, j, targ. split; [done|]. intros _. by replace (i + Z.of_nat 0) with i by lia. }
  pose proof Hinv as [Hij Hl Hkept Hrest Hsame Htarg].
  destruct (zget_is_Some arr i) as [c Hc]; [lia|]. rewrite Hc. cbn [mbind option_bind].
  assert (cand_ok c) as Hcok.
  { rewrite Forall_forall in Hall. apply Hall. apply list_elem_of_lookup. exists (Z.to_nat i).
    apply zget_Some in Hc as [_ Hc]. rewrite <- (Nat.add_0_r (Z.to_nat i)) in Hc |- *. rewrite <- lookup_drop in Hc |- *. by rewrite <- Hrest. }
  destruct (cand_step c Hcok) as (e & sc & Hm & Hcalc). rewrite Hm. cbn [mbind option_bind].
  assert (forall arr' j' targ', cands_inv cands arr' (i + 1) j' targ' -> exists err arr'' j'' targ'',
    cands_loop k kind ls arr' (i + 1) j' targ' = Some (err, arr'', j'', targ'') /\
    (err = 0 -> cands_inv cands arr'' (i + Z.of_nat (S k)) j'' targ'')) as Hnext.
  { intros arr' j' targ' Hi. destruct (IH arr' (i + 1) j' targ' ltac:(lia) Hi) as (err & a & b & d & He & Hr). exists err, a, b, d.
    split; [done|]. intros H0. replace (i + Z.of_nat (S k)) with (i + 1 + Z.of_nat k) by lia. auto. }
  destruct (Z.ltb_spec e 0); [exists e, arr, j, targ; split; [done|lia]|].
  destruct (Z.eqb_spec e 0) as [->|]; [apply Hnext; eapply cands_inv_skip; eauto; unfold cand_matches; by rewrite Hm|].
  destruct (Hcalc ltac:(lia)) as (err & rc & Hrc). rewrite Hrc. cbn [mbind option_bind].
  destruct (Z.eqb_spec err 0) as [->|Herr]; cbn [negb]; [|exists err, arr, j, targ; done].
  assert (cand_matches ls c = true) as Hcm by (unfold cand_matches; rewrite Hm; apply Z.ltb_lt; lia).
  destruct (zset_is_Some arr j c) as [arr' Hset]; [lia|].
  destruct (Z.eqb_spec j 0) as [->|Hj].
  - rewrite Hset. cbn [mbind option_bind]. apply Hnext. eapply cands_inv_keep; eauto. split; [done|]. constructor; [|done].
    exists e, sc, rc. split_and!; auto. lia.
  - destruct targ as [[tr ts]|]; [|exfalso; unfold targ_agrees in Htarg; apply (f_equal length) in Htarg; rewrite length_take in Htarg; simpl in Htarg; lia].
    cbn [mbind option_bind]. destruct (Z.eqb_spec (bit_offset sc) (bit_offset ts)) as [Hbo|]; cbn [negb]; [|by eexists _, _, _, _].
    destruct (negb (Bool.eqb (poison rc) (poison tr)) || negb (new_val rc =? new_val tr)) eqn:Hag; [by eexists _, _, _, _|].
    apply orb_false_iff in Hag as [Hp%negb_false_iff%Bool.eqb_prop Hn%negb_false_iff%Z.eqb_eq].
    rewrite Hset. cbn [mbind option_bind]. apply Hnext. eapply cands_inv_keep; eauto. destruct Htarg as [_ Htarg].
    split; [by destruct (take _ _)|]. apply Forall_app. split; [done|]. constructor; [|done]. exists e, sc, rc. split_and!; auto. lia.
Qed.
End Cands.

(** ** Properties *)

(** C16. Accessing a bitfield with the values its four relocations compute, for a field whose
    declared type has 1, 2, 4 or 8 bytes and that ends below bit 2^32 (an integer of 16 bytes
    is not handled, see [bitfield_wide_type], nor a type without a size).  A field that
    begins and ends in different 64-bit words fails every relocation with -E2BIG.  For any
    other one they describe an aligned load of at most 8 bytes, on which, in any memory that
    has those bytes, BPF_CORE_READ_BITFIELD returns exactly the bits of the field, zero- or
    sign-extended, and BPF_CORE_WRITE_BITFIELD replaces exactly those bits. *)
Theorem bitfield_access_correct spec bit_sz s out : bitfield_member spec bit_sz s -> 0 < bit_sz ->
  (s = 1 \/ s = 2 \/ s = 4 \/ s = 8) -> 0 <= bit_offset spec -> bit_offset spec + bit_sz < 2 ^ 32 ->
  let val kind v := exists o, bpf_core_calc_field_relo kind (Some spec) out = Some (0, o) /\ o_val o = v in
  (straddles (bit_offset spec) bit_sz -> forall kind, kind <> BPF_CORE_FIELD_EXISTS ->
    exists o, bpf_core_calc_field_relo kind (Some spec) out = Some (- E2BIG, o)) /\
  (~ straddles (bit_offset spec) bit_sz -> exists bo bs ls rs,
    val BPF_CORE_FIELD_BYTE_OFFSET bo /\ val BPF_CORE_FIELD_BYTE_SIZE bs /\
    val BPF_CORE_FIELD_LSHIFT_U64 ls /\ val BPF_CORE_FIELD_RSHIFT_U64 rs /\ bo mod bs = 0 /\ bs <= 8 /\
    forall mem, mem_ok mem -> bo + bs <= Z.of_nat (length mem) ->
      let f := field_bits mem (bit_offset spec) bit_sz in
      core_read_bitfield mem bo bs ls rs false = Some f /\
      core_read_bitfield mem bo bs ls rs true = Some (u64 (swrap bit_sz f)) /\
      forall nval, exists mem', core_write_bitfield mem bo bs ls rs nval = Some mem' /\ length mem' = length mem /\
        forall i, 0 <= i -> Z.testbit (le_value mem') i =
          if (bit_offset spec <=? i) && (i <? bit_offset spec + bit_sz)
          then Z.testbit nval (i - bit_offset spec) else Z.testbit (le_value mem) i).
Proof.
  intros Hm Hsz Hs Hoff Hlt val.
  destruct (calc_bitfield spec bit_sz s out Hm Hsz Hs Hoff Hlt) as [[Hstr H]|(bo & bs & Hcov & Ho & Hz & Hl & Hr)]; [done|].
  split; [intros Hstr; by destruct (covers_not_straddles _ _ _ _ Hsz Hcov)|]. intros _.
  exists bo, bs, (64 - (bit_offset spec + bit_sz - bo * 8)), (64 - bit_sz).
  split_and!; auto; [apply Hcov|destruct Hcov; lia|]. intros mem Hmem Hfit f. split_and!.
  - by apply read_unsigned.
  - by apply read_signed.
  - intros nval. destruct (write_field mem (bit_offset spec) bit_sz bo bs Hmem Hsz Hcov Hfit nval) as (mem' & Hw & _ & Hlen & Hbits). by exists mem'.
Qed.

(** C26. Patching an instruction (its fields and the new value in the range of their C types, its
    second half there if it is a 64-bit immediate load) changes at most the instruction and, only for a 64-bit immediate load, the one after
    it.  It succeeds exactly on the instructions that [patchable] describes (asked to poison;
    or with the expected operand, if it has to be validated, and of a supported form), and
    fails with -EINVAL or -ERANGE on the others.  On success the instruction, both halves of a
    64-bit immediate load, is the invalid call when poisoning was asked for or when it is a
    load or store that cannot be resized; otherwise, and only then, its operand is the new
    value (cut to a signed 32-bit immediate in arithmetic), the access size of a load or store
    is changed from the original to the new one, and nothing else of it changes. *)
Theorem patch_insn_correct prog idx insn res : zget prog idx = Some insn -> insn_ok insn -> 0 <= new_val res < 2 ^ 64 ->
  (is_ldimm64_insn insn = true -> exists insn1, zget prog (idx + 1) = Some insn1) ->
  patch_result prog idx insn res (bpf_core_patch_insn prog idx res).
Proof. intros. by apply patch_insn_result. Qed.


(** struct { void a : 5; } at bit 3. *)
Definition void_bitfield : bpf_core_spec :=
  Spec [BtfLayer [0; 0x84000001; 4; 0; 0; 0x05000003] [0] 1 1 0 [0] 1 8]
    [Acc 1 0 None; Acc 1 0 (Some [97])] 1 BPF_CORE_FIELD_BYTE_OFFSET 2 [0; 0] 2 3.

(** A bitfield whose declared type has size 0 makes the computation divide by zero:
    nothing checks the size before [bit_off / 8 / byte_sz]. *)
Theorem bitfield_size_zero :
  btf_sanity_check (spec_btf void_bitfield) = Some 0 /\
  bpf_core_calc_field_relo BPF_CORE_FIELD_BYTE_OFFSET (Some void_bitfield) (FieldOut 0 0 0 true) = None.
Proof. split; vm_compute; reflexivity. Qed.

(** A bitfield of [bsz] bits at bit [off] whose declared type is an integer of 16 bytes. *)
Definition wide_bitfield (bsz off : Z) : bpf_core_spec :=
  Spec [BtfLayer [0; 0x01000000; 16; 128; 0; 0x84000001; 16; 0; 1; bsz * 2 ^ 24 + off] [0; 16] 2 1 0 [0] 1 8]
    [Acc 2 0 None; Acc 2 0 (Some [97])] 2 BPF_CORE_FIELD_BYTE_OFFSET 2 [0; 0] 2 off.

(** The load of a bitfield starts from the size of its declared type, and only widening is
    limited to 8 bytes: with an integer of 16 bytes, which [btf__add_int] and the sanity check
    accept, a field in two 64-bit words is not refused with -E2BIG but gets a 16-byte load, and
    BPF_CORE_READ_BITFIELD, which has no such load, reads 0 from a field whose bits are set. *)
Theorem bitfield_wide_type :
  let relo spec kind := option_map (fun r => (fst r, o_val (snd r))) (bpf_core_calc_field_relo kind (Some spec) (FieldOut 0 0 0 true)) in
  btf_sanity_check (spec_btf (wide_bitfield 20 60)) = Some 0 /\ straddles 60 20 /\
  relo (wide_bitfield 20 60) BPF_CORE_FIELD_BYTE_SIZE = Some (0, 16) /\
  relo (wide_bitfield 3 1) BPF_CORE_FIELD_BYTE_OFFSET = Some (0, 0) /\ relo (wide_bitfield 3 1) BPF_CORE_FIELD_BYTE_SIZE = Some (0, 16) /\
  relo (wide_bitfield 3 1) BPF_CORE_FIELD_LSHIFT_U64 = Some (0, 60) /\ relo (wide_bitfield 3 1) BPF_CORE_FIELD_RSHIFT_U64 = Some (0, 61) /\
  core_read_bitfield (replicate 16 255) 0 16 60 61 false = Some 0 /\ field_bits (replicate 16 255) 1 3 = 7.
Proof. split_and!; vm_compute; try reflexivity. discriminate. Qed.

(** ** Witnesses *)

(** struct { int a : 5; } at bit 3 of its word. *)
Definition bitfield_demo : bpf_core_spec :=
  Spec [BtfLayer [0; 0x01000000; 4; 32; 0; 0x84000001; 4; 0; 1; 0x05000003] [0; 16] 2 1 0 [0] 1 8]
    [Acc 2 0 None; Acc 2 0 (Some [97])] 2 BPF_CORE_FIELD_BYTE_OFFSET 2 [0; 0] 2 3.

Lemma bitfield_access_correct_witness :
  let val kind v := exists o, bpf_core_calc_field_relo kind (Some bitfield_demo) (FieldOut 0 0 0 true) = Some (0, o) /\ o_val o = v in
  val BPF_CORE_FIELD_BYTE_SIZE 4 /\
  exists bo bs, val BPF_CORE_FIELD_BYTE_OFFSET bo /\ val BPF_CORE_FIELD_BYTE_SIZE bs.
Proof.
  split; [eexists; split; [vm_compute; reflexivity|reflexivity]|].
  destruct (bitfield_access_correct bitfield_demo 5 4 (FieldOut 0 0 0 true)) as [_ H].
  - exists (Acc 2 0 (Some [97])), [97]. eexists _, _, _, _. split_and!; vm_compute; reflexivity.
  - lia.
  - lia.
  - simpl. lia.
  - simpl. lia.
  - destruct H as (bo & bs & ls & rs & H1 & H2 & _); [intros H; apply H; reflexivity|].
    exists bo, bs. split; [exact H1|exact H2].
Defined.

Definition demo_prog : list bpf_insn := [Insn 0x61 1 2 4 0; Insn 0x95 0 0 0 0].
Definition demo_res : bpf_core_relo_res := Res 4 16 false true false 4 1 8 1.

Lemma patch_insn_correct_witness :
  patch_result demo_prog 0 (Insn 0x61 1 2 4 0) demo_res (bpf_core_patch_insn demo_prog 0 demo_res).
Proof.
  apply (patch_insn_correct demo_prog 0 (Insn 0x61 1 2 4 0) demo_res).
  - reflexivity.
  - split; simpl; lia.
  - simpl. lia.
  - intros H. discriminate H.
Defined.

Lemma core_demo_bitfields : bitfields_sized core_btf_demo.
Proof.
  intros id t i m bit_sz mt fid s Ht Hm Hb Hpos. exfalso. assert (btf_kflag t = Some false) as Hf.
  { cbn [btf_type_by_id core_btf_demo] in Ht. destruct (Z.eqb_spec id 0); [by simplify_eq|].
    destruct (Z.ltb_spec id (start_id core_layer)); [done|]. apply bind_Some in Ht as (o & Ho & Ht). apply (inj Some) in Ht. subst t.
    apply zget_lt in Ho as Hr. simpl in Hr.
    assert (id = 1 \/ id = 2 \/ id = 3) as [->|[->| ->]] by lia; vm_compute in Ho; injection Ho as <-; vm_compute; reflexivity. }
  unfold btf_member_bitfield_size in Hb. rewrite Hm in Hb. cbn [mbind option_bind] in Hb. rewrite Hf in Hb. cbn [mbind option_bind] in Hb.
  injection Hb as <-. lia.
Qed.

