(* ===== verification/ObjProg.v ===== *)
(** * Programs of a BPF object

    The part of src/libbpf/src/libbpf.c that turns the executable sections of an ELF file into
    programs and their ELF relocations into relocation descriptors: [bpf_object__init_prog],
    [bpf_object__add_programs], the conversion of byte order, the order of the programs and the
    search in it, [bpf_program__record_reloc] and [bpf_object__collect_prog_relos].

    What libelf provides is data: the symbols, the relocation entries, the bytes of a section,
    and the lookups of names (a NULL result is [None]).  A program is addressed by its index in
    [programs], as pointers into that array are compared by the code. *)
From stdpp Require Import base numbers list gmap sorting.
From S2P Require Import Prelude Btf CoreRelo.

Definition BPF_INSN_SZ := 8.
Definition BPF_OP (code : Z) : Z := code &' 0xf0.
Definition BPF_PSEUDO_MAP_FD := 1.
Definition BPF_PSEUDO_MAP_VALUE := 2.
Definition BPF_PSEUDO_BTF_ID := 3.
Definition BPF_PSEUDO_FUNC := 4.
Definition BPF_PSEUDO_MAP_IDX := 5.
Definition BPF_PSEUDO_MAP_IDX_VALUE := 6.
Definition BPF_PSEUDO_CALL := 1.
Definition BPF_PSEUDO_KFUNC_CALL := 2.

Definition LIBBPF_ERRNO__FORMAT := 4001.
Definition LIBBPF_ERRNO__RELOC := 4005.

(** ** Instructions *)

(** Bytes viewed as [struct bpf_insn] by a little-endian host. *)
Fixpoint insns_of (bytes : list Z) : list bpf_insn :=
  match bytes with
  | c :: r :: o0 :: o1 :: i0 :: i1 :: i2 :: i3 :: rest =>
    Insn c (r &' 0x0f) (r >>' 4) (s16 (le_value [o0; o1])) (s32 (le_value [i0; i1; i2; i3])) :: insns_of rest
  | _ => []
  end.

Definition set_imm (v : Z) (i : bpf_insn) : bpf_insn := Insn (code i) (dst_reg i) (src_reg i) (off i) v.
Definition set_off (v : Z) (i : bpf_insn) : bpf_insn := Insn (code i) (dst_reg i) (src_reg i) v (imm i).
Definition set_src_reg (v : Z) (i : bpf_insn) : bpf_insn := Insn (code i) (dst_reg i) v (off i) (imm i).

Definition insn_is_subprog_call (insn : bpf_insn) : bool :=
  (BPF_CLASS (code insn) =? BPF_JMP) && (BPF_OP (code insn) =? BPF_CALL) && (BPF_SRC (code insn) =? BPF_K) &&
  (src_reg insn =? BPF_PSEUDO_CALL) && (dst_reg insn =? 0) && (off insn =? 0).

Definition is_call_insn (insn : bpf_insn) : bool := code insn =? (BPF_JMP |' BPF_CALL).

Definition insn_is_pseudo_func (insn : bpf_insn) : bool := is_ldimm64_insn insn && (src_reg insn =? BPF_PSEUDO_FUNC).

Definition bpf_insn_bswap (insn : bpf_insn) : bpf_insn :=
  Insn (code insn) (src_reg insn) (dst_reg insn) (s16 (bswap_16 (u16 (off insn)))) (s32 (bswap_32 (u32 (imm insn)))).

(** ** Relocation descriptors *)
Inductive reloc_type := RELO_LD64 | RELO_CALL | RELO_DATA | RELO_EXTERN_LD64 | RELO_EXTERN_CALL | RELO_SUBPROG_ADDR | RELO_CORE.

#[global] Instance reloc_type_eq_dec : EqDecision reloc_type.
Proof. solve_decision. Defined.

(** The value of the enumerator, which the sort compares. *)
Definition reloc_type_val (t : reloc_type) : Z :=
  match t with
  | RELO_LD64 => 0 | RELO_CALL => 1 | RELO_DATA => 2 | RELO_EXTERN_LD64 => 3 | RELO_EXTERN_CALL => 4
  | RELO_SUBPROG_ADDR => 5 | RELO_CORE => 6
  end.

(** The member [core_relo] of the union is not read by the functions of this file. *)
Record reloc_desc := RelocDesc { r_type : reloc_type; insn_idx : Z; map_idx : Z; sym_off : Z; ext_idx : Z }.

#[global] Instance reloc_desc_eq_dec : EqDecision reloc_desc.
Proof. solve_decision. Defined.

(** ** Programs and objects *)

(** A record of .BTF.ext: its words, the first of them the instruction offset. *)
Abbreviation ext_rec := (list Z).

Record bpf_program := Prog {
  p_name : list Z;
  sec_name : list Z;
  sec_idx : Z;
  sec_insn_off : Z;
  sec_insn_cnt : Z;
  sub_insn_off : Z;
  insns : list bpf_insn;
  relos : list reloc_desc;
  autoload : bool;
  sym_global : bool;
  mark_btf_static : bool;
  exception_cb_idx : Z;
  func_info : option (list ext_rec);
  func_info_rec_size : Z;
  line_info : option (list ext_rec);
  line_info_rec_size : Z
}.

Definition insns_cnt (p : bpf_program) : Z := Z.of_nat (length (insns p)).
Definition nr_reloc (p : bpf_program) : Z := Z.of_nat (length (relos p)).

Inductive libbpf_map_type := LIBBPF_MAP_UNSPEC | LIBBPF_MAP_DATA | LIBBPF_MAP_BSS | LIBBPF_MAP_RODATA | LIBBPF_MAP_KCONFIG.
#[global] Instance libbpf_map_type_eq_dec : EqDecision libbpf_map_type.
Proof. solve_decision. Defined.

Inductive sec_type := SEC_UNUSED | SEC_RELO | SEC_BSS | SEC_DATA | SEC_RODATA | SEC_ST_OPS.
#[global] Instance sec_type_eq_dec : EqDecision sec_type.
Proof. solve_decision. Defined.

Record bpf_map := Map { map_fd : Z; map_sec_idx : Z; map_sec_offset : Z; libbpf_type : libbpf_map_type; autocreate : bool }.

Inductive extern_kind :=
  | EXT_KCFG (data_off : Z)
  | EXT_KSYM (addr : Z) (kernel_btf_obj_fd : Z) (kernel_btf_id : Z) (type_id : Z) (btf_fd_idx : Z).
Record extern_desc := Extern { ext_sym_idx : Z; is_set : bool; ext_kind : extern_kind }.

(** The records of one kind of .BTF.ext, by section: the index of the ELF section and the
    records. *)
Record btf_ext_info := ExtInfo { rec_size : Z; ext_secs : list (Z * list ext_rec) }.

Record Elf64_Sym := Sym { st_name : Z; st_info : Z; st_other : Z; st_shndx : Z; st_value : Z; st_size : Z }.
Record Elf64_Rel := Rel { r_offset : Z; r_info : Z }.

(** What the code reads of [struct elf_state] and of the ELF file. *)
Record elf_state := Elf {
  symbols : list Elf64_Sym;
  elf_sym_str : Z -> option (list Z);
  elf_sec_str : Z -> option (list Z);
  elf_sec_name : Z -> option (list Z);
  elf_sec_size : Z -> option Z;
  secs : list sec_type;
  btf_maps_shndx : Z;
  text_shndx : Z;
  symbols_shndx : Z;
  arena_data_shndx : Z
}.
Definition sec_cnt (e : elf_state) : Z := Z.of_nat (length (secs e)).

Record bpf_object := Obj {
  efile : elf_state;
  programs : list bpf_program;
  maps : list bpf_map;
  externs : list extern_desc;
  kconfig_map_idx : Z;
  arena_map_idx : Z;
  gen_loader : bool;
  obj_btf : option btf;
  obj_btf_ext : option (btf_ext_info * btf_ext_info);
  feat_btf_func : bool;
  feat_btf_decl_tag : bool
}.

Definition set_programs (ps : list bpf_program) (o : bpf_object) : bpf_object :=
  Obj (efile o) ps (maps o) (externs o) (kconfig_map_idx o) (arena_map_idx o) (gen_loader o) (obj_btf o) (obj_btf_ext o)
    (feat_btf_func o) (feat_btf_decl_tag o).

Definition ELF64_ST_BIND (info : Z) : Z := info >>' 4.
Definition ELF64_ST_TYPE (info : Z) : Z := info &' 0xf.
Definition ELF64_ST_VISIBILITY (other : Z) : Z := other &' 0x3.
Definition ELF64_R_SYM (info : Z) : Z := info >>' 32.
Definition STB_LOCAL := 0.
Definition STB_GLOBAL := 1.
Definition STB_WEAK := 2.
Definition STT_NOTYPE := 0.
Definition STT_FUNC := 2.
Definition STT_SECTION := 3.
Definition STV_INTERNAL := 1.
Definition STV_HIDDEN := 2.
Definition SHN_UNDEF := 0.
Definition SHN_LORESERVE := 0xff00.

Definition QMARK := 63.

(** ** Creating programs *)

(** [insn_data] is what the pointer of that name points to, up to the end of the section. *)
Definition bpf_object__init_prog (al : oracle) (name : list Z) (idx : Z) (sname : list Z) (sec_off : Z)
    (insn_data : list Z) (insn_data_sz : Z) : Z * option bpf_program :=
  if (insn_data_sz =? 0) || negb (insn_data_sz mod BPF_INSN_SZ =? 0) || negb (sec_off mod BPF_INSN_SZ =? 0)
  then (- EINVAL, None)
  else
    let '(auto, sname) := match sname with c :: rest => if c =? QMARK then (false, rest) else (true, sname) | [] => (true, sname) end in
    if negb (al [0]) then (- ENOMEM, None)
    else if negb (al [1]) then (- ENOMEM, None)
    else if negb (al [2]) then (- ENOMEM, None)
    else (0, Some (Prog name sname idx (sec_off / BPF_INSN_SZ) (insn_data_sz / BPF_INSN_SZ) 0
                     (insns_of (take (Z.to_nat insn_data_sz) insn_data)) [] auto false false (-1) None 0 None 0)).

Definition set_linkage (glob static : bool) (p : bpf_program) : bpf_program :=
  Prog (p_name p) (sec_name p) (sec_idx p) (sec_insn_off p) (sec_insn_cnt p) (sub_insn_off p) (insns p) (relos p) (autoload p)
    glob static (exception_cb_idx p) (func_info p) (func_info_rec_size p) (line_info p) (line_info_rec_size p).

(** The symbols from [i] on; [data] is the section [idx] with name [sname]. *)
Fixpoint add_programs_loop (al : oracle) (e : elf_state) (data : list Z) (sname : list Z) (idx : Z) (i : Z) (syms : list Elf64_Sym)
    (progs : list bpf_program) : Z * list bpf_program :=
  match syms with
  | [] => (0, progs)
  | sym :: syms =>
    let next := add_programs_loop al e data sname idx (i + 1) syms in
    if negb (st_shndx sym =? idx) then next progs
    else if negb (ELF64_ST_TYPE (st_info sym) =? STT_FUNC) then next progs
    else
      let prog_sz := st_size sym in
      let sec_off := st_value sym in
      match elf_sym_str e (st_name sym) with
      | None => (- LIBBPF_ERRNO__FORMAT, progs)
      | Some name =>
        if (u64 (sec_off + prog_sz) >? Z.of_nat (length data)) || (u64 (sec_off + prog_sz) <? sec_off)
        then (- LIBBPF_ERRNO__FORMAT, progs)
        else if negb (idx =? text_shndx e) && (ELF64_ST_BIND (st_info sym) =? STB_LOCAL) then (- ENOTSUP, progs)
        else if negb (al [i; 0]) then (- ENOMEM, progs)
        else
          match bpf_object__init_prog (sub i (sub 1 al)) name idx sname sec_off (drop (Z.to_nat sec_off) data) prog_sz with
          | (_, Some prog) =>
            let glob := negb (ELF64_ST_BIND (st_info sym) =? STB_LOCAL) in
            let vis := ELF64_ST_VISIBILITY (st_other sym) in
            next (progs ++ [set_linkage glob (glob && ((vis =? STV_HIDDEN) || (vis =? STV_INTERNAL))) prog])
          | (err, None) => (err, progs)
          end
      end
  end.

Definition bpf_object__add_programs (al : oracle) (o : bpf_object) (data : list Z) (sname : list Z) (idx : Z) : Z * bpf_object :=
  let '(err, progs) := add_programs_loop al (efile o) data sname idx 0 (symbols (efile o)) (programs o) in
  (err, set_programs progs o).

Definition set_insns (l : list bpf_insn) (p : bpf_program) : bpf_program :=
  Prog (p_name p) (sec_name p) (sec_idx p) (sec_insn_off p) (sec_insn_cnt p) (sub_insn_off p) l (relos p) (autoload p)
    (sym_global p) (mark_btf_static p) (exception_cb_idx p) (func_info p) (func_info_rec_size p) (line_info p) (line_info_rec_size p).

Definition bpf_object_bswap_progs (o : bpf_object) : bpf_object :=
  set_programs (map (fun p => set_insns (map bpf_insn_bswap (insns p)) p) (programs o)) o.

(** ** Order of the programs, and the search in it *)
Definition cmp_progs (a b : bpf_program) : Z :=
  if negb (sec_idx a =? sec_idx b) then (if sec_idx a <? sec_idx b then -1 else 1)
  else if sec_insn_off a <? sec_insn_off b then -1 else 1.

Definition prog_le (a b : bpf_program) : Prop :=
  sec_idx a < sec_idx b \/ sec_idx a = sec_idx b /\ sec_insn_off a <= sec_insn_off b.
#[global] Instance prog_le_dec a b : Decision (prog_le a b).
Proof. unfold prog_le. apply _. Defined.

(** [qsort] with [cmp_progs]. *)
Definition sort_programs (o : bpf_object) : bpf_object := set_programs (merge_sort prog_le (programs o)) o.

Definition prog_contains_insn (prog : bpf_program) (i : Z) : bool :=
  (i >=? sec_insn_off prog) && (i <? u64 (sec_insn_off prog + sec_insn_cnt prog)).

Fixpoint find_prog_loop (fuel : nat) (progs : list bpf_program) (idx i : Z) (l r : Z) : option Z :=
  match fuel with
  | O => None
  | S fuel =>
    if l <? r then
      let m := l + (r - l + 1) / 2 in
      prog ← zget progs m;
      if (sec_idx prog <? idx) || ((sec_idx prog =? idx) && (sec_insn_off prog <=? i))
      then find_prog_loop fuel progs idx i m r
      else find_prog_loop fuel progs idx i l (m - 1)
    else Some l
  end.

(** The result is the index of the program, or NULL. *)
Definition find_prog_by_sec_insn (o : bpf_object) (idx i : Z) : option (option Z) :=
  let progs := programs o in
  if decide (progs = []) then Some None
  else
    l ← find_prog_loop (S (length progs)) progs idx i 0 (Z.of_nat (length progs) - 1);
    prog ← zget progs l;
    Some (if (sec_idx prog =? idx) && prog_contains_insn prog i then Some l else None).

(** ** Relocation descriptors from ELF relocations *)
Definition sym_is_extern (sym : Elf64_Sym) : bool :=
  let bind := ELF64_ST_BIND (st_info sym) in
  (st_shndx sym =? SHN_UNDEF) && ((bind =? STB_GLOBAL) || (bind =? STB_WEAK)) && (ELF64_ST_TYPE (st_info sym) =? STT_NOTYPE).

Definition sym_is_subprog (sym : Elf64_Sym) (text : Z) : bool :=
  let bind := ELF64_ST_BIND (st_info sym) in
  let type := ELF64_ST_TYPE (st_info sym) in
  if negb (st_shndx sym =? text) then false
  else if (bind =? STB_LOCAL) && (type =? STT_SECTION) then true
  else ((bind =? STB_GLOBAL) || (bind =? STB_WEAK)) && (type =? STT_FUNC).

Definition bpf_object__shndx_is_data (e : elf_state) (shndx : Z) : option bool :=
  t ← zget (secs e) shndx;
  Some (match t with SEC_BSS | SEC_DATA | SEC_RODATA => true | _ => false end).

Definition bpf_object__shndx_is_maps (e : elf_state) (shndx : Z) : bool := shndx =? btf_maps_shndx e.

Definition bpf_object__section_to_libbpf_map_type (e : elf_state) (shndx : Z) : option libbpf_map_type :=
  if shndx =? symbols_shndx e then Some LIBBPF_MAP_KCONFIG
  else
    t ← zget (secs e) shndx;
    Some (match t with SEC_BSS => LIBBPF_MAP_BSS | SEC_DATA => LIBBPF_MAP_DATA | SEC_RODATA => LIBBPF_MAP_RODATA | _ => LIBBPF_MAP_UNSPEC end).

(** The index of the first element from [i] on that satisfies [f]. *)
Fixpoint find_idx {A} (f : A -> bool) (l : list A) (i : Z) : option Z :=
  match l with
  | [] => None
  | x :: l => if f x then Some i else find_idx f l (i + 1)
  end.

Definition set_relo (d : reloc_desc) (t : reloc_type) (i : Z) : reloc_desc := RelocDesc t i (map_idx d) (sym_off d) (ext_idx d).
Definition set_relo_sym (off : Z) (d : reloc_desc) : reloc_desc := RelocDesc (r_type d) (insn_idx d) (map_idx d) off (ext_idx d).
Definition set_relo_map (m : Z) (d : reloc_desc) : reloc_desc := RelocDesc (r_type d) (insn_idx d) m (sym_off d) (ext_idx d).
Definition set_relo_ext (e : Z) (d : reloc_desc) : reloc_desc := RelocDesc (r_type d) (insn_idx d) (map_idx d) (sym_off d) e.

(** [d] is the memory the descriptor is written to: members a branch does not set keep their
    old contents. *)
Definition bpf_program__record_reloc (o : bpf_object) (prog : bpf_program) (d : reloc_desc) (i : Z) (sym : Elf64_Sym) (rel : Elf64_Rel)
    : option (Z * reloc_desc) :=
  insn ← zget (insns prog) i;
  let e := efile o in
  let shdr_idx := st_shndx sym in
  if negb (is_call_insn insn) && negb (is_ldimm64_insn insn) then Some (- LIBBPF_ERRNO__RELOC, d)
  else if sym_is_extern sym then
    let sym_idx := s32 (ELF64_R_SYM (r_info rel)) in
    match find_idx (fun x => ext_sym_idx x =? sym_idx) (externs o) 0 with
    | None => Some (- LIBBPF_ERRNO__RELOC, d)
    | Some n =>
      Some (0, set_relo_ext n (set_relo d (if code insn =? (BPF_JMP |' BPF_CALL) then RELO_EXTERN_CALL else RELO_EXTERN_LD64) i))
    end
  else if is_call_insn insn then
    if negb (src_reg insn =? BPF_PSEUDO_CALL) then Some (- LIBBPF_ERRNO__RELOC, d)
    else if (shdr_idx =? 0) || negb (shdr_idx =? text_shndx e) then Some (- LIBBPF_ERRNO__RELOC, d)
    else if negb (st_value sym mod BPF_INSN_SZ =? 0) then Some (- LIBBPF_ERRNO__RELOC, d)
    else Some (0, set_relo_sym (s32 (st_value sym)) (set_relo d RELO_CALL i))
  else if (shdr_idx =? 0) || (shdr_idx >=? SHN_LORESERVE) then Some (- LIBBPF_ERRNO__RELOC, d)
  else if sym_is_subprog sym (text_shndx e) then
    if negb (st_value sym mod BPF_INSN_SZ =? 0) || negb (u64 (imm insn) mod BPF_INSN_SZ =? 0) then Some (- LIBBPF_ERRNO__RELOC, d)
    else Some (0, set_relo_sym (s32 (st_value sym)) (set_relo d RELO_SUBPROG_ADDR i))
  else
    type ← bpf_object__section_to_libbpf_map_type e shdr_idx;
    if shdr_idx =? arena_data_shndx e then
      if arena_map_idx o <? 0 then Some (- LIBBPF_ERRNO__RELOC, d)
      else Some (0, set_relo_sym (s32 (st_value sym)) (set_relo_map (arena_map_idx o) (set_relo d RELO_DATA i)))
    else if decide (type = LIBBPF_MAP_UNSPEC) then
      if negb (bpf_object__shndx_is_maps e shdr_idx) then Some (- LIBBPF_ERRNO__RELOC, d)
      else
        match find_idx (fun m => bool_decide (libbpf_type m = type) && (map_sec_idx m =? st_shndx sym) && (map_sec_offset m =? st_value sym))
                (maps o) 0 with
        | None => Some (- LIBBPF_ERRNO__RELOC, d)
        | Some m => Some (0, set_relo_sym 0 (set_relo_map m (set_relo d RELO_LD64 i)))
        end
    else
      data ← bpf_object__shndx_is_data e shdr_idx;
      if negb data then Some (- LIBBPF_ERRNO__RELOC, d)
      else
        match find_idx (fun m => bool_decide (libbpf_type m = type) && (map_sec_idx m =? st_shndx sym)) (maps o) 0 with
        | None => Some (- LIBBPF_ERRNO__RELOC, d)
        | Some m => Some (0, set_relo_sym (s32 (st_value sym)) (set_relo_map m (set_relo d RELO_DATA i)))
        end.

Definition set_relos (l : list reloc_desc) (p : bpf_program) : bpf_program :=
  Prog (p_name p) (sec_name p) (sec_idx p) (sec_insn_off p) (sec_insn_cnt p) (sub_insn_off p) (insns p) l (autoload p)
    (sym_global p) (mark_btf_static p) (exception_cb_idx p) (func_info p) (func_info_rec_size p) (line_info p) (line_info_rec_size p).

(** A relocation section: the fields of its header and the entries of its data. *)
Record rel_sec := RelSec { sh_name : Z; sh_info : Z; sh_size : Z; sh_entsize : Z; sh_rels : list Elf64_Rel }.

(** Entries [i], [i + 1], ..., [n] of them; [mem] gives the contents of fresh memory. *)
Fixpoint collect_relos_loop (n : nat) (al : oracle) (mem : Z -> reloc_desc) (idx d_size : Z) (rels : list Elf64_Rel) (i : Z) (o : bpf_object)
    : option (Z * bpf_object) :=
  match n with
  | O => Some (0, o)
  | S n =>
    let e := efile o in
    match zget rels i with
    | None => Some (- LIBBPF_ERRNO__FORMAT, o)
    | Some rel =>
      match zget (symbols e) (ELF64_R_SYM (r_info rel)) with
      | None => Some (- LIBBPF_ERRNO__FORMAT, o)
      | Some sym =>
        if st_shndx sym >=? sec_cnt e then Some (- LIBBPF_ERRNO__FORMAT, o)
        else if negb (r_offset rel mod BPF_INSN_SZ =? 0) || (r_offset rel >=? d_size) then Some (- LIBBPF_ERRNO__FORMAT, o)
        else
          let insn_idx := u32 (r_offset rel / BPF_INSN_SZ) in
          found ← find_prog_by_sec_insn o idx insn_idx;
          match found with
          | None => collect_relos_loop n al mem idx d_size rels (i + 1) o
          | Some p =>
            if negb (al [i]) then Some (- ENOMEM, o)
            else
              prog ← zget (programs o) p;
              '(err, d) ← bpf_program__record_reloc o prog (mem i) (u32 (insn_idx - sec_insn_off prog)) sym rel;
              if negb (err =? 0) then Some (err, o)
              else
                progs ← zset (programs o) p (set_relos (relos prog ++ [d]) prog);
                collect_relos_loop n al mem idx d_size rels (i + 1) (set_programs progs o)
          end
      end
    end
  end.

Definition bpf_object__collect_prog_relos (al : oracle) (mem : Z -> reloc_desc) (o : bpf_object) (s : rel_sec) : option (Z * bpf_object) :=
  let idx := sh_info s in
  let e := efile o in
  if idx >=? sec_cnt e then Some (- EINVAL, o)
  else
    match elf_sec_size e idx with
    | None => Some (- LIBBPF_ERRNO__FORMAT, o)
    | Some d_size =>
      match elf_sec_str e (sh_name s), elf_sec_name e idx with
      | Some _, Some _ =>
        if sh_entsize s =? 0 then None
        else collect_relos_loop (Z.to_nat (s32 (sh_size s / sh_entsize s))) al mem idx d_size (sh_rels s) 0 o
      | _, _ => Some (- EINVAL, o)
      end
    end.

Definition cmp_relocs (a b : reloc_desc) : Z :=
  if negb (insn_idx a =? insn_idx b) then (if insn_idx a <? insn_idx b then -1 else 1)
  else if negb (reloc_type_val (r_type a) =? reloc_type_val (r_type b)) then (if reloc_type_val (r_type a) <? reloc_type_val (r_type b) then -1 else 1)
  else 0.

Definition reloc_le (a b : reloc_desc) : Prop := cmp_relocs a b <= 0.
#[global] Instance reloc_le_dec a b : Decision (reloc_le a b).
Proof. unfold reloc_le. apply _. Defined.

(** [qsort] with [cmp_relocs] on every program. *)
Definition bpf_object__sort_relos (o : bpf_object) : bpf_object :=
  set_programs (map (fun p => set_relos (merge_sort reloc_le (relos p)) p) (programs o)) o.
