(* ===== verification/ObjLink.v ===== *)
(** * Linking the programs of a BPF object

    The part of src/libbpf/src/libbpf.c that makes a loadable program of an entry-point program
    and the subprograms it uses: [bpf_object__reloc_code] appends the code and the relocations
    of every subprogram that is called, directly or not, moves its function and line
    information along ([adjust_prog_btf_ext_info]), and points the call instructions at the
    copies; [bpf_object__relocate_data] then fills in maps, variables and kernel symbols.

    [main] and [prog] are indices of [programs], so that the entry-point program and the
    program in hand may be the same.  The recursion is bounded by fuel: a subprogram is marked
    (its [sub_insn_off] is not zero) before it is processed, so the number of programs is
    enough. *)
From stdpp Require Import base numbers list gmap sorting.
From S2P Require Import Prelude Btf CoreCompat CoreRelo ObjProg.

(** ** Updates *)
Definition set_sub_insn_off (v : Z) (p : bpf_program) : bpf_program :=
  Prog (p_name p) (sec_name p) (sec_idx p) (sec_insn_off p) (sec_insn_cnt p) v (insns p) (relos p) (autoload p)
    (sym_global p) (mark_btf_static p) (exception_cb_idx p) (func_info p) (func_info_rec_size p) (line_info p) (line_info_rec_size p).
Definition set_exception_cb_idx (v : Z) (p : bpf_program) : bpf_program :=
  Prog (p_name p) (sec_name p) (sec_idx p) (sec_insn_off p) (sec_insn_cnt p) (sub_insn_off p) (insns p) (relos p) (autoload p)
    (sym_global p) (mark_btf_static p) v (func_info p) (func_info_rec_size p) (line_info p) (line_info_rec_size p).
Definition set_infos (fi : option (list ext_rec)) (frs : Z) (li : option (list ext_rec)) (lrs : Z) (p : bpf_program) : bpf_program :=
  Prog (p_name p) (sec_name p) (sec_idx p) (sec_insn_off p) (sec_insn_cnt p) (sub_insn_off p) (insns p) (relos p) (autoload p)
    (sym_global p) (mark_btf_static p) (exception_cb_idx p) fi frs li lrs.

Definition update_prog (o : bpf_object) (i : Z) (f : bpf_program -> bpf_program) : option bpf_object :=
  p ← zget (programs o) i;
  ps ← zset (programs o) i (f p);
  Some (set_programs ps o).

(** ** Function and line information *)

(** [kernel_supports]: a generated loader assumes the latest kernel. *)
Definition kernel_supports (o : bpf_object) (feat : bool) : bool := gen_loader o || feat.

(** Indices of the first record to copy and of the one after the last. *)
Fixpoint copy_range (prog : bpf_program) (recs : list ext_rec) (i : Z) (copy_start : option Z) (copy_end : Z) : option (option Z * Z) :=
  match recs with
  | [] => Some (copy_start, copy_end)
  | rec :: recs =>
    w ← head rec;
    let insn_off := w / BPF_INSN_SZ in
    if insn_off <? sec_insn_off prog then copy_range prog recs (i + 1) copy_start copy_end
    else if insn_off >=? u64 (sec_insn_off prog + sec_insn_cnt prog) then Some (copy_start, copy_end)
    else copy_range prog recs (i + 1) (match copy_start with None => Some i | _ => copy_start end) (i + 1)
  end.

Definition adjust_rec (off_adj : Z) (rec : ext_rec) : ext_rec :=
  match rec with
  | w :: rest => u32 (w / BPF_INSN_SZ + off_adj) :: rest
  | [] => []
  end.

(** The result has the error, the new [*prog_info] and the new [*prog_rec_sz]. *)
Fixpoint adjust_secs (alloc : bool) (prog : bpf_program) (rs : Z) (l : list (Z * list ext_rec)) (prog_info : option (list ext_rec)) (prog_rec_sz : Z)
    : option (Z * option (list ext_rec) * Z) :=
  match l with
  | [] => Some (- ENOENT, prog_info, prog_rec_sz)
  | (idx, recs) :: l =>
    if negb (sec_idx prog =? idx) then adjust_secs alloc prog rs l prog_info prog_rec_sz
    else
      '(copy_start, copy_end) ← copy_range prog recs 0 None 0;
      match copy_start with
      | None => Some (- ENOENT, prog_info, prog_rec_sz)
      | Some start =>
        if negb alloc then Some (- ENOMEM, prog_info, prog_rec_sz)
        else
          let copied := take (Z.to_nat (copy_end - start)) (drop (Z.to_nat start) recs) in
          let off_adj := s32 (sub_insn_off prog - sec_insn_off prog) in
          Some (0, Some (default [] prog_info ++ map (adjust_rec off_adj) copied), rs)
      end
  end.

Definition adjust_prog_btf_ext_info (alloc : bool) (prog : bpf_program) (ei : btf_ext_info) (prog_info : option (list ext_rec)) (prog_rec_sz : Z)
    : option (Z * option (list ext_rec) * Z) :=
  adjust_secs alloc prog (rec_size ei) (ext_secs ei) prog_info prog_rec_sz.

(** One of the two halves of [reloc_prog_func_and_line_info]; an error that is to be ignored
    is 0. *)
Definition reloc_info (alloc : bool) (is_main : bool) (prog : bpf_program) (ei : btf_ext_info) (cur : option (list ext_rec)) (rs : Z)
    : option (Z * option (list ext_rec) * Z) :=
  if negb is_main && (match cur with None => true | _ => false end) then Some (0, cur, rs)
  else
    '(err, cur, rs) ← adjust_prog_btf_ext_info alloc prog ei cur rs;
    if err =? 0 then Some (0, cur, rs)
    else if negb (err =? - ENOENT) then Some (err, cur, rs)
    else match cur with Some _ => Some (err, cur, rs) | None => Some (0, cur, rs) end.

Definition reloc_prog_func_and_line_info (al : oracle) (o : bpf_object) (main prog : Z) : option (Z * bpf_object) :=
  match obj_btf_ext o with
  | None => Some (0, o)
  | Some (fi, li) =>
    if negb (kernel_supports o (feat_btf_func o)) then Some (0, o)
    else
      m ← zget (programs o) main;
      p ← zget (programs o) prog;
      '(err, finfo, frs) ← reloc_info (al [0]) (main =? prog) p fi (func_info m) (func_info_rec_size m);
      o ← update_prog o main (set_infos finfo frs (line_info m) (line_info_rec_size m));
      if negb (err =? 0) then Some (err, o)
      else
        '(err, linfo, lrs) ← reloc_info (al [1]) (main =? prog) p li (line_info m) (line_info_rec_size m);
        o ← update_prog o main (set_infos finfo frs linfo lrs);
        Some (err, o)
  end.

(** ** Searching the relocations of a program *)
Definition cmp_relo_by_insn_idx (key : Z) (relo : reloc_desc) : Z :=
  let i := u64 (insn_idx relo) in
  if key =? i then 0 else if key <? i then -1 else 1.

Definition find_prog_insn_relo (prog : bpf_program) (i : Z) : option (option reloc_desc) :=
  if nr_reloc prog =? 0 then Some None
  else bsearch (cmp_relo_by_insn_idx i) (relos prog).

(** ** Appending a subprogram *)
Definition shift_relo (by_ : Z) (d : reloc_desc) : reloc_desc :=
  RelocDesc (r_type d) (s32 (insn_idx d + by_)) (map_idx d) (sym_off d) (ext_idx d).

Definition append_subprog_relos (alloc : bool) (o : bpf_object) (main subprog : Z) : option (Z * bpf_object) :=
  m ← zget (programs o) main;
  s ← zget (programs o) subprog;
  if main =? subprog then Some (0, o)
  else if negb alloc && negb (nr_reloc m + nr_reloc s =? 0) then Some (- ENOMEM, o)
  else
    o ← update_prog o main (set_relos (relos m ++ map (shift_relo (sub_insn_off s)) (relos s)));
    Some (0, o).

(** When the program is appended to itself, the copy takes the new count from the object it has
    just written and runs over the end of the buffer. *)
Definition bpf_object__append_subprog_code (al : oracle) (o : bpf_object) (main subprog : Z) : option (Z * bpf_object) :=
  m ← zget (programs o) main;
  o ← update_prog o subprog (set_sub_insn_off (insns_cnt m));
  if negb (al [0]) then Some (- ENOMEM, o)
  else if main =? subprog then None
  else
    s ← zget (programs o) subprog;
    o ← update_prog o main (set_insns (insns m ++ insns s));
    append_subprog_relos (al [1]) o main subprog.

(** ** Relocating calls *)

(** What the code makes of a call or of the load of a function address. *)
Inductive call_target := CallSkip | CallErr (err : Z) | CallTo (sub_insn_idx : Z).

Definition find_call_target (prog : bpf_program) (i : Z) (insn : bpf_insn) (relo : option reloc_desc) : call_target :=
  match relo with
  | Some r =>
    match r_type r with
    | RELO_EXTERN_CALL => CallSkip
    | RELO_CALL => CallTo (u64 (u64 (sym_off r) / BPF_INSN_SZ + imm insn + 1))
    | RELO_SUBPROG_ADDR => CallTo (u64 (s32 (sym_off r + imm insn)) / BPF_INSN_SZ)
    | _ => CallErr (- LIBBPF_ERRNO__RELOC)
    end
  | None =>
    if insn_is_pseudo_func insn then CallErr (- LIBBPF_ERRNO__RELOC)
    else CallTo (u64 (sec_insn_off prog + i + imm insn + 1))
  end.

Definition prog_is_subprog (o : bpf_object) (p : bpf_program) : bool := sec_idx p =? text_shndx (efile o).

(** The instructions [i], [i + 1], ... of [prog], [n] of them; [reloc_code] is the recursive
    call. *)
Fixpoint reloc_insns (n : nat) (reloc_code : oracle -> bpf_object -> Z -> option (Z * bpf_object)) (al : oracle) (main prog : Z) (i : Z)
    (o : bpf_object) : option (Z * bpf_object) :=
  match n with
  | O => Some (0, o)
  | S n =>
    m ← zget (programs o) main;
    p ← zget (programs o) prog;
    insn ← zget (insns m) (sub_insn_off p + i);
    if negb (insn_is_subprog_call insn) && negb (insn_is_pseudo_func insn)
    then reloc_insns n reloc_code al main prog (i + 1) o
    else
      relo ← find_prog_insn_relo p i;
      match find_call_target p i insn relo with
      | CallSkip => reloc_insns n reloc_code al main prog (i + 1) o
      | CallErr err => Some (err, o)
      | CallTo sub_insn_idx =>
        found ← find_prog_by_sec_insn o (text_shndx (efile o)) sub_insn_idx;
        match found with
        | None => Some (- LIBBPF_ERRNO__RELOC, o)
        | Some subprog =>
          s ← zget (programs o) subprog;
          '(err, o) ←
            (if sub_insn_off s =? 0 then
               '(err, o) ← bpf_object__append_subprog_code (sub i (sub 0 al)) o main subprog;
               if negb (err =? 0) then Some (err, o)
               else reloc_code (sub i (sub 1 al)) o subprog
             else Some (0, o));
          if negb (err =? 0) then Some (err, o)
          else
            m ← zget (programs o) main;
            p ← zget (programs o) prog;
            s ← zget (programs o) subprog;
            insn ← zget (insns m) (sub_insn_off p + i);
            l ← zset (insns m) (sub_insn_off p + i) (set_imm (s32 (sub_insn_off s - (sub_insn_off p + i) - 1)) insn);
            o ← update_prog o main (set_insns l);
            reloc_insns n reloc_code al main prog (i + 1) o
        end
      end
  end.

Fixpoint bpf_object__reloc_code (fuel : nat) (al : oracle) (o : bpf_object) (main prog : Z) : option (Z * bpf_object) :=
  match fuel with
  | O => None
  | S fuel =>
    '(err, o) ← reloc_prog_func_and_line_info (sub (-1) al) o main prog;
    if negb (err =? 0) then Some (err, o)
    else
      p ← zget (programs o) prog;
      reloc_insns (Z.to_nat (sec_insn_cnt p)) (fun al o q => bpf_object__reloc_code fuel al o main q) al main prog 0 o
  end.

Definition reset_subprogs (o : bpf_object) : bpf_object :=
  set_programs (map (fun p => if prog_is_subprog o p then set_sub_insn_off 0 p else p) (programs o)) o.

Definition bpf_object__relocate_calls (al : oracle) (o : bpf_object) (prog : Z) : option (Z * bpf_object) :=
  bpf_object__reloc_code (S (length (programs o))) al (reset_subprogs o) prog prog.

(** ** Exception callbacks *)
Definition str_exception_callback : list Z :=
  [101; 120; 99; 101; 112; 116; 105; 111; 110; 95; 99; 97; 108; 108; 98; 97; 99; 107; 58].
Definition BTF_FUNC_GLOBAL := 1.

(** The subprograms from [j] on: the error and the new [exception_cb_idx]. *)
Fixpoint find_exc_cb (o : bpf_object) (name : list Z) (progs : list bpf_program) (j : Z) (cb : Z) : Z * Z :=
  match progs with
  | [] => (0, cb)
  | s :: progs =>
    if negb (prog_is_subprog o s) then find_exc_cb o name progs (j + 1) cb
    else if negb (bool_decide (name = p_name s)) then find_exc_cb o name progs (j + 1) cb
    else if negb (sym_global s) || mark_btf_static s then (- EINVAL, cb)
    else if cb >=? 0 then (- EINVAL, cb)
    else (0, j)
  end.

(** The types from [i] on, [n] of them. *)
Fixpoint assign_exc_loop (n : nat) (o : bpf_object) (b : btf) (pname : list Z) (i : Z) (cb : Z) : option (Z * Z) :=
  match n with
  | O => Some (0, cb)
  | S n =>
    let next := assign_exc_loop n o b pname (i + 1) in
    t ← btf_type_by_id b i;
    k ← btf_kind t;
    comp ← (if k =? BTF_KIND_DECL_TAG then w ← word t 3; Some (s32 w) else Some 0);
    if negb (k =? BTF_KIND_DECL_TAG) || negb (comp =? -1) then next cb
    else
      noff ← name_off t;
      name ← btf__str_by_offset b noff;
      name ← name;
      if negb (strn_eq name str_exception_callback (length str_exception_callback)) then next cb
      else
        id ← type t;
        f ← btf_type_by_id b id;
        fk ← btf_kind f;
        linkage ← btf_vlen f;
        if negb (fk =? BTF_KIND_FUNC) || negb (linkage =? BTF_FUNC_GLOBAL) then Some (- EINVAL, cb)
        else
          fnoff ← name_off f;
          fname ← btf__str_by_offset b fnoff;
          fname ← fname;
          if negb (bool_decide (pname = fname)) then next cb
          else if cb >=? 0 then Some (0, -1)
          else
            let name := drop (length str_exception_callback) name in
            if bool_decide (name = []) then Some (- EINVAL, cb)
            else
              let '(err, cb) := find_exc_cb o name (programs o) 0 cb in
              if negb (err =? 0) then Some (err, cb)
              else if cb >=? 0 then next cb
              else Some (- ENOENT, cb)
  end.

Definition bpf_prog_assign_exc_cb (o : bpf_object) (prog : Z) : option (Z * bpf_object) :=
  match obj_btf o with
  | None => Some (0, o)
  | Some b =>
    if negb (kernel_supports o (feat_btf_decl_tag o)) then Some (0, o)
    else
      n ← btf__type_cnt b;
      p ← zget (programs o) prog;
      '(err, cb) ← assign_exc_loop (Z.to_nat (n - 1)) o b (p_name p) 1 (exception_cb_idx p);
      o ← update_prog o prog (set_exception_cb_idx cb);
      Some (err, o)
  end.

(** ** Relocating data references *)
Definition POISON_LDIMM64_MAP_BASE := 2001000000.
Definition POISON_CALL_KFUNC_BASE := 2002000000.

Definition update_insn (l : list bpf_insn) (i : Z) (f : bpf_insn -> bpf_insn) : option (list bpf_insn) :=
  insn ← zget l i;
  zset l i (f insn).

Definition poison_map_ldimm64 (l : list bpf_insn) (i map_idx : Z) : option (list bpf_insn) :=
  let bad := Insn (BPF_JMP |' BPF_CALL) 0 0 0 (s32 (POISON_LDIMM64_MAP_BASE + map_idx)) in
  l ← update_insn l i (fun _ => bad);
  update_insn l (i + 1) (fun _ => bad).

Definition poison_kfunc_call (l : list bpf_insn) (i ext_idx : Z) : option (list bpf_insn) :=
  update_insn l i (fun _ => Insn (BPF_JMP |' BPF_CALL) 0 0 0 (s32 (POISON_CALL_KFUNC_BASE + ext_idx))).

Definition relocate_data_one (o : bpf_object) (l : list bpf_insn) (relo : reloc_desc) : option (Z * list bpf_insn) :=
  let i := insn_idx relo in
  match r_type relo with
  | RELO_LD64 =>
    l ← (if gen_loader o then update_insn l i (fun x => set_imm (map_idx relo) (set_src_reg BPF_PSEUDO_MAP_IDX x))
         else
           m ← zget (maps o) (map_idx relo);
           if autocreate m then update_insn l i (fun x => set_imm (map_fd m) (set_src_reg BPF_PSEUDO_MAP_FD x))
           else poison_map_ldimm64 l i (map_idx relo));
    Some (0, l)
  | RELO_DATA =>
    insn ← zget l i;
    l ← update_insn l (i + 1) (set_imm (s32 (imm insn + sym_off relo)));
    l ← (if gen_loader o then update_insn l i (fun x => set_imm (map_idx relo) (set_src_reg BPF_PSEUDO_MAP_IDX_VALUE x))
         else
           m ← zget (maps o) (map_idx relo);
           if autocreate m then update_insn l i (fun x => set_imm (map_fd m) (set_src_reg BPF_PSEUDO_MAP_VALUE x))
           else poison_map_ldimm64 l i (map_idx relo));
    Some (0, l)
  | RELO_EXTERN_LD64 =>
    ext ← zget (externs o) (ext_idx relo);
    match ext_kind ext with
    | EXT_KCFG data_off =>
      l ← (if gen_loader o then update_insn l i (fun x => set_imm (kconfig_map_idx o) (set_src_reg BPF_PSEUDO_MAP_IDX_VALUE x))
           else
             m ← zget (maps o) (kconfig_map_idx o);
             update_insn l i (fun x => set_imm (map_fd m) (set_src_reg BPF_PSEUDO_MAP_VALUE x)));
      l ← update_insn l (i + 1) (set_imm data_off);
      Some (0, l)
    | EXT_KSYM addr obj_fd btf_id type_id _ =>
      if negb (type_id =? 0) && is_set ext then
        l ← update_insn l i (fun x => set_imm btf_id (set_src_reg BPF_PSEUDO_BTF_ID x));
        l ← update_insn l (i + 1) (set_imm obj_fd);
        Some (0, l)
      else
        l ← update_insn l i (set_imm (s32 (u32 addr)));
        l ← update_insn l (i + 1) (set_imm (s32 (addr >>' 32)));
        Some (0, l)
    end
  | RELO_EXTERN_CALL =>
    ext ← zget (externs o) (ext_idx relo);
    l ← update_insn l i (set_src_reg BPF_PSEUDO_KFUNC_CALL);
    l ← (if is_set ext then
           match ext_kind ext with
           | EXT_KSYM _ _ btf_id _ fd_idx => update_insn l i (fun x => set_off fd_idx (set_imm btf_id x))
           | EXT_KCFG _ => None
           end
         else poison_kfunc_call l i (ext_idx relo));
    Some (0, l)
  | RELO_SUBPROG_ADDR =>
    insn ← zget l i;
    Some (if src_reg insn =? BPF_PSEUDO_FUNC then 0 else - EINVAL, l)
  | RELO_CALL => Some (0, l)
  | RELO_CORE => Some (0, l)
  end.

Fixpoint relocate_data_loop (o : bpf_object) (l : list bpf_insn) (rs : list reloc_desc) : option (Z * list bpf_insn) :=
  match rs with
  | [] => Some (0, l)
  | r :: rs =>
    '(err, l) ← relocate_data_one o l r;
    if negb (err =? 0) then Some (err, l) else relocate_data_loop o l rs
  end.

Definition bpf_object__relocate_data (o : bpf_object) (prog : Z) : option (Z * bpf_object) :=
  p ← zget (programs o) prog;
  '(err, l) ← relocate_data_loop o (insns p) (relos p);
  o ← update_prog o prog (set_insns l);
  Some (err, o).

(** ** The passes of [bpf_object__relocate] *)

(** Marking the loads of function addresses. *)
Fixpoint mark_subprog_addrs (l : list bpf_insn) (rs : list reloc_desc) : option (list bpf_insn) :=
  match rs with
  | [] => Some l
  | r :: rs =>
    l ← (if decide (r_type r = RELO_SUBPROG_ADDR) then update_insn l (insn_idx r) (set_src_reg BPF_PSEUDO_FUNC) else Some l);
    mark_subprog_addrs l rs
  end.

Definition mark_progs (o : bpf_object) : option bpf_object :=
  ps ← mapM (fun p => l ← mark_subprog_addrs (insns p) (relos p); Some (set_insns l p)) (programs o);
  Some (set_programs ps o).

(** Programs [i], [i + 1], ..., [n] of them: the calls, then the exception callback. *)
Fixpoint relocate_calls_pass (n : nat) (al : oracle) (i : Z) (o : bpf_object) : option (Z * bpf_object) :=
  match n with
  | O => Some (0, o)
  | S n =>
    p ← zget (programs o) i;
    if prog_is_subprog o p || negb (autoload p) then relocate_calls_pass n al (i + 1) o
    else
      '(err, o) ← bpf_object__relocate_calls (sub i (sub 0 al)) o i;
      if negb (err =? 0) then Some (err, o)
      else
        '(err, o) ← bpf_prog_assign_exc_cb o i;
        if negb (err =? 0) then Some (err, o)
        else
          p ← zget (programs o) i;
          if exception_cb_idx p >=? 0 then
            s ← zget (programs o) (exception_cb_idx p);
            if sub_insn_off s =? 0 then
              '(err, o) ← bpf_object__append_subprog_code (sub i (sub 1 al)) o i (exception_cb_idx p);
              if negb (err =? 0) then Some (err, o)
              else
                '(err, o) ← bpf_object__reloc_code (S (length (programs o))) (sub i (sub 2 al)) o i (exception_cb_idx p);
                if negb (err =? 0) then Some (err, o) else relocate_calls_pass n al (i + 1) o
            else relocate_calls_pass n al (i + 1) o
          else relocate_calls_pass n al (i + 1) o
  end.
