(* ===== verification/ObjLinkSpec.v ===== *)
(** * Correctness of program linking

    The result of [bpf_object__relocate_calls] is described without the algorithm: a program
    calls another when one of its call instructions (or loads of a function address) leads
    into it, the linked image is a sequence of the programs that can be reached, every one of
    them once, and each instruction of the image is the original one, with a displacement that
    leads to the start of the copy of the called program. *)
From stdpp Require Import base numbers list gmap sorting relations.
From S2P Require Import Prelude Btf CoreCompat CoreRelo ObjProg ObjLink.

(** ** Searching *)
Lemma find_idx_Some {A} (f : A -> bool) l i k : find_idx f l i = Some k ->
  i <= k /\ exists x, zget l (k - i) = Some x /\ f x = true /\ forall j y, zget l j = Some y -> j < k - i -> f y = false.
Proof.
  revert i. induction l as [|a l IH]; intros i; cbn [find_idx]; [done|]. destruct (f a) eqn:Ha.
  - intros [= ->]. split; [lia|]. exists a. rewrite Z.sub_diag. split_and!; [done|done|]. intros j y Hj%zget_lt ?. lia.
  - intros (Hk & x & Hx & Hf & Hfirst)%IH. split; [lia|]. apply zget_Some in Hx as [? Hx]. exists x. split_and!; [|done|].
    + apply zget_Some. split; [lia|]. by replace (Z.to_nat (k - i)) with (S (Z.to_nat (k - (i + 1)))) by lia.
    + intros j y [Hj0 Hj]%zget_Some Hlt. destruct (Z.to_nat j) as [|j'] eqn:Ej; [by simplify_eq/=|].
      apply (Hfirst (j - 1)); [|lia]. apply zget_Some. split; [lia|]. by replace (Z.to_nat (j - 1)) with j' by lia.
Qed.

Lemma find_idx_None {A} (f : A -> bool) l i : find_idx f l i = None -> forall x, x ∈ l -> f x = false.
Proof.
  revert i. induction l as [|a l IH]; intros i; cbn [find_idx]; [intros _ x Hx; by apply elem_of_nil in Hx|].
  destruct (f a) eqn:Ha; [done|]. intros H x [->|Hx]%elem_of_cons; [done|]. by eapply IH.
Qed.

Lemma find_idx_unique {A} (f : A -> bool) l k x : zget l k = Some x -> f x = true ->
  (forall j y, zget l j = Some y -> f y = true -> j = k) -> find_idx f l 0 = Some k.
Proof.
  intros Hx Hf Hu. destruct (find_idx f l 0) as [k'|] eqn:E.
  - apply find_idx_Some in E as (_ & y & Hy & Hfy & _). rewrite Z.sub_0_r in Hy. f_equal. eauto.
  - rewrite (find_idx_None f l 0 E x) in Hf; [done|]. apply elem_of_zget. eauto.
Qed.

Lemma find_idx_absent {A} (f : A -> bool) l : (forall j y, zget l j = Some y -> f y = false) -> find_idx f l 0 = None.
Proof.
  intros H. destruct (find_idx f l 0) as [k|] eqn:E; [|done].
  apply find_idx_Some in E as (_ & y & Hy & Hfy & _). by rewrite (H _ _ Hy) in Hfy.
Qed.

(** Programs are placed one after the other in their sections. *)
Definition before (a b : bpf_program) : Prop :=
  sec_idx a < sec_idx b \/ sec_idx a = sec_idx b /\ sec_insn_off a + sec_insn_cnt a <= sec_insn_off b.

Record in_section (p : bpf_program) : Prop := {
  is_idx : 0 <= sec_idx p;
  is_off : 0 <= sec_insn_off p;
  is_cnt : 0 < sec_insn_cnt p;
  is_end : sec_insn_off p + sec_insn_cnt p < 2 ^ 31
}.

Definition placed (ps : list bpf_program) : Prop :=
  Forall in_section ps /\ forall i j a b, i < j -> zget ps i = Some a -> zget ps j = Some b -> before a b.

(** The program holds instruction [t] of section [idx]. *)
Definition covers (idx t : Z) (p : bpf_program) : bool :=
  (sec_idx p =? idx) && (sec_insn_off p <=? t) && (t <? sec_insn_off p + sec_insn_cnt p).

Definition not_after (idx t : Z) (p : bpf_program) : bool :=
  (sec_idx p <? idx) || ((sec_idx p =? idx) && (sec_insn_off p <=? t)).

Lemma placed_at ps i p : placed ps -> zget ps i = Some p -> in_section p.
Proof. intros [H _] Hp. rewrite Forall_forall in H. apply H, elem_of_zget. eauto. Qed.

Lemma covers_spec idx t p : covers idx t p = true <-> sec_idx p = idx /\ sec_insn_off p <= t < sec_insn_off p + sec_insn_cnt p.
Proof. unfold covers. rewrite !andb_true_iff, Z.eqb_eq, Z.leb_le, Z.ltb_lt. split; intros; lia. Qed.

Lemma not_after_spec idx t p : not_after idx t p = true <-> sec_idx p < idx \/ sec_idx p = idx /\ sec_insn_off p <= t.
Proof. unfold not_after. by rewrite orb_true_iff, andb_true_iff, Z.eqb_eq, Z.leb_le, Z.ltb_lt. Qed.

Lemma find_prog_loop_spec ps idx t fuel l r : placed ps -> 0 <= l <= r -> r < Z.of_nat (length ps) -> r - l < Z.of_nat fuel ->
  (forall p, zget ps l = Some p -> 0 < l -> not_after idx t p = true) ->
  (forall j p, zget ps j = Some p -> r < j -> not_after idx t p = false) ->
  exists k, find_prog_loop fuel ps idx t l r = Some k /\ 0 <= k < Z.of_nat (length ps) /\
    (forall p, zget ps k = Some p -> 0 < k -> not_after idx t p = true) /\
    (forall j p, zget ps j = Some p -> k < j -> not_after idx t p = false).
Proof.
  intros Hp. revert l r. induction fuel as [|fuel IH]; intros l r Hlr Hr Hf Hlo Hhi; [lia|]. cbn [find_prog_loop].
  destruct (Z.ltb_spec l r); [|exists l; replace l with r in * by lia; split_and!; auto; lia].
  assert (l < l + (r - l + 1) / 2 <= r) as Hm by (Z.div_mod_to_equations; lia).
  destruct (zget_is_Some ps (l + (r - l + 1) / 2)) as [p Hpm]; [lia|]. rewrite Hpm. cbn [mbind option_bind].
  change ((sec_idx p <? idx) || ((sec_idx p =? idx) && (sec_insn_off p <=? t))) with (not_after idx t p).
  destruct (not_after idx t p) eqn:Hna.
  - apply IH; try lia; [|done]. intros q Hq _. by simplify_eq.
  - apply IH; try lia; [done|]. intros j q Hq Hj. destruct (decide (j = l + (r - l + 1) / 2)) as [->|]; [by simplify_eq|].
    pose proof (proj2 Hp (l + (r - l + 1) / 2) j p q ltac:(lia) Hpm Hq) as Hb. pose proof (is_cnt _ (placed_at _ _ _ Hp Hpm)).
    apply not_true_iff_false in Hna. apply not_true_iff_false. rewrite not_after_spec in *. unfold before in Hb. lia.
Qed.

Lemma prog_contains_covers p t : in_section p -> prog_contains_insn p t = (sec_insn_off p <=? t) && (t <? sec_insn_off p + sec_insn_cnt p).
Proof.
  intros [? ? ? ?]. unfold prog_contains_insn. rewrite Z.geb_leb, wrap_small by lia. done.
Qed.

Lemma find_prog_spec o idx t : placed (programs o) ->
  find_prog_by_sec_insn o idx t = Some (find_idx (covers idx t) (programs o) 0).
Proof.
  intros Hp. unfold find_prog_by_sec_insn. destruct (decide (programs o = [])) as [->|Hne]; [done|].
  set (ps := programs o) in *. assert (0 < Z.of_nat (length ps)) by (destruct ps; [done|simpl; lia]).
  destruct (find_prog_loop_spec ps idx t (S (length ps)) 0 (Z.of_nat (length ps) - 1) Hp) as (k & -> & Hk & Hlo & Hhi); try lia.
  { intros j p Hj%zget_lt ?. lia. }
  cbn [mbind option_bind]. destruct (zget_is_Some ps k) as [p Hpk]; [lia|]. rewrite Hpk. cbn [mbind option_bind]. f_equal.
  rewrite prog_contains_covers, andb_assoc by (by eapply placed_at). change ((sec_idx p =? idx) && _ && _) with (covers idx t p).
  assert (forall j q, zget ps j = Some q -> covers idx t q = true -> j = k) as Huniq.
  { intros j q Hq Hc%covers_spec. destruct (Z.lt_trichotomy j k) as [Hlt|[?|Hgt]]; [|done|].
    - apply zget_lt in Hq as Hj. pose proof (Hlo p Hpk ltac:(lia)) as Hna. apply not_after_spec in Hna.
      pose proof (proj2 Hp j k q p Hlt Hq Hpk) as Hb. unfold before in Hb. lia.
    - pose proof (Hhi j q Hq Hgt) as Hna. apply not_true_iff_false in Hna. rewrite not_after_spec in Hna. lia. }
  destruct (covers idx t p) eqn:Hc; [symmetry; by eapply find_idx_unique|]. symmetry. apply find_idx_absent. intros j q Hq.
  destruct (covers idx t q) eqn:Hcq; [|done]. pose proof (Huniq j q Hq Hcq) as ->. congruence.
Qed.

(** ** Relocations of a program *)
Definition relos_sorted (n : Z) (l : list reloc_desc) : Prop :=
  (forall r, r ∈ l -> 0 <= insn_idx r < n) /\
  forall i j a b, i < j -> zget l i = Some a -> zget l j = Some b -> insn_idx a < insn_idx b.

Definition relo_at (l : list reloc_desc) (i : Z) : option reloc_desc := head (filter (fun r => insn_idx r = i) l).

Lemma relo_at_Some l i r : relo_at l i = Some r -> r ∈ l /\ insn_idx r = i.
Proof.
  unfold relo_at. intros H. destruct (filter _ l) as [|a l'] eqn:E; [done|]. simplify_eq/=.
  assert (r ∈ filter (fun r => insn_idx r = i) l) as Hin by (rewrite E; left). by apply list_elem_of_filter in Hin as [? ?].
Qed.

Lemma relo_at_None l i : relo_at l i = None -> forall r, r ∈ l -> insn_idx r <> i.
Proof.
  unfold relo_at. intros H r Hr Hi. destruct (filter _ l) as [|a l'] eqn:E; [|done].
  assert (r ∈ filter (fun r => insn_idx r = i) l) as Hin by (by apply list_elem_of_filter). rewrite E in Hin. by apply elem_of_nil in Hin.
Qed.

Lemma sorted_same n l i j a b : relos_sorted n l -> zget l i = Some a -> zget l j = Some b -> insn_idx a = insn_idx b -> a = b.
Proof.
  intros [_ Hs] Ha Hb He. destruct (Z.lt_trichotomy i j) as [Hlt|[->|Hgt]]; [|by simplify_eq|].
  - pose proof (Hs _ _ _ _ Hlt Ha Hb). lia.
  - pose proof (Hs _ _ _ _ Hgt Hb Ha). lia.
Qed.

Lemma relo_at_unique n l i r : relos_sorted n l -> r ∈ l -> insn_idx r = i -> relo_at l i = Some r.
Proof.
  intros Hs Hr Hi. destruct (relo_at l i) as [r'|] eqn:E.
  - apply relo_at_Some in E as [Hr' Hi']. apply elem_of_zget in Hr as [j Hj], Hr' as [j' Hj'].
    f_equal. apply (sorted_same n l j' j r' r); [done..|congruence].
  - by destruct (relo_at_None l i E r Hr).
Qed.

Lemma cmp_relo_spec n l key : n <= 2 ^ 31 -> relos_sorted n l -> forall r, r ∈ l ->
  cmp_relo_by_insn_idx key r = if key =? insn_idx r then 0 else if key <? insn_idx r then -1 else 1.
Proof. intros Hn [Hr _] r Hin. unfold cmp_relo_by_insn_idx. rewrite wrap_small; [done|]. specialize (Hr r Hin). lia. Qed.

Lemma find_relo_spec n p i : n <= 2 ^ 31 -> relos_sorted n (relos p) -> find_prog_insn_relo p i = Some (relo_at (relos p) i).
Proof.
  intros Hn Hs. unfold find_prog_insn_relo, nr_reloc. destruct (Z.eqb_spec (Z.of_nat (length (relos p))) 0) as [Hz|_].
  { by destruct (relos p); [|simpl in Hz; lia]. }
  pose proof (cmp_relo_spec n (relos p) i Hn Hs) as Hcmp.
  destruct (bsearch_spec (cmp_relo_by_insn_idx i) (relos p)) as (r & -> & Hr).
  { intros j k x y Hjk Hx Hy. pose proof (proj2 Hs _ _ _ _ Hjk Hx Hy).
    rewrite (Hcmp x), (Hcmp y) by (apply elem_of_zget; eexists; eassumption). repeat bcase; lia. }
  f_equal. destruct r as [r|]; symmetry.
  - destruct Hr as [Hin Hc]. rewrite Hcmp in Hc by done. apply (relo_at_unique n); [done..|]. revert Hc. repeat bcase; lia.
  - destruct (relo_at (relos p) i) as [r|] eqn:E; [|done]. apply relo_at_Some in E as [Hin Hi].
    specialize (Hr r Hin). rewrite Hcmp in Hr by done. by rewrite Hi, Z.eqb_refl in Hr.
Qed.

(** ** What is to be linked *)
Definition fresh (p : bpf_program) : Prop := insns_cnt p = sec_insn_cnt p /\ relos_sorted (sec_insn_cnt p) (relos p).

Definition recs_ok (ei : btf_ext_info) : Prop := Forall (fun s => Forall (fun r : ext_rec => r <> []) s.2) (ext_secs ei).

(** The number of instructions of a program, and of a list of programs. *)
Definition cnt (o : bpf_object) (q : Z) : Z := default 0 (sec_insn_cnt <$> zget (programs o) q).
Definition total (o : bpf_object) (L : list Z) : Z := foldr (fun q s => cnt o q + s) 0 L.
Definition all_progs (o : bpf_object) : list Z := map Z.of_nat (seq 0 (length (programs o))).

(** An entry-point program [m] of [o] that has not been linked. *)
Record linkable (o : bpf_object) (m : Z) : Prop := {
  lk_placed : placed (programs o);
  lk_main : exists M, zget (programs o) m = Some M /\ prog_is_subprog o M = false /\ fresh M /\ sub_insn_off M = 0 /\
    func_info M = None /\ line_info M = None;
  lk_subs : forall q Q, zget (programs o) q = Some Q -> prog_is_subprog o Q = true -> fresh Q;
  lk_size : total o (all_progs o) < 2 ^ 31;
  lk_ext : forall fi li, obj_btf_ext o = Some (fi, li) -> recs_ok fi /\ recs_ok li
}.

(** What instruction [i] of a program asks for. *)
Definition call_of (p : bpf_program) (i : Z) : option call_target :=
  insn ← zget (insns p) i;
  if insn_is_subprog_call insn || insn_is_pseudo_func insn then Some (find_call_target p i insn (relo_at (relos p) i)) else None.

Definition sub_at (o : bpf_object) (t : Z) : option Z := find_idx (covers (text_shndx (efile o)) t) (programs o) 0.

(** The subprogram that instruction [i] of program [p] leads to. *)
Definition callee (o : bpf_object) (p i : Z) : option Z :=
  P ← zget (programs o) p;
  match call_of P i with
  | Some (CallTo t) => sub_at o t
  | _ => None
  end.

Definition unresolved (o : bpf_object) (p i : Z) : Prop :=
  exists P, zget (programs o) p = Some P /\
    match call_of P i with
    | Some (CallErr _) => True
    | Some (CallTo t) => sub_at o t = None
    | _ => False
    end.

Definition calls (o : bpf_object) (p q : Z) : Prop := exists i, callee o p i = Some q.
Definition reachable (o : bpf_object) : Z -> Z -> Prop := rtc (calls o).

(** ** Layouts: the programs of an image in order *)
Fixpoint offset (o : bpf_object) (L : list Z) (q : Z) : option Z :=
  match L with
  | [] => None
  | p :: L => if p =? q then Some 0 else Z.add (cnt o p) <$> offset o L q
  end.

Section layout.
Context (o : bpf_object) (Hp : placed (programs o)).

Lemma cnt_at q Q : zget (programs o) q = Some Q -> cnt o q = sec_insn_cnt Q.
Proof. intros H. unfold cnt. by rewrite H. Qed.

Lemma cnt_nonneg q : 0 <= cnt o q.
Proof.
  unfold cnt. destruct (zget (programs o) q) as [Q|] eqn:E; [|done]. simpl. pose proof (is_cnt _ (placed_at _ _ _ Hp E)). lia.
Qed.

Lemma total_nonneg L : 0 <= total o L.
Proof. induction L as [|q L IH]; [done|]. cbn [total foldr]. fold (total o L). pose proof (cnt_nonneg q). lia. Qed.

Lemma total_app L L' : total o (L ++ L') = total o L + total o L'.
Proof. induction L as [|q L IH]; [done|]. cbn [total foldr app]. fold (total o L) (total o (L ++ L')). lia. Qed.

Lemma total_snoc L q : total o (L ++ [q]) = total o L + cnt o q.
Proof. rewrite total_app. cbn. lia. Qed.

Lemma total_submseteq L L' : L ⊆+ L' -> total o L <= total o L'.
Proof.
  induction 1 as [|x l l' _ IH|x y l|x l l' _ IH|l1 l2 l3 _ IH1 _ IH2]; cbn [total foldr]; fold (total o); [lia| |lia| |lia];
    unfold total in *; pose proof (cnt_nonneg x); lia.
Qed.

Lemma offset_bound L q v : offset o L q = Some v -> 0 <= v /\ v + cnt o q <= total o L.
Proof.
  revert v. induction L as [|p L IH]; intros v; cbn [offset]; [done|]. cbn [total foldr]. fold (total o L).
  pose proof (total_nonneg L). pose proof (cnt_nonneg p). destruct (Z.eqb_spec p q) as [->|].
  - intros [= <-]. lia.
  - destruct (offset o L q) as [w|]; [|done]. intros [= <-]. specialize (IH w eq_refl). lia.
Qed.

Lemma offset_app L L' q v : offset o L q = Some v -> offset o (L ++ L') q = Some v.
Proof.
  revert v. induction L as [|p L IH]; intros v; cbn [offset app]; [done|]. destruct (p =? q); [done|].
  destruct (offset o L q) as [w|]; [|done]. by rewrite (IH w eq_refl).
Qed.

Lemma offset_elem L q : is_Some (offset o L q) <-> q ∈ L.
Proof.
  induction L as [|p L IH]; cbn [offset]; [split; [by intros []|by intros ?%elem_of_nil]|].
  rewrite elem_of_cons. destruct (Z.eqb_spec p q) as [->|Hne]; [split; eauto|].
  rewrite fmap_is_Some, IH. split; [by right|]. by intros [->|].
Qed.

Lemma offset_new L q : q ∉ L -> offset o (L ++ [q]) q = Some (total o L).
Proof.
  induction L as [|p L IH]; intros Hq; cbn [offset app]; [by rewrite Z.eqb_refl|].
  apply not_elem_of_cons in Hq as [Hne Hq]. destruct (Z.eqb_spec p q) as [->|]; [done|]. by rewrite IH.
Qed.

Lemma offset_disjoint L p q u v : p <> q -> offset o L p = Some u -> offset o L q = Some v -> u + cnt o p <= v \/ v + cnt o q <= u.
Proof.
  intros Hne. revert u v. induction L as [|x L IH]; intros u v; cbn [offset]; [done|].
  destruct (Z.eqb_spec x p) as [Ep|], (Z.eqb_spec x q) as [Eq|]; [congruence|subst x|subst x|].
  - destruct (offset o L q) as [w|] eqn:E; [|done]. intros [= <-] [= <-]. apply offset_bound in E. lia.
  - destruct (offset o L p) as [w|] eqn:E; [|done]. intros [= <-] [= <-]. apply offset_bound in E. lia.
  - destruct (offset o L p) as [w|], (offset o L q) as [w'|]; try done. intros [= <-] [= <-]. specialize (IH w w' eq_refl eq_refl). lia.
Qed.

Lemma offset_pos L q v m : offset o (m :: L) q = Some v -> q <> m -> 0 < cnt o m -> 0 < v.
Proof.
  cbn [offset]. intros H Hne Hm. destruct (Z.eqb_spec m q); [done|]. destruct (offset o L q) as [w|] eqn:E; [|done].
  simplify_eq/=. apply offset_bound in E. lia.
Qed.

End layout.

(** ** The relocations of an image *)
Fixpoint relos_from (o : bpf_object) (base : Z) (L : list Z) : list reloc_desc :=
  match L with
  | [] => []
  | q :: L => map (shift_relo base) (default [] (relos <$> zget (programs o) q)) ++ relos_from o (base + cnt o q) L
  end.

Lemma relos_from_snoc o base L q : relos_from o base (L ++ [q]) =
  relos_from o base L ++ map (shift_relo (base + total o L)) (default [] (relos <$> zget (programs o) q)).
Proof.
  revert base. induction L as [|p L IH]; intros base; cbn [relos_from app].
  - by rewrite Z.add_0_r, app_nil_r.
  - rewrite IH, app_assoc. cbn [total foldr]. fold (total o L). by rewrite Z.add_assoc.
Qed.

Definition relos_between (lo hi : Z) (l : list reloc_desc) : Prop :=
  (forall r, r ∈ l -> lo <= insn_idx r < hi) /\
  forall i j a b, i < j -> zget l i = Some a -> zget l j = Some b -> insn_idx a < insn_idx b.

Lemma zget_app_inv {A} (l l' : list A) i x : zget (l ++ l') i = Some x ->
  zget l i = Some x /\ i < Z.of_nat (length l) \/ zget l' (i - Z.of_nat (length l)) = Some x /\ Z.of_nat (length l) <= i.
Proof.
  intros H. destruct (decide (i < Z.of_nat (length l))) as [Hi|Hi].
  - left. by rewrite zget_app_l in H.
  - right. split; [|lia]. rewrite <- (zget_app_r l l') by lia. rewrite <- H. f_equal. lia.
Qed.

Lemma relos_between_app a b c l l' : a <= b <= c -> relos_between a b l -> relos_between b c l' -> relos_between a c (l ++ l').
Proof.
  intros Habc [Hr Hs] [Hr' Hs']. split.
  - intros r [Hin|Hin]%elem_of_app; [pose proof (Hr r Hin)|pose proof (Hr' r Hin)]; lia.
  - intros i j x y Hij [[Hx Hi]|[Hx Hi]]%zget_app_inv [[Hy Hj]|[Hy Hj]]%zget_app_inv; [exact (Hs i j x y Hij Hx Hy)| |lia|].
    + pose proof (Hr x (zget_elem _ _ _ Hx)). pose proof (Hr' y (zget_elem _ _ _ Hy)). lia.
    + eapply (Hs' (i - Z.of_nat (length l)) (j - Z.of_nat (length l))); [lia|done..].
Qed.

Lemma shift_between base n l : 0 <= base -> base + n < 2 ^ 31 -> relos_sorted n l -> relos_between base (base + n) (map (shift_relo base) l).
Proof.
  intros Hb Hn [Hr Hs].
  assert (forall r, r ∈ l -> insn_idx (shift_relo base r) = insn_idx r + base) as Heq.
  { intros r Hin. specialize (Hr r Hin). simpl. apply swrap_small; lia. }
  split.
  - intros r (r0 & -> & Hin)%list_elem_of_fmap. rewrite Heq by done. specialize (Hr r0 Hin). lia.
  - intros i j x y Hij. rewrite !zget_map. intros (a & Ha & ->)%fmap_Some (b & Hb' & ->)%fmap_Some.
    rewrite !Heq by (by eapply zget_elem). pose proof (Hs i j a b Hij Ha Hb'). lia.
Qed.

Lemma shift_relo_0 n l : n <= 2 ^ 31 -> relos_sorted n l -> map (shift_relo 0) l = l.
Proof.
  intros Hn [Hr _]. rewrite <- (map_id l) at 2. apply list_fmap_ext. intros i r Hi.
  destruct r as [t x a b c]. unfold shift_relo. cbn. f_equal. rewrite Z.add_0_r. apply swrap_small; [lia|].
  specialize (Hr (RelocDesc t x a b c) ltac:(by eapply list_elem_of_lookup_2)). cbn in Hr. lia.
Qed.

Lemma find_idx_ext {A} (f : A -> bool) (l l' : list A) i : map f l = map f l' -> find_idx f l i = find_idx f l' i.
Proof.
  revert l' i. induction l as [|x l IH]; intros [|y l'] i H; try done. cbn [map] in H. injection H as Hxy H.
  cbn [find_idx]. rewrite Hxy. by destruct (f y); [|apply IH].
Qed.

(** ** The state of the link *)
Definition same_sec (p p' : bpf_program) : Prop :=
  sec_idx p' = sec_idx p /\ sec_insn_off p' = sec_insn_off p /\ sec_insn_cnt p' = sec_insn_cnt p.

Lemma same_sec_placed ps ps' : length ps' = length ps -> (forall i p p', zget ps i = Some p -> zget ps' i = Some p' -> same_sec p p') ->
  placed ps -> placed ps'.
Proof.
  intros Hlen Hsame Hp.
  assert (forall i p', zget ps' i = Some p' -> exists p, zget ps i = Some p /\ same_sec p p') as Hget.
  { intros i p' Hi. destruct (zget_is_Some ps i) as [p Hpi]; [apply zget_lt in Hi; lia|]. eauto. }
  split.
  - apply Forall_forall. intros p' [i Hi]%elem_of_zget. destruct (Hget i p' Hi) as (p & Hpi & E1 & E2 & E3).
    destruct (placed_at _ _ _ Hp Hpi). constructor; lia.
  - intros i j a b Hij (a0 & Ha & A1 & A2 & A3)%Hget (b0 & Hb & B1 & B2 & B3)%Hget.
    pose proof (proj2 Hp i j a0 b0 Hij Ha Hb) as Hbef. unfold before in *. lia.
Qed.

Section link.
Context (o : bpf_object) (m : Z) (Hl : linkable o m).
Context (Hz : forall q Q, zget (programs o) q = Some Q -> prog_is_subprog o Q = true -> sub_insn_off Q = 0).

(** The programs an image may have. *)
Definition part (q : Z) : Prop := q = m \/ exists Q, zget (programs o) q = Some Q /\ prog_is_subprog o Q = true.

Lemma part_fresh q : part q -> exists Q, zget (programs o) q = Some Q /\ fresh Q /\ in_section Q.
Proof.
  intros Hq. assert (exists Q, zget (programs o) q = Some Q /\ fresh Q) as (Q & HQ & Hf).
  { destruct Hq as [->|(Q & HQ & Hs)]; [destruct (lk_main _ _ Hl) as (M & HM & _ & Hf & _); eauto|]. exists Q. split; [done|]. by eapply lk_subs. }
  exists Q. split_and!; [done..|]. by apply (placed_at _ _ _ (lk_placed _ _ Hl) HQ).
Qed.

Lemma total_bound L : NoDup L -> (forall q, q ∈ L -> part q) -> total o L < 2 ^ 31 /\ (length L <= length (programs o))%nat.
Proof.
  intros Hnd Hp. assert (L ⊆+ all_progs o) as Hsub.
  { apply NoDup_submseteq; [done|]. intros q Hq. destruct (part_fresh q (Hp q Hq)) as (Q & HQ%zget_lt & _).
    apply list_elem_of_fmap. exists (Z.to_nat q). split; [lia|]. apply elem_of_seq. lia. }
  split.
  - pose proof (total_submseteq o (lk_placed _ _ Hl) _ _ Hsub). pose proof (lk_size _ _ Hl). lia.
  - apply submseteq_length in Hsub. unfold all_progs in Hsub. by rewrite length_map, length_seq in Hsub.
Qed.

Lemma relos_from_between base L : 0 <= base -> base + total o L < 2 ^ 31 -> (forall q, q ∈ L -> part q) ->
  relos_between base (base + total o L) (relos_from o base L).
Proof.
  revert base. induction L as [|q L IH]; intros base Hb Ht Hp; cbn [relos_from].
  - split; [by intros r ?%elem_of_nil|by intros i j a b _ ?%zget_lt; simpl in *; lia].
  - destruct (part_fresh q (Hp q ltac:(left))) as (Q & HQ & [_ Hs] & Hin). rewrite HQ. cbn [fmap option_fmap option_map default].
    cbn [total foldr] in *. fold (total o L) in *. pose proof (total_nonneg o (lk_placed _ _ Hl) L). rewrite (cnt_at _ _ _ HQ) in *.
    pose proof (is_cnt _ Hin). apply (relos_between_app _ (base + sec_insn_cnt Q)); [lia| |].
    + apply shift_between; [lia..|done].
    + rewrite Z.add_assoc. apply IH; [lia..|]. intros q' Hq'. apply Hp. by right.
Qed.

Definition main_like (M M' : bpf_program) : Prop :=
  M' = set_infos (func_info M') (func_info_rec_size M') (line_info M') (line_info_rec_size M') (set_relos (relos M') (set_insns (insns M') M)).

(** The image has the programs [L], in this order. *)
Record state_ok (L : list Z) (s : bpf_object) : Prop := {
  so_shape : s = set_programs (programs s) o;
  so_len : length (programs s) = length (programs o);
  so_main : exists M M', zget (programs o) m = Some M /\ zget (programs s) m = Some M' /\ main_like M M' /\
    insns_cnt M' = total o L /\ relos M' = relos_from o 0 L;
  so_sub : forall q Q, q <> m -> zget (programs o) q = Some Q ->
    zget (programs s) q = Some (set_sub_insn_off (default (sub_insn_off Q) (offset o L q)) Q);
  so_nodup : NoDup L;
  so_head : head L = Some m;
  so_part : forall q, q ∈ L -> part q /\ reachable o m q
}.

Definition image (s : bpf_object) : list bpf_insn := default [] (insns <$> zget (programs s) m).

Lemma state_same L s i P P' : state_ok L s -> zget (programs o) i = Some P -> zget (programs s) i = Some P' -> same_sec P P'.
Proof.
  intros Hs HP HP'. destruct (decide (i = m)) as [->|Hne].
  - destruct (so_main _ _ Hs) as (M & M' & HM & HM' & Hlike & _). simplify_eq. by rewrite Hlike.
  - rewrite (so_sub _ _ Hs i P Hne HP) in HP'. by simplify_eq.
Qed.

Lemma state_efile L s : state_ok L s -> efile s = efile o /\ obj_btf_ext s = obj_btf_ext o /\ feat_btf_func s = feat_btf_func o /\ gen_loader s = gen_loader o.
Proof. intros Hs. by rewrite (so_shape _ _ Hs). Qed.

Lemma find_sub_spec L s t : state_ok L s -> find_prog_by_sec_insn s (text_shndx (efile s)) t = Some (sub_at o t).
Proof.
  intros Hs. pose proof (state_same L s) as Hsame.
  rewrite find_prog_spec by (eapply same_sec_placed; [apply (so_len _ _ Hs)|eauto|apply (lk_placed _ _ Hl)]).
  destruct (state_efile _ _ Hs) as [-> _]. f_equal. apply find_idx_ext, list_eq. intros i. rewrite !list_lookup_fmap.
  destruct (programs s !! i) as [p'|] eqn:E'.
  - destruct (programs o !! i) as [p|] eqn:E; [|apply lookup_ge_None in E; apply lookup_lt_Some in E'; rewrite (so_len _ _ Hs) in E'; lia].
    destruct (Hsame (Z.of_nat i) p p' Hs) as (E1 & E2 & E3); [by apply zget_Some; rewrite Nat2Z.id; split; [lia|]..|].
    simpl. unfold covers. by rewrite E1, E2, E3.
  - apply lookup_ge_None in E'. rewrite (so_len _ _ Hs) in E'. apply lookup_ge_None in E'. by rewrite E'.
Qed.

Lemma state_bound L s : state_ok L s -> 0 < cnt o m <= total o L /\ total o L < 2 ^ 31 /\ (length L <= length (programs o))%nat.
Proof.
  intros Hs. destruct (total_bound L (so_nodup _ _ Hs)) as [Ht Hlen]; [intros q Hq; by apply (so_part _ _ Hs)|]. split; [|done].
  destruct (part_fresh m ltac:(by left)) as (M & HM & _ & Hin). rewrite (cnt_at _ _ _ HM). pose proof (is_cnt _ Hin).
  pose proof (so_head _ _ Hs) as Hh. destruct L as [|x L]; [done|]. injection Hh as ->. change (total o (m :: L)) with (cnt o m + total o L).
  rewrite (cnt_at _ _ _ HM). pose proof (total_nonneg o (lk_placed _ _ Hl) L). lia.
Qed.

Lemma image_length L s : state_ok L s -> Z.of_nat (length (image s)) = total o L.
Proof. intros Hs. destruct (so_main _ _ Hs) as (M & M' & _ & HM' & _ & Hc & _). unfold image. rewrite HM'. exact Hc. Qed.

Lemma main_offset L s : state_ok L s -> offset o L m = Some 0.
Proof. intros Hs. pose proof (so_head _ _ Hs) as Hh. destruct L as [|x L]; [done|]. simplify_eq/=. by rewrite Z.eqb_refl. Qed.

(** The relocations found for the entry-point program are its own: those appended later belong
    to other instructions. *)
Lemma main_relo_at L s M i : state_ok L s -> zget (programs o) m = Some M -> 0 <= i < sec_insn_cnt M ->
  relo_at (relos_from o 0 L) i = relo_at (relos M) i.
Proof.
  intros Hs HM Hi. pose proof (so_head _ _ Hs) as Hh. destruct L as [|x L]; [done|]. injection Hh as ->.
  destruct (part_fresh m ltac:(by left)) as (M' & HM' & [_ Hsrt] & Hin). rewrite HM in HM'. injection HM' as <-.
  cbn [relos_from]. rewrite HM. cbn [fmap option_fmap option_map default].
  pose proof (is_cnt _ Hin). pose proof (is_end _ Hin). pose proof (is_off _ Hin).
  rewrite (shift_relo_0 (sec_insn_cnt M)) by (done || lia).
  destruct (state_bound _ _ Hs) as (_ & Ht & _). change (total o (m :: L)) with (cnt o m + total o L) in Ht. rewrite (cnt_at _ _ _ HM) in *.
  unfold relo_at. rewrite filter_app, (filter_none (fun r => insn_idx r = i) (relos_from o _ L)), app_nil_r; [done|].
  apply Forall_forall. intros r Hr.
  destruct (relos_from_between (0 + sec_insn_cnt M) L) as [Hr' _]; [lia..| |].
  - intros q Hq. apply (so_part _ _ Hs). by right.
  - specialize (Hr' r Hr). lia.
Qed.

(** A program of the image as the code sees it. *)
Lemma running L s p : state_ok L s -> p ∈ L -> exists P P' op, zget (programs o) p = Some P /\ zget (programs s) p = Some P' /\
  same_sec P P' /\ fresh P /\ cnt o p = sec_insn_cnt P /\ offset o L p = Some op /\ sub_insn_off P' = op /\ 0 <= op /\ op + sec_insn_cnt P <= total o L /\
  forall i, 0 <= i < sec_insn_cnt P -> find_prog_insn_relo P' i = Some (relo_at (relos P) i).
Proof.
  intros Hs Hp. destruct (so_part _ _ Hs p Hp) as [Hpart _]. destruct (part_fresh p Hpart) as (P & HP & Hf & Hin).
  destruct (proj2 (offset_elem o L p) Hp) as [op Hop]. pose proof (offset_bound o (lk_placed _ _ Hl) L p op Hop) as Hb.
  pose proof (cnt_at o p P HP) as Hcnt. destruct (state_bound _ _ Hs) as (_ & Ht & _).
  destruct (decide (p = m)) as [->|Hne].
  - destruct (so_main _ _ Hs) as (M & M' & HM & HM' & Hlike & Hc & Hr). rewrite HP in HM. injection HM as <-.
    exists P, M', op. split_and!; auto; try lia.
    + by eapply state_same.
    + rewrite (main_offset _ _ Hs) in Hop. injection Hop as <-. rewrite Hlike. simpl.
      destruct (lk_main _ _ Hl) as (M0 & HM0 & _ & _ & Hz0 & _). by simplify_eq.
    + intros i Hi. rewrite (find_relo_spec (total o L)); [|lia|].
      * rewrite Hr. by rewrite (main_relo_at _ _ _ _ Hs HP).
      * rewrite Hr. apply (relos_from_between 0 L); [lia|lia|]. intros q Hq. by apply (so_part _ _ Hs).
  - exists P, (set_sub_insn_off op P), op. pose proof (so_sub _ _ Hs p P Hne HP) as HP'. rewrite Hop in HP'. split_and!; auto; try lia; [done|].
    intros i Hi. apply (find_relo_spec (sec_insn_cnt P) (set_sub_insn_off op P)); [destruct Hin; lia|apply Hf].
Qed.

(** ** Function and line information *)

(** The records of program [q] for a copy at [op]. *)
Definition own (ei : btf_ext_info) (q op : Z) : option (list ext_rec) :=
  Q ← zget (programs o) q;
  '(err, r, _) ← adjust_prog_btf_ext_info true (set_sub_insn_off op Q) ei None 0;
  if err =? 0 then r else None.

Fixpoint infos_from (ei : btf_ext_info) (base : Z) (L : list Z) : option (list ext_rec) :=
  match L with
  | [] => Some []
  | q :: L =>
    l ← own ei q base;
    r ← infos_from ei (base + cnt o q) L;
    Some (l ++ r)
  end.

(** What the entry-point program has of one kind of information: nothing when it has none of
    its own, otherwise the records of all programs of the image. *)
Definition info_ok (ei : btf_ext_info) (L : list Z) (cur : option (list ext_rec)) : Prop :=
  match L with
  | [] => cur = None
  | _ => own ei m 0 = None /\ cur = None \/ exists l, infos_from ei 0 L = Some l /\ cur = Some l
  end.

Definition infos_ok (L : list Z) (s : bpf_object) : Prop :=
  forall fi li, obj_btf_ext o = Some (fi, li) -> kernel_supports o (feat_btf_func o) = true ->
    exists M', zget (programs s) m = Some M' /\ info_ok fi L (func_info M') /\ info_ok li L (line_info M').

(** Why linking may fail: memory, a call that leads nowhere, or missing information. *)
Definition failure (al : oracle) : Prop :=
  alloc_fails al \/ (exists p i, reachable o m p /\ unresolved o p i) \/
  exists q fi li op, reachable o m q /\ obj_btf_ext o = Some (fi, li) /\ (own fi q op = None \/ own li q op = None).

Lemma infos_from_snoc ei base L q : infos_from ei base (L ++ [q]) =
  (l ← infos_from ei base L; r ← own ei q (base + total o L); Some (l ++ r)).
Proof.
  revert base. induction L as [|p L IH]; intros base; cbn [infos_from app].
  - rewrite Z.add_0_r. cbn. destruct (own ei q base); cbn; [by rewrite app_nil_r|done].
  - destruct (own ei p base) as [l|]; [|done]. cbn [mbind option_bind]. rewrite IH. change (total o (p :: L)) with (cnt o p + total o L).
    rewrite Z.add_assoc. destruct (infos_from ei (base + cnt o p) L) as [r|]; [|done]. cbn [mbind option_bind].
    destruct (own ei q _) as [r'|]; [|done]. cbn. by rewrite app_assoc.
Qed.

Lemma copy_range_total P recs i a e : Forall (fun r : ext_rec => r <> []) recs -> exists r, copy_range P recs i a e = Some r.
Proof.
  intros H. revert i a e. induction H as [|r recs Hr _ IH]; intros i a e; cbn [copy_range]; [eauto|].
  destruct r as [|w r]; [done|]. cbn [head mbind option_bind]. repeat bcase; eauto.
Qed.

Lemma adjust_secs_spec P rs l alloc info sz : Forall (fun s => Forall (fun r : ext_rec => r <> []) s.2) l ->
  adjust_secs true P rs l None 0 = Some (- ENOENT, None, 0) /\ adjust_secs alloc P rs l info sz = Some (- ENOENT, info, sz) \/
  exists r, adjust_secs true P rs l None 0 = Some (0, Some r, rs) /\
    adjust_secs alloc P rs l info sz = if alloc then Some (0, Some (default [] info ++ r), rs) else Some (- ENOMEM, info, sz).
Proof.
  induction 1 as [|[idx recs] l Hr _ IH]; cbn [adjust_secs]; [by left|].
  destruct (negb (sec_idx P =? idx)); [done|]. destruct (copy_range_total P recs 0 None 0 Hr) as [[[start|] e] ->]; cbn; [|by left].
  right. eexists. split; [done|]. by destruct alloc.
Qed.

Lemma copy_range_ext P P' recs i a e : same_sec P P' -> copy_range P' recs i a e = copy_range P recs i a e.
Proof.
  intros (_ & E2 & E3). revert i a e. induction recs as [|r recs IH]; intros i a e; cbn [copy_range]; [done|].
  rewrite E2, E3. destruct (head r) as [w|]; [|done]. cbn [mbind option_bind]. by rewrite !IH.
Qed.

Lemma adjust_ext P P' alloc ei info sz : same_sec P P' -> sub_insn_off P' = sub_insn_off P ->
  adjust_prog_btf_ext_info alloc P' ei info sz = adjust_prog_btf_ext_info alloc P ei info sz.
Proof.
  intros Hs Hsub. unfold adjust_prog_btf_ext_info. induction (ext_secs ei) as [|[idx recs] l IH]; cbn [adjust_secs]; [done|].
  rewrite (copy_range_ext P P' recs _ _ _ Hs). destruct Hs as (E1 & E2 & _). by rewrite IH, E1, E2, Hsub.
Qed.

Lemma reloc_info_spec ei L q P P' alloc cur rs : recs_ok ei -> info_ok ei L cur -> zget (programs o) q = Some P -> same_sec P P' ->
  sub_insn_off P' = total o L -> (L = [] /\ q = m \/ head L = Some m /\ q <> m) ->
  exists err cur' rs', reloc_info alloc (m =? q) P' ei cur rs = Some (err, cur', rs') /\
    (err = 0 /\ info_ok ei (L ++ [q]) cur' \/ err <> 0 /\ (alloc = false \/ own ei q (total o L) = None)).
Proof.
  intros Hr Hi HP Hsame Hsub Hq. unfold reloc_info.
  assert (own ei q (total o L) = ('(err, r, _) ← adjust_prog_btf_ext_info true P' ei None 0; if err =? 0 then r else None)) as Hown.
  { unfold own. rewrite HP. cbn [mbind option_bind]. by rewrite (adjust_ext (set_sub_insn_off (total o L) P) P'). }
  destruct (adjust_secs_spec P' (rec_size ei) (ext_secs ei) alloc cur rs Hr) as [[H1 H2]|(r & H1 & H2)];
    unfold adjust_prog_btf_ext_info in *; rewrite H1 in Hown; cbn in Hown; rewrite H2; clear H1 H2.
  - destruct Hq as [[-> ->]|[Hh Hne]].
    + rewrite Z.eqb_refl. simpl in Hi. subst cur. cbn. exists 0, None, rs. split; [done|]. left. split; [done|]. left. done.
    + rewrite (proj2 (Z.eqb_neq m q)) by congruence. destruct L as [|x L]; [done|]. injection Hh as ->.
      destruct Hi as [[Hm ->]|(l & Hl0 & ->)]; cbn.
      * exists 0, None, rs. split; [done|]. left. split; [done|]. by left.
      * exists (- ENOENT), (Some l), rs. split; [done|]. right. split; [done|]. by right.
  - destruct Hq as [[-> ->]|[Hh Hne]].
    + rewrite Z.eqb_refl. simpl in Hi. subst cur. cbn [negb andb]. destruct alloc; cbn.
      * exists 0, (Some r), (rec_size ei). split; [done|]. left. split; [done|]. right. exists r. cbn. cbn in Hown. rewrite Hown. cbn. by rewrite app_nil_r.
      * exists (- ENOMEM), None, rs. split; [done|]. right. split; [done|]. by left.
    + rewrite (proj2 (Z.eqb_neq m q)) by congruence. destruct L as [|x L]; [done|]. injection Hh as ->.
      destruct Hi as [[Hm ->]|(l & Hl0 & ->)]; cbn [negb andb].
      * exists 0, None, rs. split; [done|]. left. split; [done|]. by left.
      * destruct alloc; cbn.
        -- exists 0, (Some (l ++ r)), (rec_size ei). split; [done|]. left. split; [done|]. right. exists (l ++ r). split; [|done].
           pose proof (infos_from_snoc ei 0 (m :: L) q) as Happ. by rewrite Hl0, Z.add_0_l, Hown in Happ.
        -- exists (- ENOMEM), (Some l), rs. split; [done|]. right. split; [done|]. by left.
Qed.

(** ** Steps of the link *)
Lemma update_prog_spec s i f p : zget (programs s) i = Some p -> exists s', update_prog s i f = Some s' /\
  s' = set_programs (programs s') s /\ length (programs s') = length (programs s) /\ zget (programs s') i = Some (f p) /\
  forall j, j <> i -> zget (programs s') j = zget (programs s) j.
Proof.
  intros Hp. unfold update_prog. rewrite Hp. cbn [mbind option_bind].
  destruct (zset_is_Some (programs s) i (f p)) as [ps Hps]; [by eapply zget_lt|]. rewrite Hps. cbn [mbind option_bind].
  eexists. split; [done|]. cbn [programs set_programs]. split_and!; [done|by eapply zset_length|by eapply zget_zset_eq|].
  intros j Hj. by eapply zget_zset_ne.
Qed.

Lemma set_programs_twice ps ps' s : set_programs ps (set_programs ps' s) = set_programs ps s.
Proof. done. Qed.

Lemma main_like_upd M M' l r : main_like M M' -> main_like M (set_relos r (set_insns l M')).
Proof. intros H. unfold main_like in *. by rewrite H. Qed.

(** An update of the entry-point program that keeps the image in shape. *)
Lemma main_update L s M' f : state_ok L s -> zget (programs s) m = Some M' -> main_like M' (f M') ->
  insns_cnt (f M') = total o L -> relos (f M') = relos_from o 0 L ->
  exists s', update_prog s m f = Some s' /\ state_ok L s' /\ zget (programs s') m = Some (f M').
Proof.
  intros Hs HM' Hlike Hc Hr. destruct (update_prog_spec s m f M' HM') as (s' & Hu & Hshape & Hlen & Hm & Hother).
  exists s'. split_and!; [done| |done]. destruct (so_main _ _ Hs) as (M & M1 & HM & HM1 & Hl1 & _). rewrite HM' in HM1. injection HM1 as <-.
  split; try apply Hs.
  - rewrite Hshape at 1. by rewrite (so_shape _ _ Hs) at 1.
  - rewrite Hlen. apply Hs.
  - exists M, (f M'). split_and!; auto. unfold main_like in *. rewrite Hlike at 1. by rewrite Hl1.
  - intros q Q Hq HQ. rewrite Hother by done. by apply (so_sub _ _ Hs).
Qed.

Lemma info_step al L s q : NoDup (L ++ [q]) -> state_ok (L ++ [q]) s -> infos_ok L s ->
  exists err s', reloc_prog_func_and_line_info al s m q = Some (err, s') /\
    (err = 0 /\ state_ok (L ++ [q]) s' /\ infos_ok (L ++ [q]) s' /\ image s' = image s \/ err <> 0 /\ failure al).
Proof.
  intros Hnd Hs Hi. unfold reloc_prog_func_and_line_info. destruct (state_efile _ _ Hs) as (_ & Eext & Efeat & Egen).
  assert (forall b, kernel_supports s b = kernel_supports o b) as Hks by (intros b; unfold kernel_supports; by rewrite Egen).
  rewrite Eext, Efeat, Hks. destruct (obj_btf_ext o) as [[fi li]|] eqn:Ex.
  2: { exists 0, s. split; [done|]. left. split_and!; auto. intros fi li Hx. by rewrite Ex in Hx. }
  destruct (kernel_supports o (feat_btf_func o)) eqn:Eks; cbn [negb].
  2: { exists 0, s. split; [done|]. left. split_and!; auto. intros ? ? ? Hk. by rewrite Eks in Hk. }
  destruct (Hi fi li Ex Eks) as (M' & HM' & Hfi & Hli). destruct (lk_ext _ _ Hl fi li Ex) as [Hrf Hrl].
  destruct (running _ s q Hs ltac:(apply elem_of_app; right; left)) as (P & P' & op & HP & HP' & Hsame & _ & _ & Hop & Hsub & _).
  apply NoDup_app in Hnd as (_ & Hni & _). assert (q ∉ L) as HqL by (intros Hin; apply (Hni q Hin); left).
  rewrite (offset_new o L q HqL) in Hop. injection Hop as <-.
  assert (L = [] /\ q = m \/ head L = Some m /\ q <> m) as Hq.
  { pose proof (so_head _ _ Hs) as Hh. destruct L as [|x L]; [left; by injection Hh|right]. injection Hh as ->. split; [done|].
    intros ->. apply HqL. left. }
  assert (reachable o m q) as Hreach by (apply (so_part _ _ Hs); apply elem_of_app; right; left).
  destruct (so_main _ _ Hs) as (M & M1 & HM & HM1 & Hlike & Hc & Hr). rewrite HM' in HM1. injection HM1 as <-.
  rewrite HM', HP'. cbn [mbind option_bind].
  destruct (reloc_info_spec fi L q P P' (al [0]) (func_info M') (func_info_rec_size M') Hrf Hfi HP Hsame Hsub Hq)
    as (err1 & finfo & frs & -> & Hres1). cbn [mbind option_bind].
  destruct (main_update _ s M' (set_infos finfo frs (line_info M') (line_info_rec_size M')) Hs HM') as (s1 & -> & Hs1 & HM1); [done..|].
  cbn [mbind option_bind]. destruct Hres1 as [[-> Hfi1]|[Hne Hwhy]]; cbn [Z.eqb negb].
  2: { rewrite (proj2 (Z.eqb_neq err1 0) Hne). cbn [negb]. exists err1, s1. split; [done|]. right. split; [done|].
       destruct Hwhy as [Ha|Hown]; [left; by exists [0]|]. right. right. exists q, fi, li, (total o L). auto. }
  destruct (reloc_info_spec li L q P P' (al [1]) (line_info M') (line_info_rec_size M') Hrl Hli HP Hsame Hsub Hq)
    as (err2 & linfo & lrs & -> & Hres2). cbn [mbind option_bind].
  destruct (main_update _ s1 _ (set_infos finfo frs linfo lrs) Hs1 HM1) as (s2 & -> & Hs2 & HM2); [done..|].
  cbn [mbind option_bind]. exists err2, s2. split; [done|]. destruct Hres2 as [[-> Hli2]|[Hne Hwhy]].
  - left. split_and!; auto.
    + intros fi' li' Hx _. rewrite Ex in Hx. injection Hx as <- <-. eexists. split; [exact HM2|]. done.
    + unfold image. by rewrite HM2, HM'.
  - right. split; [done|]. destruct Hwhy as [Ha|Hown]; [left; by exists [1]|]. right. right. exists q, fi, li, (total o L). auto.
Qed.

(** ** Appending a subprogram *)
Lemma append_step al L s q Q : state_ok L s -> infos_ok L s -> zget (programs o) q = Some Q -> prog_is_subprog o Q = true -> q ∉ L ->
  reachable o m q ->
  exists err s', bpf_object__append_subprog_code al s m q = Some (err, s') /\
    (err = 0 /\ state_ok (L ++ [q]) s' /\ infos_ok L s' /\ image s' = image s ++ insns Q \/ err <> 0 /\ alloc_fails al).
Proof.
  intros Hs Hi HQ Hsubp Hq Hreach. unfold bpf_object__append_subprog_code.
  destruct (so_main _ _ Hs) as (M & M' & HM & HM' & Hlike & Hc & Hr).
  assert (q <> m) as Hqm.
  { intros ->. apply Hq. pose proof (so_head _ _ Hs). destruct L; [done|]. simplify_eq/=. left. }
  assert (offset o L q = None) as Hoff.
  { destruct (offset o L q) eqn:E; [|done]. destruct Hq. apply (offset_elem o). eauto. }
  assert (zget (programs s) q = Some (set_sub_insn_off (sub_insn_off Q) Q)) as HsQ by (rewrite (so_sub _ _ Hs q Q Hqm HQ); by rewrite Hoff).
  rewrite HM'. cbn [mbind option_bind].
  destruct (update_prog_spec s q (set_sub_insn_off (insns_cnt M')) _ HsQ) as (s1 & -> & Sh1 & Ln1 & Q1 & Ot1). cbn [mbind option_bind].
  destruct (al [0]) eqn:Ea; cbn [negb].
  2: { exists (- ENOMEM), s1. split; [done|]. right. split; [done|]. by exists [0]. }
  rewrite (proj2 (Z.eqb_neq m q)) by congruence. rewrite Q1. cbn [mbind option_bind insns set_sub_insn_off].
  assert (zget (programs s1) m = Some M') as M1 by (rewrite Ot1; auto).
  destruct (update_prog_spec s1 m (set_insns (insns M' ++ insns Q)) M' M1) as (s2 & -> & Sh2 & Ln2 & M2 & Ot2). cbn [mbind option_bind].
  unfold append_subprog_relos. rewrite M2, (Ot2 q) by done. rewrite Q1. cbn [mbind option_bind].
  rewrite (proj2 (Z.eqb_neq m q)) by congruence.
  destruct (negb (al [1]) && _) eqn:Ea1.
  { exists (- ENOMEM), s2. split; [done|]. right. split; [done|]. exists [1]. by destruct (al [1]). }
  set (M3 := set_relos _). destruct (update_prog_spec s2 m M3 _ M2) as (s3 & -> & Sh3 & Ln3 & HM3 & Ot3).
  cbn [mbind option_bind]. exists 0, s3. split; [done|]. left. split; [done|]. subst M3.
  assert (image s3 = image s ++ insns Q) as Him by (unfold image; by rewrite HM3, HM').
  destruct (lk_subs _ _ Hl q Q HQ Hsubp) as [HQc _].
  split_and!; [|intros fi li Hx Hk; destruct (Hi fi li Hx Hk) as (M'' & HM'' & ? & ?); simplify_eq; eexists; split; [exact HM3|done]|done].
  split.
  - rewrite Sh3 at 1. rewrite Sh2 at 1. rewrite Sh1 at 1. by rewrite (so_shape _ _ Hs) at 1.
  - rewrite Ln3, Ln2, Ln1. apply Hs.
  - exists M. eexists. split; [done|]. split; [exact HM3|]. split_and!.
    + by apply main_like_upd.
    + unfold insns_cnt in *. cbn. rewrite length_app, Nat2Z.inj_add, Hc, HQc, total_snoc, (cnt_at _ _ _ HQ). lia.
    + cbn [relos set_relos set_insns set_sub_insn_off sub_insn_off]. rewrite relos_from_snoc, HQ, Hr, Z.add_0_l, <- Hc. done.
  - intros x X Hx HX. rewrite (Ot3 x), (Ot2 x) by done. destruct (decide (x = q)) as [->|Hxq].
    + rewrite Q1, (offset_new o L q Hq). simplify_eq. cbn [default]. f_equal. rewrite Hc. done.
    + rewrite Ot1 by done. rewrite (so_sub _ _ Hs x X Hx HX). f_equal. f_equal.
      destruct (offset o L x) as [v|] eqn:E; [by rewrite (offset_app o L [q] x v E)|].
      destruct (offset o (L ++ [q]) x) as [v|] eqn:E'; [|done].
      assert (x ∈ L ++ [q]) as Hin by (apply (offset_elem o); eauto). apply elem_of_app in Hin as [Hin|Hin].
      * apply (offset_elem o) in Hin as [? ?]. congruence.
      * apply list_elem_of_singleton in Hin. done.
  - apply NoDup_app. split_and!; [apply Hs| |apply NoDup_singleton]. intros x Hx Hx'. apply list_elem_of_singleton in Hx'. by subst.
  - pose proof (so_head _ _ Hs) as Hh. by destruct L.
  - intros x [Hx|Hx%list_elem_of_singleton]%elem_of_app; [by apply (so_part _ _ Hs)|]. subst. split; [right; eauto|done].
Qed.

(** ** Linked instructions *)
Definition orig (p j : Z) : option bpf_insn := P ← zget (programs o) p; zget (insns P) j.

(** Instruction [j] of program [p] in an image of the programs [L]. *)
Definition linked_insn (L : list Z) (img : list bpf_insn) (p j : Z) : Prop :=
  exists op insn, offset o L p = Some op /\ orig p j = Some insn /\ ~ unresolved o p j /\
    match callee o p j with
    | Some q => exists oq, offset o L q = Some oq /\ zget img (op + j) = Some (set_imm (s32 (oq - (op + j) - 1)) insn)
    | None => zget img (op + j) = Some insn
    end.

Definition linked_all (L : list Z) (img : list bpf_insn) (ps : list Z) : Prop :=
  forall p j, p ∈ ps -> 0 <= j < cnt o p -> linked_insn L img p j.

(** The copy of [p] at [op] still has the original instructions from [i] on. *)
Definition code_from (img : list bpf_insn) (op p i : Z) : Prop := forall j, i <= j < cnt o p -> zget img (op + j) = orig p j.

Lemma linked_mono L L' img img' p j op : offset o L p = Some op -> zget img' (op + j) = zget img (op + j) ->
  linked_insn L img p j -> linked_insn (L ++ L') img' p j.
Proof.
  intros Hop Him (op' & insn & Hop' & Ho & Hun & Hc). rewrite Hop in Hop'. injection Hop' as <-.
  exists op, insn. split_and!; [by apply offset_app|done|done|]. destruct (callee o p j) as [q|]; [|by rewrite Him].
  destruct Hc as (oq & Hoq & Hc). exists oq. split; [by apply offset_app|by rewrite Him].
Qed.

Lemma failure_sub k al : failure (sub k al) -> failure al.
Proof. intros [Ha|Hf]; [left; by eapply fails_sub|by right]. Qed.

Lemma find_call_target_ext P P' i insn r : same_sec P P' -> find_call_target P' i insn r = find_call_target P i insn r.
Proof. intros (_ & E & _). unfold find_call_target. by rewrite E. Qed.

Lemma callee_sub p i q : callee o p i = Some q -> exists Q, zget (programs o) q = Some Q /\ prog_is_subprog o Q = true.
Proof.
  unfold callee. destruct (zget (programs o) p) as [P|]; [|done]. cbn [mbind option_bind]. destruct (call_of P i) as [[| |t]|]; try done.
  unfold sub_at. intros (_ & Q & HQ & Hc & _)%find_idx_Some. rewrite Z.sub_0_r in HQ. exists Q. split; [done|].
  apply covers_spec in Hc as [Hc _]. unfold prog_is_subprog. by apply Z.eqb_eq.
Qed.

Lemma sub_not_main q Q : zget (programs o) q = Some Q -> prog_is_subprog o Q = true -> q <> m.
Proof. intros HQ Hs ->. destruct (lk_main _ _ Hl) as (M & HM & Hm & _). congruence. Qed.

(** The mark of a subprogram that is in the image. *)
Lemma mark_spec L s q Q : state_ok L s -> zget (programs o) q = Some Q -> prog_is_subprog o Q = true ->
  exists Q', zget (programs s) q = Some Q' /\ (sub_insn_off Q' = 0 <-> q ∉ L) /\ (forall v, offset o L q = Some v -> sub_insn_off Q' = v).
Proof.
  intros Hs HQ Hsub. pose proof (sub_not_main q Q HQ Hsub) as Hne. rewrite (so_sub _ _ Hs q Q Hne HQ). eexists. split; [done|]. cbn.
  destruct (offset o L q) as [v|] eqn:E; cbn; (split; [|intros w Hw; by simplify_eq]).
  - pose proof (so_head _ _ Hs) as Hh. destruct L as [|x L]; [done|]. injection Hh as ->. destruct (state_bound _ _ Hs) as ([Hc _] & _).
    pose proof (offset_pos o (lk_placed _ _ Hl) L q v m E Hne Hc). split; [lia|]. intros Hn. destruct Hn. apply (offset_elem o). eauto.
  - rewrite (Hz q Q HQ Hsub). split; [|done]. intros _ Hin. apply (offset_elem o) in Hin as [? ?]. congruence.
Qed.

(** ** The loop over the instructions of a program *)
Section loop.
Context (rec : oracle -> bpf_object -> Z -> option (Z * bpf_object)) (n : nat).

(** The recursive call on [q], the last program of the image so far. *)
Definition rec_post (al : oracle) (L : list Z) (s : bpf_object) (q : Z) (res : option (Z * bpf_object)) : Prop :=
  exists err s', res = Some (err, s') /\
    (err = 0 /\ (exists L', state_ok ((L ++ [q]) ++ L') s' /\ infos_ok ((L ++ [q]) ++ L') s' /\
        (forall k, 0 <= k < total o L -> zget (image s') k = zget (image s) k) /\ linked_all ((L ++ [q]) ++ L') (image s') (q :: L')) \/
     err <> 0 /\ failure al).

Definition rec_ok : Prop := forall al L s q, state_ok (L ++ [q]) s -> infos_ok L s -> code_from (image s) (total o L) q 0 ->
  (length (programs o) <= n + length L)%nat -> rec_post al L s q (rec al s q).

Context (Hrec : rec_ok).

Definition loop_post (al : oracle) (L : list Z) (s : bpf_object) (p op i : Z) (res : option (Z * bpf_object)) : Prop :=
  exists err s', res = Some (err, s') /\
    (err = 0 /\ (exists L', state_ok (L ++ L') s' /\ infos_ok (L ++ L') s' /\
        (forall k, 0 <= k < total o L -> ~ op + i <= k < op + cnt o p -> zget (image s') k = zget (image s) k) /\
        (forall j, i <= j < cnt o p -> linked_insn (L ++ L') (image s') p j) /\ linked_all (L ++ L') (image s') L') \/
     err <> 0 /\ failure al).

(** An instruction that is left alone. *)
Lemma loop_skip al L s p op i res : state_ok L s -> offset o L p = Some op -> 0 <= i < cnt o p -> code_from (image s) op p i ->
  callee o p i = None -> ~ unresolved o p i -> loop_post al L s p op (i + 1) res -> loop_post al L s p op i res.
Proof.
  intros Hs Hop Hi Hcode Hcal Hun (err & s' & Hres & [[-> (L' & Hs' & Hin & Hfr & Hlk & Hall)]|Hbad]).
  2: { exists err, s'. split; [done|]. by right. }
  pose proof (offset_bound o (lk_placed _ _ Hl) L p op Hop) as Hb.
  exists 0, s'. split; [done|]. left. split; [done|]. exists L'. split_and!; auto.
  - intros k Hk Hout. apply Hfr; lia.
  - intros j Hj. destruct (decide (j = i)) as [->|]; [|apply Hlk; lia].
    destruct (running L s p Hs) as (P & _ & _ & HP & _ & _ & [Hc _] & Hcnt & _); [apply (offset_elem o); eauto|].
    destruct (zget_is_Some (insns P) i) as [insn Hinsn]; [unfold insns_cnt in Hc; lia|].
    exists op, insn. split_and!; [by apply offset_app|unfold orig; by rewrite HP|done|]. rewrite Hcal.
    rewrite Hfr by lia. rewrite (Hcode i) by lia. unfold orig. by rewrite HP.
Qed.

(** An instruction that is pointed at [q], once [q] is in the image. *)
Lemma loop_call al L L1 s s1 s2 p op i q oq insn res : state_ok L s -> state_ok (L ++ L1) s1 -> state_ok (L ++ L1) s2 ->
  offset o L p = Some op -> 0 <= i < cnt o p -> orig p i = Some insn -> callee o p i = Some q -> ~ unresolved o p i ->
  offset o (L ++ L1) q = Some oq ->
  (forall k, 0 <= k < total o L -> zget (image s1) k = zget (image s) k) -> linked_all (L ++ L1) (image s1) L1 ->
  zset (image s1) (op + i) (set_imm (s32 (oq - (op + i) - 1)) insn) = Some (image s2) ->
  loop_post al (L ++ L1) s2 p op (i + 1) res -> loop_post al L s p op i res.
Proof.
  intros Hs Hs1 Hs2 Hop Hi Horig Hcal Hun Hoq Hfr1 Hall1 Hset (err & s' & Hres & [[-> (L' & Hs' & Hin & Hfr & Hlk & Hall)]|Hbad]).
  2: { exists err, s'. split; [done|]. by right. }
  pose proof (offset_bound o (lk_placed _ _ Hl) L p op Hop) as Hb. pose proof (total_app o L L1) as Htot.
  pose proof (total_nonneg o (lk_placed _ _ Hl) L1).
  exists 0, s'. split; [done|]. left. split; [done|]. exists (L1 ++ L'). rewrite app_assoc. split_and!; auto.
  - intros k Hk Hout. rewrite Hfr by lia. rewrite (zget_zset_ne _ _ _ _ _ Hset) by lia. apply Hfr1. lia.
  - intros j Hj. destruct (decide (j = i)) as [->|]; [|apply Hlk; lia].
    exists op, insn. split_and!; [by apply offset_app, offset_app|done|done|]. rewrite Hcal. exists oq. split; [by apply offset_app|].
    rewrite Hfr by lia. by rewrite (zget_zset_eq _ _ _ _ Hset).
  - intros p' j [Hp'|Hp']%elem_of_app Hj; [|by apply Hall].
    assert (p' ∈ L ++ L1) as HpL by (apply elem_of_app; by right).
    destruct (proj2 (offset_elem o _ _) HpL) as [op' Hop']. pose proof (offset_bound o (lk_placed _ _ Hl) _ _ _ Hop') as Hb'.
    assert (p <> p') as Hne.
    { intros <-. pose proof (so_nodup _ _ Hs1) as Hnd. apply NoDup_app in Hnd as (_ & Hnd & _). apply (Hnd p); [|done].
      apply (offset_elem o). eauto. }
    pose proof (offset_disjoint o (lk_placed _ _ Hl) (L ++ L1) p p' op op' Hne (offset_app o L L1 p op Hop) Hop') as Hdis.
    apply (linked_mono (L ++ L1) L' (image s1) (image s') p' j op' Hop'); [|by apply Hall1].
    rewrite Hfr by lia. apply (zget_zset_ne _ _ _ _ _ Hset). lia.
Qed.

(** Bringing [q] into the image, unless it is there. *)
Lemma ensure_linked al L s q Q Q' i : state_ok L s -> infos_ok L s -> zget (programs o) q = Some Q -> prog_is_subprog o Q = true ->
  zget (programs s) q = Some Q' -> (sub_insn_off Q' = 0 <-> q ∉ L) -> reachable o m q -> (length (programs o) <= n + length L)%nat ->
  exists err s', (if sub_insn_off Q' =? 0 then
       '(err, s) ← bpf_object__append_subprog_code (sub i (sub 0 al)) s m q;
       if negb (err =? 0) then Some (err, s) else rec (sub i (sub 1 al)) s q
     else Some (0, s)) = Some (err, s') /\
    (err = 0 /\ (exists L1, state_ok (L ++ L1) s' /\ infos_ok (L ++ L1) s' /\ q ∈ L ++ L1 /\
        (forall k, 0 <= k < total o L -> zget (image s') k = zget (image s) k) /\ linked_all (L ++ L1) (image s') L1) \/
     err <> 0 /\ failure al).
Proof.
  intros Hs Hi HQ Hsub HQ' Hmark Hreach Hn. destruct (Z.eqb_spec (sub_insn_off Q') 0) as [H0|Hne0].
  2: { exists 0, s. split; [done|]. left. split; [done|]. exists []. rewrite app_nil_r. split_and!; auto.
       - destruct (decide (q ∈ L)); [done|]. tauto.
       - by intros p j ?%elem_of_nil. }
  apply Hmark in H0. destruct (append_step (sub i (sub 0 al)) L s q Q Hs Hi HQ Hsub H0 Hreach) as (err & s1 & -> & Hres). cbn [mbind option_bind].
  destruct Hres as [(-> & Hs1 & Hi1 & Him)|[Hne Hf]]; cbn [Z.eqb negb].
  2: { rewrite (proj2 (Z.eqb_neq err 0) Hne). cbn [negb]. exists err, s1. split; [done|]. right. split; [done|]. left.
       by apply fails_sub, fails_sub in Hf. }
  pose proof (image_length _ _ Hs) as Hlen.
  destruct (Hrec (sub i (sub 1 al)) L s1 q Hs1 Hi1) as (err & s2 & -> & Hres); [|done|].
  { intros j Hj. unfold orig. rewrite HQ, Him, <- Hlen, zget_app_r by lia. done. }
  exists err, s2. split; [done|]. destruct Hres as [[-> (L' & Hs2 & Hi2 & Hfr & Hall)]|[Hne Hf]].
  2: { right. split; [done|]. by apply failure_sub, failure_sub in Hf. }
  left. split; [done|]. exists ([q] ++ L'). rewrite app_assoc. split_and!; auto.
  - apply elem_of_app. left. apply elem_of_app. right. left.
  - intros k Hk. rewrite Hfr by done. rewrite Him. apply zget_app_l. lia.
Qed.

Lemma call_target_err P i insn r e : find_call_target P i insn r = CallErr e -> e = - LIBBPF_ERRNO__RELOC.
Proof. unfold find_call_target. destruct r as [r|]; [destruct (r_type r)|]; [by intros [= <-]..|]. by destruct (insn_is_pseudo_func insn); intros [= <-]. Qed.

(** The patch of a call whose target is in the image, and what follows it. *)
Lemma call_step al L L1 s s1 p op i q Q insn k : state_ok L s -> state_ok (L ++ L1) s1 -> infos_ok (L ++ L1) s1 ->
  offset o L p = Some op -> 0 <= i < cnt o p -> orig p i = Some insn -> callee o p i = Some q -> ~ unresolved o p i ->
  zget (programs o) q = Some Q -> prog_is_subprog o Q = true -> q ∈ L ++ L1 ->
  (forall k, 0 <= k < total o L -> zget (image s1) k = zget (image s) k) -> linked_all (L ++ L1) (image s1) L1 ->
  code_from (image s1) op p i ->
  (forall s2, state_ok (L ++ L1) s2 -> infos_ok (L ++ L1) s2 -> code_from (image s2) op p (i + 1) ->
    loop_post al (L ++ L1) s2 p op (i + 1) (reloc_insns k rec al m p (i + 1) s2)) ->
  loop_post al L s p op i
    (m0 ← zget (programs s1) m;
     p0 ← zget (programs s1) p;
     s0 ← zget (programs s1) q;
     insn ← zget (insns m0) (sub_insn_off p0 + i);
     l ← zset (insns m0) (sub_insn_off p0 + i) (set_imm (s32 (sub_insn_off s0 - (sub_insn_off p0 + i) - 1)) insn);
     o ← update_prog s1 m (set_insns l);
     reloc_insns k rec al m p (i + 1) o).
Proof.
  intros Hs Hs1 Hi1 Hop Hi Horig Hcal Hun HQ Hsub HqL Hfr1 Hall1 Hcode Hnext.
  assert (p ∈ L ++ L1) as HpL by (apply elem_of_app; left; apply (offset_elem o); eauto).
  destruct (running _ s1 p Hs1 HpL) as (P & P' & op' & HP & HP' & _ & _ & _ & Hop' & Hsp & Hop0 & Hend & _).
  rewrite (offset_app o L L1 p op Hop) in Hop'. injection Hop' as <-.
  destruct (so_main _ _ Hs1) as (M & M' & HM & HM' & Hlike & Hc & Hr). assert (image s1 = insns M') as Him by (unfold image; by rewrite HM').
  destruct (mark_spec _ s1 q Q Hs1 HQ Hsub) as (Q' & HQ' & _ & Hoq). destruct (proj2 (offset_elem o _ _) HqL) as [oq Hq].
  rewrite HM', HP', HQ'. cbn [mbind option_bind]. rewrite Hsp, (Hoq oq Hq), <- Him, (Hcode i), Horig by lia. cbn [mbind option_bind].
  rewrite (cnt_at _ _ _ HP) in Hi. destruct (zset_is_Some (image s1) (op + i) (set_imm (s32 (oq - (op + i) - 1)) insn)) as [l Hset].
  { rewrite (image_length _ _ Hs1). lia. }
  rewrite Hset. cbn [mbind option_bind].
  destruct (main_update (L ++ L1) s1 M' (set_insns l) Hs1 HM') as (s2 & -> & Hs2 & HM2).
  { done. } { unfold insns_cnt in *. cbn. rewrite (zset_length _ _ _ _ Hset), Him. done. } { done. }
  cbn [mbind option_bind]. assert (image s2 = l) as Him2 by (unfold image; by rewrite HM2).
  apply (loop_call al L L1 s s1 s2 p op i q oq insn); auto; [by rewrite (cnt_at _ _ _ HP)|by rewrite Him2|]. apply Hnext; [done|..].
  - intros fi li Hx Hk. destruct (Hi1 fi li Hx Hk) as (M0 & HM0 & ? & ?). rewrite HM' in HM0. injection HM0 as <-. eexists. split; [exact HM2|done].
  - intros j Hj. rewrite Him2, (zget_zset_ne _ _ _ _ _ Hset) by lia. apply Hcode. lia.
Qed.

Lemma loop_spec k al L s p op i : state_ok L s -> infos_ok L s -> offset o L p = Some op -> 0 <= i -> i + Z.of_nat k = cnt o p ->
  code_from (image s) op p i -> (length (programs o) <= n + length L)%nat ->
  loop_post al L s p op i (reloc_insns k rec al m p i s).
Proof.
  revert L s i. induction k as [|k IH]; intros L s i Hs Hinf Hop Hi Hk Hcode Hn.
  { exists 0, s. split; [done|]. left. split; [done|]. exists []. rewrite app_nil_r. split_and!; auto; [lia|]. by intros q j ?%elem_of_nil. }
  cbn [reloc_insns]. assert (p ∈ L) as HpL by (apply (offset_elem o); eauto).
  destruct (running L s p Hs HpL) as (P & P' & op' & HP & HP' & Hsame & [Hfc _] & Hcnt & Hop' & Hsub & Hop0 & Hend & Hrelo).
  rewrite Hop in Hop'. injection Hop' as <-.
  destruct (so_main _ _ Hs) as (M & M' & HM & HM' & _). assert (image s = insns M') as Him by (unfold image; by rewrite HM').
  destruct (zget_is_Some (insns P) i) as [insn Hinsn]; [unfold insns_cnt in Hfc; lia|].
  assert (orig p i = Some insn) as Horig by (unfold orig; by rewrite HP).
  rewrite HM', HP'. cbn [mbind option_bind]. rewrite Hsub, <- Him, (Hcode i), Horig by lia. cbn [mbind option_bind].
  assert (call_of P i = if insn_is_subprog_call insn || insn_is_pseudo_func insn then Some (find_call_target P i insn (relo_at (relos P) i)) else None) as Hcall
    by (unfold call_of; by rewrite Hinsn).
  assert (callee o p i = match call_of P i with Some (CallTo t) => sub_at o t | _ => None end) as Hcallee by (unfold callee; by rewrite HP).
  assert (unresolved o p i <-> match call_of P i with Some (CallErr _) => True | Some (CallTo t) => sub_at o t = None | _ => False end) as Hunres.
  { unfold unresolved. rewrite HP. split; [by intros (? & [= <-] & ?)|by exists P]. }
  assert (loop_post al L s p op (i + 1) (reloc_insns k rec al m p (i + 1) s)) as Hnext.
  { apply IH; auto; [lia|lia|]. intros j Hj. apply Hcode. lia. }
  rewrite <- negb_orb. destruct (insn_is_subprog_call insn || insn_is_pseudo_func insn); cbn [negb]; rewrite Hcall in Hcallee, Hunres.
  2: { apply loop_skip; auto; [lia|]. tauto. }
  rewrite Hrelo by lia. cbn [mbind option_bind]. rewrite (find_call_target_ext P P') by done.
  destruct (find_call_target P i insn (relo_at (relos P) i)) as [|e|t] eqn:Ht.
  - apply loop_skip; auto; [lia|]. tauto.
  - apply call_target_err in Ht as ->. eexists _, s. split; [done|]. right. split; [done|]. right. left. exists p, i. split; [by apply (so_part _ _ Hs)|by apply Hunres].
  - rewrite (find_sub_spec L s t Hs). cbn [mbind option_bind]. destruct (sub_at o t) as [q|] eqn:Hq.
    2: { exists (- LIBBPF_ERRNO__RELOC), s. split; [done|]. right. split; [done|]. right. left. exists p, i.
         split; [by apply (so_part _ _ Hs)|by apply Hunres]. }
    destruct (callee_sub p i q Hcallee) as (Q & HQ & Hsubp). destruct (mark_spec L s q Q Hs HQ Hsubp) as (Q' & HQ' & Hmark & _).
    assert (reachable o m q) as Hreach.
    { eapply rtc_r; [apply (so_part _ _ Hs p HpL)|]. by exists i. }
    rewrite HQ'. cbn [mbind option_bind].
    destruct (ensure_linked al L s q Q Q' i Hs Hinf HQ Hsubp HQ' Hmark Hreach Hn) as (err & s1 & -> & Hres). cbn [mbind option_bind].
    destruct Hres as [[-> (L1 & Hs1 & Hi1 & HqL & Hfr1 & Hall1)]|[Hne Hf]]; cbn [Z.eqb negb].
    2: { rewrite (proj2 (Z.eqb_neq err 0) Hne). cbn [negb]. exists err, s1. split; [done|]. by right. }
    apply (call_step al L L1 s s1 p op i q Q insn); auto; [lia|by rewrite Hunres|by intros j Hj; rewrite Hfr1, Hcode by lia|].
    intros s2 Hs2 Hi2 Hcode2. apply IH; auto; [by apply offset_app|lia|lia|]. rewrite length_app. lia.
Qed.
End loop.

Lemma reloc_code_ok fuel : rec_ok (fun al s q => bpf_object__reloc_code fuel al s m q) fuel.
Proof.
  induction fuel as [|fuel IH]; intros al L s q Hs Hi Hcode Hn; destruct (state_bound _ _ Hs) as (_ & _ & Hlen); rewrite length_app in Hlen.
  { cbn in *. lia. }
  cbn [bpf_object__reloc_code]. destruct (info_step (sub (-1) al) L s q (so_nodup _ _ Hs) Hs Hi) as (err & s1 & -> & Hres). cbn [mbind option_bind].
  destruct Hres as [(-> & Hs1 & Hi1 & Him)|[Hne Hf]]; cbn [Z.eqb negb].
  2: { rewrite (proj2 (Z.eqb_neq err 0) Hne). cbn [negb]. exists err, s1. split; [done|]. right. split; [done|]. by apply failure_sub in Hf. }
  assert (q ∈ L ++ [q]) as HqL by (apply elem_of_app; right; left).
  destruct (running _ s1 q Hs1 HqL) as (P & P' & op & HP & HP' & (_ & _ & E3) & [Hfc _] & Hcnt & Hop & _).
  assert (q ∉ L) as Hq by (intros Hin; pose proof (so_nodup _ _ Hs) as Hnd; apply NoDup_app in Hnd as (_ & Hnd & _); apply (Hnd q Hin); left).
  rewrite (offset_new o L q Hq) in Hop. injection Hop as <-. rewrite HP'. cbn [mbind option_bind]. rewrite E3.
  pose proof (cnt_nonneg o (lk_placed _ _ Hl) q). pose proof (offset_bound o (lk_placed _ _ Hl) _ _ _ (offset_new o L q Hq)).
  destruct (loop_spec _ fuel IH (Z.to_nat (sec_insn_cnt P)) al (L ++ [q]) s1 q (total o L) 0 Hs1 Hi1 (offset_new o L q Hq))
    as (err & s2 & Hr & Hres); [lia|lia|by rewrite Him|rewrite length_app; cbn; lia|]. rewrite Hr. exists err, s2. split; [done|].
  destruct Hres as [[-> (L' & Hs2 & Hi2 & Hfr & Hlk & Hall)]|Hbad]; [|by right].
  left. split; [done|]. exists L'. split_and!; auto.
  - intros k Hk. rewrite <- Him. apply Hfr; lia.
  - intros p j [->|Hp]%elem_of_cons Hj; [by apply Hlk|by apply Hall].
Qed.

Lemma start_ok : exists M, zget (programs o) m = Some M /\ state_ok [m] o /\ infos_ok [] o /\ code_from (image o) 0 m 0.
Proof.
  destruct (lk_main _ _ Hl) as (M & HM & Hns & [Hc Hr] & Hz0 & Hfi & Hli). exists M. split; [done|]. split_and!.
  - split.
    + by destruct o.
    + done.
    + exists M, M. split_and!; auto.
      * by destruct M.
      * cbn. rewrite (cnt_at _ _ _ HM). lia.
      * cbn. rewrite HM, app_nil_r. cbn. destruct (placed_at _ _ _ (lk_placed _ _ Hl) HM). symmetry. apply (shift_relo_0 (sec_insn_cnt M)); [lia|done].
    + intros q Q Hq HQ. cbn. rewrite (proj2 (Z.eqb_neq m q)) by congruence. rewrite HQ. by destruct Q.
    + apply NoDup_singleton.
    + done.
    + intros q Hq%list_elem_of_singleton. subst. split; [by left|apply rtc_refl].
  - intros fi li _ _. exists M. split; [done|]. cbn. auto.
  - intros j Hj. unfold image, orig. rewrite HM. done.
Qed.

Lemma callee_range p i q : part p -> callee o p i = Some q -> 0 <= i < cnt o p.
Proof.
  intros Hp Hc. destruct (part_fresh p Hp) as (P & HP & [Hfc _] & _). unfold callee in Hc. rewrite HP in Hc. cbn [mbind option_bind] in Hc.
  unfold call_of in Hc. destruct (zget (insns P) i) as [insn|] eqn:E; [|done]. apply zget_lt in E. rewrite (cnt_at _ _ _ HP).
  unfold insns_cnt in Hfc. lia.
Qed.

Lemma linked_reach L s : state_ok L s -> linked_all L (image s) L -> forall q, q ∈ L <-> reachable o m q.
Proof.
  intros Hs Hall q. split; [by intros Hq; apply (so_part _ _ Hs)|]. intros Hr.
  assert (forall x y, rtc (calls o) x y -> x ∈ L -> y ∈ L) as Hclosed.
  { clear q Hr. intros x y Hr. induction Hr as [|x y z (i & Hc) _ IH]; intros Hx; [done|]. apply IH.
    destruct (so_part _ _ Hs x Hx) as [Hpart _]. destruct (Hall x i Hx (callee_range x i y Hpart Hc)) as (ox & insn & _ & _ & _ & Hm).
    rewrite Hc in Hm. destruct Hm as (oy & Hoy & _). apply (offset_elem o). eauto. }
  apply (Hclosed m q Hr). pose proof (so_head _ _ Hs). destruct L; [done|]. simplify_eq/=. left.
Qed.
End link.

(** ** Resetting the marks changes nothing that matters *)
Section reset.
Context (o : bpf_object).
Let o' := reset_subprogs o.

Lemma reset_get q : zget (programs o') q = (fun P => if prog_is_subprog o P then set_sub_insn_off 0 P else P) <$> zget (programs o) q.
Proof. apply zget_map. Qed.

Lemma reset_cnt q : cnt o' q = cnt o q.
Proof. unfold cnt. rewrite reset_get. destruct (zget (programs o) q) as [P|]; [|done]. cbn. by destruct (prog_is_subprog o P). Qed.

Lemma reset_total L : total o' L = total o L.
Proof. induction L as [|q L IH]; [done|]. cbn. rewrite reset_cnt. unfold total in IH. by rewrite IH. Qed.

Lemma reset_offset L q : offset o' L q = offset o L q.
Proof. induction L as [|p L IH]; [done|]. cbn. by rewrite IH, reset_cnt. Qed.

Lemma reset_relos base L : relos_from o' base L = relos_from o base L.
Proof.
  revert base. induction L as [|q L IH]; intros base; [done|]. cbn. rewrite reset_get, IH, reset_cnt.
  destruct (zget (programs o) q) as [P|]; [|done]. cbn. by destruct (prog_is_subprog o P).
Qed.

Lemma reset_sub_at t : sub_at o' t = sub_at o t.
Proof.
  unfold sub_at. apply find_idx_ext. change (efile o') with (efile o). unfold o', reset_subprogs. cbn [programs set_programs].
  rewrite <- list_fmap_compose. apply list_fmap_ext. intros i P _. cbn. by destruct (prog_is_subprog o P).
Qed.

Lemma reset_callee p i : callee o' p i = callee o p i.
Proof.
  unfold callee. rewrite reset_get. destruct (zget (programs o) p) as [P|]; [|done]. cbn.
  assert (call_of (if prog_is_subprog o P then set_sub_insn_off 0 P else P) i = call_of P i) as -> by (by destruct (prog_is_subprog o P)).
  destruct (call_of P i) as [[| |t]|]; try done. apply reset_sub_at.
Qed.

Lemma reset_unresolved p i : unresolved o' p i <-> unresolved o p i.
Proof.
  unfold unresolved. rewrite reset_get. destruct (zget (programs o) p) as [P|]; cbn; [|by split; intros (? & ? & _)].
  assert (call_of (if prog_is_subprog o P then set_sub_insn_off 0 P else P) i = call_of P i) as Hc by (by destruct (prog_is_subprog o P)).
  split; intros (? & [= <-] & H); eexists; (split; [done|]).
  - rewrite Hc in H. destruct (call_of P i) as [[| |t]|]; [done|done|exact (eq_trans (eq_sym (reset_sub_at t)) H)|done].
  - rewrite Hc. destruct (call_of P i) as [[| |t]|]; [done|done|exact (eq_trans (reset_sub_at t) H)|done].
Qed.

Lemma reset_reachable p q : reachable o' p q <-> reachable o p q.
Proof. split; apply rtc_subrel; intros x y [i Hi]; exists i; [by rewrite <- reset_callee|by rewrite reset_callee]. Qed.

Lemma reset_orig p j : orig o' p j = orig o p j.
Proof. unfold orig. rewrite reset_get. destruct (zget (programs o) p) as [P|]; [|done]. cbn. by destruct (prog_is_subprog o P). Qed.

Lemma reset_own ei q op : own o' ei q op = own o ei q op.
Proof. unfold own. rewrite reset_get. destruct (zget (programs o) q) as [P|]; [|done]. cbn. by destruct (prog_is_subprog o P). Qed.

Lemma reset_infos ei base L : infos_from o' ei base L = infos_from o ei base L.
Proof. revert base. induction L as [|q L IH]; intros base; [done|]. cbn. by rewrite reset_own, IH, reset_cnt. Qed.

Lemma reset_info_ok m ei L cur : info_ok o' m ei L cur <-> info_ok o m ei L cur.
Proof. unfold info_ok. destruct L; [done|]. by rewrite reset_own, reset_infos. Qed.

Lemma reset_failure m al : failure o' m al <-> failure o m al.
Proof.
  unfold failure. change (obj_btf_ext o') with (obj_btf_ext o).
  setoid_rewrite reset_reachable. setoid_rewrite reset_unresolved. by setoid_rewrite reset_own.
Qed.

Lemma reset_linkable m : linkable o m -> linkable o' m.
Proof.
  intros [Hp (M & HM & Hns & Hrest) Hs Hsz Hx]. split.
  - apply (same_sec_placed (programs o)); [apply length_map| |done]. intros i p p' Hi. rewrite reset_get, Hi. intros [= <-].
    by destruct (prog_is_subprog o p).
  - exists M. rewrite reset_get, HM. cbn. by rewrite Hns.
  - intros q Q. rewrite reset_get. intros (Q0 & HQ0 & ->)%fmap_Some. destruct (prog_is_subprog o Q0) eqn:E; [|unfold prog_is_subprog in *; cbn; congruence].
    intros _. exact (Hs q Q0 HQ0 E).
  - assert (all_progs o' = all_progs o) as -> by (unfold all_progs, o', reset_subprogs; cbn; by rewrite length_map). by rewrite reset_total.
  - done.
Qed.

Lemma reset_marks q Q : zget (programs o') q = Some Q -> prog_is_subprog o' Q = true -> sub_insn_off Q = 0.
Proof.
  rewrite reset_get. intros (Q0 & HQ0 & ->)%fmap_Some. destruct (prog_is_subprog o Q0) eqn:E; [done|]. unfold prog_is_subprog in *. cbn. congruence.
Qed.
End reset.

(** ** The linked program *)

(** Instruction [j] of program [p]: the original one, except that the displacement of a call
    leads to the copy of the called program. *)
Definition linked_at (o : bpf_object) (L : list Z) (img : list bpf_insn) (p j : Z) : Prop :=
  exists op insn, offset o L p = Some op /\ orig o p j = Some insn /\ ~ unresolved o p j /\
    match callee o p j with
    | Some q => exists oq d, offset o L q = Some oq /\ op + j + 1 + d = oq /\ zget img (op + j) = Some (set_imm d insn)
    | None => zget img (op + j) = Some insn
    end.

(** [M'] is the entry-point program [m] linked with the programs [L]. *)
Record linked_image (o : bpf_object) (m : Z) (L : list Z) (M' : bpf_program) : Prop := {
  li_once : NoDup L;
  li_head : head L = Some m;
  li_reach : forall q, q ∈ L <-> reachable o m q;
  li_len : insns_cnt M' = total o L;
  li_code : forall p j, p ∈ L -> 0 <= j < cnt o p -> linked_at o L (insns M') p j;
  li_relos : relos M' = relos_from o 0 L;
  li_infos : forall fi li, obj_btf_ext o = Some (fi, li) -> kernel_supports o (feat_btf_func o) = true ->
    info_ok o m fi L (func_info M') /\ info_ok o m li L (line_info M')
}.

(** Other programs keep all but the mark. *)
Definition others_kept (o : bpf_object) (m : Z) (L : list Z) (o' : bpf_object) : Prop :=
  forall q Q, q <> m -> zget (programs o) q = Some Q -> exists v, zget (programs o') q = Some (set_sub_insn_off v Q) /\
    (prog_is_subprog o Q = true -> v = default 0 (offset o L q)).

Lemma linked_at_insn o m L s : linkable o m -> state_ok (reset_subprogs o) m L s -> forall p j, linked_insn (reset_subprogs o) L (image m s) p j ->
  0 <= j < cnt o p -> linked_at o L (image m s) p j.
Proof.
  intros Hl Hs p j (op & insn & Hop & Ho & Hun & Hc) Hj. pose proof (reset_linkable o m Hl) as Hl'.
  destruct (state_bound _ _ Hl' _ _ Hs) as (_ & Ht & _). pose proof (offset_bound _ (lk_placed _ _ Hl') _ _ _ Hop) as Hb.
  rewrite reset_cnt in Hb. exists op, insn. rewrite reset_offset in Hop. rewrite reset_orig in Ho. rewrite reset_unresolved in Hun.
  split_and!; [done..|]. rewrite reset_callee in Hc. destruct (callee o p j) as [q|]; [|done]. destruct Hc as (oq & Hoq & Himg).
  pose proof (offset_bound _ (lk_placed _ _ Hl') _ _ _ Hoq) as Hbq. pose proof (cnt_nonneg _ (lk_placed _ _ Hl') q).
  rewrite reset_offset in Hoq. rewrite swrap_small in Himg by lia. exists oq, (oq - (op + j) - 1). split_and!; [done|lia|done].
Qed.

(** C5. Linking an entry-point program that has not been linked always returns.  If it returns
    0, the program's instructions are those of exactly the programs reachable by calls, each of
    them once, starting with the program itself; every instruction is the original one, except
    that the displacement of a call or of a function address leads to the first instruction of
    the copy of the subprogram it was meant for, and none is left unresolved.  The relocations
    and the function and line information are those of the programs, moved to the place of
    their copies, and other programs keep everything but their mark.  It fails only when memory
    runs out, when a reachable call leads to no subprogram, or when a reachable program lacks
    function or line information. *)
Theorem relocate_calls_links al o m : linkable o m ->
  exists err o', bpf_object__relocate_calls al o m = Some (err, o') /\
    (err = 0 /\ (exists L M', zget (programs o') m = Some M' /\ linked_image o m L M' /\ others_kept o m L o') \/
     err <> 0 /\ failure o m al).
Proof.
  intros Hl. pose proof (reset_linkable o m Hl) as Hl'. unfold bpf_object__relocate_calls.
  destruct (start_ok _ m Hl' (reset_marks o)) as (M & HM & Hs & Hi & Hcode).
  destruct (reloc_code_ok _ m Hl' (reset_marks o) (S (length (programs o))) al [] _ m Hs Hi Hcode) as (err & s & -> & Hres).
  { cbn. rewrite length_map. lia. }
  exists err, s. split; [done|]. destruct Hres as [[-> (L' & Hs' & Hi' & _ & Hall)]|[Hne Hf]]; [left|right; split; [done|by apply reset_failure]].
  split; [done|]. set (L := ([] ++ [m]) ++ L') in *. change (m :: L') with L in Hall.
  destruct (so_main _ _ _ _ Hs') as (M0 & M' & HM0 & HM' & _ & Hc & Hr). assert (image m s = insns M') as Him by (unfold image; by rewrite HM').
  exists L, M'. split; [done|]. split.
  - split; try apply Hs'; try done.
    + intros q. rewrite <- reset_reachable. by apply (linked_reach _ m Hl' L s).
    + by rewrite Hc, reset_total.
    + intros p j Hp Hj. rewrite <- Him. apply (linked_at_insn o m L s Hl Hs'); [|done]. apply Hall; [done|by rewrite reset_cnt].
    + by rewrite Hr, reset_relos.
    + intros fi li Hx Hk. destruct (Hi' fi li Hx Hk) as (M1 & HM1 & ? & ?). rewrite HM' in HM1. injection HM1 as <-. split; by apply reset_info_ok.
  - intros q Q Hq HQ. pose proof (so_sub _ _ _ _ Hs' q _ Hq ltac:(by rewrite reset_get, HQ)) as Hget. rewrite reset_offset in Hget.
    destruct (prog_is_subprog o Q) eqn:E; rewrite Hget.
    + eexists. split; [by destruct Q|]. intros _. cbn. by destruct (offset o L q).
    + eexists. split; [done|]. done.
Qed.

(** ** The records of a program *)

(** Records are ordered by the instruction they describe. *)
Definition rec_insn (r : ext_rec) : Z := hd 0 r / BPF_INSN_SZ.
Definition rec_in (P : bpf_program) (r : ext_rec) : Prop := sec_insn_off P <= rec_insn r < sec_insn_off P + sec_insn_cnt P.
#[global] Instance rec_in_dec P r : Decision (rec_in P r).
Proof. unfold rec_in. apply _. Defined.

Section records.
Context (P : bpf_program) (HP : in_section P).

Lemma copy_range_cons w r recs i a e : copy_range P ((w :: r) :: recs) i a e =
  if rec_insn (w :: r) <? sec_insn_off P then copy_range P recs (i + 1) a e
  else if sec_insn_off P + sec_insn_cnt P <=? rec_insn (w :: r) then Some (a, e)
  else copy_range P recs (i + 1) (match a with None => Some i | _ => a end) (i + 1).
Proof.
  cbn [copy_range head mbind option_bind]. pose proof (is_off _ HP). pose proof (is_cnt _ HP). pose proof (is_end _ HP).
  rewrite wrap_small by lia. by rewrite Z.geb_leb.
Qed.

Lemma filter_after recs x : StronglySorted (fun a b => rec_insn a <= rec_insn b) (x :: recs) -> sec_insn_off P + sec_insn_cnt P <= rec_insn x ->
  filter (rec_in P) (x :: recs) = [].
Proof.
  intros Hs%StronglySorted_inv Hx. destruct Hs as [_ Hs]. apply filter_none. constructor; [unfold rec_in; lia|].
  eapply Forall_impl; [exact Hs|]. intros y Hy. cbv beta in Hy. unfold rec_in. lia.
Qed.

Lemma copy_range_started recs i a : StronglySorted (fun a b => rec_insn a <= rec_insn b) recs -> Forall (fun r : ext_rec => r <> []) recs ->
  Forall (fun r => sec_insn_off P <= rec_insn r) recs ->
  copy_range P recs i (Some a) i = Some (Some a, i + Z.of_nat (length (filter (rec_in P) recs))) /\
  filter (rec_in P) recs = take (length (filter (rec_in P) recs)) recs.
Proof.
  intros Hs Hne Hge. revert i. induction recs as [|x recs IH]; intros i; [cbn; by rewrite Z.add_0_r|].
  apply Forall_cons in Hne as [Hx Hne], Hge as [Hgx Hge]. destruct x as [|w r]; [done|]. rewrite copy_range_cons.
  destruct (Z.ltb_spec (rec_insn (w :: r)) (sec_insn_off P)); [lia|]. destruct (Z.leb_spec (sec_insn_off P + sec_insn_cnt P) (rec_insn (w :: r))).
  - rewrite filter_after by done. cbn. by rewrite Z.add_0_r.
  - rewrite filter_cons_True by (unfold rec_in; lia). apply StronglySorted_inv in Hs as [Hs _].
    destruct (IH Hs Hne Hge (i + 1)) as [-> Ht]. cbn [length take]. split; [f_equal; f_equal; lia|]. by rewrite <- Ht.
Qed.

Lemma copy_range_sorted recs i e : StronglySorted (fun a b => rec_insn a <= rec_insn b) recs -> Forall (fun r : ext_rec => r <> []) recs ->
  filter (rec_in P) recs = [] /\ copy_range P recs i None e = Some (None, e) \/
  exists k, 0 <= k /\ filter (rec_in P) recs <> [] /\
    copy_range P recs i None e = Some (Some (i + k), i + k + Z.of_nat (length (filter (rec_in P) recs))) /\
    filter (rec_in P) recs = take (length (filter (rec_in P) recs)) (drop (Z.to_nat k) recs).
Proof.
  intros Hs Hne. revert i e. induction recs as [|x recs IH]; intros i e; [by left|]. apply Forall_cons in Hne as [Hx Hne].
  destruct x as [|w r]; [done|]. rewrite copy_range_cons. pose proof Hs as Hs0. apply StronglySorted_inv in Hs as [Hs Hall].
  destruct (Z.ltb_spec (rec_insn (w :: r)) (sec_insn_off P)) as [Hlt|Hge].
  - rewrite filter_cons_False by (unfold rec_in; lia). destruct (IH Hs Hne (i + 1) e) as [?|(k & Hk & Hf & Hc & Ht)]; [by left|right].
    exists (k + 1). split_and!; [lia|done| |].
    + rewrite Hc. do 2 f_equal; [f_equal|]; lia.
    + by replace (Z.to_nat (k + 1)) with (S (Z.to_nat k)) by lia.
  - destruct (Z.leb_spec (sec_insn_off P + sec_insn_cnt P) (rec_insn (w :: r))); [left; by rewrite filter_after|right].
    assert (Forall (fun r => sec_insn_off P <= rec_insn r) recs) as Hges by (eapply Forall_impl; [exact Hall|]; intros y Hy; cbv beta in Hy; lia).
    destruct (copy_range_started recs (i + 1) i Hs Hne Hges) as [Hc Ht]. exists 0.
    rewrite filter_cons_True by (unfold rec_in; lia). split_and!; [done|done| |].
    + rewrite Hc, Z.add_0_r. do 2 f_equal. cbn [length]. lia.
    + change (drop (Z.to_nat 0) ((w :: r) :: recs)) with ((w :: r) :: recs). cbn [length take]. by rewrite <- Ht.
Qed.
End records.

(** A record of instruction [s] of the section describes instruction [op + (s - sec_insn_off)]
    of the image. *)
Definition moved (P : bpf_program) (op : Z) (r : ext_rec) : ext_rec := (op + (rec_insn r - sec_insn_off P)) :: tail r.

Lemma own_records o ei q Q op recs : zget (programs o) q = Some Q -> in_section Q -> 0 <= op -> op + sec_insn_cnt Q < 2 ^ 31 ->
  recs_ok ei -> list_find (fun s => sec_idx Q = s.1) (ext_secs ei) = Some recs -> StronglySorted (fun a b => rec_insn a <= rec_insn b) recs.2.2 ->
  own o ei q op = match filter (rec_in Q) recs.2.2 with [] => None | l => Some (map (moved Q op) l) end.
Proof.
  intros HQ Hin Hop Hend Hok Hfind Hs. unfold own. rewrite HQ. cbn [mbind option_bind]. unfold adjust_prog_btf_ext_info.
  assert (Forall (fun r : ext_rec => r <> []) recs.2.2 /\
    adjust_secs true (set_sub_insn_off op Q) (rec_size ei) (ext_secs ei) None 0 =
    adjust_secs true (set_sub_insn_off op Q) (rec_size ei) [recs.2] None 0) as [Hne ->].
  { unfold recs_ok in Hok. revert recs Hfind Hs. induction Hok as [|[idx l] secs Hl _ IH]; intros [k [idx' l']] Hfind Hs; [done|].
    cbn [list_find] in Hfind. destruct (decide (sec_idx Q = (idx, l).1)) as [Heq|Hneq].
    - injection Hfind as <- <- <-. split; [done|]. cbn in *. by rewrite Heq, Z.eqb_refl.
    - destruct (list_find _ secs) as [[k' x]|] eqn:E; [|done]. cbn in Hfind. injection Hfind as <- ->.
      destruct (IH (k', (idx', l')) eq_refl Hs) as [? Heq]. split; [done|]. cbn [snd] in *. rewrite <- Heq.
      cbn in *. by rewrite (proj2 (Z.eqb_neq (sec_idx Q) idx)). }
  destruct recs as [k [idx l]]. cbn in *. apply list_find_Some in Hfind as (_ & Hidx & _). cbn in Hidx. rewrite Hidx, Z.eqb_refl. cbn [negb].
  rewrite (copy_range_ext Q (set_sub_insn_off op Q)) by done.
  destruct (copy_range_sorted Q Hin l 0 0 Hs Hne) as [[Hf ->]|(a & Ha & Hf & -> & Ht)]; cbn; [by rewrite Hf|].
  rewrite Z.add_0_l in *. replace (a + Z.of_nat (length (filter (rec_in Q) l)) - a) with (Z.of_nat (length (filter (rec_in Q) l))) by lia.
  rewrite Nat2Z.id, <- Ht. clear Ht.
  assert (map (adjust_rec (s32 (op - sec_insn_off Q))) (filter (rec_in Q) l) = map (moved Q op) (filter (rec_in Q) l)) as ->;
    [|by destruct (filter (rec_in Q) l)].
  apply list_fmap_ext. intros i r [Hr Hl]%list_elem_of_lookup_2%list_elem_of_filter. rewrite Forall_forall in Hne. specialize (Hne r Hl).
  destruct r as [|w r]; [done|]. unfold moved, adjust_rec, rec_in, rec_insn in *. cbn [tail hd] in *. f_equal. destruct Hin.
  rewrite swrap_small by lia. rewrite wrap_small by lia. lia.
Qed.

(** ** An example: a program that calls a subprogram that calls another *)
Definition demo_call (d : Z) : bpf_insn := Insn 0x85 0 BPF_PSEUDO_CALL 0 d.
Definition demo_exit : bpf_insn := Insn 0x95 0 0 0 0.
Definition demo_prog (idx o n : Z) (l : list bpf_insn) (r : list reloc_desc) : bpf_program :=
  Prog [] [] idx o n 0 l r true true false (-1) None 0 None 0.
Definition demo_elf : elf_state := Elf [] (fun _ => None) (fun _ => None) (fun _ => None) (fun _ => None) [] 0 1 0 0.
Definition demo_obj : bpf_object :=
  Obj demo_elf
    [demo_prog 1 0 1 [demo_exit] []; demo_prog 1 1 2 [demo_call (-2); demo_exit] [];
     demo_prog 2 0 3 [demo_call 0; demo_call (-1); demo_exit] [RelocDesc RELO_CALL 0 0 0 0; RelocDesc RELO_CALL 1 0 0 0]]
    [] [] 0 0 false None None false false.

Lemma zget_cases {A} (l : list A) i x : zget l i = Some x -> exists k, (k < length l)%nat /\ i = Z.of_nat k /\ l !! k = Some x.
Proof. intros H. exists (Z.to_nat i). pose proof (zget_lt _ _ _ H). apply zget_Some in H as [? H]. split_and!; [lia|lia|done]. Qed.

Lemma demo_linkable : linkable demo_obj 2.
Proof.
  assert (forall l : list reloc_desc, l = [] -> forall n, relos_sorted n l) as Hnil.
  { intros l -> n. split; [by intros r ?%elem_of_nil|by intros i j a b _ ?%zget_lt; cbn in *; lia]. }
  assert (relos_sorted 3 [RelocDesc RELO_CALL 0 0 0 0; RelocDesc RELO_CALL 1 0 0 0]) as Hrel.
  { split.
    - intros r Hr. repeat (apply elem_of_cons in Hr as [->|Hr]; [cbn; lia|]). by apply elem_of_nil in Hr.
    - intros i j a b Hij (k & Hk & -> & Ha)%zget_cases (k' & Hk' & -> & Hb)%zget_cases. cbn in Hk, Hk'.
      destruct k as [|[|k]], k' as [|[|k']]; try lia; cbn in Ha, Hb; simplify_eq; cbn; lia. }
  split.
  - split; [repeat constructor; cbn; lia|]. intros i j a b Hij (k & Hk & -> & Ha)%zget_cases (k' & Hk' & -> & Hb)%zget_cases. cbn in Hk, Hk'.
    destruct k as [|[|[|k]]], k' as [|[|[|k']]]; try lia; cbn in Ha, Hb; simplify_eq; unfold before; cbn; lia.
  - eexists. split; [reflexivity|]. split_and!; try reflexivity. split; [done|exact Hrel].
  - intros q Q (k & Hk & -> & HQ)%zget_cases Hs. cbn in Hk. destruct k as [|[|[|k]]]; try lia; cbn in HQ; injection HQ as <-;
      [split; [done|by apply Hnil]..|vm_compute in Hs; congruence].
  - reflexivity.
  - done.
Qed.

Lemma relocate_calls_links_witness : linkable demo_obj 2 /\
  exists o' L M', bpf_object__relocate_calls (fun _ => true) demo_obj 2 = Some (0, o') /\ zget (programs o') 2 = Some M' /\
    insns M' = [demo_call 2; demo_call 3; demo_exit; demo_call 1; demo_exit; demo_exit] /\ linked_image demo_obj 2 L M'.
Proof.
  split; [apply demo_linkable|].
  destruct (relocate_calls_links (fun _ => true) demo_obj 2 demo_linkable) as (err & o' & Hr & [[-> (L & M' & HM & Hli & _)]|[Hne _]]).
  - exists o', L, M'. split_and!; [done..| |done]. vm_compute in Hr. injection Hr as <-. vm_compute in HM. by injection HM as <-.
  - exfalso. vm_compute in Hr. congruence.
Defined.
