(* ===== verification/ObjDataSpec.v ===== *)
(** * Correctness of program creation and of data relocations

    The programs of a section are its function symbols, one for one ([add_programs_exact]);
    the relocation descriptors collected for them are valid: they name an instruction that can
    be relocated and an existing map or extern ([collect_relos_valid]); and with valid
    descriptors [bpf_object__relocate_data] rewrites exactly the instructions it should
    ([relocate_data_correct]). *)
From stdpp Require Import base numbers list gmap sorting.
From S2P Require Import Prelude Btf CoreRelo ObjProg ObjLink ObjLinkSpec.

(** ** Programs of a section *)
Lemma insns_of_length n bytes : length bytes = (8 * n)%nat -> length (insns_of bytes) = n.
Proof.
  revert bytes. induction n as [|n IH]; intros bytes H; [by destruct bytes|].
  do 8 (destruct bytes as [|? bytes]; [cbn in H; lia|]). cbn [insns_of length]. f_equal. apply IH. cbn in H. lia.
Qed.

(** The function symbols of section [idx]. *)
Definition is_func_sym (idx : Z) (sym : Elf64_Sym) : Prop := st_shndx sym = idx /\ ELF64_ST_TYPE (st_info sym) = STT_FUNC.
#[global] Instance is_func_sym_dec idx sym : Decision (is_func_sym idx sym).
Proof. unfold is_func_sym. apply _. Defined.

Definition slice (data : list Z) (o n : Z) : list Z := take (Z.to_nat n) (drop (Z.to_nat o) data).

(** [p] is the program of symbol [sym] in section [idx] with contents [data]. *)
Record sym_prog (e : elf_state) (data sname : list Z) (idx : Z) (sym : Elf64_Sym) (p : bpf_program) : Prop := {
  sp_name : elf_sym_str e (st_name sym) = Some (p_name p);
  sp_range : 0 <= st_value sym /\ 0 < st_size sym /\ st_value sym + st_size sym <= Z.of_nat (length data);
  sp_sec : sec_idx p = idx;
  sp_off : 8 * sec_insn_off p = st_value sym;
  sp_cnt : 8 * sec_insn_cnt p = st_size sym;
  sp_insns : insns p = insns_of (slice data (st_value sym) (st_size sym));
  sp_fresh : insns_cnt p = sec_insn_cnt p /\ relos p = [] /\ sub_insn_off p = 0 /\ func_info p = None /\ line_info p = None;
  sp_auto : autoload p = negb (bool_decide (head sname = Some QMARK));
  sp_glob : sym_global p = negb (ELF64_ST_BIND (st_info sym) =? STB_LOCAL);
  sp_text : idx = text_shndx e \/ sym_global p = true
}.

Definition sym_ok (sym : Elf64_Sym) : Prop := 0 <= st_value sym < 2 ^ 64 /\ 0 <= st_size sym < 2 ^ 64.

Lemma init_prog_spec al name idx sname sec_off data sz err r : 0 <= sec_off -> 0 <= sz -> sec_off + sz <= Z.of_nat (length data) ->
  bpf_object__init_prog al name idx sname sec_off (drop (Z.to_nat sec_off) data) sz = (err, r) ->
  match r with
  | None => err = - EINVAL /\ (sz = 0 \/ sz mod 8 <> 0 \/ sec_off mod 8 <> 0) \/ err = - ENOMEM /\ alloc_fails al
  | Some p => err = 0 /\ 0 < sz /\ p_name p = name /\ sec_idx p = idx /\ 8 * sec_insn_off p = sec_off /\ 8 * sec_insn_cnt p = sz /\
      insns p = insns_of (slice data sec_off sz) /\ insns_cnt p = sec_insn_cnt p /\ relos p = [] /\ sub_insn_off p = 0 /\
      func_info p = None /\ line_info p = None /\ autoload p = negb (bool_decide (head sname = Some QMARK))
  end.
Proof.
  intros Ho Hz Hend. unfold bpf_object__init_prog, BPF_INSN_SZ.
  destruct (Z.eqb_spec sz 0); cbn [orb]; [intros [= <- <-]; auto|].
  destruct (Z.eqb_spec (sz mod 8) 0) as [Hm|]; cbn [orb negb]; [|intros [= <- <-]; auto].
  destruct (Z.eqb_spec (sec_off mod 8) 0) as [Ho8|]; cbn [negb]; [|intros [= <- <-]; auto].
  destruct (match sname with c :: rest => if c =? QMARK then (false, rest) else (true, sname) | [] => (true, sname) end) as [auto sname'] eqn:Ea.
  assert (auto = negb (bool_decide (head sname = Some QMARK))) as ->.
  { destruct sname as [|c rest]; [by simplify_eq|]. cbn. destruct (Z.eqb_spec c QMARK) as [->|]; simplify_eq; [by rewrite bool_decide_true|].
    rewrite bool_decide_false; [done|congruence]. }
  destruct (al [0]) eqn:E0; cbn [negb]; [|intros [= <- <-]; right; split; [done|by exists [0]]].
  destruct (al [1]) eqn:E1; cbn [negb]; [|intros [= <- <-]; right; split; [done|by exists [1]]].
  destruct (al [2]) eqn:E2; cbn [negb]; [|intros [= <- <-]; right; split; [done|by exists [2]]].
  intros [= <- <-]. cbn. assert (8 * (sz / 8) = sz) by (Z.div_mod_to_equations; lia).
  split_and!; try done; try (Z.div_mod_to_equations; lia). unfold insns_cnt. cbn.
  rewrite (insns_of_length (Z.to_nat (sz / 8))); [lia|]. rewrite length_take, length_drop. lia.
Qed.

(** Why a symbol may be refused. *)
Definition bad_sym (e : elf_state) (data : list Z) (idx : Z) (sym : Elf64_Sym) : Prop :=
  elf_sym_str e (st_name sym) = None \/ Z.of_nat (length data) < st_value sym + st_size sym \/
  idx <> text_shndx e /\ ELF64_ST_BIND (st_info sym) = STB_LOCAL \/
  st_size sym = 0 \/ st_size sym mod 8 <> 0 \/ st_value sym mod 8 <> 0.

(** The outcome of a run over the symbols [syms]. *)
Definition adds (al : oracle) (e : elf_state) (data sname : list Z) (idx : Z) (syms : list Elf64_Sym) (progs : list bpf_program) (res : Z * list bpf_program) : Prop :=
  exists new, res.2 = progs ++ new /\
    (res.1 = 0 /\ Forall2 (sym_prog e data sname idx) (filter (is_func_sym idx) syms) new \/
     res.1 <> 0 /\ (alloc_fails al \/ exists sym, sym ∈ syms /\ is_func_sym idx sym /\ bad_sym e data idx sym)).

Lemma adds_skip al e data sname idx sym syms progs res : ~ is_func_sym idx sym -> adds al e data sname idx syms progs res ->
  adds al e data sname idx (sym :: syms) progs res.
Proof.
  intros Hn (new & Hnew & Hor). exists new. split; [done|]. rewrite filter_cons_False by done.
  destruct Hor as [?|[? [?|(x & ? & ? & ?)]]]; [by left|right; by auto|right]. split; [done|]. right. exists x. split_and!; [by right|done..].
Qed.

Lemma adds_stop al e data sname idx sym syms progs err : err <> 0 ->
  alloc_fails al \/ is_func_sym idx sym /\ bad_sym e data idx sym -> adds al e data sname idx (sym :: syms) progs (err, progs).
Proof.
  intros He Hwhy. exists []. rewrite app_nil_r. split; [done|]. right. split; [done|]. destruct Hwhy as [?|[? ?]]; [by left|right].
  exists sym. split; [by left|done].
Qed.

Lemma adds_cons al e data sname idx sym syms progs p res : is_func_sym idx sym -> sym_prog e data sname idx sym p ->
  adds al e data sname idx syms (progs ++ [p]) res -> adds al e data sname idx (sym :: syms) progs res.
Proof.
  intros Hf Hp (new & Hnew & Hor). exists (p :: new). split; [by rewrite Hnew, <- app_assoc|]. rewrite filter_cons_True by done.
  destruct Hor as [[? ?]|[? [?|(x & ? & ? & ?)]]]; [left; split; [done|by constructor]|right; by auto|right].
  split; [done|]. right. exists x. split_and!; [by right|done..].
Qed.

Lemma add_programs_loop_spec al e data sname idx syms : Forall sym_ok syms -> Z.of_nat (length data) < 2 ^ 63 -> forall i progs,
  adds al e data sname idx syms progs (add_programs_loop al e data sname idx i syms progs).
Proof.
  intros Hok Hlen. induction Hok as [|sym syms [Hv Hz] _ IH]; intros i progs; cbn [add_programs_loop].
  { exists []. rewrite app_nil_r. split; [done|]. by left. }
  destruct (Z.eqb_spec (st_shndx sym) idx) as [Hx|Hx]; cbn [negb]; [|apply adds_skip; [by intros []|apply IH]].
  destruct (Z.eqb_spec (ELF64_ST_TYPE (st_info sym)) STT_FUNC) as [Ht|Ht]; cbn [negb]; [|apply adds_skip; [by intros []|apply IH]].
  assert (is_func_sym idx sym) as Hf by done. unfold bad_sym in *.
  destruct (elf_sym_str e (st_name sym)) as [name|] eqn:Hname; [|apply adds_stop; [done|right; split; [done|]; by left]].
  assert ((u64 (st_value sym + st_size sym) >? Z.of_nat (length data)) || (u64 (st_value sym + st_size sym) <? st_value sym) =
    (Z.of_nat (length data) <? st_value sym + st_size sym)) as ->.
  { rewrite Z.gtb_ltb. unfold wrap. destruct (Z.ltb_spec (Z.of_nat (length data)) (st_value sym + st_size sym)).
    - apply orb_true_iff. rewrite !Z.ltb_lt. Z.div_mod_to_equations. lia.
    - rewrite Z.mod_small by lia. apply orb_false_iff. rewrite !Z.ltb_ge. lia. }
  destruct (Z.ltb_spec (Z.of_nat (length data)) (st_value sym + st_size sym)) as [Hr|Hr]; [apply adds_stop; [done|right; split; [done|]; right; by left]|].
  destruct (negb (idx =? text_shndx e) && (ELF64_ST_BIND (st_info sym) =? STB_LOCAL)) eqn:Hst.
  { apply andb_true_iff in Hst as [Hst1%negb_true_iff%Z.eqb_neq Hst2%Z.eqb_eq]. apply adds_stop; [done|]. right. split; [done|]. do 2 right. by left. }
  destruct (al [i; 0]) eqn:Ha; cbn [negb]; [|apply adds_stop; [done|left; by eexists]].
  destruct (bpf_object__init_prog _ name idx sname _ _ _) as [err r] eqn:Hinit.
  apply init_prog_spec in Hinit; [|lia..]. destruct r as [p|].
  2: { apply adds_stop; [destruct Hinit as [[-> _]|[-> _]]; done|]. destruct Hinit as [[_ Hbad]|[_ Hfl]].
       - right. split; [done|]. do 3 right. done.
       - left. by apply fails_sub, fails_sub in Hfl. }
  destruct Hinit as (_ & Hsz & Hn & Hsec & Hoff & Hcnt & Hins & Hic & Hre & Hsu & Hfi & Hli & Hau).
  eapply adds_cons; [done| |apply IH]. split; cbn; auto; try (by split_and!); [by rewrite Hn|lia|].
  apply andb_false_iff in Hst as [Hst%negb_false_iff%Z.eqb_eq|Hst]; [by left|right]. by rewrite Hst.
Qed.

(** [bpf_object__add_programs] makes exactly one program of every function symbol of the
    section, in the order of the symbols: it holds the instructions the symbol covers, all of
    them inside the section, and starts without relocations.  It fails only for lack of memory
    or because a function symbol has no name, leaves the section, is empty or not aligned to
    instructions, or is a static function outside .text. *)
Theorem add_programs_exact al o data sname idx : Forall sym_ok (symbols (efile o)) -> Z.of_nat (length data) < 2 ^ 63 ->
  exists err new, bpf_object__add_programs al o data sname idx = (err, set_programs (programs o ++ new) o) /\
    (err = 0 /\ Forall2 (sym_prog (efile o) data sname idx) (filter (is_func_sym idx) (symbols (efile o))) new \/
     err <> 0 /\ (alloc_fails al \/ exists sym, sym ∈ symbols (efile o) /\ is_func_sym idx sym /\ bad_sym (efile o) data idx sym)).
Proof.
  intros Hok Hlen. unfold bpf_object__add_programs.
  pose proof (add_programs_loop_spec al (efile o) data sname idx _ Hok Hlen 0 (programs o)) as Hadds.
  destruct (add_programs_loop _ _ _ _ _ _ _ _) as [err progs]. destruct Hadds as (new & Hnew & Hor). cbn in Hnew. subst progs. eauto.
Qed.

(** ** Relocation descriptors *)

(** [k] is the index of the first element with [Q]. *)
Definition first_at {A} (Q : A -> Prop) (l : list A) (k : Z) : Prop :=
  exists x, zget l k = Some x /\ Q x /\ forall j y, zget l j = Some y -> j < k -> ~ Q y.

Lemma find_idx_first {A} (f : A -> bool) (Q : A -> Prop) l : (forall x, f x = true <-> Q x) ->
  match find_idx f l 0 with Some k => first_at Q l k | None => forall k, ~ first_at Q l k end.
Proof.
  intros Hf. destruct (find_idx f l 0) as [k|] eqn:E.
  - apply find_idx_Some in E as (_ & x & Hx & Hfx & Hlt). rewrite Z.sub_0_r in *. exists x. split; [done|]. split; [by apply Hf|].
    intros j y Hy Hj HQ%Hf. by rewrite (Hlt j y Hy Hj) in HQ.
  - intros k (x & Hx & HQ%Hf & _). rewrite (find_idx_None _ _ _ E x) in HQ; [done|]. by eapply zget_elem.
Qed.

(** Symbols of externs: undefined, global or weak, without a type. *)
Definition extern_sym (sym : Elf64_Sym) : Prop :=
  st_shndx sym = 0 /\ (ELF64_ST_BIND (st_info sym) = 1 \/ ELF64_ST_BIND (st_info sym) = 2) /\ ELF64_ST_TYPE (st_info sym) = 0.

(** Symbols that stand for subprograms: .text itself, or a global or weak function of it. *)
Definition subprog_sym (text : Z) (sym : Elf64_Sym) : Prop :=
  st_shndx sym = text /\
  (ELF64_ST_BIND (st_info sym) = 0 /\ ELF64_ST_TYPE (st_info sym) = 3 \/
   (ELF64_ST_BIND (st_info sym) = 1 \/ ELF64_ST_BIND (st_info sym) = 2) /\ ELF64_ST_TYPE (st_info sym) = 2).

(** The type of the map of a data section. *)
Definition data_kind (k : sec_type) : option libbpf_map_type :=
  match k with SEC_BSS => Some LIBBPF_MAP_BSS | SEC_DATA => Some LIBBPF_MAP_DATA | SEC_RODATA => Some LIBBPF_MAP_RODATA | _ => None end.
Definition data_map (e : elf_state) (sec : Z) (ty : libbpf_map_type) : Prop :=
  exists k t, zget (secs e) sec = Some k /\ data_kind k = Some t /\ ty = if decide (sec = symbols_shndx e) then LIBBPF_MAP_KCONFIG else t.

(** What a relocation of an instruction [insn] against a symbol may be, and what it refers to.  Calls and 64-bit
    loads can be relocated against an extern: the first one of that symbol.  A call of a subprogram goes to an
    instruction of .text.  A 64-bit load, of a symbol of a section, takes the address of a
    subprogram, a map of the section of maps (the first one at the place of the symbol), or an
    offset into the map of a data section or into the arena map. *)
Definition relo_of (o : bpf_object) (sym : Elf64_Sym) (rel : Elf64_Rel) (insn : bpf_insn) (d : reloc_desc) : Prop :=
  let e := efile o in
  let sec := st_shndx sym in
  let is_extern x := ext_sym_idx x = s32 (ELF64_R_SYM (r_info rel)) in
  let load := ~ extern_sym sym /\ is_ldimm64_insn insn = true /\ sec <> 0 /\ sec < SHN_LORESERVE in
  match r_type d with
  | RELO_EXTERN_CALL => extern_sym sym /\ is_call_insn insn = true /\ first_at is_extern (externs o) (ext_idx d)
  | RELO_EXTERN_LD64 => extern_sym sym /\ is_ldimm64_insn insn = true /\ first_at is_extern (externs o) (ext_idx d)
  | RELO_CALL => ~ extern_sym sym /\ is_call_insn insn = true /\ src_reg insn = BPF_PSEUDO_CALL /\ sec <> 0 /\ sec = text_shndx e /\
      st_value sym mod 8 = 0 /\ sym_off d = s32 (st_value sym)
  | RELO_SUBPROG_ADDR => load /\ subprog_sym (text_shndx e) sym /\ st_value sym mod 8 = 0 /\ u64 (imm insn) mod 8 = 0 /\ sym_off d = s32 (st_value sym)
  | RELO_LD64 => load /\ ~ subprog_sym (text_shndx e) sym /\ sec <> arena_data_shndx e /\ sec = btf_maps_shndx e /\ sec <> symbols_shndx e /\
      (forall ty, ~ data_map e sec ty) /\ sym_off d = 0 /\
      first_at (fun m => libbpf_type m = LIBBPF_MAP_UNSPEC /\ map_sec_idx m = sec /\ map_sec_offset m = st_value sym) (maps o) (map_idx d)
  | RELO_DATA => load /\ ~ subprog_sym (text_shndx e) sym /\ sym_off d = s32 (st_value sym) /\
      (sec = arena_data_shndx e /\ 0 <= arena_map_idx o /\ map_idx d = arena_map_idx o \/
       sec <> arena_data_shndx e /\ exists ty, data_map e sec ty /\
         first_at (fun m => libbpf_type m = ty /\ map_sec_idx m = sec) (maps o) (map_idx d))
  | RELO_CORE => False
  end.

Lemma extern_sym_spec sym : sym_is_extern sym = true <-> extern_sym sym.
Proof. unfold sym_is_extern, extern_sym. rewrite !andb_true_iff, orb_true_iff, !Z.eqb_eq. unfold SHN_UNDEF, STB_GLOBAL, STB_WEAK, STT_NOTYPE. tauto. Qed.
Lemma subprog_sym_spec text sym : sym_is_subprog sym text = true <-> subprog_sym text sym.
Proof.
  unfold sym_is_subprog, subprog_sym, STB_LOCAL, STB_GLOBAL, STB_WEAK, STT_SECTION, STT_FUNC. destruct (Z.eqb_spec (st_shndx sym) text); cbn [negb]; [|naive_solver].
  destruct (Z.eqb_spec (ELF64_ST_BIND (st_info sym)) 0), (Z.eqb_spec (ELF64_ST_TYPE (st_info sym)) 3); cbn [andb];
    rewrite ?andb_true_iff, ?orb_true_iff, ?Z.eqb_eq; intuition congruence.
Qed.

(** The section kinds decide between the section of maps and the data sections. *)
Lemma section_type_spec e sec : 0 <= sec < sec_cnt e -> exists ty b,
  bpf_object__section_to_libbpf_map_type e sec = Some ty /\ bpf_object__shndx_is_data e sec = Some b /\
  (ty = LIBBPF_MAP_UNSPEC <-> sec <> symbols_shndx e /\ forall ty', ~ data_map e sec ty') /\
  (ty <> LIBBPF_MAP_UNSPEC -> forall ty', data_map e sec ty' <-> b = true /\ ty' = ty).
Proof.
  intros Hs. destruct (zget_is_Some (secs e) sec Hs) as [k Hk].
  assert (forall ty, data_map e sec ty <-> exists t, data_kind k = Some t /\ ty = if decide (sec = symbols_shndx e) then LIBBPF_MAP_KCONFIG else t) as Hd.
  { intros ty. unfold data_map. rewrite Hk. naive_solver. }
  unfold bpf_object__section_to_libbpf_map_type, bpf_object__shndx_is_data. rewrite Hk. cbn [mbind option_bind]. setoid_rewrite Hd. clear Hd.
  destruct (Z.eqb_spec sec (symbols_shndx e)) as [E|E]; eexists _, _; (split; [done|]); (split; [done|]);
    destruct (decide (sec = symbols_shndx e)); try done; destruct k; cbn; split; naive_solver.
Qed.

(** The descriptor that is made is one the relation allows, and none is made only when it allows none. *)
Lemma record_reloc_spec o P d i sym rel insn : 0 <= st_shndx sym < sec_cnt (efile o) -> zget (insns P) i = Some insn ->
  exists err d', bpf_program__record_reloc o P d i sym rel = Some (err, d') /\
    (err = 0 /\ insn_idx d' = i /\ relo_of o sym rel insn d' \/ err <> 0 /\ forall x, ~ relo_of o sym rel insn x).
Proof.
  intros Hs Hi. unfold bpf_program__record_reloc. rewrite Hi. cbn [mbind option_bind].
  assert (forall r, (forall x, ~ relo_of o sym rel insn x) -> exists err d', Some (- LIBBPF_ERRNO__RELOC, r) = Some (err, d') /\
    (err = 0 /\ insn_idx d' = i /\ relo_of o sym rel insn d' \/ err <> 0 /\ forall x, ~ relo_of o sym rel insn x)) as Hno.
  { intros r Hr. eexists _, _. split; [done|]. by right. }
  assert (forall r, insn_idx r = i -> relo_of o sym rel insn r -> exists err d', Some (0, r) = Some (err, d') /\
    (err = 0 /\ insn_idx d' = i /\ relo_of o sym rel insn d' \/ err <> 0 /\ forall x, ~ relo_of o sym rel insn x)) as Hyes.
  { intros r Hr1 Hr2. eexists _, _. split; [done|]. by left. }
  destruct (section_type_spec (efile o) (st_shndx sym) Hs) as (ty & b & Hty & Hb & Hun & Hdm). rewrite Hty, Hb. cbn [mbind option_bind].
  pose proof (extern_sym_spec sym) as Hex. pose proof (subprog_sym_spec (text_shndx (efile o)) sym) as Hsub.
  pose proof (find_idx_first (fun x => ext_sym_idx x =? s32 (ELF64_R_SYM (r_info rel))) _ (externs o) (fun x => Z.eqb_eq _ _)) as Hxf.
  assert (is_call_insn insn = true -> is_ldimm64_insn insn = false) as Hcl.
  { unfold is_call_insn, is_ldimm64_insn. intros Hc%Z.eqb_eq. by rewrite Hc. }
  unfold relo_of in *. destruct (sym_is_extern sym).
  { assert (extern_sym sym) as Hx by (by apply Hex). destruct (is_call_insn insn) eqn:Hc; [|destruct (is_ldimm64_insn insn) eqn:Hld]; cbn [negb andb].
    - rewrite Hcl in * by done. unfold is_call_insn in Hc. rewrite Hc. destruct (find_idx _ _ _); [apply Hyes; [done|]; cbn; auto|].
      apply Hno. intros x. destruct (r_type x); naive_solver.
    - unfold is_call_insn in Hc. rewrite Hc. destruct (find_idx _ _ _); [apply Hyes; [done|]; cbn; auto|].
      apply Hno. intros x. destruct (r_type x); naive_solver.
    - apply Hno. intros x. destruct (r_type x); naive_solver. }
  assert (~ extern_sym sym) as Hx by (intros ?%Hex; done). clear Hex Hxf.
  destruct (is_call_insn insn) eqn:Hc; cbn [negb andb].
  { rewrite Hcl in * by done. unfold BPF_INSN_SZ.
    destruct (Z.eqb_spec (src_reg insn) BPF_PSEUDO_CALL); cbn [negb]; [|apply Hno; intros x; destruct (r_type x); naive_solver].
    destruct (Z.eqb_spec (st_shndx sym) 0); cbn [orb]; [apply Hno; intros x; destruct (r_type x); naive_solver|].
    destruct (Z.eqb_spec (st_shndx sym) (text_shndx (efile o))); cbn [negb]; [|apply Hno; intros x; destruct (r_type x); naive_solver].
    destruct (Z.eqb_spec (st_value sym mod 8) 0); cbn [negb]; [|apply Hno; intros x; destruct (r_type x); naive_solver].
    apply Hyes; [done|]. cbn. auto 10. }
  clear Hcl. destruct (is_ldimm64_insn insn) eqn:Hld; cbn [negb]; [|apply Hno; intros x; destruct (r_type x); naive_solver].
  destruct (Z.eqb_spec (st_shndx sym) 0); cbn [orb]; [apply Hno; intros x; destruct (r_type x); naive_solver|].
  rewrite Z.geb_leb. destruct (Z.leb_spec SHN_LORESERVE (st_shndx sym)); [apply Hno; intros x; destruct (r_type x); intros Hrx; cbv zeta in *; destruct_and?; first [done|lia]|].
  destruct (sym_is_subprog sym _).
  { assert (subprog_sym (text_shndx (efile o)) sym) as Hsp by (by apply Hsub). unfold BPF_INSN_SZ.
    destruct (Z.eqb_spec (st_value sym mod 8) 0); cbn [negb orb]; [|apply Hno; intros x; destruct (r_type x); naive_solver].
    destruct (Z.eqb_spec (u64 (imm insn) mod 8) 0); cbn [negb]; [|apply Hno; intros x; destruct (r_type x); naive_solver].
    apply Hyes; [done|]. cbn. auto 10. }
  assert (~ subprog_sym (text_shndx (efile o)) sym) as Hsp by (intros ?%Hsub; done). clear Hsub.
  destruct (Z.eqb_spec (st_shndx sym) (arena_data_shndx (efile o))) as [Ear|Ear].
  { destruct (Z.ltb_spec (arena_map_idx o) 0); [apply Hno; intros x; destruct (r_type x); intros Hrx; cbv zeta in *; destruct_and?; try done; destruct_or?; destruct_and?; first [done|lia]|].
    apply Hyes; [done|]. cbn. auto 12. }
  destruct (decide (ty = LIBBPF_MAP_UNSPEC)) as [Et|Et].
  - destruct (proj1 Hun Et) as [Hsy Hnd]. unfold bpf_object__shndx_is_maps.
    destruct (Z.eqb_spec (st_shndx sym) (btf_maps_shndx (efile o))); cbn [negb]; [|apply Hno; intros x; destruct (r_type x); naive_solver].
    pose proof (find_idx_first (fun m => bool_decide (libbpf_type m = ty) && (map_sec_idx m =? st_shndx sym) && (map_sec_offset m =? st_value sym))
      (fun m => libbpf_type m = LIBBPF_MAP_UNSPEC /\ map_sec_idx m = st_shndx sym /\ map_sec_offset m = st_value sym) (maps o)) as Hf.
    assert (forall m, bool_decide (libbpf_type m = ty) && (map_sec_idx m =? st_shndx sym) && (map_sec_offset m =? st_value sym) = true <->
      libbpf_type m = LIBBPF_MAP_UNSPEC /\ map_sec_idx m = st_shndx sym /\ map_sec_offset m = st_value sym) as Hm.
    { intros m. rewrite !andb_true_iff, bool_decide_eq_true, !Z.eqb_eq, Et. tauto. }
    specialize (Hf Hm). clear Hm. destruct (find_idx _ _ _) as [k|].
    + apply Hyes; [done|]. cbn. split_and!; auto.
    + apply Hno. intros x. destruct (r_type x); intros Hrx; cbv zeta in *; destruct_and?; try done; [match goal with H : first_at _ _ _ |- _ => by apply Hf in H end|].
      destruct_or?; destruct_and?; [done|]. naive_solver.
  - pose proof (Hdm Et) as Hd. destruct b; cbn [negb].
    + pose proof (find_idx_first (fun m => bool_decide (libbpf_type m = ty) && (map_sec_idx m =? st_shndx sym))
        (fun m => libbpf_type m = ty /\ map_sec_idx m = st_shndx sym) (maps o)) as Hf.
      assert (forall ty', data_map (efile o) (st_shndx sym) ty' <-> ty' = ty) as Hd' by (intros; rewrite Hd; tauto).
      destruct (find_idx _ _ _) as [k|].
      * apply Hyes; [done|]. cbn. split_and!; auto. right. split; [done|]. exists ty. split; [by apply Hd'|]. apply Hf. intros m. rewrite andb_true_iff, bool_decide_eq_true, Z.eqb_eq. tauto.
      * apply Hno. assert (forall k, ~ first_at (fun m => libbpf_type m = ty /\ map_sec_idx m = st_shndx sym) (maps o) k) as Hk
          by (apply Hf; intros m; rewrite andb_true_iff, bool_decide_eq_true, Z.eqb_eq; tauto).
        intros x. destruct (r_type x); naive_solver.
    + apply Hno. intros x. destruct (r_type x); naive_solver.
Qed.

(** ** Collecting the relocations of a section *)
Lemma covers_unique ps idx t i j a b : placed ps -> zget ps i = Some a -> zget ps j = Some b ->
  covers idx t a = true -> covers idx t b = true -> i = j.
Proof.
  intros Hp Ha Hb Hca%covers_spec Hcb%covers_spec. destruct (Z.lt_trichotomy i j) as [Hlt|[?|Hgt]]; [|done|].
  - pose proof (proj2 Hp _ _ _ _ Hlt Ha Hb) as Hbf. unfold before in Hbf. lia.
  - pose proof (proj2 Hp _ _ _ _ Hgt Hb Ha) as Hbf. unfold before in Hbf. lia.
Qed.

Section collect.
Context (o : bpf_object) (idx d_size : Z).
Context (Hp : placed (programs o)) (Hfresh : forall p P, zget (programs o) p = Some P -> insns_cnt P = sec_insn_cnt P).
Context (Hsyms : Forall (fun s => 0 <= st_shndx s) (symbols (efile o))).

(** The instruction of the section an entry is for; whether it lies in a program. *)
Definition rel_insn (rel : Elf64_Rel) : Z := u32 (r_offset rel / BPF_INSN_SZ).
Definition falls (P : bpf_program) (rel : Elf64_Rel) : Prop := covers idx (rel_insn rel) P = true.
#[global] Instance falls_dec P rel : Decision (falls P rel).
Proof. unfold falls. apply _. Defined.

(** An entry is well formed: it is at an instruction inside the section, and its symbol is in the
    symbol table and has a section of the file. *)
Definition rel_ok (rel : Elf64_Rel) : Prop :=
  r_offset rel mod 8 = 0 /\ r_offset rel < d_size /\
  exists sym, zget (symbols (efile o)) (ELF64_R_SYM (r_info rel)) = Some sym /\ st_shndx sym < sec_cnt (efile o).

(** [d] describes entry [rel], which falls into program [P]: its instruction, and a relocation that the instruction and
    the symbol allow. *)
Definition recorded (P : bpf_program) (rel : Elf64_Rel) (d : reloc_desc) : Prop :=
  insn_idx d = rel_insn rel - sec_insn_off P /\
  exists sym insn, zget (symbols (efile o)) (ELF64_R_SYM (r_info rel)) = Some sym /\ zget (insns P) (insn_idx d) = Some insn /\ relo_of o sym rel insn d.

(** The entries [done] have been processed. *)
Definition collected (done : list Elf64_Rel) (ps : list bpf_program) : Prop :=
  length ps = length (programs o) /\ Forall rel_ok done /\
  forall p P, zget (programs o) p = Some P -> exists new, zget ps p = Some (set_relos (relos P ++ new) P) /\
    Forall2 (recorded P) (filter (falls P) done) new.

(** Why no more entries are processed after [done]: the data has no further one, or the next one
    is not well formed, lies in a program but allows no relocation, or memory is short. *)
Definition refused (al : oracle) (rels done : list Elf64_Rel) : Prop :=
  alloc_fails al \/ done = rels \/
  exists rel, rels !! length done = Some rel /\ done = take (length done) rels /\
    (~ rel_ok rel \/ exists p P, zget (programs o) p = Some P /\ falls P rel /\ forall d, ~ recorded P rel d).

Lemma collected_placed done ps : collected done ps -> placed ps.
Proof.
  intros (Hlen & _ & Hc). apply (same_sec_placed (programs o)); [done| |done]. intros i p p' Hi Hi'.
  destruct (Hc i p Hi) as (new & Hn & _). rewrite Hn in Hi'. by injection Hi' as <-.
Qed.

Lemma collected_find done ps t : collected done ps -> find_prog_by_sec_insn (set_programs ps o) idx t = Some (find_idx (covers idx t) (programs o) 0).
Proof.
  intros Hc. rewrite find_prog_spec by (by eapply collected_placed). f_equal. apply find_idx_ext, list_eq. intros i. rewrite !list_lookup_fmap.
  destruct Hc as (Hlen & _ & Hc). destruct (programs o !! i) as [P|] eqn:E.
  - destruct (Hc (Z.of_nat i) P) as (new & Hn & _); [apply zget_Some; rewrite Nat2Z.id; split; [lia|done]|].
    apply zget_Some in Hn as [_ Hn]. rewrite Nat2Z.id in Hn. cbn. by rewrite Hn.
  - apply lookup_ge_None in E. cbn. rewrite (proj2 (lookup_ge_None ps i)) by lia. done.
Qed.

Lemma collected_skip done ps rel : collected done ps -> rel_ok rel -> find_idx (covers idx (rel_insn rel)) (programs o) 0 = None -> collected (done ++ [rel]) ps.
Proof.
  intros (Hlen & Hok & Hc) Hrel Hn. split; [done|]. split; [by apply Forall_app_2; [|apply Forall_singleton]|]. intros p P HP. destruct (Hc p P HP) as (new & Hg & Hf). exists new. split; [done|].
  rewrite filter_app, filter_cons_False; [by rewrite app_nil_r|]. unfold falls.
  rewrite (find_idx_None _ _ _ Hn P); [done|]. by eapply zget_elem.
Qed.

Lemma collected_add done ps ps' rel p P P' d : collected done ps -> rel_ok rel -> zget (programs o) p = Some P -> zget ps p = Some P' ->
  covers idx (rel_insn rel) P = true -> recorded P rel d -> zset ps p (set_relos (relos P' ++ [d]) P') = Some ps' ->
  collected (done ++ [rel]) ps'.
Proof.
  intros (Hlen & Hok & Hc) Hrel HP HP' Hcov Hrec Hset. split; [by rewrite (zset_length _ _ _ _ Hset)|].
  split; [by apply Forall_app_2; [|apply Forall_singleton]|]. intros q Q HQ.
  destruct (Hc q Q HQ) as (new & Hg & Hf). rewrite filter_app. destruct (decide (q = p)) as [->|Hne].
  - simplify_eq. exists (new ++ [d]). split; [rewrite (zget_zset_eq _ _ _ _ Hset); cbn; by rewrite app_assoc|].
    apply Forall2_app; [done|]. rewrite filter_cons_True by done. by constructor.
  - exists new. split; [by rewrite (zget_zset_ne _ _ _ _ _ Hset)|]. rewrite filter_cons_False; [by rewrite app_nil_r|].
    intros Hf'. apply Hne. by eapply covers_unique.
Qed.

Lemma collect_loop_spec rels al mem done ps n i : Forall (fun r => 0 <= r_offset r) rels -> collected done ps -> 0 <= i ->
  i <= Z.of_nat (length rels) -> done = take (Z.to_nat i) rels ->
  exists err o', collect_relos_loop n al mem idx d_size rels i (set_programs ps o) = Some (err, o') /\
    exists done' ps', o' = set_programs ps' o /\ collected done' ps' /\
      (err = 0 /\ done' = take (Z.to_nat i + n) rels \/ err <> 0 /\ refused al rels done').
Proof.
  intros Hrels. revert done ps i. induction n as [|n IH]; intros done ps i Hc Hi Hle Hdone; cbn [collect_relos_loop].
  { exists 0, (set_programs ps o). split; [done|]. exists done, ps. split_and!; [done..|]. left. by rewrite Nat.add_0_r. }
  assert (forall e, e <> 0 -> refused al rels done -> exists err o', Some (e, set_programs ps o) = Some (err, o') /\ exists done' ps', o' = set_programs ps' o /\
    collected done' ps' /\ (err = 0 /\ done' = take (Z.to_nat i + S n) rels \/ err <> 0 /\ refused al rels done')) as Hstop.
  { intros e He Hr. eexists _, _. split; [done|]. exists done, ps. auto. }
  change (efile (set_programs ps o)) with (efile o). destruct (zget rels i) as [rel|] eqn:Hrel.
  2: { apply Hstop; [done|]. right. left. rewrite Hdone. apply take_ge. destruct (decide (Z.to_nat i < length rels)%nat); [|lia].
       destruct (zget_is_Some rels i) as [x Hx]; [lia|]. congruence. }
  apply zget_Some in Hrel as [_ Hrel]. assert (length done = Z.to_nat i) as Hlen by (rewrite Hdone, length_take; lia).
  assert (rels !! length done = Some rel /\ done = take (length done) rels) as [Hn1 Hn2] by (by rewrite Hlen).
  assert (~ rel_ok rel -> refused al rels done) as Hbad by (intros; right; right; exists rel; auto).
  destruct (zget (symbols (efile o)) _) as [sym|] eqn:Hsym; [|apply Hstop; [done|]; apply Hbad; intros (_ & _ & s & ? & _); congruence].
  rewrite Z.geb_leb. destruct (Z.leb_spec (sec_cnt (efile o)) (st_shndx sym)) as [Hsec|Hsec].
  { apply Hstop; [done|]. apply Hbad. intros (_ & _ & s & Hs & ?). rewrite Hsym in Hs. injection Hs as <-. lia. }
  unfold BPF_INSN_SZ at 1. destruct (Z.eqb_spec (r_offset rel mod 8) 0) as [Hal|Hal]; cbn [negb orb]; [|apply Hstop; [done|]; apply Hbad; by intros (? & _)].
  rewrite Z.geb_leb. destruct (Z.leb_spec d_size (r_offset rel)) as [Hd|Hd]; [apply Hstop; [done|]; apply Hbad; intros (_ & ? & _); lia|].
  assert (rel_ok rel) as Hrok by (split_and!; [done..|by exists sym]). clear Hbad.
  fold (rel_insn rel). rewrite (collected_find done ps) by done. cbn [mbind option_bind].
  assert (done ++ [rel] = take (Z.to_nat (i + 1)) rels) as Hdone'.
  { rewrite Hdone. replace (Z.to_nat (i + 1)) with (S (Z.to_nat i)) by lia. by rewrite (take_S_r _ _ _ Hrel). }
  assert (forall ps1, collected (done ++ [rel]) ps1 -> exists err o', collect_relos_loop n al mem idx d_size rels (i + 1) (set_programs ps1 o) = Some (err, o') /\
    exists done' ps', o' = set_programs ps' o /\ collected done' ps' /\ (err = 0 /\ done' = take (Z.to_nat i + S n) rels \/ err <> 0 /\ refused al rels done')) as Hgo.
  { intros ps1 Hc1. replace (Z.to_nat i + S n)%nat with (Z.to_nat (i + 1) + n)%nat by lia. apply lookup_lt_Some in Hrel.
    by apply (IH (done ++ [rel])); [|lia|lia|]. }
  destruct (find_idx (covers idx (rel_insn rel)) (programs o) 0) as [p|] eqn:Hfind; [|by apply Hgo, collected_skip].
  destruct (al [i]) eqn:Hali; cbn [negb]; [|apply Hstop; [done|]; left; by exists [i]].
  apply find_idx_Some in Hfind as (_ & P & HP & Hcov & _). rewrite Z.sub_0_r in HP.
  destruct (proj2 (proj2 Hc) p P HP) as (new & HP' & _). change (programs (set_programs ps o)) with ps. rewrite HP'. cbn [mbind option_bind sec_insn_off set_relos].
  apply covers_spec in Hcov as Hcov'. destruct (placed_at _ _ _ Hp HP) as [? ? ? ?].
  rewrite wrap_small by lia.
  change (bpf_program__record_reloc _ (set_relos (relos P ++ new) P) (mem i) ?a sym rel) with (bpf_program__record_reloc o P (mem i) a sym rel).
  destruct (zget_is_Some (insns P) (rel_insn rel - sec_insn_off P)) as [insn Hin].
  { change (Z.of_nat (length (insns P))) with (insns_cnt P). rewrite (Hfresh p P HP). lia. }
  destruct (record_reloc_spec o P (mem i) (rel_insn rel - sec_insn_off P) sym rel insn) as (err & d & Hr & Hcase); [|done|].
  { rewrite Forall_forall in Hsyms. specialize (Hsyms sym (zget_elem _ _ _ Hsym)). lia. }
  rewrite Hr. cbn [mbind option_bind]. destruct Hcase as [(-> & Hidx & Hrel')|[He Hnone]]; [rewrite Z.eqb_refl; cbn [negb]|rewrite (proj2 (Z.eqb_neq err 0) He); cbn [negb]].
  2: { apply Hstop; [done|]. right. right. exists rel. split; [done|]. split; [done|]. right. exists p, P. split_and!; [done..|].
       intros x (Hx1 & s' & insn' & Hs' & Hi' & Hrx). rewrite Hsym in Hs'. injection Hs' as <-. rewrite Hx1, Hin in Hi'. injection Hi' as <-. by apply (Hnone x). }
  destruct (zset_is_Some ps p (set_relos (relos (set_relos (relos P ++ new) P) ++ [d]) (set_relos (relos P ++ new) P))) as [ps1 Hset]; [by eapply zget_lt|].
  rewrite Hset. cbn [mbind option_bind]. rewrite set_programs_twice. apply Hgo. eapply (collected_add done ps ps1 rel p P _ d); eauto.
  split; [done|]. exists sym, insn. by rewrite Hidx.
Qed.
End collect.

(** C24. [bpf_object__collect_prog_relos] always returns on an object with its programs in
    order and not yet linked (as many instructions as in their section), for a section of
    relocations with a non-zero entry size.  It appends to every program, in their order, exactly one descriptor for each of the
    ELF relocations processed so far that fall into it, and changes nothing else.  Each of these
    entries is at an instruction inside the section and has a symbol with a section of the file,
    and its descriptor is one that [relo_of] allows for the opcode of the instruction and the
    symbol: against the extern of the symbol, a subprogram of .text, the map at the place of the
    symbol, or the map of its data section or arena.  (Whether the second half of a 64-bit load
    is there is not checked, see [last_load_overflows].)  On success all entries are processed;
    on failure the section headers are bad, memory is short, or the entry after the processed
    ones is missing, malformed or allows no descriptor. *)
Theorem collect_relos_valid al mem o s : placed (programs o) -> (forall p P, zget (programs o) p = Some P -> insns_cnt P = sec_insn_cnt P) ->
  Forall (fun sym => 0 <= st_shndx sym) (symbols (efile o)) -> Forall (fun r => 0 <= r_offset r) (sh_rels s) -> sh_entsize s <> 0 ->
  exists err o', bpf_object__collect_prog_relos al mem o s = Some (err, o') /\
    (err <> 0 /\ o' = o /\ (sec_cnt (efile o) <= sh_info s \/ elf_sec_size (efile o) (sh_info s) = None \/
       elf_sec_str (efile o) (sh_name s) = None \/ elf_sec_name (efile o) (sh_info s) = None) \/
     exists size done ps, elf_sec_size (efile o) (sh_info s) = Some size /\ o' = set_programs ps o /\ collected o (sh_info s) size done ps /\
       (err = 0 /\ done = take (Z.to_nat (s32 (sh_size s / sh_entsize s))) (sh_rels s) \/ err <> 0 /\ refused o (sh_info s) size al (sh_rels s) done)).
Proof.
  intros Hp Hfresh Hsyms Hrels Hent. unfold bpf_object__collect_prog_relos.
  assert (o = set_programs (programs o) o) as Hself by (by destruct o).
  rewrite Z.geb_leb. destruct (Z.leb_spec (sec_cnt (efile o)) (sh_info s)); [eexists _, _; split; [done|]; left; split_and!; [done..|tauto]|].
  destruct (elf_sec_size (efile o) (sh_info s)) as [d_size|] eqn:Esz; [|eexists _, _; split; [done|]; left; split_and!; [done..|tauto]].
  destruct (elf_sec_str (efile o) (sh_name s)) eqn:E1; [|eexists _, _; split; [done|]; left; split_and!; [done..|tauto]].
  destruct (elf_sec_name (efile o) (sh_info s)) eqn:E2; [|eexists _, _; split; [done|]; left; split_and!; [done..|tauto]].
  rewrite (proj2 (Z.eqb_neq _ _) Hent). assert (collected o (sh_info s) d_size [] (programs o)) as H0.
  { split; [done|]. split; [constructor|]. intros p P HP. exists []. split; [|constructor]. rewrite HP, app_nil_r. by destruct P. }
  destruct (collect_loop_spec o (sh_info s) d_size Hp Hfresh Hsyms (sh_rels s) al mem [] (programs o) (Z.to_nat (s32 (sh_size s / sh_entsize s))) 0 Hrels H0)
    as (err & o' & Hr & dn & ps & -> & Hc & Hdone); [lia|lia|done|].
  rewrite <- Hself in Hr. exists err, (set_programs ps o). split; [done|]. right. exists d_size, dn, ps. split_and!; [done..|]. by rewrite Nat.add_0_l in Hdone.
Qed.

(** ** Data relocations *)

(** A load of a 64-bit constant has two slots. *)
Definition wide (r : reloc_desc) : bool :=
  match r_type r with RELO_LD64 | RELO_DATA | RELO_EXTERN_LD64 => true | _ => false end.
Definition touches (r : reloc_desc) (k : Z) : bool := (k =? insn_idx r) || (wide r && (k =? insn_idx r + 1)).

(** What becomes of a load that refers to map [m]. *)
Definition map_load (o : bpf_object) (m idx_kind fd_kind : Z) (a b : bpf_insn) : bpf_insn * bpf_insn :=
  if gen_loader o then (set_imm m (set_src_reg idx_kind a), b)
  else match zget (maps o) m with
       | Some mp =>
         if autocreate mp then (set_imm (map_fd mp) (set_src_reg fd_kind a), b)
         else let bad := Insn (BPF_JMP |' BPF_CALL) 0 0 0 (s32 (POISON_LDIMM64_MAP_BASE + m)) in (bad, bad)
       | None => (a, b)
       end.

(** The effect of a descriptor on its instruction and the slot after it. *)
Definition data_patch (o : bpf_object) (r : reloc_desc) (a b : bpf_insn) : bpf_insn * bpf_insn :=
  match r_type r with
  | RELO_LD64 => map_load o (map_idx r) BPF_PSEUDO_MAP_IDX BPF_PSEUDO_MAP_FD a b
  | RELO_DATA => map_load o (map_idx r) BPF_PSEUDO_MAP_IDX_VALUE BPF_PSEUDO_MAP_VALUE a (set_imm (s32 (imm a + sym_off r)) b)
  | RELO_EXTERN_LD64 =>
    match zget (externs o) (ext_idx r) with
    | Some (Extern _ _ (EXT_KCFG data_off)) =>
      let fd := default 0 (map_fd <$> zget (maps o) (kconfig_map_idx o)) in
      (if gen_loader o then set_imm (kconfig_map_idx o) (set_src_reg BPF_PSEUDO_MAP_IDX_VALUE a)
       else set_imm fd (set_src_reg BPF_PSEUDO_MAP_VALUE a), set_imm data_off b)
    | Some (Extern _ set (EXT_KSYM addr obj_fd btf_id type_id _)) =>
      if negb (type_id =? 0) && set then (set_imm btf_id (set_src_reg BPF_PSEUDO_BTF_ID a), set_imm obj_fd b)
      else (set_imm (s32 (u32 addr)) a, set_imm (s32 (addr >>' 32)) b)
    | None => (a, b)
    end
  | RELO_EXTERN_CALL =>
    match zget (externs o) (ext_idx r) with
    | Some (Extern _ true (EXT_KSYM _ _ btf_id _ fd_idx)) => (set_off fd_idx (set_imm btf_id (set_src_reg BPF_PSEUDO_KFUNC_CALL a)), b)
    | Some (Extern _ false _) => (Insn (BPF_JMP |' BPF_CALL) 0 0 0 (s32 (POISON_CALL_KFUNC_BASE + ext_idx r)), b)
    | _ => (a, b)
    end
  | _ => (a, b)
  end.

(** The descriptor can be applied: its slots exist, its map or extern exists and is of the
    right kind, and a function address has been marked. *)
Definition applicable (o : bpf_object) (l : list bpf_insn) (r : reloc_desc) : Prop :=
  (exists a, zget l (insn_idx r) = Some a /\ (r_type r = RELO_SUBPROG_ADDR -> src_reg a = BPF_PSEUDO_FUNC)) /\
  (wide r = true -> exists b, zget l (insn_idx r + 1) = Some b) /\
  match r_type r with
  | RELO_LD64 | RELO_DATA => exists m, zget (maps o) (map_idx r) = Some m
  | RELO_EXTERN_LD64 => exists x, zget (externs o) (ext_idx r) = Some x /\
      match ext_kind x with EXT_KCFG _ => exists m, zget (maps o) (kconfig_map_idx o) = Some m | _ => True end
  | RELO_EXTERN_CALL => exists x, zget (externs o) (ext_idx r) = Some x /\
      match ext_kind x with EXT_KCFG _ => is_set x = false | _ => True end
  | _ => True
  end.

(** [l'] is [l] with the slots of [r] replaced. *)
Definition patched_by (r : reloc_desc) (a' b' : bpf_insn) (l l' : list bpf_insn) : Prop :=
  length l' = length l /\ zget l' (insn_idx r) = Some a' /\ (wide r = true -> zget l' (insn_idx r + 1) = Some b') /\
  forall k, touches r k = false -> zget l' k = zget l k.

Lemma update_insn_spec l i f a : zget l i = Some a -> exists l', update_insn l i f = Some l' /\ length l' = length l /\
  zget l' i = Some (f a) /\ forall k, k <> i -> zget l' k = zget l k.
Proof.
  intros Ha. unfold update_insn. rewrite Ha. cbn [mbind option_bind]. destruct (zset_is_Some l i (f a)) as [l' Hl']; [by eapply zget_lt|].
  rewrite Hl'. exists l'. split_and!; [done|by eapply zset_length|by eapply zget_zset_eq|]. intros k Hk. by eapply zget_zset_ne.
Qed.

Lemma update_twice l i f g a : zget l i = Some a -> exists l1 l', update_insn l i f = Some l1 /\ update_insn l1 i g = Some l' /\
  length l' = length l /\ zget l' i = Some (g (f a)) /\ forall k, k <> i -> zget l' k = zget l k.
Proof.
  intros Ha. destruct (update_insn_spec l i f a Ha) as (l1 & H1 & Hn & Ha1 & Hk1).
  destruct (update_insn_spec l1 i g _ Ha1) as (l2 & H2 & Hn2 & Ha2 & Hk2). exists l1, l2. split_and!; [done|done|lia|done|].
  intros k Hk. by rewrite Hk2, Hk1.
Qed.

Lemma update_pair l i f g a b : zget l i = Some a -> zget l (i + 1) = Some b ->
  exists l1 l', update_insn l i f = Some l1 /\ update_insn l1 (i + 1) g = Some l' /\ length l' = length l /\
    zget l' i = Some (f a) /\ zget l' (i + 1) = Some (g b) /\ forall k, k <> i -> k <> i + 1 -> zget l' k = zget l k.
Proof.
  intros Ha Hb. destruct (update_insn_spec l i f a Ha) as (l1 & H1 & Hn & Ha1 & Hk1).
  destruct (update_insn_spec l1 (i + 1) g b) as (l2 & H2 & Hn2 & Hb2 & Hk2); [rewrite Hk1; [done|lia]|].
  exists l1, l2. split_and!; [done|done|lia|rewrite Hk2; [done|lia]|done|]. intros k Hne1 Hne2. by rewrite Hk2, Hk1.
Qed.

(** The map of a load: the first slot, or both when the map is not created. *)
Lemma map_load_spec o l i m idx_kind fd_kind a b mp : zget (maps o) m = Some mp -> zget l i = Some a -> zget l (i + 1) = Some b ->
  exists l', (if gen_loader o then update_insn l i (fun x => set_imm m (set_src_reg idx_kind x))
     else m' ← zget (maps o) m;
          if autocreate m' then update_insn l i (fun x => set_imm (map_fd m') (set_src_reg fd_kind x)) else poison_map_ldimm64 l i m) = Some l' /\
    length l' = length l /\ zget l' i = Some (map_load o m idx_kind fd_kind a b).1 /\
    zget l' (i + 1) = Some (map_load o m idx_kind fd_kind a b).2 /\ forall k, k <> i -> k <> i + 1 -> zget l' k = zget l k.
Proof.
  intros Hm Ha Hb. unfold map_load. rewrite Hm. cbn [mbind option_bind]. destruct (gen_loader o); [|destruct (autocreate mp)].
  - destruct (update_insn_spec l i (fun x => set_imm m (set_src_reg idx_kind x)) a Ha) as (l1 & -> & Hn & Ha1 & Hk1).
    exists l1. split_and!; [done..|rewrite Hk1; [done|lia]|]. auto.
  - destruct (update_insn_spec l i (fun x => set_imm (map_fd mp) (set_src_reg fd_kind x)) a Ha) as (l1 & -> & Hn & Ha1 & Hk1).
    exists l1. split_and!; [done..|rewrite Hk1; [done|lia]|]. auto.
  - unfold poison_map_ldimm64. set (bad := Insn _ _ _ _ _).
    destruct (update_pair l i (fun _ => bad) (fun _ => bad) a b Ha Hb) as (l0 & l1 & -> & Hu & Hn & Ha1 & Hb1 & Hk1).
    cbn [mbind option_bind]. by exists l1.
Qed.

Lemma touches_wide r k : wide r = true -> touches r k = false -> k <> insn_idx r /\ k <> insn_idx r + 1.
Proof. unfold touches. intros ->. cbn. rewrite orb_false_iff, !Z.eqb_neq. done. Qed.

Lemma touches_not r k : touches r k = false -> k <> insn_idx r.
Proof. unfold touches. rewrite orb_false_iff, Z.eqb_neq. by intros [? _]. Qed.

Lemma data_one_spec o l r : applicable o l r -> exists a b l', zget l (insn_idx r) = Some a /\ (wide r = true -> zget l (insn_idx r + 1) = Some b) /\
  relocate_data_one o l r = Some (0, l') /\ patched_by r (data_patch o r a b).1 (data_patch o r a b).2 l l'.
Proof.
  intros ((a & Ha & Hmark) & Hwide & Hkind). unfold relocate_data_one, patched_by, data_patch.
  assert (wide r = true -> forall k, touches r k = false -> k <> insn_idx r /\ k <> insn_idx r + 1) as Hw by (intros ? k; by apply touches_wide).
  destruct (r_type r) eqn:Ht.
  - assert (wide r = true) as Hwd by (unfold wide; by rewrite Ht). destruct (Hwide Hwd) as [b Hb], Hkind as [mp Hmp].
    destruct (map_load_spec o l (insn_idx r) (map_idx r) BPF_PSEUDO_MAP_IDX BPF_PSEUDO_MAP_FD a b mp Hmp Ha Hb) as (l' & -> & Hn & Ha' & Hb' & Hk).
    cbn [mbind option_bind]. exists a, b, l'. split_and!; auto. intros k [? ?]%(Hw Hwd). auto.
  - exists a, a, l. split_and!; auto; unfold wide; by rewrite Ht.
  - assert (wide r = true) as Hwd by (unfold wide; by rewrite Ht). destruct (Hwide Hwd) as [b Hb], Hkind as [mp Hmp]. rewrite Ha. cbn [mbind option_bind].
    destruct (update_insn_spec l (insn_idx r + 1) (set_imm (s32 (imm a + sym_off r))) b Hb) as (l1 & -> & Hn1 & Hb1 & Hk1). cbn [mbind option_bind].
    destruct (map_load_spec o l1 (insn_idx r) (map_idx r) BPF_PSEUDO_MAP_IDX_VALUE BPF_PSEUDO_MAP_VALUE a
      (set_imm (s32 (imm a + sym_off r)) b) mp Hmp) as (l' & -> & Hn & Ha' & Hb' & Hk);
      [rewrite Hk1; [done|lia]|exact Hb1|].
    cbn [mbind option_bind]. exists a, b, l'. split_and!; auto; [lia|]. intros k [? ?]%(Hw Hwd). rewrite Hk, Hk1; auto.
  - assert (wide r = true) as Hwd by (unfold wide; by rewrite Ht). destruct (Hwide Hwd) as [b Hb], Hkind as (x & Hx & Hkc). rewrite Hx. cbn [mbind option_bind].
    destruct x as [sidx set [data_off|addr obj_fd btf_id type_id fdi]]; cbn [ext_kind is_set] in *.
    + destruct Hkc as [mp Hmp]. rewrite Hmp. cbn [mbind option_bind fmap option_fmap option_map default]. destruct (gen_loader o);
        [edestruct (update_pair l (insn_idx r) (fun x => set_imm (kconfig_map_idx o) (set_src_reg BPF_PSEUDO_MAP_IDX_VALUE x)) (set_imm data_off))
           as (l1 & l' & -> & Hu & Hn & Ha' & Hb' & Hk); [exact Ha|exact Hb|]
        |edestruct (update_pair l (insn_idx r) (fun x => set_imm (map_fd mp) (set_src_reg BPF_PSEUDO_MAP_VALUE x)) (set_imm data_off))
           as (l1 & l' & -> & Hu & Hn & Ha' & Hb' & Hk); [exact Ha|exact Hb|]];
        cbn [mbind option_bind]; rewrite Hu; cbn [mbind option_bind]; exists a, b, l'; (split_and!; auto; intros k [? ?]%(Hw Hwd); auto).
    + destruct (negb (type_id =? 0) && set);
        [edestruct (update_pair l (insn_idx r) (fun x => set_imm btf_id (set_src_reg BPF_PSEUDO_BTF_ID x)) (set_imm obj_fd))
           as (l1 & l' & -> & Hu & Hn & Ha' & Hb' & Hk); [exact Ha|exact Hb|]
        |edestruct (update_pair l (insn_idx r) (set_imm (s32 (u32 addr))) (set_imm (s32 (addr >>' 32))))
           as (l1 & l' & -> & Hu & Hn & Ha' & Hb' & Hk); [exact Ha|exact Hb|]];
        cbn [mbind option_bind]; rewrite Hu; cbn [mbind option_bind]; exists a, b, l'; (split_and!; auto; intros k [? ?]%(Hw Hwd); auto).
  - destruct Hkind as (x & Hx & Hkc). rewrite Hx. cbn [mbind option_bind]. assert (wide r = false) as Hwd by (unfold wide; by rewrite Ht).
    destruct x as [sidx [] kd]; cbn [ext_kind is_set] in *; [destruct kd as [|addr obj_fd btf_id type_id fd_idx]; [done|]|].
    + destruct (update_twice l (insn_idx r) (set_src_reg BPF_PSEUDO_KFUNC_CALL) (fun x => set_off fd_idx (set_imm btf_id x)) a Ha)
        as (l1 & l' & -> & Hu & Hn & Ha' & Hk). cbn [mbind option_bind]. rewrite Hu. cbn [mbind option_bind]. exists a, a, l'.
      rewrite Hwd. split_and!; auto; try done. intros k ?%touches_not. auto.
    + unfold poison_kfunc_call.
      destruct (update_twice l (insn_idx r) (set_src_reg BPF_PSEUDO_KFUNC_CALL) (fun _ => Insn (BPF_JMP |' BPF_CALL) 0 0 0 (s32 (POISON_CALL_KFUNC_BASE + ext_idx r))) a Ha)
        as (l1 & l' & -> & Hu & Hn & Ha' & Hk). cbn [mbind option_bind]. rewrite Hu. cbn [mbind option_bind]. exists a, a, l'.
      rewrite Hwd. split_and!; auto; try done. intros k ?%touches_not. auto.
  - rewrite Ha. cbn [mbind option_bind]. rewrite Hmark by done. cbn. exists a, a, l. split_and!; auto; unfold wide; by rewrite Ht.
  - exists a, a, l. split_and!; auto; unfold wide; by rewrite Ht.
Qed.

(** No two descriptors share a slot. *)
Definition apart (rs : list reloc_desc) : Prop :=
  forall i j a b k, i <> j -> rs !! i = Some a -> rs !! j = Some b -> touches a k = true -> touches b k = false.

(** In [l'] the slots of [r] have what [r] asks for, computed from [l]. *)
Definition slots_done (o : bpf_object) (l l' : list bpf_insn) (r : reloc_desc) : Prop :=
  exists a b, zget l (insn_idx r) = Some a /\ (wide r = true -> zget l (insn_idx r + 1) = Some b) /\
    zget l' (insn_idx r) = Some (data_patch o r a b).1 /\ (wide r = true -> zget l' (insn_idx r + 1) = Some (data_patch o r a b).2).

Lemma touches_self r : touches r (insn_idx r) = true.
Proof. unfold touches. by rewrite Z.eqb_refl. Qed.

Lemma touches_next r : wide r = true -> touches r (insn_idx r + 1) = true.
Proof. intros Hw. unfold touches. by rewrite Hw, Z.eqb_refl, orb_true_r. Qed.

Lemma applicable_frame o l l1 r : (forall k, touches r k = true -> zget l1 k = zget l k) -> applicable o l r -> applicable o l1 r.
Proof.
  intros Hk ((a & Ha & Hm) & Hw & Hkind). split_and!; [exists a; by rewrite Hk by apply touches_self| |done].
  intros Hwd. rewrite Hk by (by apply touches_next). auto.
Qed.

Lemma relocate_data_loop_spec o rs l : Forall (applicable o l) rs -> apart rs ->
  exists l', relocate_data_loop o l rs = Some (0, l') /\ length l' = length l /\ Forall (slots_done o l l') rs /\
    forall k, Forall (fun r => touches r k = false) rs -> zget l' k = zget l k.
Proof.
  revert l. induction rs as [|r rs IH]; intros l Happ Hap; cbn [relocate_data_loop]; [by exists l|].
  apply Forall_cons in Happ as [Hr Happ]. destruct (data_one_spec o l r Hr) as (a & b & l1 & Ha & Hb & -> & Hn1 & Ha1 & Hb1 & Hk1).
  cbn [mbind option_bind Z.eqb negb].
  assert (Forall (fun r' => forall k, touches r' k = true -> touches r k = false) rs) as Hdis.
  { apply Forall_lookup_2. intros i r' Hi k Ht. apply (Hap (S i) 0%nat r' r k); done. }
  destruct (IH l1) as (l' & -> & Hn & Hdone & Hk).
  { rewrite Forall_forall in *. intros r' Hr'. apply (applicable_frame o l); [|by apply Happ]. intros k Ht. apply Hk1. by eapply Hdis. }
  { intros i j x y k Hij Hx Hy. apply (Hap (S i) (S j) x y k); [congruence|done..]. }
  exists l'. split_and!; [done|lia| |].
  - constructor.
    + exists a, b. split_and!; [done..| |].
      * rewrite Hk; [done|]. eapply Forall_impl; [exact Hdis|]. intros r' Hr'. destruct (touches r' (insn_idx r)) eqn:E; [|done].
        apply Hr' in E. by rewrite touches_self in E.
      * intros Hw. rewrite Hk; [auto|]. eapply Forall_impl; [exact Hdis|]. intros r' Hr'. destruct (touches r' (insn_idx r + 1)) eqn:E; [|done].
        apply Hr' in E. by rewrite touches_next in E.
    + rewrite Forall_forall in *. intros r' Hr'. destruct (Hdone r' Hr') as (a' & b' & Ha' & Hb' & Hl' & Hl2). exists a', b'.
      split_and!; [|intros Hw|done..].
      * rewrite <- Hk1; [done|]. apply (Hdis r' Hr'), touches_self.
      * rewrite <- Hk1; [auto|]. by apply (Hdis r' Hr'), touches_next.
  - intros k [Hrk Hk0]%Forall_cons. rewrite Hk by done. auto.
Qed.

(** C23. When the descriptors of a program can be applied and do not overlap,
    [bpf_object__relocate_data] succeeds: the instruction of every descriptor, and the second
    slot of a 64-bit load, become what the kind of the descriptor asks for (the descriptor of
    the map or its index, the offset of the variable, the address or type of the kernel
    symbol, the kernel function, or an instruction the verifier rejects), computed from the
    original instructions; all other instructions and programs are unchanged. *)
Theorem relocate_data_correct o i p : zget (programs o) i = Some p -> Forall (applicable o (insns p)) (relos p) -> apart (relos p) ->
  exists o' l', bpf_object__relocate_data o i = Some (0, o') /\ zget (programs o') i = Some (set_insns l' p) /\
    (forall j, j <> i -> zget (programs o') j = zget (programs o) j) /\ length l' = length (insns p) /\
    Forall (slots_done o (insns p) l') (relos p) /\ forall k, Forall (fun r => touches r k = false) (relos p) -> zget l' k = zget (insns p) k.
Proof.
  intros Hp Happ Hap. unfold bpf_object__relocate_data. rewrite Hp. cbn [mbind option_bind].
  destruct (relocate_data_loop_spec o (relos p) (insns p) Happ Hap) as (l' & -> & Hn & Hdone & Hk). cbn [mbind option_bind].
  destruct (update_prog_spec o i (set_insns l') p Hp) as (o' & -> & _ & _ & Hi & Hj). cbn [mbind option_bind]. by exists o', l'.
Qed.

(** ** A 64-bit load that is the last instruction *)
Definition last_load : bpf_insn := Insn (BPF_LD |' BPF_IMM |' BPF_DW) 1 0 0 0.
Definition last_sym : Elf64_Sym := Sym 1 0x11 0 2 0 8.
Definition last_obj (ps : list bpf_program) : bpf_object :=
  Obj (Elf [last_sym] (fun _ => Some []) (fun _ => Some []) (fun _ => Some []) (fun _ => Some 8) [SEC_UNUSED; SEC_UNUSED; SEC_DATA] 9 9 9 9)
    ps [Map 5 2 0 LIBBPF_MAP_DATA true] [] 0 (-1) false None None false false.
Definition last_prog : bpf_program := Prog [] [] 1 0 1 0 [last_load] [] true true false (-1) None 0 None 0.

(** A relocation against a 64-bit load is accepted without a check that the second slot of the
    load exists; applying it writes past the end of the instructions. *)
Theorem last_load_overflows : exists d,
  bpf_program__record_reloc (last_obj [last_prog]) last_prog (RelocDesc RELO_LD64 0 0 0 0) 0 last_sym (Rel 0 0) = Some (0, d) /\
  bpf_object__relocate_data (last_obj [set_relos [d] last_prog]) 0 = None.
Proof. exists (RelocDesc RELO_DATA 0 0 0 0). split; vm_compute; reflexivity. Qed.

(** ** Examples *)
Definition demo_data_prog : bpf_program :=
  Prog [] [] 1 0 4 0 [last_load; Insn 0 0 0 0 0; Insn 0x85 0 2 0 0; demo_exit]
    [RelocDesc RELO_DATA 0 0 16 0; RelocDesc RELO_EXTERN_CALL 2 0 0 0] true true false (-1) None 0 None 0.
Definition demo_data_obj : bpf_object :=
  Obj demo_elf [demo_data_prog] [Map 5 2 0 LIBBPF_MAP_DATA true] [Extern 0 true (EXT_KSYM 0 0 77 0 3)] 0 (-1) false None None false false.

Lemma relocate_data_correct_witness : exists o' l', bpf_object__relocate_data demo_data_obj 0 = Some (0, o') /\
  zget (programs o') 0 = Some (set_insns l' demo_data_prog) /\
  l' = [Insn (BPF_LD |' BPF_IMM |' BPF_DW) 1 BPF_PSEUDO_MAP_VALUE 0 5; Insn 0 0 0 0 16; Insn 0x85 0 BPF_PSEUDO_KFUNC_CALL 3 77; demo_exit].
Proof.
  destruct (relocate_data_correct demo_data_obj 0 demo_data_prog) as (o' & l' & Hr & Hp & _).
  - reflexivity.
  - repeat constructor; cbn; try done; repeat (eexists; try split; try done).
  - intros i j a b k Hij Ha Hb. destruct i as [|[|i]], j as [|[|j]]; try done; cbn in Ha, Hb; simplify_eq; unfold touches; cbn;
      rewrite ?orb_true_iff, ?orb_false_iff, ?Z.eqb_eq, ?Z.eqb_neq; lia.
  - exists o', l'. split_and!; [done..|]. vm_compute in Hr. injection Hr as <-. vm_compute in Hp. by injection Hp as <-.
Defined.

Definition demo_bytes : list Z := [0x85; 0x10; 0; 0; 0xff; 0xff; 0xff; 0xff; 0x95; 0; 0; 0; 0; 0; 0; 0].
Definition demo_open : bpf_object :=
  Obj (Elf [Sym 1 0x12 0 1 0 16; Sym 0 3 0 1 0 0] (fun _ => Some [102]) (fun _ => Some []) (fun _ => Some []) (fun _ => Some 16) [SEC_UNUSED; SEC_UNUSED] 9 0 9 9)
    [] [] [] 0 (-1) false None None false false.

Lemma add_programs_exact_witness : Forall sym_ok (symbols (efile demo_open)) /\
  exists o', bpf_object__add_programs (fun _ => true) demo_open demo_bytes [] 1 = (0, o') /\
    map insns (programs o') = [[Insn 0x85 0 1 0 (-1); demo_exit]].
Proof.
  assert (Forall sym_ok (symbols (efile demo_open))) as Hok by (repeat constructor; cbn; lia).
  split; [done|]. destruct (add_programs_exact (fun _ => true) demo_open demo_bytes [] 1 Hok) as (err & new & Hadd & _); [cbn; lia|].
  eexists. split; [vm_compute; reflexivity|]. reflexivity.
Defined.

Definition demo_rel_obj : bpf_object :=
  Obj (Elf [Sym 0 3 0 2 8 0] (fun _ => Some []) (fun _ => Some []) (fun _ => Some []) (fun _ => Some 16) [SEC_UNUSED; SEC_UNUSED; SEC_UNUSED] 9 2 9 9)
    [demo_prog 1 0 2 [demo_call (-1); demo_exit] []] [] [] 0 (-1) false None None false false.

Lemma collect_relos_valid_witness : placed (programs demo_rel_obj) /\
  exists o', bpf_object__collect_prog_relos (fun _ => true) (fun _ => RelocDesc RELO_LD64 0 0 0 0) demo_rel_obj (RelSec 0 1 16 16 [Rel 0 0]) = Some (0, o') /\
    map relos (programs o') = [[RelocDesc RELO_CALL 0 0 8 0]] /\
    exists size done ps, o' = set_programs ps demo_rel_obj /\ collected demo_rel_obj 1 size done ps /\ done = [Rel 0 0].
Proof.
  assert (placed (programs demo_rel_obj)) as Hp.
  { split; [repeat constructor; cbn; lia|]. intros i j a b Hij Ha%zget_lt Hb%zget_lt. cbn in *. lia. }
  split; [done|].
  destruct (collect_relos_valid (fun _ => true) (fun _ => RelocDesc RELO_LD64 0 0 0 0) demo_rel_obj (RelSec 0 1 16 16 [Rel 0 0]) Hp) as (err & o' & Hr & Hcase).
  - intros p P (k & Hk & -> & HP)%zget_cases. cbn in Hk. destruct k; [|lia]. cbn in HP. by injection HP as <-.
  - by repeat constructor.
  - by repeat constructor.
  - cbn. lia.
  - assert (err = 0) as -> by (vm_compute in Hr; congruence). exists o'. split; [exact Hr|]. split; [vm_compute in Hr; injection Hr as <-; vm_compute; reflexivity|].
    destruct Hcase as [[? _]|(size & dn & ps & _ & Ho & Hc & [[_ Hd]|[? _]])]; [done| |done]. exists size, dn, ps. split_and!; [exact Ho|exact Hc|exact Hd].
Defined.
