(* ===== verification/Zip.v ===== *)
(** * The reader of zip archives

    src/libbpf/src/zip.c, which finds files inside an archive (libbpf attaches probes to
    libraries stored uncompressed in Android packages).  The mapped file is a list of bytes of
    the size the code was told; a structure is read field by field at its packed offsets, and a
    read outside the mapping is [None].  A pointer into the mapping is its offset.

    [zip_find_safe]: whatever the bytes are, opening and searching stay inside the mapping and
    an entry that is found lies inside it.  [zip_roundtrip]: in an archive written with the
    layout of the format, every file is found with its data. *)
From stdpp Require Import base numbers list gmap.
From S2P Require Import Prelude Btf.

Definition END_OF_CD_RECORD_MAGIC := 0x06054b50.
Definition CD_FILE_HEADER_MAGIC := 0x02014b50.
Definition LOCAL_FILE_HEADER_MAGIC := 0x04034b50.
Definition FLAG_ENCRYPTED := 1 <<' 0.
Definition FLAG_HAS_DATA_DESCRIPTOR := 1 <<' 3.

(** Sizes of the packed structures. *)
Definition sizeof_eocd := 22.
Definition sizeof_cdfh := 46.
Definition sizeof_lfh := 30.

Record zip_archive := Archive { z_data : list Z; z_size : Z; z_cd_offset : Z; z_cd_records : Z }.

Abbreviation get16 := (get_le 2).
Abbreviation get32 := (get_le 4).

(** The offset that was asked for, or NULL. *)
Definition check_access (a : zip_archive) (offset size : Z) : option Z :=
  if (u32 (offset + size) >? z_size a) || (offset >? u32 (offset + size)) then None else Some offset.

Definition try_parse_end_of_cd (a : zip_archive) (offset : Z) : option (Z * zip_archive) :=
  match check_access a offset sizeof_eocd with
  | None => Some (- EINVAL, a)
  | Some eocd =>
    let d := z_data a in
    magic ← get32 d eocd;
    if negb (magic =? END_OF_CD_RECORD_MAGIC) then Some (- EINVAL, a)
    else
      comment_length ← get16 d (eocd + 20);
      if negb (offset + sizeof_eocd + comment_length =? z_size a) then Some (- EINVAL, a)
      else
        cd_records ← get16 d (eocd + 8);
        this_disk ← get16 d (eocd + 4);
        cd_disk ← get16 d (eocd + 6);
        total ← get16 d (eocd + 10);
        if negb (this_disk =? 0) || negb (cd_disk =? 0) || negb (total =? cd_records) then Some (- ENOTSUP, a)
        else
          cd_offset ← get32 d (eocd + 16);
          cd_size ← get32 d (eocd + 12);
          match check_access a cd_offset cd_size with
          | None => Some (- EINVAL, a)
          | Some _ => Some (0, Archive d (z_size a) cd_offset cd_records)
          end
  end.

(** [for (; offset >= 0 && offset > limit && rc != 0; offset--)]: at most 2^16 rounds. *)
Fixpoint find_cd_loop (fuel : nat) (a : zip_archive) (offset limit rc : Z) : option (Z * zip_archive) :=
  match fuel with
  | O => None
  | S fuel =>
    if (offset >=? 0) && (offset >? limit) && negb (rc =? 0) then
      '(rc, a) ← try_parse_end_of_cd a (u32 offset);
      if rc =? - ENOTSUP then Some (rc, a) else find_cd_loop fuel a (offset - 1) limit rc
    else Some (rc, a)
  end.

Definition find_cd (a : zip_archive) : option (Z * zip_archive) :=
  if z_size a <=? sizeof_eocd then Some (- EINVAL, a)
  else
    let offset := z_size a - sizeof_eocd in
    find_cd_loop (S (Z.to_nat (1 <<' 16))) a offset (offset - (1 <<' 16)) (- EINVAL).

(** What the system gives: the descriptor (or a negative error), the size ([off_t], -1 for an
    error), whether the mapping failed (with its error), and whether memory was there. *)
Record zip_env := ZipEnv { ze_open : Z; ze_size : Z; ze_map : option (list Z); ze_errno : Z; ze_malloc : bool }.

(** An error is the negative number in the pointer that is returned. *)
Definition zip_archive_open (e : zip_env) : option (Z + zip_archive) :=
  if ze_open e <? 0 then Some (inl (ze_open e))
  else if (ze_size e =? -1) || (ze_size e >? UINT32_MAX) then Some (inl (- EINVAL))
  else
    match ze_map e with
    | None => Some (inl (- ze_errno e))
    | Some data =>
      if negb (ze_malloc e) then Some (inl (- ENOMEM))
      else
        '(err, a) ← find_cd (Archive data (ze_size e) 0 0);
        Some (if negb (err =? 0) then inl err else inr a)
    end.

Definition local_file_header_at_offset (a : zip_archive) (offset : Z) : option (option Z) :=
  match check_access a offset sizeof_lfh with
  | None => Some None
  | Some lfh =>
    magic ← get32 (z_data a) lfh;
    Some (if negb (magic =? LOCAL_FILE_HEADER_MAGIC) then None else Some lfh)
  end.

(** Name and data are offsets in the archive. *)
Record zip_entry := Entry { compression : Z; e_name : Z; name_length : Z; e_data : Z; data_length : Z; data_offset : Z }.

Definition get_entry_at_offset (a : zip_archive) (offset : Z) : option (Z + zip_entry) :=
  let d := z_data a in
  lfh ← local_file_header_at_offset a offset;
  match lfh with
  | None => Some (inl (- EINVAL))
  | Some lfh =>
    let offset := u32 (offset + sizeof_lfh) in
    flags ← get16 d (lfh + 6);
    if negb (flags &' FLAG_ENCRYPTED =? 0) || negb (flags &' FLAG_HAS_DATA_DESCRIPTOR =? 0) then Some (inl (- EINVAL))
    else
      name_len ← get16 d (lfh + 26);
      match check_access a offset name_len with
      | None => Some (inl (- EINVAL))
      | Some name =>
        let offset := u32 (offset + name_len) in
        extra_len ← get16 d (lfh + 28);
        match check_access a offset extra_len with
        | None => Some (inl (- EINVAL))
        | Some _ =>
          let offset := u32 (offset + extra_len) in
          compressed_size ← get32 d (lfh + 18);
          match check_access a offset compressed_size with
          | None => Some (inl (- EINVAL))
          | Some data =>
            comp ← get16 d (lfh + 8);
            Some (inr (Entry comp name name_len data compressed_size offset))
          end
        end
      end
  end.

(** The entries of the directory from [offset] on, [n] of them. *)
Fixpoint find_entry_loop (n : nat) (a : zip_archive) (file_name : list Z) (offset : Z) : option (Z + zip_entry) :=
  match n with
  | O => Some (inl (- ENOENT))
  | S n =>
    let d := z_data a in
    match check_access a offset sizeof_cdfh with
    | None => Some (inl (- EINVAL))
    | Some cdfh =>
      magic ← get32 d cdfh;
      if negb (magic =? CD_FILE_HEADER_MAGIC) then Some (inl (- EINVAL))
      else
        let offset := u32 (offset + sizeof_cdfh) in
        name_len ← get16 d (cdfh + 28);
        match check_access a offset name_len with
        | None => Some (inl (- EINVAL))
        | Some _ =>
          flags ← get16 d (cdfh + 8);
          same ← (if (flags &' FLAG_ENCRYPTED =? 0) && (flags &' FLAG_HAS_DATA_DESCRIPTOR =? 0) && (Z.of_nat (length file_name) =? name_len)
                then l ← bytes_at d offset (length file_name); Some (bool_decide (file_name = l))
                else Some false);
          if (same : bool) then
            o ← get32 d (cdfh + 42);
            get_entry_at_offset a o
          else
            extra ← get16 d (cdfh + 30);
            comment ← get16 d (cdfh + 32);
            find_entry_loop n a file_name (u32 (u32 (u32 (offset + name_len) + extra) + comment))
        end
    end
  end.

Definition zip_archive_find_entry (a : zip_archive) (file_name : list Z) : option (Z + zip_entry) :=
  find_entry_loop (Z.to_nat (z_cd_records a)) a file_name (z_cd_offset a).

(** ** Accesses *)
Record archive_ok (a : zip_archive) : Prop := {
  ao_bytes : bytes_ok (z_data a);
  ao_size : z_size a = Z.of_nat (length (z_data a));
  ao_max : z_size a < 2 ^ 32;
  ao_cd : 0 <= z_cd_offset a < 2 ^ 32;
  ao_recs : 0 <= z_cd_records a < 2 ^ 16
}.

Lemma check_access_spec a offset size : z_size a < 2 ^ 32 -> 0 <= offset < 2 ^ 32 -> 0 <= size < 2 ^ 32 ->
  check_access a offset size = if offset + size <=? z_size a then Some offset else None.
Proof.
  intros Hm Ho Hs. unfold check_access, wrap. rewrite !Z.gtb_ltb. destruct (Z.leb_spec (offset + size) (z_size a)).
  - rewrite Z.mod_small by lia. rewrite (proj2 (Z.ltb_ge _ _)), (proj2 (Z.ltb_ge _ _)) by lia. done.
  - destruct (decide (offset + size < 2 ^ 32)).
    + rewrite Z.mod_small by lia. by rewrite (proj2 (Z.ltb_lt _ _)) by lia.
    + replace ((offset + size) mod 2 ^ 32) with (offset + size - 2 ^ 32) by (Z.div_mod_to_equations; lia).
      rewrite (proj2 (Z.ltb_lt (offset + size - 2 ^ 32) offset)), orb_true_r by lia. done.
Qed.

(** Read the field at [off] of the mapping. *)
Ltac field H off := let v := fresh "v" in let Hv := fresh "Hv" in let Hr := fresh "Hr" in
  match goal with
  | |- context [get_le ?n (z_data ?a) off] =>
    destruct (get_le_ok n (z_data a) off (ao_bytes a H)) as (v & Hv & Hr); [lia|pose proof (ao_size a H); lia|rewrite Hv; cbn [mbind option_bind]; cbn in Hr]
  end.

Lemma try_parse_ok a offset : archive_ok a -> 0 <= offset < 2 ^ 32 ->
  exists rc a', try_parse_end_of_cd a offset = Some (rc, a') /\ archive_ok a' /\ z_data a' = z_data a /\ (rc <> 0 -> a' = a).
Proof.
  intros Ha Ho. unfold try_parse_end_of_cd, sizeof_eocd. cbv zeta. pose proof (ao_size a Ha) as Hsz. pose proof (ao_max a Ha).
  rewrite check_access_spec by lia. destruct (Z.leb_spec (offset + 22) (z_size a)); [|by exists (- EINVAL), a].
  field Ha offset. destruct (negb (v =? _)); [by exists (- EINVAL), a|]. field Ha (offset + 20).
  destruct (negb (_ =? z_size a)); [by exists (- EINVAL), a|]. field Ha (offset + 8). field Ha (offset + 4). field Ha (offset + 6). field Ha (offset + 10).
  destruct (_ || _); [by exists (- ENOTSUP), a|]. field Ha (offset + 16). field Ha (offset + 12). destruct (check_access a _ _); [|by exists (- EINVAL), a].
  eexists _, _. split; [done|]. split_and!; [|done|done]. split; cbn; auto; try lia; apply Ha.
Qed.

Lemma find_cd_loop_ok fuel a offset limit rc : archive_ok a -> offset < 2 ^ 32 -> Z.min (offset + 1) (offset - limit) < Z.of_nat fuel ->
  0 < Z.of_nat fuel -> exists rc' a', find_cd_loop fuel a offset limit rc = Some (rc', a') /\ archive_ok a' /\ z_data a' = z_data a.
Proof.
  revert a offset rc. induction fuel as [|fuel IH]; intros a offset rc Ha Ho Hf Hpos; [lia|]. cbn [find_cd_loop].
  rewrite Z.geb_leb, Z.gtb_ltb. destruct (Z.leb_spec 0 offset); cbn [andb]; [|by exists rc, a].
  destruct (Z.ltb_spec limit offset); cbn [andb]; [|by exists rc, a]. destruct (rc =? 0); cbn [negb]; [by exists rc, a|].
  rewrite wrap_small by lia. destruct (try_parse_ok a offset Ha) as (rc1 & a1 & -> & Ha1 & Hd & _); [lia|]. cbn [mbind option_bind].
  destruct (rc1 =? - ENOTSUP); [by exists rc1, a1|]. destruct (IH a1 (offset - 1) rc1 Ha1) as (rc2 & a2 & Hr & Ha2 & Hd2); [lia..|].
  exists rc2, a2. split_and!; [done..|congruence].
Qed.

Lemma find_cd_ok a : archive_ok a -> exists rc a', find_cd a = Some (rc, a') /\ archive_ok a' /\ z_data a' = z_data a.
Proof.
  intros Ha. unfold find_cd. bcase; [by exists (- EINVAL), a|]. unfold sizeof_eocd in *. pose proof (ao_max a Ha).
  change (1 <<' 16) with 65536. apply find_cd_loop_ok; [done|lia|lia|lia].
Qed.

Definition entry_ok (a : zip_archive) (e : zip_entry) : Prop :=
  0 <= e_name e /\ 0 <= name_length e /\ e_name e + name_length e <= z_size a /\
  0 <= data_offset e /\ 0 <= data_length e /\ data_offset e + data_length e <= z_size a /\ e_data e = data_offset e.

Lemma get_entry_ok a offset : archive_ok a -> 0 <= offset < 2 ^ 32 ->
  exists r, get_entry_at_offset a offset = Some r /\ match r with inl err => err = - EINVAL | inr e => entry_ok a e end.
Proof.
  intros Ha Ho. pose proof (ao_size a Ha) as Hsz. pose proof (ao_max a Ha). assert (exists r : Z + zip_entry, Some (inl (- EINVAL)) = Some r /\
    match r with inl err => err = - EINVAL | inr e => entry_ok a e end) as Hbad by (by eexists).
  unfold get_entry_at_offset, local_file_header_at_offset, sizeof_lfh. cbv zeta.
  rewrite (check_access_spec a offset 30) by lia. destruct (Z.leb_spec (offset + 30) (z_size a)); [|done]. field Ha offset.
  destruct (negb (v =? _)); [done|]. rewrite (wrap_small 32 (offset + 30)) by lia. field Ha (offset + 6). destruct (_ || _); [done|]. field Ha (offset + 26).
  rewrite check_access_spec by lia. destruct (Z.leb_spec (offset + 30 + v1) (z_size a)); [|done]. rewrite (wrap_small 32 (offset + 30 + v1)) by lia. field Ha (offset + 28).
  rewrite check_access_spec by lia. destruct (Z.leb_spec (offset + 30 + v1 + v2) (z_size a)); [|done]. rewrite (wrap_small 32 (offset + 30 + v1 + v2)) by lia.
  field Ha (offset + 18). rewrite check_access_spec by lia. destruct (Z.leb_spec (offset + 30 + v1 + v2 + v3) (z_size a)); [|done]. field Ha (offset + 8).
  eexists. split; [done|]. unfold entry_ok. cbn. lia.
Qed.

Lemma find_entry_loop_ok n a name offset : archive_ok a -> 0 <= offset < 2 ^ 32 ->
  exists r, find_entry_loop n a name offset = Some r /\ match r with inl err => err = - EINVAL \/ err = - ENOENT | inr e => entry_ok a e end.
Proof.
  intros Ha. pose proof (ao_size a Ha) as Hsz. pose proof (ao_max a Ha). revert offset. induction n as [|n IH]; intros offset Ho; cbn [find_entry_loop];
    [eexists; split; [done|]; by right|].
  assert (exists r : Z + zip_entry, Some (inl (- EINVAL)) = Some r /\
    match r with inl err => err = - EINVAL \/ err = - ENOENT | inr e => entry_ok a e end) as Hbad by (eexists; split; [done|]; by left).
  unfold sizeof_cdfh. cbv zeta. rewrite (check_access_spec a offset 46) by lia. destruct (Z.leb_spec (offset + 46) (z_size a)); [|done]. field Ha offset.
  destruct (negb (v =? _)); [done|]. rewrite (wrap_small 32 (offset + 46)) by lia. field Ha (offset + 28).
  rewrite check_access_spec by lia. destruct (Z.leb_spec (offset + 46 + v0) (z_size a)); [|done]. field Ha (offset + 8).
  assert (exists b, (if (v1 &' FLAG_ENCRYPTED =? 0) && (v1 &' FLAG_HAS_DATA_DESCRIPTOR =? 0) && (Z.of_nat (length name) =? v0)
     then l ← bytes_at (z_data a) (offset + 46) (length name); Some (bool_decide (name = l)) else Some false) = Some b) as [b ->].
  { destruct (_ && _) eqn:E; [|eauto]. apply andb_true_iff in E as [_ E%Z.eqb_eq]. rewrite bytes_at_ok by lia. cbn. eauto. }
  cbn [mbind option_bind]. destruct b.
  - field Ha (offset + 42). destruct (get_entry_ok a v2 Ha) as (r & -> & Hr'); [lia|]. exists r. split; [done|]. destruct r; [by left|done].
  - field Ha (offset + 30). field Ha (offset + 32). apply IH. apply wrap_range. lia.
Qed.

(** C29. Whatever bytes a file has, opening it as an archive and looking a name up in it return
    without an access outside the mapped file, and an entry that is found has its name and its
    data inside it. *)
Theorem zip_find_safe e name : (forall data, ze_map e = Some data -> bytes_ok data /\ ze_size e = Z.of_nat (length data)) ->
  exists r, zip_archive_open e = Some r /\
    forall a, r = inr a -> ze_map e = Some (z_data a) /\
      exists r', zip_archive_find_entry a name = Some r' /\ match r' with inl err => err = - EINVAL \/ err = - ENOENT | inr en => entry_ok a en end.
Proof.
  intros Hmap. unfold zip_archive_open. bcase; [eexists; split; [done|]; done|].
  destruct ((ze_size e =? -1) || (ze_size e >? UINT32_MAX)) eqn:Hsz; [eexists; split; [done|]; done|].
  destruct (ze_map e) as [data|]; [|eexists; split; [done|]; done]. destruct (ze_malloc e); cbn [negb]; [|eexists; split; [done|]; done].
  destruct (Hmap data eq_refl) as [Hb Hl]. apply orb_false_iff in Hsz as [_ Hmax]. rewrite Z.gtb_ltb in Hmax. apply Z.ltb_ge in Hmax. unfold UINT32_MAX in Hmax.
  destruct (find_cd_ok (Archive data (ze_size e) 0 0)) as (rc & a' & -> & Ha' & Hd); [split; cbn; auto; lia|]. cbn [mbind option_bind].
  eexists. split; [done|]. intros a Hr. destruct (rc =? 0); cbn in Hr; [|done]. injection Hr as <-. split; [by rewrite Hd|].
  apply find_entry_loop_ok; [done|]. apply Ha'.
Qed.

(** ** Archives as they are written *)

(** A file of an archive: its name and contents, the method they are stored with, and the extra
    fields and the comment of its headers. *)
Record zfile := ZFile { f_name : list Z; f_body : list Z; f_method : Z; f_extra : list Z; f_cd_extra : list Z; f_comment : list Z }.

Definition len (l : list Z) : Z := Z.of_nat (length l).

(** The local header of a file, and the header with the name, the extra field and the data. *)
Definition local_head (f : zfile) : list Z :=
  le_bytes 4 LOCAL_FILE_HEADER_MAGIC ++ le_bytes 2 20 ++ le_bytes 2 0 ++ le_bytes 2 (f_method f) ++ le_bytes 2 0 ++ le_bytes 2 0 ++ le_bytes 4 0 ++
  le_bytes 4 (len (f_body f)) ++ le_bytes 4 (len (f_body f)) ++ le_bytes 2 (len (f_name f)) ++ le_bytes 2 (len (f_extra f)).
Definition local_bytes (f : zfile) : list Z := local_head f ++ f_name f ++ f_extra f ++ f_body f.

(** The entry of the directory for a file whose local header is at [off]. *)
Definition cd_head (f : zfile) (off : Z) : list Z :=
  le_bytes 4 CD_FILE_HEADER_MAGIC ++ le_bytes 2 20 ++ le_bytes 2 20 ++ le_bytes 2 0 ++ le_bytes 2 (f_method f) ++ le_bytes 2 0 ++ le_bytes 2 0 ++ le_bytes 4 0 ++
  le_bytes 4 (len (f_body f)) ++ le_bytes 4 (len (f_body f)) ++ le_bytes 2 (len (f_name f)) ++ le_bytes 2 (len (f_cd_extra f)) ++ le_bytes 2 (len (f_comment f)) ++
  le_bytes 2 0 ++ le_bytes 2 0 ++ le_bytes 4 0 ++ le_bytes 4 off.
Definition cd_bytes (f : zfile) (off : Z) : list Z := cd_head f off ++ f_name f ++ f_cd_extra f ++ f_comment f.

Definition eocd_bytes (n cd_size cd_off : Z) : list Z :=
  le_bytes 4 END_OF_CD_RECORD_MAGIC ++ le_bytes 2 0 ++ le_bytes 2 0 ++ le_bytes 2 n ++ le_bytes 2 n ++ le_bytes 4 cd_size ++ le_bytes 4 cd_off ++ le_bytes 2 0.

Fixpoint locals (fs : list zfile) : list Z :=
  match fs with [] => [] | f :: fs => local_bytes f ++ locals fs end.
Fixpoint directory (off : Z) (fs : list zfile) : list Z :=
  match fs with [] => [] | f :: fs => cd_bytes f off ++ directory (off + len (local_bytes f)) fs end.

Definition zip_bytes (fs : list zfile) : list Z :=
  locals fs ++ directory 0 fs ++ eocd_bytes (Z.of_nat (length fs)) (len (directory 0 fs)) (len (locals fs)).

Record zfile_ok (f : zfile) : Prop := {
  zo_name : bytes_ok (f_name f) /\ len (f_name f) < 2 ^ 16;
  zo_body : bytes_ok (f_body f);
  zo_method : 0 <= f_method f < 2 ^ 16;
  zo_extra : bytes_ok (f_extra f) /\ len (f_extra f) < 2 ^ 16;
  zo_cd_extra : bytes_ok (f_cd_extra f) /\ len (f_cd_extra f) < 2 ^ 16;
  zo_comment : bytes_ok (f_comment f) /\ len (f_comment f) < 2 ^ 16
}.

(** ** Reading fields back *)
Lemma len_app l l' : len (l ++ l') = len l + len l'.
Proof. unfold len. rewrite length_app. lia. Qed.

Lemma len_le n z : len (le_bytes n z) = Z.of_nat n.
Proof. unfold len. by rewrite le_bytes_length. Qed.

Lemma len_nonneg l : 0 <= len l.
Proof. unfold len. lia. Qed.

Lemma get_le_app n l l' k : 0 <= k -> get_le n (l ++ l') (len l + k) = get_le n l' k.
Proof.
  intros Hk. unfold get_le, bytes_at, len. rewrite length_app. destruct (decide (0 <= k /\ k + Z.of_nat n <= Z.of_nat (length l'))) as [H|H].
  - rewrite decide_True by lia. cbn. rewrite drop_app_ge by lia. by replace (Z.to_nat (Z.of_nat (length l) + k) - length l)%nat with (Z.to_nat k) by lia.
  - rewrite decide_False by lia. done.
Qed.

Lemma get_le_skip n m z l k : Z.of_nat m <= k -> get_le n (le_bytes m z ++ l) k = get_le n l (k - Z.of_nat m).
Proof. intros Hk. rewrite <- (get_le_app n (le_bytes m z) l) by lia. f_equal. rewrite len_le. lia. Qed.

Lemma get_le_head n z l : 0 <= z < 256 ^ Z.of_nat n -> get_le n (le_bytes n z ++ l) 0 = Some z.
Proof.
  intros Hz. unfold get_le, bytes_at. rewrite decide_True by (rewrite length_app, le_bytes_length; lia). cbn [mbind option_bind].
  change (Z.to_nat 0) with 0%nat. rewrite drop_0, take_app_le, take_ge by (rewrite le_bytes_length; lia).
  by rewrite le_value_bytes, Z.mod_small.
Qed.

Lemma bytes_at_mid l l' m : bytes_at (l ++ l' ++ m) (len l) (length l') = Some l'.
Proof.
  unfold bytes_at, len. rewrite decide_True by (rewrite !length_app; lia). rewrite Nat2Z.id, drop_app_length, take_app_length. done.
Qed.

(** Read a field of a header: skip the fields before it. *)
Ltac skip_fields :=
  repeat (rewrite get_le_skip by (cbn; lia);
          match goal with |- context [get_le _ _ (?a - Z.of_nat ?m)] => let v := eval vm_compute in (a - Z.of_nat m) in change (a - Z.of_nat m) with v end);
  apply get_le_head;
  match goal with |- context [256 ^ Z.of_nat ?n] => let v := eval vm_compute in (256 ^ Z.of_nat n) in change (256 ^ Z.of_nat n) with v end;
  unfold LOCAL_FILE_HEADER_MAGIC, CD_FILE_HEADER_MAGIC, END_OF_CD_RECORD_MAGIC; lia.

Lemma local_fields pre f post : zfile_ok f -> len (f_body f) < 2 ^ 32 -> let data := pre ++ local_bytes f ++ post in
  get32 data (len pre) = Some LOCAL_FILE_HEADER_MAGIC /\ get16 data (len pre + 6) = Some 0 /\ get16 data (len pre + 8) = Some (f_method f) /\
  get32 data (len pre + 18) = Some (len (f_body f)) /\ get16 data (len pre + 26) = Some (len (f_name f)) /\ get16 data (len pre + 28) = Some (len (f_extra f)).
Proof.
  intros [[_ Hn] _ Hm [_ He] _ _] Hb data. pose proof (len_nonneg (f_body f)). pose proof (len_nonneg (f_name f)). pose proof (len_nonneg (f_extra f)).
  subst data. unfold local_bytes, local_head. rewrite <- !app_assoc. rewrite <- (Z.add_0_r (len pre)) at 1. rewrite !get_le_app by lia. split_and!; skip_fields.
Qed.

Lemma cd_fields pre f off post : zfile_ok f -> 0 <= off < 2 ^ 32 -> let data := pre ++ cd_bytes f off ++ post in
  get32 data (len pre) = Some CD_FILE_HEADER_MAGIC /\ get16 data (len pre + 8) = Some 0 /\ get16 data (len pre + 28) = Some (len (f_name f)) /\
  get16 data (len pre + 30) = Some (len (f_cd_extra f)) /\ get16 data (len pre + 32) = Some (len (f_comment f)) /\ get32 data (len pre + 42) = Some off.
Proof.
  intros [[_ Hn] _ Hm _ [_ He] [_ Hc]] Ho data. pose proof (len_nonneg (f_name f)). pose proof (len_nonneg (f_cd_extra f)). pose proof (len_nonneg (f_comment f)).
  subst data. unfold cd_bytes, cd_head. rewrite <- !app_assoc. rewrite <- (Z.add_0_r (len pre)) at 1. rewrite !get_le_app by lia. split_and!; skip_fields.
Qed.

Lemma eocd_fields pre n sz off post : 0 <= n < 2 ^ 16 -> 0 <= sz < 2 ^ 32 -> 0 <= off < 2 ^ 32 -> let data := pre ++ eocd_bytes n sz off ++ post in
  get32 data (len pre) = Some END_OF_CD_RECORD_MAGIC /\ get16 data (len pre + 4) = Some 0 /\ get16 data (len pre + 6) = Some 0 /\
  get16 data (len pre + 8) = Some n /\ get16 data (len pre + 10) = Some n /\ get32 data (len pre + 12) = Some sz /\ get32 data (len pre + 16) = Some off /\
  get16 data (len pre + 20) = Some 0.
Proof.
  intros Hn Hs Ho data. subst data. unfold eocd_bytes. rewrite <- !app_assoc. rewrite <- (Z.add_0_r (len pre)) at 1.
  rewrite !get_le_app by lia. split_and!; skip_fields.
Qed.

(** Sizes of the parts. *)
Lemma len_local_head f : len (local_head f) = 30.
Proof. unfold local_head. rewrite !len_app, !len_le. done. Qed.

Lemma len_cd_head f off : len (cd_head f off) = 46.
Proof. unfold cd_head. rewrite !len_app, !len_le. done. Qed.

Lemma len_local f : len (local_bytes f) = 30 + len (f_name f) + len (f_extra f) + len (f_body f).
Proof. unfold local_bytes. rewrite !len_app, len_local_head. lia. Qed.

Lemma len_cd f off : len (cd_bytes f off) = 46 + len (f_name f) + len (f_cd_extra f) + len (f_comment f).
Proof. unfold cd_bytes. rewrite !len_app, len_cd_head. lia. Qed.

Lemma len_eocd n sz off : len (eocd_bytes n sz off) = 22.
Proof. unfold eocd_bytes. rewrite !len_app, !len_le. done. Qed.

(** ** Finding a file *)
Lemma get_entry_written a pre f post : archive_ok a -> z_data a = pre ++ local_bytes f ++ post -> zfile_ok f ->
  exists e, get_entry_at_offset a (len pre) = Some (inr e) /\ compression e = f_method f /\ name_length e = len (f_name f) /\
    bytes_at (z_data a) (e_name e) (length (f_name f)) = Some (f_name f) /\
    data_length e = len (f_body f) /\ bytes_at (z_data a) (data_offset e) (length (f_body f)) = Some (f_body f).
Proof.
  intros Ha Hd Hf. pose proof (ao_size a Ha) as Hsz. pose proof (ao_max a Ha). change (Z.of_nat (length (z_data a))) with (len (z_data a)) in Hsz.
  rewrite Hd, !len_app, len_local in Hsz. pose proof (len_nonneg pre). pose proof (len_nonneg post). pose proof (len_nonneg (f_body f)).
  pose proof (len_nonneg (f_name f)). pose proof (len_nonneg (f_extra f)).
  destruct (local_fields pre f post Hf) as (F0 & F6 & F8 & F18 & F26 & F28); [lia|].
  unfold get_entry_at_offset, local_file_header_at_offset, sizeof_lfh. cbv zeta.
  rewrite check_access_spec by lia. rewrite (proj2 (Z.leb_le _ _)) by lia. rewrite Hd, F0. cbn [mbind option_bind]. rewrite Z.eqb_refl. cbn [negb].
  rewrite F6. cbn [mbind option_bind]. change (0 &' FLAG_ENCRYPTED =? 0) with true. change (0 &' FLAG_HAS_DATA_DESCRIPTOR =? 0) with true. cbn [negb orb].
  rewrite F26. cbn [mbind option_bind]. rewrite (wrap_small 32 (len pre + 30)) by lia.
  rewrite check_access_spec by lia. rewrite (proj2 (Z.leb_le _ _)) by lia. rewrite F28. cbn [mbind option_bind].
  rewrite (wrap_small 32 (len pre + 30 + len (f_name f))) by lia.
  rewrite check_access_spec by lia. rewrite (proj2 (Z.leb_le _ _)) by lia. rewrite F18. cbn [mbind option_bind].
  rewrite (wrap_small 32 (len pre + 30 + len (f_name f) + len (f_extra f))) by lia.
  rewrite check_access_spec by lia. rewrite (proj2 (Z.leb_le _ _)) by lia. rewrite F8. cbn [mbind option_bind].
  eexists. split; [done|]. cbn [compression name_length e_name data_length data_offset]. split_and!; [done..| |done|].
  - unfold local_bytes. rewrite <- (len_local_head f), <- len_app, <- !app_assoc, app_assoc. apply bytes_at_mid.
  - unfold local_bytes. rewrite <- (len_local_head f), <- !len_app, <- !app_assoc, !(app_assoc pre), !(app_assoc (pre ++ _)), (app_assoc ((pre ++ _) ++ _)).
    apply bytes_at_mid.
Qed.

Lemma locals_app fs gs : locals (fs ++ gs) = locals fs ++ locals gs.
Proof. induction fs as [|f fs IH]; [done|]. cbn. by rewrite IH, app_assoc. Qed.

Lemma directory_app off fs gs : directory off (fs ++ gs) = directory off fs ++ directory (off + len (locals fs)) gs.
Proof.
  revert off. induction fs as [|f fs IH]; intros off; cbn [directory locals app]; [by rewrite Z.add_0_r|].
  rewrite IH, app_assoc, len_app, Z.add_assoc. done.
Qed.

(** The file that a name finds. *)
Definition zip_lookup (fs : list zfile) (name : list Z) : option zfile := snd <$> list_find (fun f => name = f_name f) fs.

Definition found (a : zip_archive) (f : option zfile) (r : Z + zip_entry) : Prop :=
  match f, r with
  | None, inl err => err = - ENOENT
  | Some f, inr e => compression e = f_method f /\ name_length e = len (f_name f) /\ bytes_at (z_data a) (e_name e) (length (f_name f)) = Some (f_name f) /\
      data_length e = len (f_body f) /\ bytes_at (z_data a) (data_offset e) (length (f_body f)) = Some (f_body f)
  | _, _ => False
  end.

Lemma zip_lookup_cons f fs name : zip_lookup (f :: fs) name = if decide (name = f_name f) then Some f else zip_lookup fs name.
Proof. unfold zip_lookup. cbn [list_find]. destruct (decide (name = f_name f)); [done|]. by destruct (list_find _ fs) as [[]|]. Qed.

(** The search from the entry of [f] on, in an archive that has the entry there and the local
    header at the offset the entry gives. *)
Lemma find_entry_step n a pre f off post name : archive_ok a -> z_data a = pre ++ cd_bytes f off ++ post -> zfile_ok f -> 0 <= off < 2 ^ 32 ->
  find_entry_loop (S n) a name (len pre) =
    if decide (name = f_name f) then get_entry_at_offset a off else find_entry_loop n a name (len pre + len (cd_bytes f off)).
Proof.
  intros Ha Hd Hf Hoff. pose proof (ao_size a Ha) as Hsz. pose proof (ao_max a Ha). change (Z.of_nat (length (z_data a))) with (len (z_data a)) in Hsz.
  rewrite Hd, !len_app, len_cd in Hsz. pose proof (len_nonneg pre). pose proof (len_nonneg post). pose proof (len_nonneg (f_name f)).
  pose proof (len_nonneg (f_cd_extra f)). pose proof (len_nonneg (f_comment f)).
  destruct (cd_fields pre f off post Hf Hoff) as (F0 & F8 & F28 & F30 & F32 & F42).
  cbn [find_entry_loop]. unfold sizeof_cdfh. cbv zeta. rewrite check_access_spec by lia. rewrite (proj2 (Z.leb_le _ _)) by lia.
  rewrite Hd, F0. cbn [mbind option_bind]. rewrite Z.eqb_refl. cbn [negb]. rewrite F28. cbn [mbind option_bind].
  rewrite (wrap_small 32 (len pre + 46)) by lia. rewrite check_access_spec by lia. rewrite (proj2 (Z.leb_le _ _)) by lia.
  rewrite F8. cbn [mbind option_bind]. change (0 &' FLAG_ENCRYPTED =? 0) with true. change (0 &' FLAG_HAS_DATA_DESCRIPTOR =? 0) with true. cbn [andb].
  assert (bytes_at (pre ++ cd_bytes f off ++ post) (len pre + 46) (length (f_name f)) = Some (f_name f)) as Hname.
  { unfold cd_bytes. rewrite <- (len_cd_head f off), <- len_app, <- !app_assoc, app_assoc. apply bytes_at_mid. }
  rewrite F42, F30, F32. cbn [mbind option_bind]. rewrite (wrap_small 32 (len pre + 46 + len (f_name f))), (wrap_small 32 (_ + len (f_cd_extra f))), (wrap_small 32 (_ + len (f_comment f))) by lia.
  replace (len pre + 46 + len (f_name f) + len (f_cd_extra f) + len (f_comment f)) with (len pre + len (cd_bytes f off)) by (rewrite len_cd; lia).
  destruct (Z.eqb_spec (Z.of_nat (length name)) (len (f_name f))) as [Hl|Hl].
  - unfold len in Hl. apply Nat2Z.inj in Hl. rewrite Hl, Hname. cbn [mbind option_bind]. case_bool_decide; [by rewrite decide_True|by rewrite decide_False].
  - cbn [mbind option_bind]. rewrite decide_False; [done|]. intros ->. done.
Qed.

Lemma find_entry_written a gs fs tail name : archive_ok a -> z_data a = locals (gs ++ fs) ++ directory 0 (gs ++ fs) ++ tail -> Forall zfile_ok fs ->
  exists r, find_entry_loop (length fs) a name (len (locals (gs ++ fs)) + len (directory 0 gs)) = Some r /\ found a (zip_lookup fs name) r.
Proof.
  intros Ha. revert gs. induction fs as [|f fs IH]; intros gs Hd Hok; [by exists (inl (- ENOENT))|].
  apply Forall_cons in Hok as [Hf Hok]. pose proof (ao_size a Ha) as Hsz. pose proof (ao_max a Ha) as Hmax. change (Z.of_nat (length (z_data a))) with (len (z_data a)) in Hsz.
  set (L := locals (gs ++ f :: fs)) in *. set (off := len (locals gs)).
  assert (z_data a = (L ++ directory 0 gs) ++ cd_bytes f off ++ directory (off + len (local_bytes f)) fs ++ tail) as Hcd.
  { rewrite Hd, directory_app. cbn [directory]. rewrite Z.add_0_l. by rewrite <- !app_assoc. }
  assert (z_data a = locals gs ++ local_bytes f ++ locals fs ++ directory 0 (gs ++ f :: fs) ++ tail) as Hloc.
  { rewrite Hd. unfold L. rewrite locals_app. cbn [locals]. by rewrite <- !app_assoc. }
  assert (0 <= off < 2 ^ 32) as Hoff.
  { pose proof (len_nonneg (locals gs)). rewrite Hloc, len_app in Hsz. pose proof (len_nonneg (local_bytes f ++ locals fs ++ directory 0 (gs ++ f :: fs) ++ tail)). lia. }
  cbn [length]. rewrite <- len_app, (find_entry_step _ a _ f off _ name Ha Hcd Hf Hoff), zip_lookup_cons. destruct (decide (name = f_name f)).
  - destruct (get_entry_written a _ f _ Ha Hloc Hf) as (en & He & Hrest). exists (inr en). split; [done|]. exact Hrest.
  - destruct (IH (gs ++ [f])) as (r & Hr & Hfound); [rewrite <- app_assoc; exact Hd|done|]. exists r. split; [|done]. rewrite <- Hr. f_equal.
    rewrite <- app_assoc, directory_app. cbn [app directory]. rewrite Z.add_0_l, !len_app. change (len []) with 0. fold L off. lia.
Qed.

(** ** Opening *)
Lemma bytes_ok_app l l' : bytes_ok l -> bytes_ok l' -> bytes_ok (l ++ l').
Proof. intros. by apply Forall_app. Qed.

Lemma locals_bytes fs : Forall zfile_ok fs -> bytes_ok (locals fs).
Proof.
  induction 1 as [|f fs Hf _ IH]; [by constructor|]. cbn [locals]. unfold local_bytes, local_head. repeat apply bytes_ok_app; try apply le_bytes_range; try apply Hf. done.
Qed.

Lemma directory_bytes off fs : Forall zfile_ok fs -> bytes_ok (directory off fs).
Proof.
  intros H. revert off. induction H as [|f fs Hf _ IH]; intros off; [by constructor|]. cbn [directory]. unfold cd_bytes, cd_head.
  repeat apply bytes_ok_app; try apply le_bytes_range; try apply Hf. done.
Qed.

Lemma zip_bytes_ok fs : Forall zfile_ok fs -> bytes_ok (zip_bytes fs).
Proof.
  intros H. unfold zip_bytes, eocd_bytes. repeat apply bytes_ok_app; try apply le_bytes_range; [by apply locals_bytes|by apply directory_bytes].
Qed.

Lemma try_parse_written fs : Forall zfile_ok fs -> Z.of_nat (length fs) < 2 ^ 16 -> len (zip_bytes fs) < 2 ^ 32 ->
  try_parse_end_of_cd (Archive (zip_bytes fs) (len (zip_bytes fs)) 0 0) (len (zip_bytes fs) - 22) =
    Some (0, Archive (zip_bytes fs) (len (zip_bytes fs)) (len (locals fs)) (Z.of_nat (length fs))).
Proof.
  intros Hok Hn Hl. assert (Hlen := Hl). unfold zip_bytes in Hlen. rewrite !len_app, len_eocd in Hlen.
  pose proof (len_nonneg (locals fs)). pose proof (len_nonneg (directory 0 fs)).
  assert (len (zip_bytes fs) = len (locals fs) + len (directory 0 fs) + 22) as Hz by (unfold zip_bytes; rewrite !len_app, len_eocd; lia).
  destruct (eocd_fields (locals fs ++ directory 0 fs) (Z.of_nat (length fs)) (len (directory 0 fs)) (len (locals fs)) []) as (F0 & F4 & F6 & F8 & F10 & F12 & F16 & F20); [lia..|].
  rewrite app_nil_r, <- app_assoc in *. fold (zip_bytes fs) in *. rewrite len_app in *.
  unfold try_parse_end_of_cd, sizeof_eocd. cbv zeta. rewrite check_access_spec by (cbn [z_size]; lia). cbn [z_size z_data].
  rewrite (proj2 (Z.leb_le _ _)) by lia. replace (len (zip_bytes fs) - 22) with (len (locals fs) + len (directory 0 fs)) by lia.
  rewrite F0. cbn [mbind option_bind]. rewrite Z.eqb_refl. cbn [negb]. rewrite F20. cbn [mbind option_bind].
  rewrite (proj2 (Z.eqb_eq _ _)) by lia. cbn [negb]. rewrite F8, F4, F6, F10. cbn [mbind option_bind]. rewrite (Z.eqb_refl 0), (Z.eqb_refl (Z.of_nat _)). cbn [negb orb].
  rewrite F16, F12. cbn [mbind option_bind]. rewrite check_access_spec by (cbn [z_size]; lia). cbn [z_size]. rewrite (proj2 (Z.leb_le _ _)) by lia. done.
Qed.

Lemma open_written e fs : 0 <= ze_open e -> ze_map e = Some (zip_bytes fs) -> ze_size e = len (zip_bytes fs) -> ze_malloc e = true ->
  fs <> [] -> Forall zfile_ok fs -> Z.of_nat (length fs) < 2 ^ 16 -> len (zip_bytes fs) < 2 ^ 32 ->
  zip_archive_open e = Some (inr (Archive (zip_bytes fs) (len (zip_bytes fs)) (len (locals fs)) (Z.of_nat (length fs)))).
Proof.
  intros Ho Hm Hs Hmem Hne Hok Hn Hl. pose proof (try_parse_written fs Hok Hn Hl) as Hp.
  assert (22 < len (zip_bytes fs)) as Hbig.
  { destruct fs as [|f fs]; [done|]. unfold zip_bytes. cbn [locals]. rewrite !len_app, len_eocd, len_local.
    pose proof (len_nonneg (f_name f)). pose proof (len_nonneg (f_extra f)). pose proof (len_nonneg (f_body f)). pose proof (len_nonneg (locals fs)).
    pose proof (len_nonneg (directory 0 (f :: fs))). lia. }
  unfold zip_archive_open. rewrite (proj2 (Z.ltb_ge _ _)), Hs, Hm, Hmem by done. rewrite (proj2 (Z.eqb_neq _ _)), Z.gtb_ltb, (proj2 (Z.ltb_ge _ _)) by (unfold UINT32_MAX; lia).
  cbn [orb negb]. unfold find_cd. cbn [z_size]. unfold sizeof_eocd. rewrite (proj2 (Z.leb_gt _ _)) by done. cbv zeta. change (1 <<' 16) with 65536.
  set (a := Archive _ _ 0 0) in *. set (size := len (zip_bytes fs)) in *.
  replace (S (Z.to_nat 65536)) with (S (S (Z.to_nat 65535))) by lia. generalize (Z.to_nat 65535). intros fuel.
  cbn [find_cd_loop]. rewrite !Z.geb_leb, !Z.gtb_ltb, (proj2 (Z.leb_le 0 (size - 22))), (proj2 (Z.ltb_lt (size - 22 - 65536) (size - 22))) by lia. cbn [andb].
  change (negb (- EINVAL =? 0)) with true. cbv iota. rewrite (wrap_small 32 (size - 22)), Hp by lia. cbn [mbind option_bind]. change (0 =? - ENOTSUP) with false. cbv iota.
  cbn [find_cd_loop]. rewrite (Z.eqb_refl 0). cbn [negb]. rewrite andb_false_r. cbn [mbind option_bind]. done.
Qed.

(** C28. Round trip: an archive written from a non-empty list of files (local headers, directory
    and end record in the layout of the format; names, extra fields and comments of less than
    65536 bytes, less than 65536 files and 4 GiB in all) opens, and
    looking a name up finds the first file of that name with its method and exactly its contents,
    or fails with ENOENT when there is none.  The archive of the empty list, which is an end
    record alone, is refused with -EINVAL. *)
Theorem zip_roundtrip e fs name : 0 <= ze_open e -> ze_map e = Some (zip_bytes fs) -> ze_size e = len (zip_bytes fs) -> ze_malloc e = true ->
  Forall zfile_ok fs -> Z.of_nat (length fs) < 2 ^ 16 -> len (zip_bytes fs) < 2 ^ 32 ->
  (fs = [] -> zip_archive_open e = Some (inl (- EINVAL))) /\
  (fs <> [] -> exists a r, zip_archive_open e = Some (inr a) /\ zip_archive_find_entry a name = Some r /\ found a (zip_lookup fs name) r).
Proof.
  intros Ho Hm Hs Hmem Hok Hn Hl. split.
  { intros ->. unfold zip_archive_open. rewrite Hm, Hmem, Hs. destruct (Z.ltb_spec (ze_open e) 0); [lia|]. reflexivity. }
  intros Hne. eexists _. rewrite (open_written e fs) by done.
  set (a := Archive _ _ _ _). assert (archive_ok a) as Ha.
  { split; cbn; [by apply zip_bytes_ok|done|done| |lia]. pose proof (len_nonneg (locals fs)). pose proof (len_nonneg (directory 0 fs)).
    unfold zip_bytes in Hl. rewrite !len_app, len_eocd in Hl. lia. }
  destruct (find_entry_written a [] fs (eocd_bytes (Z.of_nat (length fs)) (len (directory 0 fs)) (len (locals fs))) name Ha) as (r & Hr & Hf); [done..|].
  exists r. split_and!; [done| |done]. unfold zip_archive_find_entry. cbn [z_cd_records z_cd_offset a]. rewrite Nat2Z.id, <- Hr. f_equal. cbn [app directory]. change (len []) with 0. symmetry. apply Z.add_0_r.
Qed.

(** ** Witnesses *)
Definition sample_files : list zfile := [ZFile [97] [1; 2; 3] 0 [9] [] []; ZFile [98; 99] [4; 5] 8 [] [7; 7] [33]].
Definition sample_env : zip_env := ZipEnv 3 (len (zip_bytes sample_files)) (Some (zip_bytes sample_files)) 0 true.

Lemma sample_files_ok : Forall zfile_ok sample_files.
Proof. repeat constructor; cbn; try lia; repeat constructor; lia. Qed.

Lemma zip_find_safe_witness : exists r, zip_archive_open sample_env = Some r /\
    forall a, r = inr a -> ze_map sample_env = Some (z_data a) /\
      exists r', zip_archive_find_entry a [98; 99] = Some r' /\ match r' with inl err => err = - EINVAL \/ err = - ENOENT | inr en => entry_ok a en end.
Proof.
  apply (zip_find_safe sample_env [98; 99]). intros data H. injection H as <-. split; [|reflexivity]. apply zip_bytes_ok, sample_files_ok.
Defined.

Lemma zip_roundtrip_witness : (exists a r, zip_archive_open sample_env = Some (inr a) /\ zip_archive_find_entry a [98; 99] = Some r /\
    found a (zip_lookup sample_files [98; 99]) r) /\
  (a ← zip_archive_open sample_env; match a with inr a => zip_archive_find_entry a [98; 99] | inl _ => None end) = Some (inr (Entry 8 65 2 67 2 67)).
Proof.
  split; [|vm_compute; reflexivity]. apply (zip_roundtrip sample_env sample_files [98; 99]); try done. apply sample_files_ok.
Defined.
