(* ===== verification/ProgLinfo.v ===== *)
(** * Line information of loaded programs

    src/libbpf/src/bpf_prog_linfo.c, which finds the source line of an address of a program that
    the kernel has compiled, or of one of its instructions.  The records are the bytes the kernel
    gives, [rec_size] of them each, and only the first field of a record is read: the address
    (jited records) or the offset of the instruction.  The two arrays that the code allocates
    without filling hold [None] where nothing was stored; reading such an element, or outside an
    array or buffer, is [None].

    [linfo_new_partition]: the records are split into runs, one for each function.
    [lfind_addr_func_pred]: a search finds the last record of the function at or below the
    address.  [lfind_pred] is the same search over instructions. *)
From stdpp Require Import base numbers list.
From S2P Require Import Prelude.

Abbreviation get32 := (get_le 4).
Abbreviation get64 := (get_le 8).

Record bpf_prog_linfo := ProgLinfo {
  raw_linfo : list Z;
  raw_jited_linfo : list Z;
  nr_jited_linfo_per_func : list (option Z);
  jited_linfo_func_idx : list (option Z);
  nr_linfo : Z;
  nr_jited_func : Z;
  rec_size : Z;
  jited_rec_size : Z
}.

(** The fields of [bpf_prog_info] that are used; a pointer is the array it points to, [None] when
    it is null. *)
Record bpf_prog_info := ProgInfo {
  nr_line_info : Z;
  line_info_rec_size : Z;
  line_info : list Z;
  nr_jited_ksyms : Z;
  jited_line_info : option (list Z);
  nr_jited_line_info : Z;
  jited_line_info_rec_size : Z;
  nr_jited_func_lens : Z;
  jited_ksyms : option (list Z);
  jited_func_lens : option (list Z)
}.

(** An element that has been stored. *)
Definition stored (l : list (option Z)) (i : Z) : option Z := zget l i ≫= id.

(** The loop of [dissect_jited_func]: [off] is where [jited_linfo] points, [nr] and [idx] the two
    arrays; the result is the error or the last [f] and [prev_i]. *)
Fixpoint dissect_loop (fuel : nat) (p : bpf_prog_linfo) (ksym_func ksym_len : list Z) (nr idx : list (option Z)) (off prev_i i f : Z) :
    option (option (Z * Z) * list (option Z) * list (option Z)) :=
  if (i <? nr_linfo p) && (f <? nr_jited_func p) then
    match fuel with
    | O => None
    | S fuel =>
      last_jited_linfo ← get64 (raw_jited_linfo p) off;
      let off := off + jited_rec_size p in
      jited_linfo ← get64 (raw_jited_linfo p) off;
      func ← zget ksym_func f;
      if func =? jited_linfo then
        idx ← zset idx f (Some i);
        prev_func ← zget ksym_func (f - 1);
        prev_len ← zget ksym_len (f - 1);
        if u64 (last_jited_linfo - prev_func + 1) >? prev_len then Some (None, nr, idx)
        else
          nr ← zset nr (f - 1) (Some (u32 (i - prev_i)));
          dissect_loop fuel p ksym_func ksym_len nr idx off i (u32 (i + 1)) (u32 (f + 1))
      else if jited_linfo <=? last_jited_linfo then Some (None, nr, idx)
      else dissect_loop fuel p ksym_func ksym_len nr idx off prev_i (u32 (i + 1)) f
    end
  else Some (Some (f, prev_i), nr, idx).

Definition set_arrays (p : bpf_prog_linfo) (nr idx : list (option Z)) : bpf_prog_linfo :=
  ProgLinfo (raw_linfo p) (raw_jited_linfo p) nr idx (nr_linfo p) (nr_jited_func p) (rec_size p) (jited_rec_size p).

Definition dissect_jited_func (p : bpf_prog_linfo) (ksym_func ksym_len : list Z) : option (Z * bpf_prog_linfo) :=
  func0 ← zget ksym_func 0;
  jited_linfo ← get64 (raw_jited_linfo p) 0;
  if negb (func0 =? jited_linfo) then Some (- EINVAL, p)
  else
    idx ← zset (jited_linfo_func_idx p) 0 (Some 0);
    '(r, nr, idx) ← dissect_loop (Z.to_nat (nr_linfo p)) p ksym_func ksym_len (nr_jited_linfo_per_func p) idx 0 0 1 1;
    match r with
    | None => Some (- EINVAL, set_arrays p nr idx)
    | Some (f, prev_i) =>
      if negb (f =? nr_jited_func p) then Some (- EINVAL, set_arrays p nr idx)
      else
        nr ← zset nr (nr_jited_func p - 1) (Some (u32 (nr_linfo p - prev_i)));
        Some (0, set_arrays p nr idx)
    end.

(** [memcpy] of [n] bytes into a buffer of [n] bytes. *)
Definition copy (src : list Z) (n : Z) : option (list Z) := if decide (0 <= n <= Z.of_nat (length src)) then Some (take (Z.to_nat n) src) else None.

Definition SIZEOF_LINFO_MIN := 4.  (* offsetof(struct bpf_line_info, file_name_off) *)

(** An error is the value left in [errno]; the result then is NULL. *)
Definition bpf_prog_linfo__new (al : oracle) (info : bpf_prog_info) : option (Z + bpf_prog_linfo) :=
  let n := nr_line_info info in
  if n =? 0 then Some (inl EINVAL)
  else if line_info_rec_size info <? SIZEOF_LINFO_MIN then Some (inl EINVAL)
  else if negb (al [0]) then Some (inl ENOMEM)
  else if negb (al [1]) then Some (inl EINVAL)
  else
    raw ← copy (line_info info) (u64 (n * line_info_rec_size info));
    let p := ProgLinfo raw [] [] [] n 0 (line_info_rec_size info) 0 in
    let nf := nr_jited_ksyms info in
    match jited_line_info info, jited_ksyms info, jited_func_lens info with
    | Some jlines, Some ksyms, Some lens =>
      if (nf =? 0) || negb (nr_jited_line_info info =? n) || (jited_line_info_rec_size info <? 8) || negb (nr_jited_func_lens info =? nf) then Some (inr p)
      else if negb (al [2]) then Some (inl EINVAL)
      else
        jraw ← copy jlines (u64 (n * jited_line_info_rec_size info));
        if negb (al [3]) then Some (inl EINVAL)
        else if negb (al [4]) then Some (inl EINVAL)
        else
          let fresh := replicate (Z.to_nat nf) None in
          '(err, p) ← dissect_jited_func (ProgLinfo raw jraw fresh fresh n nf (line_info_rec_size info) (jited_line_info_rec_size info)) ksyms lens;
          Some (if negb (err =? 0) then inl EINVAL else inr p)
    | _, _, _ => Some (inr p)
    end.

(** The loop of a search: the fields of [n] records, [stride] bytes apart, from [joff] on, are
    compared with [key]; [off] follows in the records that are returned. *)
Fixpoint lfind_loop (n : nat) (w : nat) (buf : list Z) (key stride joff rec off : Z) : option Z :=
  match n with
  | O => Some off
  | S n =>
    v ← get_le w buf joff;
    if key <? v then Some off else lfind_loop n w buf key stride (joff + stride) rec (off + rec)
  end.

(** The result is the offset of the record in [raw_linfo], [None] inside for NULL. *)
Definition bpf_prog_linfo__lfind_addr_func (p : bpf_prog_linfo) (addr func_idx nr_skip : Z) : option (option Z) :=
  if func_idx >=? nr_jited_func p then Some None
  else
    n ← stored (nr_jited_linfo_per_func p) func_idx;
    if nr_skip >=? n then Some None
    else
      first ← stored (jited_linfo_func_idx p) func_idx;
      let start := u32 (first + nr_skip) in
      let joff := u32 (start * jited_rec_size p) in
      v ← get64 (raw_jited_linfo p) joff;
      if addr <? v then Some None
      else
        let off := u32 (start * rec_size p) in
        off ← lfind_loop (Z.to_nat (u32 (n - nr_skip))) 8 (raw_jited_linfo p) addr (jited_rec_size p) joff (rec_size p) off;
        Some (Some (off - rec_size p)).

Definition bpf_prog_linfo__lfind (p : bpf_prog_linfo) (insn_off nr_skip : Z) : option (option Z) :=
  if nr_skip >=? nr_linfo p then Some None
  else
    let off := u32 (nr_skip * rec_size p) in
    v ← get32 (raw_linfo p) off;
    if insn_off <? v then Some None
    else
      off ← lfind_loop (Z.to_nat (u32 (nr_linfo p - nr_skip))) 4 (raw_linfo p) insn_off (rec_size p) off (rec_size p) off;
      Some (Some (off - rec_size p)).

(** ** Runs of records *)

(** The first field of record [k]. *)
Definition field (w : nat) (buf : list Z) (stride k : Z) : option Z := get_le w buf (k * stride).
Abbreviation jaddr p := (field 8 (raw_jited_linfo p) (jited_rec_size p)).
Abbreviation insn_of p := (field 4 (raw_linfo p) (rec_size p)).

(** The records from [a] to [b] start with the address of the function and are in increasing
    order. *)
Record run (p : bpf_prog_linfo) (ksym : Z) (a b : Z) : Prop := {
  run_lt : 0 <= a < b;
  run_max : b <= nr_linfo p;
  run_first : jaddr p a = Some ksym;
  run_incr : forall k u v, a <= k -> k + 1 < b -> jaddr p k = Some u -> jaddr p (k + 1) = Some v -> u < v
}.

(** What the arrays say of function [g] when the next one is known: its first record is [a], the
    next function starts at [b], and its addresses are inside the function (the test is on 64-bit
    numbers). *)
Record func_run (p : bpf_prog_linfo) (ksyms lens : list Z) (nr idx : list (option Z)) (g a b : Z) : Prop := {
  fr_idx : stored idx g = Some a;
  fr_next : stored idx (g + 1) = Some b;
  fr_nr : stored nr g = Some (b - a);
  fr_run : exists ksym, zget ksyms g = Some ksym /\ run p ksym a b;
  fr_len : exists ksym len last, zget ksyms g = Some ksym /\ zget lens g = Some len /\ jaddr p (b - 1) = Some last /\ u64 (last - ksym + 1) <= len
}.

(** The buffers and the counts of an object agree. *)
Record sizes_ok (p : bpf_prog_linfo) : Prop := {
  so_bytes : bytes_ok (raw_linfo p) /\ bytes_ok (raw_jited_linfo p);
  so_count : 0 < nr_linfo p < 2 ^ 32 /\ 0 <= nr_jited_func p < 2 ^ 32;
  so_rec : 4 <= rec_size p < 2 ^ 32;
  so_raw : Z.of_nat (length (raw_linfo p)) = nr_linfo p * rec_size p;
  so_jrec : 0 < nr_jited_func p -> 8 <= jited_rec_size p < 2 ^ 32 /\ Z.of_nat (length (raw_jited_linfo p)) = nr_linfo p * jited_rec_size p
}.

Lemma field_ok w buf stride n k : bytes_ok buf -> Z.of_nat (length buf) = n * stride -> Z.of_nat w <= stride -> 0 <= k < n ->
  exists v, field w buf stride k = Some v /\ 0 <= v < 256 ^ Z.of_nat w.
Proof. intros Hb Hl Hw Hk. apply get_le_ok; [done|nia|rewrite Hl; nia]. Qed.

Lemma jaddr_ok p k : sizes_ok p -> 0 < nr_jited_func p -> 0 <= k < nr_linfo p -> exists v, jaddr p k = Some v /\ 0 <= v < 2 ^ 64.
Proof.
  intros Hp Hf Hk. destruct (so_jrec p Hp Hf) as [Hr Hl]. apply (field_ok 8 _ _ (nr_linfo p)); [apply Hp|done|lia|done].
Qed.

Lemma insn_ok p k : sizes_ok p -> 0 <= k < nr_linfo p -> exists v, insn_of p k = Some v /\ 0 <= v < 2 ^ 32.
Proof. intros Hp Hk. pose proof (so_rec p Hp). apply (field_ok 4 _ _ (nr_linfo p)); [apply Hp|apply Hp|lia|done]. Qed.

(** Extending the run of the last function that was found by one record. *)
Lemma run_snoc p ksym a i u v : run p ksym a i -> i < nr_linfo p -> jaddr p (i - 1) = Some u -> jaddr p i = Some v -> u < v -> run p ksym a (i + 1).
Proof.
  intros [H1 H2 H3 H4] Hi Hu Hv Huv. split; [lia|lia|done|]. intros k x y Hk Hk1 Hx Hy. destruct (decide (k + 1 < i)) as [|]; [by apply (H4 k)|].
  assert (k = i - 1) as -> by lia. rewrite Hu in Hx. replace (i - 1 + 1) with i in Hy by lia. congruence.
Qed.

Lemma stored_set_eq l l' i v : zset l i (Some v) = Some l' -> stored l' i = Some v.
Proof. intros H. unfold stored. by rewrite (zget_zset_eq _ _ _ _ H). Qed.

Lemma stored_set_ne l l' i j x : zset l i x = Some l' -> i <> j -> stored l' j = stored l j.
Proof. intros H Hn. unfold stored. by rewrite (zget_zset_ne _ _ _ _ _ H Hn). Qed.

(** ** Dissection *)
Section dissect.
Context (p : bpf_prog_linfo) (ksyms lens : list Z).
Hypothesis Hp : sizes_ok p.
Hypothesis Hf0 : 0 < nr_jited_func p.
Hypothesis Hks : Z.of_nat (length ksyms) = nr_jited_func p.
Hypothesis Hls : Z.of_nat (length lens) = nr_jited_func p.

(** The functions before [f] are found; the last of them started at [prev_i]. *)
Record found_runs (nr idx : list (option Z)) (f prev_i i : Z) : Prop := {
  fo_nr : Z.of_nat (length nr) = nr_jited_func p;
  fo_len : Z.of_nat (length idx) = nr_jited_func p;
  fo_f : 1 <= f <= nr_jited_func p;
  fo_first : stored idx 0 = Some 0;
  fo_runs : forall g, 0 <= g < f - 1 -> exists a b, func_run p ksyms lens nr idx g a b;
  fo_last : stored idx (f - 1) = Some prev_i;
  fo_run : exists ksym, zget ksyms (f - 1) = Some ksym /\ run p ksym prev_i i
}.

(** Storing the start of function [f] and the count of the one before it. *)
Lemma found_next nr idx f prev_i i nr' idx' ksym ksym' len last : found_runs nr idx f prev_i i -> i < nr_linfo p -> f < nr_jited_func p ->
  zset idx f (Some i) = Some idx' -> zset nr (f - 1) (Some (i - prev_i)) = Some nr' -> zget ksyms f = Some ksym' -> jaddr p i = Some ksym' ->
  zget ksyms (f - 1) = Some ksym -> zget lens (f - 1) = Some len -> jaddr p (i - 1) = Some last -> u64 (last - ksym + 1) <= len ->
  found_runs nr' idx' (f + 1) i (i + 1).
Proof.
  intros [Hnr Hlen Hf Hfirst Hruns Hlast (ks & Hk & Hrun)] Hi Hfn Hidx Hnr' Hks' Hj Hprev Hl Hla Hs. rewrite Hprev in Hk. injection Hk as <-.
  pose proof (run_lt _ _ _ _ Hrun). split; [by rewrite (zset_length _ _ _ _ Hnr')|by rewrite (zset_length _ _ _ _ Hidx)|lia| | | |].
  - by rewrite (stored_set_ne _ _ _ _ _ Hidx) by lia.
  - intros g Hg. destruct (decide (g = f - 1)) as [->|Hne].
    + exists prev_i, i. split; [by rewrite (stored_set_ne _ _ _ _ _ Hidx) by lia| |by apply (stored_set_eq _ _ _ _ Hnr')|by exists ksym|by exists ksym, len, last].
      replace (f - 1 + 1) with f by lia. by apply (stored_set_eq _ _ _ _ Hidx).
    + destruct (Hruns g) as (a & b & [G1 G2 G3 G4 G5]); [lia|]. exists a, b.
      split; [by rewrite (stored_set_ne _ _ _ _ _ Hidx) by lia|by rewrite (stored_set_ne _ _ _ _ _ Hidx) by lia|by rewrite (stored_set_ne _ _ _ _ _ Hnr') by lia|done|done].
  - replace (f + 1 - 1) with f by lia. by apply (stored_set_eq _ _ _ _ Hidx).
  - exists ksym'. replace (f + 1 - 1) with f by lia. split; [done|]. split; [lia|lia|done|]. intros; lia.
Qed.

(** The records do not go on as the functions require: the first functions are found and record
    [i] is next, but there is none, it starts the next function although the last one would be
    longer than it is, or it is in no function that was found and its address does not increase. *)
Definition stuck : Prop := exists nr idx f prev_i i ksym, found_runs nr idx f prev_i i /\ f < nr_jited_func p /\ zget ksyms f = Some ksym /\
  (i = nr_linfo p \/ exists last cur, jaddr p (i - 1) = Some last /\ jaddr p i = Some cur /\
     (cur = ksym /\ (exists func len, zget ksyms (f - 1) = Some func /\ zget lens (f - 1) = Some len /\ len < u64 (last - func + 1)) \/
      cur <> ksym /\ cur <= last)).

Lemma dissect_loop_spec fuel nr idx off prev_i i f : found_runs nr idx f prev_i i -> off = (i - 1) * jited_rec_size p ->
  nr_linfo p - i <= Z.of_nat fuel ->
  exists r nr' idx', dissect_loop fuel p ksyms lens nr idx off prev_i i f = Some (r, nr', idx') /\
    Z.of_nat (length nr') = nr_jited_func p /\ Z.of_nat (length idx') = nr_jited_func p /\
    match r with
    | Some (f', prev') => exists i', found_runs nr' idx' f' prev' i' /\ (f' = nr_jited_func p \/ i' = nr_linfo p)
    | None => stuck
    end.
Proof.
  revert nr idx off prev_i i f. induction fuel as [|fuel IH]; intros nr idx off prev_i i f Hfr -> Hfuel;
    pose proof Hfr as [Hnr Hlen Hf Hfirst Hruns Hlast (ksym & Hk & Hrun)]; pose proof (run_lt _ _ _ _ Hrun) as Hlt; cbn [dissect_loop].
  { rewrite (proj2 (Z.ltb_ge _ _)) by lia. cbn [andb]. exists (Some (f, prev_i)), nr, idx. split_and!; [done..|]. exists i. pose proof (run_max _ _ _ _ Hrun). split; [done|lia]. }
  destruct (Z.ltb_spec i (nr_linfo p)) as [Hi|Hi]; cbn [andb].
  2: { exists (Some (f, prev_i)), nr, idx. split_and!; [done..|]. exists i. pose proof (run_max _ _ _ _ Hrun). split; [done|lia]. }
  destruct (Z.ltb_spec f (nr_jited_func p)) as [Hfn|Hfn].
  2: { exists (Some (f, prev_i)), nr, idx. split_and!; [done..|]. exists i. pose proof (run_max _ _ _ _ Hrun). split; [done|lia]. }
  pose proof (so_count p Hp) as [Hc1 Hc2].
  destruct (jaddr_ok p (i - 1) Hp Hf0) as (last & Hla & _); [lia|]. destruct (jaddr_ok p i Hp Hf0) as (cur & Hcu & _); [lia|].
  assert (Hla' := Hla). assert (Hcu' := Hcu). unfold field in Hla', Hcu'. rewrite Hla'. cbn [mbind option_bind].
  replace ((i - 1) * jited_rec_size p + jited_rec_size p) with (i * jited_rec_size p) by lia. rewrite Hcu'. cbn [mbind option_bind].
  destruct (zget_is_Some ksyms f) as [func Hfunc]; [lia|]. rewrite Hfunc. cbn [mbind option_bind]. destruct (Z.eqb_spec func cur) as [->|Hne].
  - destruct (zset_is_Some idx f (Some i)) as [idx' Hidx]; [lia|]. rewrite Hidx, Hk. cbn [mbind option_bind].
    destruct (zget_is_Some lens (f - 1)) as [len Hl]; [lia|]. rewrite Hl. cbn [mbind option_bind]. rewrite Z.gtb_ltb.
    destruct (Z.ltb_spec len (u64 (last - ksym + 1))).
    { exists None, nr, idx'. split_and!; [done|done|by rewrite (zset_length _ _ _ _ Hidx)|]. exists nr, idx, f, prev_i, i, cur. split_and!; [done..|].
      right. exists last, cur. split_and!; [done..|]. left. split; [done|]. by exists ksym, len. }
    rewrite !wrap_small by lia. destruct (zset_is_Some nr (f - 1) (Some (i - prev_i))) as [nr' Hnr']; [lia|]. rewrite Hnr'. cbn [mbind option_bind].
    apply IH; [by eapply (found_next nr idx f prev_i i)|f_equal; lia|lia].
  - destruct (Z.leb_spec cur last).
    { exists None, nr, idx. split_and!; [done..|]. exists nr, idx, f, prev_i, i, func. split_and!; [done..|]. right. exists last, cur. split_and!; [done..|]. right. auto. }
    rewrite wrap_small by lia. apply IH; [|f_equal; lia|lia].
    split; [done..|]. exists ksym. split; [done|]. by apply (run_snoc p ksym prev_i i last cur).
Qed.

(** The arrays split the records: function [g] has those from [idx g] on, [nr g] of them. *)
Record dissected (nr idx : list (option Z)) : Prop := {
  di_first : stored idx 0 = Some 0;
  di_runs : forall g, 0 <= g < nr_jited_func p - 1 -> exists a b, func_run p ksyms lens nr idx g a b;
  di_last : exists a ksym, stored idx (nr_jited_func p - 1) = Some a /\ stored nr (nr_jited_func p - 1) = Some (nr_linfo p - a) /\
    0 <= a < nr_linfo p /\ zget ksyms (nr_jited_func p - 1) = Some ksym /\ jaddr p a = Some ksym
}.

Lemma dissect_spec : Z.of_nat (length (nr_jited_linfo_per_func p)) = nr_jited_func p -> Z.of_nat (length (jited_linfo_func_idx p)) = nr_jited_func p ->
  exists rc nr idx, (dissect_jited_func p ksyms lens = Some (rc, p) \/ dissect_jited_func p ksyms lens = Some (rc, set_arrays p nr idx)) /\
    (rc = 0 \/ rc = - EINVAL /\ (jaddr p 0 <> zget ksyms 0 \/ stuck)) /\
    (rc = 0 -> dissect_jited_func p ksyms lens = Some (0, set_arrays p nr idx) /\ dissected nr idx).
Proof.
  intros Hn Hi. unfold dissect_jited_func. pose proof (so_count p Hp) as [Hc1 Hc2].
  destruct (zget_is_Some ksyms 0) as [func0 Hfunc]; [lia|]. destruct (jaddr_ok p 0 Hp Hf0) as (j0 & Hj & _); [lia|].
  assert (Hj' := Hj). unfold field in Hj'. rewrite Z.mul_0_l in Hj'. rewrite Hfunc, Hj'. cbn [mbind option_bind].
  destruct (Z.eqb_spec func0 j0) as [->|]; cbn [negb];
    [|exists (- EINVAL), [], []; split_and!; [by left|right; split; [done|]; left; rewrite Hj; congruence|done]].
  destruct (zset_is_Some (jited_linfo_func_idx p) 0 (Some 0)) as [idx0 Hidx]; [lia|]. rewrite Hidx. cbn [mbind option_bind].
  destruct (dissect_loop_spec (Z.to_nat (nr_linfo p)) (nr_jited_linfo_per_func p) idx0 0 0 1 1) as (r & nr & idx & -> & Hln & Hli & Hr); [|lia..|].
  { split; [done|by rewrite (zset_length _ _ _ _ Hidx)|lia|by apply (stored_set_eq _ _ _ _ Hidx)|lia|by apply (stored_set_eq _ _ _ _ Hidx)|].
    exists j0. split; [done|]. split; [lia|lia|done|lia]. }
  cbn [mbind option_bind]. destruct r as [[f prev_i]|]; [|exists (- EINVAL), nr, idx; split_and!; [by right|right; split; [done|by right]|done]].
  destruct Hr as (i & Hfr & Hend). pose proof Hfr as [G1 G2 G3 G4 G5 G6 (ksym & Hk & Hrun)].
  destruct (Z.eqb_spec f (nr_jited_func p)) as [->|Hf]; cbn [negb].
  2: { exists (- EINVAL), nr, idx. split_and!; [by right|right; split; [done|right]|done]. destruct (zget_is_Some ksyms f) as [k' Hk']; [lia|].
       exists nr, idx, f, prev_i, i, k'. split_and!; [done|lia|done|]. left. by destruct Hend. } pose proof (run_lt _ _ _ _ Hrun). pose proof (run_max _ _ _ _ Hrun).
  rewrite wrap_small by lia. destruct (zset_is_Some nr (nr_jited_func p - 1) (Some (nr_linfo p - prev_i))) as [nr' Hnr]; [lia|]. rewrite Hnr. cbn [mbind option_bind].
  exists 0, nr', idx. split_and!; [by right|by left|]. intros _. split; [done|]. split; [done| |].
  - intros g Hg. destruct (G5 g Hg) as (a & b & [F1 F2 F3 F4 F5]). exists a, b. split; try done. by rewrite (stored_set_ne _ _ _ _ _ Hnr) by lia.
  - exists prev_i, ksym. split_and!; [done|by apply (stored_set_eq _ _ _ _ Hnr)|lia|lia|done|apply Hrun].
Qed.
End dissect.

(** ** Construction *)
Record info_ok (info : bpf_prog_info) : Prop := {
  io_lines : 0 <= nr_line_info info < 2 ^ 32 /\ 0 <= line_info_rec_size info < 2 ^ 32;
  io_bytes : bytes_ok (line_info info) /\ Z.of_nat (length (line_info info)) = nr_line_info info * line_info_rec_size info;
  io_jited : forall l, jited_line_info info = Some l ->
    bytes_ok l /\ Z.of_nat (length l) = nr_jited_line_info info * jited_line_info_rec_size info /\ 0 <= jited_line_info_rec_size info < 2 ^ 32;
  io_ksyms : 0 <= nr_jited_ksyms info < 2 ^ 32 /\ forall l, jited_ksyms info = Some l -> Z.of_nat (length l) = nr_jited_ksyms info;
  io_lens : forall l, jited_func_lens info = Some l -> Z.of_nat (length l) = nr_jited_func_lens info
}.

Lemma copy_all l n : Z.of_nat (length l) = n -> copy l n = Some l.
Proof. intros H. unfold copy. rewrite decide_True by lia. by rewrite take_ge by lia. Qed.

Lemma run_set p nr idx ksym a b : run p ksym a b -> run (set_arrays p nr idx) ksym a b.
Proof. intros [H1 H2 H3 H4]. by split. Qed.

Lemma dissected_set p ksyms lens nr idx nr' idx' : dissected p ksyms lens nr idx -> dissected (set_arrays p nr' idx') ksyms lens nr idx.
Proof.
  intros [H1 H2 H3]. split; [done| |exact H3]. intros g Hg. destruct (H2 g Hg) as (a & b & [F1 F2 F3 (ksym & Hk & Hr) F5]).
  exists a, b. split; try done. exists ksym. split; [done|]. by apply run_set.
Qed.

(** The information that is needed about the functions is there: counts that agree, records that
    hold an address, none of the three arrays missing. *)
Definition jited_info (info : bpf_prog_info) : option (list Z * list Z * list Z) :=
  jlines ← jited_line_info info; ksyms ← jited_ksyms info; lens ← jited_func_lens info;
  if bool_decide (nr_jited_ksyms info <> 0 /\ nr_jited_line_info info = nr_line_info info /\ 8 <= jited_line_info_rec_size info /\
    nr_jited_func_lens info = nr_jited_ksyms info) then Some (jlines, ksyms, lens) else None.

(** The object before its functions are dissected. *)
Definition undissected (info : bpf_prog_info) (jlines : list Z) : bpf_prog_linfo :=
  ProgLinfo (line_info info) jlines (replicate (Z.to_nat (nr_jited_ksyms info)) None) (replicate (Z.to_nat (nr_jited_ksyms info)) None)
    (nr_line_info info) (nr_jited_ksyms info) (line_info_rec_size info) (jited_line_info_rec_size info).

(** The object has the records it was given; the functions are dissected when there is
    information about them, and otherwise the object has none. *)
Definition linfo_ok (info : bpf_prog_info) (p : bpf_prog_linfo) : Prop :=
  sizes_ok p /\ raw_linfo p = line_info info /\ nr_linfo p = nr_line_info info /\ rec_size p = line_info_rec_size info /\
  match jited_info info with
  | Some (jlines, ksyms, lens) => raw_jited_linfo p = jlines /\ nr_jited_func p = nr_jited_ksyms info /\ 0 < nr_jited_func p /\
      jited_rec_size p = jited_line_info_rec_size info /\ dissected p ksyms lens (nr_jited_linfo_per_func p) (jited_linfo_func_idx p)
  | None => nr_jited_func p = 0
  end.

(** Why there is no object. *)
Definition no_linfo (al : oracle) (info : bpf_prog_info) (err : Z) : Prop :=
  err = ENOMEM /\ al [0] = false \/
  err = EINVAL /\ ((exists i, al [i] = false) \/ nr_line_info info = 0 \/ line_info_rec_size info < 4 \/
    exists jlines ksyms lens, jited_info info = Some (jlines, ksyms, lens) /\
      (jaddr (undissected info jlines) 0 <> zget ksyms 0 \/ stuck (undissected info jlines) ksyms lens)).

Lemma linfo_new_spec al info : info_ok info -> exists r, bpf_prog_linfo__new al info = Some r /\
  match r with inl err => no_linfo al info err | inr p => linfo_ok info p end.
Proof.
  intros [[Hn Hrs] [Hb Hlen] Hj [Hnk Hk] Hl]. unfold bpf_prog_linfo__new. cbv zeta.
  assert (forall e, no_linfo al info e -> exists r, Some (inl e) = Some r /\
    match r with inl err => no_linfo al info err | inr p => linfo_ok info p end) as Herr by (intros e He; by exists (inl e)).
  assert (forall i, al [i] = false -> no_linfo al info EINVAL) as Hal by (intros i Hi; right; split; [done|]; left; by exists i).
  destruct (Z.eqb_spec (nr_line_info info) 0); [apply Herr; right; auto|]. unfold SIZEOF_LINFO_MIN.
  destruct (Z.ltb_spec (line_info_rec_size info) 4); [apply Herr; right; auto|].
  destruct (al [0]) eqn:A0; cbn [negb]; [|apply Herr; by left]. destruct (al [1]) eqn:A1; cbn [negb]; [|by eapply Herr, Hal].
  rewrite (wrap_small 64 (nr_line_info info * line_info_rec_size info)) by nia. rewrite copy_all by done. cbn [mbind option_bind].
  assert (jited_info info = None -> exists r, Some (inr (ProgLinfo (line_info info) [] [] [] (nr_line_info info) 0 (line_info_rec_size info) 0)) = Some r /\
    match r with inl err => no_linfo al info err | inr p => linfo_ok info p end) as Hplain.
  { intros Hji. eexists. split; [done|]. unfold linfo_ok. rewrite Hji. cbn. split_and!; [|done..]. split; cbn; [split; [done|by constructor]|lia|lia|done|lia]. }
  unfold jited_info in Hplain, Herr, Hal |- *.
  destruct (jited_line_info info) as [jl|] eqn:Ejl; [|by apply Hplain]. destruct (jited_ksyms info) as [ks|] eqn:Eks; [|by apply Hplain].
  destruct (jited_func_lens info) as [ls|] eqn:Els; [|by apply Hplain]. destruct (Hj jl eq_refl) as (Hjb & Hjl & Hjr). pose proof (Hk ks eq_refl) as Hkl. pose proof (Hl ls eq_refl) as Hll.
  cbn [mbind option_bind] in Hplain.
  assert (~ (nr_jited_ksyms info <> 0 /\ nr_jited_line_info info = nr_line_info info /\ 8 <= jited_line_info_rec_size info /\
    nr_jited_func_lens info = nr_jited_ksyms info) -> exists r, Some (inr (ProgLinfo (line_info info) [] [] [] (nr_line_info info) 0 (line_info_rec_size info) 0)) = Some r /\
    match r with inl err => no_linfo al info err | inr p => linfo_ok info p end) as Hpl by (intros; apply Hplain; by rewrite bool_decide_false). clear Hplain.
  destruct (Z.eqb_spec (nr_jited_ksyms info) 0); cbn [orb]; [apply Hpl; tauto|].
  destruct (Z.eqb_spec (nr_jited_line_info info) (nr_line_info info)) as [Hnl|]; cbn [orb negb]; [|apply Hpl; tauto].
  destruct (Z.ltb_spec (jited_line_info_rec_size info) 8); cbn [orb]; [apply Hpl; lia|].
  destruct (Z.eqb_spec (nr_jited_func_lens info) (nr_jited_ksyms info)) as [Hnf|]; cbn [negb]; [|apply Hpl; tauto]. clear Hpl.
  destruct (al [2]) eqn:A2; cbn [negb]; [|by eapply Herr, Hal]. rewrite Hnl in Hjl. rewrite wrap_small by nia. rewrite copy_all by done. cbn [mbind option_bind].
  destruct (al [3]) eqn:A3; cbn [negb]; [|by eapply Herr, Hal]. destruct (al [4]) eqn:A4; cbn [negb]; [|by eapply Herr, Hal].
  assert (jited_info info = Some (jl, ks, ls)) as Hji by (unfold jited_info; rewrite Ejl, Eks, Els; cbn [mbind option_bind]; by rewrite bool_decide_true).
  change (ProgLinfo (line_info info) jl _ _ _ _ _ _) with (undissected info jl). set (p := undissected info jl).
  assert (sizes_ok p) as Hp by (split; cbn; [done|lia|lia|done|intros _; split; [lia|done]]).
  destruct (dissect_spec p ks ls Hp) as (rc & nr & idx & Hd & Hrc & Hok); [cbn; lia..|cbn; rewrite length_replicate; lia|cbn; rewrite length_replicate; lia|].
  destruct Hrc as [-> |[-> Hst]].
  - destruct (Hok eq_refl) as [-> Hdis]. cbn [mbind option_bind Z.eqb negb]. eexists. split; [done|]. cbv iota. unfold linfo_ok. rewrite Hji. split_and!; [|done..|cbn; lia|done|].
    + split; cbn; [done|lia|lia|done|intros _; split; [lia|done]].
    + by apply dissected_set.
  - destruct Hd as [-> | ->]; cbn; apply Herr; right; (split; [done|]); right; right; right; by exists jl, ks, ls.
Qed.

(** ** Searches *)

(** [k] is the last of the records before the first one above [key], from [lo] on. *)
Record last_below (fld : Z -> option Z) (key lo hi k : Z) : Prop := {
  lb_range : lo <= k < hi;
  lb_below : forall j, lo <= j <= k -> exists v, fld j = Some v /\ v <= key;
  lb_above : k + 1 < hi -> exists v, fld (k + 1) = Some v /\ key < v
}.

Lemma lfind_loop_spec w buf key stride nrec rec : bytes_ok buf -> Z.of_nat (length buf) = nrec * stride -> Z.of_nat w <= stride ->
  forall n k off, 0 <= k -> k + Z.of_nat n <= nrec -> exists m, 0 <= m <= Z.of_nat n /\
    lfind_loop n w buf key stride (k * stride) rec off = Some (off + m * rec) /\
    (forall j, k <= j < k + m -> exists v, field w buf stride j = Some v /\ v <= key) /\
    (m < Z.of_nat n -> exists v, field w buf stride (k + m) = Some v /\ key < v).
Proof.
  intros Hb Hl Hw n. induction n as [|n IH]; intros k off Hk Hn; cbn [lfind_loop].
  { exists 0. split_and!; [lia|lia|f_equal; lia|lia|lia]. }
  destruct (field_ok w buf stride nrec k Hb Hl Hw) as (v & Hv & _); [lia|]. assert (Hv' := Hv). unfold field in Hv'. rewrite Hv'. cbn [mbind option_bind].
  destruct (Z.ltb_spec key v).
  { exists 0. split_and!; [lia|lia|f_equal; lia|lia|]. intros _. exists v. rewrite Z.add_0_r. done. }
  replace (k * stride + stride) with ((k + 1) * stride) by lia. destruct (IH (k + 1) (off + rec)) as (m & Hm & -> & Hlow & Hhigh); [lia..|].
  exists (m + 1). split_and!; [lia|lia|f_equal; lia| |].
  - intros j Hj. destruct (decide (j = k)) as [->|]; [by exists v|]. apply Hlow. lia.
  - intros Hlt. replace (k + (m + 1)) with (k + 1 + m) by lia. apply Hhigh. lia.
Qed.

(** The search after its first test. *)
Lemma lfind_loop_last w buf key stride nrec rec lo n v : bytes_ok buf -> Z.of_nat (length buf) = nrec * stride -> Z.of_nat w <= stride ->
  0 <= lo -> (0 < n)%nat -> lo + Z.of_nat n <= nrec -> field w buf stride lo = Some v -> v <= key ->
  exists k, lfind_loop n w buf key stride (lo * stride) rec (lo * rec) = Some ((k + 1) * rec) /\ last_below (field w buf stride) key lo (lo + Z.of_nat n) k.
Proof.
  intros Hb Hl Hw Hlo Hpos Hn Hv Hle. destruct (lfind_loop_spec w buf key stride nrec rec Hb Hl Hw n lo (lo * rec) Hlo Hn) as (m & Hm & -> & Hlow & Hhigh).
  assert (m <> 0) as Hm0. { intros ->. destruct Hhigh as (v' & Hv' & ?); [lia|]. rewrite Z.add_0_r in Hv'. simplify_eq. lia. }
  exists (lo + m - 1). split; [f_equal; lia|]. split; [lia| |].
  - intros j Hj. apply Hlow. lia.
  - intros Hk. replace (lo + m - 1 + 1) with (lo + m) by lia. apply Hhigh. lia.
Qed.

(** In increasing records nothing after the result is at or below the key. *)
Lemma last_below_run p ksym key a lo b k : run p ksym a b -> a <= lo -> last_below (jaddr p) key lo b k ->
  forall j v, k < j < b -> jaddr p j = Some v -> (forall i, a <= i < b -> is_Some (jaddr p i)) -> key < v.
Proof.
  intros Hr Ha [Hk _ Hab] j v Hj Hv Hall. destruct Hab as (w & Hw & Hkw); [lia|].
  assert (forall n i u, i = k + 1 + Z.of_nat n -> i < b -> jaddr p i = Some u -> key < u) as Hind.
  { induction n as [|n IH]; intros i u Hi Hib Hu; [assert (i = k + 1) as -> by lia; simplify_eq; lia|].
    destruct (Hall (i - 1)) as [u' Hu']; [lia|]. assert (key < u') by (apply (IH (i - 1)); [lia|lia|done]).
    assert (u' < u); [|lia]. apply (run_incr _ _ _ _ Hr (i - 1)); [lia|lia|done|]. by replace (i - 1 + 1) with i by lia. }
  apply (Hind (Z.to_nat (j - k - 1)) j); [lia|lia|done].
Qed.

(** The run of each function. *)
Lemma func_records p ksyms lens nr idx f : dissected p ksyms lens nr idx -> 0 <= f < nr_jited_func p ->
  exists a n, stored idx f = Some a /\ stored nr f = Some n /\ 0 <= a /\ 0 < n /\ a + n <= nr_linfo p /\
    (f < nr_jited_func p - 1 -> exists ksym, run p ksym a (a + n)).
Proof.
  intros [_ Hr Hl] Hf. destruct (decide (f = nr_jited_func p - 1)) as [->|].
  - destruct Hl as (a & ksym & ? & ? & ? & _). exists a, (nr_linfo p - a). split_and!; [done..|lia|lia|lia|lia].
  - destruct (Hr f) as (a & b & [F1 F2 F3 (ksym & _ & Hrun) _]); [lia|]. pose proof (run_lt _ _ _ _ Hrun). pose proof (run_max _ _ _ _ Hrun).
    exists a, (b - a). split_and!; [done..|lia|lia|lia|]. intros _. exists ksym. by replace (a + (b - a)) with b by lia.
Qed.

(** C30. For every program information whose arrays have the sizes it states, and whatever
    allocations fail, the construction returns without an access outside a buffer.  When the
    information about the compiled functions is there (three arrays, counts that agree, records
    of at least 8 bytes), the object has all these functions and its records are split into one
    run for each of them (consecutive, starting at the address of the function; all but the last
    also increasing and inside the function's length); when it is missing or the counts do not
    agree, the object has the line records and no functions.  There is no object only for the
    reasons that [no_linfo] lists: a failed allocation, no records, records of less than 4
    bytes, or addresses that do not fit the functions. *)
Theorem linfo_new_partition al info : info_ok info -> exists r, bpf_prog_linfo__new al info = Some r /\
  match r with inl err => no_linfo al info err | inr p => linfo_ok info p end.
Proof. apply linfo_new_spec. Qed.

(** In an object made from the information of a program (with less than 4 GiB of records),
    a search for an address in a function stays inside the buffers; it fails exactly when there
    is no such function, when all its records are skipped or when the first one left is above the
    address, and otherwise gives the record before the first one above the address: in every
    function but the last, the last record at or below the address. *)
Theorem lfind_addr_func_pred al info p addr f skip : info_ok info -> bpf_prog_linfo__new al info = Some (inr p) ->
  nr_linfo p * jited_rec_size p < 2 ^ 32 -> nr_linfo p * rec_size p < 2 ^ 32 -> 0 <= f -> 0 <= skip < 2 ^ 32 ->
  exists r, bpf_prog_linfo__lfind_addr_func p addr f skip = Some r /\
    (nr_jited_func p <= f /\ r = None \/
     f < nr_jited_func p /\ exists a n, stored (jited_linfo_func_idx p) f = Some a /\ stored (nr_jited_linfo_per_func p) f = Some n /\
       match r with
       | None => n <= skip \/ exists v, jaddr p (a + skip) = Some v /\ addr < v
       | Some off => exists k, off = k * rec_size p /\ last_below (jaddr p) addr (a + skip) (a + n) k /\
           (f < nr_jited_func p - 1 -> forall j v, k < j < a + n -> jaddr p j = Some v -> addr < v)
       end).
Proof.
  intros Hinfo Hnew Hjs Hrs Hf Hskip. destruct (linfo_new_spec al info Hinfo) as (r & Hr & Hok). rewrite Hnew in Hr. injection Hr as <-.
  destruct Hok as (Hp & _ & _ & _ & Hd). unfold bpf_prog_linfo__lfind_addr_func. rewrite Z.geb_leb.
  destruct (Z.leb_spec (nr_jited_func p) f) as [Hge|Hlt]; [exists None; split; [done|]; by left|].
  destruct (jited_info info) as [[[jl ksyms] lens]|]; [|lia]. destruct Hd as (_ & _ & _ & _ & Hdis). destruct (func_records p ksyms lens _ _ f Hdis) as (a & n & Ha & Hn & Ha0 & Hn0 & Hmax & Hrun); [lia|].
  destruct (so_jrec p Hp) as [Hjr Hjl]; [lia|]. pose proof (so_count p Hp) as [Hc1 Hc2]. pose proof (so_rec p Hp).
  rewrite Hn. cbn [mbind option_bind]. rewrite Z.geb_leb. destruct (Z.leb_spec n skip) as [|Hs]; [exists None; split; [done|]; right; split; [lia|]; exists a, n; split_and!; [done..|by left]|].
  rewrite Ha. cbn [mbind option_bind]. rewrite (wrap_small 32 (a + skip)) by lia. rewrite (wrap_small 32 ((a + skip) * jited_rec_size p)) by nia.
  destruct (jaddr_ok p (a + skip) Hp) as (v & Hv & _); [lia..|]. assert (Hv' := Hv). unfold field in Hv'. rewrite Hv'. cbn [mbind option_bind].
  destruct (Z.ltb_spec addr v); [exists None; split; [done|]; right; split; [lia|]; exists a, n; split_and!; [done..|]; right; by exists v|].
  rewrite (wrap_small 32 ((a + skip) * rec_size p)) by nia. rewrite (wrap_small 32 (n - skip)) by lia.
  destruct (lfind_loop_last 8 (raw_jited_linfo p) addr (jited_rec_size p) (nr_linfo p) (rec_size p) (a + skip) (Z.to_nat (n - skip)) v) as (k & -> & Hk);
    [apply Hp|done|lia|lia|lia|lia|done|done|]. cbn [mbind option_bind]. replace (a + skip + Z.of_nat (Z.to_nat (n - skip))) with (a + n) in Hk by lia.
  exists (Some (k * rec_size p)). split; [f_equal; f_equal; lia|]. right. split; [lia|]. exists a, n. split_and!; [done..|]. exists k. split_and!; [done..|].
  intros Hl j w Hj Hw. destruct (Hrun Hl) as [ksym Hrun']. eapply (last_below_run p ksym addr a (a + skip) (a + n) k); [done|lia|done|done|done|].
  intros i Hi. destruct (jaddr_ok p i Hp) as (u & Hu & _); [lia..|]. by exists u.
Qed.

(** The search for an instruction: over all the records, the record before the first one
    above the instruction. *)
Theorem lfind_pred al info p insn skip : info_ok info -> bpf_prog_linfo__new al info = Some (inr p) -> nr_linfo p * rec_size p < 2 ^ 32 -> 0 <= skip < 2 ^ 32 ->
  exists r, bpf_prog_linfo__lfind p insn skip = Some r /\
    match r with
    | None => nr_linfo p <= skip \/ exists v, insn_of p skip = Some v /\ insn < v
    | Some off => exists k, off = k * rec_size p /\ last_below (insn_of p) insn skip (nr_linfo p) k
    end.
Proof.
  intros Hinfo Hnew Hrs Hskip. destruct (linfo_new_spec al info Hinfo) as (r & Hr & Hok). rewrite Hnew in Hr. injection Hr as <-.
  destruct Hok as (Hp & _). unfold bpf_prog_linfo__lfind. rewrite Z.geb_leb. pose proof (so_count p Hp) as [Hc1 Hc2]. pose proof (so_rec p Hp).
  destruct (Z.leb_spec (nr_linfo p) skip); [exists None; split; [done|]; by left|]. rewrite (wrap_small 32 (skip * rec_size p)) by nia.
  destruct (insn_ok p skip Hp) as (v & Hv & _); [lia|]. assert (Hv' := Hv). unfold field in Hv'. rewrite Hv'. cbn [mbind option_bind].
  destruct (Z.ltb_spec insn v); [exists None; split; [done|]; right; by exists v|]. rewrite (wrap_small 32 (nr_linfo p - skip)) by lia.
  destruct (lfind_loop_last 4 (raw_linfo p) insn (rec_size p) (nr_linfo p) (rec_size p) skip (Z.to_nat (nr_linfo p - skip)) v) as (k & -> & Hk);
    [apply Hp|apply Hp|lia|lia|lia|lia|done|done|]. cbn [mbind option_bind]. replace (skip + Z.of_nat (Z.to_nat (nr_linfo p - skip))) with (nr_linfo p) in Hk by lia.
  exists (Some (k * rec_size p)). split; [f_equal; f_equal; lia|]. by exists k.
Qed.

(** ** Witnesses *)
Definition sample_info (addrs : list Z) (ksyms : list Z) : bpf_prog_info :=
  ProgInfo 4 8 (concat (map (fun z => le_bytes 4 z ++ le_bytes 4 1) [0; 2; 5; 7])) (Z.of_nat (length ksyms)) (Some (concat (map (le_bytes 8) addrs))) 4 8
    (Z.of_nat (length ksyms)) (Some ksyms) (Some (replicate (length ksyms) 16)).
Definition two_funcs := sample_info [100; 104; 200; 208] [100; 200].

(** A closed list of bytes. *)
Ltac byte_list := unfold bytes_ok; vm_compute; repeat constructor; discriminate.

Lemma two_funcs_ok : info_ok two_funcs.
Proof.
  split; cbn [nr_line_info line_info_rec_size line_info nr_jited_ksyms jited_line_info nr_jited_line_info jited_line_info_rec_size nr_jited_func_lens jited_ksyms jited_func_lens two_funcs sample_info length]; [lia| | | |]; [split; [byte_list|done]| | |].
  - intros l [= <-]. split_and!; [byte_list|done|lia|lia].
  - split; [lia|]. by intros l [= <-].
  - by intros l [= <-].
Qed.

Definition two_funcs_linfo : bpf_prog_linfo :=
  ProgLinfo (line_info two_funcs) (default [] (jited_line_info two_funcs)) [Some 2; Some 2] [Some 0; Some 2] 4 2 8 8.

Lemma two_funcs_new : bpf_prog_linfo__new (fun _ => true) two_funcs = Some (inr two_funcs_linfo).
Proof. vm_compute. reflexivity. Qed.

Lemma linfo_new_partition_witness : jited_info two_funcs <> None /\
  exists p, bpf_prog_linfo__new (fun _ => true) two_funcs = Some (inr p) /\ linfo_ok two_funcs p /\
    jited_linfo_func_idx p = [Some 0; Some 2] /\ nr_jited_linfo_per_func p = [Some 2; Some 2].
Proof.
  split; [vm_compute; discriminate|]. exists two_funcs_linfo. split; [exact two_funcs_new|].
  destruct (linfo_new_partition (fun _ => true) two_funcs two_funcs_ok) as (r & Hr & H). rewrite two_funcs_new in Hr. injection Hr as <-.
  split; [exact H|]. split; reflexivity.
Defined.

Lemma lfind_addr_func_pred_witness : bpf_prog_linfo__lfind_addr_func two_funcs_linfo 207 1 0 = Some (Some 16) /\
  exists r, bpf_prog_linfo__lfind_addr_func two_funcs_linfo 107 0 1 = Some r /\
    (nr_jited_func two_funcs_linfo <= 0 /\ r = None \/
     0 < nr_jited_func two_funcs_linfo /\ exists a n, stored (jited_linfo_func_idx two_funcs_linfo) 0 = Some a /\ stored (nr_jited_linfo_per_func two_funcs_linfo) 0 = Some n /\
       match r with
       | None => n <= 1 \/ exists v, jaddr two_funcs_linfo (a + 1) = Some v /\ 107 < v
       | Some off => exists k, off = k * rec_size two_funcs_linfo /\ last_below (jaddr two_funcs_linfo) 107 (a + 1) (a + n) k /\
           (0 < nr_jited_func two_funcs_linfo - 1 -> forall j v, k < j < a + n -> jaddr two_funcs_linfo j = Some v -> 107 < v)
       end).
Proof.
  split; [vm_compute; reflexivity|].
  apply (lfind_addr_func_pred (fun _ => true) two_funcs two_funcs_linfo 107 0 1 two_funcs_ok two_funcs_new); vm_compute; repeat split; discriminate.
Defined.

Lemma lfind_pred_witness : bpf_prog_linfo__lfind two_funcs_linfo 6 1 = Some (Some 16) /\
  exists r, bpf_prog_linfo__lfind two_funcs_linfo 6 1 = Some r /\
    match r with
    | None => nr_linfo two_funcs_linfo <= 1 \/ exists v, insn_of two_funcs_linfo 1 = Some v /\ 6 < v
    | Some off => exists k, off = k * rec_size two_funcs_linfo /\ last_below (insn_of two_funcs_linfo) 6 1 (nr_linfo two_funcs_linfo) k
    end.
Proof.
  split; [vm_compute; reflexivity|]. apply (lfind_pred (fun _ => true) two_funcs two_funcs_linfo 6 1 two_funcs_ok two_funcs_new); vm_compute; repeat split; discriminate.
Defined.

(** The order of the addresses is not checked in the last function, although the code means to
    check it in each: a program of one function with its records out of order is accepted, and the
    search for 103 stops before the record at 102. *)
Definition one_func := sample_info [100; 104; 102; 108] [100].
Theorem last_function_unordered : exists p, bpf_prog_linfo__new (fun _ => true) one_func = Some (inr p) /\
  jaddr p 2 = Some 102 /\ bpf_prog_linfo__lfind_addr_func p 103 0 0 = Some (Some (0 * 8)).
Proof.
  exists (ProgLinfo (line_info one_func) (default [] (jited_line_info one_func)) [Some 4] [Some 0] 4 1 8 8). split_and!; vm_compute; reflexivity.
Qed.
