(* ===== verification/Nlattr.v ===== *)
(** * Netlink attributes: src/libbpf/src/nlattr.c and nlattr.h

    A message lies in a buffer of bytes; a pointer to a message or an attribute is an offset
    in it.  The file models the iteration over a stream of attributes, the validation against
    a policy, the index [libbpf_nla_parse] builds, the extended error message of an
    acknowledgement and the construction of requests.  The reference is the relation [stream],
    which says which attributes lie in a range of bytes; the theorems show that parsing
    computes the index of that stream for any bytes, and that what the construction functions
    write is the stream of what was added. *)
From Stdlib Require Import ZArith Lia.
From stdpp Require Import base numbers list.
From S2P Require Import Prelude.

(** ** Memory *)

(** A load of [n] bytes, little-endian. *)
Definition load (mem : list Z) (p : Z) (n : nat) : option Z :=
  if decide (0 <= p /\ p + Z.of_nat n <= Z.of_nat (length mem))
  then Some (le_value (take n (drop (Z.to_nat p) mem))) else None.

Definition store (mem : list Z) (p : Z) (bs : list Z) : option (list Z) :=
  if decide (0 <= p /\ p + Z.of_nat (length bs) <= Z.of_nat (length mem))
  then Some (take (Z.to_nat p) mem ++ bs ++ drop (Z.to_nat p + length bs) mem) else None.

(** ** Layout of attributes and messages *)
Definition NLA_F_NESTED : Z := 1 <<' 15.
Definition NLA_F_NET_BYTEORDER : Z := 1 <<' 14.
Definition NLA_TYPE_MASK : Z := Z.lnot (NLA_F_NESTED |' NLA_F_NET_BYTEORDER).
Definition NLA_ALIGN (len : Z) : Z := (len + 4 - 1) &' Z.lnot (4 - 1).
Definition NLA_HDRLEN : Z := 4.

Definition NLMSG_ALIGN (len : Z) : Z := u32 (len + 4 - 1) &' u32 (Z.lnot (4 - 1)).
Definition NLMSG_HDRLEN : Z := 16.
Definition NLMSG_LENGTH (len : Z) : Z := len + NLMSG_HDRLEN.

Definition nla_len (mem : list Z) (nla : Z) : option Z := load mem nla 2.

Definition nla_next (mem : list Z) (nla remaining : Z) : option (Z * Z) :=
  len ← nla_len mem nla;
  let totlen := NLA_ALIGN len in
  Some (nla + totlen, remaining - totlen).

Definition nla_ok (mem : list Z) (nla remaining : Z) : option bool :=
  if remaining >=? 4 then
    len ← nla_len mem nla;
    Some ((len >=? 4) && (len <=? remaining))
  else Some false.

Definition nla_type (mem : list Z) (nla : Z) : option Z :=
  t ← load mem (nla + 2) 2; Some (t &' NLA_TYPE_MASK).

Definition libbpf_nla_data (nla : Z) : Z := nla + NLA_HDRLEN.
Definition libbpf_nla_len (mem : list Z) (nla : Z) : option Z := len ← nla_len mem nla; Some (len - NLA_HDRLEN).

Definition libbpf_nla_getattr_u8 (mem : list Z) (nla : Z) : option Z := load mem (libbpf_nla_data nla) 1.
Definition libbpf_nla_getattr_u16 (mem : list Z) (nla : Z) : option Z := load mem (libbpf_nla_data nla) 2.
Definition libbpf_nla_getattr_u32 (mem : list Z) (nla : Z) : option Z := load mem (libbpf_nla_data nla) 4.
Definition libbpf_nla_getattr_u64 (mem : list Z) (nla : Z) : option Z := load mem (libbpf_nla_data nla) 8.

(** ** Validation *)
Definition LIBBPF_NLA_UNSPEC : Z := 0.
Definition LIBBPF_NLA_U8 : Z := 1.
Definition LIBBPF_NLA_U16 : Z := 2.
Definition LIBBPF_NLA_U32 : Z := 3.
Definition LIBBPF_NLA_U64 : Z := 4.
Definition LIBBPF_NLA_STRING : Z := 5.
Definition LIBBPF_NLA_FLAG : Z := 6.
Definition LIBBPF_NLA_TYPE_MAX : Z := 8.

(** Indexed by the types above; MSECS and NESTED have no initialiser. *)
Definition nla_attr_minlen : list Z := [0; 1; 2; 4; 8; 1; 0; 0; 0].

Record libbpf_nla_policy := Policy { pt_type : Z; pt_minlen : Z; pt_maxlen : Z }.

Definition validate_nla (mem : list Z) (nla maxtype : Z) (policy : list libbpf_nla_policy) : option Z :=
  type ← nla_type mem nla;
  if (type <? 0) || (type >? maxtype) then Some 0
  else
    pt ← zget policy type;
    if pt_type pt >? LIBBPF_NLA_TYPE_MAX then Some 0
    else
      minlen ← (if negb (pt_minlen pt =? 0) then Some (pt_minlen pt)
                else if negb (pt_type pt =? LIBBPF_NLA_UNSPEC) then zget nla_attr_minlen (pt_type pt)
                else Some 0);
      len ← libbpf_nla_len mem nla;
      if u32 len <? minlen then Some (- EINVAL)
      else if negb (pt_maxlen pt =? 0) && (len >? pt_maxlen pt) then Some (- EINVAL)
      else if pt_type pt =? LIBBPF_NLA_STRING then
        c ← load mem (libbpf_nla_data nla + (len - 1)) 1;
        Some (if negb (c =? 0) then - EINVAL else 0)
      else Some 0.

(** ** Parsing

    An index entry is [None] for NULL.  Every attribute takes at least four bytes, so
    [len / 4 + 1] rounds are enough. *)
Fixpoint nla_loop (fuel : nat) (mem : list Z) (nla rem maxtype : Z) (policy : option (list libbpf_nla_policy))
    (tb : list (option Z)) : option (Z * list (option Z)) :=
  match fuel with
  | O => None
  | S fuel =>
    ok ← nla_ok mem nla rem;
    if negb ok then Some (0, tb)
    else
      type ← nla_type mem nla;
      '(next, rem') ← nla_next mem nla rem;
      if type >? maxtype then nla_loop fuel mem next rem' maxtype policy tb
      else
        err ← match policy with Some policy => validate_nla mem nla maxtype policy | None => Some 0 end;
        if err <? 0 then Some (err, tb)
        else
          tb ← zset tb type (Some nla);
          nla_loop fuel mem next rem' maxtype policy tb
  end.

(** [memset(tb, 0, sizeof( *tb) * n)]. *)
Definition clear_tb (tb : list (option Z)) (n : Z) : option (list (option Z)) :=
  if decide (0 <= n <= Z.of_nat (length tb)) then Some (replicate (Z.to_nat n) None ++ drop (Z.to_nat n) tb) else None.

Definition libbpf_nla_parse (mem : list Z) (tb : list (option Z)) (maxtype head len : Z)
    (policy : option (list libbpf_nla_policy)) : option (Z * list (option Z)) :=
  tb ← clear_tb tb (maxtype + 1);
  nla_loop (S (Z.to_nat (len / 4))) mem head len maxtype policy tb.

Definition libbpf_nla_parse_nested (mem : list Z) (tb : list (option Z)) (maxtype nla : Z)
    (policy : option (list libbpf_nla_policy)) : option (Z * list (option Z)) :=
  len ← libbpf_nla_len mem nla;
  libbpf_nla_parse mem tb maxtype (libbpf_nla_data nla) len policy.

(** ** Messages *)
Definition nh_len (mem : list Z) (nh : Z) : option Z := load mem nh 4.
Definition nh_type (mem : list Z) (nh : Z) : option Z := load mem (nh + 4) 2.
Definition nh_flags (mem : list Z) (nh : Z) : option Z := load mem (nh + 6) 2.
Definition nh_seq (mem : list Z) (nh : Z) : option Z := load mem (nh + 8) 4.
Definition nh_pid (mem : list Z) (nh : Z) : option Z := load mem (nh + 12) 4.
Definition NLMSG_DATA (nh : Z) : Z := nh + NLMSG_HDRLEN.

Definition nlmsg_len (mem : list Z) (nh : Z) : option Z := l ← nh_len mem nh; Some (s32 (l - NLMSG_HDRLEN)).

(** What [libbpf_nla_dump_errormsg] finds: nothing to do, attributes it cannot parse, or the
    message it passes to [pr_warn] (an offset, or NULL). *)
Inductive errormsg := NoTlvs | BadTlvs | Message (msg : option Z).

Definition NLM_F_CAPPED : Z := 0x100.
Definition NLM_F_ACK_TLVS : Z := 0x200.
Definition NLMSGERR_ATTR_MSG : Z := 1.
Definition NLMSGERR_ATTR_MAX : Z := 6.
Definition sizeof_nlmsgerr : Z := 20.

Definition extack_policy : list libbpf_nla_policy :=
  [Policy 0 0 0; Policy LIBBPF_NLA_STRING 0 0; Policy LIBBPF_NLA_U32 0 0;
   Policy 0 0 0; Policy 0 0 0; Policy 0 0 0; Policy 0 0 0].

(** The C function returns 0 in every case; the result here also says what it reports. *)
Definition libbpf_nla_dump_errormsg (mem : list Z) (nlh : Z) : option (Z * errormsg) :=
  flags ← nh_flags mem nlh;
  if flags &' NLM_F_ACK_TLVS =? 0 then Some (0, NoTlvs)
  else
    let err := NLMSG_DATA nlh in
    hlen ← (if flags &' NLM_F_CAPPED =? 0 then l ← nlmsg_len mem (err + 4); Some (s32 (sizeof_nlmsgerr + l))
            else Some sizeof_nlmsgerr);
    let attr := err + hlen in
    len ← nh_len mem nlh;
    let alen := s32 (nlh + len - attr) in
    '(ret, tb) ← libbpf_nla_parse mem (replicate 7 None) NLMSGERR_ATTR_MAX attr alen (Some extack_policy);
    if negb (ret =? 0) then Some (0, BadTlvs)
    else
      m ← zget tb NLMSGERR_ATTR_MSG;
      Some (0, Message (match m with Some nla => Some (libbpf_nla_data nla) | None => None end)).

(** ** Construction of requests

    A request is the array of the 164 bytes of [struct libbpf_nla_req]: the message header, a
    union of protocol headers of at most 20 bytes and 128 bytes for attributes.  The [data] of
    an attribute is the object it points to, [None] for NULL. *)
Definition sizeof_req : Z := 164.

Definition req_tail (req : list Z) : option Z := l ← nh_len req 0; Some (NLMSG_ALIGN l).

Definition nlattr_add (req : list Z) (type : Z) (data : option (list Z)) (len : Z) : option (Z * list Z) :=
  l ← nh_len req 0;
  if u32 (NLMSG_ALIGN l + NLA_ALIGN (s32 (NLA_HDRLEN + len))) >? sizeof_req then Some (- EMSGSIZE, req)
  else if negb (Bool.eqb (match data with Some _ => true | None => false end) (negb (len =? 0)))
  then Some (- EINVAL, req)
  else
    nla ← req_tail req;
    req ← store req (nla + 2) (le_bytes 2 type);
    req ← store req nla (le_bytes 2 (NLA_HDRLEN + len));
    req ← match data with
          | Some data =>
            if decide (0 <= len <= Z.of_nat (length data))
            then store req (nla + NLA_HDRLEN) (take (Z.to_nat len) data) else None
          | None => Some req
          end;
    l ← nh_len req 0;
    alen ← nla_len req nla;
    req ← store req 0 (le_bytes 4 (NLMSG_ALIGN l + NLA_ALIGN alen));
    Some (0, req).

Definition nlattr_begin_nested (req : list Z) (type : Z) : option (option Z * list Z) :=
  tail ← req_tail req;
  '(err, req) ← nlattr_add req (type |' NLA_F_NESTED) None 0;
  Some (if negb (err =? 0) then None else Some tail, req).

Definition nlattr_end_nested (req : list Z) (tail : Z) : option (list Z) :=
  t ← req_tail req;
  store req tail (le_bytes 2 (t - tail)).

(** ** What lies in memory *)

(** The bytes [bs] lie at [p]. *)
Definition mem_at (mem : list Z) (p : Z) (bs : list Z) : Prop :=
  0 <= p /\ take (length bs) (drop (Z.to_nat p) mem) = bs.

Record attr := Attr { at_type : Z; at_data : list Z }.

Definition attr_len (a : attr) : Z := 4 + Z.of_nat (length (at_data a)).
Definition attr_bytes (a : attr) : list Z := le_bytes 2 (attr_len a) ++ le_bytes 2 (at_type a) ++ at_data a.
Definition align4 (n : Z) : Z := 4 * ((n + 3) / 4).

(** [stream mem p rem l]: the [rem] bytes at [p] are the attributes [l], given with their
    positions, up to padding and a tail that is no attribute. *)
Inductive stream (mem : list Z) : Z -> Z -> list (Z * attr) -> Prop :=
| stream_end p rem : rem < 4 -> stream mem p rem []
| stream_bad p rem len : 4 <= rem -> 0 <= len < 2 ^ 16 -> mem_at mem p (le_bytes 2 len) -> len < 4 \/ rem < len ->
    stream mem p rem []
| stream_attr p rem a l : 0 <= at_type a < 2 ^ 16 -> attr_len a < 2 ^ 16 -> attr_len a <= rem ->
    mem_at mem p (attr_bytes a) -> stream mem (p + align4 (attr_len a)) (rem - align4 (attr_len a)) l ->
    stream mem p rem ((p, a) :: l).

(** The type of an attribute without its flags. *)
Definition base_type (a : attr) : Z := at_type a mod 2 ^ 14.

(** What a policy entry demands of the payload. *)
Definition payload_ok (pt : libbpf_nla_policy) (d : list Z) : bool :=
  let n := Z.of_nat (length d) in
  (pt_type pt >? LIBBPF_NLA_TYPE_MAX) ||
  ((if pt_minlen pt =? 0 then default 0 (zget nla_attr_minlen (pt_type pt)) else pt_minlen pt) <=? n) &&
  ((pt_maxlen pt =? 0) || (n <=? pt_maxlen pt)) &&
  (negb (pt_type pt =? LIBBPF_NLA_STRING) || bool_decide (last d = Some 0)).

Definition attr_ok (maxtype : Z) (policy : option (list libbpf_nla_policy)) (a : attr) : bool :=
  match policy with
  | None => true
  | Some policy =>
    (base_type a >? maxtype) || match zget policy (base_type a) with Some pt => payload_ok pt (at_data a) | None => true end
  end.

(** The attributes before the first one the policy rejects. *)
Fixpoint accepted (maxtype : Z) (policy : option (list libbpf_nla_policy)) (l : list (Z * attr)) : list (Z * attr) :=
  match l with
  | [] => []
  | pa :: l => if attr_ok maxtype policy pa.2 then pa :: accepted maxtype policy l else []
  end.

(** The entry of type [t]: the last attribute of that type. *)
Definition entry (l : list (Z * attr)) (t : Z) : option Z := fst <$> last (filter (fun pa => base_type pa.2 = t) l).

(** ** Alignment *)
Lemma land_lnot3 x : x &' Z.lnot 3 = 4 * (x / 4).
Proof.
  rewrite <- Z.ldiff_land. change 3 with (Z.ones 2). rewrite Z.ldiff_ones_r by lia.
  rewrite Z.shiftl_mul_pow2, Z.shiftr_div_pow2 by lia. change (2 ^ 2) with 4. lia.
Qed.

Lemma NLA_ALIGN_eq n : NLA_ALIGN n = align4 n.
Proof. unfold NLA_ALIGN, align4. change (4 - 1) with 3. rewrite land_lnot3. f_equal. f_equal. lia. Qed.

Lemma NLMSG_ALIGN_eq n : 0 <= n < 2 ^ 32 - 3 -> NLMSG_ALIGN n = align4 n.
Proof.
  intros Hn. unfold NLMSG_ALIGN, align4. rewrite wrap_small by lia.
  change (u32 (Z.lnot (4 - 1))) with (Z.ones 32 &' Z.lnot 3).
  rewrite Z.land_assoc, Z.land_ones by lia. rewrite (Z.mod_small (n + 4 - 1)) by lia. rewrite land_lnot3.
  f_equal. f_equal. lia.
Qed.

Lemma align4_bounds n : n <= align4 n < n + 4 /\ align4 n mod 4 = 0.
Proof. unfold align4. rewrite (Z.mul_comm 4), Z_mod_mult. Z.div_mod_to_equations. lia. Qed.

Lemma align4_mult n : n mod 4 = 0 -> align4 n = n.
Proof. unfold align4. intros. Z.div_mod_to_equations. lia. Qed.

Lemma align4_add m n : m mod 4 = 0 -> align4 (m + n) = m + align4 n.
Proof.
  intros H. apply Z.mod_divide in H as [k ->]; [|lia]. unfold align4.
  replace (k * 4 + n + 3) with (n + 3 + k * 4) by lia. rewrite Z.div_add by lia. lia.
Qed.

(** ** Bytes in memory *)
Definition mem_bytes (mem : list Z) : Prop := Forall (fun b => 0 <= b < 256) mem.

Lemma mem_at_bound mem p bs : mem_at mem p bs -> bs <> [] -> 0 <= p /\ p + Z.of_nat (length bs) <= Z.of_nat (length mem).
Proof.
  intros [Hp Ht] Hne. split; [done|]. apply (f_equal length) in Ht. rewrite length_take, length_drop in Ht.
  destruct bs; [done|]. cbn [length] in *. lia.
Qed.

Lemma mem_at_nil mem p : 0 <= p -> mem_at mem p [].
Proof. done. Qed.

Lemma mem_at_app mem p a b : mem_at mem p (a ++ b) <-> mem_at mem p a /\ mem_at mem (p + Z.of_nat (length a)) b.
Proof.
  unfold mem_at. rewrite length_app, <- take_take_drop, drop_drop.
  split.
  - intros [Hp H]. assert (length (take (length a) (drop (Z.to_nat p) mem)) = length a) as Hl.
    { apply (f_equal length) in H. rewrite !length_app, !length_take, !length_drop in H. rewrite length_take, length_drop. lia. }
    apply app_inj_1 in H as [H1 H2]; [|done]. split; [done|]. split; [lia|].
    replace (Z.to_nat (p + Z.of_nat (length a))) with (Z.to_nat p + length a)%nat by lia. done.
  - intros [[Hp H1] [_ H2]]. split; [done|]. rewrite H1. f_equal.
    etrans; [|exact H2]. do 2 f_equal. lia.
Qed.

Lemma mem_at_all mem : mem_at mem 0 mem.
Proof. split; [lia|]. apply firstn_all. Qed.

Lemma mem_at_any mem p n : 0 <= p -> p + Z.of_nat n <= Z.of_nat (length mem) ->
  exists bs, length bs = n /\ mem_at mem p bs /\ (mem_bytes mem -> mem_bytes bs).
Proof.
  intros Hp Hn. exists (take n (drop (Z.to_nat p) mem)).
  assert (length (take n (drop (Z.to_nat p) mem)) = n) as Hl by (rewrite length_take, length_drop; lia).
  split; [done|]. split; [|intros; by apply Forall_take, Forall_drop]. split; [done|]. by rewrite Hl.
Qed.

Lemma mem_at_any_le mem p n : mem_bytes mem -> 0 <= p -> p + Z.of_nat n <= Z.of_nat (length mem) ->
  exists v, 0 <= v < 256 ^ Z.of_nat n /\ mem_at mem p (le_bytes n v).
Proof.
  intros Hm Hp Hn. destruct (mem_at_any mem p n Hp Hn) as (bs & Hl & Hat & Hb). specialize (Hb Hm).
  exists (le_value bs). rewrite <- Hl. split; [by apply le_value_range|]. by rewrite le_bytes_value.
Qed.

Lemma load_at mem p n v : mem_at mem p (le_bytes n v) -> (0 < n)%nat -> load mem p n = Some (v mod 256 ^ Z.of_nat n).
Proof.
  intros Hat Hn. destruct (mem_at_bound mem p (le_bytes n v) Hat) as [Hp Hb];
    [destruct n; [lia|done]|]. rewrite le_bytes_length in Hb. unfold load. rewrite decide_True by lia.
  destruct Hat as [_ Ht]. rewrite le_bytes_length in Ht. by rewrite Ht, le_value_bytes.
Qed.

Lemma load_at_small mem p n v : mem_at mem p (le_bytes n v) -> (0 < n)%nat -> 0 <= v < 256 ^ Z.of_nat n ->
  load mem p n = Some v.
Proof. intros. by rewrite (load_at mem p n v), Z.mod_small. Qed.

Lemma store_spec mem p bs : 0 <= p -> p + Z.of_nat (length bs) <= Z.of_nat (length mem) ->
  exists mem', store mem p bs = Some mem' /\ length mem' = length mem /\ mem_at mem' p bs /\
    (mem_bytes mem -> mem_bytes bs -> mem_bytes mem') /\
    forall q cs, mem_at mem q cs -> q + Z.of_nat (length cs) <= p \/ p + Z.of_nat (length bs) <= q -> mem_at mem' q cs.
Proof.
  intros Hp Hb. unfold store. rewrite decide_True by lia. eexists. split; [done|].
  assert (length (take (Z.to_nat p) mem) = Z.to_nat p) as Ht by (rewrite length_take; lia).
  split; [rewrite !length_app, length_drop; lia|]. split.
  { split; [done|]. rewrite drop_app_length' by done. by rewrite take_app_length. }
  split.
  { intros Hm Hbs. apply Forall_app; split; [by apply Forall_take|]. apply Forall_app; split; [done|by apply Forall_drop]. }
  intros q cs [Hq Hcs] [Hd|Hd]; (split; [done|]).
  - etrans; [|exact Hcs]. rewrite drop_app_le by lia. rewrite take_app_le by (rewrite length_drop; lia).
    rewrite skipn_firstn_comm, take_take. f_equal. lia.
  - etrans; [|exact Hcs]. rewrite app_assoc, drop_app_ge by (rewrite length_app; lia).
    rewrite drop_drop, length_app, Ht. do 2 f_equal. lia.
Qed.

(** ** Streams of attributes *)
Lemma attr_len_pos a : 4 <= attr_len a.
Proof. unfold attr_len. lia. Qed.

Lemma attr_bytes_length a : Z.of_nat (length (attr_bytes a)) = attr_len a.
Proof. unfold attr_bytes, attr_len. rewrite !length_app, !le_bytes_length. lia. Qed.

(** The header and the payload of an attribute in memory. *)
Lemma attr_at_parts mem p a : mem_at mem p (attr_bytes a) <->
  mem_at mem p (le_bytes 2 (attr_len a)) /\ mem_at mem (p + 2) (le_bytes 2 (at_type a)) /\ mem_at mem (p + 4) (at_data a).
Proof.
  unfold attr_bytes. rewrite !mem_at_app, !le_bytes_length.
  change (Z.of_nat 2) with 2. replace (p + 2 + 2) with (p + 4) by lia. done.
Qed.

(** Every range of bytes is a stream, of which there is only one. *)
Lemma stream_total mem p rem : mem_bytes mem -> 0 <= p -> p + rem <= Z.of_nat (length mem) -> exists l, stream mem p rem l.
Proof.
  intros Hm. remember (Z.to_nat rem) as n eqn:Hn. revert p rem Hn.
  induction (lt_wf n) as [n _ IH]. intros p rem Hn Hp Hr.
  destruct (Z.ltb_spec rem 4) as [|H4]; [exists []; by constructor|].
  destruct (mem_at_any_le mem p 2 Hm Hp) as (len & Hlen & Hat); [lia|]. change (256 ^ Z.of_nat 2) with (2 ^ 16) in Hlen.
  destruct (decide (len < 4 \/ rem < len)) as [|Hok]; [exists []; by apply (stream_bad mem p rem len)|].
  destruct (mem_at_any_le mem (p + 2) 2 Hm) as (ty & Hty & Hat2); [lia|lia|]. change (256 ^ Z.of_nat 2) with (2 ^ 16) in Hty.
  destruct (mem_at_any mem (p + 4) (Z.to_nat (len - 4))) as (d & Hd & Hat3 & _); [lia|lia|].
  set (a := Attr ty d). assert (attr_len a = len) as Ha by (unfold attr_len; subst a; cbn [at_data]; lia).
  pose proof (align4_bounds len) as [Hal _].
  destruct (decide (4 <= rem - align4 len)).
  - destruct (IH (Z.to_nat (rem - align4 len)) ltac:(lia) (p + align4 len) (rem - align4 len)) as [ls Hls]; [done|lia|lia|].
    exists ((p, a) :: ls). constructor; rewrite ?Ha; try done; try lia. apply attr_at_parts. by rewrite Ha.
  - exists [(p, a)]. constructor; rewrite ?Ha; try done; try lia. 2: constructor; lia. apply attr_at_parts. by rewrite Ha.
Qed.

Lemma mem_at_inj mem p a b : mem_at mem p a -> mem_at mem p b -> length a = length b -> a = b.
Proof. intros [_ Ha] [_ Hb] Hl. congruence. Qed.

Lemma mem_at_le_inj mem p n v w : mem_at mem p (le_bytes n v) -> mem_at mem p (le_bytes n w) ->
  0 <= v < 256 ^ Z.of_nat n -> 0 <= w < 256 ^ Z.of_nat n -> v = w.
Proof.
  intros Hv Hw Rv Rw. pose proof (mem_at_inj _ _ _ _ Hv Hw) as E. rewrite !le_bytes_length in E.
  specialize (E eq_refl). apply (f_equal le_value) in E. rewrite !le_value_bytes, !Z.mod_small in E by done. done.
Qed.

Lemma stream_unique mem p rem l l' : stream mem p rem l -> stream mem p rem l' -> l = l'.
Proof.
  intros H. revert l'. induction H as [p rem Hr|p rem len Hr Hlen Hat Hbad|p rem a l Hty Hal Hle Hat Hs IH]; intros l' H'.
  - inversion H'; subst; [done|done|]. pose proof (attr_len_pos a). lia.
  - inversion H' as [| |? ? a l Hty Hal Hle Hat' Hs]; subst; [done|done|].
    apply attr_at_parts in Hat' as [Hat' _]. pose proof (attr_len_pos a).
    pose proof (mem_at_le_inj _ _ 2 _ _ Hat Hat' ltac:(done) ltac:(change (256 ^ Z.of_nat 2) with (2 ^ 16); lia)). lia.
  - pose proof (attr_len_pos a). apply attr_at_parts in Hat as (H1 & H2 & H3).
    inversion H' as [? ? Hr|? ? len Hr Hlen Hat' Hbad|? ? a' l1 Hty' Hal' Hle' Hat' Hs']; subst; [lia| |].
    + pose proof (mem_at_le_inj _ _ 2 _ _ H1 Hat' ltac:(change (256 ^ Z.of_nat 2) with (2 ^ 16); lia) ltac:(done)). lia.
    + apply attr_at_parts in Hat' as (H1' & H2' & H3'). pose proof (attr_len_pos a').
      assert (attr_len a = attr_len a') as El
        by (apply (mem_at_le_inj mem p 2); [done|done| |]; change (256 ^ Z.of_nat 2) with (2 ^ 16); lia).
      assert (at_type a = at_type a') as Et by (apply (mem_at_le_inj mem (p + 2) 2); done).
      assert (at_data a = at_data a') as Ed by (apply (mem_at_inj mem (p + 4)); [done|done|]; unfold attr_len in El; lia).
      assert (a = a') as <- by (destruct a, a'; cbn in *; congruence). f_equal. by apply IH.
Qed.

(** ** The iteration follows the stream *)
Section iteration.
Context (mem : list Z) (p rem : Z) (a : attr).
Context (Hty : 0 <= at_type a < 2 ^ 16) (Hlen : attr_len a < 2 ^ 16) (Hle : attr_len a <= rem) (Hat : mem_at mem p (attr_bytes a)).

Lemma attr_nla_len : nla_len mem p = Some (attr_len a).
Proof.
  apply attr_at_parts in Hat as (H & _). pose proof (attr_len_pos a). apply load_at_small; [done|lia|].
  change (256 ^ Z.of_nat 2) with (2 ^ 16). lia.
Qed.

Lemma attr_nla_ok : nla_ok mem p rem = Some true.
Proof.
  pose proof (attr_len_pos a). unfold nla_ok. rewrite attr_nla_len. rewrite Z.geb_leb, (proj2 (Z.leb_le 4 rem)) by lia.
  cbn [mbind option_bind]. rewrite Z.geb_leb, !(proj2 (Z.leb_le _ _)) by lia. done.
Qed.

Lemma attr_nla_next : nla_next mem p rem = Some (p + align4 (attr_len a), rem - align4 (attr_len a)).
Proof. unfold nla_next. rewrite attr_nla_len. cbn [mbind option_bind]. by rewrite NLA_ALIGN_eq. Qed.

Lemma attr_nla_type : nla_type mem p = Some (base_type a).
Proof.
  apply attr_at_parts in Hat as (_ & H & _). unfold nla_type.
  rewrite (load_at_small mem (p + 2) 2 (at_type a)) by (done || lia). cbn [mbind option_bind]. f_equal.
  unfold base_type. rewrite <- Z.land_ones by lia.
  apply Z.bits_inj'. intros i Hi. rewrite !Z.land_spec, Z.testbit_ones_nonneg by lia.
  destruct (Z.ltb_spec i 14).
  - f_equal. unfold NLA_TYPE_MASK. rewrite Z.lnot_spec, Z.lor_spec by lia. unfold NLA_F_NESTED, NLA_F_NET_BYTEORDER.
    by rewrite !Z.shiftl_spec_low by lia.
  - rewrite andb_false_r. destruct (decide (i < 16)) as [|]; [|by rewrite (testbit_small _ 16) by lia].
    assert (i = 14 \/ i = 15) as [-> | ->] by lia; apply andb_false_r.
Qed.

Lemma attr_payload_len : libbpf_nla_len mem p = Some (Z.of_nat (length (at_data a))).
Proof. unfold libbpf_nla_len. rewrite attr_nla_len. cbn [mbind option_bind]. f_equal. unfold attr_len, NLA_HDRLEN. lia. Qed.

End iteration.

Lemma base_type_range a : 0 <= base_type a < 2 ^ 14.
Proof. apply Z.mod_pos_bound. lia. Qed.

(** The last byte of a string. *)
Lemma load_last mem q d : mem_at mem q d -> d <> [] ->
  exists c, last d = Some c /\ load mem (q + (Z.of_nat (length d) - 1)) 1 = Some c.
Proof.
  intros Hat Hne. destruct (exists_last Hne) as (d' & c & ->). exists c. rewrite last_snoc. split; [done|].
  apply mem_at_app in Hat as [_ Hc]. destruct (mem_at_bound _ _ _ Hc) as [? ?]; [done|].
  rewrite length_app. cbn [length] in *. replace (q + (Z.of_nat (length d' + 1) - 1)) with (q + Z.of_nat (length d')) by lia.
  unfold load. rewrite decide_True by lia. destruct Hc as [_ Hc]. cbn [length] in Hc. rewrite Hc. cbn [le_value]. f_equal. lia.
Qed.

(** ** Validation *)
Definition policy_entry_ok (pt : libbpf_nla_policy) : Prop := 0 <= pt_type pt < 2 ^ 16 /\ 0 <= pt_minlen pt < 2 ^ 16 /\ 0 <= pt_maxlen pt < 2 ^ 16.

Lemma minlen_lookup pt : policy_entry_ok pt -> pt_type pt <= LIBBPF_NLA_TYPE_MAX ->
  (if negb (pt_minlen pt =? 0) then Some (pt_minlen pt)
   else if negb (pt_type pt =? LIBBPF_NLA_UNSPEC) then zget nla_attr_minlen (pt_type pt) else Some 0)
  = Some (if pt_minlen pt =? 0 then default 0 (zget nla_attr_minlen (pt_type pt)) else pt_minlen pt).
Proof.
  intros (Ht & _) Hmax. destruct (pt_minlen pt =? 0); [|done]. cbn [negb].
  destruct (zget_is_Some nla_attr_minlen (pt_type pt)) as [m Hm]; [unfold LIBBPF_NLA_TYPE_MAX in Hmax; cbn; lia|].
  rewrite Hm. destruct (Z.eqb_spec (pt_type pt) LIBBPF_NLA_UNSPEC) as [E|]; [|done]. rewrite E in Hm. cbn in *. by injection Hm as <-.
Qed.

Lemma string_minlen pt : pt_type pt = LIBBPF_NLA_STRING -> 0 <= pt_minlen pt ->
  1 <= (if pt_minlen pt =? 0 then default 0 (zget nla_attr_minlen (pt_type pt)) else pt_minlen pt).
Proof. intros -> H. destruct (Z.eqb_spec (pt_minlen pt) 0); [done|lia]. Qed.

Lemma validate_spec mem p maxtype policy a pt :
  0 <= at_type a < 2 ^ 16 -> attr_len a < 2 ^ 16 -> mem_at mem p (attr_bytes a) ->
  base_type a <= maxtype -> zget policy (base_type a) = Some pt -> policy_entry_ok pt ->
  validate_nla mem p maxtype policy = Some (if payload_ok pt (at_data a) then 0 else - EINVAL).
Proof.
  intros Hty Hlen Hat Hmax Hpt Hok. unfold validate_nla. rewrite (attr_nla_type mem p a) by done. cbn [mbind option_bind].
  pose proof (base_type_range a). rewrite (proj2 (Z.ltb_ge _ _)) by lia. rewrite Z.gtb_ltb, (proj2 (Z.ltb_ge _ _)) by lia.
  cbn [orb]. rewrite Hpt. cbn [mbind option_bind]. unfold payload_ok.
  destruct (Z.gtb_spec (pt_type pt) LIBBPF_NLA_TYPE_MAX) as [|Ht]; [done|]. cbn [orb].
  rewrite minlen_lookup by done. cbn [mbind option_bind].
  rewrite (attr_payload_len mem p a) by done. cbn [mbind option_bind].
  pose proof (string_minlen pt) as Hs. destruct Hok as (_ & Hmin & _). specialize (fun E => Hs E (proj1 Hmin)).
  set (minlen := if pt_minlen pt =? 0 then _ else _) in *. set (n := Z.of_nat (length (at_data a))).
  assert (0 <= n < 2 ^ 16) as Hn by (subst n; unfold attr_len in Hlen; lia).
  rewrite (wrap_small 32 n) by lia. rewrite Z.leb_antisym. destruct (Z.ltb_spec n minlen) as [|Hge]; [done|]. cbn [negb andb].
  rewrite (Z.leb_antisym (pt_maxlen pt) n), Z.gtb_ltb.
  destruct (pt_maxlen pt =? 0), (pt_maxlen pt <? n); cbn [negb andb orb]; try done.
  all: destruct (Z.eqb_spec (pt_type pt) LIBBPF_NLA_STRING) as [E|]; cbn [negb orb]; [|done].
  all: apply attr_at_parts in Hat as (_ & _ & Hd); destruct (load_last mem (p + 4) (at_data a)) as (c & Hc & Hload);
    [done|intros E0; specialize (Hs E); subst n; rewrite E0 in Hge; cbn in Hge; lia|].
  all: subst n; unfold libbpf_nla_data, NLA_HDRLEN; rewrite Hload, Hc; cbn [mbind option_bind].
  all: destruct (Z.eqb_spec c 0) as [->|]; [done|]; rewrite bool_decide_eq_false_2 by congruence; done.
Qed.

(** ** Parsing *)
Definition policy_fits (maxtype : Z) (policy : option (list libbpf_nla_policy)) : Prop :=
  match policy with
  | Some policy => maxtype < Z.of_nat (length policy) /\ Forall policy_entry_ok policy
  | None => True
  end.

Lemma attr_validated mem p maxtype policy a :
  0 <= at_type a < 2 ^ 16 -> attr_len a < 2 ^ 16 -> mem_at mem p (attr_bytes a) ->
  base_type a <= maxtype -> policy_fits maxtype policy ->
  match policy with Some policy => validate_nla mem p maxtype policy | None => Some 0 end =
  Some (if attr_ok maxtype policy a then 0 else - EINVAL).
Proof.
  intros Hty Hlen Hat Hmax Hp. destruct policy as [policy|]; [|done]. destruct Hp as [Hl Hf].
  pose proof (base_type_range a). destruct (zget_is_Some policy (base_type a)) as [pt Hpt]; [lia|].
  rewrite (validate_spec mem p maxtype policy a pt); try done.
  - unfold attr_ok. rewrite Z.gtb_ltb, (proj2 (Z.ltb_ge _ _)) by lia. by rewrite Hpt.
  - apply zget_Some in Hpt as [_ Hpt]. rewrite Forall_lookup in Hf. by eapply Hf.
Qed.

Lemma entry_cons p a l t : entry ((p, a) :: l) t =
  match entry l t with Some q => Some q | None => if decide (base_type a = t) then Some p else None end.
Proof.
  unfold entry. destruct (decide (base_type a = t)) as [E|E].
  - rewrite filter_cons_True by done. rewrite last_cons. destruct (last (filter _ l)); done.
  - rewrite filter_cons_False by done. destruct (last (filter _ l)); done.
Qed.

(** What a run of the loop leaves in the index. *)
Definition indexes (maxtype : Z) (tb tb' : list (option Z)) (l : list (Z * attr)) : Prop :=
  length tb' = length tb /\
  forall t, zget tb' t = if decide (t <= maxtype) then match entry l t with Some q => Some (Some q) | None => zget tb t end else zget tb t.

Lemma nla_loop_spec mem p rem l : stream mem p rem l ->
  forall fuel maxtype policy tb, policy_fits maxtype policy -> maxtype < Z.of_nat (length tb) -> rem / 4 < Z.of_nat fuel ->
    (0 < fuel)%nat ->
  exists tb', nla_loop fuel mem p rem maxtype policy tb =
      Some (if forallb (fun pa => attr_ok maxtype policy pa.2) l then 0 else - EINVAL, tb') /\
    indexes maxtype tb tb' (accepted maxtype policy l).
Proof.
  intros H. induction H as [p rem Hr|p rem len Hr Hlen Hat Hbad|p rem a l Hty Hal Hle Hat Hs IH];
    intros fuel maxtype policy tb Hp Htb Hfuel H0; (destruct fuel as [|fuel]; [lia|]); cbn [nla_loop].
  - unfold nla_ok. rewrite Z.geb_leb, (proj2 (Z.leb_gt _ _)) by lia. cbn [mbind option_bind negb].
    exists tb. split; [done|]. split; [done|]. intros t. by destruct (decide _).
  - unfold nla_ok. rewrite Z.geb_leb, (proj2 (Z.leb_le _ _)) by lia. unfold nla_len.
    rewrite (load_at_small mem p 2 len) by (done || lia). cbn [mbind option_bind].
    replace ((len >=? 4) && (len <=? rem)) with false
      by (rewrite Z.geb_leb; destruct (Z.leb_spec 4 len), (Z.leb_spec len rem); try done; lia).
    exists tb. split; [done|]. split; [done|]. intros t. by destruct (decide _).
  - rewrite (attr_nla_ok mem p rem a) by done. cbn [mbind option_bind negb].
    rewrite (attr_nla_type mem p a), (attr_nla_next mem p rem a) by done. cbn [mbind option_bind].
    pose proof (align4_bounds (attr_len a)) as [Hal4 _]. pose proof (attr_len_pos a) as Ha4.
    assert (0 < fuel)%nat as Hf0 by (destruct fuel; [|lia]; Z.div_mod_to_equations; lia).
    assert ((rem - align4 (attr_len a)) / 4 < Z.of_nat fuel) as Hf by (Z.div_mod_to_equations; lia).
    pose proof (base_type_range a) as Hbt. cbn [forallb accepted snd].
    destruct (Z.gtb_spec (base_type a) maxtype) as [Hgt|Hle'].
    + assert (attr_ok maxtype policy a = true) as ->
        by (destruct policy; [|done]; unfold attr_ok; rewrite Z.gtb_ltb, (proj2 (Z.ltb_lt _ _)) by lia; done).
      destruct (IH fuel maxtype policy tb Hp Htb Hf Hf0) as (tb' & -> & Hi & Hx). exists tb'. split; [done|].
      split; [done|]. intros t. rewrite Hx, entry_cons. destruct (decide (t <= maxtype)); [|done].
      rewrite (decide_False (P := base_type a = t)) by lia. by destruct (entry _ t).
    + rewrite (attr_validated mem p maxtype policy a) by done. cbn [mbind option_bind].
      destruct (attr_ok maxtype policy a); cbn [andb].
      * destruct (zset_is_Some tb (base_type a) (Some p)) as [tb1 Htb1]; [lia|]. rewrite Htb1. cbn [mbind option_bind].
        pose proof (zset_length _ _ _ _ Htb1) as Hl1.
        destruct (IH fuel maxtype policy tb1 Hp ltac:(lia) Hf Hf0) as (tb' & -> & Hi & Hx). exists tb'. split; [done|].
        split; [congruence|]. intros t. rewrite Hx, entry_cons.
        destruct (decide (base_type a = t)) as [<-|Hne].
        -- rewrite (zget_zset_eq _ _ _ _ Htb1). rewrite !decide_True by done. by destruct (entry _ _).
        -- rewrite (zget_zset_ne _ _ _ t _ Htb1) by done. by destruct (entry _ _).
      * exists tb. split; [done|]. split; [done|]. intros t. by destruct (decide _).
Qed.

Lemma parse_spec mem tb maxtype head len policy l : stream mem head len l ->
  -1 <= maxtype < Z.of_nat (length tb) -> policy_fits maxtype policy ->
  exists tb', libbpf_nla_parse mem tb maxtype head len policy =
      Some (if forallb (fun pa => attr_ok maxtype policy pa.2) l then 0 else - EINVAL, tb') /\
    length tb' = length tb /\
    (forall t, 0 <= t <= maxtype -> zget tb' t = Some (entry (accepted maxtype policy l) t)) /\
    (forall t, maxtype < t -> zget tb' t = zget tb t).
Proof.
  intros Hs Hmax Hp. unfold libbpf_nla_parse, clear_tb. rewrite decide_True by lia. cbn [mbind option_bind].
  set (tb0 := replicate _ _ ++ _). assert (length tb0 = length tb) as Hl by (subst tb0; rewrite length_app, length_replicate, length_drop; lia).
  destruct (nla_loop_spec mem head len l Hs (S (Z.to_nat (len / 4))) maxtype policy tb0) as (tb' & -> & Hi & Hx);
    [done|lia|lia|lia|]. exists tb'. split; [done|]. split; [congruence|]. split.
  - intros t Ht. rewrite Hx, decide_True by lia. destruct (entry _ t); [done|].
    apply zget_Some. split; [lia|]. subst tb0. rewrite lookup_app_l by (rewrite length_replicate; lia).
    apply lookup_replicate_2. lia.
  - intros t Ht. rewrite Hx, decide_False by lia. unfold zget. case_decide; [|done]. subst tb0.
    rewrite lookup_app_r by (rewrite length_replicate; lia). rewrite length_replicate, lookup_drop. f_equal. lia.
Qed.

(** C34. On any bytes [libbpf_nla_parse] returns without reading outside the stream or writing
    outside the index: the stream is the sequence of attributes that [stream] gives, the result
    is 0 if the policy accepts all those of an indexed type and -EINVAL otherwise, and the
    index holds for each type the last attribute of that type (of the ones before the first
    rejected one). *)
Theorem nla_parse_correct mem tb maxtype head len policy :
  mem_bytes mem -> 0 <= head -> head + len <= Z.of_nat (length mem) ->
  -1 <= maxtype < Z.of_nat (length tb) -> policy_fits maxtype policy ->
  exists l tb', stream mem head len l /\
    libbpf_nla_parse mem tb maxtype head len policy =
      Some (if forallb (fun pa => attr_ok maxtype policy pa.2) l then 0 else - EINVAL, tb') /\
    length tb' = length tb /\
    forall t, 0 <= t <= maxtype -> zget tb' t = Some (entry (accepted maxtype policy l) t).
Proof.
  intros Hm Hh Hl Hmax Hp. destruct (stream_total mem head len Hm Hh Hl) as [l Hs].
  destruct (parse_spec mem tb maxtype head len policy l Hs Hmax Hp) as (tb' & E & Hlen & Hx & _). exists l, tb'. auto.
Qed.

(** Two attributes of type 1, the second a string without its NUL; a policy that wants strings. *)
Definition two_attrs : list Z := [6; 0; 1; 0; 65; 0; 0; 0; 5; 0; 1; 128; 66; 0; 0; 0].

Lemma nla_parse_correct_witness : exists l tb', stream two_attrs 0 16 l /\
  libbpf_nla_parse two_attrs [None; None] 1 0 16 (Some [Policy 0 0 0; Policy LIBBPF_NLA_STRING 0 0]) =
    Some (if forallb (fun pa => attr_ok 1 (Some [Policy 0 0 0; Policy LIBBPF_NLA_STRING 0 0]) pa.2) l then 0 else - EINVAL, tb') /\
  length tb' = 2%nat /\
  forall t, 0 <= t <= 1 -> zget tb' t = Some (entry (accepted 1 (Some [Policy 0 0 0; Policy LIBBPF_NLA_STRING 0 0]) l) t).
Proof.
  apply (nla_parse_correct two_attrs [None; None] 1 0 16).
  - repeat constructor; lia.
  - lia.
  - cbn. lia.
  - cbn. lia.
  - split; [cbn; lia|]. repeat (apply Forall_cons_2; [unfold policy_entry_ok, LIBBPF_NLA_STRING; cbn; lia|]). apply Forall_nil_2.
Defined.

Example two_attrs_parse : libbpf_nla_parse two_attrs [None; None] 1 0 16 (Some [Policy 0 0 0; Policy LIBBPF_NLA_STRING 0 0])
  = Some (- EINVAL, [None; Some 0]) /\ libbpf_nla_parse two_attrs [None; None] 1 0 16 None = Some (0, [None; Some 8]).
Proof. done. Qed.

(** ** Construction: the calls of a client

    A client adds attributes one after the other and opens at most one level of nesting. *)
Inductive item := Leaf (type : Z) (data : list Z) | Nest (type : Z) (children : list (Z * list Z)).

Definition add_leaf (req : list Z) (type : Z) (d : list Z) : option (Z * list Z) :=
  nlattr_add req type (match d with [] => None | _ => Some d end) (Z.of_nat (length d)).

Fixpoint add_leaves (req : list Z) (cs : list (Z * list Z)) : option (Z * list Z) :=
  match cs with
  | [] => Some (0, req)
  | (t, d) :: cs => '(err, req) ← add_leaf req t d; if negb (err =? 0) then Some (err, req) else add_leaves req cs
  end.

Definition add_item (req : list Z) (it : item) : option (Z * list Z) :=
  match it with
  | Leaf t d => add_leaf req t d
  | Nest t cs =>
    '(tail, req) ← nlattr_begin_nested req t;
    match tail with
    | None => Some (- EMSGSIZE, req)
    | Some tail =>
      '(err, req) ← add_leaves req cs;
      if negb (err =? 0) then Some (err, req)
      else req ← nlattr_end_nested req tail; Some (0, req)
    end
  end.

Fixpoint add_items (req : list Z) (its : list item) : option (Z * list Z) :=
  match its with
  | [] => Some (0, req)
  | it :: its => '(err, req) ← add_item req it; if negb (err =? 0) then Some (err, req) else add_items req its
  end.

(** The attributes [l] fill the bytes from [p] to [q], each padded to four bytes. *)
Inductive filled (mem : list Z) : Z -> Z -> list (Z * attr) -> Prop :=
| filled_nil p : filled mem p p []
| filled_cons p q a l : 0 <= at_type a < 2 ^ 16 -> attr_len a < 2 ^ 16 -> mem_at mem p (attr_bytes a) ->
    filled mem (p + align4 (attr_len a)) q l -> filled mem p q ((p, a) :: l).

Definition leaf_size (c : Z * list Z) : Z := attr_len (Attr c.1 c.2).
Fixpoint leaves_size (cs : list (Z * list Z)) : Z :=
  match cs with [] => 0 | c :: cs => align4 (leaf_size c) + leaves_size cs end.
Definition item_size (it : item) : Z := match it with Leaf t d => leaf_size (t, d) | Nest _ cs => 4 + leaves_size cs end.
Fixpoint items_size (its : list item) : Z :=
  match its with [] => 0 | it :: its => align4 (item_size it) + items_size its end.

Definition leaf_ok (c : Z * list Z) : Prop := 0 <= c.1 < 2 ^ 16 /\ mem_bytes c.2 /\ Z.of_nat (length c.2) < 2 ^ 30.
Definition item_ok (it : item) : Prop :=
  match it with Leaf t d => leaf_ok (t, d) | Nest t cs => 0 <= t < 2 ^ 14 /\ Forall leaf_ok cs end.

(** The attribute of an item in memory. *)
Definition leaf_attr (c : Z * list Z) (pa : Z * attr) : Prop := pa.2 = Attr c.1 c.2.
Definition item_attr (mem : list Z) (it : item) (pa : Z * attr) : Prop :=
  match it with
  | Leaf t d => leaf_attr (t, d) pa
  | Nest t cs =>
    at_type pa.2 = t |' NLA_F_NESTED /\
    exists l, filled mem (pa.1 + 4) (pa.1 + attr_len pa.2) l /\ Forall2 leaf_attr cs l
  end.

(** A request under construction whose next attribute goes to [L]. *)
Record req_ready (req : list Z) (L : Z) : Prop := {
  rr_length : Z.of_nat (length req) = sizeof_req;
  rr_bytes : mem_bytes req;
  rr_len : mem_at req 0 (le_bytes 4 L);
  rr_range : 16 <= L <= sizeof_req;
  rr_align : L mod 4 = 0;
}.

(** What lies in the request between its length and [L] is still there. *)
Definition keeps (L : Z) (mem mem' : list Z) : Prop :=
  forall q cs, mem_at mem q cs -> 4 <= q -> q + Z.of_nat (length cs) <= L -> mem_at mem' q cs.

#[export] Instance keeps_pre L : PreOrder (keeps L).
Proof. split; [by intros m q cs|]. intros m1 m2 m3 H1 H2 q cs ???. by apply H2; [apply H1| |]. Qed.

Lemma keeps_le L L' m m' : L <= L' -> keeps L' m m' -> keeps L m m'.
Proof. intros HL H q cs ???. apply H; [done|done|lia]. Qed.

(** ** Filled ranges *)
Lemma filled_le mem p q l : filled mem p q l -> p <= q.
Proof. induction 1 as [|p q a l]; [lia|]. pose proof (align4_bounds (attr_len a)). pose proof (attr_len_pos a). lia. Qed.

Lemma filled_stream mem p q l : filled mem p q l -> stream mem p (q - p) l.
Proof.
  induction 1 as [p|p q a l ??? Hf IH]; [constructor; lia|]. pose proof (align4_bounds (attr_len a)).
  pose proof (filled_le _ _ _ _ Hf). constructor; try done; [lia|].
  by replace (q - p - align4 (attr_len a)) with (q - (p + align4 (attr_len a))) by lia.
Qed.

Lemma filled_snoc mem p q l a : filled mem p q l -> 0 <= at_type a < 2 ^ 16 -> attr_len a < 2 ^ 16 ->
  mem_at mem q (attr_bytes a) -> filled mem p (q + align4 (attr_len a)) (l ++ [(q, a)]).
Proof.
  intros H ???. induction H as [p|p q b l ???? IH]; cbn [app]; constructor; try done; [constructor|by apply IH].
Qed.

Lemma filled_app mem p q r l l' : filled mem p q l -> filled mem q r l' -> filled mem p r (l ++ l').
Proof. intros H H'. induction H as [p|p q b l ???? IH]; [done|]. cbn [app]. constructor; try done. by apply IH. Qed.

Lemma filled_keeps L mem mem' p q l : keeps L mem mem' -> 4 <= p -> q <= L -> filled mem p q l -> filled mem' p q l.
Proof.
  intros Hk Hp Hq H. induction H as [p|p q a l ??? Hf IH]; [constructor|].
  pose proof (align4_bounds (attr_len a)). pose proof (filled_le _ _ _ _ Hf). pose proof (attr_len_pos a).
  constructor; try done; [|apply IH; lia]. apply Hk; [done|lia|]. rewrite attr_bytes_length. lia.
Qed.

(** ** Adding an attribute *)
Lemma req_ready_len req L : req_ready req L -> nh_len req 0 = Some L.
Proof. intros H. destruct H. apply load_at_small; [done|lia|]. unfold sizeof_req in *. lia. Qed.

Lemma req_ready_align req L : req_ready req L -> NLMSG_ALIGN L = L.
Proof. intros [_ _ _ Hr Ha]. unfold sizeof_req in *. rewrite NLMSG_ALIGN_eq by lia. by apply align4_mult. Qed.

Lemma req_ready_tail req L : req_ready req L -> req_tail req = Some L.
Proof. intros H. unfold req_tail. rewrite (req_ready_len req L H). cbn [mbind option_bind]. by rewrite (req_ready_align req L H). Qed.

Lemma le_bytes_mem n z : mem_bytes (le_bytes n z).
Proof. apply le_bytes_range. Qed.
#[local] Hint Resolve le_bytes_mem : core.

Definition data_ptr (d : list Z) : option (list Z) := match d with [] => None | _ => Some d end.

(** The test of [nlattr_add] for space, without the conversions. *)
Lemma add_space L n : 16 <= L <= sizeof_req -> 0 <= n < 2 ^ 30 ->
  (u32 (L + NLA_ALIGN (s32 (NLA_HDRLEN + n))) >? sizeof_req) = (sizeof_req <? L + align4 (4 + n)).
Proof.
  intros HL Hn. unfold NLA_HDRLEN, sizeof_req in *. rewrite swrap_small by lia. rewrite NLA_ALIGN_eq.
  pose proof (align4_bounds (4 + n)). rewrite wrap_small by lia. apply Z.gtb_ltb.
Qed.

(** The payload store; nothing is stored for NULL. *)
Lemma store_payload req q d : 0 <= q -> q + Z.of_nat (length d) <= Z.of_nat (length req) ->
  exists req', match data_ptr d with
      | Some data =>
        if decide (0 <= Z.of_nat (length d) <= Z.of_nat (length data))
        then store req q (take (Z.to_nat (Z.of_nat (length d))) data) else None
      | None => Some req
      end = Some req' /\ length req' = length req /\ mem_at req' q d /\
    (mem_bytes req -> mem_bytes d -> mem_bytes req') /\
    forall r cs, mem_at req r cs -> r + Z.of_nat (length cs) <= q \/ q + Z.of_nat (length d) <= r -> mem_at req' r cs.
Proof.
  intros Hq Hl. destruct d as [|x d]; cbn [data_ptr].
  - exists req. split; [done|]. split; [done|]. split; [by apply mem_at_nil|]. auto.
  - rewrite decide_True by lia. rewrite Nat2Z.id, firstn_all. by apply store_spec.
Qed.

Lemma nlattr_add_full req L t d : req_ready req L -> Z.of_nat (length d) < 2 ^ 30 ->
  sizeof_req < L + align4 (4 + Z.of_nat (length d)) ->
  nlattr_add req t (data_ptr d) (Z.of_nat (length d)) = Some (- EMSGSIZE, req).
Proof.
  intros Hr Hd Hs. unfold nlattr_add. rewrite (req_ready_len _ _ Hr). cbn [mbind option_bind].
  rewrite (req_ready_align _ _ Hr), add_space by (destruct Hr; (done || lia)).
  by rewrite (proj2 (Z.ltb_lt _ _)).
Qed.

Lemma nlattr_add_spec req L t d : req_ready req L -> 0 <= t < 2 ^ 16 -> mem_bytes d ->
  L + align4 (4 + Z.of_nat (length d)) <= sizeof_req ->
  exists req', nlattr_add req t (data_ptr d) (Z.of_nat (length d)) = Some (0, req') /\
    req_ready req' (L + align4 (4 + Z.of_nat (length d))) /\
    mem_at req' L (attr_bytes (Attr t d)) /\ keeps L req req'.
Proof.
  intros Hr Ht Hd Hs. pose proof (align4_bounds (4 + Z.of_nat (length d))) as [Hal Hal4].
  pose proof (req_ready_len _ _ Hr) as Hlen. pose proof (req_ready_tail _ _ Hr) as Htail. pose proof (req_ready_align _ _ Hr) as Halign.
  destruct Hr as [Hl Hb H0 HL Ha]. unfold nlattr_add. rewrite Hlen. cbn [mbind option_bind].
  rewrite Halign, add_space by (unfold sizeof_req in *; lia). rewrite (proj2 (Z.ltb_ge _ _)) by done.
  replace (Bool.eqb _ _) with true by (destruct d; [done|]; cbn [data_ptr]; rewrite (proj2 (Z.eqb_neq _ 0)); [done|cbn; lia]).
  cbn [negb]. rewrite Htail. cbn [mbind option_bind]. unfold NLA_HDRLEN.
  destruct (store_spec req (L + 2) (le_bytes 2 t)) as (r1 & -> & Hl1 & At1 & Hb1 & K1); [lia|rewrite le_bytes_length; lia|].
  cbn [mbind option_bind]. rewrite le_bytes_length in K1.
  destruct (store_spec r1 L (le_bytes 2 (4 + Z.of_nat (length d)))) as (r2 & -> & Hl2 & At2 & Hb2 & K2); [lia|rewrite le_bytes_length; lia|].
  cbn [mbind option_bind]. rewrite le_bytes_length in K2.
  destruct (store_payload r2 (L + 4) d) as (r3 & -> & Hl3 & At3 & Hb3 & K3); [lia|lia|]. cbn [mbind option_bind].
  assert (mem_at r3 0 (le_bytes 4 L)) as H03
    by (apply K3; [apply K2; [apply K1; [done|]|]|]; rewrite le_bytes_length; lia).
  assert (mem_at r3 L (attr_bytes (Attr t d))) as Hat.
  { apply attr_at_parts. cbn [at_type at_data]. split; [|split; [|done]].
    - apply K3; [exact At2|rewrite le_bytes_length; lia].
    - apply K3; [apply K2; [exact At1|]|]; rewrite le_bytes_length; lia. }
  assert (nh_len r3 0 = Some L) as -> by (apply load_at_small; [done|lia|unfold sizeof_req in *; cbn; lia]). cbn [mbind option_bind].
  rewrite (attr_nla_len r3 L (Attr t d)) by (unfold attr_len, sizeof_req in *; cbn [at_data]; (done || lia)).
  cbn [mbind option_bind]. rewrite Halign, NLA_ALIGN_eq. change (attr_len (Attr t d)) with (4 + Z.of_nat (length d)).
  destruct (store_spec r3 0 (le_bytes 4 (L + align4 (4 + Z.of_nat (length d))))) as (r4 & -> & Hl4 & At4 & Hb4 & K4); [lia|rewrite le_bytes_length; lia|].
  cbn [mbind option_bind]. rewrite le_bytes_length in K4. exists r4. split; [done|]. split.
  - constructor; [lia|auto 10|done|lia|]. by rewrite Z.add_mod, Ha, Hal4.
  - split; [apply K4; [done|lia]|]. intros q cs Hq ??.
    apply K4; [apply K3; [apply K2; [apply K1; [done|]|]|]|]; lia.
Qed.

Lemma leaf_size_bounds c : 4 <= leaf_size c <= align4 (leaf_size c) /\ align4 (leaf_size c) mod 4 = 0.
Proof. pose proof (align4_bounds (leaf_size c)). pose proof (attr_len_pos (Attr c.1 c.2)). unfold leaf_size in *. lia. Qed.

Lemma leaves_size_nonneg cs : 0 <= leaves_size cs /\ leaves_size cs mod 4 = 0.
Proof.
  induction cs as [|c cs [IH Hm]]; [done|]. cbn [leaves_size]. pose proof (leaf_size_bounds c) as [? Ha].
  split; [lia|]. by rewrite Z.add_mod, Ha, Hm.
Qed.

Lemma item_size_align it : 4 <= item_size it /\ align4 (item_size it) mod 4 = 0 /\ item_size it <= align4 (item_size it).
Proof.
  pose proof (align4_bounds (item_size it)) as [? ?]. split; [|lia]. destruct it as [t d|t cs]; cbn [item_size].
  - pose proof (leaf_size_bounds (t, d)). lia.
  - pose proof (leaves_size_nonneg cs). lia.
Qed.

Lemma items_size_nonneg its : 0 <= items_size its.
Proof. induction its as [|it its IH]; [done|]. cbn [items_size]. pose proof (item_size_align it). lia. Qed.

Lemma add_leaf_spec req L c : req_ready req L -> leaf_ok c ->
  if sizeof_req <? L + align4 (leaf_size c) then add_leaf req c.1 c.2 = Some (- EMSGSIZE, req)
  else exists req', add_leaf req c.1 c.2 = Some (0, req') /\ req_ready req' (L + align4 (leaf_size c)) /\
    mem_at req' L (attr_bytes (Attr c.1 c.2)) /\ keeps L req req'.
Proof.
  intros Hr (Ht & Hd & Hn). destruct (Z.ltb_spec sizeof_req (L + align4 (leaf_size c))) as [Hf|Hf].
  - by apply (nlattr_add_full req L c.1 c.2).
  - by apply (nlattr_add_spec req L c.1 c.2).
Qed.

Lemma leaf_small req L c : req_ready req L -> L + align4 (leaf_size c) <= sizeof_req -> attr_len (Attr c.1 c.2) < 2 ^ 16.
Proof. intros [_ _ _ ? _] H. pose proof (leaf_size_bounds c). unfold leaf_size, sizeof_req in *. lia. Qed.

Lemma add_leaves_spec cs : forall req L, req_ready req L -> Forall leaf_ok cs ->
  if sizeof_req <? L + leaves_size cs then exists req', add_leaves req cs = Some (- EMSGSIZE, req')
  else exists req' l, add_leaves req cs = Some (0, req') /\ req_ready req' (L + leaves_size cs) /\
    filled req' L (L + leaves_size cs) l /\ Forall2 leaf_attr cs l /\ keeps L req req'.
Proof.
  induction cs as [|[t d] cs IH]; intros req L Hr Hok; cbn [leaves_size add_leaves].
  - rewrite Z.add_0_r. rewrite (proj2 (Z.ltb_ge _ _)) by (destruct Hr; lia). exists req, []. split; [done|]. split; [done|]. split; [apply filled_nil|]. by split.
  - apply Forall_cons in Hok as [Hc Hok]. pose proof (add_leaf_spec req L (t, d) Hr Hc) as Hadd. cbn [fst snd] in Hadd.
    pose proof (leaves_size_nonneg cs) as [Hpos _]. rewrite Z.add_assoc.
    destruct (Z.ltb_spec sizeof_req (L + align4 (leaf_size (t, d)))) as [Hf|Hf].
    + rewrite (proj2 (Z.ltb_lt _ _)) by lia. rewrite Hadd. cbn [mbind option_bind]. exists req. done.
    + destruct Hadd as (req1 & -> & Hr1 & Hat & K1). cbn [mbind option_bind]. cbn [Z.eqb negb].
      specialize (IH req1 _ Hr1 Hok). destruct (sizeof_req <? _); [exact IH|].
      destruct IH as (req' & l & -> & Hr' & Hf' & H2 & K'). exists req', ((L, Attr t d) :: l). split; [done|]. split; [done|].
      pose proof (leaf_size_bounds (t, d)) as [? _]. assert (16 <= L) by (destruct Hr; lia). split; [|split].
      * constructor; [apply Hc|apply (leaf_small req L (t, d)); done| |done].
        apply K'; [done|lia|]. rewrite attr_bytes_length. unfold leaf_size in *. cbn [fst snd] in *. lia.
      * by constructor.
      * etrans; [exact K1|]. apply (keeps_le _ (L + align4 (leaf_size (t, d)))); [lia|done].
Qed.

(** Closing a nested attribute turns what follows its header into its payload. *)
Lemma end_nested_spec req L L' t l :
  req_ready req L' -> 16 <= L -> L + 4 <= L' -> L mod 4 = 0 -> 0 <= t < 2 ^ 16 ->
  mem_at req L (attr_bytes (Attr t [])) -> filled req (L + 4) L' l ->
  exists req' d, nlattr_end_nested req L = Some req' /\ req_ready req' L' /\ keeps L req req' /\
    mem_at req' L (attr_bytes (Attr t d)) /\ L + attr_len (Attr t d) = L' /\ filled req' (L + 4) L' l.
Proof.
  intros Hr HL HLL Hm Ht Hat Hf. unfold nlattr_end_nested. rewrite (req_ready_tail _ _ Hr). cbn [mbind option_bind].
  destruct Hr as [Hl Hb H0 Hrange Ha].
  destruct (store_spec req L (le_bytes 2 (L' - L))) as (r1 & -> & Hl1 & At1 & Hb1 & K1); [lia|rewrite le_bytes_length; lia|].
  rewrite le_bytes_length in K1. exists r1.
  destruct (mem_at_any r1 (L + 4) (Z.to_nat (L' - L - 4))) as (d & Hd & Hdat & _); [lia|lia|].
  exists d. assert (attr_len (Attr t d) = L' - L) as Hal by (unfold attr_len; cbn [at_data]; lia). split; [done|]. split.
  { constructor; [lia|apply Hb1; [done|apply le_bytes_mem]|apply K1; [done|rewrite le_bytes_length; lia]|done|done]. }
  split; [intros q cs ???; apply K1; [done|lia]|]. split; [|split; [lia|]].
  - apply attr_at_parts in Hat as (_ & Hty & _). apply attr_at_parts. cbn [at_type at_data] in *. rewrite Hal. split; [done|].
    split; [|done]. apply K1; [done|lia].
  - clear - K1 Hf HL. remember (L + 4) as p eqn:Hp. assert (L + 2 <= p) as Hpl by lia. clear Hp.
    induction Hf as [p|p q a l ??? Hf IH]; [constructor|]. pose proof (align4_bounds (attr_len a)). pose proof (attr_len_pos a).
    constructor; try done; [|apply IH; lia]. apply K1; [done|lia].
Qed.

Lemma nested_type t : 0 <= t < 2 ^ 14 -> 0 <= t |' NLA_F_NESTED < 2 ^ 16.
Proof.
  intros Ht. change NLA_F_NESTED with (Z.shiftl 1 15). rewrite Z.lor_comm, lor_shiftl_add by lia. lia.
Qed.

Lemma add_item_spec req L it : req_ready req L -> item_ok it ->
  if sizeof_req <? L + align4 (item_size it) then exists req', add_item req it = Some (- EMSGSIZE, req')
  else exists req' a, add_item req it = Some (0, req') /\ req_ready req' (L + align4 (item_size it)) /\
    filled req' L (L + align4 (item_size it)) [(L, a)] /\ item_attr req' it (L, a) /\ keeps L req req'.
Proof.
  intros Hr Hok. destruct it as [t d|t cs]; cbn [add_item item_size item_ok] in *.
  - pose proof (add_leaf_spec req L (t, d) Hr Hok) as H. cbn [fst snd] in H.
    destruct (Z.ltb_spec sizeof_req (L + align4 (leaf_size (t, d)))) as [|Hf]; [by eexists|].
    destruct H as (req' & E & Hr' & Hat & K). exists req', (Attr t d). split; [done|]. split; [done|]. split; [|by split].
    change (leaf_size (t, d)) with (attr_len (Attr t d)). apply (filled_snoc req' L L []); [constructor|apply Hok| |done].
    by apply (leaf_small req L (t, d)).
  - destruct Hok as [Ht Hcs]. pose proof (nested_type t Ht) as Htn. pose proof (leaves_size_nonneg cs) as [Hpos Hm4].
    rewrite (align4_mult (4 + leaves_size cs)) by (by rewrite Z.add_mod, Hm4).
    unfold nlattr_begin_nested. rewrite (req_ready_tail _ _ Hr). cbn [mbind option_bind].
    destruct (Z.ltb_spec sizeof_req (L + 4)) as [Hf|Hf].
    { rewrite (proj2 (Z.ltb_lt _ _)) by lia. exists req. by rewrite (nlattr_add_full req L _ [] Hr). }
    destruct (nlattr_add_spec req L (t |' NLA_F_NESTED) [] Hr Htn) as (r1 & E1 & Hr1 & At1 & K1); [constructor|done|].
    cbn [data_ptr length] in E1. change (Z.of_nat 0) with 0 in *. rewrite E1. cbn [mbind option_bind]. cbn [Z.eqb negb].
    change (align4 (4 + 0)) with 4 in Hr1. pose proof (add_leaves_spec cs r1 (L + 4) Hr1 Hcs) as Hadd.
    rewrite <- Z.add_assoc in Hadd. destruct (Z.ltb_spec sizeof_req (L + (4 + leaves_size cs))) as [|Hf2].
    { destruct Hadd as [req' ->]. by exists req'. }
    destruct Hadd as (r2 & l & -> & Hr2 & Hfill & H2 & K2). cbn [mbind option_bind]. cbn [Z.eqb negb].
    assert (16 <= L /\ L mod 4 = 0) as [HL HLm] by (destruct Hr; lia).
    destruct (end_nested_spec r2 L (L + (4 + leaves_size cs)) (t |' NLA_F_NESTED) l) as (r3 & d & -> & Hr3 & K3 & At3 & Hal & Hfill3);
      try done; [lia| |].
    { apply K2; [done|lia|]. rewrite attr_bytes_length. change (attr_len _) with 4. lia. }
    cbn [mbind option_bind]. exists r3, (Attr (t |' NLA_F_NESTED) d). split; [done|]. split; [done|]. split; [|split].
    + replace (L + (4 + leaves_size cs)) with (L + align4 (attr_len (Attr (t |' NLA_F_NESTED) d)))
        by (rewrite align4_mult; [lia|]; replace (attr_len _) with (4 + leaves_size cs) by lia; by rewrite Z.add_mod, Hm4).
      apply (filled_snoc r3 L L []); [constructor|done| |done]. unfold sizeof_req in *. lia.
    + split; [done|]. exists l. cbn [fst snd]. rewrite Hal. done.
    + etrans; [exact K1|]. etrans; [|exact K3]. apply (keeps_le _ (L + 4)); [lia|done].
Qed.

Lemma item_attr_keeps L mem mem' it p a : keeps L mem mem' -> 0 <= p -> p + attr_len a <= L ->
  item_attr mem it (p, a) -> item_attr mem' it (p, a).
Proof.
  intros K Hp HL. destruct it as [|t cs]; [done|]. intros (Ht & l & Hf & H2). split; [done|]. exists l. split; [|done].
  cbn [fst snd] in *. apply (filled_keeps L mem mem'); try done; lia.
Qed.

Lemma filled_one mem p q r a : filled mem p q [(r, a)] -> p + align4 (attr_len a) = q.
Proof. inversion 1 as [|? ? ? ? ? ? ? Hn]; subst. by inversion Hn. Qed.

Lemma add_items_spec its : forall req L, req_ready req L -> Forall item_ok its ->
  if sizeof_req <? L + items_size its then exists req', add_items req its = Some (- EMSGSIZE, req')
  else exists req' l, add_items req its = Some (0, req') /\ req_ready req' (L + items_size its) /\
    filled req' L (L + items_size its) l /\ Forall2 (item_attr req') its l /\ keeps L req req'.
Proof.
  induction its as [|it its IH]; intros req L Hr Hok; cbn [items_size add_items].
  - rewrite Z.add_0_r. rewrite (proj2 (Z.ltb_ge _ _)) by (destruct Hr; lia). exists req, [].
    split; [done|]. split; [done|]. split; [apply filled_nil|]. by split.
  - apply Forall_cons in Hok as [Hi Hok]. pose proof (add_item_spec req L it Hr Hi) as Hadd.
    pose proof (items_size_nonneg its) as Hpos. rewrite Z.add_assoc.
    destruct (Z.ltb_spec sizeof_req (L + align4 (item_size it))) as [Hf|Hf].
    + rewrite (proj2 (Z.ltb_lt _ _)) by lia. destruct Hadd as [req' ->]. by exists req'.
    + destruct Hadd as (req1 & a & -> & Hr1 & Hfill & Hia & K1). cbn [mbind option_bind]. cbn [Z.eqb negb].
      specialize (IH req1 _ Hr1 Hok). destruct (sizeof_req <? _); [exact IH|].
      destruct IH as (req' & l & -> & Hr' & Hf' & H2 & K'). exists req', ((L, a) :: l). split; [done|]. split; [done|].
      assert (16 <= L) as HL by (destruct Hr; lia).
      assert (4 <= L) as HL4 by lia. pose proof (filled_keeps _ _ _ _ _ _ K' HL4 (Z.le_refl _) Hfill) as Hfill'. split; [|split].
      * by apply (filled_app req' L (L + align4 (item_size it)) _ [(L, a)]).
      * constructor; [|done]. apply (item_attr_keeps (L + align4 (item_size it)) req1); [done|lia| |done].
        apply filled_one in Hfill. pose proof (align4_bounds (attr_len a)). lia.
      * etrans; [exact K1|]. pose proof (item_size_align it). apply (keeps_le _ (L + align4 (item_size it))); [lia|done].
Qed.

(** C35. A request built by [nlattr_add], [nlattr_begin_nested] and [nlattr_end_nested] is read
    back by [libbpf_nla_parse]: if the attributes fit, every call succeeds, the message length
    covers exactly the padded attributes, the bytes before them are untouched, and parsing finds
    for each type the last item of that type, with its payload and, for a nested one, its
    children; if they do not fit, a call returns -EMSGSIZE. *)
Theorem nlattr_roundtrip req L its tb maxtype :
  req_ready req L -> Forall item_ok its -> -1 <= maxtype < Z.of_nat (length tb) ->
  if sizeof_req <? L + items_size its then exists req', add_items req its = Some (- EMSGSIZE, req')
  else exists req' l tb', add_items req its = Some (0, req') /\ nh_len req' 0 = Some (L + items_size its) /\ keeps L req req' /\
    Forall2 (item_attr req') its l /\
    libbpf_nla_parse req' tb maxtype L (items_size its) None = Some (0, tb') /\
    forall t, 0 <= t <= maxtype -> zget tb' t = Some (entry l t).
Proof.
  intros Hr Hok Htb. pose proof (add_items_spec its req L Hr Hok) as H. destruct (sizeof_req <? _); [done|].
  destruct H as (req' & l & E & Hr' & Hf & H2 & K). apply filled_stream in Hf.
  replace (L + items_size its - L) with (items_size its) in Hf by lia.
  destruct (parse_spec req' tb maxtype L (items_size its) None l Hf Htb) as (tb' & Hp & _ & Hx & _); [done|].
  exists req', l, tb'. split; [done|]. split; [by apply req_ready_len|]. split; [done|]. split; [done|]. split.
  - rewrite Hp. f_equal. f_equal. replace (forallb _ l) with true; [done|]. symmetry. apply forallb_forall. by intros.
  - intros t Ht. rewrite Hx by done. f_equal. f_equal. clear. induction l as [|? ? IH]; [done|]. cbn [accepted attr_ok]. by rewrite IH.
Qed.

Definition empty_req : list Z := le_bytes 4 32 ++ replicate 160 0.

Lemma empty_req_ready : req_ready empty_req 32.
Proof.
  constructor; [done| |by split|done|done]. apply Forall_app; split; [apply le_bytes_mem|]. apply Forall_replicate. lia.
Qed.

Lemma nlattr_roundtrip_witness :
  exists req' l tb', add_items empty_req [Leaf 3 [7; 8; 9]; Nest 43 [(1, [5; 0; 0; 0])]] = Some (0, req') /\
    nh_len req' 0 = Some 52 /\ keeps 32 empty_req req' /\
    Forall2 (item_attr req') [Leaf 3 [7; 8; 9]; Nest 43 [(1, [5; 0; 0; 0])]] l /\
    libbpf_nla_parse req' (replicate 44 None) 43 32 20 None = Some (0, tb') /\
    forall t, 0 <= t <= 43 -> zget tb' t = Some (entry l t).
Proof.
  apply (nlattr_roundtrip empty_req 32 [Leaf 3 [7; 8; 9]; Nest 43 [(1, [5; 0; 0; 0])]] (replicate 44 None) 43).
  - apply empty_req_ready.
  - constructor; [|constructor; [|constructor]].
    + split; [cbn; lia|]. split; [repeat constructor; lia|cbn; lia].
    + split; [lia|]. constructor; [|constructor]. split; [cbn; lia|]. split; [repeat constructor; lia|cbn; lia].
  - cbn. lia.
Defined.

Example nested_parse : match add_items empty_req [Leaf 3 [7; 8; 9]; Nest 43 [(1, [5; 0; 0; 0])]] with
  | Some (0, req') => libbpf_nla_parse_nested req' (replicate 3 None) 2 40 None
  | _ => None
  end = Some (0, [None; Some 44; None]).
Proof. done. Qed.

(** An acknowledgement whose extended attributes hold no message: the NULL pointer is printed. *)
Definition ack_without_msg : list Z :=
  le_bytes 4 44 ++ le_bytes 2 2 ++ le_bytes 2 0x300 ++ le_bytes 4 1 ++ le_bytes 4 2 ++ le_bytes 4 (-22) ++
  replicate 16 0 ++ [8; 0; 2; 0; 0; 0; 0; 0].

Lemma errormsg_null : libbpf_nla_dump_errormsg ack_without_msg 0 = Some (0, Message None).
Proof. done. Qed.
