(* ===== verification/Netlink.v ===== *)
(** * Netlink conversations: src/libbpf/src/netlink.c

    The socket, the clock and the allocator are the kernel's and the C library's: the record
    [nl_env] gives their answers to one conversation, a system call returning a negative errno
    for a failure.  Every call of recvmsg takes the next [answer]; when there is none left the
    call blocks.  The file models the receive loop with its callbacks, the requests libbpf
    sends to attach, detach and query XDP and TC programs, and the decoding of the replies. *)
From Stdlib Require Import ZArith Lia.
From stdpp Require Import base numbers list.
From S2P Require Import Prelude Nlattr.

Definition LIBBPF_ERRNO__INTERNAL : Z := 4004.
Definition LIBBPF_ERRNO__WRNGPID : Z := 4011.
Definition LIBBPF_ERRNO__INVSEQ : Z := 4012.
Definition LIBBPF_ERRNO__NLPARSE : Z := 4013.

Definition NL_CONT : Z := 0.
Definition NL_NEXT : Z := 1.
Definition NL_DONE : Z := 2.

Definition NLM_F_REQUEST : Z := 0x01.
Definition NLM_F_MULTI : Z := 0x02.
Definition NLM_F_ACK : Z := 0x04.
Definition NLM_F_ECHO : Z := 0x08.
Definition NLM_F_DUMP : Z := 0x100 |' 0x200.
Definition NLM_F_REPLACE : Z := 0x100.
Definition NLM_F_EXCL : Z := 0x200.
Definition NLM_F_CREATE : Z := 0x400.
Definition NLMSG_ERROR : Z := 2.
Definition NLMSG_DONE : Z := 3.

(** ** The environment of a conversation *)

(** The answer to a call of recvmsg: an errno, or the next datagram. *)
Inductive answer := AErr (errno : Z) | AData (bytes : list Z).

Record nl_env := NlEnv {
  e_socket : Z;                (* a descriptor, or a negative errno *)
  e_bind : Z;
  e_getsockname : Z;
  e_addrlen : Z;               (* what getsockname stores *)
  e_nl_pid : Z;
  e_time : Z;
  e_send : Z;
  e_answers : list answer;
  e_realloc : Z -> option (Z -> Z);  (* an allocation of this size: None, or what the memory holds *)
}.

(** The system calls that take or release something, in their order. *)
Inductive event := EvSocket (fd : Z) | EvSend (fd : Z) (bytes : list Z) | EvClose (fd : Z).

(** How a conversation ends: it waits for a datagram that does not come, or returns. *)
Inductive outcome (A : Type) := Blocked | Returned (x : A).
Arguments Blocked {A}.
Arguments Returned {A} x.

Definition sizeof_sockaddr_nl : Z := 12.

(** The result and [*nl_pid] of [libbpf_netlink_open], and what it did. *)
Definition libbpf_netlink_open (e : nl_env) : Z * Z * list event :=
  let sock := e_socket e in
  if sock <? 0 then (sock, 0, [])
  else if e_bind e <? 0 then (e_bind e, 0, [EvSocket sock; EvClose sock])
  else if e_getsockname e <? 0 then (e_getsockname e, 0, [EvSocket sock; EvClose sock])
  else if negb (e_addrlen e =? sizeof_sockaddr_nl) then (- LIBBPF_ERRNO__INTERNAL, 0, [EvSocket sock; EvClose sock])
  else (sock, e_nl_pid e, [EvSocket sock]).

(** ** Receiving *)

(** [netlink_recvmsg] with a buffer [iov]: the result, the buffer and the answers left, or
    [None] when the call blocks.  At most the size of the buffer is written; with MSG_TRUNC
    the result is the length of the datagram. *)
Fixpoint netlink_recvmsg (answers : list answer) (iov : list Z) (trunc : bool) : option (Z * list Z * list answer) :=
  match answers with
  | [] => None
  | AErr errno :: answers =>
    if (errno =? EINTR) || (errno =? EAGAIN) then netlink_recvmsg answers iov trunc
    else Some (- errno, iov, answers)
  | AData d :: answers =>
    let n := Nat.min (length d) (length iov) in
    Some (s32 (Z.of_nat (if trunc then length d else n)), take n d ++ drop n iov, answers)
  end.

(** [alloc_iov]; on success the buffer keeps its contents up to the new size, and the bytes that
    are added hold whatever the memory holds. *)
Definition alloc_iov (realloc : Z -> option (Z -> Z)) (iov : list Z) (len : Z) : Z * list Z :=
  match realloc len with
  | Some fresh => (0, take (Z.to_nat len) iov ++ map fresh (seqZ (Z.of_nat (length iov)) (len - Z.of_nat (length iov))))
  | None => (- ENOMEM, iov)
  end.

Definition NLMSG_OK (mem : list Z) (nh len : Z) : option bool :=
  if len >=? 16 then
    l ← nh_len mem nh; Some ((l >=? 16) && (l <=? u32 len))
  else Some false.

Definition NLMSG_NEXT (mem : list Z) (nh len : Z) : option (Z * Z) :=
  l ← nh_len mem nh; Some (nh + NLMSG_ALIGN l, s32 (len - NLMSG_ALIGN l)).

(** Where the loop over the messages of a datagram leads. *)
Inductive step := GotoDone (ret : Z) | GotoStart | LoopEnd (multipart : bool).

Section recv.
Context {C : Type}.
(** The callback [_fn] with its [fn] argument, [None] for NULL: it reads the message at an
    offset of the buffer and may change the cookie. *)
Context (fn : option (list Z -> Z -> C -> option (Z * C))) (nl_pid seq : Z).

Fixpoint msg_loop (fuel : nat) (iov : list Z) (nh len : Z) (multipart : bool) (cookie : C) : option (step * C) :=
  match fuel with
  | O => None
  | S fuel =>
    ok ← NLMSG_OK iov nh len;
    if negb ok then Some (LoopEnd multipart, cookie)
    else
      pid ← nh_pid iov nh;
      if negb (pid =? nl_pid) then Some (GotoDone (- LIBBPF_ERRNO__WRNGPID), cookie)
      else
        s ← nh_seq iov nh;
        if negb (s =? u32 seq) then Some (GotoDone (- LIBBPF_ERRNO__INVSEQ), cookie)
        else
          flags ← nh_flags iov nh;
          let multipart := multipart || negb (flags &' NLM_F_MULTI =? 0) in
          type ← nh_type iov nh;
          '(nh', len') ← NLMSG_NEXT iov nh len;
          if type =? NLMSG_ERROR then
            e ← load iov (NLMSG_DATA nh) 4;
            let error := s32 e in
            if error =? 0 then msg_loop fuel iov nh' len' multipart cookie
            else _ ← libbpf_nla_dump_errormsg iov nh; Some (GotoDone error, cookie)
          else if type =? NLMSG_DONE then Some (GotoDone 0, cookie)
          else
            match fn with
            | None => msg_loop fuel iov nh' len' multipart cookie
            | Some fn =>
              '(ret, cookie) ← fn iov nh cookie;
              if ret =? NL_CONT then msg_loop fuel iov nh' len' multipart cookie
              else if ret =? NL_NEXT then Some (GotoStart, cookie)
              else if ret =? NL_DONE then Some (GotoDone 0, cookie)
              else Some (GotoDone ret, cookie)
            end
  end.

(** The rounds from the label [start] on.  A round takes two answers, so their number is
    enough fuel; a message takes at least 16 bytes. *)
Fixpoint recv_loop (fuel : nat) (realloc : Z -> option (Z -> Z)) (answers : list answer) (iov : list Z) (cookie : C)
  : option (outcome (Z * C)) :=
  match fuel with
  | O => None
  | S fuel =>
    match netlink_recvmsg answers iov true with
    | None => Some Blocked
    | Some (len, iov, answers) =>
      if len <? 0 then Some (Returned (len, cookie))
      else
        let '(err, iov) := if len >? Z.of_nat (length iov) then alloc_iov realloc iov len else (0, iov) in
        if negb (err =? 0) then Some (Returned (err, cookie))
        else
          match netlink_recvmsg answers iov false with
          | None => Some Blocked
          | Some (len, iov, answers) =>
            if len <? 0 then Some (Returned (len, cookie))
            else if len =? 0 then Some (Returned (0, cookie))
            else
              '(s, cookie) ← msg_loop (S (Z.to_nat (len / 16))) iov 0 len false cookie;
              match s with
              | GotoDone ret => Some (Returned (ret, cookie))
              | GotoStart => recv_loop fuel realloc answers iov cookie
              | LoopEnd multipart =>
                if multipart then recv_loop fuel realloc answers iov cookie else Some (Returned (0, cookie))
              end
          end
    end
  end.

Definition libbpf_netlink_recv (realloc : Z -> option (Z -> Z)) (answers : list answer) (cookie : C) : option (outcome (Z * C)) :=
  let '(err, iov) := alloc_iov realloc [] 4096 in
  if negb (err =? 0) then Some (Returned (err, cookie))
  else recv_loop (S (length answers)) realloc answers iov cookie.
End recv.

(** [libbpf_netlink_send_recv]: the result and the cookie, and the system calls made. *)
Definition libbpf_netlink_send_recv {C} (e : nl_env) (req : list Z) (fn : option (list Z -> Z -> C -> option (Z * C)))
    (cookie : C) : option (outcome (Z * C) * list event) :=
  let '(sock, nl_pid, opened) := libbpf_netlink_open e in
  if sock <? 0 then Some (Returned (sock, cookie), opened)
  else
    req ← store req 12 (le_bytes 4 0);
    req ← store req 8 (le_bytes 4 (e_time e));
    len ← nh_len req 0;
    sent ← (if decide (len <= Z.of_nat (length req)) then Some (take (Z.to_nat len) req) else None);
    if e_send e <? 0 then Some (Returned (e_send e, cookie), opened ++ [EvSend sock sent; EvClose sock])
    else
      seq ← nh_seq req 0;
      r ← libbpf_netlink_recv fn nl_pid (s32 seq) (e_realloc e) (e_answers e) cookie;
      match r with
      | Blocked => Some (Blocked, opened ++ [EvSend sock sent])
      | Returned x => Some (Returned x, opened ++ [EvSend sock sent; EvClose sock])
      end.

(** ** Options structs

    A caller passes the size it was compiled with: fields beyond it are not read, bytes beyond
    the last known field must be zero. *)
Definition libbpf_is_mem_zeroed (p : list Z) (len : Z) : bool := forallb (fun b => b =? 0) (take (Z.to_nat len) p).

(** [tail] are the bytes after the known fields, which end at [opts_sz]. *)
Definition libbpf_validate_opts (tail : list Z) (opts_sz user_sz : Z) : bool :=
  if user_sz <? 8 then false else libbpf_is_mem_zeroed tail (user_sz - opts_sz).

Definition OPTS_HAS (user_sz field_end : Z) : bool := user_sz >=? field_end.
Definition OPTS_GET {A} (user_sz field_end : Z) (v fallback : A) : A := if OPTS_HAS user_sz field_end then v else fallback.
Definition OPTS_SET {A} (user_sz field_end : Z) (old v : A) : A := if OPTS_HAS user_sz field_end then v else old.

(** ** Conversations in sequence *)
Abbreviation conv A := (option (outcome A * list event)).
Definition conv_ret {A} (x : A) : conv A := Some (Returned x, []).
Definition conv_bind {A B} (c : conv A) (k : A -> conv B) : conv B :=
  match c with
  | None => None
  | Some (Blocked, ev) => Some (Blocked, ev)
  | Some (Returned x, ev) => match k x with None => None | Some (r, ev') => Some (r, ev ++ ev') end
  end.
Notation "'let*' p := c 'in' k" := (conv_bind c (fun p => k)) (at level 10, p pattern, c at level 100, k at level 200).

(** ** Requests *)

(** A request of zeros with a message header. *)
Definition new_req (len type flags : Z) : list Z :=
  le_bytes 4 len ++ le_bytes 2 type ++ le_bytes 2 flags ++ replicate 156 0.

(** The fields of the protocol headers, by their offsets in the request. *)
Definition set_u8 (req : list Z) (p v : Z) : option (list Z) := store req p (le_bytes 1 v).
Definition set_u32 (req : list Z) (p v : Z) : option (list Z) := store req p (le_bytes 4 v).
Definition ifi_index_off : Z := 20.
Definition tcm_ifindex_off : Z := 20.
Definition tcm_handle_off : Z := 24.
Definition tcm_parent_off : Z := 28.
Definition tcm_info_off : Z := 32.

Definition GENL_HDRLEN : Z := 4.
Definition sizeof_ifinfomsg : Z := 16.
Definition sizeof_tcmsg : Z := 20.
Definition NLMSG_PAYLOAD (mem : list Z) (nh len : Z) : option Z :=
  l ← nh_len mem nh; Some (s32 (l - NLMSG_ALIGN (NLMSG_LENGTH len))).

Definition RTM_GETLINK : Z := 18.
Definition RTM_SETLINK : Z := 19.
Definition RTM_NEWQDISC : Z := 36.
Definition RTM_DELQDISC : Z := 37.
Definition RTM_NEWTFILTER : Z := 44.
Definition RTM_DELTFILTER : Z := 45.
Definition RTM_GETTFILTER : Z := 46.

(** ** Generic netlink families *)
Definition CTRL_ATTR_FAMILY_ID : Z := 1.
Definition CTRL_ATTR_FAMILY_NAME : Z := 2.
Definition GENL_ID_CTRL : Z := 16.
Definition CTRL_CMD_GETFAMILY : Z := 3.

(** The cookie is [*id], [None] while it is not initialised. *)
Definition parse_genl_family_id (mem : list Z) (nh : Z) (id : option Z) : option (Z * option Z) :=
  let na := NLMSG_DATA nh + GENL_HDRLEN in
  len ← NLMSG_PAYLOAD mem nh 4;
  '(_, tb) ← libbpf_nla_parse mem (replicate 2 None) CTRL_ATTR_FAMILY_ID na len None;
  e ← zget tb CTRL_ATTR_FAMILY_ID;
  match e with
  | None => Some (NL_CONT, id)
  | Some nla => v ← libbpf_nla_getattr_u16 mem nla; Some (NL_DONE, Some v)
  end.

Definition libbpf_netlink_resolve_genl_family_id (e : nl_env) (name : list Z) (len : Z) (id : option Z)
  : conv (Z * option Z) :=
  let req := new_req (NLMSG_LENGTH GENL_HDRLEN) GENL_ID_CTRL NLM_F_REQUEST in
  req ← set_u8 req 16 CTRL_CMD_GETFAMILY;
  req ← set_u8 req 17 2;
  '(err, req) ← nlattr_add req CTRL_ATTR_FAMILY_NAME (Some name) len;
  if err <? 0 then conv_ret (err, id)
  else libbpf_netlink_send_recv e req (Some parse_genl_family_id) id.

(** ** XDP *)
Definition IFLA_XDP : Z := 43.
Definition IFLA_MAX : Z := 67.
Definition IFLA_XDP_FD : Z := 1.
Definition IFLA_XDP_ATTACHED : Z := 2.
Definition IFLA_XDP_FLAGS : Z := 3.
Definition IFLA_XDP_PROG_ID : Z := 4.
Definition IFLA_XDP_DRV_PROG_ID : Z := 5.
Definition IFLA_XDP_SKB_PROG_ID : Z := 6.
Definition IFLA_XDP_HW_PROG_ID : Z := 7.
Definition IFLA_XDP_EXPECTED_FD : Z := 8.
Definition IFLA_XDP_MAX : Z := 8.
Definition XDP_FLAGS_UPDATE_IF_NOEXIST : Z := 1.
Definition XDP_FLAGS_SKB_MODE : Z := 2.
Definition XDP_FLAGS_DRV_MODE : Z := 4.
Definition XDP_FLAGS_HW_MODE : Z := 8.
Definition XDP_FLAGS_REPLACE : Z := 16.
Definition XDP_FLAGS_MODES : Z := XDP_FLAGS_SKB_MODE |' XDP_FLAGS_DRV_MODE |' XDP_FLAGS_HW_MODE.
Definition XDP_FLAGS_MASK : Z := XDP_FLAGS_UPDATE_IF_NOEXIST |' XDP_FLAGS_MODES |' XDP_FLAGS_REPLACE.
Definition XDP_ATTACHED_NONE : Z := 0.
Definition XDP_ATTACHED_MULTI : Z := 4.

(** The request of [__bpf_set_link_xdp_fd_replace], or the error of a call that builds it. *)
Definition xdp_set_request (ifindex fd old_fd flags : Z) : option (Z * list Z) :=
  let req := new_req (NLMSG_LENGTH sizeof_ifinfomsg) RTM_SETLINK (NLM_F_REQUEST |' NLM_F_ACK) in
  req ← set_u32 req ifi_index_off ifindex;
  '(nla, req) ← nlattr_begin_nested req IFLA_XDP;
  match nla with
  | None => Some (- EMSGSIZE, req)
  | Some nla =>
    '(ret, req) ← nlattr_add req IFLA_XDP_FD (Some (le_bytes 4 fd)) 4;
    if ret <? 0 then Some (ret, req)
    else
      '(ret, req) ← (if negb (flags =? 0) then nlattr_add req IFLA_XDP_FLAGS (Some (le_bytes 4 flags)) 4 else Some (0, req));
      if ret <? 0 then Some (ret, req)
      else
        '(ret, req) ← (if negb (flags &' XDP_FLAGS_REPLACE =? 0)
                       then nlattr_add req IFLA_XDP_EXPECTED_FD (Some (le_bytes 4 old_fd)) 4 else Some (0, req));
        if ret <? 0 then Some (ret, req)
        else
          req ← nlattr_end_nested req nla;
          Some (0, req)
  end.

Definition bpf_set_link_xdp_fd_replace (e : nl_env) (ifindex fd old_fd flags : Z) : conv Z :=
  '(ret, req) ← xdp_set_request ifindex fd old_fd flags;
  if ret <? 0 then conv_ret ret
  else let* (ret, _) := libbpf_netlink_send_recv (C := unit) e req None tt in conv_ret ret.

Record bpf_xdp_attach_opts := XdpAttachOpts { xa_sz : Z; xa_tail : list Z; xa_old_prog_fd : Z }.

Definition bpf_xdp_attach (e : nl_env) (ifindex prog_fd flags : Z) (opts : option bpf_xdp_attach_opts) : conv Z :=
  if negb (match opts with None => true | Some o => libbpf_validate_opts (xa_tail o) 12 (xa_sz o) end)
  then conv_ret (- EINVAL)
  else
    let old_prog_fd := match opts with None => 0 | Some o => OPTS_GET (xa_sz o) 12 (xa_old_prog_fd o) 0 end in
    let '(old_prog_fd, flags) :=
      if negb (old_prog_fd =? 0) then (old_prog_fd, flags |' XDP_FLAGS_REPLACE) else (-1, flags) in
    bpf_set_link_xdp_fd_replace e ifindex prog_fd old_prog_fd flags.

Definition bpf_xdp_detach (e : nl_env) (ifindex flags : Z) (opts : option bpf_xdp_attach_opts) : conv Z :=
  bpf_xdp_attach e ifindex (-1) flags opts.

(** The field [feature_flags] of [struct xdp_id_md] is never used. *)
Record xdp_link_info := XdpLinkInfo { li_prog_id : Z; li_drv_prog_id : Z; li_hw_prog_id : Z; li_skb_prog_id : Z; li_attach_mode : Z }.
Record xdp_id_md := XdpIdMd { id_ifindex : Z; id_flags : Z; id_info : xdp_link_info }.
Record xdp_features_md := XdpFeaturesMd { md_ifindex : Z; md_zc_max_segs : Z; md_flags : Z }.

(** The optional 32-bit attribute of an index entry. *)
Definition getattr_or (mem : list Z) (tb : list (option Z)) (t old : Z) : option Z :=
  e ← zget tb t;
  match e with Some nla => libbpf_nla_getattr_u32 mem nla | None => Some old end.

Definition get_xdp_info (mem : list Z) (xdp_id : xdp_id_md) (ifinfo : Z) (tb : list (option Z)) : option (Z * xdp_id_md) :=
  idx ← load mem (ifinfo + 4) 4;
  if negb (id_ifindex xdp_id =? 0) && negb (id_ifindex xdp_id =? s32 idx) then Some (0, xdp_id)
  else
    e ← zget tb IFLA_XDP;
    match e with
    | None => Some (0, xdp_id)
    | Some nla =>
      '(ret, xdp_tb) ← libbpf_nla_parse_nested mem (replicate 9 None) IFLA_XDP_MAX nla None;
      if negb (ret =? 0) then Some (ret, xdp_id)
      else
        e ← zget xdp_tb IFLA_XDP_ATTACHED;
        match e with
        | None => Some (0, xdp_id)
        | Some nla =>
          mode ← libbpf_nla_getattr_u8 mem nla;
          let i := id_info xdp_id in
          let with_info i := XdpIdMd (id_ifindex xdp_id) (id_flags xdp_id) i in
          if mode =? XDP_ATTACHED_NONE
          then Some (0, with_info (XdpLinkInfo (li_prog_id i) (li_drv_prog_id i) (li_hw_prog_id i) (li_skb_prog_id i) mode))
          else
            prog ← getattr_or mem xdp_tb IFLA_XDP_PROG_ID (li_prog_id i);
            skb ← getattr_or mem xdp_tb IFLA_XDP_SKB_PROG_ID (li_skb_prog_id i);
            drv ← getattr_or mem xdp_tb IFLA_XDP_DRV_PROG_ID (li_drv_prog_id i);
            hw ← getattr_or mem xdp_tb IFLA_XDP_HW_PROG_ID (li_hw_prog_id i);
            Some (0, with_info (XdpLinkInfo prog drv hw skb mode))
        end
    end.

(** [__dump_link_nlmsg] with [get_xdp_info] as its [dump_link_nlmsg]. *)
Definition dump_link_nlmsg (mem : list Z) (nlh : Z) (cookie : xdp_id_md) : option (Z * xdp_id_md) :=
  let ifi := NLMSG_DATA nlh in
  l ← nh_len mem nlh;
  let len := s32 (l - NLMSG_LENGTH sizeof_ifinfomsg) in
  let attr := ifi + NLMSG_ALIGN sizeof_ifinfomsg in
  '(ret, tb) ← libbpf_nla_parse mem (replicate 68 None) IFLA_MAX attr len None;
  if negb (ret =? 0) then Some (- LIBBPF_ERRNO__NLPARSE, cookie)
  else get_xdp_info mem cookie ifi tb.

Definition NETDEV_A_DEV_IFINDEX : Z := 1.
Definition NETDEV_A_DEV_XDP_FEATURES : Z := 3.
Definition NETDEV_A_DEV_XDP_ZC_MAX_SEGS : Z := 4.
Definition NETDEV_CMD_DEV_GET : Z := 1.
Definition NETDEV_CMD_MAX : Z := 15.

Definition parse_xdp_features (mem : list Z) (nh : Z) (md : xdp_features_md) : option (Z * xdp_features_md) :=
  let na := NLMSG_DATA nh + GENL_HDRLEN in
  len ← NLMSG_PAYLOAD mem nh 4;
  '(_, tb) ← libbpf_nla_parse mem (replicate 16 None) NETDEV_CMD_MAX na len None;
  e_idx ← zget tb NETDEV_A_DEV_IFINDEX;
  e_feat ← zget tb NETDEV_A_DEV_XDP_FEATURES;
  match e_idx, e_feat with
  | Some nla_idx, Some nla_feat =>
    ifindex ← libbpf_nla_getattr_u32 mem nla_idx;
    if negb (ifindex =? u32 (md_ifindex md)) then Some (NL_CONT, md)
    else
      flags ← libbpf_nla_getattr_u64 mem nla_feat;
      segs ← getattr_or mem tb NETDEV_A_DEV_XDP_ZC_MAX_SEGS (md_zc_max_segs md);
      Some (NL_DONE, XdpFeaturesMd (md_ifindex md) segs flags)
  | _, _ => Some (NL_CONT, md)
  end.

Record bpf_xdp_query_opts := XdpQueryOpts {
  xq_sz : Z; xq_tail : list Z; xq_prog_id : Z; xq_drv_prog_id : Z; xq_hw_prog_id : Z; xq_skb_prog_id : Z;
  xq_attach_mode : Z; xq_feature_flags : Z; xq_zc_max_segs : Z }.

Definition set_query_ids (o : bpf_xdp_query_opts) (i : xdp_link_info) : bpf_xdp_query_opts :=
  let sz := xq_sz o in
  XdpQueryOpts sz (xq_tail o) (OPTS_SET sz 12 (xq_prog_id o) (li_prog_id i)) (OPTS_SET sz 16 (xq_drv_prog_id o) (li_drv_prog_id i))
    (OPTS_SET sz 20 (xq_hw_prog_id o) (li_hw_prog_id i)) (OPTS_SET sz 24 (xq_skb_prog_id o) (li_skb_prog_id i))
    (OPTS_SET sz 25 (xq_attach_mode o) (li_attach_mode i)) (xq_feature_flags o) (xq_zc_max_segs o).

Definition set_query_features (o : bpf_xdp_query_opts) (flags segs : Z) : bpf_xdp_query_opts :=
  let sz := xq_sz o in
  XdpQueryOpts sz (xq_tail o) (xq_prog_id o) (xq_drv_prog_id o) (xq_hw_prog_id o) (xq_skb_prog_id o) (xq_attach_mode o)
    (OPTS_SET sz 40 (xq_feature_flags o) flags) (OPTS_SET sz 44 (xq_zc_max_segs o) segs).

(** "netdev" with its NUL. *)
Definition netdev_name : list Z := [110; 101; 116; 100; 101; 118; 0].

(** The last part of [bpf_xdp_query]: the features of the device.  Without an identifier the
    code would use an uninitialised variable. *)
Definition xdp_query_features (e : nl_env) (ifindex : Z) (id : option Z) (o : bpf_xdp_query_opts)
  : conv (Z * option bpf_xdp_query_opts) :=
  id ← id;
  let req := new_req (NLMSG_LENGTH GENL_HDRLEN) id NLM_F_REQUEST in
  req ← set_u8 req 16 NETDEV_CMD_DEV_GET;
  req ← set_u8 req 17 2;
  '(err, req) ← nlattr_add req NETDEV_A_DEV_IFINDEX (Some (le_bytes 4 ifindex)) 4;
  if err <? 0 then conv_ret (err, Some o)
  else
    let* (err, md) := libbpf_netlink_send_recv e req (Some parse_xdp_features) (XdpFeaturesMd ifindex 0 0) in
    if negb (err =? 0) then conv_ret (err, Some o)
    else conv_ret (0, Some (set_query_features o (md_flags md) (md_zc_max_segs md))).

(** The environments of the three conversations are the arguments [e1], [e2], [e3]. *)
Definition bpf_xdp_query (e1 e2 e3 : nl_env) (ifindex xdp_flags : Z) (opts : option bpf_xdp_query_opts)
  : conv (Z * option bpf_xdp_query_opts) :=
  let req := new_req (NLMSG_LENGTH sizeof_ifinfomsg) RTM_GETLINK (NLM_F_DUMP |' NLM_F_REQUEST) in
  req ← set_u8 req 16 17;
  if negb (match opts with None => true | Some o => libbpf_validate_opts (xq_tail o) 44 (xq_sz o) end)
  then conv_ret (- EINVAL, opts)
  else if negb (u32 xdp_flags &' u32 (Z.lnot XDP_FLAGS_MASK) =? 0) then conv_ret (- EINVAL, opts)
  else
    let xdp_flags := xdp_flags &' XDP_FLAGS_MODES in
    if negb (xdp_flags &' (xdp_flags - 1) =? 0) then conv_ret (- EINVAL, opts)
    else
      let* (err, xdp_id) := libbpf_netlink_send_recv e1 req (Some dump_link_nlmsg)
                              (XdpIdMd ifindex xdp_flags (XdpLinkInfo 0 0 0 0 0)) in
      if negb (err =? 0) then conv_ret (err, opts)
      else
        match opts with
        | None => conv_ret (0, None)
        | Some o =>
          let o := set_query_ids o (id_info xdp_id) in
          if negb (OPTS_HAS (xq_sz o) 40) then conv_ret (0, Some o)
          else
            let* (err, id) := libbpf_netlink_resolve_genl_family_id e2 netdev_name 7 None in
            if err <? 0 then
              if err =? - ENOENT then conv_ret (0, Some (set_query_features o 0 (xq_zc_max_segs o)))
              else conv_ret (err, Some o)
            else xdp_query_features e3 ifindex id o
        end.

Definition query_id_of (flags : Z) (o : bpf_xdp_query_opts) : Z :=
  let flags := flags &' XDP_FLAGS_MODES in
  if negb (xq_attach_mode o =? XDP_ATTACHED_MULTI) && (flags =? 0) then xq_prog_id o
  else if negb (flags &' XDP_FLAGS_DRV_MODE =? 0) then xq_drv_prog_id o
  else if negb (flags &' XDP_FLAGS_HW_MODE =? 0) then xq_hw_prog_id o
  else if negb (flags &' XDP_FLAGS_SKB_MODE =? 0) then xq_skb_prog_id o
  else 0.

(** The result and [*prog_id]. *)
Definition bpf_xdp_query_id (e1 e2 e3 : nl_env) (ifindex flags prog_id : Z) : conv (Z * Z) :=
  let* (ret, opts) := bpf_xdp_query e1 e2 e3 ifindex flags (Some (XdpQueryOpts 48 [0; 0; 0; 0] 0 0 0 0 0 0 0)) in
  if negb (ret =? 0) then conv_ret (ret, prog_id)
  else match opts with Some o => conv_ret (0, query_id_of flags o) | None => None end.

(** ** TC *)
Definition BPF_TC_INGRESS : Z := 1.
Definition BPF_TC_EGRESS : Z := 2.
Definition BPF_TC_CUSTOM : Z := 4.
Definition BPF_TC_QDISC : Z := 8.
Definition BPF_TC_F_REPLACE : Z := 1.
Definition TC_H_ROOT : Z := 0xFFFFFFFF.
Definition TC_H_CLSACT : Z := 0xFFFFFFF1.
Definition TC_H_MIN_INGRESS : Z := 0xFFF2.
Definition TC_H_MIN_EGRESS : Z := 0xFFF3.
Definition TC_H_MAJ (h : Z) : Z := h &' 0xFFFF0000.
Definition TC_H_MAKE (maj min : Z) : Z := (maj &' 0xFFFF0000) |' (min &' 0x0000FFFF).
Definition TCA_KIND : Z := 1.
Definition TCA_OPTIONS : Z := 2.
Definition TCA_MAX : Z := 15.
Definition TCA_BPF_FD : Z := 6.
Definition TCA_BPF_NAME : Z := 7.
Definition TCA_BPF_FLAGS : Z := 8.
Definition TCA_BPF_ID : Z := 11.
Definition TCA_BPF_MAX : Z := 11.
Definition TCA_BPF_FLAG_ACT_DIRECT : Z := 1.
Definition ETH_P_ALL : Z := 3.
Definition htons (x : Z) : Z := u16 (x <<' 8) |' (x >>' 8).

(** A string field is the string it points to without its NUL, [None] for NULL. *)
Record bpf_tc_hook := TcHook {
  hk_sz : Z; hk_tail : list Z; hk_ifindex : Z; hk_attach_point : Z; hk_parent : Z; hk_handle : Z; hk_qdisc : option (list Z) }.
Record bpf_tc_opts := TcOpts {
  to_sz : Z; to_tail : list Z; to_prog_fd : Z; to_flags : Z; to_prog_id : Z; to_handle : Z; to_priority : Z }.

Definition hook_valid (h : bpf_tc_hook) : bool := libbpf_validate_opts (hk_tail h) 32 (hk_sz h).
Definition get_ifindex (h : bpf_tc_hook) : Z := OPTS_GET (hk_sz h) 12 (hk_ifindex h) 0.
Definition get_attach_point (h : bpf_tc_hook) : Z := OPTS_GET (hk_sz h) 16 (hk_attach_point h) 0.
Definition get_parent (h : bpf_tc_hook) (fallback : Z) : Z := OPTS_GET (hk_sz h) 20 (hk_parent h) fallback.

Definition opts_valid (o : option bpf_tc_opts) : bool :=
  match o with None => true | Some o => libbpf_validate_opts (to_tail o) 28 (to_sz o) end.
(** [OPTS_GET] of a field of [struct bpf_tc_opts], 0 by default. *)
Definition get_opt (o : option bpf_tc_opts) (field_end : Z) (f : bpf_tc_opts -> Z) : Z :=
  match o with None => 0 | Some o => OPTS_GET (to_sz o) field_end (f o) 0 end.

Inductive qdisc_config_t := clsact_cfg | qdisc_cfg.

Definition clsact_str : list Z := [99; 108; 115; 97; 99; 116; 0].
Definition bpf_str : list Z := [98; 112; 102; 0].

Definition clsact_config (req : list Z) : option (Z * list Z) :=
  req ← set_u32 req tcm_parent_off TC_H_CLSACT;
  req ← set_u32 req tcm_handle_off (TC_H_MAKE TC_H_CLSACT 0);
  nlattr_add req TCA_KIND (Some clsact_str) 7.

Definition qdisc_config (req : list Z) (h : bpf_tc_hook) : option (Z * list Z) :=
  req ← set_u32 req tcm_parent_off (get_parent h TC_H_ROOT);
  req ← set_u32 req tcm_handle_off (OPTS_GET (hk_sz h) 24 (hk_handle h) 0);
  qdisc ← OPTS_GET (hk_sz h) 32 (hk_qdisc h) None;
  nlattr_add req TCA_KIND (Some (qdisc ++ [0])) (Z.of_nat (length qdisc) + 1).

(** The result, and the function stored in [*config]. *)
Definition attach_point_to_config (h : bpf_tc_hook) : Z * option qdisc_config_t :=
  let ap := get_attach_point h in
  if (ap =? BPF_TC_INGRESS) || (ap =? BPF_TC_EGRESS) || (ap =? BPF_TC_INGRESS |' BPF_TC_EGRESS) then
    if negb (get_parent h 0 =? 0) then (- EINVAL, None) else (0, Some clsact_cfg)
  else if ap =? BPF_TC_CUSTOM then (- EOPNOTSUPP, None)
  else if ap =? BPF_TC_QDISC then (0, Some qdisc_cfg)
  else (- EINVAL, None).

(** The result, and [*parent]. *)
Definition tc_get_tcm_parent (attach_point parent : Z) : Z * Z :=
  if (attach_point =? BPF_TC_INGRESS) || (attach_point =? BPF_TC_EGRESS) then
    if negb (parent =? 0) then (- EINVAL, parent)
    else (0, TC_H_MAKE TC_H_CLSACT (if attach_point =? BPF_TC_INGRESS then TC_H_MIN_INGRESS else TC_H_MIN_EGRESS))
  else if attach_point =? BPF_TC_CUSTOM then (if parent =? 0 then - EINVAL else 0, parent)
  else (- EINVAL, parent).

Definition tc_qdisc_modify (e : nl_env) (h : bpf_tc_hook) (cmd flags : Z) : conv Z :=
  let '(ret, config) := attach_point_to_config h in
  if ret <? 0 then conv_ret ret
  else
    config ← config;
    let req := new_req (NLMSG_LENGTH sizeof_tcmsg) cmd (NLM_F_REQUEST |' NLM_F_ACK |' flags) in
    req ← set_u32 req tcm_ifindex_off (get_ifindex h);
    '(ret, req) ← match config with clsact_cfg => clsact_config req | qdisc_cfg => qdisc_config req h end;
    if ret <? 0 then conv_ret ret
    else let* (ret, _) := libbpf_netlink_send_recv (C := unit) e req None tt in conv_ret ret.

Definition tc_qdisc_create_excl (e : nl_env) (h : bpf_tc_hook) : conv Z :=
  tc_qdisc_modify e h RTM_NEWQDISC (NLM_F_CREATE |' NLM_F_EXCL).
Definition tc_qdisc_delete (e : nl_env) (h : bpf_tc_hook) : conv Z := tc_qdisc_modify e h RTM_DELQDISC 0.

Definition bpf_tc_hook_create (e : nl_env) (hook : option bpf_tc_hook) : conv Z :=
  match hook with
  | None => conv_ret (- EINVAL)
  | Some h => if negb (hook_valid h) || (get_ifindex h <=? 0) then conv_ret (- EINVAL) else tc_qdisc_create_excl e h
  end.

(** The common part of a filter request: the header and the fields of [struct tcmsg]. *)
Definition tcm_info (priority : Z) : Z := TC_H_MAKE (u32 (priority <<' 16)) (htons ETH_P_ALL).

Definition filter_req (type flags ifindex handle info : Z) : option (list Z) :=
  let req := new_req (NLMSG_LENGTH sizeof_tcmsg) type flags in
  req ← set_u32 req tcm_ifindex_off ifindex;
  req ← set_u32 req tcm_handle_off handle;
  set_u32 req tcm_info_off info.

Definition bpf_tc_detach_ (e : nl_env) (hook : option bpf_tc_hook) (opts : option bpf_tc_opts) (flush : bool) : conv Z :=
  match hook with
  | None => conv_ret (- EINVAL)
  | Some h =>
    if negb (hook_valid h) || negb (opts_valid opts) then conv_ret (- EINVAL)
    else
      let ifindex := get_ifindex h in
      let handle := get_opt opts 24 to_handle in
      let priority := get_opt opts 28 to_priority in
      if (ifindex <=? 0) || negb (get_opt opts 16 to_flags =? 0) || negb (get_opt opts 12 to_prog_fd =? 0)
         || negb (get_opt opts 20 to_prog_id =? 0) then conv_ret (- EINVAL)
      else if priority >? 65535 then conv_ret (- EINVAL)
      else if (if flush then negb (handle =? 0) || negb (priority =? 0) else (handle =? 0) || (priority =? 0))
      then conv_ret (- EINVAL)
      else
        req ← filter_req RTM_DELTFILTER (NLM_F_REQUEST |' NLM_F_ACK) ifindex
                (if flush then 0 else handle) (if flush then 0 else tcm_info priority);
        let '(ret, parent) := tc_get_tcm_parent (get_attach_point h) (get_parent h 0) in
        if ret <? 0 then conv_ret ret
        else
          req ← set_u32 req tcm_parent_off parent;
          '(ret, req) ← (if flush then Some (0, req) else nlattr_add req TCA_KIND (Some bpf_str) 4);
          if ret <? 0 then conv_ret ret
          else let* (ret, _) := libbpf_netlink_send_recv (C := unit) e req None tt in conv_ret ret
  end.

Definition bpf_tc_detach (e : nl_env) (hook : option bpf_tc_hook) (opts : option bpf_tc_opts) : conv Z :=
  match opts with None => conv_ret (- EINVAL) | Some _ => bpf_tc_detach_ e hook opts false end.

Definition bpf_tc_hook_destroy (e : nl_env) (hook : option bpf_tc_hook) : conv Z :=
  match hook with
  | None => conv_ret (- EINVAL)
  | Some h =>
    if negb (hook_valid h) || (get_ifindex h <=? 0) then conv_ret (- EINVAL)
    else
      let ap := get_attach_point h in
      if (ap =? BPF_TC_INGRESS) || (ap =? BPF_TC_EGRESS) then bpf_tc_detach_ e (Some h) None true
      else if (ap =? BPF_TC_QDISC) || (ap =? BPF_TC_INGRESS |' BPF_TC_EGRESS) then tc_qdisc_delete e h
      else if ap =? BPF_TC_CUSTOM then conv_ret (- EOPNOTSUPP)
      else conv_ret (- EINVAL)
  end.

(** [struct bpf_cb_ctx]. *)
Record bpf_cb_ctx := CbCtx { cb_opts : option bpf_tc_opts; cb_processed : bool }.

Definition set_tc_info (o : bpf_tc_opts) (prog_id handle priority : Z) : bpf_tc_opts :=
  let sz := to_sz o in
  TcOpts sz (to_tail o) (to_prog_fd o) (to_flags o) (OPTS_SET sz 20 (to_prog_id o) prog_id)
    (OPTS_SET sz 24 (to_handle o) handle) (OPTS_SET sz 28 (to_priority o) priority).

Definition get_tc_info_ (mem : list Z) (info : bpf_cb_ctx) (tc : Z) (tb : list (option Z)) (unicast : bool)
  : option (Z * bpf_cb_ctx) :=
  match cb_opts info with
  | None => Some (- EINVAL, info)
  | Some o =>
    if unicast && cb_processed info then Some (- EINVAL, info)
    else
      e ← zget tb TCA_OPTIONS;
      match e with
      | None => Some (NL_CONT, info)
      | Some nla =>
        '(_, tbb) ← libbpf_nla_parse_nested mem (replicate 12 None) TCA_BPF_MAX nla None;
        e ← zget tbb TCA_BPF_ID;
        match e with
        | None => Some (- EINVAL, info)
        | Some nla =>
          prog_id ← libbpf_nla_getattr_u32 mem nla;
          handle ← load mem (tc + 8) 4;
          tcm ← load mem (tc + 16) 4;
          Some (if unicast then NL_NEXT else NL_DONE,
                CbCtx (Some (set_tc_info o prog_id handle (TC_H_MAJ tcm >>' 16))) true)
        end
      end
  end.

Definition get_tc_info (mem : list Z) (nh : Z) (cookie : bpf_cb_ctx) : option (Z * bpf_cb_ctx) :=
  let tc := NLMSG_DATA nh in
  len ← NLMSG_PAYLOAD mem nh sizeof_tcmsg;
  '(_, tb) ← libbpf_nla_parse mem (replicate 16 None) TCA_MAX (tc + NLMSG_ALIGN sizeof_tcmsg) len None;
  e ← zget tb TCA_KIND;
  match e with
  | None => Some (NL_CONT, cookie)
  | Some _ => flags ← nh_flags mem nh; get_tc_info_ mem cookie tc tb (negb (flags &' NLM_F_ECHO =? 0))
  end.

(** Decimal digits of a 32-bit number, as printed by [%u]. *)
Fixpoint dec_digits (fuel : nat) (n : Z) : list Z :=
  match fuel with
  | O => []
  | S fuel => (if n <? 10 then [] else dec_digits fuel (n / 10)) ++ [48 + n mod 10]
  end.

(** What [bpf_prog_get_info_by_fd] answers: its result, the name and the id of the program. *)
Record prog_info := ProgInfo { pi_ret : Z; pi_name : list Z; pi_id : Z }.

(** "%s:[%u]". *)
Definition prog_label (i : prog_info) : list Z := pi_name i ++ [58; 91] ++ dec_digits 10 (pi_id i) ++ [93].

Definition tc_add_fd_and_name (info : prog_info) (req : list Z) (fd : Z) : option (Z * list Z) :=
  if pi_ret info <? 0 then Some (pi_ret info, req)
  else
    '(ret, req) ← nlattr_add req TCA_BPF_FD (Some (le_bytes 4 fd)) 4;
    if ret <? 0 then Some (ret, req)
    else
      let len := Z.of_nat (length (prog_label info)) in
      if len >=? 256 then Some (- ENAMETOOLONG, req)
      else nlattr_add req TCA_BPF_NAME (Some (prog_label info ++ [0])) (len + 1).

Definition tc_reply (e : nl_env) (req : list Z) (o : bpf_tc_opts) : conv (Z * option bpf_tc_opts) :=
  let* (ret, info) := libbpf_netlink_send_recv e req (Some get_tc_info) (CbCtx (Some o) false) in
  if ret <? 0 then conv_ret (ret, cb_opts info)
  else if negb (cb_processed info) then conv_ret (- ENOENT, cb_opts info)
  else conv_ret (ret, cb_opts info).

(** The request of [bpf_tc_attach] after its checks, or the error of a call that builds it. *)
Definition tc_attach_request (info : prog_info) (ifindex attach_point parent handle priority flags prog_fd : Z)
  : option (Z * list Z) :=
  req ← filter_req RTM_NEWTFILTER (NLM_F_REQUEST |' NLM_F_ACK |' NLM_F_CREATE |' NLM_F_ECHO |' flags)
          ifindex handle (tcm_info priority);
  let '(ret, parent) := tc_get_tcm_parent attach_point parent in
  if ret <? 0 then Some (ret, req)
  else
    req ← set_u32 req tcm_parent_off parent;
    '(ret, req) ← nlattr_add req TCA_KIND (Some bpf_str) 4;
    if ret <? 0 then Some (ret, req)
    else
      '(nla, req) ← nlattr_begin_nested req TCA_OPTIONS;
      match nla with
      | None => Some (- EMSGSIZE, req)
      | Some nla =>
        '(ret, req) ← tc_add_fd_and_name info req prog_fd;
        if ret <? 0 then Some (ret, req)
        else
          '(ret, req) ← nlattr_add req TCA_BPF_FLAGS (Some (le_bytes 4 TCA_BPF_FLAG_ACT_DIRECT)) 4;
          if ret <? 0 then Some (ret, req)
          else req ← nlattr_end_nested req nla; Some (0, req)
      end.

Definition bpf_tc_attach (e : nl_env) (info : prog_info) (hook : option bpf_tc_hook) (opts : option bpf_tc_opts)
  : conv (Z * option bpf_tc_opts) :=
  match hook, opts with
  | Some h, Some o =>
    if negb (hook_valid h) || negb (opts_valid opts) then conv_ret (- EINVAL, opts)
    else
      let ifindex := get_ifindex h in
      let priority := get_opt opts 28 to_priority in
      let prog_fd := get_opt opts 12 to_prog_fd in
      let flags := get_opt opts 16 to_flags in
      if (ifindex <=? 0) || (prog_fd =? 0) || negb (get_opt opts 20 to_prog_id =? 0) then conv_ret (- EINVAL, opts)
      else if priority >? 65535 then conv_ret (- EINVAL, opts)
      else if negb (flags &' u32 (Z.lnot BPF_TC_F_REPLACE) =? 0) then conv_ret (- EINVAL, opts)
      else
        let flags := if negb (flags &' BPF_TC_F_REPLACE =? 0) then NLM_F_REPLACE else NLM_F_EXCL in
        '(ret, req) ← tc_attach_request info ifindex (get_attach_point h) (get_parent h 0) (get_opt opts 24 to_handle)
                        priority flags prog_fd;
        if ret <? 0 then conv_ret (ret, opts) else tc_reply e req o
  | _, _ => conv_ret (- EINVAL, opts)
  end.

Definition bpf_tc_query (e : nl_env) (hook : option bpf_tc_hook) (opts : option bpf_tc_opts)
  : conv (Z * option bpf_tc_opts) :=
  match hook, opts with
  | Some h, Some o =>
    if negb (hook_valid h) || negb (opts_valid opts) then conv_ret (- EINVAL, opts)
    else
      let ifindex := get_ifindex h in
      let handle := get_opt opts 24 to_handle in
      let priority := get_opt opts 28 to_priority in
      if (ifindex <=? 0) || negb (get_opt opts 16 to_flags =? 0) || negb (get_opt opts 12 to_prog_fd =? 0)
         || negb (get_opt opts 20 to_prog_id =? 0) || (handle =? 0) || (priority =? 0) then conv_ret (- EINVAL, opts)
      else if priority >? 65535 then conv_ret (- EINVAL, opts)
      else
        req ← filter_req RTM_GETTFILTER NLM_F_REQUEST ifindex handle (tcm_info priority);
        let '(ret, parent) := tc_get_tcm_parent (get_attach_point h) (get_parent h 0) in
        if ret <? 0 then conv_ret (ret, opts)
        else
          req ← set_u32 req tcm_parent_off parent;
          '(ret, req) ← nlattr_add req TCA_KIND (Some bpf_str) 4;
          if ret <? 0 then conv_ret (ret, opts) else tc_reply e req o
  | _, _ => conv_ret (- EINVAL, opts)
  end.
