(* ===== verification/NetlinkSpec.v ===== *)
(** * Netlink conversations on messages

    The reference view of the receive side of netlink.c: attributes as data ([decode]),
    messages in a datagram ([messages], [pack]) and the conversation as a function of the
    messages that arrive ([run_arrivals]).  The receive loop refines that function for every
    callback that agrees with a function on messages. *)
From Stdlib Require Import ZArith Lia.
From stdpp Require Import base numbers list.
From S2P Require Import Prelude Nlattr Netlink.

(** ** Attributes as data

    The reference decoder: the attributes of a sequence of bytes. *)
Fixpoint decode_loop (fuel : nat) (bs : list Z) : list attr :=
  match fuel with
  | O => []
  | S fuel =>
    if Z.of_nat (length bs) <? 4 then []
    else
      let len := le_value (take 2 bs) in
      if (len <? 4) || (Z.of_nat (length bs) <? len) then []
      else Attr (le_value (take 2 (drop 2 bs))) (take (Z.to_nat (len - 4)) (drop 4 bs))
           :: decode_loop fuel (drop (Z.to_nat (align4 len)) bs)
  end.
Definition decode (bs : list Z) : list attr := decode_loop (S (length bs)) bs.

Definition find_attr (t : Z) (l : list attr) : option attr := last (filter (fun a => base_type a = t) l).

(** The attribute [a] lies at [p]. *)
Definition attr_at (mem : list Z) (p : Z) (a : attr) : Prop :=
  0 <= at_type a < 2 ^ 16 /\ attr_len a < 2 ^ 16 /\ mem_at mem p (attr_bytes a).

Lemma mem_at_drop mem p bs k : mem_at mem p bs -> (k <= length bs)%nat -> mem_at mem (p + Z.of_nat k) (drop k bs).
Proof.
  intros H Hk. rewrite <- (take_drop k bs) in H. apply mem_at_app in H as [_ H].
  by rewrite length_take_le in H by done.
Qed.

Lemma mem_at_take mem p bs k : mem_at mem p bs -> mem_at mem p (take k bs).
Proof. intros H. rewrite <- (take_drop k bs) in H. by apply mem_at_app in H as [H _]. Qed.

Lemma mem_at_sub mem p bs q cs : mem_at mem p bs -> mem_at bs q cs -> cs <> [] -> mem_at mem (p + q) cs.
Proof.
  intros H Hc Hne. destruct (mem_at_bound _ _ _ Hc Hne) as [Hq Hl]. destruct Hc as [_ <-].
  replace q with (Z.of_nat (Z.to_nat q)) at 1 by lia. apply mem_at_take. apply mem_at_drop; [done|lia].
Qed.

Lemma le_bytes_of_take mem p bs n v : mem_at mem p bs -> (n <= length bs)%nat -> mem_at mem p (le_bytes n v) ->
  0 <= v < 256 ^ Z.of_nat n -> le_value (take n bs) = v.
Proof.
  intros H Hn Hv Hr. assert (take n bs = le_bytes n v) as -> by
    (apply (mem_at_inj mem p); [by apply mem_at_take|done|rewrite le_bytes_length, length_take_le; done]).
  rewrite le_value_bytes, Z.mod_small; done.
Qed.

(** The decoder computes the attributes of a stream. *)
Lemma decode_loop_stream mem p rem l : stream mem p rem l -> forall fuel bs, mem_at mem p bs -> Z.of_nat (length bs) = Z.max rem 0 ->
  (length bs < fuel)%nat -> decode_loop fuel bs = map snd l.
Proof.
  induction 1 as [p rem Hr|p rem len Hr Hlen Hat Hbad|p rem a l Hty Hal Hle Hat Hs IH]; intros fuel bs Hbs Hlb Hf;
    (destruct fuel as [|fuel]; [lia|]); cbn [decode_loop map].
  - by rewrite (proj2 (Z.ltb_lt _ _)) by lia.
  - rewrite (proj2 (Z.ltb_ge _ _)) by lia. rewrite (le_bytes_of_take mem p bs 2 len Hbs) by (done || lia). cbn zeta.
    rewrite Hlb. destruct (Z.ltb_spec len 4), (Z.ltb_spec (Z.max rem 0) len); try done. lia.
  - pose proof (attr_len_pos a) as H4. apply attr_at_parts in Hat as (H1 & H2 & H3).
    rewrite (proj2 (Z.ltb_ge _ _)) by lia.
    rewrite (le_bytes_of_take mem p bs 2 (attr_len a) Hbs) by (done || (change (256 ^ Z.of_nat 2) with (2 ^ 16); lia) || lia). cbn zeta.
    rewrite (proj2 (Z.ltb_ge _ 4)) by lia. rewrite (proj2 (Z.ltb_ge _ (attr_len a))) by lia. cbn [orb snd].
    assert (mem_at mem (p + 2) (drop 2 bs)) as Hd2 by (apply (mem_at_drop mem p bs 2 Hbs); lia).
    assert (mem_at mem (p + 4) (drop 4 bs)) as Hd4 by (apply (mem_at_drop mem p bs 4 Hbs); lia).
    rewrite (le_bytes_of_take mem (p + 2) (drop 2 bs) 2 (at_type a) Hd2) by (rewrite ?length_drop; done || lia).
    assert (take (Z.to_nat (attr_len a - 4)) (drop 4 bs) = at_data a) as ->.
    { apply (mem_at_inj mem (p + 4)); [by apply mem_at_take|done|]. unfold attr_len in *. rewrite length_take_le; rewrite ?length_drop; lia. }
    f_equal; [by destruct a|]. pose proof (align4_bounds (attr_len a)).
    destruct (decide (align4 (attr_len a) <= Z.of_nat (length bs))).
    + apply IH; [|rewrite length_drop; lia|rewrite length_drop; lia].
      replace (align4 (attr_len a)) with (Z.of_nat (Z.to_nat (align4 (attr_len a)))) at 1 by lia. apply mem_at_drop; [done|lia].
    + rewrite drop_ge by lia. apply IH; [apply mem_at_nil; destruct Hbs; lia|cbn; lia|cbn; lia].
Qed.

(** A stream of bytes that lie in a larger memory. *)
Lemma stream_embed mem p bs q rem l : mem_at mem p bs -> stream bs q rem l ->
  exists l', stream mem (p + q) rem l' /\ map snd l' = map snd l.
Proof.
  intros H Hl. induction Hl as [q rem Hr|q rem len Hr Hlen Hat Hbad|q rem a l Hty Hal Hle Hat Hs (l' & Hs' & E)].
  - exists []. split; [by constructor|done].
  - exists []. split; [|done]. apply (stream_bad mem (p + q) rem len); try done. by apply (mem_at_sub mem p bs).
  - exists ((p + q, a) :: l'). split; [|cbn; by rewrite E]. rewrite Z.add_assoc in Hs'. constructor; try done.
    apply (mem_at_sub mem p bs); [done|done|]. intros E0. apply (f_equal length) in E0.
    pose proof (attr_bytes_length a). pose proof (attr_len_pos a). cbn in E0. lia.
Qed.

Lemma decode_stream mem p bs : mem_at mem p bs -> mem_bytes bs ->
  exists l, stream mem p (Z.of_nat (length bs)) l /\ map snd l = decode bs.
Proof.
  intros H Hb. destruct (stream_total bs 0 (Z.of_nat (length bs))) as [l Hl]; [done|lia|lia|].
  destruct (stream_embed mem p bs 0 _ l H Hl) as (l' & Hs & E). rewrite Z.add_0_r in Hs. exists l'. split; [done|].
  rewrite E. symmetry. apply (decode_loop_stream bs 0 (Z.of_nat (length bs)) l); [done|apply mem_at_all|lia|lia].
Qed.

(** Entries of the index are attributes in memory. *)
Lemma stream_attr_at mem p rem l q a : stream mem p rem l -> (q, a) ∈ l -> attr_at mem q a.
Proof.
  induction 1 as [| |p rem b l ????? IH]; intros Hin; [by apply elem_of_nil in Hin|by apply elem_of_nil in Hin|].
  apply elem_of_cons in Hin as [E|Hin]; [injection E as -> ->; by split|by apply IH].
Qed.

Lemma filter_map_snd (P : attr -> Prop) {HP : forall a, Decision (P a)} (l : list (Z * attr)) :
  filter P (map snd l) = map snd (filter (fun pa => P pa.2) l).
Proof.
  induction l as [|[p a] l IH]; [done|]. cbn [map snd]. destruct (decide (P a)).
  - rewrite !filter_cons_True by done. cbn [map snd]. by rewrite IH.
  - rewrite !filter_cons_False by done. done.
Qed.

Lemma entry_attr mem p rem l t : stream mem p rem l ->
  match find_attr t (map snd l) with
  | Some a => exists q, entry l t = Some q /\ attr_at mem q a
  | None => entry l t = None
  end.
Proof.
  intros Hs. unfold find_attr, entry. rewrite filter_map_snd, fmap_last.
  destruct (last (filter _ l)) as [[q a]|] eqn:E; cbn; [|done]. exists q. split; [done|].
  apply (stream_attr_at mem p rem l); [done|]. apply last_Some_elem_of, list_elem_of_filter in E. apply E.
Qed.

(** The entry of type [t] of an index is the attribute of that type among [l]. *)
Definition holds (mem : list Z) (tb : list (option Z)) (l : list attr) (t : Z) : Prop :=
  match find_attr t l with
  | Some a => exists q, zget tb t = Some (Some q) /\ attr_at mem q a
  | None => zget tb t = Some None
  end.

Lemma parse_decode mem tb maxtype p bs : mem_at mem p bs -> mem_bytes bs -> -1 <= maxtype < Z.of_nat (length tb) ->
  exists tb', libbpf_nla_parse mem tb maxtype p (Z.of_nat (length bs)) None = Some (0, tb') /\
    forall t, 0 <= t <= maxtype -> holds mem tb' (decode bs) t.
Proof.
  intros H Hb Htb. destruct (decode_stream mem p bs H Hb) as (l & Hs & E).
  destruct (parse_spec mem tb maxtype p (Z.of_nat (length bs)) None l Hs Htb) as (tb' & Hp & _ & Hx & _); [done|].
  replace (forallb _ l) with true in Hp by (symmetry; by apply forallb_forall). exists tb'. split; [done|]. intros t Ht.
  unfold holds. rewrite Hx by done. rewrite <- E. pose proof (entry_attr mem p _ l t Hs) as He.
  replace (accepted maxtype None l) with l by (clear; induction l as [|? ? IH]; [done|]; cbn [accepted attr_ok]; by rewrite <- IH).
  destruct (find_attr t (map snd l)); [|by rewrite He]. destruct He as (q & -> & Hq). by exists q.
Qed.

Lemma parse_nested_decode mem tb maxtype q a : attr_at mem q a -> mem_bytes (at_data a) -> -1 <= maxtype < Z.of_nat (length tb) ->
  exists tb', libbpf_nla_parse_nested mem tb maxtype q None = Some (0, tb') /\
    forall t, 0 <= t <= maxtype -> holds mem tb' (decode (at_data a)) t.
Proof.
  intros (Ht & Hl & Hat) Hb Htb. unfold libbpf_nla_parse_nested.
  rewrite (attr_payload_len mem q a) by done. cbn [mbind option_bind]. apply parse_decode; [|done|done].
  by apply attr_at_parts in Hat as (_ & _ & ?).
Qed.

Lemma mem_at_read mem q d k n : mem_at mem q d -> (k + n <= length d)%nat ->
  take n (drop (Z.to_nat (q + Z.of_nat k)) mem) = take n (drop k d).
Proof.
  intros H Hn. destruct (mem_at_take _ _ _ n (mem_at_drop mem q d k H ltac:(lia))) as [_ E].
  by rewrite length_take_le in E by (rewrite length_drop; lia).
Qed.

(** The first bytes of a payload as a number. *)
Definition attr_num (n : nat) (a : attr) : Z := le_value (take n (at_data a)).

Lemma load_attr mem q a n : attr_at mem q a -> (0 < n <= length (at_data a))%nat ->
  load mem (libbpf_nla_data q) n = Some (attr_num n a).
Proof.
  intros (_ & _ & Hat) Hn. apply attr_at_parts in Hat as (_ & _ & Hd). unfold libbpf_nla_data, NLA_HDRLEN.
  destruct (mem_at_bound _ _ _ Hd) as [? ?]; [by destruct (at_data a); cbn in *; [lia|]|].
  unfold load. rewrite decide_True by lia. 
  pose proof (mem_at_read mem (q + 4) (at_data a) 0 n Hd) as E. rewrite Z.add_0_r, drop_0 in E. by rewrite E by lia.
Qed.

(** ** Messages in memory *)
Record nlmsg := Msg { m_type : Z; m_flags : Z; m_seq : Z; m_pid : Z; m_body : list Z }.

Definition msg_len (m : nlmsg) : Z := 16 + Z.of_nat (length (m_body m)).
Definition msg_bytes (m : nlmsg) : list Z :=
  le_bytes 4 (msg_len m) ++ le_bytes 2 (m_type m) ++ le_bytes 2 (m_flags m) ++ le_bytes 4 (m_seq m) ++ le_bytes 4 (m_pid m) ++ m_body m.

Record msg_at (mem : list Z) (p : Z) (m : nlmsg) : Prop := {
  ma_at : mem_at mem p (msg_bytes m);
  ma_len : msg_len m < 2 ^ 31;
  ma_type : 0 <= m_type m < 2 ^ 16;
  ma_flags : 0 <= m_flags m < 2 ^ 16;
  ma_seq : 0 <= m_seq m < 2 ^ 32;
  ma_pid : 0 <= m_pid m < 2 ^ 32;
  ma_body : mem_bytes (m_body m);
}.

Lemma msg_at_parts mem p m : mem_at mem p (msg_bytes m) <->
  mem_at mem p (le_bytes 4 (msg_len m)) /\ mem_at mem (p + 4) (le_bytes 2 (m_type m)) /\
  mem_at mem (p + 6) (le_bytes 2 (m_flags m)) /\ mem_at mem (p + 8) (le_bytes 4 (m_seq m)) /\
  mem_at mem (p + 12) (le_bytes 4 (m_pid m)) /\ mem_at mem (p + 16) (m_body m).
Proof.
  unfold msg_bytes. rewrite !mem_at_app, !le_bytes_length. change (Z.of_nat 2) with 2. change (Z.of_nat 4) with 4.
  replace (p + 4 + 2) with (p + 6) by lia. replace (p + 6 + 2) with (p + 8) by lia.
  replace (p + 8 + 4) with (p + 12) by lia. replace (p + 12 + 4) with (p + 16) by lia. done.
Qed.

Section header.
Context (mem : list Z) (p : Z) (m : nlmsg) (H : msg_at mem p m).

Lemma msg_nh_len : nh_len mem p = Some (msg_len m).
Proof.
  destruct H as [Hat Hl _ _ _ _ _]. apply msg_at_parts in Hat as (H1 & _). apply load_at_small; [done|lia|].
  unfold msg_len in *. cbn. lia.
Qed.
Lemma msg_nh_type : nh_type mem p = Some (m_type m).
Proof. destruct H as [Hat _ ? _ _ _ _]. apply msg_at_parts in Hat as (_ & H1 & _). by apply load_at_small; [|lia|]. Qed.
Lemma msg_nh_flags : nh_flags mem p = Some (m_flags m).
Proof. destruct H as [Hat _ _ ? _ _ _]. apply msg_at_parts in Hat as (_ & _ & H1 & _). by apply load_at_small; [|lia|]. Qed.
Lemma msg_nh_seq : nh_seq mem p = Some (m_seq m).
Proof. destruct H as [Hat _ _ _ ? _ _]. apply msg_at_parts in Hat as (_ & _ & _ & H1 & _). by apply load_at_small; [|lia|]. Qed.
Lemma msg_nh_pid : nh_pid mem p = Some (m_pid m).
Proof. destruct H as [Hat _ _ _ _ ? _]. apply msg_at_parts in Hat as (_ & _ & _ & _ & H1 & _). by apply load_at_small; [|lia|]. Qed.

(** A number in the body. *)
Lemma msg_load k n : (0 < n)%nat -> (k + n <= length (m_body m))%nat ->
  load mem (NLMSG_DATA p + Z.of_nat k) n = Some (le_value (take n (drop k (m_body m)))).
Proof.
  intros Hn Hk. destruct H as [Hat _ _ _ _ _ _]. apply msg_at_parts in Hat as (_ & _ & _ & _ & _ & Hb).
  unfold NLMSG_DATA, NLMSG_HDRLEN. destruct (mem_at_bound _ _ _ Hb) as [? ?]; [by destruct (m_body m); cbn in *; [lia|]|].
  unfold load. rewrite decide_True by lia. by rewrite (mem_at_read mem (p + 16) (m_body m)).
Qed.

Lemma msg_body_at k : (k <= length (m_body m))%nat -> mem_at mem (NLMSG_DATA p + Z.of_nat k) (drop k (m_body m)).
Proof.
  intros Hk. destruct H as [Hat _ _ _ _ _ _]. apply msg_at_parts in Hat as (_ & _ & _ & _ & _ & Hb).
  by apply mem_at_drop.
Qed.
End header.

(** [messages mem p rem l]: the [rem] bytes at [p] are the messages [l] up to padding and a
    tail that is no message. *)
Inductive messages (mem : list Z) : Z -> Z -> list (Z * nlmsg) -> Prop :=
| messages_end p rem : rem < 16 -> messages mem p rem []
| messages_bad p rem len : 16 <= rem -> 0 <= len < 2 ^ 32 -> mem_at mem p (le_bytes 4 len) -> len < 16 \/ rem < len ->
    messages mem p rem []
| messages_msg p rem m l : msg_at mem p m -> msg_len m <= rem ->
    messages mem (p + align4 (msg_len m)) (rem - align4 (msg_len m)) l -> messages mem p rem ((p, m) :: l).

Lemma messages_total mem p rem : mem_bytes mem -> 0 <= p -> p + rem <= Z.of_nat (length mem) -> rem < 2 ^ 31 ->
  exists l, messages mem p rem l.
Proof.
  intros Hm. remember (Z.to_nat rem) as n eqn:Hn. revert p rem Hn.
  induction (lt_wf n) as [n _ IH]. intros p rem Hn Hp Hr H31.
  destruct (Z.ltb_spec rem 16) as [|H16]; [exists []; by constructor|].
  assert (forall k i, 0 <= k -> k + Z.of_nat i <= 16 -> exists v, 0 <= v < 256 ^ Z.of_nat i /\ mem_at mem (p + k) (le_bytes i v)) as Hf
    by (intros k i Hk Hi; apply mem_at_any_le; [done|lia|lia]).
  destruct (Hf 0 4%nat) as (len & Hlen & H1); [lia|lia|]. destruct (Hf 4 2%nat) as (ty & Hty & H2); [lia|lia|].
  destruct (Hf 6 2%nat) as (fl & Hfl & H3); [lia|lia|]. destruct (Hf 8 4%nat) as (sq & Hsq & H4); [lia|lia|].
  destruct (Hf 12 4%nat) as (pd & Hpd & H5); [lia|lia|]. rewrite Z.add_0_r in H1.
  destruct (decide (len < 16 \/ rem < len)) as [|Hok]; [exists []; by apply (messages_bad mem p rem len)|].
  destruct (mem_at_any mem (p + 16) (Z.to_nat (len - 16))) as (body & Hb & H6 & Hbb); [lia|lia|].
  set (m := Msg ty fl sq pd body). assert (msg_len m = len) as Ha by (unfold msg_len; subst m; cbn [m_body]; lia).
  assert (msg_at mem p m) as Hat.
  { constructor; cbn; try done; [apply msg_at_parts; by rewrite Ha|unfold msg_len in *; cbn; lia|auto]. }
  pose proof (align4_bounds len) as [Hal _]. destruct (decide (16 <= rem - align4 len)).
  - destruct (IH (Z.to_nat (rem - align4 len)) ltac:(lia) (p + align4 len) (rem - align4 len)) as [ls Hls]; [done|lia|lia|lia|].
    exists ((p, m) :: ls). constructor; rewrite ?Ha; try done; lia.
  - exists [(p, m)]. constructor; rewrite ?Ha; try done; [lia|]. constructor. lia.
Qed.

(** ** The receive loop, on messages *)

(** The number at offset [k] of a body. *)
Definition body_num (n k : nat) (m : nlmsg) : Z := le_value (take n (drop k (m_body m))).

(** An error message holds the errno and the header of the request; without NLM_F_CAPPED the
    request follows, before the extended attributes. *)
Definition error_ok (m : nlmsg) : Prop :=
  (20 <= length (m_body m))%nat /\
  (m_flags m &' NLM_F_ACK_TLVS <> 0 -> m_flags m &' NLM_F_CAPPED = 0 ->
   16 <= body_num 4 4 m <= Z.of_nat (length (m_body m)) - 4).

Lemma dump_errormsg_returns mem p m : msg_at mem p m -> error_ok m -> exists r, libbpf_nla_dump_errormsg mem p = Some (0, r).
Proof.
  intros H [H20 Herr]. unfold libbpf_nla_dump_errormsg. rewrite (msg_nh_flags mem p m H). cbn [mbind option_bind].
  destruct (Z.eqb_spec (m_flags m &' NLM_F_ACK_TLVS) 0) as [|Htlv]; [by eexists|].
  pose proof (ma_len _ _ _ H) as Hlen. unfold msg_len in Hlen.
  assert (exists hlen, (if m_flags m &' NLM_F_CAPPED =? 0 then l ← nlmsg_len mem (NLMSG_DATA p + 4); Some (s32 (sizeof_nlmsgerr + l))
            else Some sizeof_nlmsgerr) = Some hlen /\ 20 <= hlen <= Z.of_nat (length (m_body m))) as (hlen & -> & Hh).
  { destruct (Z.eqb_spec (m_flags m &' NLM_F_CAPPED) 0) as [Hc|]; [|exists 20; split; [done|lia]].
    specialize (Herr Htlv Hc). unfold nlmsg_len, nh_len. pose proof (msg_load mem p m H 4 4) as Hl. change (Z.of_nat 4) with 4 in Hl. rewrite Hl by lia.
    change (le_value _) with (body_num 4 4 m). cbn [mbind option_bind]. unfold sizeof_nlmsgerr, NLMSG_HDRLEN.
    rewrite (swrap_small 32 (body_num 4 4 m - 16)) by lia. eexists. split; [done|]. rewrite swrap_small by lia. lia. }
  cbn [mbind option_bind]. rewrite (msg_nh_len mem p m H). cbn [mbind option_bind].
  set (bs := drop (Z.to_nat hlen) (m_body m)).
  assert (s32 (p + msg_len m - (NLMSG_DATA p + hlen)) = Z.of_nat (length bs)) as ->.
  { unfold NLMSG_DATA, NLMSG_HDRLEN, msg_len. subst bs. rewrite length_drop. rewrite swrap_small; lia. }
  destruct (decode_stream mem (NLMSG_DATA p + hlen) bs) as (l & Hs & _).
  { replace hlen with (Z.of_nat (Z.to_nat hlen)) by lia. apply msg_body_at; [done|lia]. }
  { apply Forall_drop, H. }
  destruct (parse_spec mem (replicate 7 None) NLMSGERR_ATTR_MAX _ _ (Some extack_policy) l Hs) as (tb' & Hp & Hl & _);
    [unfold NLMSGERR_ATTR_MAX; cbn; lia| |].
  { split; [unfold NLMSGERR_ATTR_MAX; cbn; lia|]. repeat (apply Forall_cons_2; [unfold policy_entry_ok, LIBBPF_NLA_STRING, LIBBPF_NLA_U32; cbn; lia|]). apply Forall_nil_2. }
  rewrite Hp. cbn [mbind option_bind]. destruct (negb _); [by eexists|].
  destruct (zget_is_Some tb' NLMSGERR_ATTR_MSG) as [e ->]; [rewrite Hl; unfold NLMSGERR_ATTR_MSG; cbn; lia|]. by eexists.
Qed.

Section refinement.
Context {C : Type} (fn : option (list Z -> Z -> C -> option (Z * C))) (nl_pid seq : Z).
(** The callback on messages, and the messages it can be given. *)
Context (f : option (nlmsg -> C -> Z * C)) (good : nlmsg -> Prop).

Fixpoint run_msgs (l : list nlmsg) (multipart : bool) (c : C) : step * C :=
  match l with
  | [] => (LoopEnd multipart, c)
  | m :: l =>
    if negb (m_pid m =? nl_pid) then (GotoDone (- LIBBPF_ERRNO__WRNGPID), c)
    else if negb (m_seq m =? u32 seq) then (GotoDone (- LIBBPF_ERRNO__INVSEQ), c)
    else
      let multipart := multipart || negb (m_flags m &' NLM_F_MULTI =? 0) in
      if m_type m =? NLMSG_ERROR then
        if s32 (body_num 4 0 m) =? 0 then run_msgs l multipart c else (GotoDone (s32 (body_num 4 0 m)), c)
      else if m_type m =? NLMSG_DONE then (GotoDone 0, c)
      else
        match f with
        | None => run_msgs l multipart c
        | Some f =>
          let '(ret, c) := f m c in
          if ret =? NL_CONT then run_msgs l multipart c
          else if ret =? NL_NEXT then (GotoStart, c)
          else if ret =? NL_DONE then (GotoDone 0, c)
          else (GotoDone ret, c)
        end
  end.

Definition callback_ok : Prop :=
  match fn, f with
  | None, None => True
  | Some fn, Some f => forall mem p m c, msg_at mem p m -> good m -> fn mem p c = Some (f m c)
  | _, _ => False
  end.

Definition msg_good (m : nlmsg) : Prop :=
  (m_type m = NLMSG_ERROR -> error_ok m) /\ (m_type m <> NLMSG_ERROR -> m_type m <> NLMSG_DONE -> good m).

Lemma msg_loop_spec mem p rem l : callback_ok -> messages mem p rem l -> forall fuel multipart c,
  rem < 2 ^ 31 -> rem / 16 < Z.of_nat fuel -> (0 < fuel)%nat -> Forall (fun pm => msg_good pm.2) l ->
  msg_loop fn nl_pid seq fuel mem p rem multipart c = Some (run_msgs (map snd l) multipart c).
Proof.
  intros Hcb H. induction H as [p rem Hr|p rem len Hr Hlen Hat Hbad|p rem m l Hat Hle Hs IH]; intros fuel multipart c H31 Hfuel H0 Hg;
    (destruct fuel as [|fuel]; [lia|]); cbn [msg_loop map run_msgs].
  - unfold NLMSG_OK. by rewrite Z.geb_leb, (proj2 (Z.leb_gt _ _)) by lia.
  - unfold NLMSG_OK, nh_len. rewrite Z.geb_leb, (proj2 (Z.leb_le _ _)) by lia.
    rewrite (load_at_small mem p 4 len) by (done || lia). cbn [mbind option_bind]. rewrite (wrap_small 32 rem) by lia.
    replace ((len >=? 16) && (len <=? rem)) with false
      by (rewrite Z.geb_leb; destruct (Z.leb_spec 16 len), (Z.leb_spec len rem); try done; lia). done.
  - apply Forall_cons in Hg as [[Herr Hgood] Hg]. cbn [snd] in *.
    assert (16 <= msg_len m) as H16 by (unfold msg_len; lia). pose proof (align4_bounds (msg_len m)) as [Hal _].
    unfold NLMSG_OK, NLMSG_NEXT. rewrite (msg_nh_len mem p m Hat).
    rewrite Z.geb_leb, (proj2 (Z.leb_le 16 rem)) by lia. cbn [mbind option_bind]. rewrite (wrap_small 32 rem) by lia.
    rewrite Z.geb_leb, !(proj2 (Z.leb_le _ _)) by lia. cbn [andb negb].
    rewrite (msg_nh_pid mem p m Hat). cbn [mbind option_bind]. destruct (negb (m_pid m =? nl_pid)); [done|].
    rewrite (msg_nh_seq mem p m Hat). cbn [mbind option_bind]. destruct (negb (m_seq m =? u32 seq)); [done|].
    rewrite (msg_nh_flags mem p m Hat), (msg_nh_type mem p m Hat). cbn [mbind option_bind].
    rewrite NLMSG_ALIGN_eq by (pose proof (ma_len _ _ _ Hat); lia). rewrite (swrap_small 32 (rem - _)) by lia.
    assert (0 < fuel)%nat as Hf0 by (destruct fuel; [|lia]; Z.div_mod_to_equations; lia).
    assert ((rem - align4 (msg_len m)) / 16 < Z.of_nat fuel) as Hf by (Z.div_mod_to_equations; lia).
    assert (rem - align4 (msg_len m) < 2 ^ 31) as H31' by lia.
    pose proof (fun mp c => IH fuel mp c H31' Hf Hf0 Hg) as Hrec.
    destruct (Z.eqb_spec (m_type m) NLMSG_ERROR) as [E|Hne].
    + pose proof (msg_load mem p m Hat 0 4) as Hl. rewrite Z.add_0_r in Hl. destruct (Herr E) as [H20 _]. rewrite Hl by lia.
      change (le_value _) with (body_num 4 0 m). cbn [mbind option_bind].
      destruct (s32 (body_num 4 0 m) =? 0); [apply Hrec|].
      destruct (dump_errormsg_returns mem p m Hat (Herr E)) as [r ->]. done.
    + destruct (Z.eqb_spec (m_type m) NLMSG_DONE) as [|Hnd]; [done|]. unfold callback_ok in Hcb.
      destruct fn as [fn'|], f as [f'|]; try done.
      rewrite (Hcb mem p m c Hat (Hgood Hne Hnd)). cbn [mbind option_bind]. destruct (f' m c) as [ret c'].
      destruct (ret =? NL_CONT); [apply Hrec|]. by destruct (ret =? NL_NEXT), (ret =? NL_DONE).
Qed.

(** What arrives on the socket: a failure of recvmsg, a datagram that is seen but whose reception fails, or a datagram
    that holds messages. *)
Inductive arrival := Fails (errno : Z) | Lost (d : list Z) (errno : Z) | Dgram (d : list Z) (ms : list nlmsg).

(** [mem n]: a buffer of [n] bytes can be allocated. *)
Fixpoint run_arrivals (mem : Z -> bool) (cap : Z) (l : list arrival) (c : C) : outcome (Z * C) :=
  match l with
  | [] => Blocked
  | Fails errno :: _ => Returned (- errno, c)
  | Lost d errno :: _ => Returned (if (cap <? Z.of_nat (length d)) && negb (mem (Z.of_nat (length d))) then - ENOMEM else - errno, c)
  | Dgram d ms :: l =>
    let n := Z.of_nat (length d) in
    if (cap <? n) && negb (mem n) then Returned (- ENOMEM, c)
    else if n =? 0 then Returned (0, c)
    else
      match run_msgs ms false c with
      | (GotoDone ret, c) => Returned (ret, c)
      | (GotoStart, c) | (LoopEnd true, c) => run_arrivals mem (Z.max cap n) l c
      | (LoopEnd false, c) => Returned (0, c)
      end
  end.

Definition arrival_ok (a : arrival) : Prop :=
  match a with
  | Fails errno => 0 < errno /\ errno <> EINTR /\ errno <> EAGAIN
  | Lost d errno => Z.of_nat (length d) < 2 ^ 31 /\ 0 < errno /\ errno <> EINTR /\ errno <> EAGAIN
  | Dgram d ms => Z.of_nat (length d) < 2 ^ 31 /\
    exists l, messages d 0 (Z.of_nat (length d)) l /\ map snd l = ms /\ Forall (fun pm => msg_good pm.2) l
  end.
End refinement.

(** Every datagram is peeked at and then read; interrupted calls are repeated. *)
Definition transient (a : answer) : Prop := match a with AErr e => e = EINTR \/ e = EAGAIN | AData _ => False end.
#[export] Instance transient_dec a : Decision (transient a).
Proof. destruct a; cbn; apply _. Defined.

Definition answers_of (a : arrival) : list answer :=
  match a with Fails errno => [AErr errno] | Lost d errno => [AData d; AErr errno] | Dgram d _ => [AData d; AData d] end.
Definition transcript (answers : list answer) (l : list arrival) : Prop :=
  filter (fun a => ~ transient a) answers = concat (map answers_of l).

Definition recv_result (a : answer) (iov : list Z) (trunc : bool) : Z * list Z :=
  match a with
  | AErr errno => (- errno, iov)
  | AData d =>
    let n := Nat.min (length d) (length iov) in
    (s32 (Z.of_nat (if trunc then length d else n)), take n d ++ drop n iov)
  end.

Lemma recvmsg_blocks a iov trunc : filter (fun a => ~ transient a) a = [] -> netlink_recvmsg a iov trunc = None.
Proof.
  induction a as [|x a IH]; [done|]. destruct (decide (transient x)) as [Ht|Ht].
  - rewrite filter_cons_False by tauto. intros H. destruct x as [e|]; [|done]. cbn [netlink_recvmsg].
    replace ((e =? EINTR) || (e =? EAGAIN)) with true by (destruct Ht as [-> | ->]; done). by apply IH.
  - by rewrite filter_cons_True.
Qed.

Lemma recvmsg_next a x rest iov trunc : filter (fun a => ~ transient a) a = x :: rest ->
  exists a', filter (fun a => ~ transient a) a' = rest /\ (length a' < length a)%nat /\
    netlink_recvmsg a iov trunc = Some (recv_result x iov trunc, a').
Proof.
  induction a as [|y a IH]; [done|]. destruct (decide (transient y)) as [Ht|Ht].
  - rewrite filter_cons_False by tauto. intros H. destruct y as [e|]; [|done]. cbn [netlink_recvmsg].
    replace ((e =? EINTR) || (e =? EAGAIN)) with true by (destruct Ht as [-> | ->]; done).
    destruct (IH H) as (a' & ? & ? & ->). exists a'. cbn. split; [done|]. split; [lia|done].
  - rewrite filter_cons_True by done. intros E. injection E as -> Hr. exists a. split; [done|]. split; [cbn; lia|].
    destruct x as [e|d]; cbn [netlink_recvmsg recv_result]; [|done].
    replace ((e =? EINTR) || (e =? EAGAIN)) with false; [done|]. symmetry. cbn in Ht.
    destruct (Z.eqb_spec e EINTR), (Z.eqb_spec e EAGAIN); try done; tauto.
Qed.

Lemma msg_at_prefix mem d q m : mem_at mem 0 d -> msg_at d q m -> msg_at mem q m.
Proof.
  intros H []. constructor; try done. apply (mem_at_sub mem 0 d q (msg_bytes m)); [done|done|].
  intros E. apply (f_equal length) in E. unfold msg_bytes in E. rewrite !length_app, !le_bytes_length in E. cbn in E. lia.
Qed.

Lemma messages_prefix mem d q rem l : mem_at mem 0 d -> messages d q rem l -> messages mem q rem l.
Proof.
  intros H. induction 1 as [q rem Hr|q rem len Hr Hlen Hat Hbad|q rem m l Hat Hle Hs IH].
  - by constructor.
  - apply (messages_bad mem q rem len); try done. by apply (mem_at_sub mem 0 d q).
  - constructor; try done. by apply (msg_at_prefix mem d).
Qed.

Section recv_refinement.
Context {C : Type} (fn : option (list Z -> Z -> C -> option (Z * C))) (nl_pid seq : Z).
Context (f : option (nlmsg -> C -> Z * C)) (good : nlmsg -> Prop) (Hcb : callback_ok fn f good).

Definition has_mem (realloc : Z -> option (Z -> Z)) (n : Z) : bool := match realloc n with Some _ => true | None => false end.

(** Reading a datagram after a peek, with the buffer grown if needed. *)
Lemma read_datagram realloc iov d : Z.of_nat (length d) < 2 ^ 31 ->
  let n := Z.of_nat (length d) in
  let '(len, iov1) := recv_result (AData d) iov true in
  len = n /\ length iov1 = length iov /\
  let '(err, iov2) := if len >? Z.of_nat (length iov1) then alloc_iov realloc iov1 len else (0, iov1) in
  if (Z.of_nat (length iov) <? n) && negb (has_mem realloc n) then err = - ENOMEM
  else err = 0 /\ Z.of_nat (length iov2) = Z.max (Z.of_nat (length iov)) n /\
    let '(len', iov3) := recv_result (AData d) iov2 false in
    len' = n /\ mem_at iov3 0 d /\ Z.of_nat (length iov3) = Z.max (Z.of_nat (length iov)) n.
Proof.
  intros Hd n. cbn [recv_result]. rewrite (swrap_small 32) by lia. split; [done|].
  set (iov1 := take _ d ++ _). assert (length iov1 = length iov) as H1 by (subst iov1; rewrite length_app, length_take, length_drop; lia).
  split; [done|]. rewrite H1. fold n. rewrite Z.gtb_ltb.
  assert (forall iov2, Z.of_nat (length iov2) = Z.max (Z.of_nat (length iov)) n ->
    let '(len', iov3) := recv_result (AData d) iov2 false in
    len' = n /\ mem_at iov3 0 d /\ Z.of_nat (length iov3) = Z.max (Z.of_nat (length iov)) n) as Hread.
  { intros iov2 H3. cbn [recv_result]. rewrite Nat.min_l by lia. rewrite (swrap_small 32) by lia. split; [done|].
    rewrite firstn_all. split; [split; [lia|]; change (Z.to_nat 0) with 0%nat; by rewrite drop_0, take_app_length|]. rewrite length_app, length_drop. lia. }
  destruct (Z.ltb_spec (Z.of_nat (length iov)) n) as [Hlt|Hge]; cbn [andb].
  - unfold alloc_iov, has_mem. destruct (realloc n) as [fresh|]; cbn [negb]; [|done]. split; [done|].
    set (iov2 := take _ _ ++ _). assert (Z.of_nat (length iov2) = Z.max (Z.of_nat (length iov)) n) as H2
      by (subst iov2; rewrite length_app, length_take, length_map, length_seqZ; lia).
    split; [done|]. by apply Hread.
  - split; [done|]. split; [lia|]. apply Hread; lia.
Qed.

Lemma recv_loop_spec realloc l : Forall (arrival_ok good) l -> forall fuel answers iov c,
  transcript answers l -> (length answers < fuel)%nat ->
  recv_loop fn nl_pid seq fuel realloc answers iov c = Some (run_arrivals nl_pid seq f (has_mem realloc) (Z.of_nat (length iov)) l c).
Proof.
  induction l as [|a l IH]; intros Hok fuel answers iov c Ht Hf; (destruct fuel as [|fuel]; [lia|]); cbn [recv_loop run_arrivals].
  - by rewrite recvmsg_blocks.
  - apply Forall_cons in Hok as [Ha Hok]. unfold transcript in Ht. cbn [map concat] in Ht. destruct a as [e|d e|d ms]; cbn [answers_of app] in Ht.
    + destruct (recvmsg_next _ _ _ iov true Ht) as (a' & _ & _ & ->). cbn [recv_result]. destruct Ha as [He _].
      by rewrite (proj2 (Z.ltb_lt _ _)) by lia.
    + destruct Ha as (Hd & He & _). destruct (recvmsg_next _ _ _ iov true Ht) as (a1 & Ht1 & _ & ->).
      pose proof (read_datagram realloc iov d Hd) as Hread. destruct (recv_result (AData d) iov true) as [len iov1].
      destruct Hread as (-> & Hi1 & Hread). rewrite (proj2 (Z.ltb_ge _ _)) by lia. cbn zeta.
      destruct (if _ >? _ then _ else _) as [err iov2]. destruct ((_ <? _) && _); [by subst err|]. destruct Hread as [-> _].
      cbn [Z.eqb negb]. destruct (recvmsg_next _ _ _ iov2 false Ht1) as (a2 & _ & _ & ->). cbn [recv_result].
      by rewrite (proj2 (Z.ltb_lt _ _)) by lia.
    + destruct Ha as (Hd & ml & Hml & Hms & Hg). destruct (recvmsg_next _ _ _ iov true Ht) as (a1 & Ht1 & Hl1 & ->).
      pose proof (read_datagram realloc iov d Hd) as Hread. destruct (recv_result (AData d) iov true) as [len iov1].
      destruct Hread as (-> & Hi1 & Hread). rewrite (proj2 (Z.ltb_ge _ _)) by lia. cbn zeta.
      destruct (if _ >? _ then _ else _) as [err iov2]. destruct ((_ <? _) && _); [by subst err|]. destruct Hread as (-> & _ & Hread).
      cbn [Z.eqb negb]. destruct (recvmsg_next _ _ _ iov2 false Ht1) as (a2 & Ht2 & Hl2 & ->).
      destruct (recv_result (AData d) iov2 false) as [len' iov3]. destruct Hread as (-> & Hm & Hcap).
      rewrite (proj2 (Z.ltb_ge _ _)) by lia. destruct (Z.eqb_spec (Z.of_nat (length d)) 0) as [|Hne]; [done|].
      rewrite (msg_loop_spec fn nl_pid seq f good iov3 0 (Z.of_nat (length d)) ml Hcb) by
        first [done | by apply (messages_prefix iov3 d) | lia | rewrite Nat2Z.inj_succ, Z2Nat.id by (apply Z.div_pos; lia); lia].
      cbn [mbind option_bind]. rewrite Hms. destruct (run_msgs nl_pid seq f ms false c) as [s c'].
      assert (recv_loop fn nl_pid seq fuel realloc a2 iov3 c' =
        Some (run_arrivals nl_pid seq f (has_mem realloc) (Z.max (Z.of_nat (length iov)) (Z.of_nat (length d))) l c')) as Hrec
        by (rewrite <- Hcap; apply IH; [done|done|lia]).
      by destruct s as [| |[]].
Qed.

Lemma netlink_recv_spec realloc answers l c : Forall (arrival_ok good) l -> transcript answers l ->
  libbpf_netlink_recv fn nl_pid seq realloc answers c =
    Some (if has_mem realloc 4096 then run_arrivals nl_pid seq f (has_mem realloc) 4096 l c else Returned (- ENOMEM, c)).
Proof.
  intros Hok Ht. unfold libbpf_netlink_recv, alloc_iov, has_mem at 1. destruct (realloc 4096) as [fresh|]; [|done]. cbn [Z.eqb negb].
  rewrite (recv_loop_spec realloc l) by (done || lia). do 2 f_equal.
Qed.
End recv_refinement.

(** C36. [libbpf_netlink_recv] refines the conversation on messages [run_arrivals]: for every
    sequence of datagrams and failures (of the call that looks at a datagram and of the one that
    takes it), interrupted calls included, with less than 2^31 bytes in a datagram, whatever the allocated buffers hold, with any contents
    that are sequences of messages, and any callback that agrees with a function on messages, it
    terminates without reading outside the datagrams and returns what the conversation gives:
    the first non-zero error, the end of the dump, the decision of the callback, or the error
    for a failed call, a wrong sender, a wrong sequence number or a failed allocation.  The error
    messages are assumed to hold what [error_ok] says, their error code and the header of the
    request with a length that fits (the code reads them without a check, see
    [short_error_reads_stale]). *)
Theorem netlink_recv_refines {C} (fn : option (list Z -> Z -> C -> option (Z * C))) f good nl_pid seq realloc answers l c :
  callback_ok fn f good -> Forall (arrival_ok good) l -> transcript answers l ->
  libbpf_netlink_recv fn nl_pid seq realloc answers c =
    Some (if has_mem realloc 4096 then run_arrivals nl_pid seq f (has_mem realloc) 4096 l c else Returned (- ENOMEM, c)).
Proof. intros. by apply (netlink_recv_spec fn nl_pid seq f good). Qed.

(** ** Datagrams of messages *)
Definition msg_ok (m : nlmsg) : Prop :=
  msg_len m < 2 ^ 31 /\ 0 <= m_type m < 2 ^ 16 /\ 0 <= m_flags m < 2 ^ 16 /\ 0 <= m_seq m < 2 ^ 32 /\
  0 <= m_pid m < 2 ^ 32 /\ mem_bytes (m_body m).

Definition padded (m : nlmsg) : list Z := msg_bytes m ++ replicate (Z.to_nat (align4 (msg_len m) - msg_len m)) 0.
Definition pack (ms : list nlmsg) : list Z := concat (map padded ms).

Lemma msg_bytes_length m : Z.of_nat (length (msg_bytes m)) = msg_len m.
Proof. unfold msg_bytes, msg_len. rewrite !length_app, !le_bytes_length. lia. Qed.

Lemma padded_length m : Z.of_nat (length (padded m)) = align4 (msg_len m).
Proof.
  unfold padded. rewrite length_app, length_replicate. pose proof (msg_bytes_length m). pose proof (align4_bounds (msg_len m)). lia.
Qed.

Lemma messages_pack ms : Forall msg_ok ms -> forall mem p, mem_at mem p (pack ms) ->
  exists l, messages mem p (Z.of_nat (length (pack ms))) l /\ map snd l = ms.
Proof.
  induction 1 as [|m ms (H1 & H2 & H3 & H4 & H5 & H6) Hok IH]; intros mem p Hat.
  - exists []. split; [constructor; cbn; lia|done].
  - change (pack (m :: ms)) with (padded m ++ pack ms) in *. apply mem_at_app in Hat as [Hm Hrest].
    rewrite padded_length in Hrest. destruct (IH mem _ Hrest) as (l & Hl & E). exists ((p, m) :: l).
    split; [|cbn; by rewrite E]. rewrite length_app, Nat2Z.inj_add, padded_length.
    pose proof (align4_bounds (msg_len m)). constructor; [|lia|].
    + constructor; try done. unfold padded in Hm. by apply mem_at_app in Hm as [? _].
    + by replace (align4 (msg_len m) + Z.of_nat (length (pack ms)) - align4 (msg_len m)) with (Z.of_nat (length (pack ms))) by lia.
Qed.

Lemma arrival_pack good ms : Forall msg_ok ms -> Forall (msg_good good) ms -> Z.of_nat (length (pack ms)) < 2 ^ 31 ->
  arrival_ok good (Dgram (pack ms) ms).
Proof.
  intros Hok Hg Hl. split; [done|]. destruct (messages_pack ms Hok (pack ms) 0 (mem_at_all _)) as (l & Hs & E).
  exists l. split; [done|]. split; [done|]. rewrite <- E in Hg. by apply (proj1 (List.Forall_map snd _ l)).
Qed.

(** An acknowledgement: an error message with the errno and the header of the request. *)
Definition ack (seq pid err : Z) : nlmsg := Msg NLMSG_ERROR 0x100 seq pid (le_bytes 4 err ++ replicate 16 0).

Lemma ack_ok good seq pid err : 0 <= seq < 2 ^ 32 -> 0 <= pid < 2 ^ 32 ->
  msg_ok (ack seq pid err) /\ msg_good good (ack seq pid err).
Proof.
  intros Hs Hp. split.
  - unfold msg_ok, ack, msg_len, NLMSG_ERROR. cbn [m_type m_flags m_seq m_pid m_body].
    rewrite length_app, le_bytes_length, length_replicate. repeat split; try lia.
    apply Forall_app; split; [apply le_bytes_range|]. apply Forall_replicate. lia.
  - split; [|done]. intros _. split; [cbn; lia|]. done.
Qed.

Lemma ack_error seq pid err : - 2 ^ 31 <= err < 2 ^ 31 -> s32 (body_num 4 0 (ack seq pid err)) = err.
Proof.
  intros He. unfold body_num, ack. cbn [m_body]. rewrite drop_0.
  change 4%nat with (length (le_bytes 4 err)) at 1. rewrite take_app_length, le_value_bytes.
  change (256 ^ Z.of_nat 4) with (2 ^ 32). change (err mod 2 ^ 32) with (u32 err).
  unfold swrap, wrap. rewrite Zplus_mod_idemp_l. rewrite Z.mod_small; lia.
Qed.

Lemma netlink_recv_refines_witness :
  libbpf_netlink_recv (C := unit) None 7 5 (fun _ => Some (fun i => i)) [AErr EINTR; AData (pack [ack 5 7 (-22)]); AErr EAGAIN; AData (pack [ack 5 7 (-22)])] tt
  = Some (Returned (-22, tt)) /\
  libbpf_netlink_recv (C := unit) None 7 5 (fun _ => Some (fun i => i)) [AData (pack [ack 5 7 0]); AErr 105] tt = Some (Returned (-105, tt)).
Proof.
  split.
  - apply (netlink_recv_refines (C := unit) None None (fun _ => True) 7 5 (fun _ => Some (fun i => i)) _ [Dgram (pack [ack 5 7 (-22)]) [ack 5 7 (-22)]] tt).
    + done.
    + constructor; [|constructor]. destruct (ack_ok (fun _ => True) 5 7 (-22)) as [H1 H2]; [lia|lia|].
      apply arrival_pack; [by apply Forall_singleton|by apply Forall_singleton|]. reflexivity.
    + done.
  - apply (netlink_recv_refines (C := unit) None None (fun _ => True) 7 5 (fun _ => Some (fun i => i)) _ [Lost (pack [ack 5 7 0]) 105] tt).
    + done.
    + constructor; [|constructor]. split; [reflexivity|]. unfold EINTR, EAGAIN. lia.
    + done.
Defined.

(** An error message that is too short for its error code: [libbpf_netlink_recv] reads the code behind the datagram and
    returns what the buffer held there. *)
Definition short_error : list Z := msg_bytes (Msg NLMSG_ERROR 0 5 7 []).
Theorem short_error_reads_stale : length short_error = 16%nat /\
  libbpf_netlink_recv (C := unit) None 7 5 (fun _ => Some (fun _ => 0)) [AData short_error; AData short_error] tt = Some (Returned (0, tt)) /\
  libbpf_netlink_recv (C := unit) None 7 5 (fun _ => Some (fun _ => 255)) [AData short_error; AData short_error] tt = Some (Returned (-1, tt)).
Proof. split_and!; vm_compute; reflexivity. Qed.

(** ** A conversation that reaches the kernel *)
Definition env_ok (e : nl_env) : Prop :=
  0 <= e_socket e /\ 0 <= e_bind e /\ 0 <= e_getsockname e /\ e_addrlen e = sizeof_sockaddr_nl /\ 0 <= e_send e /\
  0 <= e_nl_pid e < 2 ^ 32 /\ has_mem (e_realloc e) 4096 = true.

(** The request with the fields of the header that [libbpf_netlink_send_recv] fills in. *)
Definition stamped (e : nl_env) (req : list Z) : list Z := take 8 req ++ le_bytes 4 (e_time e) ++ le_bytes 4 0 ++ drop 16 req.

Lemma stamp_stores e req : (16 <= length req)%nat ->
  exists r1, store req 12 (le_bytes 4 0) = Some r1 /\ store r1 8 (le_bytes 4 (e_time e)) = Some (stamped e req).
Proof.
  intros Hl. unfold store at 1. rewrite le_bytes_length. rewrite decide_True by lia. eexists. split; [done|].
  unfold store. rewrite le_bytes_length. rewrite decide_True by (rewrite !length_app, length_take, length_drop, le_bytes_length; lia).
  f_equal. unfold stamped. change (Z.to_nat 12) with 12%nat. change (Z.to_nat 8) with 8%nat. cbn [Nat.add].
  rewrite take_app_le by (rewrite length_take; lia). rewrite take_take. change (8 `min` 12)%nat with 8%nat. f_equal. f_equal.
  rewrite drop_app_length' by (rewrite length_take; lia). done.
Qed.

Lemma send_recv_spec {C} e req L (fn : option (list Z -> Z -> C -> option (Z * C))) f good l c :
  env_ok e -> (16 <= length req)%nat -> mem_at req 0 (le_bytes 4 L) -> 0 <= L <= Z.of_nat (length req) -> L < 2 ^ 32 ->
  callback_ok fn f good -> Forall (arrival_ok good) l -> transcript (e_answers e) l ->
  libbpf_netlink_send_recv e req fn c =
    let sent := take (Z.to_nat L) (stamped e req) in
    Some (match run_arrivals (e_nl_pid e) (e_time e) f (has_mem (e_realloc e)) 4096 l c with
          | Blocked => (Blocked, [EvSocket (e_socket e); EvSend (e_socket e) sent])
          | Returned x => (Returned x, [EvSocket (e_socket e); EvSend (e_socket e) sent; EvClose (e_socket e)])
          end).
Proof.
  intros (E1 & E2 & E3 & E4 & E5 & E6 & E7) Hlen Hat HL HL32 Hcb Hok Ht. unfold libbpf_netlink_send_recv, libbpf_netlink_open.
  rewrite !(proj2 (Z.ltb_ge _ 0)) by done. rewrite E4. cbn [Z.eqb sizeof_sockaddr_nl Pos.eqb negb].
  rewrite (proj2 (Z.ltb_ge _ 0)) by done. destruct (stamp_stores e req Hlen) as (r1 & -> & Hst). cbn [mbind option_bind]. rewrite Hst.
  cbn [mbind option_bind]. assert (length (stamped e req) = length req) as Hls
    by (unfold stamped; rewrite !length_app, !le_bytes_length, length_take, length_drop; lia).
  assert (nh_len (stamped e req) 0 = Some L) as ->.
  { apply load_at_small; [|lia|cbn; lia]. destruct Hat as [_ Hat]. split; [lia|].
    rewrite le_bytes_length in *. change (Z.to_nat 0) with 0%nat in *. rewrite drop_0 in *. unfold stamped.
    rewrite take_app_le by (rewrite length_take; lia). by rewrite take_take. }
  cbn [mbind option_bind]. rewrite Hls. rewrite decide_True by lia. cbn [mbind option_bind].
  assert (nh_seq (stamped e req) 0 = Some (u32 (e_time e))) as ->.
  { unfold nh_seq. rewrite (load_at _ _ _ (e_time e)); [done| |lia]. split; [lia|]. rewrite le_bytes_length. unfold stamped.
    change (Z.to_nat (0 + 8)) with 8%nat. rewrite drop_app_length' by (rewrite length_take; lia).
    change 4%nat with (length (le_bytes 4 (e_time e))) at 1. by rewrite take_app_length. }
  cbn [mbind option_bind]. rewrite (netlink_recv_spec fn _ _ f good Hcb _ _ l) by done. rewrite E7. cbn [mbind option_bind app].
  replace (run_arrivals (e_nl_pid e) (s32 (u32 (e_time e))) f (has_mem (e_realloc e)) 4096 l c) with
    (run_arrivals (e_nl_pid e) (e_time e) f (has_mem (e_realloc e)) 4096 l c); [by destruct (run_arrivals _ _ _ _ _ _ _)|].
  generalize 4096. revert c. clear. induction l as [|[|d err|d ms] l IH]; intros c cap; cbn [run_arrivals]; try done.
  assert (forall ms mp c, run_msgs (e_nl_pid e) (e_time e) f ms mp c = run_msgs (e_nl_pid e) (s32 (u32 (e_time e))) f ms mp c) as Hm.
  { clear. induction ms as [|m ms IH]; intros mp c; [done|]. cbn [run_msgs]. rewrite wrap_swrap by lia. rewrite wrap_wrap.
    repeat (case_match; try done); try apply IH. }
  rewrite Hm. repeat (case_match; try done); apply IH.
Qed.
