(* ===== verification/NetlinkApi.v ===== *)
(** * XDP and TC over netlink

    What the functions of netlink.c that applications call send and report: the message that
    attaches an XDP program, the program a dump of the links reports for a mode, the filter
    request of a TC program, and the use of the socket on every path. *)
From Stdlib Require Import ZArith Lia.
From stdpp Require Import base numbers list.
From S2P Require Import Prelude Nlattr Netlink NetlinkSpec.

(** ** XDP: the request *)
Definition xdp_attrs (fd old_fd flags : Z) : list attr :=
  Attr IFLA_XDP_FD (le_bytes 4 fd) ::
  (if flags =? 0 then [] else [Attr IFLA_XDP_FLAGS (le_bytes 4 flags)]) ++
  (if flags &' XDP_FLAGS_REPLACE =? 0 then [] else [Attr IFLA_XDP_EXPECTED_FD (le_bytes 4 old_fd)]).

(** The message that sets the program of an interface: the ifinfomsg with the index, and the
    attributes nested in IFLA_XDP. *)
Definition xdp_set_message (seq ifindex fd old_fd flags : Z) : nlmsg :=
  Msg RTM_SETLINK (NLM_F_REQUEST |' NLM_F_ACK) seq 0
    (replicate 4 0 ++ le_bytes 4 ifindex ++ replicate 8 0 ++
     attr_bytes (Attr (IFLA_XDP |' NLA_F_NESTED) (concat (map attr_bytes (xdp_attrs fd old_fd flags))))).

Lemma list4 (l : list Z) : length l = 4%nat -> exists a b c d, l = [a; b; c; d].
Proof. destruct l as [|a [|b [|c [|d [|]]]]]; try done. intros _. by exists a, b, c, d. Qed.

Lemma xdp_request_bytes ifindex fd old_fd flags e : exists req,
  xdp_set_request ifindex fd old_fd flags = Some (0, req) /\ (16 <= length req)%nat /\
  let m := xdp_set_message (e_time e) ifindex fd old_fd flags in
  mem_at req 0 (le_bytes 4 (msg_len m)) /\ 0 <= msg_len m <= Z.of_nat (length req) /\ msg_len m < 2 ^ 32 /\
  take (Z.to_nat (msg_len m)) (stamped e req) = msg_bytes m.
Proof.
  exists (match xdp_set_request ifindex fd old_fd flags with Some (_, req) => req | None => [] end).
  unfold xdp_set_request, xdp_set_message, stamped, xdp_attrs, set_u32, msg_bytes. cbn [m_type m_flags m_seq m_pid m_body].
  destruct (list4 (le_bytes 4 ifindex)) as (i1 & i2 & i3 & i4 & ->); [apply le_bytes_length|].
  destruct (list4 (le_bytes 4 fd)) as (f1 & f2 & f3 & f4 & ->); [apply le_bytes_length|].
  destruct (list4 (le_bytes 4 old_fd)) as (o1 & o2 & o3 & o4 & ->); [apply le_bytes_length|].
  destruct (list4 (le_bytes 4 flags)) as (g1 & g2 & g3 & g4 & ->); [apply le_bytes_length|].
  destruct (list4 (le_bytes 4 (e_time e))) as (t1 & t2 & t3 & t4 & ->); [apply le_bytes_length|].
  destruct (flags =? 0), (flags &' XDP_FLAGS_REPLACE =? 0); cbn [negb].
  all: vm_compute; repeat split; try lia; try done.
Qed.

(** The acknowledgement ends the conversation with its error code. *)
Definition acked (e : nl_env) (err : Z) : Prop :=
  transcript (e_answers e) [Dgram (pack [ack (u32 (e_time e)) (e_nl_pid e) err]) [ack (u32 (e_time e)) (e_nl_pid e) err]].

Lemma run_ack {C} pid t (f : option (nlmsg -> C -> Z * C)) realloc cap d err c : - 2 ^ 31 <= err < 2 ^ 31 -> d <> [] ->
  Z.of_nat (length d) <= cap ->
  run_arrivals pid t f realloc cap [Dgram d [ack (u32 t) pid err]] c = Returned (err, c).
Proof.
  intros He Hd Hc. cbn [run_arrivals run_msgs]. rewrite (proj2 (Z.ltb_ge _ _)) by done. cbn [andb].
  rewrite (proj2 (Z.eqb_neq _ 0)) by (destruct d; [done|cbn; lia]).
  change (m_pid (ack (u32 t) pid err)) with pid. change (m_seq (ack (u32 t) pid err)) with (u32 t). rewrite !Z.eqb_refl. cbn [negb].
  change (m_type (ack (u32 t) pid err) =? NLMSG_ERROR) with true. cbn iota. rewrite ack_error by done.
  destruct (Z.eqb_spec err 0) as [->|]; done.
Qed.

Lemma ack_length seq pid err : length (pack [ack seq pid err]) = 36%nat.
Proof.
  unfold pack, padded, ack, msg_bytes, msg_len. cbn [map concat m_body m_type m_flags m_seq m_pid].
  rewrite !length_app, !le_bytes_length, !length_replicate. done.
Qed.

Lemma send_recv_acked {C} e req L (fn : option (list Z -> Z -> C -> option (Z * C))) f good err c :
  env_ok e -> (16 <= length req)%nat -> mem_at req 0 (le_bytes 4 L) -> 0 <= L <= Z.of_nat (length req) -> L < 2 ^ 32 ->
  callback_ok fn f good -> acked e err -> - 2 ^ 31 <= err < 2 ^ 31 ->
  libbpf_netlink_send_recv e req fn c =
    Some (Returned (err, c), [EvSocket (e_socket e); EvSend (e_socket e) (take (Z.to_nat L) (stamped e req)); EvClose (e_socket e)]).
Proof.
  intros He ? ? ? ? Hcb Ha Herr. pose proof (wrap_range 32 (e_time e) ltac:(lia)) as Ht.
  destruct (ack_ok good (u32 (e_time e)) (e_nl_pid e) err) as [Hk1 Hk2]; [done|apply He|].
  pose proof (ack_length (u32 (e_time e)) (e_nl_pid e) err) as Hl.
  rewrite (send_recv_spec e req L fn f good [Dgram (pack [ack (u32 (e_time e)) (e_nl_pid e) err]) [ack (u32 (e_time e)) (e_nl_pid e) err]] c);
    try done.
  2: { constructor; [|constructor]. apply arrival_pack; [by apply Forall_singleton|by apply Forall_singleton|]. rewrite Hl. done. }
  rewrite run_ack; [done|done|intros E; by rewrite E in Hl|rewrite Hl; lia].
Qed.

(** The descriptor of the program to be replaced and the flags of [bpf_xdp_attach]. *)
Definition attach_args (flags : Z) (opts : option bpf_xdp_attach_opts) : Z * Z :=
  match opts with
  | Some o => if (12 <=? xa_sz o) && negb (xa_old_prog_fd o =? 0) then (xa_old_prog_fd o, flags |' XDP_FLAGS_REPLACE) else (-1, flags)
  | None => (-1, flags)
  end.

(** [bpf_xdp_attach] with valid options opens one socket, sends exactly one message, the
    RTM_SETLINK of [xdp_set_message] with the given index, descriptor and flags (and the
    descriptor to be replaced when the options name one), returns the error code of the
    kernel's acknowledgement and closes the socket. *)
Theorem xdp_attach_sends e ifindex fd flags opts err :
  env_ok e -> acked e err -> - 2 ^ 31 <= err < 2 ^ 31 ->
  match opts with Some o => libbpf_validate_opts (xa_tail o) 12 (xa_sz o) = true | None => True end ->
  let '(old_fd, flags') := attach_args flags opts in
  bpf_xdp_attach e ifindex fd flags opts =
    Some (Returned err, [EvSocket (e_socket e); EvSend (e_socket e) (msg_bytes (xdp_set_message (e_time e) ifindex fd old_fd flags'));
                         EvClose (e_socket e)]).
Proof.
  intros He Ha Herr Hv.
  assert (forall old_fd flags', bpf_set_link_xdp_fd_replace e ifindex fd old_fd flags' =
    Some (Returned err, [EvSocket (e_socket e); EvSend (e_socket e) (msg_bytes (xdp_set_message (e_time e) ifindex fd old_fd flags'));
                         EvClose (e_socket e)])) as Hset.
  { intros old_fd flags'. unfold bpf_set_link_xdp_fd_replace.
    destruct (xdp_request_bytes ifindex fd old_fd flags' e) as (req & -> & Hl & Hm & HL & HL32 & <-). cbn [mbind option_bind].
    rewrite (proj2 (Z.ltb_ge 0 0)) by done. by erewrite (send_recv_acked e req _ None None (fun _ => True) err). }
  unfold bpf_xdp_attach, attach_args, OPTS_GET, OPTS_HAS. destruct opts as [o|]; [|apply Hset]. rewrite Hv. cbn [negb].
  rewrite Z.geb_leb. destruct (12 <=? xa_sz o); cbn [andb]; [|apply Hset].
  destruct (xa_old_prog_fd o =? 0); cbn [negb]; apply Hset.
Qed.

Definition demo_env (answers : list answer) : nl_env := NlEnv 3 0 0 12 77 1000 44 answers (fun _ => Some (fun i => i mod 256)).

Lemma xdp_attach_sends_witness :
  bpf_xdp_attach (demo_env [AData (pack [ack 1000 77 (-16)]); AData (pack [ack 1000 77 (-16)])]) 2 9 4 None =
    Some (Returned (-16), [EvSocket 3; EvSend 3 (msg_bytes (xdp_set_message 1000 2 9 (-1) 4)); EvClose 3]).
Proof.
  apply (xdp_attach_sends (demo_env [AData (pack [ack 1000 77 (-16)]); AData (pack [ack 1000 77 (-16)])]) 2 9 4 None (-16)).
  - repeat split; cbn; lia.
  - reflexivity.
  - lia.
  - exact I.
Defined.

(** ** XDP: the replies *)

(** The payloads of decoded attributes are bytes of what was decoded. *)
Lemma decode_loop_bytes fuel : forall bs, mem_bytes bs -> Forall (fun a => mem_bytes (at_data a)) (decode_loop fuel bs).
Proof.
  induction fuel as [|fuel IH]; intros bs Hb; cbn [decode_loop]; [constructor|].
  destruct (_ <? _); [constructor|]. cbn zeta. destruct (_ || _); [constructor|].
  constructor; [by apply Forall_take, Forall_drop|]. apply IH. by apply Forall_drop.
Qed.

Lemma find_attr_bytes t bs a : mem_bytes bs -> find_attr t (decode bs) = Some a -> mem_bytes (at_data a).
Proof.
  intros Hb H. apply last_Some_elem_of, list_elem_of_filter in H as [_ H].
  pose proof (decode_loop_bytes (S (length bs)) bs Hb) as Hf. rewrite Forall_forall in Hf. by apply Hf.
Qed.

(** The attribute of type [t], or a previous value. *)
Definition num_or (x : list attr) (t old : Z) : Z := match find_attr t x with Some a => attr_num 4 a | None => old end.

(** What a link message tells about the interface, on its attributes. *)
Definition link_update (m : nlmsg) (md : xdp_id_md) : Z * xdp_id_md :=
  if negb (id_ifindex md =? 0) && negb (id_ifindex md =? s32 (body_num 4 4 m)) then (0, md)
  else
    match find_attr IFLA_XDP (decode (drop 16 (m_body m))) with
    | None => (0, md)
    | Some a =>
      let x := decode (at_data a) in
      let i := id_info md in
      match find_attr IFLA_XDP_ATTACHED x with
      | None => (0, md)
      | Some am =>
        (0, XdpIdMd (id_ifindex md) (id_flags md)
          (if attr_num 1 am =? XDP_ATTACHED_NONE
           then XdpLinkInfo (li_prog_id i) (li_drv_prog_id i) (li_hw_prog_id i) (li_skb_prog_id i) (attr_num 1 am)
           else XdpLinkInfo (num_or x IFLA_XDP_PROG_ID (li_prog_id i)) (num_or x IFLA_XDP_DRV_PROG_ID (li_drv_prog_id i))
                  (num_or x IFLA_XDP_HW_PROG_ID (li_hw_prog_id i)) (num_or x IFLA_XDP_SKB_PROG_ID (li_skb_prog_id i)) (attr_num 1 am)))
      end
    end.

(** A link message has its fixed header, and its XDP attributes have the sizes of their types. *)
Definition xdp_sizes (x : list attr) : Prop :=
  (forall a, find_attr IFLA_XDP_ATTACHED x = Some a -> at_data a <> []) /\
  (forall t a, IFLA_XDP_PROG_ID <= t <= IFLA_XDP_HW_PROG_ID -> find_attr t x = Some a -> (4 <= length (at_data a))%nat).
Definition link_good (m : nlmsg) : Prop :=
  (16 <= length (m_body m))%nat /\
  forall a, find_attr IFLA_XDP (decode (drop 16 (m_body m))) = Some a -> xdp_sizes (decode (at_data a)).

Lemma getattr_or_spec mem tb x t old : holds mem tb x t ->
  (forall a, find_attr t x = Some a -> (4 <= length (at_data a))%nat) -> getattr_or mem tb t old = Some (num_or x t old).
Proof.
  intros Hh Hs. unfold getattr_or, num_or, holds in *. destruct (find_attr t x) as [a|].
  - destruct Hh as (q & -> & Hq). cbn [mbind option_bind]. apply load_attr; [done|]. specialize (Hs a eq_refl). lia.
  - by rewrite Hh.
Qed.

Lemma dump_link_callback : callback_ok (Some dump_link_nlmsg) (Some link_update) link_good.
Proof.
  intros mem p m md Hat [H16 Hx]. unfold dump_link_nlmsg. rewrite (msg_nh_len mem p m Hat). cbn [mbind option_bind].
  pose proof (ma_len _ _ _ Hat) as Hlen. unfold msg_len in Hlen.
  set (bs := drop 16 (m_body m)). assert (mem_bytes bs) as Hbs by apply Forall_drop, Hat.
  assert (s32 (msg_len m - NLMSG_LENGTH sizeof_ifinfomsg) = Z.of_nat (length bs)) as ->
    by (unfold msg_len, NLMSG_LENGTH, NLMSG_HDRLEN, sizeof_ifinfomsg; subst bs; rewrite length_drop, swrap_small; lia).
  change (NLMSG_ALIGN sizeof_ifinfomsg) with (Z.of_nat 16).
  destruct (parse_decode mem (replicate 68 None) IFLA_MAX (NLMSG_DATA p + Z.of_nat 16) bs) as (tb & -> & Htb);
    [by apply msg_body_at|done|unfold IFLA_MAX; cbn; lia|]. cbn [mbind option_bind]. cbn [Z.eqb negb].
  unfold get_xdp_info, link_update. pose proof (msg_load mem p m Hat 4 4) as Hl. change (Z.of_nat 4) with 4 in Hl.
  rewrite Hl by lia. change (le_value _) with (body_num 4 4 m). cbn [mbind option_bind].
  destruct (negb (id_ifindex md =? 0) && _); [done|].
  specialize (Htb IFLA_XDP ltac:(unfold IFLA_XDP, IFLA_MAX; lia)). unfold holds in Htb. fold bs in Hx. fold bs.
  destruct (find_attr IFLA_XDP (decode bs)) as [a|] eqn:Ea; [|by rewrite Htb].
  destruct Htb as (q & -> & Hq). cbn [mbind option_bind]. specialize (Hx a eq_refl) as [Hm Hids].
  destruct (parse_nested_decode mem (replicate 9 None) IFLA_XDP_MAX q a Hq) as (xtb & -> & Hxtb);
    [by apply (find_attr_bytes IFLA_XDP bs)|unfold IFLA_XDP_MAX; cbn; lia|]. cbn [mbind option_bind]. cbn [Z.eqb negb].
  set (x := decode (at_data a)) in *.
  assert (forall t old, IFLA_XDP_PROG_ID <= t <= IFLA_XDP_HW_PROG_ID -> getattr_or mem xtb t old = Some (num_or x t old)) as Hget.
  { intros t old Ht. apply getattr_or_spec; [apply Hxtb; unfold IFLA_XDP_PROG_ID, IFLA_XDP_HW_PROG_ID, IFLA_XDP_MAX in *; lia|].
    intros b Hb. by apply (Hids t). }
  specialize (Hxtb IFLA_XDP_ATTACHED ltac:(unfold IFLA_XDP_ATTACHED, IFLA_XDP_MAX; lia)). unfold holds in Hxtb.
  destruct (find_attr IFLA_XDP_ATTACHED x) as [am|] eqn:Eam; [|by rewrite Hxtb].
  destruct Hxtb as (q' & -> & Hq'). cbn [mbind option_bind]. unfold libbpf_nla_getattr_u8.
  rewrite (load_attr mem q' am 1 Hq') by (specialize (Hm am eq_refl); destruct (at_data am); [done|cbn; lia]). cbn [mbind option_bind].
  destruct (attr_num 1 am =? XDP_ATTACHED_NONE); [done|].
  rewrite !Hget by (unfold IFLA_XDP_PROG_ID, IFLA_XDP_SKB_PROG_ID, IFLA_XDP_DRV_PROG_ID, IFLA_XDP_HW_PROG_ID; lia). done.
Qed.

(** ** Dumps *)
Definition dump_part (pid t : Z) (m : nlmsg) : Prop :=
  m_pid m = pid /\ m_seq m = u32 t /\ m_flags m &' NLM_F_MULTI <> 0 /\ m_type m <> NLMSG_ERROR /\ m_type m <> NLMSG_DONE.
Definition dump_end (pid t : Z) (m : nlmsg) : Prop := m_pid m = pid /\ m_seq m = u32 t /\ m_type m = NLMSG_DONE.

Section dump.
Context {C : Type} (pid t : Z) (f : nlmsg -> C -> Z * C) (Hf : forall m c, (f m c).1 = NL_CONT).

Definition fold_msgs (ms : list nlmsg) (c : C) : C := fold_left (fun c m => (f m c).2) ms c.

Lemma run_dump_part ms : Forall (dump_part pid t) ms -> forall rest mp c,
  run_msgs pid t (Some f) (ms ++ rest) mp c = run_msgs pid t (Some f) rest (mp || negb (bool_decide (ms = []))) (fold_msgs ms c).
Proof.
  induction 1 as [|m ms (H1 & H2 & H3 & H4 & H5) Hms IH]; intros rest mp c; cbn [app].
  - by rewrite orb_false_r.
  - cbn [run_msgs]. rewrite H1, H2, !Z.eqb_refl. cbn [negb]. rewrite !(proj2 (Z.eqb_neq _ _)) by done. cbn [negb].
    pose proof (Hf m c) as Hc. destruct (f m c) as [ret c'] eqn:E. cbn [fst] in Hc. rewrite Hc. cbn [Z.eqb NL_CONT].
    rewrite IH. unfold fold_msgs. cbn [fold_left]. rewrite E.
    rewrite (bool_decide_eq_false_2 (m :: ms = [])) by done. cbn [negb snd]. by rewrite orb_true_r.
Qed.

(** A dump in any number of datagrams, the last of which ends with NLMSG_DONE. *)
Definition dump_arrivals (parts : list (list nlmsg)) (final : list nlmsg) (done : nlmsg) : list arrival :=
  map (fun ms => Dgram (pack ms) ms) parts ++ [Dgram (pack (final ++ [done])) (final ++ [done])].

Lemma pack_nonempty m ms : Z.of_nat (length (pack (m :: ms))) <> 0.
Proof.
  change (pack (m :: ms)) with (padded m ++ pack ms). rewrite length_app, Nat2Z.inj_add, padded_length.
  pose proof (align4_bounds (msg_len m)). unfold msg_len in *. lia.
Qed.

Lemma run_dump realloc parts final done : Forall (Forall (dump_part pid t)) parts -> Forall (fun ms => ms <> []) parts ->
  Forall (dump_part pid t) final -> dump_end pid t done -> (forall n, realloc n = true) -> forall cap c,
  run_arrivals pid t (Some f) realloc cap (dump_arrivals parts final done) c = Returned (0, fold_msgs (concat parts ++ final) c).
Proof.
  intros Hp Hne Hfin (D1 & D2 & D3) Hre. unfold dump_arrivals. induction Hp as [|ms parts Hms Hp IH]; intros cap c; cbn [map app run_arrivals concat].
  - rewrite Hre, andb_false_r. rewrite (proj2 (Z.eqb_neq _ 0)) by (destruct final; apply pack_nonempty).
    rewrite run_dump_part by done. cbn [run_msgs]. rewrite D1, D2, D3, !Z.eqb_refl. done.
  - apply Forall_cons in Hne as [Hm Hne]. rewrite Hre, andb_false_r.
    rewrite (proj2 (Z.eqb_neq _ 0)) by (destruct ms; [done|apply pack_nonempty]).
    pose proof (run_dump_part ms Hms [] false c) as E. rewrite app_nil_r in E. rewrite E. cbn [run_msgs].
    rewrite bool_decide_eq_false_2 by done. cbn [negb orb]. rewrite (IH Hne). unfold fold_msgs. by rewrite <- app_assoc, (fold_left_app _ ms).
Qed.
End dump.

Lemma link_update_continues m md : (link_update m md).1 = NL_CONT.
Proof. unfold link_update. repeat case_match; done. Qed.

(** The requests of a query: a dump of the links, and the identifier of the family netdev. *)
Definition getlink_message (seq : Z) : nlmsg := Msg RTM_GETLINK (NLM_F_DUMP |' NLM_F_REQUEST) seq 0 (17 :: replicate 15 0).
Definition getfamily_message (seq : Z) : nlmsg :=
  Msg GENL_ID_CTRL NLM_F_REQUEST seq 0 ([CTRL_CMD_GETFAMILY; 2; 0; 0] ++ attr_bytes (Attr CTRL_ATTR_FAMILY_NAME netdev_name) ++ [0]).

(** The system calls of a conversation that sends [m]. *)
Definition talk (e : nl_env) (m : nlmsg) : list event := [EvSocket (e_socket e); EvSend (e_socket e) (msg_bytes m); EvClose (e_socket e)].

Lemma getlink_request e : exists req,
  set_u8 (new_req (NLMSG_LENGTH sizeof_ifinfomsg) RTM_GETLINK (NLM_F_DUMP |' NLM_F_REQUEST)) 16 17 = Some req /\
  length req = 164%nat /\ mem_at req 0 (le_bytes 4 32) /\ take 32 (stamped e req) = msg_bytes (getlink_message (e_time e)).
Proof.
  eexists. split; [vm_compute; reflexivity|]. split; [done|]. split; [done|].
  unfold stamped, msg_bytes, getlink_message. cbn [m_type m_flags m_seq m_pid m_body].
  destruct (list4 (le_bytes 4 (e_time e))) as (t1 & t2 & t3 & t4 & ->); [apply le_bytes_length|reflexivity].
Qed.

Lemma resolve_acked e err id : env_ok e -> acked e err -> - 2 ^ 31 <= err < 2 ^ 31 ->
  libbpf_netlink_resolve_genl_family_id e netdev_name 7 id = Some (Returned (err, id), talk e (getfamily_message (e_time e))).
Proof.
  intros He Ha Herr. unfold libbpf_netlink_resolve_genl_family_id.
  set (r := set_u8 _ 16 _). assert (exists r1 r2 req, r = Some r1 /\ set_u8 r1 17 2 = Some r2 /\
    nlattr_add r2 CTRL_ATTR_FAMILY_NAME (Some netdev_name) 7 = Some (0, req) /\ length req = 164%nat /\
    mem_at req 0 (le_bytes 4 32) /\ take 32 (stamped e req) = msg_bytes (getfamily_message (e_time e))) as (r1 & r2 & req & -> & E2 & E3 & Hl & Hat & Hs).
  { do 3 eexists. split; [vm_compute; reflexivity|]. split; [vm_compute; reflexivity|]. split; [vm_compute; reflexivity|].
    split; [done|]. split; [done|]. unfold stamped, msg_bytes, getfamily_message. cbn [m_type m_flags m_seq m_pid m_body].
    destruct (list4 (le_bytes 4 (e_time e))) as (t1 & t2 & t3 & t4 & ->); [apply le_bytes_length|reflexivity]. }
  cbn [mbind option_bind]. rewrite E2. cbn [mbind option_bind]. rewrite E3. cbn [mbind option_bind].
  rewrite (proj2 (Z.ltb_ge 0 0)) by done.
  rewrite (send_recv_acked e req 32 _ (Some (fun _ c => (0, c))) (fun _ => False) err); try done; try lia; [|by intros ? ? ? ? ? []].
  change (Z.to_nat 32) with 32%nat. by rewrite Hs.
Qed.

(** The program that is attached in a mode, from what the link messages say. *)
Definition xdp_id_for (flags : Z) (i : xdp_link_info) : Z :=
  if Z.testbit flags 2 then li_drv_prog_id i
  else if Z.testbit flags 3 then li_hw_prog_id i
  else if Z.testbit flags 1 then li_skb_prog_id i
  else if li_attach_mode i =? XDP_ATTACHED_MULTI then 0 else li_prog_id i.

Definition single_mode (flags : Z) : bool := existsb (fun m => flags &' XDP_FLAGS_MODES =? m) [0; 2; 4; 8].

(** The tests of [bpf_xdp_query] and [bpf_xdp_query_id] on the flags. *)
Lemma query_flags flags : 0 <= flags < 32 ->
  (u32 flags &' u32 (Z.lnot XDP_FLAGS_MASK) =? 0) = true /\
  ((flags &' XDP_FLAGS_MODES) &' (flags &' XDP_FLAGS_MODES - 1) =? 0) = single_mode flags /\
  (single_mode flags = true -> forall o i, xq_prog_id o = li_prog_id i -> xq_drv_prog_id o = li_drv_prog_id i ->
    xq_hw_prog_id o = li_hw_prog_id i -> xq_skb_prog_id o = li_skb_prog_id i -> xq_attach_mode o = li_attach_mode i ->
    query_id_of flags o = xdp_id_for flags i).
Proof.
  intros Hf. destruct (small_nat flags 31) as (n & Hn & ->); [lia|]. unfold query_id_of, xdp_id_for.
  do 32 (destruct n as [|n]; [split; [reflexivity|split; [reflexivity|]]; intros Hs o i E1 E2 E3 E4 E5; try discriminate Hs;
    rewrite <- ?E1, <- ?E2, <- ?E3, <- ?E4, <- ?E5; cbn; try reflexivity; by destruct (xq_attach_mode o =? XDP_ATTACHED_MULTI)|]).
  lia.
Qed.

Record dump_ok (e : nl_env) (parts : list (list nlmsg)) (final : list nlmsg) (fin : nlmsg) : Prop := {
  do_parts : Forall (fun ms => ms <> [] /\ Z.of_nat (length (pack ms)) < 2 ^ 31) parts;
  do_final : Z.of_nat (length (pack (final ++ [fin]))) < 2 ^ 31;
  do_msgs : Forall (fun m => msg_ok m /\ link_good m /\ dump_part (e_nl_pid e) (e_time e) m) (concat parts ++ final);
  do_fin : msg_ok fin /\ dump_end (e_nl_pid e) (e_time e) fin;
  do_answers : transcript (e_answers e) (dump_arrivals parts final fin);
  do_realloc : forall n, has_mem (e_realloc e) n = true;
}.

Lemma dump_arrivals_ok e parts final fin : dump_ok e parts final fin -> Forall (arrival_ok link_good) (dump_arrivals parts final fin).
Proof.
  intros []. unfold dump_arrivals. apply Forall_app in do_msgs0 as [Hp Hf]. apply Forall_concat in Hp.
  assert (forall ms, Forall (fun m => msg_ok m /\ link_good m /\ dump_part (e_nl_pid e) (e_time e) m) ms ->
    Forall msg_ok ms /\ Forall (msg_good link_good) ms) as Hboth.
  { intros ms H. split; (eapply Forall_impl; [exact H|]); [tauto|]. intros m (_ & Hg & _ & _ & _ & H4 & H5). split; [done|auto]. }
  apply Forall_app. split.
  - apply List.Forall_map. rewrite Forall_forall in *. intros ms Hms. destruct (Hboth ms (Hp ms Hms)).
    apply arrival_pack; [done|done|]. by apply do_parts0.
  - apply Forall_singleton. destruct (Hboth final Hf). destruct do_fin0 as [Hok (_ & _ & Hd)].
    apply arrival_pack; [apply Forall_app; split; [done|by apply Forall_singleton]| |done].
    apply Forall_app; split; [done|]. apply Forall_singleton. split; [by rewrite Hd|done].
Qed.

(** [bpf_xdp_query_id] on a kernel without the netdev family: it asks for a dump of the
    links and returns the program attached in the mode of the flags, computed from the XDP
    attributes of the link messages of the interface, however the dump is split into
    datagrams; with more than one mode it returns -EINVAL and calls nobody. *)
Theorem xdp_query_id_reports e1 e2 e3 ifindex flags old parts final fin :
  env_ok e1 -> dump_ok e1 parts final fin -> env_ok e2 -> acked e2 (- ENOENT) -> 0 <= flags < 32 ->
  bpf_xdp_query_id e1 e2 e3 ifindex flags old =
    if single_mode flags then
      let md := fold_msgs link_update (concat parts ++ final) (XdpIdMd ifindex (flags &' XDP_FLAGS_MODES) (XdpLinkInfo 0 0 0 0 0)) in
      Some (Returned (0, xdp_id_for flags (id_info md)), talk e1 (getlink_message (e_time e1)) ++ talk e2 (getfamily_message (e_time e2)))
    else Some (Returned (- EINVAL, old), []).
Proof.
  intros He1 Hd He2 Ha Hfl. destruct (query_flags flags Hfl) as (F1 & F2 & F3). unfold bpf_xdp_query_id, bpf_xdp_query.
  destruct (getlink_request e1) as (req & -> & Hl & Hat & Hs). cbn [mbind option_bind].
  change (libbpf_validate_opts _ 44 _) with true. cbn [negb]. rewrite F1, F2. cbn [negb].
  destruct (single_mode flags); [|done]. cbn [negb]. pose proof (dump_arrivals_ok _ _ _ _ Hd) as Hok.
  destruct Hd as [Hparts _ Hmsgs [_ Hfin] Htr Hre]. apply Forall_app in Hmsgs as [Hp Hf]. apply Forall_concat in Hp.
  rewrite (send_recv_spec e1 req 32 _ (Some link_update) link_good (dump_arrivals parts final fin)); try done; try lia.
  2: apply dump_link_callback.
  rewrite run_dump; [|apply link_update_continues| | | |done|done].
  2: { eapply Forall_impl; [exact Hp|]. intros ms H. eapply Forall_impl; [exact H|]. tauto. }
  2: { eapply Forall_impl; [exact Hparts|]. tauto. }
  2: { eapply Forall_impl; [exact Hf|]. tauto. }
  change (Z.to_nat 32) with 32%nat. rewrite Hs. cbn zeta. cbn [conv_bind Z.eqb negb xq_sz set_query_ids].
  change (OPTS_HAS 48 40) with true. cbn [negb]. rewrite (resolve_acked e2 (- ENOENT)) by (done || (unfold ENOENT; lia)).
  cbn [conv_bind]. change (- ENOENT <? 0) with true. cbn iota. rewrite Z.eqb_refl. cbn [conv_ret conv_bind Z.eqb negb app].
  rewrite !app_nil_r. repeat f_equal. by apply F3.
Qed.

Lemma bytes_check l : forallb (fun b => (0 <=? b) && (b <? 256)) l = true -> mem_bytes l.
Proof. intros H. rewrite forallb_forall in H. apply Forall_forall. intros b Hb. specialize (H b). rewrite <- list_elem_of_In in H. specialize (H Hb). lia. Qed.

Definition link_check (m : nlmsg) : bool :=
  (16 <=? length (m_body m))%nat &&
  match find_attr IFLA_XDP (decode (drop 16 (m_body m))) with
  | None => true
  | Some a =>
    let x := decode (at_data a) in
    match find_attr IFLA_XDP_ATTACHED x with Some b => (1 <=? length (at_data b))%nat | None => true end &&
    forallb (fun t => match find_attr t x with Some b => (4 <=? length (at_data b))%nat | None => true end) [4; 5; 6; 7]
  end.

Lemma link_check_good m : link_check m = true -> link_good m.
Proof.
  unfold link_check. intros [H1 H2]%andb_prop. apply Nat.leb_le in H1. split; [done|]. intros a Ha. rewrite Ha in H2.
  apply andb_prop in H2 as [H2 H3]. split.
  - intros b Hb E. rewrite Hb, E in H2. done.
  - intros t b Ht Hb. rewrite forallb_forall in H3.
    assert (In t [4; 5; 6; 7]) as Hin by (unfold IFLA_XDP_PROG_ID, IFLA_XDP_HW_PROG_ID in Ht; cbn; lia).
    specialize (H3 t Hin). rewrite Hb in H3. by apply Nat.leb_le.
Qed.

(** One interface with a program in driver mode. *)
Definition demo_link : nlmsg :=
  Msg 16 2 1000 77 (replicate 4 0 ++ le_bytes 4 2 ++ replicate 8 0 ++
    attr_bytes (Attr (IFLA_XDP |' NLA_F_NESTED) (attr_bytes (Attr IFLA_XDP_ATTACHED [1]) ++ [0; 0; 0] ++
      attr_bytes (Attr IFLA_XDP_PROG_ID (le_bytes 4 42)) ++ attr_bytes (Attr IFLA_XDP_DRV_PROG_ID (le_bytes 4 42))))).
Definition demo_done : nlmsg := Msg NLMSG_DONE 2 1000 77 (le_bytes 4 0).
Definition demo_dump : list answer := concat (map answers_of (dump_arrivals [[demo_link]] [] demo_done)).
Definition demo_enoent : list answer := answers_of (Dgram (pack [ack 1000 77 (- ENOENT)]) []).

Lemma xdp_query_id_reports_witness :
  bpf_xdp_query_id (demo_env demo_dump) (demo_env demo_enoent) (demo_env []) 2 4 0 =
    Some (Returned (0, 42), talk (demo_env demo_dump) (getlink_message 1000) ++ talk (demo_env demo_enoent) (getfamily_message 1000)).
Proof.
  apply (xdp_query_id_reports (demo_env demo_dump) (demo_env demo_enoent) (demo_env []) 2 4 0 [[demo_link]] [] demo_done).
  - repeat split; cbn; lia.
  - constructor.
    + apply Forall_singleton. done.
    + done.
    + apply Forall_singleton. split; [repeat split; try done; by apply bytes_check|]. split; [|repeat split; vm_compute; done].
      by apply link_check_good.
    + split; [|done]. repeat split; try done. by apply bytes_check.
    + reflexivity.
    + done.
  - repeat split; cbn; lia.
  - reflexivity.
  - lia.
Defined.

(** ** TC: the request *)
Lemma new_req_ready len type flags : 16 <= len <= sizeof_req -> len mod 4 = 0 -> req_ready (new_req len type flags) len.
Proof.
  intros Hl Hm. unfold new_req. constructor; [| | |done|done].
  - rewrite !length_app, !le_bytes_length, length_replicate. done.
  - repeat (apply Forall_app; split; [apply le_bytes_mem|]). apply Forall_replicate. lia.
  - split; [lia|]. change (Z.to_nat 0) with 0%nat. by rewrite drop_0, take_app_length.
Qed.

Lemma set_u32_ready req L p v : req_ready req L -> 4 <= p -> p + 4 <= L ->
  exists req', set_u32 req p v = Some req' /\ req_ready req' L /\ mem_at req' p (le_bytes 4 v) /\
    forall q cs, mem_at req q cs -> q + Z.of_nat (length cs) <= p \/ p + 4 <= q -> mem_at req' q cs.
Proof.
  intros [Hl Hb H0 Hr Ha] Hp HL. unfold set_u32, sizeof_req in *.
  destruct (store_spec req p (le_bytes 4 v)) as (r & E & Hlr & Hat & Hbr & K); [lia|rewrite le_bytes_length; lia|].
  rewrite le_bytes_length in K. exists r. split; [done|]. split; [|split; [done|intros q cs ? ?; by apply K]].
  constructor; [unfold sizeof_req; lia|apply Hbr; [done|apply le_bytes_mem]|apply K; [done|rewrite le_bytes_length; lia]|done|done].
Qed.

(** The type and the flags of a request, and the fields of its [struct tcmsg], which starts at byte 16. *)
Record tcm_fields (req : list Z) (type flags ifindex handle parent info : Z) : Prop := {
  tf_type : mem_at req 4 (le_bytes 2 type);
  tf_flags : mem_at req 6 (le_bytes 2 flags);
  tf_ifindex : mem_at req 20 (le_bytes 4 ifindex);
  tf_handle : mem_at req 24 (le_bytes 4 handle);
  tf_parent : mem_at req 28 (le_bytes 4 parent);
  tf_info : mem_at req 32 (le_bytes 4 info);
}.

Lemma new_req_header len type flags : mem_at (new_req len type flags) 4 (le_bytes 2 type) /\ mem_at (new_req len type flags) 6 (le_bytes 2 flags).
Proof.
  pose proof (mem_at_all (new_req len type flags)) as H. unfold new_req in H at 2. rewrite !mem_at_app, !le_bytes_length in H.
  destruct H as (_ & H1 & H2 & _). by split.
Qed.

Lemma filter_req_spec type flags ifindex handle parent info : exists r req,
  filter_req type flags ifindex handle info = Some r /\ set_u32 r tcm_parent_off parent = Some req /\
  req_ready req 36 /\ tcm_fields req type flags ifindex handle parent info.
Proof.
  unfold filter_req. change (NLMSG_LENGTH sizeof_tcmsg) with 36.
  assert (req_ready (new_req 36 type flags) 36) as H0 by (apply new_req_ready; [unfold sizeof_req; lia|done]).
  destruct (set_u32_ready _ 36 tcm_ifindex_off ifindex H0) as (r1 & -> & H1 & A1 & K1); [unfold tcm_ifindex_off; lia..|].
  cbn [mbind option_bind].
  destruct (set_u32_ready _ 36 tcm_handle_off handle H1) as (r2 & -> & H2 & A2 & K2); [unfold tcm_handle_off; lia..|].
  cbn [mbind option_bind].
  destruct (set_u32_ready _ 36 tcm_info_off info H2) as (r3 & -> & H3 & A3 & K3); [unfold tcm_info_off; lia..|].
  destruct (set_u32_ready _ 36 tcm_parent_off parent H3) as (r4 & E4 & H4 & A4 & K4); [unfold tcm_parent_off; lia..|].
  exists r3, r4. split; [done|]. split; [done|]. split; [done|]. destruct (new_req_header 36 type flags) as [T1 T2].
  unfold tcm_ifindex_off, tcm_handle_off, tcm_info_off, tcm_parent_off in *.
  constructor; [apply K4; [apply K3; [apply K2; [apply K1; [done|]|]|]|]|apply K4; [apply K3; [apply K2; [apply K1; [done|]|]|]|]|apply K4; [apply K3; [apply K2; [done|]|]|]|apply K4; [apply K3; [done|]|]|done|apply K4; [done|]]; rewrite le_bytes_length; lia.
Qed.

(** Decimal numbers. *)
Lemma dec_digits_spec fuel : forall n, 0 <= n -> (length (dec_digits fuel n) <= fuel)%nat /\ mem_bytes (dec_digits fuel n).
Proof.
  induction fuel as [|fuel IH]; intros n Hn; cbn [dec_digits]; [split; [done|constructor]|].
  assert (48 <= 48 + n mod 10 < 58) by (pose proof (Z.mod_pos_bound n 10); lia). destruct (n <? 10).
  - split; [cbn; lia|]. apply Forall_singleton. lia.
  - destruct (IH (n / 10)) as [Hl Hb]; [apply Z.div_pos; lia|]. rewrite length_app. split; [cbn; lia|].
    apply Forall_app; split; [done|]. apply Forall_singleton. lia.
Qed.

Definition prog_info_ok (i : prog_info) : Prop :=
  0 <= pi_ret i /\ (length (pi_name i) <= 15)%nat /\ mem_bytes (pi_name i) /\ 0 <= pi_id i.

Lemma prog_label_spec i : prog_info_ok i -> (length (prog_label i) <= 28)%nat /\ mem_bytes (prog_label i).
Proof.
  intros (_ & Hl & Hb & Hi). destruct (dec_digits_spec 10 (pi_id i) Hi) as [Hd Hdb]. unfold prog_label.
  rewrite !length_app. split; [cbn [length]; lia|]. apply Forall_app; split; [done|]. apply Forall_app; split; [by apply bytes_check|].
  apply Forall_app; split; [done|by apply bytes_check].
Qed.

Definition tc_items (info : prog_info) (fd : Z) : list item :=
  [Leaf TCA_KIND bpf_str;
   Nest TCA_OPTIONS [(TCA_BPF_FD, le_bytes 4 fd); (TCA_BPF_NAME, prog_label info ++ [0]);
                     (TCA_BPF_FLAGS, le_bytes 4 TCA_BPF_FLAG_ACT_DIRECT)]].

(** The results of adding attributes are 0 or negative. *)
Lemma add_leaf_result req L c ret req' : req_ready req L -> leaf_ok c -> add_leaf req c.1 c.2 = Some (ret, req') ->
  (ret <? 0) = negb (ret =? 0).
Proof.
  intros Hr Hc. pose proof (add_leaf_spec req L c Hr Hc) as H. destruct (_ <? _).
  - rewrite H. intros [= <- _]. done.
  - destruct H as (r & -> & _). intros [= <- _]. done.
Qed.

Lemma tc_items_ok info fd : prog_info_ok info -> Forall item_ok (tc_items info fd).
Proof.
  intros Hi. destruct (prog_label_spec info Hi) as [Hl Hb].
  assert (forall t d, 0 <= t < 2 ^ 16 -> mem_bytes d -> (length d <= 29)%nat -> leaf_ok (t, d)) as Hleaf by (intros t d ? ? ?; repeat split; cbn; try done; lia).
  apply Forall_cons_2; [|apply Forall_cons_2; [|apply Forall_nil_2]].
  - apply Hleaf; [unfold TCA_KIND; lia|by apply bytes_check|cbn; lia].
  - split; [unfold TCA_OPTIONS; lia|]. repeat (apply Forall_cons_2; [apply Hleaf|]); try apply Forall_nil_2; try apply le_bytes_mem;
      unfold TCA_BPF_FD, TCA_BPF_NAME, TCA_BPF_FLAGS; try lia; try (rewrite le_bytes_length; lia).
    + apply Forall_app; split; [done|by apply Forall_singleton].
    + rewrite length_app. cbn. lia.
Qed.

Lemma tc_items_fit info fd : prog_info_ok info -> 36 + items_size (tc_items info fd) <= 100.
Proof.
  intros Hi. destruct (prog_label_spec info Hi) as [Hl _]. unfold tc_items. cbn [items_size item_size leaves_size].
  change (leaf_size (TCA_KIND, bpf_str)) with 8. change (align4 8) with 8. unfold leaf_size, attr_len. cbn [at_data fst snd].
  rewrite !le_bytes_length. change (align4 (4 + Z.of_nat 4)) with 8. rewrite length_app. cbn [length].
  set (n := align4 (4 + Z.of_nat _)). assert (n <= 36) by (subst n; unfold align4; Z.div_mod_to_equations; lia).
  pose proof (align4_bounds (4 + (8 + (n + (8 + 0))))) as [Hal Hm]. 
  assert (n mod 4 = 0) by apply align4_bounds. unfold align4. Z.div_mod_to_equations. lia.
Qed.

(** A call that failed ends both sides. *)
Ltac refused ret :=
  cbn [mbind option_bind]; rewrite ?(proj2 (Z.eqb_neq ret 0)) by done; cbn [negb mbind option_bind];
  rewrite ?(proj2 (Z.eqb_neq ret 0)) by done; done.

(** The calls of [bpf_tc_attach] are those of the items. *)
Lemma tc_attach_items info req fd : req_ready req 36 -> prog_info_ok info ->
  match add_items req (tc_items info fd) with Some (ret, _) => ret = 0 | None => False end ->
  ('(ret, req) ← nlattr_add req TCA_KIND (Some bpf_str) 4;
    if ret <? 0 then Some (ret, req)
    else
      '(nla, req) ← nlattr_begin_nested req TCA_OPTIONS;
      match nla with
      | None => Some (- EMSGSIZE, req)
      | Some nla =>
        '(ret, req) ← tc_add_fd_and_name info req fd;
        if ret <? 0 then Some (ret, req)
        else
          '(ret, req) ← nlattr_add req TCA_BPF_FLAGS (Some (le_bytes 4 TCA_BPF_FLAG_ACT_DIRECT)) 4;
          if ret <? 0 then Some (ret, req)
          else req ← nlattr_end_nested req nla; Some (0, req)
      end) = add_items req (tc_items info fd).
Proof.
  intros Hr Hi. destruct (prog_label_spec info Hi) as [Hl _]. unfold tc_items. cbn [add_items add_item].
  change (add_leaf req TCA_KIND bpf_str) with (nlattr_add req TCA_KIND (Some bpf_str) 4).
  destruct (nlattr_add req TCA_KIND (Some bpf_str) 4) as [[ret r1]|]; cbn [mbind option_bind]; [|done].
  destruct (Z.eqb_spec ret 0) as [->|]; cbn [negb]; [|refused ret]. cbn [Z.ltb Z.compare].
  destruct (nlattr_begin_nested r1 TCA_OPTIONS) as [[[nla|] r2]|]; cbn [mbind option_bind]; [|done|done].
  cbn [add_leaves]. unfold tc_add_fd_and_name. rewrite (proj2 (Z.ltb_ge (pi_ret info) 0)) by apply Hi.
  change (add_leaf r2 TCA_BPF_FD (le_bytes 4 fd)) with (nlattr_add r2 TCA_BPF_FD (Some (le_bytes 4 fd)) 4).
  destruct (nlattr_add r2 TCA_BPF_FD (Some (le_bytes 4 fd)) 4) as [[ret r3]|]; cbn [mbind option_bind]; [|done].
  destruct (Z.eqb_spec ret 0) as [->|]; cbn [negb]; [|refused ret]. cbn [Z.ltb Z.compare].
  rewrite Z.geb_leb, (proj2 (Z.leb_gt _ _)) by lia.
  assert (add_leaf r3 TCA_BPF_NAME (prog_label info ++ [0]) =
    nlattr_add r3 TCA_BPF_NAME (Some (prog_label info ++ [0])) (Z.of_nat (length (prog_label info)) + 1)) as ->.
  { unfold add_leaf. rewrite length_app. cbn [length]. rewrite Nat2Z.inj_add. by destruct (prog_label info). }
  destruct (nlattr_add r3 TCA_BPF_NAME _ _) as [[ret r4]|]; cbn [mbind option_bind]; [|done].
  destruct (Z.eqb_spec ret 0) as [->|]; cbn [negb]; [|refused ret]. cbn [Z.ltb Z.compare].
  change (add_leaf r4 TCA_BPF_FLAGS (le_bytes 4 TCA_BPF_FLAG_ACT_DIRECT)) with
    (nlattr_add r4 TCA_BPF_FLAGS (Some (le_bytes 4 TCA_BPF_FLAG_ACT_DIRECT)) 4).
  destruct (nlattr_add r4 TCA_BPF_FLAGS _ _) as [[ret r5]|]; cbn [mbind option_bind]; [|done].
  destruct (Z.eqb_spec ret 0) as [->|]; cbn [negb]; [|refused ret]. cbn [Z.ltb Z.compare Z.eqb negb].
  cbn [mbind option_bind Z.eqb negb]. by destruct (nlattr_end_nested r5 nla).
Qed.

(** The parent of a filter: the ingress or egress hook of clsact, whose parent may not be given, or the one given for a
    custom attach point. *)
Definition tc_parent (attach_point parent : Z) : option Z :=
  if decide (attach_point = BPF_TC_INGRESS /\ parent = 0) then Some 0xFFFFFFF2
  else if decide (attach_point = BPF_TC_EGRESS /\ parent = 0) then Some 0xFFFFFFF3
  else if decide (attach_point = BPF_TC_CUSTOM /\ parent <> 0) then Some parent else None.

Lemma tc_parent_spec attach_point parent :
  match tc_parent attach_point parent with
  | Some p => tc_get_tcm_parent attach_point parent = (0, p)
  | None => exists p, tc_get_tcm_parent attach_point parent = (- EINVAL, p)
  end.
Proof.
  unfold tc_parent, tc_get_tcm_parent, BPF_TC_INGRESS, BPF_TC_EGRESS, BPF_TC_CUSTOM.
  destruct (Z.eqb_spec attach_point 1), (Z.eqb_spec attach_point 2), (Z.eqb_spec attach_point 4), (Z.eqb_spec parent 0); cbn [orb negb];
    repeat case_decide; first [lia|done|by eexists|by repeat f_equal].
Qed.

(** The priority is in the upper half of [tcm_info], ETH_P_ALL in network order in the lower one. *)
Lemma tcm_info_spec priority : tcm_info priority = priority mod 2 ^ 16 * 2 ^ 16 + 0x300.
Proof.
  unfold tcm_info, TC_H_MAKE. change (htons ETH_P_ALL &' 0xFFFF) with 0x300. unfold wrap.
  rewrite Z.shiftl_mul_pow2 by lia. change (2 ^ 32) with (2 ^ 16 * 2 ^ 16). rewrite Z.mul_mod_distr_r by lia.
  rewrite <- Z.shiftl_mul_pow2 by lia. change 0xFFFF0000 with (Z.shiftl 0xFFFF 16). rewrite <- Z.shiftl_land.
  change 0xFFFF with (Z.ones 16). rewrite Z.land_ones, Z.mod_mod by lia. rewrite lor_shiftl_add by lia.
  by rewrite ?Z.shiftl_mul_pow2 by lia.
Qed.

(** C37. The request of [bpf_tc_attach], for a program that [bpf_prog_get_info_by_fd] describes
    (with a name of at most 15 bytes; if that query fails there is no request).  Without a valid
    parent for the attach point it is refused with -EINVAL; otherwise it always fits: every call
    that builds it succeeds, and the message is an RTM_NEWTFILTER with the flags and, in its
    header, the interface, handle, parent (0xFFFFFFF2 for ingress, 0xFFFFFFF3 for egress, the
    given one for a custom attach point), priority and protocol, and exactly the attributes
    TCA_KIND "bpf" and TCA_OPTIONS with the descriptor, the label "name:[id]" and the
    direct-action flag. *)
Theorem tc_attach_request_fits info ifindex attach_point parent handle priority flags fd : prog_info_ok info ->
  match tc_parent attach_point parent with
  | None => exists req, tc_attach_request info ifindex attach_point parent handle priority flags fd = Some (- EINVAL, req)
  | Some parent' =>
    exists req l L, tc_attach_request info ifindex attach_point parent handle priority flags fd = Some (0, req) /\
      nh_len req 0 = Some L /\ L <= 100 /\
      tcm_fields req 44 (0x40D |' flags) ifindex handle parent' (priority mod 2 ^ 16 * 2 ^ 16 + 0x300) /\
      filled req 36 L l /\ Forall2 (item_attr req) (tc_items info fd) l
  end.
Proof.
  intros Hi. pose proof (tc_parent_spec attach_point parent) as Hp. unfold tc_attach_request. rewrite tcm_info_spec.
  change (NLM_F_REQUEST |' NLM_F_ACK |' NLM_F_CREATE |' NLM_F_ECHO) with 0x40D.
  destruct (filter_req_spec RTM_NEWTFILTER (0x40D |' flags) ifindex handle (default 0 (tc_parent attach_point parent))
    (priority mod 2 ^ 16 * 2 ^ 16 + 0x300)) as (r & req & -> & Hset & Hr & Hf). cbn [mbind option_bind].
  destruct (tc_parent attach_point parent) as [parent'|]; [|destruct Hp as [p Hp]; rewrite Hp; by exists r].
  rewrite Hp. cbn [Z.ltb Z.compare]. change (default 0 (Some parent')) with parent' in Hset, Hf.
  rewrite Hset. cbn [mbind option_bind]. pose proof (add_items_spec (tc_items info fd) req 36 Hr (tc_items_ok info fd Hi)) as Hadd.
  pose proof (tc_items_fit info fd Hi) as Hfit. rewrite (proj2 (Z.ltb_ge _ _)) in Hadd by (unfold sizeof_req; lia).
  destruct Hadd as (req' & l & E & Hr' & Hfill & H2 & K). rewrite (tc_attach_items info req fd Hr Hi) by (by rewrite E).
  exists req', l, (36 + items_size (tc_items info fd)). split; [done|]. split; [by apply req_ready_len|]. split; [done|]. split; [|done].
  destruct Hf as [F1 F2 F3 F4 F5 F6]. constructor; apply K; try done; rewrite ?le_bytes_length; lia.
Qed.

Lemma tc_attach_request_fits_witness : exists req l L,
  tc_attach_request (ProgInfo 0 [112; 114; 111; 103] 4711) 2 BPF_TC_INGRESS 0 1 7 NLM_F_EXCL 9 = Some (0, req) /\
  nh_len req 0 = Some L /\ L <= 100 /\ tcm_fields req 44 (0x40D |' NLM_F_EXCL) 2 1 0xFFFFFFF2 (7 mod 2 ^ 16 * 2 ^ 16 + 0x300) /\
  filled req 36 L l /\ Forall2 (item_attr req) (tc_items (ProgInfo 0 [112; 114; 111; 103] 4711) 9) l.
Proof.
  apply (tc_attach_request_fits (ProgInfo 0 [112; 114; 111; 103] 4711) 2 BPF_TC_INGRESS 0 1 7 NLM_F_EXCL 9).
  repeat split; try (cbn; lia). by apply bytes_check.
Defined.

(** ** Resources and error paths *)

(** The system calls on descriptors that take or release one. *)
Definition takes_or_releases (x : event) : bool := match x with EvSend _ _ => false | _ => true end.

(** Whatever the system calls, the allocator and the peer do, a conversation that returns
    has closed the socket it opened, exactly once, and sent at most once, on that socket; one
    that waits forever has it open. *)
Theorem socket_closed {C} e req (fn : option (list Z -> Z -> C -> option (Z * C))) c r ev :
  libbpf_netlink_send_recv e req fn c = Some (r, ev) ->
  filter (fun x => takes_or_releases x = true) ev =
    (if e_socket e <? 0 then []
     else match r with Blocked => [EvSocket (e_socket e)] | Returned _ => [EvSocket (e_socket e); EvClose (e_socket e)] end) /\
  exists sent, filter (fun x => takes_or_releases x = false) ev = sent /\
    (sent = [] \/ exists bytes, sent = [EvSend (e_socket e) bytes]).
Proof.
  unfold libbpf_netlink_send_recv, libbpf_netlink_open. destruct (Z.ltb_spec (e_socket e) 0) as [Hs|Hs].
  { rewrite (proj2 (Z.ltb_lt _ _) Hs). intros [= <- <-]. eauto. }
  destruct (Z.ltb_spec (e_bind e) 0) as [Hb|Hb]; [rewrite (proj2 (Z.ltb_lt _ _) Hb); intros [= <- <-]; eauto|].
  destruct (Z.ltb_spec (e_getsockname e) 0) as [Hg|Hg]; [rewrite (proj2 (Z.ltb_lt _ _) Hg); intros [= <- <-]; eauto|].
  destruct (negb _); [cbn; intros [= <- <-]; eauto|]. rewrite (proj2 (Z.ltb_ge _ _) Hs). intros H.
  do 4 (apply bind_Some in H as (? & _ & H)). destruct (e_send e <? 0).
  - injection H as <- <-. split; [done|]. eexists. split; [done|]. right. eauto.
  - do 2 (apply bind_Some in H as (? & _ & H)). case_match; injection H as <- <-; (split; [done|]); eexists; (split; [done|]); right; eauto.
Qed.

Lemma socket_closed_witness :
  filter (fun x => takes_or_releases x = true) [EvSocket 3; EvClose 3] = [EvSocket 3; EvClose 3] /\
  exists sent, filter (fun x => takes_or_releases x = false) [EvSocket 3; EvClose 3] = sent /\
    (sent = [] \/ exists bytes, sent = [EvSend 3 bytes]).
Proof.
  apply (socket_closed (NlEnv 3 (-98) 0 12 77 1000 44 [] (fun _ => Some (fun i => i mod 256))) empty_req (None : option (list Z -> Z -> unit -> option (Z * unit)))
    tt (Returned (-98, tt)) [EvSocket 3; EvClose 3]).
  reflexivity.
Defined.

(** C40. A hook whose attach point is a qdisc without a name passes the checks of
    [bpf_tc_hook_create] and [bpf_tc_hook_destroy] and makes [qdisc_config] take the length of
    a NULL string; the structs allow the pointer to be NULL or absent. *)
Theorem qdisc_name_null e h : hook_valid h = true -> 0 < get_ifindex h -> get_attach_point h = BPF_TC_QDISC ->
  OPTS_GET (hk_sz h) 32 (hk_qdisc h) None = None ->
  bpf_tc_hook_create e (Some h) = None /\ bpf_tc_hook_destroy e (Some h) = None.
Proof.
  intros Hv Hi Ha Hq.
  assert (forall cmd flags, tc_qdisc_modify e h cmd flags = None) as Hm.
  { intros cmd flags. unfold tc_qdisc_modify, attach_point_to_config. rewrite Ha. cbn [Z.eqb Pos.eqb orb BPF_TC_QDISC BPF_TC_INGRESS].
    change (8 =? _) with false. cbn [Z.ltb Z.compare]. cbn. 
    destruct (set_u32 _ _ _) as [r|]; [|done]. cbn [mbind option_bind]. unfold qdisc_config. rewrite Hq.
    destruct (set_u32 r _ _) as [r'|]; [|done]. cbn [mbind option_bind]. by destruct (set_u32 r' _ _). }
  unfold bpf_tc_hook_create, bpf_tc_hook_destroy, tc_qdisc_create_excl, tc_qdisc_delete. rewrite Hv, (proj2 (Z.leb_gt _ _)) by lia.
  cbn [negb orb]. rewrite Hm, Ha. cbn. by rewrite Hm.
Qed.

Lemma qdisc_name_null_witness :
  bpf_tc_hook_create (demo_env []) (Some (TcHook 32 [] 2 BPF_TC_QDISC 0 0 None)) = None /\
  bpf_tc_hook_destroy (demo_env []) (Some (TcHook 32 [] 2 BPF_TC_QDISC 0 0 None)) = None.
Proof. by apply qdisc_name_null. Defined.

(** A reply without the identifier of the family leaves the variable uninitialised. *)
Lemma family_id_uninitialised :
  bpf_xdp_query (demo_env demo_dump) (demo_env (answers_of (Dgram (pack [ack 1000 77 0]) []))) (demo_env []) 2 4
    (Some (XdpQueryOpts 48 [0; 0; 0; 0] 0 0 0 0 0 0 0)) = None.
Proof. vm_compute. reflexivity. Qed.
