(* ===== verification/BpfStrings.v ===== *)
(** * The string functions of the standard library: src/src/stdlib/strings, base.bpf.c

    BPF functions that scripts call for strings.  A buffer is the list of its bytes, and an
    access outside it is [None].  The helpers and the kernel functions the code calls are the
    fields of [kernel]; a weak symbol is [None] on a kernel without it.  The class
    [KernelLaws] states what the documentation promises of the helpers, and [loop_kernel] is
    an instance. *)
From Stdlib Require Import ZArith Lia String Ascii.
From stdpp Require Import base numbers list.
From S2P Require Import Prelude Strset.

Record kernel := Kernel {
  k_strnlen : option (list Z -> Z -> Z);
  k_strnstr : option (list Z -> list Z -> Z -> Z);
  (* bpf_loop: the number of iterations; the callback is [None] for a bad access *)
  k_loop : Z -> (Z -> option Z) -> option Z;
  (* bpf_probe_read_kernel_str: the result and the bytes written *)
  k_read_str : Z -> list Z -> Z * list Z;
}.

Definition BPF_MAX_LOOPS : Z := 2 ^ 23.

Class KernelLaws (k : kernel) : Prop := {
  loop_all n cb : 0 <= n <= BPF_MAX_LOOPS -> (forall i, 0 <= i < n -> cb i = Some 0) -> k_loop k n cb = Some n;
  loop_stop n cb i : n <= BPF_MAX_LOOPS -> 0 <= i < n -> (forall j, 0 <= j < i -> cb j = Some 0) -> cb i = Some 1 ->
    k_loop k n cb = Some (i + 1);
  loop_many n cb : BPF_MAX_LOOPS < n -> k_loop k n cb = Some (- E2BIG);
  read_str_ok size s : 0 < size -> 
    k_read_str k size s = (Z.of_nat (length (take (Z.to_nat (size - 1)) s)) + 1, take (Z.to_nat (size - 1)) s ++ [0]);
}.

(** ** Length *)
Definition strnlen_cb (str : list Z) (sz index : Z) : option Z :=
  if index >=? sz then Some 1
  else ch ← zget str index; Some (if ch =? 0 then 1 else 0).

Definition bpf_strnlen (k : kernel) (ptr : list Z) (max_size : Z) : option Z :=
  match k_strnlen k with
  | Some f => Some (f ptr max_size)
  | None =>
    len ← k_loop k (u32 max_size) (strnlen_cb ptr (u32 max_size));
    let len := s32 len in
    if len <=? 0 then Some len
    else if u64 len =? max_size then
      c ← zget ptr (len - 1);
      Some (if negb (c =? 0) then len else len - 1)
    else Some (len - 1)
  end.

(** ** Search *)

(** The inner loop: [inl] is the return, [inr] the value of [j] after the loop. *)
Fixpoint needle_loop (rest : nat) (haystack needle : list Z) (haystack_size i j : Z) : option (Z + Z) :=
  match rest with
  | O => Some (inr j)
  | S rest =>
    c ← zget needle j;
    if c =? 0 then Some (inl (s32 i))
    else
      let k := i + j in
      if k >? haystack_size then Some (inr j)
      else
        h ← zget haystack k;
        if negb (h =? c) then Some (inr j) else needle_loop rest haystack needle haystack_size i (j + 1)
  end.

Fixpoint strnstr_loop (rest : nat) (haystack needle : list Z) (haystack_size needle_size i : Z) : option Z :=
  match rest with
  | O => Some (-1)
  | S rest =>
    h ← zget haystack i;
    if h =? 0 then Some (-1)
    else
      r ← needle_loop (Z.to_nat needle_size) haystack needle haystack_size i 0;
      match r with
      | inl ret => Some ret
      | inr j => if j =? needle_size then Some (s32 i) else strnstr_loop rest haystack needle haystack_size needle_size (i + 1)
      end
  end.

Definition bpf_strnstr (k : kernel) (haystack needle : list Z) (haystack_size needle_size : Z) : option Z :=
  match k_strnstr k with
  | Some f => Some (f haystack needle haystack_size)
  | None =>
    if needle_size >? haystack_size then Some (-1)
    else strnstr_loop (Z.to_nat haystack_size) haystack needle haystack_size needle_size 0
  end.

(** ** Concatenation

    [src] is the string the pointer leads to.  The result, and the buffer. *)
Definition bpf_str_concat (k : kernel) (dst : list Z) (dst_sz : Z) (src : list Z) : option (Z * list Z) :=
  dst_len ← bpf_strnlen k dst dst_sz;
  if (dst_len <? 0) || (dst_len >=? dst_sz) then Some (0, dst)
  else
    let '(ret, bytes) := k_read_str k (u32 (dst_sz - dst_len)) src in
    dst ← memcpy_at dst dst_len bytes;
    Some (ret, dst).

(** ** Comparison *)

(** Characters are signed. *)
Fixpoint memcmp_loop (rest : nat) (l r : list Z) (i : Z) : option Z :=
  match rest with
  | O => Some 0
  | S rest =>
    a ← zget l i;
    b ← zget r i;
    if negb (a =? b) then Some (s8 a - s8 b) else memcmp_loop rest l r (i + 1)
  end.
Definition memcmp (l r : list Z) (count : Z) : option Z := memcmp_loop (Z.to_nat count) l r 0.

(** ** Tables of names

    The initialisers of the arrays of errors.h and signal.h, with the numbers of
    asm-generic/errno.h. *)
Definition ERROR_INDEX_MASK : Z := 0xff.
Definition SIGNAL_INDEX_MASK : Z := 0x7f.
Definition SYSCALL_INDEX_MASK : Z := 0x3ff.

Definition errors_init : list (Z * string) :=
  [(0, "Success"%string);
   (1, "Operation not permitted"%string);
   (2, "No such file or directory"%string);
   (3, "No such process"%string);
   (4, "Interrupted system call"%string);
   (5, "I/O error"%string);
   (6, "No such device or address"%string);
   (7, "Argument list too long"%string);
   (8, "Exec format error"%string);
   (9, "Bad file number"%string);
   (10, "No child processes"%string);
   (11, "Try again (operation would block)"%string);
   (12, "Out of memory"%string);
   (13, "Permission denied"%string);
   (14, "Bad address"%string);
   (15, "Block device required"%string);
   (16, "Device or resource busy"%string);
   (17, "File exists"%string);
   (18, "Cross-device link"%string);
   (19, "No such device"%string);
   (20, "Not a directory"%string);
   (21, "Is a directory"%string);
   (22, "Invalid argument"%string);
   (23, "File table overflow"%string);
   (24, "Too many open files"%string);
   (25, "Not a typewriter"%string);
   (26, "Text file busy"%string);
   (27, "File too large"%string);
   (28, "No space rest on device"%string);
   (29, "Illegal seek"%string);
   (30, "Read-only file system"%string);
   (31, "Too many links"%string);
   (32, "Broken pipe"%string);
   (33, "Math argument out of domain of func"%string);
   (34, "Math result not representable"%string);
   (35, "Resource deadlock would occur"%string);
   (36, "File name too long"%string);
   (37, "No record locks available"%string);
   (38, "Invalid system call number"%string);
   (39, "Directory not empty"%string);
   (40, "Too many symbolic links encountered"%string);
   (42, "No message of desired type"%string);
   (43, "Identifier removed"%string);
   (44, "Channel number out of range"%string);
   (45, "Level 2 not synchronized"%string);
   (46, "Level 3 halted"%string);
   (47, "Level 3 reset"%string);
   (48, "Link number out of range"%string);
   (49, "Protocol driver not attached"%string);
   (50, "No CSI structure available"%string);
   (51, "Level 2 halted"%string);
   (52, "Invalid exchange"%string);
   (53, "Invalid request descriptor"%string);
   (54, "Exchange full"%string);
   (55, "No anode"%string);
   (56, "Invalid request code"%string);
   (57, "Invalid slot"%string);
   (59, "Bad font file format"%string);
   (60, "Device not a stream"%string);
   (61, "No data available"%string);
   (62, "Timer expired"%string);
   (63, "Out of streams resources"%string);
   (64, "Machine is not on the network"%string);
   (65, "Package not installed"%string);
   (66, "Object is remote"%string);
   (67, "Link has been severed"%string);
   (68, "Advertise error"%string);
   (69, "Srmount error"%string);
   (70, "Communication error on send"%string);
   (71, "Protocol error"%string);
   (72, "Multihop attempted"%string);
   (73, "RFS specific error"%string);
   (74, "Not a data message"%string);
   (75, "Value too large for defined data type"%string);
   (76, "Name not unique on network"%string);
   (77, "File descriptor in bad state"%string);
   (78, "Remote address changed"%string);
   (79, "Can not access a needed shared library"%string);
   (80, "Accessing a corrupted shared library"%string);
   (81, ".lib section in a.out corrupted"%string);
   (82, "Attempting to link in too many shared libraries"%string);
   (83, "Cannot exec a shared library directly"%string);
   (84, "Illegal byte sequence"%string);
   (85, "Interrupted system call should be restarted"%string);
   (86, "Streams pipe error"%string);
   (87, "Too many users"%string);
   (88, "Socket operation on non-socket"%string);
   (89, "Destination address required"%string);
   (90, "Message too long"%string);
   (91, "Protocol wrong type for socket"%string);
   (92, "Protocol not available"%string);
   (93, "Protocol not supported"%string);
   (94, "Socket type not supported"%string);
   (95, "Operation not supported on transport endpoint"%string);
   (96, "Protocol family not supported"%string);
   (97, "Address family not supported by protocol"%string);
   (98, "Address already in use"%string);
   (99, "Cannot assign requested address"%string);
   (100, "Network is down"%string);
   (101, "Network is unreachable"%string);
   (102, "Network dropped connection because of reset"%string);
   (103, "Software caused connection abort"%string);
   (104, "Connection reset by peer"%string);
   (105, "No buffer space available"%string);
   (106, "Transport endpoint is already connected"%string);
   (107, "Transport endpoint is not connected"%string);
   (108, "Cannot send after transport endpoint shutdown"%string);
   (109, "Too many references: cannot splice"%string);
   (110, "Connection timed out"%string);
   (111, "Connection refused"%string);
   (112, "Host is down"%string);
   (113, "No route to host"%string);
   (114, "Operation already in progress"%string);
   (115, "Operation now in progress"%string);
   (116, "Stale file handle"%string);
   (117, "Structure needs cleaning"%string);
   (118, "Not a XENIX named type file"%string);
   (119, "No XENIX semaphores available"%string);
   (120, "Is a named type file"%string);
   (121, "Remote I/O error"%string);
   (122, "Quota exceeded"%string);
   (123, "No medium found"%string);
   (124, "Wrong medium type"%string);
   (125, "Operation Canceled"%string);
   (126, "Required key not available"%string);
   (127, "Key has expired"%string);
   (128, "Key has been revoked"%string);
   (129, "Key was rejected by service"%string);
   (130, "Owner died"%string);
   (131, "State not recoverable"%string);
   (132, "Operation not possible due to RF-kill"%string);
   (133, "Memory page has hardware error"%string);
   (255, ""%string)].

Definition signals_init : list (Z * string) :=
  [(0, "Unknown signal 0"%string);
   (1, "Hangup"%string);
   (2, "Interrupt"%string);
   (3, "Quit"%string);
   (4, "Illegal instruction"%string);
   (5, "Trace/breakpoint trap"%string);
   (6, "Aborted"%string);
   (7, "Bus error"%string);
   (8, "Floating point exception"%string);
   (9, "Killed"%string);
   (10, "User defined signal 1"%string);
   (11, "Segmentation fault"%string);
   (12, "User defined signal 2"%string);
   (13, "Broken pipe"%string);
   (14, "Alarm clock"%string);
   (15, "Terminated"%string);
   (16, "Stack fault"%string);
   (17, "Child exited"%string);
   (18, "Continued"%string);
   (19, "Stopped (signal)"%string);
   (20, "Stopped"%string);
   (21, "Stopped (tty input)"%string);
   (22, "Stopped (tty output)"%string);
   (23, "Urgent I/O condition"%string);
   (24, "CPU time limit exceeded"%string);
   (25, "File size limit exceeded"%string);
   (26, "Virtual timer expired"%string);
   (27, "Profiling timer expired"%string);
   (28, "Window changed"%string);
   (29, "I/O possible"%string);
   (30, "Power failure"%string);
   (31, "Bad system call"%string);
   (32, "Unknown signal 32"%string);
   (33, "Unknown signal 33"%string);
   (34, "Real-time signal 0"%string);
   (35, "Real-time signal 1"%string);
   (36, "Real-time signal 2"%string);
   (37, "Real-time signal 3"%string);
   (38, "Real-time signal 4"%string);
   (39, "Real-time signal 5"%string);
   (40, "Real-time signal 6"%string);
   (41, "Real-time signal 7"%string);
   (42, "Real-time signal 8"%string);
   (43, "Real-time signal 9"%string);
   (44, "Real-time signal 10"%string);
   (45, "Real-time signal 11"%string);
   (46, "Real-time signal 12"%string);
   (47, "Real-time signal 13"%string);
   (48, "Real-time signal 14"%string);
   (49, "Real-time signal 15"%string);
   (50, "Real-time signal 16"%string);
   (51, "Real-time signal 17"%string);
   (52, "Real-time signal 18"%string);
   (53, "Real-time signal 19"%string);
   (54, "Real-time signal 20"%string);
   (55, "Real-time signal 21"%string);
   (56, "Real-time signal 22"%string);
   (57, "Real-time signal 23"%string);
   (58, "Real-time signal 24"%string);
   (59, "Real-time signal 25"%string);
   (60, "Real-time signal 26"%string);
   (61, "Real-time signal 27"%string);
   (62, "Real-time signal 28"%string);
   (63, "Real-time signal 29"%string);
   (64, "Real-time signal 30"%string);
   (127, ""%string)].

(** An array with designated initialisers: as long as its greatest index needs, the other
    elements empty. *)
Definition init_array (l : list (Z * string)) : list string :=
  foldl (fun a e => <[Z.to_nat e.1 := e.2]> a)
    (replicate (Z.to_nat (foldl (fun m e => Z.max m e.1) (-1) l + 1)) EmptyString) l.

Definition errors : list string := init_array errors_init.
Definition signals : list string := init_array signals_init.
Definition unknown_error : string := "Unknown error".
Definition unknown_signal : string := "N/A".
Definition unknown_syscall : string := "Unknown syscall".

(** The common part of the three functions. *)
Definition name_at (table : list string) (mask : Z) (unknown : string) (n : Z) : option string :=
  if (n >=? 0) && (n <? mask) then
    s ← zget table (n &' mask);
    Some (if String.eqb s EmptyString then unknown else s)
  else Some unknown.

Definition strerror (errno : Z) : option string :=
  let errno := if errno <? 0 then s32 (- errno) else errno in
  name_at errors ERROR_INDEX_MASK unknown_error errno.

Definition signal_name (sig : Z) : option string := name_at signals SIGNAL_INDEX_MASK unknown_signal sig.

(** The table depends on the target architecture. *)
Definition syscall_name (syscall_names : list string) (n : Z) : option string :=
  name_at syscall_names SYSCALL_INDEX_MASK unknown_syscall n.

(** ** C strings *)
Lemma c_str_le l : (length (c_str l) <= length l)%nat.
Proof. induction l as [|c l IH]; cbn [c_str]; [done|]. destruct (c =? 0); cbn [length]; lia. Qed.

(** The bytes before the end of the string are not NUL, the byte at its end is. *)
Lemma c_str_inside l i : (i < length (c_str l))%nat -> exists c, l !! i = Some c /\ c <> 0 /\ c_str l !! i = Some c.
Proof.
  revert i; induction l as [|c l IH]; intros i; cbn [c_str]; [cbn; lia|]. destruct (Z.eqb_spec c 0) as [->|Hc]; [cbn; lia|].
  cbn [length]. intros Hi. destruct i as [|i]; [by exists c|]. apply IH. lia.
Qed.

Lemma c_str_end l : (length (c_str l) < length l)%nat -> l !! length (c_str l) = Some 0.
Proof.
  induction l as [|c l IH]; cbn [c_str]; [cbn; lia|]. destruct (Z.eqb_spec c 0) as [->|Hc]; [done|]. cbn [length]. intros H.
  apply IH. lia.
Qed.

Lemma c_str_nonzero l : Forall (fun c => c <> 0) (c_str l).
Proof. induction l as [|c l IH]; cbn [c_str]; [constructor|]. destruct (Z.eqb_spec c 0); [constructor|by constructor]. Qed.

Lemma c_str_prefix l : take (length (c_str l)) l = c_str l.
Proof. induction l as [|c l IH]; cbn [c_str]; [done|]. destruct (c =? 0); [done|]. cbn [length take]. by rewrite IH. Qed.

(** ** Length *)
Section laws.
Context (k : kernel) {Hk : KernelLaws k}.

Lemma strnlen_fallback buf max : k_strnlen k = None -> 0 <= max <= BPF_MAX_LOOPS -> max <= Z.of_nat (length buf) ->
  bpf_strnlen k buf max = Some (Z.of_nat (length (c_str (take (Z.to_nat max) buf)))).
Proof.
  intros Hn Hm Hb. unfold bpf_strnlen, BPF_MAX_LOOPS in *. rewrite Hn. rewrite (wrap_small 32 max) by lia.
  set (l := take (Z.to_nat max) buf). assert (length l = Z.to_nat max) as Hl by (subst l; rewrite length_take; lia).
  pose proof (c_str_le l) as Hle.
  assert (forall i, 0 <= i < Z.of_nat (length (c_str l)) -> strnlen_cb buf max i = Some 0) as Hin.
  { intros i Hi. destruct (c_str_inside l (Z.to_nat i)) as (c & Hc & Hc0 & _); [lia|]. unfold strnlen_cb.
    rewrite Z.geb_leb, (proj2 (Z.leb_gt _ _)) by lia. subst l. rewrite lookup_take_lt in Hc by lia.
    rewrite (proj2 (zget_Some buf i c)) by (split; [lia|done]). cbn [mbind option_bind]. by rewrite (proj2 (Z.eqb_neq c 0)). }
  destruct (decide (length (c_str l) = Z.to_nat max)) as [E|Hne].
  - rewrite (loop_all max) by (first [intros i Hi; apply Hin; lia | unfold BPF_MAX_LOOPS; lia]). cbn [mbind option_bind].
    rewrite swrap_small by lia. destruct (Z.leb_spec max 0); [f_equal; lia|]. rewrite wrap_small, Z.eqb_refl by lia.
    destruct (c_str_inside l (Z.to_nat (max - 1))) as (c & Hc & Hc0 & _); [lia|]. subst l. rewrite lookup_take_lt in Hc by lia.
    rewrite (proj2 (zget_Some buf (max - 1) c)) by (split; [lia|done]). cbn [mbind option_bind].
    rewrite (proj2 (Z.eqb_neq c 0)) by done. cbn [negb]. f_equal. lia.
  - pose proof (c_str_end l ltac:(lia)) as He. subst l. rewrite lookup_take_lt in He by lia.
    set (n := length (c_str _)) in *.
    assert (zget buf (Z.of_nat n) = Some 0) as Hz by (apply zget_Some; split; [lia|by rewrite Nat2Z.id]).
    rewrite (loop_stop max _ (Z.of_nat n)); [|unfold BPF_MAX_LOOPS; lia|lia|done|].
    2: { unfold strnlen_cb. rewrite Z.geb_leb, (proj2 (Z.leb_gt _ _)) by lia. by rewrite Hz. }
    cbn [mbind option_bind]. rewrite swrap_small by lia. rewrite (proj2 (Z.leb_gt _ _)) by lia. rewrite wrap_small by lia.
    replace (Z.of_nat n + 1 - 1) with (Z.of_nat n) by lia. destruct (Z.of_nat n + 1 =? max); [|done]. by rewrite Hz.
Qed.

(** On a kernel without bpf_strnlen, [__bpf_strnlen] returns the length of the string in
    the first [max_size] bytes of the buffer (all of them if there is no NUL) and reads no byte
    beyond; a size above the limit of bpf_loop gives -E2BIG. *)
Theorem strnlen_correct buf max : k_strnlen k = None -> 0 <= max < 2 ^ 31 -> max <= Z.of_nat (length buf) ->
  bpf_strnlen k buf max =
    Some (if max <=? BPF_MAX_LOOPS then Z.of_nat (length (c_str (take (Z.to_nat max) buf))) else - E2BIG).
Proof.
  intros Hn Hm Hb. destruct (Z.leb_spec max BPF_MAX_LOOPS) as [Hle|Hgt]; [apply strnlen_fallback; [done|lia|done]|].
  unfold bpf_strnlen. rewrite Hn, (wrap_small 32 max) by lia. by rewrite loop_many.
Qed.

(** ** Concatenation *)

(** [__bpf_str_concat] on a buffer that holds a string, with room for its NUL: the buffer
    then holds the two strings joined, cut to the space it has; nothing outside it is written
    and the result counts the bytes copied with their NUL. *)
Theorem str_concat_correct dst src : k_strnlen k = None -> Z.of_nat (length dst) <= BPF_MAX_LOOPS -> 0 ∈ dst ->
  Forall (fun c => c <> 0) src ->
  exists dst', bpf_str_concat k dst (Z.of_nat (length dst)) src =
      Some (Z.of_nat (length (c_str dst')) - Z.of_nat (length (c_str dst)) + 1, dst') /\
    length dst' = length dst /\ 0 ∈ dst' /\ c_str dst' = take (length dst - 1) (c_str dst ++ src).
Proof.
  intros Hn Hl H0 Hsrc. unfold bpf_str_concat. rewrite (strnlen_fallback dst) by (done || lia).
  rewrite Nat2Z.id, firstn_all. cbn [mbind option_bind]. set (n := length (c_str dst)).
  assert (n < length dst)%nat as Hlt.
  { subst n. clear - H0. induction dst as [|c dst IH]; [by apply elem_of_nil in H0|]. cbn [c_str]. destruct (Z.eqb_spec c 0); [cbn; lia|].
    apply elem_of_cons in H0 as [|H0]; [done|]. specialize (IH H0). cbn [length]. lia. }
  rewrite (proj2 (Z.ltb_ge _ _)) by lia. rewrite Z.geb_leb, (proj2 (Z.leb_gt _ _)) by lia. cbn [orb].
  unfold BPF_MAX_LOOPS in Hl. rewrite wrap_small by lia. rewrite read_str_ok by lia.
  set (s := take _ src). assert (Forall (fun c => c <> 0) s) as Hs by by apply Forall_take.
  assert (length s <= length dst - n - 1)%nat as Hls by (subst s; rewrite length_take; lia).
  unfold memcpy_at. rewrite (proj2 (Z.leb_le _ _)) by lia. rewrite (proj2 (Z.leb_le _ _)) by (rewrite length_app; cbn; lia).
  cbn [andb mbind option_bind]. set (dst' := take _ dst ++ _). assert (c_str dst' = c_str dst ++ s) as E.
  { subst dst'. rewrite Nat2Z.id. subst n. rewrite c_str_prefix, <- app_assoc. cbn [app]. rewrite app_assoc.
    apply c_str_string. apply Forall_app; split; [apply c_str_nonzero|done]. }
  exists dst'. split; [|split; [|split]].
  - f_equal. f_equal. rewrite E, length_app. lia.
  - subst dst'. rewrite !length_app, length_take, length_drop. cbn. lia.
  - subst dst'. apply elem_of_app. right. apply elem_of_app. left. apply elem_of_app. right. by apply list_elem_of_singleton.
  - rewrite E. subst s. rewrite take_app_ge by lia. fold n. do 2 f_equal. lia.
Qed.
End laws.

(** ** Search *)

(** The string [n] occurs in [h] at [i]. *)
Definition occurs (n h : list Z) (i : nat) : Prop := take (length n) (drop i h) = n.
#[export] Instance occurs_dec n h i : Decision (occurs n h i).
Proof. unfold occurs. apply _. Defined.

Lemma occurs_bound n h i : occurs n h i -> n <> [] -> (i + length n <= length h)%nat.
Proof.
  intros H Hn. apply (f_equal length) in H. rewrite length_take, length_drop in H. destruct n; [done|]. cbn [length] in *. lia.
Qed.

Section search.
Context (hay nee : list Z) (H0 : 0 ∈ hay) (Hlen : Z.of_nat (length hay) < 2 ^ 31).

Lemma c_str_inside_len : (length (c_str hay) < length hay)%nat.
Proof.
  clear Hlen. induction hay as [|c l IH]; [by apply elem_of_nil in H0|]. cbn [c_str]. destruct (Z.eqb_spec c 0); [cbn; lia|].
  apply elem_of_cons in H0 as [|H1]; [done|]. specialize (IH H1). cbn [length]. lia.
Qed.

Lemma needle_loop_spec i : (i <= length (c_str hay))%nat -> forall rest j,
  (rest + j = length nee)%nat -> (j <= length (c_str nee))%nat -> take j (drop i (c_str hay)) = take j (c_str nee) ->
  exists r, needle_loop rest hay nee (Z.of_nat (length hay)) (Z.of_nat i) (Z.of_nat j) = Some r /\
    (occurs (c_str nee) (c_str hay) i -> r = inl (Z.of_nat i) \/ r = inr (Z.of_nat (length nee))) /\
    (~ occurs (c_str nee) (c_str hay) i -> exists j', r = inr j' /\ j' <> Z.of_nat (length nee)).
Proof.
  intros Hi. pose proof c_str_inside_len as Hh. pose proof (c_str_le nee) as Hn.
  induction rest as [|rest IH]; intros j Hr Hj Hm; cbn [needle_loop].
  - eexists. split; [done|]. split; [intros _; right; f_equal; lia|]. intros Hno. exfalso. apply Hno. unfold occurs.
    replace (length (c_str nee)) with j by lia. rewrite Hm. apply take_ge. lia.
  - assert (i + j <= length (c_str hay))%nat as Hij.
    { apply (f_equal length) in Hm. rewrite !length_take, length_drop in Hm. lia. }
    destruct (decide (j = length (c_str nee))) as [->|Hne].
    + rewrite (proj2 (zget_Some nee _ 0)) by (split; [lia|]; rewrite Nat2Z.id; apply c_str_end; lia). cbn [mbind option_bind Z.eqb].
      eexists. split; [done|]. rewrite swrap_small by lia. split; [by left|]. intros Hno. exfalso. apply Hno. unfold occurs.
      rewrite Hm. by rewrite firstn_all.
    + destruct (c_str_inside nee j) as (c & Hc & Hc0 & Hcn); [lia|].
      rewrite (proj2 (zget_Some nee _ c)) by (split; [lia|]; by rewrite Nat2Z.id). cbn [mbind option_bind].
      rewrite (proj2 (Z.eqb_neq c 0)) by done. rewrite Z.gtb_ltb, (proj2 (Z.ltb_ge _ _)) by lia.
      assert (exists x, hay !! (i + j)%nat = Some x /\ (c_str hay !! (i + j)%nat = Some c <-> x = c)) as (x & Hx & Hxc).
      { destruct (decide (i + j = length (c_str hay))%nat) as [E|].
        - exists 0. rewrite E. split; [by apply c_str_end|]. rewrite lookup_ge_None_2 by lia. split; [done|intros <-; done].
        - destruct (c_str_inside hay (i + j)) as (x & Hx & _ & Hx'); [lia|]. exists x. split; [done|]. rewrite Hx'. naive_solver. }
      rewrite (proj2 (zget_Some hay _ x)) by (split; [lia|]; by replace (Z.to_nat _) with (i + j)%nat by lia). cbn [mbind option_bind].
      destruct (Z.eqb_spec x c) as [->|Hxn]; cbn [negb].
      * replace (Z.of_nat j + 1) with (Z.of_nat (S j)) by lia. apply IH; [lia|lia|].
        rewrite (take_S_r _ _ c), (take_S_r (c_str nee) _ c), Hm; [done|done|]. rewrite lookup_drop. by apply Hxc.
      * eexists. split; [done|]. split; [|intros _; eexists; split; [done|lia]]. intros Ho. exfalso. apply Hxn, Hxc.
        unfold occurs in Ho. rewrite <- Ho, lookup_take_lt, lookup_drop in Hcn by lia. done.
Qed.

Lemma strnstr_loop_spec : c_str nee <> [] -> forall rest i, (rest + i = length hay)%nat -> (i <= length (c_str hay))%nat ->
  (forall j, (j < i)%nat -> ~ occurs (c_str nee) (c_str hay) j) ->
  exists r, strnstr_loop rest hay nee (Z.of_nat (length hay)) (Z.of_nat (length nee)) (Z.of_nat i) = Some r /\
    ((exists p, r = Z.of_nat p /\ occurs (c_str nee) (c_str hay) p /\ forall j, (j < p)%nat -> ~ occurs (c_str nee) (c_str hay) j) \/
     (r = -1 /\ forall j, ~ occurs (c_str nee) (c_str hay) j)).
Proof.
  intros Hne. pose proof c_str_inside_len as Hh. induction rest as [|rest IH]; intros i Hr Hi Hno; [lia|]. cbn [strnstr_loop].
  destruct (decide (i = length (c_str hay))) as [->|Hni].
  - rewrite (proj2 (zget_Some hay _ 0)) by (split; [lia|]; rewrite Nat2Z.id; by apply c_str_end). cbn [mbind option_bind Z.eqb].
    eexists. split; [done|]. right. split; [done|]. intros j Hj. destruct (decide (j < length (c_str hay))%nat); [by apply (Hno j)|].
    apply occurs_bound in Hj; [|done]. destruct (c_str nee); [done|]. cbn [length] in Hj. lia.
  - destruct (c_str_inside hay i) as (x & Hx & Hx0 & _); [lia|].
    rewrite (proj2 (zget_Some hay _ x)) by (split; [lia|]; by rewrite Nat2Z.id). cbn [mbind option_bind].
    rewrite (proj2 (Z.eqb_neq x 0)) by done. rewrite Nat2Z.id.
    destruct (needle_loop_spec i Hi (length nee) 0) as (r & E & Hyes & Hnot); [lia|lia|done|].
    change (Z.of_nat 0) with 0 in E. rewrite E. cbn [mbind option_bind].
    destruct (decide (occurs (c_str nee) (c_str hay) i)) as [Ho|Ho].
    + exists (Z.of_nat i). split; [|left; eauto]. destruct (Hyes Ho) as [-> | ->]; [done|]. by rewrite Z.eqb_refl, swrap_small by lia.
    + destruct (Hnot Ho) as (j' & -> & Hj'). rewrite (proj2 (Z.eqb_neq _ _)) by done.
      replace (Z.of_nat i + 1) with (Z.of_nat (S i)) by lia. apply IH; [lia|lia|]. intros j Hj.
      destruct (decide (j = i)) as [->|]; [done|]. apply Hno. lia.
Qed.
End search.

(** C38. On a kernel without bpf_strnstr, [__bpf_strnstr] with a NUL-terminated haystack and a
    non-empty needle whose buffer is not larger returns the first position where the needle
    occurs, or -1 if it occurs nowhere, and stays inside both buffers. *)
Theorem strnstr_correct k hay nee : k_strnstr k = None -> 0 ∈ hay -> Z.of_nat (length hay) < 2 ^ 31 ->
  (length nee <= length hay)%nat -> c_str nee <> [] ->
  exists r, bpf_strnstr k hay nee (Z.of_nat (length hay)) (Z.of_nat (length nee)) = Some r /\
    ((exists p, r = Z.of_nat p /\ occurs (c_str nee) (c_str hay) p /\ forall j, (j < p)%nat -> ~ occurs (c_str nee) (c_str hay) j) \/
     (r = -1 /\ forall j, ~ occurs (c_str nee) (c_str hay) j)).
Proof.
  intros Hk H0 Hl Hle Hne. unfold bpf_strnstr. rewrite Hk. rewrite Z.gtb_ltb, (proj2 (Z.ltb_ge _ _)) by lia. rewrite Nat2Z.id.
  apply (strnstr_loop_spec hay nee H0 Hl Hne (length hay) 0); [lia|lia|]. intros j Hj. lia.
Qed.

(** A kernel whose helpers do what their documentation says, without the string functions. *)
Fixpoint loop_from (rest : nat) (cb : Z -> option Z) (i : Z) : option Z :=
  match rest with
  | O => Some i
  | S rest => r ← cb i; if r =? 0 then loop_from rest cb (i + 1) else Some (i + 1)
  end.

Definition loop_kernel : kernel := Kernel None None
  (fun n cb => if BPF_MAX_LOOPS <? n then Some (- E2BIG) else loop_from (Z.to_nat n) cb 0)
  (fun size s => (Z.of_nat (length (take (Z.to_nat (size - 1)) s)) + 1, take (Z.to_nat (size - 1)) s ++ [0])).

Lemma loop_from_skip cb m : forall i rest, (forall j, i <= j < i + Z.of_nat m -> cb j = Some 0) ->
  loop_from (m + rest) cb i = loop_from rest cb (i + Z.of_nat m).
Proof.
  induction m as [|m IH]; intros i rest H; [by rewrite Z.add_0_r|]. cbn [Nat.add loop_from]. rewrite H by lia.
  cbn [mbind option_bind Z.eqb]. rewrite IH by (intros j Hj; apply H; lia). f_equal. lia.
Qed.

#[export] Instance loop_kernel_laws : KernelLaws loop_kernel.
Proof.
  constructor.
  - intros n cb Hn H. cbn [k_loop loop_kernel]. rewrite (proj2 (Z.ltb_ge _ _)) by lia.
    replace (Z.to_nat n) with (Z.to_nat n + 0)%nat by lia. rewrite loop_from_skip by (intros j Hj; apply H; lia). cbn. f_equal. lia.
  - intros n cb i Hn Hi H H1. cbn [k_loop loop_kernel]. rewrite (proj2 (Z.ltb_ge _ _)) by lia.
    replace (Z.to_nat n) with (Z.to_nat i + S (Z.to_nat (n - i - 1)))%nat by lia.
    rewrite loop_from_skip by (intros j Hj; apply H; lia). replace (0 + Z.of_nat (Z.to_nat i)) with i by lia.
    cbn [loop_from]. by rewrite H1.
  - intros n cb Hn. cbn [k_loop loop_kernel]. by rewrite (proj2 (Z.ltb_lt _ _)).
  - done.
Qed.

Lemma strnlen_correct_witness : bpf_strnlen loop_kernel [97; 98; 0; 99] 4 = Some 2.
Proof. apply (strnlen_correct loop_kernel [97; 98; 0; 99] 4); [done|lia|cbn; lia]. Defined.

Lemma str_concat_correct_witness : exists dst', bpf_str_concat loop_kernel [97; 0; 0; 0] 4 [98; 99; 100] =
    Some (Z.of_nat (length (c_str dst')) - Z.of_nat (length (c_str [97; 0; 0; 0])) + 1, dst') /\
  length dst' = 4%nat /\ 0 ∈ dst' /\ c_str dst' = [97; 98; 99].
Proof.
  apply (str_concat_correct loop_kernel [97; 0; 0; 0] [98; 99; 100]); [done|done| |].
  - apply elem_of_cons. right. apply elem_of_cons. by left.
  - repeat (apply Forall_cons_2; [done|]). apply Forall_nil_2.
Defined.

Lemma strnstr_correct_witness : exists r, bpf_strnstr loop_kernel [97; 97; 98; 0] [97; 98; 0] 4 3 = Some r /\
  ((exists p, r = Z.of_nat p /\ occurs [97; 98] [97; 97; 98] p /\ forall j, (j < p)%nat -> ~ occurs [97; 98] [97; 97; 98] j) \/
   (r = -1 /\ forall j, ~ occurs [97; 98] [97; 97; 98] j)).
Proof.
  apply (strnstr_correct loop_kernel [97; 97; 98; 0] [97; 98; 0]); [done| |cbn; lia|cbn; lia|done].
  do 3 (apply elem_of_cons; right). apply elem_of_cons. by left.
Defined.

(** Without a NUL in the haystack [__bpf_strnstr] reads the byte after its end: the test
    for the end of the haystack admits the index [haystack_size]. *)
Theorem strnstr_reads_past_end k : k_strnstr k = None -> bpf_strnstr k [97; 97; 98] [98; 120] 3 2 = None.
Proof. intros H. unfold bpf_strnstr. by rewrite H. Qed.

Lemma strnstr_reads_past_end_witness : bpf_strnstr loop_kernel [97; 97; 98] [98; 120] 3 2 = None.
Proof. by apply (strnstr_reads_past_end loop_kernel). Defined.

(** The sizes [__bpf_strnstr] compares are those of the buffers: a needle that occurs is
    not found when its buffer is larger than the one of the haystack. *)
Theorem strnstr_larger_buffer k hay nee : k_strnstr k = None -> (length hay < length nee)%nat ->
  bpf_strnstr k hay nee (Z.of_nat (length hay)) (Z.of_nat (length nee)) = Some (-1).
Proof. intros H Hl. unfold bpf_strnstr. rewrite H. by rewrite Z.gtb_ltb, (proj2 (Z.ltb_lt _ _)) by lia. Qed.

Lemma strnstr_larger_buffer_witness :
  bpf_strnstr loop_kernel [97; 98; 0] [97; 0; 0; 0] 3 4 = Some (-1) /\ occurs (c_str [97; 0; 0; 0]) (c_str [97; 98; 0]) 0.
Proof. split; [|done]. apply (strnstr_larger_buffer loop_kernel [97; 98; 0] [97; 0; 0; 0]); [done|cbn; lia]. Defined.

(** ** Comparison *)
Lemma memcmp_loop_spec l r : forall rest i, (rest + i <= length l)%nat -> (rest + i <= length r)%nat ->
  Forall (fun b => 0 <= b < 256) l -> Forall (fun b => 0 <= b < 256) r ->
  exists v, memcmp_loop rest l r (Z.of_nat i) = Some v /\ (v = 0 <-> take rest (drop i l) = take rest (drop i r)).
Proof.
  induction rest as [|rest IH]; intros i Hl Hr Bl Br; cbn [memcmp_loop]; [exists 0; by rewrite !take_0|].
  destruct (lookup_lt_is_Some_2 l i) as [a Ha]; [lia|]. destruct (lookup_lt_is_Some_2 r i) as [b Hb]; [lia|].
  rewrite (proj2 (zget_Some l _ a)), (proj2 (zget_Some r _ b)) by (split; [lia|by rewrite Nat2Z.id]). cbn [mbind option_bind].
  rewrite (drop_S l a i Ha), (drop_S r b i Hb). cbn [take]. destruct (Z.eqb_spec a b) as [->|Hne]; cbn [negb].
  - replace (Z.of_nat i + 1) with (Z.of_nat (S i)) by lia. destruct (IH (S i)) as (v & -> & Hv); [lia|lia|done|done|].
    exists v. split; [done|]. rewrite Hv. split; [by intros ->|by intros [= ->]].
  - eexists. split; [done|]. split; [|by intros [= ->]]. intros H. exfalso. apply Hne.
    rewrite Forall_lookup in Bl, Br. specialize (Bl _ _ Ha). specialize (Br _ _ Hb). cbn in *.
    unfold swrap in H. change (2 ^ (8 - 1)) with 128 in H. change (2 ^ 8) with 256 in H. Z.div_mod_to_equations. lia.
Qed.

(** [__memcmp] reads [count] bytes of both buffers at most and is 0 exactly when they
    agree there. *)
Theorem memcmp_correct l r count : 0 <= count <= Z.of_nat (length l) -> count <= Z.of_nat (length r) ->
  Forall (fun b => 0 <= b < 256) l -> Forall (fun b => 0 <= b < 256) r ->
  exists v, memcmp l r count = Some v /\ (v = 0 <-> take (Z.to_nat count) l = take (Z.to_nat count) r).
Proof. intros ? ? ? ?. apply (memcmp_loop_spec l r (Z.to_nat count) 0); [lia|lia|done|done]. Qed.

(** ** Names *)

(** The text a list of initialisers gives a number. *)
Definition text (l : list (Z * string)) (unknown : string) (n : Z) : string :=
  match find (fun e => (e.1 =? n) && negb (String.eqb e.2 EmptyString)) l with Some e => e.2 | None => unknown end.

(** The table of the initialisers answers every masked index, and they have no others. *)
Definition table_ok (l : list (Z * string)) (mask : Z) (unknown : string) : bool :=
  forallb (fun n => match name_at (init_array l) mask unknown n with Some s => String.eqb s (text l unknown n) | None => false end)
    (seqZ 0 mask) &&
  forallb (fun e => String.eqb e.2 EmptyString || (0 <=? e.1) && (e.1 <? mask)) l.

Lemma name_at_text l mask unknown n : table_ok l mask unknown = true -> name_at (init_array l) mask unknown n = Some (text l unknown n).
Proof.
  unfold table_ok. intros [H1 H2]%andb_prop. destruct (decide (0 <= n < mask)) as [Hin|Hout].
  - rewrite forallb_forall in H1. specialize (H1 n). rewrite <- list_elem_of_In, elem_of_seqZ in H1. specialize (H1 ltac:(lia)).
    destruct (name_at _ _ _ n); [|done]. by apply String.eqb_eq in H1 as ->.
  - unfold name_at. replace ((n >=? 0) && (n <? mask)) with false
      by (rewrite Z.geb_leb; destruct (Z.leb_spec 0 n), (Z.ltb_spec n mask); try done; lia).
    f_equal. unfold text. destruct (find _ l) as [e|] eqn:E; [|done]. apply find_some in E as [Hin E].
    rewrite forallb_forall in H2. specialize (H2 e Hin). apply andb_prop in E as [En Es]. apply Z.eqb_eq in En. subst n.
    destruct (String.eqb e.2 EmptyString); [done|]. cbn [orb] in H2. lia.
Qed.

Lemma errors_ok : table_ok errors_init ERROR_INDEX_MASK unknown_error = true.
Proof. vm_compute. reflexivity. Qed.
Lemma signals_ok : table_ok signals_init SIGNAL_INDEX_MASK unknown_signal = true.
Proof. vm_compute. reflexivity. Qed.

(** The tables are as long as the masked index needs: [__strerror] and [__signal_name]
    stay inside them for every number, a listed number (for an errno also its negation) gives
    its text, and any other the text for unknown ones. *)
Theorem names_correct n : - 2 ^ 31 <= n < 2 ^ 31 ->
  strerror n = Some (text errors_init unknown_error (Z.abs n)) /\
  signal_name n = Some (text signals_init unknown_signal n).
Proof.
  intros Hn. split; [|apply name_at_text, signals_ok]. unfold strerror. destruct (Z.ltb_spec n 0) as [Hneg|].
  - destruct (decide (n = - 2 ^ 31)) as [->|]; [reflexivity|]. rewrite swrap_small, Z.abs_neq by lia. apply name_at_text, errors_ok.
  - rewrite Z.abs_eq by lia. apply name_at_text, errors_ok.
Qed.

Lemma names_correct_witness : strerror (-2) = Some "No such file or directory"%string /\ signal_name (-2) = Some "N/A"%string.
Proof. apply (names_correct (-2)). lia. Defined.
